(* ===== verification/_CoqProject ===== *)
-Q . S2P
Prelude.v
StrBuf.v
YamlTypes.v
YamlJson.v
YamlJsonProofs.v
JsonRead.v
YamlReader.v
YamlParser.v
YamlLex.v
YamlReaderProofs.v
YamlLexProofs.v
YamlScan.v
YamlScanProofs.v
YamlScalar.v
YamlScalarProofs.v
YamlScanner.v
YamlScannerProofs.v
YamlFetchProofs.v
YamlParserProofs.v
YamlMain.v
YamlFile.v
Fe25519.v
Fe25519Proofs.v
X25519.v
X25519Proofs.v
Tls13.v
Tls13Proofs.v
Blake3.v
Blake3Chunk.v
Blake3Tree.v
Blake3Hasher.v
Blake3Main.v
Blake3Jni.v
Pbuf.v
PbufChain.v
PbufRead.v
PbufFree.v
PbufWrite.v
Chksum.v
ChksumProofs.v
PbufMain.v
Lwip.v
IpOut.v
Icmp.v
Udp.v
IpIn.v
Netif.v
Bridge.v
LwipRun.v
UdpInProofs.v
IpInProofs.v
UdpDeliver.v
BridgeInit.v
UdpSendProofs.v
UdpOut.v
BridgeMain.v
BridgeTrace.v
Jni.v
JniBridge.v
JniProofs.v
JniMain.v
Tcp.v
TcpOut.v
TcpApi.v
TcpIn.v
TcpInv.v
TcpOutProofs.v
TcpWriteProofs.v
TcpQueueProofs.v
TcpApiProofs.v
TcpOptions.v
TcpAckProofs.v
TcpDataProofs.v
TcpInProofs.v
TcpInputProofs.v
TcpTimerProofs.v
TcpTraffic.v
TcpMain.v
TcpStack.v
BridgeTcp.v
