(* ===== verification/Prelude.v ===== *)
(** * Verification of the native (C) part of Anywhere for Android

    The program is a proxy application. Its native code, under
    [src/app/src/main/jni/], has three parts that the Kotlin application reaches
    through JNI:

    - a reader of YAML configurations, [yaml_jni_bridge.c] over the library
      [libyaml/src/], which prints a document as JSON text;
    - cryptography: [blake3/] (the hash, X25519 in [CX25519.c], the key schedule of
      TLS 1.3 in [CTLSKeyDerivation.c]) with [blake3_jni_bridge.c];
    - the network path: IP packets of the tunnel enter at [nativeInput] of
      [lwip_jni_bridge.c], go through [lwip/lwip_bridge.c] and the IP stack
      [lwip/src/core/], and come back to Java as calls of [onUdpRecv], [onOutput]
      and the TCP callbacks; datagrams of Java leave through [nativeUdpSendto].

    Each C function is a definition of the same name. Machine integers are [Z] with
    their wrap-around written out ([wrap], this file). What C leaves undefined
    (reading memory that is not there or not initialised, a failed assertion) is the
    outcome [Undef], and every theorem about a run also says it is not [Undef].
    Loops that are not structural have fuel computed from their input; running out
    of it is [Undef] too (in the event parser the separate result [PFuel]), so the
    theorems that a function returns cover termination.

    ** The files

    YAML
    - [StrBuf]: [strbuf_t], the growable buffer ([yaml_jni_bridge.c]); the allocator
      is a parameter.
    - [YamlTypes]: the enums and tagged unions of [yaml.h].
    - [YamlJson], [YamlJsonProofs]: the bridge: context stack, separators, event
      switch, event loop, JNI entry point, over any source of events; its
      specification, a printer of document trees.
    - [JsonRead]: a reader of the printed JSON, and that it recovers the tree.
    - [YamlReader], [YamlReaderProofs]: [reader.c], from bytes to characters, in the
      monad the scanner uses too; rules for its postconditions.
    - [YamlLex], [YamlLexProofs]: the state of the scanner, the macros of
      [yaml_private.h] and [scanner.c] that test and consume characters, growable
      strings, and their rules. [YamlScan]: white space, directives, tags, anchors;
      [YamlScalar]: block, quoted and plain scalars; [YamlScanner]: the queue of
      tokens, the stacks, the fetch functions, and the scanner as an instance of the
      parser's interface. [YamlScanProofs], [YamlScalarProofs], [YamlScannerProofs],
      [YamlFetchProofs]: that every scan function stays inside its strings and the
      buffer and consumes what it should, the invariant of queue and stacks, and that
      every call ends: the laws [ScannerLaws].
    - [YamlParser], [YamlParserProofs]: [parser.c], over the interface [Scanner] of
      tokens, with the laws [ScannerLaws].
    - [YamlMain]: event streams and document trees, and the theorems about parser,
      bridge and both together, over any scanner with these laws; [YamlFile]: the same
      from the characters of a file to the string, with [libyaml]'s scanner.

    Cryptography
    - [Fe25519], [Fe25519Proofs]: [CX25519.c], the field; [X25519], [X25519Proofs]:
      the ladder, the agreement, key generation over a [/dev/urandom] parameter.
    - [Tls13], [Tls13Proofs]: [CTLSKeyDerivation.c] over the platform's HMAC and
      hash (class [CommonCrypto]).
    - [Blake3]: [blake3_portable.c], [blake3_dispatch.c], [blake3_impl.h],
      [blake3.c]; [Blake3Chunk], [Blake3Tree], [Blake3Hasher]: the
      tree of chunks as a specification and the proofs; [Blake3Main]: the theorems;
      [Blake3Jni]: [blake3_jni_bridge.c].

    Network
    - [Pbuf]: [pbuf.c] on a heap of buffers and memory blocks with reference
      counts; [malloc] is a class. [PbufChain], [PbufRead], [PbufFree], [PbufWrite]:
      what it means for a chain to hold a packet, and the operations on it.
    - [Chksum], [ChksumProofs]: [inet_chksum.c]. [PbufMain]: the theorems about
      buffers and checksums.
    - [Lwip]: the state of the stack and its monad: heap, the one interface, the
      globals of the current packet, UDP control blocks, the statics of the bridge,
      and the trace of calls to the application. [IpOut]: the callbacks of
      [lwip_bridge.c], and the output of [ip4.c] and [ip6.c]; [IpIn]: their input and
      [ip.c]. [Icmp]: [icmp.c], [icmp6.c]. [Udp]: [udp.c]. [Netif]: [netif.c].
      [Bridge]: the rest of [lwip_bridge.c], and [lwip_init]. TCP and neighbour discovery are the class
      [Protocols]'s operations there; TCP has files of its own.
    - [LwipRun]: symbolic execution of this code. [UdpInProofs], [IpInProofs],
      [UdpDeliver]: a datagram from the interface;
      [UdpSendProofs], [UdpOut]: a datagram from the application; [BridgeInit]:
      starting and stopping; [BridgeTrace]: which calls the stack can make;
      [BridgeMain]: the theorems.
    - [Jni], [JniBridge], [JniProofs], [JniMain]: the JVM as the bridge sees it
      (reference tables, arrays, pending exceptions), [lwip_jni_bridge.c], and the
      theorems from Java to Java.

    TCP
    - [Tcp]: a connection: its control block ([tcp.h], [tcp_priv.h]), the globals of
      [tcp_in.c], the list it is on, whether its block is in use, and the trace of what
      it sends, of what the application wrote and of the callbacks. IP output, memory
      and the application are the class [Environment]; the application is a program
      over the API ([app_prog]) that may answer from a callback.
    - [TcpOut]: [tcp_out.c]; [TcpApi]: closing, receive window, callbacks and refused
      data of [tcp.c]; [TcpIn]: [tcp_in.c] for a connection, for one in TIME-WAIT and
      for a SYN to a listener, and what the timers of [tcp.c] do with it.
    - [TcpInv]: weakest preconditions ([twp]), the sum of an outgoing segment, and the
      invariant [sending] of the send side; [TcpOutProofs], [TcpWriteProofs],
      [TcpQueueProofs]: output, [tcp_write], control segments and retransmission keep
      it; [TcpApiProofs]: so do closing and programs of the application ([calm] ones
      leave the connection open); [TcpAckProofs]: acknowledgements.
    - [TcpOptions]: what options say. [TcpDataProofs]: the receive side, data against
      the peer's stream; [TcpInProofs]: the state machine; [TcpInputProofs]:
      [tcp_input] with its callbacks, and the answer to a SYN; [TcpTimerProofs]: the
      timers and TIME-WAIT. [TcpTraffic]: what is queued and what is sent.
    - [TcpMain]: sequences of operations on a connection, and the theorems about one.
    - [TcpStack]: the lists of control blocks ([tcp_active_pcbs] and the others), the
      decoding of headers, the search, [tcp_alloc] with its reclaiming, [tcp_input] from
      the bytes of a packet and the timers over all connections, and the theorems.
    - [BridgeTcp]: the TCP half of [lwip_bridge.c]: its callbacks as an application of
      lwIP over Java methods, [tcp_bind] and [tcp_listen], the two listeners for all
      ports, and the end of all connections, with the theorems.

    ** The theorems

    - YAML: [nativeParseYaml] returns the text of the documents, or null, in every
      case, whatever the bytes of the file are, and the text of a document reads back as
      its value; the event parser emits well nested events, stops, and keeps its
      errors; the scanner reads any text to its end or to an error.
    - Cryptography: the field arithmetic of X25519 computes modulo 2^255-19, the
      scalar multiplication is the Montgomery ladder of RFC 7748, two parties agree;
      the handshake and application keys are those of RFC 8446; hashing in pieces is
      hashing at once, and equals the tree of the BLAKE3 paper.
    - Network: operations on packet buffers keep the heap and the packet; checksums
      are those of RFC 1071; a datagram that enters at [nativeInput] is handed to
      Java with its addresses, ports and contents, one that Java sends leaves as a
      packet with valid checksums; starting ([lwip_init] with the port it draws
      included), stopping, and releasing what was acquired, whatever packets and calls
      the end of the TCP connections makes; at the JNI boundary, on a machine that
      grants allocations and with Java methods that throw nothing.
    - TCP: over the life of a connection, under segments of its peer's stream, timers, calls
      and failures, no assertion fails up to a slow timer that finds the persist timer
      about to fail one ([TcpTimerProofs.persist_fault]), what is sent is what was written
      at its place,
      and what the application gets is a prefix of what the peer sent; writing is all or
      nothing; a segment in order is taken whole; output fills the peer's window and
      stays inside it; resets need the exact sequence number; a dead peer is given up;
      options are applied as they read. For the whole of TCP
      ([TcpStack.stack_stays_settled]): packets, stray and malformed ones too, and timers
      in any order leave every connection whole, on the list its state calls for, up to
      such a slow timer, with calls of the application in between; a segment sent reads
      back; a
      segment goes to its connection alone, a SYN opens one. For the bridge
      ([BridgeTcp]): its listeners take every port, and from its start to its shutdown,
      under the same conditions, nothing fails and every owner is told, with Java methods
      that write, output, acknowledge and close in their callbacks, but do not abort there
      nor close a connection whose data was refused;
      [abort_in_callback_uses_freed_block] shows that an abort in the receive callback
      always leads to the use of the freed block.

    ** Bounds and fuel

    Fuel is computed from the input where the source has no bound of its own: the
    length of a chain for the loops of [pbuf.c], the bytes of a key or message for
    the loops of the cryptography, the characters that are left for the scanner (every
    round of its loops consumes one), a measure of queue, stacks and input for the
    event parser. In TCP: one round per queued segment for output, per option byte for
    [tcp_parseopt], per 65535 acknowledged bytes for the sent callback
    ([report_fuel]), one per connection for the loops over lists, 16385 for
    [tcp_new_port], which stops after 16384 ports in vain, and [TCP_SND_QUEUELEN] + 2
    segments for one [tcp_write], since the queue holds no more. Lengths stay at their
    C width: [u16] of a packet, [size_t] of a
    buffer, [int] of an indentation; a theorem that needs a bound states it.

    ** Not modelled

    Over the heap of packet buffers ([Bridge], [Jni]), TCP, neighbour discovery and the
    timers are parameters: those theorems are about the calls made to them; TCP with
    the bridge's callbacks is modelled over bytes ([TcpStack], [BridgeTcp]). Of TCP,
    [tcp_connect] and [tcp_netif_ip_addr_changed] are left out, and a callback acts on
    its own connection only. The theorem about a connection's life assumes what the
    code does not check: the peer sends no new maximum segment size after its SYN, its
    first window is two segments or more, and the application does not abort or shut down
    inside a receive, sent or poll callback, and closes there only as the last thing it
    does and not after a refusal of data (between two events it may close and abort). The
    theorem goes up to a slow timer that finds the persist timer running with segments in
    flight, with nothing to send, with a head that can be neither probed nor split, or with
    a full queue: there the code may fail its assertions, and the findings of the manifest
    say how such states come about. Memory pools are counters, and of the start-up of lwIP
    [tcp_init] and [sys_timeouts_init] are parameters. The emitter, dumper, writer and document loader of libyaml are never called by the
    application. Which strings the event parser frees is left out, as are calls of
    Java back into the native code from a callback, and the Kotlin application. *)
From Stdlib Require Import ZArith Lia.
From stdpp Require Import base list option numbers strings.

Open Scope Z_scope.

(** ** Machine integers

    A [w]-bit unsigned integer is a [Z] in [0, 2^w); every C operation that can
    leave the range is followed by [wrap w], written out where the C code
    computes. *)

Definition wrap (w : Z) (z : Z) : Z := z mod 2 ^ w.

Declare Scope cint_scope.
Delimit Scope cint_scope with cint.
Abbreviation u8 z := (wrap 8 z).
Abbreviation u16 z := (wrap 16 z).
Abbreviation u32 z := (wrap 32 z).
Abbreviation u64 z := (wrap 64 z).
Abbreviation u128 z := (wrap 128 z).

Definition fits (w : Z) (z : Z) : Prop := 0 <= z < 2 ^ w.

Definition INT_MAX : Z := 2 ^ 31 - 1.
Definition PTRDIFF_MAX : Z := 2 ^ 63 - 1.

Create HintDb cint.
Create Rewrite HintDb cint.
Create Rewrite HintDb zlen.

Lemma wrap_fits w z : 0 <= w -> fits w (wrap w z).
Proof. intros. unfold wrap, fits. apply Z.mod_pos_bound. apply Z.pow_pos_nonneg; lia. Qed.

Lemma wrap_small w z : fits w z -> wrap w z = z.
Proof. intros H. unfold wrap. by apply Z.mod_small. Qed.

Lemma wrap_wrap w z : 0 <= w -> wrap w (wrap w z) = wrap w z.
Proof. intros. apply wrap_small. by apply wrap_fits. Qed.

Lemma wrap_add_l w a b : wrap w (wrap w a + b) = wrap w (a + b).
Proof. unfold wrap. by rewrite Zplus_mod_idemp_l. Qed.

Lemma wrap_add_r w a b : wrap w (a + wrap w b) = wrap w (a + b).
Proof. unfold wrap. by rewrite Zplus_mod_idemp_r. Qed.

Lemma wrap_testbit w z i :
  0 <= w -> Z.testbit (wrap w z) i = (i <? w) && Z.testbit z i.
Proof.
  intros Hw. unfold wrap. destruct (Z.ltb_spec i w) as [Hlt|Hge]; simpl.
  - destruct (Z.lt_ge_cases i 0).
    + by rewrite !Z.testbit_neg_r.
    + by rewrite Z.mod_pow2_bits_low.
  - by rewrite Z.mod_pow2_bits_high by lia.
Qed.

#[export] Hint Resolve wrap_fits wrap_small : cint.
#[export] Hint Rewrite wrap_add_l wrap_add_r : cint.

(** [a | (b << k)] with [a] below the shift is a sum. *)
Lemma lor_shifted a b k :
  0 <= k -> 0 <= a < 2 ^ k -> Z.lor a (2 ^ k * b) = a + 2 ^ k * b.
Proof.
  intros Hk Ha. symmetry. rewrite Z.mul_comm, <-Z.shiftl_mul_pow2 by done.
  apply Z.add_nocarry_lor, Z.bits_inj'. intros n Hn.
  rewrite Z.land_spec, Z.bits_0, Z.shiftl_spec by done.
  destruct (Z.lt_ge_cases n k).
  - rewrite (Z.testbit_neg_r b) by lia. apply andb_false_r.
  - destruct (Z.eq_dec a 0) as [->|]; [by rewrite Z.bits_0|].
    rewrite Z.bits_above_log2; [done|lia|]. apply Z.log2_lt_pow2; [lia|].
    apply Z.lt_le_trans with (2 ^ k); [lia|]. by apply Z.pow_le_mono_r.
Qed.

(** ** Record update

    A record whose constructor is registered as [Settable] gets its setters from
    [setter field]: [set_field v r] is [r] with [field] replaced by [v]. *)

Class Settable (R : Type) := rebuild : R -> R.

Ltac setter field :=
  let R := match type of field with ?R -> _ => R end in
  let t := eval cbv beta delta [rebuild] in (@rebuild R _) in
  let t := eval hnf in t in
  match eval pattern field in t with
  | ?h field =>
      let b := eval cbv beta in (fun v (r : R) => h (fun _ => v) r) in
      exact b
  end.

(** ** Undefined behaviour

    [outcome A] is the result of a piece of C code: it completes with a value,
    or it has undefined behaviour (an access outside an object, a read of
    indeterminate memory, a null dereference, a signed overflow). *)

Inductive outcome (A : Type) : Type :=
| Done (a : A)
| Undef.
Arguments Done {A} a.
Arguments Undef {A}.

Definition obind {A B} (m : outcome A) (k : A -> outcome B) : outcome B :=
  match m with Done a => k a | Undef => Undef end.

#[export] Instance outcome_ret : MRet outcome := @Done.
#[export] Instance outcome_bind : MBind outcome := fun A B k m => obind m k.

Definition defined {A} (m : outcome A) : Prop :=
  match m with Done _ => True | Undef => False end.

Lemma outcome_bind_done {A B} (a : A) (k : A -> outcome B) : (Done a ≫= k) = k a.
Proof. reflexivity. Qed.

Lemma outcome_bind_inv {A B} (m : outcome A) (k : A -> outcome B) b :
  m ≫= k = Done b -> exists a, m = Done a /\ k a = Done b.
Proof. destruct m; simpl; [eauto | done]. Qed.

(** The code completes without undefined behaviour and establishes [Q]. *)
Definition ensures {A} (m : outcome A) (Q : A -> Prop) : Prop := exists a, m = Done a /\ Q a.

Lemma ensures_done {A} (a : A) (Q : A -> Prop) : Q a -> ensures (Done a) Q.
Proof. by exists a. Qed.

Lemma ensures_bind {A B} (m : outcome A) (k : A -> outcome B) (Q : B -> Prop) :
  ensures m (fun a => ensures (k a) Q) -> ensures (m ≫= k) Q.
Proof. intros (a & -> & Ha). exact Ha. Qed.

Lemma ensures_mono {A} (m : outcome A) (Q R : A -> Prop) :
  ensures m Q -> (forall a, Q a -> R a) -> ensures m R.
Proof. intros (a & -> & Ha) HR. exists a. eauto. Qed.

(** ** Bytes *)

Definition is_byte (b : Z) : Prop := 0 <= b < 256.
Definition are_bytes (bs : list Z) : Prop := Forall is_byte bs.

#[export] Instance is_byte_dec b : Decision (is_byte b).
Proof. unfold is_byte. solve_decision. Defined.

(** The byte string of an ASCII literal. *)
Definition bytes_of_string (s : string) : list Z :=
  map (fun c => Z.of_nat (Ascii.nat_of_ascii c)) (String.list_ascii_of_string s).

Definition zlen {A} (l : list A) : Z := Z.of_nat (length l).

Lemma zlen_nonneg {A} (l : list A) : 0 <= zlen l.
Proof. unfold zlen. lia. Qed.

Lemma zlen_app {A} (l k : list A) : zlen (l ++ k) = zlen l + zlen k.
Proof. unfold zlen. rewrite length_app. lia. Qed.

Lemma zlen_cons {A} (a : A) (l : list A) : zlen (a :: l) = 1 + zlen l.
Proof. unfold zlen. simpl. lia. Qed.

Lemma zlen_nil {A} : zlen (@nil A) = 0.
Proof. reflexivity. Qed.

Lemma zlen_map {A B} (f : A -> B) (l : list A) : zlen (map f l) = zlen l.
Proof. unfold zlen. by rewrite length_map. Qed.

Lemma zlen_take {A} (n : nat) (l : list A) :
  (n <= length l)%nat -> zlen (take n l) = Z.of_nat n.
Proof. unfold zlen. rewrite length_take. lia. Qed.

Lemma zlen_drop {A} (n : nat) (l : list A) :
  (n <= length l)%nat -> zlen (drop n l) = zlen l - Z.of_nat n.
Proof. unfold zlen. rewrite length_drop. lia. Qed.

(** Prefixes and suffixes by machine-length. *)
Definition ztake {A} (n : Z) (l : list A) : list A := take (Z.to_nat n) l.
Definition zdrop {A} (n : Z) (l : list A) : list A := drop (Z.to_nat n) l.

Lemma zlen_ztake {A} n (l : list A) : 0 <= n <= zlen l -> zlen (ztake n l) = n.
Proof. unfold ztake. intros. rewrite zlen_take; [lia|]. unfold zlen in *. lia. Qed.

Lemma zlen_zdrop {A} n (l : list A) : 0 <= n <= zlen l -> zlen (zdrop n l) = zlen l - n.
Proof. unfold zdrop. intros. rewrite zlen_drop; [lia|]. unfold zlen in *. lia. Qed.

Lemma ztake_zdrop {A} n (l : list A) : ztake n l ++ zdrop n l = l.
Proof. apply take_drop. Qed.

Lemma ztake_app_le {A} n (l k : list A) : n <= zlen l -> ztake n (l ++ k) = ztake n l.
Proof. intros. apply take_app_le. unfold zlen in *. lia. Qed.

Lemma ztake_app_zlen {A} (l k : list A) : ztake (zlen l) (l ++ k) = l.
Proof. unfold ztake, zlen. rewrite Nat2Z.id. apply take_app_length. Qed.

Lemma zdrop_app_zlen {A} (l k : list A) : zdrop (zlen l) (l ++ k) = k.
Proof. unfold zdrop, zlen. rewrite Nat2Z.id. apply drop_app_length. Qed.

Lemma zdrop_app_le {A} n (l k : list A) : n <= zlen l -> zdrop n (l ++ k) = zdrop n l ++ k.
Proof. intros. apply drop_app_le. unfold zlen in *. lia. Qed.

Lemma ztake_all {A} n (l : list A) : zlen l <= n -> ztake n l = l.
Proof. intros. apply take_ge. unfold zlen in *. lia. Qed.

Lemma zdrop_all {A} n (l : list A) : zlen l <= n -> zdrop n l = [].
Proof. intros. apply drop_ge. unfold zlen in *. lia. Qed.

Lemma zdrop_zdrop {A} m n (l : list A) : 0 <= m -> 0 <= n -> zdrop m (zdrop n l) = zdrop (n + m) l.
Proof. intros. unfold zdrop. rewrite drop_drop. f_equal. lia. Qed.

Lemma zdrop_app_ge {A} n (l k : list A) :
  zlen l <= n -> zdrop n (l ++ k) = zdrop (n - zlen l) k.
Proof.
  intros H. unfold zdrop. rewrite drop_app_ge by (unfold zlen in H; lia). f_equal.
  unfold zlen in *. lia.
Qed.

Lemma ztake_app {A} n (l k : list A) : ztake n (l ++ k) = ztake n l ++ ztake (n - zlen l) k.
Proof. unfold ztake. rewrite take_app. do 2 f_equal. unfold zlen. lia. Qed.

Lemma ztake_nonpos {A} n (l : list A) : n <= 0 -> ztake n l = [].
Proof. intros H. unfold ztake. by replace (Z.to_nat n) with 0%nat by lia. Qed.

Lemma zdrop_nonpos {A} n (l : list A) : n <= 0 -> zdrop n l = l.
Proof. intros H. unfold zdrop. by replace (Z.to_nat n) with 0%nat by lia. Qed.

Lemma ztake_nil {A} n : ztake n (@nil A) = [].
Proof. apply take_nil. Qed.

Lemma zdrop_nil {A} n : zdrop n (@nil A) = [].
Proof. apply drop_nil. Qed.

Lemma ztake_map {A B} (f : A -> B) n (l : list A) : ztake n (map f l) = map f (ztake n l).
Proof. unfold ztake. by rewrite firstn_map. Qed.

Lemma zdrop_map {A B} (f : A -> B) n (l : list A) : zdrop n (map f l) = map f (zdrop n l).
Proof. unfold zdrop. by rewrite skipn_map. Qed.

Lemma zlen_ztake_min {A} n (l : list A) : 0 <= n -> zlen (ztake n l) = Z.min n (zlen l).
Proof. intros. unfold ztake, zlen. rewrite length_take. lia. Qed.

Lemma zlen_zero {A} (l : list A) : zlen l = 0 -> l = [].
Proof. destruct l; [done|]. rewrite zlen_cons. pose proof (zlen_nonneg l). lia. Qed.

#[export] Hint Rewrite @zlen_app @zlen_cons @zlen_nil @zlen_map : zlen.
#[export] Hint Resolve zlen_nonneg : cint.

(** ** Memory objects

    A block of memory is a list of cells; [None] is an indeterminate cell. *)

Abbreviation cell := (option Z).
Abbreviation block := (list (option Z)).

(** [memcpy(mem + off, src, |src|)]; out of bounds is undefined. *)
Definition store_bytes (mem : block) (off : Z) (src : list Z) : outcome block :=
  if bool_decide (0 <= off /\ off + zlen src <= zlen mem)
  then Done (take (Z.to_nat off) mem ++ map Some src
             ++ drop (Z.to_nat off + length src) mem)
  else Undef.

(** Reading [n] bytes; an indeterminate cell or one out of bounds is undefined. *)
Fixpoint load_cells (mem : block) : outcome (list Z) :=
  match mem with
  | [] => Done []
  | Some b :: mem => bs ← load_cells mem; Done (b :: bs)
  | None :: _ => Undef
  end.

Definition load_bytes (mem : block) (off n : Z) : outcome (list Z) :=
  if bool_decide (0 <= off /\ 0 <= n /\ off + n <= zlen mem)
  then load_cells (take (Z.to_nat n) (drop (Z.to_nat off) mem))
  else Undef.

(** [memset] of fresh memory: [n] indeterminate cells. *)
Definition fresh_block (n : Z) : block := replicate (Z.to_nat n) None.

Lemma store_bytes_in_bounds mem off src :
  0 <= off -> off + zlen src <= zlen mem ->
  store_bytes mem off src
  = Done (take (Z.to_nat off) mem ++ map Some src ++ drop (Z.to_nat off + length src) mem).
Proof. intros. unfold store_bytes. by rewrite bool_decide_eq_true_2. Qed.

(** Overwriting exactly the middle part of a block. *)
Lemma store_bytes_middle (pre old post : block) off src :
  off = zlen pre -> length old = length src ->
  store_bytes (pre ++ old ++ post) off src = Done (pre ++ map Some src ++ post).
Proof.
  intros -> Hlen. rewrite store_bytes_in_bounds.
  - unfold zlen. rewrite Nat2Z.id, <-Hlen, take_app_length. do 2 f_equal.
    by rewrite <-drop_drop, drop_app_length, drop_app_length.
  - apply zlen_nonneg.
  - unfold zlen. rewrite !length_app. lia.
Qed.

Lemma store_bytes_length mem off src mem' :
  store_bytes mem off src = Done mem' -> length mem' = length mem.
Proof.
  unfold store_bytes, zlen. case_bool_decide as H; [|done]. intros [= <-].
  rewrite !length_app, length_take, length_map, length_drop. lia.
Qed.

(** The block starts with the bytes [bs]. *)
Definition starts_with (mem : block) (bs : list Z) : Prop :=
  exists rest, mem = map Some bs ++ rest.

Lemma load_cells_some bs : load_cells (map Some bs) = Done bs.
Proof. induction bs as [|b bs IH]; [done|]. simpl. by rewrite IH. Qed.

Lemma load_bytes_starts mem bs n :
  starts_with mem bs -> n = zlen bs -> load_bytes mem 0 n = Done bs.
Proof.
  intros [rest ->] ->. unfold load_bytes. rewrite bool_decide_eq_true_2.
  - unfold zlen. rewrite Nat2Z.id, drop_0, take_app_length'; [apply load_cells_some|].
    by rewrite length_map.
  - rewrite zlen_app, zlen_map. pose proof (zlen_nonneg bs). pose proof (zlen_nonneg rest). lia.
Qed.

(** Appending to the initialised start of a block that has room. *)
Lemma store_bytes_append mem pre src off :
  starts_with mem pre -> off = zlen pre -> zlen pre + zlen src <= zlen mem ->
  exists mem', store_bytes mem off src = Done mem' /\ starts_with mem' (pre ++ src)
    /\ zlen mem' = zlen mem.
Proof.
  intros [rest ->] -> Hroom. rewrite zlen_app, zlen_map in Hroom.
  rewrite <-(take_drop (length src) rest).
  rewrite store_bytes_middle.
  - eexists. split; [done|]. split; [|rewrite !zlen_app, !zlen_map].
    + exists (drop (length src) rest). by rewrite map_app, <-app_assoc.
    + unfold zlen. rewrite length_take, length_drop. unfold zlen in Hroom. lia.
  - by rewrite zlen_map.
  - rewrite length_take. unfold zlen in Hroom. lia.
Qed.

Lemma starts_with_nil mem : starts_with mem [].
Proof. by exists mem. Qed.

Lemma zlen_fresh_block n : 0 <= n -> zlen (fresh_block n) = n.
Proof. intros. unfold fresh_block, zlen. rewrite length_replicate. lia. Qed.

(** ** Little-endian words *)

Fixpoint le_combine (bs : list Z) : Z :=
  match bs with
  | [] => 0
  | b :: bs => b + 256 * le_combine bs
  end.

Fixpoint le_split (n : nat) (z : Z) : list Z :=
  match n with
  | O => []
  | S n => z mod 256 :: le_split n (z / 256)
  end.

Lemma le_split_length n z : length (le_split n z) = n.
Proof. revert z; induction n; simpl; intros; congruence. Qed.

Lemma le_split_bytes n z : are_bytes (le_split n z).
Proof.
  revert z; induction n; simpl; intros; constructor; [|apply IHn].
  unfold is_byte. apply Z.mod_pos_bound. lia.
Qed.

Lemma le_combine_bound bs :
  are_bytes bs -> 0 <= le_combine bs < 256 ^ zlen bs.
Proof.
  induction 1 as [|b bs Hb _ IH]; [done|].
  simpl le_combine. rewrite zlen_cons, Z.pow_add_r by (unfold zlen; lia).
  unfold is_byte in Hb. change (256 ^ 1) with 256. lia.
Qed.

Lemma le_combine_split n z :
  0 <= z < 256 ^ Z.of_nat n -> le_combine (le_split n z) = z.
Proof.
  revert z; induction n as [|n IH]; intros z Hz; [simpl in *; lia|].
  rewrite Nat2Z.inj_succ, Z.pow_succ_r in Hz by lia. simpl.
  rewrite IH.
  - pose proof (Z.div_mod z 256). lia.
  - split; [apply Z.div_pos; lia | apply Z.div_lt_upper_bound; lia].
Qed.

Lemma le_split_combine bs :
  are_bytes bs -> le_split (length bs) (le_combine bs) = bs.
Proof.
  induction 1 as [|b bs Hb _ IH]; [done|]. unfold is_byte in Hb. simpl.
  replace (b + 256 * le_combine bs) with (b + le_combine bs * 256) by lia.
  f_equal.
  - by rewrite Z.mod_add, Z.mod_small by lia.
  - rewrite Z.div_add, Z.div_small, Z.add_0_l by lia. exact IH.
Qed.

Lemma le_combine_app bs cs :
  le_combine (bs ++ cs) = le_combine bs + 256 ^ zlen bs * le_combine cs.
Proof.
  induction bs as [|b bs IH]; simpl.
  - change (le_combine cs = 1 * le_combine cs). lia.
  - rewrite IH, zlen_cons, Z.pow_add_r by (unfold zlen; lia).
    change (256 ^ 1) with 256. lia.
Qed.

#[export] Hint Resolve le_split_bytes le_combine_bound : cint.

(** ** Tactics of the development *)

Ltac inv H := inversion H; subst; clear H.

(** Turn boolean comparisons of the code into propositions. *)
Ltac bool_facts :=
  repeat match goal with
  | H : andb _ _ = true |- _ => apply andb_prop in H as [? ?]
  | H : (_ <? _) = true |- _ => apply Z.ltb_lt in H
  | H : (_ <? _) = false |- _ => apply Z.ltb_ge in H
  | H : (_ <=? _) = true |- _ => apply Z.leb_le in H
  | H : (_ <=? _) = false |- _ => apply Z.leb_gt in H
  | H : (_ =? _) = true |- _ => apply Z.eqb_eq in H
  | H : (_ =? _) = false |- _ => apply Z.eqb_neq in H
  end.

(** Decide a boolean comparison in the goal by linear arithmetic. *)
Ltac zcase :=
  match goal with
  | |- context [Z.ltb ?a ?b] => destruct (Z.ltb_spec a b); try lia
  | |- context [Z.leb ?a ?b] => destruct (Z.leb_spec a b); try lia
  | |- context [Z.eqb ?a ?b] => destruct (Z.eqb_spec a b); try lia
  end.

(** Linear arithmetic with division and remainder by constants. *)
Ltac div_lia := Z.to_euclidean_division_equations; lia.

(** Goals about lengths. *)
Ltac zlen_solve := unfold zlen in *; repeat rewrite ?length_app, ?length_map,
  ?length_take, ?length_drop, ?length_replicate in *; simpl length in *; lia.
