(* ===== verification/StrBuf.v ===== *)
(** * The growable string buffer of [yaml_jni_bridge.c]

    [strbuf_t] and its operations, with the allocator as a parameter, the
    representation predicate [sb_holds], and the compositional specification
    [appends] that every emitter of the YAML-to-JSON bridge is proved against. *)
From Stdlib Require Import ZArith Lia.
From stdpp Require Import base list option numbers strings.
From S2P Require Import Prelude.

(** The C allocator, as the buffer uses it: whether [malloc]/[realloc] grants a
    block of [n] bytes. The buffer never asks twice for the same size (each
    request is larger than the current capacity), so a function of the size
    covers every history. No allocator grants more than [PTRDIFF_MAX] bytes. *)
Class Allocator := {
  alloc_grants : Z -> bool;
  alloc_grants_max : forall n, alloc_grants n = true -> n <= PTRDIFF_MAX;
}.

(** An allocator that grants every request of at most a megabyte. *)
#[refine] Definition small_heap : Allocator := {| alloc_grants n := n <=? 1048576 |}.
Proof. intros n H%Z.leb_le. unfold PTRDIFF_MAX. lia. Defined.

Record strbuf_t := mk_strbuf {
  sb_data : option block;
  sb_len : Z;
  sb_cap : Z;
}.

Section strbuf.
Context `{Allocator}.

(** [realloc(old, n)]: the old contents up to the smaller size, the rest
    indeterminate. *)
Definition realloc_block (old : option block) (n : Z) : block :=
  match old with
  | None => fresh_block n
  | Some mem => take (Z.to_nat n) mem ++ fresh_block (n - zlen mem)
  end.

Definition strbuf_init (sb : strbuf_t) (initial_cap : Z)
    : outcome (bool * strbuf_t) :=
  if alloc_grants initial_cap then
    mem ← store_bytes (fresh_block initial_cap) 0 [0];
    Done (true, mk_strbuf (Some mem) 0 initial_cap)
  else Done (false, mk_strbuf None (sb_len sb) (sb_cap sb)).

Definition strbuf_free (sb : strbuf_t) : strbuf_t := mk_strbuf None 0 0.

Definition strbuf_ensure (sb : strbuf_t) (additional : Z) : bool * strbuf_t :=
  let needed := u64 (u64 (sb_len sb + additional) + 1) in
  if needed <=? sb_cap sb then (true, sb)
  else
    let new_cap := u64 (sb_cap sb * 2) in
    let new_cap := if new_cap <? needed then needed else new_cap in
    if alloc_grants new_cap
    then (true, mk_strbuf (Some (realloc_block (sb_data sb) new_cap)) (sb_len sb) new_cap)
    else (false, sb).

Definition strbuf_append (sb : strbuf_t) (str : list Z) : outcome (bool * strbuf_t) :=
  match strbuf_ensure sb (zlen str) with
  | (false, sb) => Done (false, sb)
  | (true, sb) =>
      match sb_data sb with
      | None => Undef
      | Some mem =>
          mem ← store_bytes mem (sb_len sb) str;
          let len := u64 (sb_len sb + zlen str) in
          mem ← store_bytes mem len [0];
          Done (true, mk_strbuf (Some mem) len (sb_cap sb))
      end
  end.

Definition strbuf_append_cstr (sb : strbuf_t) (str : string) : outcome (bool * strbuf_t) :=
  strbuf_append sb (bytes_of_string str).

Definition strbuf_append_char (sb : strbuf_t) (c : Z) : outcome (bool * strbuf_t) :=
  strbuf_append sb [c].

(** [if (!m) return 0; k] *)
Definition and_then (m k : strbuf_t -> outcome (bool * strbuf_t)) (sb : strbuf_t)
    : outcome (bool * strbuf_t) :=
  '(ok, sb) ← m sb;
  if ok : bool then k sb else Done (false, sb).

Definition hex_digit (d : Z) : Z := if d <? 10 then 48 + d else 97 + (d - 10).

(** [snprintf(esc, 7, "\\u%04x", c)] for [c < 0x20] *)
Definition snprintf_u04x (c : Z) : list Z :=
  [92; 117; hex_digit (c / 4096 mod 16); hex_digit (c / 256 mod 16);
   hex_digit (c / 16 mod 16); hex_digit (c mod 16)].

(** The body of the loop: one byte of the string. *)
Definition append_json_byte (c : Z) (sb : strbuf_t) : outcome (bool * strbuf_t) :=
  if c =? 34 then strbuf_append sb [92; 34]
  else if c =? 92 then strbuf_append sb [92; 92]
  else if c =? 8 then strbuf_append_cstr sb "\b"
  else if c =? 12 then strbuf_append_cstr sb "\f"
  else if c =? 10 then strbuf_append_cstr sb "\n"
  else if c =? 13 then strbuf_append_cstr sb "\r"
  else if c =? 9 then strbuf_append_cstr sb "\t"
  else if c <? 32 then strbuf_append sb (snprintf_u04x c)
  else strbuf_append_char sb c.

Fixpoint append_json_bytes (str : list Z) (sb : strbuf_t) : outcome (bool * strbuf_t) :=
  match str with
  | [] => Done (true, sb)
  | c :: str => and_then (append_json_byte c) (append_json_bytes str) sb
  end.

Definition strbuf_append_json_string (sb : strbuf_t) (str : list Z)
    : outcome (bool * strbuf_t) :=
  and_then (fun sb => strbuf_append_char sb 34)
    (and_then (append_json_bytes str) (fun sb => strbuf_append_char sb 34)) sb.

(** ** Representation *)

(** [sb] is a well-formed buffer whose C string is [bs]. *)
Definition sb_holds (sb : strbuf_t) (bs : list Z) : Prop :=
  exists tail : block,
    sb_data sb = Some (map Some bs ++ Some 0 :: tail)
    /\ sb_len sb = zlen bs
    /\ sb_cap sb = zlen bs + 1 + zlen tail
    /\ sb_cap sb <= PTRDIFF_MAX.

(** Some request of at most [2 * (n + 1)] bytes is refused. *)
Definition refuses (n : Z) : Prop :=
  exists k, k <= 2 * (n + 1) /\ alloc_grants k = false.

(** [m] appends [out]: it has no undefined behaviour; on success the buffer
    holds [out] after what it held; it fails only when memory is refused, and
    leaves a well-formed buffer. *)
Definition appends (m : strbuf_t -> outcome (bool * strbuf_t)) (out : list Z) : Prop :=
  forall sb bs, sb_holds sb bs ->
    exists ok sb', m sb = Done (ok, sb')
      /\ (if ok : bool then sb_holds sb' (bs ++ out)
          else refuses (zlen (bs ++ out)) /\ exists bs', sb_holds sb' bs').

Lemma refuses_mono n k : n <= k -> refuses n -> refuses k.
Proof. intros Hle (j & Hj & Hg). exists j. split; [lia|done]. Qed.

Lemma sb_holds_len sb bs : sb_holds sb bs -> zlen bs < PTRDIFF_MAX.
Proof. intros (tail & _ & _ & Hc & Hm). pose proof (zlen_nonneg tail). lia. Qed.

(** ** The operations meet their specification *)

Lemma strbuf_init_spec sb n :
  0 < n ->
  exists ok sb', strbuf_init sb n = Done (ok, sb')
    /\ ok = alloc_grants n /\ (if ok : bool then sb_holds sb' [] else sb_data sb' = None).
Proof.
  intros Hn. unfold strbuf_init. destruct (alloc_grants n) eqn:Hg.
  - apply alloc_grants_max in Hg.
    rewrite store_bytes_in_bounds; [|lia|unfold fresh_block; zlen_solve].
    eexists true, _. split_and!; [done|done|].
    exists (drop 1 (fresh_block n)). unfold fresh_block.
    split_and!; simpl; try done; zlen_solve.
  - eexists false, _. done.
Qed.

(** After [strbuf_ensure] there is room for [additional] bytes and the NUL. *)
Lemma strbuf_ensure_spec sb bs additional :
  sb_holds sb bs -> 0 <= additional <= PTRDIFF_MAX ->
  let '(ok, sb') := strbuf_ensure sb additional in
  if ok : bool
  then sb_holds sb' bs /\ zlen bs + additional + 1 <= sb_cap sb'
  else sb' = sb /\ refuses (zlen bs + additional).
Proof.
  intros Hsb Hadd. pose proof Hsb as (tail & Hdata & Hlen & Hcap & Hmax).
  pose proof (zlen_nonneg bs). pose proof (zlen_nonneg tail).
  assert (PTRDIFF_MAX = 2 ^ 63 - 1) as Hp by done.
  change (2 ^ 63) with 9223372036854775808 in Hp.
  unfold strbuf_ensure.
  assert (u64 (u64 (sb_len sb + additional) + 1) = zlen bs + additional + 1) as ->.
  { rewrite wrap_add_l, Hlen. apply wrap_small. unfold fits.
    change (2 ^ 64) with 18446744073709551616. lia. }
  assert (u64 (sb_cap sb * 2) = sb_cap sb * 2) as ->.
  { apply wrap_small. unfold fits. change (2 ^ 64) with 18446744073709551616. lia. }
  destruct (Z.leb_spec (zlen bs + additional + 1) (sb_cap sb)); [by split|].
  set (nc := if _ <? _ then _ else _).
  assert (zlen bs + additional + 1 <= nc <= 2 * (zlen bs + additional + 1)
          /\ sb_cap sb <= nc) as [Hnc Hge].
  { unfold nc. zcase. }
  clearbody nc. destruct (alloc_grants nc) eqn:Hg.
  - apply alloc_grants_max in Hg. split; [|simpl; lia].
    exists (tail ++ fresh_block (nc - sb_cap sb)).
    assert (zlen (map Some bs ++ Some 0 :: tail) = sb_cap sb) as Hz by zlen_solve.
    simpl. rewrite Hdata. split_and!; [|done| |lia].
    + unfold realloc_block. rewrite Hz, take_ge by zlen_solve.
      by rewrite <-app_assoc.
    + unfold fresh_block. zlen_solve.
  - split; [done|]. exists nc. split; [lia|done].
Qed.

Lemma strbuf_append_spec str :
  zlen str <= PTRDIFF_MAX -> appends (fun sb => strbuf_append sb str) str.
Proof.
  intros Hstr sb bs Hsb. unfold strbuf_append.
  pose proof (zlen_nonneg str) as Hpos.
  pose proof (strbuf_ensure_spec sb bs (zlen str) Hsb ltac:(lia)) as Hens.
  destruct (strbuf_ensure sb (zlen str)) as [[|] sb1].
  - destruct Hens as [(tail & Hdata & Hlen & Hcap & Hmax) Hroom].
    rewrite Hdata, Hlen. pose proof (zlen_nonneg bs).
    assert (zlen str <= zlen tail) as Hfit by lia.
    assert (PTRDIFF_MAX = 9223372036854775807) as Hp by done.
    assert (exists c old rest, Some 0 :: tail = old ++ c :: rest
            /\ length old = length str /\ zlen rest = zlen tail - zlen str)
      as (c & old & rest & Hsplit & Hold & Hrest).
    { assert (length str < length (Some 0%Z :: tail))%nat as Hlt by zlen_solve.
      apply lookup_lt_is_Some_2 in Hlt as [c Hc].
      exists c, (take (length str) (Some 0 :: tail)), (drop (S (length str)) (Some 0 :: tail)).
      split; [symmetry; by apply take_drop_middle|].
      apply lookup_lt_Some in Hc. zlen_solve. }
    rewrite Hsplit, store_bytes_middle, outcome_bind_done by zlen_solve.
    rewrite wrap_small by (unfold fits; change (2^64) with 18446744073709551616; lia).
    rewrite app_assoc. change (c :: rest) with ([c] ++ rest).
    rewrite store_bytes_middle by zlen_solve.
    rewrite outcome_bind_done. eexists true, _. split; [done|].
    exists rest. split_and!; [simpl; by rewrite map_app, <-!app_assoc| | |done]; simpl; zlen_solve.
  - destruct Hens as [-> Href]. eexists false, _. split; [done|].
    rewrite zlen_app. eauto.
Qed.

Lemma appends_nil : appends (fun sb => Done (true, sb)) [].
Proof. intros sb bs Hsb. eexists true, _. split; [done|]. by rewrite app_nil_r. Qed.

Lemma appends_and_then m k out1 out2 :
  appends m out1 -> appends k out2 -> appends (and_then m k) (out1 ++ out2).
Proof.
  intros Hm Hk sb bs Hsb. unfold and_then.
  destruct (Hm sb bs Hsb) as (ok & sb1 & -> & H1). rewrite outcome_bind_done.
  destruct ok.
  - destruct (Hk sb1 _ H1) as (ok & sb2 & -> & H2). rewrite <-app_assoc in H2. eauto.
  - exists false, sb1. split; [done|]. destruct H1 as [H1 ?]. split; [|done].
    eapply refuses_mono; [|exact H1]. rewrite app_assoc, !zlen_app.
    pose proof (zlen_nonneg out2). lia.
Qed.

Lemma strbuf_append_char_spec c : appends (fun sb => strbuf_append_char sb c) [c].
Proof. apply strbuf_append_spec. done. Qed.

Lemma strbuf_append_cstr_spec s :
  bool_decide (zlen (bytes_of_string s) <= PTRDIFF_MAX) = true ->
  appends (fun sb => strbuf_append_cstr sb s) (bytes_of_string s).
Proof. intros Hs. apply strbuf_append_spec. by apply bool_decide_eq_true in Hs. Qed.

(** The escape of one byte of a JSON string. *)
Definition json_escape (c : Z) : list Z :=
  if c =? 34 then [92; 34] else if c =? 92 then [92; 92]
  else if c =? 8 then [92; 98] else if c =? 12 then [92; 102]
  else if c =? 10 then [92; 110] else if c =? 13 then [92; 114]
  else if c =? 9 then [92; 116] else if c <? 32 then snprintf_u04x c
  else [c].

Definition json_quote (str : list Z) : list Z := [34] ++ flat_map json_escape str ++ [34].

Lemma append_json_byte_spec c : appends (append_json_byte c) (json_escape c).
Proof.
  unfold append_json_byte, json_escape.
  repeat match goal with |- context [if ?b then _ else _] => destruct b end;
    first [ by apply strbuf_append_spec | by apply strbuf_append_cstr_spec
          | apply strbuf_append_char_spec ].
Qed.

Lemma append_json_bytes_spec str :
  appends (append_json_bytes str) (flat_map json_escape str).
Proof.
  induction str as [|c str IH]; [apply appends_nil|].
  apply appends_and_then; [apply append_json_byte_spec|exact IH].
Qed.

Lemma json_string_appends str :
  appends (fun sb => strbuf_append_json_string sb str) (json_quote str).
Proof.
  apply appends_and_then; [apply strbuf_append_char_spec|].
  apply appends_and_then; [apply append_json_bytes_spec|apply strbuf_append_char_spec].
Qed.
End strbuf.
