(* ===== verification/YamlTypes.v ===== *)
(** * Tokens, events and parser states of libyaml

    The enums and tagged unions of [yaml.h], with the source's constructors. A C
    string is the list of its bytes without the NUL; a nullable string is an
    [option]; a (value, length) pair of a scalar is the list of its [length]
    bytes. *)
From Stdlib Require Import ZArith Lia.
From stdpp Require Import base list option numbers strings.
From S2P Require Import Prelude.

Abbreviation ystr := (list Z).

Inductive yaml_encoding_t :=
| YAML_ANY_ENCODING | YAML_UTF8_ENCODING | YAML_UTF16LE_ENCODING | YAML_UTF16BE_ENCODING.

Inductive yaml_error_type_t :=
| YAML_NO_ERROR | YAML_MEMORY_ERROR | YAML_READER_ERROR | YAML_SCANNER_ERROR
| YAML_PARSER_ERROR | YAML_COMPOSER_ERROR | YAML_WRITER_ERROR | YAML_EMITTER_ERROR.

#[export] Instance yaml_error_type_eq_dec : EqDecision yaml_error_type_t.
Proof. solve_decision. Defined.

Record yaml_mark_t := mk_mark { mark_index : Z; mark_line : Z; mark_column : Z }.

Inductive yaml_scalar_style_t :=
| YAML_ANY_SCALAR_STYLE | YAML_PLAIN_SCALAR_STYLE | YAML_SINGLE_QUOTED_SCALAR_STYLE
| YAML_DOUBLE_QUOTED_SCALAR_STYLE | YAML_LITERAL_SCALAR_STYLE | YAML_FOLDED_SCALAR_STYLE.

Inductive yaml_sequence_style_t :=
| YAML_ANY_SEQUENCE_STYLE | YAML_BLOCK_SEQUENCE_STYLE | YAML_FLOW_SEQUENCE_STYLE.

Inductive yaml_mapping_style_t :=
| YAML_ANY_MAPPING_STYLE | YAML_BLOCK_MAPPING_STYLE | YAML_FLOW_MAPPING_STYLE.

Record yaml_version_directive_t := mk_version { version_major : Z; version_minor : Z }.
Record yaml_tag_directive_t := mk_tag_directive { td_handle : ystr; td_prefix : ystr }.

Inductive yaml_token_type_t :=
| YAML_NO_TOKEN
| YAML_STREAM_START_TOKEN | YAML_STREAM_END_TOKEN
| YAML_VERSION_DIRECTIVE_TOKEN | YAML_TAG_DIRECTIVE_TOKEN
| YAML_DOCUMENT_START_TOKEN | YAML_DOCUMENT_END_TOKEN
| YAML_BLOCK_SEQUENCE_START_TOKEN | YAML_BLOCK_MAPPING_START_TOKEN | YAML_BLOCK_END_TOKEN
| YAML_FLOW_SEQUENCE_START_TOKEN | YAML_FLOW_SEQUENCE_END_TOKEN
| YAML_FLOW_MAPPING_START_TOKEN | YAML_FLOW_MAPPING_END_TOKEN
| YAML_BLOCK_ENTRY_TOKEN | YAML_FLOW_ENTRY_TOKEN | YAML_KEY_TOKEN | YAML_VALUE_TOKEN
| YAML_ALIAS_TOKEN | YAML_ANCHOR_TOKEN | YAML_TAG_TOKEN | YAML_SCALAR_TOKEN.

#[export] Instance yaml_token_type_eq_dec : EqDecision yaml_token_type_t.
Proof. solve_decision. Defined.

(** The tagged union of a token: the members the tag selects. *)
Inductive yaml_token_data :=
| tok_no
| tok_stream_start (encoding : yaml_encoding_t)
| tok_stream_end
| tok_version_directive (major minor : Z)
| tok_tag_directive (handle prefix : ystr)
| tok_document_start
| tok_document_end
| tok_block_sequence_start
| tok_block_mapping_start
| tok_block_end
| tok_flow_sequence_start
| tok_flow_sequence_end
| tok_flow_mapping_start
| tok_flow_mapping_end
| tok_block_entry
| tok_flow_entry
| tok_key
| tok_value
| tok_alias (value : ystr)
| tok_anchor (value : ystr)
| tok_tag (handle suffix : ystr)
| tok_scalar (value : ystr) (style : yaml_scalar_style_t).

Definition token_data_type (d : yaml_token_data) : yaml_token_type_t :=
  match d with
  | tok_no => YAML_NO_TOKEN
  | tok_stream_start _ => YAML_STREAM_START_TOKEN
  | tok_stream_end => YAML_STREAM_END_TOKEN
  | tok_version_directive _ _ => YAML_VERSION_DIRECTIVE_TOKEN
  | tok_tag_directive _ _ => YAML_TAG_DIRECTIVE_TOKEN
  | tok_document_start => YAML_DOCUMENT_START_TOKEN
  | tok_document_end => YAML_DOCUMENT_END_TOKEN
  | tok_block_sequence_start => YAML_BLOCK_SEQUENCE_START_TOKEN
  | tok_block_mapping_start => YAML_BLOCK_MAPPING_START_TOKEN
  | tok_block_end => YAML_BLOCK_END_TOKEN
  | tok_flow_sequence_start => YAML_FLOW_SEQUENCE_START_TOKEN
  | tok_flow_sequence_end => YAML_FLOW_SEQUENCE_END_TOKEN
  | tok_flow_mapping_start => YAML_FLOW_MAPPING_START_TOKEN
  | tok_flow_mapping_end => YAML_FLOW_MAPPING_END_TOKEN
  | tok_block_entry => YAML_BLOCK_ENTRY_TOKEN
  | tok_flow_entry => YAML_FLOW_ENTRY_TOKEN
  | tok_key => YAML_KEY_TOKEN
  | tok_value => YAML_VALUE_TOKEN
  | tok_alias _ => YAML_ALIAS_TOKEN
  | tok_anchor _ => YAML_ANCHOR_TOKEN
  | tok_tag _ _ => YAML_TAG_TOKEN
  | tok_scalar _ _ => YAML_SCALAR_TOKEN
  end.

Record yaml_token_t := mk_token {
  token_data : yaml_token_data;
  token_start_mark : yaml_mark_t;
  token_end_mark : yaml_mark_t;
}.

Definition token_type (t : yaml_token_t) : yaml_token_type_t := token_data_type (token_data t).

Inductive yaml_event_data :=
| YAML_NO_EVENT
| YAML_STREAM_START_EVENT (encoding : yaml_encoding_t)
| YAML_STREAM_END_EVENT
| YAML_DOCUMENT_START_EVENT (version : option yaml_version_directive_t)
    (tag_directives : list yaml_tag_directive_t) (implicit : bool)
| YAML_DOCUMENT_END_EVENT (implicit : bool)
| YAML_ALIAS_EVENT (anchor : ystr)
| YAML_SCALAR_EVENT (anchor tag : option ystr) (value : ystr)
    (plain_implicit quoted_implicit : bool) (style : yaml_scalar_style_t)
| YAML_SEQUENCE_START_EVENT (anchor tag : option ystr) (implicit : bool)
    (style : yaml_sequence_style_t)
| YAML_SEQUENCE_END_EVENT
| YAML_MAPPING_START_EVENT (anchor tag : option ystr) (implicit : bool)
    (style : yaml_mapping_style_t)
| YAML_MAPPING_END_EVENT.

Record yaml_event_t := mk_event {
  event_data : yaml_event_data;
  event_start_mark : yaml_mark_t;
  event_end_mark : yaml_mark_t;
}.

Inductive yaml_parser_state_t :=
| YAML_PARSE_STREAM_START_STATE
| YAML_PARSE_IMPLICIT_DOCUMENT_START_STATE
| YAML_PARSE_DOCUMENT_START_STATE
| YAML_PARSE_DOCUMENT_CONTENT_STATE
| YAML_PARSE_DOCUMENT_END_STATE
| YAML_PARSE_BLOCK_NODE_STATE
| YAML_PARSE_BLOCK_NODE_OR_INDENTLESS_SEQUENCE_STATE
| YAML_PARSE_FLOW_NODE_STATE
| YAML_PARSE_BLOCK_SEQUENCE_FIRST_ENTRY_STATE
| YAML_PARSE_BLOCK_SEQUENCE_ENTRY_STATE
| YAML_PARSE_INDENTLESS_SEQUENCE_ENTRY_STATE
| YAML_PARSE_BLOCK_MAPPING_FIRST_KEY_STATE
| YAML_PARSE_BLOCK_MAPPING_KEY_STATE
| YAML_PARSE_BLOCK_MAPPING_VALUE_STATE
| YAML_PARSE_FLOW_SEQUENCE_FIRST_ENTRY_STATE
| YAML_PARSE_FLOW_SEQUENCE_ENTRY_STATE
| YAML_PARSE_FLOW_SEQUENCE_ENTRY_MAPPING_KEY_STATE
| YAML_PARSE_FLOW_SEQUENCE_ENTRY_MAPPING_VALUE_STATE
| YAML_PARSE_FLOW_SEQUENCE_ENTRY_MAPPING_END_STATE
| YAML_PARSE_FLOW_MAPPING_FIRST_KEY_STATE
| YAML_PARSE_FLOW_MAPPING_KEY_STATE
| YAML_PARSE_FLOW_MAPPING_VALUE_STATE
| YAML_PARSE_FLOW_MAPPING_EMPTY_VALUE_STATE
| YAML_PARSE_END_STATE.

#[export] Instance yaml_parser_state_eq_dec : EqDecision yaml_parser_state_t.
Proof. solve_decision. Defined.

(** ** Document trees

    The trees the events of a document describe, and the (mark- and tag-free)
    event skeletons of a tree; the interface between the parser, which emits
    skeletons of trees, and the JSON bridge, which prints them. *)

Inductive ynode :=
| NAlias
| NScalar (value : ystr)
| NSeq (items : list ynode)
| NMap (entries : list (ynode * ynode)).

(** What a consumer that ignores anchors, tags, styles and marks sees. *)
Inductive ykind :=
| KNone | KStreamStart | KStreamEnd | KDocumentStart | KDocumentEnd
| KAlias | KScalar (value : ystr) | KSeqStart | KSeqEnd | KMapStart | KMapEnd.

Definition event_kind (d : yaml_event_data) : ykind :=
  match d with
  | YAML_NO_EVENT => KNone
  | YAML_STREAM_START_EVENT _ => KStreamStart
  | YAML_STREAM_END_EVENT => KStreamEnd
  | YAML_DOCUMENT_START_EVENT _ _ _ => KDocumentStart
  | YAML_DOCUMENT_END_EVENT _ => KDocumentEnd
  | YAML_ALIAS_EVENT _ => KAlias
  | YAML_SCALAR_EVENT _ _ v _ _ _ => KScalar v
  | YAML_SEQUENCE_START_EVENT _ _ _ _ => KSeqStart
  | YAML_SEQUENCE_END_EVENT => KSeqEnd
  | YAML_MAPPING_START_EVENT _ _ _ _ => KMapStart
  | YAML_MAPPING_END_EVENT => KMapEnd
  end.

Fixpoint node_kinds (n : ynode) : list ykind :=
  match n with
  | NAlias => [KAlias]
  | NScalar v => [KScalar v]
  | NSeq items => [KSeqStart] ++ flat_map node_kinds items ++ [KSeqEnd]
  | NMap entries =>
      [KMapStart] ++ flat_map (fun '(k, v) => node_kinds k ++ node_kinds v) entries
      ++ [KMapEnd]
  end.

Definition document_kinds (n : ynode) : list ykind :=
  [KDocumentStart] ++ node_kinds n ++ [KDocumentEnd].

Definition stream_kinds (docs : list ynode) : list ykind :=
  [KStreamStart] ++ flat_map document_kinds docs ++ [KStreamEnd].

(** Induction over trees with the hypothesis for every child. *)
Lemma ynode_ind' (P : ynode -> Prop) :
  P NAlias ->
  (forall v, P (NScalar v)) ->
  (forall items, Forall P items -> P (NSeq items)) ->
  (forall entries, Forall (fun '(k, v) => P k /\ P v) entries -> P (NMap entries)) ->
  forall n, P n.
Proof.
  intros Ha Hs Hq Hm. fix IH 1. intros [|v|items|entries]; [done|done| |].
  - apply Hq. induction items; constructor; auto.
  - apply Hm. induction entries as [|[k v] es IHes]; constructor; auto.
Qed.

Fixpoint node_depth (n : ynode) : nat :=
  match n with
  | NAlias | NScalar _ => 0
  | NSeq items => S (foldr (fun n d => Nat.max (node_depth n) d) 0%nat items)
  | NMap entries =>
      S (foldr (fun '(k, v) d => Nat.max (Nat.max (node_depth k) (node_depth v)) d)
           0%nat entries)
  end%nat.

(** The largest number of children of a collection of the tree. *)
Fixpoint node_width (n : ynode) : Z :=
  match n with
  | NAlias | NScalar _ => 0
  | NSeq items => foldr (fun n w => Z.max (node_width n) w) (zlen items) items
  | NMap entries =>
      foldr (fun '(k, v) w => Z.max (Z.max (node_width k) (node_width v)) w)
        (zlen entries) entries
  end.
