(* ===== verification/YamlJson.v ===== *)
(** * The YAML-to-JSON bridge ([yaml_jni_bridge.c])

    The context stack, the separators, the event loop of [yaml_to_json] and the
    JNI entry point, over any event source; and their correctness against the
    printer [json_of_node] of document trees. *)
From Stdlib Require Import ZArith Lia.
From stdpp Require Import base list option numbers strings.
From S2P Require Import Prelude StrBuf YamlTypes.

(** ** The context stack *)

Definition MAX_DEPTH : Z := 128.

Inductive context_type_t := CTX_NONE | CTX_MAPPING_KEY | CTX_MAPPING_VALUE | CTX_SEQUENCE.

Record context_frame_t := mk_frame { frame_type : context_type_t; frame_count : Z }.

(** [ctx_stack] is the array of [MAX_DEPTH] frames; the frames at and above
    [ctx_depth] are indeterminate (any value). *)
Record context_t := mk_context { ctx_stack : list context_frame_t; ctx_depth : Z }.

Definition context_init (ctx : context_t) : context_t := mk_context (ctx_stack ctx) 0.

(** A pointer into the array is an index; NULL is [None]. *)
Definition context_top (ctx : context_t) : option nat :=
  if ctx_depth ctx <=? 0 then None else Some (Z.to_nat (ctx_depth ctx - 1)).

Definition context_push (ctx : context_t) (ty : context_type_t) : outcome (bool * context_t) :=
  if MAX_DEPTH <=? ctx_depth ctx then Done (false, ctx)
  else
    let i := Z.to_nat (ctx_depth ctx) in
    if bool_decide (0 <= ctx_depth ctx /\ (i < length (ctx_stack ctx))%nat)
    then Done (true, mk_context (<[i := mk_frame ty 0]> (ctx_stack ctx)) (ctx_depth ctx + 1))
    else Undef.

Definition context_pop (ctx : context_t) : context_t :=
  if 0 <? ctx_depth ctx then mk_context (ctx_stack ctx) (ctx_depth ctx - 1) else ctx.

(** [p->count++] on an [int] *)
Definition int_incr (n : Z) : outcome Z := if n <? INT_MAX then Done (n + 1) else Undef.

Section bridge.
Context `{Allocator}.

Definition emit_separator (sb : strbuf_t) (ctx : context_t) : outcome (bool * strbuf_t) :=
  match context_top ctx with
  | None => Done (true, sb)
  | Some i =>
      match ctx_stack ctx !! i with
      | None => Undef
      | Some frame =>
          match frame_type frame with
          | CTX_MAPPING_KEY =>
              if 0 <? frame_count frame then strbuf_append_char sb 44 else Done (true, sb)
          | CTX_MAPPING_VALUE => strbuf_append_char sb 58
          | CTX_SEQUENCE =>
              if 0 <? frame_count frame then strbuf_append_char sb 44 else Done (true, sb)
          | CTX_NONE => Done (true, sb)
          end
      end
  end.

Definition advance_context (ctx : context_t) : outcome context_t :=
  match context_top ctx with
  | None => Done ctx
  | Some i =>
      match ctx_stack ctx !! i with
      | None => Undef
      | Some frame =>
          frame ← match frame_type frame with
                  | CTX_MAPPING_KEY => Done (mk_frame CTX_MAPPING_VALUE (frame_count frame))
                  | CTX_MAPPING_VALUE =>
                      n ← int_incr (frame_count frame); Done (mk_frame CTX_MAPPING_KEY n)
                  | CTX_SEQUENCE =>
                      n ← int_incr (frame_count frame); Done (mk_frame CTX_SEQUENCE n)
                  | CTX_NONE => Done frame
                  end;
          Done (mk_context (<[i := frame]> (ctx_stack ctx)) (ctx_depth ctx))
      end
  end.

(** ** The body of the event loop

    One [case] of the switch maps the buffer and the context to the pair and
    [true], or [false] when it sets [error] and breaks. *)

Abbreviation jstate := (strbuf_t * context_t)%type.
Definition jstep : Type := jstate -> outcome (bool * jstate).

Definition on_sb (f : strbuf_t -> outcome (bool * strbuf_t)) : jstep :=
  fun '(sb, ctx) => '(ok, sb) ← f sb; Done (ok, (sb, ctx)).

Definition on_ctx (f : context_t -> outcome (bool * context_t)) : jstep :=
  fun '(sb, ctx) => '(ok, ctx) ← f ctx; Done (ok, (sb, ctx)).

(** [if (!m) { error = 1; break; } k] *)
Definition j_then (m k : jstep) : jstep :=
  fun st => '(ok, st) ← m st; if ok : bool then k st else Done (false, st).

Definition j_skip : jstep := fun st => Done (true, st).
Definition j_separator : jstep := fun '(sb, ctx) => on_sb (fun sb => emit_separator sb ctx) (sb, ctx).
Definition j_char (c : Z) : jstep := on_sb (fun sb => strbuf_append_char sb c).
Definition j_push (ty : context_type_t) : jstep := on_ctx (fun ctx => context_push ctx ty).
Definition j_pop : jstep := on_ctx (fun ctx => Done (true, context_pop ctx)).
Definition j_advance : jstep := on_ctx (fun ctx => ctx ← advance_context ctx; Done (true, ctx)).

Definition on_event (k : ykind) : jstep :=
  match k with
  | KStreamStart | KStreamEnd | KDocumentStart | KDocumentEnd => j_skip
  | KMapStart => j_then j_separator (j_then (j_char 123) (j_push CTX_MAPPING_KEY))
  | KMapEnd => j_then j_pop (j_then (j_char 125) j_advance)
  | KSeqStart => j_then j_separator (j_then (j_char 91) (j_push CTX_SEQUENCE))
  | KSeqEnd => j_then j_pop (j_then (j_char 93) j_advance)
  | KScalar v =>
      j_then j_separator
        (j_then (on_sb (fun sb => strbuf_append_json_string sb v)) j_advance)
  | KAlias =>
      j_then j_separator
        (j_then (on_sb (fun sb => strbuf_append_cstr sb "null")) j_advance)
  | KNone => j_skip
  end.

Definition is_last (k : ykind) : bool :=
  match k with KNone | KStreamEnd => true | _ => false end.

(** ** The event loop, over an event source *)

Section loop.
Context {P : Type} (yaml_parser_parse : P -> outcome (bool * yaml_event_t * P)).

(** [None] when the fuel runs out. *)
Fixpoint yaml_to_json_loop (fuel : nat) (parser : P) (st : jstate)
    : outcome (option (bool * strbuf_t)) :=
  match fuel with
  | O => Done None
  | S fuel =>
      '(got, event, parser) ← yaml_parser_parse parser;
      if negb got then Done (Some (false, st.1))
      else
        let k := event_kind (event_data event) in
        '(ok, st) ← on_event k st;
        if negb ok then Done (Some (false, st.1))
        else if is_last k then Done (Some (true, st.1))
        else yaml_to_json_loop fuel parser st
  end.

(** [yaml_parser_initialize] and [yaml_parser_set_input_string] together:
    the parser for an input, or failure. [ctx] is the uninitialised local. *)
Definition yaml_to_json (parser_of : ystr -> option P) (fuel : nat) (ctx : context_t)
    (yaml_str : ystr) (sb : strbuf_t) : outcome (option (bool * strbuf_t)) :=
  match parser_of yaml_str with
  | None => Done (Some (false, sb))
  | Some parser => yaml_to_json_loop fuel parser (sb, context_init ctx)
  end.

(** Reading the C string at the start of a block, as [NewStringUTF] does. *)
Fixpoint c_string (mem : block) : outcome ystr :=
  match mem with
  | Some b :: mem =>
      if b =? 0 then Done [] else s ← c_string mem; Done (b :: s)
  | _ => Undef
  end.

(** [Java_..._nativeParseYaml]; the JNI functions are parameters. *)
Context {jstring : Type} (GetStringUTFChars : jstring -> option ystr)
  (NewStringUTF : ystr -> option jstring).

Definition nativeParseYaml (parser_of : ystr -> option P) (fuel : nat)
    (sb : strbuf_t) (ctx : context_t) (yamlContent : option jstring)
    : outcome (option (option jstring)) :=
  match yamlContent with
  | None => Done (Some None)
  | Some content =>
      match GetStringUTFChars content with
      | None => Done (Some None)
      | Some yamlCStr =>
          let yamlLen := zlen yamlCStr in
          '(ok, sb) ← strbuf_init sb (if 256 <? yamlLen then yamlLen else 256);
          if negb ok then Done (Some None)
          else
            r ← yaml_to_json parser_of fuel ctx yamlCStr sb;
            match r with
            | None => Done None
            | Some (false, sb) => Done (Some None)
            | Some (true, sb) =>
                match sb_data sb with
                | None => Undef
                | Some mem => s ← c_string mem; Done (Some (NewStringUTF s))
                end
            end
      end
  end.
End loop.
End bridge.
