(* ===== verification/YamlJsonProofs.v ===== *)
(** * Correctness of the YAML-to-JSON bridge

    A specification automaton on lists of frames ([spec_step], [spec_run]), the
    refinement of [on_event] to it, the tree printer [json_of_node], and the
    theorem that the bridge prints exactly the documents it is given. *)
From Stdlib Require Import ZArith Lia.
From stdpp Require Import base list option numbers strings.
From S2P Require Import Prelude StrBuf YamlTypes YamlJson.

(** ** The printer of document trees *)

Fixpoint sep_by (sep : list Z) (l : list (list Z)) : list Z :=
  match l with
  | [] => []
  | [x] => x
  | x :: l => x ++ sep ++ sep_by sep l
  end.

Fixpoint json_of_node (n : ynode) : list Z :=
  match n with
  | NAlias => bytes_of_string "null"
  | NScalar v => json_quote v
  | NSeq items => [91] ++ sep_by [44] (map json_of_node items) ++ [93]
  | NMap entries =>
      [123] ++ sep_by [44]
        (map (fun '(k, v) => json_of_node k ++ [58] ++ json_of_node v) entries) ++ [125]
  end.

(** ** The specification automaton *)

Abbreviation frames := (list context_frame_t).

Inductive spec_result :=
| SOk (fs : frames) (out : list Z)
| STooDeep
| SOverflow.

Definition sep_of (fs : frames) : list Z :=
  match fs with
  | [] => []
  | f :: _ =>
      match frame_type f with
      | CTX_MAPPING_VALUE => [58]
      | CTX_MAPPING_KEY | CTX_SEQUENCE => if 0 <? frame_count f then [44] else []
      | CTX_NONE => []
      end
  end.

Definition spec_advance (fs : frames) : option frames :=
  match fs with
  | [] => Some []
  | f :: fs =>
      match frame_type f with
      | CTX_MAPPING_KEY => Some (mk_frame CTX_MAPPING_VALUE (frame_count f) :: fs)
      | CTX_MAPPING_VALUE =>
          if frame_count f <? INT_MAX
          then Some (mk_frame CTX_MAPPING_KEY (frame_count f + 1) :: fs) else None
      | CTX_SEQUENCE =>
          if frame_count f <? INT_MAX
          then Some (mk_frame CTX_SEQUENCE (frame_count f + 1) :: fs) else None
      | CTX_NONE => Some (f :: fs)
      end
  end.

Definition spec_close (fs : frames) (out : list Z) : spec_result :=
  match spec_advance fs with Some fs => SOk fs out | None => SOverflow end.

Definition spec_open (ty : context_type_t) (c : Z) (fs : frames) : spec_result :=
  if zlen fs <? MAX_DEPTH then SOk (mk_frame ty 0 :: fs) (sep_of fs ++ [c]) else STooDeep.

Definition spec_step (k : ykind) (fs : frames) : spec_result :=
  match k with
  | KStreamStart | KStreamEnd | KDocumentStart | KDocumentEnd | KNone => SOk fs []
  | KMapStart => spec_open CTX_MAPPING_KEY 123 fs
  | KSeqStart => spec_open CTX_SEQUENCE 91 fs
  | KMapEnd => spec_close (tail fs) [125]
  | KSeqEnd => spec_close (tail fs) [93]
  | KScalar v => spec_close fs (sep_of fs ++ json_quote v)
  | KAlias => spec_close fs (sep_of fs ++ bytes_of_string "null")
  end.

Fixpoint spec_run (ks : list ykind) (fs : frames) : spec_result :=
  match ks with
  | [] => SOk fs []
  | k :: ks =>
      match spec_step k fs with
      | SOk fs out =>
          match spec_run ks fs with SOk fs' out' => SOk fs' (out ++ out') | r => r end
      | r => r
      end
  end.

Section refinement.
Context `{Allocator}.

(** The context array represents the frames, innermost first. *)
Definition ctx_holds (ctx : context_t) (fs : frames) : Prop :=
  zlen (ctx_stack ctx) = MAX_DEPTH
  /\ ctx_depth ctx = zlen fs
  /\ take (length fs) (ctx_stack ctx) = rev fs.

(** [m] implements a specification result from the frames [fs]. *)
Definition implements (m : jstep) (fs : frames) (r : spec_result) : Prop :=
  forall sb bs ctx, sb_holds sb bs -> ctx_holds ctx fs ->
    match r with
    | SOk fs' out =>
        exists ok sb' ctx', m (sb, ctx) = Done (ok, (sb', ctx'))
          /\ (if ok : bool then sb_holds sb' (bs ++ out) /\ ctx_holds ctx' fs'
              else refuses (zlen (bs ++ out)))
    | STooDeep => exists sb' ctx', m (sb, ctx) = Done (false, (sb', ctx'))
    | SOverflow => True
    end.

(** *** The context operations on frames *)

Lemma ctx_init_holds ctx : zlen (ctx_stack ctx) = MAX_DEPTH -> ctx_holds (context_init ctx) [].
Proof. intros. by split_and!. Qed.

Lemma ctx_holds_length ctx fs : ctx_holds ctx fs -> zlen fs <= MAX_DEPTH.
Proof.
  intros (Hl & _ & Ht). apply (f_equal length) in Ht.
  rewrite length_take, length_rev in Ht. zlen_solve.
Qed.

Lemma context_top_nil ctx : ctx_holds ctx [] -> context_top ctx = None.
Proof. intros (_ & Hd & _). unfold context_top. by rewrite Hd. Qed.

Lemma context_top_cons ctx f fs :
  ctx_holds ctx (f :: fs) ->
  context_top ctx = Some (length fs) /\ ctx_stack ctx !! length fs = Some f.
Proof.
  intros (Hl & Hd & Ht). unfold context_top. rewrite Hd, zlen_cons. split.
  - pose proof (zlen_nonneg fs). zcase. f_equal. zlen_solve.
  - assert (take (S (length fs)) (ctx_stack ctx) !! length fs = Some f) as Hx.
    { simpl length in Ht. rewrite Ht. simpl.
      rewrite lookup_app_r; rewrite length_rev; [|lia]. by rewrite Nat.sub_diag. }
    rewrite lookup_take_lt in Hx by lia. done.
Qed.

Lemma context_push_spec ty ctx fs :
  ctx_holds ctx fs ->
  if zlen fs <? MAX_DEPTH
  then exists ctx', context_push ctx ty = Done (true, ctx') /\ ctx_holds ctx' (mk_frame ty 0 :: fs)
  else context_push ctx ty = Done (false, ctx).
Proof.
  intros (Hl & Hd & Ht). unfold context_push. rewrite Hd.
  zcase; zcase; [|done]. pose proof (zlen_nonneg fs).
  rewrite bool_decide_eq_true_2 by zlen_solve.
  eexists. split; [done|]. split_and!; simpl.
  - unfold zlen. by rewrite length_insert.
  - rewrite zlen_cons. lia.
  - unfold zlen. rewrite Nat2Z.id.
    rewrite (take_S_r _ _ (mk_frame ty 0)) by (apply list_lookup_insert_eq; zlen_solve).
    by rewrite take_insert_ge, Ht by lia.
Qed.

Lemma context_pop_holds ctx fs : ctx_holds ctx fs -> ctx_holds (context_pop ctx) (tail fs).
Proof.
  intros (Hl & Hd & Ht). unfold context_pop. destruct fs as [|f fs]; simpl.
  - rewrite Hd. by split_and!.
  - rewrite Hd, zlen_cons. pose proof (zlen_nonneg fs). zcase.
    split_and!; simpl; [done|lia|].
    apply (f_equal (take (length fs))) in Ht. simpl in Ht.
    rewrite take_take, Nat.min_l in Ht by lia. rewrite Ht.
    rewrite take_app_le by (rewrite length_rev; lia).
    apply take_ge. by rewrite length_rev.
Qed.

Lemma ctx_holds_set_top ctx f f' fs :
  ctx_holds ctx (f :: fs) ->
  ctx_holds (mk_context (<[length fs := f']> (ctx_stack ctx)) (ctx_depth ctx)) (f' :: fs).
Proof.
  intros Hc. pose proof (ctx_holds_length _ _ Hc) as Hlen.
  destruct Hc as (Hl & Hd & Ht). simpl in Ht. split_and!; simpl.
  - unfold zlen. by rewrite length_insert.
  - by rewrite Hd.
  - rewrite (take_S_r _ _ f') by (apply list_lookup_insert_eq; zlen_solve).
    rewrite take_insert_ge by lia. f_equal.
    apply (f_equal (take (length fs))) in Ht.
    rewrite take_take, Nat.min_l in Ht by lia. rewrite Ht.
    rewrite take_app_le by (rewrite length_rev; lia).
    apply take_ge. by rewrite length_rev.
Qed.

Lemma advance_context_spec ctx fs :
  ctx_holds ctx fs ->
  match spec_advance fs with
  | Some fs' => exists ctx', advance_context ctx = Done ctx' /\ ctx_holds ctx' fs'
  | None => True
  end.
Proof.
  intros Hc. unfold advance_context, spec_advance. destruct fs as [|f fs].
  - rewrite (context_top_nil _ Hc). eauto.
  - destruct (context_top_cons _ _ _ Hc) as [-> ->].
    pose proof (fun f' => ctx_holds_set_top _ _ f' _ Hc) as Hset.
    unfold int_incr. destruct (frame_type f); try zcase; simpl; eauto.
Qed.

Lemma emit_separator_appends ctx fs :
  ctx_holds ctx fs -> appends (fun sb => emit_separator sb ctx) (sep_of fs).
Proof.
  intros Hc. unfold emit_separator, sep_of. destruct fs as [|f fs].
  - rewrite (context_top_nil _ Hc). apply appends_nil.
  - destruct (context_top_cons _ _ _ Hc) as [-> ->].
    destruct (frame_type f); try zcase;
      first [apply strbuf_append_char_spec | apply appends_nil].
Qed.

(** *** Composition *)

Lemma implements_on_sb f out fs : appends f out -> implements (on_sb f) fs (SOk fs out).
Proof.
  intros Hf sb bs ctx Hsb Hctx. destruct (Hf sb bs Hsb) as (ok & sb' & Heq & Hok).
  unfold on_sb. rewrite Heq. simpl. eexists _, _, _. split; [done|].
  destruct ok; [done|]. by destruct Hok.
Qed.

Lemma implements_separator fs : implements j_separator fs (SOk fs (sep_of fs)).
Proof.
  intros sb bs ctx Hsb Hctx.
  exact (implements_on_sb _ _ _ (emit_separator_appends _ _ Hctx) sb bs ctx Hsb Hctx).
Qed.

Definition spec_bind (r : spec_result) (k : frames -> spec_result) : spec_result :=
  match r with
  | SOk fs out => match k fs with SOk fs' out' => SOk fs' (out ++ out') | r => r end
  | r => r
  end.

(** Sequencing; if the first step runs out of memory the second is not run, so
    a too-deep second step still makes the whole fail. *)
Lemma implements_then m k fs r kr :
  implements m fs r -> (forall fs', implements k fs' (kr fs')) ->
  implements (j_then m k) fs (spec_bind r kr).
Proof.
  intros Hm Hk sb bs ctx Hsb Hctx. specialize (Hm sb bs ctx Hsb Hctx).
  unfold j_then. destruct r as [fs1 out1| |]; [|destruct Hm as (? & ? & ->); simpl; by eauto|done].
  destruct Hm as ([|] & sb1 & ctx1 & -> & H1); simpl.
  - destruct H1 as [Hsb1 Hctx1]. specialize (Hk fs1 sb1 _ ctx1 Hsb1 Hctx1).
    destruct (kr fs1) as [fs2 out2| |]; [|done|done]. by rewrite app_assoc.
  - destruct (kr fs1) as [fs2 out2| |]; [|eauto|done].
    eexists _, _, _. split; [done|]. eapply refuses_mono; [|exact H1].
    rewrite !zlen_app. pose proof (zlen_nonneg out2). lia.
Qed.

Lemma implements_push ty fs :
  implements (j_push ty) fs
    (if zlen fs <? MAX_DEPTH then SOk (mk_frame ty 0 :: fs) [] else STooDeep).
Proof.
  intros sb bs ctx Hsb Hctx. pose proof (context_push_spec ty _ _ Hctx) as Hp.
  unfold j_push, on_ctx. destruct (zlen fs <? MAX_DEPTH).
  - destruct Hp as (ctx' & -> & Hc). eexists _, _, _. split; [done|]. by rewrite app_nil_r.
  - rewrite Hp. simpl. eauto.
Qed.

Lemma implements_pop fs : implements j_pop fs (SOk (tail fs) []).
Proof.
  intros sb bs ctx Hsb Hctx. eexists true, _, _. split; [done|].
  rewrite app_nil_r. eauto using context_pop_holds.
Qed.

Lemma implements_advance fs : implements j_advance fs (spec_close fs []).
Proof.
  intros sb bs ctx Hsb Hctx. pose proof (advance_context_spec _ _ Hctx) as Ha.
  unfold spec_close. destruct (spec_advance fs); [|done].
  destruct Ha as (ctx' & Heq & Hc). unfold j_advance, on_ctx. rewrite Heq. simpl.
  eexists _, _, _. split; [done|]. by rewrite app_nil_r.
Qed.

Lemma implements_ext m fs r r' : r = r' -> implements m fs r -> implements m fs r'.
Proof. by intros ->. Qed.

(** The whole switch implements the automaton's step. *)
Lemma on_event_implements k fs : implements (on_event k) fs (spec_step k fs).
Proof.
  assert (forall fs, implements j_skip fs (SOk fs [])) as Hskip.
  { intros fs' sb bs ctx ? ?. eexists true, _, _. split; [done|]. by rewrite app_nil_r. }
  assert (forall fs f out, appends f out ->
    implements (j_then (on_sb f) j_advance) fs (spec_close fs out)) as Hclose.
  { intros fs' f out Hf. eapply implements_ext;
      [|apply implements_then; [by apply implements_on_sb|apply implements_advance]].
    unfold spec_close; simpl. destruct (spec_advance fs'); [by rewrite app_nil_r|done]. }
  assert (forall fs c ty, implements (j_then j_separator (j_then (j_char c) (j_push ty))) fs
    (spec_open ty c fs)) as Hopen.
  { intros fs' c ty. eapply implements_ext; [|apply implements_then;
      [apply implements_separator|intros; apply implements_then;
        [apply implements_on_sb, strbuf_append_char_spec|apply implements_push]]].
    unfold spec_open; simpl. by destruct (zlen fs' <? MAX_DEPTH). }
  assert (forall fs f out, appends f out ->
    implements (j_then j_separator (j_then (on_sb f) j_advance)) fs
      (spec_close fs (sep_of fs ++ out))) as Hleaf.
  { intros fs' f out Hf. eapply implements_ext;
      [|apply implements_then; [apply implements_separator|intros; by apply Hclose]].
    unfold spec_close; simpl. by destruct (spec_advance fs'). }
  assert (forall fs c, implements (j_then j_pop (j_then (j_char c) j_advance)) fs
    (spec_close (tail fs) [c])) as Hend.
  { intros fs' c. eapply implements_ext; [|apply implements_then;
      [apply implements_pop|intros; apply Hclose, strbuf_append_char_spec]].
    simpl. unfold spec_close. by destruct (spec_advance (tail fs')). }
  destruct k; simpl; try solve [apply Hskip | apply Hopen | apply Hend].
  - apply Hleaf. by apply strbuf_append_cstr_spec.
  - apply Hleaf. apply json_string_appends.
Qed.

(** *** Runs *)

Fixpoint on_events (ks : list ykind) : jstep :=
  match ks with
  | [] => j_skip
  | k :: ks => j_then (on_event k) (on_events ks)
  end.

Lemma on_events_implements ks fs : implements (on_events ks) fs (spec_run ks fs).
Proof.
  revert fs. induction ks as [|k ks IH]; intros fs; simpl.
  - intros sb bs ctx ? ?. eexists true, _, _. split; [done|]. by rewrite app_nil_r.
  - eapply implements_ext;
      [|apply implements_then; [apply on_event_implements|exact IH]].
    by destruct (spec_step k fs).
Qed.
End refinement.

(** ** The automaton on document trees *)

Lemma spec_run_app ks1 ks2 fs :
  spec_run (ks1 ++ ks2) fs
  = match spec_run ks1 fs with
    | SOk fs1 out1 =>
        match spec_run ks2 fs1 with SOk fs2 out2 => SOk fs2 (out1 ++ out2) | r => r end
    | r => r
    end.
Proof.
  revert fs. induction ks1 as [|k ks1 IH]; intros fs; simpl.
  - by destruct (spec_run ks2 fs).
  - destruct (spec_step k fs) as [fs1 out1| |]; [|done|done]. rewrite IH.
    destruct (spec_run ks1 fs1) as [fs2 out2| |]; [|done|done].
    destruct (spec_run ks2 fs2); [by rewrite app_assoc|done|done].
Qed.

(** The innermost count can be incremented without overflow. *)
Definition has_room (fs : frames) : Prop :=
  match fs with [] => True | f :: _ => frame_type f <> CTX_NONE /\ frame_count f < INT_MAX end.

Definition advanced (fs : frames) : frames := default fs (spec_advance fs).

Lemma spec_close_room fs out : has_room fs -> spec_close fs out = SOk (advanced fs) out.
Proof.
  unfold spec_close, advanced, spec_advance. destruct fs as [|f fs]; [done|].
  intros [Hty Hc]. destruct (frame_type f); [done|done| |]; by zcase.
Qed.

Lemma zlen_advanced fs : zlen (advanced fs) = zlen fs.
Proof.
  unfold advanced, spec_advance. destruct fs as [|f fs]; [done|].
  destruct (frame_type f); try zcase; simpl; by rewrite ?zlen_cons.
Qed.

(** The separators of the children numbered from [c]. *)
Fixpoint sep_from (c : Z) (l : list (list Z)) : list Z :=
  match l with
  | [] => []
  | x :: l => (if 0 <? c then [44] else []) ++ x ++ sep_from (c + 1) l
  end.

Lemma sep_from_0 l : sep_from 0 l = sep_by [44] l.
Proof.
  assert (forall l x c, 0 < c -> x ++ sep_from c l = sep_by [44] (x :: l)) as Hx.
  { clear l. induction l as [|y l IH]; intros x c Hc; simpl; [by rewrite app_nil_r|].
    zcase. by rewrite IH by lia. }
  destruct l as [|x l]; [done|]. by apply Hx.
Qed.

Lemma foldr_max_width {A} (f : A -> Z) (w0 : Z) (l : list A) :
  w0 <= foldr (fun a w => Z.max (f a) w) w0 l
  /\ Forall (fun a => f a <= foldr (fun a w => Z.max (f a) w) w0 l) l.
Proof.
  induction l as [|a l [IH1 IH2]]; simpl; [split; [lia|constructor]|].
  split; [lia|]. constructor; [lia|]. eapply Forall_impl; [exact IH2|]. simpl. lia.
Qed.

(** Decide the depth test of the goal. *)
Ltac depth_case :=
  match goal with
  | |- context [Z.leb ?a MAX_DEPTH] => destruct (Z.leb_spec a MAX_DEPTH); try lia
  end.

Section trees.
(** The frames have room for [d] more levels. *)
Definition fits_depth (fs : frames) (d : nat) : bool := zlen fs + Z.of_nat d <=? MAX_DEPTH.

Definition run_of_node (n : ynode) (fs : frames) : spec_result :=
  if fits_depth fs (node_depth n)
  then SOk (advanced fs) (sep_of fs ++ json_of_node n) else STooDeep.

Definition node_correct (n : ynode) : Prop :=
  forall fs, has_room fs -> zlen fs <= MAX_DEPTH -> node_width n <= INT_MAX ->
    spec_run (node_kinds n) fs = run_of_node n fs.

Lemma spec_items items c fs :
  Forall node_correct items -> Forall (fun n => node_width n <= INT_MAX) items ->
  0 <= c -> c + zlen items <= INT_MAX -> zlen fs < MAX_DEPTH ->
  spec_run (flat_map node_kinds items) (mk_frame CTX_SEQUENCE c :: fs)
  = if fits_depth fs (S (foldr (fun n d => Nat.max (node_depth n) d) 0%nat items))
    then SOk (mk_frame CTX_SEQUENCE (c + zlen items) :: fs)
           (sep_from c (map json_of_node items))
    else STooDeep.
Proof.
  intros Hok. revert c. induction Hok as [|n items Hn _ IH];
    intros c Hw Hc Hle Hfs; unfold fits_depth in *; simpl.
  - depth_case. by rewrite Z.add_0_r.
  - inv Hw. rewrite zlen_cons in Hle. pose proof (zlen_nonneg items).
    rewrite spec_run_app, Hn; [|simpl; split; [done|lia]|rewrite zlen_cons; lia|done].
    unfold run_of_node, fits_depth. rewrite zlen_cons.
    destruct (Z.leb_spec (1 + zlen fs + Z.of_nat (node_depth n)) MAX_DEPTH); [|by depth_case].
    unfold advanced, spec_advance; simpl. destruct (Z.ltb_spec c INT_MAX); [|lia].
    simpl. rewrite IH by (done || lia).
    depth_case; depth_case; [|done]. rewrite <-app_assoc. do 3 f_equal. rewrite zlen_cons. lia.
Qed.

Lemma spec_entries entries c fs :
  Forall (fun '(k, v) => node_correct k /\ node_correct v) entries ->
  Forall (fun '(k, v) => Z.max (node_width k) (node_width v) <= INT_MAX) entries ->
  0 <= c -> c + zlen entries <= INT_MAX -> zlen fs < MAX_DEPTH ->
  spec_run (flat_map (fun '(k, v) => node_kinds k ++ node_kinds v) entries)
    (mk_frame CTX_MAPPING_KEY c :: fs)
  = if fits_depth fs (S (foldr (fun '(k, v) d =>
         Nat.max (Nat.max (node_depth k) (node_depth v)) d) 0%nat entries))
    then SOk (mk_frame CTX_MAPPING_KEY (c + zlen entries) :: fs)
           (sep_from c (map (fun '(k, v) => json_of_node k ++ [58] ++ json_of_node v) entries))
    else STooDeep.
Proof.
  intros Hok. revert c. induction Hok as [|[k v] entries [Hk Hv] _ IH];
    intros c Hw Hc Hle Hfs; unfold fits_depth in *; simpl.
  - depth_case. by rewrite Z.add_0_r.
  - inv Hw. rewrite zlen_cons in Hle. pose proof (zlen_nonneg entries).
    rewrite <-app_assoc, spec_run_app, Hk;
      [|simpl; split; [done|lia]|rewrite zlen_cons; lia|lia].
    unfold run_of_node, fits_depth. rewrite zlen_cons.
    destruct (Z.leb_spec (1 + zlen fs + Z.of_nat (node_depth k)) MAX_DEPTH); [|by depth_case].
    unfold advanced, spec_advance; simpl.
    rewrite spec_run_app, Hv; [|simpl; split; [done|lia]|rewrite zlen_cons; lia|lia].
    unfold run_of_node, fits_depth. rewrite zlen_cons.
    destruct (Z.leb_spec (1 + zlen fs + Z.of_nat (node_depth v)) MAX_DEPTH); [|by depth_case].
    unfold advanced, spec_advance; simpl. destruct (Z.ltb_spec c INT_MAX); [|lia].
    simpl. rewrite IH by (done || lia).
    depth_case; depth_case; [|done]. rewrite <-!app_assoc. simpl. do 3 f_equal. rewrite zlen_cons. lia.
Qed.

Lemma spec_close_tail f fs out :
  has_room fs -> spec_close (tail (f :: fs)) out = SOk (advanced fs) out.
Proof. apply spec_close_room. Qed.

(** The events of a tree print the tree, or are rejected for their depth. *)
Lemma spec_node n : node_correct n.
Proof.
  induction n as [|v|items IH|entries IH] using ynode_ind'; intros fs Hroom Hfs Hw.
  - unfold run_of_node, fits_depth. simpl. rewrite spec_close_room by done.
    depth_case. by rewrite app_nil_r.
  - unfold run_of_node, fits_depth. simpl. rewrite spec_close_room by done.
    depth_case. by rewrite app_nil_r.
  - simpl in Hw. destruct (foldr_max_width node_width (zlen items) items) as [Hlen Hall].
    unfold run_of_node. simpl. unfold spec_open.
    destruct (Z.ltb_spec (zlen fs) MAX_DEPTH); [|unfold fits_depth; by depth_case].
    rewrite spec_run_app, spec_items;
      [|done|eapply Forall_impl; [exact Hall|simpl; lia]|lia|lia|done].
    destruct (fits_depth _ _); [|done]. cbn [spec_run spec_step].
    rewrite spec_close_tail by done. rewrite sep_from_0. by rewrite <-!app_assoc.
  - simpl in Hw.
    assert (forall w, foldr (fun '(k, v) w => Z.max (Z.max (node_width k) (node_width v)) w) w entries
      = foldr (fun e w => Z.max (Z.max (node_width e.1) (node_width e.2)) w) w entries) as Heq.
    { intros w. clear. induction entries as [|[k v] es IHe]; simpl; congruence. }
    rewrite Heq in Hw.
    destruct (foldr_max_width (fun e => Z.max (node_width e.1) (node_width e.2))
      (zlen entries) entries) as [Hlen Hall].
    unfold run_of_node. simpl. unfold spec_open.
    destruct (Z.ltb_spec (zlen fs) MAX_DEPTH); [|unfold fits_depth; by depth_case].
    rewrite spec_run_app, spec_entries;
      [|done|eapply Forall_impl; [exact Hall|intros [k v]; simpl; lia]|lia|lia|done].
    destruct (fits_depth _ _); [|done]. cbn [spec_run spec_step].
    rewrite spec_close_tail by done. rewrite sep_from_0. by rewrite <-!app_assoc.
Qed.

(** A document is accepted when its depth is at most [MAX_DEPTH]. *)
Definition doc_fits (n : ynode) : bool := Z.of_nat (node_depth n) <=? MAX_DEPTH.

Lemma spec_documents docs :
  Forall (fun n => node_width n <= INT_MAX) docs ->
  spec_run (flat_map document_kinds docs) []
  = if forallb doc_fits docs then SOk [] (flat_map json_of_node docs) else STooDeep.
Proof.
  induction 1 as [|n docs Hn _ IH]; [done|].
  simpl. rewrite <-app_assoc, spec_run_app, spec_node by done.
  unfold run_of_node, fits_depth, doc_fits in *. rewrite zlen_nil, Z.add_0_l.
  destruct (Z.of_nat (node_depth n) <=? MAX_DEPTH); unfold advanced; simpl; [|done].
  rewrite IH. by destruct (forallb _ docs).
Qed.

Lemma spec_stream docs :
  Forall (fun n => node_width n <= INT_MAX) docs ->
  spec_run (stream_kinds docs) []
  = if forallb doc_fits docs then SOk [] (flat_map json_of_node docs) else STooDeep.
Proof.
  intros Hw. unfold stream_kinds. simpl. rewrite spec_run_app, spec_documents by done.
  destruct (forallb _ docs); [|done]. simpl. by rewrite app_nil_r.
Qed.
End trees.
