(* ===== verification/JsonRead.v ===== *)
(** * A reader for the JSON the bridge prints

    The reader is the specification's notion of what a JSON consumer recovers;
    [read_json_of_node] shows that it recovers the document tree from
    [json_of_node], so the text is well-formed and unambiguous. *)
From Stdlib Require Import ZArith Lia.
From stdpp Require Import base list option numbers strings.
From S2P Require Import Prelude StrBuf YamlTypes YamlJson YamlJsonProofs.

Inductive jvalue :=
| JNull
| JString (s : list Z)
| JArray (l : list jvalue)
| JObject (l : list (list Z * jvalue)).

Definition hex_value (h : Z) : option Z :=
  if (48 <=? h) && (h <=? 57) then Some (h - 48)
  else if (97 <=? h) && (h <=? 102) then Some (h - 87)
  else None.

Definition hex4_value (a b c d : Z) : option Z :=
  a ← hex_value a; b ← hex_value b; c ← hex_value c; d ← hex_value d;
  Some (((a * 16 + b) * 16 + c) * 16 + d).

(** The character a one-letter escape stands for. *)
Definition short_escape (e : Z) : option Z :=
  if e =? 34 then Some 34 else if e =? 92 then Some 92
  else if e =? 98 then Some 8 else if e =? 102 then Some 12
  else if e =? 110 then Some 10 else if e =? 114 then Some 13
  else if e =? 116 then Some 9 else None.

(** The characters of a string, after its opening quote. *)
Fixpoint read_chars (bs : list Z) : option (list Z * list Z) :=
  match bs with
  | [] => None
  | c :: bs =>
      if c =? 34 then Some ([], bs)
      else if c =? 92 then
        match bs with
        | [] => None
        | e :: bs =>
            if e =? 117 then
              match bs with
              | h1 :: h2 :: h3 :: h4 :: bs =>
                  x ← hex4_value h1 h2 h3 h4;
                  '(s, rest) ← read_chars bs; Some (x :: s, rest)
              | _ => None
              end
            else
              x ← short_escape e;
              '(s, rest) ← read_chars bs; Some (x :: s, rest)
        end
      else if c <? 32 then None
      else '(s, rest) ← read_chars bs; Some (c :: s, rest)
  end.

Definition read_string (bs : list Z) : option (list Z * list Z) :=
  match bs with c :: bs => if c =? 34 then read_chars bs else None | [] => None end.

Definition eat (c : Z) (bs : list Z) : option (list Z) :=
  match bs with b :: bs => if b =? c then Some bs else None | [] => None end.

Fixpoint read_value (fuel : nat) (bs : list Z) {struct fuel} : option (jvalue * list Z) :=
  match fuel with
  | O => None
  | S fuel =>
      match bs with
      | [] => None
      | c :: rest =>
          if c =? 34 then '(s, rest) ← read_chars rest; Some (JString s, rest)
          else if c =? 91 then
            match eat 93 rest with
            | Some rest => Some (JArray [], rest)
            | None => '(l, rest) ← read_items fuel rest; Some (JArray l, rest)
            end
          else if c =? 123 then
            match eat 125 rest with
            | Some rest => Some (JObject [], rest)
            | None => '(l, rest) ← read_members fuel rest; Some (JObject l, rest)
            end
          else
            rest ← eat 110 bs; rest ← eat 117 rest; rest ← eat 108 rest; rest ← eat 108 rest;
            Some (JNull, rest)
      end
  end
with read_items (fuel : nat) (bs : list Z) {struct fuel} : option (list jvalue * list Z) :=
  match fuel with
  | O => None
  | S fuel =>
      '(v, rest) ← read_value fuel bs;
      match eat 93 rest with
      | Some rest => Some ([v], rest)
      | None =>
          rest ← eat 44 rest; '(l, rest) ← read_items fuel rest; Some (v :: l, rest)
      end
  end
with read_members (fuel : nat) (bs : list Z) {struct fuel}
    : option (list (list Z * jvalue) * list Z) :=
  match fuel with
  | O => None
  | S fuel =>
      '(k, rest) ← read_string bs;
      rest ← eat 58 rest;
      '(v, rest) ← read_value fuel rest;
      match eat 125 rest with
      | Some rest => Some ([(k, v)], rest)
      | None =>
          rest ← eat 44 rest; '(l, rest) ← read_members fuel rest; Some ((k, v) :: l, rest)
      end
  end.

(** ** The value a tree stands for *)

Definition key_bytes (k : ynode) : list Z := match k with NScalar v => v | _ => [] end.
Definition is_scalar (k : ynode) : bool := match k with NScalar _ => true | _ => false end.

Fixpoint jvalue_of (n : ynode) : jvalue :=
  match n with
  | NAlias => JNull
  | NScalar v => JString v
  | NSeq items => JArray (map jvalue_of items)
  | NMap entries => JObject (map (fun '(k, v) => (key_bytes k, jvalue_of v)) entries)
  end.

(** Scalars are bytes and the keys of mappings are scalars. *)
Fixpoint json_ready (n : ynode) : bool :=
  match n with
  | NAlias => true
  | NScalar v => forallb (fun b => (0 <=? b) && (b <? 256)) v
  | NSeq items => forallb json_ready items
  | NMap entries => forallb (fun '(k, v) => is_scalar k && json_ready k && json_ready v) entries
  end.

(** The fuel a tree needs. *)
Fixpoint node_size (n : ynode) : nat :=
  match n with
  | NAlias | NScalar _ => 1
  | NSeq items => S (foldr (fun n s => S (node_size n + s)) 0%nat items)
  | NMap entries => S (foldr (fun '(_, v) s => S (node_size v + s)) 0%nat entries)
  end%nat.

(** ** Strings *)

(** Reading the escape of a byte gives the byte back. *)
Lemma read_chars_escape c bs :
  is_byte c ->
  read_chars (json_escape c ++ bs) = '(s, rest) ← read_chars bs; Some (c :: s, rest).
Proof.
  intros Hc. unfold is_byte in Hc. unfold json_escape.
  repeat match goal with
  | |- context [if c =? ?n then _ else _] =>
      destruct (Z.eqb_spec c n) as [->|?]; [reflexivity|]
  end.
  destruct (Z.ltb_spec c 32) as [Hlt|Hge].
  - assert (c ∈ map Z.of_nat (seq 0 32)) as Hin.
    { apply list_elem_of_In, in_map_iff. exists (Z.to_nat c).
      split; [lia|]. apply in_seq. lia. }
    apply list_elem_of_In in Hin. simpl in Hin.
    repeat (destruct Hin as [<-|Hin]; [try lia; reflexivity|]). done.
  - simpl. destruct (Z.eqb_spec c 34); [lia|]. destruct (Z.eqb_spec c 92); [lia|].
    destruct (Z.ltb_spec c 32); [lia|done].
Qed.

Lemma read_chars_quoted v rest :
  forallb (fun b => (0 <=? b) && (b <? 256)) v = true ->
  read_chars (flat_map json_escape v ++ 34 :: rest) = Some (v, rest).
Proof.
  induction v as [|c v IH]; intros Hv; [done|].
  cbn [forallb flat_map] in *. apply andb_prop in Hv as [Hc Hv]. bool_facts.
  rewrite <-app_assoc, read_chars_escape, IH by (done || unfold is_byte; lia). done.
Qed.

(** ** Values *)

Definition not_closer (bs : list Z) : Prop :=
  match bs with b :: _ => b <> 93 /\ b <> 125 | [] => False end.

Lemma json_of_node_head n rest : not_closer (json_of_node n ++ rest).
Proof. destruct n; split; discriminate. Qed.

Lemma eat_not_closer c bs :
  not_closer bs -> c = 93 \/ c = 125 -> eat c bs = None.
Proof. destruct bs as [|b bs]; [done|]. simpl. intros [? ?] Hc. zcase. done. Qed.

Lemma eat_same c bs : eat c (c :: bs) = Some bs.
Proof. simpl. by rewrite Z.eqb_refl. Qed.

Lemma sep_by_cons s x y l : sep_by s (x :: y :: l) = x ++ s ++ sep_by s (y :: l).
Proof. reflexivity. Qed.

Definition reads_back (n : ynode) : Prop :=
  json_ready n = true -> forall fuel rest, (node_size n <= fuel)%nat ->
  read_value fuel (json_of_node n ++ rest) = Some (jvalue_of n, rest).

Lemma read_items_back items n fuel rest :
  Forall reads_back (n :: items) -> forallb json_ready (n :: items) = true ->
  (foldr (fun n s => S (node_size n + s)) 0 (n :: items) <= fuel)%nat ->
  read_items fuel (sep_by [44] (map json_of_node (n :: items)) ++ 93 :: rest)
  = Some (map jvalue_of (n :: items), rest).
Proof.
  revert n fuel. induction items as [|m items IH]; intros n fuel Hall Hready Hfuel.
  - inv Hall. simpl in Hready, Hfuel. rewrite andb_true_r in Hready.
    destruct fuel as [|fuel]; [lia|]. cbn [sep_by map read_items].
    rewrite H1 by (done || lia). cbn [option_bind mbind]. by rewrite eat_same.
  - inv Hall. cbn [forallb] in Hready. apply andb_prop in Hready as [Hn Hready].
    cbn [foldr] in Hfuel. destruct fuel as [|fuel]; [lia|].
    specialize (IH m fuel H2 Hready).
    rewrite !map_cons, sep_by_cons, <-!map_cons. cbn [read_items].
    rewrite <-!app_assoc, H1 by (done || lia). cbn [mbind option_bind].
    cbn [app]. destruct (eat 93 (44 :: _)) eqn:He; [done|]. rewrite eat_same. cbn [mbind option_bind].
    rewrite !map_cons in IH. rewrite !map_cons. rewrite IH by (cbn [foldr]; lia). done.
Qed.

Lemma read_members_back entries kv fuel rest :
  Forall (fun '(k, v) => reads_back k /\ reads_back v) (kv :: entries) ->
  forallb (fun '(k, v) => is_scalar k && json_ready k && json_ready v) (kv :: entries) = true ->
  (foldr (fun '(_, v) s => S (node_size v + s)) 0 (kv :: entries) <= fuel)%nat ->
  read_members fuel
    (sep_by [44] (map (fun '(k, v) => json_of_node k ++ [58] ++ json_of_node v) (kv :: entries))
     ++ 125 :: rest)
  = Some (map (fun '(k, v) => (key_bytes k, jvalue_of v)) (kv :: entries), rest).
Proof.
  revert kv fuel. induction entries as [|m entries IH]; intros [k v] fuel Hall Hready Hfuel;
    inv Hall; destruct H1 as [_ Hv]; cbn [forallb] in Hready;
    apply andb_prop in Hready as [Hn Hready];
    apply andb_prop in Hn as [Hn Hrv]; apply andb_prop in Hn as [Hsc Hrk];
    destruct k as [|kb| |]; try done; cbn [foldr] in Hfuel; (destruct fuel as [|fuel]; [lia|]);
    cbn [sep_by map read_members]; rewrite <-!app_assoc; cbn [json_of_node];
    unfold json_quote; rewrite <-!app_assoc; cbn [app read_string]; rewrite Z.eqb_refl;
    rewrite read_chars_quoted by done; cbn [mbind option_bind]; rewrite eat_same;
    cbn [mbind option_bind].
  - rewrite Hv by (done || lia). cbn [mbind option_bind]. by rewrite eat_same.
  - rewrite Hv by (done || lia). cbn [mbind option_bind].
    destruct (eat 125 (44 :: _)) eqn:He; [done|]. rewrite eat_same. cbn [mbind option_bind].
    specialize (IH m fuel H2 Hready ltac:(cbn [foldr]; lia)). cbn [sep_by map app] in IH.
    cbn [app]. rewrite IH. done.
Qed.

Lemma read_value_array fuel rest :
  not_closer rest ->
  read_value (S fuel) (91 :: rest) = '(l, rest) ← read_items fuel rest; Some (JArray l, rest).
Proof. intros H. cbn -[eat]. by rewrite eat_not_closer by auto. Qed.

Lemma read_value_object fuel rest :
  not_closer rest ->
  read_value (S fuel) (123 :: rest)
  = '(l, rest) ← read_members fuel rest; Some (JObject l, rest).
Proof. intros H. cbn -[eat]. by rewrite eat_not_closer by auto. Qed.

Lemma sep_by_not_closer x l rest :
  (forall r, not_closer (x ++ r)) -> not_closer (sep_by [44] (x :: l) ++ rest).
Proof. intros Hx. destruct l; cbn [sep_by]; rewrite <-?app_assoc; apply Hx. Qed.

Lemma read_json_node n : reads_back n.
Proof.
  induction n as [|v|items IH|entries IH] using ynode_ind'; intros Hready fuel rest Hfuel;
    (destruct fuel as [|fuel]; [simpl in Hfuel; lia|]).
  - done.
  - cbn [json_of_node]. unfold json_quote. cbn [app read_value]. rewrite Z.eqb_refl.
    rewrite <-app_assoc. cbn [app]. by rewrite read_chars_quoted.
  - cbn [json_of_node json_ready node_size jvalue_of] in *.
    destruct items as [|n items]; [reflexivity|].
    rewrite <-!app_assoc. cbn [app]. rewrite read_value_array.
    + by rewrite read_items_back by (done || lia).
    + apply sep_by_not_closer, json_of_node_head.
  - cbn [json_of_node json_ready node_size jvalue_of] in *.
    destruct entries as [|[k v] entries]; [reflexivity|].
    rewrite <-!app_assoc. cbn [app]. rewrite read_value_object.
    + by rewrite read_members_back by (done || lia).
    + apply sep_by_not_closer. intros r. rewrite <-app_assoc. apply json_of_node_head.
Qed.

(** C36: [strbuf_append_json_string] writes inside the buffer, keeps what it held
    and NUL-terminates it; the JSON string it appends reads back as the bytes it
    was given; it fails only when memory is refused, leaving a valid buffer. *)
Theorem strbuf_append_json_string_correct `{HA : Allocator} sb bs str rest :
  sb_holds sb bs -> are_bytes str ->
  exists ok sb', strbuf_append_json_string sb str = Done (ok, sb')
    /\ if ok : bool
       then exists out, sb_holds sb' (bs ++ out) /\ read_string (out ++ rest) = Some (str, rest)
       else refuses (zlen (bs ++ json_quote str)) /\ exists bs', sb_holds sb' bs'.
Proof.
  intros Hsb Hstr. destruct (json_string_appends str sb bs Hsb) as (ok & sb' & -> & Hok).
  exists ok, sb'. split; [done|]. destruct ok; [|done]. eexists. split; [exact Hok|].
  unfold json_quote. rewrite <-!app_assoc. cbn [app read_string]. rewrite Z.eqb_refl.
  apply read_chars_quoted. apply forallb_forall. intros c Hc.
  assert (is_byte c) as Hb by (by eapply Forall_forall; [exact Hstr|apply list_elem_of_In]).
  unfold is_byte in Hb. destruct (Z.leb_spec 0 c), (Z.ltb_spec c 256); simpl; lia.
Qed.

#[local] Existing Instance small_heap.

Lemma strbuf_append_json_string_correct_witness :
  exists ok sb', strbuf_append_json_string (mk_strbuf (Some [Some 0; None]) 0 2) [34; 7; 104]
      = Done (ok, sb')
    /\ if ok : bool
       then exists out, sb_holds sb' ([] ++ out) /\ read_string (out ++ [44]) = Some ([34; 7; 104], [44])
       else refuses (zlen ([] ++ json_quote [34; 7; 104])) /\ exists bs', sb_holds sb' bs'.
Proof.
  apply strbuf_append_json_string_correct.
  - exists [None]. split_and!; vm_compute; done.
  - repeat constructor; unfold is_byte; lia.
Defined.
