(* ===== verification/YamlReader.v ===== *)
(** * The reader of libyaml ([reader.c])

    Bytes of the input string become characters in the parser's buffer, encoded in
    UTF-8, and a NUL character at the end of the input. Code of the reader and of
    the scanner is in the monad [M] over its state: a result, a failure (a C
    function returned 0), or [Undef]; a loop that exceeds its fuel is [Undef]. *)
From Stdlib Require Import ZArith Lia.
From stdpp Require Import base list option numbers strings.
From S2P Require Import Prelude YamlTypes.

(** What [yaml_parser_t] holds after a function returned 0: the fields of the error
    that was set, or none when the function set no error. *)
Inductive failure :=
| reader_error (problem : string) (offset value : Z)
| scanner_error (context : option string) (context_mark : yaml_mark_t) (problem : string)
    (problem_mark : yaml_mark_t)
| memory_error_set
| no_error_set.

Definition failure_code (e : failure) : yaml_error_type_t :=
  match e with
  | reader_error _ _ _ => YAML_READER_ERROR
  | scanner_error _ _ _ _ => YAML_SCANNER_ERROR
  | memory_error_set => YAML_MEMORY_ERROR
  | no_error_set => YAML_NO_ERROR
  end.

(** ** The monad *)

Inductive result (A : Type) := Ok (a : A) | Fail (e : failure).
Arguments Ok {A}.
Arguments Fail {A}.

Definition M (S A : Type) : Type := S -> outcome (result A * S).

#[export] Instance m_ret {S} : MRet (M S) := fun A a s => Done (Ok a, s).
#[export] Instance m_bind {S} : MBind (M S) := fun A B k m s =>
  match m s with
  | Done (Ok a, s) => k a s
  | Done (Fail e, s) => Done (Fail e, s)
  | Undef => Undef
  end.

Definition get {S} : M S S := fun s => Done (Ok s, s).
Definition update {S} (f : S -> S) : M S unit := fun s => Done (Ok tt, f s).
Definition fail {S A} (e : failure) : M S A := fun s => Done (Fail e, s).
Definition undef {S A} : M S A := fun _ => Undef.

(** [Some a] is a value that is there; what C would read otherwise is not defined. *)
Definition known {S A} (o : option A) : M S A :=
  match o with Some a => mret a | None => undef end.

(** A loop: [f] takes the loop's variables and says whether to go on with new ones
    ([inl]) or to leave with a result ([inr]). *)
Fixpoint iter {S A B} (fuel : nat) (f : A -> M S (A + B)) (a : A) : M S B :=
  match fuel with
  | O => undef
  | Datatypes.S fuel =>
      r ← f a;
      match r with
      | inl a => iter fuel f a
      | inr b => mret b
      end
  end.

(** ** The state *)

Definition INPUT_RAW_BUFFER_SIZE : Z := 16384.
Definition INPUT_BUFFER_SIZE : Z := INPUT_RAW_BUFFER_SIZE * 3.
Definition MAX_FILE_SIZE : Z := (2 ^ 64 - 1) / 2.

Record reader := mk_reader {
  rd_input : list Z;                  (* [input.string.current] to [end] *)
  rd_eof : bool;
  rd_raw_pos : Z;                     (* [raw_buffer.pointer - raw_buffer.start] *)
  rd_raw : list Z;                    (* [raw_buffer.pointer] to [last] *)
  rd_encoding : yaml_encoding_t;
  rd_offset : Z;
  rd_pos : Z;                         (* [buffer.pointer - buffer.start] *)
  rd_buffer : list Z;                 (* [buffer.pointer] to [last] *)
  rd_unread : Z;
}.

Definition set_input (l : list Z) (r : reader) : reader :=
  mk_reader l (rd_eof r) (rd_raw_pos r) (rd_raw r) (rd_encoding r) (rd_offset r)
    (rd_pos r) (rd_buffer r) (rd_unread r).
Definition set_eof (r : reader) : reader :=
  mk_reader (rd_input r) true (rd_raw_pos r) (rd_raw r) (rd_encoding r) (rd_offset r)
    (rd_pos r) (rd_buffer r) (rd_unread r).
Definition set_raw (pos : Z) (raw : list Z) (r : reader) : reader :=
  mk_reader (rd_input r) (rd_eof r) pos raw (rd_encoding r) (rd_offset r)
    (rd_pos r) (rd_buffer r) (rd_unread r).
Definition set_encoding (e : yaml_encoding_t) (r : reader) : reader :=
  mk_reader (rd_input r) (rd_eof r) (rd_raw_pos r) (rd_raw r) e (rd_offset r)
    (rd_pos r) (rd_buffer r) (rd_unread r).
Definition set_offset (o : Z) (r : reader) : reader :=
  mk_reader (rd_input r) (rd_eof r) (rd_raw_pos r) (rd_raw r) (rd_encoding r) o
    (rd_pos r) (rd_buffer r) (rd_unread r).
Definition set_buffer (pos : Z) (buf : list Z) (unread : Z) (r : reader) : reader :=
  mk_reader (rd_input r) (rd_eof r) (rd_raw_pos r) (rd_raw r) (rd_encoding r) (rd_offset r)
    pos buf unread.

(** After [yaml_parser_initialize] and [yaml_parser_set_input_string]. *)
Definition reader_initial (input : list Z) : reader :=
  mk_reader input false 0 [] YAML_ANY_ENCODING 0 0 [] 0.

(** [pointer += n] of the raw buffer, with [offset += n]. *)
Definition raw_advance (n : Z) (r : reader) : reader :=
  set_offset (u64 (rd_offset r + n)) (set_raw (rd_raw_pos r + n) (zdrop n (rd_raw r)) r).

(** ** The raw buffer *)

(** [Some] data read, of at most [size] bytes; [None] is an input error. *)
Definition yaml_string_read_handler (size : Z) : M reader (option (list Z)) :=
  r ← get;
  match rd_input r with
  | [] => mret (Some [])
  | _ =>
      let size := if zlen (rd_input r) <? size then zlen (rd_input r) else size in
      _ ← update (set_input (zdrop size (rd_input r)));
      mret (Some (ztake size (rd_input r)))
  end.

Definition yaml_parser_update_raw_buffer : M reader unit :=
  r ← get;
  if (rd_raw_pos r =? 0) && (zlen (rd_raw r) =? INPUT_RAW_BUFFER_SIZE) then mret tt
  else if rd_eof r then mret tt
  else
    _ ← update (set_raw 0 (rd_raw r));
    data ← yaml_string_read_handler (INPUT_RAW_BUFFER_SIZE - zlen (rd_raw r));
    match data with
    | None => fail (reader_error "input error" (rd_offset r) (-1))
    | Some [] => update set_eof
    | Some data => update (set_raw 0 (rd_raw r ++ data))
    end.

(** ** The encoding *)

Definition BOM_UTF8 : list Z := [239; 187; 191].
Definition BOM_UTF16LE : list Z := [255; 254].
Definition BOM_UTF16BE : list Z := [254; 255].

Definition starts_with_bom (bom : list Z) (r : reader) : bool :=
  (zlen bom <=? zlen (rd_raw r)) && bool_decide (ztake (zlen bom) (rd_raw r) = bom).

(** Each round of the loop reads at least one byte or reaches the end of the input. *)
Definition yaml_parser_determine_encoding : M reader unit :=
  _ ← iter 5 (fun _ : unit =>
        r ← get;
        if negb (rd_eof r) && (zlen (rd_raw r) <? 3)
        then _ ← yaml_parser_update_raw_buffer; mret (inl tt)
        else mret (inr tt)) tt;
  r ← get;
  if starts_with_bom BOM_UTF16LE r then
    update (fun r => raw_advance 2 (set_encoding YAML_UTF16LE_ENCODING r))
  else if starts_with_bom BOM_UTF16BE r then
    update (fun r => raw_advance 2 (set_encoding YAML_UTF16BE_ENCODING r))
  else if starts_with_bom BOM_UTF8 r then
    update (fun r => raw_advance 3 (set_encoding YAML_UTF8_ENCODING r))
  else update (set_encoding YAML_UTF8_ENCODING).

(** ** Decoding a character *)

Inductive decoded :=
| DChar (value width : Z)
| DIncomplete
| DError (e : failure)
| DUndef.

(** The width of a UTF-8 sequence by its leading octet; 0 for a trailing one. *)
Definition utf8_width (octet : Z) : Z :=
  if Z.land octet 128 =? 0 then 1
  else if Z.land octet 224 =? 192 then 2
  else if Z.land octet 240 =? 224 then 3
  else if Z.land octet 248 =? 240 then 4 else 0.

Definition utf8_leading_value (octet : Z) : Z :=
  if Z.land octet 128 =? 0 then Z.land octet 127
  else if Z.land octet 224 =? 192 then Z.land octet 31
  else if Z.land octet 240 =? 224 then Z.land octet 15
  else if Z.land octet 248 =? 240 then Z.land octet 7 else 0.

(** The trailing octets, the first of them at index [k]. *)
Fixpoint utf8_trailing (offset k : Z) (octets : list Z) (value : Z) : failure + Z :=
  match octets with
  | [] => inr value
  | octet :: octets =>
      if negb (Z.land octet 192 =? 128)
      then inl (reader_error "invalid trailing UTF-8 octet" (offset + k) octet)
      else utf8_trailing offset (k + 1) octets (u32 (Z.shiftl value 6 + Z.land octet 63))
  end.

Definition decode_utf8 (eof : bool) (offset : Z) (raw : list Z) : decoded :=
  match raw with
  | [] => DUndef
  | octet :: _ =>
      let width := utf8_width octet in
      if width =? 0 then DError (reader_error "invalid leading UTF-8 octet" offset octet)
      else if zlen raw <? width then
        if eof then DError (reader_error "incomplete UTF-8 octet sequence" offset (-1))
        else DIncomplete
      else
        match utf8_trailing offset 1 (zdrop 1 (ztake width raw)) (utf8_leading_value octet) with
        | inl e => DError e
        | inr value =>
            if negb ((width =? 1) || ((width =? 2) && (128 <=? value))
                     || ((width =? 3) && (2048 <=? value))
                     || ((width =? 4) && (65536 <=? value)))
            then DError (reader_error "invalid length of a UTF-8 sequence" offset (-1))
            else if ((55296 <=? value) && (value <=? 57343)) || (1114111 <? value)
            then DError (reader_error "invalid Unicode character" offset value)
            else DChar value width
        end
  end.

(** [low] and [high] are the indices of the low and the high byte of a unit. *)
Definition decode_utf16 (low high : nat) (eof : bool) (offset : Z) (raw : list Z) : decoded :=
  if zlen raw <? 2 then
    if eof then DError (reader_error "incomplete UTF-16 character" offset (-1)) else DIncomplete
  else
    match raw !! low, raw !! high with
    | Some l, Some h =>
        let value := u32 (l + Z.shiftl h 8) in
        if Z.land value 64512 =? 56320
        then DError (reader_error "unexpected low surrogate area" offset value)
        else if Z.land value 64512 =? 55296 then
          if zlen raw <? 4 then
            if eof then DError (reader_error "incomplete UTF-16 surrogate pair" offset (-1))
            else DIncomplete
          else
            match raw !! (low + 2)%nat, raw !! (high + 2)%nat with
            | Some l2, Some h2 =>
                let value2 := u32 (l2 + Z.shiftl h2 8) in
                if negb (Z.land value2 64512 =? 56320)
                then DError (reader_error "expected low surrogate area" (offset + 2) value2)
                else DChar (65536 + Z.shiftl (Z.land value 1023) 10 + Z.land value2 1023) 4
            | _, _ => DUndef
            end
        else DChar value 2
    | _, _ => DUndef
    end.

Definition decode_char (r : reader) : decoded :=
  match rd_encoding r with
  | YAML_UTF8_ENCODING => decode_utf8 (rd_eof r) (rd_offset r) (rd_raw r)
  | YAML_UTF16LE_ENCODING => decode_utf16 0 1 (rd_eof r) (rd_offset r) (rd_raw r)
  | YAML_UTF16BE_ENCODING => decode_utf16 1 0 (rd_eof r) (rd_offset r) (rd_raw r)
  | YAML_ANY_ENCODING => DUndef
  end.

Definition char_allowed (value : Z) : bool :=
  (value =? 9) || (value =? 10) || (value =? 13)
  || ((32 <=? value) && (value <=? 126))
  || (value =? 133) || ((160 <=? value) && (value <=? 55295))
  || ((57344 <=? value) && (value <=? 65533))
  || ((65536 <=? value) && (value <=? 1114111)).

(** The octets of a character, as stored into [unsigned char]s. *)
Definition utf8_encode (value : Z) : list Z :=
  if value <=? 127 then [u8 value]
  else if value <=? 2047 then
    [u8 (192 + Z.shiftr value 6); u8 (128 + Z.land value 63)]
  else if value <=? 65535 then
    [u8 (224 + Z.shiftr value 12); u8 (128 + Z.land (Z.shiftr value 6) 63);
     u8 (128 + Z.land value 63)]
  else
    [u8 (240 + Z.shiftr value 18); u8 (128 + Z.land (Z.shiftr value 12) 63);
     u8 (128 + Z.land (Z.shiftr value 6) 63); u8 (128 + Z.land value 63)].

(** ** Filling the buffer *)

(** Storing octets behind [buffer.last]; one character of [unread]. *)
Definition buffer_append (octets : list Z) : M reader unit :=
  r ← get;
  if rd_pos r + zlen (rd_buffer r) + zlen octets <=? INPUT_BUFFER_SIZE
  then update (set_buffer (rd_pos r) (rd_buffer r ++ octets) (u64 (rd_unread r + 1)))
  else undef.

(** One round of the decoding loop: [inr] leaves it. *)
Definition decode_step (_ : unit) : M reader (unit + unit) :=
  r ← get;
  match rd_raw r with
  | [] => mret (inr tt)
  | _ =>
      match decode_char r with
      | DUndef => undef
      | DError e => fail e
      | DIncomplete => mret (inr tt)
      | DChar value width =>
          if negb (char_allowed value)
          then fail (reader_error "control characters are not allowed" (rd_offset r) value)
          else
            _ ← update (raw_advance width);
            _ ← buffer_append (utf8_encode value);
            mret (inl tt)
      end
  end.

Definition decode_raw_buffer : M reader unit :=
  r ← get; iter (S (length (rd_raw r))) decode_step tt.

(** One round of the filling loop; the variable is [first]. Leaving it with [true] is
    the return at the end of the input. *)
Definition fill_step (length : Z) (first : bool) : M reader (bool + bool) :=
  r ← get;
  if negb (rd_unread r <? length) then mret (inr false)
  else
    _ ← (if negb first || bool_decide (rd_raw r = []) then yaml_parser_update_raw_buffer
         else mret tt);
    _ ← decode_raw_buffer;
    r ← get;
    if rd_eof r then _ ← buffer_append [0]; mret (inr true)
    else mret (inl false).

Definition yaml_parser_update_buffer (length : Z) : M reader unit :=
  r ← get;
  if rd_eof r && bool_decide (rd_raw r = []) then mret tt
  else if length <=? rd_unread r then mret tt
  else
    _ ← (match rd_encoding r with
         | YAML_ANY_ENCODING => yaml_parser_determine_encoding
         | _ => mret tt
         end);
    _ ← update (fun r =>
          if (0 <? rd_pos r) && negb (bool_decide (rd_buffer r = []))
          then set_buffer 0 (rd_buffer r) (rd_unread r) r
          else if bool_decide (rd_buffer r = []) then set_buffer 0 [] (rd_unread r) r
          else r);
    r ← get;
    ended ← iter (List.length (rd_input r) + 3) (fill_step length) true;
    if ended : bool then mret tt
    else
      r ← get;
      if MAX_FILE_SIZE <=? rd_offset r
      then fail (reader_error "input is too long" (rd_offset r) (-1))
      else mret tt.
