(* ===== verification/YamlParser.v ===== *)
(** * The event parser of libyaml ([parser.c])

    The pushdown state machine that turns the scanner's tokens into events. The
    scanner is an interface ([Scanner]); a C function that returns 0 or NULL is
    [PFail], a loop that exceeds its fuel is [PFuel], and reading a token, a
    state or a mark that is not there is [Undef]. *)
From Stdlib Require Import ZArith Lia.
From stdpp Require Import base list option numbers strings.
From S2P Require Import Prelude YamlTypes.

(** What the parser uses of the scanner, whose state lives in the same C struct:
    [yaml_parser_fetch_more_tokens] (the error code when it returns 0), the head
    of the token queue, the advance of the head, the size of the [indents] stack
    and [flow_level]. *)
Class Scanner (S : Type) := {
  scan_fetch : S -> outcome (option yaml_error_type_t * S);
  scan_head : S -> option yaml_token_t;
  scan_advance : S -> S;
  scan_indents : S -> Z;
  scan_flow_level : S -> Z;
}.

(** A [malloc]ed stack: its items (top first) and its capacity in items. *)
Record stack (A : Type) := mk_stack { stk_items : list A; stk_cap : Z }.
Arguments mk_stack {A}.
Arguments stk_items {A}.
Arguments stk_cap {A}.

Definition INITIAL_STACK_SIZE : Z := 16.
Definition MAX_NESTING_LEVEL : Z := 1000.

Definition sizeof_state : Z := 4.
Definition sizeof_mark : Z := 24.
Definition sizeof_tag_directive : Z := 16.

Section parser.
Context {SC : Type} `{Scanner SC}.
(** Whether the [n]-th allocation of the parser is granted. *)
Context (alloc : nat -> bool).

Record yaml_parser_t := mk_parser {
  p_error : yaml_error_type_t;
  p_problem : option string;
  p_problem_mark : option yaml_mark_t;
  p_context : option string;
  p_context_mark : option yaml_mark_t;
  p_stream_end_produced : bool;
  p_token_available : bool;
  p_scanner : SC;
  p_states : stack yaml_parser_state_t;
  p_state : yaml_parser_state_t;
  p_marks : stack yaml_mark_t;
  p_tag_directives : stack yaml_tag_directive_t;
  p_allocs : nat;
}.

Definition set_error (e : yaml_error_type_t) (p : yaml_parser_t) : yaml_parser_t :=
  mk_parser e (p_problem p) (p_problem_mark p) (p_context p) (p_context_mark p)
    (p_stream_end_produced p) (p_token_available p) (p_scanner p) (p_states p)
    (p_state p) (p_marks p) (p_tag_directives p) (p_allocs p).
Definition set_problem (pr : string) (m : yaml_mark_t) (p : yaml_parser_t) : yaml_parser_t :=
  mk_parser (p_error p) (Some pr) (Some m) (p_context p) (p_context_mark p)
    (p_stream_end_produced p) (p_token_available p) (p_scanner p) (p_states p)
    (p_state p) (p_marks p) (p_tag_directives p) (p_allocs p).
Definition set_context (c : string) (m : yaml_mark_t) (p : yaml_parser_t) : yaml_parser_t :=
  mk_parser (p_error p) (p_problem p) (p_problem_mark p) (Some c) (Some m)
    (p_stream_end_produced p) (p_token_available p) (p_scanner p) (p_states p)
    (p_state p) (p_marks p) (p_tag_directives p) (p_allocs p).
Definition set_scanner (available ended : bool) (s : SC) (p : yaml_parser_t) : yaml_parser_t :=
  mk_parser (p_error p) (p_problem p) (p_problem_mark p) (p_context p) (p_context_mark p)
    ended available s (p_states p)
    (p_state p) (p_marks p) (p_tag_directives p) (p_allocs p).
Definition set_states (st : stack yaml_parser_state_t) (p : yaml_parser_t) : yaml_parser_t :=
  mk_parser (p_error p) (p_problem p) (p_problem_mark p) (p_context p) (p_context_mark p)
    (p_stream_end_produced p) (p_token_available p) (p_scanner p) st
    (p_state p) (p_marks p) (p_tag_directives p) (p_allocs p).
Definition set_state_field (s : yaml_parser_state_t) (p : yaml_parser_t) : yaml_parser_t :=
  mk_parser (p_error p) (p_problem p) (p_problem_mark p) (p_context p) (p_context_mark p)
    (p_stream_end_produced p) (p_token_available p) (p_scanner p) (p_states p)
    s (p_marks p) (p_tag_directives p) (p_allocs p).
Definition set_marks (m : stack yaml_mark_t) (p : yaml_parser_t) : yaml_parser_t :=
  mk_parser (p_error p) (p_problem p) (p_problem_mark p) (p_context p) (p_context_mark p)
    (p_stream_end_produced p) (p_token_available p) (p_scanner p) (p_states p)
    (p_state p) m (p_tag_directives p) (p_allocs p).
Definition set_tag_directives (t : stack yaml_tag_directive_t) (p : yaml_parser_t)
    : yaml_parser_t :=
  mk_parser (p_error p) (p_problem p) (p_problem_mark p) (p_context p) (p_context_mark p)
    (p_stream_end_produced p) (p_token_available p) (p_scanner p) (p_states p)
    (p_state p) (p_marks p) t (p_allocs p).
Definition bump_allocs (p : yaml_parser_t) : yaml_parser_t :=
  mk_parser (p_error p) (p_problem p) (p_problem_mark p) (p_context p) (p_context_mark p)
    (p_stream_end_produced p) (p_token_available p) (p_scanner p) (p_states p)
    (p_state p) (p_marks p) (p_tag_directives p) (S (p_allocs p)).

(** ** The parser monad *)

Inductive presult (A : Type) := POk (a : A) | PFail | PFuel.
Arguments POk {A} a.
Arguments PFail {A}.
Arguments PFuel {A}.

Definition PM (A : Type) : Type := yaml_parser_t -> outcome (presult A * yaml_parser_t).

#[local] Instance pm_ret : MRet PM := fun A a p => Done (POk a, p).
#[local] Instance pm_bind : MBind PM := fun A B k m p =>
  match m p with
  | Done (POk a, p) => k a p
  | Done (PFail, p) => Done (PFail, p)
  | Done (PFuel, p) => Done (PFuel, p)
  | Undef => Undef
  end.

Definition return0 {A} : PM A := fun p => Done (PFail, p).
Definition undefined {A} : PM A := fun _ => Undef.
Definition no_fuel {A} : PM A := fun p => Done (PFuel, p).
Definition modify (f : yaml_parser_t -> yaml_parser_t) : PM unit := fun p => Done (POk tt, f p).
Definition gets {A} (f : yaml_parser_t -> A) : PM A := fun p => Done (POk (f p), p).

Definition set_state (s : yaml_parser_state_t) : PM unit := modify (set_state_field s).

(** One allocation request. *)
Definition yaml_malloc : PM bool := fun p => Done (POk (alloc (p_allocs p)), bump_allocs p).

(** [if (!m) { parser->error = YAML_MEMORY_ERROR; return 0; }] *)
Definition memory_error {A} : PM A := modify (set_error YAML_MEMORY_ERROR) ≫= fun _ => return0.

(** ** The macros *)

Definition PEEK_TOKEN : PM yaml_token_t := fun p =>
  if p_token_available p then
    match scan_head (p_scanner p) with
    | Some token => Done (POk token, p)
    | None => Undef
    end
  else
    match scan_fetch (p_scanner p) with
    | Undef => Undef
    | Done (Some e, s) =>
        Done (PFail, set_error e (set_scanner false (p_stream_end_produced p) s p))
    | Done (None, s) =>
        match scan_head s with
        | Some token => Done (POk token, set_scanner true (p_stream_end_produced p) s p)
        | None => Undef
        end
    end.

(** [PEEK_TOKEN] whose result is dereferenced without a test. *)
Definition PEEK_TOKEN_deref : PM yaml_token_t := fun p =>
  match PEEK_TOKEN p with
  | Done (PFail, _) => Undef
  | r => r
  end.

Definition token_is (token : yaml_token_t) (ty : yaml_token_type_t) : bool :=
  bool_decide (token_type token = ty).

Definition SKIP_TOKEN : PM unit := fun p =>
  match scan_head (p_scanner p) with
  | Some token =>
      Done (POk tt, set_scanner false (token_is token YAML_STREAM_END_TOKEN)
                      (scan_advance (p_scanner p)) p)
  | None => Undef
  end.

(** [PUSH]: grows a full stack with [yaml_stack_extend], which refuses to grow
    beyond [INT_MAX / 2] bytes; [None] when there is no room. *)
Definition yaml_stack_extend {A} (elem : Z) (st : stack A) : PM (option (stack A)) :=
  if INT_MAX / 2 <=? stk_cap st * elem then mret None
  else granted ← yaml_malloc;
       mret (if granted : bool then Some (mk_stack (stk_items st) (stk_cap st * 2)) else None).

Definition stack_push {A} (elem : Z) (st : stack A) (a : A) : PM (stack A) :=
  if bool_decide (zlen (stk_items st) <> stk_cap st)
  then mret (mk_stack (a :: stk_items st) (stk_cap st))
  else
    st' ← yaml_stack_extend elem st;
    match st' with
    | Some st' => mret (mk_stack (a :: stk_items st') (stk_cap st'))
    | None => memory_error
    end.

Definition PUSH_state (s : yaml_parser_state_t) : PM unit :=
  st ← gets p_states; st ← stack_push sizeof_state st s; modify (set_states st).

Definition PUSH_mark (m : yaml_mark_t) : PM unit :=
  st ← gets p_marks; st ← stack_push sizeof_mark st m; modify (set_marks st).

Definition PUSH_tag_directive (t : yaml_tag_directive_t) : PM unit :=
  st ← gets p_tag_directives;
  st ← stack_push sizeof_tag_directive st t;
  modify (set_tag_directives st).

Definition POP_state : PM yaml_parser_state_t :=
  st ← gets p_states;
  match stk_items st with
  | [] => undefined
  | s :: rest => _ ← modify (set_states (mk_stack rest (stk_cap st))); mret s
  end.

Definition POP_mark : PM yaml_mark_t :=
  st ← gets p_marks;
  match stk_items st with
  | [] => undefined
  | m :: rest => _ ← modify (set_marks (mk_stack rest (stk_cap st))); mret m
  end.

Definition STACK_LIMIT_indents (limit : Z) : PM bool :=
  s ← gets p_scanner;
  if scan_indents s <? limit then mret true
  else _ ← modify (set_error YAML_MEMORY_ERROR); mret false.

(** ** Errors *)

Definition yaml_parser_set_parser_error {A} (problem : string) (problem_mark : yaml_mark_t)
    : PM A :=
  _ ← modify (set_error YAML_PARSER_ERROR);
  _ ← modify (set_problem problem problem_mark);
  return0.

Definition yaml_parser_set_parser_error_context {A} (context : string)
    (context_mark : yaml_mark_t) (problem : string) (problem_mark : yaml_mark_t) : PM A :=
  _ ← modify (set_error YAML_PARSER_ERROR);
  _ ← modify (set_context context context_mark);
  _ ← modify (set_problem problem problem_mark);
  return0.

Definition yaml_maximum_level_reached {A} (context_mark problem_mark : yaml_mark_t) : PM A :=
  yaml_parser_set_parser_error_context "while parsing" context_mark
    "Maximum nesting level reached, set with yaml_set_max_nest_level())" problem_mark.

Definition event (d : yaml_event_data) (start_mark end_mark : yaml_mark_t) : PM yaml_event_t :=
  mret (mk_event d start_mark end_mark).

Definition yaml_parser_process_empty_scalar (mark : yaml_mark_t) : PM yaml_event_t :=
  granted ← yaml_malloc;
  if negb granted then memory_error
  else event (YAML_SCALAR_EVENT None None [] true false YAML_PLAIN_SCALAR_STYLE) mark mark.

(** ** Tag directives *)

Definition handle_of : list yaml_tag_directive_t -> ystr -> bool := fun l handle =>
  existsb (fun d => bool_decide (td_handle d = handle)) l.

Definition yaml_parser_append_tag_directive (value : yaml_tag_directive_t)
    (allow_duplicates : bool) (mark : yaml_mark_t) : PM unit :=
  st ← gets p_tag_directives;
  if handle_of (stk_items st) (td_handle value) then
    if allow_duplicates then mret tt
    else yaml_parser_set_parser_error "found duplicate %TAG directive" mark
  else
    handle ← yaml_malloc;
    prefix ← yaml_malloc;
    if negb handle || negb prefix then memory_error
    else PUSH_tag_directive value.

Definition default_tag_directives : list yaml_tag_directive_t :=
  [mk_tag_directive (bytes_of_string "!") (bytes_of_string "!");
   mk_tag_directive (bytes_of_string "!!") (bytes_of_string "tag:yaml.org,2002:")].

Fixpoint append_default_tag_directives (l : list yaml_tag_directive_t) (mark : yaml_mark_t)
    : PM unit :=
  match l with
  | [] => mret tt
  | d :: l =>
      _ ← yaml_parser_append_tag_directive d true mark;
      append_default_tag_directives l mark
  end.

(** The [while] loop over directive tokens; [local] is the local stack of tag
    directives. Returns the token that ends the loop. *)
Fixpoint process_directives_loop (fuel : nat) (token : yaml_token_t)
    (version : option yaml_version_directive_t) (local : stack yaml_tag_directive_t)
    : PM (option yaml_version_directive_t * stack yaml_tag_directive_t * yaml_token_t) :=
  match fuel with
  | O => no_fuel
  | S fuel =>
      match token_data token with
      | tok_version_directive major minor =>
          match version with
          | Some _ =>
              yaml_parser_set_parser_error "found duplicate %YAML directive"
                (token_start_mark token)
          | None =>
              if negb (major =? 1) || (negb (minor =? 1) && negb (minor =? 2)) then
                yaml_parser_set_parser_error "found incompatible YAML document"
                  (token_start_mark token)
              else
                granted ← yaml_malloc;
                if negb granted then memory_error
                else
                  _ ← SKIP_TOKEN;
                  token ← PEEK_TOKEN;
                  process_directives_loop fuel token (Some (mk_version major minor)) local
          end
      | tok_tag_directive handle prefix =>
          let value := mk_tag_directive handle prefix in
          _ ← yaml_parser_append_tag_directive value false (token_start_mark token);
          local ← stack_push sizeof_tag_directive local value;
          _ ← SKIP_TOKEN;
          token ← PEEK_TOKEN;
          process_directives_loop fuel token version local
      | _ => mret (version, local, token)
      end
  end.

(** Returns the version and the tag directives of the document (in order). *)
Definition yaml_parser_process_directives (fuel : nat)
    : PM (option yaml_version_directive_t * list yaml_tag_directive_t) :=
  granted ← yaml_malloc;
  if negb granted then memory_error
  else
    token ← PEEK_TOKEN;
    '(version, local, token) ←
      process_directives_loop fuel token None (mk_stack [] INITIAL_STACK_SIZE);
    _ ← append_default_tag_directives default_tag_directives (token_start_mark token);
    mret (version, rev (stk_items local)).

(** ** State functions *)

Definition type_in (token : yaml_token_t) (l : list yaml_token_type_t) : bool :=
  existsb (token_is token) l.

Definition yaml_parser_parse_stream_start : PM yaml_event_t :=
  token ← PEEK_TOKEN;
  match token_data token with
  | tok_stream_start encoding =>
      _ ← set_state YAML_PARSE_IMPLICIT_DOCUMENT_START_STATE;
      _ ← SKIP_TOKEN;
      event (YAML_STREAM_START_EVENT encoding) (token_start_mark token) (token_start_mark token)
  | _ =>
      yaml_parser_set_parser_error "did not find expected <stream-start>"
        (token_start_mark token)
  end.

(** [while (token->type == YAML_DOCUMENT_END_TOKEN) ...] *)
Fixpoint skip_document_ends (fuel : nat) (token : yaml_token_t) : PM yaml_token_t :=
  match fuel with
  | O => no_fuel
  | S fuel =>
      if token_is token YAML_DOCUMENT_END_TOKEN then
        _ ← SKIP_TOKEN; token ← PEEK_TOKEN; skip_document_ends fuel token
      else mret token
  end.

Definition yaml_parser_parse_document_start (fuel : nat) (implicit : bool) : PM yaml_event_t :=
  token ← PEEK_TOKEN;
  token ← (if negb implicit then skip_document_ends fuel token else mret token);
  if implicit && negb (type_in token
       [YAML_VERSION_DIRECTIVE_TOKEN; YAML_TAG_DIRECTIVE_TOKEN; YAML_DOCUMENT_START_TOKEN;
        YAML_STREAM_END_TOKEN]) then
    _ ← yaml_parser_process_directives fuel;
    _ ← PUSH_state YAML_PARSE_DOCUMENT_END_STATE;
    _ ← set_state YAML_PARSE_BLOCK_NODE_STATE;
    event (YAML_DOCUMENT_START_EVENT None [] true) (token_start_mark token)
      (token_start_mark token)
  else if negb (token_is token YAML_STREAM_END_TOKEN) then
    let start_mark := token_start_mark token in
    '(version_directive, tag_directives) ← yaml_parser_process_directives fuel;
    token ← PEEK_TOKEN;
    if negb (token_is token YAML_DOCUMENT_START_TOKEN) then
      yaml_parser_set_parser_error "did not find expected <document start>"
        (token_start_mark token)
    else
      _ ← PUSH_state YAML_PARSE_DOCUMENT_END_STATE;
      _ ← set_state YAML_PARSE_DOCUMENT_CONTENT_STATE;
      let end_mark := token_end_mark token in
      _ ← SKIP_TOKEN;
      event (YAML_DOCUMENT_START_EVENT version_directive tag_directives false)
        start_mark end_mark
  else
    _ ← set_state YAML_PARSE_END_STATE;
    _ ← SKIP_TOKEN;
    event YAML_STREAM_END_EVENT (token_start_mark token) (token_end_mark token).

(** *** [yaml_parser_parse_node] *)

(** The properties of a node: anchor, tag (handle, suffix, mark), and the start
    and end marks so far. *)
Record node_props := mk_props {
  np_anchor : option ystr;
  np_tag : option (ystr * ystr * yaml_mark_t);
  np_start_mark : yaml_mark_t;
  np_end_mark : yaml_mark_t;
}.

(** [ANCHOR TAG?] or [TAG ANCHOR?] or nothing; returns the next token. *)
Definition parse_properties (token : yaml_token_t) : PM (node_props * yaml_token_t) :=
  let start_mark := token_start_mark token in
  let end_mark := token_end_mark token in
  match token_data token with
  | tok_anchor anchor =>
      _ ← SKIP_TOKEN;
      token ← PEEK_TOKEN;
      match token_data token with
      | tok_tag handle suffix =>
          let tag_mark := token_start_mark token in
          let end_mark := token_end_mark token in
          _ ← SKIP_TOKEN;
          token ← PEEK_TOKEN;
          mret (mk_props (Some anchor) (Some (handle, suffix, tag_mark)) start_mark end_mark,
                token)
      | _ => mret (mk_props (Some anchor) None start_mark end_mark, token)
      end
  | tok_tag handle suffix =>
      _ ← SKIP_TOKEN;
      token ← PEEK_TOKEN;
      match token_data token with
      | tok_anchor anchor =>
          let end_mark := token_end_mark token in
          _ ← SKIP_TOKEN;
          token ← PEEK_TOKEN;
          mret (mk_props (Some anchor) (Some (handle, suffix, start_mark)) start_mark end_mark,
                token)
      | _ => mret (mk_props None (Some (handle, suffix, start_mark)) start_mark end_mark, token)
      end
  | _ => mret (mk_props None None start_mark start_mark, token)
  end.

(** The tag of the node: the suffix itself for an empty handle, otherwise the
    prefix of the first directive with that handle followed by the suffix. *)
Definition resolve_tag (props : node_props) : PM (option ystr) :=
  match np_tag props with
  | None => mret None
  | Some ([], suffix, _) => mret (Some suffix)
  | Some (handle, suffix, tag_mark) =>
      directives ← gets p_tag_directives;
      match List.find (fun d => bool_decide (td_handle d = handle))
              (rev (stk_items directives)) with
      | Some d =>
          granted ← yaml_malloc;
          if negb granted then memory_error
          else mret (Some (td_prefix d ++ suffix))
      | None =>
          yaml_parser_set_parser_error_context "while parsing a node" (np_start_mark props)
            "found undefined tag handle" tag_mark
      end
  end.

(** The test of the nesting limit before a collection is opened. *)
Definition check_nesting (start_mark : yaml_mark_t) (token : yaml_token_t) : PM unit :=
  s ← gets p_scanner;
  ok ← STACK_LIMIT_indents (MAX_NESTING_LEVEL - scan_flow_level s);
  if ok : bool then mret tt
  else yaml_maximum_level_reached start_mark (token_start_mark token).

(** [strcmp(tag, "!") == 0] *)
Definition is_bang (tag : option ystr) : bool :=
  bool_decide (tag = Some (bytes_of_string "!")).

Definition parse_node_content (block indentless_sequence : bool) (props : node_props)
    (tag : option ystr) (token : yaml_token_t) : PM yaml_event_t :=
  let anchor := np_anchor props in
  let start_mark := np_start_mark props in
  let implicit := match tag with None | Some [] => true | _ => false end in
  if indentless_sequence && token_is token YAML_BLOCK_ENTRY_TOKEN then
    _ ← set_state YAML_PARSE_INDENTLESS_SEQUENCE_ENTRY_STATE;
    event (YAML_SEQUENCE_START_EVENT anchor tag implicit YAML_BLOCK_SEQUENCE_STYLE)
      start_mark (token_end_mark token)
  else
    match token_data token with
    | tok_scalar value style =>
        let plain := match style with YAML_PLAIN_SCALAR_STYLE => true | _ => false end in
        let no_tag := match tag with None => true | _ => false end in
        let plain_implicit := (plain && no_tag) || is_bang tag in
        let quoted_implicit := negb plain_implicit && no_tag in
        s ← POP_state;
        _ ← set_state s;
        _ ← SKIP_TOKEN;
        event (YAML_SCALAR_EVENT anchor tag value plain_implicit quoted_implicit style)
          start_mark (token_end_mark token)
    | _ =>
        if token_is token YAML_FLOW_SEQUENCE_START_TOKEN then
          _ ← check_nesting start_mark token;
          _ ← set_state YAML_PARSE_FLOW_SEQUENCE_FIRST_ENTRY_STATE;
          event (YAML_SEQUENCE_START_EVENT anchor tag implicit YAML_FLOW_SEQUENCE_STYLE)
            start_mark (token_end_mark token)
        else if token_is token YAML_FLOW_MAPPING_START_TOKEN then
          _ ← check_nesting start_mark token;
          _ ← set_state YAML_PARSE_FLOW_MAPPING_FIRST_KEY_STATE;
          event (YAML_MAPPING_START_EVENT anchor tag implicit YAML_FLOW_MAPPING_STYLE)
            start_mark (token_end_mark token)
        else if block && token_is token YAML_BLOCK_SEQUENCE_START_TOKEN then
          _ ← check_nesting start_mark token;
          _ ← set_state YAML_PARSE_BLOCK_SEQUENCE_FIRST_ENTRY_STATE;
          event (YAML_SEQUENCE_START_EVENT anchor tag implicit YAML_BLOCK_SEQUENCE_STYLE)
            start_mark (token_end_mark token)
        else if block && token_is token YAML_BLOCK_MAPPING_START_TOKEN then
          _ ← check_nesting start_mark token;
          _ ← set_state YAML_PARSE_BLOCK_MAPPING_FIRST_KEY_STATE;
          event (YAML_MAPPING_START_EVENT anchor tag implicit YAML_BLOCK_MAPPING_STYLE)
            start_mark (token_end_mark token)
        else
          match anchor, tag with
          | None, None =>
              yaml_parser_set_parser_error_context
                (if block then "while parsing a block node" else "while parsing a flow node")
                start_mark "did not find expected node content" (token_start_mark token)
          | _, _ =>
              granted ← yaml_malloc;
              if negb granted then memory_error
              else
                s ← POP_state;
                _ ← set_state s;
                event (YAML_SCALAR_EVENT anchor tag [] implicit false YAML_PLAIN_SCALAR_STYLE)
                  start_mark (np_end_mark props)
          end
    end.

Definition yaml_parser_parse_node (block indentless_sequence : bool) : PM yaml_event_t :=
  token ← PEEK_TOKEN;
  match token_data token with
  | tok_alias value =>
      s ← POP_state;
      _ ← set_state s;
      _ ← SKIP_TOKEN;
      event (YAML_ALIAS_EVENT value) (token_start_mark token) (token_end_mark token)
  | _ =>
      '(props, token) ← parse_properties token;
      tag ← resolve_tag props;
      parse_node_content block indentless_sequence props tag token
  end.

Definition yaml_parser_parse_document_content : PM yaml_event_t :=
  token ← PEEK_TOKEN;
  if type_in token [YAML_VERSION_DIRECTIVE_TOKEN; YAML_TAG_DIRECTIVE_TOKEN;
       YAML_DOCUMENT_START_TOKEN; YAML_DOCUMENT_END_TOKEN; YAML_STREAM_END_TOKEN] then
    s ← POP_state;
    _ ← set_state s;
    yaml_parser_process_empty_scalar (token_start_mark token)
  else yaml_parser_parse_node true false.

Definition yaml_parser_parse_document_end : PM yaml_event_t :=
  token ← PEEK_TOKEN;
  '(implicit, end_mark) ←
    (if token_is token YAML_DOCUMENT_END_TOKEN
     then _ ← SKIP_TOKEN; mret (false, token_end_mark token)
     else mret (true, token_start_mark token));
  directives ← gets p_tag_directives;
  _ ← modify (set_tag_directives (mk_stack [] (stk_cap directives)));
  _ ← set_state YAML_PARSE_DOCUMENT_START_STATE;
  event (YAML_DOCUMENT_END_EVENT implicit) (token_start_mark token) end_mark.

(** [if (first) { token = PEEK_TOKEN; PUSH(marks, token->start_mark); SKIP_TOKEN; }] *)
Definition enter_collection (first : bool) : PM unit :=
  if first then
    token ← PEEK_TOKEN_deref;
    _ ← PUSH_mark (token_start_mark token);
    SKIP_TOKEN
  else mret tt.

(** [parser->state = POP(states); POP(marks); <end event>; SKIP_TOKEN] *)
Definition leave_collection (d : yaml_event_data) (token : yaml_token_t) : PM yaml_event_t :=
  s ← POP_state;
  _ ← set_state s;
  _ ← POP_mark;
  _ ← SKIP_TOKEN;
  event d (token_start_mark token) (token_end_mark token).

(** [set_parser_error_context(context, POP(marks), problem, token->start_mark)] *)
Definition collection_error {A} (context problem : string) (token : yaml_token_t) : PM A :=
  m ← POP_mark;
  yaml_parser_set_parser_error_context context m problem (token_start_mark token).

(** [PUSH(states, after); return parse_node(block, indentless)] *)
Definition parse_child (after : yaml_parser_state_t) (block indentless : bool)
    : PM yaml_event_t :=
  _ ← PUSH_state after;
  yaml_parser_parse_node block indentless.

(** [parser->state = after; return process_empty_scalar(mark)] *)
Definition empty_child (after : yaml_parser_state_t) (mark : yaml_mark_t) : PM yaml_event_t :=
  _ ← set_state after;
  yaml_parser_process_empty_scalar mark.

Definition yaml_parser_parse_block_sequence_entry (first : bool) : PM yaml_event_t :=
  _ ← enter_collection first;
  token ← PEEK_TOKEN;
  if token_is token YAML_BLOCK_ENTRY_TOKEN then
    let mark := token_end_mark token in
    _ ← SKIP_TOKEN;
    token ← PEEK_TOKEN;
    if negb (type_in token [YAML_BLOCK_ENTRY_TOKEN; YAML_BLOCK_END_TOKEN])
    then parse_child YAML_PARSE_BLOCK_SEQUENCE_ENTRY_STATE true false
    else empty_child YAML_PARSE_BLOCK_SEQUENCE_ENTRY_STATE mark
  else if token_is token YAML_BLOCK_END_TOKEN then
    leave_collection YAML_SEQUENCE_END_EVENT token
  else
    collection_error "while parsing a block collection" "did not find expected '-' indicator"
      token.

Definition yaml_parser_parse_indentless_sequence_entry : PM yaml_event_t :=
  token ← PEEK_TOKEN;
  if token_is token YAML_BLOCK_ENTRY_TOKEN then
    let mark := token_end_mark token in
    _ ← SKIP_TOKEN;
    token ← PEEK_TOKEN;
    if negb (type_in token [YAML_BLOCK_ENTRY_TOKEN; YAML_KEY_TOKEN; YAML_VALUE_TOKEN;
         YAML_BLOCK_END_TOKEN])
    then parse_child YAML_PARSE_INDENTLESS_SEQUENCE_ENTRY_STATE true false
    else empty_child YAML_PARSE_INDENTLESS_SEQUENCE_ENTRY_STATE mark
  else
    s ← POP_state;
    _ ← set_state s;
    event YAML_SEQUENCE_END_EVENT (token_start_mark token) (token_start_mark token).

Definition yaml_parser_parse_block_mapping_key (first : bool) : PM yaml_event_t :=
  _ ← enter_collection first;
  token ← PEEK_TOKEN;
  if token_is token YAML_KEY_TOKEN then
    let mark := token_end_mark token in
    _ ← SKIP_TOKEN;
    token ← PEEK_TOKEN;
    if negb (type_in token [YAML_KEY_TOKEN; YAML_VALUE_TOKEN; YAML_BLOCK_END_TOKEN])
    then parse_child YAML_PARSE_BLOCK_MAPPING_VALUE_STATE true true
    else empty_child YAML_PARSE_BLOCK_MAPPING_VALUE_STATE mark
  else if token_is token YAML_BLOCK_END_TOKEN then
    leave_collection YAML_MAPPING_END_EVENT token
  else
    collection_error "while parsing a block mapping" "did not find expected key" token.

Definition yaml_parser_parse_block_mapping_value : PM yaml_event_t :=
  token ← PEEK_TOKEN;
  if token_is token YAML_VALUE_TOKEN then
    let mark := token_end_mark token in
    _ ← SKIP_TOKEN;
    token ← PEEK_TOKEN;
    if negb (type_in token [YAML_KEY_TOKEN; YAML_VALUE_TOKEN; YAML_BLOCK_END_TOKEN])
    then parse_child YAML_PARSE_BLOCK_MAPPING_KEY_STATE true true
    else empty_child YAML_PARSE_BLOCK_MAPPING_KEY_STATE mark
  else empty_child YAML_PARSE_BLOCK_MAPPING_KEY_STATE (token_start_mark token).

Definition yaml_parser_parse_flow_sequence_entry (first : bool) : PM yaml_event_t :=
  _ ← enter_collection first;
  token ← PEEK_TOKEN;
  if negb (token_is token YAML_FLOW_SEQUENCE_END_TOKEN) then
    token ←
      (if negb first then
         if token_is token YAML_FLOW_ENTRY_TOKEN
         then _ ← SKIP_TOKEN; PEEK_TOKEN
         else collection_error "while parsing a flow sequence"
                "did not find expected ',' or ']'" token
       else mret token);
    if token_is token YAML_KEY_TOKEN then
      _ ← set_state YAML_PARSE_FLOW_SEQUENCE_ENTRY_MAPPING_KEY_STATE;
      _ ← SKIP_TOKEN;
      event (YAML_MAPPING_START_EVENT None None true YAML_FLOW_MAPPING_STYLE)
        (token_start_mark token) (token_end_mark token)
    else if negb (token_is token YAML_FLOW_SEQUENCE_END_TOKEN) then
      parse_child YAML_PARSE_FLOW_SEQUENCE_ENTRY_STATE false false
    else leave_collection YAML_SEQUENCE_END_EVENT token
  else leave_collection YAML_SEQUENCE_END_EVENT token.

Definition yaml_parser_parse_flow_sequence_entry_mapping_key : PM yaml_event_t :=
  token ← PEEK_TOKEN;
  if negb (type_in token [YAML_VALUE_TOKEN; YAML_FLOW_ENTRY_TOKEN;
       YAML_FLOW_SEQUENCE_END_TOKEN])
  then parse_child YAML_PARSE_FLOW_SEQUENCE_ENTRY_MAPPING_VALUE_STATE false false
  else if token_is token YAML_FLOW_SEQUENCE_END_TOKEN then
    empty_child YAML_PARSE_FLOW_SEQUENCE_ENTRY_MAPPING_VALUE_STATE (token_start_mark token)
  else
    _ ← SKIP_TOKEN;
    empty_child YAML_PARSE_FLOW_SEQUENCE_ENTRY_MAPPING_VALUE_STATE (token_end_mark token).

Definition yaml_parser_parse_flow_sequence_entry_mapping_value : PM yaml_event_t :=
  token ← PEEK_TOKEN;
  if token_is token YAML_VALUE_TOKEN then
    _ ← SKIP_TOKEN;
    token ← PEEK_TOKEN;
    if negb (type_in token [YAML_FLOW_ENTRY_TOKEN; YAML_FLOW_SEQUENCE_END_TOKEN])
    then parse_child YAML_PARSE_FLOW_SEQUENCE_ENTRY_MAPPING_END_STATE false false
    else empty_child YAML_PARSE_FLOW_SEQUENCE_ENTRY_MAPPING_END_STATE (token_start_mark token)
  else empty_child YAML_PARSE_FLOW_SEQUENCE_ENTRY_MAPPING_END_STATE (token_start_mark token).

Definition yaml_parser_parse_flow_sequence_entry_mapping_end : PM yaml_event_t :=
  token ← PEEK_TOKEN;
  _ ← set_state YAML_PARSE_FLOW_SEQUENCE_ENTRY_STATE;
  event YAML_MAPPING_END_EVENT (token_start_mark token) (token_start_mark token).

Definition yaml_parser_parse_flow_mapping_key (first : bool) : PM yaml_event_t :=
  _ ← enter_collection first;
  token ← PEEK_TOKEN;
  if negb (token_is token YAML_FLOW_MAPPING_END_TOKEN) then
    token ←
      (if negb first then
         if token_is token YAML_FLOW_ENTRY_TOKEN
         then _ ← SKIP_TOKEN; PEEK_TOKEN
         else collection_error "while parsing a flow mapping"
                "did not find expected ',' or '}'" token
       else mret token);
    if token_is token YAML_KEY_TOKEN then
      _ ← SKIP_TOKEN;
      token ← PEEK_TOKEN;
      if negb (type_in token [YAML_VALUE_TOKEN; YAML_FLOW_ENTRY_TOKEN;
           YAML_FLOW_MAPPING_END_TOKEN])
      then parse_child YAML_PARSE_FLOW_MAPPING_VALUE_STATE false false
      else empty_child YAML_PARSE_FLOW_MAPPING_VALUE_STATE (token_start_mark token)
    else if negb (token_is token YAML_FLOW_MAPPING_END_TOKEN) then
      parse_child YAML_PARSE_FLOW_MAPPING_EMPTY_VALUE_STATE false false
    else leave_collection YAML_MAPPING_END_EVENT token
  else leave_collection YAML_MAPPING_END_EVENT token.

Definition yaml_parser_parse_flow_mapping_value (empty : bool) : PM yaml_event_t :=
  token ← PEEK_TOKEN;
  if empty then empty_child YAML_PARSE_FLOW_MAPPING_KEY_STATE (token_start_mark token)
  else if token_is token YAML_VALUE_TOKEN then
    _ ← SKIP_TOKEN;
    token ← PEEK_TOKEN;
    if negb (type_in token [YAML_FLOW_ENTRY_TOKEN; YAML_FLOW_MAPPING_END_TOKEN])
    then parse_child YAML_PARSE_FLOW_MAPPING_KEY_STATE false false
    else empty_child YAML_PARSE_FLOW_MAPPING_KEY_STATE (token_start_mark token)
  else empty_child YAML_PARSE_FLOW_MAPPING_KEY_STATE (token_start_mark token).

(** ** The dispatcher *)

Definition yaml_parser_state_machine (fuel : nat) : PM yaml_event_t :=
  s ← gets p_state;
  match s with
  | YAML_PARSE_STREAM_START_STATE => yaml_parser_parse_stream_start
  | YAML_PARSE_IMPLICIT_DOCUMENT_START_STATE => yaml_parser_parse_document_start fuel true
  | YAML_PARSE_DOCUMENT_START_STATE => yaml_parser_parse_document_start fuel false
  | YAML_PARSE_DOCUMENT_CONTENT_STATE => yaml_parser_parse_document_content
  | YAML_PARSE_DOCUMENT_END_STATE => yaml_parser_parse_document_end
  | YAML_PARSE_BLOCK_NODE_STATE => yaml_parser_parse_node true false
  | YAML_PARSE_BLOCK_NODE_OR_INDENTLESS_SEQUENCE_STATE => yaml_parser_parse_node true true
  | YAML_PARSE_FLOW_NODE_STATE => yaml_parser_parse_node false false
  | YAML_PARSE_BLOCK_SEQUENCE_FIRST_ENTRY_STATE => yaml_parser_parse_block_sequence_entry true
  | YAML_PARSE_BLOCK_SEQUENCE_ENTRY_STATE => yaml_parser_parse_block_sequence_entry false
  | YAML_PARSE_INDENTLESS_SEQUENCE_ENTRY_STATE => yaml_parser_parse_indentless_sequence_entry
  | YAML_PARSE_BLOCK_MAPPING_FIRST_KEY_STATE => yaml_parser_parse_block_mapping_key true
  | YAML_PARSE_BLOCK_MAPPING_KEY_STATE => yaml_parser_parse_block_mapping_key false
  | YAML_PARSE_BLOCK_MAPPING_VALUE_STATE => yaml_parser_parse_block_mapping_value
  | YAML_PARSE_FLOW_SEQUENCE_FIRST_ENTRY_STATE => yaml_parser_parse_flow_sequence_entry true
  | YAML_PARSE_FLOW_SEQUENCE_ENTRY_STATE => yaml_parser_parse_flow_sequence_entry false
  | YAML_PARSE_FLOW_SEQUENCE_ENTRY_MAPPING_KEY_STATE =>
      yaml_parser_parse_flow_sequence_entry_mapping_key
  | YAML_PARSE_FLOW_SEQUENCE_ENTRY_MAPPING_VALUE_STATE =>
      yaml_parser_parse_flow_sequence_entry_mapping_value
  | YAML_PARSE_FLOW_SEQUENCE_ENTRY_MAPPING_END_STATE =>
      yaml_parser_parse_flow_sequence_entry_mapping_end
  | YAML_PARSE_FLOW_MAPPING_FIRST_KEY_STATE => yaml_parser_parse_flow_mapping_key true
  | YAML_PARSE_FLOW_MAPPING_KEY_STATE => yaml_parser_parse_flow_mapping_key false
  | YAML_PARSE_FLOW_MAPPING_VALUE_STATE => yaml_parser_parse_flow_mapping_value false
  | YAML_PARSE_FLOW_MAPPING_EMPTY_VALUE_STATE => yaml_parser_parse_flow_mapping_value true
  | YAML_PARSE_END_STATE => return0
  end.

Definition zero_mark : yaml_mark_t := mk_mark 0 0 0.
Definition no_event : yaml_event_t := mk_event YAML_NO_EVENT zero_mark zero_mark.

Definition yaml_parser_parse (fuel : nat) : PM yaml_event_t := fun p =>
  if p_stream_end_produced p || negb (bool_decide (p_error p = YAML_NO_ERROR))
     || bool_decide (p_state p = YAML_PARSE_END_STATE)
  then Done (POk no_event, p)
  else yaml_parser_state_machine fuel p.

(** The parser after [yaml_parser_initialize] over an initial scanner. *)
Definition yaml_parser_initial (s : SC) : yaml_parser_t :=
  mk_parser YAML_NO_ERROR None None None None false false s
    (mk_stack [] INITIAL_STACK_SIZE) YAML_PARSE_STREAM_START_STATE
    (mk_stack [] INITIAL_STACK_SIZE) (mk_stack [] INITIAL_STACK_SIZE) 0.
End parser.

Arguments POk {A} a.
Arguments PFail {A}.
Arguments PFuel {A}.
#[export] Existing Instance pm_ret.
#[export] Existing Instance pm_bind.

(** ** The scanner interface's promises *)

(** A scanner that may fetch ([scan_idle]) has no undefined behaviour. When it succeeds
    it is ready: it has a head token, and it may go on fetching once the head is consumed,
    unless that was the end of the stream. What is left to deliver decreases with every
    token before the end. A fetch that fails reports an error or, if it does not ([scan_silent]), an
    allocation was refused. *)
Class ScannerLaws (SC : Type) `{Scanner SC} := {
  scan_left : SC -> nat;
  scan_idle : SC -> Prop;
  scan_ready : SC -> Prop;
  scan_silent : SC -> Prop;
  scan_fetch_spec : forall s, scan_idle s ->
    match scan_fetch s with
    | Done (None, s') => scan_ready s' /\ (scan_left s' <= scan_left s)%nat
    | Done (Some e, s') => e <> YAML_NO_ERROR \/ scan_silent s'
    | Undef => False
    end;
  scan_ready_head : forall s, scan_ready s -> is_Some (scan_head s);
  scan_advance_idle : forall s t, scan_ready s -> scan_head s = Some t ->
    token_data t <> tok_stream_end -> scan_idle (scan_advance s);
  scan_ready_left : forall s, scan_ready s -> (0 < scan_left s)%nat;
  scan_advance_left : forall s t, scan_ready s -> scan_head s = Some t ->
    token_data t <> tok_stream_end -> (scan_left (scan_advance s) < scan_left s)%nat;
}.

(** A scanner that delivers a fixed list of tokens and then reports an error. *)
Record list_scanner := mk_list_scanner {
  ls_tokens : list yaml_token_t;
  ls_indents : Z;
  ls_flow_level : Z;
}.

#[export] Instance list_scanner_ops : Scanner list_scanner := {
  scan_fetch s :=
    match ls_tokens s with [] => Done (Some YAML_SCANNER_ERROR, s) | _ => Done (None, s) end;
  scan_head s := head (ls_tokens s);
  scan_advance s := mk_list_scanner (tail (ls_tokens s)) (ls_indents s) (ls_flow_level s);
  scan_indents := ls_indents;
  scan_flow_level := ls_flow_level;
}.

#[export, refine] Instance list_scanner_laws : ScannerLaws list_scanner := {
  scan_left s := length (ls_tokens s);
  scan_idle _ := True;
  scan_ready s := ls_tokens s <> [];
  scan_silent _ := False;
}.
Proof.
  - intros [[|t l] i f] _; simpl; [by left|done].
  - intros [[|t l] i f]; simpl; [done|eauto].
  - done.
  - intros [[|t l] i f]; simpl; [done|lia].
  - intros [[|t l] i f]; simpl; [done|lia].
Defined.
