(* ===== verification/YamlLex.v ===== *)
(** * The scanner of libyaml: its state, and reading characters ([scanner.c], [yaml_private.h])

    The part of [yaml_parser_t] that the reader and the scanner use, the macros that
    test and consume characters of the buffer, and growable strings. A test reads
    octets of the buffer; octets behind its end are not there to be read. *)
From Stdlib Require Import ZArith Lia.
From Stdlib Require Import Ascii.
From stdpp Require Import base list option numbers strings.
From S2P Require Import Prelude YamlTypes YamlReader YamlParser.

(** The code of an ASCII character, as a numeral. *)
Notation "'chr' c" :=
  (ltac:(let v := eval vm_compute in (Z.of_nat (Ascii.nat_of_ascii c%char)) in exact v))
  (at level 10, c at level 9, only parsing).

(** ** The state *)

Record yaml_simple_key_t := mk_simple_key {
  sk_possible : bool;
  sk_required : bool;
  sk_token_number : Z;
  sk_mark : yaml_mark_t;
}.

(** The token queue: [head - start], the tokens from [head] to [tail], [end - start]. *)
Record queue := mk_queue {
  qu_head : Z;
  qu_items : list yaml_token_t;
  qu_cap : Z;
}.

Record scanner := mk_scanner {
  sc_reader : reader;
  sc_mark : yaml_mark_t;
  sc_allocs : nat;                      (* allocations requested so far *)
  sc_stream_start_produced : bool;
  sc_indent : Z;
  sc_indents : stack Z;
  sc_simple_keys : stack yaml_simple_key_t;
  sc_simple_key_allowed : bool;
  sc_flow_level : Z;
  sc_tokens : queue;
  sc_tokens_parsed : Z;
}.

Definition set_reader (r : reader) (s : scanner) : scanner :=
  mk_scanner r (sc_mark s) (sc_allocs s) (sc_stream_start_produced s) (sc_indent s)
    (sc_indents s) (sc_simple_keys s) (sc_simple_key_allowed s) (sc_flow_level s)
    (sc_tokens s) (sc_tokens_parsed s).
Definition set_mark (m : yaml_mark_t) (s : scanner) : scanner :=
  mk_scanner (sc_reader s) m (sc_allocs s) (sc_stream_start_produced s) (sc_indent s)
    (sc_indents s) (sc_simple_keys s) (sc_simple_key_allowed s) (sc_flow_level s)
    (sc_tokens s) (sc_tokens_parsed s).
Definition bump_scanner_allocs (s : scanner) : scanner :=
  mk_scanner (sc_reader s) (sc_mark s) (S (sc_allocs s)) (sc_stream_start_produced s)
    (sc_indent s) (sc_indents s) (sc_simple_keys s) (sc_simple_key_allowed s)
    (sc_flow_level s) (sc_tokens s) (sc_tokens_parsed s).
Definition set_stream_start_produced (s : scanner) : scanner :=
  mk_scanner (sc_reader s) (sc_mark s) (sc_allocs s) true (sc_indent s)
    (sc_indents s) (sc_simple_keys s) (sc_simple_key_allowed s) (sc_flow_level s)
    (sc_tokens s) (sc_tokens_parsed s).
Definition set_indent (i : Z) (s : scanner) : scanner :=
  mk_scanner (sc_reader s) (sc_mark s) (sc_allocs s) (sc_stream_start_produced s) i
    (sc_indents s) (sc_simple_keys s) (sc_simple_key_allowed s) (sc_flow_level s)
    (sc_tokens s) (sc_tokens_parsed s).
Definition set_indents (st : stack Z) (s : scanner) : scanner :=
  mk_scanner (sc_reader s) (sc_mark s) (sc_allocs s) (sc_stream_start_produced s)
    (sc_indent s) st (sc_simple_keys s) (sc_simple_key_allowed s) (sc_flow_level s)
    (sc_tokens s) (sc_tokens_parsed s).
Definition set_simple_keys (st : stack yaml_simple_key_t) (s : scanner) : scanner :=
  mk_scanner (sc_reader s) (sc_mark s) (sc_allocs s) (sc_stream_start_produced s)
    (sc_indent s) (sc_indents s) st (sc_simple_key_allowed s) (sc_flow_level s)
    (sc_tokens s) (sc_tokens_parsed s).
Definition set_simple_key_allowed (b : bool) (s : scanner) : scanner :=
  mk_scanner (sc_reader s) (sc_mark s) (sc_allocs s) (sc_stream_start_produced s)
    (sc_indent s) (sc_indents s) (sc_simple_keys s) b (sc_flow_level s)
    (sc_tokens s) (sc_tokens_parsed s).
Definition set_flow_level (n : Z) (s : scanner) : scanner :=
  mk_scanner (sc_reader s) (sc_mark s) (sc_allocs s) (sc_stream_start_produced s)
    (sc_indent s) (sc_indents s) (sc_simple_keys s) (sc_simple_key_allowed s) n
    (sc_tokens s) (sc_tokens_parsed s).
Definition set_tokens (q : queue) (parsed : Z) (s : scanner) : scanner :=
  mk_scanner (sc_reader s) (sc_mark s) (sc_allocs s) (sc_stream_start_produced s)
    (sc_indent s) (sc_indents s) (sc_simple_keys s) (sc_simple_key_allowed s)
    (sc_flow_level s) q parsed.

Definition INITIAL_QUEUE_SIZE : Z := 16.
Definition INITIAL_STRING_SIZE : Z := 16.

(** After [yaml_parser_initialize] and [yaml_parser_set_input_string]; the blocks of
    the buffers and stacks were granted before. *)
Definition scanner_initial (input : list Z) : scanner :=
  mk_scanner (reader_initial input) (mk_mark 0 0 0) 0 false 0
    (mk_stack [] INITIAL_STACK_SIZE) (mk_stack [] INITIAL_STACK_SIZE) false 0
    (mk_queue 0 [] INITIAL_QUEUE_SIZE) 0.

Abbreviation SM := (M scanner).

(** What is left to read: an upper bound on the characters the scanner can consume. *)
Definition reader_left (r : reader) : nat :=
  (length (rd_buffer r) + 2 * (length (rd_raw r) + length (rd_input r))
   + if rd_eof r then 0 else 1)%nat.

Definition chars_left (s : scanner) : nat := reader_left (sc_reader s).

(** A loop of which each round but the last consumes a character. *)
Definition loop {A B} (f : A -> SM (A + B)) (a : A) : SM B :=
  s ← get; iter (S (chars_left s)) f a.

(** Signed 32-bit arithmetic; overflow is undefined. *)
Definition int_add (a b : Z) : SM Z :=
  if (- 2 ^ 31 <=? a + b) && (a + b <=? INT_MAX) then mret (a + b) else undef.

(** The conversion of a [size_t] to [int]. *)
Definition to_int (z : Z) : Z :=
  let w := u32 z in if w <=? INT_MAX then w else w - 2 ^ 32.

(** [yaml_parser_set_scanner_error] and [return 0] (or [goto error]). *)
Definition yaml_parser_set_scanner_error {A} (context : option string)
    (context_mark : yaml_mark_t) (problem : string) : SM A :=
  s ← get; fail (scanner_error context context_mark problem (sc_mark s)).

(** ** Tests of characters

    A test looks at the octets from [buffer.pointer] on; [None] is a read behind them.
    The connectives evaluate their second argument as C does. *)

Definition test : Type := list Z -> option bool.

Definition t_true (b : bool) : test := fun _ => Some b.
Definition t_or (t u : test) : test := fun l =>
  match t l with Some true => Some true | Some false => u l | None => None end.
Definition t_and (t u : test) : test := fun l =>
  match t l with Some true => u l | Some false => Some false | None => None end.
Definition t_not (t : test) : test := fun l => negb <$> t l.

Declare Scope test_scope.
Delimit Scope test_scope with test.
Bind Scope test_scope with test.
Infix "|?" := t_or (at level 55, right associativity) : test_scope.
Infix "&?" := t_and (at level 45, right associativity) : test_scope.

Definition CHECK_AT (octet : Z) (offset : nat) : test := fun l =>
  (fun c => c =? octet) <$> l !! offset.
Definition CHECK (octet : Z) : test := CHECK_AT octet 0.

(** One of several octets. *)
Fixpoint CHECK_any (octets : list Z) (offset : nat) : test :=
  match octets with
  | [] => t_true false
  | c :: octets => (CHECK_AT c offset |? CHECK_any octets offset)%test
  end.

Definition in_range_at (lo hi : Z) (offset : nat) : test := fun l =>
  (fun c => (lo <=? c) && (c <=? hi)) <$> l !! offset.

Definition IS_DIGIT_AT (offset : nat) : test := in_range_at (chr "0") (chr "9") offset.
Definition IS_ALPHA_AT (offset : nat) : test :=
  (in_range_at (chr "0") (chr "9") offset |? in_range_at (chr "A") (chr "Z") offset
   |? in_range_at (chr "a") (chr "z") offset |? CHECK_AT (chr "_") offset
   |? CHECK_AT (chr "-") offset)%test.
Definition IS_HEX_AT (offset : nat) : test :=
  (in_range_at (chr "0") (chr "9") offset |? in_range_at (chr "A") (chr "F") offset
   |? in_range_at (chr "a") (chr "f") offset)%test.
Definition IS_Z_AT (offset : nat) : test := CHECK_AT 0 offset.
Definition IS_BOM : test := (CHECK_AT 239 0 &? CHECK_AT 187 1 &? CHECK_AT 191 2)%test.
Definition IS_SPACE_AT (offset : nat) : test := CHECK_AT (chr " ") offset.
Definition IS_TAB_AT (offset : nat) : test := CHECK_AT 9 offset.
Definition IS_BLANK_AT (offset : nat) : test :=
  (IS_SPACE_AT offset |? IS_TAB_AT offset)%test.
Definition IS_BREAK_AT (offset : nat) : test :=
  (CHECK_AT 13 offset |? CHECK_AT 10 offset
   |? (CHECK_AT 194 offset &? CHECK_AT 133 (offset + 1))
   |? (CHECK_AT 226 offset &? CHECK_AT 128 (offset + 1) &? CHECK_AT 168 (offset + 2))
   |? (CHECK_AT 226 offset &? CHECK_AT 128 (offset + 1) &? CHECK_AT 169 (offset + 2)))%test.
Definition IS_CRLF : test := (CHECK_AT 13 0 &? CHECK_AT 10 1)%test.
Definition IS_BREAKZ_AT (offset : nat) : test := (IS_BREAK_AT offset |? IS_Z_AT offset)%test.
Definition IS_BLANKZ_AT (offset : nat) : test := (IS_BLANK_AT offset |? IS_BREAKZ_AT offset)%test.

Definition IS_DIGIT := IS_DIGIT_AT 0.
Definition IS_ALPHA := IS_ALPHA_AT 0.
Definition IS_Z := IS_Z_AT 0.
Definition IS_SPACE := IS_SPACE_AT 0.
Definition IS_TAB := IS_TAB_AT 0.
Definition IS_BLANK := IS_BLANK_AT 0.
Definition IS_BREAK := IS_BREAK_AT 0.
Definition IS_BREAKZ := IS_BREAKZ_AT 0.
Definition IS_BLANKZ := IS_BLANKZ_AT 0.

(** [AS_HEX_AT] of the octet [c], [AS_DIGIT] likewise. *)
Definition AS_HEX (c : Z) : Z :=
  if (chr "A" <=? c) && (c <=? chr "F") then c - chr "A" + 10
  else if (chr "a" <=? c) && (c <=? chr "f") then c - chr "a" + 10
  else c - chr "0".
Definition AS_DIGIT (c : Z) : Z := c - chr "0".

Definition check (t : test) : SM bool := s ← get; known (t (rd_buffer (sc_reader s))).
Definition octet_at (offset : nat) : SM Z := s ← get; known (rd_buffer (sc_reader s) !! offset).

(** ** Consuming characters *)

Definition CACHE (length : Z) : SM unit := fun s =>
  if length <=? rd_unread (sc_reader s) then Done (Ok tt, s)
  else
    match yaml_parser_update_buffer length (sc_reader s) with
    | Done (res, r) => Done (res, set_reader r s)
    | Undef => Undef
    end.

(** [buffer.pointer += n] over octets that are there, with [chars] characters less. *)
Definition pointer_advance (n chars : Z) : SM unit :=
  s ← get;
  let r := sc_reader s in
  if n <=? zlen (rd_buffer r)
  then update (set_reader
         (set_buffer (rd_pos r + n) (zdrop n (rd_buffer r)) (u64 (rd_unread r - chars)) r))
  else undef.

Definition mark_forward (m : yaml_mark_t) : yaml_mark_t :=
  mk_mark (u64 (mark_index m + 1)) (mark_line m) (u64 (mark_column m + 1)).
Definition mark_newline (chars : Z) (m : yaml_mark_t) : yaml_mark_t :=
  mk_mark (u64 (mark_index m + chars)) (u64 (mark_line m + 1)) 0.
Definition move_mark (f : yaml_mark_t -> yaml_mark_t) : SM unit :=
  update (fun s => set_mark (f (sc_mark s)) s).

Definition SKIP : SM unit :=
  _ ← move_mark mark_forward;
  c ← octet_at 0;
  pointer_advance (utf8_width c) 1.

Definition SKIP_LINE : SM unit :=
  crlf ← check IS_CRLF;
  if crlf : bool then _ ← move_mark (mark_newline 2); pointer_advance 2 2
  else
    brk ← check IS_BREAK;
    if brk : bool then
      _ ← move_mark (mark_newline 1);
      c ← octet_at 0;
      pointer_advance (utf8_width c) 1
    else mret tt.

(** ** Growable strings *)

(** [start] to [pointer], and [pointer] to [end]. *)
Record yaml_string_t := mk_string { str_chars : list Z; str_rest : list Z }.

(** The memory of the string, from [start] on. *)
Definition str_mem (s : yaml_string_t) : list Z := str_chars s ++ str_rest s.

Definition zeros (n : nat) : list Z := replicate n 0.

(** The C string at the start of memory: up to the NUL octet. *)
Fixpoint c_str (mem : list Z) : option ystr :=
  match mem with
  | [] => None
  | c :: mem => if c =? 0 then Some [] else cons c <$> c_str mem
  end.

(** [*(string.pointer++) = c] *)
Definition str_put (c : Z) (s : yaml_string_t) : SM yaml_string_t :=
  match str_rest s with
  | [] => undef
  | _ :: rest => mret (mk_string (str_chars s ++ [c]) rest)
  end.

Fixpoint str_puts (cs : list Z) (s : yaml_string_t) : SM yaml_string_t :=
  match cs with
  | [] => mret s
  | c :: cs => s ← str_put c s; str_puts cs s
  end.

Definition CLEAR (s : yaml_string_t) : yaml_string_t := mk_string [] (zeros (length (str_mem s))).

Section alloc.
(** Whether the [n]-th allocation of the scanner is granted. *)
Context (alloc : nat -> bool).

Definition yaml_malloc_scanner : SM bool :=
  s ← get; _ ← update bump_scanner_allocs; mret (alloc (sc_allocs s)).

(** A refused allocation with [parser->error] set. *)
Definition granted (b : bool) : SM unit := if b then mret tt else fail memory_error_set.

Definition STRING_INIT : SM yaml_string_t :=
  b ← yaml_malloc_scanner;
  _ ← granted b;
  mret (mk_string [] (zeros (Z.to_nat INITIAL_STRING_SIZE))).

(** The new half is zeroed. *)
Definition yaml_string_extend (s : yaml_string_t) : SM yaml_string_t :=
  b ← yaml_malloc_scanner;
  _ ← granted b;
  mret (mk_string (str_chars s) (str_rest s ++ zeros (length (str_mem s)))).

Definition STRING_EXTEND (s : yaml_string_t) : SM yaml_string_t :=
  if 5 <? zlen (str_rest s) then mret s else yaml_string_extend s.

(** Extending until more than [n] octets are free behind the pointer; every round
    adds at least one. *)
Definition extend_beyond (n : Z) (s : yaml_string_t) : SM yaml_string_t :=
  iter (S (Z.to_nat n + 1)) (fun s =>
    if zlen (str_rest s) <=? n then s ← yaml_string_extend s; mret (inl s)
    else mret (inr s)) s.

Definition yaml_string_join (a b : yaml_string_t) : SM yaml_string_t :=
  match str_chars b with
  | [] => mret a
  | _ => a ← extend_beyond (zlen (str_chars b)) a; str_puts (str_chars b) a
  end.

(** The second string is set back to its start; its memory stays as it is. *)
Definition JOIN (a b : yaml_string_t) : SM (yaml_string_t * yaml_string_t) :=
  a ← yaml_string_join a b; mret (a, mk_string [] (str_mem b)).

(** [COPY]: the octets of the current character. *)
Definition COPY (s : yaml_string_t) : SM yaml_string_t :=
  c ← octet_at 0;
  st ← get;
  let octets := ztake (utf8_width c) (rd_buffer (sc_reader st)) in
  s ← str_puts octets s;
  _ ← pointer_advance (utf8_width c) 1;
  mret s.

Definition READ (s : yaml_string_t) : SM yaml_string_t :=
  s ← STRING_EXTEND s;
  s ← COPY s;
  _ ← move_mark mark_forward;
  mret s.

Definition READ_LINE (s : yaml_string_t) : SM yaml_string_t :=
  s ← STRING_EXTEND s;
  crlf ← check (CHECK_AT 13 0 &? CHECK_AT 10 1);
  if crlf : bool then
    s ← str_put 10 s; _ ← pointer_advance 2 2; _ ← move_mark (mark_newline 2); mret s
  else
  single ← check (CHECK_AT 13 0 |? CHECK_AT 10 0);
  if single : bool then
    s ← str_put 10 s; _ ← pointer_advance 1 1; _ ← move_mark (mark_newline 1); mret s
  else
  nel ← check (CHECK_AT 194 0 &? CHECK_AT 133 1);
  if nel : bool then
    s ← str_put 10 s; _ ← pointer_advance 2 1; _ ← move_mark (mark_newline 1); mret s
  else
  sep ← check (CHECK_AT 226 0 &? CHECK_AT 128 1 &? (CHECK_AT 168 2 |? CHECK_AT 169 2));
  if sep : bool then
    st ← get;
    s ← str_puts (ztake 3 (rd_buffer (sc_reader st))) s;
    _ ← pointer_advance 3 1; _ ← move_mark (mark_newline 1); mret s
  else mret s.

(** ** Common loops *)

(** [while (t) { SKIP; CACHE(1) }] *)
Definition skip_while (t : test) : SM unit :=
  loop (fun _ : unit =>
    b ← check t;
    if b : bool then _ ← SKIP; _ ← CACHE 1; mret (inl tt) else mret (inr tt)) tt.

(** [while (t) { READ(string); CACHE(1) }] *)
Definition read_while (t : test) (s : yaml_string_t) : SM yaml_string_t :=
  loop (fun s =>
    b ← check t;
    if b : bool then s ← READ s; _ ← CACHE 1; mret (inl s) else mret (inr s)) s.

(** A comment, if there is one, up to its line break. *)
Definition skip_comment : SM unit :=
  b ← check (CHECK (chr "#"));
  if b : bool then skip_while (t_not IS_BREAKZ) else mret tt.

(** The line break the scanner stands at. *)
Definition skip_line_break : SM unit :=
  b ← check IS_BREAK;
  if b : bool then _ ← CACHE 2; SKIP_LINE else mret tt.
End alloc.
