(* ===== verification/YamlReaderProofs.v ===== *)
(** * Correctness of the reader

    A weakest-precondition calculus for [M], what it means for the buffer to hold
    characters, and that [yaml_parser_update_buffer] keeps it, stays inside its arrays
    and delivers enough characters or the end of the input. *)
From Stdlib Require Import ZArith Lia.
From stdpp Require Import base list option numbers strings.
From S2P Require Import Prelude YamlTypes YamlReader YamlParser YamlLex.

(** ** Weakest preconditions

    [mwp E m Q s]: no undefined behaviour; success establishes [Q], a failure is in [E]. *)

Definition mwp {S A} (E : failure -> Prop) (m : M S A) (Q : A -> S -> Prop) (s : S) : Prop :=
  match m s with
  | Done (Ok a, s') => Q a s'
  | Done (Fail e, _) => E e
  | Undef => False
  end.

Section rules.
Context {S : Type} (E : failure -> Prop).

Lemma mwp_ret {A} (a : A) (Q : A -> S -> Prop) s : Q a s -> mwp E (mret a) Q s.
Proof. done. Qed.

Lemma mwp_bind {A B} (m : M S A) (k : A -> M S B) (Q : B -> S -> Prop) s :
  mwp E m (fun a => mwp E (k a) Q) s -> mwp E (m ≫= k) Q s.
Proof. unfold mwp, mbind, m_bind. by destruct (m s) as [[[a|e] s']|]. Qed.

Lemma mwp_mono {A} (m : M S A) (Q R : A -> S -> Prop) s :
  mwp E m Q s -> (forall a s', Q a s' -> R a s') -> mwp E m R s.
Proof. unfold mwp. intros Hm HQ. destruct (m s) as [[[a|e] s']|]; eauto. Qed.

Lemma mwp_get (Q : S -> S -> Prop) s : Q s s -> mwp E get Q s.
Proof. done. Qed.

Lemma mwp_update f (Q : unit -> S -> Prop) s : Q tt (f s) -> mwp E (update f) Q s.
Proof. done. Qed.

Lemma mwp_fail {A} e (Q : A -> S -> Prop) s : E e -> mwp E (fail e) Q s.
Proof. done. Qed.

Lemma mwp_known {A} (o : option A) (Q : A -> S -> Prop) s a :
  o = Some a -> Q a s -> mwp E (known o) Q s.
Proof. by intros ->. Qed.

(** A loop with an invariant of its variables and state and a measure that every round
    but the last decreases. *)
Lemma mwp_iter {A B} (f : A -> M S (A + B)) (I : A -> S -> Prop) (mu : A -> S -> nat)
    (Q : B -> S -> Prop) fuel a s :
  I a s -> (mu a s < fuel)%nat ->
  (forall a s, I a s -> mwp E (f a) (fun r s' =>
     match r with inl a' => I a' s' /\ (mu a' s' < mu a s)%nat | inr b => Q b s' end) s) ->
  mwp E (iter fuel f a) Q s.
Proof.
  intros HI Hfuel Hf. revert a s HI Hfuel.
  induction fuel as [|fuel IH]; intros a s HI Hfuel; [lia|]. cbn [iter].
  apply mwp_bind. eapply mwp_mono; [by apply Hf|].
  intros [a'|b] s'; simpl; [|done]. intros [HI' Hm]. apply IH; [done|lia].
Qed.
End rules.

Lemma mwp_weaken {S A} (E E' : failure -> Prop) (m : M S A) Q s :
  mwp E m Q s -> (forall e, E e -> E' e) -> mwp E' m Q s.
Proof. unfold mwp. intros Hm HE. destruct (m s) as [[[a|e] s']|]; eauto. Qed.

(** ** Characters *)

(** The octets of a character: as many as the first of them says. *)
Definition utf8_char (c : list Z) : Prop :=
  exists b r, c = b :: r /\ utf8_width b = zlen c.

Definition plain_char (c : list Z) : Prop := utf8_char c /\ c <> [0].

(** The characters in the buffer: those of the text and, at its end, NUL. *)
Definition view (eof : bool) (ds : list (list Z)) : list (list Z) :=
  if eof then ds ++ [[0]] else ds.

Lemma utf8_width_cases b :
  utf8_width b = 0 \/ utf8_width b = 1 \/ utf8_width b = 2 \/ utf8_width b = 3
  \/ utf8_width b = 4.
Proof. unfold utf8_width. repeat case_match; tauto. Qed.

Lemma utf8_char_length c : utf8_char c -> 1 <= zlen c <= 4.
Proof.
  intros (b & r & -> & Hw). rewrite zlen_cons in *. pose proof (zlen_nonneg r).
  destruct (utf8_width_cases b) as [H1|[H1|[H1|[H1|H1]]]]; lia.
Qed.

Lemma chars_length cs :
  Forall plain_char cs -> zlen cs <= zlen (concat cs) <= 4 * zlen cs.
Proof.
  induction 1 as [|c cs [Hc _] _ IH]; [done|]. cbn [concat]. rewrite zlen_app, zlen_cons.
  apply utf8_char_length in Hc. lia.
Qed.

Lemma view_length eof ds : zlen (view eof ds) = zlen ds + if eof then 1 else 0.
Proof. unfold view. destruct eof; [rewrite zlen_app|]; autorewrite with zlen; lia. Qed.

Lemma view_concat eof ds : concat (view eof ds) = concat ds ++ if eof then [0] else [].
Proof.
  unfold view. destruct eof; [|by rewrite app_nil_r]. by rewrite concat_app.
Qed.

(** ** Decoding and encoding *)

Lemma land_ones_bound z n : 0 <= n -> 0 <= Z.land z (Z.ones n) < 2 ^ n.
Proof. intros. rewrite Z.land_ones by done. apply Z.mod_pos_bound, Z.pow_pos_nonneg; lia. Qed.

Lemma char_allowed_range value : char_allowed value = true -> 9 <= value <= 1114111.
Proof.
  unfold char_allowed. intros H. repeat (apply orb_prop in H as [H|H]); bool_facts; lia.
Qed.

(** What [utf8_encode] writes is a character, and not NUL. *)
Lemma utf8_encode_leading value :
  0 < value <= 1114111 ->
  utf8_width (match utf8_encode value with b :: _ => b | [] => 0 end) = zlen (utf8_encode value)
  /\ utf8_encode value <> [0].
Proof.
  intros Hv. unfold utf8_encode, wrap.
  assert (forall lo n b, In b (map Z.of_nat (seq lo n)) ->
    forallb (fun b => utf8_width (b mod 256) =? (if b <? 128 then 1 else if b <? 224 then 2
      else if b <? 240 then 3 else 4)) (map Z.of_nat (seq lo n)) = true ->
    utf8_width (b mod 256) = if b <? 128 then 1 else if b <? 224 then 2
      else if b <? 240 then 3 else 4) as Hall.
  { intros lo n b Hin Hall. rewrite forallb_forall in Hall. apply Z.eqb_eq. by apply Hall. }
  assert (forall b, 0 <= b < 128 \/ 194 <= b < 245 ->
    utf8_width (b mod 256) = if b <? 128 then 1 else if b <? 224 then 2
      else if b <? 240 then 3 else 4) as Hw.
  { intros b [Hb|Hb].
    - apply (Hall 0%nat 128%nat); [|by vm_compute]. apply in_map_iff.
      exists (Z.to_nat b). rewrite in_seq. lia.
    - apply (Hall 194%nat 51%nat); [|by vm_compute]. apply in_map_iff.
      exists (Z.to_nat b). rewrite in_seq. lia. }
  rewrite !Z.shiftr_div_pow2 by done.
  destruct (Z.leb_spec value 127) as [H1|H1]; [|destruct (Z.leb_spec value 2047) as [H2|H2];
    [|destruct (Z.leb_spec value 65535) as [H3|H3]]].
  - rewrite Hw by lia. split; [by zcase|]. intros [= Hz].
    change (value mod 2 ^ 8 = 0) in Hz. rewrite Z.mod_small in Hz; lia.
  - change (2 ^ 6) with 64. assert (2 <= value / 64 < 32) by (split;
      [apply Z.div_le_lower_bound|apply Z.div_lt_upper_bound]; lia).
    change (2 ^ 8) with 256. rewrite Hw by lia. split; [|done]. by repeat zcase.
  - change (2 ^ 12) with 4096. assert (0 <= value / 4096 < 16) by (split;
      [apply Z.div_le_lower_bound|apply Z.div_lt_upper_bound]; lia).
    change (2 ^ 8) with 256. rewrite Hw by lia. split; [|done]. by repeat zcase.
  - change (2 ^ 18) with 262144. assert (0 <= value / 262144 < 5) by (split;
      [apply Z.div_le_lower_bound|apply Z.div_lt_upper_bound]; lia).
    change (2 ^ 8) with 256. rewrite Hw by lia. split; [|done]. by repeat zcase.
Qed.

Lemma utf8_encode_char value :
  0 < value <= 1114111 -> plain_char (utf8_encode value).
Proof.
  intros Hv. destruct (utf8_encode_leading value Hv) as [Hw Hn]. split; [|done].
  destruct (utf8_encode value) as [|b r] eqn:He.
  - unfold utf8_encode in He. by repeat case_match.
  - by exists b, r.
Qed.

(** The decoded character is behind at least one octet, and fits where its octets were
    counted twice. *)
Lemma decode_char_width r value width :
  decode_char r = DChar value width ->
  1 <= width <= zlen (rd_raw r) /\ (value <= 1114111 -> zlen (utf8_encode value) <= 2 * width).
Proof.
  assert (zlen (utf8_encode value) <= 4) as H4.
  { unfold utf8_encode. repeat case_match; autorewrite with zlen; lia. }
  assert (forall lo hi raw, (zlen raw <? 2) = false ->
    decode_utf16 lo hi (rd_eof r) (rd_offset r) raw = DChar value width ->
    2 <= width <= zlen raw) as H16.
  { intros lo hi raw Hr. unfold decode_utf16. rewrite Hr. apply Z.ltb_ge in Hr.
    repeat (case_match; try discriminate); intros; simplify_eq; bool_facts; lia. }
  unfold decode_char. destruct (rd_encoding r); [done| |..].
  - unfold decode_utf8. destruct (rd_raw r) as [|octet raw]; [done|].
    destruct (Z.eqb_spec (utf8_width octet) 0) as [|Hw0]; [done|].
    destruct (Z.ltb_spec (zlen (octet :: raw)) (utf8_width octet)) as [|Hle]; [by case_match|].
    destruct (utf8_trailing _ _ _ _) as [|v] eqn:Ht; [done|].
    destruct (negb _); [done|]. destruct (_ || _); [done|].
    intros [= -> <-]. split; [pose proof (utf8_width_cases octet); lia|]. intros Hv.
    destruct (utf8_width_cases octet) as [H1|[H1|H1]]; [done| |lia].
    pose proof H1 as Hw1. rewrite H1 in Ht. assert (ztake 1 (octet :: raw) = [octet]) as Hz by done.
    rewrite Hz in Ht. injection Ht as <-.
    unfold utf8_width in H1. unfold utf8_leading_value, utf8_encode.
    destruct (Z.eqb_spec (Z.land octet 128) 0); [|by repeat case_match].
    pose proof (land_ones_bound octet 7 ltac:(lia)) as Hb.
    change (Z.ones 7) with 127 in Hb. zcase. rewrite Hw1. done.
  - destruct (zlen (rd_raw r) <? 2) eqn:Hr; [unfold decode_utf16; rewrite Hr; by case_match|].
    intros H. apply H16 in H; [|done]. lia.
  - destruct (zlen (rd_raw r) <? 2) eqn:Hr; [unfold decode_utf16; rewrite Hr; by case_match|].
    intros H. apply H16 in H; [|done]. lia.
Qed.

Lemma lookup_below {A} (l : list A) (k : nat) : Z.of_nat k < zlen l -> is_Some (l !! k).
Proof. intros H. apply lookup_lt_is_Some_2. unfold zlen in H. lia. Qed.

Lemma decode_char_defined r :
  rd_encoding r <> YAML_ANY_ENCODING -> rd_raw r <> [] -> decode_char r <> DUndef.
Proof.
  intros Henc Hraw.
  assert (forall lo hi, (lo < 2)%nat -> (hi < 2)%nat ->
    decode_utf16 lo hi (rd_eof r) (rd_offset r) (rd_raw r) <> DUndef) as H16.
  { intros lo hi Hlo Hhi. unfold decode_utf16.
    destruct (Z.ltb_spec (zlen (rd_raw r)) 2); [by case_match|].
    destruct (lookup_below (rd_raw r) lo ltac:(lia)) as [l ->].
    destruct (lookup_below (rd_raw r) hi ltac:(lia)) as [h ->].
    case_match; [done|]. case_match; [|done].
    destruct (Z.ltb_spec (zlen (rd_raw r)) 4); [by case_match|].
    destruct (lookup_below (rd_raw r) (lo + 2) ltac:(lia)) as [l2 ->].
    destruct (lookup_below (rd_raw r) (hi + 2) ltac:(lia)) as [h2 ->]. by case_match. }
  unfold decode_char. destruct (rd_encoding r); [done| |apply H16; lia..].
  unfold decode_utf8. destruct (rd_raw r); [done|]. by repeat case_match.
Qed.

(** ** The reader's invariant *)

(** Between calls: the buffer holds the characters [ds], then NUL if the input is over,
    and everything is inside its array. *)
Record reader_ok (r : reader) (ds : list (list Z)) : Prop := mk_reader_ok {
  ro_buffer : rd_buffer r = concat (view (rd_eof r) ds);
  ro_unread : rd_unread r = zlen (view (rd_eof r) ds);
  ro_plain : Forall plain_char ds;
  ro_raw : rd_eof r = true -> rd_raw r = [];
  ro_room : 0 <= rd_raw_pos r /\ rd_raw_pos r + zlen (rd_raw r) <= INPUT_RAW_BUFFER_SIZE;
  ro_pos : 0 <= rd_pos r /\ rd_pos r + zlen (rd_buffer r) <= INPUT_BUFFER_SIZE;
}.

(** While the buffer is filled: no NUL yet. *)
Record filling (r : reader) (ds : list (list Z)) : Prop := mk_filling {
  fi_buffer : rd_buffer r = concat ds;
  fi_unread : rd_unread r = zlen ds;
  fi_plain : Forall plain_char ds;
  fi_room : 0 <= rd_raw_pos r /\ rd_raw_pos r + zlen (rd_raw r) <= INPUT_RAW_BUFFER_SIZE;
  fi_pos : rd_pos r = 0;
  fi_encoding : rd_encoding r <> YAML_ANY_ENCODING;
}.

(** Code of the reader fails with a reader error only. *)
Definition reader_failure (e : failure) : Prop := failure_code e = YAML_READER_ERROR.
Abbreviation rwp := (mwp reader_failure).

(** More of the input is in the raw buffer; nothing else has changed. *)
Record refilled (r r' : reader) (l : list Z) : Prop := mk_refilled {
  rf_buffer : rd_buffer r' = rd_buffer r;
  rf_unread : rd_unread r' = rd_unread r;
  rf_pos : rd_pos r' = rd_pos r;
  rf_encoding : rd_encoding r' = rd_encoding r;
  rf_raw : rd_raw r' = rd_raw r ++ l;
  rf_input : rd_input r = l ++ rd_input r';
  rf_room : 0 <= rd_raw_pos r' /\ rd_raw_pos r' + zlen (rd_raw r') <= INPUT_RAW_BUFFER_SIZE;
  rf_eof : rd_eof r' = rd_eof r \/ l = [] /\ rd_eof r' = true;
  rf_more : l = [] -> rd_eof r' = true \/ zlen (rd_raw r) = INPUT_RAW_BUFFER_SIZE;
}.

(** What is left to read, without the NUL. *)
Definition text_left (r : reader) : nat :=
  (length (rd_buffer r) + 2 * (length (rd_raw r) + length (rd_input r)))%nat.

Lemma refilled_filling r r' l ds : refilled r r' l -> filling r ds -> filling r' ds.
Proof. intros [] []. split; congruence. Qed.

Lemma refilled_left r r' l : refilled r r' l -> text_left r' = text_left r.
Proof.
  intros []. unfold text_left. rewrite rf_buffer0, rf_raw0, rf_input0, !length_app. lia.
Qed.

Lemma read_handler_spec size r :
  0 < size ->
  rwp (yaml_string_read_handler size) (fun data r' => exists l rest,
    data = Some l /\ r' = set_input rest r /\ rd_input r = l ++ rest /\ zlen l <= size
    /\ (l = [] -> rd_input r = [])) r.
Proof.
  intros Hsize. unfold yaml_string_read_handler. apply mwp_bind, mwp_get.
  destruct (rd_input r) as [|c input] eqn:Hi.
  - apply mwp_ret. exists [], []. split_and!; try done; [|change (0 <= size); lia].
    destruct r; simpl in *; by subst.
  - apply mwp_bind, mwp_update, mwp_ret.
    set (n := if zlen (c :: input) <? size then zlen (c :: input) else size).
    assert (0 < n <= zlen (c :: input) /\ n <= size) as [Hn Hn'].
    { unfold n. rewrite zlen_cons. pose proof (zlen_nonneg input). zcase; lia. }
    exists (ztake n (c :: input)), (zdrop n (c :: input)).
    split_and!; [done|done|by rewrite ztake_zdrop| |].
    + rewrite zlen_ztake; lia.
    + intros Hz. assert (zlen (ztake n (c :: input)) = 0) as H0 by by rewrite Hz.
      rewrite zlen_ztake in H0; lia.
Qed.

Lemma update_raw_buffer_spec r :
  0 <= rd_raw_pos r -> rd_raw_pos r + zlen (rd_raw r) <= INPUT_RAW_BUFFER_SIZE ->
  rwp yaml_parser_update_raw_buffer (fun _ r' => exists l, refilled r r' l) r.
Proof.
  intros Hpos Hroom. unfold yaml_parser_update_raw_buffer. apply mwp_bind, mwp_get.
  destruct (_ && _) eqn:Hfull.
  { apply andb_prop in Hfull as [H1%Z.eqb_eq H2%Z.eqb_eq]. apply mwp_ret. exists [].
    split; rewrite ?app_nil_r; simpl; auto. }
  destruct (rd_eof r) eqn:Heof.
  { apply mwp_ret. exists []. split; rewrite ?app_nil_r; auto. }
  assert (zlen (rd_raw r) < INPUT_RAW_BUFFER_SIZE) as Hlt.
  { apply andb_false_iff in Hfull as [H1%Z.eqb_neq|H1%Z.eqb_neq]; lia. }
  apply mwp_bind, mwp_update, mwp_bind.
  eapply mwp_mono; [apply read_handler_spec; lia|].
  intros data r' (l & rest & -> & -> & Hi & Hl & Hnil). simpl in Hi, Hl, Hnil.
  destruct l as [|c l]; apply mwp_update.
  - exists []. rewrite Hnil in Hi by done. simpl in Hi. subst rest.
    split; simpl; rewrite ?app_nil_r, ?Hnil by done; auto; lia.
  - exists (c :: l). split; simpl; auto; try done. rewrite zlen_app, zlen_cons in *. lia.
Qed.

(** ** The decoding loop *)

(** What the raw buffer may still add to the buffer, which has room for it. *)
Definition decode_budget (r : reader) : Z := zlen (rd_buffer r) + 2 * zlen (rd_raw r).

(** [r'] comes from [r] by decoding: the characters [more] were added. *)
Record decoding (r : reader) (ds : list (list Z)) (r' : reader) (more : list (list Z))
    : Prop := mk_decoding {
  de_filling : filling r' (ds ++ more);
  de_input : rd_input r' = rd_input r;
  de_eof : rd_eof r' = rd_eof r;
  de_encoding : rd_encoding r' = rd_encoding r;
  de_budget : decode_budget r' <= decode_budget r;
  de_raw : exists used, rd_raw r = used ++ rd_raw r';
}.

Lemma decoding_refl r ds : filling r ds -> decoding r ds r [].
Proof. intros H. split; rewrite ?app_nil_r; auto; [lia|by exists []]. Qed.

Lemma decoding_left r ds r' more :
  decoding r ds r' more -> (text_left r' <= text_left r)%nat.
Proof.
  intros []. unfold text_left, decode_budget, zlen in *. rewrite de_input0. lia.
Qed.

Lemma decode_step_spec r ds r0 more :
  decoding r0 ds r more -> decode_budget r0 < INPUT_BUFFER_SIZE ->
  rwp (decode_step tt) (fun res r' =>
    match res with
    | inl _ => (exists c, decoding r0 ds r' (more ++ [c]))
               /\ (length (rd_raw r') < length (rd_raw r))%nat
    | inr _ => r' = r /\ (rd_raw r = [] \/ rd_eof r = false /\ zlen (rd_raw r) < 4)
    end) r.
Proof.
  intros Hd Hb. unfold decode_step. apply mwp_bind, mwp_get.
  destruct (rd_raw r) as [|octet raw] eqn:Hraw; [apply mwp_ret; auto|].
  destruct (decode_char r) as [value width| |e|] eqn:Hc.
  - destruct (char_allowed value) eqn:Hal; simpl; [|by apply mwp_fail].
    apply char_allowed_range in Hal.
    destruct (decode_char_width r value width Hc) as [Hw He]. specialize (He ltac:(lia)).
    destruct Hd as [[] Hi Heof Henc Hbud [used Hused]].
    apply mwp_bind, mwp_update, mwp_bind. unfold buffer_append. apply mwp_bind, mwp_get.
    simpl. rewrite Hraw in *. unfold decode_budget in *. rewrite Hraw in Hbud.
    pose proof (zlen_nonneg (octet :: raw)). pose proof (zlen_nonneg (rd_buffer r)).
    rewrite (proj2 (Z.leb_le _ _)) by lia.
    apply mwp_update, mwp_ret. split; [exists (utf8_encode value)|].
    + split; simpl; auto.
      * split; simpl.
        -- by rewrite fi_buffer0, app_assoc, (concat_app (ds ++ more)); simpl;
             rewrite app_nil_r.
        -- rewrite fi_unread0, app_assoc, (zlen_app (ds ++ more) [_]). apply wrap_small.
           unfold fits. pose proof (chars_length _ fi_plain0) as Hl. rewrite <-fi_buffer0 in Hl.
           pose proof (zlen_nonneg (ds ++ more)).
           change (zlen [utf8_encode value]) with 1.
           unfold INPUT_BUFFER_SIZE, INPUT_RAW_BUFFER_SIZE in *. lia.
        -- rewrite app_assoc. apply Forall_app. split; [done|]. constructor; [|done].
           apply utf8_encode_char. lia.
        -- rewrite Hraw. rewrite zlen_zdrop by lia. lia.
        -- done.
        -- done.
      * unfold decode_budget. simpl. rewrite Hraw, zlen_app, zlen_zdrop by lia. lia.
      * exists (used ++ ztake width (octet :: raw)).
        simpl. by rewrite Hraw, Hused, <-app_assoc, ztake_zdrop.
    + simpl. rewrite Hraw. unfold zdrop. rewrite length_drop. simpl in *.
      unfold zlen in Hw. simpl in Hw. lia.
  - apply mwp_ret. split; [done|]. right. revert Hc. unfold decode_char, decode_utf8, decode_utf16.
    rewrite Hraw. destruct (rd_encoding r); [done| |..]; repeat case_match; intros; try done;
      bool_facts; split; try done; try lia.
    pose proof (utf8_width_cases octet). lia.
  - apply mwp_fail. revert Hc. unfold decode_char, decode_utf8, decode_utf16.
    assert (forall o k l v e, utf8_trailing o k l v = inl e -> reader_failure e) as Ht.
    { intros o k l. revert k. induction l as [|b l IH]; intros k v e'; simpl; [done|].
      case_match; [by intros [= <-]|eauto]. }
    destruct (rd_encoding r); [done| |..]; repeat case_match; intros; simplify_eq; try done;
      by eapply Ht.
  - exfalso. destruct Hd as [[] _ _ _ _ _]. apply (decode_char_defined r); [done|by rewrite Hraw|done].
Qed.

Lemma decode_raw_buffer_spec r ds :
  filling r ds -> decode_budget r < INPUT_BUFFER_SIZE ->
  rwp decode_raw_buffer (fun _ r' => exists more, decoding r ds r' more
    /\ (rd_raw r' = [] \/ rd_eof r' = false /\ zlen (rd_raw r') < 4)) r.
Proof.
  intros Hf Hb. unfold decode_raw_buffer. apply mwp_bind, mwp_get.
  apply mwp_iter with (I := fun _ r' => exists more, decoding r ds r' more)
    (mu := fun _ r' => length (rd_raw r')); [by exists []; apply decoding_refl|lia|].
  intros [] r1 [more Hd]. eapply mwp_mono; [by eapply decode_step_spec|].
  intros [u|u] r2; simpl.
  - intros [[c Hc] Hl]. split; [by eexists|done].
  - intros [-> Hend]. eauto.
Qed.

(** ** Filling the buffer *)

(** The states at the head of the filling loop. *)
Definition fill_inv (r0 : reader) (ds : list (list Z)) (first : bool) (r : reader) : Prop :=
  exists more, filling r (ds ++ more)
  /\ (text_left r <= text_left r0)%nat
  /\ decode_budget r < INPUT_BUFFER_SIZE
  /\ (if first then more = [] else rd_eof r = false /\ zlen (rd_raw r) < 4).

Lemma filling_short r ds n :
  filling r ds -> n <= 8 -> rd_unread r < n -> decode_budget r + 1 < INPUT_BUFFER_SIZE.
Proof.
  intros [] Hn Hlt. pose proof (chars_length _ fi_plain0) as Hl. rewrite <-fi_buffer0 in Hl.
  unfold decode_budget, INPUT_BUFFER_SIZE, INPUT_RAW_BUFFER_SIZE in *. lia.
Qed.

(** At the end of the input the NUL character is stored. *)
Lemma append_nul r ds :
  filling r ds -> rd_eof r = true -> rd_raw r = [] -> decode_budget r + 1 < INPUT_BUFFER_SIZE ->
  rwp (buffer_append [0]) (fun _ r' => reader_ok r' ds /\ rd_eof r' = true
    /\ reader_left r' = S (text_left r)) r.
Proof.
  intros [] He Hr Hb. unfold buffer_append. apply mwp_bind, mwp_get. rewrite fi_pos0.
  unfold decode_budget in Hb. rewrite Hr in Hb. change (zlen [0]) with 1.
  change (zlen []) with 0 in Hb. pose proof (zlen_nonneg (rd_buffer r)).
  rewrite (proj2 (Z.leb_le _ _)) by lia. apply mwp_update.
  split; [|split; [done|unfold reader_left, text_left; simpl; rewrite He, length_app; simpl; lia]].
  split; simpl; rewrite ?He, ?view_concat, ?view_length; auto.
  - by rewrite fi_buffer0.
  - rewrite fi_unread0. apply wrap_small. unfold fits.
    pose proof (chars_length _ fi_plain0) as Hl. rewrite <-fi_buffer0 in Hl.
    unfold INPUT_BUFFER_SIZE, INPUT_RAW_BUFFER_SIZE in *. pose proof (zlen_nonneg ds). lia.
  - rewrite zlen_app. change (zlen [0]) with 1. lia.
Qed.

(** The result of [yaml_parser_update_buffer]. *)
Definition filled (r0 : reader) (ds : list (list Z)) (length : Z) (r : reader) : Prop :=
  exists more, reader_ok r (ds ++ more) /\ (reader_left r <= S (text_left r0))%nat
    /\ (length <= zlen (ds ++ more) \/ rd_eof r = true).

(** Enough characters, and the input is not over. *)
Lemma enough_filled r0 ds n more r :
  filling r (ds ++ more) -> (text_left r <= text_left r0)%nat ->
  decode_budget r < INPUT_BUFFER_SIZE -> n <= rd_unread r ->
  rd_eof r = false /\ zlen (rd_raw r) < 4 -> filled r0 ds n r.
Proof.
  intros [] Hl Hb Hn [He _]. exists more. unfold reader_left, text_left, decode_budget in *.
  rewrite He. split_and!; [|lia|left; by rewrite <-fi_unread0].
  pose proof (zlen_nonneg (rd_raw r)).
  split; rewrite ?He, ?view_concat, ?view_length, ?app_nil_r, ?Z.add_0_r; auto; try done; lia.
Qed.

Lemma fill_step_spec r0 ds n first r :
  fill_inv r0 ds first r -> n <= 8 -> zlen ds < n ->
  rwp (fill_step n first) (fun res r' =>
    match res with
    | inl first' => fill_inv r0 ds first' r' /\ first' = false
        /\ (first = false -> (length (rd_input r') < length (rd_input r))%nat)
        /\ (length (rd_input r') <= length (rd_input r))%nat
    | inr true => filled r0 ds n r'
    | inr false => filled r0 ds n r' /\ r' = r
    end) r.
Proof.
  intros (more & Hf & Hleft & Hbud & Hfirst) Hn Hds. unfold fill_step. apply mwp_bind, mwp_get.
  destruct (Z.ltb_spec (rd_unread r) n) as [Hu|Hu]; cbn [negb].
  2: { apply mwp_ret. split; [|done]. destruct first; [|by eapply enough_filled].
       destruct Hf as []. subst more. rewrite app_nil_r in *. lia. }
  apply mwp_bind. apply mwp_mono with (Q := fun _ r1 => exists l, filling r1 (ds ++ more)
    /\ text_left r1 = text_left r /\ rd_unread r1 = rd_unread r /\ rd_input r = l ++ rd_input r1
    /\ (first = false -> l <> [] \/ rd_eof r1 = true)).
  { destruct (negb first || _) eqn:Hup.
    - eapply mwp_mono; [apply update_raw_buffer_spec; apply (fi_room _ _ Hf)|].
      intros _ r1 [l Hr]. exists l. split_and!; [by eapply refilled_filling|
        by eapply refilled_left|apply (rf_unread _ _ _ Hr)|apply (rf_input _ _ _ Hr)|].
      intros ->. destruct Hfirst as [He Hr4]. destruct l; [|by left].
      destruct (rf_more _ _ _ Hr eq_refl) as [|Hfull]; [by right|].
      unfold INPUT_RAW_BUFFER_SIZE in Hfull. lia.
    - apply mwp_ret. exists []. apply orb_false_iff in Hup as [Hup1 Hup2].
      split_and!; try done. by destruct first. }
  intros _ r1 (l & Hf1 & Hl1 & Hu1 & Hin & Hl). apply mwp_bind.
  assert (decode_budget r1 + 1 < INPUT_BUFFER_SIZE) as Hb1
    by (eapply filling_short; [done..|]; lia).
  eapply mwp_mono; [apply decode_raw_buffer_spec; [done|lia]|].
  intros _ r2 (more2 & Hd & Hend). apply mwp_bind, mwp_get.
  pose proof (decoding_left _ _ _ _ Hd) as Hl2.
  pose proof (de_filling _ _ _ _ Hd) as Hf2. rewrite <-app_assoc in Hf2.
  pose proof (de_budget _ _ _ _ Hd) as Hb2.
  destruct (rd_eof r2) eqn:He2.
  - destruct Hend as [Hraw|[? _]]; [|done]. apply mwp_bind.
    eapply mwp_mono; [eapply append_nul; try done; lia|]. intros _ r3 (Hok & He3 & Hl3).
    apply mwp_ret. exists (more ++ more2). split_and!; [done|lia|by right].
  - apply mwp_ret. rewrite (de_input _ _ _ _ Hd), Hin, length_app. split_and!; [|done| |lia].
    + exists (more ++ more2). split_and!; [done|lia|lia|done|]. by destruct Hend as [->|[_ ?]].
    + intros Hff. destruct (Hl Hff) as [Hne|He1].
      * destruct l; [done|]. simpl. lia.
      * by rewrite (de_eof _ _ _ _ Hd), He1 in He2.
Qed.

(** ** [yaml_parser_update_buffer] *)

(** The encoding is known afterwards; the decoded buffer has not changed. *)
Lemma determine_encoding_spec r :
  0 <= rd_raw_pos r -> rd_raw_pos r + zlen (rd_raw r) <= INPUT_RAW_BUFFER_SIZE ->
  rwp yaml_parser_determine_encoding (fun _ r' =>
    rd_buffer r' = rd_buffer r /\ rd_unread r' = rd_unread r /\ rd_pos r' = rd_pos r
    /\ rd_encoding r' <> YAML_ANY_ENCODING /\ (text_left r' <= text_left r)%nat
    /\ 0 <= rd_raw_pos r' /\ rd_raw_pos r' + zlen (rd_raw r') <= INPUT_RAW_BUFFER_SIZE) r.
Proof.
  intros Hpos Hroom. unfold yaml_parser_determine_encoding. apply mwp_bind.
  apply mwp_iter with (I := fun _ r' =>
      rd_buffer r' = rd_buffer r /\ rd_unread r' = rd_unread r /\ rd_pos r' = rd_pos r
      /\ text_left r' = text_left r /\ 0 <= rd_raw_pos r'
      /\ rd_raw_pos r' + zlen (rd_raw r') <= INPUT_RAW_BUFFER_SIZE)
    (mu := fun _ r' => if rd_eof r' then 0%nat else (4 - length (rd_raw r'))%nat);
    [done|case_match; lia|].
  - intros [] r1 (H1 & H2 & H3 & H4 & H5 & H6). apply mwp_bind, mwp_get.
    destruct (negb _ && _) eqn:Hgo.
    + apply andb_prop in Hgo as [He%negb_true_iff Hlt%Z.ltb_lt]. apply mwp_bind.
      eapply mwp_mono; [by apply update_raw_buffer_spec|]. intros _ r2 [l Hr].
      apply mwp_ret. rewrite (refilled_left _ _ _ Hr). destruct Hr as [].
      split_and!; try congruence; try lia. rewrite He, rf_raw0, length_app.
      destruct l as [|c l]; simpl in *.
      * destruct (rf_more0 eq_refl) as [->|Hf]; [unfold zlen in Hlt; lia|].
        unfold INPUT_RAW_BUFFER_SIZE in *. lia.
      * destruct rf_eof0 as [->|[? _]]; [|done]. rewrite He. unfold zlen in Hlt. lia.
    + apply mwp_ret, mwp_bind, mwp_get.
      assert (forall bom, starts_with_bom bom r1 = true -> zlen bom <= zlen (rd_raw r1)) as Hb.
      { unfold starts_with_bom. by intros bom [Hb%Z.leb_le _]%andb_prop. }
      pose proof (Hb BOM_UTF8) as B1. pose proof (Hb BOM_UTF16LE) as B2.
      pose proof (Hb BOM_UTF16BE) as B3. clear Hb.
      unfold text_left in *. repeat case_match; apply mwp_update; simpl;
        split_and!; try done; try lia; try (unfold zdrop; rewrite length_drop; lia);
        rewrite zlen_zdrop; try lia;
        match goal with
        | H : true = true -> zlen ?b <= _ |- _ => specialize (H eq_refl); unfold zlen in *; simpl in H; lia
        end.
Qed.

(** At the end of the input nothing happens. *)
Lemma update_buffer_at_end r ds n :
  reader_ok r ds -> rd_eof r = true -> yaml_parser_update_buffer n r = Done (Ok tt, r).
Proof.
  intros [] He. unfold yaml_parser_update_buffer, get, mbind, m_bind.
  by rewrite He, ro_raw0, bool_decide_eq_true_2.
Qed.

Lemma update_buffer_spec r ds n :
  reader_ok r ds -> n <= 8 ->
  rwp (yaml_parser_update_buffer n) (fun _ r' => exists more, reader_ok r' (ds ++ more)
    /\ (reader_left r' <= reader_left r)%nat
    /\ (n <= zlen (ds ++ more) \/ rd_eof r' = true)) r.
Proof.
  intros Hok Hn. destruct (rd_eof r) eqn:He.
  { unfold mwp. rewrite (update_buffer_at_end r ds) by done. exists [].
    rewrite app_nil_r. eauto. }
  assert (reader_left r = S (text_left r)) as Hleft
    by (unfold reader_left, text_left; rewrite He; lia).
  unfold yaml_parser_update_buffer. apply mwp_bind, mwp_get. rewrite He. simpl.
  pose proof (ro_unread _ _ Hok) as Hu. rewrite He in Hu. simpl in Hu.
  destruct (Z.leb_spec n (rd_unread r)) as [Hle|Hlt].
  { apply mwp_ret. exists []. rewrite app_nil_r. split_and!; [done|lia|left; lia]. }
  apply mwp_bind. destruct Hok as []. rewrite He in *. simpl in *.
  apply mwp_mono with (Q := fun _ r1 => rd_buffer r1 = rd_buffer r
    /\ rd_unread r1 = rd_unread r /\ rd_pos r1 = rd_pos r
    /\ rd_encoding r1 <> YAML_ANY_ENCODING /\ (text_left r1 <= text_left r)%nat
    /\ 0 <= rd_raw_pos r1 /\ rd_raw_pos r1 + zlen (rd_raw r1) <= INPUT_RAW_BUFFER_SIZE).
  { destruct (rd_encoding r) eqn:Henc; [apply determine_encoding_spec; lia|..];
      apply mwp_ret; split_and!; try done; try lia; by rewrite Henc. }
  intros _ r1 (H1 & H2 & H3 & H4 & H5 & H6 & H7). apply mwp_bind, mwp_update.
  set (r2 := if (0 <? rd_pos r1) && _ then _ else _).
  assert (filling r2 ds /\ text_left r2 = text_left r1) as [Hf Hl].
  { assert (0 <= rd_pos r1) by lia. unfold r2, text_left.
    destruct (Z.ltb_spec 0 (rd_pos r1)); case_bool_decide as Hb; simpl;
      rewrite ?Hb; simpl; (split; [split; simpl; try congruence; try done; try lia|simpl; lia]). }
  clearbody r2. apply mwp_bind, mwp_get, mwp_bind.
  apply mwp_iter with (I := fun first r' => fill_inv r2 ds first r')
    (mu := fun (first : bool) r' => (length (rd_input r') + if first then 1 else 0)%nat).
  - exists []. rewrite app_nil_r. split_and!; [done|lia| |done].
    assert (decode_budget r2 + 1 < INPUT_BUFFER_SIZE); [|lia].
    eapply filling_short; [done..|]. rewrite (fi_unread _ _ Hf). lia.
  - lia.
  - intros first r3 Hinv. eapply mwp_mono; [eapply fill_step_spec; [done..|]; lia|].
    intros [first'|[|]] r4.
    + intros (Hinv4 & -> & Hlt4 & Hle4). split; [done|]. destruct first; simpl in *; [lia|].
      specialize (Hlt4 eq_refl). lia.
    + intros (more & Hok4 & Hl4 & Hend). apply mwp_ret. exists more. split_and!; try done. lia.
    + intros [(more & Hok4 & Hl4 & Hend) _]. apply mwp_bind, mwp_get.
      destruct (_ <=? _); [by apply mwp_fail|]. apply mwp_ret. exists more.
      split_and!; try done. lia.
Qed.
