(* ===== verification/YamlLexProofs.v ===== *)
(** * Reading characters: lemmas

    The characters in the buffer as a list, which tests are defined on them, and rules
    for the macros and loops of [YamlLex] on the relation [scans s0 s cs moved]: the
    scanner came from [s0] to [s] by reading, [cs] is in the buffer. *)
From Stdlib Require Import ZArith Lia.
From stdpp Require Import base list option numbers strings.
From S2P Require Import Prelude YamlTypes YamlReader YamlParser YamlLex YamlReaderProofs.

(** ** The characters in the buffer *)

(** [cs] is what the buffer holds, with the NUL at the end of the input. *)
Definition buffered (r : reader) (cs : list (list Z)) : Prop :=
  exists ds, reader_ok r ds /\ cs = view (rd_eof r) ds.

(** At least [n] characters, or all up to the end of the input. *)
Definition enough (n : Z) (cs : list (list Z)) : Prop := n <= zlen cs \/ last cs = Some [0].

Lemma nul_char : utf8_char [0].
Proof. by exists 0, []. Qed.

Lemma buffered_chars r cs : buffered r cs -> Forall utf8_char cs.
Proof.
  intros (ds & Hok & ->). unfold view.
  assert (Forall utf8_char ds)
    by (eapply Forall_impl; [exact (ro_plain _ _ Hok)|by intros ? []]).
  destruct (rd_eof r); [|done]. apply Forall_app. split; [done|]. repeat constructor.
  apply nul_char.
Qed.

Lemma buffered_buffer r cs : buffered r cs -> rd_buffer r = concat cs.
Proof. by intros (ds & [] & ->). Qed.

Lemma buffered_unread r cs : buffered r cs -> rd_unread r = zlen cs.
Proof. by intros (ds & [] & ->). Qed.

Lemma enough_nonempty n cs : enough n cs -> 1 <= n -> exists c cs', cs = c :: cs'.
Proof. destruct cs; [|eauto]. intros [H|H]; [unfold zlen in H; simpl in H; lia|done]. Qed.

Lemma enough_tail n c cs : enough n (c :: cs) -> c <> [0] -> enough (n - 1) cs.
Proof.
  unfold enough. rewrite zlen_cons. intros [H|H] Hc; [left; lia|right].
  destruct cs; [simpl in H; congruence|done].
Qed.

Lemma enough_le n m cs : enough n cs -> m <= n -> enough m cs.
Proof. intros [H|H] Hm; [left; lia|by right]. Qed.

Lemma enough_app n cs more :
  enough n cs -> (last cs = Some [0] -> more = []) -> enough n (cs ++ more).
Proof.
  intros [H|H] Hm; [left; rewrite zlen_app; pose proof (zlen_nonneg more); lia|].
  right. by rewrite Hm, app_nil_r.
Qed.

(** ** Tests *)

(** [t] looks at no more than the first character. *)
Class HeadTest (t : test) : Prop :=
  head_test : forall c l, utf8_char c -> exists b, t c = Some b /\ t (c ++ l) = Some b.

(** [t] looks at no more than [w] octets. *)
Definition within (w : Z) (t : test) : Prop :=
  forall l r, w <= zlen l -> exists b, t l = Some b /\ t (l ++ r) = Some b.

Lemma within_lookup w (k : nat) (f : Z -> bool) :
  Z.of_nat k < w -> within w (fun l => f <$> l !! k).
Proof.
  intros Hk l r Hl. destruct (lookup_below l k ltac:(lia)) as [c Hc]. exists (f c).
  rewrite Hc. split; [done|]. by rewrite (lookup_app_l_Some _ _ _ _ Hc).
Qed.

Lemma within_check w a (k : nat) : Z.of_nat k < w -> within w (CHECK_AT a k).
Proof. intros Hk. by apply (within_lookup w k (fun c => c =? a)). Qed.

Lemma within_and w t u : within w t -> within w u -> within w (t_and t u).
Proof.
  intros Ht Hu l r Hl. destruct (Ht l r Hl) as (b & H1 & H2).
  destruct (Hu l r Hl) as (b' & H3 & H4). unfold t_and. rewrite H1, H2, H3, H4.
  destruct b; eauto.
Qed.

Lemma within_or w t u : within w t -> within w u -> within w (t_or t u).
Proof.
  intros Ht Hu l r Hl. destruct (Ht l r Hl) as (b & H1 & H2).
  destruct (Hu l r Hl) as (b' & H3 & H4). unfold t_or. rewrite H1, H2, H3, H4.
  destruct b; eauto.
Qed.

Lemma within_head t : within 1 t -> HeadTest t.
Proof. intros Ht c l Hc. apply Ht. apply utf8_char_length in Hc. lia. Qed.

#[export] Instance head_check a : HeadTest (CHECK_AT a 0).
Proof. apply within_head, within_check. lia. Qed.
#[export] Instance head_range lo hi : HeadTest (in_range_at lo hi 0).
Proof. apply within_head, (within_lookup 1 0 (fun c => (lo <=? c) && (c <=? hi))). lia. Qed.
#[export] Instance head_true b : HeadTest (t_true b).
Proof. intros c l _. by exists b. Qed.
#[export] Instance head_or t u : HeadTest t -> HeadTest u -> HeadTest (t_or t u).
Proof.
  intros Ht Hu c l Hc. destruct (Ht c l Hc) as (b & H1 & H2).
  destruct (Hu c l Hc) as (b' & H3 & H4). unfold t_or. rewrite H1, H2, H3, H4.
  destruct b; eauto.
Qed.
#[export] Instance head_and t u : HeadTest t -> HeadTest u -> HeadTest (t_and t u).
Proof.
  intros Ht Hu c l Hc. destruct (Ht c l Hc) as (b & H1 & H2).
  destruct (Hu c l Hc) as (b' & H3 & H4). unfold t_and. rewrite H1, H2, H3, H4.
  destruct b; eauto.
Qed.
#[export] Instance head_not t : HeadTest t -> HeadTest (t_not t).
Proof.
  intros Ht c l Hc. destruct (Ht c l Hc) as (b & H1 & H2). unfold t_not.
  rewrite H1, H2. by eexists.
Qed.

(** Behind a leading octet the other octets of the character may be tested. *)
Lemma head_multi a t : within (utf8_width a) t -> HeadTest (t_and (CHECK_AT a 0) t).
Proof.
  intros Ht c l (b & r & -> & Hw). unfold t_and, CHECK_AT. cbn [lookup list_lookup fmap option_fmap option_map app].
  destruct (Z.eqb_spec b a) as [->|]; [|by exists false].
  rewrite Hw in Ht. destruct (Ht (a :: r) l ltac:(lia)) as (b & H1 & H2). eauto.
Qed.

#[export] Instance head_check_name a : HeadTest (CHECK a).
Proof. apply head_check. Qed.
#[export] Instance head_any l : HeadTest (CHECK_any l 0).
Proof. induction l; simpl; apply _. Qed.
#[export] Instance head_bom : HeadTest IS_BOM.
Proof. apply head_multi. apply within_and; apply within_check; vm_compute; done. Qed.
#[export] Instance head_break : HeadTest IS_BREAK.
Proof.
  unfold IS_BREAK, IS_BREAK_AT. repeat apply head_or; try apply _; apply head_multi;
    repeat apply within_and; apply within_check; vm_compute; done.
Qed.
#[export] Instance head_z : HeadTest IS_Z.
Proof. unfold IS_Z, IS_Z_AT. apply _. Qed.
#[export] Instance head_blank : HeadTest IS_BLANK.
Proof. unfold IS_BLANK, IS_BLANK_AT, IS_SPACE_AT, IS_TAB_AT. apply _. Qed.
#[export] Instance head_breakz : HeadTest IS_BREAKZ.
Proof. apply head_or; [apply head_break|apply head_z]. Qed.
#[export] Instance head_blankz : HeadTest IS_BLANKZ.
Proof. apply head_or; [apply head_blank|apply head_breakz]. Qed.
#[export] Instance head_digit : HeadTest IS_DIGIT.
Proof. unfold IS_DIGIT, IS_DIGIT_AT. apply _. Qed.
#[export] Instance head_alpha : HeadTest IS_ALPHA.
Proof. unfold IS_ALPHA, IS_ALPHA_AT. apply _. Qed.
#[export] Instance head_space : HeadTest IS_SPACE.
Proof. unfold IS_SPACE, IS_SPACE_AT. apply _. Qed.
#[export] Instance head_tab : HeadTest IS_TAB.
Proof. unfold IS_TAB, IS_TAB_AT. apply _. Qed.
#[export] Instance head_hex : HeadTest (IS_HEX_AT 0).
Proof. unfold IS_HEX_AT. apply _. Qed.

(** [t] looks at the first [n] characters at most. *)
Definition looks (n : Z) (t : test) : Prop :=
  forall cs, Forall utf8_char cs -> enough n cs -> is_Some (t (concat cs)).

Lemma head_looks n t : HeadTest t -> 1 <= n -> looks n t.
Proof.
  intros Ht Hn cs Hcs He. destruct (enough_nonempty _ _ He Hn) as (c & cs' & ->).
  inv Hcs. simpl. destruct (Ht c (concat cs') ltac:(done)) as (b & _ & ->). eauto.
Qed.

Lemma looks_or n t u : looks n t -> looks n u -> looks n (t_or t u).
Proof.
  intros Ht Hu cs Hcs He. unfold t_or. destruct (Ht cs Hcs He) as [[|] ->]; eauto.
Qed.

Lemma looks_and n t u : looks n t -> looks n u -> looks n (t_and t u).
Proof.
  intros Ht Hu cs Hcs He. unfold t_and. destruct (Ht cs Hcs He) as [[|] ->]; eauto.
Qed.

Lemma looks_not n t : looks n t -> looks n (t_not t).
Proof. intros Ht cs Hcs He. unfold t_not. destruct (Ht cs Hcs He) as [b ->]. by eexists. Qed.

(** An ASCII octet is a character of its own. *)
Lemma ascii_char a r : utf8_char (a :: r) -> utf8_width a = 1 -> r = [].
Proof.
  intros (b & r' & [= <- <-] & Hw) H1. rewrite Hw, zlen_cons in H1. apply zlen_zero. lia.
Qed.

Lemma check_true a cs :
  CHECK a (concat cs) = Some true -> Forall utf8_char cs -> utf8_width a = 1 ->
  exists cs', cs = [a] :: cs'.
Proof.
  intros Ht Hcs Ha. destruct Hcs as [|c cs Hc Hcs]; [done|].
  pose proof Hc as (b & r & -> & _). cbn in Ht. injection Ht as ->%Z.eqb_eq.
  by rewrite (ascii_char a r) by done; eexists.
Qed.

(** Behind an ASCII character, the next ones. *)
Lemma looks_behind n a t :
  utf8_width a = 1 -> a <> 0 -> 1 <= n ->
  (forall cs, Forall utf8_char cs -> enough (n - 1) cs -> is_Some (t (a :: concat cs))) ->
  looks n (t_and (CHECK_AT a 0) t).
Proof.
  intros Ha H0 Hn Ht cs Hcs He. unfold t_and.
  destruct (head_looks n (CHECK_AT a 0) _ Hn cs Hcs He) as [[|] Hb]; rewrite Hb; [|eauto].
  destruct (check_true a cs Hb Hcs Ha) as [cs' ->]. inv Hcs. apply Ht; [done|].
  eapply enough_tail; [done|congruence].
Qed.

(** ** Positions *)

(** Line and column in the order of the text. *)
Definition mark_lt (m n : yaml_mark_t) : Prop :=
  mark_line m < mark_line n \/ mark_line m = mark_line n /\ mark_column m < mark_column n.
Definition mark_le (m n : yaml_mark_t) : Prop :=
  mark_line m < mark_line n \/ mark_line m = mark_line n /\ mark_column m <= mark_column n.

(** No position of the text is beyond [POSITION_MAX]: [int]s can hold columns. *)
Definition POSITION_MAX : Z := INT_MAX - 16.

Record mark_ok (s : scanner) : Prop := mk_mark_ok {
  mo_line : 0 <= mark_line (sc_mark s) <= mark_index (sc_mark s);
  mo_column : 0 <= mark_column (sc_mark s) <= mark_index (sc_mark s);
  mo_index : mark_index (sc_mark s) + Z.of_nat (chars_left s) <= POSITION_MAX;
}.

(** Reading does not touch what the scanner knows about tokens. *)
Record same_tokens (s0 s : scanner) : Prop := mk_same_tokens {
  st_start : sc_stream_start_produced s = sc_stream_start_produced s0;
  st_indent : sc_indent s = sc_indent s0;
  st_indents : sc_indents s = sc_indents s0;
  st_keys : sc_simple_keys s = sc_simple_keys s0;
  st_flow : sc_flow_level s = sc_flow_level s0;
  st_tokens : sc_tokens s = sc_tokens s0;
  st_parsed : sc_tokens_parsed s = sc_tokens_parsed s0;
}.

Record scans (s0 s : scanner) (cs : list (list Z)) (moved : bool) : Prop := mk_scans {
  sn_chars : buffered (sc_reader s) cs;
  sn_mark : mark_ok s;
  sn_same : same_tokens s0 s;
  sn_left : (chars_left s <= chars_left s0)%nat;
  sn_le : mark_le (sc_mark s0) (sc_mark s);
  sn_moved : moved = true ->
    (chars_left s < chars_left s0)%nat /\ mark_lt (sc_mark s0) (sc_mark s);
}.

Lemma mark_le_refl m : mark_le m m.
Proof. right. lia. Qed.

Lemma scans_refl s cs : buffered (sc_reader s) cs -> mark_ok s -> scans s s cs false.
Proof. intros Hb Hm. split; try done; apply mark_le_refl. Qed.

Lemma scans_here s0 s cs m : scans s0 s cs m -> scans s s cs false.
Proof. intros []. by apply scans_refl. Qed.

Lemma same_tokens_trans s0 s1 s2 : same_tokens s0 s1 -> same_tokens s1 s2 -> same_tokens s0 s2.
Proof. intros [] []. split; congruence. Qed.

Lemma scans_trans s0 s1 s2 cs1 cs2 m1 m2 :
  scans s0 s1 cs1 m1 -> scans s1 s2 cs2 m2 -> scans s0 s2 cs2 (m1 || m2).
Proof.
  intros [_ _ H1 H2 H3 H4] [H5 H6 H7 H8 H9 H10].
  assert (m1 || m2 = true -> (chars_left s2 < chars_left s0)%nat
    /\ mark_lt (sc_mark s0) (sc_mark s2)) as Hm.
  { unfold mark_lt, mark_le in *. destruct m1; simpl; intros Ht.
    - destruct (H4 eq_refl). split; lia.
    - destruct (H10 Ht). split; lia. }
  split; try done; [by eapply same_tokens_trans|lia|unfold mark_le in *; lia].
Qed.

Lemma scans_weaken s0 s cs m m' : scans s0 s cs m -> (m' = true -> m = true) -> scans s0 s cs m'.
Proof. intros [] Hm. split; auto. Qed.

Lemma scans_then s0 s1 s2 cs1 cs2 m1 m2 :
  scans s0 s1 cs1 m1 -> scans s1 s2 cs2 m2 -> scans s0 s2 cs2 m1.
Proof.
  intros H1 H2. eapply scans_weaken; [by eapply scans_trans|]. by intros ->.
Qed.

Lemma scans_moved s0 s1 s2 cs1 cs2 m1 :
  scans s0 s1 cs1 m1 -> scans s1 s2 cs2 true -> scans s0 s2 cs2 true.
Proof.
  intros H1 H2. eapply scans_weaken; [by eapply scans_trans|]. by rewrite orb_true_r.
Qed.

Lemma scans_utf8 s0 s cs m : scans s0 s cs m -> Forall utf8_char cs.
Proof. intros []. by eapply buffered_chars. Qed.

(** ** The rules *)

Section rules.
Context (alloc : nat -> bool).

(** Every failure sets an error code, but for a refused allocation. *)
Definition scan_failure (e : failure) : Prop :=
  failure_code e <> YAML_NO_ERROR \/ exists n, alloc n = false.

Abbreviation wp := (mwp scan_failure).

Lemma wp_error {A} c m p (Q : A -> scanner -> Prop) s :
  wp (yaml_parser_set_scanner_error c m p) Q s.
Proof. by left. Qed.

Lemma wp_CACHE n s0 s cs m (Q : unit -> scanner -> Prop) :
  scans s0 s cs m -> n <= 8 ->
  (forall s' more, scans s0 s' (cs ++ more) m -> enough n (cs ++ more) ->
     sc_simple_key_allowed s' = sc_simple_key_allowed s ->
     sc_mark s' = sc_mark s -> (enough n cs -> s' = s) -> Q tt s') ->
  wp (CACHE n) Q s.
Proof.
  intros [Hc Hm Hf Hl Hle Hmv] Hn HQ. unfold CACHE, mwp.
  pose proof (buffered_unread _ _ Hc) as Hu. destruct (Z.leb_spec n (rd_unread (sc_reader s))).
  { apply (HQ s []); rewrite ?app_nil_r; auto; [by split|left; lia]. }
  destruct Hc as (ds & Hok & ->). destruct (rd_eof (sc_reader s)) eqn:He.
  { rewrite (update_buffer_at_end _ _ _ Hok He).
    replace (set_reader (sc_reader s) s) with s by by destruct s.
    apply (HQ s []); rewrite ?app_nil_r; auto.
    - split; try done. exists ds. by rewrite He.
    - right. simpl. by rewrite last_snoc. }
  pose proof (update_buffer_spec _ _ _ Hok Hn) as Hup. unfold mwp in Hup.
  destruct (yaml_parser_update_buffer n (sc_reader s)) as [[[u|e] r]|]; [|left; by rewrite Hup|done].
  destruct Hup as (more & Hok' & Hl' & Hen). destruct u.
  apply (HQ _ (more ++ if rd_eof r then [[0]] else [])).
  - split; simpl; try done.
    + exists (ds ++ more). split; [done|]. unfold view. destruct (rd_eof r);
        by rewrite ?app_nil_r, ?app_assoc.
    + destruct Hm. unfold chars_left in *. split; simpl; try done.
      unfold chars_left; simpl. lia.
    + by destruct Hf; split.
    + unfold chars_left in *. simpl. lia.
    + intros Ht. destruct (Hmv Ht). unfold chars_left in *. simpl. split; [lia|done].
  - simpl. destruct Hen as [Hen|Hen].
    + left. rewrite app_assoc, zlen_app. pose proof (zlen_nonneg (if rd_eof r then [[0]] else [])). lia.
    + right. by rewrite Hen, app_assoc, last_snoc.
  - done.
  - done.
  - intros [Hen'|Hen']; [rewrite <-Hu in Hen'; lia|].
    exfalso. simpl in Hen'. destruct Hok. apply last_Some_elem_of in Hen'.
    rewrite Forall_forall in ro_plain. by destruct (ro_plain _ Hen').
Qed.

Lemma wp_CACHE_id n s0 s cs m (Q : unit -> scanner -> Prop) :
  scans s0 s cs m -> n <= 8 -> enough n cs -> Q tt s -> wp (CACHE n) Q s.
Proof. intros Hs Hn He HQ. eapply wp_CACHE; [done..|]. intros s' more _ _ _ _ Hid. by rewrite (Hid He). Qed.

Lemma wp_check t s0 s cs m b (Q : bool -> scanner -> Prop) :
  scans s0 s cs m -> t (concat cs) = Some b -> Q b s -> wp (check t) Q s.
Proof.
  intros Hs Ht HQ. apply mwp_bind, mwp_get.
  rewrite (buffered_buffer _ _ (sn_chars _ _ _ _ Hs)). by eapply mwp_known.
Qed.

(** Of the first character. *)
Lemma wp_check_head t `{HeadTest t} s0 s c cs m (Q : bool -> scanner -> Prop) :
  scans s0 s (c :: cs) m -> (forall b, t c = Some b -> Q b s) -> wp (check t) Q s.
Proof.
  intros Hs HQ. pose proof (scans_utf8 _ _ _ _ Hs) as Hcs. inv Hcs.
  destruct (head_test c (concat cs)) as (b & Hb1 & Hb2); [done|].
  eapply wp_check; [done|exact Hb2|eauto].
Qed.

(** Of the first [n] characters. *)
Lemma wp_check_looks n t s0 s cs m (Q : bool -> scanner -> Prop) :
  scans s0 s cs m -> enough n cs -> looks n t ->
  (forall b, t (concat cs) = Some b -> Q b s) -> wp (check t) Q s.
Proof.
  intros Hs He Ht HQ. destruct (Ht cs (scans_utf8 _ _ _ _ Hs) He) as [b Hb].
  eapply wp_check; [done|exact Hb|eauto].
Qed.

Lemma wp_octet_at k s0 s cs m c (Q : Z -> scanner -> Prop) :
  scans s0 s cs m -> concat cs !! k = Some c -> Q c s -> wp (octet_at k) Q s.
Proof.
  intros Hs Hc HQ. apply mwp_bind, mwp_get.
  rewrite (buffered_buffer _ _ (sn_chars _ _ _ _ Hs)). by eapply mwp_known.
Qed.

(** Dropping whole characters from the buffer. *)
Lemma buffered_drop r used cs :
  buffered r (used ++ cs) -> Forall (fun c => c <> [0]) used ->
  let n := zlen (concat used) in
  let r' := set_buffer (rd_pos r + n) (zdrop n (rd_buffer r)) (u64 (rd_unread r - zlen used)) r in
  n <= zlen (rd_buffer r) /\ buffered r' cs
  /\ reader_left r = (reader_left r' + length (concat used))%nat.
Proof.
  intros Hb Hu n r'. pose proof (buffered_buffer _ _ Hb) as Hbuf.
  pose proof (buffered_unread _ _ Hb) as Hun. rewrite concat_app in Hbuf.
  assert (zdrop n (rd_buffer r) = concat cs) as Hd by (rewrite Hbuf; apply zdrop_app_zlen).
  assert (zlen (rd_buffer r) = n + zlen (concat cs)) as Hz by (rewrite Hbuf; apply zlen_app).
  pose proof (zlen_nonneg (concat cs)). split; [lia|]. split.
  - destruct Hb as (ds & [] & Hv). assert (exists ds', ds = used ++ ds') as [ds' ->].
    { clear -Hv Hu. revert ds Hv. induction Hu as [|c used Hc _ IH]; intros ds Hv; [by exists ds|].
      destruct ds as [|d ds]; unfold view in Hv; destruct (rd_eof r) eqn:He; simpl in Hv;
        try (simplify_eq; fail).
      - injection Hv as -> Hv. destruct (IH ds Hv) as [ds' ->]. by exists ds'.
      - injection Hv as -> Hv. destruct (IH ds Hv) as [ds' ->]. by exists ds'. }
    assert (cs = view (rd_eof r) ds') as ->.
    { clear -Hv. unfold view in *. destruct (rd_eof r); [rewrite <-app_assoc in Hv|];
        apply app_inv_head in Hv; exact Hv. }
    exists ds'. split; [|done]. split; simpl; try done.
    + unfold r', n in *. simpl. rewrite Hun, zlen_app, Z.add_simpl_l. apply wrap_small.
      pose proof (zlen_nonneg (view (rd_eof r) ds')). split; [done|].
      destruct ro_pos as [? Hp]. rewrite Hbuf in Hp.
      assert (zlen (view (rd_eof r) ds') <= zlen (concat (view (rd_eof r) ds'))).
      { apply Forall_app in ro_plain as [_ Hpl]. apply chars_length in Hpl.
        rewrite view_length, view_concat, zlen_app. destruct (rd_eof r); autorewrite with zlen; lia. }
      rewrite zlen_app in Hp. pose proof (zlen_nonneg (concat used)).
      unfold INPUT_BUFFER_SIZE, INPUT_RAW_BUFFER_SIZE in Hp. lia.
    + by apply Forall_app in ro_plain as [_ ?].
    + unfold r', n. simpl. fold n. rewrite Hd. pose proof (zlen_nonneg (concat used)).
      fold n in H0. lia.
  - unfold reader_left, r'. simpl. rewrite Hd, Hbuf, length_app. lia.
Qed.

(** ** Consuming characters *)

Definition consume (used : list (list Z)) (f : yaml_mark_t -> yaml_mark_t) (s : scanner)
    : scanner :=
  let r := sc_reader s in
  let n := zlen (concat used) in
  set_mark (f (sc_mark s)) (set_reader
    (set_buffer (rd_pos r + n) (zdrop n (rd_buffer r)) (u64 (rd_unread r - zlen used)) r) s).

(** How the position moves over [n] characters. *)
Definition moves (n : Z) (f : yaml_mark_t -> yaml_mark_t) : Prop :=
  (f = mark_forward /\ n = 1) \/ f = mark_newline n.

Lemma mark_moves n f m :
  moves n f -> 1 <= n <= 2 -> 0 <= mark_line m <= mark_index m ->
  0 <= mark_column m <= mark_index m -> mark_index m + n <= POSITION_MAX ->
  mark_index (f m) = mark_index m + n /\ mark_lt m (f m)
  /\ 0 <= mark_line (f m) <= mark_index (f m) /\ 0 <= mark_column (f m) <= mark_index (f m).
Proof.
  intros Hf Hn Hl Hc Hi. unfold POSITION_MAX, INT_MAX in Hi.
  assert (forall z, 0 <= z <= POSITION_MAX -> u64 z = z) as Hu.
  { intros z Hz. apply wrap_small. unfold fits, POSITION_MAX, INT_MAX in *. lia. }
  unfold POSITION_MAX, INT_MAX in Hu.
  destruct Hf as [[-> ->]| ->]; unfold mark_forward, mark_newline, mark_lt; simpl;
    rewrite !Hu by lia; split_and!; try lia.
Qed.

Lemma nonnul_octets used : Forall utf8_char used -> zlen used <= zlen (concat used).
Proof.
  induction 1 as [|c cs Hc _ IH]; [done|]. cbn [concat]. rewrite zlen_app, zlen_cons.
  apply utf8_char_length in Hc. lia.
Qed.

Lemma scans_consume s0 s used cs m f :
  scans s0 s (used ++ cs) m -> Forall (fun c => c <> [0]) used -> moves (zlen used) f ->
  1 <= zlen used <= 2 ->
  zlen (concat used) <= zlen (rd_buffer (sc_reader s)) /\ scans s0 (consume used f s) cs true.
Proof.
  intros Hs Hu Hf Hn. pose proof (scans_utf8 _ _ _ _ Hs) as Hcs.
  apply Forall_app in Hcs as [Hus _]. apply nonnul_octets in Hus.
  destruct Hs as [Hb [Hl Hc Hi] Hsame Hle Hml _].
  destruct (buffered_drop _ _ _ Hb Hu) as (Hlen & Hb' & Hleft). split; [done|].
  unfold chars_left in *. unfold zlen in Hus.
  destruct (mark_moves (zlen used) f (sc_mark s) Hf Hn Hl Hc
    ltac:(unfold zlen in *; lia)) as (H1 & H2 & H3 & H4).
  split.
  - done.
  - split; simpl; [done..|]. unfold chars_left. simpl. rewrite H1. unfold zlen in *. lia.
  - by destruct Hsame; split.
  - unfold chars_left. simpl. lia.
  - unfold mark_lt, mark_le in *. simpl. lia.
  - intros _. unfold chars_left. simpl. split; [unfold zlen in *; lia|].
    unfold mark_lt, mark_le in *. simpl. lia.
Qed.

Lemma wp_pointer_advance n k (Q : unit -> scanner -> Prop) s :
  n <= zlen (rd_buffer (sc_reader s)) ->
  (let r := sc_reader s in
   Q tt (set_reader (set_buffer (rd_pos r + n) (zdrop n (rd_buffer r))
     (u64 (rd_unread r - k)) r) s)) ->
  wp (pointer_advance n k) Q s.
Proof.
  intros Hn HQ. unfold pointer_advance. apply mwp_bind, mwp_get.
  by rewrite (proj2 (Z.leb_le _ _)).
Qed.

Lemma scans_head s0 s c cs m :
  scans s0 s (c :: cs) m ->
  exists b, rd_buffer (sc_reader s) !! 0%nat = Some b /\ utf8_width b = zlen c
    /\ rd_buffer (sc_reader s) = c ++ concat cs.
Proof.
  intros Hs. pose proof (scans_utf8 _ _ _ _ Hs) as Hcs. inv Hcs.
  rewrite (buffered_buffer _ _ (sn_chars _ _ _ _ Hs)).
  destruct H1 as (b & r & -> & Hw). by exists b.
Qed.

Lemma lex_SKIP s0 s c cs m (Q : unit -> scanner -> Prop) :
  scans s0 s (c :: cs) m -> c <> [0] ->
  (forall s', scans s0 s' cs true -> sc_simple_key_allowed s' = sc_simple_key_allowed s ->
     mark_line (sc_mark s') = mark_line (sc_mark s) ->
     mark_column (sc_mark s') = mark_column (sc_mark s) + 1 -> Q tt s') ->
  wp SKIP Q s.
Proof.
  intros Hs Hc HQ. destruct (scans_head _ _ _ _ _ Hs) as (b & Hb & Hw & _).
  destruct (scans_consume s0 s [c] cs m mark_forward) as [Hn Hs'];
    [done|by repeat constructor|by left|done|].
  apply mwp_bind, mwp_update, mwp_bind, mwp_bind, mwp_get.
  eapply mwp_known; [exact Hb|]. rewrite Hw.
  cbn [concat] in Hn. rewrite app_nil_r in Hn. apply wp_pointer_advance; [done|].
  unfold consume in Hs'. cbn [concat] in Hs'. rewrite app_nil_r in Hs'.
  apply HQ; [exact Hs'|done|done|].
  destruct (sn_mark _ _ _ _ Hs) as [_ Hcol Hidx]. simpl. apply wrap_small. unfold fits.
  unfold POSITION_MAX, INT_MAX in Hidx. lia.
Qed.

Lemma break_char c cs :
  IS_BREAK c = Some true -> IS_CRLF (concat (c :: cs)) = Some false ->
  c <> [0].
Proof. by intros Hb _ ->. Qed.

Lemma crlf_chars cs :
  IS_CRLF (concat cs) = Some true -> Forall utf8_char cs -> exists cs', cs = [13] :: [10] :: cs'.
Proof.
  unfold IS_CRLF, t_and. intros Ht Hcs.
  destruct (CHECK_AT 13 0 (concat cs)) as [[|]|] eqn:H13; [|done..].
  destruct (check_true 13 cs H13 Hcs eq_refl) as [cs1 ->]. inv Hcs.
  assert (CHECK 10 (concat cs1) = Some true) as H10 by exact Ht.
  destruct (check_true 10 cs1 H10) as [cs2 ->]; [done..|]. by exists cs2.
Qed.

Lemma looks_crlf : looks 2 IS_CRLF.
Proof.
  apply looks_behind; try done. intros cs Hcs He.
  destruct (enough_nonempty _ _ He ltac:(lia)) as (c & cs' & ->).
  inv Hcs. by destruct H1 as (b & r & -> & _).
Qed.

(** Over a line break: its characters are gone. *)
Lemma lex_SKIP_LINE s0 s c cs m (Q : unit -> scanner -> Prop) :
  scans s0 s (c :: cs) m -> enough 2 (c :: cs) -> IS_BREAK c = Some true ->
  (forall s' cs', scans s0 s' cs' true ->
     sc_simple_key_allowed s' = sc_simple_key_allowed s ->
     mark_column (sc_mark s') = 0 -> Q tt s') ->
  wp SKIP_LINE Q s.
Proof.
  intros Hs He Hbr HQ. pose proof (scans_utf8 _ _ _ _ Hs) as Hcs.
  unfold SKIP_LINE. apply mwp_bind. eapply wp_check_looks; [done|done|apply looks_crlf|].
  intros [|] Hcrlf.
  - destruct (crlf_chars _ Hcrlf Hcs) as [cs' [= -> ->]].
    destruct (scans_consume s0 s [[13]; [10]] cs' m (mark_newline 2)) as [Hn Hs'];
      [done|by repeat constructor|by right|done|].
    apply mwp_bind, mwp_update. apply wp_pointer_advance; [done|].
    eapply HQ; [exact Hs'|done|done].
  - destruct (scans_head _ _ _ _ _ Hs) as (b & Hb & Hw & _).
    destruct (scans_consume s0 s [c] cs m (mark_newline 1)) as [Hn Hs'];
      [done|repeat constructor; by eapply break_char|by right|done|].
    apply mwp_bind. eapply (wp_check_head IS_BREAK); [done|]. intros b' Hb'.
    rewrite Hbr in Hb'. injection Hb' as <-.
    apply mwp_bind, mwp_update, mwp_bind, mwp_bind, mwp_get. eapply mwp_known; [exact Hb|].
    rewrite Hw. cbn [concat] in Hn. rewrite app_nil_r in Hn. apply wp_pointer_advance; [done|].
    unfold consume in Hs'. cbn [concat] in Hs'. rewrite app_nil_r in Hs'.
    eapply HQ; [exact Hs'|done|done].
Qed.

(** ** Strings *)

(** A string that can be written to: what is behind the pointer is zero, and there is
    something. *)
Record str_ok (s : yaml_string_t) : Prop := mk_str_ok {
  so_room : 1 <= zlen (str_rest s);
  so_zero : Forall (fun c => c = 0) (str_rest s);
  so_size : 16 <= zlen (str_mem s);
}.

Lemma zeros_zero n : Forall (fun c => c = 0) (zeros n).
Proof. apply Forall_replicate. done. Qed.

Lemma zlen_zero_octets n : zlen (zeros n) = Z.of_nat n.
Proof. unfold zlen, zeros. by rewrite length_replicate. Qed.

Lemma clear_ok s : 16 <= zlen (str_mem s) -> str_ok (CLEAR s).
Proof.
  intros Hs. unfold CLEAR. split; unfold str_mem; simpl; rewrite ?zlen_zero_octets;
    try apply zeros_zero; unfold zlen in *; unfold str_mem in *; lia.
Qed.

(** The memory of a string holds a C string. *)
Definition mem_ok (mem : list Z) : Prop :=
  16 <= zlen mem /\ exists chars rest, c_str mem = Some chars
    /\ mem = chars ++ 0 :: rest /\ Forall (fun c => c <> 0) chars.

Lemma c_str_app chars rest :
  Forall (fun c => c <> 0) chars -> c_str (chars ++ 0 :: rest) = Some chars.
Proof.
  induction 1 as [|c chars Hc _ IH]; [done|]. simpl.
  rewrite (proj2 (Z.eqb_neq _ _)) by done. by rewrite IH.
Qed.

Lemma c_str_exists mem : In 0 mem -> exists chars rest, c_str mem = Some chars
  /\ mem = chars ++ 0 :: rest /\ Forall (fun c => c <> 0) chars.
Proof.
  induction mem as [|c mem IH]; [done|]. intros Hin. simpl.
  destruct (Z.eqb_spec c 0) as [->|Hc]; [by eexists [], mem|].
  destruct IH as (chars & rest & Hs & -> & Hf); [by destruct Hin|].
  exists (c :: chars), rest. rewrite Hs. split_and!; [done..|by constructor].
Qed.

Lemma str_ok_mem s : str_ok s -> mem_ok (str_mem s).
Proof.
  intros [Hr Hz Hs]. split; [done|]. apply c_str_exists. unfold str_mem.
  apply in_app_iff. right. destruct (str_rest s) as [|c rest]; [by unfold zlen in Hr|].
  inv Hz. by left.
Qed.

Lemma mem_ok_head mem : mem_ok mem -> exists c, mem !! 0%nat = Some c.
Proof. intros [Hm _]. destruct mem; [done|]. by eexists. Qed.

Lemma mem_ok_second mem : mem_ok mem -> exists c, mem !! 1%nat = Some c.
Proof. intros [Hm _]. destruct (lookup_below mem 1 ltac:(lia)); eauto. Qed.

Lemma mwp_granted (b : bool) (Q : unit -> scanner -> Prop) s :
  (b = true -> Q tt s) -> (b = false -> exists n, alloc n = false) ->
  mwp scan_failure (granted b) Q s.
Proof. destruct b; simpl; intros H1 H2; [by apply H1|by left]. Qed.

Lemma wp_malloc_scanner s0 s cs m (Q : bool -> scanner -> Prop) :
  scans s0 s cs m ->
  (forall b s', scans s0 s' cs m -> sc_simple_key_allowed s' = sc_simple_key_allowed s ->
     sc_mark s' = sc_mark s -> (b = false -> exists n, alloc n = false) -> Q b s') ->
  wp (yaml_malloc_scanner alloc) Q s.
Proof.
  intros [H1 [] [] H4 H5 H6] HQ. apply mwp_bind, mwp_get, mwp_bind, mwp_update, mwp_ret.
  apply HQ; [|done|done|eauto]. split; try done; by split.
Qed.

(** What the rules for strings say of the state: only allocations were made. *)
Definition still (s0 s : scanner) (cs : list (list Z)) (m : bool) (s' : scanner) : Prop :=
  scans s0 s' cs m /\ sc_simple_key_allowed s' = sc_simple_key_allowed s
  /\ sc_mark s' = sc_mark s.

Lemma wp_STRING_INIT s0 s cs m (Q : yaml_string_t -> scanner -> Prop) :
  scans s0 s cs m ->
  (forall str s', str_ok str -> still s0 s cs m s' -> str_chars str = [] -> Q str s') ->
  wp (STRING_INIT alloc) Q s.
Proof.
  intros Hs HQ. apply mwp_bind. eapply wp_malloc_scanner; [done|]. intros b s' Hs' Ha Hm Hr.
  apply mwp_bind, mwp_granted; [|done]. intros _. apply mwp_ret. apply HQ; [|done|done].
  split; [done| |done]. apply zeros_zero.
Qed.

Lemma extend_spec s0 s cs m str (Q : yaml_string_t -> scanner -> Prop) :
  scans s0 s cs m ->
  (forall rest s', still s0 s cs m s' -> zlen rest = zlen (str_mem str) ->
     Forall (fun c => c = 0) rest ->
     Q (mk_string (str_chars str) (str_rest str ++ rest)) s') ->
  wp (yaml_string_extend alloc str) Q s.
Proof.
  intros Hs HQ. apply mwp_bind. eapply wp_malloc_scanner; [done|]. intros b s' Hs' Ha Hm Hr.
  apply mwp_bind, mwp_granted; [|done]. intros _. apply mwp_ret. apply HQ; [done| |].
  - rewrite zlen_zero_octets. done.
  - apply zeros_zero.
Qed.

Lemma wp_STRING_EXTEND s0 s cs m str (Q : yaml_string_t -> scanner -> Prop) :
  scans s0 s cs m -> str_ok str ->
  (forall str' s', str_ok str' -> 6 <= zlen (str_rest str') ->
     str_chars str' = str_chars str -> still s0 s cs m s' -> Q str' s') ->
  wp (STRING_EXTEND alloc str) Q s.
Proof.
  intros Hs [Hr Hz Hl] HQ. unfold STRING_EXTEND.
  destruct (Z.ltb_spec 5 (zlen (str_rest str))); [apply mwp_ret, HQ; by try lia|].
  eapply extend_spec; [done|]. intros rest s' Hs' Hlen Hz'.
  assert (16 <= zlen (str_rest str ++ rest)).
  { rewrite zlen_app. lia. }
  apply HQ; [|simpl; lia|done|done]. split; simpl; [lia|by apply Forall_app|].
  unfold str_mem. simpl. rewrite zlen_app. pose proof (zlen_nonneg (str_chars str)). lia.
Qed.

(** Writing where there is room. *)
Lemma wp_str_puts octets str s (Q : yaml_string_t -> scanner -> Prop) :
  Forall (fun c => c = 0) (str_rest str) -> zlen octets <= zlen (str_rest str) ->
  (forall str', str_chars str' = str_chars str ++ octets ->
     zlen (str_rest str') = zlen (str_rest str) - zlen octets ->
     Forall (fun c => c = 0) (str_rest str') -> zlen (str_mem str') = zlen (str_mem str) ->
     Q str' s) ->
  wp (str_puts octets str) Q s.
Proof.
  revert str. induction octets as [|c octets IH]; intros str Hz Hl HQ; simpl.
  { apply mwp_ret, HQ; rewrite ?app_nil_r; try done. change (zlen []) with 0. lia. }
  rewrite zlen_cons in Hl. pose proof (zlen_nonneg octets).
  unfold str_put. destruct (str_rest str) as [|z rest] eqn:Hrest.
  { unfold zlen in Hl at 2. simpl in Hl. lia. }
  rewrite zlen_cons in Hl. inv Hz. apply mwp_bind, mwp_ret. apply IH; simpl; [done|lia|].
  intros str' Hc Hr Hz' Hm. apply HQ; try done.
  - by rewrite Hc, <-app_assoc.
  - rewrite !zlen_cons. lia.
  - rewrite Hm. unfold str_mem. simpl. rewrite Hrest, !zlen_app, !zlen_cons.
    change (zlen []) with 0. lia.
Qed.

(** Up to five octets after [STRING_EXTEND]. *)
Lemma wp_put_extended octets str s (Q : yaml_string_t -> scanner -> Prop) :
  str_ok str -> 6 <= zlen (str_rest str) -> zlen octets <= 5 ->
  (forall str', str_ok str' -> str_chars str' = str_chars str ++ octets -> Q str' s) ->
  wp (str_puts octets str) Q s.
Proof.
  intros [Hr Hz Hl] H6 Ho HQ. apply wp_str_puts; [done|lia|]. intros str' H1 H2 H3 H4.
  apply HQ; [|done]. split; [lia|done|lia].
Qed.

Lemma put_is_puts c str (Q : yaml_string_t -> scanner -> Prop) s :
  wp (str_puts [c] str) Q s -> wp (str_put c str) Q s.
Proof.
  unfold mwp, str_puts, mbind, m_bind. by destruct (str_put c str s) as [[[a|e] s']|].
Qed.

Lemma wp_put1 c str s (Q : yaml_string_t -> scanner -> Prop) :
  str_ok str -> 6 <= zlen (str_rest str) ->
  (forall str', str_ok str' -> str_chars str' = str_chars str ++ [c] -> Q str' s) ->
  wp (str_put c str) Q s.
Proof. intros H1 H2 HQ. by apply put_is_puts, wp_put_extended. Qed.

Lemma still_scans s0 s cs m s' : still s0 s cs m s' -> scans s0 s' cs m.
Proof. by intros (? & _). Qed.

Lemma still_trans s0 s s1 s2 cs m :
  still s0 s cs m s1 -> still s0 s1 cs m s2 -> still s0 s cs m s2.
Proof. intros (_ & H1 & H2) (H3 & H4 & H5). split_and!; [done|congruence..]. Qed.

Lemma wp_extend_beyond n s0 s cs m str (Q : yaml_string_t -> scanner -> Prop) :
  scans s0 s cs m -> str_ok str -> 0 <= n ->
  (forall str' s', str_ok str' -> n < zlen (str_rest str') ->
     str_chars str' = str_chars str -> still s0 s cs m s' -> Q str' s') ->
  wp (extend_beyond alloc n str) Q s.
Proof.
  intros Hs Hok Hn HQ. unfold extend_beyond.
  apply mwp_iter with (I := fun str' s' => str_ok str' /\ str_chars str' = str_chars str
      /\ still s0 s cs m s')
    (mu := fun str' _ => Z.to_nat (n + 1 - zlen (str_rest str'))).
  - by split_and!.
  - destruct Hok. lia.
  - intros str1 s1 ([Hr Hz Hl] & Hc & Hst). destruct (Z.leb_spec (zlen (str_rest str1)) n).
    + apply mwp_bind. eapply extend_spec; [by eapply still_scans|].
      intros rest s2 Hst2 Hlen Hz2. apply mwp_ret. simpl. rewrite zlen_app, Hlen.
      split_and!; [|done|by eapply still_trans|lia].
      split; simpl; [rewrite zlen_app; lia|by apply Forall_app|].
      unfold str_mem in *. simpl. rewrite !zlen_app in *. lia.
    + apply mwp_ret. apply HQ; done || lia.
Qed.

Lemma wp_JOIN s0 s cs m a b (Q : yaml_string_t * yaml_string_t -> scanner -> Prop) :
  scans s0 s cs m -> str_ok a -> 16 <= zlen (str_mem b) ->
  (forall a' b' s', str_ok a' -> str_chars a' = str_chars a ++ str_chars b ->
     16 <= zlen (str_mem b') -> still s0 s cs m s' -> Q (a', b') s') ->
  wp (JOIN alloc a b) Q s.
Proof.
  intros Hs Ha Hb HQ. unfold JOIN. apply mwp_bind. unfold yaml_string_join.
  destruct (str_chars b) as [|c chars] eqn:Hc.
  { apply mwp_ret, mwp_ret. apply HQ; rewrite ?app_nil_r; try done. }
  rewrite <-Hc in *. clear c chars Hc. apply mwp_bind.
  eapply wp_extend_beyond; [done|done|apply zlen_nonneg|]. intros a1 s1 Hok Hr Hch Hst.
  destruct Hok as [_ Hz Hl]. apply wp_str_puts; [done|lia|]. intros a2 H1 H2 H3 H4.
  apply mwp_ret. apply HQ; [split; by try lia|by rewrite H1, Hch|done|done].
Qed.

(** ** Reading into a string *)

Lemma chars_buffer s0 s c cs m :
  scans s0 s (c :: cs) m ->
  exists b, rd_buffer (sc_reader s) !! 0%nat = Some b
    /\ ztake (utf8_width b) (rd_buffer (sc_reader s)) = c /\ utf8_width b = zlen c
    /\ zlen c <= zlen (rd_buffer (sc_reader s)).
Proof.
  intros Hs. destruct (scans_head _ _ _ _ _ Hs) as (b & Hb & Hw & Hbuf). exists b.
  rewrite Hw, Hbuf, zlen_app in *. pose proof (zlen_nonneg (concat cs)).
  split_and!; [done|apply ztake_app_zlen|done|lia].
Qed.

Lemma wp_READ s0 s c cs m str (Q : yaml_string_t -> scanner -> Prop) :
  scans s0 s (c :: cs) m -> c <> [0] -> str_ok str ->
  (forall str' s', str_ok str' -> str_chars str' = str_chars str ++ c ->
     scans s0 s' cs true -> sc_simple_key_allowed s' = sc_simple_key_allowed s ->
     mark_line (sc_mark s') = mark_line (sc_mark s) ->
     mark_column (sc_mark s') = mark_column (sc_mark s) + 1 -> Q str' s') ->
  wp (READ alloc str) Q s.
Proof.
  intros Hs Hc Hok HQ. unfold READ. apply mwp_bind.
  eapply wp_STRING_EXTEND; [done|done|]. intros str1 s1 Hok1 H6 Hch1 (Hs1 & Ha1 & Hm1).
  apply mwp_bind. unfold COPY.
  destruct (chars_buffer _ _ _ _ _ Hs1) as (b & Hb & Htk & Hw & Hlen).
  apply mwp_bind, mwp_bind, mwp_get. eapply mwp_known; [exact Hb|].
  apply mwp_bind, mwp_get, mwp_bind. rewrite Htk.
  pose proof (scans_utf8 _ _ _ _ Hs1) as Hcs. apply Forall_cons in Hcs as [Hcc _].
  apply wp_put_extended; [done|done|by apply utf8_char_length in Hcc; lia|].
  intros str2 Hok2 Hch2. apply mwp_bind. rewrite Hw. apply wp_pointer_advance; [done|].
  apply mwp_ret, mwp_bind, mwp_update, mwp_ret.
  destruct (scans_consume s0 s1 [c] cs m mark_forward) as [_ Hs'];
    [done|by repeat constructor|by left|done|].
  unfold consume in Hs'. cbn [concat] in Hs'. rewrite app_nil_r in Hs'.
  apply HQ; [done|by rewrite Hch2, Hch1|exact Hs'|done|by rewrite <-Hm1|].
  rewrite <-Hm1. destruct (sn_mark _ _ _ _ Hs1) as [_ Hcol Hidx]. simpl. apply wrap_small.
  unfold fits. unfold POSITION_MAX, INT_MAX in Hidx. lia.
Qed.

(** The line break [c] as it is stored. *)
Definition break_octets (c : list Z) : list Z := if zlen c =? 3 then c else [10].

Lemma break_cases c :
  IS_BREAK c = Some true -> utf8_char c ->
  c = [13] \/ c = [10] \/ c = [194; 133] \/ c = [226; 128; 168] \/ c = [226; 128; 169].
Proof.
  intros Hb (b & r & -> & Hw). unfold IS_BREAK, IS_BREAK_AT, t_or, t_and, CHECK_AT in Hb.
  cbn [lookup list_lookup fmap option_fmap option_map Nat.add] in Hb.
  destruct (Z.eqb_spec b 13) as [->|]; [left|destruct (Z.eqb_spec b 10) as [->|]; [right; left|]].
  1,2: f_equal; apply zlen_zero; rewrite zlen_cons in Hw; vm_compute (utf8_width _) in Hw; lia.
  right; right. destruct (Z.eqb_spec b 194) as [->|]; [left|right].
  - change (utf8_width 194) with 2 in Hw. unfold zlen in Hw.
    destruct r as [|r1 [|r2 rest]]; simpl in Hw; try lia; [].
    cbn in Hb.
    destruct (Z.eqb_spec r1 133) as [Hr|Hr]; [by rewrite Hr|done].
  - destruct (Z.eqb_spec b 226) as [->|]; [|done].
    change (utf8_width 226) with 3 in Hw. unfold zlen in Hw.
    destruct r as [|r1 [|r2 [|r3 rest]]]; simpl in Hw; try lia; [].
    cbn in Hb.
    destruct (Z.eqb_spec r1 128) as [Hr1|]; [|done]. rewrite Hr1.
    destruct (Z.eqb_spec r2 168) as [Hr2|]; [rewrite Hr2; by left|].
    destruct (Z.eqb_spec r2 169) as [Hr2|]; [rewrite Hr2; by right|done].
Qed.

Lemma wp_READ_LINE s0 s c cs m str (Q : yaml_string_t -> scanner -> Prop) :
  scans s0 s (c :: cs) m -> enough 2 (c :: cs) -> str_ok str -> IS_BREAK c = Some true ->
  (forall str' s' cs', str_ok str' -> str_chars str' = str_chars str ++ break_octets c ->
     scans s0 s' cs' true ->
     sc_simple_key_allowed s' = sc_simple_key_allowed s ->
     mark_column (sc_mark s') = 0 -> Q str' s') ->
  wp (READ_LINE alloc str) Q s.
Proof.
  intros Hs He Hok Hbr HQ. unfold READ_LINE. apply mwp_bind.
  eapply wp_STRING_EXTEND; [done|done|]. intros str1 s1 Hok1 H6 Hch1 (Hs1 & Ha1 & Hm1).
  pose proof (scans_utf8 _ _ _ _ Hs1) as Hcs.
  apply mwp_bind. eapply wp_check_looks; [done|exact He|apply looks_crlf|].
  intros [|] Hcrlf.
  { destruct (crlf_chars _ Hcrlf Hcs) as [cs' [= -> ->]].
    destruct (scans_consume s0 s1 [[13]; [10]] cs' m (mark_newline 2)) as [Hn Hs'];
      [done|by repeat constructor|by right|done|].
    apply mwp_bind, wp_put1; [done..|]. intros str2 Hok2 Hch2.
    apply mwp_bind, wp_pointer_advance; [done|]. apply mwp_bind, mwp_update, mwp_ret.
    eapply HQ; [done|by rewrite Hch2, Hch1|exact Hs'|done|done]. }
  assert (c <> [0]) as Hnul by by eapply break_char.
  destruct (scans_consume s0 s1 [c] cs m (mark_newline 1)) as [Hn Hs'];
    [done|by repeat constructor|by right|done|].
  unfold consume in Hs'. cbn [concat] in Hs', Hn. rewrite app_nil_r in Hs', Hn.
  (* the break is one, two or three octets long *)
  assert (forall n octets, zlen c = n -> break_octets c = octets -> zlen octets <= 5 ->
    wp (str_puts octets str1) (fun str =>
      wp (_ ← pointer_advance n 1; _ ← move_mark (mark_newline 1); mret str) Q) s1) as Hfin.
  { intros n octets Hz Ho Hlen. subst n. apply wp_put_extended; [done..|].
    intros str2 Hok2 Hch2. apply mwp_bind, wp_pointer_advance; [done|].
    apply mwp_bind, mwp_update, mwp_ret.
    eapply HQ; [done|by rewrite Hch2, Hch1, Ho|exact Hs'|done|done]. }
  apply Forall_cons in Hcs as [Hcc _].
  apply mwp_bind. destruct (break_cases c Hbr Hcc) as [Hc|[Hc|[Hc|[Hc|Hc]]]]; subst c.
  1,2: eapply (wp_check _ _ _ _ _ true); [done|reflexivity|];
    apply mwp_bind, put_is_puts; by apply (Hfin 1 [10]).
  - eapply (wp_check _ _ _ _ _ false); [done|reflexivity|]. apply mwp_bind.
    eapply (wp_check _ _ _ _ _ true); [done|reflexivity|]. by apply mwp_bind, put_is_puts, (Hfin 2 [10]).
  - do 2 (eapply (wp_check _ _ _ _ _ false); [done|reflexivity|]; apply mwp_bind).
    eapply (wp_check _ _ _ _ _ true); [done|reflexivity|]. apply mwp_bind, mwp_get, mwp_bind.
    rewrite (buffered_buffer _ _ (sn_chars _ _ _ _ Hs1)). by apply (Hfin 3 [226; 128; 168]).
  - do 2 (eapply (wp_check _ _ _ _ _ false); [done|reflexivity|]; apply mwp_bind).
    eapply (wp_check _ _ _ _ _ true); [done|reflexivity|]. apply mwp_bind, mwp_get, mwp_bind.
    rewrite (buffered_buffer _ _ (sn_chars _ _ _ _ Hs1)). by apply (Hfin 3 [226; 128; 169]).
Qed.
End rules.
