(* ===== verification/YamlScan.v ===== *)
(** * Scanning the text of a token ([scanner.c]: the [yaml_parser_scan_] functions)

    White space and comments, directives, anchors, tags and scalars. A C string that a
    function hands out is the memory it points to. *)
From Stdlib Require Import ZArith Lia.
From Stdlib Require Import Ascii.
From stdpp Require Import base list option numbers strings.
From S2P Require Import Prelude YamlTypes YamlReader YamlParser YamlLex.

Section scan.
Context (alloc : nat -> bool).

Abbreviation STRING_INIT := (STRING_INIT alloc).
Abbreviation STRING_EXTEND := (STRING_EXTEND alloc).
Abbreviation JOIN := (JOIN alloc).
Abbreviation READ := (READ alloc).
Abbreviation READ_LINE := (READ_LINE alloc).
Abbreviation read_while := (read_while alloc).
Abbreviation scan_error := yaml_parser_set_scanner_error.

Definition column : SM Z := s ← get; mret (mark_column (sc_mark s)).
Definition in_flow : SM bool := s ← get; mret (negb (sc_flow_level s =? 0)).
Definition here : SM yaml_mark_t := s ← get; mret (sc_mark s).

(** The octet a string starts with. *)
Definition first_octet (s : yaml_string_t) : SM Z := known (str_mem s !! 0%nat).

(** ** White space *)

Definition skip_to_token_step (_ : unit) : SM (unit + unit) :=
  _ ← CACHE 1;
  c ← column;
  bom ← check (t_true (c =? 0) &? IS_BOM);
  _ ← (if bom : bool then SKIP else mret tt);
  _ ← CACHE 1;
  flow ← in_flow;
  s ← get;
  _ ← skip_while (CHECK (chr " ")
        |? (t_true (flow || negb (sc_simple_key_allowed s)) &? CHECK 9));
  _ ← skip_comment;
  brk ← check IS_BREAK;
  if brk : bool then
    _ ← CACHE 2;
    _ ← SKIP_LINE;
    flow ← in_flow;
    _ ← (if negb flow then update (set_simple_key_allowed true) else mret tt);
    mret (inl tt)
  else mret (inr tt).

Definition yaml_parser_scan_to_next_token : SM unit := loop skip_to_token_step tt.

(** ** Directives *)

Definition yaml_parser_scan_directive_name (start_mark : yaml_mark_t) : SM (list Z) :=
  string ← STRING_INIT;
  _ ← CACHE 1;
  string ← read_while IS_ALPHA string;
  match str_chars string with
  | [] =>
      scan_error (Some "while scanning a directive") start_mark
        "could not find expected directive name"
  | _ =>
      ends ← check IS_BLANKZ;
      if negb ends then
        scan_error (Some "while scanning a directive") start_mark
          "found unexpected non-alphabetical character"
      else mret (str_mem string)
  end.

Definition MAX_NUMBER_LENGTH : Z := 9.

Definition yaml_parser_scan_version_directive_number (start_mark : yaml_mark_t) : SM Z :=
  _ ← CACHE 1;
  '(value, length) ← loop (fun '(value, length) =>
    digit ← check IS_DIGIT;
    if digit : bool then
      let length := length + 1 in
      if MAX_NUMBER_LENGTH <? length then
        scan_error (Some "while scanning a %YAML directive") start_mark
          "found extremely long version number"
      else
        c ← octet_at 0;
        value ← int_add (value * 10) (AS_DIGIT c);
        _ ← SKIP;
        _ ← CACHE 1;
        mret (inl (value, length))
    else mret (inr (value, length))) (0, 0);
  if length =? 0 then
    scan_error (Some "while scanning a %YAML directive") start_mark
      "did not find expected version number"
  else mret value.

Definition yaml_parser_scan_version_directive_value (start_mark : yaml_mark_t)
    : SM (Z * Z) :=
  _ ← CACHE 1;
  _ ← skip_while IS_BLANK;
  major ← yaml_parser_scan_version_directive_number start_mark;
  dot ← check (CHECK (chr "."));
  if negb dot then
    scan_error (Some "while scanning a %YAML directive") start_mark
      "did not find expected digit or '.' character"
  else
    _ ← SKIP;
    minor ← yaml_parser_scan_version_directive_number start_mark;
    mret (major, minor).

(** ** Tags *)

Definition yaml_parser_scan_tag_handle (directive : bool) (start_mark : yaml_mark_t)
    : SM (list Z) :=
  string ← STRING_INIT;
  _ ← CACHE 1;
  excl ← check (CHECK (chr "!"));
  if negb excl then
    scan_error (Some (if directive then "while scanning a tag directive"
                      else "while scanning a tag"))
      start_mark "did not find expected '!'"
  else
    string ← READ string;
    _ ← CACHE 1;
    string ← read_while IS_ALPHA string;
    excl ← check (CHECK (chr "!"));
    if excl : bool then
      string ← READ string;
      mret (str_mem string)
    else
      c0 ← first_octet string;
      c1 ← known (str_mem string !! 1%nat);
      if directive && negb ((c0 =? chr "!") && (c1 =? 0)) then
        scan_error (Some "while parsing a tag directive") start_mark "did not find expected '!'"
      else mret (str_mem string).

Definition uri_context (directive : bool) : option string :=
  Some (if directive then "while parsing a %TAG directive" else "while parsing a tag").

(** One octet of an escape sequence; the variables are [width] and the string. *)
Definition uri_escape_step (directive : bool) (start_mark : yaml_mark_t)
    (st : Z * yaml_string_t) : SM ((Z * yaml_string_t) + yaml_string_t) :=
  let '(width, string) := st in
  _ ← CACHE 3;
  esc ← check (CHECK (chr "%") &? IS_HEX_AT 1 &? IS_HEX_AT 2);
  if negb esc then
    scan_error (uri_context directive) start_mark "did not find URI escaped octet"
  else
    h ← octet_at 1;
    l ← octet_at 2;
    let octet := u8 (Z.shiftl (AS_HEX h) 4 + AS_HEX l) in
    width ← (if width =? 0 then
        if utf8_width octet =? 0 then
          scan_error (uri_context directive) start_mark
            "found an incorrect leading UTF-8 octet"
        else mret (utf8_width octet)
      else
        if negb (Z.land octet 192 =? 128) then
          scan_error (uri_context directive) start_mark
            "found an incorrect trailing UTF-8 octet"
        else mret width);
    string ← str_put octet string;
    _ ← SKIP; _ ← SKIP; _ ← SKIP;
    if width - 1 =? 0 then mret (inr string) else mret (inl (width - 1, string)).

(** A character has at most four octets. *)
Definition yaml_parser_scan_uri_escapes (directive : bool) (start_mark : yaml_mark_t)
    (string : yaml_string_t) : SM yaml_string_t :=
  iter 4 (uri_escape_step directive start_mark) (0, string).

Definition is_uri_char (uri_char : bool) : test :=
  (IS_ALPHA |? CHECK (chr ";") |? CHECK (chr "/") |? CHECK (chr "?") |? CHECK (chr ":")
   |? CHECK (chr "@") |? CHECK (chr "&") |? CHECK (chr "=") |? CHECK (chr "+")
   |? CHECK (chr "$") |? CHECK (chr ".") |? CHECK (chr "%") |? CHECK (chr "!")
   |? CHECK (chr "~") |? CHECK (chr "*") |? CHECK (chr "'") |? CHECK (chr "(")
   |? CHECK (chr ")")
   |? (t_true uri_char &? (CHECK (chr ",") |? CHECK (chr "[") |? CHECK (chr "]"))))%test.

Definition yaml_parser_scan_tag_uri (uri_char directive : bool) (head : option (list Z))
    (start_mark : yaml_mark_t) : SM (list Z) :=
  head_chars ← known (match head with Some mem => c_str mem | None => Some [] end);
  let length := zlen head_chars in
  string ← STRING_INIT;
  string ← iter (S (S (List.length head_chars))) (fun string =>
    if zlen (str_mem string) <=? length
    then string ← yaml_string_extend alloc string; mret (inl string)
    else mret (inr string)) string;
  string ← (if 1 <? length then str_puts (zdrop 1 head_chars) string else mret string);
  _ ← CACHE 1;
  '(string, length) ← loop (fun '(string, length) =>
    b ← check (is_uri_char uri_char);
    if b : bool then
      esc ← check (CHECK (chr "%"));
      string ← (if esc : bool then
          string ← STRING_EXTEND string;
          yaml_parser_scan_uri_escapes directive start_mark string
        else READ string);
      _ ← CACHE 1;
      mret (inl (string, length + 1))
    else mret (inr (string, length))) (string, length);
  if length =? 0 then
    string ← STRING_EXTEND string;
    scan_error (uri_context directive) start_mark "did not find expected tag URI"
  else mret (str_mem string).

Definition yaml_parser_scan_tag_directive_value (start_mark : yaml_mark_t)
    : SM (list Z * list Z) :=
  _ ← CACHE 1;
  _ ← skip_while IS_BLANK;
  handle_value ← yaml_parser_scan_tag_handle true start_mark;
  _ ← CACHE 1;
  blank ← check IS_BLANK;
  if negb blank then
    scan_error (Some "while scanning a %TAG directive") start_mark
      "did not find expected whitespace"
  else
    _ ← skip_while IS_BLANK;
    prefix_value ← yaml_parser_scan_tag_uri true true None start_mark;
    _ ← CACHE 1;
    ends ← check IS_BLANKZ;
    if negb ends then
      scan_error (Some "while scanning a %TAG directive") start_mark
        "did not find expected whitespace or line break"
    else mret (handle_value, prefix_value).

(** The token's strings are C strings: they end at the first NUL octet. *)
Definition yaml_parser_scan_directive : SM yaml_token_t :=
  start_mark ← here;
  _ ← SKIP;
  name ← yaml_parser_scan_directive_name start_mark;
  name ← known (c_str name);
  token ← (if bool_decide (name = bytes_of_string "YAML") then
      '(major, minor) ← yaml_parser_scan_version_directive_value start_mark;
      end_mark ← here;
      mret (mk_token (tok_version_directive major minor) start_mark end_mark)
    else if bool_decide (name = bytes_of_string "TAG") then
      '(handle, prefix) ← yaml_parser_scan_tag_directive_value start_mark;
      end_mark ← here;
      handle ← known (c_str handle);
      prefix ← known (c_str prefix);
      mret (mk_token (tok_tag_directive handle prefix) start_mark end_mark)
    else
      scan_error (Some "while scanning a directive") start_mark "found unknown directive name");
  _ ← CACHE 1;
  _ ← skip_while IS_BLANK;
  _ ← skip_comment;
  ends ← check IS_BREAKZ;
  if negb ends then
    scan_error (Some "while scanning a directive") start_mark
      "did not find expected comment or line break"
  else
    _ ← skip_line_break;
    mret token.

(** [yaml_malloc] whose refusal returns 0 without setting [parser->error]. *)
Definition malloc_or_goto_error : SM unit :=
  b ← yaml_malloc_scanner alloc;
  if b : bool then mret tt else fail no_error_set.

(** [handle[0] == '!' && handle[1] != '\0' && handle[strlen(handle)-1] == '!'] *)
Definition is_named_handle (handle : list Z) : SM bool :=
  c0 ← known (handle !! 0%nat);
  if negb (c0 =? chr "!") then mret false
  else
    c1 ← known (handle !! 1%nat);
    if c1 =? 0 then mret false
    else
      chars ← known (c_str handle);
      c ← known (handle !! (List.length chars - 1)%nat);
      mret (c =? chr "!").

Definition yaml_parser_scan_tag : SM yaml_token_t :=
  start_mark ← here;
  _ ← CACHE 2;
  verbatim ← check (CHECK_AT (chr "<") 1);
  '(handle, suffix) ← (if verbatim : bool then
      _ ← malloc_or_goto_error;
      _ ← SKIP; _ ← SKIP;
      suffix ← yaml_parser_scan_tag_uri true false None start_mark;
      close ← check (CHECK (chr ">"));
      if negb close then
        scan_error (Some "while scanning a tag") start_mark "did not find the expected '>'"
      else
        _ ← SKIP;
        mret ([0], suffix)
    else
      handle ← yaml_parser_scan_tag_handle false start_mark;
      named ← is_named_handle handle;
      if named : bool then
        suffix ← yaml_parser_scan_tag_uri false false None start_mark;
        mret (handle, suffix)
      else
        suffix ← yaml_parser_scan_tag_uri false false (Some handle) start_mark;
        _ ← malloc_or_goto_error;
        c ← known (suffix !! 0%nat);
        if c =? 0 then mret (suffix, [chr "!"; 0]) else mret ([chr "!"; 0], suffix));
  _ ← CACHE 1;
  ends ← check IS_BLANKZ;
  flow ← in_flow;
  comma ← (if ends : bool then mret true
           else if negb flow then mret false else check (CHECK (chr ",")));
  if negb comma then
    scan_error (Some "while scanning a tag") start_mark
      "did not find expected whitespace or line break"
  else
    end_mark ← here;
    handle ← known (c_str handle);
    suffix ← known (c_str suffix);
    mret (mk_token (tok_tag handle suffix) start_mark end_mark).

(** ** Anchors and aliases *)

Definition yaml_parser_scan_anchor (anchor : bool) : SM yaml_token_t :=
  string ← STRING_INIT;
  start_mark ← here;
  _ ← SKIP;
  _ ← CACHE 1;
  '(string, length) ← loop (fun '(string, length) =>
    alpha ← check IS_ALPHA;
    if alpha : bool then
      string ← READ string;
      _ ← CACHE 1;
      length ← int_add length 1;
      mret (inl (string, length))
    else mret (inr (string, length))) (string, 0);
  end_mark ← here;
  ends ← (if length =? 0 then mret false
          else check (IS_BLANKZ |? CHECK (chr "?") |? CHECK (chr ":") |? CHECK (chr ",")
            |? CHECK (chr "]") |? CHECK (chr "}") |? CHECK (chr "%") |? CHECK (chr "@")
            |? CHECK (chr "`")));
  if negb ends then
    scan_error (Some (if anchor then "while scanning an anchor" else "while scanning an alias"))
      start_mark "did not find expected alphabetic or numeric character"
  else
    value ← known (c_str (str_mem string));
    mret (mk_token (if anchor then tok_anchor value else tok_alias value) start_mark end_mark).
End scan.
