(* ===== verification/YamlScanProofs.v ===== *)
(** * Scanning the text of a token: safety and progress

    Every [yaml_parser_scan_] function reads only characters that are there, writes
    only inside its strings, and returns; what it leaves is again a position in the
    text. A lemma takes [scans s0 s cs m]: the scanner came from [s0] to [s], [cs] is
    in the buffer and [m] says that a character was consumed. *)
From Stdlib Require Import ZArith Lia.
From Stdlib Require Import Ascii.
From stdpp Require Import base list option numbers strings.
From S2P Require Import Prelude YamlTypes YamlReader YamlParser YamlLex YamlReaderProofs YamlLexProofs YamlScan.

(** ** Facts about tests *)

Lemma t_or_false t u l : t_or t u l = Some false -> t l = Some false /\ u l = Some false.
Proof. unfold t_or. repeat case_match; naive_solver. Qed.

Lemma t_or_true t u l : t_or t u l = Some true -> t l = Some true \/ u l = Some true.
Proof. unfold t_or. repeat case_match; naive_solver. Qed.

Lemma t_and_true t u l : t_and t u l = Some true -> t l = Some true /\ u l = Some true.
Proof. unfold t_and. repeat case_match; naive_solver. Qed.

Lemma t_not_true t l : t_not t l = Some true -> t l = Some false.
Proof. unfold t_not. destruct (t l) as [[|]|]; naive_solver. Qed.

Lemma t_not_false t l : t_not t l = Some false -> t l = Some true.
Proof. unfold t_not. destruct (t l) as [[|]|]; naive_solver. Qed.

(** A character that passes a test which NUL does not pass is not NUL. *)
Lemma not_nul (t : test) c b : t [0] = Some (negb b) -> t c = Some b -> c <> [0].
Proof. intros H0 Hc ->. rewrite H0 in Hc. by destruct b. Qed.

Lemma check_char a c :
  CHECK a c = Some true -> utf8_char c -> utf8_width a = 1 -> c = [a].
Proof.
  intros Ht Hc Ha. destruct (check_true a [c]) as [cs' Heq]; [|by constructor|done|congruence].
  cbn [concat]. by rewrite app_nil_r.
Qed.

Lemma head_concat t `{!HeadTest t} c cs b :
  t (concat (c :: cs)) = Some b -> utf8_char c -> t c = Some b.
Proof.
  intros Ht Hc. destruct (head_test c (concat cs) Hc) as (b' & -> & H). cbn [concat] in Ht.
  congruence.
Qed.

Lemma looks_dist n t u v :
  looks n t -> looks n u -> looks n (t_and t v) -> looks n (t_and u v) ->
  looks n (t_and (t_or t u) v).
Proof.
  intros Ht Hu Htv Huv cs Hcs He. specialize (Ht cs Hcs He). specialize (Hu cs Hcs He).
  specialize (Htv cs Hcs He). specialize (Huv cs Hcs He). unfold t_and, t_or in *.
  destruct Ht as [[|] Ht]; rewrite Ht in *; [done|].
  destruct Hu as [[|] Hu]; rewrite Hu in *; done.
Qed.

Lemma looks_assoc n t u v : looks n (t_and t (t_and u v)) -> looks n (t_and (t_and t u) v).
Proof.
  intros H cs Hcs He. specialize (H cs Hcs He). unfold t_and in *.
  destruct (t (concat cs)) as [[|]|]; done.
Qed.

Lemma looks_true n b t : (b = true -> looks n t) -> looks n (t_and (t_true b) t).
Proof. intros H cs Hcs He. destruct b; [by apply H|by eexists]. Qed.

Lemma looks_le n m t : looks n t -> n <= m -> looks m t.
Proof. intros H Hm cs Hcs He. apply H; [done|]. by eapply enough_le. Qed.

(** Offset [k + 1] behind an ASCII character is offset [k]. *)
Lemma looks_shift n t u a :
  looks n u -> (forall l, t (a :: l) = u l) ->
  forall cs, Forall utf8_char cs -> enough n cs -> is_Some (t (a :: concat cs)).
Proof. intros Hu Hl cs Hcs He. rewrite Hl. by apply Hu. Qed.

Ltac looks_next t' := eapply (looks_shift _ _ t'); [|done].

Lemma looks_blankz n : 1 <= n -> looks n IS_BLANKZ.
Proof. intros. apply head_looks; [apply _|done]. Qed.

(** ** Rules for the characters at the position *)

Lemma scans_allowed s0 s cs m b :
  scans s0 s cs m -> scans s0 (set_simple_key_allowed b s) cs m.
Proof. intros [H1 [] [] H4 H5 H6]. by split. Qed.

Lemma scans_false s0 s cs m : scans s0 s cs m -> scans s0 s cs false.
Proof. intros H. by eapply scans_weaken. Qed.

Section rules.
Context (alloc : nat -> bool).
Abbreviation wp := (mwp (scan_failure alloc)).

Lemma wp_here (Q : yaml_mark_t -> scanner -> Prop) s : Q (sc_mark s) s -> wp here Q s.
Proof. done. Qed.

Lemma wp_column (Q : Z -> scanner -> Prop) s : Q (mark_column (sc_mark s)) s -> wp column Q s.
Proof. done. Qed.

Lemma wp_in_flow (Q : bool -> scanner -> Prop) s :
  Q (negb (sc_flow_level s =? 0)) s -> wp in_flow Q s.
Proof. done. Qed.

(** After [CACHE n]: the characters that were there are a prefix. *)
Lemma wp_cache n s0 s cs m (Q : unit -> scanner -> Prop) :
  scans s0 s cs m -> n <= 8 ->
  (forall s' more, scans s0 s' (cs ++ more) m -> enough n (cs ++ more) ->
     sc_mark s' = sc_mark s -> Q tt s') ->
  wp (CACHE n) Q s.
Proof. intros Hs Hn HQ. eapply wp_CACHE; [done..|]. eauto. Qed.

Lemma wp_cache_one s0 s cs m (Q : unit -> scanner -> Prop) :
  scans s0 s cs m ->
  (forall s' c cs', scans s0 s' (c :: cs') m -> sc_mark s' = sc_mark s -> Q tt s') ->
  wp (CACHE 1) Q s.
Proof.
  intros Hs HQ. eapply wp_cache; [done|lia|]. intros s' more Hs' He Hm.
  destruct (enough_nonempty _ _ He ltac:(lia)) as (c & cs' & Heq). rewrite Heq in Hs'. eauto.
Qed.

(** The character [c] stays, more may follow. *)
Lemma wp_cache_more n s0 s c cs m (Q : unit -> scanner -> Prop) :
  scans s0 s (c :: cs) m -> n <= 8 ->
  (forall s' cs', scans s0 s' (c :: cs') m -> enough n (c :: cs') ->
     sc_mark s' = sc_mark s -> Q tt s') ->
  wp (CACHE n) Q s.
Proof.
  intros Hs Hn HQ. eapply wp_cache; [done..|]. intros s' more Hs' He Hm. eauto.
Qed.

Lemma wp_skip s0 s c cs m (Q : unit -> scanner -> Prop) :
  scans s0 s (c :: cs) m -> c <> [0] ->
  (forall s', scans s0 s' cs true -> Q tt s') -> wp SKIP Q s.
Proof. intros Hs Hc HQ. eapply lex_SKIP; eauto. Qed.

(** [SKIP; CACHE(1)] *)
Lemma wp_skip_cache s0 s c cs m {A} (k : unit -> SM A) (Q : A -> scanner -> Prop) :
  scans s0 s (c :: cs) m -> c <> [0] ->
  (forall s' c' cs', scans s0 s' (c' :: cs') true -> wp (k tt) Q s') ->
  wp (_ ← SKIP; u ← CACHE 1; k u) Q s.
Proof.
  intros Hs Hc HQ. apply mwp_bind. eapply wp_skip; [done..|]. intros s1 Hs1.
  apply mwp_bind. eapply wp_cache_one; [done|]. eauto.
Qed.

Lemma wp_skip_line s0 s c cs m (Q : unit -> scanner -> Prop) :
  scans s0 s (c :: cs) m -> enough 2 (c :: cs) -> IS_BREAK c = Some true ->
  (forall s' cs', scans s0 s' cs' true -> Q tt s') -> wp SKIP_LINE Q s.
Proof. intros Hs He Hb HQ. eapply lex_SKIP_LINE; eauto. Qed.

Lemma wp_read s0 s c cs m str (Q : yaml_string_t -> scanner -> Prop) :
  scans s0 s (c :: cs) m -> c <> [0] -> str_ok str ->
  (forall str' s', str_ok str' -> scans s0 s' cs true -> Q str' s') ->
  wp (READ alloc str) Q s.
Proof. intros Hs Hc Hok HQ. eapply wp_READ; eauto. Qed.

Lemma wp_read_line s0 s c cs m str (Q : yaml_string_t -> scanner -> Prop) :
  scans s0 s (c :: cs) m -> enough 2 (c :: cs) -> str_ok str -> IS_BREAK c = Some true ->
  (forall str' s' cs', str_ok str' -> scans s0 s' cs' true -> Q str' s') ->
  wp (READ_LINE alloc str) Q s.
Proof. intros Hs He Hok Hb HQ. eapply wp_READ_LINE; eauto. Qed.

(** ** Loops *)

(** Each round but the last consumes a character. *)
Lemma wp_loop {A B} (f : A -> SM (A + B)) (I : A -> scanner -> Prop)
    (Q : B -> scanner -> Prop) a s :
  I a s ->
  (forall a s, I a s -> wp (f a) (fun r s' => match r with
     | inl a' => I a' s' /\ (chars_left s' < chars_left s)%nat
     | inr b => Q b s' end) s) ->
  wp (loop f a) Q s.
Proof.
  intros Hi Hf. unfold loop. apply mwp_bind, mwp_get.
  apply mwp_iter with (I := I) (mu := fun _ s => chars_left s); [done|lia|done].
Qed.

(** The invariant [J] is on the variables, the state, the characters in the buffer and
    whether the scanner has moved since [s0]; a round starts afresh at its own state. *)
Lemma scan_loop {A B} (f : A -> SM (A + B)) (J : A -> scanner -> list (list Z) -> bool -> Prop)
    (R : B -> scanner -> list (list Z) -> bool -> Prop) s0 s a cs m (Q : B -> scanner -> Prop) :
  scans s0 s cs m -> J a s cs m ->
  (forall a s cs m, scans s s cs false -> same_tokens s0 s -> J a s cs m ->
     wp (f a) (fun r s' => exists cs' k, scans s s' cs' k /\ match r with
       | inl a' => k = true /\ J a' s' cs' true
       | inr b => R b s' cs' (m || k)
       end) s) ->
  (forall b s' cs' m', scans s0 s' cs' m' -> (m = true -> m' = true) -> R b s' cs' m' -> Q b s') ->
  wp (loop f a) Q s.
Proof.
  intros Hs Hj Hf HQ.
  apply wp_loop with (I := fun a s' => exists cs' m', scans s0 s' cs' m'
    /\ (m = true -> m' = true) /\ J a s' cs' m'); [by exists cs, m|].
  intros a1 s1 (cs1 & m1 & Hs1 & Hm1 & Hj1). eapply mwp_mono.
  { apply (Hf a1 s1 cs1 m1); [by eapply scans_here|exact (sn_same _ _ _ _ Hs1)|done]. }
  intros [a2|b] s2 (cs2 & k & Hs2 & HR).
  - destruct HR as [-> HJ]. destruct (sn_moved _ _ _ _ Hs2 eq_refl) as [Hleft _].
    split; [|done]. exists cs2, true. split_and!; [by eapply scans_moved|done|done].
  - eapply HQ; [by eapply scans_trans| |exact HR]. intros Hm. by rewrite Hm1.
Qed.
End rules.

(** ** Symbolic execution

    The hypothesis [scans s0 s cs m] of the state of the goal is found and replaced by
    the one after the step. *)

Lemma negb_true : negb true = false.
Proof. done. Qed.
Lemma negb_false : negb false = true.
Proof. done. Qed.

Lemma nul_or t u : t [0] = Some false -> u [0] = Some false -> t_or t u [0] = Some false.
Proof. unfold t_or. by intros ->. Qed.

Lemma nul_and_true b u : u [0] = Some false -> t_and (t_true b) u [0] = Some false.
Proof. unfold t_and, t_true. by destruct b. Qed.

Lemma nul_uri_char b : is_uri_char b [0] = Some false.
Proof. by destruct b. Qed.

(** The test does not pass at NUL. *)
Ltac nul_test :=
  lazymatch goal with
  | H : ?t [0] = ?b |- ?t [0] = ?b => exact H
  | |- is_uri_char _ [0] = Some false => apply nul_uri_char
  | |- t_or _ _ [0] = Some false => apply nul_or; nul_test
  | |- t_and (t_true _) _ [0] = Some false => apply nul_and_true; nul_test
  | |- _ => reflexivity
  end.

Ltac nonnul :=
  match goal with
  | H : ?t ?c = Some ?b |- ?c <> [0] => solve [refine (not_nul t c b _ H); cbn [negb]; nul_test]
  | |- _ <> [0] => congruence
  end.

(** The rest of a rule: new state, new hypotheses, the old position forgotten. *)
Ltac to_Hs H := try rename H into Hs.

Ltac cache_step Hs :=
  lazymatch goal with
  | |- mwp _ (CACHE ?n) _ _ =>
      lazymatch type of Hs with
      | scans _ _ (_ :: _) _ =>
          eapply (wp_cache_more _ n); [exact Hs|lia|];
          let s := fresh "s" in let cs := fresh "cs" in
          let Hs' := fresh "Hs" in let He := fresh "He" in let Hm := fresh "Hm" in
          intros s cs Hs' He Hm; clear Hs;
      to_Hs Hs'
      | _ =>
          lazymatch n with
          | 1 =>
              eapply wp_cache_one; [exact Hs|];
              let s := fresh "s" in let c := fresh "c" in let cs := fresh "cs" in
              let Hs' := fresh "Hs" in let Hm := fresh "Hm" in
              intros s c cs Hs' Hm; clear Hs;
      to_Hs Hs'
          | _ =>
              eapply (wp_cache _ n); [exact Hs|lia|];
              let s := fresh "s" in let more := fresh "more" in
              let Hs' := fresh "Hs" in let He := fresh "He" in let Hm := fresh "Hm" in
              intros s more Hs' He Hm; clear Hs;
              to_Hs Hs';
              let c := fresh "c" in let cs := fresh "cs" in let Heq := fresh "Heq" in
              destruct (enough_nonempty _ _ He ltac:(lia)) as (c & cs & Heq);
              rewrite Heq in *; clear Heq more
          end
      end
  end.

Ltac check_step Hs :=
  let b := fresh "b" in let Hb := fresh "Hb" in
  first
  [ eapply wp_check_head; [apply _|exact Hs|]; intros b Hb
  | eapply wp_check_looks; [exact Hs|eassumption| |]; [|intros b Hb] ].

Ltac sstep :=
  cbv beta iota;
  lazymatch goal with
  | |- mwp _ (mret _) _ _ => apply mwp_ret
  | |- mwp _ (mbind _ _) _ _ => apply mwp_bind
  | |- mwp _ get _ _ => apply mwp_get
  | |- mwp _ here _ _ => apply wp_here
  | |- mwp _ column _ _ => apply wp_column
  | |- mwp _ in_flow _ _ => apply wp_in_flow
  | |- mwp _ (yaml_parser_set_scanner_error _ _ _) _ _ => apply wp_error
  | Hs : scans _ ?s _ _ |- mwp _ (CACHE _) _ ?s => cache_step Hs
  | Hs : scans _ ?s _ _ |- mwp _ (check _) _ ?s => check_step Hs
  | Hs : scans _ ?s (_ :: _) _ |- mwp _ SKIP _ ?s =>
      eapply wp_skip; [exact Hs|nonnul|];
      let s' := fresh "s" in let Hs' := fresh "Hs" in intros s' Hs'; clear Hs;
      to_Hs Hs'
  | Hs : scans _ ?s (_ :: _) _ |- mwp _ SKIP_LINE _ ?s =>
      eapply wp_skip_line; [exact Hs|eassumption|eassumption|];
      let s' := fresh "s" in let cs := fresh "cs" in let Hs' := fresh "Hs" in
      intros s' cs Hs'; clear Hs;
      to_Hs Hs'
  | Hs : scans _ ?s (_ :: _) _ |- mwp _ (READ _ ?str) _ ?s =>
      eapply wp_read; [exact Hs|nonnul|eassumption|];
      let str := fresh "str" in let Hok := fresh "Hok" in
      let s' := fresh "s" in let Hs' := fresh "Hs" in intros str s' Hok Hs'; clear Hs;
      to_Hs Hs'
  | Hs : scans _ ?s (_ :: _) _ |- mwp _ (READ_LINE _ ?str) _ ?s =>
      eapply wp_read_line; [exact Hs|eassumption|eassumption|eassumption|];
      let str := fresh "str" in let Hok := fresh "Hok" in let s' := fresh "s" in
      let cs := fresh "cs" in let Hs' := fresh "Hs" in intros str s' cs Hok Hs'; clear Hs;
      to_Hs Hs'
  | |- mwp _ (if negb ?b then _ else _) _ _ =>
      let H := fresh "Hif" in tryif is_var b then destruct b else destruct b eqn:H
  | |- mwp _ (if ?b then _ else _) _ _ =>
      let H := fresh "Hif" in tryif is_var b then destruct b else destruct b eqn:H
  end; cbv beta iota; rewrite ?negb_true, ?negb_false; cbv beta iota.

(** The end of a round of a loop, and of a function. *)
Ltac sround := eexists _, _; split; [eassumption|].
Ltac sdone HQ :=
  eapply HQ; try eassumption; try (eapply scans_weaken; [eassumption|by auto]).

Section white_space.
Context (alloc : nat -> bool).
Abbreviation wp := (mwp (scan_failure alloc)).

Lemma wp_skip_while t `{!HeadTest t} s0 s c cs m (Q : unit -> scanner -> Prop) :
  t [0] = Some false -> scans s0 s (c :: cs) m ->
  (forall s' c' cs', scans s0 s' (c' :: cs') m -> t c' = Some false -> Q tt s') ->
  wp (skip_while t) Q s.
Proof.
  intros H0 Hs HQ. eapply (scan_loop _ _ (fun _ _ cs _ => exists c cs', cs = c :: cs')
    (fun _ _ cs _ => exists c cs', cs = c :: cs' /\ t c = Some false)); [exact Hs|by eexists _, _| |].
  - clear s c cs Hs HQ. intros [] s cs _ Hs _ (c & cs' & ->). do 3 sstep.
    + repeat sstep. sround. eauto.
    + repeat sstep. sround. eauto.
  - intros [] s' cs' m' Hs' Hm (c' & cs1 & -> & Hc). by sdone HQ.
Qed.

Lemma wp_read_while t `{!HeadTest t} s0 s c cs m str
    (Q : yaml_string_t -> scanner -> Prop) :
  t [0] = Some false -> scans s0 s (c :: cs) m -> str_ok str ->
  (forall str' s' c' cs', str_ok str' -> scans s0 s' (c' :: cs') m -> t c' = Some false ->
     Q str' s') ->
  wp (read_while alloc t str) Q s.
Proof.
  intros H0 Hs Hok HQ.
  eapply (scan_loop _ _ (fun str _ cs _ => str_ok str /\ exists c cs', cs = c :: cs')
    (fun str _ cs _ => str_ok str /\ exists c cs', cs = c :: cs' /\ t c = Some false));
    [exact Hs|eauto| |].
  - clear s c cs Hs HQ str Hok. intros str s cs _ Hs _ (Hok & c & cs' & ->). do 3 sstep.
    + repeat sstep. sround. eauto.
    + repeat sstep. sround. eauto.
  - intros str' s' cs' m' Hs' Hm (Hok' & c' & cs1 & -> & Hc). by sdone HQ.
Qed.

Lemma wp_skip_comment s0 s c cs m (Q : unit -> scanner -> Prop) :
  scans s0 s (c :: cs) m ->
  (forall s' c' cs', scans s0 s' (c' :: cs') m -> Q tt s') -> wp skip_comment Q s.
Proof.
  intros Hs HQ. unfold skip_comment. do 3 sstep; [|sstep; by sdone HQ].
  eapply wp_skip_while; [apply _|done|exact Hs|]. eauto.
Qed.

Lemma wp_skip_line_break s0 s c cs m (Q : unit -> scanner -> Prop) :
  scans s0 s (c :: cs) m ->
  (forall s' cs', scans s0 s' cs' m -> Q tt s') -> wp skip_line_break Q s.
Proof. intros Hs HQ. unfold skip_line_break. repeat sstep; by sdone HQ. Qed.

Lemma wp_octet_head s0 s c cs m (Q : Z -> scanner -> Prop) :
  scans s0 s (c :: cs) m ->
  (forall b r, c = b :: r -> utf8_width b = zlen c -> Q b s) -> wp (octet_at 0) Q s.
Proof.
  intros Hs HQ. pose proof (scans_utf8 _ _ _ _ Hs) as Hcs.
  apply Forall_cons in Hcs as [(b & r & -> & Hw) _].
  eapply wp_octet_at; [exact Hs|reflexivity|]. by eapply HQ.
Qed.

Lemma wp_int_add a b (Q : Z -> scanner -> Prop) s :
  - 2 ^ 31 <= a + b <= INT_MAX -> Q (a + b) s -> wp (int_add a b) Q s.
Proof.
  intros H HQ. unfold int_add. by rewrite !(proj2 (Z.leb_le _ _)) by lia.
Qed.

Lemma wp_allow b s0 s cs m (Q : unit -> scanner -> Prop) :
  scans s0 s cs m ->
  (forall s', scans s0 s' cs m -> sc_mark s' = sc_mark s -> Q tt s') ->
  wp (update (set_simple_key_allowed b)) Q s.
Proof. intros Hs HQ. apply mwp_update, HQ; [by apply scans_allowed|done]. Qed.
End white_space.

Ltac loop_step Hs :=
  lazymatch goal with
  | |- mwp _ (skip_while _) _ _ =>
      eapply wp_skip_while;
      [apply _|nul_test|exact Hs|];
      let s := fresh "s" in let c := fresh "c" in let cs := fresh "cs" in
      let Hs' := fresh "Hs" in let Hc := fresh "Hc" in intros s c cs Hs' Hc; clear Hs;
      to_Hs Hs'
  | |- mwp _ (read_while _ _ _) _ _ =>
      eapply wp_read_while;
      [apply _|nul_test|exact Hs|eassumption|];
      let str := fresh "str" in let Hok := fresh "Hok" in
      let s := fresh "s" in let c := fresh "c" in let cs := fresh "cs" in
      let Hs' := fresh "Hs" in let Hc := fresh "Hc" in
      intros str s c cs Hok Hs' Hc; clear Hs;
      to_Hs Hs'
  | |- mwp _ skip_comment _ _ =>
      eapply wp_skip_comment; [exact Hs|];
      let s := fresh "s" in let c := fresh "c" in let cs := fresh "cs" in
      let Hs' := fresh "Hs" in intros s c cs Hs'; clear Hs;
      to_Hs Hs'
  | |- mwp _ skip_line_break _ _ =>
      eapply wp_skip_line_break; [exact Hs|];
      let s := fresh "s" in let cs := fresh "cs" in
      let Hs' := fresh "Hs" in intros s cs Hs'; clear Hs;
      to_Hs Hs'
  | |- mwp _ (update (set_simple_key_allowed _)) _ _ =>
      eapply wp_allow; [exact Hs|];
      let s := fresh "s" in let Hs' := fresh "Hs" in let Hm := fresh "Hm" in
      intros s Hs' Hm; clear Hs;
      to_Hs Hs'
  | |- mwp _ (STRING_INIT _) _ _ =>
      eapply wp_STRING_INIT; [exact Hs|];
      let str := fresh "str" in let Hok := fresh "Hok" in let Hch := fresh "Hch" in
      let s := fresh "s" in let Hs' := fresh "Hs" in let Hm := fresh "Hm" in
      intros str s Hok (Hs' & _ & Hm) Hch; clear Hs;
      to_Hs Hs'
  | |- mwp _ (STRING_EXTEND _ _) _ _ =>
      eapply wp_STRING_EXTEND; [exact Hs|eassumption|];
      let str := fresh "str" in let Hok := fresh "Hok" in let Hr := fresh "Hroom" in
      let s := fresh "s" in let Hs' := fresh "Hs" in let Hm := fresh "Hm" in
      intros str s Hok Hr _ (Hs' & _ & Hm); clear Hs;
      to_Hs Hs'
  end.

Ltac srun :=
  repeat first
  [ sstep
  | lazymatch goal with Hs : scans _ ?s _ _ |- mwp _ _ _ ?s => loop_step Hs end;
    cbv beta iota ].

Section directives.
Context (alloc : nat -> bool).
Abbreviation wp := (mwp (scan_failure alloc)).

(** Behind white space and comments stands the next token. *)
Lemma wp_scan_to_next_token s0 s cs m (Q : unit -> scanner -> Prop) :
  scans s0 s cs m ->
  (forall s' c' cs', scans s0 s' (c' :: cs') m -> Q tt s') ->
  wp yaml_parser_scan_to_next_token Q s.
Proof.
  intros Hs HQ.
  eapply (scan_loop _ _ (fun _ _ _ _ => True) (fun _ _ cs _ => exists c cs', cs = c :: cs'));
    [exact Hs|done| |].
  - clear s cs Hs HQ. intros [] s cs _ Hs _ _. unfold skip_to_token_step.
    srun; sround; eauto.
  - intros [] s' cs' m' Hs' Hm (c' & cs1 & ->). by sdone HQ.
Qed.

Lemma wp_scan_directive_name start_mark s0 s cs m (Q : list Z -> scanner -> Prop) :
  scans s0 s cs m ->
  (forall mem s' c' cs', mem_ok mem -> scans s0 s' (c' :: cs') m -> Q mem s') ->
  wp (yaml_parser_scan_directive_name alloc start_mark) Q s.
Proof.
  intros Hs HQ. unfold yaml_parser_scan_directive_name. srun.
  eapply HQ; [by apply str_ok_mem|done].
Qed.

(** A number of at most nine digits. *)
Lemma wp_scan_version_directive_number start_mark s0 s cs m (Q : Z -> scanner -> Prop) :
  scans s0 s cs m ->
  (forall z s' c' cs', scans s0 s' (c' :: cs') m -> Q z s') ->
  wp (yaml_parser_scan_version_directive_number start_mark) Q s.
Proof.
  intros Hs HQ. unfold yaml_parser_scan_version_directive_number. srun.
  eapply (scan_loop _ _
    (fun '(value, length) _ cs _ => (exists c cs', cs = c :: cs')
       /\ 0 <= length <= 9 /\ 0 <= value < 10 ^ length)
    (fun _ _ cs _ => exists c cs', cs = c :: cs')); [exact Hs|by split_and!; eauto| |].
  - clear. intros [value length] s cs _ Hs _ ((c & cs' & ->) & Hl & Hv).
    do 4 sstep; [by sstep| |srun; sround; eauto].
    sstep. eapply wp_octet_head; [done|]. intros b r -> Hw.
    apply Z.ltb_ge in Hif. unfold MAX_NUMBER_LENGTH in Hif.
    assert (0 <= AS_DIGIT b <= 9) as Hd.
    { unfold AS_DIGIT. cbn in Hb. injection Hb as Hb. bool_facts. lia. }
    assert (10 ^ (length + 1) <= 10 ^ 9) as H9 by (apply Z.pow_le_mono_r; lia).
    rewrite Z.pow_add_r in H9 by lia.
    sstep. apply wp_int_add; [unfold INT_MAX in *; lia|]. srun.
    sround. split_and!; [done|by eauto|lia..|]. rewrite Z.pow_add_r; lia.
  - intros [value length] s' cs' m' Hs' Hm' (c' & cs1 & ->). srun. by sdone HQ.
Qed.

Lemma wp_scan_version_directive_value start_mark s0 s cs m (Q : Z * Z -> scanner -> Prop) :
  scans s0 s cs m ->
  (forall z s' c' cs', scans s0 s' (c' :: cs') m -> Q z s') ->
  wp (yaml_parser_scan_version_directive_value start_mark) Q s.
Proof.
  intros Hs HQ. unfold yaml_parser_scan_version_directive_value. srun.
  eapply wp_scan_version_directive_number; [exact Hs|]. clear Hs. intros major s3 c3 cs3 Hs.
  srun. eapply wp_scan_version_directive_number; [exact Hs|]. intros minor s5 c5 cs5 Hs5.
  srun. by sdone HQ.
Qed.
End directives.

Section tags.
Context (alloc : nat -> bool).
Abbreviation wp := (mwp (scan_failure alloc)).

Lemma wp_first_octet str (Q : Z -> scanner -> Prop) s :
  mem_ok (str_mem str) -> (forall c, Q c s) -> wp (first_octet str) Q s.
Proof.
  intros Hm HQ. destruct (mem_ok_head _ Hm) as [c Hc]. eapply mwp_known; [exact Hc|done].
Qed.

Lemma wp_scan_tag_handle directive start_mark s0 s cs m (Q : list Z -> scanner -> Prop) :
  scans s0 s cs m ->
  (forall mem s' cs', mem_ok mem -> scans s0 s' cs' true -> Q mem s') ->
  wp (yaml_parser_scan_tag_handle alloc directive start_mark) Q s.
Proof.
  intros Hs HQ. unfold yaml_parser_scan_tag_handle. srun.
  - eapply HQ; [by apply str_ok_mem|done].
  - pose proof (str_ok_mem _ Hok1) as Hmem. apply wp_first_octet; [done|]. intros c0'.
    destruct (mem_ok_second _ Hmem) as [c1' Hc1]. sstep. eapply mwp_known; [exact Hc1|].
    srun. by eapply HQ.
Qed.

Lemma ascii_width b : 0 <= b < 128 -> utf8_width b = 1.
Proof.
  intros Hb.
  assert (forallb (fun n => utf8_width (Z.of_nat n) =? 1) (seq 0 128) = true) as H by reflexivity.
  rewrite forallb_forall in H. specialize (H (Z.to_nat b)). rewrite Z2Nat.id in H by lia.
  apply Z.eqb_eq, H, in_seq. lia.
Qed.

Lemma hex_chars cs :
  IS_HEX_AT 0 (concat cs) = Some true -> Forall utf8_char cs ->
  exists h cs', cs = [h] :: cs' /\ h <> 0.
Proof.
  intros Ht Hcs. destruct cs as [|c cs]; [done|]. apply Forall_cons in Hcs as [Hc _].
  pose proof Hc as (b & r & -> & _). cbn in Ht.
  assert (48 <= b < 128).
  { repeat case_match; simplify_eq; bool_facts; lia. }
  assert (r = []) as -> by (apply (ascii_char b); [done|apply ascii_width; lia]).
  exists b, cs. split; [done|lia].
Qed.

(** %XX: three characters. *)
Lemma escape_chars cs :
  (CHECK (chr "%") &? IS_HEX_AT 1 &? IS_HEX_AT 2)%test (concat cs) = Some true ->
  Forall utf8_char cs -> exists h l cs', cs = [chr "%"] :: [h] :: [l] :: cs'
    /\ h <> 0 /\ l <> 0.
Proof.
  intros Ht Hcs. apply t_and_true in Ht as [H1 Ht]. apply t_and_true in Ht as [H2 H3].
  destruct (check_true _ _ H1 Hcs eq_refl) as [cs1 ->]. apply Forall_cons in Hcs as [_ Hcs].
  destruct (hex_chars cs1 H2 Hcs) as (h & cs2 & -> & Hh). apply Forall_cons in Hcs as [_ Hcs].
  destruct (hex_chars cs2 H3 Hcs) as (l & cs3 & -> & Hl). by exists h, l, cs3.
Qed.

Lemma looks_escape : looks 3 (CHECK (chr "%") &? IS_HEX_AT 1 &? IS_HEX_AT 2)%test.
Proof.
  apply looks_behind; [done..|]. looks_next (IS_HEX_AT 0 &? IS_HEX_AT 1)%test.
  intros cs Hcs He. unfold t_and.
  destruct (head_looks 2 (IS_HEX_AT 0) _ ltac:(lia) cs Hcs He) as [[|] H]; rewrite H; [|eauto].
  destruct (hex_chars cs H Hcs) as (h & cs' & -> & Hh). apply Forall_cons in Hcs as [_ Hcs].
  apply (head_looks 1 (IS_HEX_AT 0) _ ltac:(lia) cs' Hcs).
  eapply enough_tail in He; [done|congruence].
Qed.

(** What is left to write of an escaped character: its octets fit. *)
Definition escape_room (st : Z * yaml_string_t) : Prop :=
  let '(width, str) := st in
  Forall (fun c => c = 0) (str_rest str) /\ 16 <= zlen (str_mem str) /\ 0 <= width <= 3
  /\ (if width =? 0 then 6 else width + 1) <= zlen (str_rest str).

Lemma wp_uri_escape_step directive start_mark s0 s cs m st
    (Q : (Z * yaml_string_t) + yaml_string_t -> scanner -> Prop) :
  scans s0 s cs m -> escape_room st ->
  (forall width str s' cs', scans s0 s' cs' true -> escape_room (width, str) ->
     1 <= width <= (if fst st =? 0 then 3 else fst st - 1) -> Q (inl (width, str)) s') ->
  (forall str s' cs', scans s0 s' cs' true -> str_ok str -> Q (inr str) s') ->
  wp (uri_escape_step directive start_mark st) Q s.
Proof.
  destruct st as [width str]. intros Hs (Hz & Hm & Hw & Hr) Hl Hd. cbn [fst] in Hl.
  unfold uri_escape_step. do 3 sstep. clear Hm0.
  eapply wp_check_looks; [exact Hs|exact He|apply looks_escape|]. intros [|] Ht; [|by srun].
  destruct (escape_chars _ Ht (scans_utf8 _ _ _ _ Hs)) as (h & l & cs' & Heq & Hh & Hl0).
  rewrite Heq in Hs. clear Ht Heq He c cs0. rewrite negb_true.
  sstep. eapply wp_octet_at; [exact Hs|reflexivity|].
  sstep. eapply wp_octet_at; [exact Hs|reflexivity|]. sstep.
  remember (u8 _) as octet eqn:Ho. clear Ho.
  apply (mwp_mono _ _ (fun w s' => s' = s1 /\ 1 <= w <= if width =? 0 then 4 else width)).
  { pose proof (utf8_width_cases octet). srun; split; try done; bool_facts; lia. }
  intros w s' [-> Hw']. sstep.
  assert (w + 1 <= zlen (str_rest str) /\ w <= 4 /\ (width <> 0 -> w <= width)) as (Hr' & Hw4 & Hw5)
    by (destruct (Z.eqb_spec width 0); lia).
  apply put_is_puts, wp_str_puts; [done|change (zlen [octet]) with 1; lia|].
  change (zlen [octet]) with 1. intros str' Hch Hr2 Hz2 Hm2.
  do 6 sstep. sstep; sstep.
  - eapply Hd; [done|]. bool_facts. split; [lia|done|lia].
  - bool_facts. eapply Hl; [done|unfold escape_room..].
    + split_and!; [done|lia..|]. destruct (Z.eqb_spec (w - 1) 0); lia.
    + destruct (Z.eqb_spec width 0); lia.
Qed.

Lemma wp_scan_uri_escapes directive start_mark s0 s cs m str
    (Q : yaml_string_t -> scanner -> Prop) :
  scans s0 s cs m -> str_ok str -> 6 <= zlen (str_rest str) ->
  (forall str' s' cs', str_ok str' -> scans s0 s' cs' true -> Q str' s') ->
  wp (yaml_parser_scan_uri_escapes directive start_mark str) Q s.
Proof.
  intros Hs Hok Hr HQ. unfold yaml_parser_scan_uri_escapes.
  apply mwp_iter with
    (I := fun st s => escape_room st /\ (exists cs m, scans s0 s cs m))
    (mu := fun st _ => Z.to_nat (if fst st =? 0 then 3 else fst st - 1)).
  - destruct Hok. split; [|by exists cs, m]. split_and!; [done..|].
    simpl. lia.
  - simpl. lia.
  - intros st s1 [Hst (cs1 & m1 & Hs1)]. eapply wp_uri_escape_step; [done|done|..].
    + intros width str1 s2 cs2 Hs2 Hst2 Hw. split; [by eauto|]. cbn [fst].
      destruct (Z.eqb_spec width 0); [lia|]. destruct (Z.eqb_spec (fst st) 0); lia.
    + eauto.
Qed.

(** The string of a tag with room for the head. *)
Lemma wp_tag_string length s0 s cs m str (Q : yaml_string_t -> scanner -> Prop) :
  scans s0 s cs m -> str_ok str -> str_chars str = [] ->
  (forall str' s', str_ok str' -> str_chars str' = [] -> Z.of_nat length < zlen (str_mem str') ->
     scans s0 s' cs m -> Q str' s') ->
  wp (iter (S (S length)) (fun string =>
    if zlen (str_mem string) <=? Z.of_nat length
    then string ← yaml_string_extend alloc string; mret (inl string)
    else mret (inr string)) str) Q s.
Proof.
  intros Hs Hok Hch HQ.
  apply mwp_iter with
    (I := fun str s => str_ok str /\ str_chars str = [] /\ scans s0 s cs m)
    (mu := fun str _ => Z.to_nat (Z.of_nat length + 1 - zlen (str_mem str))); [done| |].
  - destruct Hok. lia.
  - intros str1 s1 ([Hr Hz Hm] & Hch1 & Hs1). sstep; [sstep|sstep; bool_facts; by apply HQ].
    eapply extend_spec; [exact Hs1|]. intros rest s2 (Hs2 & _) Hl Hz2. sstep. simpl.
    assert (zlen (str_mem (mk_string (str_chars str1) (str_rest str1 ++ rest)))
      = zlen (str_mem str1) + zlen (str_mem str1)) as Hlen.
    { unfold str_mem in *. simpl. rewrite Hch1 in *. simpl in *. rewrite zlen_app. lia. }
    bool_facts. rewrite Hlen. split_and!; [|done|done|lia].
    split; simpl; [rewrite zlen_app; pose proof (zlen_nonneg rest); lia|by apply Forall_app|lia].
Qed.

Lemma wp_scan_tag_uri uri_char directive head start_mark s0 s cs m
    (Q : list Z -> scanner -> Prop) :
  scans s0 s cs m -> match head with Some mem => mem_ok mem | None => True end ->
  (forall mem s' c' cs', mem_ok mem -> scans s0 s' (c' :: cs') m -> Q mem s') ->
  wp (yaml_parser_scan_tag_uri alloc uri_char directive head start_mark) Q s.
Proof.
  intros Hs Hh HQ. unfold yaml_parser_scan_tag_uri.
  assert (exists chars, match head with Some mem => c_str mem | None => Some [] end = Some chars)
    as [chars Hc].
  { destruct head as [mem|]; [|by exists []]. destruct Hh as (_ & chars & rest & ? & _). eauto. }
  sstep. eapply mwp_known; [exact Hc|]. srun.
  eapply wp_tag_string; [exact Hs|done..|]. clear Hs Hok Hch str. intros str s2 Hok Hch Hl Hs.
  sstep. apply (mwp_mono _ _ (fun str s' => str_ok str /\ s' = s2)).
  { sstep; [|by sstep]. bool_facts. destruct Hok as [Hr Hz Hm0].
    assert (zlen (zdrop 1 chars) = zlen chars - 1) as Hd.
    { rewrite zlen_zdrop; lia. }
    unfold str_mem in Hl. rewrite Hch in Hl. simpl in Hl.
    apply wp_str_puts; [done|unfold zlen in *; lia|]. intros str' H1 H2 H3 H4. split; [|done].
    split; [unfold zlen in *; lia|done|lia]. }
  clear Hok Hch Hl str. intros str s' [Hok ->]. do 2 sstep.
  sstep. eapply (scan_loop _ _
    (fun '(str, _) _ cs _ => str_ok str /\ exists c cs', cs = c :: cs')
    (fun '(str, _) _ cs _ => str_ok str /\ exists c cs', cs = c :: cs'));
    [exact Hs|by eauto| |].
  - clear. intros [str length] s cs m1 Hs _ (Hok & c & cs' & ->). do 4 sstep.
    + srun; [|sround; by eauto].
      eapply wp_scan_uri_escapes; [exact Hs|done|done|]. intros str1 s2 cs2 Hok1 Hs2.
      srun. sround. by eauto.
    + srun. sround. by eauto.
  - intros [str' length] s' cs' m' Hs' Hm' (Hok' & c' & cs1 & ->). srun.
    eapply HQ; [by apply str_ok_mem|]. by eapply scans_weaken.
Qed.

Lemma wp_scan_tag_directive_value start_mark s0 s cs m (Q : list Z * list Z -> scanner -> Prop) :
  scans s0 s cs m ->
  (forall handle prefix s' c' cs', mem_ok handle -> mem_ok prefix ->
     scans s0 s' (c' :: cs') true -> Q (handle, prefix) s') ->
  wp (yaml_parser_scan_tag_directive_value alloc start_mark) Q s.
Proof.
  intros Hs HQ. unfold yaml_parser_scan_tag_directive_value. srun.
  eapply wp_scan_tag_handle; [exact Hs|]. clear Hs. intros handle s3 cs3 Hh Hs. srun.
  eapply wp_scan_tag_uri; [exact Hs|done|]. intros prefix s6 c6 cs6 Hp Hs6. srun.
  by eapply HQ.
Qed.

Lemma mem_ok_str mem : mem_ok mem -> exists chars, c_str mem = Some chars.
Proof. intros (_ & chars & rest & ? & _). eauto. Qed.

Lemma wp_scan_directive s0 s c cs m (Q : yaml_token_t -> scanner -> Prop) :
  scans s0 s (c :: cs) m -> c <> [0] ->
  (forall token s' cs', scans s0 s' cs' true -> token_data token <> tok_stream_end ->
     Q token s') ->
  wp (yaml_parser_scan_directive alloc) Q s.
Proof.
  intros Hs Hc HQ. unfold yaml_parser_scan_directive. srun.
  eapply wp_scan_directive_name; [exact Hs|]. intros name s3 c3 cs3 Hn Hs3.
  destruct (mem_ok_str _ Hn) as [chars Hch]. sstep. eapply mwp_known; [exact Hch|]. sstep.
  apply (mwp_mono _ _ (fun token s' => token_data token <> tok_stream_end
    /\ exists c cs, scans s0 s' (c :: cs) true)).
  { do 1 sstep; [|sstep; [|by srun]].
    - sstep. eapply wp_scan_version_directive_value; [exact Hs3|].
      intros [major minor] s4 c4 cs4 Hs4. srun. split; [done|]. eauto.
    - sstep. eapply wp_scan_tag_directive_value; [exact Hs3|].
      intros handle prefix s4 c4 cs4 Hh Hp Hs4. srun.
      destruct (mem_ok_str _ Hh) as [h ?]. eapply mwp_known; [done|]. sstep.
      destruct (mem_ok_str _ Hp) as [p ?]. eapply mwp_known; [done|]. srun.
      split; [done|]. eauto. }
  intros token s4 (Htok & c4 & cs4 & Hs4). srun. by eapply HQ.
Qed.

Lemma wp_malloc_or_goto_error s0 s cs m (Q : unit -> scanner -> Prop) :
  scans s0 s cs m ->
  (forall s', scans s0 s' cs m -> sc_mark s' = sc_mark s -> Q tt s') ->
  wp (malloc_or_goto_error alloc) Q s.
Proof.
  intros Hs HQ. apply mwp_bind. eapply wp_malloc_scanner; [done|].
  intros [|] s' Hs' _ Hm Hr; [by apply HQ|]. apply mwp_fail. right. by apply Hr.
Qed.

Lemma wp_is_named_handle handle (Q : bool -> scanner -> Prop) s :
  mem_ok handle -> (forall b, Q b s) -> wp (is_named_handle handle) Q s.
Proof.
  intros Hh HQ. unfold is_named_handle. destruct (mem_ok_head _ Hh) as [c0 H0].
  sstep. eapply mwp_known; [exact H0|]. sstep; [|by sstep].
  destruct (mem_ok_second _ Hh) as [c1 H1]. sstep. eapply mwp_known; [exact H1|].
  sstep; [by sstep|]. destruct Hh as (_ & chars & rest & Hc & -> & _).
  sstep. eapply mwp_known; [exact Hc|].
  destruct (lookup_lt_is_Some_2 (chars ++ 0 :: rest) (length chars - 1)) as [c Hl].
  { rewrite length_app. simpl. lia. }
  sstep. eapply mwp_known; [exact Hl|]. by sstep.
Qed.

Lemma wp_scan_tag s0 s c cs m (Q : yaml_token_t -> scanner -> Prop) :
  scans s0 s (c :: cs) m -> CHECK (chr "!") c = Some true ->
  (forall token s' cs', scans s0 s' cs' true -> token_data token <> tok_stream_end ->
     Q token s') ->
  wp (yaml_parser_scan_tag alloc) Q s.
Proof.
  intros Hs Hc HQ. unfold yaml_parser_scan_tag. do 5 sstep.
  pose proof (scans_utf8 _ _ _ _ Hs) as Hcc. apply Forall_cons in Hcc as [Hcc _].
  apply check_char in Hc; [subst c|done|done]. apply enough_tail in He; [|done].
  destruct (enough_nonempty _ _ He ltac:(lia)) as (c3 & cs3 & ->).
  pose proof (scans_utf8 _ _ _ _ Hs) as Hcs. apply Forall_cons in Hcs as [_ Hcs].
  destruct (head_looks 1 (CHECK (chr "<")) _ ltac:(lia) _ Hcs He) as [b Hb].
  eapply wp_check; [exact Hs|exact Hb|]. sstep.
  apply (mwp_mono _ _ (fun '(h, sfx) s' => is_Some (c_str h) /\ is_Some (c_str sfx)
    /\ exists cs, scans s0 s' cs true)).
  { destruct b.
    - sstep. eapply wp_malloc_or_goto_error; [exact Hs|]. clear Hs. intros s2 Hs _.
      destruct (check_true (chr "<") _ Hb Hcs eq_refl) as [cs1 [= -> ->]].
      do 4 sstep. sstep. eapply wp_scan_tag_uri; [exact Hs|done|]. clear Hs.
      intros suffix s5 c5 cs5 Hsfx Hs. srun.
      destruct (mem_ok_str _ Hsfx) as [x ->]. split_and!; eauto.
    - sstep. eapply wp_scan_tag_handle; [exact Hs|]. clear Hs.
      intros handle s2 cs2 Hh Hs. sstep. apply wp_is_named_handle; [done|]. intros [|].
      + sstep. eapply wp_scan_tag_uri; [exact Hs|done|]. clear Hs.
        intros suffix s5 c5 cs5 Hsfx Hs. srun. split_and!; eauto.
        * destruct (mem_ok_str _ Hh) as [x ->]; eauto.
        * destruct (mem_ok_str _ Hsfx) as [x ->]; eauto.
      + sstep. eapply wp_scan_tag_uri; [exact Hs|done|]. clear Hs.
        intros suffix s5 c5 cs5 Hsfx Hs.
        sstep. eapply wp_malloc_or_goto_error; [exact Hs|]. clear Hs. intros s6 Hs _.
        destruct (mem_ok_head _ Hsfx) as [c0 H0]. sstep. eapply mwp_known; [exact H0|].
        destruct (mem_ok_str _ Hsfx) as [x Hx]. srun; rewrite Hx; split_and!; eauto. }
  intros [h sfx] s2 ([h' Hh] & [sfx' Hsfx] & cs2 & Hs2). clear Hs.
  do 6 sstep. sstep. apply (mwp_mono _ _ (fun _ s' => s' = s3)).
  { destruct b0; srun; done. }
  intros comma s' ->. srun. eapply mwp_known; [exact Hh|]. srun.
  eapply mwp_known; [exact Hsfx|]. srun. by eapply HQ.
Qed.

Lemma wp_scan_anchor anchor s0 s c cs m (Q : yaml_token_t -> scanner -> Prop) :
  scans s0 s (c :: cs) m -> c <> [0] ->
  (forall token s' cs', scans s0 s' cs' true -> token_data token <> tok_stream_end ->
     Q token s') ->
  wp (yaml_parser_scan_anchor alloc anchor) Q s.
Proof.
  intros Hs Hc HQ. unfold yaml_parser_scan_anchor. srun.
  eapply (scan_loop _ _
    (fun '(str, length) s cs _ => str_ok str /\ (exists c cs', cs = c :: cs')
       /\ 0 <= length <= mark_column (sc_mark s))
    (fun '(str, _) _ cs _ => str_ok str /\ exists c cs', cs = c :: cs'));
    [exact Hs| | |].
  - split_and!; [done|by eauto|done|]. apply (mo_column _ (sn_mark _ _ _ _ Hs)).
  - clear. intros [str length] s cs m1 Hs _ (Hok & (c & cs' & ->) & Hl). do 3 sstep.
    + sstep. eapply wp_READ; [exact Hs|nonnul|done|].
      clear Hok. intros str1 s1 Hok Hch Hs1 _ _ Hcol. clear Hs.
      pose proof (mo_index _ (sn_mark _ _ _ _ Hs1)). pose proof (mo_column _ (sn_mark _ _ _ _ Hs1)).
      srun. apply wp_int_add; [unfold POSITION_MAX, INT_MAX in *; lia|]. srun. sround.
      rewrite Hm, Hcol. split_and!; [done|done|by eauto|lia..].
    + srun. sround. by eauto.
  - intros [str' length] s' cs' m' Hs' Hm' (Hok' & c' & cs1 & ->). rewrite Hm' in Hs' by done.
    do 3 sstep. apply (mwp_mono _ _ (fun _ s9 => s9 = s')); [by srun|].
    intros ends s9 ->. srun. destruct (mem_ok_str _ (str_ok_mem _ Hok')) as [v Hv].
    eapply mwp_known; [exact Hv|]. srun.
    by eapply HQ; [|destruct anchor].
Qed.
End tags.
