(* ===== verification/YamlScalar.v ===== *)
(** * Scanning scalars ([scanner.c]: block, quoted and plain scalars)

    The local variables that a loop changes are its arguments; the strings of a quoted
    or plain scalar with [leading_blanks] are a record. *)
From Stdlib Require Import ZArith Lia.
From Stdlib Require Import Ascii.
From stdpp Require Import base list option numbers strings.
From S2P Require Import Prelude YamlTypes YamlReader YamlParser YamlLex YamlScan.

Section scalars.
Context (alloc : nat -> bool).

Abbreviation STRING_INIT := (STRING_INIT alloc).
Abbreviation STRING_EXTEND := (STRING_EXTEND alloc).
Abbreviation JOIN := (JOIN alloc).
Abbreviation READ := (READ alloc).
Abbreviation READ_LINE := (READ_LINE alloc).
Abbreviation read_while := (read_while alloc).
Abbreviation scan_error := yaml_parser_set_scanner_error.

(** ** Block scalars *)

(** The indentation of a line, up to [indent] columns when it is known. *)
Definition below_indent (indent : Z) : SM bool :=
  c ← column; mret ((indent =? 0) || (to_int c <? indent)).

Definition eat_indentation (indent : Z) : SM unit :=
  loop (fun _ : unit =>
    below ← below_indent indent;
    b ← check (t_true below &? IS_SPACE);
    if b : bool then _ ← SKIP; _ ← CACHE 1; mret (inl tt) else mret (inr tt)) tt.

(** The variables are [max_indent], [breaks] and [end_mark]. *)
Definition block_scalar_breaks_step (indent : Z) (start_mark : yaml_mark_t)
    (st : Z * yaml_string_t * yaml_mark_t)
    : SM ((Z * yaml_string_t * yaml_mark_t) + (Z * yaml_string_t * yaml_mark_t)) :=
  let '(max_indent, breaks, end_mark) := st in
  _ ← CACHE 1;
  _ ← eat_indentation indent;
  c ← column;
  let max_indent := if max_indent <? to_int c then to_int c else max_indent in
  below ← below_indent indent;
  tab ← check (t_true below &? IS_TAB);
  if tab : bool then
    scan_error (Some "while scanning a block scalar") start_mark
      "found a tab character where an indentation space is expected"
  else
    brk ← check IS_BREAK;
    if negb brk then mret (inr (max_indent, breaks, end_mark))
    else
      _ ← CACHE 2;
      breaks ← READ_LINE breaks;
      end_mark ← here;
      mret (inl (max_indent, breaks, end_mark)).

(** The indentation level, the breaks and [*end_mark]. *)
Definition yaml_parser_scan_block_scalar_breaks (indent : Z) (breaks : yaml_string_t)
    (start_mark : yaml_mark_t) : SM (Z * yaml_string_t * yaml_mark_t) :=
  end_mark ← here;
  '(max_indent, breaks, end_mark) ←
    loop (block_scalar_breaks_step indent start_mark) (0, breaks, end_mark);
  if negb (indent =? 0) then mret (indent, breaks, end_mark)
  else
    s ← get;
    least ← int_add (sc_indent s) 1;
    let indent := if max_indent <? least then least else max_indent in
    let indent := if indent <? 1 then 1 else indent in
    mret (indent, breaks, end_mark).

Definition no_zero_indent {A} (start_mark : yaml_mark_t) : SM A :=
  scan_error (Some "while scanning a block scalar") start_mark
    "found an indentation indicator equal to 0".

(** An indentation digit: the value of [increment]. *)
Definition indentation_digit (start_mark : yaml_mark_t) : SM Z :=
  zero ← check (CHECK (chr "0"));
  if zero : bool then no_zero_indent start_mark
  else
    c ← octet_at 0;
    _ ← SKIP;
    mret (AS_DIGIT c).

(** [+1] or [-1] for the indicators + and -. *)
Definition chomping_indicator : SM Z :=
  plus ← check (CHECK (chr "+"));
  _ ← SKIP;
  mret (if plus : bool then 1 else -1).

(** The header after the indicator: chomping and increment. *)
Definition block_scalar_header (start_mark : yaml_mark_t) : SM (Z * Z) :=
  chomp ← check (CHECK (chr "+") |? CHECK (chr "-"));
  if chomp : bool then
    chomping ← chomping_indicator;
    _ ← CACHE 1;
    digit ← check IS_DIGIT;
    increment ← (if digit : bool then indentation_digit start_mark else mret 0);
    mret (chomping, increment)
  else
    digit ← check IS_DIGIT;
    if digit : bool then
      increment ← indentation_digit start_mark;
      _ ← CACHE 1;
      chomp ← check (CHECK (chr "+") |? CHECK (chr "-"));
      chomping ← (if chomp : bool then chomping_indicator else mret 0);
      mret (chomping, increment)
    else mret (0, 0).

Record block_t := mk_block {
  bl_string : yaml_string_t;
  bl_leading_break : yaml_string_t;
  bl_trailing_breaks : yaml_string_t;
  bl_leading_blank : bool;
  bl_indent : Z;
  bl_end_mark : yaml_mark_t;
}.

(** The line break before a line: folded into a space, or kept. *)
Definition block_leading_break (literal trailing_blank : bool) (b : block_t)
    : SM (yaml_string_t * yaml_string_t) :=
  lb ← (if literal then mret 0 else first_octet (bl_leading_break b));
  if negb literal && (lb =? 10) && negb (bl_leading_blank b) && negb trailing_blank then
    tb ← first_octet (bl_trailing_breaks b);
    string ← (if tb =? 0 then
        string ← STRING_EXTEND (bl_string b); str_put (chr " ") string
      else mret (bl_string b));
    mret (string, CLEAR (bl_leading_break b))
  else
    '(string, leading_break) ← JOIN (bl_string b) (bl_leading_break b);
    mret (string, CLEAR leading_break).

(** One line of a block scalar. *)
Definition block_scalar_line (literal : bool) (start_mark : yaml_mark_t) (b : block_t)
    : SM (block_t + block_t) :=
  c ← column;
  more ← check (t_true (to_int c =? bl_indent b) &? t_not IS_Z);
  if negb more then mret (inr b)
  else
    trailing_blank ← check IS_BLANK;
    '(string, leading_break) ← block_leading_break literal trailing_blank b;
    '(string, trailing_breaks) ← JOIN string (bl_trailing_breaks b);
    let trailing_breaks := CLEAR trailing_breaks in
    leading_blank ← check IS_BLANK;
    string ← read_while (t_not IS_BREAKZ) string;
    _ ← CACHE 2;
    leading_break ← READ_LINE leading_break;
    '(indent, trailing_breaks, end_mark) ←
      yaml_parser_scan_block_scalar_breaks (bl_indent b) trailing_breaks start_mark;
    mret (inl (mk_block string leading_break trailing_breaks leading_blank indent end_mark)).

Definition yaml_parser_scan_block_scalar (literal : bool) : SM yaml_token_t :=
  string ← STRING_INIT;
  leading_break ← STRING_INIT;
  trailing_breaks ← STRING_INIT;
  start_mark ← here;
  _ ← SKIP;
  _ ← CACHE 1;
  '(chomping, increment) ← block_scalar_header start_mark;
  _ ← CACHE 1;
  _ ← skip_while IS_BLANK;
  _ ← skip_comment;
  ends ← check IS_BREAKZ;
  if negb ends then
    scan_error (Some "while scanning a block scalar") start_mark
      "did not find expected comment or line break"
  else
    _ ← skip_line_break;
    s ← get;
    indent ← (if increment =? 0 then mret 0
              else if 0 <=? sc_indent s then int_add (sc_indent s) increment
              else mret increment);
    '(indent, trailing_breaks, end_mark) ←
      yaml_parser_scan_block_scalar_breaks indent trailing_breaks start_mark;
    _ ← CACHE 1;
    b ← loop (block_scalar_line literal start_mark)
          (mk_block string leading_break trailing_breaks false indent end_mark);
    string ← (if negb (chomping =? -1)
              then '(string, _) ← JOIN (bl_string b) (bl_leading_break b); mret string
              else mret (bl_string b));
    string ← (if chomping =? 1
              then '(string, _) ← JOIN string (bl_trailing_breaks b); mret string
              else mret string);
    mret (mk_token (tok_scalar (str_chars string)
            (if literal then YAML_LITERAL_SCALAR_STYLE else YAML_FOLDED_SCALAR_STYLE))
            start_mark (bl_end_mark b)).

(** ** What quoted and plain scalars share *)

Record text_t := mk_text {
  tx_string : yaml_string_t;
  tx_leading_break : yaml_string_t;
  tx_trailing_breaks : yaml_string_t;
  tx_whitespaces : yaml_string_t;
  tx_leading_blanks : bool;
}.

Definition text_init : SM text_t :=
  string ← STRING_INIT;
  leading_break ← STRING_INIT;
  trailing_breaks ← STRING_INIT;
  whitespaces ← STRING_INIT;
  mret (mk_text string leading_break trailing_breaks whitespaces false).

Definition set_string (s : yaml_string_t) (t : text_t) : text_t :=
  mk_text s (tx_leading_break t) (tx_trailing_breaks t) (tx_whitespaces t)
    (tx_leading_blanks t).
Definition set_leading_blanks (b : bool) (t : text_t) : text_t :=
  mk_text (tx_string t) (tx_leading_break t) (tx_trailing_breaks t) (tx_whitespaces t) b.

(** --- or ... at the start of a line. *)
Definition document_indicator : SM bool :=
  c ← column;
  check (t_true (c =? 0)
    &? ((CHECK_AT (chr "-") 0 &? CHECK_AT (chr "-") 1 &? CHECK_AT (chr "-") 2)
         |? (CHECK_AT (chr ".") 0 &? CHECK_AT (chr ".") 1 &? CHECK_AT (chr ".") 2))
    &? IS_BLANKZ_AT 3).

(** Blanks and breaks between words; [tab_check] is run at every blank. *)
Definition scan_spaces_step (tab_check : bool -> SM unit) (t : text_t)
    : SM (text_t + text_t) :=
  space ← check (IS_BLANK |? IS_BREAK);
  if negb space then mret (inr t)
  else
    blank ← check IS_BLANK;
    t ← (if blank : bool then
        _ ← tab_check (tx_leading_blanks t);
        if negb (tx_leading_blanks t) then
          whitespaces ← READ (tx_whitespaces t);
          mret (mk_text (tx_string t) (tx_leading_break t) (tx_trailing_breaks t)
                  whitespaces (tx_leading_blanks t))
        else _ ← SKIP; mret t
      else
        _ ← CACHE 2;
        if negb (tx_leading_blanks t) then
          leading_break ← READ_LINE (tx_leading_break t);
          mret (mk_text (tx_string t) leading_break (tx_trailing_breaks t)
                  (CLEAR (tx_whitespaces t)) true)
        else
          trailing_breaks ← READ_LINE (tx_trailing_breaks t);
          mret (mk_text (tx_string t) (tx_leading_break t) trailing_breaks
                  (tx_whitespaces t) (tx_leading_blanks t)));
    _ ← CACHE 1;
    mret (inl t).

(** Line breaks between words are folded, white space is kept. *)
Definition join_spaces (t : text_t) : SM text_t :=
  if tx_leading_blanks t then
    lb ← first_octet (tx_leading_break t);
    if lb =? 10 then
      tb ← first_octet (tx_trailing_breaks t);
      if tb =? 0 then
        string ← STRING_EXTEND (tx_string t);
        string ← str_put (chr " ") string;
        mret (mk_text string (CLEAR (tx_leading_break t)) (tx_trailing_breaks t)
                (tx_whitespaces t) (tx_leading_blanks t))
      else
        '(string, trailing_breaks) ← JOIN (tx_string t) (tx_trailing_breaks t);
        mret (mk_text string (CLEAR (tx_leading_break t)) (CLEAR trailing_breaks)
                (tx_whitespaces t) (tx_leading_blanks t))
    else
      '(string, leading_break) ← JOIN (tx_string t) (tx_leading_break t);
      '(string, trailing_breaks) ← JOIN string (tx_trailing_breaks t);
      mret (mk_text string (CLEAR leading_break) (CLEAR trailing_breaks)
              (tx_whitespaces t) (tx_leading_blanks t))
  else
    '(string, whitespaces) ← JOIN (tx_string t) (tx_whitespaces t);
    mret (mk_text string (tx_leading_break t) (tx_trailing_breaks t) (CLEAR whitespaces)
            (tx_leading_blanks t)).

(** ** Quoted scalars *)

Inductive escape_t := EChars (octets : list Z) | ECode (code_length : nat) | EUnknown.

Definition escape_of (c : Z) : escape_t :=
  if c =? chr "0" then EChars [0]
  else if c =? chr "a" then EChars [7]
  else if c =? chr "b" then EChars [8]
  else if (c =? chr "t") || (c =? 9) then EChars [9]
  else if c =? chr "n" then EChars [10]
  else if c =? chr "v" then EChars [11]
  else if c =? chr "f" then EChars [12]
  else if c =? chr "r" then EChars [13]
  else if c =? chr "e" then EChars [27]
  else if c =? chr " " then EChars [32]
  else if c =? 34 then EChars [34]
  else if c =? chr "/" then EChars [47]
  else if c =? chr "\" then EChars [92]
  else if c =? chr "N" then EChars [194; 133]
  else if c =? chr "_" then EChars [194; 160]
  else if c =? chr "L" then EChars [226; 128; 168]
  else if c =? chr "P" then EChars [226; 128; 169]
  else if c =? chr "x" then ECode 2
  else if c =? chr "u" then ECode 4
  else if c =? chr "U" then ECode 8
  else EUnknown.

(** [n] hexadecimal digits from index [k] on. *)
Fixpoint read_hex (start_mark : yaml_mark_t) (n k : nat) (value : Z) : SM Z :=
  match n with
  | O => mret value
  | S n =>
      hex ← check (IS_HEX_AT k);
      if negb hex then
        scan_error (Some "while parsing a quoted scalar") start_mark
          "did not find expected hexdecimal number"
      else
        c ← octet_at k;
        read_hex start_mark n (S k) (u32 (Z.shiftl value 4 + AS_HEX c))
  end.

Fixpoint SKIP_times (n : nat) : SM unit :=
  match n with O => mret tt | S n => _ ← SKIP; SKIP_times n end.

Definition scan_code (start_mark : yaml_mark_t) (code_length : nat) (string : yaml_string_t)
    : SM yaml_string_t :=
  _ ← CACHE (Z.of_nat code_length);
  value ← read_hex start_mark code_length 0 0;
  if ((55296 <=? value) && (value <=? 57343)) || (1114111 <? value) then
    scan_error (Some "while parsing a quoted scalar") start_mark
      "found invalid Unicode character escape code"
  else
    string ← str_puts (utf8_encode value) string;
    _ ← SKIP_times code_length;
    mret string.

Definition scan_escape (start_mark : yaml_mark_t) (string : yaml_string_t)
    : SM yaml_string_t :=
  string ← STRING_EXTEND string;
  c ← octet_at 1;
  match escape_of c with
  | EUnknown =>
      scan_error (Some "while parsing a quoted scalar") start_mark
        "found unknown escape character"
  | EChars octets =>
      string ← str_puts octets string;
      _ ← SKIP; _ ← SKIP;
      mret string
  | ECode code_length =>
      _ ← SKIP; _ ← SKIP;
      scan_code start_mark code_length string
  end.

(** One character between the quotes; [inr] leaves the loop. *)
Definition quoted_char (single : bool) (start_mark : yaml_mark_t) (t : text_t)
    : SM (text_t + text_t) :=
  stop ← check IS_BLANKZ;
  if stop : bool then mret (inr t)
  else
  pair ← check (t_true single &? CHECK_AT (chr "'") 0 &? CHECK_AT (chr "'") 1);
  if pair : bool then
    string ← STRING_EXTEND (tx_string t);
    string ← str_put (chr "'") string;
    _ ← SKIP; _ ← SKIP;
    _ ← CACHE 2;
    mret (inl (set_string string t))
  else
  quote ← check (CHECK (if single then chr "'" else 34));
  if quote : bool then mret (inr t)
  else
  escaped_break ← check (t_true (negb single) &? CHECK (chr "\") &? IS_BREAK_AT 1);
  if escaped_break : bool then
    _ ← CACHE 3;
    _ ← SKIP;
    _ ← SKIP_LINE;
    mret (inr (set_leading_blanks true t))
  else
  escape ← check (t_true (negb single) &? CHECK (chr "\"));
  string ← (if escape : bool then scan_escape start_mark (tx_string t) else READ (tx_string t));
  _ ← CACHE 2;
  mret (inl (set_string string t)).

(** One round of the outer loop: a word and the space after it. *)
Definition flow_scalar_step (single : bool) (start_mark : yaml_mark_t) (t : text_t)
    : SM (text_t + text_t) :=
  _ ← CACHE 4;
  indicator ← document_indicator;
  if indicator : bool then
    scan_error (Some "while scanning a quoted scalar") start_mark
      "found unexpected document indicator"
  else
  z ← check IS_Z;
  if z : bool then
    scan_error (Some "while scanning a quoted scalar") start_mark
      "found unexpected end of stream"
  else
  _ ← CACHE 2;
  t ← loop (quoted_char single start_mark) (set_leading_blanks false t);
  _ ← CACHE 1;
  quote ← check (CHECK (if single then chr "'" else 34));
  if quote : bool then mret (inr t)
  else
    _ ← CACHE 1;
    t ← loop (scan_spaces_step (fun _ => mret tt)) t;
    t ← join_spaces t;
    mret (inl t).

Definition yaml_parser_scan_flow_scalar (single : bool) : SM yaml_token_t :=
  t ← text_init;
  start_mark ← here;
  _ ← SKIP;
  t ← loop (flow_scalar_step single start_mark) t;
  _ ← SKIP;
  end_mark ← here;
  mret (mk_token (tok_scalar (str_chars (tx_string t))
          (if single then YAML_SINGLE_QUOTED_SCALAR_STYLE
           else YAML_DOUBLE_QUOTED_SCALAR_STYLE)) start_mark end_mark).

(** ** Plain scalars *)

Definition plain_tab_check (start_mark : yaml_mark_t) (indent : Z) (leading_blanks : bool)
    : SM unit :=
  c ← column;
  bad ← check (t_true (leading_blanks && (to_int c <? indent)) &? IS_TAB);
  if bad : bool then
    scan_error (Some "while scanning a plain scalar") start_mark
      "found a tab character that violates indentation"
  else mret tt.

(** White space that turned out to be inside the scalar. *)
Definition plain_join (t : text_t) : SM text_t :=
  if tx_leading_blanks t || bool_decide (str_chars (tx_whitespaces t) <> [])
  then t ← join_spaces t; mret (set_leading_blanks false t)
  else mret t.

(** One character of a word; the variables are the strings and [end_mark]. *)
Definition plain_char (start_mark : yaml_mark_t) (st : text_t * yaml_mark_t)
    : SM ((text_t * yaml_mark_t) + (text_t * yaml_mark_t)) :=
  let '(t, end_mark) := st in
  stop ← check IS_BLANKZ;
  if stop : bool then mret (inr (t, end_mark))
  else
  flow ← in_flow;
  bad ← check (t_true flow &? CHECK (chr ":")
          &? CHECK_any [chr ","; chr "?"; chr "["; chr "]"; chr "{"; chr "}"] 1);
  if bad : bool then
    scan_error (Some "while scanning a plain scalar") start_mark "found unexpected ':'"
  else
  ends ← check ((CHECK (chr ":") &? IS_BLANKZ_AT 1)
           |? (t_true flow &? CHECK_any [chr ","; chr "["; chr "]"; chr "{"; chr "}"] 0));
  if ends : bool then mret (inr (t, end_mark))
  else
    t ← plain_join t;
    string ← READ (tx_string t);
    end_mark ← here;
    _ ← CACHE 2;
    mret (inl (set_string string t, end_mark)).

Definition plain_scalar_step (start_mark : yaml_mark_t) (indent : Z)
    (st : text_t * yaml_mark_t) : SM ((text_t * yaml_mark_t) + (text_t * yaml_mark_t)) :=
  let '(t, end_mark) := st in
  _ ← CACHE 4;
  indicator ← document_indicator;
  if indicator : bool then mret (inr (t, end_mark))
  else
  comment ← check (CHECK (chr "#"));
  if comment : bool then mret (inr (t, end_mark))
  else
  '(t, end_mark) ← loop (plain_char start_mark) (t, end_mark);
  space ← check (IS_BLANK |? IS_BREAK);
  if negb space then mret (inr (t, end_mark))
  else
    _ ← CACHE 1;
    t ← loop (scan_spaces_step (plain_tab_check start_mark indent)) t;
    flow ← in_flow;
    c ← column;
    if negb flow && (to_int c <? indent) then mret (inr (t, end_mark))
    else mret (inl (t, end_mark)).

Definition yaml_parser_scan_plain_scalar : SM yaml_token_t :=
  s ← get;
  indent ← int_add (sc_indent s) 1;
  t ← text_init;
  start_mark ← here;
  '(t, end_mark) ← loop (plain_scalar_step start_mark indent) (t, start_mark);
  _ ← (if tx_leading_blanks t then update (set_simple_key_allowed true) else mret tt);
  mret (mk_token (tok_scalar (str_chars (tx_string t)) YAML_PLAIN_SCALAR_STYLE)
          start_mark end_mark).
End scalars.
