(* ===== verification/YamlScalarProofs.v ===== *)
(** * Scanning scalars: safety and progress

    Block, quoted and plain scalars, with the rules of [YamlScanProofs]. *)
From Stdlib Require Import ZArith Lia.
From Stdlib Require Import Ascii.
From stdpp Require Import base list option numbers strings.
From S2P Require Import Prelude YamlTypes YamlReader YamlParser YamlLex YamlReaderProofs YamlLexProofs YamlScan YamlScanProofs YamlScalar.

(** ** Strings *)

Section strings.
Context (alloc : nat -> bool).
Abbreviation wp := (mwp (scan_failure alloc)).

(** Reading up to a character that does not pass: it is the first one, or some were read. *)
Lemma wp_read_up_to t `{!HeadTest t} s0 s c cs m str
    (Q : yaml_string_t -> scanner -> Prop) :
  t [0] = Some false -> scans s0 s (c :: cs) m -> str_ok str ->
  (forall str' s' c' cs' m', str_ok str' -> scans s0 s' (c' :: cs') m' ->
     (m = true -> m' = true) -> m' = true \/ c' = c -> t c' = Some false -> Q str' s') ->
  wp (read_while alloc t str) Q s.
Proof.
  intros H0 Hs Hok HQ.
  eapply (scan_loop _ _
    (fun str _ cs m => str_ok str /\ exists c' cs', cs = c' :: cs' /\ (m = true \/ c' = c))
    (fun str _ cs m => str_ok str /\ exists c' cs', cs = c' :: cs' /\ (m = true \/ c' = c)
       /\ t c' = Some false)); [exact Hs|by eauto 10| |].
  - clear s cs Hs HQ str Hok. intros str s cs m' Hs _ (Hok & c' & cs' & -> & Hc). do 3 sstep.
    + srun. sround. by eauto 10.
    + srun. sround. rewrite orb_false_r. by eauto 10.
  - intros str' s' cs' m' Hs' Hm (Hok' & c' & cs1 & -> & Hc & Ht). by eapply HQ.
Qed.

Lemma wp_read_line_none s0 s c cs m str (Q : yaml_string_t -> scanner -> Prop) :
  scans s0 s (c :: cs) m -> str_ok str -> IS_BREAK c = Some false ->
  (forall str' s', str_ok str' -> scans s0 s' (c :: cs) m -> Q str' s') ->
  wp (READ_LINE alloc str) Q s.
Proof.
  intros Hs Hok Hb HQ. unfold READ_LINE. srun.
  pose proof (scans_utf8 _ _ _ _ Hs) as Hcs. apply Forall_cons in Hcs as [Hc _].
  destruct (head_test (t := IS_BREAK) c (concat cs) Hc) as (b & H1 & Hall).
  rewrite Hb in H1. injection H1 as <-. unfold IS_BREAK, IS_BREAK_AT in Hall.
  apply t_or_false in Hall as [H13 Hall]. apply t_or_false in Hall as [H10 Hall].
  apply t_or_false in Hall as [Hnel Hall]. apply t_or_false in Hall as [Hls Hps].
  eapply (wp_check _ _ _ _ _ _ false); [exact Hs|cbn [concat]; unfold t_and; by rewrite H13|].
  sstep. eapply (wp_check _ _ _ _ _ _ false);
    [exact Hs|cbn [concat]; unfold t_or; by rewrite H13, H10|].
  sstep. eapply (wp_check _ _ _ _ _ _ false); [exact Hs|exact Hnel|].
  sstep. eapply (wp_check _ _ _ _ _ _ false); [exact Hs| |srun; by apply HQ].
  cbn [concat]. unfold t_and, t_or in *. simpl in Hls, Hps.
  repeat case_match; naive_solver.
Qed.

(** A line break, or nothing when there is none. *)
Lemma wp_read_line_if s0 s c cs m str (Q : yaml_string_t -> scanner -> Prop) :
  scans s0 s (c :: cs) m -> enough 2 (c :: cs) -> str_ok str ->
  (forall str' s' cs' m', str_ok str' -> scans s0 s' cs' m' -> (m = true -> m' = true) ->
     (IS_BREAK c = Some true -> m' = true) -> Q str' s') ->
  wp (READ_LINE alloc str) Q s.
Proof.
  intros Hs He Hok HQ. pose proof (scans_utf8 _ _ _ _ Hs) as Hcs.
  apply Forall_cons in Hcs as [Hc _]. destruct (head_test (t := IS_BREAK) c [] Hc) as ([|] & Hb & _).
  - eapply wp_read_line; eauto.
  - eapply wp_read_line_none; [done..|]. intros str' s' Hok' Hs'.
    eapply HQ; [done|exact Hs'|done|congruence].
Qed.

Lemma str_ok_size str : str_ok str -> 16 <= zlen (str_mem str).
Proof. by intros []. Qed.

Lemma wp_join s0 s cs m a b (Q : yaml_string_t * yaml_string_t -> scanner -> Prop) :
  scans s0 s cs m -> str_ok a -> str_ok b ->
  (forall a' b' s', str_ok a' -> str_ok (CLEAR b') -> scans s0 s' cs m ->
     sc_mark s' = sc_mark s -> Q (a', b') s') ->
  wp (JOIN alloc a b) Q s.
Proof.
  intros Hs Ha Hb HQ. eapply wp_JOIN; [done|done|by apply str_ok_size|].
  intros a' b' s' Ha' _ Hb' (Hs' & _ & Hm). apply HQ; [done|by apply clear_ok|done|done].
Qed.

Lemma wp_first s str (Q : Z -> scanner -> Prop) :
  str_ok str -> (forall c, Q c s) -> wp (first_octet str) Q s.
Proof. intros Hok. by apply wp_first_octet, str_ok_mem. Qed.

Lemma wp_put_room c s str (Q : yaml_string_t -> scanner -> Prop) :
  str_ok str -> 6 <= zlen (str_rest str) -> (forall str', str_ok str' -> Q str' s) ->
  wp (str_put c str) Q s.
Proof. intros H1 H2 HQ. apply wp_put1; auto. Qed.

Lemma clear_str str : str_ok str -> str_ok (CLEAR str).
Proof. intros []. by apply clear_ok. Qed.
End strings.

Create HintDb str_ok.
#[export] Hint Resolve str_ok_size clear_str : str_ok.

Ltac string_step Hs :=
  lazymatch goal with
  | |- mwp _ (JOIN _ _ _) _ _ =>
      eapply wp_join; [exact Hs|auto with str_ok|auto with str_ok|];
      let a := fresh "str" in let b := fresh "str" in let Ha := fresh "Hok" in
      let Hb := fresh "Hok" in let s := fresh "s" in let Hs' := fresh "Hs" in
      let Hm := fresh "Hm" in intros a b s Ha Hb Hs' Hm; clear Hs; to_Hs Hs'
  | |- mwp _ (first_octet _) _ _ => apply wp_first; [solve [auto with str_ok]|intros ?]
  | |- mwp _ (str_put _ _) _ _ =>
      apply wp_put_room; [eassumption|eassumption|];
      let str := fresh "str" in let Hok := fresh "Hok" in intros str Hok
  end.

Ltac tstep :=
  first
  [ sstep
  | lazymatch goal with
    | Hs : scans _ ?s _ _ |- mwp _ _ _ ?s => first [loop_step Hs | string_step Hs]
    end; cbv beta iota ].
Ltac trun := repeat tstep.

(** ** Block scalars *)

Section block.
Context (alloc : nat -> bool).
Abbreviation wp := (mwp (scan_failure alloc)).

Lemma wp_eat_indentation indent s0 s c cs m (Q : unit -> scanner -> Prop) :
  scans s0 s (c :: cs) m ->
  (forall s' c' cs', scans s0 s' (c' :: cs') m -> Q tt s') ->
  wp (eat_indentation indent) Q s.
Proof.
  intros Hs HQ. eapply (scan_loop _ _ (fun _ _ cs _ => exists c cs', cs = c :: cs')
    (fun _ _ cs _ => exists c cs', cs = c :: cs')); [exact Hs|by eauto| |].
  - clear. intros [] s cs _ Hs _ (c & cs' & ->). unfold below_indent. trun; sround; by eauto.
  - intros [] s' cs' m' Hs' Hm (c' & cs1 & ->). by sdone HQ.
Qed.

(** Columns are in range of [int]. *)
Lemma column_int s : mark_ok s -> to_int (mark_column (sc_mark s)) = mark_column (sc_mark s)
  /\ 0 <= mark_column (sc_mark s) <= POSITION_MAX.
Proof.
  intros [_ Hc Hi]. unfold POSITION_MAX, INT_MAX in *. split; [|lia].
  unfold to_int. rewrite wrap_small by (unfold fits; lia). unfold INT_MAX.
  destruct (Z.leb_spec (mark_column (sc_mark s)) (2 ^ 31 - 1)); lia.
Qed.

Lemma wp_scan_block_scalar_breaks indent breaks start_mark s0 s cs m
    (Q : Z * yaml_string_t * yaml_mark_t -> scanner -> Prop) :
  scans s0 s cs m -> str_ok breaks -> -1 <= sc_indent s0 <= POSITION_MAX -> 
  (forall indent' breaks' end_mark s' c' cs', scans s0 s' (c' :: cs') m -> str_ok breaks' ->
     Q (indent', breaks', end_mark) s') ->
  wp (yaml_parser_scan_block_scalar_breaks alloc indent breaks start_mark) Q s.
Proof.
  intros Hs Hok Hi HQ. unfold yaml_parser_scan_block_scalar_breaks. trun.
  eapply (scan_loop _ _ (fun '(_, breaks, _) _ _ _ => str_ok breaks)
    (fun '(_, breaks, _) _ cs _ => str_ok breaks /\ exists c cs', cs = c :: cs'));
    [exact Hs|done| |].
  - clear. intros [[max_indent breaks] end_mark] s cs m1 Hs _ Hok.
    unfold block_scalar_breaks_step, below_indent. trun.
    eapply wp_eat_indentation; [exact Hs|]. clear Hs. intros s2 c2 cs2 Hs. trun; sround; by eauto.
  - intros [[max_indent breaks'] end_mark] s' cs' m' Hs' Hm (Hok' & c' & cs1 & ->).
    assert (scans s0 s' (c' :: cs1) m) as Hs2 by (by eapply scans_weaken). clear Hs' Hs.
    trun; [|by eapply HQ]. apply wp_int_add; [|trun; by eapply HQ].
    rewrite (st_indent _ _ (sn_same _ _ _ _ Hs2)). unfold POSITION_MAX, INT_MAX in *. lia.
Qed.

Lemma wp_indentation_digit start_mark s0 s c cs m (Q : Z -> scanner -> Prop) :
  scans s0 s (c :: cs) m -> IS_DIGIT c = Some true ->
  (forall z s' cs', scans s0 s' cs' m -> 0 <= z <= 9 -> Q z s') ->
  wp (indentation_digit start_mark) Q s.
Proof.
  intros Hs Hd HQ. unfold indentation_digit, no_zero_indent. trun.
  eapply wp_octet_head; [exact Hs|]. intros d r -> Hw. trun. eapply HQ; [by eapply scans_weaken|].
  unfold AS_DIGIT. cbn in Hd. injection Hd as Hd. bool_facts. lia.
Qed.

Lemma wp_block_scalar_header start_mark s0 s c cs m (Q : Z * Z -> scanner -> Prop) :
  scans s0 s (c :: cs) m ->
  (forall chomping increment s' cs', scans s0 s' cs' m -> 0 <= increment <= 9 ->
     Q (chomping, increment) s') ->
  wp (block_scalar_header start_mark) Q s.
Proof.
  intros Hs HQ. unfold block_scalar_header, chomping_indicator. trun.
  - eapply wp_indentation_digit; [exact Hs|done|]. clear Hs. intros z s3 cs3 Hs Hz. trun.
    by sdone HQ.
  - sdone HQ. lia.
  - eapply wp_indentation_digit; [exact Hs|done|]. clear Hs. intros z s3 cs3 Hs Hz.
    trun; by sdone HQ.
  - sdone HQ. lia.
Qed.

Record block_ok (b : block_t) : Prop := mk_block_ok {
  bk_string : str_ok (bl_string b);
  bk_leading : str_ok (bl_leading_break b);
  bk_trailing : str_ok (bl_trailing_breaks b);
}.

Lemma wp_block_leading_break literal blank b s0 s cs m
    (Q : yaml_string_t * yaml_string_t -> scanner -> Prop) :
  scans s0 s cs m -> block_ok b ->
  (forall string leading_break s', str_ok string -> str_ok leading_break ->
     scans s0 s' cs m -> Q (string, leading_break) s') ->
  wp (block_leading_break alloc literal blank b) Q s.
Proof.
  intros Hs [] HQ. unfold block_leading_break. sstep.
  apply (mwp_mono _ _ (fun _ s' => s' = s)); [by destruct literal; trun|].
  intros lb s' ->. trun; apply HQ; auto with str_ok.
Qed.

(** A line that is read, with its break. *)
Lemma wp_block_scalar_line literal start_mark b s0 s c cs m
    (Q : block_t + block_t -> scanner -> Prop) :
  scans s0 s (c :: cs) m -> block_ok b -> -1 <= sc_indent s0 <= POSITION_MAX ->
  (forall b' s' c' cs', scans s0 s' (c' :: cs') true -> block_ok b' -> Q (inl b') s') ->
  (forall s', scans s0 s' (c :: cs) m -> Q (inr b) s') ->
  wp (block_scalar_line alloc literal start_mark b) Q s.
Proof.
  intros Hs Hok Hi Hl Hd. unfold block_scalar_line. do 5 sstep; [|sstep; by apply Hd].
  apply t_and_true in Hb as [_ Hz%t_not_true].
  do 3 sstep. eapply wp_block_leading_break; [exact Hs|done|]. clear Hs.
  intros string leading_break s2 Hok1 Hok2 Hs. destruct Hok. sstep. string_step Hs. do 3 sstep.
  eapply wp_read_up_to; [apply _|reflexivity|exact Hs|eassumption|]. clear Hs.
  intros str1 s4 c4 cs4 m' Hok4 Hs Hm' Hmv Hc4. do 3 sstep.
  eapply wp_read_line_if; [exact Hs|exact He|done|]. clear Hs.
  intros str2 s6 cs6 m6 Hok6 Hs Hm6 Hbr. sstep.
  assert (m6 = true) as ->.
  { destruct Hmv as [-> | ->]; [by apply Hm6|]. apply Hbr. apply t_not_false in Hc4.
    apply t_or_true in Hc4 as [? | ?]; [done | unfold IS_Z in Hz; congruence]. }
  eapply wp_scan_block_scalar_breaks; [exact Hs|auto with str_ok|done|]. clear Hs.
  intros indent' breaks' end_mark s7 c7 cs7 Hs Hok7. trun. eapply Hl; [exact Hs|]. by split.
Qed.

Lemma wp_scan_block_scalar literal s0 s c cs m (Q : yaml_token_t -> scanner -> Prop) :
  scans s0 s (c :: cs) m -> c <> [0] -> -1 <= sc_indent s0 <= POSITION_MAX ->
  (forall token s' cs', scans s0 s' cs' true -> token_data token <> tok_stream_end ->
     Q token s') ->
  wp (yaml_parser_scan_block_scalar alloc literal) Q s.
Proof.
  intros Hs Hc Hi HQ. unfold yaml_parser_scan_block_scalar. trun.
  eapply wp_block_scalar_header; [exact Hs|]. clear Hs.
  intros chomping increment s9 cs9 Hs Hinc. do 14 tstep.
  apply (mwp_mono _ _ (fun _ s' => s' = s10)).
  { trun; try done. rewrite (st_indent _ _ (sn_same _ _ _ _ Hs)).
    apply wp_int_add; [|done]. unfold POSITION_MAX, INT_MAX in *. lia. }
  intros indent s' ->. sstep.
  eapply wp_scan_block_scalar_breaks; [exact Hs|done|done|]. clear Hs.
  intros indent' breaks' end_mark s11 c8 cs8 Hs Hok8. trun.
  eapply (scan_loop _ _ (fun b _ cs _ => block_ok b /\ exists c cs', cs = c :: cs')
    (fun b _ cs _ => block_ok b)); [exact Hs|by split; [split|eauto]| |].
  - clear - Hi. intros b s9 cs9 m1 Hs9 Hsame [Hok' (c9 & cs9' & ->)].
    eapply wp_block_scalar_line; [exact Hs9|done| | |].
    + by rewrite (st_indent _ _ Hsame).
    + intros b' s' c' cs' Hs' Hb'. sround. by eauto.
    + intros s' Hs'. by sround.
  - intros b s' cs' m' Hs' Hm' []. rewrite Hm' in Hs' by done. sstep.
    apply (mwp_mono _ _ (fun str s' => str_ok str /\ exists cs, scans s0 s' cs true)).
    { clear Hs. trun; split; eauto. }
    clear Hs Hs'. intros string s1' [Hstr (cs1' & Hs)]. sstep.
    apply (mwp_mono _ _ (fun str s' => exists cs, scans s0 s' cs true)).
    { trun; eauto. }
    intros string' s2' (cs2' & Hs2). sstep. by eapply HQ.
Qed.
End block.

(** ** Tests of several characters *)

(** [t] behind one more octet is [u]. *)
Class Shift (t u : test) : Prop := shift_test : forall a l, t (a :: l) = u l.

#[export] Instance shift_check a k : Shift (CHECK_AT a (S k)) (CHECK_AT a k).
Proof. done. Qed.
#[export] Instance shift_hex k : Shift (IS_HEX_AT (S k)) (IS_HEX_AT k).
Proof. done. Qed.
#[export] Instance shift_blank k : Shift (IS_BLANK_AT (S k)) (IS_BLANK_AT k).
Proof. done. Qed.
#[export] Instance shift_break k : Shift (IS_BREAK_AT (S k)) (IS_BREAK_AT k).
Proof. done. Qed.
#[export] Instance shift_blankz k : Shift (IS_BLANKZ_AT (S k)) (IS_BLANKZ_AT k).
Proof. done. Qed.
#[export] Instance shift_true b : Shift (t_true b) (t_true b).
Proof. done. Qed.
#[export] Instance shift_any l k : Shift (CHECK_any l (S k)) (CHECK_any l k).
Proof. induction l as [|c l IH]; intros a r; [done|]. simpl. unfold t_or. by rewrite IH. Qed.
#[export] Instance shift_and t t' u u' : Shift t t' -> Shift u u' -> Shift (t_and t u) (t_and t' u').
Proof. intros H1 H2 a l. unfold t_and. by rewrite H1, H2. Qed.
#[export] Instance shift_or t t' u u' : Shift t t' -> Shift u u' -> Shift (t_or t u) (t_or t' u').
Proof. intros H1 H2 a l. unfold t_or. by rewrite H1, H2. Qed.
#[export] Instance shift_not t t' : Shift t t' -> Shift (t_not t) (t_not t').
Proof. intros H1 a l. unfold t_not. by rewrite H1. Qed.

Lemma looks_after n a t u :
  Shift t u -> utf8_width a = 1 -> a <> 0 -> 1 <= n -> looks (n - 1) u ->
  looks n (t_and (CHECK_AT a 0) t).
Proof.
  intros Hs Ha H0 Hn Hu. apply looks_behind; [done..|]. intros cs Hcs He. rewrite Hs. by apply Hu.
Qed.

#[export] Instance head_blankz_at : HeadTest (IS_BLANKZ_AT 0).
Proof. apply head_blankz. Qed.
#[export] Instance head_blank_at : HeadTest (IS_BLANK_AT 0).
Proof. apply head_blank. Qed.
#[export] Instance head_break_at : HeadTest (IS_BREAK_AT 0).
Proof. apply head_break. Qed.

(** By the shape of the test. *)
Ltac looks_tac :=
  lazymatch goal with
  | |- looks _ (t_and (t_true _) _) => apply looks_true; intros _; looks_tac
  | |- looks _ (t_and (t_or _ _) _) =>
      first [apply head_looks; [apply _|lia]|apply looks_dist; looks_tac]
  | |- looks _ (t_and (t_and _ _) _) => apply looks_assoc; looks_tac
  | |- looks _ (t_and _ _) =>
      first [apply head_looks; [apply _|lia]
            |eapply looks_after; [apply _|reflexivity|discriminate|lia|looks_tac]]
  | |- looks _ (t_or _ _) =>
      first [apply head_looks; [apply _|lia]|apply looks_or; looks_tac]
  | |- looks _ _ => apply head_looks; [apply _|lia]
  end.

Ltac check_step Hs ::=
  let b := fresh "b" in let Hb := fresh "Hb" in
  first
  [ eapply wp_check_head; [apply _|exact Hs|]; intros b Hb
  | eapply wp_check_looks; [exact Hs|eassumption|solve [looks_tac]|]; intros b Hb ].

Section flow.
Context (alloc : nat -> bool).
Abbreviation wp := (mwp (scan_failure alloc)).

Lemma wp_document_indicator s0 s cs m (Q : bool -> scanner -> Prop) :
  scans s0 s cs m -> enough 4 cs ->
  (forall b, (t_true (mark_column (sc_mark s) =? 0)
    &? ((CHECK_AT (chr "-") 0 &? CHECK_AT (chr "-") 1 &? CHECK_AT (chr "-") 2)
         |? (CHECK_AT (chr ".") 0 &? CHECK_AT (chr ".") 1 &? CHECK_AT (chr ".") 2))
    &? IS_BLANKZ_AT 3)%test (concat cs) = Some b -> Q b s) -> wp document_indicator Q s.
Proof.
  intros Hs He HQ. unfold document_indicator. sstep. sstep.
  eapply wp_check_looks; [exact Hs|exact He| |exact HQ]. looks_tac.
Qed.

(** ** Escapes *)

(** [n] hexadecimal digits. *)
Lemma wp_read_hex start_mark s0 s m (n : nat) : forall (k : nat) value hs cs Q,
  scans s0 s (hs ++ cs) m -> length hs = k -> Forall (fun c => exists h, c = [h] /\ h <> 0) hs ->
  enough (Z.of_nat n) cs ->
  (forall z hs' cs', scans s0 s (hs' ++ cs') m -> length hs' = (k + n)%nat ->
     Forall (fun c => exists h, c = [h] /\ h <> 0) hs' -> Q z s) ->
  wp (read_hex start_mark n k value) Q s.
Proof.
  induction n as [|n IH]; intros k value hs cs Q Hs Hk Hhs He HQ; simpl.
  { apply mwp_ret. eapply HQ; [exact Hs|lia|done]. }
  pose proof (scans_utf8 _ _ _ _ Hs) as Hcs. apply Forall_app in Hcs as [_ Hcs].
  assert (forall l, IS_HEX_AT k (concat hs ++ l) = IS_HEX_AT 0 l
    /\ (concat hs ++ l) !! k = l !! 0%nat) as Hk'.
  { subst k. clear -Hhs. induction Hhs as [|c hs (h & -> & _) _ IH]; intros l; [done|].
    cbn [concat length app]. destruct (IH l) as [IH1 IH2].
    rewrite (shift_test (t := IS_HEX_AT (S (length hs)))). by split. }
  destruct (head_looks 1 (IS_HEX_AT 0) _ ltac:(lia) cs Hcs) as [b Hb]; [eapply enough_le; [done|lia]|].
  sstep. eapply wp_check; [exact Hs|rewrite concat_app; by rewrite (proj1 (Hk' _))|].
  sstep; [|by sstep].
  destruct (hex_chars cs Hb Hcs) as (h & cs' & -> & Hh).
  sstep. eapply wp_octet_at; [exact Hs|rewrite concat_app, (proj2 (Hk' _)); reflexivity|].
  eapply (IH (S k) _ (hs ++ [[h]]) cs').
  - by rewrite <-app_assoc.
  - rewrite length_app. simpl. lia.
  - apply Forall_app. split; [done|]. repeat constructor. by exists h.
  - apply enough_tail in He; [|congruence]. by replace (Z.of_nat n) with (Z.of_nat (S n) - 1) by lia.
  - intros z hs' cs2 Hs' Hl Hf. eapply HQ; [exact Hs'|lia|done].
Qed.

Lemma wp_skip_times s0 hs : forall s cs m (Q : unit -> scanner -> Prop),
  scans s0 s (hs ++ cs) m -> Forall (fun c => exists h, c = [h] /\ h <> 0) hs ->
  (forall s', scans s0 s' cs m -> Q tt s') ->
  wp (SKIP_times (length hs)) Q s.
Proof.
  induction hs as [|c hs IH]; intros s cs m Q Hs Hhs HQ; simpl.
  { apply mwp_ret. by apply HQ. }
  apply Forall_cons in Hhs as [(h & -> & Hh) Hhs]. cbn [app] in Hs. do 2 sstep.
  eapply IH; [exact Hs|done|]. intros s' Hs'. apply HQ. by eapply scans_weaken.
Qed.

Lemma utf8_encode_length value : zlen (utf8_encode value) <= 4.
Proof. unfold utf8_encode. repeat case_match; done. Qed.

Lemma wp_scan_code start_mark (n : nat) s0 s cs m str (Q : yaml_string_t -> scanner -> Prop) :
  scans s0 s cs m -> (n <= 8)%nat -> str_ok str -> 6 <= zlen (str_rest str) ->
  (forall str' s' cs', str_ok str' -> scans s0 s' cs' m -> Q str' s') ->
  wp (scan_code start_mark n str) Q s.
Proof.
  intros Hs Hn Hok Hr HQ. unfold scan_code. sstep.
  eapply wp_cache; [exact Hs|lia|]. clear Hs. intros s1 more Hs He _. sstep.
  eapply (wp_read_hex _ _ _ _ _ 0 _ []); [exact Hs|done|done|done|].
  clear Hs He. intros value hs cs' Hs Hl Hhs. trun.
  eapply wp_put_extended; [done|done|pose proof (utf8_encode_length value); lia|].
  intros str' Hok' _. sstep. rewrite <-(Hl : _ = n). eapply wp_skip_times; [exact Hs|done|].
  intros s2 Hs2. trun. by eapply HQ.
Qed.

Lemma escape_of_nul : escape_of 0 = EUnknown.
Proof. done. Qed.

Lemma escape_of_bounds c :
  match escape_of c with
  | EChars octets => zlen octets <= 3
  | ECode n => (n <= 8)%nat
  | EUnknown => True
  end.
Proof. unfold escape_of. repeat case_match; simplify_eq; try done; lia. Qed.

Lemma wp_scan_escape start_mark s0 s c cs m str (Q : yaml_string_t -> scanner -> Prop) :
  scans s0 s (c :: cs) m -> enough 2 (c :: cs) -> CHECK (chr "\") c = Some true ->
  str_ok str ->
  (forall str' s' cs', str_ok str' -> scans s0 s' cs' true -> Q str' s') ->
  wp (scan_escape alloc start_mark str) Q s.
Proof.
  intros Hs He Hb Hok HQ. unfold scan_escape. do 2 tstep.
  pose proof (scans_utf8 _ _ _ _ Hs) as Hcs. apply Forall_cons in Hcs as [Hc Hcs].
  apply check_char in Hb; [subst c|done|done]. apply enough_tail in He; [|done].
  destruct (enough_nonempty _ _ He ltac:(lia)) as (c2 & cs2 & ->).
  apply Forall_cons in Hcs as [(b & r & -> & _) _].
  sstep. eapply wp_octet_at; [exact Hs|reflexivity|].
  assert (escape_of b <> EUnknown -> b :: r <> [0]) as Hnul by (intros Hne [= -> _]; by apply Hne).
  pose proof (escape_of_bounds b) as Hbd.
  destruct (escape_of b) as [octets|n|]; [..|by sstep]; specialize (Hnul ltac:(done)).
  - sstep. eapply wp_put_extended; [done|done|lia|]. intros str' Hok' _. trun. by eapply HQ.
  - trun. eapply wp_scan_code; [exact Hs|done|done|done|]. eauto.
Qed.

(** ** Quoted scalars *)

Record text_ok (t : text_t) : Prop := mk_text_ok {
  tk_string : str_ok (tx_string t);
  tk_leading : str_ok (tx_leading_break t);
  tk_trailing : str_ok (tx_trailing_breaks t);
  tk_white : str_ok (tx_whitespaces t);
}.

Lemma wp_text_init s0 s cs m (Q : text_t -> scanner -> Prop) :
  scans s0 s cs m ->
  (forall t s', text_ok t -> scans s0 s' cs m -> sc_mark s' = sc_mark s -> Q t s') ->
  wp (text_init alloc) Q s.
Proof.
  intros Hs HQ. unfold text_init. trun. apply HQ; [by split|done|congruence].
Qed.

(** The check of a blank does not move the scanner. *)
Definition keeps_still (check : bool -> SM unit) : Prop :=
  forall b s0 s c cs m, scans s0 s (c :: cs) m -> wp (check b) (fun _ s' => s' = s) s.

(** A blank or a break is read. *)
Lemma wp_scan_spaces_step tab_check t s0 s c cs m (Q : text_t + text_t -> scanner -> Prop) :
  keeps_still tab_check ->
  scans s0 s (c :: cs) m -> text_ok t ->
  (forall t' s' c' cs', text_ok t' -> scans s0 s' (c' :: cs') true -> Q (inl t') s') ->
  (scans s0 s (c :: cs) m -> (IS_BLANK |? IS_BREAK)%test c = Some false -> Q (inr t) s) ->
  wp (scan_spaces_step alloc tab_check t) Q s.
Proof.
  intros Htab Hs Hok Hl Hr. unfold scan_spaces_step. do 3 sstep; [|sstep; by apply Hr].
  do 2 sstep. sstep. destruct Hok.
  apply (mwp_mono _ _ (fun t s' => text_ok t /\ exists cs, scans s0 s' cs true)).
  { destruct b.
    - sstep. eapply mwp_mono; [by eapply Htab|]. intros [] s' ->. clear Hr.
      trun; split; try by eauto; by split.
    - assert (IS_BREAK c = Some true) by (by apply t_or_true in Hb as [? | ?]; [congruence|]).
      trun; split; try (by eauto); split; simpl; auto with str_ok. }
  intros t' s' (Hok' & cs' & Hs'). clear Hs. trun. by eapply Hl.
Qed.

Lemma wp_scan_spaces tab_check t s0 s c cs m (Q : text_t -> scanner -> Prop) :
  keeps_still tab_check ->
  scans s0 s (c :: cs) m -> text_ok t ->
  (forall t' s' c' cs' m', text_ok t' -> scans s0 s' (c' :: cs') m' ->
     (m = true -> m' = true) -> m' = true \/ c' = c ->
     (IS_BLANK |? IS_BREAK)%test c' = Some false -> Q t' s') ->
  wp (loop (scan_spaces_step alloc tab_check) t) Q s.
Proof.
  intros Htab Hs Hok HQ.
  eapply (scan_loop _ _
    (fun t _ cs m => text_ok t /\ exists c' cs', cs = c' :: cs' /\ (m = true \/ c' = c))
    (fun t _ cs m => text_ok t /\ exists c' cs', cs = c' :: cs' /\ (m = true \/ c' = c)
       /\ (IS_BLANK |? IS_BREAK)%test c' = Some false)); [exact Hs|by eauto 10| |].
  - clear s cs Hs HQ t Hok. intros t s cs m' Hs Hsame (Hok & c' & cs' & -> & Hc).
    eapply wp_scan_spaces_step; [|exact Hs|done| |].
    + done.
    + intros t' s' c1 cs1 Hok' Hs'. sround. by eauto 10.
    + intros Hs' Ht. sround. rewrite orb_false_r. by eauto 10.
  - intros t' s' cs' m' Hs' Hm (Hok' & c' & cs1 & -> & Hc & Ht). by eapply HQ.
Qed.

Lemma wp_join_spaces t s0 s cs m (Q : text_t -> scanner -> Prop) :
  scans s0 s cs m -> text_ok t ->
  (forall t' s', text_ok t' -> scans s0 s' cs m -> Q t' s') ->
  wp (join_spaces alloc t) Q s.
Proof.
  intros Hs [] HQ. unfold join_spaces. trun; apply HQ; try done; split; simpl; auto with str_ok.
Qed.

Lemma looks_pair n a : utf8_width a = 1 -> a <> 0 -> 2 <= n ->
  looks n (CHECK_AT a 0 &? CHECK_AT a 1)%test.
Proof.
  intros. eapply looks_after; [apply _|done..|lia|]. apply head_looks; [apply _|lia].
Qed.

(** A character between the quotes: it is read, or it is blank or the quote and the
    loop is left, or it is an escaped break. *)
Lemma wp_quoted_char (single : bool) start_mark t s0 s c cs m (Q : text_t + text_t -> scanner -> Prop) :
  scans s0 s (c :: cs) m -> enough 2 (c :: cs) -> text_ok t ->
  (forall t' s' cs', text_ok t' -> scans s0 s' cs' true -> enough 2 cs' -> Q (inl t') s') ->
  (forall t' s' cs' m', text_ok t' -> scans s0 s' cs' m' -> (m = true -> m' = true) ->
     m' = true \/ cs' = c :: cs /\ (IS_BLANKZ c = Some true
       \/ CHECK (if single then 39 else 34) c = Some true) ->
     Q (inr t') s') ->
  wp (quoted_char alloc single start_mark t) Q s.
Proof.
  intros Hs He Hok Hl Hr. unfold quoted_char. do 3 sstep; [sstep; eapply Hr; [done|exact Hs|done|by auto]|].
  pose proof (scans_utf8 _ _ _ _ Hs) as Hcs. do 2 sstep. sstep.
  { apply t_and_true in Hb0 as [_ Hp]. apply t_and_true in Hp as [Hp1 Hp2].
    destruct (check_true _ _ Hp1 Hcs eq_refl) as [cs1 [= -> ->]].
    apply Forall_cons in Hcs as [_ Hcs]. destruct (check_true 39 _ Hp2 Hcs eq_refl) as [cs2 ->].
    destruct Hok. trun. eapply Hl; [by split|done|done]. }
  do 3 sstep; [sstep; eapply Hr; [done|exact Hs|done|by auto]|].
  do 3 sstep.
  { apply t_and_true in Hb2 as [_ Hp]. apply t_and_true in Hp as [Hp1 Hp2].
    destruct (check_true _ _ Hp1 Hcs eq_refl) as [cs1 [= -> ->]].
    apply Forall_cons in Hcs as [_ Hcs]. apply enough_tail in He; [|done].
    destruct (enough_nonempty _ _ He ltac:(lia)) as (c2 & cs2 & ->).
    apply Forall_cons in Hcs as [Hc2 _]. apply (head_concat IS_BREAK) in Hp2; [|done].
    sstep. eapply wp_cache; [exact Hs|lia|]. clear Hs He. intros s1 more Hs He _.
    cbn [app] in Hs, He. apply enough_tail in He; [|done]. cbn in He. trun.
    eapply Hr; [by destruct Hok; split|exact Hs|done|by left]. }
  do 3 sstep. apply (mwp_mono _ _ (fun str s' => str_ok str /\ exists cs, scans s0 s' cs true)).
  { destruct Hok. sstep; [|by trun; eauto].
    eapply wp_scan_escape; [exact Hs|done| |done|by eauto].
    by apply t_and_true in Hb3 as [_ ?]. }
  clear Hs. intros str s' (Hstr & cs' & Hs). destruct Hok. trun. eapply Hl; [by split|done|done].
Qed.

Lemma wp_quoted_chars (single : bool) start_mark t s0 s c cs m (Q : text_t -> scanner -> Prop) :
  scans s0 s (c :: cs) m -> enough 2 (c :: cs) -> text_ok t ->
  (forall t' s' cs' m', text_ok t' -> scans s0 s' cs' m' -> (m = true -> m' = true) ->
     m' = true \/ cs' = c :: cs /\ (IS_BLANKZ c = Some true
       \/ CHECK (if single then 39 else 34) c = Some true) -> Q t' s') ->
  wp (loop (quoted_char alloc single start_mark) t) Q s.
Proof.
  intros Hs He Hok HQ. eapply (scan_loop _ _
    (fun t _ cs' m => text_ok t /\ enough 2 cs' /\ (m = true \/ cs' = c :: cs))
    (fun t _ cs' m => text_ok t /\ (m = true \/ cs' = c :: cs /\ (IS_BLANKZ c = Some true
       \/ CHECK (if single then 39 else 34) c = Some true)))); [exact Hs|by eauto 10| |].
  - clear s Hs HQ t Hok He. intros t s cs1 m' Hs Hsame (Hok & He & Hc).
    destruct (enough_nonempty _ _ He ltac:(lia)) as (c1 & cs2 & ->).
    eapply wp_quoted_char; [exact Hs|done|done| |].
    + intros t' s' cs' Hok' Hs' He'. sround. by eauto 10.
    + intros t' s' cs' k Hok' Hs' _ Hk. exists cs', k. split; [done|]. split; [done|].
      destruct Hk as [-> | [-> Hk]]; [left; apply orb_true_r|].
      destruct Hc as [-> | [= -> ->]]; [by left|by right].
  - intros t' s' cs' m' Hs' Hm [Hok' Hc]. by eapply HQ.
Qed.

(** A round of the outer loop: it reads something, or stands at the quote. *)
Lemma wp_flow_scalar_step (single : bool) start_mark t s0 s cs m
    (Q : text_t + text_t -> scanner -> Prop) :
  scans s0 s cs m -> text_ok t ->
  (forall t' s' cs', text_ok t' -> scans s0 s' cs' true -> Q (inl t') s') ->
  (forall t' s' c cs', text_ok t' -> scans s0 s' (c :: cs') m -> c <> [0] -> Q (inr t') s') ->
  wp (flow_scalar_step alloc single start_mark t) Q s.
Proof.
  intros Hs Hok Hl Hr. unfold flow_scalar_step. do 3 sstep.
  eapply wp_document_indicator; [exact Hs|done|]. intros b _. sstep; [by sstep|].
  do 3 sstep; [by sstep|]. do 2 sstep. sstep.
  eapply wp_quoted_chars; [exact Hs|eassumption|by destruct Hok; split|]. clear Hs.
  intros t1 s3 cs3 m3 Hok1 Hs Hm3 Hc3. sstep.
  eapply wp_cache; [exact Hs|lia|]. clear Hs. intros s4 more Hs He4 _.
  destruct (enough_nonempty _ _ He4 ltac:(lia)) as (c4 & cs4 & Heq). rewrite Heq in Hs.
  assert (m3 = true \/ c4 = c /\ (IS_BLANKZ c = Some true
    \/ CHECK (if single then 39 else 34) c = Some true)) as Hc4.
  { destruct Hc3 as [-> | [-> Hc3]]; [by left|right]. by injection Heq as -> _. }
  clear Heq Hc3 He4 more. do 3 sstep.
  { sstep. eapply Hr; [done|by eapply scans_weaken|destruct single; nonnul]. }
  do 2 sstep. sstep. eapply wp_scan_spaces; [by intros ?|exact Hs|done|]. clear Hs.
  intros t2 s6 c6 cs6 m6 Hok2 Hs Hm6 Hc6 Ht6. sstep.
  assert (m6 = true) as ->.
  { destruct Hc6 as [-> | ->]; [done|]. destruct Hc4 as [-> | (-> & [Hz | ?])];
      [by apply Hm6| |congruence].
    apply t_or_false in Ht6 as [H1 H2]. apply t_or_true in Hz as [Hz | Hz];
      [unfold IS_BLANK in H1; congruence|].
    apply t_or_true in Hz as [Hz | Hz]; [unfold IS_BREAK in H2|unfold IS_Z in Hb]; congruence. }
  eapply wp_join_spaces; [exact Hs|done|]. intros t3 s7 Hok3 Hs7. sstep. by eapply Hl.
Qed.

Lemma wp_scan_flow_scalar single s0 s c cs m (Q : yaml_token_t -> scanner -> Prop) :
  scans s0 s (c :: cs) m -> c <> [0] ->
  (forall token s' cs', scans s0 s' cs' true -> token_data token <> tok_stream_end ->
     Q token s') ->
  wp (yaml_parser_scan_flow_scalar alloc single) Q s.
Proof.
  intros Hs Hc HQ. unfold yaml_parser_scan_flow_scalar.
  sstep. eapply wp_text_init; [exact Hs|]. clear Hs. intros t s1 Hok Hs _. trun.
  eapply (scan_loop _ _ (fun t _ _ _ => text_ok t)
    (fun t _ cs _ => exists c cs', cs = c :: cs' /\ c <> [0])); [exact Hs|done| |].
  - clear. intros t s cs m1 Hs _ Hok. eapply wp_flow_scalar_step; [exact Hs|done| |].
    + intros t' s' cs' Hok' Hs'. sround. done.
    + intros t' s' c cs' Hok' Hs' Hc. sround. by eauto.
  - intros t' s' cs' m' Hs' Hm' (c' & cs1 & -> & Hc'). rewrite Hm' in Hs' by done. clear Hs.
    trun. by eapply HQ.
Qed.
End flow.

(** ** Plain scalars *)

Section plain.
Context (alloc : nat -> bool).
Abbreviation wp := (mwp (scan_failure alloc)).

Definition flow_of (s : scanner) : bool := negb (sc_flow_level s =? 0).

(** ':' before an indicator of the flow context. *)
Definition plain_bad (flow : bool) : test :=
  (t_true flow &? CHECK (chr ":")
   &? CHECK_any [chr ","; chr "?"; chr "["; chr "]"; chr "{"; chr "}"] 1)%test.

(** What ends a word, but for white space. *)
Definition plain_ends (flow : bool) : test :=
  ((CHECK (chr ":") &? IS_BLANKZ_AT 1)
   |? (t_true flow &? CHECK_any [chr ","; chr "["; chr "]"; chr "{"; chr "}"] 0))%test.

(** The character at the position is one of a plain scalar. *)
Definition plain_first (s : scanner) : Prop :=
  let l := rd_buffer (sc_reader s) in
  IS_BLANKZ l = Some false /\ plain_bad (flow_of s) l = Some false
  /\ plain_ends (flow_of s) l = Some false.

(** --- or ... at the start of a line. *)
Definition document_test (col : Z) : test :=
  (t_true (col =? 0)
    &? ((CHECK_AT (chr "-") 0 &? CHECK_AT (chr "-") 1 &? CHECK_AT (chr "-") 2)
         |? (CHECK_AT (chr ".") 0 &? CHECK_AT (chr ".") 1 &? CHECK_AT (chr ".") 2))
    &? IS_BLANKZ_AT 3)%test.

(** A plain scalar starts here. *)
Definition plain_starts (s : scanner) (cs : list (list Z)) : Prop :=
  let l := rd_buffer (sc_reader s) in
  enough 4 cs /\ plain_first s /\ CHECK (chr "#") l = Some false
  /\ document_test (mark_column (sc_mark s)) l = Some false.

Lemma scans_buffer s0 s cs m : scans s0 s cs m -> rd_buffer (sc_reader s) = concat cs.
Proof. intros Hs. exact (buffered_buffer _ _ (sn_chars _ _ _ _ Hs)). Qed.

Lemma plain_starts_still s0 s s' cs m m' :
  scans s0 s cs m -> scans s0 s' cs m' -> sc_mark s' = sc_mark s -> plain_starts s cs ->
  plain_starts s' cs.
Proof.
  intros Hs Hs' Hm. unfold plain_starts, plain_first, flow_of.
  rewrite (scans_buffer _ _ _ _ Hs), (scans_buffer _ _ _ _ Hs'), Hm.
  by rewrite (st_flow _ _ (sn_same _ _ _ _ Hs)), (st_flow _ _ (sn_same _ _ _ _ Hs')).
Qed.

Lemma plain_tab_check_still start_mark indent : 
  keeps_still alloc (plain_tab_check start_mark indent).
Proof. intros b s0 s c cs m Hs. unfold plain_tab_check. by trun. Qed.

Lemma wp_plain_join t s0 s cs m (Q : text_t -> scanner -> Prop) :
  scans s0 s cs m -> text_ok t ->
  (forall t' s', text_ok t' -> scans s0 s' cs m -> Q t' s') ->
  wp (plain_join alloc t) Q s.
Proof.
  intros Hs Hok HQ. unfold plain_join. sstep; [|sstep; by apply HQ].
  sstep. eapply wp_join_spaces; [exact Hs|done|]. intros t' s' [] Hs'. sstep.
  apply HQ; [by split|done].
Qed.

Lemma wp_plain_char start_mark t end_mark s0 s cs m
    (Q : (text_t * yaml_mark_t) + (text_t * yaml_mark_t) -> scanner -> Prop) :
  scans s0 s cs m -> enough 2 cs -> text_ok t ->
  (forall t' em s' cs', text_ok t' -> scans s0 s' cs' true -> enough 2 cs' -> Q (inl (t', em)) s') ->
  (~ plain_first s -> Q (inr (t, end_mark)) s) ->
  wp (plain_char alloc start_mark (t, end_mark)) Q s.
Proof.
  intros Hs He Hok Hl Hr. destruct (enough_nonempty _ _ He ltac:(lia)) as (c & cs' & ->).
  pose proof (scans_utf8 _ _ _ _ Hs) as Hcs. apply Forall_cons in Hcs as [Hc _].
  pose proof (scans_buffer _ _ _ _ Hs) as Hbuf.
  unfold plain_char. do 3 sstep.
  { sstep. apply Hr. intros [Hb1 _]. rewrite Hbuf in Hb1. apply head_concat in Hb1; [|apply _|done].
    congruence. }
  do 5 sstep; [by sstep|]. do 3 sstep.
  { sstep. apply Hr. intros (_ & _ & H3). rewrite Hbuf in H3. unfold plain_ends, flow_of in H3.
    congruence. }
  sstep. eapply wp_plain_join; [exact Hs|done|]. clear Hs. intros t1 s1 [] Hs. trun.
  eapply Hl; [by split|done|done].
Qed.

(** A word: at the start of a scalar it has a character. *)
Lemma wp_plain_word start_mark t end_mark s0 s cs m
    (Q : text_t * yaml_mark_t -> scanner -> Prop) :
  scans s0 s cs m -> enough 2 cs -> text_ok t ->
  (forall t' em s' cs' m', text_ok t' -> scans s0 s' cs' m' -> enough 2 cs' ->
     (m = true -> m' = true) -> (plain_first s -> m' = true) -> Q (t', em) s') ->
  wp (loop (plain_char alloc start_mark) (t, end_mark)) Q s.
Proof.
  intros Hs He Hok HQ. eapply (scan_loop _ _
    (fun '(t, _) s1 cs m => text_ok t /\ enough 2 cs /\ (m = true \/ s1 = s))
    (fun '(t, _) s1 cs m => text_ok t /\ enough 2 cs /\ (plain_first s -> m = true)));
    [exact Hs|by auto| |].
  - clear cs Hs HQ t Hok He end_mark. intros [t end_mark] s1 cs m' Hs Hsame (Hok & He & Hm).
    eapply wp_plain_char; [exact Hs|done|done| |].
    + intros t' em s' cs' Hok' Hs' He'. sround. by auto.
    + intros Hn. exists cs, false. rewrite orb_false_r. split_and!; try done.
      intros Hp. destruct Hm as [-> | ->]; [done|contradiction].
  - intros [t' em] s' cs' m' Hs' Hm (Hok' & He' & Hp). by eapply HQ.
Qed.

Lemma wp_plain_scalar_step start_mark indent t end_mark s0 s cs m
    (Q : (text_t * yaml_mark_t) + (text_t * yaml_mark_t) -> scanner -> Prop) :
  scans s0 s cs m -> text_ok t ->
  (forall t' em s' cs', text_ok t' -> scans s0 s' cs' true -> Q (inl (t', em)) s') ->
  (forall t' em s' cs' m', text_ok t' -> scans s0 s' cs' m' -> (m = true -> m' = true) ->
     (plain_starts s cs -> m' = true) -> Q (inr (t', em)) s') ->
  wp (plain_scalar_step alloc start_mark indent (t, end_mark)) Q s.
Proof.
  intros Hs Hok Hl Hr. unfold plain_scalar_step. sstep.
  eapply wp_CACHE; [exact Hs|lia|]. intros s1 more Hs1 He1 _ Hm1 Hid. sstep.
  assert (plain_starts s cs -> s1 = s) as Hst by (intros [He4 _]; auto).
  assert (rd_buffer (sc_reader s1) = concat (cs ++ more)) as Hbuf by (by eapply scans_buffer).
  clear Hs Hid. eapply wp_document_indicator; [exact Hs1|done|]. intros b Hb. rewrite <-Hbuf in Hb.
  sstep.
  { sstep. eapply Hr; [done|exact Hs1|done|]. intros Hp. specialize (Hst Hp) as ->.
    destruct Hp as (_ & _ & _ & Hd). unfold document_test in Hd. congruence. }
  destruct (enough_nonempty _ _ He1 ltac:(lia)) as (c & cs1 & Heq). rewrite Heq in *. clear Heq.
  pose proof (scans_utf8 _ _ _ _ Hs1) as Hcs. apply Forall_cons in Hcs as [Hc _].
  do 3 sstep.
  { sstep. eapply Hr; [done|exact Hs1|done|]. intros Hp. specialize (Hst Hp) as ->.
    destruct Hp as (_ & _ & Hh & _). rewrite Hbuf in Hh. apply head_concat in Hh; [|apply _|done].
    congruence. }
  sstep. eapply wp_plain_word; [exact Hs1|by eapply enough_le|done|]. clear Hs1.
  intros t2 em s2 cs2 m2 Hok2 Hs2 He2 Hm2 Hp2.
  assert (plain_starts s cs -> m2 = true) as Hpm.
  { intros Hp. specialize (Hst Hp) as ->. apply Hp2. apply Hp. }
  clear Hp2 Hst. destruct (enough_nonempty _ _ He2 ltac:(lia)) as (c2 & cs3 & ->).
  do 3 sstep; [|sstep; by eapply Hr].
  do 2 sstep. sstep. eapply wp_scan_spaces; [apply plain_tab_check_still|eassumption|done|].
  intros t3 s4 c4 cs4 m4 Hok4 Hs4 Hm4 Hc4 Ht4.
  assert (m4 = true) as -> by (destruct Hc4 as [-> | ->]; [done|congruence]).
  trun; [by eapply Hr|by eapply Hl].
Qed.

Lemma wp_scan_plain_scalar s0 s cs m (Q : yaml_token_t -> scanner -> Prop) :
  scans s0 s cs m -> plain_starts s cs -> -1 <= sc_indent s0 <= POSITION_MAX ->
  (forall token s' cs', scans s0 s' cs' true -> token_data token <> tok_stream_end ->
     Q token s') ->
  wp (yaml_parser_scan_plain_scalar alloc) Q s.
Proof.
  intros Hs Hp Hi HQ. unfold yaml_parser_scan_plain_scalar. do 3 sstep.
  rewrite (st_indent _ _ (sn_same _ _ _ _ Hs)).
  apply wp_int_add; [unfold POSITION_MAX, INT_MAX in *; lia|].
  sstep. eapply wp_text_init; [exact Hs|]. intros t s1 Hok Hs1 Hm1.
  eapply plain_starts_still in Hp; [|exact Hs|exact Hs1|done]. clear Hs.
  do 3 sstep. eapply (scan_loop _ _
    (fun '(t, _) s cs m => text_ok t /\ (m = true \/ plain_starts s cs))
    (fun '(t, _) s cs m => m = true)); [exact Hs1|by auto| |].
  - clear. intros [t end_mark] s cs m1 Hs _ (Hok & Hm).
    eapply wp_plain_scalar_step; [exact Hs|done| |].
    + intros t' em s' cs' Hok' Hs'. sround. auto.
    + intros t' em s' cs' k Hok' Hs' _ Hk. exists cs', k. split; [done|].
      destruct Hm as [-> | Hm]; [done|]. rewrite (Hk Hm). apply orb_true_r.
  - intros [t' em] s' cs' m' Hs' _ ->. clear Hs1. trun; by eapply HQ.
Qed.
End plain.
