(* ===== verification/YamlScanner.v ===== *)
(** * The scanner of libyaml: tokens ([scanner.c])

    The token queue, the stacks of indentation levels and of possible simple keys, and
    the fetch functions, which scan one token and keep these up to date. Index 0 of a
    stack is its top. *)
From Stdlib Require Import ZArith Lia.
From Stdlib Require Import Ascii.
From stdpp Require Import base list option numbers strings.
From S2P Require Import Prelude YamlTypes YamlReader YamlParser YamlLex YamlScan YamlScalar.

Section scanner.
Context (alloc : nat -> bool).

Abbreviation scan_error := yaml_parser_set_scanner_error.

(** ** Stacks and the queue *)

Definition sizeof_int : Z := 4.
Definition sizeof_simple_key : Z := 40.

(** [*(stack.top++) = value] *)
Definition push_item {A} (a : A) (st : stack A) : SM (stack A) :=
  if zlen (stk_items st) <? stk_cap st
  then mret (mk_stack (a :: stk_items st) (stk_cap st)) else undef.

(** [PUSH], with [yaml_stack_extend] when the stack is full. *)
Definition PUSH {A} (elem : Z) (st : stack A) (a : A) : SM (stack A) :=
  if negb (zlen (stk_items st) =? stk_cap st) then push_item a st
  else if INT_MAX / 2 <=? stk_cap st * elem then fail memory_error_set
  else
    b ← yaml_malloc_scanner alloc;
    _ ← granted b;
    push_item a (mk_stack (stk_items st) (stk_cap st * 2)).

(** [yaml_queue_extend]: a full block is doubled, otherwise the tokens move to its start. *)
Definition yaml_queue_extend (q : queue) : SM queue :=
  if (qu_head q =? 0) && (zlen (qu_items q) =? qu_cap q) then
    b ← yaml_malloc_scanner alloc;
    _ ← granted b;
    mret (mk_queue 0 (qu_items q) (qu_cap q * 2))
  else mret (mk_queue 0 (qu_items q) (qu_cap q)).

Definition queue_room : SM queue :=
  s ← get;
  let q := sc_tokens s in
  if negb (qu_head q + zlen (qu_items q) =? qu_cap q) then mret q else yaml_queue_extend q.

(** The tokens from [index] on move one place and make room for the new one. An index
    outside the queue is undefined, and so is writing behind the block. *)
Definition insert_token (q : queue) (index : Z) (token : yaml_token_t) : SM unit :=
  if (qu_head q + zlen (qu_items q) <? qu_cap q) && (0 <=? index)
     && (index <=? zlen (qu_items q)) then
    update (fun s => set_tokens
      (mk_queue (qu_head q)
        (ztake index (qu_items q) ++ [token] ++ zdrop index (qu_items q)) (qu_cap q))
      (sc_tokens_parsed s) s)
  else undef.

Definition ENQUEUE (token : yaml_token_t) : SM unit :=
  q ← queue_room; insert_token q (zlen (qu_items q)) token.

Definition QUEUE_INSERT (index : Z) (token : yaml_token_t) : SM unit :=
  q ← queue_room; insert_token q index token.

(** [*(parser->simple_keys.top - 1)] *)
Definition top_simple_key : SM yaml_simple_key_t :=
  s ← get; known (head (stk_items (sc_simple_keys s))).

Definition set_top_simple_key (k : yaml_simple_key_t) : SM unit :=
  s ← get;
  match stk_items (sc_simple_keys s) with
  | [] => undef
  | _ :: keys => update (set_simple_keys (mk_stack (k :: keys) (stk_cap (sc_simple_keys s))))
  end.

Definition no_longer_possible (k : yaml_simple_key_t) : yaml_simple_key_t :=
  mk_simple_key false (sk_required k) (sk_token_number k) (sk_mark k).

(** ** Simple keys *)

Definition missing_value {A} (k : yaml_simple_key_t) : SM A :=
  scan_error (Some "while scanning a simple key") (sk_mark k) "could not find expected ':'".

Definition is_stale (m : yaml_mark_t) (k : yaml_simple_key_t) : bool :=
  sk_possible k
  && ((mark_line (sk_mark k) <? mark_line m)
      || (u64 (mark_index (sk_mark k) + 1024) <? mark_index m)).

(** From the bottom of the stack; a required key that is stale stops the loop. *)
Fixpoint stale_keys (m : yaml_mark_t) (keys : list yaml_simple_key_t)
    : list yaml_simple_key_t * option yaml_simple_key_t :=
  match keys with
  | [] => ([], None)
  | k :: keys =>
      if is_stale m k then
        if sk_required k then (k :: keys, Some k)
        else let '(keys, e) := stale_keys m keys in (no_longer_possible k :: keys, e)
      else let '(keys, e) := stale_keys m keys in (k :: keys, e)
  end.

Definition yaml_parser_stale_simple_keys : SM unit :=
  s ← get;
  let '(keys, e) := stale_keys (sc_mark s) (rev (stk_items (sc_simple_keys s))) in
  _ ← update (set_simple_keys (mk_stack (rev keys) (stk_cap (sc_simple_keys s))));
  match e with
  | Some k => missing_value k
  | None => mret tt
  end.

Definition yaml_parser_remove_simple_key : SM unit :=
  k ← top_simple_key;
  if sk_possible k && sk_required k then missing_value k
  else set_top_simple_key (no_longer_possible k).

Definition yaml_parser_save_simple_key : SM unit :=
  s ← get;
  let required := (sc_flow_level s =? 0) && (sc_indent s =? mark_column (sc_mark s)) in
  if sc_simple_key_allowed s then
    let k := mk_simple_key true required
               (u64 (sc_tokens_parsed s + zlen (qu_items (sc_tokens s)))) (sc_mark s) in
    _ ← yaml_parser_remove_simple_key;
    set_top_simple_key k
  else mret tt.

Definition empty_simple_key : yaml_simple_key_t :=
  mk_simple_key false false 0 (mk_mark 0 0 0).

Definition push_simple_key : SM unit :=
  s ← get;
  st ← PUSH sizeof_simple_key (sc_simple_keys s) empty_simple_key;
  update (set_simple_keys st).

Definition yaml_parser_increase_flow_level : SM unit :=
  _ ← push_simple_key;
  s ← get;
  if sc_flow_level s =? INT_MAX then fail memory_error_set
  else update (set_flow_level (sc_flow_level s + 1)).

Definition yaml_parser_decrease_flow_level : SM unit :=
  s ← get;
  if negb (sc_flow_level s =? 0) then
    _ ← update (set_flow_level (sc_flow_level s - 1));
    match stk_items (sc_simple_keys s) with
    | [] => undef
    | _ :: keys => update (set_simple_keys (mk_stack keys (stk_cap (sc_simple_keys s))))
    end
  else mret tt.

(** ** Indentation *)

(** [number] is the number of the token the new one goes in front of, if any. *)
Definition yaml_parser_roll_indent (column : Z) (number : option Z) (data : yaml_token_data)
    (mark : yaml_mark_t) : SM unit :=
  s ← get;
  if negb (sc_flow_level s =? 0) then mret tt
  else if sc_indent s <? column then
    st ← PUSH sizeof_int (sc_indents s) (sc_indent s);
    _ ← update (set_indents st);
    if INT_MAX <? column then fail memory_error_set
    else
      _ ← update (set_indent column);
      let token := mk_token data mark mark in
      match number with
      | None => ENQUEUE token
      | Some number => QUEUE_INSERT (number - sc_tokens_parsed s) token
      end
  else mret tt.

Definition unroll_step (column : Z) (_ : unit) : SM (unit + unit) :=
  s ← get;
  if column <? sc_indent s then
    _ ← ENQUEUE (mk_token tok_block_end (sc_mark s) (sc_mark s));
    match stk_items (sc_indents s) with
    | [] => undef
    | indent :: rest =>
        _ ← update (set_indent indent);
        _ ← update (set_indents (mk_stack rest (stk_cap (sc_indents s))));
        mret (inl tt)
    end
  else mret (inr tt).

(** Every round but the last takes a level off the stack. *)
Definition yaml_parser_unroll_indent (column : Z) : SM unit :=
  s ← get;
  if negb (sc_flow_level s =? 0) then mret tt
  else iter (S (length (stk_items (sc_indents s)))) (unroll_step column) tt.

(** ** Fetching tokens *)

Definition yaml_parser_fetch_stream_start : SM unit :=
  _ ← update (set_indent (-1));
  _ ← push_simple_key;
  _ ← update (set_simple_key_allowed true);
  _ ← update set_stream_start_produced;
  s ← get;
  ENQUEUE (mk_token (tok_stream_start (rd_encoding (sc_reader s))) (sc_mark s) (sc_mark s)).

Definition yaml_parser_fetch_stream_end : SM unit :=
  c ← column;
  _ ← (if negb (c =? 0) then
         move_mark (fun m => mk_mark (mark_index m) (u64 (mark_line m + 1)) 0)
       else mret tt);
  _ ← yaml_parser_unroll_indent (-1);
  _ ← yaml_parser_remove_simple_key;
  _ ← update (set_simple_key_allowed false);
  m ← here;
  ENQUEUE (mk_token tok_stream_end m m).

Definition yaml_parser_fetch_directive : SM unit :=
  _ ← yaml_parser_unroll_indent (-1);
  _ ← yaml_parser_remove_simple_key;
  _ ← update (set_simple_key_allowed false);
  token ← yaml_parser_scan_directive alloc;
  ENQUEUE token.

Definition yaml_parser_fetch_document_indicator (data : yaml_token_data) : SM unit :=
  _ ← yaml_parser_unroll_indent (-1);
  _ ← yaml_parser_remove_simple_key;
  _ ← update (set_simple_key_allowed false);
  start_mark ← here;
  _ ← SKIP; _ ← SKIP; _ ← SKIP;
  end_mark ← here;
  ENQUEUE (mk_token data start_mark end_mark).

(** The current character is the token. *)
Definition fetch_indicator (data : yaml_token_data) : SM unit :=
  start_mark ← here;
  _ ← SKIP;
  end_mark ← here;
  ENQUEUE (mk_token data start_mark end_mark).

Definition yaml_parser_fetch_flow_collection_start (data : yaml_token_data) : SM unit :=
  _ ← yaml_parser_save_simple_key;
  _ ← yaml_parser_increase_flow_level;
  _ ← update (set_simple_key_allowed true);
  fetch_indicator data.

Definition yaml_parser_fetch_flow_collection_end (data : yaml_token_data) : SM unit :=
  _ ← yaml_parser_remove_simple_key;
  _ ← yaml_parser_decrease_flow_level;
  _ ← update (set_simple_key_allowed false);
  fetch_indicator data.

Definition yaml_parser_fetch_flow_entry : SM unit :=
  _ ← yaml_parser_remove_simple_key;
  _ ← update (set_simple_key_allowed true);
  fetch_indicator tok_flow_entry.

(** In the block context: a new entry may need a new level. *)
Definition block_context (data : yaml_token_data) (problem : string) : SM unit :=
  s ← get;
  if sc_flow_level s =? 0 then
    if negb (sc_simple_key_allowed s) then scan_error None (sc_mark s) problem
    else yaml_parser_roll_indent (mark_column (sc_mark s)) None data (sc_mark s)
  else mret tt.

Definition yaml_parser_fetch_block_entry : SM unit :=
  _ ← block_context tok_block_sequence_start
        "block sequence entries are not allowed in this context";
  _ ← yaml_parser_remove_simple_key;
  _ ← update (set_simple_key_allowed true);
  fetch_indicator tok_block_entry.

Definition allow_in_block : SM unit :=
  update (fun s => set_simple_key_allowed (sc_flow_level s =? 0) s).

Definition yaml_parser_fetch_key : SM unit :=
  _ ← block_context tok_block_mapping_start "mapping keys are not allowed in this context";
  _ ← yaml_parser_remove_simple_key;
  _ ← allow_in_block;
  fetch_indicator tok_key.

Definition yaml_parser_fetch_value : SM unit :=
  k ← top_simple_key;
  s ← get;
  _ ← (if sk_possible k then
         _ ← QUEUE_INSERT (sk_token_number k - sc_tokens_parsed s)
               (mk_token tok_key (sk_mark k) (sk_mark k));
         _ ← yaml_parser_roll_indent (mark_column (sk_mark k)) (Some (sk_token_number k))
               tok_block_mapping_start (sk_mark k);
         _ ← set_top_simple_key (no_longer_possible k);
         update (set_simple_key_allowed false)
       else
         _ ← block_context tok_block_mapping_start
               "mapping values are not allowed in this context";
         allow_in_block);
  fetch_indicator tok_value.

Definition yaml_parser_fetch_anchor (anchor : bool) : SM unit :=
  _ ← yaml_parser_save_simple_key;
  _ ← update (set_simple_key_allowed false);
  token ← yaml_parser_scan_anchor alloc anchor;
  ENQUEUE token.

Definition yaml_parser_fetch_tag : SM unit :=
  _ ← yaml_parser_save_simple_key;
  _ ← update (set_simple_key_allowed false);
  token ← yaml_parser_scan_tag alloc;
  ENQUEUE token.

Definition yaml_parser_fetch_block_scalar (literal : bool) : SM unit :=
  _ ← yaml_parser_remove_simple_key;
  _ ← update (set_simple_key_allowed true);
  token ← yaml_parser_scan_block_scalar alloc literal;
  ENQUEUE token.

Definition yaml_parser_fetch_flow_scalar (single : bool) : SM unit :=
  _ ← yaml_parser_save_simple_key;
  _ ← update (set_simple_key_allowed false);
  token ← yaml_parser_scan_flow_scalar alloc single;
  ENQUEUE token.

Definition yaml_parser_fetch_plain_scalar : SM unit :=
  _ ← yaml_parser_save_simple_key;
  _ ← update (set_simple_key_allowed false);
  token ← yaml_parser_scan_plain_scalar alloc;
  ENQUEUE token.

(** ** The dispatcher *)

(** [if (t) return ...] *)
Definition when {A} (t : test) (m : SM A) (otherwise : SM A) : SM A :=
  b ← check t; if b : bool then m else otherwise.

Definition indicator_at_line_start (c : Z) (col : Z) : test :=
  (t_true (col =? 0%Z) &? CHECK_AT c 0 &? CHECK_AT c 1 &? CHECK_AT c 2
   &? IS_BLANKZ_AT 3)%test.

(** The characters that cannot start a plain scalar without more ado. *)
Definition reserved : list Z :=
  [chr "-"; chr "?"; chr ":"; chr ","; chr "["; chr "]"; chr "{"; chr "}"; chr "#"; chr "&";
   chr "*"; chr "!"; chr "|"; chr ">"; chr "'"; 34; chr "%"; chr "@"; chr "`"].

Definition starts_plain (flow : bool) : test :=
  (t_not (IS_BLANKZ |? CHECK_any reserved 0)
   |? (CHECK (chr "-") &? t_not (IS_BLANK_AT 1))
   |? (t_true (negb flow) &? (CHECK (chr "?") |? CHECK (chr ":"))
        &? t_not (IS_BLANKZ_AT 1)))%test.

Definition fetch_token (col : Z) (flow : bool) : SM unit :=
  when IS_Z yaml_parser_fetch_stream_end (
  when (t_true (col =? 0) &? CHECK (chr "%")) yaml_parser_fetch_directive (
  when (indicator_at_line_start (chr "-") col)
    (yaml_parser_fetch_document_indicator tok_document_start) (
  when (indicator_at_line_start (chr ".") col)
    (yaml_parser_fetch_document_indicator tok_document_end) (
  when (CHECK (chr "[")) (yaml_parser_fetch_flow_collection_start tok_flow_sequence_start) (
  when (CHECK (chr "{")) (yaml_parser_fetch_flow_collection_start tok_flow_mapping_start) (
  when (CHECK (chr "]")) (yaml_parser_fetch_flow_collection_end tok_flow_sequence_end) (
  when (CHECK (chr "}")) (yaml_parser_fetch_flow_collection_end tok_flow_mapping_end) (
  when (CHECK (chr ",")) yaml_parser_fetch_flow_entry (
  when (CHECK (chr "-") &? IS_BLANKZ_AT 1) yaml_parser_fetch_block_entry (
  when (CHECK (chr "?") &? (t_true flow |? IS_BLANKZ_AT 1)) yaml_parser_fetch_key (
  when (CHECK (chr ":") &? (t_true flow |? IS_BLANKZ_AT 1)) yaml_parser_fetch_value (
  when (CHECK (chr "*")) (yaml_parser_fetch_anchor false) (
  when (CHECK (chr "&")) (yaml_parser_fetch_anchor true) (
  when (CHECK (chr "!")) yaml_parser_fetch_tag (
  when (CHECK (chr "|") &? t_true (negb flow)) (yaml_parser_fetch_block_scalar true) (
  when (CHECK (chr ">") &? t_true (negb flow)) (yaml_parser_fetch_block_scalar false) (
  when (CHECK (chr "'")) (yaml_parser_fetch_flow_scalar true) (
  when (CHECK 34) (yaml_parser_fetch_flow_scalar false) (
  when (starts_plain flow) yaml_parser_fetch_plain_scalar (
  m ← here;
  scan_error (Some "while scanning for the next token") m
    "found character that cannot start any token")))))))))))))))))))).

Definition yaml_parser_fetch_next_token : SM unit :=
  _ ← CACHE 1;
  s ← get;
  if negb (sc_stream_start_produced s) then yaml_parser_fetch_stream_start
  else
    _ ← yaml_parser_scan_to_next_token;
    _ ← yaml_parser_stale_simple_keys;
    c ← column;
    _ ← yaml_parser_unroll_indent c;
    _ ← CACHE 4;
    c ← column;
    flow ← in_flow;
    fetch_token c flow.

(** Whether a simple key may still start at the head of the queue. *)
Definition key_at_head (s : scanner) : bool :=
  existsb (fun k => sk_possible k && (sk_token_number k =? sc_tokens_parsed s))
    (stk_items (sc_simple_keys s)).

Definition fetch_more_step (_ : unit) : SM (unit + unit) :=
  s ← get;
  need_more_tokens ← (match qu_items (sc_tokens s) with
    | [] => mret true
    | _ =>
        _ ← yaml_parser_stale_simple_keys;
        s ← get;
        mret (key_at_head s)
    end);
  if negb need_more_tokens then mret (inr tt)
  else _ ← yaml_parser_fetch_next_token; mret (inl tt).

(** Every fetch consumes a character, but for those of STREAM-START and STREAM-END. *)
Definition yaml_parser_fetch_more_tokens : SM unit :=
  s ← get; iter (chars_left s + 4) fetch_more_step tt.

(** [DEQUEUE] with [tokens_parsed++], as [SKIP_TOKEN] of the parser does it. *)
Definition dequeue (s : scanner) : scanner :=
  let q := sc_tokens s in
  set_tokens (mk_queue (qu_head q + 1) (tail (qu_items q)) (qu_cap q))
    (u64 (sc_tokens_parsed s + 1)) s.
End scanner.

(** ** The scanner as the parser uses it *)

(** A scanner with the allocations it is granted. *)
Record running_scanner := mk_running { rs_alloc : nat -> bool; rs_scanner : scanner }.

#[export] Instance libyaml_scanner : Scanner running_scanner := {
  scan_fetch rs :=
    match yaml_parser_fetch_more_tokens (rs_alloc rs) (rs_scanner rs) with
    | Done (Ok _, s) => Done (None, mk_running (rs_alloc rs) s)
    | Done (Fail e, s) => Done (Some (failure_code e), mk_running (rs_alloc rs) s)
    | Undef => Undef
    end;
  scan_head rs := head (qu_items (sc_tokens (rs_scanner rs)));
  scan_advance rs := mk_running (rs_alloc rs) (dequeue (rs_scanner rs));
  scan_indents rs := zlen (stk_items (sc_indents (rs_scanner rs)));
  scan_flow_level rs := sc_flow_level (rs_scanner rs);
}.
