(* ===== verification/YamlScannerProofs.v ===== *)
(** * The scanner is one the event parser can use

    The invariant of the token queue, the indentation levels and the simple keys, that
    every fetch function preserves it, and that each call of
    [yaml_parser_fetch_more_tokens] ends: the laws of [YamlParser.ScannerLaws]. *)
From Stdlib Require Import ZArith Lia.
From Stdlib Require Import Ascii.
From stdpp Require Import base list option numbers strings.
From S2P Require Import Prelude YamlTypes YamlReader YamlParser YamlLex YamlReaderProofs YamlLexProofs YamlScan YamlScanProofs YamlScalar YamlScalarProofs YamlScanner.

(** ** The invariant *)

Record queue_ok (q : queue) : Prop := mk_queue_ok {
  qo_head : 0 <= qu_head q;
  qo_room : qu_head q + zlen (qu_items q) <= qu_cap q;
  qo_cap : 1 <= qu_cap q;
}.

Definition stack_ok {A} (st : stack A) : Prop :=
  zlen (stk_items st) <= stk_cap st /\ 1 <= stk_cap st.

(** A possible simple key starts at a token of the queue or the next one, and not
    behind the position of the scanner. *)
Definition key_ok (s : scanner) (k : yaml_simple_key_t) : Prop :=
  sk_possible k = true ->
  sc_tokens_parsed s <= sk_token_number k <= sc_tokens_parsed s + zlen (qu_items (sc_tokens s))
  /\ mark_le (sk_mark k) (sc_mark s)
  /\ 0 <= mark_column (sk_mark k) <= POSITION_MAX.

Definition key_behind (s : scanner) (k : yaml_simple_key_t) : Prop :=
  sk_possible k = true -> mark_lt (sk_mark k) (sc_mark s).

Record tokens_ok (s : scanner) : Prop := mk_tokens_ok {
  tk_started : sc_stream_start_produced s = true;
  tk_indents : Forall (fun i => -1 <= i <= POSITION_MAX) (sc_indent s :: stk_items (sc_indents s));
  tk_bottom : last (sc_indent s :: stk_items (sc_indents s)) = Some (-1);
  tk_indent_stack : stack_ok (sc_indents s);
  tk_levels : 0 <= sc_flow_level s <= INT_MAX
    /\ zlen (stk_items (sc_simple_keys s)) = sc_flow_level s + 1;
  tk_key_stack : stack_ok (sc_simple_keys s);
  tk_queue : queue_ok (sc_tokens s);
  tk_keys : Forall (key_ok s) (stk_items (sc_simple_keys s));
}.

Definition keys_behind (s : scanner) : Prop :=
  Forall (key_behind s) (stk_items (sc_simple_keys s)).

(** Tokens that are there, and those the levels will give. *)
Definition tokens_left (s : scanner) : nat :=
  (length (qu_items (sc_tokens s)) + length (stk_items (sc_indents s)))%nat.

(** The numbers of tokens do not wrap. *)
Definition TOKEN_MAX : Z := 2 ^ 40.

(** Only the tokens have changed: the scanner stands where it stood. *)
Record stays (s s' : scanner) : Prop := mk_stays {
  sy_reader : sc_reader s' = sc_reader s;
  sy_mark : sc_mark s' = sc_mark s;
  sy_parsed : sc_tokens_parsed s' = sc_tokens_parsed s;
}.

Lemma stays_refl s : stays s s.
Proof. done. Qed.

Lemma stays_trans s1 s2 s3 : stays s1 s2 -> stays s2 s3 -> stays s1 s3.
Proof. intros [] []. split; congruence. Qed.

(** A position in the text. *)
Definition stands (s : scanner) (cs : list (list Z)) : Prop :=
  buffered (sc_reader s) cs /\ mark_ok s.

Lemma stands_scans s cs : stands s cs -> scans s s cs false.
Proof. intros []. by apply scans_refl. Qed.

Lemma scans_stands s0 s cs m : scans s0 s cs m -> stands s cs.
Proof. by intros []. Qed.

Lemma stands_stays s s' cs : stands s cs -> stays s s' -> stands s' cs.
Proof.
  intros [Hb [Hl Hc Hi]] [Hr Hm _]. unfold stands, chars_left in *. rewrite Hr.
  split; [done|]. split; unfold chars_left; by rewrite ?Hm, ?Hr.
Qed.

Lemma stays_left s s' : stays s s' -> chars_left s' = chars_left s.
Proof. intros [Hr _ _]. unfold chars_left. by rewrite Hr. Qed.

Lemma same_tokens_ok s s' :
  tokens_ok s -> same_tokens s s' -> mark_le (sc_mark s) (sc_mark s') -> tokens_ok s'.
Proof.
  intros [] [] Hm. split; rewrite ?st_start, ?st_indent, ?st_indents, ?st_keys, ?st_flow,
    ?st_tokens; try done.
  eapply Forall_impl; [exact tk_keys0|]. intros k Hk Hp. destruct (Hk Hp) as (H1 & H2 & H3).
  rewrite st_parsed, st_tokens. split_and!; try tauto. unfold mark_le in *. lia.
Qed.

Lemma moved_keys_behind s s' :
  tokens_ok s -> same_tokens s s' -> mark_lt (sc_mark s) (sc_mark s') -> keys_behind s'.
Proof.
  intros [] [] Hm. unfold keys_behind. rewrite st_keys.
  eapply Forall_impl; [exact tk_keys0|]. intros k Hk Hp. destruct (Hk Hp) as (_ & H2 & _).
  unfold mark_le, mark_lt in *. lia.
Qed.

Section tokens.
Context (alloc : nat -> bool).
Abbreviation wp := (mwp (scan_failure alloc)).

(** ** The queue *)

(** Only the queue is another one, with [items]. *)
Record queued (s s' : scanner) (items : list yaml_token_t) : Prop := mk_queued {
  qd_stays : stays s s';
  qd_started : sc_stream_start_produced s' = sc_stream_start_produced s;
  qd_indent : sc_indent s' = sc_indent s;
  qd_indents : sc_indents s' = sc_indents s;
  qd_keys : sc_simple_keys s' = sc_simple_keys s;
  qd_flow : sc_flow_level s' = sc_flow_level s;
  qd_items : qu_items (sc_tokens s') = items;
  qd_ok : queue_ok (sc_tokens s');
}.

Lemma queued_ok s s' items :
  tokens_ok s -> queued s s' items -> zlen (qu_items (sc_tokens s)) <= zlen items ->
  tokens_ok s'.
Proof.
  intros [] [[] ?????? ?] Hl. split; rewrite ?qd_started0, ?qd_indent0, ?qd_indents0, ?qd_keys0,
    ?qd_flow0; try done.
  eapply Forall_impl; [exact tk_keys0|]. intros k Hk Hp. destruct (Hk Hp) as (H1 & H2 & H3).
  rewrite sy_parsed0, sy_mark0, qd_items0. split_and!; try tauto; lia.
Qed.

Lemma wp_yaml_queue_extend q s (Q : queue -> scanner -> Prop) :
  queue_ok q -> qu_head q + zlen (qu_items q) = qu_cap q ->
  (forall q' s', queue_ok q' -> qu_items q' = qu_items q ->
     qu_head q' + zlen (qu_items q') < qu_cap q' ->
     s' = s \/ s' = bump_scanner_allocs s -> Q q' s') ->
  wp (yaml_queue_extend alloc q) Q s.
Proof.
  intros [Hh Hr Hc] Hfull HQ. unfold yaml_queue_extend. sstep.
  - bool_facts. sstep. apply mwp_bind, mwp_get, mwp_bind, mwp_update, mwp_ret.
    apply mwp_bind, mwp_granted; [|eauto]. intros _. sstep.
    apply HQ; [split; simpl; lia|done|simpl; lia|by right].
  - sstep. pose proof (zlen_nonneg (qu_items q)).
    assert (0 < qu_head q).
    { apply andb_false_iff in Hif as [Hif|Hif]; apply Z.eqb_neq in Hif; lia. }
    apply HQ; [split; simpl; lia|done|simpl; lia|by left].
Qed.

Lemma wp_queue_room s (Q : queue -> scanner -> Prop) :
  queue_ok (sc_tokens s) ->
  (forall q' s', queue_ok q' -> qu_items q' = qu_items (sc_tokens s) ->
     qu_head q' + zlen (qu_items q') < qu_cap q' ->
     s' = s \/ s' = bump_scanner_allocs s -> Q q' s') ->
  wp (queue_room alloc) Q s.
Proof.
  intros Hq HQ. unfold queue_room. do 3 sstep.
  - apply wp_yaml_queue_extend; [done|by apply Z.eqb_eq|done].
  - sstep. apply Z.eqb_neq in Hif. destruct Hq. apply HQ; [done|done|lia|by left].
Qed.

Lemma wp_QUEUE_INSERT i t s (Q : unit -> scanner -> Prop) :
  queue_ok (sc_tokens s) -> 0 <= i <= zlen (qu_items (sc_tokens s)) ->
  (forall s', queued s s' (ztake i (qu_items (sc_tokens s)) ++ [t]
     ++ zdrop i (qu_items (sc_tokens s))) -> Q tt s') ->
  wp (QUEUE_INSERT alloc i t) Q s.
Proof.
  intros Hq Hi HQ. unfold QUEUE_INSERT. sstep. apply wp_queue_room; [done|].
  intros q' s' [Hh Hr Hc] Hit Hroom Hs'. unfold insert_token. rewrite Hit in *.
  rewrite (proj2 (Z.ltb_lt _ _)) by done.
  rewrite !(proj2 (Z.leb_le _ _)) by lia. apply mwp_update. apply HQ.
  assert (zlen (ztake i (qu_items (sc_tokens s)) ++ [t] ++ zdrop i (qu_items (sc_tokens s)))
    = zlen (qu_items (sc_tokens s)) + 1) as Hlen.
  { rewrite !zlen_app, zlen_ztake, zlen_zdrop by lia. change (zlen [t]) with 1. lia. }
  remember (ztake _ _ ++ _) as items.
  destruct Hs' as [-> | ->]; split; simpl; try done; split; simpl; rewrite ?Hlen; lia.
Qed.

Lemma wp_ENQUEUE t s (Q : unit -> scanner -> Prop) :
  queue_ok (sc_tokens s) ->
  (forall s', queued s s' (qu_items (sc_tokens s) ++ [t]) -> Q tt s') ->
  wp (ENQUEUE alloc t) Q s.
Proof.
  intros Hq HQ. unfold ENQUEUE. sstep. apply wp_queue_room; [done|].
  intros q' s' [Hh Hr Hc] Hit Hroom Hs'. unfold insert_token. rewrite Hit in *.
  pose proof (zlen_nonneg (qu_items (sc_tokens s))).
  rewrite (proj2 (Z.ltb_lt _ _)) by done. rewrite !(proj2 (Z.leb_le _ _)) by lia.
  apply mwp_update. apply HQ. rewrite ztake_all, zdrop_all by lia.
  assert (zlen (qu_items (sc_tokens s) ++ [t]) = zlen (qu_items (sc_tokens s)) + 1) as Hlen
    by (rewrite zlen_app; done).
  destruct Hs' as [-> | ->]; split; simpl; try done; split; simpl; rewrite ?Hlen; lia.
Qed.

(** ** Stacks *)

Lemma wp_PUSH {A} elem (st : stack A) a s (Q : stack A -> scanner -> Prop) :
  stack_ok st ->
  (forall st' s', stack_ok st' -> stk_items st' = a :: stk_items st ->
     s' = s \/ s' = bump_scanner_allocs s -> Q st' s') ->
  wp (PUSH alloc elem st a) Q s.
Proof.
  intros [Hl Hc] HQ. pose proof (zlen_nonneg (stk_items st)).
  assert (forall st1 s1, zlen (stk_items st1) < stk_cap st1 -> stk_items st1 = stk_items st ->
    s1 = s \/ s1 = bump_scanner_allocs s -> wp (push_item a st1) Q s1) as Hpush.
  { intros st1 s1 Hlt Hit Hs1. unfold push_item. rewrite (proj2 (Z.ltb_lt _ _)) by done.
    sstep. apply HQ; [|by rewrite Hit|done]. split; simpl; rewrite ?zlen_cons; rewrite Hit in *; lia. }
  unfold PUSH. sstep.
  - apply Z.eqb_eq in Hif. sstep; [by left|]. sstep.
    apply mwp_bind, mwp_get, mwp_bind, mwp_update, mwp_ret.
    apply mwp_bind, mwp_granted; [|eauto]. intros _. apply Hpush; [simpl; lia|done|by right].
  - apply Z.eqb_neq in Hif. apply Hpush; [lia|done|by left].
Qed.

(** ** Simple keys *)

(** Keys that became impossible; nothing else has changed. *)
Definition weaker_key (k k' : yaml_simple_key_t) : Prop :=
  k' = k \/ k' = no_longer_possible k.

Lemma weaker_keys (P : yaml_simple_key_t -> Prop) keys keys' :
  (forall k, P k -> P (no_longer_possible k)) ->
  Forall2 weaker_key keys keys' -> Forall P keys -> Forall P keys'.
Proof.
  intros Hn Hk. induction Hk as [|k k' keys keys' Hk _ IH]; [done|].
  intros [Hp HP]%Forall_cons. constructor; [|by apply IH]. destruct Hk as [-> | ->]; auto.
Qed.

(** The keys are [keys']; the rest of the state is the same. *)
Definition with_keys (s : scanner) (keys' : list yaml_simple_key_t) (s' : scanner) : Prop :=
  s' = set_simple_keys (mk_stack keys' (stk_cap (sc_simple_keys s))) s.

Lemma set_keys_ok s keys' :
  tokens_ok s -> zlen keys' = zlen (stk_items (sc_simple_keys s)) -> Forall (key_ok s) keys' ->
  tokens_ok (set_simple_keys (mk_stack keys' (stk_cap (sc_simple_keys s))) s).
Proof.
  intros [] Hl Hk. split; simpl; try done; [by rewrite Hl|].
  destruct tk_key_stack0. split; simpl; [by rewrite Hl|done].
Qed.

Lemma weaker_keys_ok s keys' :
  tokens_ok s -> Forall2 weaker_key (stk_items (sc_simple_keys s)) keys' ->
  tokens_ok (set_simple_keys (mk_stack keys' (stk_cap (sc_simple_keys s))) s).
Proof.
  intros Hs Hk. apply set_keys_ok; [done| |].
  - unfold zlen. by rewrite (Forall2_length _ _ _ Hk).
  - eapply weaker_keys; [|exact Hk|apply Hs]. by intros k _.
Qed.

Lemma weaker_keys_behind s keys' :
  keys_behind s -> Forall2 weaker_key (stk_items (sc_simple_keys s)) keys' ->
  keys_behind (set_simple_keys (mk_stack keys' (stk_cap (sc_simple_keys s))) s).
Proof. intros Hs Hk. eapply weaker_keys; [|exact Hk|exact Hs]. by intros k _. Qed.

Lemma stale_keys_spec m keys :
  let '(keys', e) := stale_keys m keys in
  e = None -> Forall2 weaker_key keys keys' /\ Forall (fun k => is_stale m k = false) keys'.
Proof.
  induction keys as [|k keys IH]; simpl; [by repeat constructor|].
  destruct (stale_keys m keys) as [keys' e].
  destruct (is_stale m k) eqn:Hst; [destruct (sk_required k); [done|]|];
    intros He; destruct (IH He); split; constructor; try done; [by right|by left].
Qed.

Lemma wp_stale_simple_keys s (Q : unit -> scanner -> Prop) :
  (forall keys', Forall2 weaker_key (stk_items (sc_simple_keys s)) keys' ->
     Forall (fun k => is_stale (sc_mark s) k = false) keys' ->
     Q tt (set_simple_keys (mk_stack keys' (stk_cap (sc_simple_keys s))) s)) ->
  wp yaml_parser_stale_simple_keys Q s.
Proof.
  intros HQ. unfold yaml_parser_stale_simple_keys. sstep. sstep.
  pose proof (stale_keys_spec (sc_mark s) (rev (stk_items (sc_simple_keys s)))) as Hst.
  destruct (stale_keys _ _) as [keys' [k|]].
  { apply mwp_bind, mwp_update. unfold missing_value. apply wp_error. }
  destruct (Hst eq_refl) as [H2 Hf]. apply mwp_bind, mwp_update. sstep. apply HQ.
  - apply Forall2_reverse in H2. unfold reverse in H2. rewrite <-!rev_alt, rev_involutive in H2.
    exact H2.
  - by apply Forall_rev.
Qed.

Lemma keys_top s :
  tokens_ok s -> exists k keys, stk_items (sc_simple_keys s) = k :: keys.
Proof.
  intros []. destruct (stk_items (sc_simple_keys s)); [|eauto].
  change (zlen []) with 0 in *. lia.
Qed.

Lemma wp_top_simple_key s k keys (Q : yaml_simple_key_t -> scanner -> Prop) :
  stk_items (sc_simple_keys s) = k :: keys -> Q k s -> wp top_simple_key Q s.
Proof.
  intros Hk HQ. unfold top_simple_key. do 2 sstep. eapply mwp_known; [|exact HQ]. by rewrite Hk.
Qed.

Lemma wp_set_top_simple_key s k k' keys (Q : unit -> scanner -> Prop) :
  stk_items (sc_simple_keys s) = k :: keys ->
  Q tt (set_simple_keys (mk_stack (k' :: keys) (stk_cap (sc_simple_keys s))) s) ->
  wp (set_top_simple_key k') Q s.
Proof.
  intros Hk HQ. unfold set_top_simple_key. do 2 sstep. rewrite Hk. by apply mwp_update.
Qed.

(** Only simple keys have changed. *)
Record rekeyed (s s' : scanner) : Prop := mk_rekeyed {
  rk_stays : stays s s';
  rk_ok : tokens_ok s';
  rk_tokens : sc_tokens s' = sc_tokens s;
  rk_indent : sc_indent s' = sc_indent s;
  rk_indents : sc_indents s' = sc_indents s;
  rk_flow : sc_flow_level s' = sc_flow_level s;
}.

Lemma rekeyed_left s s' : rekeyed s s' -> tokens_left s' = tokens_left s.
Proof. intros []. unfold tokens_left. by rewrite rk_tokens0, rk_indents0. Qed.

Lemma rekeyed_refl s : tokens_ok s -> rekeyed s s.
Proof. intros. by split; try apply stays_refl. Qed.

Lemma rekeyed_trans s1 s2 s3 : rekeyed s1 s2 -> rekeyed s2 s3 -> rekeyed s1 s3.
Proof. intros [] []. split; try congruence. by eapply stays_trans. Qed.

Lemma rekeyed_allowed b s : tokens_ok s -> rekeyed s (set_simple_key_allowed b s).
Proof. intros []. split; try done. Qed.

Lemma rekeyed_set s keys' :
  tokens_ok s -> zlen keys' = zlen (stk_items (sc_simple_keys s)) -> Forall (key_ok s) keys' ->
  rekeyed s (set_simple_keys (mk_stack keys' (stk_cap (sc_simple_keys s))) s).
Proof. intros. split; try done. by apply set_keys_ok. Qed.

Lemma wp_remove_simple_key s (Q : unit -> scanner -> Prop) :
  tokens_ok s ->
  (forall s', rekeyed s s' -> (keys_behind s -> keys_behind s') -> Q tt s') ->
  wp yaml_parser_remove_simple_key Q s.
Proof.
  intros Hs HQ. destruct (keys_top s Hs) as (k & keys & Hk).
  unfold yaml_parser_remove_simple_key. sstep. eapply wp_top_simple_key; [done|].
  sstep; [unfold missing_value; apply wp_error|]. eapply wp_set_top_simple_key; [done|].
  apply HQ.
  - apply rekeyed_set; [done|by rewrite Hk, !zlen_cons|]. pose proof (tk_keys s Hs) as Hf.
    rewrite Hk in Hf. apply Forall_cons in Hf as [_ Hf]. by constructor.
  - unfold keys_behind. simpl. rewrite Hk. intros [_ Hf]%Forall_cons. by constructor.
Qed.

Lemma wp_save_simple_key s cs (Q : unit -> scanner -> Prop) :
  tokens_ok s -> stands s cs -> 0 <= sc_tokens_parsed s ->
  sc_tokens_parsed s + zlen (qu_items (sc_tokens s)) <= TOKEN_MAX ->
  (forall s', rekeyed s s' -> Q tt s') ->
  wp yaml_parser_save_simple_key Q s.
Proof.
  intros Hs [_ Hm] Hp Hmax HQ. unfold yaml_parser_save_simple_key. do 2 sstep. sstep.
  - sstep. apply wp_remove_simple_key; [done|]. intros s1 Hs1 _.
    destruct (keys_top s1 (rk_ok _ _ Hs1)) as (k & keys & Hk).
    eapply wp_set_top_simple_key; [done|]. apply HQ. eapply rekeyed_trans; [exact Hs1|].
    destruct Hs1 as [[] Hok Htok _ _ _].
    apply rekeyed_set; [done|by rewrite Hk, !zlen_cons|].
    pose proof (tk_keys s1 Hok) as Hf. rewrite Hk in Hf. apply Forall_cons in Hf as [_ Hf].
    constructor; [|done]. intros _. simpl. rewrite sy_parsed0, Htok, sy_mark0.
    pose proof (zlen_nonneg (qu_items (sc_tokens s))).
    rewrite wrap_small by (unfold fits, TOKEN_MAX in *; lia).
    pose proof (mo_column s Hm). pose proof (mo_index s Hm).
    split_and!; [lia|lia|apply mark_le_refl|lia|lia].
  - sstep. by apply HQ, rekeyed_refl.
Qed.

Lemma wp_increase_flow_level s (Q : unit -> scanner -> Prop) :
  tokens_ok s ->
  (forall s', stays s s' -> tokens_ok s' -> tokens_left s' = tokens_left s -> Q tt s') ->
  wp (yaml_parser_increase_flow_level alloc) Q s.
Proof.
  intros Hs HQ. unfold yaml_parser_increase_flow_level, push_simple_key.
  destruct Hs. do 3 sstep. sstep. apply wp_PUSH; [done|]. intros st' s' Hst Hit Hs'.
  apply mwp_update. do 2 sstep. sstep; [by left|]. apply mwp_update, HQ.
  all: destruct Hs' as [-> | ->]; try done; split; simpl in *; try done.
  all: rewrite Hit, ?zlen_cons; try (apply Z.eqb_neq in Hif; lia); by constructor.
Qed.

Lemma wp_decrease_flow_level s (Q : unit -> scanner -> Prop) :
  tokens_ok s ->
  (forall s', stays s s' -> tokens_ok s' -> tokens_left s' = tokens_left s -> Q tt s') ->
  wp yaml_parser_decrease_flow_level Q s.
Proof.
  intros Hs HQ. unfold yaml_parser_decrease_flow_level. do 2 sstep. sstep; [sstep; by apply HQ|].
  apply Z.eqb_neq in Hif. destruct Hs. apply mwp_bind, mwp_update. simpl.
  destruct (stk_items (sc_simple_keys s)) as [|k keys] eqn:Hk.
  { change (zlen []) with 0 in *. lia. }
  rewrite zlen_cons in *. apply mwp_update, HQ; try done.
  apply Forall_cons in tk_keys0 as [_ Hf]. destruct tk_key_stack0 as [Hl Hc]. rewrite Hk in Hl.
  rewrite zlen_cons in Hl. split; try done; simpl; [lia|split; simpl; lia].
Qed.

(** One more token. *)
Lemma queued_one s s' items :
  tokens_ok s -> queued s s' items -> length items = S (length (qu_items (sc_tokens s))) ->
  tokens_ok s' /\ tokens_left s' = S (tokens_left s).
Proof.
  intros Hs Hq Hl. split.
  - eapply queued_ok; [done|done|]. unfold zlen. lia.
  - destruct Hq. unfold tokens_left. rewrite qd_items0, qd_indents0, Hl. lia.
Qed.

Lemma insert_length {A} i (t : A) l :
  0 <= i <= zlen l -> length (ztake i l ++ [t] ++ zdrop i l) = S (length l).
Proof.
  intros Hi. rewrite <-(ztake_zdrop i l) at 3. rewrite !length_app. simpl. lia.
Qed.

(** ** Indentation *)

Lemma wp_roll_indent column number data mark s (Q : unit -> scanner -> Prop) :
  tokens_ok s -> 0 <= column <= POSITION_MAX ->
  match number with
  | None => True
  | Some n => sc_tokens_parsed s <= n <= sc_tokens_parsed s + zlen (qu_items (sc_tokens s))
  end ->
  (forall s', stays s s' -> tokens_ok s' -> (tokens_left s' <= tokens_left s + 2)%nat ->
     sc_simple_keys s' = sc_simple_keys s -> Q tt s') ->
  wp (yaml_parser_roll_indent alloc column number data mark) Q s.
Proof.
  intros Hs Hc Hn HQ. unfold yaml_parser_roll_indent. do 2 sstep.
  sstep; [|sstep; apply HQ; done || lia]. sstep; [|sstep; apply HQ; done || lia].
  sstep. apply wp_PUSH; [apply Hs|]. intros st' s1 Hst Hit Hs1. apply mwp_bind, mwp_update.
  sstep; [by left|]. apply mwp_bind, mwp_update.
  remember (set_indent column (set_indents st' s1)) as s2 eqn:Hs2.
  assert (stays s s2 /\ sc_tokens s2 = sc_tokens s /\ sc_simple_keys s2 = sc_simple_keys s
    /\ stk_items (sc_indents s2) = sc_indent s :: stk_items (sc_indents s)) as (Hst2 & Ht2 & Hk2 & Hi2)
    by (subst s2; destruct Hs1 as [-> | ->]; by rewrite <-?Hit).
  assert (tokens_ok s2) as Hok2.
  { destruct Hs. subst s2. apply Z.ltb_lt in Hif0.
    destruct Hs1 as [-> | ->]; split; simpl; try done; rewrite ?Hit; try done.
    all: constructor; [lia|done]. }
  clear Hs2 Hs1 Hit Hst st' s1.
  assert (forall s' items, queued s2 s' items ->
    length items = S (length (qu_items (sc_tokens s2))) -> Q tt s') as Hfin.
  { intros s' items Hq Hl. destruct (queued_one _ _ _ Hok2 Hq Hl) as [Hok' Hleft].
    destruct Hq. apply HQ; [by eapply stays_trans|done| |congruence].
    unfold tokens_left in *. rewrite Ht2, Hi2 in Hleft. simpl in Hleft. lia. }
  destruct number as [n|].
  - apply wp_QUEUE_INSERT; [apply Hok2|rewrite Ht2; lia|]. intros s' Hq.
    eapply Hfin; [exact Hq|]. apply insert_length. rewrite Ht2. lia.
  - apply wp_ENQUEUE; [apply Hok2|]. intros s' Hq. eapply Hfin; [exact Hq|].
    rewrite length_app. simpl. lia.
Qed.

(** What unrolling keeps: every level gives one token. *)
Record unrolled (s s' : scanner) : Prop := mk_unrolled {
  ur_stays : stays s s';
  ur_ok : tokens_ok s';
  ur_left : tokens_left s' = tokens_left s;
  ur_keys : sc_simple_keys s' = sc_simple_keys s;
}.

Lemma unrolled_refl s : tokens_ok s -> unrolled s s.
Proof. intros. by split; try apply stays_refl. Qed.

Lemma unrolled_trans s1 s2 s3 : unrolled s1 s2 -> unrolled s2 s3 -> unrolled s1 s3.
Proof. intros [] []. split; try congruence. by eapply stays_trans. Qed.

Lemma wp_unroll_step column s :
  tokens_ok s -> -1 <= column ->
  wp (unroll_step alloc column tt) (fun r s' => unrolled s s' /\ match r with
    | inl _ => (length (stk_items (sc_indents s')) < length (stk_items (sc_indents s)))%nat
    | inr _ => True end) s.
Proof.
  intros Hs Hc. unfold unroll_step. do 2 sstep. sstep; [|sstep; by split; [apply unrolled_refl|]].
  apply Z.ltb_lt in Hif. sstep. apply wp_ENQUEUE; [apply Hs|]. intros s1 Hq.
  destruct (queued_one _ _ _ Hs Hq) as [Hok1 Hleft1]; [rewrite length_app; simpl; lia|].
  destruct Hq. destruct Hs, Hok1. rewrite qd_indents0 in *.
  destruct (stk_items (sc_indents s)) as [|i rest] eqn:Hi.
  { simpl in tk_bottom0. injection tk_bottom0 as Hb. lia. }
  apply mwp_bind, mwp_update, mwp_bind, mwp_update, mwp_ret. simpl.
  apply Forall_cons in tk_indents0 as [_ Hf]. simpl. split; [|lia].
  destruct tk_indent_stack0 as [Hl Hcap]. rewrite Hi, zlen_cons in Hl. split; simpl.
  - by destruct qd_stays0; split.
  - split; simpl; try done. split; simpl; [lia|done].
  - unfold tokens_left in *. rewrite qd_indents0, Hi in *. simpl in *. lia.
  - done.
Qed.

Lemma wp_unroll_indent column s (Q : unit -> scanner -> Prop) :
  tokens_ok s -> -1 <= column -> (forall s', unrolled s s' -> Q tt s') ->
  wp (yaml_parser_unroll_indent alloc column) Q s.
Proof.
  intros Hs Hc HQ. unfold yaml_parser_unroll_indent. do 2 sstep.
  sstep; [|sstep; by apply HQ, unrolled_refl].
  apply mwp_iter with (I := fun _ s' => unrolled s s')
    (mu := fun _ s' => length (stk_items (sc_indents s'))); [by apply unrolled_refl|lia|].
  intros [] s1 Hs1. eapply mwp_mono; [apply wp_unroll_step; [apply Hs1|done]|].
  intros [ [] | [] ] s2 [Hs2 Hlt]; [split; [|done]|apply HQ]; by eapply unrolled_trans.
Qed.

(** ** Fetching a token *)

(** The queue does not end in STREAM-END. *)
Definition not_ended (s : scanner) : Prop :=
  forall t, last (qu_items (sc_tokens s)) = Some t -> token_data t <> tok_stream_end.

(** Characters were read, and at most [n] tokens and levels came for them. *)
Record fetched (n : nat) (s s' : scanner) : Prop := mk_fetched {
  fe_ok : tokens_ok s';
  fe_behind : keys_behind s';
  fe_stands : exists cs, stands s' cs;
  fe_left : (chars_left s' < chars_left s)%nat;
  fe_parsed : sc_tokens_parsed s' = sc_tokens_parsed s;
  fe_tokens : (tokens_left s' <= tokens_left s + n)%nat;
  fe_last : not_ended s';
}.

Lemma fetched_after k n m s s1 s' :
  stays s s1 -> (tokens_left s1 <= tokens_left s + k)%nat -> fetched n s1 s' ->
  (k + n <= m)%nat -> fetched m s s'.
Proof.
  intros Hst Hl [] Hm. split; try done; [|by rewrite fe_parsed0, (sy_parsed _ _ Hst)|lia].
  by rewrite <-(stays_left _ _ Hst).
Qed.

Lemma wp_enqueue_scanned token s s1 cs (Q : unit -> scanner -> Prop) :
  tokens_ok s -> scans s s1 cs true -> token_data token <> tok_stream_end ->
  (forall s', fetched 1 s s' -> Q tt s') -> wp (ENQUEUE alloc token) Q s1.
Proof.
  intros Hs Hsc Ht HQ. pose proof (sn_same _ _ _ _ Hsc) as Hsame.
  destruct (sn_moved _ _ _ _ Hsc eq_refl) as [Hleft Hlt].
  assert (tokens_ok s1) as Hs1 by (eapply same_tokens_ok; [done|done|apply Hsc]).
  assert (keys_behind s1) as Hb1 by (by apply (moved_keys_behind s s1)).
  apply wp_ENQUEUE; [apply Hs1|]. intros s' Hq.
  destruct (queued_one _ _ _ Hs1 Hq) as [Hok Htl]; [rewrite length_app; simpl; lia|].
  destruct Hq. apply HQ. split.
  - done.
  - unfold keys_behind in *. rewrite qd_keys0. eapply Forall_impl; [exact Hb1|].
    intros k Hk Hp. rewrite (sy_mark _ _ qd_stays0). by apply Hk.
  - exists cs. eapply stands_stays; [by eapply scans_stands|done].
  - by rewrite (stays_left _ _ qd_stays0).
  - rewrite (sy_parsed _ _ qd_stays0). by apply Hsame.
  - rewrite Htl. unfold tokens_left. rewrite (st_tokens _ _ Hsame), (st_indents _ _ Hsame). lia.
  - intros t. rewrite qd_items0, last_snoc. by intros [= <-].
Qed.

(** What a fetch function starts from. *)
Record fetching (s : scanner) (cs : list (list Z)) : Prop := mk_fetching {
  ft_ok : tokens_ok s;
  ft_stands : stands s cs;
  ft_parsed : 0 <= sc_tokens_parsed s;
  ft_number : sc_tokens_parsed s + zlen (qu_items (sc_tokens s)) <= TOKEN_MAX;
}.

Lemma wp_fetch_indicator data s c cs (Q : unit -> scanner -> Prop) :
  tokens_ok s -> stands s (c :: cs) -> c <> [0] -> data <> tok_stream_end ->
  (forall s', fetched 1 s s' -> Q tt s') -> wp (fetch_indicator alloc data) Q s.
Proof.
  intros Hs Hst Hc Hd HQ. unfold fetch_indicator. pose proof (stands_scans _ _ Hst) as Hsc.
  trun. by eapply wp_enqueue_scanned.
Qed.

Lemma wp_block_context data problem s cs (Q : unit -> scanner -> Prop) :
  tokens_ok s -> stands s cs ->
  (forall s', stays s s' -> tokens_ok s' -> (tokens_left s' <= tokens_left s + 2)%nat ->
     Q tt s') ->
  wp (block_context alloc data problem) Q s.
Proof.
  intros Hs [_ Hm] HQ. unfold block_context. do 2 sstep. sstep; [|sstep; apply HQ; done || lia].
  sstep; [|by sstep]. apply wp_roll_indent; [done| |done|eauto].
  pose proof (mo_column s Hm). pose proof (mo_index s Hm). lia.
Qed.

Lemma fetched_rekeyed n s s1 s' :
  rekeyed s s1 -> fetched n s1 s' -> (n <= 4)%nat -> fetched 4 s s'.
Proof.
  intros Hr Hf Hn. eapply (fetched_after 0); [apply Hr| |exact Hf|done].
  rewrite (rekeyed_left _ _ Hr). lia.
Qed.

Lemma rekeyed_stands s s' cs : rekeyed s s' -> stands s cs -> stands s' cs.
Proof. intros Hr Hst. eapply stands_stays; [exact Hst|apply Hr]. Qed.

(** The key of the level is removed, or one is saved, and a flag is set. *)
Lemma wp_remove_allow {A} b (k : unit -> SM A) s (Q : A -> scanner -> Prop) :
  tokens_ok s -> (forall s', rekeyed s s' -> wp (k tt) Q s') ->
  wp (_ ← yaml_parser_remove_simple_key; u ← update (set_simple_key_allowed b); k u) Q s.
Proof.
  intros Hs HQ. sstep. apply wp_remove_simple_key; [done|]. intros s1 Hs1 _.
  apply mwp_bind, mwp_update, HQ.
  eapply rekeyed_trans; [exact Hs1|apply rekeyed_allowed, Hs1].
Qed.

Lemma wp_save_allow {A} b (k : unit -> SM A) s cs (Q : A -> scanner -> Prop) :
  fetching s cs -> (forall s', rekeyed s s' -> wp (k tt) Q s') ->
  wp (_ ← yaml_parser_save_simple_key; u ← update (set_simple_key_allowed b); k u) Q s.
Proof.
  intros [] HQ. sstep. eapply wp_save_simple_key; [done..|]. intros s1 Hs1.
  apply mwp_bind, mwp_update, HQ.
  eapply rekeyed_trans; [exact Hs1|apply rekeyed_allowed, Hs1].
Qed.

(** After at most three more tokens and levels, the indicator. *)
Lemma wp_indicator_fetch data s s1 c cs (Q : unit -> scanner -> Prop) :
  fetching s (c :: cs) -> c <> [0] -> data <> tok_stream_end ->
  stays s s1 -> tokens_ok s1 -> (tokens_left s1 <= tokens_left s + 3)%nat ->
  (forall s', fetched 4 s s' -> Q tt s') -> wp (fetch_indicator alloc data) Q s1.
Proof.
  intros [_ Hst _ _] Hc Hd Hs1 Hok1 Hl1 HQ.
  eapply wp_fetch_indicator; [done|by eapply stands_stays|done|done|].
  intros s' Hs'. apply HQ. by eapply (fetched_after 3 1).
Qed.

Lemma wp_indicator_rekeyed data s s1 s2 c cs (Q : unit -> scanner -> Prop) :
  fetching s (c :: cs) -> c <> [0] -> data <> tok_stream_end ->
  stays s s1 -> (tokens_left s1 <= tokens_left s + 3)%nat -> rekeyed s1 s2 ->
  (forall s', fetched 4 s s' -> Q tt s') -> wp (fetch_indicator alloc data) Q s2.
Proof.
  intros Hf Hc Hd Hs1 Hl1 Hr HQ. eapply wp_indicator_fetch; [exact Hf|done|done| |apply Hr| |done].
  - eapply stays_trans; [done|apply Hr].
  - by rewrite (rekeyed_left _ _ Hr).
Qed.

Lemma wp_fetch_flow_entry s c cs (Q : unit -> scanner -> Prop) :
  fetching s (c :: cs) -> c <> [0] ->
  (forall s', fetched 4 s s' -> Q tt s') -> wp (yaml_parser_fetch_flow_entry alloc) Q s.
Proof.
  intros Hf Hc HQ. apply wp_remove_allow; [apply Hf|]. intros s1 Hr.
  eapply wp_indicator_rekeyed; [done|done|done|apply stays_refl|lia|done|done].
Qed.

Lemma wp_fetch_flow_collection_start data s c cs (Q : unit -> scanner -> Prop) :
  fetching s (c :: cs) -> c <> [0] -> data <> tok_stream_end ->
  (forall s', fetched 4 s s' -> Q tt s') ->
  wp (yaml_parser_fetch_flow_collection_start alloc data) Q s.
Proof.
  intros Hf Hc Hd HQ. unfold yaml_parser_fetch_flow_collection_start.
  sstep. eapply wp_save_simple_key; [apply Hf..|]. intros s1 Hr.
  sstep. apply wp_increase_flow_level; [apply Hr|]. intros s2 Hst2 Hok2 Hl2.
  apply mwp_bind, mwp_update. eapply wp_indicator_rekeyed;
    [done|done|done| | |by apply rekeyed_allowed|done].
  - eapply stays_trans; [apply Hr|done].
  - rewrite Hl2, (rekeyed_left _ _ Hr). lia.
Qed.

Lemma wp_fetch_flow_collection_end data s c cs (Q : unit -> scanner -> Prop) :
  fetching s (c :: cs) -> c <> [0] -> data <> tok_stream_end ->
  (forall s', fetched 4 s s' -> Q tt s') ->
  wp (yaml_parser_fetch_flow_collection_end alloc data) Q s.
Proof.
  intros Hf Hc Hd HQ. unfold yaml_parser_fetch_flow_collection_end.
  sstep. eapply wp_remove_simple_key; [apply Hf|]. intros s1 Hr _.
  sstep. apply wp_decrease_flow_level; [apply Hr|]. intros s2 Hst2 Hok2 Hl2.
  apply mwp_bind, mwp_update. eapply wp_indicator_rekeyed;
    [done|done|done| | |by apply rekeyed_allowed|done].
  - eapply stays_trans; [apply Hr|done].
  - rewrite Hl2, (rekeyed_left _ _ Hr). lia.
Qed.

Lemma wp_fetch_block_entry s c cs (Q : unit -> scanner -> Prop) :
  fetching s (c :: cs) -> c <> [0] ->
  (forall s', fetched 4 s s' -> Q tt s') -> wp (yaml_parser_fetch_block_entry alloc) Q s.
Proof.
  intros Hf Hc HQ. unfold yaml_parser_fetch_block_entry. sstep.
  eapply wp_block_context; [apply Hf..|]. intros s1 Hs1 Hok1 Hl1.
  apply wp_remove_allow; [done|]. intros s2 Hr.
  eapply wp_indicator_rekeyed; [done|done|done|exact Hs1|lia|done|done].
Qed.

Lemma wp_fetch_key s c cs (Q : unit -> scanner -> Prop) :
  fetching s (c :: cs) -> c <> [0] ->
  (forall s', fetched 4 s s' -> Q tt s') -> wp (yaml_parser_fetch_key alloc) Q s.
Proof.
  intros Hf Hc HQ. unfold yaml_parser_fetch_key. sstep.
  eapply wp_block_context; [apply Hf..|]. intros s1 Hs1 Hok1 Hl1.
  sstep. apply wp_remove_simple_key; [done|]. intros s2 Hr _. apply mwp_bind, mwp_update.
  eapply wp_indicator_rekeyed; [done|done|done|exact Hs1|lia| |done].
  eapply rekeyed_trans; [exact Hr|apply rekeyed_allowed, Hr].
Qed.

(** The key of the level becomes a KEY token in front of its token. *)
Lemma wp_fetch_value s c cs (Q : unit -> scanner -> Prop) :
  fetching s (c :: cs) -> c <> [0] ->
  (forall s', fetched 4 s s' -> Q tt s') -> wp (yaml_parser_fetch_value alloc) Q s.
Proof.
  intros Hf Hc HQ. pose proof (ft_ok _ _ Hf) as Hs.
  destruct (keys_top s Hs) as (k & keys & Hk). unfold yaml_parser_fetch_value.
  sstep. eapply wp_top_simple_key; [done|]. do 3 sstep.
  apply (mwp_mono _ _ (fun _ s' => stays s s' /\ tokens_ok s'
    /\ (tokens_left s' <= tokens_left s + 3)%nat)).
  2: { intros _ s' (Hst & Hok & Hl). by eapply wp_indicator_fetch. }
  sstep.
  - pose proof (tk_keys s Hs) as Hkeys. rewrite Hk in Hkeys.
    apply Forall_cons in Hkeys as [Hkk _]. destruct (Hkk Hif) as (Hnum & _ & Hcol).
    sstep. apply wp_QUEUE_INSERT; [apply Hs|lia|]. intros s1 Hq.
    destruct (queued_one _ _ _ Hs Hq) as [Hok1 Hl1]; [apply insert_length; lia|].
    assert (zlen (qu_items (sc_tokens s1)) = zlen (qu_items (sc_tokens s)) + 1) as Hlen1.
    { rewrite (qd_items _ _ _ Hq). unfold zlen at 1. rewrite insert_length by lia. unfold zlen. lia. }
    destruct Hq as [Hst1 _ _ _ Hk1 _ _ _].
    sstep. apply wp_roll_indent; [done|done|rewrite (sy_parsed _ _ Hst1); lia|].
    intros s2 Hst2 Hok2 Hl2 Hk2. rewrite Hk1 in Hk2.
    sstep. eapply wp_set_top_simple_key; [by rewrite Hk2|]. apply mwp_update.
    assert (rekeyed s2 (set_simple_keys (mk_stack (no_longer_possible k :: keys)
      (stk_cap (sc_simple_keys s2))) s2)) as Hr.
    { apply rekeyed_set; [done|by rewrite Hk2, Hk, !zlen_cons|].
      pose proof (tk_keys s2 Hok2) as Hf2. rewrite Hk2, Hk in Hf2.
      apply Forall_cons in Hf2 as [_ Hf2]. by constructor. }
    eapply rekeyed_trans in Hr; [|by apply rekeyed_refl].
    pose proof (rekeyed_trans _ _ _ Hr (rekeyed_allowed false _ (rk_ok _ _ Hr))) as Hr2.
    split_and!; [|apply Hr2|rewrite (rekeyed_left _ _ Hr2); lia].
    eapply stays_trans; [exact Hst1|]. eapply stays_trans; [exact Hst2|apply Hr2].
  - sstep. eapply wp_block_context; [apply Hf..|]. intros s1 Hs1 Hok1 Hl1. apply mwp_update.
    pose proof (rekeyed_allowed (sc_flow_level s1 =? 0) _ Hok1) as Hr.
    split_and!; [eapply stays_trans; [done|apply Hr]|apply Hr|rewrite (rekeyed_left _ _ Hr); lia].
Qed.

(** A scanned token goes into the queue. *)
Lemma wp_fetch_scanned (scan : SM yaml_token_t) s s1 (Q : unit -> scanner -> Prop) :
  stays s s1 -> tokens_ok s1 -> (tokens_left s1 <= tokens_left s + 3)%nat ->
  (forall R, (forall token s' cs', scans s1 s' cs' true -> token_data token <> tok_stream_end ->
     R token s') -> wp scan R s1) ->
  (forall s', fetched 4 s s' -> Q tt s') -> wp (token ← scan; ENQUEUE alloc token) Q s1.
Proof.
  intros Hst Hok Hl Hscan HQ. sstep. apply Hscan. intros token s2 cs2 Hs2 Ht.
  eapply wp_enqueue_scanned; [exact Hok|done|done|]. intros s' Hs'. apply HQ.
  by eapply (fetched_after 3 1).
Qed.

Lemma wp_fetch_scanned_key (scan : SM yaml_token_t) s s1 (Q : unit -> scanner -> Prop) :
  rekeyed s s1 ->
  (forall R, (forall token s' cs', scans s1 s' cs' true -> token_data token <> tok_stream_end ->
     R token s') -> wp scan R s1) ->
  (forall s', fetched 4 s s' -> Q tt s') -> wp (token ← scan; ENQUEUE alloc token) Q s1.
Proof.
  intros Hr. apply wp_fetch_scanned; [apply Hr..|]. rewrite (rekeyed_left _ _ Hr). lia.
Qed.

Lemma rekeyed_scans s s1 cs : stands s cs -> rekeyed s s1 -> scans s1 s1 cs false.
Proof. intros Hst Hr. by eapply stands_scans, rekeyed_stands. Qed.

Lemma indent_range s : tokens_ok s -> -1 <= sc_indent s <= POSITION_MAX.
Proof. intros []. by apply Forall_cons in tk_indents0 as [? _]. Qed.

Lemma wp_fetch_anchor anchor s c cs (Q : unit -> scanner -> Prop) :
  fetching s (c :: cs) -> c <> [0] ->
  (forall s', fetched 4 s s' -> Q tt s') -> wp (yaml_parser_fetch_anchor alloc anchor) Q s.
Proof.
  intros Hf Hc HQ. eapply wp_save_allow; [exact Hf|]. intros s1 Hr.
  eapply wp_fetch_scanned_key; [exact Hr| |done]. intros R HR.
  eapply wp_scan_anchor; [|done|done]. eapply rekeyed_scans; [apply Hf|done].
Qed.

Lemma wp_fetch_tag s c cs (Q : unit -> scanner -> Prop) :
  fetching s (c :: cs) -> CHECK (chr "!") c = Some true ->
  (forall s', fetched 4 s s' -> Q tt s') -> wp (yaml_parser_fetch_tag alloc) Q s.
Proof.
  intros Hf Hc HQ. eapply wp_save_allow; [exact Hf|]. intros s1 Hr.
  eapply wp_fetch_scanned_key; [exact Hr| |done]. intros R HR.
  eapply wp_scan_tag; [|done|done]. eapply rekeyed_scans; [apply Hf|done].
Qed.

Lemma wp_fetch_block_scalar literal s c cs (Q : unit -> scanner -> Prop) :
  fetching s (c :: cs) -> c <> [0] ->
  (forall s', fetched 4 s s' -> Q tt s') -> wp (yaml_parser_fetch_block_scalar alloc literal) Q s.
Proof.
  intros Hf Hc HQ. apply wp_remove_allow; [apply Hf|]. intros s1 Hr.
  eapply wp_fetch_scanned_key; [exact Hr| |done]. intros R HR.
  eapply wp_scan_block_scalar; [|done|apply indent_range, Hr|done].
  eapply rekeyed_scans; [apply Hf|done].
Qed.

Lemma wp_fetch_flow_scalar single s c cs (Q : unit -> scanner -> Prop) :
  fetching s (c :: cs) -> c <> [0] ->
  (forall s', fetched 4 s s' -> Q tt s') -> wp (yaml_parser_fetch_flow_scalar alloc single) Q s.
Proof.
  intros Hf Hc HQ. eapply wp_save_allow; [exact Hf|]. intros s1 Hr.
  eapply wp_fetch_scanned_key; [exact Hr| |done]. intros R HR.
  eapply wp_scan_flow_scalar; [|done|done]. eapply rekeyed_scans; [apply Hf|done].
Qed.

Lemma rekeyed_plain s s1 cs : rekeyed s s1 -> plain_starts s cs -> plain_starts s1 cs.
Proof.
  intros [[] _ _ _ _ Hfl]. unfold plain_starts, plain_first, flow_of.
  by rewrite Hfl, sy_reader0, sy_mark0.
Qed.

Lemma wp_fetch_plain_scalar s c cs (Q : unit -> scanner -> Prop) :
  fetching s (c :: cs) -> plain_starts s (c :: cs) ->
  (forall s', fetched 4 s s' -> Q tt s') -> wp (yaml_parser_fetch_plain_scalar alloc) Q s.
Proof.
  intros Hf Hc HQ. eapply wp_save_allow; [exact Hf|]. intros s1 Hr.
  eapply wp_fetch_scanned_key; [exact Hr| |done]. intros R HR.
  eapply wp_scan_plain_scalar; [|by eapply rekeyed_plain|apply indent_range, Hr|done].
  eapply rekeyed_scans; [apply Hf|done].
Qed.

(** Unrolling to the bottom, before what starts at the first column. *)
Lemma wp_unroll_all {A} b (k : unit -> SM A) s (Q : A -> scanner -> Prop) :
  tokens_ok s ->
  (forall s', stays s s' -> tokens_ok s' -> tokens_left s' = tokens_left s ->
     (keys_behind s -> keys_behind s') -> wp (k tt) Q s') ->
  wp (_ ← yaml_parser_unroll_indent alloc (-1); _ ← yaml_parser_remove_simple_key;
      u ← update (set_simple_key_allowed b); k u) Q s.
Proof.
  intros Hs HQ. sstep. apply wp_unroll_indent; [done|done|]. intros s1 [Hst1 Hok1 Hl1 Hk1].
  sstep. apply wp_remove_simple_key; [done|]. intros s2 Hr Hb. apply mwp_bind, mwp_update.
  pose proof (rekeyed_trans _ _ _ Hr (rekeyed_allowed b _ (rk_ok _ _ Hr))) as Hr2.
  apply HQ; [eapply stays_trans; [done|apply Hr2]|apply Hr2| |].
  - rewrite (rekeyed_left _ _ Hr2), Hl1. done.
  - intros Hbs. apply Hb. unfold keys_behind, key_behind in *. rewrite Hk1.
    by rewrite (sy_mark _ _ Hst1).
Qed.

Lemma wp_fetch_directive s c cs (Q : unit -> scanner -> Prop) :
  fetching s (c :: cs) -> c <> [0] ->
  (forall s', fetched 4 s s' -> Q tt s') -> wp (yaml_parser_fetch_directive alloc) Q s.
Proof.
  intros Hf Hc HQ. apply wp_unroll_all; [apply Hf|]. intros s1 Hst Hok Hl _.
  apply (wp_fetch_scanned _ s); [done|done|lia| |done]. intros R HR.
  eapply wp_scan_directive; [|done|done]. eapply stands_scans, stands_stays; [apply Hf|done].
Qed.

Lemma wp_fetch_document_indicator data s a cs (Q : unit -> scanner -> Prop) :
  fetching s ([a] :: [a] :: [a] :: cs) -> a <> 0 -> data <> tok_stream_end ->
  (forall s', fetched 4 s s' -> Q tt s') ->
  wp (yaml_parser_fetch_document_indicator alloc data) Q s.
Proof.
  intros Hf Ha Hd HQ. apply wp_unroll_all; [apply Hf|]. intros s1 Hst Hok Hl _.
  assert (scans s1 s1 ([a] :: [a] :: [a] :: cs) false) as Hs
    by (eapply stands_scans, stands_stays; [apply Hf|done]).
  trun. eapply wp_enqueue_scanned; [exact Hok|exact Hs|done|]. intros s' Hs'. apply HQ.
  eapply (fetched_after 0 1); [done|lia|done|lia].
Qed.

(** ** The end of the stream *)

(** STREAM-END is the last token, and every key that is still possible is on a line
    before: nothing will be fetched any more. *)
Record ended (s : scanner) : Prop := mk_ended {
  en_ok : tokens_ok s;
  en_behind : keys_behind s;
  en_column : mark_column (sc_mark s) = 0;
  en_last : exists t, last (qu_items (sc_tokens s)) = Some t /\ token_data t = tok_stream_end;
}.

Lemma wp_fetch_stream_end s cs (Q : unit -> scanner -> Prop) :
  fetching s cs -> keys_behind s ->
  (forall s', ended s' -> sc_tokens_parsed s' = sc_tokens_parsed s ->
     chars_left s' = chars_left s -> tokens_left s' = S (tokens_left s) -> Q tt s') ->
  wp (yaml_parser_fetch_stream_end alloc) Q s.
Proof.
  intros [Hs [_ Hm] _ _] Hb HQ. unfold yaml_parser_fetch_stream_end. do 3 sstep.
  apply (mwp_mono _ _ (fun _ s' => tokens_ok s' /\ keys_behind s'
    /\ mark_column (sc_mark s') = 0 /\ sc_tokens_parsed s' = sc_tokens_parsed s
    /\ chars_left s' = chars_left s /\ tokens_left s' = tokens_left s)).
  { sstep; [sstep; by bool_facts|]. apply Z.eqb_neq in Hif. apply mwp_update.
    destruct Hm as [Hl Hc Hi]. unfold POSITION_MAX, INT_MAX in Hi.
    assert (mark_lt (sc_mark s) (mk_mark (mark_index (sc_mark s))
      (u64 (mark_line (sc_mark s) + 1)) 0)) as Hlt.
    { left. simpl. rewrite wrap_small by (unfold fits; lia). lia. }
    split_and!; try done.
    - eapply same_tokens_ok; [exact Hs|by split|]. unfold mark_lt, mark_le in *. simpl in *. lia.
    - eapply moved_keys_behind; [exact Hs|by split|exact Hlt]. }
  intros _ s1 (Hok1 & Hb1 & Hc1 & Hp1 & Hl1 & Ht1).
  apply wp_unroll_all; [done|]. intros s2 Hst2 Hok2 Hl2 Hb2.
  do 2 sstep. apply wp_ENQUEUE; [apply Hok2|]. intros s' Hq.
  destruct (queued_one _ _ _ Hok2 Hq) as [Hok Hl]; [rewrite length_app; simpl; lia|].
  destruct Hq. apply HQ.
  - split; [done| | |].
    + specialize (Hb2 Hb1). unfold keys_behind, key_behind in *. rewrite qd_keys0.
      by rewrite (sy_mark _ _ qd_stays0).
    + by rewrite (sy_mark _ _ qd_stays0), (sy_mark _ _ Hst2).
    + rewrite qd_items0, last_snoc. by eexists.
  - by rewrite (sy_parsed _ _ qd_stays0), (sy_parsed _ _ Hst2).
  - by rewrite (stays_left _ _ qd_stays0), (stays_left _ _ Hst2).
  - by rewrite Hl, Hl2, Ht1.
Qed.
End tokens.
