(* ===== verification/YamlFetchProofs.v ===== *)
(** * Every call of the scanner ends

    The dispatcher of the fetch functions, a round of [yaml_parser_fetch_more_tokens]
    and its loop, from the invariant of [YamlScannerProofs]: the scanner of libyaml
    obeys the laws the event parser asks of a scanner. *)
From Stdlib Require Import ZArith Lia.
From Stdlib Require Import Ascii.
From stdpp Require Import base list option numbers strings.
From S2P Require Import Prelude YamlTypes YamlReader YamlParser YamlLex YamlReaderProofs YamlLexProofs YamlScan YamlScanProofs YamlScalar YamlScalarProofs YamlScanner YamlScannerProofs.

(** ** Tests of the dispatcher *)

Lemma check_nonnul a c cs :
  CHECK a (concat (c :: cs)) = Some true -> a <> 0 -> c <> [0].
Proof.
  intros Ht Ha ->. change (Some (0 =? a) = Some true) in Ht. 
  assert ((0 =? a) = true) as H%Z.eqb_eq by congruence. congruence.
Qed.

(** Three equal characters. *)
Lemma check_three a cs :
  CHECK_AT a 0 (concat cs) = Some true -> CHECK_AT a 1 (concat cs) = Some true ->
  CHECK_AT a 2 (concat cs) = Some true -> Forall utf8_char cs -> utf8_width a = 1 ->
  exists cs', cs = [a] :: [a] :: [a] :: cs'.
Proof.
  intros H0 H1 H2 Hcs Ha.
  destruct (check_true a cs H0 Hcs Ha) as [cs1 ->]. apply Forall_cons in Hcs as [_ Hcs].
  destruct (check_true a cs1 H1 Hcs Ha) as [cs2 ->]. apply Forall_cons in Hcs as [_ Hcs].
  destruct (check_true a cs2 H2 Hcs Ha) as [cs3 ->]. by exists cs3.
Qed.

(** Neither of the document indicators is there. *)
Lemma no_document_indicator col l :
  indicator_at_line_start (chr "-") col l = Some false ->
  indicator_at_line_start (chr ".") col l = Some false ->
  document_test col l = Some false.
Proof.
  unfold indicator_at_line_start, document_test, t_and, t_or, t_true.
  generalize (IS_BLANKZ_AT 3 l). intros z.
  destruct (col =? 0); [|done]. repeat case_match; congruence.
Qed.

Lemma check_any_false (a : Z) octets l k :
  CHECK_any octets k l = Some false -> In a octets -> CHECK_AT a k l = Some false.
Proof.
  induction octets as [|b octets IH]; [done|]. intros [H1 H2]%t_or_false.
  intros [-> | Hin]; [done|by apply IH].
Qed.

Lemma all_unchecked octets l k :
  (forall a, In a octets -> CHECK_AT a k l = Some false) -> CHECK_any octets k l = Some false.
Proof.
  induction octets as [|b octets IH]; intros H; [done|]. cbn [CHECK_any]. unfold t_or.
  rewrite H by (by left). apply IH. intros a Ha. apply H. by right.
Qed.

Lemma and_first t u l : t l = Some false -> t_and t u l = Some false.
Proof. unfold t_and. by intros ->. Qed.

Lemma and_second u l b : u l = b -> t_and (t_true true) u l = b.
Proof. done. Qed.

Lemma or_second t u l b : t l = Some false -> u l = b -> t_or t u l = b.
Proof. unfold t_or. by intros ->. Qed.

(** A plain scalar that starts here has a character. *)
Lemma starts_plain_first flow l :
  starts_plain flow l = Some true ->
  IS_BLANKZ l = Some false /\ plain_bad flow l = Some false /\ plain_ends flow l = Some false
  /\ CHECK (chr "#") l = Some false.
Proof.
  assert (forall a, CHECK a l = Some true -> exists r, l = a :: r) as Hhead.
  { intros a. destruct l as [|b r]; [done|]. cbn. intros [= ->%Z.eqb_eq]. eauto. }
  intros [H|[H|H]%t_or_true]%t_or_true.
  - apply t_not_true, t_or_false in H as [Hz Hr].
    assert (forall a, In a reserved -> CHECK a l = Some false) as Hc
      by (intros; by eapply check_any_false).
    split_and!; [done| | |apply Hc; cbn; tauto].
    + destruct flow; [|done]. apply and_second, and_first, Hc. cbn. tauto.
    + apply or_second; [apply and_first, Hc; cbn; tauto|]. destruct flow; [|done].
      apply and_second, all_unchecked. intros a Ha. apply Hc. cbn in *. tauto.
  - apply t_and_true in H as [[r ->]%Hhead _]. by destruct flow.
  - apply t_and_true in H as [Hf H]. apply t_and_true in H as [Hc Hz].
    destruct flow; [done|]. apply t_not_true in Hz. unfold plain_bad, plain_ends, t_and, t_or, t_true.
    rewrite Hz. apply t_or_true in Hc.
    by destruct Hc as [ [r ->]%Hhead | [r ->]%Hhead ].
Qed.

Section dispatch.
Context (alloc : nat -> bool).
Abbreviation wp := (mwp (scan_failure alloc)).

Lemma wp_when {A} t (m k : SM A) s cs (Q : A -> scanner -> Prop) :
  stands s cs -> enough 4 cs -> looks 4 t ->
  (t (concat cs) = Some true -> wp m Q s) -> (t (concat cs) = Some false -> wp k Q s) ->
  wp (when t m k) Q s.
Proof.
  intros Hs He Ht Hm Hk. apply mwp_bind. eapply wp_check_looks; [by apply stands_scans|done..|].
  intros [|]; auto.
Qed.

Lemma looks_indicator a col :
  a = chr "-" \/ a = chr "." -> looks 4 (indicator_at_line_start a col).
Proof. unfold indicator_at_line_start. intros [-> | ->]; looks_tac. Qed.

Lemma looks_starts_plain flow : looks 4 (starts_plain flow).
Proof. unfold starts_plain. looks_tac. Qed.

(** The end of the stream was fetched. *)
Record finished (s s' : scanner) : Prop := mk_finished {
  fi_ended : ended s';
  fi_parsed : sc_tokens_parsed s' = sc_tokens_parsed s;
  fi_left : chars_left s' = chars_left s;
  fi_tokens : tokens_left s' = S (tokens_left s);
}.

Ltac when_step Hst He :=
  eapply wp_when; [exact Hst|exact He|
    first [apply looks_indicator; by auto|apply looks_starts_plain|looks_tac]| |];
  [let H := fresh "Ht" in intros H|let H := fresh "Hf" in intros H].

(** The character that passed the test is not NUL. *)
Ltac start_char Hc Ht :=
  first [exact (Hc _ Ht ltac:(discriminate))
        |let H := fresh in pose proof (proj1 (t_and_true _ _ _ Ht)) as H;
         exact (Hc _ H ltac:(discriminate))
        |let H := fresh in pose proof (proj2 (t_and_true _ _ _ Ht)) as H;
         exact (Hc _ H ltac:(discriminate))].

Lemma wp_document_fetch a data s cs (Q : unit -> scanner -> Prop) :
  fetching s cs -> a <> 0 -> utf8_width a = 1 -> data <> tok_stream_end ->
  indicator_at_line_start a (mark_column (sc_mark s)) (concat cs) = Some true ->
  (forall s', fetched 4 s s' -> Q tt s') ->
  wp (yaml_parser_fetch_document_indicator alloc data) Q s.
Proof.
  intros Hf Ha Hw Hd Ht HQ. apply t_and_true in Ht as [_ Ht]. apply t_and_true in Ht as [H0 Ht].
  apply t_and_true in Ht as [H1 Ht]. apply t_and_true in Ht as [H2 _].
  destruct (check_three a cs) as [cs' ->]; try done.
  { eapply buffered_chars, Hf. }
  by eapply wp_fetch_document_indicator.
Qed.

Lemma wp_fetch_token s cs (Q : unit -> scanner -> Prop) :
  fetching s cs -> enough 4 cs -> keys_behind s ->
  (forall s', fetched 4 s s' -> Q tt s') -> (forall s', finished s s' -> Q tt s') ->
  wp (fetch_token alloc (mark_column (sc_mark s)) (flow_of s)) Q s.
Proof.
  intros Hf He Hb HQ HE. pose proof (ft_stands _ _ Hf) as Hst.
  destruct (enough_nonempty _ _ He ltac:(lia)) as (c & cs1 & ->).
  assert (forall a, CHECK a (concat (c :: cs1)) = Some true -> a <> 0 -> c <> [0]) as Hc
    by (intros; by eapply check_nonnul).
  unfold fetch_token.
  when_step Hst He; [eapply wp_fetch_stream_end; [done..|]; intros; by apply HE|].
  when_step Hst He; [eapply wp_fetch_directive; [done| |done]; start_char Hc Ht|].
  when_step Hst He; [by eapply (wp_document_fetch (chr "-"))|].
  when_step Hst He; [by eapply (wp_document_fetch (chr "."))|].
  do 2 (when_step Hst He;
    [eapply wp_fetch_flow_collection_start; [done| |done|done]; start_char Hc Ht|]).
  do 2 (when_step Hst He;
    [eapply wp_fetch_flow_collection_end; [done| |done|done]; start_char Hc Ht|]).
  when_step Hst He; [eapply wp_fetch_flow_entry; [done| |done]; start_char Hc Ht|].
  when_step Hst He; [eapply wp_fetch_block_entry; [done| |done]; start_char Hc Ht|].
  when_step Hst He; [eapply wp_fetch_key; [done| |done]; start_char Hc Ht|].
  when_step Hst He; [eapply wp_fetch_value; [done| |done]; start_char Hc Ht|].
  do 2 (when_step Hst He; [eapply wp_fetch_anchor; [done| |done]; start_char Hc Ht|]).
  when_step Hst He.
  { eapply wp_fetch_tag; [exact Hf| |done]. apply head_concat in Ht; [done|apply _|].
    pose proof (buffered_chars _ _ (proj1 Hst)) as Hu. by apply Forall_cons in Hu as [? _]. }
  do 2 (when_step Hst He; [eapply wp_fetch_block_scalar; [done| |done]; start_char Hc Ht|]).
  do 2 (when_step Hst He; [eapply wp_fetch_flow_scalar; [done| |done]; start_char Hc Ht|]).
  when_step Hst He; [|sstep; sstep; sstep].
  eapply wp_fetch_plain_scalar; [exact Hf| |done].
  apply starts_plain_first in Ht as (H1 & H2 & H3 & H4). unfold plain_starts, plain_first.
  rewrite (buffered_buffer _ _ (proj1 Hst)). split_and!; try done. by apply no_document_indicator.
Qed.

(** ** One more token *)

(** Moved on to where a token starts: no token was fetched, but levels were closed. *)
Record prepared (s s' : scanner) (cs : list (list Z)) : Prop := mk_prepared {
  pr_ok : tokens_ok s';
  pr_behind : keys_behind s';
  pr_stands : stands s' cs;
  pr_left : (chars_left s' <= chars_left s)%nat;
  pr_parsed : sc_tokens_parsed s' = sc_tokens_parsed s;
  pr_tokens : tokens_left s' = tokens_left s;
}.

Lemma same_keys_behind s s' :
  keys_behind s -> same_tokens s s' -> mark_le (sc_mark s) (sc_mark s') -> keys_behind s'.
Proof.
  intros Hb [] Hm. unfold keys_behind. rewrite st_keys. eapply Forall_impl; [exact Hb|].
  intros k Hk Hp. specialize (Hk Hp). unfold mark_le, mark_lt in *. lia.
Qed.

Lemma prepared_scans s s1 s2 cs cs' m :
  prepared s s1 cs -> scans s1 s2 cs' m -> prepared s s2 cs'.
Proof.
  intros [] Hs. pose proof (sn_same _ _ _ _ Hs) as Hsame. split.
  - eapply same_tokens_ok; [exact pr_ok0|done|apply Hs].
  - eapply same_keys_behind; [exact pr_behind0|done|apply Hs].
  - by eapply scans_stands.
  - pose proof (sn_left _ _ _ _ Hs). lia.
  - by rewrite (st_parsed _ _ Hsame).
  - unfold tokens_left in *. by rewrite (st_tokens _ _ Hsame), (st_indents _ _ Hsame).
Qed.

Lemma prepared_stale s s1 cs keys' :
  prepared s s1 cs -> Forall2 weaker_key (stk_items (sc_simple_keys s1)) keys' ->
  prepared s (set_simple_keys (mk_stack keys' (stk_cap (sc_simple_keys s1))) s1) cs.
Proof.
  intros [] Hk. split; try done; [by apply weaker_keys_ok|by apply weaker_keys_behind|].
  by eapply stands_stays.
Qed.

Lemma prepared_unrolled s s1 s2 cs : prepared s s1 cs -> unrolled s1 s2 -> prepared s s2 cs.
Proof.
  intros [] [Hst Hok Hl Hk]. split; try done.
  - unfold keys_behind, key_behind in *. by rewrite Hk, (sy_mark _ _ Hst).
  - by eapply stands_stays.
  - by rewrite (stays_left _ _ Hst).
  - by rewrite (sy_parsed _ _ Hst).
  - by rewrite Hl.
Qed.

(** Before the first token. *)
Record unstarted (s : scanner) : Prop := mk_unstarted {
  un_start : sc_stream_start_produced s = false;
  un_indents : stk_items (sc_indents s) = [] /\ stack_ok (sc_indents s);
  un_keys : stk_items (sc_simple_keys s) = [] /\ stack_ok (sc_simple_keys s);
  un_flow : sc_flow_level s = 0;
  un_tokens : qu_items (sc_tokens s) = [] /\ queue_ok (sc_tokens s);
  un_stands : exists cs, stands s cs;
}.

Record running (s : scanner) : Prop := mk_running_state {
  ru_ok : tokens_ok s;
  ru_behind : keys_behind s;
  ru_stands : exists cs, stands s cs;
  ru_last : not_ended s;
}.

(** The start and the end of the stream that are still to be fetched. *)
Definition phase (s : scanner) : nat :=
  if negb (sc_stream_start_produced s) then 2
  else match last (qu_items (sc_tokens s)) with
       | Some t => if token_is t YAML_STREAM_END_TOKEN then 0 else 1
       | None => 1
       end.

Lemma running_phase s : running s -> phase s = 1%nat.
Proof.
  intros [[Hs _ _ _ _ _ _ _] _ _ Hl]. unfold phase. rewrite Hs. simpl.
  destruct (last _) as [t|] eqn:Ht; [|done]. specialize (Hl t Ht).
  unfold token_is, token_type. by destruct (token_data t).
Qed.

Lemma ended_phase s : ended s -> phase s = 0%nat.
Proof.
  intros [[Hs _ _ _ _ _ _ _] _ _ (t & Ht & Hd)]. unfold phase. rewrite Hs, Ht. simpl.
  unfold token_is, token_type. by rewrite Hd.
Qed.

(** A fetch reads a character, or it is the first or the last one; it adds at most four
    tokens and levels. *)
Record advanced (s s' : scanner) : Prop := mk_advanced {
  ad_state : running s' \/ ended s';
  ad_less : (chars_left s' + phase s' < chars_left s + phase s)%nat;
  ad_tokens : (tokens_left s' + 4 * (chars_left s' + phase s')
               <= tokens_left s + 4 * (chars_left s + phase s))%nat;
  ad_parsed : sc_tokens_parsed s' = sc_tokens_parsed s;
}.

Lemma advanced_fetched s s1 s' cs :
  phase s = 1%nat -> prepared s s1 cs -> fetched 4 s1 s' -> advanced s s'.
Proof.
  intros Hp [] []. assert (running s') as Hr by done. pose proof (running_phase _ Hr).
  split; [by left|lia|lia|congruence].
Qed.

Lemma advanced_finished s s1 s' cs :
  phase s = 1%nat -> prepared s s1 cs -> finished s1 s' -> advanced s s'.
Proof.
  intros Hp [] []. pose proof (ended_phase _ fi_ended0).
  split; [by right|lia|lia|congruence].
Qed.

Lemma wp_fetch_stream_start s (Q : unit -> scanner -> Prop) :
  unstarted s -> (forall s', advanced s s' -> Q tt s') ->
  wp (yaml_parser_fetch_stream_start alloc) Q s.
Proof.
  intros [Hs [Hi Hio] [Hk Hko] Hf [Ht Hto] [cs Hst] ] HQ. unfold yaml_parser_fetch_stream_start, push_simple_key.
  apply mwp_bind, mwp_update. do 4 sstep. apply wp_PUSH; [done|]. intros st' s1 Hst1 Hit Hs1.
  do 2 apply mwp_update, mwp_bind. apply mwp_update. do 2 sstep.
  remember (set_stream_start_produced _) as s2 eqn:Hs2.
  assert (tokens_ok s2 /\ stays s s2 /\ keys_behind s2 /\ tokens_left s2 = 0%nat)
    as (Hok & Hst2 & Hb & Hl).
  { subst s2. unfold tokens_left, keys_behind.
    destruct Hs1 as [-> | ->]; simpl in *; rewrite Hit, Ht, Hk, Hi; split_and!; try done.
    all: try (constructor; done). all: split; simpl; rewrite ?Hi, ?Hit, ?Hf, ?Hk; try done.
    all: by constructor. }
  apply wp_ENQUEUE; [apply Hok|]. intros s' Hq.
  destruct (queued_one _ _ _ Hok Hq) as [Hok' Hl']; [rewrite length_app; simpl; lia|].
  destruct Hq as [Hst3 _ _ _ Hk3 _ Hit3 _]. apply HQ.
  pose proof (stays_trans _ _ _ Hst2 Hst3) as Hst'.
  assert (running s') as Hr.
  { split; [done| | |].
    - unfold keys_behind, key_behind in *. by rewrite Hk3, (sy_mark _ _ Hst3).
    - exists cs. by eapply stands_stays.
    - intros t. rewrite Hit3, last_snoc. by intros [= <-]. }
  pose proof (running_phase _ Hr). assert (phase s = 2%nat) by (unfold phase; by rewrite Hs).
  pose proof (stays_left _ _ Hst'). split; [by left|lia|lia|apply Hst'].
Qed.

(** Tokens, levels and what is still to be fetched: an upper bound on the tokens to come. *)
Definition all_left (s : scanner) : nat :=
  (tokens_left s + 4 * (chars_left s + phase s))%nat.

Definition budget (s : scanner) : Prop :=
  0 <= sc_tokens_parsed s /\ sc_tokens_parsed s + Z.of_nat (all_left s) <= TOKEN_MAX.

Lemma prepared_fetching s s' cs : budget s -> prepared s s' cs -> fetching s' cs.
Proof.
  intros [] []. split; [done|done|lia|].
  unfold all_left, tokens_left, zlen in *. lia.
Qed.

Lemma wp_fetch_next_running s (Q : unit -> scanner -> Prop) :
  running s -> budget s -> (forall s', advanced s s' -> Q tt s') ->
  wp (yaml_parser_fetch_next_token alloc) Q s.
Proof.
  intros Hr Hbud HQ. pose proof (running_phase _ Hr) as Hph. destruct Hr as [Hok Hb [cs Hst] _].
  assert (prepared s s cs) as Hpr by done.
  unfold yaml_parser_fetch_next_token. sstep.
  eapply wp_cache_one; [by apply stands_scans|]. intros s1 c cs1 Hs1 _.
  eapply prepared_scans in Hpr; [|exact Hs1]. do 2 sstep.
  rewrite (tk_started _ (pr_ok _ _ _ Hpr)). cbn [negb].
  sstep. eapply wp_scan_to_next_token; [by apply stands_scans, Hpr|]. intros s2 c2 cs2 Hs2.
  eapply prepared_scans in Hpr; [|exact Hs2].
  sstep. apply wp_stale_simple_keys. intros keys' Hw _. eapply prepared_stale in Hpr; [|exact Hw].
  remember (set_simple_keys _ s2) as s3 eqn:Hs3. clear Hs3.
  sstep. apply wp_column, mwp_bind, wp_unroll_indent; [apply Hpr| |].
  { destruct (pr_stands _ _ _ Hpr) as [_ Hm]. pose proof (mo_column _ Hm). lia. }
  intros s4 Hu. eapply prepared_unrolled in Hpr; [|exact Hu].
  sstep. eapply (wp_cache alloc 4); [by apply stands_scans, Hpr|lia|]. intros s5 more Hs5 He _.
  eapply prepared_scans in Hpr; [|exact Hs5]. sstep. apply wp_column. sstep. apply wp_in_flow.
  eapply wp_fetch_token; [by eapply prepared_fetching|done|apply Hpr| |].
  - intros s' Hs'. by eapply HQ, advanced_fetched.
  - intros s' Hs'. by eapply HQ, advanced_finished.
Qed.

Lemma wp_fetch_next_unstarted s (Q : unit -> scanner -> Prop) :
  unstarted s -> (forall s', advanced s s' -> Q tt s') ->
  wp (yaml_parser_fetch_next_token alloc) Q s.
Proof.
  intros Hun HQ. destruct (un_stands s Hun) as [cs Hst]. unfold yaml_parser_fetch_next_token.
  sstep. eapply wp_cache_one; [by apply stands_scans|]. intros s1 c cs1 Hs1 _.
  pose proof (sn_same _ _ _ _ Hs1) as [H1 H2 H3 H4 H5 H6 H7]. pose proof (sn_left _ _ _ _ Hs1) as Hl.
  assert (unstarted s1) as Hun1.
  { destruct Hun. split; rewrite ?H1, ?H3, ?H4, ?H5, ?H6; try done. eexists. by eapply scans_stands. }
  do 2 sstep. rewrite (un_start _ Hun1). cbn [negb]. apply wp_fetch_stream_start; [done|].
  intros s' [Ha Hb Hc Hd]. apply HQ.
  assert (phase s1 = phase s) as Hph by (unfold phase; by rewrite H1, H6).
  assert (tokens_left s1 = tokens_left s) as Ht by (unfold tokens_left; by rewrite H3, H6).
  split; [done|lia|lia|congruence].
Qed.

(** ** Enough tokens *)

(** The scanner may fetch. *)
Definition idle (s : scanner) : Prop :=
  (unstarted s \/ running s \/ ended s) /\ budget s.

(** The head of the queue is a token that will not change. *)
Definition ready (s : scanner) : Prop :=
  (running s \/ ended s) /\ budget s /\ qu_items (sc_tokens s) <> [] /\ key_at_head s = false.

(** Keys that became impossible do not matter to the rest. *)
Lemma weaker_running s keys' :
  running s -> Forall2 weaker_key (stk_items (sc_simple_keys s)) keys' ->
  running (set_simple_keys (mk_stack keys' (stk_cap (sc_simple_keys s))) s).
Proof.
  intros [Hok Hb [cs Hst] Hl] Hk. split; [by apply weaker_keys_ok|by apply weaker_keys_behind| |done].
  exists cs. by eapply stands_stays.
Qed.

Lemma weaker_ended s keys' :
  ended s -> Forall2 weaker_key (stk_items (sc_simple_keys s)) keys' ->
  ended (set_simple_keys (mk_stack keys' (stk_cap (sc_simple_keys s))) s).
Proof.
  intros [Hok Hb Hc Hl] Hk. by split; [apply weaker_keys_ok|apply weaker_keys_behind|..].
Qed.

(** At the start of a line a key that is behind is stale. *)
Lemma ended_no_key s :
  ended s -> Forall (fun k => is_stale (sc_mark s) k = false) (stk_items (sc_simple_keys s)) ->
  key_at_head s = false.
Proof.
  intros [Hok Hb Hc _] Hf. unfold key_at_head. apply not_true_iff_false.
  intros (k & Hin & [Hp _]%andb_true_iff)%existsb_exists. apply list_elem_of_In in Hin.
  pose proof (proj1 (Forall_forall _ _) Hf k Hin) as Hs.
  pose proof (proj1 (Forall_forall _ _) Hb k Hin Hp) as Hlt.
  pose proof (proj1 (Forall_forall _ _) (tk_keys _ Hok) k Hin Hp) as (_ & _ & Hcol).
  unfold is_stale in Hs. rewrite Hp in Hs. simpl in Hs. apply orb_false_iff in Hs as [Hs _].
  apply Z.ltb_ge in Hs. unfold mark_lt in Hlt. lia.
Qed.

Lemma advanced_idle s s' : budget s -> advanced s s' -> idle s' /\ (all_left s' <= all_left s)%nat.
Proof.
  intros [] [Hs _ Ht Hp]. fold (all_left s) (all_left s') in Ht.
  split; [split; [tauto|]|done]. split; rewrite Hp; lia.
Qed.

(** What a round leaves: a state to go on from, or tokens that are ready. *)
Definition round_done (s : scanner) (r : unit + unit) (s' : scanner) : Prop :=
  (all_left s' <= all_left s)%nat /\ match r with
  | inl _ => idle s' /\ (chars_left s' + phase s' < chars_left s + phase s)%nat
  | inr _ => ready s'
  end.

(** Fetching from a state [s1] that differs from [s] in simple keys. *)
Lemma wp_fetch_round s s1 :
  unstarted s1 \/ running s1 -> budget s1 -> all_left s1 = all_left s ->
  (chars_left s1 + phase s1 = chars_left s + phase s)%nat ->
  wp (_ ← yaml_parser_fetch_next_token alloc; mret (inl tt)) (round_done s) s1.
Proof.
  intros Hs1 Hb1 Ha1 Hp1. sstep.
  assert (forall s', advanced s1 s' -> wp (mret (inl tt)) (round_done s) s') as Hdone.
  { intros s' Hs'. sstep. destruct (advanced_idle _ _ Hb1 Hs'). pose proof (ad_less _ _ Hs').
    split; [lia|]. split; [done|lia]. }
  destruct Hs1; [by apply wp_fetch_next_unstarted|by apply wp_fetch_next_running].
Qed.

Lemma wp_fetch_more_step s : idle s -> wp (fetch_more_step alloc tt) (round_done s) s.
Proof.
  intros [Hst Hbud]. unfold fetch_more_step. do 3 sstep.
  destruct (qu_items (sc_tokens s)) as [|t items] eqn:Hit.
  - sstep. cbn [negb]. apply wp_fetch_round; [|done..]. destruct Hst as [H|[H|H] ]; [by left|by right|].
    destruct (en_last _ H) as (t & Hl & _). by rewrite Hit in Hl.
  - sstep. apply wp_stale_simple_keys. intros keys' Hw Hf. do 2 sstep. sstep.
    remember (set_simple_keys _ s) as s1 eqn:Hs1.
    assert (budget s1 /\ all_left s1 = all_left s /\ chars_left s1 = chars_left s /\ phase s1 = phase s
      /\ qu_items (sc_tokens s1) = qu_items (sc_tokens s)) as (Hb1 & Ha1 & Hc1 & Hp1 & Hi1)
      by (by subst s1).
    assert (running s1 \/ ended s1 /\ key_at_head s1 = false) as Hrun.
    { subst s1. destruct Hst as [H|[H|H] ].
      - destruct (un_tokens _ H) as [H' _]. by rewrite Hit in H'.
      - left. by apply weaker_running.
      - pose proof (weaker_ended _ _ H Hw). right. split; [done|]. by apply ended_no_key. }
    destruct (key_at_head s1) eqn:Hk; cbn [negb].
    + apply wp_fetch_round; [|done|done|lia]. right. by destruct Hrun as [H|[_ H] ].
    + sstep. split; [lia|]. split_and!; [tauto|done|by rewrite Hi1, Hit|done].
Qed.

Lemma phase_range s : (phase s <= 2)%nat.
Proof. unfold phase. repeat case_match; lia. Qed.

Lemma wp_fetch_more_tokens s :
  idle s ->
  wp (yaml_parser_fetch_more_tokens alloc)
    (fun _ s' => ready s' /\ (all_left s' <= all_left s)%nat) s.
Proof.
  intros Hs. unfold yaml_parser_fetch_more_tokens. do 2 sstep. pose proof (phase_range s).
  apply mwp_iter with (I := fun _ s' => idle s' /\ (all_left s' <= all_left s)%nat)
    (mu := fun _ s' => (chars_left s' + phase s')%nat); [done|lia|].
  intros [] s1 [Hs1 Hl1]. eapply mwp_mono; [by apply wp_fetch_more_step|].
  intros [ [] | [] ] s2 [Hl2 H2]; [destruct H2|]; split_and!; done || lia.
Qed.
End dispatch.

(** ** Consuming a token *)

Section dequeue.

Lemma dequeue_tokens_ok s :
  tokens_ok s -> qu_items (sc_tokens s) <> [] -> key_at_head s = false ->
  0 <= sc_tokens_parsed s < TOKEN_MAX -> tokens_ok (dequeue s).
Proof.
  intros [] Hne Hk Hp. destruct (qu_items (sc_tokens s)) as [|t items] eqn:Hit; [done|].
  assert (u64 (sc_tokens_parsed s + 1) = sc_tokens_parsed s + 1) as Hu
    by (apply wrap_small; unfold fits, TOKEN_MAX in *; lia).
  split; try done.
  - destruct tk_queue. rewrite Hit, zlen_cons in *. split; simpl; rewrite ?Hit; simpl; lia.
  - apply Forall_forall. intros k Hin Hpos. simpl in *. rewrite Hu.
    destruct (proj1 (Forall_forall _ _) tk_keys k Hin Hpos) as (H1 & H2 & H3).
    rewrite Hit, zlen_cons in *. simpl in *. split_and!; [|lia|done|lia..].
    assert (sk_token_number k <> sc_tokens_parsed s); [|lia]. intros Heq.
    assert (key_at_head s = true); [|congruence]. apply existsb_exists. exists k.
    split; [by apply list_elem_of_In|]. rewrite Hpos, Heq. apply Z.eqb_refl.
Qed.

Lemma last_tail {A} (l : list A) t : last (tail l) = Some t -> last l = Some t.
Proof. destruct l as [|a [|b l] ]; done. Qed.

Lemma dequeue_running s :
  running s -> qu_items (sc_tokens s) <> [] -> key_at_head s = false ->
  0 <= sc_tokens_parsed s < TOKEN_MAX -> running (dequeue s).
Proof.
  intros [Hok Hb Hst Hl] Hne Hk Hp. split; [by apply dequeue_tokens_ok|done| |].
  - destruct Hst as [cs Hst]. exists cs. by destruct Hst as [Hc [] ]; split.
  - intros t Ht. by apply Hl, last_tail.
Qed.

Lemma dequeue_ended s t :
  ended s -> head (qu_items (sc_tokens s)) = Some t -> token_data t <> tok_stream_end ->
  key_at_head s = false -> 0 <= sc_tokens_parsed s < TOKEN_MAX -> ended (dequeue s).
Proof.
  intros [Hok Hb Hc (e & He & Hd)] Ht Hn Hk Hp.
  destruct (qu_items (sc_tokens s)) as [|t' [|u items] ] eqn:Hit; [done| |].
  - simpl in *. congruence.
  - split; [|done|done|].
    + apply dequeue_tokens_ok; try done. by rewrite Hit.
    + exists e. by simpl; rewrite Hit.
Qed.

Lemma dequeue_left s :
  qu_items (sc_tokens s) <> [] -> tokens_left s = S (tokens_left (dequeue s)).
Proof. unfold tokens_left. simpl. by destruct (qu_items (sc_tokens s)). Qed.

Lemma ready_dequeue s t :
  ready s -> head (qu_items (sc_tokens s)) = Some t -> token_data t <> tok_stream_end ->
  idle (dequeue s) /\ (all_left (dequeue s) < all_left s)%nat.
Proof.
  intros (Hs & [H0 Hb] & Hne & Hk) Ht Hn. pose proof (dequeue_left s Hne) as Hl.
  assert (0 <= sc_tokens_parsed s < TOKEN_MAX) as Hp by (unfold all_left in Hb; lia).
  assert ((running (dequeue s) \/ ended (dequeue s)) /\ phase (dequeue s) = phase s) as [Hs' Hph].
  { destruct Hs as [Hs|Hs].
    - pose proof (dequeue_running s Hs Hne Hk Hp) as Hr. by rewrite !running_phase; [split; [left|]|..].
    - pose proof (dequeue_ended s t Hs Ht Hn Hk Hp) as Hr. by rewrite !ended_phase; [split; [right|]|..]. }
  assert (S (all_left (dequeue s)) = all_left s) as Ha.
  { unfold all_left. rewrite Hph, Hl. change (chars_left (dequeue s)) with (chars_left s). lia. }
  split; [|lia]. split; [tauto|]. split; change (sc_tokens_parsed (dequeue s))
    with (u64 (sc_tokens_parsed s + 1)); rewrite wrap_small by (unfold fits, TOKEN_MAX in *; lia); lia.
Qed.
End dequeue.

(** ** The laws *)

#[export, refine] Instance libyaml_scanner_laws : ScannerLaws running_scanner := {
  scan_left rs := all_left (rs_scanner rs);
  scan_idle rs := idle (rs_scanner rs);
  scan_ready rs := ready (rs_scanner rs);
  scan_silent rs := exists n, rs_alloc rs n = false;
}.
Proof.
  - intros [alloc s] Hs. pose proof (wp_fetch_more_tokens alloc s Hs) as Hf. unfold mwp in Hf.
    simpl. by destruct (yaml_parser_fetch_more_tokens alloc s) as [ [ [ [] |e] s']|].
  - intros [alloc s] (_ & _ & Hne & _). simpl in *. destruct (qu_items _); [done|]. by eexists.
  - intros [alloc s] t Hs Ht Hn. by eapply ready_dequeue.
  - intros [alloc s] (_ & _ & Hne & _). simpl in *. unfold all_left.
    rewrite (dequeue_left s Hne). lia.
  - intros [alloc s] t Hs Ht Hn. by eapply ready_dequeue.
Defined.

Lemma scanner_initial_left input :
  all_left (scanner_initial input) = (8 * length input + 12)%nat.
Proof. unfold all_left, chars_left, reader_left, tokens_left, phase. simpl. lia. Qed.

(** The scanner of an input that is not too long may start. *)
Lemma scanner_initial_idle input :
  2 * zlen input + 1 <= POSITION_MAX -> idle (scanner_initial input).
Proof.
  intros Hlen. assert (chars_left (scanner_initial input) = 2 * length input + 1)%nat as Hc
    by (unfold chars_left, reader_left; simpl; lia).
  split.
  - left. split; try done; try (split; [done|split; vm_compute; congruence]).
    exists []. split.
    + exists []. split; [|done]. split; simpl; try done; split; vm_compute; congruence.
    + split; simpl; try lia. rewrite Hc. unfold zlen in Hlen. lia.
  - unfold budget. rewrite scanner_initial_left. simpl (sc_tokens_parsed _).
    unfold zlen, POSITION_MAX, INT_MAX, TOKEN_MAX in *. lia.
Qed.
