(* ===== verification/YamlParserProofs.v ===== *)
(** * Correctness of the event parser

    A weakest-precondition calculus for the parser monad, the invariant of the
    state machine, and the lemma every theorem about the parser rests on:
    [state_machine_step]. *)
From Stdlib Require Import ZArith Lia.
From stdpp Require Import base list option numbers strings.
From S2P Require Import Prelude YamlTypes YamlParser.

(** ** The event automaton: what well-nested event streams look like *)

Inductive octx := OStart | OStream | ODocNode | ODocEnd | OSeq | OKey | OVal | OEnd.

(** The context after a node was emitted in it. *)
Definition after_node (c : octx) : option octx :=
  match c with
  | ODocNode => Some ODocEnd
  | OSeq => Some OSeq
  | OKey => Some OVal
  | OVal => Some OKey
  | _ => None
  end.

Definition estep (k : ykind) (cs : list octx) : option (list octx) :=
  match k, cs with
  | KStreamStart, [OStart] => Some [OStream]
  | KDocumentStart, [OStream] => Some [ODocNode; OStream]
  | KDocumentEnd, [ODocEnd; OStream] => Some [OStream]
  | KStreamEnd, [OStream] => Some [OEnd]
  | KAlias, c :: cs | KScalar _, c :: cs => c ← after_node c; Some (c :: cs)
  | KSeqStart, c :: cs => c ← after_node c; Some (OSeq :: c :: cs)
  | KMapStart, c :: cs => c ← after_node c; Some (OKey :: c :: cs)
  | KSeqEnd, OSeq :: cs => Some cs
  | KMapEnd, OKey :: cs => Some cs
  | _, _ => None
  end.

Fixpoint esteps (ks : list ykind) (cs : list octx) : option (list octx) :=
  match ks with
  | [] => Some cs
  | k :: ks => cs ← estep k cs; esteps ks cs
  end.

(** ** The invariant's vocabulary *)

(** The event contexts a parser state stands for. *)
Definition frames_of (s : yaml_parser_state_t) : list octx :=
  match s with
  | YAML_PARSE_STREAM_START_STATE => [OStart]
  | YAML_PARSE_IMPLICIT_DOCUMENT_START_STATE | YAML_PARSE_DOCUMENT_START_STATE => [OStream]
  | YAML_PARSE_DOCUMENT_END_STATE => [ODocEnd; OStream]
  | YAML_PARSE_BLOCK_SEQUENCE_FIRST_ENTRY_STATE | YAML_PARSE_BLOCK_SEQUENCE_ENTRY_STATE
  | YAML_PARSE_INDENTLESS_SEQUENCE_ENTRY_STATE
  | YAML_PARSE_FLOW_SEQUENCE_FIRST_ENTRY_STATE | YAML_PARSE_FLOW_SEQUENCE_ENTRY_STATE => [OSeq]
  | YAML_PARSE_BLOCK_MAPPING_FIRST_KEY_STATE | YAML_PARSE_BLOCK_MAPPING_KEY_STATE
  | YAML_PARSE_FLOW_MAPPING_FIRST_KEY_STATE | YAML_PARSE_FLOW_MAPPING_KEY_STATE => [OKey]
  | YAML_PARSE_BLOCK_MAPPING_VALUE_STATE | YAML_PARSE_FLOW_MAPPING_VALUE_STATE
  | YAML_PARSE_FLOW_MAPPING_EMPTY_VALUE_STATE => [OVal]
  | YAML_PARSE_FLOW_SEQUENCE_ENTRY_MAPPING_KEY_STATE
  | YAML_PARSE_FLOW_SEQUENCE_ENTRY_MAPPING_END_STATE => [OKey; OSeq]
  | YAML_PARSE_FLOW_SEQUENCE_ENTRY_MAPPING_VALUE_STATE => [OVal; OSeq]
  | YAML_PARSE_END_STATE => [OEnd]
  | YAML_PARSE_BLOCK_NODE_STATE | YAML_PARSE_DOCUMENT_CONTENT_STATE
  | YAML_PARSE_BLOCK_NODE_OR_INDENTLESS_SEQUENCE_STATE | YAML_PARSE_FLOW_NODE_STATE => []
  end.

Definition contexts (s : yaml_parser_state_t) (states : list yaml_parser_state_t) : list octx :=
  match s with
  | YAML_PARSE_BLOCK_NODE_STATE | YAML_PARSE_DOCUMENT_CONTENT_STATE => [ODocNode; OStream]
  | _ => frames_of s ++ flat_map frames_of states
  end.

(** States a collection is in between two of its children. *)
Definition is_collection (s : yaml_parser_state_t) : bool :=
  match s with
  | YAML_PARSE_BLOCK_SEQUENCE_ENTRY_STATE | YAML_PARSE_INDENTLESS_SEQUENCE_ENTRY_STATE
  | YAML_PARSE_BLOCK_MAPPING_KEY_STATE | YAML_PARSE_BLOCK_MAPPING_VALUE_STATE
  | YAML_PARSE_FLOW_SEQUENCE_ENTRY_STATE
  | YAML_PARSE_FLOW_SEQUENCE_ENTRY_MAPPING_KEY_STATE
  | YAML_PARSE_FLOW_SEQUENCE_ENTRY_MAPPING_VALUE_STATE
  | YAML_PARSE_FLOW_SEQUENCE_ENTRY_MAPPING_END_STATE
  | YAML_PARSE_FLOW_MAPPING_KEY_STATE | YAML_PARSE_FLOW_MAPPING_VALUE_STATE
  | YAML_PARSE_FLOW_MAPPING_EMPTY_VALUE_STATE => true
  | _ => false
  end.

(** States that open a collection whose start token is at the head. *)
Definition is_first (s : yaml_parser_state_t) : bool :=
  match s with
  | YAML_PARSE_BLOCK_SEQUENCE_FIRST_ENTRY_STATE | YAML_PARSE_BLOCK_MAPPING_FIRST_KEY_STATE
  | YAML_PARSE_FLOW_SEQUENCE_FIRST_ENTRY_STATE | YAML_PARSE_FLOW_MAPPING_FIRST_KEY_STATE => true
  | _ => false
  end.

(** The number of marks a state has on the marks stack. *)
Definition marks_of (s : yaml_parser_state_t) : nat :=
  if is_collection s && negb (bool_decide (s = YAML_PARSE_INDENTLESS_SEQUENCE_ENTRY_STATE))
  then 1 else 0.

Definition count_marks (l : list yaml_parser_state_t) : nat :=
  foldr (fun s n => marks_of s + n)%nat 0%nat l.

(** The continuations of a node: collections down to the end of the document. *)
Fixpoint is_conts (l : list yaml_parser_state_t) : bool :=
  match l with
  | [] => false
  | [s] => bool_decide (s = YAML_PARSE_DOCUMENT_END_STATE)
  | s :: l => is_collection s && is_conts l
  end.

Definition shape (s : yaml_parser_state_t) (states : list yaml_parser_state_t) : bool :=
  match s with
  | YAML_PARSE_STREAM_START_STATE | YAML_PARSE_IMPLICIT_DOCUMENT_START_STATE
  | YAML_PARSE_DOCUMENT_START_STATE | YAML_PARSE_DOCUMENT_END_STATE
  | YAML_PARSE_END_STATE => bool_decide (states = [])
  | YAML_PARSE_BLOCK_NODE_STATE | YAML_PARSE_DOCUMENT_CONTENT_STATE =>
      bool_decide (states = [YAML_PARSE_DOCUMENT_END_STATE])
  | s => (is_collection s || is_first s) && is_conts states
  end.

(** The weight of a state in the termination measure. *)
Definition weight (s : yaml_parser_state_t) : nat :=
  match s with
  | YAML_PARSE_END_STATE => 0
  | YAML_PARSE_BLOCK_SEQUENCE_FIRST_ENTRY_STATE | YAML_PARSE_BLOCK_MAPPING_FIRST_KEY_STATE
  | YAML_PARSE_FLOW_SEQUENCE_FIRST_ENTRY_STATE | YAML_PARSE_FLOW_MAPPING_FIRST_KEY_STATE
  | YAML_PARSE_BLOCK_MAPPING_VALUE_STATE | YAML_PARSE_FLOW_MAPPING_VALUE_STATE
  | YAML_PARSE_FLOW_MAPPING_EMPTY_VALUE_STATE
  | YAML_PARSE_FLOW_SEQUENCE_ENTRY_MAPPING_END_STATE
  | YAML_PARSE_DOCUMENT_END_STATE => 2
  | YAML_PARSE_FLOW_SEQUENCE_ENTRY_MAPPING_VALUE_STATE
  | YAML_PARSE_BLOCK_NODE_STATE | YAML_PARSE_DOCUMENT_CONTENT_STATE => 3
  | YAML_PARSE_FLOW_SEQUENCE_ENTRY_MAPPING_KEY_STATE
  | YAML_PARSE_IMPLICIT_DOCUMENT_START_STATE => 6
  | _ => 1
  end.

Definition total_weight (l : list yaml_parser_state_t) : nat :=
  foldr (fun s n => weight s + n)%nat 0%nat l.

Definition TOKEN_WEIGHT : nat := 20.

Definition measure (left : nat) (s : yaml_parser_state_t) (states : list yaml_parser_state_t)
    : nat := (TOKEN_WEIGHT * left + total_weight (s :: states))%nat.

Section proofs.
Context {SC : Type} `{HS : Scanner SC} `{!ScannerLaws SC}.
Abbreviation parser := (@yaml_parser_t SC).

(** ** Weakest preconditions

    Success establishes [Q]; failure leaves an error code, unless the scanner was refused
    an allocation and set none; running out of fuel and undefined behaviour are excluded. *)
Definition failed (p : parser) : Prop :=
  p_error p <> YAML_NO_ERROR \/ scan_silent (p_scanner p).

Definition wp {A} (m : PM A) (Q : A -> parser -> Prop) (p : parser) : Prop :=
  match m p with
  | Done (POk a, p') => Q a p'
  | Done (PFail, p') => failed p'
  | Done (PFuel, _) => False
  | Undef => False
  end.

Lemma wp_ret {A} (a : A) Q p : Q a p -> wp (mret a) Q p.
Proof. done. Qed.

Lemma wp_bind {A B} (m : PM A) (k : A -> PM B) Q p :
  wp m (fun a p' => wp (k a) Q p') p -> wp (m ≫= k) Q p.
Proof.
  unfold wp, mbind, pm_bind. destruct (m p) as [[[a| |] p']|]; done.
Qed.

Lemma wp_mono {A} (m : PM A) (Q R : A -> parser -> Prop) p :
  wp m Q p -> (forall a p', Q a p' -> R a p') -> wp m R p.
Proof. unfold wp. intros Hm HQ. destruct (m p) as [[[a| |] p']|]; eauto. Qed.

Lemma wp_gets {A} (f : parser -> A) Q p : Q (f p) p -> wp (gets f) Q p.
Proof. done. Qed.

Lemma wp_modify f Q p : Q tt (f p) -> wp (modify f) Q p.
Proof. done. Qed.

(** Before the end of the stream the scanner is ready to deliver or to fetch. *)
Definition scanner_usable (ended available : bool) (s : SC) : Prop :=
  ended = false -> if available then scan_ready s else scan_idle s.

(** [at_ p ended s states marks tok left]: the observable part of the parser. *)
Definition at_ (p : parser) (ended : bool) (s : yaml_parser_state_t)
    (states : list yaml_parser_state_t) (marks : nat) (tok : option yaml_token_t)
    (left : nat) : Prop :=
  p_error p = YAML_NO_ERROR
  /\ p_stream_end_produced p = ended
  /\ p_state p = s
  /\ stk_items (p_states p) = states
  /\ length (stk_items (p_marks p)) = marks
  /\ scanner_usable ended (p_token_available p) (p_scanner p)
  /\ (match tok with
      | Some t => p_token_available p = true /\ scan_head (p_scanner p) = Some t
      | None => True
      end)
  /\ (ended = false -> (scan_left (p_scanner p) <= left)%nat).

Ltac at_solve :=
  unfold at_ in *; simpl in *; destruct_and?; split_and!;
  first [ assumption | exact I | congruence | lia | by intros; eauto ].

Lemma wp_PEEK Q p s sts nm tok T :
  at_ p false s sts nm tok T ->
  (forall t p', at_ p' false s sts nm (Some t) T -> Q t p') ->
  wp PEEK_TOKEN Q p.
Proof.
  intros (He & Hend & Hs & Hst & Hm & Hav & Htok & Hl) HQ.
  unfold scanner_usable in Hav. specialize (Hav eq_refl).
  unfold wp, PEEK_TOKEN. destruct (p_token_available p) eqn:Ha.
  - destruct (scan_ready_head _ Hav) as [t Ht]. rewrite Ht. apply HQ.
    unfold at_, scanner_usable; simpl. rewrite Ha. by split_and!.
  - pose proof (scan_fetch_spec _ Hav) as Hf.
    destruct (scan_fetch (p_scanner p)) as [[[err|] s']|]; [done| |done].
    destruct Hf as [Hr Hle]. destruct (scan_ready_head _ Hr) as [t Ht].
    rewrite Ht. apply HQ. unfold at_, scanner_usable; simpl. split_and!; eauto. specialize (Hl eq_refl). lia.
Qed.

(** Peeking again gives the same token. *)
Lemma wp_PEEK_same Q p e s sts nm t T :
  at_ p e s sts nm (Some t) T -> Q t p -> wp PEEK_TOKEN Q p.
Proof.
  intros (He & Hend & Hs & Hst & Hm & Hav & [Ha Ht] & Hl) HQ. unfold wp, PEEK_TOKEN.
  by rewrite Ha, Ht.
Qed.

Lemma wp_PEEK_deref Q p e s sts nm t T :
  at_ p e s sts nm (Some t) T -> Q t p -> wp PEEK_TOKEN_deref Q p.
Proof.
  intros (He & Hend & Hs & Hst & Hm & Hav & [Ha Ht] & Hl) HQ.
  unfold wp, PEEK_TOKEN_deref, PEEK_TOKEN. by rewrite Ha, Ht.
Qed.

Lemma stream_end_data t :
  token_is t YAML_STREAM_END_TOKEN = false -> token_data t <> tok_stream_end.
Proof. unfold token_is, token_type. intros Ht Hd. by rewrite Hd in Ht. Qed.

Lemma wp_SKIP Q p s sts nm t T :
  at_ p false s sts nm (Some t) T ->
  (forall p' T', T = S T' ->
     at_ p' (token_is t YAML_STREAM_END_TOKEN) s sts nm None T' -> Q tt p') ->
  wp SKIP_TOKEN Q p.
Proof.
  intros (He & Hend & Hs & Hst & Hm & Hav & [Ha Ht] & Hl) HQ.
  unfold scanner_usable in Hav. specialize (Hav eq_refl). rewrite Ha in Hav. unfold wp, SKIP_TOKEN.
  rewrite Ht. specialize (Hl eq_refl). pose proof (scan_ready_left (p_scanner p) Hav).
  apply (HQ _ (pred T)); [lia|]. unfold at_, scanner_usable; simpl.
  split_and!; try done; intros Hne%stream_end_data.
  - by eapply scan_advance_idle.
  - pose proof (scan_advance_left (p_scanner p) t Hav Ht Hne). lia.
Qed.

Lemma wp_malloc alloc Q p e s sts nm tok T :
  at_ p e s sts nm tok T ->
  (forall b p', at_ p' e s sts nm tok T -> Q b p') ->
  wp (yaml_malloc alloc) Q p.
Proof. intros Hp HQ. apply HQ. at_solve. Qed.

Lemma wp_memory_error {A} (Q : A -> parser -> Prop) p : wp memory_error Q p.
Proof. by left. Qed.

Lemma wp_parser_error {A} pr m (Q : A -> parser -> Prop) p :
  wp (yaml_parser_set_parser_error pr m) Q p.
Proof. by left. Qed.

Lemma wp_parser_error_context {A} c cm pr m (Q : A -> parser -> Prop) p :
  wp (yaml_parser_set_parser_error_context c cm pr m) Q p.
Proof. by left. Qed.

Lemma wp_set_state Q p e s sts nm tok T s' :
  at_ p e s sts nm tok T ->
  (forall p', at_ p' e s' sts nm tok T -> Q tt p') ->
  wp (set_state s') Q p.
Proof. intros Hp HQ. apply HQ. at_solve. Qed.

(** A push reads and writes one stack; it grows it or fails. *)
Lemma wp_stack_push {A} alloc elem (st : stack A) a Q p e s sts nm tok T :
  at_ p e s sts nm tok T ->
  (forall st' p', stk_items st' = a :: stk_items st -> at_ p' e s sts nm tok T -> Q st' p') ->
  wp (stack_push alloc elem st a) Q p.
Proof.
  intros Hp HQ. unfold stack_push. case_bool_decide; [by apply HQ|].
  apply wp_bind. unfold yaml_stack_extend.
  destruct (INT_MAX / 2 <=? stk_cap st * elem); [apply wp_ret, wp_memory_error|].
  apply wp_bind. eapply wp_malloc; [exact Hp|]. intros [|] p' Hp'; apply wp_ret.
  - by apply HQ.
  - apply wp_memory_error.
Qed.

Lemma wp_PUSH_state alloc Q p e s sts nm tok T s' :
  at_ p e s sts nm tok T ->
  (forall p', at_ p' e s (s' :: sts) nm tok T -> Q tt p') ->
  wp (PUSH_state alloc s') Q p.
Proof.
  intros Hp HQ. unfold PUSH_state. apply wp_bind. unfold gets, wp at 1.
  apply wp_bind. eapply wp_stack_push; [exact Hp|]. intros st' p' Hst Hp'.
  apply HQ. at_solve.
Qed.

Lemma wp_PUSH_mark alloc Q p e s sts nm tok T m :
  at_ p e s sts nm tok T ->
  (forall p', at_ p' e s sts (S nm) tok T -> Q tt p') ->
  wp (PUSH_mark alloc m) Q p.
Proof.
  intros Hp HQ. unfold PUSH_mark. apply wp_bind. unfold gets, wp at 1.
  apply wp_bind. eapply wp_stack_push; [exact Hp|]. intros st' p' Hst Hp'.
  apply HQ. unfold at_ in *. simpl. rewrite Hst. simpl. at_solve.
Qed.

Lemma wp_PUSH_tag_directive alloc Q p e s sts nm tok T d :
  at_ p e s sts nm tok T ->
  (forall p', at_ p' e s sts nm tok T -> Q tt p') ->
  wp (PUSH_tag_directive alloc d) Q p.
Proof.
  intros Hp HQ. unfold PUSH_tag_directive. apply wp_bind. unfold gets, wp at 1.
  apply wp_bind. eapply wp_stack_push; [exact Hp|]. intros st' p' Hst Hp'.
  apply HQ. at_solve.
Qed.

Lemma wp_POP_state Q p e s s' sts nm tok T :
  at_ p e s (s' :: sts) nm tok T ->
  (forall p', at_ p' e s sts nm tok T -> Q s' p') ->
  wp POP_state Q p.
Proof.
  intros Hp HQ. pose proof Hp as (_ & _ & _ & Hst & _).
  unfold POP_state, wp, gets, mbind, pm_bind. rewrite Hst. simpl.
  apply HQ. at_solve.
Qed.

Lemma wp_POP_mark Q p e s sts nm tok T :
  at_ p e s sts (S nm) tok T ->
  (forall m p', at_ p' e s sts nm tok T -> Q m p') ->
  wp POP_mark Q p.
Proof.
  intros Hp HQ. pose proof Hp as (_ & _ & _ & _ & Hm & _).
  unfold POP_mark, wp, gets, mbind, pm_bind.
  destruct (stk_items (p_marks p)) as [|m ms] eqn:Hms; [done|]. simpl in *.
  apply HQ. at_solve.
Qed.

(** ** Symbolic execution *)

Lemma token_is_other t a b : token_is t a = true -> a <> b -> token_is t b = false.
Proof. unfold token_is. intros H%bool_decide_eq_true ?. apply bool_decide_eq_false. congruence. Qed.

Lemma wp_SKIP_inner Q p s sts nm t T :
  at_ p false s sts nm (Some t) T -> token_is t YAML_STREAM_END_TOKEN = false ->
  (forall p' T', T = S T' -> at_ p' false s sts nm None T' -> Q tt p') ->
  wp SKIP_TOKEN Q p.
Proof. intros Hp Ht HQ. eapply wp_SKIP; [exact Hp|]. by rewrite Ht. Qed.

Lemma wp_check_nesting Q p e s sts nm tok T m t :
  at_ p e s sts nm tok T -> Q tt p -> wp (check_nesting m t) Q p.
Proof.
  intros Hp HQ. unfold check_nesting, STACK_LIMIT_indents, wp, gets, mbind, pm_bind.
  destruct (scan_indents (p_scanner p) <? _); [done|by left].
Qed.

Lemma wp_empty_scalar alloc Q p e s sts nm tok T m :
  at_ p e s sts nm tok T ->
  (forall ev p', event_kind (event_data ev) = KScalar [] ->
     at_ p' e s sts nm tok T -> Q ev p') ->
  wp (yaml_parser_process_empty_scalar alloc m) Q p.
Proof.
  intros Hp HQ. unfold yaml_parser_process_empty_scalar. apply wp_bind.
  eapply wp_malloc; [exact Hp|]. intros [|] p' Hp'; [|apply wp_memory_error].
  by apply HQ.
Qed.
End proofs.

(** The token at hand is not STREAM-END. *)
Ltac not_stream_end :=
  first [ assumption
        | eapply token_is_other; [eassumption|discriminate]
        | match goal with
          | H : token_data ?t = _ |- token_is ?t _ = false =>
              unfold token_is, token_type; rewrite H; reflexivity
          end ].

(** One step of symbolic execution of the parser monad. *)
Ltac pstep :=
  lazymatch goal with
  | |- wp (_ ≫= _) _ _ => apply wp_bind
  | |- wp (mret _) _ _ => apply wp_ret
  | |- wp (event _ _ _) _ _ => apply wp_ret
  | |- wp (gets _) _ _ => apply wp_gets
  | |- wp memory_error _ _ => apply wp_memory_error
  | |- wp (yaml_parser_set_parser_error _ _) _ _ => apply wp_parser_error
  | |- wp (yaml_parser_set_parser_error_context _ _ _ _) _ _ => apply wp_parser_error_context
  | |- wp PEEK_TOKEN _ _ =>
      first [ eapply wp_PEEK_same; [eassumption|]
            | eapply wp_PEEK; [eassumption|intros ? ? ?] ]
  | |- wp SKIP_TOKEN _ _ =>
      eapply wp_SKIP_inner; [eassumption|not_stream_end|intros ? ? -> ?]
  | |- wp (set_state _) _ _ => eapply wp_set_state; [eassumption|intros ? ?]
  | |- wp (yaml_malloc _) _ _ => eapply wp_malloc; [eassumption|intros ? ? ?]
  | |- wp (PUSH_state _ _) _ _ => eapply wp_PUSH_state; [eassumption|intros ? ?]
  | |- wp (PUSH_mark _ _) _ _ => eapply wp_PUSH_mark; [eassumption|intros ? ?]
  | |- wp POP_state _ _ => eapply wp_POP_state; [eassumption|intros ? ?]
  | |- wp POP_mark _ _ => eapply wp_POP_mark; [eassumption|intros ? ? ?]
  | |- wp (check_nesting _ _) _ _ => eapply wp_check_nesting; [eassumption|]
  | |- wp (yaml_parser_process_empty_scalar _ _) _ _ =>
      eapply wp_empty_scalar; [eassumption|intros ? ? ? ?]
  | |- wp (if negb ?b then _ else _) _ _ => destruct b eqn:?; cbn [negb]
  | |- wp (if ?b then _ else _) _ _ => destruct b eqn:?
  | |- wp (match ?x with _ => _ end) _ _ => destruct x eqn:?
  end.

Section handlers.
Context {SC : Type} `{HS : Scanner SC} `{!ScannerLaws SC} (alloc : nat -> bool).
Abbreviation parser := (@yaml_parser_t SC).

(** ** Directives *)

Lemma wp_append_tag_directive Q p e s sts nm tok T d dup m :
  at_ p e s sts nm tok T ->
  (forall p', at_ p' e s sts nm tok T -> Q tt p') ->
  wp (yaml_parser_append_tag_directive alloc d dup m) Q p.
Proof.
  intros Hp HQ. unfold yaml_parser_append_tag_directive. apply wp_bind.
  unfold gets, wp at 1. repeat pstep; [by apply HQ|].
  eapply wp_PUSH_tag_directive; [eassumption|exact HQ].
Qed.

Lemma wp_append_defaults Q p e s sts nm tok T l m :
  at_ p e s sts nm tok T ->
  (forall p', at_ p' e s sts nm tok T -> Q tt p') ->
  wp (append_default_tag_directives alloc l m) Q p.
Proof.
  revert p. induction l as [|d l IH]; intros p Hp HQ; [by apply HQ|].
  cbn [append_default_tag_directives]. apply wp_bind.
  eapply wp_append_tag_directive; [exact Hp|]. eauto.
Qed.

(** The loop needs one unit of fuel per token; it ends with a peeked token. *)
Lemma wp_directives_loop fuel token version local Q p s sts nm T :
  at_ p false s sts nm (Some token) T -> (T < fuel)%nat ->
  (forall v l t p' T', (T' <= T)%nat -> at_ p' false s sts nm (Some t) T' ->
     (T' < T)%nat \/ t = token -> Q (v, l, t) p') ->
  wp (process_directives_loop alloc fuel token version local) Q p.
Proof.
  revert token version local p T.
  induction fuel as [|fuel IH]; intros token version local p T Hp Hfuel HQ; [lia|].
  cbn [process_directives_loop].
  destruct (token_data token) eqn:Hd; try (apply wp_ret; eapply HQ; eauto; done).
  - repeat pstep. eapply IH; [eassumption|lia|].
    intros ? ? ? ? T2 Hle HpE _. eapply HQ; [|exact HpE|left]; lia.
  - apply wp_bind. eapply wp_append_tag_directive; [exact Hp|]. intros p1 Hp1.
    apply wp_bind. eapply wp_stack_push; [exact Hp1|]. intros local' p2 _ Hp2.
    repeat pstep. eapply IH; [eassumption|lia|].
    intros ? ? ? ? T2 Hle HpE _. eapply HQ; [|exact HpE|left]; lia.
Qed.

Lemma wp_process_directives fuel Q p s sts nm token T :
  at_ p false s sts nm (Some token) T -> (T < fuel)%nat ->
  (forall r t p' T', (T' <= T)%nat -> at_ p' false s sts nm (Some t) T' -> Q r p') ->
  wp (yaml_parser_process_directives alloc fuel) Q p.
Proof.
  intros Hp Hfuel HQ. unfold yaml_parser_process_directives. repeat pstep.
  eapply wp_directives_loop; [eassumption|lia|]. intros ? ? ? ? T2 Hle Hp2 _.
  apply wp_bind. eapply wp_append_defaults; [exact Hp2|]. intros p3 Hp3.
  apply wp_ret. eauto.
Qed.

Lemma wp_skip_document_ends fuel token Q p s sts nm T :
  at_ p false s sts nm (Some token) T -> (T < fuel)%nat ->
  (forall t p' T', (T' <= T)%nat -> at_ p' false s sts nm (Some t) T' -> Q t p') ->
  wp (skip_document_ends fuel token) Q p.
Proof.
  revert token p T. induction fuel as [|fuel IH]; intros token p T Hp Hfuel HQ; [lia|].
  cbn [skip_document_ends]. repeat pstep; [|by eauto].
  eapply IH; [eassumption|lia|]. intros. eapply HQ; [|eassumption]. lia.
Qed.

(** ** Nodes *)

(** The state after a step: invariant re-established, event accepted by the
    automaton in context [c0], measure below [m0]. *)
Definition after_step (c0 : list octx) (m0 : nat) (ev : yaml_event_t) (p' : parser) : Prop :=
  exists s sts tok T,
    at_ p' (bool_decide (s = YAML_PARSE_END_STATE)) s sts (count_marks (s :: sts)) tok T
    /\ shape s sts = true
    /\ (is_first s = true ->
         exists t, tok = Some t /\ token_is t YAML_STREAM_END_TOKEN = false)
    /\ estep (event_kind (event_data ev)) c0 = Some (contexts s sts)
    /\ (measure T s sts < m0)%nat.

Lemma conts_shape s sts :
  is_conts (s :: sts) = true ->
  shape s sts = true /\ contexts s sts = frames_of s ++ flat_map frames_of sts
  /\ is_first s = false /\ bool_decide (s = YAML_PARSE_END_STATE) = false.
Proof.
  destruct sts as [|s' sts]; cbn [is_conts].
  - intros ->%bool_decide_eq_true. done.
  - intros [Hc Hs]%andb_prop. destruct s; try discriminate Hc;
      split_and!; try done; simpl; exact Hs.
Qed.

(** The contexts of a position that expects a node: [c] before the node, the
    continuation states stand for [c'] and the rest. *)
Definition node_position (c : octx) (cs : list octx) (sts : list yaml_parser_state_t) : Prop :=
  is_conts sts = true
  /\ exists c', after_node c = Some c' /\ flat_map frames_of sts = c' :: cs.

(** A leaf in a node position: the state is popped. *)
Lemma leaf_after_step c cs s sts nm tok T m0 ev p' :
  at_ p' false s sts nm tok T -> node_position c cs (s :: sts) ->
  nm = count_marks (s :: sts) ->
  (event_kind (event_data ev) = KAlias
   \/ exists v, event_kind (event_data ev) = KScalar v) ->
  (TOKEN_WEIGHT * T + total_weight (s :: sts) < m0)%nat ->
  after_step (c :: cs) m0 ev p'.
Proof.
  intros Hp [Hc (c' & Ha & Hf)] -> Hev Hm.
  destruct (conts_shape _ _ Hc) as (Hs & Hctx & Hfi & Hend).
  exists s, sts, tok, T. rewrite Hend, Hctx, Hfi. split_and!; try done.
  change (frames_of s ++ flat_map frames_of sts) with (flat_map frames_of (s :: sts)).
  rewrite Hf. destruct Hev as [-> | [v ->]]; cbn [estep]; by rewrite Ha.
Qed.

(** The state a collection start event leads to. *)
Definition opens (k : ykind) (f : yaml_parser_state_t) : Prop :=
  match k with
  | KSeqStart => frames_of f = [OSeq]
  | KMapStart => frames_of f = [OKey]
  | _ => False
  end.

Lemma open_after_step c cs f sts nm t T m0 ev p' :
  at_ p' false f sts nm (Some t) T -> node_position c cs sts ->
  nm = count_marks sts ->
  is_first f = true \/ f = YAML_PARSE_INDENTLESS_SEQUENCE_ENTRY_STATE ->
  opens (event_kind (event_data ev)) f ->
  token_is t YAML_STREAM_END_TOKEN = false ->
  (TOKEN_WEIGHT * T + 2 + total_weight sts < m0)%nat ->
  after_step (c :: cs) m0 ev p'.
Proof.
  intros Hp [Hc (c' & Ha & Hf)] -> Hfirst Hev Ht Hm.
  assert (bool_decide (f = YAML_PARSE_END_STATE) = false
    /\ marks_of f = 0%nat /\ (weight f <= 2)%nat /\ shape f sts = true
    /\ contexts f sts = frames_of f ++ flat_map frames_of sts) as (Hend & Hmk & Hw & Hs & Hctx).
  { destruct Hfirst as [Hfirst| ->]; [destruct f; try discriminate Hfirst|];
      split_and!; try done; simpl; try lia; exact Hc. }
  exists f, sts, (Some t), T. rewrite Hend, Hctx, Hf. cbn [count_marks foldr]. rewrite Hmk.
  split_and!; [exact Hp|done|eauto| |unfold measure; cbn [total_weight foldr];
    fold (total_weight sts); lia].
  unfold opens in Hev. destruct (event_kind (event_data ev)); try done; cbn [estep];
    by rewrite Ha, Hev.
Qed.

Ltac conts_destruct H :=
  let s := fresh "s" in let sts := fresh "sts" in
  match type of H with
  | node_position _ _ ?l => destruct l as [|s sts]; [by destruct H|]
  end.

(** *** [yaml_parser_parse_node] *)

Lemma wp_parse_properties Q p s sts nm token T :
  at_ p false s sts nm (Some token) T ->
  (forall props t p' T', (T' <= T)%nat -> at_ p' false s sts nm (Some t) T' ->
     ((T' < T)%nat \/ (np_anchor props = None /\ np_tag props = None)) -> Q (props, t) p') ->
  wp (parse_properties token) Q p.
Proof.
  intros Hp HQ. unfold parse_properties.
  destruct (token_data token) eqn:Hd; repeat pstep;
    (eapply HQ; [|eassumption|]); try lia; try (right; done); left; lia.
Qed.

Lemma wp_resolve_tag props Q p s sts nm tok T :
  at_ p false s sts nm tok T ->
  (forall tag p', at_ p' false s sts nm tok T ->
     (tag <> None -> np_tag props <> None) -> Q tag p') ->
  wp (resolve_tag alloc props) Q p.
Proof.
  intros Hp HQ. unfold resolve_tag.
  destruct (np_tag props) as [[[handle suffix] m]|] eqn:Ht; [|apply wp_ret; by apply HQ].
  destruct handle as [|h handle]; [apply wp_ret; by apply HQ|].
  apply wp_bind. unfold gets, wp at 1. repeat pstep. by apply HQ.
Qed.

Lemma wp_parse_node_content block indentless props tag token c cs m0 p s sts nm T T0 :
  at_ p false s sts nm (Some token) T -> node_position c cs sts -> nm = count_marks sts ->
  (T <= T0)%nat ->
  (T < T0)%nat \/ (np_anchor props = None /\ tag = None) ->
  (TOKEN_WEIGHT * T0 + 2 + total_weight sts < m0)%nat ->
  wp (parse_node_content alloc block indentless props tag token) (after_step (c :: cs) m0) p.
Proof.
  intros Hp Hpos Hnm Hle Hcons Hm. unfold parse_node_content, TOKEN_WEIGHT in *.
  pstep.
  { apply andb_prop in Heqb as [_ Hbe]. repeat pstep.
    eapply open_after_step; try eassumption; [by right|done|not_stream_end|].
    unfold TOKEN_WEIGHT; lia. }
  destruct (token_data token) eqn:Hd.
  all: try (conts_destruct Hpos; repeat pstep; eapply leaf_after_step; try eassumption;
    [right; by eexists|unfold TOKEN_WEIGHT; lia]; fail).
  all: unfold token_is, token_type; rewrite Hd; cbn [token_data_type];
    repeat (case_bool_decide; [try discriminate|]; try discriminate).
  all: rewrite ?andb_false_r, ?andb_true_r.
  all: try (pstep; [|]); repeat pstep.
  all: try (eapply open_after_step; try eassumption;
    [by left|done|not_stream_end|unfold TOKEN_WEIGHT; lia]; fail).
  all: try (destruct Hcons as [Hcons|[Hc1 Hc2]]; [|congruence]).
  all: try (conts_destruct Hpos; repeat pstep; eapply leaf_after_step; try eassumption;
    [right; by eexists|unfold TOKEN_WEIGHT; lia]; fail).
Qed.

Lemma wp_parse_node block indentless c cs m0 p s0 sts nm tok T :
  at_ p false s0 sts nm tok T -> node_position c cs sts -> nm = count_marks sts ->
  (TOKEN_WEIGHT * T + 2 + total_weight sts < m0)%nat ->
  wp (yaml_parser_parse_node alloc block indentless) (after_step (c :: cs) m0) p.
Proof.
  intros Hp Hpos Hnm Hm. unfold yaml_parser_parse_node, TOKEN_WEIGHT in *. repeat pstep.
  all: try (conts_destruct Hpos; repeat pstep; eapply leaf_after_step; try eassumption;
    [by left|unfold TOKEN_WEIGHT; lia]; fail).
  all: eapply wp_parse_properties; [eassumption|]; intros props t1 p1 T1 Hle Hp1 Hcons;
    apply wp_bind; eapply wp_resolve_tag; [exact Hp1|]; intros tag p2 Hp2 Htag;
    eapply wp_parse_node_content; try eassumption.
  all: destruct Hcons as [?|[? ?]]; [by left|right]; split; [done|];
    destruct tag; [exfalso; apply Htag; done|done].
Qed.

(** ** The handlers *)

(** A child of the current collection, after which [after] continues. *)
Lemma wp_parse_child after block indentless c cs m0 p s0 sts nm tok T :
  at_ p false s0 sts nm tok T -> node_position c cs (after :: sts) ->
  nm = count_marks (after :: sts) ->
  (TOKEN_WEIGHT * T + 2 + weight after + total_weight sts < m0)%nat ->
  wp (parse_child alloc after block indentless) (after_step (c :: cs) m0) p.
Proof.
  intros Hp Hpos Hnm Hm. unfold parse_child. repeat pstep.
  eapply wp_parse_node; try eassumption. cbn [total_weight foldr].
  fold (total_weight sts). lia.
Qed.

Lemma wp_empty_child after c cs m0 p s0 sts nm tok T m :
  at_ p false s0 sts nm tok T -> node_position c cs (after :: sts) ->
  nm = count_marks (after :: sts) ->
  (TOKEN_WEIGHT * T + weight after + total_weight sts < m0)%nat ->
  wp (empty_child alloc after m) (after_step (c :: cs) m0) p.
Proof.
  intros Hp Hpos Hnm Hm. unfold empty_child. repeat pstep.
  eapply leaf_after_step; try eassumption; [by right; eexists|].
  cbn [total_weight foldr]. fold (total_weight sts). lia.
Qed.

(** The end of a collection: the continuation is popped. *)
Lemma close_after_step c s sts nm tok T m0 ev p' :
  at_ p' false s sts nm tok T -> is_conts (s :: sts) = true ->
  nm = count_marks (s :: sts) ->
  (c = OSeq /\ event_kind (event_data ev) = KSeqEnd
   \/ c = OKey /\ event_kind (event_data ev) = KMapEnd) ->
  (TOKEN_WEIGHT * T + total_weight (s :: sts) < m0)%nat ->
  after_step (c :: flat_map frames_of (s :: sts)) m0 ev p'.
Proof.
  intros Hp Hc -> Hev Hm. destruct (conts_shape _ _ Hc) as (Hs & Hctx & Hfi & Hend).
  exists s, sts, tok, T. rewrite Hend, Hctx, Hfi. split_and!; try done.
  by destruct Hev as [[-> ->]|[-> ->]].
Qed.

Lemma wp_leave_collection c d t m0 p s0 sts nm T :
  at_ p false s0 sts (S nm) (Some t) T -> is_conts sts = true -> nm = count_marks sts ->
  token_is t YAML_STREAM_END_TOKEN = false ->
  (c = OSeq /\ event_kind d = KSeqEnd \/ c = OKey /\ event_kind d = KMapEnd) ->
  (TOKEN_WEIGHT * T + total_weight sts <= m0)%nat ->
  wp (leave_collection d t) (after_step (c :: flat_map frames_of sts) m0) p.
Proof.
  intros Hp Hc Hnm Ht Hd Hm. destruct sts as [|s sts]; [done|].
  unfold leave_collection, TOKEN_WEIGHT in *. repeat pstep.
  eapply close_after_step; try eassumption. unfold TOKEN_WEIGHT; lia.
Qed.

Lemma wp_collection_error {A} c pr t (Q : A -> parser -> Prop) p e s0 sts nm tok T :
  at_ p e s0 sts (S nm) tok T -> wp (collection_error c pr t) Q p.
Proof. intros Hp. unfold collection_error. by repeat pstep. Qed.

(** Entering a collection consumes its start token and pushes its mark. *)
Lemma wp_enter_collection first Q p s sts nm tok T :
  at_ p false s sts nm tok T ->
  (first = true -> exists t, tok = Some t /\ token_is t YAML_STREAM_END_TOKEN = false) ->
  (forall p' T' tok', T = ((if first then 1 else 0) + T')%nat ->
     at_ p' false s sts ((if first then 1 else 0) + nm)%nat tok' T' -> Q tt p') ->
  wp (enter_collection alloc first) Q p.
Proof.
  intros Hp Hfirst HQ. unfold enter_collection. destruct first; [|by apply wp_ret; eauto].
  destruct (Hfirst eq_refl) as (t & -> & Ht). apply wp_bind.
  eapply wp_PEEK_deref; [exact Hp|]. repeat pstep. by eapply HQ.
Qed.

Lemma node_position_intro c c' after sts :
  is_collection after = true -> is_conts sts = true -> after_node c = Some c' ->
  forall cs, frames_of after ++ flat_map frames_of sts = c' :: cs ->
  node_position c cs (after :: sts).
Proof.
  intros Ha Hc Hn cs Hf. split; [|by eexists].
  cbn [is_conts]. destruct sts; [done|]. by rewrite Ha.
Qed.
End handlers.

(** Close the side conditions of a handler: positions, marks and weights. *)
Ltac side :=
  first
    [ eassumption
    | match goal with
      | |- node_position _ _ _ => eapply node_position_intro; [reflexivity|eassumption|reflexivity|reflexivity]
      end
    | reflexivity
    | unfold measure, TOKEN_WEIGHT in *; simpl in *; lia
    | left; split; reflexivity
    | right; split; reflexivity
    | not_stream_end ].

Ltac handler :=
  repeat pstep;
  lazymatch goal with
  | |- wp (parse_child _ _ _ _) _ _ => eapply wp_parse_child; side
  | |- wp (empty_child _ _ _) _ _ => eapply wp_empty_child; side
  | |- wp (leave_collection _ _) _ _ => eapply wp_leave_collection; side
  | |- wp (collection_error _ _ _) _ _ => eapply wp_collection_error; eassumption
  end.

Section state_machine.
Context {SC : Type} `{HS : Scanner SC} `{!ScannerLaws SC} (alloc : nat -> bool).
Abbreviation parser := (@yaml_parser_t SC).

Definition first_token (tok : option yaml_token_t) : Prop :=
  exists t, tok = Some t /\ token_is t YAML_STREAM_END_TOKEN = false.

(** What a handler is proved to do: from state [s], with room in the measure,
    its event is accepted in the contexts of [s]. *)
Definition handles (s : yaml_parser_state_t) (h : PM yaml_event_t) : Prop :=
  forall (p : parser) sts tok T,
    at_ p false s sts (count_marks (s :: sts)) tok T ->
    is_conts sts = true ->
    (is_first s = true -> first_token tok) ->
    wp h (after_step (contexts s sts) (measure T s sts)) p.

Ltac enter Hp Hf :=
  apply wp_bind; eapply wp_enter_collection; [exact Hp|intros ?; by apply Hf|];
  intros ? ? ? -> ?.

Lemma block_sequence_entry_handles (first : bool) :
  handles (if first then YAML_PARSE_BLOCK_SEQUENCE_FIRST_ENTRY_STATE
           else YAML_PARSE_BLOCK_SEQUENCE_ENTRY_STATE)
    (yaml_parser_parse_block_sequence_entry alloc first).
Proof.
  intros p sts tok T Hp Hc Hf. unfold yaml_parser_parse_block_sequence_entry.
  destruct first; enter Hp Hf; handler.
Qed.

Lemma indentless_sequence_entry_handles :
  handles YAML_PARSE_INDENTLESS_SEQUENCE_ENTRY_STATE
    (yaml_parser_parse_indentless_sequence_entry alloc).
Proof.
  intros p sts tok T Hp Hc Hf. unfold yaml_parser_parse_indentless_sequence_entry.
  repeat pstep; try handler. destruct sts as [|s sts]; [done|]. repeat pstep.
  eapply (close_after_step OSeq); side.
Qed.

Lemma block_mapping_key_handles (first : bool) :
  handles (if first then YAML_PARSE_BLOCK_MAPPING_FIRST_KEY_STATE
           else YAML_PARSE_BLOCK_MAPPING_KEY_STATE)
    (yaml_parser_parse_block_mapping_key alloc first).
Proof.
  intros p sts tok T Hp Hc Hf. unfold yaml_parser_parse_block_mapping_key.
  destruct first; enter Hp Hf; handler.
Qed.

Lemma block_mapping_value_handles :
  handles YAML_PARSE_BLOCK_MAPPING_VALUE_STATE (yaml_parser_parse_block_mapping_value alloc).
Proof.
  intros p sts tok T Hp Hc Hf. unfold yaml_parser_parse_block_mapping_value. handler.
Qed.

(** A mapping of one pair starts inside a flow sequence. *)
Lemma flow_pair_starts sts T m0 p' ev :
  at_ p' false YAML_PARSE_FLOW_SEQUENCE_ENTRY_MAPPING_KEY_STATE sts
    (S (count_marks sts)) None T ->
  is_conts sts = true -> event_kind (event_data ev) = KMapStart ->
  (TOKEN_WEIGHT * T + 6 + total_weight sts < m0)%nat ->
  after_step (OSeq :: flat_map frames_of sts) m0 ev p'.
Proof.
  intros Hp Hc Hev Hm.
  exists YAML_PARSE_FLOW_SEQUENCE_ENTRY_MAPPING_KEY_STATE, sts, None, T.
  split_and!; try done; [by rewrite Hev|unfold measure, TOKEN_WEIGHT in *; simpl; lia].
Qed.

Lemma flow_sequence_entry_handles (first : bool) :
  handles (if first then YAML_PARSE_FLOW_SEQUENCE_FIRST_ENTRY_STATE
           else YAML_PARSE_FLOW_SEQUENCE_ENTRY_STATE)
    (yaml_parser_parse_flow_sequence_entry alloc first).
Proof.
  intros p sts tok T Hp Hc Hf. unfold yaml_parser_parse_flow_sequence_entry.
  destruct first; enter Hp Hf; cbn [negb]; repeat pstep; try handler;
    eapply flow_pair_starts; side.
Qed.

Lemma flow_sequence_entry_mapping_key_handles :
  handles YAML_PARSE_FLOW_SEQUENCE_ENTRY_MAPPING_KEY_STATE
    (yaml_parser_parse_flow_sequence_entry_mapping_key alloc).
Proof.
  intros p sts tok T Hp Hc Hf. unfold yaml_parser_parse_flow_sequence_entry_mapping_key.
  repeat pstep; try handler.
  (* a VALUE or FLOW-ENTRY token is skipped: it is not STREAM-END *)
  assert (token_is t YAML_STREAM_END_TOKEN = false).
  { unfold type_in, token_is in *. apply bool_decide_eq_false. intros Hend.
    cbn [existsb] in *. rewrite Hend in *. discriminate. }
  handler.
Qed.

Lemma flow_sequence_entry_mapping_value_handles :
  handles YAML_PARSE_FLOW_SEQUENCE_ENTRY_MAPPING_VALUE_STATE
    (yaml_parser_parse_flow_sequence_entry_mapping_value alloc).
Proof.
  intros p sts tok T Hp Hc Hf. unfold yaml_parser_parse_flow_sequence_entry_mapping_value.
  handler.
Qed.

Lemma flow_sequence_entry_mapping_end_handles :
  handles YAML_PARSE_FLOW_SEQUENCE_ENTRY_MAPPING_END_STATE
    yaml_parser_parse_flow_sequence_entry_mapping_end.
Proof.
  intros p sts tok T Hp Hc Hf. unfold yaml_parser_parse_flow_sequence_entry_mapping_end.
  repeat pstep. exists YAML_PARSE_FLOW_SEQUENCE_ENTRY_STATE, sts, (Some t), T.
  split_and!; try done. unfold measure; simpl. lia.
Qed.

Lemma flow_mapping_key_handles (first : bool) :
  handles (if first then YAML_PARSE_FLOW_MAPPING_FIRST_KEY_STATE
           else YAML_PARSE_FLOW_MAPPING_KEY_STATE)
    (yaml_parser_parse_flow_mapping_key alloc first).
Proof.
  intros p sts tok T Hp Hc Hf. unfold yaml_parser_parse_flow_mapping_key.
  destruct first; enter Hp Hf; cbn [negb]; handler.
Qed.

Lemma flow_mapping_value_handles (empty : bool) :
  handles (if empty then YAML_PARSE_FLOW_MAPPING_EMPTY_VALUE_STATE
           else YAML_PARSE_FLOW_MAPPING_VALUE_STATE)
    (yaml_parser_parse_flow_mapping_value alloc empty).
Proof.
  intros p sts tok T Hp Hc Hf. unfold yaml_parser_parse_flow_mapping_value.
  destruct empty; handler.
Qed.

(** *** Streams and documents *)

Definition invariant (p : parser) (s : yaml_parser_state_t) (sts : list yaml_parser_state_t)
    (tok : option yaml_token_t) (T : nat) : Prop :=
  at_ p (bool_decide (s = YAML_PARSE_END_STATE)) s sts (count_marks (s :: sts)) tok T
  /\ shape s sts = true
  /\ (is_first s = true -> first_token tok).

Definition steps (s : yaml_parser_state_t) (h : PM yaml_event_t) : Prop :=
  forall (p : parser) sts tok T,
    invariant p s sts tok T -> wp h (after_step (contexts s sts) (measure T s sts)) p.

Ltac leave_at s sts tok T :=
  exists s, sts, tok, T; split_and!; try done; unfold measure, TOKEN_WEIGHT; simpl; lia.

Lemma stream_start_steps : steps YAML_PARSE_STREAM_START_STATE yaml_parser_parse_stream_start.
Proof.
  intros p sts tok T (Hp & Hs & _). apply bool_decide_eq_true in Hs as ->.
  unfold yaml_parser_parse_stream_start. repeat pstep.
  leave_at YAML_PARSE_IMPLICIT_DOCUMENT_START_STATE (@nil yaml_parser_state_t)
    (@None yaml_token_t) T'.
Qed.

Lemma document_start_steps fuel (implicit : bool) :
  forall p sts tok T,
    let s := if implicit then YAML_PARSE_IMPLICIT_DOCUMENT_START_STATE
             else YAML_PARSE_DOCUMENT_START_STATE in
    invariant p s sts tok T -> (T < fuel)%nat ->
    wp (yaml_parser_parse_document_start alloc fuel implicit)
      (after_step (contexts s sts) (measure T s sts)) p.
Proof.
  intros p sts tok T s (Hp & Hs & _) Hfuel.
  assert (sts = []) as -> by (destruct implicit; by apply bool_decide_eq_true in Hs).
  assert (bool_decide (s = YAML_PARSE_END_STATE) = false /\ count_marks [s] = 0%nat
    /\ contexts s [] = [OStream] /\ (1 <= weight s)%nat
    /\ (implicit = true -> weight s = 6%nat)) as (He & Hmk & -> & Hw & Hwi)
    by (destruct implicit; split_and!; try done; simpl; lia).
  rewrite He, Hmk in Hp. unfold measure, TOKEN_WEIGHT. cbn [total_weight foldr].
  unfold yaml_parser_parse_document_start. clearbody s.
  apply wp_bind. eapply wp_PEEK; [exact Hp|]. intros t0 p0 Hp0. apply wp_bind.
  assert (forall Q, (forall t p' T', (T' <= T)%nat -> at_ p' false s [] 0 (Some t) T' -> Q t p') ->
    wp (if negb implicit then skip_document_ends fuel t0 else mret t0) Q p0) as Hskip.
  { intros Q HQ. destruct implicit; [by apply wp_ret; eauto|].
    eapply wp_skip_document_ends; [exact Hp0|done|]. eauto. }
  apply Hskip. clear Hskip. intros t p1 T1 Hle Hp1. pstep; [|pstep].
  - apply andb_prop in Heqb as [-> _]. specialize (Hwi eq_refl).
    apply wp_bind. eapply wp_process_directives; [exact Hp1|lia|]. intros r t2 p2 T2 Hle2 Hp2.
    repeat pstep.
    leave_at YAML_PARSE_BLOCK_NODE_STATE [YAML_PARSE_DOCUMENT_END_STATE] (Some t2) T2.
  - repeat pstep. eapply wp_SKIP; [eassumption|]. intros p3 T3 -> Hp3.
    rewrite Heqb0 in Hp3. apply wp_ret.
    leave_at YAML_PARSE_END_STATE (@nil yaml_parser_state_t) (@None yaml_token_t) T3.
  - apply wp_bind. eapply wp_process_directives; [exact Hp1|lia|].
    intros [v tags] t2 p2 T2 Hle2 Hp2. repeat pstep.
    leave_at YAML_PARSE_DOCUMENT_CONTENT_STATE [YAML_PARSE_DOCUMENT_END_STATE]
      (@None yaml_token_t) T'.
Qed.

Lemma document_node_position :
  node_position ODocNode [OStream] [YAML_PARSE_DOCUMENT_END_STATE].
Proof. split; [done|]. by eexists. Qed.

Lemma block_node_steps :
  steps YAML_PARSE_BLOCK_NODE_STATE (yaml_parser_parse_node alloc true false).
Proof.
  intros p sts tok T (Hp & Hs & _). apply bool_decide_eq_true in Hs as ->.
  eapply wp_parse_node; [exact Hp|apply document_node_position|done|].
  unfold measure, TOKEN_WEIGHT; simpl; lia.
Qed.

Lemma document_content_steps :
  steps YAML_PARSE_DOCUMENT_CONTENT_STATE (yaml_parser_parse_document_content alloc).
Proof.
  intros p sts tok T (Hp & Hs & _). apply bool_decide_eq_true in Hs as ->.
  unfold yaml_parser_parse_document_content. repeat pstep.
  - eapply leaf_after_step; [eassumption|apply document_node_position|done|by right; eexists|].
    unfold measure, TOKEN_WEIGHT; simpl; lia.
  - eapply wp_parse_node; [eassumption|apply document_node_position|done|].
    unfold measure, TOKEN_WEIGHT; simpl; lia.
Qed.

Lemma document_end_steps :
  steps YAML_PARSE_DOCUMENT_END_STATE yaml_parser_parse_document_end.
Proof.
  intros p sts tok T (Hp & Hs & _). apply bool_decide_eq_true in Hs as ->.
  unfold yaml_parser_parse_document_end. repeat pstep.
  all: apply wp_modify.
  all: match goal with
    | H : at_ ?p _ _ [] _ ?tok ?T |- context [set_tag_directives ?st ?p] =>
        assert (at_ (set_tag_directives st p) false YAML_PARSE_DOCUMENT_END_STATE []
          (count_marks [YAML_PARSE_DOCUMENT_END_STATE]) tok T) as Hset by exact H
    end.
  - repeat pstep. leave_at YAML_PARSE_DOCUMENT_START_STATE (@nil yaml_parser_state_t)
      (@None yaml_token_t) T'.
  - repeat pstep. leave_at YAML_PARSE_DOCUMENT_START_STATE (@nil yaml_parser_state_t)
      (Some t) T.
Qed.

(** ** The dispatcher *)

(** Every state's handler, from the invariant and outside the end state, has no
    undefined behaviour, runs within its fuel, and either fails with an error
    code or emits an event the automaton accepts, re-establishing the
    invariant with a smaller measure. *)
Lemma state_machine_step fuel p s sts tok T :
  invariant p s sts tok T -> s <> YAML_PARSE_END_STATE -> (T < fuel)%nat ->
  wp (yaml_parser_state_machine alloc fuel) (after_step (contexts s sts) (measure T s sts)) p.
Proof.
  intros Hinv Hend Hfuel. pose proof Hinv as (Hp & Hs & Hf).
  pose proof Hp as (_ & _ & Hst & _).
  unfold yaml_parser_state_machine. apply wp_bind. unfold gets, wp at 1. rewrite Hst.
  assert (forall h, (is_collection s || is_first s) && is_conts sts = true ->
    handles s h -> wp h (after_step (contexts s sts) (measure T s sts)) p) as Hcoll.
  { intros h [_ Hc]%andb_prop Hh. eapply Hh; [|exact Hc|exact Hf].
    by rewrite bool_decide_eq_false_2 in Hp by done. }
  destruct s; try done.
  all: try (by apply Hcoll; [exact Hs|]; first
    [ apply (block_sequence_entry_handles true) | apply (block_sequence_entry_handles false)
    | apply indentless_sequence_entry_handles
    | apply (block_mapping_key_handles true) | apply (block_mapping_key_handles false)
    | apply block_mapping_value_handles
    | apply (flow_sequence_entry_handles true) | apply (flow_sequence_entry_handles false)
    | apply flow_sequence_entry_mapping_key_handles
    | apply flow_sequence_entry_mapping_value_handles
    | apply flow_sequence_entry_mapping_end_handles
    | apply (flow_mapping_key_handles true) | apply (flow_mapping_key_handles false)
    | apply (flow_mapping_value_handles false) | apply (flow_mapping_value_handles true) ]).
  - by eapply stream_start_steps.
  - by eapply (document_start_steps fuel true).
  - by eapply (document_start_steps fuel false).
  - by eapply document_content_steps.
  - by eapply document_end_steps.
  - by eapply block_node_steps.
Qed.
End state_machine.
