(* ===== verification/YamlMain.v ===== *)
(** * From accepted event streams to document trees

    The event automaton accepts exactly the event streams of lists of document
    trees: a zipper over the open collections follows every accepted prefix. *)
From Stdlib Require Import ZArith Lia.
From stdpp Require Import base list option numbers strings.
From S2P Require Import Prelude YamlTypes YamlParserProofs.

(** An open collection with its finished children. *)
Inductive zframe :=
| ZSeq (items : list ynode)
| ZKey (entries : list (ynode * ynode))
| ZVal (entries : list (ynode * ynode)) (key : ynode).

Inductive zipper :=
| ZStart
| ZBetween (docs : list ynode)
| ZInDoc (docs : list ynode) (frames : list zframe)
| ZDocDone (docs : list ynode) (n : ynode)
| ZEnd (docs : list ynode).

Definition entry_kinds (e : ynode * ynode) : list ykind := node_kinds e.1 ++ node_kinds e.2.

Definition zframe_kinds (f : zframe) : list ykind :=
  match f with
  | ZSeq items => KSeqStart :: flat_map node_kinds items
  | ZKey entries => KMapStart :: flat_map entry_kinds entries
  | ZVal entries key => KMapStart :: flat_map entry_kinds entries ++ node_kinds key
  end.

(** The events of the open frames, outermost first. *)
Fixpoint frames_kinds (fs : list zframe) : list ykind :=
  match fs with [] => [] | f :: fs => frames_kinds fs ++ zframe_kinds f end.

Definition zipper_kinds (z : zipper) : list ykind :=
  match z with
  | ZStart => []
  | ZBetween docs => KStreamStart :: flat_map document_kinds docs
  | ZInDoc docs fs =>
      KStreamStart :: flat_map document_kinds docs ++ KDocumentStart :: frames_kinds fs
  | ZDocDone docs n =>
      KStreamStart :: flat_map document_kinds docs ++ KDocumentStart :: node_kinds n
  | ZEnd docs => stream_kinds docs
  end.

Definition ready_octx (f : zframe) : octx :=
  match f with ZSeq _ => OSeq | ZKey _ => OKey | ZVal _ _ => OVal end.

(** The context of a frame with an open child: already past the child. *)
Definition pending_octx (f : zframe) : octx :=
  match f with ZSeq _ => OSeq | ZKey _ => OVal | ZVal _ _ => OKey end.

Definition zipper_octx (z : zipper) : list octx :=
  match z with
  | ZStart => [OStart]
  | ZBetween _ => [OStream]
  | ZInDoc _ [] => [ODocNode; OStream]
  | ZInDoc _ (f :: fs) => ready_octx f :: map pending_octx fs ++ [ODocEnd; OStream]
  | ZDocDone _ _ => [ODocEnd; OStream]
  | ZEnd _ => [OEnd]
  end.

(** A finished node goes into the innermost open frame, or finishes the document. *)
Definition plug (docs : list ynode) (fs : list zframe) (n : ynode) : zipper :=
  match fs with
  | [] => ZDocDone docs n
  | ZSeq items :: fs => ZInDoc docs (ZSeq (items ++ [n]) :: fs)
  | ZKey entries :: fs => ZInDoc docs (ZVal entries n :: fs)
  | ZVal entries k :: fs => ZInDoc docs (ZKey (entries ++ [(k, n)]) :: fs)
  end.

Lemma node_kinds_map entries :
  node_kinds (NMap entries) = KMapStart :: flat_map entry_kinds entries ++ [KMapEnd].
Proof.
  simpl. do 2 f_equal. induction entries as [|[k v] es IH]; [done|]. simpl. by rewrite IH.
Qed.

Lemma plug_kinds docs fs n :
  zipper_kinds (plug docs fs n) = zipper_kinds (ZInDoc docs fs) ++ node_kinds n.
Proof.
  destruct fs as [|[items|es|es k] fs]; simpl; f_equal; rewrite <-app_assoc; simpl;
    do 2 f_equal; rewrite <-?app_assoc; simpl; rewrite ?flat_map_app; simpl;
    unfold entry_kinds; simpl; rewrite ?app_nil_r, <-?app_assoc; done.
Qed.

Lemma plug_octx docs fs n : 
  zipper_octx (plug docs fs n)
  = match fs with
    | [] => [ODocEnd; OStream]
    | f :: fs => pending_octx f :: map pending_octx fs ++ [ODocEnd; OStream]
    end.
Proof. by destruct fs as [|[] fs]. Qed.

(** The context a node position leaves, whatever the node. *)
Lemma node_position_octx docs fs c cs c' :
  zipper_octx (ZInDoc docs fs) = c :: cs -> after_node c = Some c' ->
  forall n, zipper_octx (plug docs fs n) = c' :: cs.
Proof.
  intros Hz Ha n. rewrite plug_octx.
  destruct fs as [|[] fs]; simpl in Hz; inv Hz; simpl in Ha; by inv Ha.
Qed.

(** One accepted event extends the zipper. *)
Lemma zipper_step z k cs :
  estep k (zipper_octx z) = Some cs ->
  exists z', zipper_kinds z' = zipper_kinds z ++ [k] /\ zipper_octx z' = cs.
Proof.
  destruct (zipper_octx z) as [|c cs0] eqn:Hz; [by destruct k|].
  assert (forall c', after_node c = Some c' -> exists docs fs, z = ZInDoc docs fs
    \/ exists n, z = ZDocDone docs n) as Hin.
  { intros c' Ha. destruct z as [|docs|docs fs|docs n|docs]; simpl in Hz;
      try (injection Hz as <- <-; discriminate Ha); eauto. }
  assert (forall n kk cs', after_node c ≫= (fun c' => Some (c' :: cs0)) = Some cs' ->
    node_kinds n = [kk] -> exists z', zipper_kinds z' = zipper_kinds z ++ [kk]
      /\ zipper_octx z' = cs') as Hleaf.
  { intros n kk cs' Hs Hn. destruct (after_node c) as [c'|] eqn:Ha; [|done].
    injection Hs as <-. destruct (Hin _ eq_refl) as (docs & fs & [-> | [m ->]]).
    - exists (plug docs fs n). rewrite plug_kinds, Hn. split; [done|].
      by eapply node_position_octx.
    - simpl in Hz. injection Hz as <- <-. done. }
  assert (forall f kk cs', after_node c ≫= (fun c' => Some (ready_octx f :: c' :: cs0)) = Some cs' ->
    zframe_kinds f = [kk] -> exists z', zipper_kinds z' = zipper_kinds z ++ [kk]
      /\ zipper_octx z' = cs') as Hopen.
  { intros f kk cs' Hs Hf. destruct (after_node c) as [c'|] eqn:Ha; [|done].
    injection Hs as <-. destruct (Hin _ eq_refl) as (docs & fs & [-> | [m ->]]).
    - exists (ZInDoc docs (f :: fs)). split.
      + simpl. rewrite Hf, <-app_assoc. simpl. by rewrite <-?app_assoc.
      + pose proof (node_position_octx _ _ _ _ _ Hz Ha NAlias) as Hp.
        rewrite plug_octx in Hp. destruct fs as [|f' fs]; simpl in *; by rewrite Hp.
    - simpl in Hz. injection Hz as <- <-. done. }
  destruct k; cbn [estep]; intros Hs;
    try (by eapply (Hleaf NAlias)); try (by eapply (Hleaf (NScalar _)));
    try (by eapply (Hopen (ZSeq []))); try (by eapply (Hopen (ZKey [])));
    destruct z as [|docs|docs [|[items|es|es key] fs]|docs n|docs]; simpl in Hz;
    injection Hz as Hz1 Hz2; subst c cs0; simpl in Hs; try discriminate Hs; injection Hs as <-.
  - by exists (ZBetween []).
  - by exists (ZEnd docs).
  - by exists (ZInDoc docs []).
  - exists (ZBetween (docs ++ [n])). split; [|done].
    simpl. rewrite flat_map_app. simpl.
    by rewrite app_nil_r, <-app_assoc.
  - exists (plug docs fs (NSeq items)). rewrite plug_kinds, plug_octx. split; [|by destruct fs].
    simpl. repeat (rewrite <-!app_assoc; simpl). done.
  - exists (plug docs fs (NMap es)). rewrite plug_kinds, plug_octx, node_kinds_map.
    split; [|by destruct fs].
    simpl. repeat (rewrite <-!app_assoc; simpl). done.
Qed.

Lemma esteps_app ks1 ks2 cs : esteps (ks1 ++ ks2) cs = esteps ks1 cs ≫= esteps ks2.
Proof.
  revert cs. induction ks1 as [|k ks1 IH]; intros cs; [done|]. simpl.
  destruct (estep k cs); [apply IH|done].
Qed.

Lemma zipper_steps ks cs :
  esteps ks [OStart] = Some cs ->
  exists z, zipper_kinds z = ks /\ zipper_octx z = cs.
Proof.
  revert cs. induction ks as [|k ks IH] using rev_ind; intros cs Hs.
  - exists ZStart. split; [done|]. by injection Hs as <-.
  - rewrite esteps_app in Hs. destruct (esteps ks [OStart]) as [cs0|]; [|done].
    destruct (IH _ eq_refl) as (z & Hk & Hz). simpl in Hs.
    destruct (estep k cs0) as [cs1|] eqn:He; [|done]. injection Hs as <-.
    rewrite <-Hz in He. apply zipper_step in He as (z' & Hk' & Hz').
    exists z'. by rewrite Hk', Hk.
Qed.

(** A stream the automaton accepts to its end is the stream of some documents. *)
Lemma accepted_stream ks :
  esteps ks [OStart] = Some [OEnd] -> exists docs, ks = stream_kinds docs.
Proof.
  intros Hs. apply zipper_steps in Hs as (z & <- & Hz).
  destruct z as [|docs|docs [|[] fs]|docs n|docs]; try discriminate Hz. by exists docs.
Qed.

(** * The YAML pipeline: parser, bridge and their composition

    [parse_events] drives [yaml_parser_parse] to the end of the stream; the
    theorems of this file are the properties of the parser, of the bridge over
    any event source, and of [nativeParseYaml] over the parser. *)
From Stdlib Require Import ZArith Lia.
From stdpp Require Import base list option numbers strings.
From S2P Require Import Prelude StrBuf YamlTypes YamlJson YamlJsonProofs JsonRead YamlParser YamlParserProofs.

(** ** Driving the parser *)

Inductive run_status := RDone | RFailed | RMore.

#[export] Instance run_status_eq_dec : EqDecision run_status.
Proof. solve_decision. Defined.

Section driver.
Context {SC : Type} `{HS : Scanner SC} (alloc : nat -> bool).
Abbreviation parser := (@yaml_parser_t SC).

(** Call [yaml_parser_parse] until it fails or has no more events, at most [n]
    times. *)
Fixpoint parse_events (n fuel : nat) (p : parser)
    : outcome (list yaml_event_t * run_status * parser) :=
  match n with
  | O => Done ([], RMore, p)
  | S n =>
      match yaml_parser_parse alloc fuel p with
      | Undef | Done (PFuel, _) => Undef
      | Done (PFail, p) => Done ([], RFailed, p)
      | Done (POk ev, p) =>
          match event_data ev with
          | YAML_NO_EVENT => Done ([], RDone, p)
          | _ =>
              '(evs, st, p) ← parse_events n fuel p;
              Done (ev :: evs, st, p)
          end
      end
  end.

(** The parser as the event source of the bridge. *)
Definition parser_source (fuel : nat) (p : parser) : outcome (bool * yaml_event_t * parser) :=
  match yaml_parser_parse alloc fuel p with
  | Undef | Done (PFuel, _) => Undef
  | Done (PFail, p) => Done (false, no_event, p)
  | Done (POk ev, p) => Done (true, ev, p)
  end.

Definition kinds (evs : list yaml_event_t) : list ykind :=
  map (fun ev => event_kind (event_data ev)) evs.

(** The measure of the initial parser: an upper bound on its events. *)
Definition event_bound (left : nat) : nat := (TOKEN_WEIGHT * left + 1)%nat.
End driver.

(** ** Lemmas about runs *)

Section runs.
Context {SC : Type} `{HS : Scanner SC} `{!ScannerLaws SC} (alloc : nat -> bool).
Abbreviation parser := (@yaml_parser_t SC).

Lemma initial_invariant s :
  scan_idle s ->
  invariant (yaml_parser_initial s) YAML_PARSE_STREAM_START_STATE [] None (scan_left s).
Proof. intros H. unfold invariant, at_. split_and!; first [done|by intros _]. Qed.

Lemma initial_measure left :
  measure left YAML_PARSE_STREAM_START_STATE [] = event_bound left.
Proof. unfold measure, event_bound. simpl. lia. Qed.


Lemma stream_end_contexts cs s sts :
  estep KStreamEnd cs = Some (contexts s sts) -> shape s sts = true -> s = YAML_PARSE_END_STATE.
Proof.
  intros He Hs. cbn in He. repeat case_match; simplify_eq.
  destruct s; simplify_eq; try done; by destruct sts.
Qed.

(** One call outside the end state. *)
Lemma parse_step fuel p s sts tok T :
  invariant p s sts tok T -> (measure T s sts < fuel)%nat -> s <> YAML_PARSE_END_STATE ->
  match yaml_parser_parse alloc fuel p with
  | Done (POk ev, p') =>
      event_data ev <> YAML_NO_EVENT /\
      exists s' sts' tok' T', invariant p' s' sts' tok' T'
        /\ estep (event_kind (event_data ev)) (contexts s sts) = Some (contexts s' sts')
        /\ (measure T' s' sts' < measure T s sts)%nat
        /\ (event_kind (event_data ev) = KStreamEnd -> s' = YAML_PARSE_END_STATE)
  | Done (PFail, p') => failed p'
  | _ => False
  end.
Proof.
  intros Hinv Hfuel Hend. pose proof Hinv as ((He & Hse & Hst & _) & _).
  pose proof (state_machine_step alloc fuel p s sts tok T Hinv Hend
    ltac:(unfold measure, TOKEN_WEIGHT in Hfuel; lia)) as Hwp.
  unfold yaml_parser_parse. rewrite Hse, He, Hst.
  rewrite (bool_decide_eq_false_2 (s = YAML_PARSE_END_STATE)) by done. simpl.
  unfold wp in Hwp. destruct (yaml_parser_state_machine alloc fuel p) as [[[ev| |] p']|];
    [|done..].
  destruct Hwp as (s' & sts' & tok' & T' & Hp' & Hs' & Hf' & Hev & Hm). split.
  { intros Hno. rewrite Hno in Hev. by destruct (contexts s sts). }
  exists s', sts', tok', T'. split_and!; try done.
  intros Hk. rewrite Hk in Hev. by eapply stream_end_contexts.
Qed.

(** At the end of the stream there are no more events. *)
Lemma parse_at_end fuel p sts tok T :
  invariant p YAML_PARSE_END_STATE sts tok T ->
  yaml_parser_parse alloc fuel p = Done (POk no_event, p).
Proof.
  intros ((_ & Hse & _) & _). unfold yaml_parser_parse.
  rewrite Hse. by rewrite bool_decide_eq_true_2.
Qed.

(** The contexts after the events of a run. *)
Definition run_ends (st : run_status) (p : parser) (cs : list octx) : Prop :=
  match st with
  | RDone => cs = [OEnd]
  | RFailed => failed p
  | RMore => True
  end.

(** A run from the invariant: defined, within its fuel, accepted by the
    automaton, and complete when it may take as many steps as the measure. *)
Lemma parse_run n fuel p s sts tok T :
  invariant p s sts tok T -> (measure T s sts < fuel)%nat ->
  exists evs st p' cs, parse_events alloc n fuel p = Done (evs, st, p')
    /\ esteps (kinds evs) (contexts s sts) = Some cs
    /\ run_ends st p' cs
    /\ (length evs <= measure T s sts)%nat
    /\ (st = RMore -> (n <= length evs)%nat).
Proof.
  revert p s sts tok T. induction n as [|n IH]; intros p s sts tok T Hinv Hfuel.
  { eexists [], RMore, p, _. split_and!; simpl; try done; lia. }
  destruct (decide (s = YAML_PARSE_END_STATE)) as [->|Hend].
  { eexists [], RDone, p, [OEnd]. simpl. erewrite parse_at_end by done.
    pose proof Hinv as (_ & Hs & _). apply bool_decide_eq_true in Hs as ->.
    split_and!; try done; lia. }
  pose proof (parse_step fuel p s sts tok T Hinv Hfuel Hend) as Hstep.
  cbn [parse_events]. destruct (yaml_parser_parse alloc fuel p) as [[[ev| |] p1]|]; try done.
  - destruct Hstep as (Hno & s1 & sts1 & tok1 & T1 & Hinv1 & He & Hm & _).
    destruct (IH p1 s1 sts1 tok1 T1 Hinv1 ltac:(lia)) as (evs & st & p' & cs & Hr & Hcs & Hend' & Hl & Hn).
    eexists (ev :: evs), st, p', cs. rewrite Hr. cbn [mbind outcome_bind obind kinds map esteps].
    split_and!; [by destruct (event_data ev)| |done|simpl; lia|simpl; intros Hmore; specialize (Hn Hmore); lia].
    unfold kinds in Hcs. by rewrite He.
  - eexists [], RFailed, p1, _. split_and!; simpl; try done; lia.
Qed.

(** Driving the parser as the bridge does. *)
Lemma source_step fuel p :
  parser_source alloc fuel p
  = match yaml_parser_parse alloc fuel p with
    | Done (POk ev, p) => Done (true, ev, p)
    | Done (PFail, p) => Done (false, no_event, p)
    | _ => Undef
    end.
Proof. unfold parser_source. by repeat case_match. Qed.

(** The bridge's loop over the parser runs the switch on the parser's events. *)
Lemma loop_run `{Allocator} n lf fuel p s sts tok T (st : strbuf_t * context_t) :
  invariant p s sts tok T ->
  (measure T s sts < fuel)%nat -> (measure T s sts < n)%nat -> (measure T s sts < lf)%nat ->
  exists evs rs p', parse_events alloc n fuel p = Done (evs, rs, p')
    /\ yaml_to_json_loop (parser_source alloc fuel) lf p st
       = '(ok, st) ← on_events (kinds evs) st;
         Done (Some (ok && bool_decide (rs = RDone), st.1)).
Proof.
  revert lf p s sts tok T st. induction n as [|n IH];
    intros lf p s sts tok T st Hinv Hfuel Hn Hlf; [lia|].
  destruct lf as [|lf]; [lia|].
  destruct (decide (s = YAML_PARSE_END_STATE)) as [->|Hend].
  { eexists [], RDone, p. simpl. unfold parser_source. erewrite !parse_at_end by done.
    done. }
  pose proof (parse_step fuel p s sts tok T Hinv Hfuel Hend) as Hstep.
  cbn [parse_events yaml_to_json_loop]. rewrite source_step.
  destruct (yaml_parser_parse alloc fuel p) as [[[ev| |] p1]|]; try done.
  - destruct Hstep as (Hno & s1 & sts1 & tok1 & T1 & Hinv1 & He & Hm & Hlast).
    pose proof (fun lf st H => IH lf p1 s1 sts1 tok1 T1 st Hinv1 ltac:(lia) ltac:(lia) H) as IH1.
    clear IH. destruct (IH1 lf st ltac:(lia)) as (evs & rs & p' & Hrun & _).
    exists (ev :: evs), rs, p'. rewrite Hrun. split; [by destruct (event_data ev)|].
    cbn [mbind outcome_bind obind negb kinds map on_events]. unfold j_then.
    destruct (on_event _ st) as [[[|] st1]|]; cbn [mbind outcome_bind obind negb]; try done.
    destruct (is_last (event_kind (event_data ev))) eqn:Hil.
    + assert (event_kind (event_data ev) = KStreamEnd) as Hk by (by destruct (event_data ev)).
      specialize (Hlast Hk) as ->. destruct n as [|n]; [simpl in Hrun; simplify_eq; lia|].
      cbn [parse_events] in Hrun. erewrite parse_at_end in Hrun by done.
      simpl in Hrun. by simplify_eq.
    + destruct (IH1 lf st1 ltac:(lia)) as (? & ? & ? & Hrun1 & ->).
      rewrite Hrun in Hrun1. by simplify_eq.
  - by eexists [], RFailed, p1.
Qed.
End runs.

(** ** Counts stay below the number of events *)

Definition counts_below (m : Z) (fs : frames) : Prop := Forall (fun f => frame_count f <= m) fs.

Lemma spec_advance_counts m fs :
  counts_below m fs -> m < INT_MAX ->
  exists fs', spec_advance fs = Some fs' /\ counts_below (m + 1) fs'.
Proof.
  intros Hc Hm. assert (forall fs, counts_below m fs -> counts_below (m + 1) fs) as Hmono.
  { intros gs Hg. eapply Forall_impl; [exact Hg|]. simpl. lia. }
  destruct Hc as [|f fs Hf Hc]; simpl; [eexists; split; [done|constructor]|].
  specialize (Hmono _ Hc). destruct (frame_type f); try zcase; eexists; (split; [done|]);
    constructor; simpl; try done; lia.
Qed.

Lemma spec_run_no_overflow ks m fs :
  counts_below m fs -> 0 <= m -> m + zlen ks <= INT_MAX -> spec_run ks fs <> SOverflow.
Proof.
  revert m fs. induction ks as [|k ks IH]; intros m fs Hc H0 Hm; [done|].
  rewrite zlen_cons in Hm. pose proof (zlen_nonneg ks).
  assert (match spec_step k fs with
          | SOk fs' _ => counts_below (m + 1) fs' | STooDeep => True | SOverflow => False end) as Hs.
  { assert (counts_below (m + 1) fs) as Hc1.
    { eapply Forall_impl; [exact Hc|]. simpl. lia. }
    assert (counts_below m (tail fs)) as Ht by (destruct Hc; [constructor|done]).
    assert (forall gs out, counts_below m gs -> match spec_close gs out with
      | SOk fs' _ => counts_below (m + 1) fs' | STooDeep => True | SOverflow => False end) as Hclose.
    { intros gs out Hg. unfold spec_close.
      destruct (spec_advance_counts m gs Hg ltac:(lia)) as (fs' & -> & Hfs'). done. }
    destruct k; simpl; try done; try (by apply Hclose); unfold spec_open; zcase; try done;
      (constructor; simpl; [lia|done]). }
  simpl. destruct (spec_step k fs) as [fs1 out1| |]; try done.
  specialize (IH (m + 1) fs1 Hs ltac:(lia) ltac:(lia)). by destruct (spec_run ks fs1).
Qed.

(** The width of a tree is at most the number of its events. *)
Lemma node_kinds_pos n : 1 <= zlen (node_kinds n).
Proof. destruct n; simpl; rewrite ?zlen_cons; zlen_solve. Qed.

Lemma foldr_max_le {A} (f g : A -> Z) (w : Z) (l : list A) :
  w <= foldr (fun a z => g a + z) 0 l -> Forall (fun a => f a <= g a /\ 0 <= g a) l ->
  foldr (fun a z => Z.max (f a) z) w l <= foldr (fun a z => g a + z) 0 l.
Proof.
  intros Hw Hl. assert (Forall (fun a => f a <= foldr (fun a z => g a + z) 0 l) l) as Hall.
  { clear w Hw. induction Hl as [|a l [Ha Hg] Hl IH]; constructor; simpl.
    - assert (0 <= foldr (fun a z => g a + z) 0 l); [|lia].
      clear -Hl. induction Hl as [|b l [_ Hb] _ IHl]; simpl; lia.
    - eapply Forall_impl; [exact IH|]. simpl. lia. }
  clear Hl. revert Hw Hall. generalize (foldr (fun a z => g a + z) 0 l). intros b Hw Hall.
  induction Hall; simpl; lia.
Qed.

Lemma zlen_flat_map {A B} (f : A -> list B) l :
  zlen (flat_map f l) = foldr (fun a z => zlen (f a) + z) 0 l.
Proof. induction l as [|a l IH]; [done|]. simpl. by rewrite zlen_app, IH. Qed.

Lemma zlen_le_flat_map {A B} (f : A -> list B) l :
  (forall a, 1 <= zlen (f a)) -> zlen l <= foldr (fun a z => zlen (f a) + z) 0 l.
Proof.
  intros Hf. induction l as [|a l IH]; [done|]. simpl. specialize (Hf a).
  rewrite zlen_cons. lia.
Qed.

Lemma node_width_le n : node_width n <= zlen (node_kinds n).
Proof.
  induction n as [|v|items IH|entries IH] using ynode_ind'; [done|done|..]; simpl;
    rewrite zlen_cons, zlen_app, zlen_flat_map.
  - etransitivity; [apply foldr_max_le with (g := fun n => zlen (node_kinds n))|].
    + by apply zlen_le_flat_map, node_kinds_pos.
    + eapply Forall_impl; [exact IH|]. intros n Hn. split; [done|apply zlen_nonneg].
    + zlen_solve.
  - apply Z.le_trans with (foldr (fun (a : ynode * ynode) z =>
         zlen (let '(k, v) := a in node_kinds k ++ node_kinds v) + z) 0 entries); [|zlen_solve].
    assert (forall w, foldr (fun '(k, v) w => Z.max (Z.max (node_width k) (node_width v)) w) w entries
      = foldr (fun e w => Z.max (Z.max (node_width e.1) (node_width e.2)) w) w entries) as ->.
    { intros w. clear. induction entries as [|[k v] es IHe]; simpl; congruence. }
    apply foldr_max_le with
      (g := fun a : ynode * ynode => zlen (let '(k, v) := a in node_kinds k ++ node_kinds v)).
    + apply zlen_le_flat_map. intros [k v]. rewrite zlen_app.
      pose proof (node_kinds_pos k). pose proof (node_kinds_pos v). lia.
    + eapply Forall_impl; [exact IH|]. intros [k v] [Hk Hv]. simpl. rewrite zlen_app.
      pose proof (zlen_nonneg (node_kinds k)). pose proof (zlen_nonneg (node_kinds v)). lia.
Qed.

Lemma stream_widths docs :
  zlen (stream_kinds docs) <= INT_MAX -> Forall (fun n => node_width n <= INT_MAX) docs.
Proof.
  unfold stream_kinds. rewrite !zlen_app, zlen_flat_map. intros Hle.
  assert (forall ds, 0 <= foldr (fun n z => zlen (document_kinds n) + z) 0 ds) as Hpos.
  { intros ds. induction ds as [|d ds IHds]; [done|]. simpl.
    pose proof (zlen_nonneg (document_kinds d)). lia. }
  assert (foldr (fun n z => zlen (document_kinds n) + z) 0 docs <= INT_MAX) as H
    by (pose proof (zlen_nonneg [KStreamStart]); pose proof (zlen_nonneg [KStreamEnd]); lia). clear Hle. induction docs as [|n docs IH]; constructor; simpl in H.
  - pose proof (node_width_le n). specialize (Hpos docs).
    unfold document_kinds in H at 1. rewrite !zlen_app in H.
    pose proof (zlen_nonneg [KDocumentStart]). pose proof (zlen_nonneg [KDocumentEnd]). lia.
  - apply IH. pose proof (zlen_nonneg (document_kinds n)). simpl in *. lia.
Qed.

(** The events of a stream determine its documents. *)
Lemma node_kinds_inj_app n :
  forall m ks1 ks2, node_kinds n ++ ks1 = node_kinds m ++ ks2 -> n = m /\ ks1 = ks2.
Proof.
  assert (forall m c ks ks', (c = KSeqEnd \/ c = KMapEnd) -> c :: ks <> node_kinds m ++ ks') as Hend.
  { intros m c ks ks' [-> | ->]; by destruct m. }
  induction n as [|v|items IH|entries IH] using ynode_ind'; intros m ks1 ks2 Heq;
    destruct m as [|v'|items'|entries']; simpl in Heq; simplify_eq; try done.
  - rewrite <-!app_assoc in Heq. simpl in Heq.
    assert (items = items' /\ ks1 = ks2) as [-> ->]; [|done].
    revert items' Heq. induction IH as [|n items Hn _ IHi]; intros [|n' items'] Heq; simpl in Heq.
    + by simplify_eq.
    + rewrite <-app_assoc in Heq. by apply Hend in Heq; [|left].
    + rewrite <-app_assoc in Heq. symmetry in Heq. by apply Hend in Heq; [|left].
    + rewrite <-!app_assoc in Heq. apply Hn in Heq as [-> Heq].
      by apply IHi in Heq as [-> ->].
  - rewrite <-!app_assoc in Heq. simpl in Heq.
    assert (entries = entries' /\ ks1 = ks2) as [-> ->]; [|done].
    revert entries' Heq.
    induction IH as [|[k v] entries [Hk Hv] _ IHe]; intros [|[k' v'] entries'] Heq; simpl in Heq.
    + by simplify_eq.
    + rewrite <-!app_assoc in Heq. by apply Hend in Heq; [|right].
    + rewrite <-!app_assoc in Heq. symmetry in Heq. by apply Hend in Heq; [|right].
    + rewrite <-!app_assoc in Heq. apply Hk in Heq as [-> Heq]. apply Hv in Heq as [-> Heq].
      by apply IHe in Heq as [-> ->].
Qed.

Lemma stream_kinds_inj docs docs' : stream_kinds docs = stream_kinds docs' -> docs = docs'.
Proof.
  unfold stream_kinds. intros [= Heq]. revert docs' Heq.
  induction docs as [|n docs IH]; intros [|n' docs'] Heq; simpl in Heq; [done|done|done|].
  rewrite <-!app_assoc in Heq. injection Heq as Heq. apply node_kinds_inj_app in Heq as [-> Heq].
  simpl in Heq. injection Heq as Heq. by rewrite (IH _ Heq).
Qed.

(** ** The text the bridge returns *)

Lemma c_string_spec bs (rest : block) :
  Forall (fun b => b <> 0) bs -> c_string (map Some bs ++ Some 0 :: rest) = Done bs.
Proof.
  induction 1 as [|b bs Hb _ IH]; [done|]. simpl.
  destruct (Z.eqb_spec b 0); [done|]. simpl in IH. by rewrite IH.
Qed.

Lemma hex_digit_nonzero d : 0 <= d -> hex_digit d <> 0.
Proof. unfold hex_digit. zcase. Qed.

Lemma json_escape_nonzero c : Forall (fun b => b <> 0) (json_escape c).
Proof.
  unfold json_escape, snprintf_u04x.
  repeat match goal with |- context [if ?x =? ?y then _ else _] => destruct (Z.eqb_spec x y) end;
    try (by repeat constructor).
  zcase; repeat constructor; try lia; apply hex_digit_nonzero; apply Z.mod_pos_bound; lia.
Qed.

Lemma json_quote_nonzero v : Forall (fun b => b <> 0) (json_quote v).
Proof.
  unfold json_quote. apply Forall_app. split; [by repeat constructor|].
  apply Forall_app. split; [|by repeat constructor].
  induction v; [constructor|]. simpl. apply Forall_app. split; [apply json_escape_nonzero|done].
Qed.

Lemma sep_by_nonzero l :
  Forall (Forall (fun b => b <> 0)) l -> Forall (fun b => b <> 0) (sep_by [44] l).
Proof.
  induction 1 as [|x l Hx Hl IH]; [constructor|]. destruct l as [|y l]; [done|].
  change (sep_by [44] (x :: y :: l)) with (x ++ [44] ++ sep_by [44] (y :: l)).
  apply Forall_app. split; [done|]. constructor; [done|exact IH].
Qed.

Lemma json_of_node_nonzero n : Forall (fun b => b <> 0) (json_of_node n).
Proof.
  induction n as [|v|items IH|entries IH] using ynode_ind'; cbn [json_of_node].
  - by repeat constructor.
  - apply json_quote_nonzero.
  - constructor; [done|]. apply Forall_app. split; [|by repeat constructor].
    apply sep_by_nonzero. induction IH; constructor; done.
  - constructor; [done|]. apply Forall_app. split; [|by repeat constructor].
    apply sep_by_nonzero. induction IH as [|[k v] es [Hk Hv] _ IHe]; constructor; [|done].
    apply Forall_app. split; [done|]. by constructor.
Qed.

Lemma json_of_docs_nonzero docs : Forall (fun b => b <> 0) (flat_map json_of_node docs).
Proof.
  induction docs; [constructor|]. simpl. apply Forall_app.
  split; [apply json_of_node_nonzero|done].
Qed.

Section pipeline.
Context {SC : Type} `{HS : Scanner SC} `{!ScannerLaws SC} (alloc : nat -> bool).
Context `{HA : Allocator}.
Context (parser_of : ystr -> option (@yaml_parser_t SC)).

(** What the bridge returns for the events of a complete run. *)
Definition printed (docs : list ynode) (ok : bool) (sb : strbuf_t) : Prop :=
  if forallb doc_fits docs
  then (if ok then sb_holds sb (flat_map json_of_node docs)
        else refuses (zlen (flat_map json_of_node docs)))
  else ok = false.

Definition bridge_result (evs : list yaml_event_t) (rs : run_status) (ok : bool)
    (sb : strbuf_t) : Prop :=
  match rs with
  | RDone => exists docs, kinds evs = stream_kinds docs /\ printed docs ok sb
  | _ => ok = false
  end.

Lemma bridge_run fuel sc yaml sb ctx :
  scan_idle sc ->
  parser_of yaml = Some (yaml_parser_initial sc) ->
  (event_bound (scan_left sc) < fuel)%nat ->
  Z.of_nat (event_bound (scan_left sc)) <= INT_MAX ->
  sb_holds sb [] -> zlen (ctx_stack ctx) = MAX_DEPTH ->
  exists evs rs p' ok sb', parse_events alloc fuel fuel (yaml_parser_initial sc) = Done (evs, rs, p')
    /\ yaml_to_json (parser_source alloc fuel) parser_of fuel ctx yaml sb = Done (Some (ok, sb'))
    /\ bridge_result evs rs ok sb'.
Proof.
  intros Hidle Hp Hfuel Hmax Hsb Hctx. pose proof (initial_invariant sc Hidle) as Hinv.
  pose proof (initial_measure (scan_left sc)) as Hm.
  destruct (parse_run alloc fuel fuel _ _ _ _ _ Hinv ltac:(by rewrite Hm))
    as (evs & rs & p' & cs & Hrun & Hcs & Hends & Hlen & _). rewrite Hm in Hlen.
  destruct (loop_run alloc fuel fuel fuel _ _ _ _ _ (sb, context_init ctx) Hinv)
    as (evs' & rs' & p'' & Hrun' & Hloop); try (by rewrite Hm).
  rewrite Hrun in Hrun'. simplify_eq. unfold yaml_to_json. rewrite Hp, Hloop.
  assert (zlen (kinds evs') <= INT_MAX) as Hk by (unfold kinds; rewrite zlen_map; zlen_solve).
  pose proof (on_events_implements (kinds evs') [] sb [] _ Hsb (ctx_init_holds _ Hctx)) as Himp.
  pose proof (spec_run_no_overflow (kinds evs') 0 [] ltac:(constructor) ltac:(lia) Hk) as Hno.
  destruct (decide (rs' = RDone)) as [->|Hnd].
  - simpl in Hends. subst cs. apply accepted_stream in Hcs as [docs Hdocs].
    rewrite Hdocs, spec_stream in Himp
      by (apply stream_widths; by rewrite <-Hdocs).
    rewrite Hdocs. destruct (forallb doc_fits docs) eqn:Hfit.
    + destruct Himp as (ok & sb' & ctx' & -> & Hok). cbn.
      eexists _, _, _, _, _. split_and!; [done|done|]. exists docs. split; [done|].
      unfold printed. rewrite Hfit, andb_true_r. destruct ok; [by destruct Hok|done].
    + destruct Himp as (sb' & ctx' & ->). cbn. eexists _, _, _, _, _. split_and!; [done|done|].
      exists docs. split; [done|]. unfold printed. by rewrite Hfit.
  - destruct (spec_run (kinds evs') []) as [fs out| |]; [| |done].
    + destruct Himp as (ok & sb' & ctx' & -> & _). cbn.
      eexists _, _, _, _, _. split_and!; [done|done|].
      rewrite bool_decide_eq_false_2, andb_false_r by done. by destruct rs'.
    + destruct Himp as (sb' & ctx' & ->). cbn. eexists _, _, _, _, _. split_and!; [done|done|].
      by destruct rs'.
Qed.
End pipeline.

(** ** The properties *)

Section properties.
Context {SC : Type} `{HS : Scanner SC} `{!ScannerLaws SC} (alloc : nat -> bool).

(** C20: with fuel above the token bound, driving the parser to the end never
    has undefined behaviour and never exhausts its fuel; it stops after at most
    20 events per token of input, either because the events are over or with
    an error code, and an error is final: the parser then only returns the
    empty event. A failure without an error code is one of the scanner, which was
    refused an allocation. *)
Theorem parser_terminates n fuel s :
  scan_idle s ->
  (event_bound (scan_left s) < fuel)%nat -> (event_bound (scan_left s) < n)%nat ->
  exists evs st p, parse_events alloc n fuel (yaml_parser_initial s) = Done (evs, st, p)
    /\ (length evs <= event_bound (scan_left s))%nat
    /\ (st = RDone
        \/ st = RFailed /\ p_error p <> YAML_NO_ERROR
           /\ yaml_parser_parse alloc fuel p = Done (POk no_event, p)
        \/ st = RFailed /\ scan_silent (p_scanner p)).
Proof.
  intros Hidle Hfuel Hn. pose proof (initial_invariant s Hidle) as Hinv.
  pose proof (initial_measure (scan_left s)) as Hm.
  destruct (parse_run alloc n fuel _ _ _ _ _ Hinv ltac:(by rewrite Hm))
    as (evs & st & p' & cs & Hrun & _ & Hends & Hlen & Hmore). rewrite Hm in *.
  exists evs, st, p'. split_and!; [done|done|]. destruct st; [by left| |specialize (Hmore eq_refl); lia].
  right. simpl in Hends. destruct Hends as [Hends|Hends]; [left|by right].
  split_and!; [done|done|]. unfold yaml_parser_parse.
  rewrite (bool_decide_eq_false_2 (p_error p' = _)) by done. by rewrite orb_true_r.
Qed.

(** C19: when the parser reaches the end, its events are the events of a list
    of document trees: every collection is closed, mappings alternate keys and
    values, each document holds exactly one node. *)
Theorem parser_events_well_nested n fuel s evs p :
  scan_idle s ->
  (event_bound (scan_left s) < fuel)%nat ->
  parse_events alloc n fuel (yaml_parser_initial s) = Done (evs, RDone, p) ->
  exists docs, kinds evs = stream_kinds docs.
Proof.
  intros Hidle Hfuel Hrun. pose proof (initial_invariant s Hidle) as Hinv.
  destruct (parse_run alloc n fuel _ _ _ _ _ Hinv
    ltac:(by rewrite initial_measure))
    as (evs' & st & p' & cs & Hrun' & Hcs & Hends & _).
  rewrite Hrun in Hrun'. simplify_eq. simpl in Hends. subst cs.
  by apply accepted_stream.
Qed.

(** Every prefix of the events, whether the parser later fails or not, is
    accepted by the nesting automaton: no event is ever emitted out of place. *)
Theorem parser_events_prefix_nested n fuel s evs st p :
  scan_idle s ->
  (event_bound (scan_left s) < fuel)%nat ->
  parse_events alloc n fuel (yaml_parser_initial s) = Done (evs, st, p) ->
  is_Some (esteps (kinds evs) [OStart]).
Proof.
  intros Hidle Hfuel Hrun. pose proof (initial_invariant s Hidle) as Hinv.
  destruct (parse_run alloc n fuel _ _ _ _ _ Hinv
    ltac:(by rewrite initial_measure))
    as (evs' & st' & p' & cs & Hrun' & Hcs & _).
  rewrite Hrun in Hrun'. simplify_eq. by exists cs.
Qed.

Context `{HA : Allocator}.

(** C2: the whole native function over any scanner. It is defined, returns, and
    returns a string exactly when the parser reaches the end, every document
    is nested at most 128 deep and memory is granted; the string is the
    concatenation of the documents' JSON. *)
Theorem native_parse_yaml_correct {jstring : Type}
    (GetStringUTFChars : jstring -> option ystr) (NewStringUTF : ystr -> option jstring)
    (parser_of : ystr -> option (@yaml_parser_t SC)) fuel sb ctx content yaml sc :
  GetStringUTFChars content = Some yaml ->
  scan_idle sc ->
  parser_of yaml = Some (yaml_parser_initial sc) ->
  (event_bound (scan_left sc) < fuel)%nat ->
  Z.of_nat (event_bound (scan_left sc)) <= INT_MAX ->
  zlen (ctx_stack ctx) = MAX_DEPTH ->
  exists evs rs p r,
    parse_events alloc fuel fuel (yaml_parser_initial sc) = Done (evs, rs, p)
    /\ nativeParseYaml (parser_source alloc fuel) GetStringUTFChars NewStringUTF parser_of
         fuel sb ctx (Some content) = Done (Some r)
    /\ match rs with
       | RDone => exists docs, kinds evs = stream_kinds docs
           /\ (forallb doc_fits docs = true /\ r = NewStringUTF (flat_map json_of_node docs)
               \/ r = None /\ (forallb doc_fits docs = false
                    \/ alloc_grants (if 256 <? zlen yaml then zlen yaml else 256) = false
                    \/ refuses (zlen (flat_map json_of_node docs))))
       | _ => r = None
       end.
Proof.
  intros Hc Hidle Hp Hfuel Hmax Hctx. cbn [nativeParseYaml]. rewrite Hc.
  destruct (strbuf_init_spec sb (if 256 <? zlen yaml then zlen yaml else 256)
    ltac:(zcase)) as (ok & sb0 & -> & Hg & Hsb0). simpl.
  destruct ok; simpl.
  - destruct (bridge_run alloc parser_of fuel sc yaml sb0 ctx Hidle Hp Hfuel Hmax Hsb0 Hctx)
      as (evs & rs & p & ok & sb1 & Hrun & -> & Hres). cbn [mbind outcome_bind obind].
    rewrite Hrun. destruct rs; [|by simpl in Hres; subst ok; eexists _, _, _, _..].
    destruct Hres as (docs & Hdocs & Hpr). unfold printed in Hpr.
    destruct (forallb doc_fits docs) eqn:Hfit; [destruct ok|].
    + destruct Hpr as (rest & Hd & _). rewrite Hd, c_string_spec
        by apply json_of_docs_nonzero.
      eexists _, _, _, _. split_and!; [done|done|]. exists docs. eauto.
    + eexists _, _, _, _. split_and!; [done|done|]. exists docs. eauto 10.
    + subst ok. eexists _, _, _, _. split_and!; [done|done|]. exists docs. eauto.
  - pose proof (initial_invariant sc Hidle) as Hinv.
    destruct (parse_run alloc fuel fuel _ _ _ _ _ Hinv
      ltac:(by rewrite initial_measure))
      as (evs & rs & p & cs & Hrun & Hcs & Hends & _).
    rewrite Hrun. eexists _, _, _, _. split_and!; [done|done|].
    destruct rs; [|done..]. simpl in Hends. subst cs.
    apply accepted_stream in Hcs as [docs Hdocs]. exists docs. eauto 10.
Qed.
End properties.

(** C18: when the parser's events are one document whose mapping keys are scalars
    and the function returns a string, reading that string back as JSON gives the
    document's value: strings byte for byte (escapes included), aliases as null,
    sequences and mappings in order. *)
Theorem native_parse_yaml_reads_back {SC : Type} `{ScannerLaws SC} `{HA : Allocator}
    (alloc : nat -> bool) (parser_of : ystr -> option (@yaml_parser_t SC))
    fuel sb ctx yaml sc evs p n js :
  scan_idle sc ->
  parser_of yaml = Some (yaml_parser_initial sc) ->
  (event_bound (scan_left sc) < fuel)%nat ->
  Z.of_nat (event_bound (scan_left sc)) <= INT_MAX ->
  zlen (ctx_stack ctx) = MAX_DEPTH ->
  parse_events alloc fuel fuel (yaml_parser_initial sc) = Done (evs, RDone, p) ->
  kinds evs = stream_kinds [n] -> json_ready n = true ->
  nativeParseYaml (parser_source alloc fuel) Some Some parser_of fuel sb ctx (Some yaml)
    = Done (Some (Some js)) ->
  read_value (node_size n) js = Some (jvalue_of n, []).
Proof.
  intros Hidle Hp Hfuel Hmax Hctx Hrun Hk Hready. cbn [nativeParseYaml].
  destruct (strbuf_init_spec sb (if 256 <? zlen yaml then zlen yaml else 256)
    ltac:(zcase)) as (ok & sb0 & -> & Hg & Hsb0). simpl.
  destruct ok; [|done]. simpl.
  destruct (bridge_run alloc parser_of fuel sc yaml sb0 ctx Hidle Hp Hfuel Hmax Hsb0 Hctx)
    as (evs' & rs & p' & ok & sb1 & Hrun' & -> & Hres). rewrite Hrun in Hrun'. simplify_eq.
  destruct Hres as (docs & Hdocs & Hpr). cbn [mbind outcome_bind obind].
  destruct ok; [|done]. unfold printed in Hpr. destruct (forallb doc_fits docs); [|done].
  destruct Hpr as (rest & -> & _). rewrite c_string_spec by apply json_of_docs_nonzero.
  intros [= <-]. rewrite Hk in Hdocs. apply stream_kinds_inj in Hdocs as <-.
  cbn [flat_map]. by apply read_json_node.
Qed.

(** ** Witnesses: the tokens of ["a: [b, c]"] *)

Module Sample.
Definition at0 (d : yaml_token_data) : yaml_token_t := mk_token d zero_mark zero_mark.
Definition scalar (s : string) : yaml_token_t :=
  at0 (tok_scalar (bytes_of_string s) YAML_PLAIN_SCALAR_STYLE).

Definition tokens : list yaml_token_t :=
  [at0 (tok_stream_start YAML_UTF8_ENCODING); at0 tok_block_mapping_start; at0 tok_key;
   scalar "a"; at0 tok_value; at0 tok_flow_sequence_start; scalar "b"; at0 tok_flow_entry;
   scalar "c"; at0 tok_flow_sequence_end; at0 tok_block_end; at0 tok_stream_end].

Definition scanner : list_scanner := mk_list_scanner tokens 0 0.
Definition grant (n : nat) : bool := true.

#[export] Existing Instance small_heap.

Definition frames0 : context_t := mk_context (replicate 128 (mk_frame CTX_NONE 0)) 0.
Definition buffer0 : strbuf_t := mk_strbuf None 0 0.
Definition tree : ynode :=
  NMap [(NScalar (bytes_of_string "a"),
         NSeq [NScalar (bytes_of_string "b"); NScalar (bytes_of_string "c")])].
Definition parser_of (s : ystr) : option (@yaml_parser_t list_scanner) :=
  Some (yaml_parser_initial scanner).
Definition text : list Z :=
  [123; 34; 97; 34; 58; 91; 34; 98; 34; 44; 34; 99; 34; 93; 125].

(** The run of the parser on the sample, evaluated. *)
Definition run := Eval vm_compute in parse_events grant 300 300 (yaml_parser_initial scanner).
Definition run_events : list yaml_event_t :=
  match run with Done (evs, _, _) => evs | Undef => [] end.
Definition run_parser : @yaml_parser_t list_scanner :=
  match run with Done (_, _, p) => p | Undef => yaml_parser_initial scanner end.

Lemma run_eq :
  parse_events grant 300 300 (yaml_parser_initial scanner) = Done (run_events, RDone, run_parser).
Proof. vm_compute. reflexivity. Defined.

Lemma bound_ok : (event_bound (scan_left scanner) < 300)%nat.
Proof. vm_compute. lia. Defined.

Lemma bound_int : Z.of_nat (event_bound (scan_left scanner)) <= INT_MAX.
Proof. vm_compute. discriminate. Defined.

Lemma native_eq :
  nativeParseYaml (parser_source grant 300) Some Some parser_of 300 buffer0 frames0
    (Some (bytes_of_string "a: [b, c]")) = Done (Some (Some text)).
Proof. vm_compute. reflexivity. Defined.
End Sample.

#[local] Existing Instance small_heap.

Lemma parser_terminates_witness :
  exists evs st p, parse_events Sample.grant 300 300 (yaml_parser_initial Sample.scanner)
      = Done (evs, st, p)
    /\ (length evs <= event_bound (scan_left Sample.scanner))%nat
    /\ (st = RDone
        \/ st = RFailed /\ p_error p <> YAML_NO_ERROR
           /\ yaml_parser_parse Sample.grant 300 p = Done (POk no_event, p)
        \/ st = RFailed /\ False).
Proof. exact (parser_terminates Sample.grant 300 300 Sample.scanner I Sample.bound_ok Sample.bound_ok). Defined.

Lemma parser_events_well_nested_witness :
  exists docs, kinds Sample.run_events = stream_kinds docs.
Proof.
  exact (parser_events_well_nested Sample.grant 300 300 Sample.scanner _ _
    I Sample.bound_ok Sample.run_eq).
Defined.

Lemma parser_events_prefix_nested_witness : is_Some (esteps (kinds Sample.run_events) [OStart]).
Proof.
  exact (parser_events_prefix_nested Sample.grant 300 300 Sample.scanner _ _ _
    I Sample.bound_ok Sample.run_eq).
Defined.

Lemma native_parse_yaml_correct_witness :
  exists evs rs p r,
    parse_events Sample.grant 300 300 (yaml_parser_initial Sample.scanner) = Done (evs, rs, p)
    /\ nativeParseYaml (parser_source Sample.grant 300) Some Some Sample.parser_of 300
         Sample.buffer0 Sample.frames0 (Some (bytes_of_string "a: [b, c]")) = Done (Some r)
    /\ match rs with
       | RDone => exists docs, kinds evs = stream_kinds docs
           /\ (forallb doc_fits docs = true /\ r = Some (flat_map json_of_node docs)
               \/ r = None /\ (forallb doc_fits docs = false
                    \/ alloc_grants (if 256 <? 9 then 9 else 256) = false
                    \/ refuses (zlen (flat_map json_of_node docs))))
       | _ => r = None
       end.
Proof.
  exact (native_parse_yaml_correct Sample.grant Some Some Sample.parser_of 300 Sample.buffer0
    Sample.frames0 _ _ Sample.scanner eq_refl I eq_refl Sample.bound_ok Sample.bound_int eq_refl).
Defined.

Lemma native_parse_yaml_reads_back_witness :
  read_value (node_size Sample.tree) Sample.text = Some (jvalue_of Sample.tree, []).
Proof.
  exact (native_parse_yaml_reads_back Sample.grant Sample.parser_of 300 Sample.buffer0
    Sample.frames0 (bytes_of_string "a: [b, c]") Sample.scanner Sample.run_events
    Sample.run_parser Sample.tree Sample.text I eq_refl Sample.bound_ok Sample.bound_int eq_refl
    Sample.run_eq ltac:(vm_compute; reflexivity) ltac:(vm_compute; reflexivity)
    Sample.native_eq).
Defined.
