(* ===== verification/YamlFile.v ===== *)
(** * From the characters of a YAML file to JSON

    [nativeParseYaml] with nothing left open but the heap and the Java strings: the
    bridge drives the event parser of libyaml, which drives the scanner, which drives
    the reader over the string. *)
From Stdlib Require Import ZArith Lia.
From stdpp Require Import base list option numbers strings.
From S2P Require Import Prelude StrBuf YamlTypes YamlJson YamlJsonProofs JsonRead YamlReader YamlParser YamlParserProofs YamlMain YamlLex YamlLexProofs YamlScanner YamlFetchProofs.

(** ** Opening a string *)

(** Which allocations are granted: of [yaml_parser_initialize], of the parser and of
    the scanner. *)
Record heap_log := mk_heap_log {
  hl_initialize : nat -> bool;
  hl_parser : nat -> bool;
  hl_scanner : nat -> bool;
}.

(** The buffers, the queue and the stacks of [yaml_parser_initialize]. *)
Definition INITIAL_BLOCKS : nat := 8.

(** [yaml_parser_initialize] and [yaml_parser_set_input_string]. *)
Definition open_string (h : heap_log) (input : ystr) : option (@yaml_parser_t running_scanner) :=
  if forallb (hl_initialize h) (seq 0 INITIAL_BLOCKS)
  then Some (yaml_parser_initial (mk_running (hl_scanner h) (scanner_initial input)))
  else None.

Section file.
Context `{HA : Allocator} {jstring : Type}.
Context (GetStringUTFChars : jstring -> option ystr) (NewStringUTF : ystr -> option jstring).

(** Rounds for any loop of the parser and the bridge over this input. *)
Definition file_fuel (yaml : ystr) : nat := S (event_bound (8 * length yaml + 12)%nat).

Definition parse_yaml_file (h : heap_log) (sb : strbuf_t) (ctx : context_t)
    (content : option jstring) : outcome (option (option jstring)) :=
  let fuel := match content with
              | Some c => match GetStringUTFChars c with Some yaml => file_fuel yaml | None => O end
              | None => O
              end in
  nativeParseYaml (parser_source (hl_parser h) fuel) GetStringUTFChars NewStringUTF
    (open_string h) fuel sb ctx content.

(** The longest file: an [int] counts the entries of every collection. *)
Definition FILE_MAX : Z := 13000000.

Lemma file_bound (yaml : ystr) :
  zlen yaml <= FILE_MAX -> Z.of_nat (event_bound (8 * length yaml + 12)%nat) <= INT_MAX.
Proof. unfold FILE_MAX, event_bound, TOKEN_WEIGHT, INT_MAX, zlen. lia. Qed.

Lemma file_idle yaml : zlen yaml <= FILE_MAX -> idle (scanner_initial yaml).
Proof. unfold FILE_MAX. intros. apply scanner_initial_idle. unfold POSITION_MAX, INT_MAX. lia. Qed.

(** C1: on any file the native function is free of undefined behaviour and returns:
    no loop of the bridge, the event parser, the scanner or the reader runs for ever,
    whatever the bytes are and whichever allocations fail. A string it returns is the
    JSON of documents nested at most 128 deep, one after the other. *)
Theorem parse_yaml_file_total h sb ctx content :
  (forall c yaml, content = Some c -> GetStringUTFChars c = Some yaml -> zlen yaml <= FILE_MAX) ->
  zlen (ctx_stack ctx) = MAX_DEPTH ->
  exists r, parse_yaml_file h sb ctx content = Done (Some r)
    /\ (r = None \/ exists docs, forallb doc_fits docs = true
          /\ r = NewStringUTF (flat_map json_of_node docs)).
Proof.
  intros Hmax Hctx. unfold parse_yaml_file. destruct content as [c|]; [|by exists None; auto].
  cbn [nativeParseYaml].
  destruct (GetStringUTFChars c) as [yaml|] eqn:Hc; [|by exists None; auto].
  specialize (Hmax c yaml eq_refl Hc). 
  destruct (strbuf_init_spec sb (if 256 <? zlen yaml then zlen yaml else 256)
    ltac:(zcase)) as (ok & sb0 & -> & _ & Hsb0). cbn [mbind outcome_bind obind].
  destruct ok; cbn [negb]; [|by exists None; auto].
  destruct (forallb (hl_initialize h) (seq 0 INITIAL_BLOCKS)) eqn:Hblocks.
  2: { unfold yaml_to_json, open_string. rewrite Hblocks. by exists None; auto. }
  destruct (bridge_run (hl_parser h) (open_string h) (file_fuel yaml)
    (mk_running (hl_scanner h) (scanner_initial yaml)) yaml sb0 ctx) as
    (evs & rs & p & ok & sb1 & _ & -> & Hres).
  - by apply file_idle.
  - unfold open_string. by rewrite Hblocks.
  - unfold scan_left, libyaml_scanner_laws. cbn [rs_scanner].
    rewrite scanner_initial_left. unfold file_fuel. lia.
  - unfold scan_left, libyaml_scanner_laws. cbn [rs_scanner].
    rewrite scanner_initial_left. by apply file_bound.
  - done.
  - done.
  - cbn [mbind outcome_bind obind]. destruct ok; [|by exists None; auto].
    destruct rs; [|done..]. destruct Hres as (docs & _ & Hpr). unfold printed in Hpr.
    destruct (forallb doc_fits docs) eqn:Hfit; [|done]. destruct Hpr as (rest & -> & _).
    rewrite c_string_spec by apply json_of_docs_nonzero. eexists. split; [done|].
    right. by exists docs.
Qed.
End file.

(** ** The tokens of a file *)

Section tokens.
Context {SC : Type} `{HS : Scanner SC}.

(** Fetch and consume tokens up to STREAM-END, at most [n] of them. *)
Fixpoint scan_tokens (n : nat) (sc : SC) : outcome (list yaml_token_t * run_status * SC) :=
  match n with
  | O => Done ([], RMore, sc)
  | S n =>
      match scan_fetch sc with
      | Undef => Undef
      | Done (Some _, sc) => Done ([], RFailed, sc)
      | Done (None, sc) =>
          match scan_head sc with
          | None => Undef
          | Some t =>
              let sc := scan_advance sc in
              if token_is t YAML_STREAM_END_TOKEN then Done ([t], RDone, sc)
              else '(ts, st, sc) ← scan_tokens n sc; Done (t :: ts, st, sc)
          end
      end
  end.

Context `{!ScannerLaws SC}.

Lemma scan_tokens_run n sc :
  scan_idle sc -> (scan_left sc < n)%nat ->
  exists ts st sc', scan_tokens n sc = Done (ts, st, sc') /\ (length ts <= scan_left sc)%nat
    /\ (st = RDone /\ (exists t, last ts = Some t /\ token_data t = tok_stream_end)
        \/ st = RFailed).
Proof.
  revert sc. induction n as [|n IH]; intros sc Hs Hn; [lia|]. cbn [scan_tokens].
  pose proof (scan_fetch_spec sc Hs) as Hf. destruct (scan_fetch sc) as [[[e|] sc1]|]; [| |done].
  { eexists [], RFailed, _. split_and!; [done|simpl; lia|by right]. }
  destruct Hf as [Hr Hl]. destruct (scan_ready_head _ Hr) as [t Ht]. rewrite Ht.
  pose proof (scan_ready_left _ Hr). destruct (token_is t YAML_STREAM_END_TOKEN) eqn:Hend.
  - eexists [t], RDone, _. split_and!; [done|simpl; lia|]. left. split; [done|]. exists t.
    split; [done|]. unfold token_is, token_type in Hend. by destruct (token_data t).
  - apply stream_end_data in Hend. pose proof (scan_advance_left _ _ Hr Ht Hend).
    destruct (IH (scan_advance sc1)) as (ts & st & sc' & -> & Hlen & Hst);
      [by eapply scan_advance_idle|lia|].
    eexists (t :: ts), st, sc'. split_and!; [done|simpl; lia|].
    destruct Hst as [ [-> (u & Hu & Hd)]|]; [left|by right]. split; [done|]. exists u.
    split; [|done]. by destruct ts.
Qed.
End tokens.

(** C3: reading all tokens of any text is free of undefined behaviour and ends: after at
    most eight tokens a character and twelve more the last one is STREAM-END, or an
    error has stopped the scanner. *)
Theorem scanner_reads_text alloc input :
  2 * zlen input + 1 <= POSITION_MAX ->
  exists ts st rs,
    scan_tokens (8 * length input + 13)%nat (mk_running alloc (scanner_initial input))
      = Done (ts, st, rs)
    /\ (length ts <= 8 * length input + 12)%nat
    /\ (st = RDone /\ (exists t, last ts = Some t /\ token_data t = tok_stream_end)
        \/ st = RFailed).
Proof.
  intros Hlen. pose proof (scanner_initial_left input) as Hl.
  destruct (scan_tokens_run (8 * length input + 13)%nat (mk_running alloc (scanner_initial input)))
    as (ts & st & rs & -> & Hts & Hst).
  - by apply scanner_initial_idle.
  - unfold scan_left, libyaml_scanner_laws. cbn [rs_scanner]. lia.
  - unfold scan_left, libyaml_scanner_laws in Hts. cbn [rs_scanner] in Hts.
    eexists _, _, _. split_and!; [done|lia|done].
Qed.

(** ** A run over characters *)

Module FileSample.
Definition all_granted : heap_log := mk_heap_log (fun _ => true) (fun _ => true) (fun _ => true).

Definition lines (l : list string) : ystr := concat (map (fun s => bytes_of_string s ++ [10]) l).

Definition config : ystr := lines
  ["proxies: # two of them";
   "- name: 'first one'";
   "  ports: [80, 443]";
   "- {name: second, ports: *all}";
   "note: >-";
   "  folded";
   "  text"].

#[local] Existing Instance small_heap.

Definition native (yaml : ystr) : outcome (option (option ystr)) :=
  parse_yaml_file Some Some all_granted Sample.buffer0 Sample.frames0 (Some yaml).

(** The text with its apostrophes as quotation marks. *)
Definition quoted (s : string) : ystr :=
  map (fun b => if b =? 39 then 34 else b) (bytes_of_string s).

Definition config_json : ystr := quoted (
  "{'proxies':[{'name':'first one','ports':['80','443']}," ++
  "{'name':'second','ports':null}],'note':'folded text'}").
End FileSample.

#[local] Existing Instance small_heap.

Example config_to_json :
  FileSample.native FileSample.config = Done (Some (Some FileSample.config_json)).
Proof. vm_compute. reflexivity. Qed.

(** A NUL or another control character is no character of YAML. *)
Example control_character : FileSample.native [97; 7] = Done (Some None).
Proof. vm_compute. reflexivity. Qed.

Lemma parse_yaml_file_total_witness :
  exists r, parse_yaml_file Some Some FileSample.all_granted Sample.buffer0 Sample.frames0
      (Some FileSample.config) = Done (Some r)
    /\ (r = None \/ exists docs, forallb doc_fits docs = true
          /\ r = Some (flat_map json_of_node docs)).
Proof.
  apply (parse_yaml_file_total Some Some).
  - intros c yaml [= <-] [= <-]. vm_compute. discriminate.
  - reflexivity.
Defined.

(** The tokens of a mapping: its KEY and its start come in front of the scalar that was
    already in the queue. *)
Example mapping_tokens :
  exists rs, scan_tokens 50%nat (mk_running (fun _ => true) (scanner_initial (bytes_of_string "a: 1")))
    = Done (rs.1, RDone, rs.2)
  /\ map token_type rs.1
     = [YAML_STREAM_START_TOKEN; YAML_BLOCK_MAPPING_START_TOKEN; YAML_KEY_TOKEN;
        YAML_SCALAR_TOKEN; YAML_VALUE_TOKEN; YAML_SCALAR_TOKEN; YAML_BLOCK_END_TOKEN;
        YAML_STREAM_END_TOKEN].
Proof. eexists (_, _). split; vm_compute; reflexivity. Qed.

Lemma scanner_reads_text_witness :
  exists ts st rs,
    scan_tokens 45%nat (mk_running (fun _ => true) (scanner_initial (bytes_of_string "a: 1")))
      = Done (ts, st, rs)
    /\ (length ts <= 44)%nat
    /\ (st = RDone /\ (exists t, last ts = Some t /\ token_data t = tok_stream_end)
        \/ st = RFailed).
Proof.
  exact (scanner_reads_text (fun _ => true) (bytes_of_string "a: 1") ltac:(vm_compute; discriminate)).
Defined.
