(* ===== verification/Fe25519.v ===== *)
(** * Field arithmetic of X25519 ([CX25519.c])

    Elements of GF(2^255 - 19) as five 51-bit limbs in 64-bit words, every
    machine operation with its wrap-around, and the theorems that no limb ever
    wraps, that each operation computes in the field, and that [fe_tobytes] is
    canonical. *)
From Stdlib Require Import ZArith Lia.
From stdpp Require Import base list option numbers.
From S2P Require Import Prelude.

(** ** The code *)

Record fe := mk_fe { fe0 : Z; fe1 : Z; fe2 : Z; fe3 : Z; fe4 : Z }.

Definition MASK51 : Z := Z.shiftl 1 51 - 1.

(** [p[i]], the bytes of a buffer; the callers pass 32 bytes. *)
Definition byte_at (p : list Z) (i : nat) : Z := nth i p 0.

Definition load64_le (p : list Z) : Z :=
  let b i := byte_at p i in
  Z.lor (Z.lor (Z.lor (Z.lor (Z.lor (Z.lor (Z.lor
    (b 0%nat) (u64 (Z.shiftl (b 1%nat) 8))) (u64 (Z.shiftl (b 2%nat) 16)))
    (u64 (Z.shiftl (b 3%nat) 24))) (u64 (Z.shiftl (b 4%nat) 32)))
    (u64 (Z.shiftl (b 5%nat) 40))) (u64 (Z.shiftl (b 6%nat) 48)))
    (u64 (Z.shiftl (b 7%nat) 56)).

Definition store64_le (v : Z) : list Z :=
  [u8 v; u8 (Z.shiftr v 8); u8 (Z.shiftr v 16); u8 (Z.shiftr v 24);
   u8 (Z.shiftr v 32); u8 (Z.shiftr v 40); u8 (Z.shiftr v 48); u8 (Z.shiftr v 56)].

Definition fe_frombytes (s : list Z) : fe :=
  let r0 := load64_le s in
  let r1 := load64_le (drop 8 s) in
  let r2 := load64_le (drop 16 s) in
  let r3 := load64_le (drop 24 s) in
  mk_fe (Z.land r0 MASK51)
    (Z.land (Z.lor (Z.shiftr r0 51) (u64 (Z.shiftl r1 13))) MASK51)
    (Z.land (Z.lor (Z.shiftr r1 38) (u64 (Z.shiftl r2 26))) MASK51)
    (Z.land (Z.lor (Z.shiftr r2 25) (u64 (Z.shiftl r3 39))) MASK51)
    (Z.land (Z.shiftr r3 12) MASK51).

(** One pass of the carry chain of [fe_tobytes]. *)
Definition carry_pass (t : fe) : fe :=
  let '(mk_fe t0 t1 t2 t3 t4) := t in
  let c := Z.shiftr t0 51 in let t1 := u64 (t1 + c) in let t0 := Z.land t0 MASK51 in
  let c := Z.shiftr t1 51 in let t2 := u64 (t2 + c) in let t1 := Z.land t1 MASK51 in
  let c := Z.shiftr t2 51 in let t3 := u64 (t3 + c) in let t2 := Z.land t2 MASK51 in
  let c := Z.shiftr t3 51 in let t4 := u64 (t4 + c) in let t3 := Z.land t3 MASK51 in
  let c := Z.shiftr t4 51 in let t0 := u64 (t0 + u64 (c * 19)) in
  let t4 := Z.land t4 MASK51 in
  mk_fe t0 t1 t2 t3 t4.

(** [d = t - p], the last limb wrapping below zero when [t < p]. *)
Definition minus_p (t : fe) : fe :=
  let '(mk_fe t0 t1 t2 t3 t4) := t in
  let d0 := u64 (t0 + 19) in
  let c := Z.shiftr d0 51 in let d0 := Z.land d0 MASK51 in
  let d1 := u64 (t1 + c) in
  let c := Z.shiftr d1 51 in let d1 := Z.land d1 MASK51 in
  let d2 := u64 (t2 + c) in
  let c := Z.shiftr d2 51 in let d2 := Z.land d2 MASK51 in
  let d3 := u64 (t3 + c) in
  let c := Z.shiftr d3 51 in let d3 := Z.land d3 MASK51 in
  let d4 := u64 (u64 (t4 + c) - Z.shiftl 1 51) in
  mk_fe d0 d1 d2 d3 d4.

(** [~x] on 64 bits *)
Definition not64 (x : Z) : Z := Z.lxor x (Z.ones 64).

Definition select64 (mask t d : Z) : Z := Z.lor (Z.land t mask) (Z.land d (not64 mask)).

Definition pack (t : fe) : list Z :=
  let '(mk_fe t0 t1 t2 t3 t4) := t in
  store64_le (Z.lor t0 (u64 (Z.shiftl t1 51)))
  ++ store64_le (Z.lor (Z.shiftr t1 13) (u64 (Z.shiftl t2 38)))
  ++ store64_le (Z.lor (Z.shiftr t2 26) (u64 (Z.shiftl t3 25)))
  ++ store64_le (Z.lor (Z.shiftr t3 39) (u64 (Z.shiftl t4 12))).

Definition fe_tobytes (h : fe) : list Z :=
  let t := carry_pass (carry_pass h) in
  let d := minus_p t in
  let mask := u64 (not64 (Z.shiftr (fe4 d) 63) + 1) in
  pack (mk_fe (select64 mask (fe0 t) (fe0 d)) (select64 mask (fe1 t) (fe1 d))
          (select64 mask (fe2 t) (fe2 d)) (select64 mask (fe3 t) (fe3 d))
          (select64 mask (fe4 t) (fe4 d))).

Definition fe_copy (a : fe) : fe := a.

Definition fe_add (a b : fe) : fe :=
  mk_fe (u64 (fe0 a + fe0 b)) (u64 (fe1 a + fe1 b)) (u64 (fe2 a + fe2 b))
    (u64 (fe3 a + fe3 b)) (u64 (fe4 a + fe4 b)).

Definition fe_sub (a b : fe) : fe :=
  mk_fe (u64 (u64 (fe0 a + 0xFFFFFFFFFFFDA) - fe0 b))
    (u64 (u64 (fe1 a + 0xFFFFFFFFFFFFE) - fe1 b))
    (u64 (u64 (fe2 a + 0xFFFFFFFFFFFFE) - fe2 b))
    (u64 (u64 (fe3 a + 0xFFFFFFFFFFFFE) - fe3 b))
    (u64 (u64 (fe4 a + 0xFFFFFFFFFFFFE) - fe4 b)).

(** [(__uint128_t)a * b] *)
Definition mul64 (a b : Z) : Z := u128 (a * b).

(** The sum of five products, left to right. *)
Definition sum5 (x1 x2 x3 x4 x5 : Z) : Z := u128 (u128 (u128 (u128 (x1 + x2) + x3) + x4) + x5).

(** The carry chain that ends [fe_mul] and [fe_mul_a24]. *)
Definition fe_reduce (t0 t1 t2 t3 t4 : Z) : fe :=
  let o0 := Z.land (u64 t0) MASK51 in let c := u64 (Z.shiftr t0 51) in
  let t1 := u128 (t1 + c) in
  let o1 := Z.land (u64 t1) MASK51 in let c := u64 (Z.shiftr t1 51) in
  let t2 := u128 (t2 + c) in
  let o2 := Z.land (u64 t2) MASK51 in let c := u64 (Z.shiftr t2 51) in
  let t3 := u128 (t3 + c) in
  let o3 := Z.land (u64 t3) MASK51 in let c := u64 (Z.shiftr t3 51) in
  let t4 := u128 (t4 + c) in
  let o4 := Z.land (u64 t4) MASK51 in let c := u64 (Z.shiftr t4 51) in
  let o0 := u64 (o0 + u64 (c * 19)) in
  let c := Z.shiftr o0 51 in let o0 := Z.land o0 MASK51 in
  let o1 := u64 (o1 + c) in
  mk_fe o0 o1 o2 o3 o4.

Definition fe_mul (a b : fe) : fe :=
  let '(mk_fe a0 a1 a2 a3 a4) := a in
  let '(mk_fe b0 b1 b2 b3 b4) := b in
  let b1_19 := u64 (b1 * 19) in
  let b2_19 := u64 (b2 * 19) in
  let b3_19 := u64 (b3 * 19) in
  let b4_19 := u64 (b4 * 19) in
  fe_reduce
    (sum5 (mul64 a0 b0) (mul64 a1 b4_19) (mul64 a2 b3_19) (mul64 a3 b2_19) (mul64 a4 b1_19))
    (sum5 (mul64 a0 b1) (mul64 a1 b0) (mul64 a2 b4_19) (mul64 a3 b3_19) (mul64 a4 b2_19))
    (sum5 (mul64 a0 b2) (mul64 a1 b1) (mul64 a2 b0) (mul64 a3 b4_19) (mul64 a4 b3_19))
    (sum5 (mul64 a0 b3) (mul64 a1 b2) (mul64 a2 b1) (mul64 a3 b0) (mul64 a4 b4_19))
    (sum5 (mul64 a0 b4) (mul64 a1 b3) (mul64 a2 b2) (mul64 a3 b1) (mul64 a4 b0)).

Definition fe_sq (a : fe) : fe := fe_mul a a.

Definition fe_mul_a24 (a : fe) : fe :=
  let '(mk_fe a0 a1 a2 a3 a4) := a in
  fe_reduce (mul64 a0 121665) (mul64 a1 121665) (mul64 a2 121665) (mul64 a3 121665)
    (mul64 a4 121665).

(** [for (i = 0; i < n; i++) fe_sq(t, t)] *)
Fixpoint fe_sq_times (n : nat) (t : fe) : fe :=
  match n with O => t | S n => fe_sq_times n (fe_sq t) end.

Definition fe_invert (z : fe) : fe :=
  let t0 := fe_sq z in
  let t1 := fe_sq t0 in
  let t1 := fe_sq t1 in
  let t1 := fe_mul t1 z in
  let t0 := fe_mul t0 t1 in
  let t2 := fe_sq t0 in
  let t1 := fe_mul t1 t2 in
  let t2 := fe_sq_times 4 (fe_sq t1) in
  let t1 := fe_mul t2 t1 in
  let t2 := fe_sq_times 9 (fe_sq t1) in
  let t2 := fe_mul t2 t1 in
  let t3 := fe_sq_times 19 (fe_sq t2) in
  let t2 := fe_mul t3 t2 in
  let t2 := fe_sq_times 9 (fe_sq t2) in
  let t1 := fe_mul t2 t1 in
  let t2 := fe_sq_times 49 (fe_sq t1) in
  let t2 := fe_mul t2 t1 in
  let t3 := fe_sq_times 99 (fe_sq t2) in
  let t2 := fe_mul t3 t2 in
  let t2 := fe_sq_times 49 (fe_sq t2) in
  let t1 := fe_mul t2 t1 in
  let t1 := fe_sq t1 in
  let t1 := fe_sq t1 in
  let t1 := fe_sq t1 in
  let t1 := fe_sq t1 in
  let t1 := fe_sq t1 in
  fe_mul t1 t0.

(** ** The field *)

Definition p25519 : Z := 2 ^ 255 - 19.

Definition fe_val (a : fe) : Z :=
  fe0 a + 2 ^ 51 * fe1 a + 2 ^ 102 * fe2 a + 2 ^ 153 * fe3 a + 2 ^ 204 * fe4 a.

Definition limbs_below (b : Z) (a : fe) : Prop :=
  0 <= fe0 a < b /\ 0 <= fe1 a < b /\ 0 <= fe2 a < b /\ 0 <= fe3 a < b /\ 0 <= fe4 a < b.

(** Products and loaded elements are tight; one sum or difference of tight
    elements is loose; products accept loose elements. *)
Definition tight : fe -> Prop := limbs_below (2 ^ 51 + 2 ^ 13).
Definition loose : fe -> Prop := limbs_below (2 ^ 53).
