(* ===== verification/Fe25519Proofs.v ===== *)
(** * Correctness of the field arithmetic of X25519

    [rep f v]: the tight element [f] represents [v] modulo p. Every operation of
    [Fe25519] is proved on [rep]: no machine word overflows and the field
    operation is computed. *)
From Stdlib Require Import ZArith Lia.
From stdpp Require Import base list option numbers.
From S2P Require Import Prelude Fe25519.

(** ** Bit operations as arithmetic *)

Lemma land_mask51 x : Z.land x MASK51 = x mod 2 ^ 51.
Proof. change MASK51 with (Z.ones 51). by rewrite Z.land_ones by lia. Qed.

Lemma lor_u64_shiftl a b k :
  0 <= k < 64 -> 0 <= a < 2 ^ k ->
  Z.lor a (u64 (Z.shiftl b k)) = a + 2 ^ k * (b mod 2 ^ (64 - k)).
Proof.
  intros Hk Ha. rewrite Z.shiftl_mul_pow2 by lia. unfold wrap.
  replace (2 ^ 64) with (2 ^ (64 - k) * 2 ^ k) by (rewrite <-Z.pow_add_r by lia; f_equal; lia).
  rewrite Z.mul_mod_distr_r, (Z.mul_comm _ (2 ^ k)) by (apply Z.pow_nonzero; lia).
  apply lor_shifted; lia.
Qed.

(** ** Loading and storing words *)

Lemma load64_le_combine b0 b1 b2 b3 b4 b5 b6 b7 rest :
  are_bytes [b0; b1; b2; b3; b4; b5; b6; b7] ->
  load64_le ([b0; b1; b2; b3; b4; b5; b6; b7] ++ rest)
  = le_combine [b0; b1; b2; b3; b4; b5; b6; b7].
Proof.
  intros Hb. repeat (let H := fresh "Hb" in apply Forall_cons_1 in Hb as [H Hb]; unfold is_byte in H).
  unfold load64_le, byte_at. cbn [nth app].
  rewrite (lor_u64_shiftl b0 b1 8), (Z.mod_small b1) by lia.
  rewrite (lor_u64_shiftl _ b2 16), (Z.mod_small b2) by lia.
  rewrite (lor_u64_shiftl _ b3 24), (Z.mod_small b3) by lia.
  rewrite (lor_u64_shiftl _ b4 32), (Z.mod_small b4) by lia.
  rewrite (lor_u64_shiftl _ b5 40), (Z.mod_small b5) by lia.
  rewrite (lor_u64_shiftl _ b6 48), (Z.mod_small b6) by lia.
  rewrite (lor_u64_shiftl _ b7 56), (Z.mod_small b7) by lia.
  cbn [le_combine]. lia.
Qed.

Lemma load64_le_chunk s :
  are_bytes s -> (8 <= length s)%nat -> load64_le s = le_combine (take 8 s).
Proof.
  intros Hs Hl. do 8 (destruct s as [|? s]; [simpl in Hl; lia|]).
  apply (Forall_take _ 8) in Hs. exact (load64_le_combine _ _ _ _ _ _ _ _ s Hs).
Qed.

Lemma store64_le_split v : store64_le v = le_split 8 v.
Proof.
  unfold store64_le, wrap. rewrite !Z.shiftr_div_pow2 by lia. cbn [le_split].
  by rewrite !Z.div_div by lia.
Qed.

Lemma le_split_app n m z :
  le_split (n + m) z = le_split n z ++ le_split m (z / 256 ^ Z.of_nat n).
Proof.
  revert z. induction n as [|n IH]; intros z; cbn [Nat.add le_split app].
  - by rewrite Z.div_1_r.
  - rewrite IH, Nat2Z.inj_succ, Z.pow_succ_r, Z.div_div by lia. done.
Qed.

Lemma le_split_mod n z : le_split n (z mod 256 ^ Z.of_nat n) = le_split n z.
Proof.
  revert z. induction n as [|n IH]; intros z; [done|].
  rewrite Nat2Z.inj_succ, Z.pow_succ_r by lia. cbn [le_split].
  rewrite Z.rem_mul_r by lia. f_equal.
  - rewrite (Z.mul_comm 256), Z.mod_add by lia. by rewrite Z.mod_mod.
  - rewrite (Z.mul_comm 256), Z.div_add, Z.div_small, Z.add_0_l by (lia || apply Z.mod_pos_bound; lia).
    apply IH.
Qed.

(** ** [fe_frombytes] *)

(** Euclidean division of the words of the goal at their cut points. *)
Ltac split_at x k :=
  let q := fresh "q" in let r := fresh "r" in
  pose proof (Z.div_mod x (2 ^ k) ltac:(lia));
  pose proof (Z.mod_pos_bound x (2 ^ k) ltac:(lia));
  set (q := x / 2 ^ k) in *; set (r := x mod 2 ^ k) in *; clearbody q r.

Lemma shiftr_div x k : 0 <= k -> Z.shiftr x k = x / 2 ^ k.
Proof. apply Z.shiftr_div_pow2. Qed.

Lemma mod_add_low a b k n :
  0 <= a < 2 ^ k -> 0 <= k <= n -> (a + 2 ^ k * b) mod 2 ^ n = a + 2 ^ k * (b mod 2 ^ (n - k)).
Proof.
  intros Ha Hk. replace (2 ^ n) with (2 ^ k * 2 ^ (n - k)) by (rewrite <-Z.pow_add_r by lia; f_equal; lia).
  assert (0 < 2 ^ k) by lia. assert (0 < 2 ^ (n - k)) by (apply Z.pow_pos_nonneg; lia).
  rewrite Z.rem_mul_r by lia. rewrite (Z.mul_comm (2 ^ k) b).
  by rewrite Z.mod_add, Z.div_add, (Z.mod_small a), (Z.div_small a), Z.add_0_l by lia.
Qed.

Lemma div_bound x m n : 0 <= x < 2 ^ n -> 0 <= m <= n -> 0 <= x / 2 ^ m < 2 ^ (n - m).
Proof.
  intros Hx Hm. split; [apply Z.div_pos; lia|]. apply Z.div_lt_upper_bound; [lia|].
  rewrite <-Z.pow_add_r by lia. replace (m + (n - m)) with n by lia. lia.
Qed.

Lemma le_combine_take_drop n s :
  (n <= length s)%nat ->
  le_combine s = le_combine (take n s) + 256 ^ Z.of_nat n * le_combine (drop n s).
Proof.
  intros Hn. rewrite <-(take_drop n s) at 1. rewrite le_combine_app. by rewrite zlen_take.
Qed.

Lemma load64_le_bound s :
  are_bytes s -> (8 <= length s)%nat -> 0 <= load64_le s < 2 ^ 64.
Proof.
  intros Hs Hl. rewrite load64_le_chunk by done.
  change (2 ^ 64) with (256 ^ 8). change 8 with (Z.of_nat 8).
  rewrite <-(zlen_take 8 s) by done. apply le_combine_bound. by apply Forall_take.
Qed.

(** The four words of 32 bytes. *)
Lemma le_combine_words s :
  are_bytes s -> length s = 32%nat ->
  le_combine s = load64_le s + 2 ^ 64 * load64_le (drop 8 s)
    + 2 ^ 128 * load64_le (drop 16 s) + 2 ^ 192 * load64_le (drop 24 s).
Proof.
  intros Hs Hl.
  assert (forall n, are_bytes (drop n s)) as Hd by (intros n; by apply Forall_drop).
  rewrite !load64_le_chunk by (done || rewrite ?length_drop; lia).
  rewrite (le_combine_take_drop 8 s), (le_combine_take_drop 8 (drop 8 s)),
    (le_combine_take_drop 8 (drop 8 (drop 8 s))), (take_ge (drop 24 s))
    by (rewrite ?length_drop; lia).
  rewrite !drop_drop. cbn [Nat.add]. change (256 ^ Z.of_nat 8) with (2 ^ 64). lia.
Qed.

Lemma limb_between a b k m :
  0 <= k <= 51 -> 0 < m < 64 -> k = 64 - m ->
  0 <= a < 2 ^ 64 -> 
  Z.land (Z.lor (Z.shiftr a m) (u64 (Z.shiftl b k))) MASK51
  = a / 2 ^ m + 2 ^ k * (b mod 2 ^ (51 - k)).
Proof.
  intros Hk Hm -> Ha. pose proof (div_bound a m 64 Ha ltac:(lia)).
  rewrite land_mask51, shiftr_div, lor_u64_shiftl by lia.
  rewrite mod_add_low by lia. do 2 f_equal.
  symmetry. rewrite <-(Z.mod_mod_divide _ (2 ^ (64 - (64 - m)))); [done|].
  exists (2 ^ (64 - (64 - m) - (51 - (64 - m)))). rewrite <-Z.pow_add_r by lia. f_equal. lia.
Qed.

(** Loading a point takes its low 255 bits, whatever the top bit. *)
Lemma fe_frombytes_spec s :
  are_bytes s -> length s = 32%nat ->
  limbs_below (2 ^ 51) (fe_frombytes s) /\ fe_val (fe_frombytes s) = le_combine s mod 2 ^ 255.
Proof.
  intros Hs Hl. rewrite (le_combine_words s) by done. unfold fe_frombytes.
  assert (forall n, (n <= 24)%nat -> 0 <= load64_le (drop n s) < 2 ^ 64) as Hb.
  { intros n Hn. apply load64_le_bound; [by apply Forall_drop|rewrite length_drop; lia]. }
  pose proof (Hb 0%nat ltac:(lia)) as H0. pose proof (Hb 8%nat ltac:(lia)) as H1.
  pose proof (Hb 16%nat ltac:(lia)) as H2. pose proof (Hb 24%nat ltac:(lia)) as H3.
  rewrite drop_0 in H0. revert H0 H1 H2 H3.
  generalize (load64_le s), (load64_le (drop 8 s)), (load64_le (drop 16 s)), (load64_le (drop 24 s)).
  intros r0 r1 r2 r3 H0 H1 H2 H3. clear Hb.
  rewrite !limb_between by lia. rewrite !land_mask51, shiftr_div by lia.
  unfold limbs_below, fe_val. cbn [fe0 fe1 fe2 fe3 fe4].
  change (51 - 13) with 38. change (51 - 26) with 25. change (51 - 39) with 12.
  split_at r0 51. split_at r1 38. split_at r2 25. split_at r3 12. split_at q2 51.
  split; [lia|]. apply Z.mod_unique with q3; lia.
Qed.

(** ** [fe_tobytes] *)

Lemma u64_small x : 0 <= x < 2 ^ 64 -> u64 x = x.
Proof. intros. by apply wrap_small. Qed.

Lemma u128_small x : 0 <= x < 2 ^ 128 -> u128 x = x.
Proof. intros. by apply wrap_small. Qed.

(** Name the carry and the remainder of the outermost limb of the goal. *)
Ltac carry x :=
  rewrite ?(land_mask51 x), ?(shiftr_div x 51) by lia; split_at x 51.

(** What one pass leaves of a tight element. *)
Definition folded (t : fe) : Prop :=
  0 <= fe0 t < 2 ^ 51 + 19 /\ 0 <= fe1 t < 2 ^ 51 /\ 0 <= fe2 t < 2 ^ 51
  /\ 0 <= fe3 t < 2 ^ 51 /\ 0 <= fe4 t < 2 ^ 51.

(** A pass folds the limbs above 51 bits into the next ones. *)
Lemma carry_pass_spec t :
  limbs_below (2 ^ 52) t ->
  exists c, fe_val (carry_pass t) = fe_val t - p25519 * c
    /\ (tight t -> folded (carry_pass t))
    /\ (folded t -> limbs_below (2 ^ 51) (carry_pass t)).
Proof.
  destruct t as [t0 t1 t2 t3 t4]. unfold tight, folded, limbs_below, fe_val, p25519.
  cbn [fe0 fe1 fe2 fe3 fe4]. intros (H0 & H1 & H2 & H3 & H4).
  unfold carry_pass. carry t0.
  rewrite (u64_small (t1 + q)) by lia. set (x1 := t1 + q) in *. carry x1.
  rewrite (u64_small (t2 + q0)) by lia. set (x2 := t2 + q0) in *. carry x2.
  rewrite (u64_small (t3 + q1)) by lia. set (x3 := t3 + q1) in *. carry x3.
  rewrite (u64_small (t4 + q2)) by lia. set (x4 := t4 + q2) in *. carry x4.
  rewrite (u64_small (q3 * 19)), (u64_small (r + q3 * 19)) by lia.
  cbn [fe0 fe1 fe2 fe3 fe4].
  exists q3. subst x1 x2 x3 x4. split_and!; lia.
Qed.

Lemma limbs_below_mono b c t : b <= c -> limbs_below b t -> limbs_below c t.
Proof. unfold limbs_below. intros. lia. Qed.

(** Two passes: every limb below 2^51, the value unchanged modulo p. *)
Lemma carry_passes_spec h :
  tight h ->
  limbs_below (2 ^ 51) (carry_pass (carry_pass h))
  /\ fe_val (carry_pass (carry_pass h)) mod p25519 = fe_val h mod p25519.
Proof.
  intros Ht. destruct (carry_pass_spec h) as (c & Hv & Hb & _);
    [eapply limbs_below_mono; [|exact Ht]; lia|]. specialize (Hb Ht).
  destruct (carry_pass_spec (carry_pass h)) as (c' & Hv' & _ & Hb');
    [unfold folded, limbs_below in *; lia|]. split; [by apply Hb'|].
  rewrite Hv', Hv. rewrite <-(Z.mod_add (fe_val h - _ - _) (c + c')) by done.
  f_equal. lia.
Qed.

(** The trial subtraction of p and what its sign bit says. *)
Lemma minus_p_spec t :
  limbs_below (2 ^ 51) t ->
  (fe_val t < p25519 /\ Z.shiftr (fe4 (minus_p t)) 63 = 1)
  \/ (p25519 <= fe_val t /\ Z.shiftr (fe4 (minus_p t)) 63 = 0
      /\ limbs_below (2 ^ 51) (minus_p t) /\ fe_val (minus_p t) = fe_val t - p25519).
Proof.
  destruct t as [t0 t1 t2 t3 t4]. unfold limbs_below, fe_val, p25519.
  cbn [fe0 fe1 fe2 fe3 fe4]. intros (H0 & H1 & H2 & H3 & H4).
  unfold minus_p.
  rewrite (u64_small (t0 + 19)) by lia. set (x0 := t0 + 19) in *. carry x0.
  rewrite (u64_small (t1 + q)) by lia. set (x1 := t1 + q) in *. carry x1.
  rewrite (u64_small (t2 + q0)) by lia. set (x2 := t2 + q0) in *. carry x2.
  rewrite (u64_small (t3 + q1)) by lia. set (x3 := t3 + q1) in *. carry x3.
  rewrite (u64_small (t4 + q2)) by lia. change (Z.shiftl 1 51) with (2 ^ 51).
  cbn [fe0 fe1 fe2 fe3 fe4]. rewrite shiftr_div by lia. subst x0 x1 x2 x3.
  destruct (Z.lt_ge_cases (t4 + q2) (2 ^ 51)).
  - left. split; [lia|]. unfold wrap.
    rewrite <-(Z.mod_unique (t4 + q2 - 2 ^ 51) (2 ^ 64) (-1) (t4 + q2 - 2 ^ 51 + 2 ^ 64)) by lia.
    symmetry. apply Z.div_unique with (t4 + q2 - 2 ^ 51 + 2 ^ 63); lia.
  - right. rewrite u64_small by lia. split_and!; try lia. apply Z.div_small. lia.
Qed.

Lemma land_ones64 x : 0 <= x < 2 ^ 64 -> Z.land x (Z.ones 64) = x.
Proof. intros. rewrite Z.land_ones, Z.mod_small by lia. done. Qed.

Lemma select64_ones t d : 0 <= t < 2 ^ 64 -> select64 (u64 (not64 1 + 1)) t d = t.
Proof.
  intros Ht. unfold select64. change (u64 (not64 1 + 1)) with (Z.ones 64).
  change (not64 (Z.ones 64)) with 0. by rewrite land_ones64, Z.land_0_r, Z.lor_0_r.
Qed.

Lemma select64_zero t d : 0 <= d < 2 ^ 64 -> select64 (u64 (not64 0 + 1)) t d = d.
Proof.
  intros Hd. unfold select64. change (u64 (not64 0 + 1)) with 0.
  change (not64 0) with (Z.ones 64). by rewrite land_ones64, Z.land_0_r, Z.lor_0_l.
Qed.

(** Four little-endian words. *)
Lemma le_split_words r0 r1 r2 r3 :
  0 <= r0 < 2 ^ 64 -> 0 <= r1 < 2 ^ 64 -> 0 <= r2 < 2 ^ 64 ->
  le_split 32 (r0 + 2 ^ 64 * r1 + 2 ^ 128 * r2 + 2 ^ 192 * r3)
  = le_split 8 r0 ++ le_split 8 r1 ++ le_split 8 r2 ++ le_split 8 r3.
Proof.
  intros H0 H1 H2.
  assert (forall n r x, 0 <= r < 2 ^ 64 ->
    le_split (8 + n) (r + 2 ^ 64 * x) = le_split 8 r ++ le_split n x) as Hstep.
  { intros n r x Hr. rewrite le_split_app. change (256 ^ Z.of_nat 8) with (2 ^ 64).
    rewrite (Z.mul_comm (2 ^ 64)), Z.div_add, Z.div_small, Z.add_0_l by lia. f_equal.
    rewrite <-(le_split_mod 8 (r + _)). change (256 ^ Z.of_nat 8) with (2 ^ 64).
    by rewrite Z.mod_add, Z.mod_small by lia. }
  replace (r0 + 2 ^ 64 * r1 + 2 ^ 128 * r2 + 2 ^ 192 * r3)
    with (r0 + 2 ^ 64 * (r1 + 2 ^ 64 * (r2 + 2 ^ 64 * r3))) by lia.
  by rewrite (Hstep 24%nat), (Hstep 16%nat), (Hstep 8%nat).
Qed.

Lemma pack_spec t :
  limbs_below (2 ^ 51) t -> pack t = le_split 32 (fe_val t).
Proof.
  destruct t as [t0 t1 t2 t3 t4]. unfold limbs_below, fe_val.
  cbn [fe0 fe1 fe2 fe3 fe4]. intros (H0 & H1 & H2 & H3 & H4). unfold pack.
  rewrite !store64_le_split.
  rewrite (lor_u64_shiftl t0 t1 51) by lia. change (64 - 51) with 13.
  rewrite !shiftr_div by lia.
  rewrite (lor_u64_shiftl (t1 / _) t2 38) by (lia || apply (div_bound t1 13 51); lia).
  rewrite (lor_u64_shiftl (t2 / _) t3 25) by (lia || apply (div_bound t2 26 51); lia).
  rewrite (lor_u64_shiftl (t3 / _) t4 12) by (lia || apply (div_bound t3 39 51); lia).
  change (64 - 38) with 26. change (64 - 25) with 39. change (64 - 12) with 52.
  rewrite (Z.mod_small t4 (2 ^ 52)) by lia.
  split_at t1 13. split_at t2 26. split_at t3 39.
  rewrite <-le_split_words by lia. f_equal. lia.
Qed.

(** [fe_tobytes] is canonical: the bytes of the value reduced modulo p. *)
Lemma fe_tobytes_spec h : tight h -> fe_tobytes h = le_split 32 (fe_val h mod p25519).
Proof.
  intros Ht. destruct (carry_passes_spec h Ht) as [Hb Hv]. rewrite <-Hv.
  unfold fe_tobytes. set (t := carry_pass (carry_pass h)) in *. clearbody t.
  assert (0 <= fe_val t < 2 ^ 255) as Hr.
  { unfold limbs_below, fe_val in *. lia. }
  destruct (minus_p_spec t Hb) as [[Hlt ->] | (Hge & -> & Hd & Hval)].
  - rewrite !select64_ones by (unfold limbs_below in Hb; lia).
    rewrite Z.mod_small by lia. rewrite <-pack_spec by done. by destruct t.
  - rewrite !select64_zero by (unfold limbs_below in Hd; lia).
    replace (fe_val t mod p25519) with (fe_val (minus_p t)).
    + rewrite <-pack_spec by done. by destruct (minus_p t).
    + rewrite Hval. apply Z.mod_unique with 1; unfold p25519 in *; lia.
Qed.

(** ** The carry chain of products *)

Lemma u64_land x : Z.land (u64 x) MASK51 = x mod 2 ^ 51.
Proof.
  rewrite land_mask51. unfold wrap.
  apply Z.mod_mod_divide. by exists (2 ^ 13).
Qed.

(** Split a 128-bit accumulator into its limb and its carry. *)
Ltac carry128 x :=
  rewrite ?(u64_land x), ?(shiftr_div x 51) by lia; split_at x 51.

Lemma fe_reduce_spec t0 t1 t2 t3 t4 :
  0 <= t0 < 2 ^ 114 -> 0 <= t1 < 2 ^ 114 -> 0 <= t2 < 2 ^ 114 -> 0 <= t3 < 2 ^ 114 ->
  0 <= t4 < 2 ^ 109 ->
  tight (fe_reduce t0 t1 t2 t3 t4)
  /\ exists k, fe_val (fe_reduce t0 t1 t2 t3 t4)
       = t0 + 2 ^ 51 * t1 + 2 ^ 102 * t2 + 2 ^ 153 * t3 + 2 ^ 204 * t4 - p25519 * k.
Proof.
  intros H0 H1 H2 H3 H4. unfold fe_reduce, tight, limbs_below, fe_val, p25519.
  carry128 t0. rewrite (u64_small q) by lia.
  rewrite (u128_small (t1 + q)) by lia. set (x1 := t1 + q) in *. carry128 x1.
  rewrite (u64_small q0) by lia.
  rewrite (u128_small (t2 + q0)) by lia. set (x2 := t2 + q0) in *. carry128 x2.
  rewrite (u64_small q1) by lia.
  rewrite (u128_small (t3 + q1)) by lia. set (x3 := t3 + q1) in *. carry128 x3.
  rewrite (u64_small q2) by lia.
  rewrite (u128_small (t4 + q2)) by lia. set (x4 := t4 + q2) in *. carry128 x4.
  rewrite (u64_small q3) by lia. rewrite (u64_small (q3 * 19)) by lia.
  rewrite (u64_small (r + q3 * 19)) by lia. set (x0 := r + q3 * 19) in *. carry x0.
  rewrite (u64_small (r0 + q4)) by lia.
  cbn [fe0 fe1 fe2 fe3 fe4]. split; [lia|]. exists q3. subst x0 x1 x2 x3 x4. lia.
Qed.

(** ** Products *)

Lemma mul_bound a b m n : 0 <= a < m -> 0 <= b < n -> 0 <= a * b < m * n.
Proof. intros. split; nia. Qed.

Lemma mul64_small a b : 0 <= a < 2 ^ 53 -> 0 <= b < 2 ^ 58 -> mul64 a b = a * b.
Proof.
  intros Ha Hb. apply u128_small. pose proof (mul_bound _ _ _ _ Ha Hb). lia.
Qed.

Lemma sum5_small b x1 x2 x3 x4 x5 :
  0 <= x1 < b -> 0 <= x2 < b -> 0 <= x3 < b -> 0 <= x4 < b -> 0 <= x5 < b ->
  5 * b <= 2 ^ 128 ->
  sum5 x1 x2 x3 x4 x5 = x1 + x2 + x3 + x4 + x5.
Proof.
  intros. unfold sum5. rewrite (u128_small (x1 + x2)), (u128_small (x1 + x2 + x3)),
  (u128_small (x1 + x2 + x3 + x4)), u128_small by lia. done.
Qed.

Lemma sum5_bound x1 x2 x3 x4 x5 :
  0 <= x1 < 2 ^ 111 -> 0 <= x2 < 2 ^ 111 -> 0 <= x3 < 2 ^ 111 -> 0 <= x4 < 2 ^ 111 ->
  0 <= x5 < 2 ^ 111 -> 0 <= x1 + x2 + x3 + x4 + x5 < 2 ^ 114.
Proof. lia. Qed.

Lemma fe_mul_spec a b :
  loose a -> loose b ->
  tight (fe_mul a b) /\ fe_val (fe_mul a b) mod p25519 = (fe_val a * fe_val b) mod p25519.
Proof.
  destruct a as [a0 a1 a2 a3 a4], b as [b0 b1 b2 b3 b4]. unfold loose, limbs_below.
  cbn [fe0 fe1 fe2 fe3 fe4]. intros (A0 & A1 & A2 & A3 & A4) (B0 & B1 & B2 & B3 & B4).
  unfold fe_mul.
  rewrite (u64_small (b1 * 19)), (u64_small (b2 * 19)), (u64_small (b3 * 19)),
    (u64_small (b4 * 19)) by lia.
  rewrite !mul64_small by lia.
  assert (forall x y, 0 <= x < 2 ^ 53 -> 0 <= y < 2 ^ 53 -> 0 <= x * y < 2 ^ 106) as Hm.
  { intros x y Hx Hy. pose proof (mul_bound _ _ _ _ Hx Hy). lia. }
  assert (forall x y, 0 <= x < 2 ^ 53 -> 0 <= y < 2 ^ 53 -> 0 <= x * (y * 19) < 2 ^ 111) as Hm19.
  { intros x y Hx Hy. pose proof (Hm x y Hx Hy). lia. }
  assert (forall x y, 0 <= x < 2 ^ 53 -> 0 <= y < 2 ^ 53 -> 0 <= x * y < 2 ^ 111) as Hm'.
  { intros x y Hx Hy. pose proof (Hm x y Hx Hy). lia. }
  rewrite !(sum5_small (2 ^ 111)) by (first [by apply Hm19 | by apply Hm' | lia]).
  match goal with |- context [fe_reduce ?t0 ?t1 ?t2 ?t3 ?t4] =>
    destruct (fe_reduce_spec t0 t1 t2 t3 t4) as [Ht [k Hk]] end.
  1-4: apply sum5_bound; first [by apply Hm19 | by apply Hm'].
  - pose proof (Hm a0 b4 A0 B4). pose proof (Hm a1 b3 A1 B3). pose proof (Hm a2 b2 A2 B2).
    pose proof (Hm a3 b1 A3 B1). pose proof (Hm a4 b0 A4 B0). lia.
  - split; [exact Ht|]. rewrite Hk. unfold fe_val. cbn [fe0 fe1 fe2 fe3 fe4].
    match goal with |- ?l mod _ = ?r mod _ =>
      rewrite <-(Z.mod_add l (k
        + (a1 * b4 + a2 * b3 + a3 * b2 + a4 * b1)
        + 2 ^ 51 * (a2 * b4 + a3 * b3 + a4 * b2)
        + 2 ^ 102 * (a3 * b4 + a4 * b3) + 2 ^ 153 * (a4 * b4)) p25519) by done end.
    f_equal. unfold p25519. ring.
Qed.

Lemma fe_mul_a24_spec a :
  loose a ->
  tight (fe_mul_a24 a) /\ fe_val (fe_mul_a24 a) mod p25519 = (121665 * fe_val a) mod p25519.
Proof.
  destruct a as [a0 a1 a2 a3 a4]. unfold loose, limbs_below.
  cbn [fe0 fe1 fe2 fe3 fe4]. intros (A0 & A1 & A2 & A3 & A4).
  unfold fe_mul_a24. rewrite !mul64_small by lia.
  match goal with |- context [fe_reduce ?t0 ?t1 ?t2 ?t3 ?t4] =>
    destruct (fe_reduce_spec t0 t1 t2 t3 t4) as [Ht [k Hk]]; [lia..|] end.
  split; [exact Ht|]. rewrite Hk. unfold fe_val. cbn [fe0 fe1 fe2 fe3 fe4].
  match goal with |- ?l mod _ = _ => rewrite <-(Z.mod_add l k p25519) by done end.
  f_equal. lia.
Qed.

(** ** Sums and differences *)

Lemma fe_add_spec a b :
  tight a -> tight b -> loose (fe_add a b) /\ fe_val (fe_add a b) = fe_val a + fe_val b.
Proof.
  unfold tight, loose, limbs_below, fe_val, fe_add.
  intros (A0 & A1 & A2 & A3 & A4) (B0 & B1 & B2 & B3 & B4). cbn [fe0 fe1 fe2 fe3 fe4].
  rewrite !u64_small by lia. lia.
Qed.

Lemma fe_sub_spec a b :
  tight a -> tight b ->
  loose (fe_sub a b) /\ fe_val (fe_sub a b) = fe_val a - fe_val b + 2 * p25519.
Proof.
  unfold tight, loose, limbs_below, fe_val, fe_sub, p25519.
  intros (A0 & A1 & A2 & A3 & A4) (B0 & B1 & B2 & B3 & B4). cbn [fe0 fe1 fe2 fe3 fe4].
  rewrite (u64_small (fe0 a + _)), (u64_small (fe1 a + _)), (u64_small (fe2 a + _)),
    (u64_small (fe3 a + _)), (u64_small (fe4 a + _)) by lia.
  rewrite !u64_small by lia. lia.
Qed.

(** ** The representation relation *)

(** Congruence modulo p, as an equivalence the ring operations respect. *)
Definition eqm (x y : Z) : Prop := x mod p25519 = y mod p25519.

#[export] Instance eqm_equivalence : Equivalence eqm.
Proof. unfold eqm. split; repeat intro; congruence. Qed.

#[export] Instance eqm_add : Proper (eqm ==> eqm ==> eqm) Z.add.
Proof. intros a b H c d K. unfold eqm in *. by rewrite Zplus_mod, H, K, <-Zplus_mod. Qed.

#[export] Instance eqm_sub : Proper (eqm ==> eqm ==> eqm) Z.sub.
Proof. intros a b H c d K. unfold eqm in *. by rewrite Zminus_mod, H, K, <-Zminus_mod. Qed.

#[export] Instance eqm_mul : Proper (eqm ==> eqm ==> eqm) Z.mul.
Proof. intros a b H c d K. unfold eqm in *. by rewrite Zmult_mod, H, K, <-Zmult_mod. Qed.

Lemma eqm_2p x : eqm (x + 2 * p25519) x.
Proof. unfold eqm. by rewrite Z.mod_add. Qed.

Definition rep (f : fe) (v : Z) : Prop := tight f /\ eqm (fe_val f) v.
Definition rep_loose (f : fe) (v : Z) : Prop := loose f /\ eqm (fe_val f) v.

#[export] Instance rep_proper : Proper (eq ==> eqm ==> iff) rep.
Proof. intros f g -> x y H. unfold rep. by rewrite H. Qed.

#[export] Instance rep_loose_proper : Proper (eq ==> eqm ==> iff) rep_loose.
Proof. intros f g -> x y H. unfold rep_loose. by rewrite H. Qed.

Lemma rep_weaken f v : rep f v -> rep_loose f v.
Proof. intros [H ?]. split; [|done]. eapply limbs_below_mono; [|exact H]. lia. Qed.

Lemma rep_mul f g x y : rep_loose f x -> rep_loose g y -> rep (fe_mul f g) (x * y).
Proof.
  intros [Hf Hx] [Hg Hy]. destruct (fe_mul_spec f g Hf Hg) as [Ht Hv]. split; [done|].
  rewrite <-Hx, <-Hy. exact Hv.
Qed.

Lemma rep_sq f x : rep_loose f x -> rep (fe_sq f) (x * x).
Proof. intros. by apply rep_mul. Qed.

Lemma rep_mul_a24 f x : rep_loose f x -> rep (fe_mul_a24 f) (121665 * x).
Proof.
  intros [Hf Hx]. destruct (fe_mul_a24_spec f Hf) as [Ht Hv]. split; [done|].
  rewrite <-Hx. exact Hv.
Qed.

Lemma rep_add f g x y : rep f x -> rep g y -> rep_loose (fe_add f g) (x + y).
Proof.
  intros [Hf Hx] [Hg Hy]. destruct (fe_add_spec f g Hf Hg) as [Ht Hv]. split; [done|].
  by rewrite Hv, Hx, Hy.
Qed.

Lemma rep_sub f g x y : rep f x -> rep g y -> rep_loose (fe_sub f g) (x - y).
Proof.
  intros [Hf Hx] [Hg Hy]. destruct (fe_sub_spec f g Hf Hg) as [Ht Hv]. split; [done|].
  by rewrite Hv, eqm_2p, Hx, Hy.
Qed.

Create HintDb fe25519.
#[export] Hint Resolve rep_weaken rep_mul rep_sq rep_mul_a24 rep_add rep_sub : fe25519.

(** ** Inversion *)

Section powers.
Variables (z : Z) (f : fe).
Hypothesis Hf : rep f z.

(** [f] holds the power [e] of [z]. *)
Definition holds_power (g : fe) (e : Z) : Prop := 0 <= e /\ rep g (z ^ e).

Lemma power_base : holds_power f 1.
Proof. split; [lia|]. by rewrite Z.pow_1_r. Qed.

Lemma power_mul g h a b :
  holds_power g a -> holds_power h b -> holds_power (fe_mul g h) (a + b).
Proof.
  intros [Ha Hg] [Hb Hh]. split; [lia|]. rewrite Z.pow_add_r by done. auto with fe25519.
Qed.

Lemma power_sq g a : holds_power g a -> holds_power (fe_sq g) (2 * a).
Proof. intros H. replace (2 * a) with (a + a) by lia. by apply power_mul. Qed.

Lemma power_sq_times n g a :
  holds_power g a -> holds_power (fe_sq_times n g) (2 ^ Z.of_nat n * a).
Proof.
  revert g a. induction n as [|n IH]; intros g a Hg.
  - replace (2 ^ Z.of_nat 0 * a) with a by lia. exact Hg.
  - apply power_sq, IH in Hg. cbn [fe_sq_times]. rewrite Nat2Z.inj_succ, Z.pow_succ_r by lia.
    by replace (2 * 2 ^ Z.of_nat n * a) with (2 ^ Z.of_nat n * (2 * a)) by lia.
Qed.

Lemma power_cast g a b : a = b -> holds_power g a -> holds_power g b.
Proof. by intros ->. Qed.

(** Name one step of the chain and compute its exponent. *)
Ltac power_step :=
  lazymatch goal with
  | |- holds_power (let t := ?x in @?k t) ?e =>
      let H := fresh "H" in
      eassert (holds_power x _) as H
        by (repeat lazymatch goal with
                   | |- holds_power (fe_mul _ _) _ => eapply power_mul
                   | |- holds_power (fe_sq _) _ => eapply power_sq
                   | |- holds_power (fe_sq_times _ _) _ => eapply power_sq_times
                   | |- holds_power ?g _ =>
                       match goal with
                       | H : holds_power g _ |- _ => exact H
                       | _ => exact power_base
                       end
                   end);
      lazymatch type of H with
      | holds_power _ ?a =>
          let a' := eval vm_compute in a in
          apply (power_cast _ a a') in H; [|vm_compute; reflexivity]
      end;
      change (holds_power (k x) e); revert H; generalize x; cbv beta; intros ? H
  end.

(** The addition chain of [fe_invert] reaches the exponent p - 2. *)
Lemma fe_invert_power : holds_power (fe_invert f) (p25519 - 2).
Proof.
  cbv beta delta [fe_invert]. repeat power_step. eapply power_cast; [|eapply power_mul; eassumption].
  vm_compute. reflexivity.
Qed.
End powers.

(** [fe_invert] computes the (p - 2)-th power, the inverse by Fermat's theorem. *)
Lemma rep_invert f z : rep f z -> rep (fe_invert f) (z ^ (p25519 - 2)).
Proof. intros Hf. by apply (fe_invert_power z f Hf). Qed.

#[export] Hint Resolve rep_invert : fe25519.
