(* ===== verification/X25519.v ===== *)
(** * X25519 ([CX25519.c])

    The Montgomery ladder over the limbs of [Fe25519] and the public functions;
    the ladder of x-only doubling and differential addition modulo p as their
    specification. *)
From Stdlib Require Import ZArith Lia.
From stdpp Require Import base list option numbers.
From S2P Require Import Prelude Fe25519 Fe25519Proofs.

(** ** The code *)

Definition clamp (e : list Z) : list Z :=
  let e := <[0%nat := Z.land (byte_at e 0) 248]> e in
  let e := <[31%nat := Z.land (byte_at e 31) 127]> e in
  <[31%nat := Z.lor (byte_at e 31) 64]> e.

Definition fe_zero : fe := mk_fe 0 0 0 0 0.
Definition fe_one : fe := mk_fe 1 0 0 0 0.

(** One limb of the conditional swap: [t = mask & (a ^ b); a ^= t; b ^= t]. *)
Definition cswap_limb (mask a b : Z) : Z * Z :=
  let t := Z.land mask (Z.lxor a b) in (Z.lxor a t, Z.lxor b t).

Definition cswap (swap : Z) (a b : fe) : fe * fe :=
  let mask := u64 (0 - swap) in
  let '(a0, b0) := cswap_limb mask (fe0 a) (fe0 b) in
  let '(a1, b1) := cswap_limb mask (fe1 a) (fe1 b) in
  let '(a2, b2) := cswap_limb mask (fe2 a) (fe2 b) in
  let '(a3, b3) := cswap_limb mask (fe3 a) (fe3 b) in
  let '(a4, b4) := cswap_limb mask (fe4 a) (fe4 b) in
  (mk_fe a0 a1 a2 a3 a4, mk_fe b0 b1 b2 b3 b4).

Record ladder := mk_ladder { lx2 : fe; lz2 : fe; lx3 : fe; lz3 : fe; lswap : Z }.

(** Both swaps of the loop body (and of the code after the loop). *)
Definition cswap_points (swap : Z) (l : ladder) : ladder :=
  let '(x2, x3) := cswap swap (lx2 l) (lx3 l) in
  let '(z2, z3) := cswap swap (lz2 l) (lz3 l) in
  mk_ladder x2 z2 x3 z3 (lswap l).

(** The arithmetic of the loop body. *)
Definition ladder_step (x1 : fe) (l : ladder) : ladder :=
  let '(mk_ladder x2 z2 x3 z3 swap) := l in
  let a := fe_add x2 z2 in
  let aa := fe_sq a in
  let b_fe := fe_sub x2 z2 in
  let bb := fe_sq b_fe in
  let e_fe := fe_sub aa bb in
  let c := fe_add x3 z3 in
  let d := fe_sub x3 z3 in
  let da := fe_mul d a in
  let cb := fe_mul c b_fe in
  let tmp0 := fe_add da cb in
  let x3 := fe_sq tmp0 in
  let tmp1 := fe_sub da cb in
  let tmp1 := fe_sq tmp1 in
  let z3 := fe_mul tmp1 x1 in
  let x2 := fe_mul aa bb in
  let tmp0 := fe_mul_a24 e_fe in
  let tmp0 := fe_add tmp0 aa in
  let z2 := fe_mul e_fe tmp0 in
  mk_ladder x2 z2 x3 z3 swap.

(** [(e[pos / 8] >> (pos & 7)) & 1] *)
Definition scalar_bit (e : list Z) (pos : nat) : Z :=
  Z.land (Z.shiftr (byte_at e (pos / 8)) (Z.land (Z.of_nat pos) 7)) 1.

Definition ladder_body (e : list Z) (x1 : fe) (pos : nat) (l : ladder) : ladder :=
  let b := scalar_bit e pos in
  let l := cswap_points (Z.lxor (lswap l) b) l in
  ladder_step x1 (mk_ladder (lx2 l) (lz2 l) (lx3 l) (lz3 l) b).

(** [for (int pos = n - 1; pos >= 0; pos--)] *)
Fixpoint ladder_loop (e : list Z) (x1 : fe) (n : nat) (l : ladder) : ladder :=
  match n with O => l | S pos => ladder_loop e x1 pos (ladder_body e x1 pos l) end.

Definition x25519_scalarmult (scalar point : list Z) : list Z :=
  let e := clamp scalar in
  let x1 := fe_frombytes point in
  let l := ladder_loop e x1 255 (mk_ladder fe_one fe_zero (fe_copy x1) fe_one 0) in
  let l := cswap_points (lswap l) l in
  let tmp0 := fe_invert (lz2 l) in
  let tmp1 := fe_mul (lx2 l) tmp0 in
  fe_tobytes tmp1.

Definition x25519_basepoint : list Z := 9 :: replicate 31 0.

(** The operating system's [/dev/urandom]: whether [open] succeeds, and what the
    [i]-th [read] of at most [n] bytes delivers ([None]: a result [<= 0]). *)
Record urandom := mk_urandom {
  ur_open : bool;
  ur_read : nat -> nat -> option (list Z);
}.

(** The read loop, from [total] bytes on; every read makes progress, so [len]
    steps are enough. *)
Fixpoint secure_random_loop (ur : urandom) (fuel i total : nat) (buf : list Z) (len : nat)
    : Z * list Z :=
  if bool_decide (total < len)%nat then
    match fuel with
    | O => (-1, buf)
    | S fuel =>
        match ur_read ur i (len - total) with
        | None => (-1, buf)
        | Some bytes =>
            secure_random_loop ur fuel (S i) (total + length bytes)
              (take total buf ++ bytes ++ drop (total + length bytes) buf) len
        end
    end
  else (0, buf).

Definition secure_random (ur : urandom) (buf : list Z) (len : nat) : Z * list Z :=
  if ur_open ur then secure_random_loop ur len 0 0 buf len else (-1, buf).

(** The private key buffer comes in with whatever the caller had there. *)
Definition x25519_generate_keypair (ur : urandom) (private_key : list Z) : list Z * list Z :=
  let '(_, private_key) := secure_random ur private_key 32 in
  let private_key := clamp private_key in
  (x25519_scalarmult private_key x25519_basepoint, private_key).

Definition x25519_key_agreement (private_key peer_public_key : list Z) : Z * list Z :=
  let shared_secret := x25519_scalarmult private_key peer_public_key in
  let zero := foldl Z.lor 0 (take 32 shared_secret) in
  ((if zero =? 0 then -1 else 0), shared_secret).

(** ** The specification: the ladder of RFC 7748 on projective x-coordinates *)

Record xpoint := mk_xpoint { px : Z; pz : Z }.

(** [(X : Z)] of the double of a point. *)
Definition xdbl (p : xpoint) : xpoint :=
  let aa := (px p + pz p) * (px p + pz p) in
  let bb := (px p - pz p) * (px p - pz p) in
  let e := aa - bb in
  mk_xpoint (aa * bb) (e * (121665 * e + aa)).

(** [(X : Z)] of the sum of two points whose difference has x-coordinate [u]. *)
Definition xadd (u : Z) (p q : xpoint) : xpoint :=
  let da := (px q - pz q) * (px p + pz p) in
  let cb := (px q + pz q) * (px p - pz p) in
  mk_xpoint ((da + cb) * (da + cb)) ((da - cb) * (da - cb) * u).

(** From [(P, Q)], the pair [(2P, P+Q)], or [(P+Q, 2Q)] when the bit is set. *)
Definition xstep (u : Z) (bit : bool) (pq : xpoint * xpoint) : xpoint * xpoint :=
  let '(p, q) := pq in
  if bit then (xadd u p q, xdbl q) else (xdbl p, xadd u p q).

Fixpoint xladder (u k : Z) (n : nat) (pq : xpoint * xpoint) : xpoint * xpoint :=
  match n with
  | O => pq
  | S pos => xladder u k pos (xstep u (Z.testbit k (Z.of_nat pos)) pq)
  end.

(** [decodeScalar25519]: bits 0 to 2 and 255 cleared, bit 254 set. *)
Definition clamped (n : Z) : Z := 2 ^ 254 + 8 * (n / 8 mod 2 ^ 251).

Definition infinity : xpoint := mk_xpoint 1 0.

Definition X25519_spec (n u : Z) : Z :=
  let '(p, _) := xladder u (clamped n) 255 (infinity, mk_xpoint u 1) in
  (px p * pz p ^ (p25519 - 2)) mod p25519.
