(* ===== verification/X25519Proofs.v ===== *)
(** * Correctness of X25519

    The limb-level ladder with masked, deferred swaps refines the ladder of the
    specification; clamping, the agreement's zero check and key generation. *)
From Stdlib Require Import ZArith Lia Zpow_facts.
From stdpp Require Import base list option numbers.
From S2P Require Import Prelude Fe25519 Fe25519Proofs X25519.

(** ** The conditional swap *)

Lemma cswap_limb_spec (s : bool) a b :
  0 <= a < 2 ^ 64 -> 0 <= b < 2 ^ 64 ->
  cswap_limb (u64 (0 - Z.b2z s)) a b = if s then (b, a) else (a, b).
Proof.
  intros Ha Hb. unfold cswap_limb. destruct s; simpl Z.b2z.
  - change (u64 (0 - 1)) with (Z.ones 64).
    assert (Z.land (Z.ones 64) (Z.lxor a b) = Z.lxor a b) as ->.
    { apply Z.bits_inj'. intros n Hn. rewrite Z.land_spec, Z.lxor_spec.
      destruct (Z.lt_ge_cases n 64).
      - by rewrite Z.ones_spec_low by lia.
      - rewrite Z.ones_spec_high by lia.
        assert (forall x, 0 <= x < 2 ^ 64 -> Z.testbit x n = false) as Hx.
        { intros x Hx. rewrite <-(Z.mod_small x (2 ^ 64)) by lia.
          by apply Z.mod_pow2_bits_high. }
        by rewrite !Hx. }
    f_equal.
    + by rewrite <-Z.lxor_assoc, Z.lxor_nilpotent, Z.lxor_0_l.
    + by rewrite (Z.lxor_comm a), <-Z.lxor_assoc, Z.lxor_nilpotent, Z.lxor_0_l.
  - by rewrite Z.land_0_l, !Z.lxor_0_r.
Qed.

Lemma cswap_spec (s : bool) a b :
  tight a -> tight b -> cswap (Z.b2z s) a b = if s then (b, a) else (a, b).
Proof.
  destruct a as [a0 a1 a2 a3 a4], b as [b0 b1 b2 b3 b4]. unfold tight, limbs_below.
  cbn [fe0 fe1 fe2 fe3 fe4]. intros (A0 & A1 & A2 & A3 & A4) (B0 & B1 & B2 & B3 & B4).
  unfold cswap. cbn [fe0 fe1 fe2 fe3 fe4]. rewrite !cswap_limb_spec by lia.
  by destruct s.
Qed.

(** ** Points *)

(** Points equal modulo p. *)
Definition xeq (p q : xpoint) : Prop := eqm (px p) (px q) /\ eqm (pz p) (pz q).

#[export] Instance xeq_equivalence : Equivalence xeq.
Proof.
  unfold xeq. split; [intros ?; by split|intros ?? []; by split|].
  intros ??? [-> ->] [-> ->]. by split.
Qed.

(** Differential addition does not depend on the order of its points: the
    differences only change sign, and are squared. *)
Lemma xadd_comm u p q : xeq (xadd u p q) (xadd u q p).
Proof. unfold xeq, xadd; simpl. split; apply eq_subrelation; try typeclasses eauto; ring. Qed.

Definition rep_point (x z : fe) (p : xpoint) : Prop := rep x (px p) /\ rep z (pz p).

#[export] Instance rep_point_proper : Proper (eq ==> eq ==> xeq ==> iff) rep_point.
Proof. intros x ? <- z ? <- p q [H1 H2]. unfold rep_point. by rewrite H1, H2. Qed.

(** ** The ladder *)

Definition swapped (s : bool) {A} (pq : A * A) : A * A := if s then (pq.2, pq.1) else pq.

(** The machine state represents the points [(P, Q)], exchanged when a swap is
    pending. *)
Definition represents (l : ladder) (pq : xpoint * xpoint) : Prop :=
  exists s, lswap l = Z.b2z s
    /\ rep_point (lx2 l) (lz2 l) (swapped s pq).1
    /\ rep_point (lx3 l) (lz3 l) (swapped s pq).2.

Lemma cswap_points_spec s l :
  tight (lx2 l) -> tight (lz2 l) -> tight (lx3 l) -> tight (lz3 l) ->
  cswap_points (Z.b2z s) l
  = if s then mk_ladder (lx3 l) (lz3 l) (lx2 l) (lz2 l) (lswap l) else l.
Proof.
  intros. unfold cswap_points. rewrite !cswap_spec by done. destruct s; [done|by destruct l].
Qed.

(** The arithmetic of one iteration: double the first point, add the two. *)
Lemma ladder_step_spec x1 u x2 z2 x3 z3 s p q :
  rep x1 u -> rep_point x2 z2 p -> rep_point x3 z3 q ->
  let l := ladder_step x1 (mk_ladder x2 z2 x3 z3 s) in
  lswap l = s /\ rep_point (lx2 l) (lz2 l) (xdbl p) /\ rep_point (lx3 l) (lz3 l) (xadd u p q).
Proof.
  intros Hu [Hx2 Hz2] [Hx3 Hz3]. unfold ladder_step, rep_point, xdbl, xadd.
  cbn [lx2 lz2 lx3 lz3 lswap px pz].
  assert (forall f g x y, rep f x -> rep g y -> rep (fe_sq (fe_add f g)) ((x + y) * (x + y)))
    as Hsa by auto with fe25519.
  assert (forall f g x y, rep f x -> rep g y -> rep (fe_sq (fe_sub f g)) ((x - y) * (x - y)))
    as Hss by auto with fe25519.
  assert (forall f x, rep_loose f x -> rep (fe_mul_a24 f) (121665 * x)) as Ha by auto with fe25519.
  split; [done|]. split; split; auto 12 with fe25519.
Qed.

Lemma xor_b2z a b : Z.lxor (Z.b2z a) (Z.b2z b) = Z.b2z (xorb a b).
Proof. by destruct a, b. Qed.

(** Two pending swaps compose. *)
Lemma represents_swap l pq b :
  represents l pq ->
  let l' := cswap_points (Z.lxor (lswap l) (Z.b2z b)) l in
  rep_point (lx2 l') (lz2 l') (swapped b pq).1 /\ rep_point (lx3 l') (lz3 l') (swapped b pq).2.
Proof.
  intros (s & Hs & [[H1 H1'] [H2 H2']] & [[H3 H3'] [H4 H4']]). rewrite Hs, xor_b2z.
  rewrite cswap_points_spec by done.
  destruct s, b; simpl in *; split; split; by split.
Qed.

Lemma ladder_body_spec e x1 u k pos l pq :
  rep x1 u -> scalar_bit e pos = Z.b2z (Z.testbit k (Z.of_nat pos)) -> represents l pq ->
  represents (ladder_body e x1 pos l) (xstep u (Z.testbit k (Z.of_nat pos)) pq).
Proof.
  intros Hu Hb Hl. unfold ladder_body. rewrite Hb. set (b := Z.testbit _ _).
  destruct (represents_swap l pq b Hl) as [HP HQ].
  destruct (ladder_step_spec x1 u _ _ _ _ (Z.b2z b) _ _ Hu HP HQ) as (Hs & H2 & H3).
  exists b. split; [exact Hs|]. destruct pq as [p q].
  destruct b; cbn [swapped xstep fst snd] in *; (split; [exact H2|]); [|exact H3].
  eapply rep_point_proper; [reflexivity..|apply xadd_comm|exact H3].
Qed.

Lemma ladder_loop_spec e x1 u k n l pq :
  rep x1 u ->
  (forall pos, (pos < n)%nat -> scalar_bit e pos = Z.b2z (Z.testbit k (Z.of_nat pos))) ->
  represents l pq -> represents (ladder_loop e x1 n l) (xladder u k n pq).
Proof.
  intros Hu. revert l pq. induction n as [|n IH]; intros l pq Hb Hl; [done|].
  apply IH; [auto|]. apply ladder_body_spec; auto.
Qed.

(** ** Scalars *)

(** A property of bytes checked on all of them. *)
Lemma byte_check (P : Z -> bool) :
  forallb P (map Z.of_nat (seq 0 256)) = true -> forall b, is_byte b -> P b = true.
Proof.
  intros H b Hb. unfold is_byte in Hb. rewrite forallb_forall in H. apply H, in_map_iff.
  exists (Z.to_nat b). split; [lia|]. apply in_seq. lia.
Qed.

Lemma land_248 b : is_byte b -> Z.land b 248 = 8 * (b / 8).
Proof.
  intros Hb. apply Z.eqb_eq. revert b Hb.
  by apply (byte_check (fun b => Z.land b 248 =? 8 * (b / 8))).
Qed.

Lemma clamp_high b : is_byte b -> Z.lor (Z.land b 127) 64 = 64 + b mod 64.
Proof.
  intros Hb. apply Z.eqb_eq. revert b Hb.
  by apply (byte_check (fun b => Z.lor (Z.land b 127) 64 =? 64 + b mod 64)).
Qed.

(** The first and the last of 32 bytes. *)
Lemma split_ends s :
  length s = 32%nat -> exists (a : Z) (m : list Z) (b : Z), s = a :: m ++ [b] /\ length m = 30%nat.
Proof.
  intros Hl. destruct s as [|a s]; [done|]. simpl in Hl.
  destruct (exists_last (l := s)) as (m & b & ->); [by destruct s|].
  rewrite length_app in Hl. simpl in Hl. exists a, m, b. split; [done|lia].
Qed.

Lemma clamp_ends (a : Z) (m : list Z) (b : Z) :
  length m = 30%nat ->
  clamp (a :: m ++ [b]) = Z.land a 248 :: m ++ [Z.lor (Z.land b 127) 64].
Proof.
  intros Hm.
  assert (forall x c d, <[31%nat := d]> (x :: m ++ [c]) = x :: m ++ [d]) as Hi.
  { intros x c d. rewrite (app_comm_cons m [c] x), insert_app_r_alt by (simpl; lia).
    simpl length. by rewrite Hm. }
  assert (forall x c, nth 31 (x :: m ++ [c]) 0 = c) as Hn.
  { intros x c. rewrite (app_comm_cons m [c] x), app_nth2 by (simpl; lia).
    simpl length. by rewrite Hm. }
  unfold clamp, byte_at. change (<[0%nat := Z.land (nth 0 (a :: m ++ [b]) 0) 248]> (a :: m ++ [b]))
    with (Z.land a 248 :: m ++ [b]).
  by rewrite Hn, Hi, Hn, Hi.
Qed.

Lemma clamp_spec s :
  are_bytes s -> length s = 32%nat ->
  are_bytes (clamp s) /\ length (clamp s) = 32%nat
  /\ le_combine (clamp s) = clamped (le_combine s).
Proof.
  intros Hs Hl. destruct (split_ends s Hl) as (a & m & b & -> & Hm).
  apply Forall_cons_1 in Hs as [Ha Hs]. apply Forall_app in Hs as [Hms Hb].
  apply Forall_cons_1 in Hb as [Hb _]. rewrite clamp_ends, land_248, clamp_high by done.
  unfold is_byte in *. split_and!.
  - apply Forall_cons_2; [unfold is_byte; div_lia|]. apply Forall_app_2; [done|].
    apply Forall_cons_2; [unfold is_byte; div_lia|constructor].
  - simpl. rewrite length_app. simpl. lia.
  - unfold clamped. cbn [le_combine]. rewrite !le_combine_app. cbn [le_combine].
    pose proof (le_combine_bound m Hms) as HM. revert HM.
    unfold zlen. rewrite Hm. change (256 ^ Z.of_nat 30) with (2 ^ 240).
    generalize (le_combine m). intros M HM. rewrite !Z.mul_0_r, !Z.add_0_r.
    replace (a + 256 * (M + 2 ^ 240 * b)) with (a + (32 * (M + 2 ^ 240 * b)) * 8) by lia.
    rewrite Z.div_add by lia.
    rewrite <-(Z.mod_unique (a / 8 + 32 * (M + 2 ^ 240 * b)) (2 ^ 251) (b / 64)
      (a / 8 + 32 * (M + 2 ^ 240 * (b mod 64)))); div_lia.
Qed.

(** The bits of a little-endian number are the bits of its bytes. *)
Lemma le_combine_testbit bs (pos : nat) :
  are_bytes bs ->
  Z.testbit (le_combine bs) (Z.of_nat pos)
  = Z.testbit (byte_at bs (pos / 8)) (Z.of_nat (pos mod 8)).
Proof.
  unfold byte_at. intros Hbs. revert pos. induction Hbs as [|b bs Hb _ IH]; intros pos.
  - rewrite Z.bits_0. destruct (pos / 8)%nat; simpl; by rewrite Z.bits_0.
  - cbn [le_combine]. unfold is_byte in Hb. change 256 with (2 ^ 8) in *.
    rewrite <-(lor_shifted b _ 8) by lia. rewrite Z.lor_spec, (Z.mul_comm (2 ^ 8)).
    rewrite <-Z.shiftl_mul_pow2, Z.shiftl_spec by lia.
    destruct (decide (pos < 8)%nat).
    + rewrite Nat.div_small, Nat.mod_small by done. cbn [nth].
      by rewrite (Z.testbit_neg_r (le_combine bs)), orb_false_r by lia.
    + replace (Z.of_nat pos - 8) with (Z.of_nat (pos - 8)) by lia. rewrite IH.
      assert (pos = (pos - 8) + 1 * 8)%nat as Hp by lia.
      replace (Z.testbit b (Z.of_nat pos)) with false.
      * rewrite Hp at 3 4. rewrite Nat.div_add, Nat.Div0.mod_add by lia.
        by rewrite Nat.add_1_r.
      * symmetry. rewrite <-(Z.mod_small b (2 ^ 8)) by lia.
        apply Z.mod_pow2_bits_high. lia.
Qed.

Lemma scalar_bit_spec e pos :
  are_bytes e -> scalar_bit e pos = Z.b2z (Z.testbit (le_combine e) (Z.of_nat pos)).
Proof.
  intros He. rewrite le_combine_testbit by done. unfold scalar_bit.
  change 7 with (Z.ones 3). rewrite Z.land_ones by lia.
  change (2 ^ 3) with (Z.of_nat 8). rewrite <-Nat2Z.inj_mod.
  generalize (byte_at e (pos / 8)), (Z.of_nat (pos mod 8)). intros x i.
  change 1 with (Z.ones 1) at 1. rewrite Z.land_ones by lia. change (2 ^ 1) with 2.
  by rewrite <-Z.bit0_mod, Z.shiftr_spec, Z.add_0_l by lia.
Qed.

(** ** Scalar multiplication *)

Lemma rep_const c : 0 <= c < 2 ^ 51 -> rep (mk_fe c 0 0 0 0) c.
Proof.
  intros Hc. split; [unfold tight, limbs_below; simpl; lia|].
  unfold fe_val, eqm. simpl. f_equal. lia.
Qed.

Lemma rep_frombytes s :
  are_bytes s -> length s = 32%nat -> rep (fe_frombytes s) (le_combine s mod 2 ^ 255).
Proof.
  intros Hs Hl. destruct (fe_frombytes_spec s Hs Hl) as [Hb Hv]. split; [|by rewrite Hv].
  eapply limbs_below_mono; [|exact Hb]. lia.
Qed.

Lemma rep_tobytes f v : rep f v -> fe_tobytes f = le_split 32 (v mod p25519).
Proof. intros [Ht Hv]. rewrite fe_tobytes_spec by done. by rewrite Hv. Qed.

Lemma eqm_pow x y n : 0 <= n -> eqm x y -> eqm (x ^ n) (y ^ n).
Proof.
  intros Hn H. unfold eqm in *. rewrite (Zpower_mod x), (Zpower_mod y) by done. by rewrite H.
Qed.

Lemma scalarmult_refines scalar point :
  are_bytes scalar -> length scalar = 32%nat -> are_bytes point -> length point = 32%nat ->
  x25519_scalarmult scalar point
  = le_split 32 (X25519_spec (le_combine scalar) (le_combine point mod 2 ^ 255)).
Proof.
  intros Hs Hsl Hp Hpl. destruct (clamp_spec scalar Hs Hsl) as (Hcb & Hcl & Hc).
  pose proof (rep_frombytes point Hp Hpl) as Hu. unfold x25519_scalarmult, X25519_spec.
  set (u := le_combine point mod 2 ^ 255) in *. set (x1 := fe_frombytes point) in *.
  assert (represents (mk_ladder fe_one fe_zero (fe_copy x1) fe_one 0)
    (infinity, mk_xpoint u 1)) as H0.
  { exists false. split; [done|]. split; split; try exact Hu; by apply rep_const. }
  pose proof (ladder_loop_spec (clamp scalar) x1 u (clamped (le_combine scalar)) 255 _ _ Hu
    ltac:(intros pos _; rewrite <-Hc; by apply scalar_bit_spec) H0) as Hl.
  set (l := ladder_loop _ _ _ _) in *. set (pq := xladder _ _ _ _) in *. clearbody l pq.
  destruct (represents_swap l pq false Hl) as [[Hx Hz] _]. destruct pq as [p q].
  simpl Z.b2z in *. rewrite Z.lxor_0_r in Hx, Hz. cbn [swapped fst] in *.
  set (l' := cswap_points _ _) in *. clearbody l'.
  apply rep_tobytes, rep_mul; [by apply rep_weaken|]. by apply rep_weaken, rep_invert.
Qed.

(** ** The zero check *)

Lemma foldl_lor_zero acc l :
  0 <= acc -> are_bytes l ->
  foldl Z.lor acc l = 0 <-> acc = 0 /\ Forall (fun b => b = 0) l.
Proof.
  intros Hacc Hl. revert acc Hacc. induction Hl as [|b l Hb Hl IH]; intros acc Hacc; simpl.
  - split; [by split|by intros []].
  - unfold is_byte in Hb. rewrite IH by (apply Z.lor_nonneg; lia).
    rewrite Z.lor_eq_0_iff. split.
    + intros [[-> ->] H]. by repeat constructor.
    + intros [-> H]. by inv H.
Qed.

Lemma le_combine_zero l : are_bytes l -> le_combine l = 0 <-> Forall (fun b => b = 0) l.
Proof.
  induction 1 as [|b l Hb Hl IH]; simpl; [by split|]. unfold is_byte in Hb.
  pose proof (le_combine_bound l Hl) as HB. split.
  - intros H. constructor; [lia|]. apply IH. lia.
  - intros H. inv H. rewrite (proj2 IH) by done. lia.
Qed.

Lemma X25519_spec_bound n u : 0 <= X25519_spec n u < 2 ^ 255.
Proof.
  unfold X25519_spec. destruct (xladder _ _ _ _) as [p q].
  pose proof (Z.mod_pos_bound (px p * pz p ^ (p25519 - 2)) p25519 ltac:(done)) as H.
  revert H. generalize (px p * pz p ^ (p25519 - 2)). intros x H.
  assert (p25519 < 2 ^ 255) by done. lia.
Qed.

Lemma zero_check v :
  0 <= v < 2 ^ 256 -> (foldl Z.lor 0 (take 32 (le_split 32 v)) =? 0) = (v =? 0).
Proof.
  intros Hv. rewrite take_ge by (by rewrite le_split_length).
  apply eq_true_iff_eq. rewrite !Z.eqb_eq.
  rewrite foldl_lor_zero by (done || apply le_split_bytes).
  rewrite <-le_combine_zero by apply le_split_bytes. rewrite le_combine_split by done.
  split; [by intros []|by split].
Qed.

(** ** Key generation *)

(** [read] delivers at most as many bytes as it is asked for. *)
Definition lawful_reads (ur : urandom) : Prop :=
  forall i n bytes, ur_read ur i n = Some bytes ->
    are_bytes bytes /\ (1 <= length bytes <= n)%nat.

(** The buffer stays a buffer of the same length, filled or not. *)
Lemma secure_random_loop_buffer ur fuel i total buf len :
  lawful_reads ur -> are_bytes buf -> length buf = len ->
  let '(rc, buf') := secure_random_loop ur fuel i total buf len in
  are_bytes buf' /\ length buf' = len.
Proof.
  intros Hr. revert i total buf. induction fuel as [|fuel IH]; intros i total buf Hb Hl;
    cbn [secure_random_loop]; case_bool_decide; [done|done| |done].
  destruct (ur_read ur i _) as [bytes|] eqn:Hread; [|done].
  destruct (Hr _ _ _ Hread) as [Hbytes Hn]. apply IH.
  - apply Forall_app_2; [by apply Forall_take|]. apply Forall_app_2; [done|by apply Forall_drop].
  - rewrite !length_app, length_take, length_drop. lia.
Qed.

Lemma secure_random_buffer ur buf len :
  lawful_reads ur -> are_bytes buf -> length buf = len ->
  let '(rc, buf') := secure_random ur buf len in are_bytes buf' /\ length buf' = len.
Proof.
  intros. unfold secure_random. destruct (ur_open ur); [|done].
  by apply secure_random_loop_buffer.
Qed.

(** The bytes the reads deliver from the [i]-th on, until [need] of them came. *)
Fixpoint delivered (ur : urandom) (fuel i need : nat) : option (list Z) :=
  match need, fuel with
  | O, _ => Some []
  | S _, O => None
  | S _, S fuel =>
      bytes ← ur_read ur i need;
      rest ← delivered ur fuel (S i) (need - length bytes);
      Some (bytes ++ rest)
  end.

Lemma secure_random_loop_fills ur fuel i total buf len :
  lawful_reads ur -> length buf = len -> (total <= len)%nat -> (len - total <= fuel)%nat ->
  match delivered ur fuel i (len - total) with
  | Some bytes => secure_random_loop ur fuel i total buf len = (0, take total buf ++ bytes)
  | None => (secure_random_loop ur fuel i total buf len).1 = -1
  end.
Proof.
  intros Hr. revert i total buf. induction fuel as [|fuel IH]; intros i total buf Hl Ht Hf.
  - replace (len - total)%nat with 0%nat by lia. simpl. rewrite bool_decide_eq_false_2 by lia.
    rewrite app_nil_r, take_ge; [done|lia].
  - cbn [secure_random_loop]. case_bool_decide as Hlt.
    + destruct (len - total)%nat as [|need] eqn:Hneed; [lia|]. cbn [delivered].
      destruct (ur_read ur i (S need)) as [bytes|] eqn:Hread; [|done].
      destruct (Hr _ _ _ Hread) as [_ Hn]. cbn [mbind option_bind].
      set (buf' := take total buf ++ _).
      assert (take (total + length bytes) buf' = take total buf ++ bytes) as Htake.
      { unfold buf'. rewrite app_assoc, take_app_length'; [done|].
        rewrite length_app, length_take. lia. }
      specialize (IH (S i) (total + length bytes)%nat buf').
      replace (len - (total + length bytes))%nat with (S need - length bytes)%nat in IH by lia.
      assert (length buf' = len) as Hl'.
      { unfold buf'. rewrite !length_app, length_take, length_drop. lia. }
      specialize (IH Hl' ltac:(lia) ltac:(lia)).
      destruct (delivered ur fuel (S i) _) as [rest|]; [|exact IH].
      cbn [mbind option_bind]. by rewrite IH, Htake, <-app_assoc.
    + replace (len - total)%nat with 0%nat by lia. simpl.
      rewrite app_nil_r, take_ge; [done|lia].
Qed.

(** What the reads deliver until there is enough or one fails. *)
Fixpoint arrived (ur : urandom) (fuel i need : nat) : list Z :=
  match fuel, need with
  | O, _ | _, O => []
  | S fuel, S _ =>
      match ur_read ur i need with
      | None => []
      | Some bytes => bytes ++ arrived ur fuel (S i) (need - length bytes)
      end
  end.

(** The buffer gets what arrives and keeps its end; the result says whether it is full. *)
Lemma secure_random_loop_arrived ur fuel : forall i total buf len,
  lawful_reads ur -> length buf = len -> (total <= len)%nat -> (len - total <= fuel)%nat ->
  let bytes := arrived ur fuel i (len - total) in
  (total + length bytes <= len)%nat /\
  secure_random_loop ur fuel i total buf len
  = (if bool_decide (total + length bytes < len)%nat then -1 else 0,
     take total buf ++ bytes ++ drop (total + length bytes) buf).
Proof.
  induction fuel as [|fuel IH]; intros i total buf len Hr Hl Ht Hf.
  { cbn [arrived secure_random_loop length app]. assert (total = len) as -> by lia. rewrite Nat.add_0_r.
    rewrite !(bool_decide_eq_false_2 (len < len)%nat) by lia. by rewrite take_drop. }
  cbn [secure_random_loop]. case_bool_decide as Hlt.
  2: { assert (total = len) as -> by lia. rewrite Nat.sub_diag. cbn [arrived length app]. rewrite Nat.add_0_r.
       rewrite (bool_decide_eq_false_2 (len < len)%nat) by lia. by rewrite take_drop. }
  destruct (len - total)%nat as [|need] eqn:Hneed; [lia|]. cbn [arrived]. cbv zeta.
  destruct (ur_read ur i (S need)) as [bytes|] eqn:Hread.
  2: { cbn [length app]. rewrite Nat.add_0_r, bool_decide_eq_true_2 by lia. by rewrite take_drop. }
  destruct (Hr _ _ _ Hread) as [_ Hn]. set (buf' := take total buf ++ bytes ++ drop (total + length bytes) buf).
  assert (length (take total buf) = total) as Hlt' by (rewrite length_take; lia).
  assert (length buf' = len) as Hl' by (unfold buf'; rewrite !length_app, length_drop; lia).
  destruct (IH (S i) (total + length bytes)%nat buf' len Hr Hl' ltac:(lia) ltac:(lia)) as [Hle Heq].
  replace (len - (total + length bytes))%nat with (S need - length bytes)%nat in Hle, Heq by lia.
  assert (take (total + length bytes) buf' = take total buf ++ bytes) as Htake.
  { unfold buf'. rewrite app_assoc, take_app_length'; [done|]. rewrite length_app. lia. }
  assert (forall m, drop (total + length bytes + m) buf' = drop (total + (length bytes + m)) buf) as Hdrop.
  { intros m. unfold buf'. rewrite app_assoc, drop_app_ge by (rewrite length_app; lia).
    rewrite length_app, Hlt', drop_drop. f_equal. lia. }
  rewrite length_app. split; [lia|]. rewrite Heq, Htake, Hdrop. rewrite Nat.add_assoc. by rewrite <- !app_assoc.
Qed.

(** ** The properties *)

(** C34: [fe_mul] of elements with limbs below 2^53 (sums and differences of
    products) overflows no 64- or 128-bit word, returns limbs below 2^51 + 2^13
    and computes the product modulo p. *)
Theorem fe_mul_correct a b :
  loose a -> loose b ->
  tight (fe_mul a b) /\ fe_val (fe_mul a b) mod p25519 = (fe_val a * fe_val b) mod p25519.
Proof. apply fe_mul_spec. Qed.

(** [fe_tobytes] writes the canonical encoding: the 32 little-endian bytes of
    the value fully reduced modulo p; loading it gives the same field element. *)
Theorem fe_tobytes_canonical h :
  tight h ->
  fe_tobytes h = le_split 32 (fe_val h mod p25519)
  /\ fe_val (fe_frombytes (fe_tobytes h)) = fe_val h mod p25519.
Proof.
  intros Ht. pose proof (fe_tobytes_spec h Ht) as Hb. split; [done|]. rewrite Hb.
  destruct (fe_frombytes_spec (le_split 32 (fe_val h mod p25519))) as [_ Hv];
    [apply le_split_bytes|apply le_split_length|].
  pose proof (Z.mod_pos_bound (fe_val h) p25519 ltac:(done)) as Hm.
  revert Hm Hv. generalize (fe_val h mod p25519). intros v Hm Hv.
  assert (p25519 < 2 ^ 255) by done.
  rewrite Hv, le_combine_split, Z.mod_small; [done|lia|].
  change (256 ^ Z.of_nat 32) with (2 ^ 256). lia.
Qed.

(** The addition chain of [fe_invert] computes the power p - 2. *)
Theorem fe_invert_correct z :
  tight z ->
  tight (fe_invert z)
  /\ fe_val (fe_invert z) mod p25519 = (fe_val z ^ (p25519 - 2)) mod p25519.
Proof. intros Hz. apply rep_invert. by split. Qed.

(** C11: [x25519_scalarmult] refines the function X25519 of RFC 7748: the
    specification's ladder of doublings and differential additions modulo p, on
    the clamped scalar and the low 255 bits of the point, encoded little-endian. *)
Theorem x25519_scalarmult_correct scalar point :
  are_bytes scalar -> length scalar = 32%nat -> are_bytes point -> length point = 32%nat ->
  x25519_scalarmult scalar point
  = le_split 32 (X25519_spec (le_combine scalar) (le_combine point mod 2 ^ 255)).
Proof. apply scalarmult_refines. Qed.

(** C33: [x25519_key_agreement] always writes the shared secret of the
    specification, and returns -1 exactly when it is zero (a low-order point). *)
Theorem x25519_key_agreement_correct private_key peer :
  are_bytes private_key -> length private_key = 32%nat ->
  are_bytes peer -> length peer = 32%nat ->
  let v := X25519_spec (le_combine private_key) (le_combine peer mod 2 ^ 255) in
  x25519_key_agreement private_key peer = (if v =? 0 then -1 else 0, le_split 32 v).
Proof.
  intros Hs Hsl Hp Hpl v. unfold x25519_key_agreement. rewrite scalarmult_refines by done.
  fold v. pose proof (X25519_spec_bound (le_combine private_key) (le_combine peer mod 2 ^ 255)).
  fold v in H. rewrite zero_check by lia. done.
Qed.

(** Whatever [/dev/urandom] delivers, the key pair is consistent: the private
    key is 32 bytes, clamped, and the public key is X25519 of it and the base
    point 9. *)
Theorem x25519_generate_keypair_correct ur buf :
  lawful_reads ur -> are_bytes buf -> length buf = 32%nat ->
  let '(public, private) := x25519_generate_keypair ur buf in
  are_bytes private /\ length private = 32%nat
  /\ 2 ^ 254 <= le_combine private < 2 ^ 255 /\ le_combine private mod 8 = 0
  /\ public = le_split 32 (X25519_spec (le_combine private) 9).
Proof.
  intros Hr Hb Hl. unfold x25519_generate_keypair.
  pose proof (secure_random_buffer ur buf 32 Hr Hb Hl) as Hbuf.
  destruct (secure_random ur buf 32) as [rc buf']. destruct Hbuf as [Hb' Hl'].
  destruct (clamp_spec buf' Hb' Hl') as (Hcb & Hcl & Hc).
  assert (are_bytes x25519_basepoint) as Hbp
    by (apply (bool_decide_eq_true_1 (Forall _ _)); vm_compute; reflexivity).
  rewrite scalarmult_refines by done.
  change (le_combine x25519_basepoint mod 2 ^ 255) with 9. rewrite Hc.
  split_and!; try done; unfold clamped; div_lia.
Qed.

(** C37: what a failure of [/dev/urandom] does: the private key is made of the bytes that
    arrived before it, none if the device did not open, and of what the caller's buffer
    held behind them; it is clamped and its public key computed all the same, although
    [secure_random] answered -1, as it does exactly when fewer than 32 bytes arrived. *)
Theorem x25519_generate_keypair_ignores_failure ur buf :
  lawful_reads ur -> are_bytes buf -> length buf = 32%nat ->
  let bytes := if ur_open ur then arrived ur 32 0 32 else [] in
  let key := clamp (bytes ++ drop (length bytes) buf) in
  x25519_generate_keypair ur buf = (le_split 32 (X25519_spec (le_combine key) 9), key) /\
  ((secure_random ur buf 32).1 = -1 <-> (length bytes < 32)%nat).
Proof.
  intros Hr Hb Hl bytes key.
  assert (secure_random ur buf 32 = (if bool_decide (length bytes < 32)%nat then -1 else 0, bytes ++ drop (length bytes) buf)) as Hs.
  { unfold secure_random, bytes. destruct (ur_open ur); [|done].
    by destruct (secure_random_loop_arrived ur 32 0 0 buf 32 Hr Hl ltac:(lia) ltac:(lia)) as [_ ->]. }
  pose proof (secure_random_buffer ur buf 32 Hr Hb Hl) as Hbuf. unfold x25519_generate_keypair. rewrite Hs in Hbuf |- *.
  destruct Hbuf as [Hb' Hl']. destruct (clamp_spec _ Hb' Hl') as (Hcb & Hcl & _). fold key in Hcb, Hcl |- *.
  split; [|by case_bool_decide].
  assert (are_bytes x25519_basepoint) as Hbp
    by (apply (bool_decide_eq_true_1 (Forall _ _)); vm_compute; reflexivity).
  by rewrite scalarmult_refines.
Qed.

(** [secure_random] returns 0 exactly when the reads deliver all the bytes,
    which then fill the buffer in order; a failed read returns -1. *)
Theorem secure_random_correct ur buf :
  lawful_reads ur ->
  match (if ur_open ur then delivered ur (length buf) 0 (length buf) else None) with
  | Some bytes => secure_random ur buf (length buf) = (0, bytes)
  | None => (secure_random ur buf (length buf)).1 = -1
  end.
Proof.
  intros Hr. unfold secure_random. destruct (ur_open ur); [|done].
  pose proof (secure_random_loop_fills ur (length buf) 0 0 buf (length buf) Hr eq_refl
    ltac:(lia) ltac:(lia)) as H.
  rewrite Nat.sub_0_r in H. exact H.
Qed.

(** ** Witnesses *)

Module Vectors.
(** The first test vector of RFC 7748, section 5.2. *)
Definition scalar : list Z := le_split 32 0xc49a44ba44226a50185afcc10a4c1462dd5e46824b15163b9d7c52f06be346a5.
Definition point : list Z := le_split 32 0x4c1cabd0a603a9103b35b326ec2466727c5fb124a4c19435db3030586768dbe6.

Lemma scalar_bytes : are_bytes scalar.
Proof. apply le_split_bytes. Defined.

Lemma point_bytes : are_bytes point.
Proof. apply le_split_bytes. Defined.

Definition limbs : fe := mk_fe 1125899906842623 2 3 4 2251799813685247.

Lemma limbs_tight : tight limbs.
Proof. unfold tight, limbs_below. simpl. lia. Defined.

Lemma limbs_loose : loose limbs.
Proof. unfold loose, limbs_below. simpl. lia. Defined.

(** A device that delivers one byte per read. *)
Definition slow : urandom := mk_urandom true (fun i n =>
  match n with O => None | S _ => Some [Z.of_nat i mod 256] end).

Lemma slow_lawful : lawful_reads slow.
Proof.
  intros i n bytes. simpl. destruct n; [done|]. intros [= <-]. split; [|simpl; lia].
  repeat constructor; apply Z.mod_pos_bound; lia.
Defined.

(** The same until its third read. *)
Definition failing : urandom := mk_urandom true (fun i n => if bool_decide (i < 2)%nat then ur_read slow i n else None).

Lemma failing_lawful : lawful_reads failing.
Proof. intros i n bytes. simpl. case_bool_decide; [apply slow_lawful|done]. Defined.

Definition zeros : list Z := replicate 32 0.

Lemma zeros_bytes : are_bytes zeros.
Proof. repeat constructor; lia. Defined.
End Vectors.

Lemma fe_mul_correct_witness :
  tight (fe_mul Vectors.limbs Vectors.limbs)
  /\ fe_val (fe_mul Vectors.limbs Vectors.limbs) mod p25519
     = (fe_val Vectors.limbs * fe_val Vectors.limbs) mod p25519.
Proof. exact (fe_mul_correct _ _ Vectors.limbs_loose Vectors.limbs_loose). Defined.

Lemma fe_tobytes_canonical_witness :
  fe_tobytes Vectors.limbs = le_split 32 (fe_val Vectors.limbs mod p25519)
  /\ fe_val (fe_frombytes (fe_tobytes Vectors.limbs)) = fe_val Vectors.limbs mod p25519.
Proof. exact (fe_tobytes_canonical _ Vectors.limbs_tight). Defined.

Lemma fe_invert_correct_witness :
  tight (fe_invert Vectors.limbs)
  /\ fe_val (fe_invert Vectors.limbs) mod p25519
     = (fe_val Vectors.limbs ^ (p25519 - 2)) mod p25519.
Proof. exact (fe_invert_correct _ Vectors.limbs_tight). Defined.

Lemma x25519_scalarmult_correct_witness :
  x25519_scalarmult Vectors.scalar Vectors.point
  = le_split 32 (X25519_spec (le_combine Vectors.scalar) (le_combine Vectors.point mod 2 ^ 255)).
Proof.
  exact (x25519_scalarmult_correct _ _ Vectors.scalar_bytes eq_refl Vectors.point_bytes eq_refl).
Defined.

Lemma x25519_key_agreement_correct_witness :
  x25519_key_agreement Vectors.scalar Vectors.point
  = (if X25519_spec (le_combine Vectors.scalar) (le_combine Vectors.point mod 2 ^ 255) =? 0
     then -1 else 0,
     le_split 32 (X25519_spec (le_combine Vectors.scalar) (le_combine Vectors.point mod 2 ^ 255))).
Proof.
  exact (x25519_key_agreement_correct _ _ Vectors.scalar_bytes eq_refl Vectors.point_bytes eq_refl).
Defined.

Lemma x25519_generate_keypair_correct_witness :
  let '(public, private) := x25519_generate_keypair Vectors.slow Vectors.zeros in
  are_bytes private /\ length private = 32%nat
  /\ 2 ^ 254 <= le_combine private < 2 ^ 255 /\ le_combine private mod 8 = 0
  /\ public = le_split 32 (X25519_spec (le_combine private) 9).
Proof.
  exact (x25519_generate_keypair_correct _ _ Vectors.slow_lawful Vectors.zeros_bytes eq_refl).
Defined.

(** Two bytes arrive, then the device fails. *)
Lemma x25519_generate_keypair_ignores_failure_witness :
  let key := clamp ([0; 1] ++ replicate 30 0) in
  x25519_generate_keypair Vectors.failing Vectors.zeros = (le_split 32 (X25519_spec (le_combine key) 9), key) /\
  ((secure_random Vectors.failing Vectors.zeros 32).1 = -1 <-> (2 < 32)%nat).
Proof.
  exact (x25519_generate_keypair_ignores_failure Vectors.failing Vectors.zeros Vectors.failing_lawful
    Vectors.zeros_bytes eq_refl).
Defined.

Lemma secure_random_correct_witness :
  secure_random Vectors.slow [7; 7; 7] 3 = (0, [0; 1; 2]).
Proof. exact (secure_random_correct Vectors.slow [7; 7; 7] Vectors.slow_lawful). Defined.
