(* ===== verification/Tls13.v ===== *)
(** * TLS 1.3 key derivation ([CTLSKeyDerivation.c])

    HKDF and the key schedule over the platform's HMAC and hash, with the
    [info] buffer and the caller's output buffers as memory blocks, and their
    specification in the words of RFC 5869 and RFC 8446. *)
From Stdlib Require Import ZArith Lia.
From stdpp Require Import base list option numbers strings.
From S2P Require Import Prelude.

Inductive CCHmacAlgorithm := kCCHmacAlgSHA256 | kCCHmacAlgSHA384.

Definition digest_length (alg : CCHmacAlgorithm) : Z :=
  match alg with kCCHmacAlgSHA256 => 32 | kCCHmacAlgSHA384 => 48 end.

(** The platform's CommonCrypto: one-shot HMAC and hash, and the incremental
    HMAC, which is documented to be the one-shot HMAC of the concatenation. *)
Class CommonCrypto := {
  CCHmac : CCHmacAlgorithm -> list Z -> list Z -> list Z;
  CC_SHA : CCHmacAlgorithm -> list Z -> list Z;
  CCHmacContext : Type;
  CCHmacInit : CCHmacAlgorithm -> list Z -> CCHmacContext;
  CCHmacUpdate : CCHmacContext -> list Z -> CCHmacContext;
  CCHmacFinal : CCHmacContext -> list Z;
}.

Class CommonCryptoLaws `{CommonCrypto} := {
  hmac_length : forall alg key msg, zlen (CCHmac alg key msg) = digest_length alg;
  sha_length : forall alg msg, zlen (CC_SHA alg msg) = digest_length alg;
  hmac_incremental : forall alg key parts,
    CCHmacFinal (foldl CCHmacUpdate (CCHmacInit alg key) parts) = CCHmac alg key (concat parts);
}.

Definition TLS_AES_128_GCM_SHA256 : Z := 0x1301.
Definition TLS_AES_256_GCM_SHA384 : Z := 0x1302.
Definition TLS_CHACHA20_POLY1305_SHA256 : Z := 0x1303.

Section code.
Context `{CommonCrypto}.

(** [(alg, hash_len, key_len)] *)
Definition get_suite_params (cs : Z) : CCHmacAlgorithm * Z * Z :=
  if cs =? TLS_AES_256_GCM_SHA384 then (kCCHmacAlgSHA384, 48, 32)
  else (kCCHmacAlgSHA256, 32, if cs =? TLS_CHACHA20_POLY1305_SHA256 then 32 else 16).

(** The length goes through the 32-bit [CC_LONG]. *)
Definition sha_hash (cs : Z) (data : list Z) : list Z :=
  let data := take (Z.to_nat (u32 (zlen data))) data in
  if cs =? TLS_AES_256_GCM_SHA384 then CC_SHA kCCHmacAlgSHA384 data
  else CC_SHA kCCHmacAlgSHA256 data.

(** [prk] is the output buffer. *)
Definition hkdf_extract (alg : CCHmacAlgorithm) (hash_len : Z) (salt ikm : list Z)
    (prk : block) : outcome block :=
  if zlen salt =? 0
  then store_bytes prk 0 (CCHmac alg (replicate (Z.to_nat hash_len) 0) ikm)
  else store_bytes prk 0 (CCHmac alg salt ikm).

(** The loop body's four HMAC calls. *)
Definition hkdf_block (alg : CCHmacAlgorithm) (prk t info : list Z) (counter : Z) : list Z :=
  let ctx := CCHmacInit alg prk in
  let ctx := if 0 <? zlen t then CCHmacUpdate ctx t else ctx in
  let ctx := CCHmacUpdate ctx info in
  let ctx := CCHmacUpdate ctx [counter] in
  CCHmacFinal ctx.

(** [t] holds the first [t_len] bytes of the array [t]. Each round copies at
    least one byte, so [length] rounds are enough. *)
Fixpoint hkdf_expand_loop (fuel : nat) (alg : CCHmacAlgorithm) (hash_len : Z)
    (prk info t : list Z) (offset counter : Z) (out : block) (length : Z) : outcome block :=
  if offset <? length then
    match fuel with
    | O => Undef
    | S fuel =>
        let t := hkdf_block alg prk t info counter in
        let to_copy := if length <? offset + hash_len then length - offset else hash_len in
        out ← store_bytes out offset (take (Z.to_nat to_copy) t);
        hkdf_expand_loop fuel alg hash_len prk info t (offset + to_copy) (u8 (counter + 1))
          out length
    end
  else Done out.

Definition hkdf_expand (alg : CCHmacAlgorithm) (hash_len : Z) (prk info : list Z)
    (out : block) (length : Z) : outcome block :=
  hkdf_expand_loop (Z.to_nat length) alg hash_len prk info [] 0 1 out length.

(** The stores into [info[256]] one after the other; [info_len] advances. *)
Definition put (info : block) (info_len : Z) (bytes : list Z) : outcome (block * Z) :=
  info ← store_bytes info info_len bytes; Done (info, info_len + zlen bytes).

Definition hkdf_expand_label (alg : CCHmacAlgorithm) (hash_len : Z) (secret : list Z)
    (label : string) (context : list Z) (out : block) (length : Z) : outcome block :=
  let label := bytes_of_string label in
  let full_label_len := 6 + zlen label in
  '(info, info_len) ← put (fresh_block 256) 0 [u8 (Z.shiftr length 8)];
  '(info, info_len) ← put info info_len [u8 (Z.land length 255)];
  '(info, info_len) ← put info info_len [u8 full_label_len];
  '(info, info_len) ← put info info_len (bytes_of_string "tls13 ");
  '(info, info_len) ← put info info_len label;
  '(info, info_len) ← put info info_len [u8 (zlen context)];
  '(info, info_len) ← (if 0 <? zlen context then put info info_len context
                       else Done (info, info_len));
  info ← load_bytes info 0 info_len;
  hkdf_expand alg hash_len secret info out length.

Definition derive_secret (cs : Z) (alg : CCHmacAlgorithm) (hash_len : Z) (secret : list Z)
    (label : string) (messages : list Z) (out : block) : outcome block :=
  hkdf_expand_label alg hash_len secret label (sha_hash cs messages) out hash_len.

(** The caller's output buffers. *)
Record handshake_out := mk_handshake_out {
  ho_hs_secret : block;
  ho_client_key : block;
  ho_client_iv : block;
  ho_server_key : block;
  ho_server_iv : block;
  ho_client_traffic_secret : block;
  ho_server_traffic_secret : block;
}.

Definition tls13_derive_handshake_keys (cipher_suite : Z) (shared_secret transcript : list Z)
    (o : handshake_out) : outcome (Z * handshake_out) :=
  let '(alg, hash_len, key_len) := get_suite_params cipher_suite in
  let zero_ikm := replicate (Z.to_nat hash_len) 0 in
  early ← hkdf_extract alg hash_len [] zero_ikm (fresh_block 48);
  early_secret ← load_bytes early 0 hash_len;
  derived ← derive_secret cipher_suite alg hash_len early_secret "derived" [] (fresh_block 48);
  derived_early ← load_bytes derived 0 hash_len;
  hs ← hkdf_extract alg hash_len derived_early shared_secret (ho_hs_secret o);
  hs_secret ← load_bytes hs 0 hash_len;
  cts ← derive_secret cipher_suite alg hash_len hs_secret "c hs traffic" transcript
          (ho_client_traffic_secret o);
  client ← load_bytes cts 0 hash_len;
  ck ← hkdf_expand_label alg hash_len client "key" [] (ho_client_key o) key_len;
  ci ← hkdf_expand_label alg hash_len client "iv" [] (ho_client_iv o) 12;
  sts ← derive_secret cipher_suite alg hash_len hs_secret "s hs traffic" transcript
          (ho_server_traffic_secret o);
  server ← load_bytes sts 0 hash_len;
  sk ← hkdf_expand_label alg hash_len server "key" [] (ho_server_key o) key_len;
  si ← hkdf_expand_label alg hash_len server "iv" [] (ho_server_iv o) 12;
  Done (0, mk_handshake_out hs ck ci sk si cts sts).

Record application_out := mk_application_out {
  ao_client_key : block;
  ao_client_iv : block;
  ao_server_key : block;
  ao_server_iv : block;
}.

Definition tls13_derive_application_keys (cipher_suite : Z) (hs_secret transcript : list Z)
    (o : application_out) : outcome (Z * application_out) :=
  let '(alg, hash_len, key_len) := get_suite_params cipher_suite in
  let zero_ikm := replicate (Z.to_nat hash_len) 0 in
  derived ← derive_secret cipher_suite alg hash_len hs_secret "derived" [] (fresh_block 48);
  derived_hs ← load_bytes derived 0 hash_len;
  master ← hkdf_extract alg hash_len derived_hs zero_ikm (fresh_block 48);
  master_secret ← load_bytes master 0 hash_len;
  cats ← derive_secret cipher_suite alg hash_len master_secret "c ap traffic" transcript
           (fresh_block 48);
  client_ats ← load_bytes cats 0 hash_len;
  ck ← hkdf_expand_label alg hash_len client_ats "key" [] (ao_client_key o) key_len;
  ci ← hkdf_expand_label alg hash_len client_ats "iv" [] (ao_client_iv o) 12;
  sats ← derive_secret cipher_suite alg hash_len master_secret "s ap traffic" transcript
           (fresh_block 48);
  server_ats ← load_bytes sats 0 hash_len;
  sk ← hkdf_expand_label alg hash_len server_ats "key" [] (ao_server_key o) key_len;
  si ← hkdf_expand_label alg hash_len server_ats "iv" [] (ao_server_iv o) 12;
  Done (0, mk_application_out ck ci sk si).

Definition tls13_compute_finished (cipher_suite : Z) (client_traffic_secret transcript : list Z)
    (out_verify_data : block) : outcome (Z * block) :=
  let '(alg, hash_len, _) := get_suite_params cipher_suite in
  fk ← hkdf_expand_label alg hash_len client_traffic_secret "finished" [] (fresh_block 48) hash_len;
  finished_key ← load_bytes fk 0 hash_len;
  let th := sha_hash cipher_suite transcript in
  out ← store_bytes out_verify_data 0 (CCHmac alg finished_key th);
  Done (0, out).

Definition tls13_transcript_hash (cipher_suite : Z) (messages : list Z) (out_hash : block)
    : outcome (Z * block) :=
  out ← store_bytes out_hash 0 (sha_hash cipher_suite messages); Done (0, out).

(** ** The specification: RFC 5869 and RFC 8446, section 7.1 *)

(** [T(i)] *)
Fixpoint hkdf_T (alg : CCHmacAlgorithm) (prk info : list Z) (i : nat) : list Z :=
  match i with
  | O => []
  | S j => CCHmac alg prk (hkdf_T alg prk info j ++ info ++ [Z.of_nat i])
  end.

(** [T(1) | ... | T(n)] *)
Definition hkdf_okm (alg : CCHmacAlgorithm) (prk info : list Z) (n : nat) : list Z :=
  flat_map (hkdf_T alg prk info) (seq 1 n).

Definition HKDF_Extract (alg : CCHmacAlgorithm) (salt ikm : list Z) : list Z :=
  CCHmac alg (if zlen salt =? 0 then replicate (Z.to_nat (digest_length alg)) 0 else salt) ikm.

(** The first [len] octets of [T(1) | ... | T(255)]. *)
Definition HKDF_Expand (alg : CCHmacAlgorithm) (prk info : list Z) (len : Z) : list Z :=
  take (Z.to_nat len) (hkdf_okm alg prk info 255).

(** [struct { uint16 length; opaque label<7..255>; opaque context<0..255>; }] *)
Definition HkdfLabel (len : Z) (label : string) (context : list Z) : list Z :=
  let label := bytes_of_string "tls13 " ++ bytes_of_string label in
  [len / 256; len mod 256] ++ [zlen label] ++ label ++ [zlen context] ++ context.

Definition HKDF_Expand_Label (alg : CCHmacAlgorithm) (secret : list Z) (label : string)
    (context : list Z) (len : Z) : list Z :=
  HKDF_Expand alg secret (HkdfLabel len label context) len.

Definition Derive_Secret (alg : CCHmacAlgorithm) (secret : list Z) (label : string)
    (messages : list Z) : list Z :=
  HKDF_Expand_Label alg secret label (CC_SHA alg messages) (digest_length alg).

(** The key schedule. *)
Definition suite_hash (cs : Z) : CCHmacAlgorithm :=
  if cs =? TLS_AES_256_GCM_SHA384 then kCCHmacAlgSHA384 else kCCHmacAlgSHA256.

Definition suite_key_length (cs : Z) : Z :=
  if cs =? TLS_AES_256_GCM_SHA384 then 32
  else if cs =? TLS_CHACHA20_POLY1305_SHA256 then 32 else 16.

Definition zeros (alg : CCHmacAlgorithm) : list Z := replicate (Z.to_nat (digest_length alg)) 0.

Definition handshake_secret (alg : CCHmacAlgorithm) (ecdhe : list Z) : list Z :=
  HKDF_Extract alg (Derive_Secret alg (HKDF_Extract alg [] (zeros alg)) "derived" []) ecdhe.

Definition master_secret (alg : CCHmacAlgorithm) (hs : list Z) : list Z :=
  HKDF_Extract alg (Derive_Secret alg hs "derived" []) (zeros alg).

Definition write_key (alg : CCHmacAlgorithm) (traffic : list Z) (key_len : Z) : list Z :=
  HKDF_Expand_Label alg traffic "key" [] key_len.

Definition write_iv (alg : CCHmacAlgorithm) (traffic : list Z) : list Z :=
  HKDF_Expand_Label alg traffic "iv" [] 12.
End code.
