(* ===== verification/Tls13Proofs.v ===== *)
(** * Correctness of the TLS 1.3 key derivation

    The loop of [hkdf_expand] produces RFC 5869's output blocks, the [info]
    buffer holds RFC 8446's [HkdfLabel] without overflow, and the public
    functions write the key schedule. *)
From Stdlib Require Import ZArith Lia.
From stdpp Require Import base list option numbers strings.
From S2P Require Import Prelude Tls13.

Section proofs.
Context `{CommonCryptoLaws}.

(** ** HKDF-Expand *)

Lemma hkdf_block_spec alg prk t info counter :
  hkdf_block alg prk t info counter = CCHmac alg prk (t ++ info ++ [counter]).
Proof.
  unfold hkdf_block. zcase.
  - exact (hmac_incremental alg prk [t; info; [counter]]).
  - destruct t as [|x t]; [|rewrite zlen_cons in *; pose proof (zlen_nonneg t); lia].
    exact (hmac_incremental alg prk [info; [counter]]).
Qed.

Lemma hkdf_T_length alg prk info i : zlen (hkdf_T alg prk info (S i)) = digest_length alg.
Proof. apply hmac_length. Qed.

Lemma digest_length_pos alg : 32 <= digest_length alg <= 48.
Proof. destruct alg; simpl; lia. Qed.

Lemma hkdf_blocks_length alg prk info a n :
  zlen (flat_map (hkdf_T alg prk info) (seq (S a) n)) = Z.of_nat n * digest_length alg.
Proof.
  revert a. induction n as [|n IH]; intros a; [done|].
  cbn [seq flat_map]. rewrite zlen_app, hkdf_T_length, IH. lia.
Qed.

(** The [i+1]-st block is where it belongs in the output keying material. *)
Lemma okm_block alg prk info i c :
  (i < 255)%nat -> 0 <= c <= digest_length alg ->
  take (Z.to_nat (Z.of_nat i * digest_length alg)) (hkdf_okm alg prk info 255)
    ++ take (Z.to_nat c) (hkdf_T alg prk info (S i))
  = take (Z.to_nat (Z.of_nat i * digest_length alg + c)) (hkdf_okm alg prk info 255).
Proof.
  intros Hi Hc. unfold hkdf_okm.
  replace 255%nat with (i + (1 + (254 - i)))%nat by lia.
  rewrite seq_app, flat_map_app. cbn [seq flat_map plus].
  pose proof (hkdf_blocks_length alg prk info 0 i) as Hl. unfold zlen in Hl.
  pose proof (hkdf_T_length alg prk info i) as Ht. unfold zlen in Ht.
  set (pre := flat_map _ (seq 1 i)) in *. set (T := hkdf_T alg prk info (S i)) in *.
  set (post := flat_map _ _). clearbody pre T post.
  rewrite (Z2Nat.inj_add _ c) by lia. rewrite <-Hl, Nat2Z.id.
  rewrite take_app_length, take_app_add. by rewrite take_app_le by lia.
Qed.

Lemma hkdf_expand_loop_spec alg prk info length fuel i out offset :
  length <= 255 * digest_length alg -> (i <= 255)%nat -> 
  offset = Z.min (Z.of_nat i * digest_length alg) length -> 0 <= length ->
  length - offset <= Z.of_nat fuel ->
  starts_with out (take (Z.to_nat offset) (hkdf_okm alg prk info 255)) ->
  length <= zlen out ->
  exists out', hkdf_expand_loop fuel alg (digest_length alg) prk info (hkdf_T alg prk info i)
      offset (u8 (Z.of_nat i + 1)) out length = Done out'
    /\ starts_with out' (take (Z.to_nat length) (hkdf_okm alg prk info 255))
    /\ zlen out' = zlen out.
Proof.
  intros Hmax. pose proof (digest_length_pos alg) as Hd. revert i out offset.
  assert (forall out offset, length <= offset -> offset <= length ->
    starts_with out (take (Z.to_nat offset) (hkdf_okm alg prk info 255)) ->
    starts_with out (take (Z.to_nat length) (hkdf_okm alg prk info 255))) as Hdone.
  { intros out offset ? ?. by replace offset with length by lia. }
  induction fuel as [|fuel IH]; intros i out offset Hi Ho Hl Hf Hs Hroom; cbn [hkdf_expand_loop];
    destruct (Z.ltb_spec offset length) as [Hlt|Hge]; try lia;
    try (exists out; split; [done|]; split; [by eapply Hdone; [| |exact Hs]; lia|done]).
  assert (i < 255)%nat as Hi' by nia.
  assert (0 <= Z.of_nat i * digest_length alg) as Hpos by nia.
  rewrite hkdf_block_spec. set (c := if _ <? _ then _ else _).
  assert (c = Z.min (digest_length alg) (length - offset)) as Hc by (unfold c; zcase).
  clearbody c. replace (u8 (Z.of_nat i + 1)) with (Z.of_nat (S i))
    by (rewrite wrap_small by (unfold fits; lia); lia).
  change (CCHmac alg prk _) with (hkdf_T alg prk info (S i)).
  pose proof (hkdf_blocks_length alg prk info 0 255) as Hokm.
  destruct (store_bytes_append out _ (take (Z.to_nat c) (hkdf_T alg prk info (S i))) offset Hs)
    as (out1 & -> & Hs1 & Hl1).
  - unfold hkdf_okm. rewrite zlen_take; [lia|]. unfold zlen in Hokm. lia.
  - pose proof (hkdf_T_length alg prk info i) as Ht.
    unfold hkdf_okm. rewrite zlen_take by (unfold zlen in Hokm; lia).
    rewrite zlen_take by (unfold zlen in Ht; lia). lia.
  - rewrite outcome_bind_done. rewrite Ho in Hs1 at 1.
    rewrite Z.min_l in Hs1 by lia. rewrite okm_block in Hs1 by lia.
    destruct (IH (S i) out1 (offset + c)) as (out' & -> & Hs' & Hl'); try lia.
    + by replace (offset + c) with (Z.of_nat i * digest_length alg + c) by lia.
    + exists out'. split; [done|]. split; [done|lia].
Qed.

Lemma hkdf_expand_spec alg prk info out length :
  0 <= length <= 255 * digest_length alg -> length <= zlen out ->
  exists out', hkdf_expand alg (digest_length alg) prk info out length = Done out'
    /\ starts_with out' (HKDF_Expand alg prk info length) /\ zlen out' = zlen out.
Proof.
  intros Hl Hroom. unfold hkdf_expand, HKDF_Expand.
  apply (hkdf_expand_loop_spec alg prk info length (Z.to_nat length) 0 out 0); try lia.
  apply starts_with_nil.
Qed.

(** ** The label *)

(** [info] holds [bs] and has room for the rest of 256 bytes. *)
Definition info_holds (info : block) (bs : list Z) : Prop :=
  starts_with info bs /\ zlen info = 256.

Lemma put_spec info n bs x :
  info_holds info bs -> n = zlen bs -> zlen bs + zlen x <= 256 ->
  exists info', put info n x = Done (info', zlen (bs ++ x)) /\ info_holds info' (bs ++ x).
Proof.
  intros [Hs Hl] -> Hroom. unfold put.
  destruct (store_bytes_append info bs x (zlen bs) Hs eq_refl ltac:(lia)) as (info' & -> & Hs' & Hl').
  exists info'. rewrite outcome_bind_done, zlen_app. split; [done|]. split; [done|lia].
Qed.

Lemma put_nonempty_spec info n bs x :
  info_holds info bs -> n = zlen bs -> zlen bs + zlen x <= 256 ->
  exists info', (if 0 <? zlen x then put info n x else Done (info, n)) = Done (info', zlen (bs ++ x))
    /\ info_holds info' (bs ++ x).
Proof.
  intros Hi Hn Hroom. destruct (Z.ltb_spec 0 (zlen x)); [by apply put_spec|].
  destruct x as [|b x]; [|rewrite zlen_cons in *; pose proof (zlen_nonneg x); lia].
  exists info. rewrite app_nil_r, Hn. done.
Qed.

(** One store of the sequence. *)
Ltac put_step :=
  match goal with
  | Hinfo : info_holds ?info ?bs |- context [put ?info ?n ?x] =>
      let info' := fresh "info" in let E := fresh "E" in let H' := fresh "Hinfo" in
      destruct (put_spec info n bs x Hinfo ltac:(reflexivity) ltac:(zlen_solve))
        as (info' & E & H');
      rewrite E; clear E Hinfo; cbn [mbind outcome_bind obind]
  end.

Lemma u8_small x : 0 <= x < 256 -> u8 x = x.
Proof. intros. by apply wrap_small. Qed.

(** With a label and a context that fit, the [info] buffer does not overflow and
    holds the [HkdfLabel]. *)
Lemma hkdf_expand_label_spec alg secret label context out length :
  zlen (bytes_of_string label) + zlen context <= 246 ->
  0 <= length <= 255 * digest_length alg -> length <= zlen out ->
  exists out', hkdf_expand_label alg (digest_length alg) secret label context out length = Done out'
    /\ starts_with out' (HKDF_Expand_Label alg secret label context length)
    /\ zlen out' = zlen out.
Proof.
  intros Hfit Hl Hroom. unfold hkdf_expand_label, HKDF_Expand_Label, HkdfLabel.
  set (lab := bytes_of_string label) in *. clearbody lab.
  pose proof (digest_length_pos alg). pose proof (zlen_nonneg lab). pose proof (zlen_nonneg context).
  assert (info_holds (fresh_block 256) []) as Hinfo
    by (split; [apply starts_with_nil|by rewrite zlen_fresh_block]).
  assert (zlen (bytes_of_string "tls13 ") = 6) as Hpre by reflexivity.
  do 6 put_step.
  match goal with Hi : info_holds ?info ?bs |- context [put ?info ?n context] =>
    destruct (put_nonempty_spec info n bs context Hi eq_refl ltac:(zlen_solve))
      as (info' & -> & [Hs' Hl']) end.
  cbn [mbind outcome_bind obind]. erewrite load_bytes_starts by (exact Hs' || reflexivity).
  rewrite outcome_bind_done.
  match goal with |- context [hkdf_expand _ _ _ ?i] =>
    replace i with ([length / 256; length mod 256]
      ++ [zlen (bytes_of_string "tls13 " ++ lab)] ++ (bytes_of_string "tls13 " ++ lab)
      ++ [zlen context] ++ context) end.
  - by apply hkdf_expand_spec.
  - rewrite zlen_app, Hpre, !u8_small.
    + rewrite Z.shiftr_div_pow2 by lia. change 255 with (Z.ones 8).
      rewrite Z.land_ones by lia. by rewrite <-!app_assoc.
    + lia.
    + lia.
    + change 255 with (Z.ones 8). rewrite Z.land_ones by lia. apply Z.mod_pos_bound. lia.
    + rewrite Z.shiftr_div_pow2 by lia. change (2 ^ 8) with 256. div_lia.
Qed.

(** ** The building blocks of the key schedule *)

(** [m] writes [bs] at the start of the buffer it is given, which has room. *)
Definition writes (m : block -> outcome block) (bs : list Z) : Prop :=
  forall out, zlen bs <= zlen out ->
    exists out', m out = Done out' /\ starts_with out' bs /\ zlen out' = zlen out.

Lemma HKDF_Expand_length alg prk info len :
  0 <= len <= 255 * digest_length alg -> zlen (HKDF_Expand alg prk info len) = len.
Proof.
  intros Hl. unfold HKDF_Expand, hkdf_okm.
  pose proof (hkdf_blocks_length alg prk info 0 255) as Hokm. pose proof (digest_length_pos alg).
  rewrite zlen_take; [lia|]. unfold zlen in Hokm. lia.
Qed.

Lemma expand_label_writes alg secret label context len :
  zlen (bytes_of_string label) + zlen context <= 246 -> 0 <= len <= 255 * digest_length alg ->
  writes (fun out => hkdf_expand_label alg (digest_length alg) secret label context out len)
    (HKDF_Expand_Label alg secret label context len)
  /\ zlen (HKDF_Expand_Label alg secret label context len) = len.
Proof.
  intros Hfit Hl. pose proof (HKDF_Expand_length alg secret (HkdfLabel len label context) len Hl) as He.
  split; [|exact He]. intros out Hroom. unfold HKDF_Expand_Label in Hroom. rewrite He in Hroom.
  by apply hkdf_expand_label_spec.
Qed.

Lemma extract_writes alg salt ikm :
  writes (hkdf_extract alg (digest_length alg) salt ikm) (HKDF_Extract alg salt ikm)
  /\ zlen (HKDF_Extract alg salt ikm) = digest_length alg.
Proof.
  split; [|apply hmac_length]. intros out Hroom. unfold hkdf_extract, HKDF_Extract in *.
  destruct (zlen salt =? 0).
  - by apply (store_bytes_append out [] _ 0 (starts_with_nil out)).
  - by apply (store_bytes_append out [] _ 0 (starts_with_nil out)).
Qed.

Lemma suite_params cs :
  get_suite_params cs = (suite_hash cs, digest_length (suite_hash cs), suite_key_length cs).
Proof. unfold get_suite_params, suite_hash, suite_key_length. by destruct (cs =? TLS_AES_256_GCM_SHA384). Qed.

Lemma sha_hash_spec cs data : zlen data < 2 ^ 32 -> sha_hash cs data = CC_SHA (suite_hash cs) data.
Proof.
  intros Hd. unfold sha_hash, suite_hash. pose proof (zlen_nonneg data).
  rewrite wrap_small by (unfold fits; lia). unfold zlen. rewrite Nat2Z.id, firstn_all.
  by destruct (cs =? TLS_AES_256_GCM_SHA384).
Qed.

Lemma derive_writes cs secret label messages :
  zlen (bytes_of_string label) <= 198 -> zlen messages < 2 ^ 32 ->
  writes (derive_secret cs (suite_hash cs) (digest_length (suite_hash cs)) secret label messages)
    (Derive_Secret (suite_hash cs) secret label messages)
  /\ zlen (Derive_Secret (suite_hash cs) secret label messages) = digest_length (suite_hash cs).
Proof.
  intros Hl Hm. pose proof (digest_length_pos (suite_hash cs)). unfold derive_secret, Derive_Secret.
  rewrite sha_hash_spec by done. apply expand_label_writes; rewrite ?sha_length; lia.
Qed.

Lemma writes_bind {B} m bs out (k : block -> outcome B) Q :
  writes m bs -> zlen bs <= zlen out ->
  (forall out', starts_with out' bs -> zlen out' = zlen out -> ensures (k out') Q) ->
  ensures (m out ≫= k) Q.
Proof.
  intros Hm Hroom Hk. apply ensures_bind. destruct (Hm out Hroom) as (out' & -> & Hs & Hl).
  apply ensures_done. auto.
Qed.

Lemma load_bind {B} mem bs n (k : list Z -> outcome B) Q :
  starts_with mem bs -> zlen bs = n -> ensures (k bs) Q -> ensures (load_bytes mem 0 n ≫= k) Q.
Proof.
  intros Hs Hn Hk. apply ensures_bind. rewrite (load_bytes_starts mem bs n) by done.
  by apply ensures_done.
Qed.

(** ** The properties *)

(** [hkdf_expand] writes the first [length] bytes of RFC 5869's
    T(1) | T(2) | ... at the start of the output, for every length the RFC allows. *)
Theorem hkdf_expand_correct alg prk info out length :
  0 <= length <= 255 * digest_length alg -> length <= zlen out ->
  exists out', hkdf_expand alg (digest_length alg) prk info out length = Done out'
    /\ starts_with out' (HKDF_Expand alg prk info length) /\ zlen out' = zlen out.
Proof. apply hkdf_expand_spec. Qed.

(** [hkdf_expand_label] never writes outside its 256-byte [info] buffer when
    the label and the context have at most 246 bytes together, and computes
    HKDF-Expand-Label of RFC 8446. *)
Theorem hkdf_expand_label_correct alg secret label context out length :
  zlen (bytes_of_string label) + zlen context <= 246 ->
  0 <= length <= 255 * digest_length alg -> length <= zlen out ->
  exists out', hkdf_expand_label alg (digest_length alg) secret label context out length = Done out'
    /\ starts_with out' (HKDF_Expand_Label alg secret label context length)
    /\ zlen out' = zlen out.
Proof. apply hkdf_expand_label_spec. Qed.

(** The output buffers have the sizes the header asks for. *)
Definition handshake_room (cs : Z) (o : handshake_out) : Prop :=
  let hash_len := digest_length (suite_hash cs) in
  hash_len <= zlen (ho_hs_secret o)
  /\ suite_key_length cs <= zlen (ho_client_key o) /\ 12 <= zlen (ho_client_iv o)
  /\ suite_key_length cs <= zlen (ho_server_key o) /\ 12 <= zlen (ho_server_iv o)
  /\ hash_len <= zlen (ho_client_traffic_secret o)
  /\ hash_len <= zlen (ho_server_traffic_secret o).

Lemma suite_key_length_bound cs : 16 <= suite_key_length cs <= 32.
Proof. unfold suite_key_length. repeat case_match; lia. Qed.

Ltac key_side :=
  first [ assumption | reflexivity | lia
        | rewrite zlen_fresh_block by lia; lia
        | match goal with |- zlen (bytes_of_string _) <= _ => vm_compute; discriminate end
        | match goal with |- zlen (bytes_of_string _) + _ <= _ => vm_compute; discriminate end ].

(** The next step of a derivation: a secret written to a buffer. *)
Ltac writes_step H :=
  let Hw := fresh "Hw" in let Hz := fresh "Hz" in
  pose proof H as [Hw Hz]; eapply (writes_bind _ _ _ _ _ Hw); [|intros ? ? ?];
  [rewrite ?zlen_fresh_block by lia; rewrite Hz; lia|].

Ltac load_step := eapply load_bind; [eassumption|eassumption|].

(** C21: [tls13_derive_handshake_keys] writes the handshake secret, both traffic
    secrets and the write keys and IVs of RFC 8446's key schedule. *)
Theorem tls13_derive_handshake_keys_correct cs ss transcript o :
  zlen transcript < 2 ^ 32 -> handshake_room cs o ->
  let alg := suite_hash cs in
  let hs := handshake_secret alg ss in
  let client := Derive_Secret alg hs "c hs traffic" transcript in
  let server := Derive_Secret alg hs "s hs traffic" transcript in
  exists o', tls13_derive_handshake_keys cs ss transcript o = Done (0, o')
    /\ starts_with (ho_hs_secret o') hs
    /\ starts_with (ho_client_traffic_secret o') client
    /\ starts_with (ho_server_traffic_secret o') server
    /\ starts_with (ho_client_key o') (write_key alg client (suite_key_length cs))
    /\ starts_with (ho_client_iv o') (write_iv alg client)
    /\ starts_with (ho_server_key o') (write_key alg server (suite_key_length cs))
    /\ starts_with (ho_server_iv o') (write_iv alg server).
Proof.
  intros Htr (H1 & H2 & H3 & H4 & H5 & H6 & H7) alg; subst alg; intros hs client server.
  pose proof (suite_key_length_bound cs) as Hk. pose proof (digest_length_pos (suite_hash cs)) as Hd.
  cut (ensures (tls13_derive_handshake_keys cs ss transcript o) (fun '(rc, o') => rc = 0
    /\ starts_with (ho_hs_secret o') hs
    /\ starts_with (ho_client_traffic_secret o') client
    /\ starts_with (ho_server_traffic_secret o') server
    /\ starts_with (ho_client_key o') (write_key (suite_hash cs) client (suite_key_length cs))
    /\ starts_with (ho_client_iv o') (write_iv (suite_hash cs) client)
    /\ starts_with (ho_server_key o') (write_key (suite_hash cs) server (suite_key_length cs))
    /\ starts_with (ho_server_iv o') (write_iv (suite_hash cs) server))).
  { intros ([rc o'] & -> & -> & Ho). by exists o'. }
  unfold tls13_derive_handshake_keys. rewrite suite_params.
  writes_step (extract_writes (suite_hash cs) [] (zeros (suite_hash cs))). load_step.
  writes_step (derive_writes cs (HKDF_Extract (suite_hash cs) [] (zeros (suite_hash cs))) "derived" []
    ltac:(key_side) ltac:(key_side)). load_step.
  writes_step (extract_writes (suite_hash cs) (Derive_Secret (suite_hash cs) (HKDF_Extract (suite_hash cs) [] (zeros (suite_hash cs))) "derived" [])
    ss). load_step. fold (handshake_secret (suite_hash cs) ss). fold hs.
  writes_step (derive_writes cs hs "c hs traffic" transcript ltac:(key_side) Htr). load_step.
  fold client.
  writes_step (expand_label_writes (suite_hash cs) client "key" [] (suite_key_length cs)
    ltac:(key_side) ltac:(lia)).
  writes_step (expand_label_writes (suite_hash cs) client "iv" [] 12 ltac:(key_side) ltac:(lia)).
  writes_step (derive_writes cs hs "s hs traffic" transcript ltac:(key_side) Htr). load_step.
  fold server.
  writes_step (expand_label_writes (suite_hash cs) server "key" [] (suite_key_length cs)
    ltac:(key_side) ltac:(lia)).
  writes_step (expand_label_writes (suite_hash cs) server "iv" [] 12 ltac:(key_side) ltac:(lia)).
  apply ensures_done. by split_and!.
Qed.

Definition application_room (cs : Z) (o : application_out) : Prop :=
  suite_key_length cs <= zlen (ao_client_key o) /\ 12 <= zlen (ao_client_iv o)
  /\ suite_key_length cs <= zlen (ao_server_key o) /\ 12 <= zlen (ao_server_iv o).

(** C29: [tls13_derive_application_keys] answers 0 and writes the application write keys
    and IVs of both sides as RFC 8446's key schedule derives them from the handshake
    secret and the transcript, into buffers that have room for them. *)
Theorem tls13_derive_application_keys_correct cs hs transcript o :
  zlen transcript < 2 ^ 32 -> application_room cs o ->
  let alg := suite_hash cs in
  let client := Derive_Secret alg (master_secret alg hs) "c ap traffic" transcript in
  let server := Derive_Secret alg (master_secret alg hs) "s ap traffic" transcript in
  exists o', tls13_derive_application_keys cs hs transcript o = Done (0, o')
    /\ starts_with (ao_client_key o') (write_key alg client (suite_key_length cs))
    /\ starts_with (ao_client_iv o') (write_iv alg client)
    /\ starts_with (ao_server_key o') (write_key alg server (suite_key_length cs))
    /\ starts_with (ao_server_iv o') (write_iv alg server).
Proof.
  intros Htr (H1 & H2 & H3 & H4) alg; subst alg; intros client server.
  pose proof (suite_key_length_bound cs) as Hk. pose proof (digest_length_pos (suite_hash cs)) as Hd.
  cut (ensures (tls13_derive_application_keys cs hs transcript o) (fun '(rc, o') => rc = 0
    /\ starts_with (ao_client_key o') (write_key (suite_hash cs) client (suite_key_length cs))
    /\ starts_with (ao_client_iv o') (write_iv (suite_hash cs) client)
    /\ starts_with (ao_server_key o') (write_key (suite_hash cs) server (suite_key_length cs))
    /\ starts_with (ao_server_iv o') (write_iv (suite_hash cs) server))).
  { intros ([rc o'] & -> & -> & Ho). by exists o'. }
  unfold tls13_derive_application_keys. rewrite suite_params.
  writes_step (derive_writes cs hs "derived" [] ltac:(key_side) ltac:(key_side)). load_step.
  writes_step (extract_writes (suite_hash cs) (Derive_Secret (suite_hash cs) hs "derived" [])
    (zeros (suite_hash cs))). load_step. fold (master_secret (suite_hash cs) hs).
  writes_step (derive_writes cs (master_secret (suite_hash cs) hs) "c ap traffic" transcript
    ltac:(key_side) Htr). load_step. fold client.
  writes_step (expand_label_writes (suite_hash cs) client "key" [] (suite_key_length cs)
    ltac:(key_side) ltac:(lia)).
  writes_step (expand_label_writes (suite_hash cs) client "iv" [] 12 ltac:(key_side) ltac:(lia)).
  writes_step (derive_writes cs (master_secret (suite_hash cs) hs) "s ap traffic" transcript
    ltac:(key_side) Htr). load_step. fold server.
  writes_step (expand_label_writes (suite_hash cs) server "key" [] (suite_key_length cs)
    ltac:(key_side) ltac:(lia)).
  writes_step (expand_label_writes (suite_hash cs) server "iv" [] 12 ltac:(key_side) ltac:(lia)).
  apply ensures_done. by split_and!.
Qed.

(** [tls13_compute_finished] writes RFC 8446's verify_data: the HMAC of the
    transcript hash under the finished key. *)
Theorem tls13_compute_finished_correct cs traffic transcript out :
  zlen transcript < 2 ^ 32 -> digest_length (suite_hash cs) <= zlen out ->
  exists out', tls13_compute_finished cs traffic transcript out = Done (0, out')
    /\ starts_with out' (CCHmac (suite_hash cs)
         (HKDF_Expand_Label (suite_hash cs) traffic "finished" [] (digest_length (suite_hash cs)))
         (CC_SHA (suite_hash cs) transcript)).
Proof.
  intros Htr Hroom. pose proof (digest_length_pos (suite_hash cs)) as Hd.
  cut (ensures (tls13_compute_finished cs traffic transcript out) (fun '(rc, out') => rc = 0
    /\ starts_with out' (CCHmac (suite_hash cs)
         (HKDF_Expand_Label (suite_hash cs) traffic "finished" [] (digest_length (suite_hash cs)))
         (CC_SHA (suite_hash cs) transcript)))).
  { intros ([rc o'] & -> & -> & Ho). by exists o'. }
  unfold tls13_compute_finished. rewrite suite_params.
  writes_step (expand_label_writes (suite_hash cs) traffic "finished" []
    (digest_length (suite_hash cs)) ltac:(key_side) ltac:(lia)). load_step.
  rewrite sha_hash_spec by done.
  apply ensures_bind.
  match goal with |- ensures (store_bytes out 0 ?x) _ =>
    destruct (store_bytes_append out [] x 0 (starts_with_nil out) eq_refl) as (out2 & -> & Hs & Hl);
      [rewrite hmac_length; zlen_solve|] end.
  by apply ensures_done, ensures_done.
Qed.
End proofs.

(** ** Witnesses: a stand-in for the platform's functions *)

Module Toy.
Definition mix (alg : CCHmacAlgorithm) (seed : Z) (msg : list Z) : list Z :=
  map (fun i => (foldl Z.add seed msg + Z.of_nat i) mod 256) (seq 0 (Z.to_nat (digest_length alg))).

#[export] Instance crypto : CommonCrypto := {
  CCHmac alg key msg := mix alg (foldl Z.add 0 key) msg;
  CC_SHA alg msg := mix alg 17 msg;
  CCHmacContext := CCHmacAlgorithm * list Z * list Z;
  CCHmacInit alg key := (alg, key, []);
  CCHmacUpdate ctx data := (ctx.1, ctx.2 ++ data);
  CCHmacFinal ctx := mix ctx.1.1 (foldl Z.add 0 ctx.1.2) ctx.2;
}.

Lemma mix_length alg seed msg : zlen (mix alg seed msg) = digest_length alg.
Proof. unfold mix. rewrite zlen_map. unfold zlen. rewrite length_seq. by destruct alg. Defined.

Lemma updates alg key parts acc :
  foldl CCHmacUpdate (alg, key, acc) parts = (alg, key, acc ++ concat parts).
Proof.
  revert acc. induction parts as [|p parts IH]; intros acc; simpl; [by rewrite app_nil_r|].
  unfold CCHmacUpdate in IH. simpl in IH. by rewrite IH, app_assoc.
Defined.

#[export, refine] Instance laws : CommonCryptoLaws := {}.
Proof.
  - intros. apply mix_length.
  - intros. apply mix_length.
  - intros alg key parts. cbn [CCHmacInit crypto]. rewrite updates. done.
Defined.

Definition buf (n : Z) : block := fresh_block n.
Definition hs_out : handshake_out :=
  mk_handshake_out (buf 48) (buf 32) (buf 12) (buf 32) (buf 12) (buf 48) (buf 48).
Definition ap_out : application_out := mk_application_out (buf 32) (buf 12) (buf 32) (buf 12).

Lemma hs_room : handshake_room TLS_AES_256_GCM_SHA384 hs_out.
Proof. vm_compute. split_and!; discriminate. Defined.

Lemma ap_room : application_room TLS_AES_256_GCM_SHA384 ap_out.
Proof. vm_compute. split_and!; discriminate. Defined.
End Toy.

#[local] Existing Instances Toy.crypto Toy.laws.

Lemma hkdf_expand_correct_witness :
  exists out', hkdf_expand kCCHmacAlgSHA256 32 [1; 2] [3] (Toy.buf 80) 70 = Done out'
    /\ starts_with out' (HKDF_Expand kCCHmacAlgSHA256 [1; 2] [3] 70) /\ zlen out' = 80.
Proof.
  apply (hkdf_expand_correct kCCHmacAlgSHA256 [1; 2] [3] (Toy.buf 80) 70).
  - vm_compute. split; discriminate.
  - vm_compute. discriminate.
Defined.

Lemma hkdf_expand_label_correct_witness :
  exists out', hkdf_expand_label kCCHmacAlgSHA256 32 [1; 2] "key" [9] (Toy.buf 16) 16 = Done out'
    /\ starts_with out' (HKDF_Expand_Label kCCHmacAlgSHA256 [1; 2] "key" [9] 16) /\ zlen out' = 16.
Proof.
  apply (hkdf_expand_label_correct kCCHmacAlgSHA256 [1; 2] "key" [9] (Toy.buf 16) 16).
  - vm_compute. discriminate.
  - vm_compute. split; discriminate.
  - vm_compute. discriminate.
Defined.

Lemma tls13_derive_handshake_keys_correct_witness :
  let alg := suite_hash TLS_AES_256_GCM_SHA384 in
  let hs := handshake_secret alg [5; 6] in
  let client := Derive_Secret alg hs "c hs traffic" [7] in
  let server := Derive_Secret alg hs "s hs traffic" [7] in
  exists o', tls13_derive_handshake_keys TLS_AES_256_GCM_SHA384 [5; 6] [7] Toy.hs_out = Done (0, o')
    /\ starts_with (ho_hs_secret o') hs
    /\ starts_with (ho_client_traffic_secret o') client
    /\ starts_with (ho_server_traffic_secret o') server
    /\ starts_with (ho_client_key o') (write_key alg client 32)
    /\ starts_with (ho_client_iv o') (write_iv alg client)
    /\ starts_with (ho_server_key o') (write_key alg server 32)
    /\ starts_with (ho_server_iv o') (write_iv alg server).
Proof.
  exact (tls13_derive_handshake_keys_correct TLS_AES_256_GCM_SHA384 [5; 6] [7] Toy.hs_out
    eq_refl Toy.hs_room).
Defined.

Lemma tls13_derive_application_keys_correct_witness :
  let alg := suite_hash TLS_AES_256_GCM_SHA384 in
  let client := Derive_Secret alg (master_secret alg [5; 6]) "c ap traffic" [7] in
  let server := Derive_Secret alg (master_secret alg [5; 6]) "s ap traffic" [7] in
  exists o', tls13_derive_application_keys TLS_AES_256_GCM_SHA384 [5; 6] [7] Toy.ap_out = Done (0, o')
    /\ starts_with (ao_client_key o') (write_key alg client 32)
    /\ starts_with (ao_client_iv o') (write_iv alg client)
    /\ starts_with (ao_server_key o') (write_key alg server 32)
    /\ starts_with (ao_server_iv o') (write_iv alg server).
Proof.
  exact (tls13_derive_application_keys_correct TLS_AES_256_GCM_SHA384 [5; 6] [7] Toy.ap_out
    eq_refl Toy.ap_room).
Defined.

Lemma tls13_compute_finished_correct_witness :
  exists out', tls13_compute_finished TLS_AES_128_GCM_SHA256 [5; 6] [7] (Toy.buf 32) = Done (0, out')
    /\ starts_with out' (CCHmac kCCHmacAlgSHA256
         (HKDF_Expand_Label kCCHmacAlgSHA256 [5; 6] "finished" [] 32) (CC_SHA kCCHmacAlgSHA256 [7])).
Proof.
  apply (tls13_compute_finished_correct TLS_AES_128_GCM_SHA256 [5; 6] [7] (Toy.buf 32)).
  - reflexivity.
  - vm_compute. discriminate.
Defined.
