(* ===== verification/Blake3.v ===== *)
(** * BLAKE3 ([blake3.c], [blake3_portable.c], [blake3_dispatch.c])

    The portable build: the compression function on 32-bit words, the chunk
    state, the subtree compression and the incremental hasher. A chaining value
    in memory is its 32 bytes. [Undef] also stands for a loop that exceeds its
    fuel; the theorems exclude both. *)
From Stdlib Require Import ZArith Lia.
From stdpp Require Import base list option numbers.
From S2P Require Import Prelude.

Definition BLAKE3_KEY_LEN : Z := 32.
Definition BLAKE3_OUT_LEN : Z := 32.
Definition BLAKE3_BLOCK_LEN : Z := 64.
Definition BLAKE3_CHUNK_LEN : Z := 1024.
Definition BLAKE3_MAX_DEPTH : Z := 54.

Definition CHUNK_START : Z := 1.
Definition CHUNK_END : Z := 2.
Definition PARENT : Z := 4.
Definition ROOT : Z := 8.
Definition KEYED_HASH : Z := 16.
Definition DERIVE_KEY_CONTEXT : Z := 32.
Definition DERIVE_KEY_MATERIAL : Z := 64.

Definition MAX_SIMD_DEGREE : Z := 1.
Definition MAX_SIMD_DEGREE_OR_2 : Z := 2.
Definition blake3_simd_degree : Z := 1.

Definition IV : list Z :=
  [0x6A09E667; 0xBB67AE85; 0x3C6EF372; 0xA54FF53A;
   0x510E527F; 0x9B05688C; 0x1F83D9AB; 0x5BE0CD19].

Definition MSG_SCHEDULE : list (list nat) :=
  [[0; 1; 2; 3; 4; 5; 6; 7; 8; 9; 10; 11; 12; 13; 14; 15];
   [2; 6; 3; 10; 7; 0; 4; 13; 1; 11; 12; 5; 9; 14; 15; 8];
   [3; 4; 10; 12; 13; 2; 7; 14; 6; 5; 9; 0; 11; 15; 8; 1];
   [10; 7; 12; 9; 14; 3; 13; 15; 4; 0; 11; 2; 5; 8; 1; 6];
   [12; 13; 9; 11; 15; 10; 14; 8; 7; 2; 5; 3; 0; 1; 6; 4];
   [9; 14; 11; 5; 8; 12; 15; 1; 13; 3; 0; 10; 2; 6; 4; 7];
   [11; 15; 5; 0; 1; 9; 8; 6; 14; 10; 2; 12; 3; 4; 7; 13]]%nat.

(** ** Words *)

(** [__builtin_clzll]: [63 ^ clz] is the index of the highest set bit. *)
Definition highest_one (x : Z) : Z := Z.log2 x.

(** [__builtin_popcountll] *)
Fixpoint pos_popcnt (p : positive) : Z :=
  match p with xH => 1 | xO p => pos_popcnt p | xI p => 1 + pos_popcnt p end.

Definition popcnt (x : Z) : Z := match x with Zpos p => pos_popcnt p | _ => 0 end.

Definition round_down_to_power_of_2 (x : Z) : Z := u64 (Z.shiftl 1 (highest_one (Z.lor x 1))).

Definition counter_low (counter : Z) : Z := u32 counter.
Definition counter_high (counter : Z) : Z := u32 (Z.shiftr counter 32).

Definition load32 (p : list Z) : Z :=
  let b i := nth i p 0 in
  Z.lor (Z.lor (Z.lor (b 0%nat) (u32 (Z.shiftl (b 1%nat) 8))) (u32 (Z.shiftl (b 2%nat) 16)))
    (u32 (Z.shiftl (b 3%nat) 24)).

Definition store32 (w : Z) : list Z :=
  [u8 w; u8 (Z.shiftr w 8); u8 (Z.shiftr w 16); u8 (Z.shiftr w 24)].

(** [n] words from the start of [bytes] *)
Definition load_words (n : nat) (bytes : list Z) : list Z :=
  map (fun i => load32 (drop (4 * i) bytes)) (seq 0 n).

Definition load_key_words (key : list Z) : list Z := load_words 8 key.

Definition store_cv_words (cv_words : list Z) : list Z :=
  flat_map (fun i => store32 (nth i cv_words 0)) (seq 0 8).

(** ** The compression function *)

Definition rotr32 (w c : Z) : Z := Z.lor (Z.shiftr w c) (u32 (Z.shiftl w (32 - c))).

Definition g (state : list Z) (a b c d : nat) (x y : Z) : list Z :=
  let at_ s i := nth i s 0 in
  let s := <[a := u32 (u32 (at_ state a + at_ state b) + x)]> state in
  let s := <[d := rotr32 (Z.lxor (at_ s d) (at_ s a)) 16]> s in
  let s := <[c := u32 (at_ s c + at_ s d)]> s in
  let s := <[b := rotr32 (Z.lxor (at_ s b) (at_ s c)) 12]> s in
  let s := <[a := u32 (u32 (at_ s a + at_ s b) + y)]> s in
  let s := <[d := rotr32 (Z.lxor (at_ s d) (at_ s a)) 8]> s in
  let s := <[c := u32 (at_ s c + at_ s d)]> s in
  <[b := rotr32 (Z.lxor (at_ s b) (at_ s c)) 7]> s.

Definition round_fn (state msg : list Z) (round : nat) : list Z :=
  let schedule := nth round MSG_SCHEDULE [] in
  let m i := nth (nth i schedule 0%nat) msg 0 in
  let s := g state 0 4 8 12 (m 0%nat) (m 1%nat) in
  let s := g s 1 5 9 13 (m 2%nat) (m 3%nat) in
  let s := g s 2 6 10 14 (m 4%nat) (m 5%nat) in
  let s := g s 3 7 11 15 (m 6%nat) (m 7%nat) in
  let s := g s 0 5 10 15 (m 8%nat) (m 9%nat) in
  let s := g s 1 6 11 12 (m 10%nat) (m 11%nat) in
  let s := g s 2 7 8 13 (m 12%nat) (m 13%nat) in
  g s 3 4 9 14 (m 14%nat) (m 15%nat).

Definition compress_pre (cv block : list Z) (block_len counter flags : Z) : list Z :=
  let block_words := load_words 16 block in
  let state :=
    map (fun i => nth i cv 0) (seq 0 8) ++ take 4 IV
    ++ [counter_low counter; counter_high counter; block_len; flags] in
  foldl (fun s round => round_fn s block_words round) state (seq 0 7).

Definition blake3_compress_in_place_portable (cv block : list Z) (block_len counter flags : Z)
    : list Z :=
  let state := compress_pre cv block block_len counter flags in
  map (fun i => Z.lxor (nth i state 0) (nth (i + 8) state 0)) (seq 0 8).

Definition blake3_compress_xof_portable (cv block : list Z) (block_len counter flags : Z)
    : list Z :=
  let state := compress_pre cv block block_len counter flags in
  flat_map (fun i => store32 (Z.lxor (nth i state 0) (nth (i + 8) state 0))) (seq 0 8)
  ++ flat_map (fun i => store32 (Z.lxor (nth (i + 8) state 0) (nth i cv 0))) (seq 0 8).

Definition blake3_compress_in_place := blake3_compress_in_place_portable.
Definition blake3_compress_xof := blake3_compress_xof_portable.

(** [outblocks] blocks of extended output *)
Fixpoint blake3_xof_many (cv block : list Z) (block_len counter flags : Z) (outblocks : nat)
    : list Z :=
  match outblocks with
  | O => []
  | S n => blake3_compress_xof_portable cv block block_len counter flags
           ++ blake3_xof_many cv block block_len (u64 (counter + 1)) flags n
  end.

(** The loop of [hash_one_portable]. *)
Fixpoint hash_one_loop (cv input : list Z) (blocks : nat) (counter flags block_flags flags_end : Z)
    : list Z :=
  match blocks with
  | O => cv
  | S n =>
      let block_flags := if bool_decide (n = 0%nat) then Z.lor block_flags flags_end else block_flags in
      let cv := blake3_compress_in_place_portable cv (ztake BLAKE3_BLOCK_LEN input)
                  BLAKE3_BLOCK_LEN counter block_flags in
      hash_one_loop cv (zdrop BLAKE3_BLOCK_LEN input) n counter flags flags flags_end
  end.

Definition hash_one_portable (input : list Z) (blocks : nat) (key : list Z)
    (counter flags flags_start flags_end : Z) : list Z :=
  store_cv_words (hash_one_loop key input blocks counter flags (Z.lor flags flags_start) flags_end).

(** The chaining values of the inputs, in order. *)
Fixpoint blake3_hash_many (inputs : list (list Z)) (blocks : nat) (key : list Z) (counter : Z)
    (increment_counter : bool) (flags flags_start flags_end : Z) : list (list Z) :=
  match inputs with
  | [] => []
  | input :: inputs =>
      hash_one_portable input blocks key counter flags flags_start flags_end
      :: blake3_hash_many inputs blocks key
           (if increment_counter then u64 (counter + 1) else counter)
           increment_counter flags flags_start flags_end
  end.

(** ** Chunks *)

Record blake3_chunk_state := mk_chunk {
  cs_cv : list Z;
  cs_chunk_counter : Z;
  cs_buf : list Z;
  cs_buf_len : Z;
  cs_blocks_compressed : Z;
  cs_flags : Z;
}.

Definition zero_block : list Z := replicate 64 0.

Definition chunk_state_init (key : list Z) (flags : Z) : blake3_chunk_state :=
  mk_chunk key 0 zero_block 0 0 flags.

Definition chunk_state_reset (self : blake3_chunk_state) (key : list Z) (chunk_counter : Z)
    : blake3_chunk_state :=
  mk_chunk key chunk_counter zero_block 0 0 (cs_flags self).

Definition chunk_state_len (self : blake3_chunk_state) : Z :=
  u64 (u64 (BLAKE3_BLOCK_LEN * cs_blocks_compressed self) + cs_buf_len self).

(** The state with the buffer filled, and how much of the input it took. *)
Definition chunk_state_fill_buf (self : blake3_chunk_state) (input : list Z)
    : blake3_chunk_state * Z :=
  let take := u64 (BLAKE3_BLOCK_LEN - cs_buf_len self) in
  let take := if zlen input <? take then zlen input else take in
  (mk_chunk (cs_cv self) (cs_chunk_counter self)
     (ztake (cs_buf_len self) (cs_buf self) ++ ztake take input
      ++ zdrop (cs_buf_len self + take) (cs_buf self))
     (u8 (cs_buf_len self + u8 take)) (cs_blocks_compressed self) (cs_flags self),
   take).

Definition chunk_state_maybe_start_flag (self : blake3_chunk_state) : Z :=
  if cs_blocks_compressed self =? 0 then CHUNK_START else 0.

Record output_t := mk_output {
  o_input_cv : list Z;
  o_counter : Z;
  o_block : list Z;
  o_block_len : Z;
  o_flags : Z;
}.

Definition make_output (input_cv block : list Z) (block_len counter flags : Z) : output_t :=
  mk_output input_cv counter block block_len flags.

Definition output_chaining_value (self : output_t) : list Z :=
  store_cv_words (blake3_compress_in_place (o_input_cv self) (o_block self) (o_block_len self)
                    (o_counter self) (o_flags self)).

Definition output_root_bytes (self : output_t) (seek out_len : Z) : list Z :=
  if out_len =? 0 then []
  else
    let output_block_counter := seek / 64 in
    let offset_within_block := seek mod 64 in
    let flags := Z.lor (o_flags self) ROOT in
    let xof c := blake3_compress_xof (o_input_cv self) (o_block self) (o_block_len self) c flags in
    let '(out1, out_len, output_block_counter) :=
      if offset_within_block =? 0 then ([], out_len, output_block_counter)
      else
        let wide_buf := xof output_block_counter in
        let available_bytes := 64 - offset_within_block in
        let bytes := if available_bytes <? out_len then available_bytes else out_len in
        (ztake bytes (zdrop offset_within_block wide_buf), out_len - bytes,
         u64 (output_block_counter + 1)) in
    let out2 := blake3_xof_many (o_input_cv self) (o_block self) (o_block_len self)
                  output_block_counter flags (Z.to_nat (out_len / 64)) in
    let output_block_counter := u64 (output_block_counter + out_len / 64) in
    let out_len := out_len - Z.land out_len (Z.lxor 63 (Z.ones 64)) in
    let out3 := if out_len =? 0 then [] else ztake out_len (xof output_block_counter) in
    out1 ++ out2 ++ out3.

(** [blake3_compress_in_place] on the state's own chaining value. *)
Definition compress_block (self : blake3_chunk_state) (block : list Z) : blake3_chunk_state :=
  mk_chunk
    (blake3_compress_in_place (cs_cv self) block BLAKE3_BLOCK_LEN (cs_chunk_counter self)
       (Z.lor (cs_flags self) (chunk_state_maybe_start_flag self)))
    (cs_chunk_counter self) (cs_buf self) (cs_buf_len self)
    (u8 (cs_blocks_compressed self + 1)) (cs_flags self).

Definition clear_buf (self : blake3_chunk_state) : blake3_chunk_state :=
  mk_chunk (cs_cv self) (cs_chunk_counter self) zero_block 0
    (cs_blocks_compressed self) (cs_flags self).

(** [while (input_len > BLAKE3_BLOCK_LEN)]: at most one round per input byte. *)
Fixpoint chunk_state_blocks (fuel : nat) (self : blake3_chunk_state) (input : list Z)
    : outcome (blake3_chunk_state * list Z) :=
  if BLAKE3_BLOCK_LEN <? zlen input then
    match fuel with
    | O => Undef
    | S fuel => chunk_state_blocks fuel (compress_block self (ztake BLAKE3_BLOCK_LEN input))
                  (zdrop BLAKE3_BLOCK_LEN input)
    end
  else Done (self, input).

Definition chunk_state_update (self : blake3_chunk_state) (input : list Z)
    : outcome blake3_chunk_state :=
  let '(self, input) :=
    if 0 <? cs_buf_len self then
      let '(self, take) := chunk_state_fill_buf self input in
      let input := zdrop take input in
      if 0 <? zlen input then (clear_buf (compress_block self (cs_buf self)), input)
      else (self, input)
    else (self, input) in
  '(self, input) ← chunk_state_blocks (length input) self input;
  Done (fst (chunk_state_fill_buf self input)).

Definition chunk_state_output (self : blake3_chunk_state) : output_t :=
  let block_flags :=
    Z.lor (Z.lor (cs_flags self) (chunk_state_maybe_start_flag self)) CHUNK_END in
  make_output (cs_cv self) (cs_buf self) (cs_buf_len self) (cs_chunk_counter self) block_flags.

Definition parent_output (block key : list Z) (flags : Z) : output_t :=
  make_output key block BLAKE3_BLOCK_LEN 0 (Z.lor flags PARENT).

(** ** Subtrees *)

Definition left_subtree_len (input_len : Z) : Z :=
  let full_chunks := u64 (input_len - 1) / BLAKE3_CHUNK_LEN in
  u64 (round_down_to_power_of_2 full_chunks * BLAKE3_CHUNK_LEN).

(** An array of chaining values; [None] is a slot not written yet. *)
Definition store_slots (arr : list (option (list Z))) (off : Z) (cvs : list (list Z))
    : outcome (list (option (list Z))) :=
  if bool_decide (0 <= off /\ off + zlen cvs <= zlen arr)
  then Done (ztake off arr ++ map Some cvs ++ zdrop (off + zlen cvs) arr)
  else Undef.

Fixpoint load_slots (arr : list (option (list Z))) (n : nat) : outcome (list (list Z)) :=
  match n, arr with
  | O, _ => Done []
  | S n, Some cv :: arr => cvs ← load_slots arr n; Done (cv :: cvs)
  | S _, _ => Undef
  end.

(** The loop that collects the whole chunks; a chunk beyond the capacity of
    [chunks_array] is undefined. *)
Fixpoint collect_chunks (fuel : nat) (input : list Z) (chunks : list (list Z))
    : outcome (list (list Z) * list Z) :=
  if BLAKE3_CHUNK_LEN <=? zlen input then
    match fuel with
    | O => Undef
    | S fuel =>
        if zlen chunks <? MAX_SIMD_DEGREE
        then collect_chunks fuel (zdrop BLAKE3_CHUNK_LEN input)
               (chunks ++ [ztake BLAKE3_CHUNK_LEN input])
        else Undef
    end
  else Done (chunks, input).

Definition compress_chunks_parallel (input key : list Z) (chunk_counter flags : Z)
    : outcome (list (list Z)) :=
  '(chunks, rest) ← collect_chunks (length input) input [];
  let cvs := blake3_hash_many chunks 16 key chunk_counter true flags CHUNK_START CHUNK_END in
  if 0 <? zlen rest then
    let counter := u64 (chunk_counter + zlen chunks) in
    let chunk_state := chunk_state_init key flags in
    let chunk_state := mk_chunk (cs_cv chunk_state) counter (cs_buf chunk_state)
      (cs_buf_len chunk_state) (cs_blocks_compressed chunk_state) (cs_flags chunk_state) in
    chunk_state ← chunk_state_update chunk_state rest;
    let output := chunk_state_output chunk_state in
    Done (cvs ++ [output_chaining_value output])
  else Done cvs.

(** The loop that pairs the children; a pair beyond the capacity of
    [parents_array] is undefined. *)
Fixpoint collect_parents (cvs parents : list (list Z)) : outcome (list (list Z) * list (list Z)) :=
  match cvs with
  | l :: r :: cvs =>
      if zlen parents <? MAX_SIMD_DEGREE_OR_2
      then collect_parents cvs (parents ++ [l ++ r]) else Undef
  | _ => Done (parents, cvs)
  end.

Definition compress_parents_parallel (child_chaining_values : list (list Z)) (key : list Z)
    (flags : Z) : outcome (list (list Z)) :=
  '(parents, rest) ← collect_parents child_chaining_values [];
  let out := blake3_hash_many parents 1 key 0 false (Z.lor flags PARENT) 0 0 in
  Done (out ++ rest).

(** Both halves of more than one chunk are shorter, so the input's length is
    fuel enough. *)
Fixpoint blake3_compress_subtree_wide (fuel : nat) (input key : list Z) (chunk_counter flags : Z)
    : outcome (list (list Z)) :=
  if zlen input <=? u64 (blake3_simd_degree * BLAKE3_CHUNK_LEN) then
    compress_chunks_parallel input key chunk_counter flags
  else
    match fuel with
    | O => Undef
    | S fuel =>
        let left_input_len := left_subtree_len (zlen input) in
        let right_input := zdrop left_input_len input in
        let right_chunk_counter := u64 (chunk_counter + left_input_len / BLAKE3_CHUNK_LEN) in
        let cv_array := replicate (Z.to_nat (2 * MAX_SIMD_DEGREE_OR_2)) None in
        let degree :=
          if (BLAKE3_CHUNK_LEN <? left_input_len) && (blake3_simd_degree =? 1)
          then 2 else blake3_simd_degree in
        left ← blake3_compress_subtree_wide fuel (ztake left_input_len input) key chunk_counter flags;
        cv_array ← store_slots cv_array 0 left;
        right ← blake3_compress_subtree_wide fuel right_input key right_chunk_counter flags;
        cv_array ← store_slots cv_array degree right;
        if zlen left =? 1 then load_slots cv_array 2
        else
          children ← load_slots cv_array (length left + length right);
          compress_parents_parallel children key flags
    end.

Definition compress_subtree_to_parent_node (input key : list Z) (chunk_counter flags : Z)
    : outcome (list (list Z)) :=
  let cv_array := replicate (Z.to_nat MAX_SIMD_DEGREE_OR_2) None in
  cvs ← blake3_compress_subtree_wide (length input) input key chunk_counter flags;
  cv_array ← store_slots cv_array 0 cvs;
  load_slots cv_array 2.

(** ** The hasher *)

(** [h_cv_stack] holds the live entries of [cv_stack], the top first; its length
    is [cv_stack_len]. *)
Record blake3_hasher := mk_hasher {
  h_key : list Z;
  h_chunk : blake3_chunk_state;
  h_cv_stack : list (list Z);
}.

Definition hasher_init_base (key : list Z) (flags : Z) : blake3_hasher :=
  mk_hasher key (chunk_state_init key flags) [].

Definition blake3_hasher_init : blake3_hasher := hasher_init_base IV 0.

Definition blake3_hasher_init_keyed (key : list Z) : blake3_hasher :=
  hasher_init_base (load_key_words key) KEYED_HASH.

(** The merge loop on the stack. *)
Fixpoint merge_loop (fuel : nat) (key : list Z) (flags : Z) (post_merge_stack_len : Z)
    (stack : list (list Z)) : outcome (list (list Z)) :=
  if post_merge_stack_len <? zlen stack then
    match fuel, stack with
    | S fuel, t :: s :: stack =>
        let output := parent_output (s ++ t) key flags in
        merge_loop fuel key flags post_merge_stack_len (output_chaining_value output :: stack)
    | _, _ => Undef
    end
  else Done stack.

Definition hasher_merge_cv_stack (self : blake3_hasher) (total_len : Z) : outcome blake3_hasher :=
  stack ← merge_loop (length (h_cv_stack self)) (h_key self) (cs_flags (h_chunk self))
            (popcnt total_len) (h_cv_stack self);
  Done (mk_hasher (h_key self) (h_chunk self) stack).

(** The array has [BLAKE3_MAX_DEPTH + 1] entries. *)
Definition hasher_push_cv (self : blake3_hasher) (new_cv : list Z) (chunk_counter : Z)
    : outcome blake3_hasher :=
  self ← hasher_merge_cv_stack self chunk_counter;
  if zlen (h_cv_stack self) <? BLAKE3_MAX_DEPTH + 1
  then Done (mk_hasher (h_key self) (h_chunk self) (new_cv :: h_cv_stack self))
  else Undef.

Definition set_chunk (self : blake3_hasher) (c : blake3_chunk_state) : blake3_hasher :=
  mk_hasher (h_key self) c (h_cv_stack self).

Definition set_counter (self : blake3_hasher) (counter : Z) : blake3_hasher :=
  let c := h_chunk self in
  set_chunk self (mk_chunk (cs_cv c) counter (cs_buf c) (cs_buf_len c)
    (cs_blocks_compressed c) (cs_flags c)).

(** [while (((subtree_len - 1) & count_so_far) != 0) subtree_len /= 2]; halving a
    64-bit number 64 times gives 0, whose predecessor's loop never runs on. *)
Fixpoint shrink_subtree (fuel : nat) (subtree_len count_so_far : Z) : outcome Z :=
  if Z.land (u64 (subtree_len - 1)) count_so_far =? 0 then Done subtree_len
  else
    match fuel with
    | O => Undef
    | S fuel => shrink_subtree fuel (subtree_len / 2) count_so_far
    end.

(** One round of [while (input_len > BLAKE3_CHUNK_LEN)]. *)
Definition hasher_subtree (self : blake3_hasher) (input : list Z)
    : outcome (blake3_hasher * list Z) :=
  let counter := cs_chunk_counter (h_chunk self) in
  let flags := cs_flags (h_chunk self) in
  let count_so_far := u64 (counter * BLAKE3_CHUNK_LEN) in
  subtree_len ← shrink_subtree 64 (round_down_to_power_of_2 (zlen input)) count_so_far;
  let subtree_chunks := subtree_len / BLAKE3_CHUNK_LEN in
  self ← (if subtree_len <=? BLAKE3_CHUNK_LEN then
            let chunk_state := chunk_state_init (h_key self) flags in
            let chunk_state := mk_chunk (cs_cv chunk_state) counter (cs_buf chunk_state)
              (cs_buf_len chunk_state) (cs_blocks_compressed chunk_state) (cs_flags chunk_state) in
            chunk_state ← chunk_state_update chunk_state (ztake subtree_len input);
            let cv := output_chaining_value (chunk_state_output chunk_state) in
            hasher_push_cv self cv (cs_chunk_counter chunk_state)
          else
            cv_pair ← compress_subtree_to_parent_node (ztake subtree_len input) (h_key self)
                        counter flags;
            self ← hasher_push_cv self (nth 0 cv_pair []) counter;
            hasher_push_cv self (nth 1 cv_pair []) (u64 (counter + subtree_chunks / 2)));
  Done (set_counter self (u64 (counter + subtree_chunks)), zdrop subtree_len input).

Fixpoint hasher_subtrees (fuel : nat) (self : blake3_hasher) (input : list Z)
    : outcome (blake3_hasher * list Z) :=
  if BLAKE3_CHUNK_LEN <? zlen input then
    match fuel with
    | O => Undef
    | S fuel => '(self, input) ← hasher_subtree self input; hasher_subtrees fuel self input
    end
  else Done (self, input).

(** The part of the update that completes the current chunk: the state and the
    rest of the input, or [None] when the function returns early. *)
Definition hasher_finish_chunk (self : blake3_hasher) (input : list Z)
    : outcome (blake3_hasher * option (list Z)) :=
  if 0 <? chunk_state_len (h_chunk self) then
    let take := u64 (BLAKE3_CHUNK_LEN - chunk_state_len (h_chunk self)) in
    let take := if zlen input <? take then zlen input else take in
    chunk ← chunk_state_update (h_chunk self) (ztake take input);
    let self := set_chunk self chunk in
    let input := zdrop take input in
    if 0 <? zlen input then
      let chunk_cv := output_chaining_value (chunk_state_output (h_chunk self)) in
      let counter := cs_chunk_counter (h_chunk self) in
      self ← hasher_push_cv self chunk_cv counter;
      Done (set_chunk self (chunk_state_reset (h_chunk self) (h_key self) (u64 (counter + 1))),
            Some input)
    else Done (self, None)
  else Done (self, Some input).

Definition blake3_hasher_update (self : blake3_hasher) (input : list Z) : outcome blake3_hasher :=
  if zlen input =? 0 then Done self
  else
    '(self, rest) ← hasher_finish_chunk self input;
    match rest with
    | None => Done self
    | Some input =>
        '(self, input) ← hasher_subtrees (length input) self input;
        if 0 <? zlen input then
          chunk ← chunk_state_update (h_chunk self) input;
          let self := set_chunk self chunk in
          hasher_merge_cv_stack self (cs_chunk_counter (h_chunk self))
        else Done self
    end.

(** The loop over the remaining chaining values. *)
Definition finalize_fold (key : list Z) (flags : Z) (output : output_t) (stack : list (list Z))
    : output_t :=
  foldl (fun output cv => parent_output (cv ++ output_chaining_value output) key flags) output stack.

Definition blake3_hasher_finalize_seek (self : blake3_hasher) (seek out_len : Z)
    : outcome (list Z) :=
  let flags := cs_flags (h_chunk self) in
  if out_len =? 0 then Done []
  else if zlen (h_cv_stack self) =? 0 then
    Done (output_root_bytes (chunk_state_output (h_chunk self)) seek out_len)
  else
    '(output, stack) ←
      (if 0 <? chunk_state_len (h_chunk self)
       then Done (chunk_state_output (h_chunk self), h_cv_stack self)
       else match h_cv_stack self with
            | t :: s :: stack => Done (parent_output (s ++ t) (h_key self) flags, stack)
            | _ => Undef
            end);
    Done (output_root_bytes (finalize_fold (h_key self) flags output stack) seek out_len).

Definition blake3_hasher_finalize (self : blake3_hasher) (out_len : Z) : outcome (list Z) :=
  blake3_hasher_finalize_seek self 0 out_len.

Definition blake3_hasher_reset (self : blake3_hasher) : blake3_hasher :=
  mk_hasher (h_key self) (chunk_state_reset (h_chunk self) (h_key self) 0) [].

Definition blake3_hasher_init_derive_key_raw (context : list Z) : outcome blake3_hasher :=
  context_hasher ← blake3_hasher_update (hasher_init_base IV DERIVE_KEY_CONTEXT) context;
  context_key ← blake3_hasher_finalize context_hasher BLAKE3_KEY_LEN;
  Done (hasher_init_base (load_key_words context_key) DERIVE_KEY_MATERIAL).

(** [context] is the C string's bytes up to its NUL. *)
Definition blake3_hasher_init_derive_key (context : list Z) : outcome blake3_hasher :=
  blake3_hasher_init_derive_key_raw context.
