(* ===== verification/Blake3Chunk.v ===== *)
(** * Chunks of BLAKE3

    The specification of one chunk (its blocks, chaining value and output) and
    the proof that the incremental chunk state and the one-shot [hash_many]
    compute it. *)
From Stdlib Require Import ZArith Lia.
From stdpp Require Import base list option numbers.
From S2P Require Import Prelude Blake3.

#[local] Opaque blake3_compress_in_place.

(** ** The specification of a chunk *)

Definition nth_block (m : nat) (d : list Z) : list Z := ztake 64 (zdrop (64 * Z.of_nat m) d).

Definition pad_block (d : list Z) : list Z := d ++ replicate (64 - length d) 0.

Definition start_flag (m : nat) : Z := if bool_decide (m = 0%nat) then CHUNK_START else 0.

Section chunk.
Variables (key : list Z) (flags counter : Z).

(** The chaining value after the first [m] blocks. *)
Fixpoint cv_after (m : nat) (d : list Z) : list Z :=
  match m with
  | O => key
  | S m => blake3_compress_in_place (cv_after m d) (nth_block m d) BLAKE3_BLOCK_LEN counter
             (Z.lor flags (start_flag m))
  end.

(** The number of blocks before the last one. *)
Definition blocks_before (n : Z) : nat := Z.to_nat ((n - 1) / 64).

(** The last block, padded, with the flags of the end of the chunk. *)
Definition chunk_output (d : list Z) : output_t :=
  let m := blocks_before (zlen d) in
  mk_output (cv_after m d) counter (pad_block (zdrop (64 * Z.of_nat m) d))
    (zlen d - 64 * Z.of_nat m) (Z.lor (Z.lor flags (start_flag m)) CHUNK_END).

Lemma nth_block_app m d x :
  64 * (Z.of_nat m + 1) <= zlen d -> nth_block m (d ++ x) = nth_block m d.
Proof.
  intros H. unfold nth_block. rewrite zdrop_app_le by lia. apply ztake_app_le.
  rewrite zlen_zdrop; lia.
Qed.

Lemma cv_after_app m d x : 64 * Z.of_nat m <= zlen d -> cv_after m (d ++ x) = cv_after m d.
Proof.
  induction m as [|m IH]; intros H; [done|]. cbn [cv_after].
  rewrite IH, nth_block_app by lia. done.
Qed.

(** ** The chunk state *)

(** The state has compressed [m] blocks of [d] and buffers the rest. *)
Definition chunk_at (cs : blake3_chunk_state) (m : nat) (d : list Z) : Prop :=
  cs = mk_chunk (cv_after m d) counter (pad_block (zdrop (64 * Z.of_nat m) d))
         (zlen d - 64 * Z.of_nat m) (Z.of_nat m) flags
  /\ 64 * Z.of_nat m <= zlen d <= 64 * (Z.of_nat m + 1)
  /\ (m <= 16)%nat.

(** The state of a chunk that was given the bytes [d]. *)
Definition chunk_holds (cs : blake3_chunk_state) (d : list Z) : Prop :=
  chunk_at cs (blocks_before (zlen d)) d.

Lemma chunk_init_at : chunk_at (mk_chunk key counter zero_block 0 0 flags) 0 [].
Proof. split; [done|]. rewrite (@zlen_nil Z). lia. Qed.

Lemma pad_block_full d : zlen d = 64 -> pad_block d = d.
Proof.
  intros H. unfold pad_block, zlen in *. replace (64 - length d)%nat with 0%nat by lia.
  by rewrite app_nil_r.
Qed.

Lemma fill_buf_at cs m d x :
  chunk_at cs m d -> zlen x < 2 ^ 64 ->
  let '(cs', take) := chunk_state_fill_buf cs x in
  take = Z.min (64 * (Z.of_nat m + 1) - zlen d) (zlen x)
  /\ chunk_at cs' m (d ++ ztake take x).
Proof.
  intros (-> & Hd & Hm) Hx. unfold chunk_state_fill_buf. cbn [cs_buf_len cs_buf cs_cv
    cs_chunk_counter cs_blocks_compressed cs_flags]. change BLAKE3_BLOCK_LEN with 64.
  pose proof (zlen_nonneg x).
  rewrite (wrap_small 64) by (unfold fits; lia).
  set (t := if _ <? _ then _ else _).
  assert (t = Z.min (64 * (Z.of_nat m + 1) - zlen d) (zlen x)) as Ht by (unfold t; zcase).
  clearbody t. split; [done|].
  assert (zlen (ztake t x) = t) as Hlt by (rewrite zlen_ztake; lia).
  rewrite (wrap_small 8 t) by (unfold fits; lia).
  rewrite (wrap_small 8) by (unfold fits; lia).
  split; [|rewrite zlen_app, Hlt; lia]. rewrite cv_after_app, zdrop_app_le by lia.
  assert (zlen (zdrop (64 * Z.of_nat m) d) = zlen d - 64 * Z.of_nat m) as Hrest
    by (rewrite zlen_zdrop; lia).
  f_equal; [|rewrite zlen_app; lia].
  rewrite <-Hrest. unfold pad_block. rewrite ztake_app_zlen, <-app_assoc. f_equal. f_equal.
  rewrite <-zdrop_zdrop, zdrop_app_zlen by (rewrite ?Hrest; lia).
  unfold zdrop. rewrite drop_replicate, length_app. f_equal. unfold zlen in *. lia.
Qed.

Lemma start_flag_at m : (if Z.of_nat m =? 0 then CHUNK_START else 0) = start_flag m.
Proof. unfold start_flag. destruct m; [done|]. rewrite bool_decide_eq_false_2 by done. done. Qed.

(** Compressing a block that follows a block boundary. *)
Lemma compress_block_at cs m d b buf n :
  chunk_at cs m d -> zlen d = 64 * Z.of_nat m -> zlen b = 64 -> (m < 16)%nat ->
  buf = zero_block -> n = 0 ->
  let cs' := compress_block (mk_chunk (cs_cv cs) (cs_chunk_counter cs) buf n
    (cs_blocks_compressed cs) (cs_flags cs)) b in
  chunk_at cs' (S m) (d ++ b).
Proof.
  intros (-> & Hd & Hm) Hlen Hb Hlt -> ->. unfold compress_block, chunk_state_maybe_start_flag.
  cbn [cs_buf_len cs_buf cs_cv cs_chunk_counter cs_blocks_compressed cs_flags].
  rewrite start_flag_at.
  assert (zlen (d ++ b) = 64 * Z.of_nat (S m)) as Hl by (rewrite zlen_app; lia).
  split; [|rewrite Hl; lia]. cbn [cv_after]. rewrite cv_after_app by lia.
  assert (nth_block m (d ++ b) = b) as ->.
  { unfold nth_block. rewrite <-Hlen, zdrop_app_zlen. apply ztake_all. lia. }
  rewrite (zdrop_all (64 * Z.of_nat (S m))) by lia. rewrite Hl.
  rewrite wrap_small by (unfold fits; lia). f_equal; lia.
Qed.

(** Compressing the full buffer. *)
Lemma compress_buf_at cs m d :
  chunk_at cs m d -> zlen d = 64 * (Z.of_nat m + 1) -> (m < 16)%nat ->
  chunk_at (clear_buf (compress_block cs (cs_buf cs))) (S m) d.
Proof.
  intros (-> & Hd & Hm) Hlen Hlt. unfold clear_buf, compress_block, chunk_state_maybe_start_flag.
  cbn [cs_buf_len cs_buf cs_cv cs_chunk_counter cs_blocks_compressed cs_flags].
  rewrite start_flag_at. split; [|lia].
  assert (zlen (zdrop (64 * Z.of_nat m) d) = 64) as Hr by (rewrite zlen_zdrop; lia).
  rewrite pad_block_full by done. cbn [cv_after].
  assert (nth_block m d = zdrop (64 * Z.of_nat m) d) as -> by (apply ztake_all; lia).
  rewrite (zdrop_all (64 * Z.of_nat (S m))) by lia.
  rewrite wrap_small by (unfold fits; lia). f_equal; lia.
Qed.

(** The loop over whole blocks leaves at most one block. *)
Lemma chunk_blocks_at fuel cs m d x :
  chunk_at cs m d -> zlen d = 64 * Z.of_nat m -> zlen d + zlen x <= 1024 ->
  (length x <= fuel)%nat ->
  exists cs' m' y z, chunk_state_blocks fuel cs x = Done (cs', z) /\ x = y ++ z
    /\ chunk_at cs' m' (d ++ y) /\ zlen (d ++ y) = 64 * Z.of_nat m'
    /\ zlen z <= 64 /\ (zlen x = 0 \/ 0 < zlen z).
Proof.
  revert cs m d x. induction fuel as [|fuel IH]; intros cs m d x Hc Hd Hx Hf;
    cbn [chunk_state_blocks]; change BLAKE3_BLOCK_LEN with 64; pose proof (zlen_nonneg x);
    (destruct (Z.ltb_spec 64 (zlen x)) as [Hlt|Hge];
     [|exists cs, m, [], x; rewrite app_nil_r; split_and!; try done; lia]);
    [unfold zlen in *; lia|].
  pose proof Hc as (Heq & _ & Hm).
  assert (zlen (ztake 64 x) = 64) as Hb by (rewrite zlen_ztake; lia).
  assert (zlen (zdrop 64 x) = zlen x - 64) as Hr by (rewrite zlen_zdrop; lia).
  assert (cs_buf cs = zero_block /\ cs_buf_len cs = 0) as [Hbuf Hn].
  { subst cs. cbn [cs_buf cs_buf_len]. rewrite zdrop_all by lia. split; [done|lia]. }
  pose proof (compress_block_at cs m d (ztake 64 x) _ _ Hc Hd Hb ltac:(lia) Hbuf Hn) as Hc'.
  cbv zeta in Hc'. replace (mk_chunk _ _ _ _ _ _) with cs in Hc' by (by destruct cs).
  destruct (IH _ (S m) (d ++ ztake 64 x) (zdrop 64 x) Hc') as (cs' & m' & y & z & -> & Hyz & H1 & H2 & H3 & H4).
  - rewrite zlen_app. lia.
  - rewrite zlen_app. lia.
  - unfold zlen in *. lia.
  - exists cs', m', (ztake 64 x ++ y), z. rewrite <-!app_assoc in *.
    split_and!; try done; [by rewrite <-Hyz, ztake_zdrop|lia].
Qed.

Lemma blocks_before_spec n m :
  64 * Z.of_nat m < n <= 64 * (Z.of_nat m + 1) -> blocks_before n = m.
Proof.
  intros H. unfold blocks_before.
  assert ((n - 1) / 64 = Z.of_nat m) as -> by (symmetry; apply Z.div_unique with (n - 1 - 64 * Z.of_nat m); lia).
  lia.
Qed.

Lemma chunk_at_holds cs m d :
  chunk_at cs m d -> 64 * Z.of_nat m < zlen d \/ zlen d = 0 -> chunk_holds cs d.
Proof.
  intros Hc H. unfold chunk_holds. pose proof Hc as (_ & Hd & _).
  destruct H as [H|H].
  - by rewrite (blocks_before_spec (zlen d) m) by lia.
  - rewrite H. replace (blocks_before 0) with m; [done|]. unfold blocks_before.
    change ((0 - 1) / 64) with (-1). simpl. lia.
Qed.

Lemma chunk_holds_at cs d :
  chunk_holds cs d -> exists m, chunk_at cs m d /\ (64 * Z.of_nat m < zlen d \/ zlen d = 0 /\ m = 0%nat).
Proof.
  intros Hc. exists (blocks_before (zlen d)). split; [exact Hc|].
  destruct Hc as (_ & Hd & _). pose proof (zlen_nonneg d).
  destruct (Z.eq_dec (zlen d) 0) as [->|Hne]; [by right|]. left.
  revert Hd. unfold blocks_before. div_lia.
Qed.

(** *** Updating the chunk state appends to its bytes *)
Lemma chunk_update_holds cs d x :
  chunk_holds cs d -> zlen d + zlen x <= 1024 ->
  exists cs', chunk_state_update cs x = Done cs' /\ chunk_holds cs' (d ++ x).
Proof.
  intros Hh Hx. destruct (chunk_holds_at cs d Hh) as (m & Hc & Hm).
  pose proof Hc as (Heq & Hd & Hm16). unfold chunk_state_update.
  pose proof (zlen_nonneg x). pose proof (zlen_nonneg d).
  assert (forall cs1 m1 d1 x1, d ++ x = d1 ++ x1 -> chunk_at cs1 m1 d1 ->
    zlen d1 = 64 * Z.of_nat m1 -> (0 < zlen x1 \/ m1 = 0%nat) ->
    exists cs', ('(self, input) ← chunk_state_blocks (length x1) cs1 x1;
      Done (fst (chunk_state_fill_buf self input))) = Done cs' /\ chunk_holds cs' (d ++ x))
    as Htail.
  { intros cs1 m1 d1 x1 Hdx Hc1 Hd1 Hx1.
    assert (zlen d1 + zlen x1 <= 1024) as Hle by (rewrite <-zlen_app, <-Hdx, zlen_app; lia).
    destruct (chunk_blocks_at (length x1) cs1 m1 d1 x1 Hc1 Hd1 Hle ltac:(lia))
      as (cs2 & m2 & y & z & -> & -> & Hc2 & Hd2 & Hz & Hz0). rewrite outcome_bind_done.
    pose proof (fill_buf_at cs2 m2 (d1 ++ y) z Hc2 ltac:(lia)) as Hfill.
    destruct (chunk_state_fill_buf cs2 z) as [cs3 t]. destruct Hfill as [Ht Hc3].
    pose proof (zlen_nonneg z). pose proof (zlen_nonneg y). rewrite zlen_app in Hz0, Hx1.
    rewrite ztake_all, <-app_assoc in Hc3 by lia. eexists. split; [done|]. rewrite Hdx.
    apply (chunk_at_holds _ m2); [exact Hc3|]. rewrite <-zlen_app in *. rewrite app_assoc, zlen_app.
    destruct Hz0 as [Hz0|]; [|lia].
    destruct Hx1 as [Hx1|Hx1]; [lia|]. subst m1. pose proof (zlen_nonneg d1).
    rewrite zlen_app in *. lia. }
  subst cs. cbn [cs_buf_len]. destruct (Z.ltb_spec 0 (zlen d - 64 * Z.of_nat m)).
  - pose proof (fill_buf_at _ m d x Hc ltac:(lia)) as Hfill.
    destruct (chunk_state_fill_buf _ x) as [cs1 t]. destruct Hfill as [Ht Hc1].
    assert (zlen (ztake t x) = t) as Hlt by (rewrite zlen_ztake; lia).
    assert (zlen (zdrop t x) = zlen x - t) as Hlr by (rewrite zlen_zdrop; lia).
    destruct (Z.ltb_spec 0 (zlen (zdrop t x))).
    + apply (Htail _ (S m) (d ++ ztake t x)).
      * by rewrite <-app_assoc, ztake_zdrop.
      * apply compress_buf_at; [done| |lia]. rewrite zlen_app. lia.
      * rewrite zlen_app. lia.
      * lia.
    + assert (zdrop t x = []) as -> by (apply zlen_zero; lia).
      rewrite ztake_all in Hc1 by lia.
      exists (chunk_state_fill_buf cs1 []).1. split; [done|].
      pose proof (fill_buf_at cs1 m (d ++ x) [] Hc1 ltac:(done)) as Hfill.
      destruct (chunk_state_fill_buf cs1 []) as [cs2 t']. destruct Hfill as [_ Hc2].
      unfold ztake in Hc2. rewrite take_nil, app_nil_r in Hc2. cbn [fst].
      apply (chunk_at_holds _ m); [exact Hc2|]. rewrite zlen_app. lia.
  - apply (Htail _ m d); [done|done|lia|lia].
Qed.

Lemma chunk_output_holds cs d : chunk_holds cs d -> chunk_state_output cs = chunk_output d.
Proof.
  intros (-> & _ & _). unfold chunk_state_output, chunk_output, chunk_state_maybe_start_flag, make_output.
  cbn [cs_buf_len cs_buf cs_cv cs_chunk_counter cs_blocks_compressed cs_flags].
  by rewrite start_flag_at.
Qed.

Lemma chunk_len_holds cs d : chunk_holds cs d -> chunk_state_len cs = zlen d.
Proof.
  intros (-> & Hd & Hm). unfold chunk_state_len. cbn [cs_blocks_compressed cs_buf_len].
  change BLAKE3_BLOCK_LEN with 64. rewrite (wrap_small 64 (64 * _)), wrap_small; unfold fits; lia.
Qed.

(** ** One-shot hashing of a whole chunk *)

Lemma hash_one_loop_spec n m d cv :
  zlen d = 64 * Z.of_nat (m + n) -> (0 < n)%nat ->
  cv = cv_after m d ->
  hash_one_loop cv (zdrop (64 * Z.of_nat m) d) n counter flags (Z.lor flags (start_flag m)) CHUNK_END
  = blake3_compress_in_place (cv_after (m + n - 1) d) (nth_block (m + n - 1) d) 64 counter
      (Z.lor (Z.lor flags (start_flag (m + n - 1))) CHUNK_END).
Proof.
  revert m cv. induction n as [|n IH]; intros m cv Hd Hn ->; [lia|].
  cbn [hash_one_loop]. change BLAKE3_BLOCK_LEN with 64. fold (nth_block m d).
  destruct n as [|n].
  - replace (m + 1 - 1)%nat with m by lia. done.
  - rewrite bool_decide_eq_false_2 by done. rewrite zdrop_zdrop by lia.
    replace (64 * Z.of_nat m + 64) with (64 * Z.of_nat (S m)) by lia.
    replace (m + S (S n) - 1)%nat with (S m + S n - 1)%nat by lia.
    rewrite <-(IH (S m) (cv_after (S m) d)); [|lia|lia|done].
    unfold start_flag. rewrite (bool_decide_eq_false_2 (S m = 0%nat)) by done.
    by rewrite Z.lor_0_r.
Qed.

Lemma hash_one_chunk d :
  zlen d = 1024 ->
  hash_one_portable d 16 key counter flags CHUNK_START CHUNK_END
  = output_chaining_value (chunk_output d).
Proof.
  intros Hd. unfold hash_one_portable, output_chaining_value, chunk_output.
  cbn [o_input_cv o_block o_block_len o_counter o_flags].
  pose proof (hash_one_loop_spec 16 0 d key Hd ltac:(lia) eq_refl) as Hl.
  unfold start_flag at 1 in Hl. rewrite bool_decide_eq_true_2 in Hl by done.
  change (zdrop (64 * Z.of_nat 0) d) with d in Hl. rewrite Hl. f_equal.
  rewrite Hd. change (blocks_before 1024) with 15%nat. change (0 + 16 - 1)%nat with 15%nat.
  rewrite pad_block_full by (rewrite zlen_zdrop; lia).
  replace (1024 - 64 * Z.of_nat 15) with 64 by lia.
  assert (nth_block 15 d = zdrop (64 * Z.of_nat 15) d) as ->; [|reflexivity].
  apply ztake_all. rewrite zlen_zdrop; lia.
Qed.
End chunk.
