(* ===== verification/Blake3Tree.v ===== *)
(** * The BLAKE3 tree

    The tree hash as a recursive specification, powers of two and population
    counts, and the proof that [blake3_compress_subtree_wide] computes the two
    children of the root of a subtree. *)
From Stdlib Require Import ZArith Lia.
From stdpp Require Import base list option numbers.
From S2P Require Import Prelude Blake3 Blake3Chunk.

#[local] Opaque blake3_compress_in_place store_cv_words.

(** ** Powers of two *)

Lemma log2_lor_1 x : 0 <= x -> Z.log2 (Z.lor x 1) = Z.log2 x.
Proof.
  intros Hx. rewrite Z.log2_lor by lia. change (Z.log2 1) with 0.
  pose proof (Z.log2_nonneg x). lia.
Qed.

(** The largest power of two below, 1 for 0. *)
Lemma round_down_spec x :
  0 <= x < 2 ^ 64 -> round_down_to_power_of_2 x = 2 ^ Z.log2 x.
Proof.
  intros Hx. unfold round_down_to_power_of_2, highest_one. rewrite log2_lor_1 by lia.
  pose proof (Z.log2_nonneg x). rewrite Z.shiftl_mul_pow2, Z.mul_1_l by lia.
  apply wrap_small. split; [apply Z.pow_nonneg; lia|].
  apply Z.pow_lt_mono_r; [lia|lia|].
  destruct (Z.eq_dec x 0) as [->|]; [done|]. apply Z.log2_lt_pow2; lia.
Qed.

Lemma log2_between k x : 0 <= k -> 2 ^ k <= x < 2 ^ (k + 1) -> Z.log2 x = k.
Proof. intros Hk Hx. by apply Z.log2_unique. Qed.

(** The left subtree is the largest power of two of chunks that leaves
    something to the right. *)
Lemma left_subtree_len_spec n :
  1024 < n < 2 ^ 64 ->
  exists k, 0 <= k /\ left_subtree_len n = 2 ^ k * 1024
    /\ 2 ^ k * 1024 < n <= 2 ^ (k + 1) * 1024.
Proof.
  intros Hn. unfold left_subtree_len. change BLAKE3_CHUNK_LEN with 1024.
  rewrite (wrap_small 64 (n - 1)) by (unfold fits; lia).
  assert (1 <= (n - 1) / 1024 < 2 ^ 54) as Hc by div_lia.
  rewrite round_down_spec by lia. set (c := (n - 1) / 1024) in *.
  exists (Z.log2 c). pose proof (Z.log2_nonneg c).
  pose proof (Z.log2_spec c ltac:(lia)) as Hl. rewrite <-Z.add_1_r in Hl.
  assert (2 ^ Z.log2 c * 1024 < n <= 2 ^ (Z.log2 c + 1) * 1024) as Hb.
  { unfold c in *. clear -Hl Hn. revert Hl.
    generalize (2 ^ Z.log2 ((n - 1) / 1024)), (2 ^ (Z.log2 ((n - 1) / 1024) + 1)).
    intros a b Hl. div_lia. }
  split; [done|]. split; [|exact Hb]. apply wrap_small. split; [|lia].
  apply Z.mul_nonneg_nonneg; [apply Z.pow_nonneg; lia|lia].
Qed.

Lemma left_subtree_len_unique n k :
  0 <= k -> n < 2 ^ 64 -> 2 ^ k * 1024 < n <= 2 ^ (k + 1) * 1024 ->
  left_subtree_len n = 2 ^ k * 1024.
Proof.
  intros Hk Hn Hb. assert (1 <= 2 ^ k) by (pose proof (Z.pow_pos_nonneg 2 k); lia).
  destruct (left_subtree_len_spec n ltac:(lia)) as (j & Hj & -> & Hjb).
  assert (j = k) as ->; [|done].
  destruct (Z.lt_trichotomy j k) as [H1|[->|H1]]; [|done|].
  - assert (2 ^ (j + 1) <= 2 ^ k) by (apply Z.pow_le_mono_r; lia). lia.
  - assert (2 ^ (k + 1) <= 2 ^ j) by (apply Z.pow_le_mono_r; lia). lia.
Qed.

(** ** Population counts *)

Lemma popcnt_double x : popcnt (2 * x) = popcnt x.
Proof. by destruct x. Qed.

Lemma popcnt_double_1 x : 0 <= x -> popcnt (2 * x + 1) = 1 + popcnt x.
Proof. destruct x; [done|done|lia]. Qed.

Lemma popcnt_low_bit k m : 0 <= k -> 0 <= m -> popcnt (2 ^ k + 2 ^ (k + 1) * m) = 1 + popcnt m.
Proof.
  intros Hk Hm. revert k Hk. apply natlike_ind.
  - change (2 ^ (0 + 1)) with 2. rewrite Z.add_comm. by apply popcnt_double_1.
  - intros k Hk IH. rewrite <-IH, <-(popcnt_double (2 ^ k + _)). f_equal.
    replace (Z.succ k + 1) with (Z.succ (k + 1)) by lia.
    rewrite !Z.pow_succ_r by lia. ring.
Qed.

Lemma popcnt_shift k m : 0 <= k -> popcnt (2 ^ k * m) = popcnt m.
Proof.
  intros Hk. revert k Hk. apply natlike_ind; [by rewrite Z.mul_1_l|].
  intros k Hk IH. rewrite Z.pow_succ_r, <-Z.mul_assoc, popcnt_double by done. exact IH.
Qed.

(** ** The specification of the tree *)

Section tree.
Variables (key : list Z) (flags : Z).

(** The output of the subtree over [d], whose first chunk has number [c]: a chunk,
    or the parent of the left and the right subtree. *)
Fixpoint tree_output_fuel (fuel : nat) (c : Z) (d : list Z) : output_t :=
  if zlen d <=? 1024 then chunk_output key flags c d
  else
    match fuel with
    | O => chunk_output key flags c d
    | S fuel =>
        let l := left_subtree_len (zlen d) in
        parent_output
          (output_chaining_value (tree_output_fuel fuel c (ztake l d))
           ++ output_chaining_value (tree_output_fuel fuel (c + l / 1024) (zdrop l d))) key flags
    end.

Definition tree_output (c : Z) (d : list Z) : output_t := tree_output_fuel (length d) c d.
Definition tree_cv (c : Z) (d : list Z) : list Z := output_chaining_value (tree_output c d).

(** Both subtrees are shorter. *)
Lemma left_len_bounds (d : list Z) :
  1024 < zlen d < 2 ^ 64 ->
  let l := left_subtree_len (zlen d) in
  1024 <= l < zlen d /\ zlen (ztake l d) = l /\ zlen (zdrop l d) = zlen d - l
  /\ l mod 1024 = 0.
Proof.
  intros Hd. destruct (left_subtree_len_spec (zlen d) Hd) as (k & Hk & -> & Hb).
  pose proof (Z.pow_pos_nonneg 2 k ltac:(lia) Hk). cbv zeta.
  rewrite zlen_ztake, zlen_zdrop by lia. rewrite Z.mod_mul by lia. lia.
Qed.

Lemma tree_output_fuel_enough fuel c (d : list Z) :
  (length d <= fuel)%nat -> zlen d < 2 ^ 64 -> tree_output_fuel fuel c d = tree_output c d.
Proof.
  intros Hf Hd. unfold tree_output.
  assert (forall n m c (d : list Z), (length d <= n)%nat -> (length d <= m)%nat -> zlen d < 2 ^ 64 ->
    tree_output_fuel n c d = tree_output_fuel m c d) as Hany; [|by apply Hany].
  clear. induction n as [|n IH]; intros m c d Hn Hm Hd.
  - destruct d; [|simpl in Hn; lia]. by destruct m.
  - destruct m as [|m]; [by destruct d; [|simpl in Hm; lia]|]. cbn [tree_output_fuel].
    destruct (Z.leb_spec (zlen d) 1024); [done|].
    destruct (left_len_bounds d ltac:(lia)) as (Hl & Ht & Hr & _).
    rewrite (IH m c (ztake _ d)), (IH m _ (zdrop _ d)); [done|unfold zlen in *; lia..].
Qed.

Lemma tree_chunk c (d : list Z) : zlen d <= 1024 -> tree_output c d = chunk_output key flags c d.
Proof. intros Hd. unfold tree_output. destruct (length d); cbn [tree_output_fuel]; zcase; done. Qed.

Lemma tree_parent c (d : list Z) :
  1024 < zlen d < 2 ^ 64 ->
  let l := left_subtree_len (zlen d) in
  tree_output c d
  = parent_output (tree_cv c (ztake l d) ++ tree_cv (c + l / 1024) (zdrop l d)) key flags.
Proof.
  intros Hd l. destruct (left_len_bounds d Hd) as (Hl & Ht & Hr & _). fold l in Hl, Ht, Hr.
  unfold tree_cv. rewrite <-(tree_output_fuel_enough (pred (length d)) c (ztake l d)),
    <-(tree_output_fuel_enough (pred (length d)) _ (zdrop l d)) by (unfold zlen in *; lia).
  unfold tree_output at 1. destruct (length d) as [|n] eqn:Hn; [unfold zlen in *; lia|].
  cbn [tree_output_fuel pred]. zcase. done.
Qed.

(** Joining a full left subtree with what follows it. *)
Lemma tree_join k c (a b : list Z) :
  0 <= k -> zlen a = 2 ^ k * 1024 -> 0 < zlen b <= 2 ^ k * 1024 -> zlen a + zlen b < 2 ^ 64 ->
  tree_output c (a ++ b) = parent_output (tree_cv c a ++ tree_cv (c + 2 ^ k) b) key flags.
Proof.
  intros Hk Ha Hb Hlen. pose proof (Z.pow_pos_nonneg 2 k ltac:(lia) Hk).
  assert (2 ^ (k + 1) = 2 * 2 ^ k) as Hp by (rewrite Z.pow_add_r by lia; lia).
  assert (zlen (a ++ b) = zlen a + zlen b) as Hab by apply zlen_app.
  rewrite tree_parent by lia. rewrite (left_subtree_len_unique _ k) by lia.
  rewrite <-Ha, ztake_app_zlen, zdrop_app_zlen.
  assert (zlen a / 1024 = 2 ^ k) as -> by (rewrite Ha; by apply Z.div_mul). reflexivity.
Qed.

(** ** [blake3_compress_subtree_wide] *)

Lemma hash_parent (l r : list Z) :
  zlen (l ++ r) = 64 ->
  hash_one_portable (l ++ r) 1 key 0 (Z.lor flags PARENT) 0 0
  = output_chaining_value (parent_output (l ++ r) key flags).
Proof.
  intros Hl. unfold hash_one_portable, output_chaining_value, parent_output, make_output.
  cbn [o_input_cv o_block o_block_len o_counter o_flags hash_one_loop].
  rewrite bool_decide_eq_true_2 by done. change BLAKE3_BLOCK_LEN with 64.
  rewrite ztake_all by lia. by rewrite !Z.lor_0_r.
Qed.

Lemma store_cv_words_length cv : zlen (store_cv_words cv) = 32.
Proof. Transparent store_cv_words. done. Opaque store_cv_words. Qed.

Lemma tree_cv_length c d : zlen (tree_cv c d) = 32.
Proof. apply store_cv_words_length. Qed.

Lemma parent_block_length c1 d1 c2 d2 : zlen (tree_cv c1 d1 ++ tree_cv c2 d2) = 64.
Proof. by rewrite zlen_app, !tree_cv_length. Qed.

(** One chunk or less. *)
Lemma compress_chunks_spec c (d : list Z) :
  0 < zlen d <= 1024 -> 0 <= c -> c + 1 < 2 ^ 64 ->
  compress_chunks_parallel d key c flags = Done [tree_cv c d].
Proof.
  intros Hd Hc0 Hc1. unfold compress_chunks_parallel, tree_cv. rewrite tree_chunk by lia.
  destruct (Z.eq_dec (zlen d) 1024) as [Heq|Hne].
  - assert (collect_chunks (length d) d [] = Done ([d], [])) as ->.
    { destruct (length d) as [|n] eqn:Hn; [unfold zlen in Heq; lia|].
      cbn [collect_chunks]. change BLAKE3_CHUNK_LEN with 1024.
      destruct (Z.leb_spec 1024 (zlen d)); [|lia].
      rewrite ztake_all, zdrop_all by lia. by destruct n. }
    cbn [mbind outcome_bind obind blake3_hash_many]. rewrite hash_one_chunk by done. done.
  - assert (collect_chunks (length d) d [] = Done ([], d)) as ->.
    { destruct (length d); cbn [collect_chunks]; change BLAKE3_CHUNK_LEN with 1024;
        (destruct (Z.leb_spec 1024 (zlen d)); [lia|done]). }
    cbn [mbind outcome_bind obind blake3_hash_many]. zcase.
    rewrite (@zlen_nil (list Z)), Z.add_0_r, wrap_small by (unfold fits; lia).
    unfold chunk_state_init.
    cbn [cs_buf_len cs_buf cs_cv cs_chunk_counter cs_blocks_compressed cs_flags].
    destruct (chunk_update_holds key flags c (mk_chunk key c zero_block 0 0 flags) [] d) as (cs & -> & Hh).
    + apply (chunk_init_at key flags c).
    + rewrite (@zlen_nil Z). lia.
    + cbn [mbind outcome_bind obind app]. by rewrite (chunk_output_holds key flags c cs d Hh).
Qed.

Definition children (c : Z) (d : list Z) : list (list Z) :=
  if zlen d <=? 1024 then [tree_cv c d]
  else
    let l := left_subtree_len (zlen d) in
    [tree_cv c (ztake l d); tree_cv (c + l / 1024) (zdrop l d)].

(** The parents of two pairs, or of a pair followed by a single value. *)
Lemma compress_parents_four (a b c d : list Z) :
  zlen (a ++ b) = 64 -> zlen (c ++ d) = 64 ->
  compress_parents_parallel [a; b; c; d] key flags
  = Done [output_chaining_value (parent_output (a ++ b) key flags);
          output_chaining_value (parent_output (c ++ d) key flags)].
Proof.
  intros H1 H2. unfold compress_parents_parallel.
  change (collect_parents [a; b; c; d] []) with (Done ([a ++ b; c ++ d], @nil (list Z))).
  cbn [mbind outcome_bind obind blake3_hash_many app].
  by rewrite !hash_parent.
Qed.

Lemma compress_parents_three (a b c : list Z) :
  zlen (a ++ b) = 64 ->
  compress_parents_parallel [a; b; c] key flags
  = Done [output_chaining_value (parent_output (a ++ b) key flags); c].
Proof.
  intros H1. unfold compress_parents_parallel.
  change (collect_parents [a; b; c] []) with (Done ([a ++ b], [c])).
  cbn [mbind outcome_bind obind blake3_hash_many app].
  by rewrite !hash_parent.
Qed.

Lemma children_one c (d : list Z) : zlen d <= 1024 -> children c d = [tree_cv c d].
Proof. intros Hd. unfold children. by rewrite (proj2 (Z.leb_le _ _) Hd). Qed.

(** A subtree of more than one chunk is the parent of its children. *)
Lemma children_two c (d : list Z) :
  1024 < zlen d < 2 ^ 64 ->
  exists l r, children c d = [l; r] /\ zlen (l ++ r) = 64
    /\ output_chaining_value (parent_output (l ++ r) key flags) = tree_cv c d.
Proof.
  intros Hd. unfold children. rewrite (proj2 (Z.leb_gt _ _)) by lia.
  eexists _, _. split; [reflexivity|]. split; [apply parent_block_length|].
  unfold tree_cv at 3. by rewrite tree_parent.
Qed.

(** The routine returns the chaining value of a chunk, or of both subtrees. *)
Lemma compress_subtree_wide_spec fuel c (d : list Z) :
  (length d <= fuel)%nat -> 0 < zlen d < 2 ^ 63 -> 0 <= c -> c + zlen d < 2 ^ 63 ->
  blake3_compress_subtree_wide fuel d key c flags = Done (children c d).
Proof.
  revert c d. induction fuel as [|fuel IH]; intros c d Hf Hd Hc Hcd;
    cbn [blake3_compress_subtree_wide]; change (u64 (blake3_simd_degree * BLAKE3_CHUNK_LEN)) with 1024;
    unfold children at 1; (destruct (Z.leb_spec (zlen d) 1024); [apply compress_chunks_spec; lia|]);
    [unfold zlen in *; lia|].
  destruct (left_len_bounds d ltac:(lia)) as (Hl & Ht & Hr & Hlm).
  pose proof (left_subtree_len_spec (zlen d) ltac:(lia)) as (k & Hk & Hlk & Hkb).
  set (l := left_subtree_len (zlen d)) in *. change BLAKE3_CHUNK_LEN with 1024.
  assert (0 <= l / 1024 <= zlen d) as Hq by div_lia.
  rewrite (wrap_small 64 (c + _)) by (unfold fits; lia).
  assert (c + l / 1024 + (zlen d - l) < 2 ^ 63) as Hcr by div_lia.
  rewrite !IH by (unfold zlen in *; lia). rewrite outcome_bind_done.
  destruct (Z.leb_spec l 1024) as [Hl1|Hl2].
  - (* one chunk on each side *)
    assert (l = 1024) as Hl' by lia.
    assert (2 ^ (k + 1) = 2 * 2 ^ k) as Hp by (rewrite Z.pow_add_r by lia; lia).
    rewrite (proj2 (Z.ltb_ge 1024 l)) by lia. cbn [andb].
    rewrite (children_one c (ztake l d)), (children_one (c + _) (zdrop l d)) by lia.
    reflexivity.
  - rewrite (proj2 (Z.ltb_lt 1024 l)) by lia. change (blake3_simd_degree =? 1) with true.
    cbn [andb].
    destruct (children_two c (ztake l d) ltac:(lia)) as (ll & lr & Hll & Hlen1 & Hleft).
    rewrite Hll. destruct (Z.le_gt_cases (zlen d - l) 1024).
    + rewrite (children_one (c + _) (zdrop l d)) by lia.
      change (compress_parents_parallel [ll; lr; tree_cv (c + l / 1024) (zdrop l d)] key flags
        = Done [tree_cv c (ztake l d); tree_cv (c + l / 1024) (zdrop l d)]).
      rewrite compress_parents_three by done. by rewrite Hleft.
    + destruct (children_two (c + l / 1024) (zdrop l d) ltac:(lia))
        as (rl & rr & Hrr & Hlen2 & Hright). rewrite Hrr.
      change (compress_parents_parallel [ll; lr; rl; rr] key flags
        = Done [tree_cv c (ztake l d); tree_cv (c + l / 1024) (zdrop l d)]).
      rewrite compress_parents_four by done. by rewrite Hleft, Hright.
Qed.

Lemma compress_subtree_to_parent_node_spec c (d : list Z) :
  1024 < zlen d < 2 ^ 63 -> 0 <= c -> c + zlen d < 2 ^ 63 ->
  compress_subtree_to_parent_node d key c flags
  = Done [tree_cv c (ztake (left_subtree_len (zlen d)) d);
          tree_cv (c + left_subtree_len (zlen d) / 1024) (zdrop (left_subtree_len (zlen d)) d)].
Proof.
  intros Hd Hc Hcd. unfold compress_subtree_to_parent_node.
  rewrite compress_subtree_wide_spec by lia. unfold children. zcase. done.
Qed.
End tree.

(** * The stack of chaining values

    The hasher keeps the chaining values of the completed subtrees, the top
    first. [stack_holds] relates the stack to the data it stands for; the
    exponents of the subtrees are the binary digits of the number of chunks once
    the stack is merged, and may repeat the last one before. *)
From Stdlib Require Import ZArith Lia.
From stdpp Require Import base list option numbers.
From S2P Require Import Prelude Blake3 Blake3Chunk.

#[local] Opaque blake3_compress_in_place store_cv_words.

(** ** Exponents *)

(** The number of chunks. *)
Fixpoint chunks_of (ks : list Z) : Z :=
  match ks with [] => 0 | k :: ks => 2 ^ k + chunks_of ks end.

(** Exponents of at least [lo] that increase strictly from the top. *)
Fixpoint strict_above (lo : Z) (ks : list Z) : Prop :=
  match ks with [] => True | k :: ks => lo <= k /\ strict_above (k + 1) ks end.

(** Like [strict_above], but the top two may be equal. *)
Definition lazy_stack (ks : list Z) : Prop :=
  match ks with [] => True | k :: ks => 0 <= k /\ strict_above k ks end.

Lemma strict_above_mono lo lo' ks : lo' <= lo -> strict_above lo ks -> strict_above lo' ks.
Proof. destruct ks; simpl; [done|]. intros ? [? ?]. split; [lia|done]. Qed.

Lemma strict_lazy ks : strict_above 0 ks -> lazy_stack ks.
Proof.
  destruct ks as [|k ks]; [done|]. intros [Hk Hs]. split; [done|].
  apply (strict_above_mono (k + 1)); [lia|done].
Qed.

(** The sum of strict exponents is a multiple of the least power. *)
Lemma strict_multiple lo ks :
  0 <= lo -> strict_above lo ks ->
  exists m, 0 <= m /\ chunks_of ks = 2 ^ lo * m /\ popcnt m = zlen ks.
Proof.
  revert lo. induction ks as [|k ks IH]; intros lo Hlo; simpl.
  - intros _. exists 0. split; [done|]. split; [lia|done].
  - intros [Hk Hs]. destruct (IH (k + 1) ltac:(lia) Hs) as (m & Hm & -> & Hp).
    exists (2 ^ (k - lo) * (1 + 2 * m)).
    pose proof (Z.pow_nonneg 2 (k - lo) ltac:(lia)).
    split; [lia|]. split.
    + replace (2 ^ k) with (2 ^ lo * 2 ^ (k - lo)) by (rewrite <-Z.pow_add_r by lia; f_equal; lia).
      rewrite Z.pow_add_r by lia.
      replace (2 ^ k) with (2 ^ lo * 2 ^ (k - lo)) by (rewrite <-Z.pow_add_r by lia; f_equal; lia).
      ring.
    + rewrite popcnt_shift by lia. rewrite Z.add_comm, popcnt_double_1 by lia.
      by rewrite zlen_cons, Hp.
Qed.

Lemma strict_popcnt ks : strict_above 0 ks -> popcnt (chunks_of ks) = zlen ks.
Proof.
  intros Hs. destruct (strict_multiple 0 ks ltac:(lia) Hs) as (m & _ & -> & Hp).
  by rewrite Z.mul_1_l.
Qed.

Lemma popcnt_succ x : 0 <= x -> popcnt (x + 1) <= popcnt x + 1.
Proof.
  destruct x as [|p|p]; [done| |lia]. intros _.
  change (Zpos p + 1) with (Zpos (p + 1)). cbn [popcnt]. rewrite Pos.add_1_r.
  induction p as [p IH|p IH|]; [|exact (Z.eq_le_incl _ _ (Z.add_comm 1 _))|done].
  change (pos_popcnt (Pos.succ p) <= 1 + pos_popcnt p + 1). lia.
Qed.

(** Two equal exponents at the top: one value too many. *)
Lemma equal_top_popcnt k ks :
  0 <= k -> strict_above (k + 1) ks ->
  popcnt (chunks_of (k :: k :: ks)) < zlen (k :: k :: ks).
Proof.
  intros Hk Hs. destruct (strict_multiple (k + 1) ks ltac:(lia) Hs) as (m & Hm & Hc & Hp).
  cbn [chunks_of]. rewrite Hc.
  replace (2 ^ k + (2 ^ k + 2 ^ (k + 1) * m)) with (2 ^ (k + 1) * (m + 1))
    by (rewrite Z.pow_add_r by lia; ring).
  rewrite popcnt_shift, !zlen_cons by lia. pose proof (popcnt_succ m Hm). lia.
Qed.

(** A sum divisible by a power has exponents of at least that power. *)
Lemma strict_aligned k lo ks :
  0 <= k -> 0 <= lo -> strict_above lo ks -> (2 ^ k | chunks_of ks) -> strict_above k ks.
Proof.
  intros Hk Hlo. destruct ks as [|j ks]; [done|]. intros [Hj Hs] Hd. split; [|done].
  destruct (Z.le_gt_cases k j) as [|Hlt]; [done|]. exfalso.
  destruct (strict_multiple (j + 1) ks ltac:(lia) Hs) as (m & Hm & Hc & _).
  assert (2 ^ (j + 1) | 2 ^ j * (1 + 2 * m)) as [q Hq].
  { apply (Z.divide_trans _ (2 ^ k)).
    - exists (2 ^ (k - (j + 1))). rewrite <-Z.pow_add_r by lia. f_equal. lia.
    - replace (2 ^ j * (1 + 2 * m)) with (chunks_of (j :: ks)); [done|].
      cbn [chunks_of]. rewrite Hc, Z.pow_add_r by lia. ring. }
  rewrite Z.pow_add_r in Hq by lia. pose proof (Z.pow_pos_nonneg 2 j ltac:(lia) ltac:(lia)).
  assert (1 + 2 * m = q * 2); [|lia].
  apply (Z.mul_reg_l _ _ (2 ^ j)); lia.
Qed.

Lemma chunks_of_nonneg ks : 0 <= chunks_of ks.
Proof.
  induction ks as [|k ks IH]; simpl; [lia|]. pose proof (Z.pow_nonneg 2 k). lia.
Qed.

(** A strict stack of fewer than [2 ^ n] chunks has at most [n] entries. *)
Lemma strict_length n lo ks :
  0 <= lo <= n -> strict_above lo ks -> chunks_of ks < 2 ^ n -> lo + zlen ks <= n.
Proof.
  revert lo. induction ks as [|k ks IH]; intros lo Hlo; simpl; [rewrite (@zlen_nil Z); lia|].
  intros [Hk Hs] Hc. rewrite zlen_cons. pose proof (chunks_of_nonneg ks).
  assert (k < n) by (apply (Z.pow_lt_mono_r_iff 2); lia).
  pose proof (Z.pow_nonneg 2 k). specialize (IH (k + 1) ltac:(lia) Hs ltac:(lia)). lia.
Qed.

(** ** The stack *)

Section stack.
Variables (key : list Z) (flags : Z).

(** Each value is that of a full subtree over the data that follows the data of
    the values below it. *)
Inductive stack_holds : list (list Z) -> list Z -> list Z -> Prop :=
| stack_empty : stack_holds [] [] []
| stack_value cv st k ks d seg :
    0 <= k -> zlen seg = 2 ^ k * 1024 -> cv = tree_cv key flags (zlen d / 1024) seg ->
    stack_holds st ks d -> stack_holds (cv :: st) (k :: ks) (d ++ seg).

Lemma stack_length st ks d : stack_holds st ks d -> length st = length ks.
Proof. induction 1; simpl; congruence. Qed.

Lemma stack_zlen st ks d : stack_holds st ks d -> zlen st = zlen ks.
Proof. intros H. unfold zlen. by rewrite (stack_length _ _ _ H). Qed.

Lemma stack_data st ks d : stack_holds st ks d -> zlen d = chunks_of ks * 1024.
Proof.
  induction 1 as [|cv st k ks d seg Hk Hlen _ _ IH]; [done|].
  rewrite zlen_app. cbn [chunks_of]. lia.
Qed.

Lemma stack_chunks st ks d : stack_holds st ks d -> zlen d / 1024 = chunks_of ks.
Proof. intros H. rewrite (stack_data _ _ _ H). by apply Z.div_mul. Qed.

(** Joining the two values at the top. *)
Lemma stack_join t s st k ks d :
  stack_holds (t :: s :: st) (k :: k :: ks) d -> zlen d < 2 ^ 63 ->
  stack_holds (output_chaining_value (parent_output (s ++ t) key flags) :: st)
    (k + 1 :: ks) d.
Proof.
  intros Ht Hd. inversion Ht as [|t' st' k' ks' d1 seg1 Hk Hl1 Hcv1 Hs]; subst; clear Ht.
  inversion Hs as [|s' st' k' ks' d2 seg2 _ Hl2 Hcv2 Hrest]; subst; clear Hs.
  rewrite !zlen_app in Hd. pose proof (zlen_nonneg d2).
  rewrite <-app_assoc.
  assert (2 ^ (k + 1) = 2 * 2 ^ k) as Hp by (rewrite Z.pow_add_r by lia; lia).
  pose proof (Z.pow_pos_nonneg 2 k ltac:(lia) Hk).
  constructor; [lia|rewrite zlen_app; lia| |done].
  unfold tree_cv at 3. rewrite (tree_join key flags k) by lia.
  rewrite zlen_app, Hl2, Z.div_add by lia. reflexivity.
Qed.

(** The loop leaves exactly one value for each binary digit. *)
Lemma merge_loop_spec fuel st ks d :
  (length st <= fuel)%nat -> stack_holds st ks d -> lazy_stack ks -> zlen d < 2 ^ 63 ->
  exists st' ks', merge_loop fuel key flags (popcnt (chunks_of ks)) st = Done st'
    /\ stack_holds st' ks' d /\ strict_above 0 ks' /\ chunks_of ks' = chunks_of ks.
Proof.
  revert st ks. induction fuel as [|fuel IH]; intros st ks Hf Hst Hlazy Hd.
  - destruct st; [|simpl in Hf; lia]. inversion Hst; subst. exists [], [].
    split; [done|]. split; [constructor|done].
  - destruct ks as [|k [|j ks]].
    + inversion Hst; subst. exists [], []. split; [done|]. split; [constructor|done].
    + exists st, [k]. destruct Hlazy as [Hk _].
      assert (strict_above 0 [k]) as Hs by (split; [lia|done]).
      rewrite (strict_popcnt _ Hs). cbn [merge_loop].
      rewrite (stack_zlen _ _ _ Hst), Z.ltb_irrefl. done.
    + destruct Hlazy as [Hk [Hkj Hs]].
      destruct (Z.eq_dec k j) as [<-|Hne].
      * pose proof (equal_top_popcnt k ks Hk Hs) as Hmore.
        pose proof (stack_zlen _ _ _ Hst) as Hzl.
        destruct st as [|t [|s st]]; [by inversion Hst|inversion Hst as [|????? ???? Hx]; inversion Hx|].
        cbn [merge_loop]. rewrite (proj2 (Z.ltb_lt _ _)) by lia.
        assert (chunks_of (k :: k :: ks) = chunks_of (k + 1 :: ks)) as Heq
          by (cbn [chunks_of]; rewrite Z.pow_add_r by lia; lia).
        rewrite Heq. apply IH; [simpl in *; lia| |split; [lia|done]|done].
        by apply stack_join.
      * exists st, (k :: j :: ks).
        assert (strict_above 0 (k :: j :: ks)) as Hs' by (split; [lia|split; [lia|done]]).
        rewrite (strict_popcnt _ Hs'). cbn [merge_loop].
        rewrite (stack_zlen _ _ _ Hst), Z.ltb_irrefl. done.
Qed.

(** Finalizing from the top: the output over the data of the whole stack
    followed by [suf]. *)
Lemma finalize_fold_spec st ks d lo suf :
  stack_holds st ks d -> 0 <= lo -> strict_above lo ks -> 0 < zlen suf <= 2 ^ lo * 1024 ->
  zlen d + zlen suf < 2 ^ 63 ->
  finalize_fold key flags (tree_output key flags (chunks_of ks) suf) st
  = tree_output key flags 0 (d ++ suf).
Proof.
  intros Hst. revert lo suf.
  induction Hst as [|cv st k ks d seg Hk Hlen -> Hst IH]; intros lo suf Hlo Hs Hsuf Hd; [done|].
  destruct Hs as [Hlk Hs]. rewrite zlen_app in Hd. pose proof (zlen_nonneg d).
  assert (2 ^ lo <= 2 ^ k) by (apply Z.pow_le_mono_r; lia).
  assert (2 ^ (k + 1) = 2 * 2 ^ k) as Hp by (rewrite Z.pow_add_r by lia; lia).
  unfold finalize_fold. cbn [foldl chunks_of].
  fold (tree_cv key flags (2 ^ k + chunks_of ks) suf).
  rewrite (Z.add_comm (2 ^ k)), (stack_chunks _ _ _ Hst).
  rewrite <-(tree_join key flags k) by lia. rewrite <-app_assoc.
  apply (IH (k + 1)); [lia|done|rewrite zlen_app; lia..].
Qed.
End stack.
