(* ===== verification/Blake3Hasher.v ===== *)
(** * The BLAKE3 hasher

    Pushing, subtree selection, updating and finalizing keep the invariant
    [hasher_holds]: the state of a hasher that was given the bytes [d]. *)
From Stdlib Require Import ZArith Lia.
From stdpp Require Import base list option numbers.
From S2P Require Import Prelude Blake3 Blake3Chunk Blake3Tree.

#[local] Opaque blake3_compress_in_place store_cv_words.

(** ** Choosing the size of a subtree *)

Lemma land_ones_mod a k : 0 <= k -> Z.land (2 ^ k - 1) a = a mod 2 ^ k.
Proof.
  intros Hk. rewrite <-Z.land_ones, Z.ones_equiv, Z.land_comm by done. by rewrite Z.sub_1_r.
Qed.

(** The loop stops at a power of two of chunks that divides the chunks so far. *)
Lemma shrink_subtree_spec j c fuel :
  0 <= j -> j < 54 -> (Z.to_nat j <= fuel)%nat ->
  exists i, 0 <= i <= j /\ shrink_subtree fuel (2 ^ j * 1024) (c * 1024) = Done (2 ^ i * 1024)
    /\ (2 ^ i | c).
Proof.
  intros Hj. revert fuel.
  pattern j. revert j Hj. apply natlike_ind; cbv beta.
  - intros fuel _ _. exists 0. split; [done|]. split; [|apply Z.divide_1_l].
    destruct fuel; cbn [shrink_subtree]; change (u64 (2 ^ 0 * 1024 - 1)) with (2 ^ 10 - 1);
      rewrite land_ones_mod by done; change (2 ^ 10) with 1024; by rewrite Z.mod_mul.
  - intros j Hj IH fuel Hlt Hf. destruct fuel as [|fuel]; [lia|]. cbn [shrink_subtree].
    assert (2 ^ Z.succ j * 1024 = 2 ^ (j + 11)) as Hp.
    { rewrite <-Z.add_1_r. change 1024 with (2 ^ 10). rewrite <-Z.pow_add_r by lia. f_equal. lia. }
    assert (2 ^ (j + 11) <= 2 ^ 64) by (apply Z.pow_le_mono_r; lia).
    pose proof (Z.pow_pos_nonneg 2 (j + 11) ltac:(lia) ltac:(lia)).
    rewrite wrap_small by (unfold fits; lia). rewrite Hp, land_ones_mod, <-Hp by lia.
    pose proof (Z.pow_pos_nonneg 2 (Z.succ j) ltac:(lia) ltac:(lia)).
    rewrite Z.mul_mod_distr_r by lia.
    destruct (Z.eqb_spec (c mod 2 ^ Z.succ j * 1024) 0) as [Hz|Hz].
    + exists (Z.succ j). split; [lia|]. split; [done|]. apply Z.mod_divide; lia.
    + destruct (IH fuel ltac:(lia) ltac:(lia)) as (i & Hi & Hs & Hd).
      exists i. split; [lia|]. split; [|done]. rewrite <-Hs. f_equal.
      rewrite Z.pow_succ_r by lia. symmetry. apply Z.div_unique with 0; lia.
Qed.

Section hasher.
Variables (key : list Z) (flags : Z).
Let TCV := tree_cv key flags.

(** ** Pushing a value *)

Lemma merge_cv_stack_spec cs st ks d :
  stack_holds key flags st ks d -> lazy_stack ks -> zlen d < 2 ^ 63 -> cs_flags cs = flags ->
  exists st' ks', hasher_merge_cv_stack (mk_hasher key cs st) (chunks_of ks)
      = Done (mk_hasher key cs st')
    /\ stack_holds key flags st' ks' d /\ strict_above 0 ks' /\ chunks_of ks' = chunks_of ks.
Proof.
  intros Hst Hlazy Hd Hfl. unfold hasher_merge_cv_stack. cbn [h_cv_stack h_key h_chunk].
  rewrite Hfl. destruct (merge_loop_spec key flags (length st) st ks d) as (st' & ks' & -> & H);
    [lia|done..|]. exists st', ks'. split; [reflexivity|exact H].
Qed.

(** Pushing the value of an aligned subtree leaves the top entry possibly equal
    to the next. *)
Lemma push_cv_spec cs st ks d k seg :
  stack_holds key flags st ks d -> lazy_stack ks -> cs_flags cs = flags ->
  0 <= k -> (2 ^ k | chunks_of ks) -> zlen seg = 2 ^ k * 1024 -> zlen d + zlen seg < 2 ^ 63 ->
  exists st' ks', hasher_push_cv (mk_hasher key cs st) (TCV (chunks_of ks) seg) (chunks_of ks)
      = Done (mk_hasher key cs st')
    /\ stack_holds key flags st' (k :: ks') (d ++ seg) /\ strict_above k ks'
    /\ chunks_of ks' = chunks_of ks.
Proof.
  intros Hst Hlazy Hfl Hk Hdiv Hseg Hd. pose proof (zlen_nonneg seg).
  destruct (merge_cv_stack_spec cs st ks d) as (st1 & ks1 & Hm & Hst1 & Hs & Hc); [done..|lia|done|].
  unfold hasher_push_cv. rewrite Hm, outcome_bind_done. cbn [h_cv_stack h_key h_chunk].
  pose proof (stack_data _ _ _ _ _ Hst1) as Hlen.
  pose proof (strict_length 54 0 ks1 ltac:(lia) Hs ltac:(lia)).
  rewrite (stack_zlen _ _ _ _ _ Hst1), (proj2 (Z.ltb_lt _ _)) by (unfold BLAKE3_MAX_DEPTH; lia).
  exists (TCV (chunks_of ks) seg :: st1), ks1. split; [reflexivity|]. split; [|split; [|done]].
  - constructor; [done|done| |done].
    rewrite (stack_chunks _ _ _ _ _ Hst1), Hc. reflexivity.
  - rewrite <-Hc in Hdiv. by apply (strict_aligned k 0).
Qed.

(** ** The invariant *)

(** Between chunks: the chunk state is empty. *)
Definition empty_chunk (counter : Z) : blake3_chunk_state :=
  mk_chunk key counter zero_block 0 0 flags.

Lemma empty_chunk_holds counter : chunk_holds key flags counter (empty_chunk counter) [].
Proof. apply (chunk_init_at key flags counter). Qed.

Lemma chunk_holds_empty counter cs :
  chunk_holds key flags counter cs [] -> cs = empty_chunk counter.
Proof. intros (-> & _). reflexivity. Qed.

(** The stack covers the completed subtrees [d1], the chunk state the rest [d2].
    Right after a subtree of more than a chunk, the stack is not yet merged and
    has at least two values. *)
Definition hasher_parts (h : blake3_hasher) (ks d1 d2 : list Z) : Prop :=
  h_key h = key
  /\ stack_holds key flags (h_cv_stack h) ks d1 /\ lazy_stack ks
  /\ chunk_holds key flags (chunks_of ks) (h_chunk h) d2 /\ zlen d2 <= 1024
  /\ zlen d1 + zlen d2 < 2 ^ 63
  /\ (if 0 <? zlen d2 then strict_above 0 ks else ks = [] \/ 2 <= zlen ks).

Definition hasher_holds (h : blake3_hasher) (d : list Z) : Prop :=
  exists ks d1 d2, d = d1 ++ d2 /\ hasher_parts h ks d1 d2.

Lemma init_holds : hasher_holds (hasher_init_base key flags) [].
Proof.
  exists [], [], []. split; [done|]. split_and!; [done|constructor|done| |done|done|by left].
  apply empty_chunk_holds.
Qed.

Lemma chunk_holds_flags c cs d : chunk_holds key flags c cs d -> cs_flags cs = flags.
Proof. by intros (-> & _). Qed.

Lemma chunk_holds_counter c cs d : chunk_holds key flags c cs d -> cs_chunk_counter cs = c.
Proof. by intros (-> & _). Qed.

(** ** Finalizing *)

Lemma finalize_holds h d seek out_len :
  hasher_holds h d ->
  blake3_hasher_finalize_seek h seek out_len
  = Done (output_root_bytes (tree_output key flags 0 d) seek out_len).
Proof.
  intros (ks & d1 & d2 & -> & Hkey & Hst & Hlazy & Hcs & Hd2 & Hlen & Hlast).
  unfold blake3_hasher_finalize_seek.
  destruct (Z.eqb_spec out_len 0) as [->|Hne]; [reflexivity|].
  rewrite (chunk_output_holds _ _ _ _ _ Hcs), (chunk_len_holds _ _ _ _ _ Hcs), Hkey. clear Hkey.
  rewrite (chunk_holds_flags _ _ _ Hcs).
  rewrite <-(tree_chunk key flags (chunks_of ks) d2) by done.
  rewrite (stack_zlen _ _ _ _ _ Hst).
  destruct ks as [|k ks].
  { inversion Hst; subst. reflexivity. }
  rewrite (proj2 (Z.eqb_neq (zlen (k :: ks)) 0)) by (rewrite zlen_cons; pose proof (zlen_nonneg ks); lia).
  destruct (Z.ltb_spec 0 (zlen d2)) as [Hpos|Hz].
  - rewrite outcome_bind_done. do 2 f_equal.
    apply (finalize_fold_spec key flags _ _ _ 0); [done|lia|done|lia|lia].
  - destruct Hlast as [|Hl]; [done|]. destruct ks as [|j ks].
    { rewrite zlen_cons, (@zlen_nil Z) in Hl. lia. }
    assert (d2 = []) as -> by (apply zlen_zero; pose proof (zlen_nonneg d2); lia).
    rewrite app_nil_r. rewrite (@zlen_nil Z), Z.add_0_r in Hlen.
    revert Hst. generalize (h_cv_stack h). intros stack Hst.
    inversion Hst as [|t st1 k' ks' dd1 seg1 Hk Hl1 Hcv1 Hst1]; subst; clear Hst.
    inversion Hst1 as [|s st2 k' ks' dd2 seg2 Hj Hl2 Hcv2 Hst2]; subst; clear Hst1.
    rewrite outcome_bind_done. do 2 f_equal.
    destruct Hlazy as [_ [Hkj Hs]]. rewrite !zlen_app in Hlen. pose proof (zlen_nonneg dd2).
    assert (2 ^ k <= 2 ^ j) by (apply Z.pow_le_mono_r; lia).
    assert (2 ^ (j + 1) = 2 * 2 ^ j) as Hp by (rewrite Z.pow_add_r by lia; lia).
    pose proof (Z.pow_pos_nonneg 2 k ltac:(lia) Hk).
    rewrite zlen_app, Hl2, Z.div_add, (stack_chunks _ _ _ _ _ Hst2) by lia.
    rewrite <-(tree_join key flags j) by lia. rewrite <-app_assoc.
    apply (finalize_fold_spec key flags _ _ _ (j + 1)); [done|lia|done|rewrite zlen_app; lia..].
Qed.

(** ** Updating *)

Lemma chunks_of_pos ks : 0 < chunks_of ks -> 1 <= zlen ks.
Proof. destruct ks; simpl; [lia|]. rewrite zlen_cons. pose proof (zlen_nonneg ks). lia. Qed.

(** A subtree of one chunk. *)
Lemma push_chunk_spec st ks d seg :
  stack_holds key flags st ks d -> lazy_stack ks -> zlen seg = 1024 -> zlen d + 1024 < 2 ^ 63 ->
  exists st' ks' cs, chunk_state_update (empty_chunk (chunks_of ks)) seg = Done cs
    /\ hasher_push_cv (mk_hasher key (empty_chunk (chunks_of ks)) st)
         (output_chaining_value (chunk_state_output cs)) (cs_chunk_counter cs)
       = Done (mk_hasher key (empty_chunk (chunks_of ks)) st')
    /\ stack_holds key flags st' ks' (d ++ seg) /\ lazy_stack ks'
    /\ chunks_of ks' = chunks_of ks + 1.
Proof.
  intros Hst Hlazy Hseg Hd.
  destruct (chunk_update_holds key flags (chunks_of ks) _ [] seg (empty_chunk_holds _))
    as (cs & Hup & Hcs); [rewrite (@zlen_nil Z); lia|]. cbn [app] in Hcs.
  destruct (push_cv_spec (empty_chunk (chunks_of ks)) st ks d 0 seg)
    as (st' & ks' & Hpush & Hst' & Hs & Hc);
    [done|done|done|lia|apply Z.divide_1_l|lia|lia|].
  exists st', (0 :: ks'), cs. split; [exact Hup|].
  rewrite (chunk_output_holds _ _ _ _ _ Hcs), (chunk_holds_counter _ _ _ Hcs).
  rewrite <-(tree_chunk key flags (chunks_of ks) seg) by lia.
  split; [exact Hpush|]. split; [done|]. split; [done|]. cbn [chunks_of]. rewrite Hc. lia.
Qed.

(** A subtree of two or more chunks: its two halves. *)
Lemma push_pair_spec st ks d i seg :
  stack_holds key flags st ks d -> lazy_stack ks -> 1 <= i -> (2 ^ i | chunks_of ks) ->
  zlen seg = 2 ^ i * 1024 -> zlen d + zlen seg < 2 ^ 63 ->
  exists st' ks' cv_pair,
    compress_subtree_to_parent_node seg key (chunks_of ks) flags = Done cv_pair
    /\ (self ← hasher_push_cv (mk_hasher key (empty_chunk (chunks_of ks)) st)
                 (nth 0 cv_pair []) (chunks_of ks);
        hasher_push_cv self (nth 1 cv_pair []) (u64 (chunks_of ks + 2 ^ i / 2)))
       = Done (mk_hasher key (empty_chunk (chunks_of ks)) st')
    /\ stack_holds key flags st' ks' (d ++ seg) /\ lazy_stack ks'
    /\ chunks_of ks' = chunks_of ks + 2 ^ i /\ 2 <= zlen ks'.
Proof.
  intros Hst Hlazy Hi Hdiv Hseg Hd.
  pose proof (Z.pow_pos_nonneg 2 (i - 1) ltac:(lia) ltac:(lia)) as Hpos.
  assert (2 ^ i = 2 * 2 ^ (i - 1)) as Hp
    by (rewrite <-Z.pow_succ_r by lia; f_equal; lia).
  pose proof (stack_data _ _ _ _ _ Hst) as Hdl. pose proof (chunks_of_nonneg ks).
  rewrite compress_subtree_to_parent_node_spec by lia.
  rewrite (left_subtree_len_unique (zlen seg) (i - 1)) by (rewrite ?Z.sub_add; lia).
  set (l := 2 ^ (i - 1) * 1024) in *.
  assert (zlen (ztake l seg) = l) as Hl1 by (rewrite zlen_ztake; lia).
  assert (zlen (zdrop l seg) = l) as Hl2 by (rewrite zlen_zdrop; lia).
  destruct (push_cv_spec (empty_chunk (chunks_of ks)) st ks d (i - 1) (ztake l seg))
    as (st1 & ks1 & Hpush1 & Hst1 & Hs1 & Hc1); [done|done|done|lia| |done|lia|].
  { apply (Z.divide_trans _ (2 ^ i)); [|done]. exists 2. lia. }
  assert (chunks_of (i - 1 :: ks1) = chunks_of ks + l / 1024) as Hc1'.
  { cbn [chunks_of]. unfold l. rewrite Z.div_mul by lia. lia. }
  assert (l / 1024 = 2 ^ (i - 1)) as Hq by (unfold l; by apply Z.div_mul).
  destruct (push_cv_spec (empty_chunk (chunks_of ks)) st1 (i - 1 :: ks1) (d ++ ztake l seg)
              (i - 1) (zdrop l seg))
    as (st2 & ks2 & Hpush2 & Hst2 & Hs2 & Hc2); [done|split; [lia|done]|done|lia| |done| |].
  { rewrite Hc1', Hq. apply Z.divide_add_r; [|apply Z.divide_refl].
    apply (Z.divide_trans _ (2 ^ i)); [|done]. exists 2. lia. }
  { rewrite zlen_app. lia. }
  exists st2, (i - 1 :: ks2), [TCV (chunks_of ks) (ztake l seg); TCV (chunks_of ks + l / 1024) (zdrop l seg)].
  split; [reflexivity|]. split.
  - cbn [nth]. rewrite Hpush1, outcome_bind_done.
    assert (2 ^ i / 2 = l / 1024) as ->.
    { rewrite Hq, Hp, Z.mul_comm. by apply Z.div_mul. }
    rewrite wrap_small by (unfold fits; lia). rewrite <-Hc1'. exact Hpush2.
  - rewrite <-app_assoc, ztake_zdrop in Hst2. split; [exact Hst2|].
    split; [split; [lia|exact Hs2]|]. cbn [chunks_of]. rewrite Hc2, Hc1'. split; [lia|].
    rewrite zlen_cons. pose proof (chunks_of_pos ks2). lia.
Qed.

(** One round of the loop. *)
Lemma subtree_spec st ks d x :
  stack_holds key flags st ks d -> lazy_stack ks -> 1024 < zlen x -> zlen d + zlen x < 2 ^ 63 ->
  exists st' ks' a b,
    hasher_subtree (mk_hasher key (empty_chunk (chunks_of ks)) st) x
      = Done (mk_hasher key (empty_chunk (chunks_of ks')) st', b)
    /\ x = a ++ b /\ 0 < zlen a
    /\ stack_holds key flags st' ks' (d ++ a) /\ lazy_stack ks' /\ (b = [] -> 2 <= zlen ks').
Proof.
  intros Hst Hlazy Hx Hd. pose proof (stack_data _ _ _ _ _ Hst) as Hdl.
  pose proof (chunks_of_nonneg ks). unfold hasher_subtree. cbn [h_chunk h_key].
  change (cs_chunk_counter (empty_chunk (chunks_of ks))) with (chunks_of ks).
  change (cs_flags (empty_chunk (chunks_of ks))) with flags. change BLAKE3_CHUNK_LEN with 1024.
  rewrite round_down_spec, (wrap_small 64 (chunks_of ks * 1024)) by (unfold fits; lia).
  pose proof (Z.log2_spec (zlen x) ltac:(lia)) as Hlog.
  assert (10 <= Z.log2 (zlen x) < 63) as Hlb.
  { split; [apply Z.log2_le_pow2; lia|apply Z.log2_lt_pow2; lia]. }
  assert (2 ^ Z.log2 (zlen x) = 2 ^ (Z.log2 (zlen x) - 10) * 1024) as Hlp.
  { change 1024 with (2 ^ 10). rewrite <-Z.pow_add_r by lia. f_equal. lia. }
  rewrite Hlp. rewrite Hlp in Hlog.
  destruct (shrink_subtree_spec (Z.log2 (zlen x) - 10) (chunks_of ks) 64)
    as (i & Hi & -> & Hdiv); [lia..|]. rewrite outcome_bind_done.
  assert (2 ^ i <= 2 ^ (Z.log2 (zlen x) - 10)) as Hle by (apply Z.pow_le_mono_r; lia).
  pose proof (Z.pow_pos_nonneg 2 i ltac:(lia) ltac:(lia)).
  rewrite Z.div_mul by lia.
  assert (zlen (ztake (2 ^ i * 1024) x) = 2 ^ i * 1024) as Hseg by (rewrite zlen_ztake; lia).
  assert (zlen (zdrop (2 ^ i * 1024) x) = zlen x - 2 ^ i * 1024) as Hrest
    by (rewrite zlen_zdrop; lia).
  set (seg := ztake (2 ^ i * 1024) x) in *. set (b := zdrop (2 ^ i * 1024) x) in *.
  assert (x = seg ++ b) as Hsplit by (symmetry; apply ztake_zdrop).
  destruct (Z.leb_spec (2 ^ i * 1024) 1024) as [H1|H1].
  - assert (2 ^ i = 1) as H1' by lia.
    destruct (push_chunk_spec st ks d seg) as (st' & ks' & cs & Hup & Hpush & Hst' & Hl' & Hc');
      [done|done|lia|lia|].
    exists st', ks', seg, b. unfold chunk_state_init.
    cbn [cs_cv cs_buf cs_buf_len cs_blocks_compressed cs_flags].
    fold (empty_chunk (chunks_of ks)). rewrite Hup, outcome_bind_done, Hpush, outcome_bind_done.
    unfold set_counter, set_chunk, empty_chunk.
    cbn [h_chunk h_key h_cv_stack cs_cv cs_buf cs_buf_len cs_blocks_compressed cs_flags].
    rewrite wrap_small, H1', <-Hc' by (unfold fits; lia).
    split; [reflexivity|]. split; [done|]. split; [lia|]. split; [done|]. split; [done|].
    intros Hb. rewrite Hb, (@zlen_nil Z) in Hrest. lia.
  - assert (1 <= i).
    { destruct (Z.le_gt_cases 1 i); [done|]. assert (i = 0) by lia. subst i. lia. }
    destruct (push_pair_spec st ks d i seg)
      as (st' & ks' & cvs & Hcomp & Hpush & Hst' & Hl' & Hc' & Hlen'); [done|done|lia|done|lia|lia|].
    exists st', ks', seg, b. rewrite Hcomp, outcome_bind_done, Hpush, outcome_bind_done.
    unfold set_counter, set_chunk, empty_chunk.
    cbn [h_chunk h_key h_cv_stack cs_cv cs_buf cs_buf_len cs_blocks_compressed cs_flags].
    rewrite wrap_small, <-Hc' by (unfold fits; lia).
    split; [reflexivity|]. split; [done|]. split; [lia|]. done.
Qed.

(** The loop takes whole subtrees and leaves at most one chunk. *)
Lemma subtrees_spec fuel st ks d x :
  stack_holds key flags st ks d -> lazy_stack ks -> (length x <= fuel)%nat ->
  zlen d + zlen x < 2 ^ 63 -> (x = [] -> 2 <= zlen ks) ->
  exists st' ks' a b,
    hasher_subtrees fuel (mk_hasher key (empty_chunk (chunks_of ks)) st) x
      = Done (mk_hasher key (empty_chunk (chunks_of ks')) st', b)
    /\ x = a ++ b /\ zlen b <= 1024
    /\ stack_holds key flags st' ks' (d ++ a) /\ lazy_stack ks' /\ (b = [] -> 2 <= zlen ks').
Proof.
  revert st ks d x. induction fuel as [|fuel IH]; intros st ks d x Hst Hlazy Hf Hd Hx;
    cbn [hasher_subtrees]; change BLAKE3_CHUNK_LEN with 1024;
    (destruct (Z.ltb_spec 1024 (zlen x));
     [|exists st, ks, [], x; rewrite app_nil_r; by split_and!]).
  - unfold zlen in *. lia.
  - destruct (subtree_spec st ks d x) as (st1 & ks1 & a1 & b1 & -> & -> & Ha1 & Hst1 & Hl1 & Hb1);
      [done..|]. rewrite outcome_bind_done. rewrite zlen_app in Hd. rewrite length_app in Hf.
    destruct (IH st1 ks1 (d ++ a1) b1) as (st2 & ks2 & a2 & b2 & -> & -> & Hb2 & Hst2 & Hl2 & Hlast);
      [done|done|unfold zlen in *; lia|rewrite zlen_app; lia|done|].
    exists st2, ks2, (a1 ++ a2), b2. rewrite <-app_assoc in Hst2. rewrite <-app_assoc.
    by split_and!.
Qed.

(** After the current chunk is completed, the chunk state is empty. *)
Lemma finish_chunk_spec h ks d1 d2 x :
  hasher_parts h ks d1 d2 -> 0 < zlen x -> zlen d1 + zlen d2 + zlen x < 2 ^ 63 ->
  exists h' rest, hasher_finish_chunk h x = Done (h', rest) /\
  match rest with
  | None => hasher_parts h' ks d1 (d2 ++ x)
  | Some y => exists st' ks' a, h' = mk_hasher key (empty_chunk (chunks_of ks')) st'
      /\ x = a ++ y /\ 0 < zlen y
      /\ stack_holds key flags st' ks' (d1 ++ d2 ++ a) /\ lazy_stack ks'
  end.
Proof.
  intros (Hkey & Hst & Hlazy & Hcs & Hd2 & Hlen & Hlast) Hx Hd.
  destruct h as [k0 cs st]. cbn [h_key h_cv_stack h_chunk] in *. subst k0.
  pose proof (zlen_nonneg d1). pose proof (zlen_nonneg d2).
  unfold hasher_finish_chunk. cbn [h_chunk h_key].
  rewrite (chunk_len_holds _ _ _ _ _ Hcs). change BLAKE3_CHUNK_LEN with 1024.
  destruct (Z.ltb_spec 0 (zlen d2)) as [Hpos|Hz].
  2:{ assert (d2 = []) as -> by (apply zlen_zero; lia).
      exists (mk_hasher key cs st), (Some x). split; [reflexivity|].
      exists st, ks, []. rewrite !app_nil_r. rewrite (chunk_holds_empty _ _ Hcs). by split_and!. }
  rewrite wrap_small by (unfold fits; lia).
  set (t := if _ <? _ then _ else _).
  assert (t = Z.min (1024 - zlen d2) (zlen x)) as Ht by (unfold t; zcase). clearbody t.
  assert (zlen (ztake t x) = t) as Hlt by (rewrite zlen_ztake; lia).
  assert (zlen (zdrop t x) = zlen x - t) as Hlr by (rewrite zlen_zdrop; lia).
  destruct (chunk_update_holds key flags (chunks_of ks) cs d2 (ztake t x) Hcs)
    as (cs' & -> & Hcs'); [lia|]. rewrite outcome_bind_done. unfold set_chunk at 1 2 3 4 5. cbn [h_key h_chunk h_cv_stack].
  destruct (Z.ltb_spec 0 (zlen (zdrop t x))) as [Hmore|Hend].
  - assert (zlen (d2 ++ ztake t x) = 1024) as Hfull by (rewrite zlen_app; lia).
    rewrite (chunk_output_holds _ _ _ _ _ Hcs'), (chunk_holds_counter _ _ _ Hcs').
    rewrite <-(tree_chunk key flags (chunks_of ks) (d2 ++ ztake t x)) by lia.
    fold (tree_cv key flags (chunks_of ks) (d2 ++ ztake t x)).
    destruct (push_cv_spec cs' st ks d1 0 (d2 ++ ztake t x))
      as (st' & ks' & Hpush & Hst' & Hs & Hc);
      [done|done|exact (chunk_holds_flags _ _ _ Hcs')|lia|apply Z.divide_1_l|lia|lia|].
    unfold TCV in Hpush. rewrite Hpush, outcome_bind_done.
    eexists _, (Some (zdrop t x)). split; [reflexivity|].
    exists st', (0 :: ks'), (ztake t x).
    split; [|split; [by rewrite ztake_zdrop|split; [lia|split; [done|done]]]].
    pose proof (stack_data _ _ _ _ _ Hst). pose proof (chunks_of_nonneg ks).
    unfold set_chunk, chunk_state_reset, empty_chunk. cbn [h_key h_chunk h_cv_stack chunks_of].
    rewrite (chunk_holds_flags _ _ _ Hcs'), Hc, wrap_small, (Z.add_comm (2 ^ 0)) by (unfold fits; lia).
    reflexivity.
  - eexists _, None. split; [reflexivity|].
    rewrite ztake_all in Hcs' by lia. split_and!; [done|done|done|done|rewrite zlen_app; lia..|].
    rewrite zlen_app. rewrite (proj2 (Z.ltb_lt _ _)) by lia. done.
Qed.

Lemma update_holds h d x :
  hasher_holds h d -> zlen d + zlen x < 2 ^ 63 ->
  exists h', blake3_hasher_update h x = Done h' /\ hasher_holds h' (d ++ x).
Proof.
  intros (ks & d1 & d2 & -> & Hparts) Hd. rewrite zlen_app in Hd. pose proof (zlen_nonneg x).
  unfold blake3_hasher_update. destruct (Z.eqb_spec (zlen x) 0) as [Hz|Hnz].
  { exists h. split; [done|]. rewrite (zlen_zero x Hz), app_nil_r. by exists ks, d1, d2. }
  destruct (finish_chunk_spec h ks d1 d2 x Hparts) as (h1 & [y|] & -> & Hrest); [lia|lia| |].
  2:{ rewrite outcome_bind_done. exists h1. split; [done|].
      exists ks, d1, (d2 ++ x). by rewrite app_assoc. }
  rewrite outcome_bind_done.
  destruct Hrest as (st1 & ks1 & a & -> & -> & Hy & Hst1 & Hl1).
  rewrite zlen_app in Hd.
  destruct (subtrees_spec (length y) st1 ks1 (d1 ++ d2 ++ a) y)
    as (st2 & ks2 & b & c & -> & -> & Hc & Hst2 & Hl2 & Hlast);
    [done|done|lia|rewrite !zlen_app; lia|intros ->; rewrite (@zlen_nil Z) in Hy; lia|].
  rewrite outcome_bind_done. rewrite zlen_app in Hd.
  replace ((d1 ++ d2) ++ a ++ b ++ c) with (((d1 ++ d2 ++ a) ++ b) ++ c) by (by rewrite <-!app_assoc).
  set (dd := (d1 ++ d2 ++ a) ++ b) in *.
  assert (zlen dd + zlen c < 2 ^ 63) as Hdd by (unfold dd; rewrite !zlen_app; lia).
  pose proof (zlen_nonneg c).
  destruct (Z.ltb_spec 0 (zlen c)) as [Hpos|Hz].
  - cbn [h_chunk h_key h_cv_stack].
    destruct (chunk_update_holds key flags (chunks_of ks2) _ [] c (empty_chunk_holds _))
      as (cs & -> & Hcs); [rewrite (@zlen_nil Z); lia|]. rewrite outcome_bind_done.
    cbn [app] in Hcs. unfold set_chunk. cbn [h_chunk h_key h_cv_stack].
    rewrite (chunk_holds_counter _ _ _ Hcs).
    destruct (merge_cv_stack_spec cs st2 ks2 dd) as (st3 & ks3 & -> & Hst3 & Hs3 & Hc3);
      [done|done|lia|exact (chunk_holds_flags _ _ _ Hcs)|].
    eexists. split; [reflexivity|]. exists ks3, dd, c. split; [done|].
    split_and!; [done|done|by apply strict_lazy|by rewrite Hc3|done|done|].
    by rewrite (proj2 (Z.ltb_lt _ _)).
  - assert (c = []) as -> by (apply zlen_zero; lia).
    eexists. split; [reflexivity|]. exists ks2, dd, []. split; [done|].
    split_and!; [done|done|done|apply empty_chunk_holds|done|done|]. right. by apply Hlast.
Qed.

Lemma reset_holds h d :
  hasher_holds h d -> blake3_hasher_reset h = hasher_init_base key flags.
Proof.
  intros (ks & d1 & d2 & _ & Hkey & _ & _ & Hcs & _).
  unfold blake3_hasher_reset, chunk_state_reset.
  by rewrite Hkey, (chunk_holds_flags _ _ _ Hcs).
Qed.
End hasher.
