(* ===== verification/Blake3Main.v ===== *)
(** * BLAKE3: the theorems

    The extended output as a stream of bytes, the hash of the data as a
    specification, and the properties of the compression function, the chunk
    and subtree routines and the incremental hasher. *)
From Stdlib Require Import ZArith Lia.
From stdpp Require Import base list option numbers.
From S2P Require Import Prelude Blake3 Blake3Chunk Blake3Tree Blake3Hasher.

(** ** The output stream *)

Definition root_block (o : output_t) (c : Z) : list Z :=
  blake3_compress_xof (o_input_cv o) (o_block o) (o_block_len o) c (Z.lor (o_flags o) ROOT).

(** Byte [i] of the extended output. *)
Definition root_byte (o : output_t) (i : Z) : Z :=
  nth (Z.to_nat (i mod 64)) (root_block o (i / 64)) 0.

(** The hash of [d]: [out_len] bytes of the root's stream from [seek]. *)
Definition blake3_spec (key : list Z) (flags : Z) (d : list Z) (seek out_len : Z) : list Z :=
  map (root_byte (tree_output key flags 0 d)) (seqZ seek out_len).

Lemma root_block_length o c : length (root_block o c) = 64%nat.
Proof. reflexivity. Qed.

#[local] Opaque blake3_compress_in_place blake3_compress_xof store_cv_words.

Lemma take_drop_nth (n a : nat) (l : list Z) :
  (a + n <= length l)%nat -> take n (drop a l) = map (fun i => nth i l 0) (seq a n).
Proof.
  revert a. induction n as [|n IH]; intros a H; [done|].
  destruct (drop a l) as [|x r] eqn:E.
  { apply (f_equal length) in E. rewrite length_drop in E. simpl in E. lia. }
  cbn [take seq map]. f_equal.
  - rewrite <-(Nat.add_0_r a), <-nth_skipn. change (skipn a l) with (drop a l). by rewrite E.
  - rewrite <-IH by lia. f_equal. replace (S a) with (a + 1)%nat by lia.
    rewrite <-drop_drop, E. done.
Qed.

(** Part of a block. *)
Lemma block_slice o c a n :
  0 <= a -> 0 <= n -> a + n <= 64 ->
  ztake n (zdrop a (root_block o c)) = map (root_byte o) (seqZ (64 * c + a) n).
Proof.
  intros Ha Hn Hle. unfold ztake, zdrop.
  rewrite take_drop_nth by (rewrite root_block_length; lia).
  unfold seqZ. rewrite <-(Nat.add_0_r (Z.to_nat a)).
  change fmap with (@map nat Z). rewrite map_map.
  rewrite <-fmap_add_seq. change fmap with (@map nat nat). rewrite map_map.
  apply map_ext_in. intros i Hi%in_seq. unfold root_byte.
  assert ((Z.of_nat i + (64 * c + a)) mod 64 = Z.of_nat i + a) as ->
    by (symmetry; apply Z.mod_unique with c; lia).
  assert ((Z.of_nat i + (64 * c + a)) / 64 = c) as ->
    by (symmetry; apply Z.div_unique with (Z.of_nat i + a); lia).
  f_equal. lia.
Qed.

Lemma block_whole o c : root_block o c = map (root_byte o) (seqZ (64 * c) 64).
Proof.
  rewrite <-(Z.add_0_r (64 * c)), <-block_slice by lia.
  change (zdrop 0 (root_block o c)) with (root_block o c).
  symmetry. apply ztake_all. unfold zlen. by rewrite root_block_length.
Qed.

Lemma xof_many_spec o c n :
  0 <= c -> c + Z.of_nat n < 2 ^ 64 ->
  blake3_xof_many (o_input_cv o) (o_block o) (o_block_len o) c (Z.lor (o_flags o) ROOT) n
  = map (root_byte o) (seqZ (64 * c) (64 * Z.of_nat n)).
Proof.
  revert c. induction n as [|n IH]; intros c Hc Hn; [done|]. cbn [blake3_xof_many].
  rewrite wrap_small by (unfold fits; lia). rewrite IH by lia.
  change (blake3_compress_xof_portable _ _ _ _ _) with (root_block o c).
  rewrite block_whole.
  replace (64 * Z.of_nat (S n)) with (64 + 64 * Z.of_nat n) by lia.
  rewrite seqZ_app, map_app by lia. do 2 f_equal. f_equal. lia.
Qed.

Lemma land_not_63 n : 0 <= n < 2 ^ 64 -> n - Z.land n (Z.lxor 63 (Z.ones 64)) = n mod 64.
Proof.
  intros Hn. change (Z.lxor 63 (Z.ones 64)) with (Z.shiftl (Z.ones 58) 6).
  assert (Z.land n (Z.shiftl (Z.ones 58) 6) = n / 64 * 64) as ->.
  { change 64 with (2 ^ 6). rewrite <-Z.shiftr_div_pow2, <-Z.shiftl_mul_pow2 by lia.
    apply Z.bits_inj'. intros i Hi. rewrite Z.land_spec.
    destruct (Z.lt_ge_cases i 6).
    - by rewrite !Z.shiftl_spec_low, andb_false_r by lia.
    - rewrite !Z.shiftl_spec, Z.shiftr_spec by lia. rewrite Z.sub_add.
      destruct (Z.lt_ge_cases i 64).
      + by rewrite Z.ones_spec_low, andb_true_r by lia.
      + rewrite Z.ones_spec_high, andb_false_r by lia. symmetry.
        destruct (Z.eq_dec n 0) as [->|]; [apply Z.bits_0|].
        apply Z.bits_above_log2; [lia|]. apply Z.log2_lt_pow2; [lia|].
        apply (Z.lt_le_trans _ (2 ^ 64)); [lia|]. apply Z.pow_le_mono_r; lia. }
  rewrite (Z.div_mod n 64) at 1 by lia. lia.
Qed.

(** Whole blocks from [c] and the tail. *)
Lemma root_tail o c n :
  0 <= c -> 0 <= n -> 64 * c + n <= 2 ^ 64 ->
  blake3_xof_many (o_input_cv o) (o_block o) (o_block_len o) c (Z.lor (o_flags o) ROOT)
    (Z.to_nat (n / 64))
  ++ (if n mod 64 =? 0 then [] else ztake (n mod 64) (root_block o (u64 (c + n / 64))))
  = map (root_byte o) (seqZ (64 * c) n).
Proof.
  intros Hc Hn Hle. assert (0 <= n / 64 /\ 0 <= n mod 64 < 64 /\ n = 64 * (n / 64) + n mod 64)
    as (Hq & Hr & Hn') by div_lia.
  rewrite xof_many_spec by lia. rewrite Z2Nat.id by lia.
  rewrite wrap_small by (unfold fits; lia).
  replace (seqZ (64 * c) n) with (seqZ (64 * c) (64 * (n / 64) + n mod 64)) by (f_equal; lia).
  rewrite seqZ_app, map_app by lia. f_equal.
  destruct (Z.eqb_spec (n mod 64) 0) as [->|]; [done|].
  change (root_block o (c + n / 64)) with (zdrop 0 (root_block o (c + n / 64))).
  rewrite block_slice by lia. do 2 f_equal. lia.
Qed.

Lemma output_root_bytes_stream o seek out_len :
  0 <= seek -> 0 <= out_len -> seek + out_len < 2 ^ 64 ->
  output_root_bytes o seek out_len = map (root_byte o) (seqZ seek out_len).
Proof.
  intros Hs Hn Hle. unfold output_root_bytes.
  destruct (Z.eqb_spec out_len 0) as [->|Hne]; [done|].
  change (fun c => blake3_compress_xof _ _ _ c _) with (root_block o).
  assert (0 <= seek / 64 /\ 0 <= seek mod 64 < 64 /\ seek = 64 * (seek / 64) + seek mod 64)
    as (Hq & Hr & Hs') by div_lia.
  destruct (Z.eqb_spec (seek mod 64) 0) as [Hz|Hnz].
  - rewrite land_not_63 by lia. cbn [app].
    rewrite root_tail by lia. do 2 f_equal. lia.
  - set (k := if 64 - seek mod 64 <? out_len then _ else _).
    assert (k = Z.min (64 - seek mod 64) out_len) as Hk by (unfold k; zcase). clearbody k.
    rewrite land_not_63 by lia. rewrite (wrap_small 64 (seek / 64 + 1)) by (unfold fits; lia).
    change (blake3_compress_xof _ _ _ (seek / 64) _) with (root_block o (seek / 64)).
    rewrite block_slice by lia. rewrite <-Hs'.
    replace (seqZ seek out_len) with (seqZ seek (k + (out_len - k))) by (f_equal; lia).
    rewrite seqZ_app, map_app by lia. f_equal.
    destruct (Z.eq_dec k out_len) as [->|].
    + rewrite Z.sub_diag. done.
    + rewrite root_tail by lia. do 2 f_equal. lia.
Qed.

(** ** Sequences of updates *)

(** The updates of a sequence of pieces. *)
Fixpoint update_all (h : blake3_hasher) (pieces : list (list Z)) : outcome blake3_hasher :=
  match pieces with
  | [] => Done h
  | x :: pieces => h ← blake3_hasher_update h x; update_all h pieces
  end.

Lemma update_all_holds key flags h d pieces :
  hasher_holds key flags h d -> zlen d + zlen (concat pieces) < 2 ^ 63 ->
  exists h', update_all h pieces = Done h' /\ hasher_holds key flags h' (d ++ concat pieces).
Proof.
  revert h d. induction pieces as [|x pieces IH]; intros h d Hh Hlen.
  - exists h. simpl. by rewrite app_nil_r.
  - cbn [concat] in *. rewrite zlen_app in Hlen. pose proof (zlen_nonneg (concat pieces)).
    destruct (update_holds key flags h d x Hh) as (h1 & Hup & Hh1); [lia|].
    destruct (IH h1 (d ++ x) Hh1) as (h2 & Hall & Hh2); [rewrite zlen_app; lia|].
    exists h2. rewrite app_assoc. split; [|done]. cbn [update_all].
    by rewrite Hup, outcome_bind_done.
Qed.

Lemma finalize_spec key flags h d seek out_len :
  hasher_holds key flags h d -> 0 <= seek -> 0 <= out_len -> seek + out_len < 2 ^ 64 ->
  blake3_hasher_finalize_seek h seek out_len = Done (blake3_spec key flags d seek out_len).
Proof.
  intros Hh Hs Hn Hle. rewrite (finalize_holds key flags h d) by done.
  by rewrite output_root_bytes_stream.
Qed.

(** One update and the result. *)
Lemma hash_once key flags d out_len :
  zlen d < 2 ^ 63 -> 0 <= out_len < 2 ^ 64 ->
  exists h, blake3_hasher_update (hasher_init_base key flags) d = Done h
    /\ blake3_hasher_finalize h out_len = Done (blake3_spec key flags d 0 out_len).
Proof.
  intros Hd Hn.
  destruct (update_holds key flags _ [] d (init_holds key flags)) as (h & Hup & Hh);
    [rewrite (@zlen_nil Z); lia|].
  exists h. split; [done|]. apply (finalize_spec key flags); [done|lia..].
Qed.

Lemma derive_key_spec context :
  zlen context < 2 ^ 63 ->
  blake3_hasher_init_derive_key context
  = Done (hasher_init_base (load_key_words (blake3_spec IV DERIVE_KEY_CONTEXT context 0 32))
            DERIVE_KEY_MATERIAL).
Proof.
  intros Hc. unfold blake3_hasher_init_derive_key, blake3_hasher_init_derive_key_raw.
  destruct (hash_once IV DERIVE_KEY_CONTEXT context 32) as (h & -> & Hf); [done|lia|].
  rewrite outcome_bind_done. change BLAKE3_KEY_LEN with 32. by rewrite Hf.
Qed.

(** ** Words *)

(** Rotation to the right of a 32-bit word, on its bits. *)
Lemma rotr32_bits w c i :
  fits 32 w -> 0 < c < 32 -> 0 <= i ->
  Z.testbit (rotr32 w c) i = (i <? 32) && Z.testbit w ((i + c) mod 32).
Proof.
  intros Hw Hc Hi. unfold rotr32.
  assert (forall j, 32 <= j -> Z.testbit w j = false) as Hhigh.
  { intros j Hj. rewrite <-(wrap_small 32 w Hw), wrap_testbit by lia.
    by rewrite (proj2 (Z.ltb_ge _ _)). }
  rewrite Z.lor_spec, wrap_testbit, Z.shiftr_spec, Z.shiftl_spec by lia.
  destruct (Z.ltb_spec i 32) as [Hlt|Hge].
  - cbn [andb]. destruct (Z.lt_ge_cases (i + c) 32).
    + rewrite (Z.testbit_neg_r w (i - _)), orb_false_r, Z.mod_small by lia. done.
    + rewrite Hhigh by lia. cbn [orb]. f_equal. apply Z.mod_unique with 1; lia.
  - rewrite Hhigh by lia. done.
Qed.

Lemma load32_bytes (a b c d : Z) r :
  is_byte a -> is_byte b -> is_byte c -> is_byte d ->
  load32 (a :: b :: c :: d :: r) = le_combine [a; b; c; d].
Proof.
  unfold is_byte. intros Ha Hb Hc Hd. unfold load32. cbn [nth].
  rewrite !Z.shiftl_mul_pow2 by lia. rewrite !wrap_small by (unfold fits; lia).
  rewrite (Z.mul_comm b), (Z.mul_comm c), (Z.mul_comm d).
  rewrite (lor_shifted a b 8), (lor_shifted (a + _) c 16), (lor_shifted _ d 24) by lia.
  cbn [le_combine]. lia.
Qed.

Lemma store32_split w : store32 w = le_split 4 w.
Proof.
  unfold store32, wrap. cbn [le_split].
  rewrite !Z.shiftr_div_pow2, !Z.div_div by lia. done.
Qed.

Lemma load32_store32 w r : fits 32 w -> load32 (store32 w ++ r) = w.
Proof.
  intros Hw. rewrite store32_split. cbn [le_split app].
  rewrite load32_bytes by (apply Z.mod_pos_bound; lia).
  exact (le_combine_split 4 w Hw).
Qed.

(** ** The compression function in its specification's words *)

(** The message words are permuted between the rounds, a round is a mixing of
    the columns and of the diagonals. *)
Definition MSG_PERMUTATION : list nat := [2; 6; 3; 10; 7; 0; 4; 13; 1; 11; 12; 5; 9; 14; 15; 8]%nat.

Definition permute (m : list Z) : list Z := map (fun i => nth i m 0) MSG_PERMUTATION.

Definition columns (s m : list Z) : list Z :=
  foldl (fun s i => g s i (i + 4) (i + 8) (i + 12) (nth (2 * i) m 0) (nth (2 * i + 1) m 0))
    s (seq 0 4).

Definition diagonals (s m : list Z) : list Z :=
  foldl (fun s i => g s i (4 + (i + 1) mod 4) (8 + (i + 2) mod 4) (12 + (i + 3) mod 4)
                      (nth (8 + 2 * i) m 0) (nth (9 + 2 * i) m 0))
    s (seq 0 4).

Fixpoint spec_rounds (n : nat) (s m : list Z) : list Z :=
  match n with
  | O => s
  | S n => spec_rounds n (diagonals (columns s m) m) (permute m)
  end.

Definition spec_state (cv : list Z) (t b d : Z) : list Z :=
  cv ++ take 4 IV ++ [t mod 2 ^ 32; (t / 2 ^ 32) mod 2 ^ 32; b; d].

Lemma load_words_16 block :
  exists m0 m1 m2 m3 m4 m5 m6 m7 m8 m9 m10 m11 m12 m13 m14 m15,
    load_words 16 block = [m0; m1; m2; m3; m4; m5; m6; m7; m8; m9; m10; m11; m12; m13; m14; m15].
Proof. unfold load_words. cbn [seq map]. by repeat eexists. Qed.

#[local] Opaque g.

(** The precomputed schedule is the iterated permutation. *)
Lemma rounds_spec s block :
  foldl (fun s round => round_fn s (load_words 16 block) round) s (seq 0 7)
  = spec_rounds 7 s (load_words 16 block).
Proof.
  destruct (load_words_16 block)
    as (m0 & m1 & m2 & m3 & m4 & m5 & m6 & m7 & m8 & m9 & m10 & m11 & m12 & m13 & m14 & m15 & ->).
  reflexivity.
Qed.

Lemma cv_words cv : length cv = 8%nat -> map (fun i => nth i cv 0) (seq 0 8) = cv.
Proof. intros H. do 9 (destruct cv as [|? cv]; try done). Qed.

(** The compression function is the BLAKE3 specification's: seven rounds of
    column and diagonal mixings of the state built from the chaining value, the
    IV, the two halves of the counter, the block length and the flags, with the
    message permuted between rounds (the code's table of schedules is the
    iterated permutation); the chaining value is the exclusive or of the two
    halves of the result. *)
Theorem compress_rounds_correct (cv block : list Z) (block_len counter flags : Z) :
  length cv = 8%nat ->
  let s := spec_rounds 7 (spec_state cv counter block_len flags) (load_words 16 block) in
  compress_pre cv block block_len counter flags = s
  /\ blake3_compress_in_place_portable cv block block_len counter flags
     = map (fun i => Z.lxor (nth i s 0) (nth (i + 8) s 0)) (seq 0 8).
Proof.
  intros Hcv s.
  assert (compress_pre cv block block_len counter flags = s) as Hs.
  { unfold compress_pre, s, spec_state. rewrite (cv_words cv Hcv), rounds_spec.
    unfold counter_low, counter_high, wrap. by rewrite Z.shiftr_div_pow2 by lia. }
  split; [exact Hs|]. unfold blake3_compress_in_place_portable. by rewrite Hs.
Qed.

Lemma compress_rounds_correct_witness :
  length IV = 8%nat
  /\ compress_pre IV (replicate 64 7) 64 (2 ^ 32 + 5) 3
     = spec_rounds 7 (spec_state IV (2 ^ 32 + 5) 64 3) (load_words 16 (replicate 64 7)).
Proof. split; [reflexivity|]. apply (compress_rounds_correct IV (replicate 64 7) 64 (2 ^ 32 + 5) 3). reflexivity. Defined.

(** [rotr32] rotates a 32-bit word to the right: the result is a 32-bit word
    whose bit [i] is the word's bit [(i + c) mod 32]. *)
Theorem rotr32_rotates (w c : Z) :
  fits 32 w -> 0 < c < 32 ->
  fits 32 (rotr32 w c)
  /\ forall i, 0 <= i < 32 -> Z.testbit (rotr32 w c) i = Z.testbit w ((i + c) mod 32).
Proof.
  intros Hw Hc. split.
  - assert (rotr32 w c = u32 (rotr32 w c)) as ->; [|apply wrap_fits; lia].
    apply Z.bits_inj'. intros i Hi. rewrite wrap_testbit, (rotr32_bits w c i) by (done || lia).
    by destruct (i <? 32).
  - intros i Hi. rewrite rotr32_bits by (done || lia). by rewrite (proj2 (Z.ltb_lt _ _)) by lia.
Qed.

Lemma rotr32_rotates_witness :
  fits 32 0x80000001 /\ fits 32 (rotr32 0x80000001 7).
Proof.
  split; [by vm_compute|]. apply (rotr32_rotates 0x80000001 7); [by vm_compute|lia].
Defined.

(** storing the words of a chaining value and loading them back gives the
    same words. *)
Theorem key_words_roundtrip (cv : list Z) :
  length cv = 8%nat -> Forall (fits 32) cv -> load_key_words (store_cv_words cv) = cv.
Proof.
  intros Hlen Hcv. do 9 (destruct cv as [|? cv]; try done).
  repeat match goal with
         | H : Forall _ (_ :: _) |- _ => apply Forall_cons_1 in H as [? H]
         end.
  Transparent store_cv_words.
  unfold load_key_words, load_words, store_cv_words.
  cbn [seq map flat_map nth Nat.add Nat.mul]. rewrite drop_0.
  repeat (f_equal; [apply load32_store32; assumption|]).
  f_equal. apply load32_store32; assumption.
Qed.

Lemma key_words_roundtrip_witness :
  length IV = 8%nat /\ load_key_words (store_cv_words IV) = IV.
Proof.
  split; [reflexivity|]. apply (key_words_roundtrip IV); [reflexivity|].
  repeat (apply Forall_cons_2; [by vm_compute|]). apply Forall_nil_2.
Defined.

#[local] Opaque store_cv_words.

(** ** Chunks and subtrees *)

(** The updates of a chunk state. *)
Fixpoint chunk_update_all (cs : blake3_chunk_state) (pieces : list (list Z))
    : outcome blake3_chunk_state :=
  match pieces with
  | [] => Done cs
  | x :: pieces => cs ← chunk_state_update cs x; chunk_update_all cs pieces
  end.

Lemma chunk_update_all_holds key flags counter cs d pieces :
  chunk_holds key flags counter cs d -> zlen d + zlen (concat pieces) <= 1024 ->
  exists cs', chunk_update_all cs pieces = Done cs'
    /\ chunk_holds key flags counter cs' (d ++ concat pieces).
Proof.
  revert cs d. induction pieces as [|x pieces IH]; intros cs d Hcs Hlen.
  - exists cs. simpl. by rewrite app_nil_r.
  - cbn [concat] in *. rewrite zlen_app in Hlen. pose proof (zlen_nonneg (concat pieces)).
    destruct (chunk_update_holds key flags counter cs d x Hcs) as (cs1 & Hup & Hcs1); [lia|].
    destruct (IH cs1 (d ++ x) Hcs1) as (cs2 & Hall & Hcs2); [rewrite zlen_app; lia|].
    exists cs2. rewrite app_assoc. split; [|done]. cbn [chunk_update_all].
    by rewrite Hup, outcome_bind_done.
Qed.

(** the two routes for a whole chunk agree: 1024 bytes given to a chunk state
    in any pieces have the chaining value that [blake3_hash_many] computes from
    the contiguous bytes. *)
Theorem chunk_routes_agree (key : list Z) (flags counter : Z) (pieces : list (list Z)) :
  zlen (concat pieces) = 1024 ->
  exists cs, chunk_update_all (mk_chunk key counter zero_block 0 0 flags) pieces = Done cs
    /\ blake3_hash_many [concat pieces] 16 key counter true flags CHUNK_START CHUNK_END
       = [output_chaining_value (chunk_state_output cs)].
Proof.
  intros Hlen.
  destruct (chunk_update_all_holds key flags counter _ [] pieces (empty_chunk_holds key flags counter))
    as (cs & Hall & Hcs); [rewrite (@zlen_nil Z); lia|].
  exists cs. split; [exact Hall|]. cbn [blake3_hash_many]. rewrite hash_one_chunk by done.
  by rewrite (chunk_output_holds _ _ _ _ _ Hcs).
Qed.

Lemma chunk_routes_agree_witness :
  zlen (concat [replicate 1000 1; []; replicate 24 2]) = 1024
  /\ exists cs, chunk_update_all (mk_chunk IV 3 zero_block 0 0 0) [replicate 1000 1; []; replicate 24 2]
       = Done cs.
Proof.
  split; [reflexivity|].
  destruct (chunk_routes_agree IV 0 3 [replicate 1000 1; []; replicate 24 2]) as (cs & H & _);
    [reflexivity|]. exact (ex_intro _ cs H).
Defined.

(** [compress_subtree_to_parent_node] neither overruns its fixed arrays nor
    reads an unwritten slot, and the parent of the two chaining values it returns
    is the root of the left-balanced tree over its input. *)
Theorem subtree_to_parent_correct (key : list Z) (flags c : Z) (d : list Z) :
  1024 < zlen d < 2 ^ 63 -> 0 <= c -> c + zlen d < 2 ^ 63 ->
  exists l r, compress_subtree_to_parent_node d key c flags = Done [l; r]
    /\ parent_output (l ++ r) key flags = tree_output key flags c d.
Proof.
  intros Hd Hc Hcd. rewrite compress_subtree_to_parent_node_spec by done.
  eexists _, _. split; [reflexivity|]. symmetry. apply tree_parent. lia.
Qed.

Lemma subtree_to_parent_correct_witness :
  1024 < zlen (replicate 1025 1) < 2 ^ 63
  /\ exists l r, compress_subtree_to_parent_node (replicate 1025 1) IV 2 0 = Done [l; r].
Proof.
  assert (1024 < zlen (replicate 1025 1) < 2 ^ 63) as Hl by (split; reflexivity).
  split; [exact Hl|].
  destruct (subtree_to_parent_correct IV 0 2 (replicate 1025 1)) as (l & r & H & _);
    [exact Hl|discriminate|reflexivity|]. exact (ex_intro _ l (ex_intro _ r H)).
Defined.

(** ** The hasher *)

(** C12: the incremental hasher computes the BLAKE3 tree hash: whatever the sequence
    of updates, with fewer than 2^63 bytes in all, every update and the
    finalization complete without undefined behaviour (no stack overflow, no
    exhausted loop), and the output is the slice [seek, seek + out_len) of the
    root's output stream for the concatenation of the pieces. *)
Theorem blake3_incremental (key : list Z) (flags : Z) (pieces : list (list Z)) (seek out_len : Z) :
  zlen (concat pieces) < 2 ^ 63 -> 0 <= seek -> 0 <= out_len -> seek + out_len < 2 ^ 64 ->
  (h ← update_all (hasher_init_base key flags) pieces;
   blake3_hasher_finalize_seek h seek out_len)
  = Done (blake3_spec key flags (concat pieces) seek out_len).
Proof.
  intros Hlen Hs Hn Hle.
  destruct (update_all_holds key flags _ [] pieces (init_holds key flags)) as (h & -> & Hh);
    [rewrite (@zlen_nil Z); lia|].
  rewrite outcome_bind_done. by apply finalize_spec.
Qed.

Lemma blake3_incremental_witness :
  zlen (concat [replicate 3000 7; [1; 2; 3]; []]) < 2 ^ 63
  /\ (h ← update_all (hasher_init_base IV 0) [replicate 3000 7; [1; 2; 3]; []];
      blake3_hasher_finalize_seek h 10 100)
     = Done (blake3_spec IV 0 (concat [replicate 3000 7; [1; 2; 3]; []]) 10 100).
Proof.
  assert (zlen (concat [replicate 3000 7; [1; 2; 3]; []]) < 2 ^ 63) as Hl by reflexivity.
  split; [exact Hl|]. apply (blake3_incremental IV 0 _ 10 100 Hl); lia.
Defined.

(** [output_root_bytes] returns the bytes [seek, seek + out_len) of one stream,
    whatever the alignment of both ends to the blocks. *)
Theorem root_bytes_are_stream (o : output_t) (seek out_len : Z) :
  0 <= seek -> 0 <= out_len -> seek + out_len < 2 ^ 64 ->
  output_root_bytes o seek out_len = map (root_byte o) (seqZ seek out_len).
Proof. apply output_root_bytes_stream. Qed.

Lemma root_bytes_are_stream_witness :
  output_root_bytes (chunk_output IV 0 0 [97; 98; 99]) 60 10
  = map (root_byte (chunk_output IV 0 0 [97; 98; 99])) (seqZ 60 10).
Proof. apply (root_bytes_are_stream (chunk_output IV 0 0 [97; 98; 99]) 60 10); lia. Defined.

(** Key derivation: the context is hashed in its own mode, its first 32 bytes
    of output become the key words of a fresh hasher in the key-material mode,
    which then hashes the key material. *)
Theorem derive_key_correct (context material : list Z) (out_len : Z) :
  zlen context < 2 ^ 63 -> zlen material < 2 ^ 63 -> 0 <= out_len < 2 ^ 64 ->
  (h ← blake3_hasher_init_derive_key context;
   h ← blake3_hasher_update h material;
   blake3_hasher_finalize h out_len)
  = Done (blake3_spec (load_key_words (blake3_spec IV DERIVE_KEY_CONTEXT context 0 32))
            DERIVE_KEY_MATERIAL material 0 out_len).
Proof.
  intros Hc Hm Hn. rewrite derive_key_spec, outcome_bind_done by done.
  destruct (hash_once (load_key_words (blake3_spec IV DERIVE_KEY_CONTEXT context 0 32))
    DERIVE_KEY_MATERIAL material out_len) as (h & -> & Hf); [done|done|].
  by rewrite outcome_bind_done.
Qed.

Lemma derive_key_correct_witness :
  (h ← blake3_hasher_init_derive_key [99; 116; 120];
   h ← blake3_hasher_update h [1; 2; 3];
   blake3_hasher_finalize h 16)
  = Done (blake3_spec (load_key_words (blake3_spec IV DERIVE_KEY_CONTEXT [99; 116; 120] 0 32))
            DERIVE_KEY_MATERIAL [1; 2; 3] 0 16).
Proof. apply (derive_key_correct [99; 116; 120] [1; 2; 3] 16); [reflexivity|reflexivity|lia]. Defined.

(** a reset hasher is as good as new: after any updates and a reset, hashing
    other pieces gives the hash of those pieces alone in the same mode. *)
Theorem reset_starts_over (key : list Z) (flags : Z) (before after : list (list Z)) (out_len : Z) :
  zlen (concat before) < 2 ^ 63 -> zlen (concat after) < 2 ^ 63 -> 0 <= out_len < 2 ^ 64 ->
  (h ← update_all (hasher_init_base key flags) before;
   h ← update_all (blake3_hasher_reset h) after;
   blake3_hasher_finalize h out_len)
  = Done (blake3_spec key flags (concat after) 0 out_len).
Proof.
  intros Hb Ha Hn.
  destruct (update_all_holds key flags _ [] before (init_holds key flags)) as (h & -> & Hh);
    [rewrite (@zlen_nil Z); lia|].
  rewrite outcome_bind_done, (reset_holds key flags h _ Hh).
  destruct (update_all_holds key flags _ [] after (init_holds key flags)) as (h2 & -> & Hh2);
    [rewrite (@zlen_nil Z); lia|].
  rewrite outcome_bind_done. apply (finalize_spec key flags); [done|lia..].
Qed.

Lemma reset_starts_over_witness :
  (h ← update_all (hasher_init_base IV 16) [[5; 6]];
   h ← update_all (blake3_hasher_reset h) [[1]; [2]];
   blake3_hasher_finalize h 32)
  = Done (blake3_spec IV 16 (concat [[1]; [2]]) 0 32).
Proof. apply (reset_starts_over IV 16 [[5; 6]] [[1]; [2]] 32); [reflexivity|reflexivity|lia]. Defined.
