(* ===== verification/Blake3Jni.v ===== *)
(** * The JNI functions over BLAKE3 ([blake3_jni_bridge.c])

    Each native method as the sequence of its JNI calls and its result. What the
    JVM decides (whether a class is found, whether an array or a string can be
    accessed, whether an array can be allocated) is a parameter. *)
From Stdlib Require Import ZArith Lia.
From stdpp Require Import base list option numbers strings.
From S2P Require Import Prelude Blake3 Blake3Chunk Blake3Tree Blake3Hasher Blake3Main.

(** ** The JVM *)

Inductive jclass := IllegalArgumentException | RuntimeException.
Inductive jref := RefKey | RefInput | RefContext.

#[export] Instance jref_eq_dec : EqDecision jref.
Proof. solve_decision. Defined.

(** The JNI calls; a call that can fail carries its success. *)
Inductive jni_event :=
| FindClass (cls : jclass) (found : bool)
| ThrowNew (cls : jclass) (msg : string)
| DeleteLocalRef (cls : jclass)
| GetElements (r : jref) (ok : bool)
| ReleaseElements (r : jref)
| NewByteArray (len : Z) (ok : bool)
| SetByteArrayRegion (bytes : list Z).

Class JVM := {
  finds_class : jclass -> bool;
  grants_elements : jref -> bool;
  allocates : Z -> bool;
}.

(** The calls made and the bytes of the array returned; [None] is [NULL]. *)
Abbreviation jcall := (outcome (list jni_event * option (list Z))).

Section native.
Context `{JVM}.

Definition throw_new (cls : jclass) (msg : string) : list jni_event :=
  if finds_class cls
  then [FindClass cls true; ThrowNew cls msg; DeleteLocalRef cls]
  else [FindClass cls false].

Definition throw_illegal_argument (msg : string) : list jni_event :=
  throw_new IllegalArgumentException msg.

Definition throw_runtime (msg : string) : list jni_event := throw_new RuntimeException msg.

(** The end of each method: [n] bytes of the local buffer as a new array. *)
Definition return_array (evs : list jni_event) (out : block) (n : Z) : jcall :=
  if allocates n then
    bytes ← load_bytes out 0 n;
    Done (evs ++ [NewByteArray n true; SetByteArrayRegion bytes], Some bytes)
  else Done (evs ++ [NewByteArray n false], None).

(** Updating with the input and finalizing into the local buffer [out]. *)
Definition update_finalize (hasher : blake3_hasher) (input : list Z) (out : block) (n : Z)
    : outcome block :=
  hasher ← blake3_hasher_update hasher input;
  bytes ← blake3_hasher_finalize hasher n;
  store_bytes out 0 bytes.

(** An array argument is its bytes; [None] is [null]. *)
Definition nativeBlake3Hash (input : option (list Z)) : jcall :=
  match input with
  | None => Done (throw_illegal_argument "input must not be null", None)
  | Some input_bytes =>
      if negb (grants_elements RefInput) then
        Done (GetElements RefInput false :: throw_runtime "Failed to access input byte array", None)
      else
        let evs := [GetElements RefInput true] in
        let hasher := blake3_hasher_init in
        out ← update_finalize hasher input_bytes (fresh_block BLAKE3_OUT_LEN) BLAKE3_OUT_LEN;
        return_array (evs ++ [ReleaseElements RefInput]) out BLAKE3_OUT_LEN
  end.

Definition nativeBlake3KeyedHash (key input : option (list Z)) : jcall :=
  match key, input with
  | None, _ => Done (throw_illegal_argument "key must not be null", None)
  | Some _, None => Done (throw_illegal_argument "input must not be null", None)
  | Some key_bytes, Some input_bytes =>
      if negb (zlen key_bytes =? BLAKE3_KEY_LEN) then
        Done (throw_illegal_argument "key must be exactly 32 bytes", None)
      else if negb (grants_elements RefKey) then
        Done (GetElements RefKey false :: throw_runtime "Failed to access key byte array", None)
      else
        let evs := [GetElements RefKey true] in
        if negb (grants_elements RefInput) then
          Done (evs ++ [GetElements RefInput false; ReleaseElements RefKey]
                ++ throw_runtime "Failed to access input byte array", None)
        else
          let evs := evs ++ [GetElements RefInput true] in
          let hasher := blake3_hasher_init_keyed key_bytes in
          out ← update_finalize hasher input_bytes (fresh_block BLAKE3_OUT_LEN) BLAKE3_OUT_LEN;
          return_array (evs ++ [ReleaseElements RefKey; ReleaseElements RefInput]) out BLAKE3_OUT_LEN
  end.

(** [context] is the string's modified UTF-8 bytes; [outLen] is a [jint]. *)
Definition nativeBlake3DeriveKey (context input : option (list Z)) (outLen : Z) : jcall :=
  match context, input with
  | None, _ => Done (throw_illegal_argument "context must not be null", None)
  | Some _, None => Done (throw_illegal_argument "input must not be null", None)
  | Some ctx_str, Some input_bytes =>
      if (outLen <=? 0) || (64 <? outLen) then
        Done (throw_illegal_argument "outLen must be 1..64", None)
      else if negb (grants_elements RefContext) then
        Done (GetElements RefContext false :: throw_runtime "Failed to access context string", None)
      else
        let evs := [GetElements RefContext true] in
        if negb (grants_elements RefInput) then
          Done (evs ++ [GetElements RefInput false; ReleaseElements RefContext]
                ++ throw_runtime "Failed to access input byte array", None)
        else
          let evs := evs ++ [GetElements RefInput true] in
          hasher ← blake3_hasher_init_derive_key ctx_str;
          out ← update_finalize hasher input_bytes (fresh_block 64) outLen;
          return_array (evs ++ [ReleaseElements RefContext; ReleaseElements RefInput]) out outLen
  end.

(** ** What a caller observes *)

(** The accesses to [r] granted and not released. *)
Fixpoint held (r : jref) (evs : list jni_event) : Z :=
  match evs with
  | [] => 0
  | GetElements r' true :: evs => (if decide (r' = r) then 1 else 0) + held r evs
  | ReleaseElements r' :: evs => held r evs - (if decide (r' = r) then 1 else 0)
  | _ :: evs => held r evs
  end.

(** An exception is pending after the call: one thrown by the code, or by a call
    that failed. *)
Definition raises (ev : jni_event) : bool :=
  match ev with
  | ThrowNew _ _ | FindClass _ false | NewByteArray _ false => true
  | _ => false
  end.

Definition pending (evs : list jni_event) : bool := existsb raises evs.

(** The call releases what it accessed, and returns [NULL] exactly when an
    exception is pending. *)
Definition well_behaved (evs : list jni_event) (result : option (list Z)) : Prop :=
  (forall r, held r evs = 0)
  /\ (if result then pending evs = false else pending evs = true).

(** ** Lemmas *)

Lemma throw_well_behaved evs cls msg :
  (forall r, held r evs = 0) -> well_behaved (evs ++ throw_new cls msg) None.
Proof.
  intros Hheld. split.
  - intros r. revert Hheld. intros Hheld. specialize (Hheld r). revert Hheld.
    assert (forall n, held r evs = n -> held r (evs ++ throw_new cls msg) = n) as Hk; [|by apply Hk].
    induction evs as [|[] evs IH]; intros n Hn; cbn [held app] in *;
      [unfold throw_new; destruct (finds_class cls); exact Hn|..];
      try (destruct ok); try (by apply IH);
      rewrite (IH (held r evs)) by done; exact Hn.
  - unfold pending, throw_new. rewrite existsb_app.
    destruct (finds_class cls); cbn; apply orb_true_r.
Qed.

Lemma update_finalize_spec key flags input n m :
  zlen input < 2 ^ 63 -> 0 <= n <= m -> m < 2 ^ 64 ->
  ensures (update_finalize (hasher_init_base key flags) input (fresh_block m) n)
    (fun out => load_bytes out 0 n = Done (blake3_spec key flags input 0 n)).
Proof.
  intros Hin Hn Hm. unfold update_finalize.
  destruct (hash_once key flags input n Hin ltac:(lia)) as (h & -> & Hf).
  rewrite outcome_bind_done, Hf, outcome_bind_done.
  assert (zlen (blake3_spec key flags input 0 n) = n) as Hl.
  { unfold blake3_spec. rewrite zlen_map. unfold zlen. rewrite length_seqZ. lia. }
  destruct (store_bytes_append (fresh_block m) [] (blake3_spec key flags input 0 n) 0)
    as (out & -> & Hs & _);
    [apply starts_with_nil|done|rewrite (@zlen_nil Z), zlen_fresh_block; lia|].
  apply ensures_done. by apply load_bytes_starts.
Qed.

(** The common end of the methods. *)
Lemma hash_and_return key flags input n m evs :
  zlen input < 2 ^ 63 -> 0 <= n <= m -> m < 2 ^ 64 ->
  (out ← update_finalize (hasher_init_base key flags) input (fresh_block m) n;
   return_array evs out n)
  = Done (if allocates n
          then (evs ++ [NewByteArray n true; SetByteArrayRegion (blake3_spec key flags input 0 n)],
                Some (blake3_spec key flags input 0 n))
          else (evs ++ [NewByteArray n false], None)).
Proof.
  intros Hin Hn Hm. destruct (update_finalize_spec key flags input n m Hin Hn Hm) as (out & -> & Hl).
  rewrite outcome_bind_done. unfold return_array. destruct (allocates n); [|done].
  rewrite Hl. reflexivity.
Qed.
End native.

(** A JVM that refuses nothing, and one that refuses access to the input. *)
Definition generous : JVM := {|
  finds_class := fun _ => true;
  grants_elements := fun _ => true;
  allocates := fun _ => true;
|}.

Definition refuses_input : JVM := {|
  finds_class := fun _ => true;
  grants_elements := fun r => negb (bool_decide (r = RefInput));
  allocates := fun _ => true;
|}.

Section claims.
Context `{JVM}.

(** Every BLAKE3 native method, whatever its arguments (arrays of fewer than
    2^31 bytes) and whatever the JVM refuses, completes without undefined
    behaviour, releases exactly the arrays and strings it accessed, and returns
    [NULL] exactly when an exception is pending. *)
Theorem natives_well_behaved (key context input : option (list Z)) (outLen : Z) :
  (forall a, In (Some a) [key; context; input] -> zlen a < 2 ^ 31) ->
  ensures (nativeBlake3Hash input) (fun r => well_behaved r.1 r.2)
  /\ ensures (nativeBlake3KeyedHash key input) (fun r => well_behaved r.1 r.2)
  /\ ensures (nativeBlake3DeriveKey context input outLen) (fun r => well_behaved r.1 r.2).
Proof.
  intros Hlen.
  assert (forall cls msg, ensures (Done (throw_new cls msg, @None (list Z)))
    (fun r => well_behaved r.1 r.2)) as Hthrow
    by (intros; apply ensures_done; apply (throw_well_behaved []); reflexivity).
  split_and!.
  - destruct input as [inp|]; [|apply Hthrow]. simpl.
    destruct (grants_elements RefInput); simpl;
      [|apply ensures_done; apply (throw_well_behaved [GetElements RefInput false]); reflexivity].
    unfold blake3_hasher_init.
    rewrite hash_and_return by (pose proof (Hlen inp ltac:(simpl; auto)); unfold BLAKE3_OUT_LEN; lia).
    apply ensures_done. destruct (allocates _); (split; [intros []; reflexivity|reflexivity]).
  - destruct key as [k|], input as [inp|]; try apply Hthrow. simpl.
    destruct (zlen k =? BLAKE3_KEY_LEN); simpl; [|apply Hthrow].
    destruct (grants_elements RefKey); simpl;
      [|apply ensures_done; apply (throw_well_behaved [GetElements RefKey false]); reflexivity].
    destruct (grants_elements RefInput); simpl;
      [|apply ensures_done;
        apply (throw_well_behaved [GetElements RefKey true; GetElements RefInput false;
          ReleaseElements RefKey]); by intros []].
    unfold blake3_hasher_init_keyed.
    rewrite hash_and_return by (pose proof (Hlen inp ltac:(simpl; auto)); unfold BLAKE3_OUT_LEN; lia).
    apply ensures_done. destruct (allocates _); (split; [intros []; reflexivity|reflexivity]).
  - destruct context as [ctx|], input as [inp|]; try apply Hthrow. cbn [nativeBlake3DeriveKey].
    destruct (Z.leb_spec outLen 0); [apply Hthrow|].
    destruct (Z.ltb_spec 64 outLen); [apply Hthrow|]. cbn [orb].
    destruct (grants_elements RefContext); cbn [negb];
      [|apply ensures_done; apply (throw_well_behaved [GetElements RefContext false]); reflexivity].
    destruct (grants_elements RefInput); cbn [negb];
      [|apply ensures_done;
        apply (throw_well_behaved [GetElements RefContext true; GetElements RefInput false;
          ReleaseElements RefContext]); by intros []].
    pose proof (Hlen ctx ltac:(simpl; auto)). pose proof (Hlen inp ltac:(simpl; auto)).
    rewrite derive_key_spec, outcome_bind_done, hash_and_return by lia.
    apply ensures_done. destruct (allocates _); (split; [intros []; reflexivity|reflexivity]).
Qed.

(** C38: what the methods return when the JVM grants every access: the hash of the
    input, the keyed hash for a key of exactly 32 bytes (any other length raises
    [IllegalArgumentException] and touches no array), and [outLen] bytes of the
    derived key for 1 <= outLen <= 64 (any other length is refused likewise). *)
Theorem natives_correct (key context input : list Z) (outLen : Z) :
  (forall r, grants_elements r = true) -> (forall n, allocates n = true) ->
  zlen context < 2 ^ 31 -> zlen input < 2 ^ 31 ->
  (exists evs, nativeBlake3Hash (Some input) = Done (evs, Some (blake3_spec IV 0 input 0 32)))
  /\ (if zlen key =? 32
      then exists evs, nativeBlake3KeyedHash (Some key) (Some input)
             = Done (evs, Some (blake3_spec (load_key_words key) KEYED_HASH input 0 32))
      else nativeBlake3KeyedHash (Some key) (Some input)
             = Done (throw_illegal_argument "key must be exactly 32 bytes", None))
  /\ (if (1 <=? outLen) && (outLen <=? 64)
      then exists evs, nativeBlake3DeriveKey (Some context) (Some input) outLen
             = Done (evs, Some (blake3_spec
                 (load_key_words (blake3_spec IV DERIVE_KEY_CONTEXT context 0 32))
                 DERIVE_KEY_MATERIAL input 0 outLen))
      else nativeBlake3DeriveKey (Some context) (Some input) outLen
             = Done (throw_illegal_argument "outLen must be 1..64", None)).
Proof.
  intros Hgrant Halloc Hctx Hin. split_and!.
  - cbn [nativeBlake3Hash]. rewrite Hgrant. cbn [negb]. unfold blake3_hasher_init.
    rewrite hash_and_return, Halloc by (unfold BLAKE3_OUT_LEN; lia). by eexists.
  - cbn [nativeBlake3KeyedHash]. change BLAKE3_KEY_LEN with 32.
    destruct (zlen key =? 32); cbn [negb]; [|done]. rewrite !Hgrant. cbn [negb].
    unfold blake3_hasher_init_keyed.
    rewrite hash_and_return, Halloc by (unfold BLAKE3_OUT_LEN; lia). by eexists.
  - cbn [nativeBlake3DeriveKey].
    destruct (Z.leb_spec outLen 0), (Z.ltb_spec 64 outLen), (Z.leb_spec 1 outLen),
      (Z.leb_spec outLen 64); try lia; cbn [andb orb]; try done.
    rewrite !Hgrant. cbn [negb].
    rewrite derive_key_spec, outcome_bind_done, hash_and_return, Halloc by lia. by eexists.
Qed.
End claims.

Lemma natives_well_behaved_witness :
  ensures (@nativeBlake3KeyedHash refuses_input (Some (replicate 32 1)) (Some [1; 2]))
    (fun r => well_behaved r.1 r.2).
Proof.
  destruct (@natives_well_behaved refuses_input (Some (replicate 32 1)) (Some [99]) (Some [1; 2]) 0)
    as [_ [Hw _]]; [|exact Hw].
  intros a [E|[E|[E|[]]]]; injection E as <-; reflexivity.
Defined.

Lemma natives_correct_witness :
  exists evs, @nativeBlake3Hash generous (Some [1; 2; 3])
    = Done (evs, Some (blake3_spec IV 0 [1; 2; 3] 0 32)).
Proof.
  destruct (@natives_correct generous (replicate 32 1) [99] [1; 2; 3] 40) as [Hw _];
    [reflexivity..|exact Hw].
Defined.
