(* ===== verification/Pbuf.v ===== *)
(** * Packet buffers ([lwip/src/core/pbuf.c])

    Packet buffers as objects of a heap that refer to each other by pointers, with
    their payload in memory blocks. An address is a block and an offset; the
    memory behind a contiguous buffer (types RAM and POOL) is the block of the
    buffer's own pointer, offset 0 being the first byte after [struct pbuf]. A
    failed [LWIP_ASSERT] aborts the process: it is [Undef], like a loop that
    exceeds its fuel. The pools of memp are the numbers of their free elements,
    the C library's [malloc] is a parameter. *)
From Stdlib Require Import ZArith Lia.
From stdpp Require Import base list option numbers gmap.
From S2P Require Import Prelude.

Definition ptr := positive.

Record addr := mk_addr { a_block : ptr; a_off : Z }.

Inductive pbuf_type := PBUF_RAM | PBUF_ROM | PBUF_REF | PBUF_POOL.

#[export] Instance pbuf_type_eq_dec : EqDecision pbuf_type.
Proof. solve_decision. Defined.

(** [(u8_t)type] *)
Definition type_bits (t : pbuf_type) : Z :=
  match t with PBUF_RAM => 0x80 | PBUF_ROM => 0x01 | PBUF_REF => 0x41 | PBUF_POOL => 0x82 end.

Definition PBUF_TYPE_FLAG_STRUCT_DATA_CONTIGUOUS : Z := 0x80.
Definition PBUF_TYPE_ALLOC_SRC_MASK : Z := 0x0F.
Definition PBUF_TYPE_ALLOC_SRC_MASK_STD_HEAP : Z := 0x00.
Definition PBUF_TYPE_ALLOC_SRC_MASK_STD_MEMP_PBUF : Z := 0x01.
Definition PBUF_TYPE_ALLOC_SRC_MASK_STD_MEMP_PBUF_POOL : Z := 0x02.

(** The header sizes of the layers: 14, 40 and 20 bytes of link, IP and transport
    headers. *)
Inductive pbuf_layer := PBUF_TRANSPORT | PBUF_IP | PBUF_LINK | PBUF_RAW_TX | PBUF_RAW.

Definition layer_offset (l : pbuf_layer) : Z :=
  match l with
  | PBUF_TRANSPORT => 74 | PBUF_IP => 54 | PBUF_LINK => 14 | PBUF_RAW_TX => 0 | PBUF_RAW => 0
  end.

Definition MEM_ALIGN_SIZE (n : Z) : Z := Z.land (n + 7) (-8).
Definition PBUF_POOL_BUFSIZE_ALIGNED : Z := MEM_ALIGN_SIZE 1500.
Definition SIZEOF_STRUCT_PBUF : Z := 24.

Record pbuf := mk_pbuf {
  p_next : option ptr;
  p_payload : option addr;
  p_tot_len : Z;
  p_len : Z;
  p_type_internal : Z;
  p_flags : Z;
  p_ref : Z;
  p_if_idx : Z;
}.

Definition NETIF_NO_INDEX : Z := 0.

Record heap := mk_heap {
  h_pbufs : gmap ptr pbuf;
  h_mem : gmap ptr block;
  h_fresh : ptr;
  h_memp_pbuf : nat;
  h_memp_pool : nat;
}.

Inductive err_t :=
| ERR_OK | ERR_MEM | ERR_BUF | ERR_TIMEOUT | ERR_RTE | ERR_INPROGRESS | ERR_VAL | ERR_WOULDBLOCK
| ERR_USE | ERR_ALREADY | ERR_ISCONN | ERR_CONN | ERR_IF | ERR_ABRT | ERR_RST | ERR_CLSD | ERR_ARG.

Definition err_code (e : err_t) : Z :=
  match e with
  | ERR_OK => 0 | ERR_MEM => -1 | ERR_BUF => -2 | ERR_TIMEOUT => -3 | ERR_RTE => -4
  | ERR_INPROGRESS => -5 | ERR_VAL => -6 | ERR_WOULDBLOCK => -7 | ERR_USE => -8
  | ERR_ALREADY => -9 | ERR_ISCONN => -10 | ERR_CONN => -11 | ERR_IF => -12 | ERR_ABRT => -13
  | ERR_RST => -14 | ERR_CLSD => -15 | ERR_ARG => -16
  end.

#[export] Instance err_t_eq_dec : EqDecision err_t.
Proof. solve_decision. Defined.

(** ** Access *)

Definition get (h : heap) (p : ptr) : outcome pbuf :=
  match h_pbufs h !! p with Some pb => Done pb | None => Undef end.

(** [p->...], where [p] may be [NULL] *)
Definition deref (h : heap) (p : option ptr) : outcome pbuf :=
  match p with Some p => get h p | None => Undef end.

Definition put (h : heap) (p : ptr) (pb : pbuf) : heap :=
  mk_heap (<[p := pb]> (h_pbufs h)) (h_mem h) (h_fresh h) (h_memp_pbuf h) (h_memp_pool h).

Definition set_mem (h : heap) (b : ptr) (m : block) : heap :=
  mk_heap (h_pbufs h) (<[b := m]> (h_mem h)) (h_fresh h) (h_memp_pbuf h) (h_memp_pool h).

Definition set_next (pb : pbuf) (n : option ptr) : pbuf :=
  mk_pbuf n (p_payload pb) (p_tot_len pb) (p_len pb) (p_type_internal pb) (p_flags pb)
    (p_ref pb) (p_if_idx pb).

Definition set_tot_len (pb : pbuf) (n : Z) : pbuf :=
  mk_pbuf (p_next pb) (p_payload pb) n (p_len pb) (p_type_internal pb) (p_flags pb)
    (p_ref pb) (p_if_idx pb).

Definition set_len (pb : pbuf) (n : Z) : pbuf :=
  mk_pbuf (p_next pb) (p_payload pb) (p_tot_len pb) n (p_type_internal pb) (p_flags pb)
    (p_ref pb) (p_if_idx pb).

Definition set_ref (pb : pbuf) (n : Z) : pbuf :=
  mk_pbuf (p_next pb) (p_payload pb) (p_tot_len pb) (p_len pb) (p_type_internal pb) (p_flags pb)
    n (p_if_idx pb).

Definition set_payload (pb : pbuf) (a : option addr) : pbuf :=
  mk_pbuf (p_next pb) a (p_tot_len pb) (p_len pb) (p_type_internal pb) (p_flags pb)
    (p_ref pb) (p_if_idx pb).

(** Reading [n] bytes from [payload + off] *)
Definition read_payload (h : heap) (pb : pbuf) (off n : Z) : outcome (list Z) :=
  match p_payload pb with
  | Some a => match h_mem h !! a_block a with
              | Some m => load_bytes m (a_off a + off) n
              | None => Undef
              end
  | None => Undef
  end.

Definition write_payload (h : heap) (pb : pbuf) (off : Z) (bytes : list Z) : outcome heap :=
  match p_payload pb with
  | Some a => match h_mem h !! a_block a with
              | Some m => m ← store_bytes m (a_off a + off) bytes; Done (set_mem h (a_block a) m)
              | None => Undef
              end
  | None => Undef
  end.

(** Enough rounds to walk any chain without a cycle. *)
Definition walk_fuel (h : heap) : nat := S (size (h_pbufs h)).

Definition lwip_assert (b : bool) : outcome unit := if b then Done tt else Undef.

(** ** Allocation *)

Definition pbuf_init_alloced_pbuf (payload : option addr) (tot_len len : Z) (type : pbuf_type)
    (flags : Z) : pbuf :=
  mk_pbuf None payload tot_len len (type_bits type) flags 1 NETIF_NO_INDEX.

(** [memp_malloc(MEMP_PBUF)], [memp_malloc(MEMP_PBUF_POOL)]: a new pointer, and for
    the pool its buffer. *)
Definition memp_malloc_pbuf (h : heap) : option (ptr * heap) :=
  match h_memp_pbuf h with
  | O => None
  | S n => Some (h_fresh h,
      mk_heap (h_pbufs h) (h_mem h) (Pos.succ (h_fresh h)) n (h_memp_pool h))
  end.

Definition memp_malloc_pool (h : heap) : option (ptr * heap) :=
  match h_memp_pool h with
  | O => None
  | S n => Some (h_fresh h,
      mk_heap (h_pbufs h) (<[h_fresh h := fresh_block PBUF_POOL_BUFSIZE_ALIGNED]> (h_mem h))
        (Pos.succ (h_fresh h)) (h_memp_pbuf h) n)
  end.

Class Malloc := malloc_grants : ptr -> Z -> bool.

Section alloc.
Context `{Malloc}.

(** [mem_malloc] of a struct followed by [n] bytes *)
Definition mem_malloc (h : heap) (n : Z) : option (ptr * heap) :=
  if malloc_grants (h_fresh h) n
  then Some (h_fresh h,
      mk_heap (h_pbufs h) (<[h_fresh h := fresh_block n]> (h_mem h)) (Pos.succ (h_fresh h))
        (h_memp_pbuf h) (h_memp_pool h))
  else None.

Definition pbuf_alloc_reference (h : heap) (payload : option addr) (length : Z) (type : pbuf_type)
    : outcome (option ptr * heap) :=
  _ ← lwip_assert (bool_decide (type = PBUF_REF \/ type = PBUF_ROM));
  match memp_malloc_pbuf h with
  | None => Done (None, h)
  | Some (p, h) => Done (Some p, put h p (pbuf_init_alloced_pbuf payload length length type 0))
  end.

(** *** Releasing: [pbuf_free] *)

(** The type that [memp_free] or [mem_free] gives the memory back to. *)
Definition release (h : heap) (p : ptr) (pb : pbuf) : outcome heap :=
  let alloc_src := Z.land (p_type_internal pb) PBUF_TYPE_ALLOC_SRC_MASK in
  let pbufs := delete p (h_pbufs h) in
  if alloc_src =? PBUF_TYPE_ALLOC_SRC_MASK_STD_MEMP_PBUF_POOL then
    Done (mk_heap pbufs (delete p (h_mem h)) (h_fresh h) (h_memp_pbuf h) (S (h_memp_pool h)))
  else if alloc_src =? PBUF_TYPE_ALLOC_SRC_MASK_STD_MEMP_PBUF then
    Done (mk_heap pbufs (h_mem h) (h_fresh h) (S (h_memp_pbuf h)) (h_memp_pool h))
  else if alloc_src =? PBUF_TYPE_ALLOC_SRC_MASK_STD_HEAP then
    Done (mk_heap pbufs (delete p (h_mem h)) (h_fresh h) (h_memp_pbuf h) (h_memp_pool h))
  else Undef.

Fixpoint pbuf_free_loop (fuel : nat) (h : heap) (p : option ptr) (count : Z) : outcome (Z * heap) :=
  match p with
  | None => Done (count, h)
  | Some p =>
      match fuel with
      | O => Undef
      | S fuel =>
          pb ← get h p;
          _ ← lwip_assert (0 <? p_ref pb);
          let ref := u8 (p_ref pb - 1) in
          let h := put h p (set_ref pb ref) in
          if ref =? 0 then
            let q := p_next pb in
            h ← release h p pb;
            pbuf_free_loop fuel h q (u8 (count + 1))
          else Done (count, h)
      end
  end.

Definition pbuf_free (h : heap) (p : option ptr) : outcome (Z * heap) :=
  match p with
  | None => Undef
  | Some p => pbuf_free_loop (walk_fuel h) h (Some p) 0
  end.

(** *** The pool loop of [pbuf_alloc] *)

(** [pl] is [Some (p, last)] once the head is allocated. *)
Fixpoint pbuf_alloc_pool (fuel : nat) (h : heap) (pl : option (ptr * ptr)) (rem_len offset : Z)
    : outcome (option ptr * heap) :=
  match fuel with
  | O => Undef
  | S fuel =>
      match memp_malloc_pool h with
      | None =>
          match pl with
          | Some (p, _) => '(_, h) ← pbuf_free h (Some p); Done (None, h)
          | None => Done (None, h)
          end
      | Some (q, h) =>
          let room := u16 (PBUF_POOL_BUFSIZE_ALIGNED - MEM_ALIGN_SIZE offset) in
          let qlen := if rem_len <? room then rem_len else room in
          let h := put h q (pbuf_init_alloced_pbuf (Some (mk_addr q (MEM_ALIGN_SIZE offset)))
                              rem_len qlen PBUF_POOL 0) in
          _ ← lwip_assert (0 <? PBUF_POOL_BUFSIZE_ALIGNED - MEM_ALIGN_SIZE offset);
          '(p, h) ← match pl with
                    | None => Done (q, h)
                    | Some (p, last) =>
                        lb ← get h last;
                        Done (p, put h last (set_next lb (Some q)))
                    end;
          let rem_len := u16 (rem_len - qlen) in
          if 0 <? rem_len then pbuf_alloc_pool fuel h (Some (p, q)) rem_len 0
          else Done (Some p, h)
      end
  end.

Definition pbuf_alloc (h : heap) (layer : pbuf_layer) (length : Z) (type : pbuf_type)
    : outcome (option ptr * heap) :=
  let offset := layer_offset layer in
  match type with
  | PBUF_REF | PBUF_ROM => pbuf_alloc_reference h None length type
  | PBUF_POOL => pbuf_alloc_pool (S (Z.to_nat length)) h None length offset
  | PBUF_RAM =>
      let payload_len := u64 (MEM_ALIGN_SIZE offset + MEM_ALIGN_SIZE length) in
      let alloc_len := u64 (MEM_ALIGN_SIZE SIZEOF_STRUCT_PBUF + payload_len) in
      if (payload_len <? MEM_ALIGN_SIZE length) || (alloc_len <? MEM_ALIGN_SIZE length)
      then Done (None, h)
      else
        match mem_malloc h payload_len with
        | None => Done (None, h)
        | Some (p, h) =>
            Done (Some p, put h p (pbuf_init_alloced_pbuf (Some (mk_addr p (MEM_ALIGN_SIZE offset)))
                                     length length PBUF_RAM 0))
        end
  end.
End alloc.

(** ** Lengths and headers *)

(** The walk of [pbuf_realloc] over the buffers that keep their length. *)
Fixpoint pbuf_realloc_walk (fuel : nat) (h : heap) (q : ptr) (rem_len shrink : Z)
    : outcome (ptr * Z * heap) :=
  qb ← get h q;
  if p_len qb <? rem_len then
    match fuel with
    | O => Undef
    | S fuel =>
        let rem_len := u16 (rem_len - p_len qb) in
        let h := put h q (set_tot_len qb (u16 (p_tot_len qb - shrink))) in
        match p_next qb with
        | None => Undef
        | Some q => pbuf_realloc_walk fuel h q rem_len shrink
        end
    end
  else Done (q, rem_len, h).

(** [mem_trim] does nothing with the C library's heap. *)
Definition pbuf_realloc (h : heap) (p : ptr) (new_len : Z) : outcome heap :=
  pb ← get h p;
  if p_tot_len pb <=? new_len then Done h
  else
    let shrink := u16 (p_tot_len pb - new_len) in
    '(q, rem_len, h) ← pbuf_realloc_walk (walk_fuel h) h p new_len shrink;
    qb ← get h q;
    let qb := set_tot_len (set_len qb rem_len) rem_len in
    let h := put h q qb in
    h ← (match p_next qb with
         | Some r => '(_, h) ← pbuf_free h (Some r); Done h
         | None => Done h
         end);
    qb ← get h q;
    Done (put h q (set_next qb None)).

(** The result is non-zero on failure. *)
Definition pbuf_add_header_impl (h : heap) (p : ptr) (header_size_increment : Z) (force : bool)
    : outcome (Z * heap) :=
  if 0xFFFF <? header_size_increment then Done (1, h)
  else if header_size_increment =? 0 then Done (0, h)
  else
    pb ← get h p;
    let increment_magnitude := u16 header_size_increment in
    if u16 (increment_magnitude + p_tot_len pb) <? increment_magnitude then Done (1, h)
    else
      let move :=
        match p_payload pb with
        | None => Undef
        | Some a => Done (mk_addr (a_block a) (a_off a - header_size_increment))
        end in
      let grow (a : addr) :=
        put h p (set_tot_len (set_len (set_payload pb (Some a))
          (u16 (p_len pb + increment_magnitude))) (u16 (p_tot_len pb + increment_magnitude))) in
      if negb (Z.land (p_type_internal pb) PBUF_TYPE_FLAG_STRUCT_DATA_CONTIGUOUS =? 0) then
        a ← move;
        if a_off a <? 0 then Done (1, h) else Done (0, grow a)
      else if force then a ← move; Done (0, grow a)
      else Done (1, h).

Definition pbuf_add_header (h : heap) (p : ptr) (n : Z) : outcome (Z * heap) :=
  pbuf_add_header_impl h p n false.

Definition pbuf_add_header_force (h : heap) (p : ptr) (n : Z) : outcome (Z * heap) :=
  pbuf_add_header_impl h p n true.

Definition pbuf_remove_header (h : heap) (p : ptr) (header_size_decrement : Z)
    : outcome (Z * heap) :=
  if 0xFFFF <? header_size_decrement then Done (1, h)
  else if header_size_decrement =? 0 then Done (0, h)
  else
    pb ← get h p;
    let increment_magnitude := u16 header_size_decrement in
    if negb (increment_magnitude <=? p_len pb) then Done (1, h)
    else
      match p_payload pb with
      | None => Undef
      | Some a =>
          Done (0, put h p (set_tot_len (set_len
            (set_payload pb (Some (mk_addr (a_block a) (a_off a + header_size_decrement))))
            (u16 (p_len pb - increment_magnitude))) (u16 (p_tot_len pb - increment_magnitude))))
      end.

Definition pbuf_header_impl (h : heap) (p : ptr) (header_size_increment : Z) (force : bool)
    : outcome (Z * heap) :=
  if header_size_increment <? 0 then pbuf_remove_header h p (- header_size_increment)
  else pbuf_add_header_impl h p header_size_increment force.

Definition pbuf_header (h : heap) (p : ptr) (n : Z) : outcome (Z * heap) :=
  pbuf_header_impl h p n false.

Definition pbuf_header_force (h : heap) (p : ptr) (n : Z) : outcome (Z * heap) :=
  pbuf_header_impl h p n true.

Fixpoint pbuf_free_header_loop (fuel : nat) (h : heap) (p : option ptr) (free_left : Z)
    : outcome (option ptr * heap) :=
  match p with
  | Some f =>
      if free_left =? 0 then Done (p, h)
      else
        match fuel with
        | O => Undef
        | S fuel =>
            pb ← get h f;
            if p_len pb <=? free_left then
              let free_left := u16 (free_left - p_len pb) in
              let p := p_next pb in
              let h := put h f (set_next pb None) in
              '(_, h) ← pbuf_free h (Some f);
              pbuf_free_header_loop fuel h p free_left
            else
              '(_, h) ← pbuf_remove_header h f free_left;
              Done (p, h)
        end
  | None => Done (None, h)
  end.

Definition pbuf_free_header (h : heap) (q : option ptr) (size : Z) : outcome (option ptr * heap) :=
  pbuf_free_header_loop (walk_fuel h) h q size.

(** ** Chains *)

Fixpoint pbuf_clen_loop (fuel : nat) (h : heap) (p : option ptr) (len : Z) : outcome Z :=
  match p with
  | None => Done len
  | Some p =>
      match fuel with
      | O => Undef
      | S fuel => pb ← get h p; pbuf_clen_loop fuel h (p_next pb) (u16 (len + 1))
      end
  end.

Definition pbuf_clen (h : heap) (p : option ptr) : outcome Z := pbuf_clen_loop (walk_fuel h) h p 0.

Definition pbuf_ref (h : heap) (p : option ptr) : outcome heap :=
  match p with
  | None => Done h
  | Some p =>
      pb ← get h p;
      let ref := u8 (p_ref pb + 1) in
      _ ← lwip_assert (0 <? ref);
      Done (put h p (set_ref pb ref))
  end.

Fixpoint pbuf_cat_walk (fuel : nat) (h : heap) (p t : ptr) : outcome (ptr * heap) :=
  pb ← get h p;
  match p_next pb with
  | None => Done (p, h)
  | Some q =>
      match fuel with
      | O => Undef
      | S fuel =>
          tb ← get h t;
          pbuf_cat_walk fuel (put h p (set_tot_len pb (u16 (p_tot_len pb + p_tot_len tb)))) q t
      end
  end.

Definition pbuf_cat (h : heap) (hd t : option ptr) : outcome heap :=
  match hd, t with
  | Some hd, Some t =>
      '(p, h) ← pbuf_cat_walk (walk_fuel h) h hd t;
      pb ← get h p;
      _ ← lwip_assert (p_tot_len pb =? p_len pb);
      tb ← get h t;
      Done (put h p (set_next (set_tot_len pb (u16 (p_tot_len pb + p_tot_len tb))) (Some t)))
  | _, _ => Done h
  end.

Definition pbuf_chain (h : heap) (hd t : option ptr) : outcome heap :=
  h ← pbuf_cat h hd t; pbuf_ref h t.

Definition pbuf_dechain (h : heap) (p : ptr) : outcome (option ptr * heap) :=
  pb ← get h p;
  match p_next pb with
  | Some q =>
      qb ← get h q;
      _ ← lwip_assert (p_tot_len qb =? p_tot_len pb - p_len pb);
      let h := put h q (set_tot_len qb (u16 (p_tot_len pb - p_len pb))) in
      pb ← get h p;
      let h := put h p (set_tot_len (set_next pb None) (p_len pb)) in
      '(tail_gone, h) ← pbuf_free h (Some q);
      pb ← get h p;
      _ ← lwip_assert (p_tot_len pb =? p_len pb);
      Done (if 0 <? tail_gone then None else Some q, h)
  | None =>
      _ ← lwip_assert (p_tot_len pb =? p_len pb);
      Done (None, h)
  end.

(** ** Reading and writing the data *)

(** The first buffer that holds byte [in_offset], and the offset within it. *)
Fixpoint pbuf_skip_loop (fuel : nat) (h : heap) (q : option ptr) (offset_left : Z)
    : outcome (option ptr * Z) :=
  match q with
  | None => Done (None, offset_left)
  | Some p =>
      match fuel with
      | O => Undef
      | S fuel =>
          pb ← get h p;
          if p_len pb <=? offset_left
          then pbuf_skip_loop fuel h (p_next pb) (u16 (offset_left - p_len pb))
          else Done (q, offset_left)
      end
  end.

Definition pbuf_skip_const (h : heap) (q : option ptr) (in_offset : Z) : outcome (option ptr * Z) :=
  pbuf_skip_loop (walk_fuel h) h q in_offset.

Definition pbuf_skip := pbuf_skip_const.

(** The loop of [pbuf_copy_partial]; [dst] is the application's buffer. *)
Fixpoint pbuf_copy_partial_loop (fuel : nat) (h : heap) (p : option ptr) (dst : block)
    (len offset left copied_total : Z) : outcome (Z * block) :=
  if len =? 0 then Done (copied_total, dst)
  else
    match p with
    | None => Done (copied_total, dst)
    | Some p =>
        match fuel with
        | O => Undef
        | S fuel =>
            pb ← get h p;
            if negb (offset =? 0) && (p_len pb <=? offset) then
              pbuf_copy_partial_loop fuel h (p_next pb) dst len (u16 (offset - p_len pb))
                left copied_total
            else
              let buf_copy_len := u16 (p_len pb - offset) in
              let buf_copy_len := if len <? buf_copy_len then len else buf_copy_len in
              bytes ← read_payload h pb offset buf_copy_len;
              dst ← store_bytes dst left bytes;
              pbuf_copy_partial_loop fuel h (p_next pb) dst (u16 (len - buf_copy_len)) 0
                (u16 (left + buf_copy_len)) (u16 (copied_total + buf_copy_len))
        end
    end.

Definition pbuf_copy_partial (h : heap) (buf : option ptr) (dataptr : option block) (len offset : Z)
    : outcome (Z * option block) :=
  match buf, dataptr with
  | Some _, Some dst =>
      '(n, dst) ← pbuf_copy_partial_loop (walk_fuel h) h buf dst len offset 0 0;
      Done (n, Some dst)
  | _, _ => Done (0, dataptr)
  end.

(** The loop of [pbuf_copy_partial_pbuf]; the lengths are [size_t]. *)
Fixpoint pbuf_copy_loop (fuel : nat) (h : heap) (p_to p_from : option ptr)
    (copy_len offset_to offset_from : Z) : outcome (err_t * heap) :=
  match fuel with
  | O => Undef
  | S fuel =>
      tb ← deref h p_to;
      fb ← deref h p_from;
      let room := u64 (p_len tb - offset_to) in
      let rest := u64 (p_len fb - offset_from) in
      let len := if rest <=? room then rest else room in
      let len := if copy_len <? len then copy_len else len in
      bytes ← read_payload h fb offset_from len;
      h ← write_payload h tb offset_to bytes;
      let offset_to := u64 (offset_to + len) in
      let offset_from := u64 (offset_from + len) in
      let copy_len := u16 (copy_len - len) in
      _ ← lwip_assert (offset_to <=? p_len tb);
      _ ← lwip_assert (offset_from <=? p_len fb);
      let '(p_from, offset_from) :=
        if p_len fb <=? offset_from then (p_next fb, 0) else (p_from, offset_from) in
      if negb (bool_decide (p_from <> None) || (copy_len =? 0)) then Done (ERR_ARG, h)
      else
        let '(p_to, offset_to) :=
          if offset_to =? p_len tb then (p_next tb, 0) else (p_to, offset_to) in
        if negb (bool_decide (p_to <> None) || (copy_len =? 0)) then Done (ERR_ARG, h)
        else
          let queued (p : option ptr) : outcome bool :=
            match p with
            | None => Done false
            | Some p => pb ← get h p;
                        Done ((p_len pb =? p_tot_len pb) && bool_decide (p_next pb <> None))
            end in
          from_queued ← queued p_from;
          if (from_queued : bool) then Done (ERR_VAL, h)
          else
            to_queued ← queued p_to;
            if (to_queued : bool) then Done (ERR_VAL, h)
            else if copy_len =? 0 then Done (ERR_OK, h)
            else pbuf_copy_loop fuel h p_to p_from copy_len offset_to offset_from
  end.

Definition pbuf_copy_partial_pbuf (h : heap) (p_to p_from : option ptr) (copy_len offset : Z)
    : outcome (err_t * heap) :=
  match p_from, p_to with
  | Some f, Some t =>
      fb ← get h f;
      if negb (copy_len <=? p_tot_len fb) then Done (ERR_ARG, h)
      else
        tb ← get h t;
        if negb (offset + copy_len <=? p_tot_len tb) then Done (ERR_ARG, h)
        else pbuf_copy_loop (walk_fuel h + walk_fuel h) h p_to p_from copy_len offset 0
  | _, _ => Done (ERR_ARG, h)
  end.

Definition pbuf_copy (h : heap) (p_to p_from : option ptr) : outcome (err_t * heap) :=
  match p_from with
  | None => Done (ERR_ARG, h)
  | Some f => fb ← get h f; pbuf_copy_partial_pbuf h p_to p_from (p_tot_len fb) 0
  end.

(** A pointer into a payload, or the caller's buffer. *)
Inductive contiguous := InPayload (a : addr) | InBuffer.

Definition pbuf_get_contiguous (h : heap) (p : option ptr) (buffer : option block)
    (bufsize len offset : Z) : outcome (option contiguous * option block) :=
  match p, buffer with
  | Some _, Some _ =>
      if negb (len <=? bufsize) then Done (None, buffer)
      else
        '(q, out_offset) ← pbuf_skip_const h p offset;
        match q with
        | None => Done (None, buffer)
        | Some q =>
            qb ← get h q;
            if out_offset + len <=? p_len qb then
              match p_payload qb with
              | Some a => Done (Some (InPayload (mk_addr (a_block a) (a_off a + out_offset))), buffer)
              | None => Undef
              end
            else
              '(n, buffer) ← pbuf_copy_partial h (Some q) buffer len out_offset;
              Done (if n =? len then Some InBuffer else None, buffer)
        end
  | _, _ => Done (None, buffer)
  end.

(** The loop of [pbuf_take]. *)
Fixpoint pbuf_take_loop (fuel : nat) (h : heap) (p : option ptr) (data : list Z) : outcome heap :=
  if zlen data =? 0 then Done h
  else
    match fuel, p with
    | S fuel, Some p =>
        pb ← get h p;
        let buf_copy_len := if p_len pb <? zlen data then p_len pb else zlen data in
        h ← write_payload h pb 0 (ztake buf_copy_len data);
        pbuf_take_loop fuel h (p_next pb) (zdrop buf_copy_len data)
    | _, _ => Undef
    end.

(** [data] is the caller's buffer up to [len]. *)
Definition pbuf_take (h : heap) (buf : option ptr) (data : option (list Z)) : outcome (err_t * heap) :=
  match buf, data with
  | Some p, Some data =>
      pb ← get h p;
      if p_tot_len pb <? zlen data then Done (ERR_MEM, h)
      else h ← pbuf_take_loop (walk_fuel h) h buf data; Done (ERR_OK, h)
  | _, _ => Done (ERR_ARG, h)
  end.

Definition pbuf_take_at (h : heap) (buf : option ptr) (data : list Z) (offset : Z)
    : outcome (err_t * heap) :=
  '(q, target_offset) ← pbuf_skip h buf offset;
  match q with
  | None => Done (ERR_MEM, h)
  | Some q =>
      qb ← get h q;
      if target_offset + zlen data <=? p_tot_len qb then
        _ ← lwip_assert (target_offset <? p_len qb);
        let room := p_len qb - target_offset in
        let first_copy_len := u16 (if zlen data <? room then zlen data else room) in
        h ← write_payload h qb target_offset (ztake first_copy_len data);
        let rest := zdrop first_copy_len data in
        if 0 <? zlen rest then pbuf_take h (p_next qb) (Some rest) else Done (ERR_OK, h)
      else Done (ERR_MEM, h)
  end.

(** [None] is a negative result. *)
Definition pbuf_try_get_at (h : heap) (p : option ptr) (offset : Z) : outcome (option Z) :=
  '(q, q_idx) ← pbuf_skip_const h p offset;
  match q with
  | None => Done None
  | Some q =>
      qb ← get h q;
      if q_idx <? p_len qb then
        bytes ← read_payload h qb q_idx 1;
        Done (head bytes)
      else Done None
  end.

Definition pbuf_get_at (h : heap) (p : option ptr) (offset : Z) : outcome Z :=
  r ← pbuf_try_get_at h p offset;
  Done (match r with Some b => u8 b | None => 0 end).

Definition pbuf_put_at (h : heap) (p : option ptr) (offset data : Z) : outcome heap :=
  '(q, q_idx) ← pbuf_skip h p offset;
  match q with
  | None => Done h
  | Some q => qb ← get h q; if q_idx <? p_len qb then write_payload h qb q_idx [data] else Done h
  end.

(** The comparison loop: [s] is what is left of the buffer, [i] the index. *)
Fixpoint pbuf_memcmp_loop (h : heap) (q : option ptr) (start i : Z) (s : list Z) : outcome Z :=
  match s with
  | [] => Done 0
  | b :: s =>
      a ← pbuf_get_at h q (u16 (start + i));
      if a =? b then pbuf_memcmp_loop h q start (u16 (i + 1)) s
      else Done (u16 (if i + 1 <? 0xFFFF then i + 1 else 0xFFFF))
  end.

Definition pbuf_memcmp (h : heap) (p : ptr) (offset : Z) (s2 : list Z) : outcome Z :=
  pb ← get h p;
  if p_tot_len pb <? offset + zlen s2 then Done 0xFFFF
  else
    '(q, start) ← pbuf_skip_const h (Some p) offset;
    pbuf_memcmp_loop h q start 0 s2.

Fixpoint pbuf_memfind_loop (fuel : nat) (h : heap) (p : ptr) (mem : list Z) (i max_cmp_start : Z)
    : outcome Z :=
  if i <=? max_cmp_start then
    match fuel with
    | O => Undef
    | S fuel =>
        plus ← pbuf_memcmp h p i mem;
        if plus =? 0 then Done i
        else pbuf_memfind_loop fuel h p mem (u16 (i + 1)) max_cmp_start
    end
  else Done 0xFFFF.

(** [i] is 16 bits wide: with [max_cmp_start] the largest 16-bit number the loop
    would not end by itself. *)
Definition pbuf_memfind (h : heap) (p : ptr) (mem : list Z) (start_offset : Z) : outcome Z :=
  pb ← get h p;
  let max_cmp_start := u16 (p_tot_len pb - zlen mem) in
  if zlen mem + start_offset <=? p_tot_len pb
  then pbuf_memfind_loop (Z.to_nat 0x10000) h p mem start_offset max_cmp_start
  else Done 0xFFFF.

(** [substr] is the C string up to its NUL. *)
Definition pbuf_strstr (h : heap) (p : ptr) (substr : option (list Z)) : outcome Z :=
  match substr with
  | None | Some [] => Done 0xFFFF
  | Some s =>
      pb ← get h p;
      if p_tot_len pb =? 0xFFFF then Done 0xFFFF
      else if 0xFFFF <=? zlen s then Done 0xFFFF
      else pbuf_memfind h p s 0
  end.

(** ** Copies of a packet *)

Definition pbuf_clone `{Malloc} (h : heap) (layer : pbuf_layer) (type : pbuf_type) (p : ptr)
    : outcome (option ptr * heap) :=
  pb ← get h p;
  '(q, h) ← pbuf_alloc h layer (p_tot_len pb) type;
  match q with
  | None => Done (None, h)
  | Some q =>
      '(err, h) ← pbuf_copy h (Some q) (Some p);
      _ ← lwip_assert (bool_decide (err = ERR_OK));
      Done (Some q, h)
  end.

Definition pbuf_coalesce `{Malloc} (h : heap) (p : ptr) (layer : pbuf_layer) : outcome (ptr * heap) :=
  pb ← get h p;
  match p_next pb with
  | None => Done (p, h)
  | Some _ =>
      '(q, h) ← pbuf_clone h layer PBUF_RAM p;
      match q with
      | None => Done (p, h)
      | Some q => '(_, h) ← pbuf_free h (Some p); Done (q, h)
      end
  end.
