(* ===== verification/PbufChain.v ===== *)
(** * Chains of packet buffers

    What it means for a chain to hold a packet: the buffers are linked, every
    [tot_len] is the length of the rest of the chain, and the payloads concatenate
    to the packet's bytes. The frame lemmas say which updates of the heap a chain
    survives. *)
From Stdlib Require Import ZArith Lia.
From stdpp Require Import base list option numbers gmap.
From S2P Require Import Prelude Pbuf.

(** A node is a pointer with the buffer stored there. *)
Abbreviation node := (ptr * pbuf)%type.

(** [l] leads from [p] to [r] along the [next] pointers. *)
Fixpoint linked (p r : option ptr) (l : list node) : Prop :=
  match l with
  | [] => p = r
  | (q, pb) :: l => p = Some q /\ linked (p_next pb) r l
  end.

Definition stored (h : heap) (l : list node) : Prop :=
  Forall (fun x => h_pbufs h !! x.1 = Some x.2) l.

Lemma stored_cons h q pb l :
  stored h ((q, pb) :: l) <-> h_pbufs h !! q = Some pb /\ stored h l.
Proof. unfold stored. by rewrite Forall_cons. Qed.

Fixpoint total (l : list node) : Z :=
  match l with [] => 0 | (_, pb) :: l => p_len pb + total l end.

(** The invariant of [tot_len], and no negative length. *)
Fixpoint lengths_ok (l : list node) : Prop :=
  match l with
  | [] => True
  | (_, pb) :: l => 0 <= p_len pb /\ p_tot_len pb = p_len pb + total l /\ lengths_ok l
  end.

Fixpoint contents (h : heap) (l : list node) (d : list Z) : Prop :=
  match l with
  | [] => d = []
  | (_, pb) :: l =>
      exists d1 d2, d = d1 ++ d2 /\ zlen d1 = p_len pb
        /\ read_payload h pb 0 (p_len pb) = Done d1 /\ contents h l d2
  end.

(** The chain [l] from [p] is a packet with the bytes [d]. *)
Record packet (h : heap) (p : option ptr) (l : list node) (d : list Z) : Prop := {
  pk_linked : linked p None l;
  pk_stored : stored h l;
  pk_lengths : lengths_ok l;
  pk_total : total l < 2 ^ 16;
  pk_contents : contents h l d;
}.

(** ** Links *)

Lemma linked_app p r l1 l2 :
  linked p r (l1 ++ l2) <-> exists q, linked p q l1 /\ linked q r l2.
Proof.
  revert p. induction l1 as [|[q pb] l1 IH]; intros p; simpl.
  - split; [eauto|]. by intros (q & -> & H).
  - rewrite IH. naive_solver.
Qed.

Lemma linked_some p r l : linked (Some p) r l -> r <> Some p -> exists pb l', l = (p, pb) :: l'.
Proof. destruct l as [|[q pb] l]; simpl; [congruence|]. intros [[= ->] _] _. eauto. Qed.

(** The heap determines a chain. *)
Lemma linked_unique h p l1 l2 :
  stored h l1 -> stored h l2 -> linked p None l1 -> linked p None l2 -> l1 = l2.
Proof.
  intros H1. revert p l2. induction H1 as [|[q pb] l1 Hq _ IH]; intros p l2 H2 Hp1 Hp2.
  - simpl in Hp1. subst p. destruct l2 as [|[q2 pb2] l2]; [done|]. by destruct Hp2.
  - destruct Hp1 as [-> Hp1]. destruct l2 as [|[q2 pb2] l2]; [done|].
    destruct Hp2 as [[= <-] Hp2]. apply Forall_cons_1 in H2 as [Hq2 H2]. simpl in Hq, Hq2.
    assert (pb2 = pb) as -> by congruence. f_equal. by apply (IH (p_next pb)).
Qed.

Lemma stored_app h l1 l2 : stored h (l1 ++ l2) <-> stored h l1 /\ stored h l2.
Proof. apply Forall_app. Qed.

(** No buffer occurs twice in a chain that ends. *)
Lemma linked_nodup h p l : stored h l -> linked p None l -> NoDup l.*1.
Proof.
  revert p. induction l as [|[q pb] l IH]; intros p Hs Hl; [constructor|].
  pose proof Hs as Hs0. apply Forall_cons_1 in Hs as [Hq Hs]. destruct Hl as [-> Hl].
  simpl. constructor; [|by apply (IH (p_next pb))].
  intros Hin. apply list_elem_of_fmap in Hin as ([q' pb'] & Heq & Hin). simpl in Heq. subst q'.
  apply list_elem_of_split in Hin as (l1 & l2 & ->).
  pose proof (proj1 (stored_app _ _ _) Hs) as [_ Hs2]. apply Forall_cons_1 in Hs2 as [Hq' Hs2].
  simpl in Hq, Hq'. assert (pb' = pb) as -> by congruence.
  pose proof (proj1 (linked_app _ _ _ _) Hl) as (x & _ & _ & Hl2).
  pose proof (linked_unique h (p_next pb) l2 (l1 ++ (q, pb) :: l2) Hs2 Hs Hl2 Hl) as Heq.
  apply (f_equal length) in Heq. rewrite length_app in Heq. simpl in Heq. lia.
Qed.

(** Walking a chain needs no more rounds than the heap has buffers. *)
Lemma chain_fuel h p l : stored h l -> linked p None l -> (length l < walk_fuel h)%nat.
Proof.
  intros Hs Hl. unfold walk_fuel. apply Nat.lt_succ_r.
  rewrite <-(length_fmap fst), <-(size_dom (D := gset ptr)).
  rewrite <-(size_list_to_set (C := gset ptr)) by by apply (linked_nodup h p).
  apply subseteq_size. intros q Hq. apply elem_of_list_to_set, list_elem_of_fmap in Hq
    as ([q' pb] & -> & Hin). apply elem_of_dom. exists pb.
  unfold stored in Hs. rewrite Forall_forall in Hs. exact (Hs _ Hin).
Qed.

(** ** Frames *)

Lemma stored_put h p pb l : p ∉ l.*1 -> stored h l -> stored (put h p pb) l.
Proof.
  intros Hp Hs. unfold stored in *. rewrite Forall_forall in *. intros [q qb] Hin.
  unfold put. cbn [h_pbufs fst snd]. rewrite lookup_insert_ne; [exact (Hs _ Hin)|].
  intros ->. apply Hp, list_elem_of_fmap. by exists (q, qb).
Qed.

Lemma put_lookup h p pb : h_pbufs (put h p pb) !! p = Some pb.
Proof. apply lookup_insert_eq. Qed.

Lemma get_put h p pb : get (put h p pb) p = Done pb.
Proof. unfold get. by rewrite put_lookup. Qed.

Lemma get_put_ne h p q pb : p <> q -> get (put h p pb) q = get h q.
Proof. intros. unfold get, put. cbn [h_pbufs]. by rewrite lookup_insert_ne. Qed.

Lemma get_stored h q qb : h_pbufs h !! q = Some qb -> get h q = Done qb.
Proof. intros H. unfold get. by rewrite H. Qed.

Lemma read_payload_put h p pb qb off n : read_payload (put h p pb) qb off n = read_payload h qb off n.
Proof. done. Qed.

Lemma contents_put h p pb l d : contents (put h p pb) l d <-> contents h l d.
Proof.
  revert d. induction l as [|[q qb] l IH]; intros d; simpl; [done|].
  by setoid_rewrite IH.
Qed.

Lemma contents_app h l1 l2 d :
  contents h (l1 ++ l2) d <->
  exists d1 d2, d = d1 ++ d2 /\ contents h l1 d1 /\ contents h l2 d2.
Proof.
  revert d. induction l1 as [|[q qb] l1 IH]; intros d; simpl.
  - split; [intros H; by exists [], d|]. by intros (d1 & d2 & -> & -> & H).
  - setoid_rewrite IH. split.
    + intros (d1 & d2 & -> & Hl & Hr & d3 & d4 & -> & H3 & H4).
      exists (d1 ++ d3), d4. rewrite app_assoc. split; [done|]. split; [|done]. eauto 6.
    + intros (d12 & d4 & -> & (d1 & d3 & -> & Hl & Hr & H3) & H4).
      exists d1, (d3 ++ d4). rewrite app_assoc. eauto 10.
Qed.

Lemma contents_length h l d : contents h l d -> zlen d = total l.
Proof.
  revert d. induction l as [|[q qb] l IH]; intros d; simpl; [by intros ->|].
  intros (d1 & d2 & -> & Hl & _ & H2). rewrite zlen_app, (IH _ H2). lia.
Qed.

Lemma total_app l1 l2 : total (l1 ++ l2) = total l1 + total l2.
Proof. induction l1 as [|[q qb] l1 IH]; simpl; lia. Qed.

Lemma lengths_nonneg l : lengths_ok l -> 0 <= total l.
Proof. induction l as [|[q qb] l IH]; simpl; [lia|]. intros (H & _ & Hl). apply IH in Hl. lia. Qed.

Lemma lengths_app_r l1 l2 : lengths_ok (l1 ++ l2) -> lengths_ok l2.
Proof. induction l1 as [|[q qb] l1 IH]; simpl; [done|]. by intros (_ & _ & H); apply IH. Qed.

(** ** Memory *)

Lemma load_cells_app m1 m2 :
  load_cells (m1 ++ m2) = (d1 ← load_cells m1; d2 ← load_cells m2; Done (d1 ++ d2)).
Proof.
  induction m1 as [|[b|] m1 IH]; simpl; [|rewrite IH|done].
  - by destruct (load_cells m2).
  - destruct (load_cells m1); simpl; [|done]. by destruct (load_cells m2).
Qed.

Lemma load_cells_map m d : load_cells m = Done d -> m = map Some d.
Proof.
  revert d. induction m as [|[b|] m IH]; intros d; simpl; [by intros [= <-]| |done].
  destruct (load_cells m) as [d'|]; simpl; [|done]. intros [= <-]. simpl. by rewrite <-IH.
Qed.

(** What [load_bytes] reads. *)
Lemma load_bytes_inv m off n d :
  load_bytes m off n = Done d ->
  0 <= off /\ zlen d = n /\ exists pre post, m = pre ++ map Some d ++ post /\ zlen pre = off.
Proof.
  unfold load_bytes. case_bool_decide as H; [|done]. destruct H as (H1 & H2 & H3).
  intros Hl%load_cells_map.
  assert (zlen d = n) as Hd.
  { apply (f_equal zlen) in Hl. rewrite zlen_map, zlen_take in Hl; [lia|].
    rewrite length_drop. unfold zlen in *. lia. }
  split; [done|]. split; [exact Hd|].
  exists (take (Z.to_nat off) m), (drop (Z.to_nat n) (drop (Z.to_nat off) m)).
  rewrite <-Hl, !take_drop. split; [done|]. apply zlen_ztake. lia.
Qed.

Lemma load_bytes_middle (pre post : block) d off n :
  off = zlen pre -> n = zlen d -> load_bytes (pre ++ map Some d ++ post) off n = Done d.
Proof.
  intros -> ->. unfold load_bytes. rewrite bool_decide_eq_true_2.
  - unfold zlen. rewrite !Nat2Z.id, drop_app_length.
    rewrite take_app_length' by by rewrite length_map. apply load_cells_some.
  - rewrite !zlen_app, zlen_map. pose proof (zlen_nonneg pre). pose proof (zlen_nonneg d).
    pose proof (zlen_nonneg post). lia.
Qed.

Lemma load_bytes_sub m off n d k j :
  load_bytes m off n = Done d -> 0 <= k -> 0 <= j -> k + j <= n ->
  load_bytes m (off + k) j = Done (ztake j (zdrop k d)).
Proof.
  intros (Hoff & Hd & pre & post & -> & Hpre)%load_bytes_inv Hk Hj Hkj.
  assert (zlen (ztake k d) = k) as Ht by (rewrite zlen_ztake; lia).
  assert (zlen (zdrop k d) = zlen d - k) as Hr by (rewrite zlen_zdrop; lia).
  rewrite <-(ztake_zdrop k d) at 1. rewrite <-(ztake_zdrop j (zdrop k d)) at 1.
  rewrite !map_app, <-!app_assoc, (app_assoc pre).
  apply load_bytes_middle; [rewrite zlen_app, zlen_map; lia|]. rewrite zlen_ztake; lia.
Qed.

Lemma read_payload_sub h pb n d k j :
  read_payload h pb 0 n = Done d -> 0 <= k -> 0 <= j -> k + j <= n ->
  read_payload h pb k j = Done (ztake j (zdrop k d)).
Proof.
  unfold read_payload. destruct (p_payload pb) as [a|]; [|done].
  destruct (h_mem h !! a_block a) as [m|]; [|done]. rewrite Z.add_0_r. apply load_bytes_sub.
Qed.

(** Overwriting bytes that follow a known prefix. *)
Lemma store_bytes_after (pre : list Z) (rest : block) off src :
  off = zlen pre -> zlen src <= zlen rest ->
  store_bytes (map Some pre ++ rest) off src
  = Done (map Some (pre ++ src) ++ zdrop (zlen src) rest).
Proof.
  intros -> Hroom. rewrite <-(ztake_zdrop (zlen src) rest) at 1.
  rewrite store_bytes_middle; [by rewrite map_app, <-app_assoc|by rewrite zlen_map|].
  assert (zlen (ztake (zlen src) rest) = zlen src) as H
    by (apply zlen_ztake; pose proof (zlen_nonneg src); lia).
  unfold zlen in *. lia.
Qed.
