(* ===== verification/PbufRead.v ===== *)
(** * Reading packets

    [pbuf_skip], [pbuf_copy_partial], [pbuf_get_at], [pbuf_memcmp] and
    [pbuf_memfind] as functions of the packet's bytes. *)
From Stdlib Require Import ZArith Lia.
From stdpp Require Import base list option numbers gmap.
From S2P Require Import Prelude Pbuf PbufChain.

(** ** Skipping *)

(** Byte [off] is at offset [o] of the first buffer of [l2]. *)
Lemma skip_loop_spec fuel h p l off :
  linked p None l -> stored h l -> lengths_ok l -> (length l <= fuel)%nat -> 0 <= off < 2 ^ 16 ->
  exists q o l1 l2, pbuf_skip_loop fuel h p off = Done (q, o)
    /\ l = l1 ++ l2 /\ linked q None l2 /\ off = total l1 + o /\ 0 <= o
    /\ match l2 with [] => q = None | (_, pb) :: _ => o < p_len pb end.
Proof.
  revert fuel p off. induction l as [|[q pb] l IH]; intros fuel p off Hl Hs Hlen Hf Hoff.
  - simpl in Hl. subst p. exists None, off, [], []. destruct fuel; (split; [done|]); split_and!; done || lia.
  - destruct Hl as [-> Hl]. apply stored_cons in Hs as [Hq Hs].
    destruct Hlen as (Hpos & Htot & Hlen). destruct fuel as [|fuel]; [simpl in Hf; lia|].
    cbn [pbuf_skip_loop]. rewrite (get_stored _ _ _ Hq), outcome_bind_done.
    destruct (Z.leb_spec (p_len pb) off).
    + rewrite wrap_small by (unfold fits; lia).
      destruct (IH fuel (p_next pb) (off - p_len pb)) as (r & o & l1 & l2 & -> & -> & Hr & Ho & Ho0 & Hb);
        [done|done|done|simpl in Hf; lia|lia|].
      exists r, o, ((q, pb) :: l1), l2. split; [done|]. split; [done|]. split; [done|].
      split; [simpl; lia|by split].
    + exists (Some q), off, [], ((q, pb) :: l). split_and!; try done; simpl; lia.
Qed.

Lemma skip_spec h p l off :
  linked p None l -> stored h l -> lengths_ok l -> 0 <= off < 2 ^ 16 ->
  exists q o l1 l2, pbuf_skip_const h p off = Done (q, o)
    /\ l = l1 ++ l2 /\ linked q None l2 /\ off = total l1 + o /\ 0 <= o
    /\ match l2 with [] => q = None | (_, pb) :: _ => o < p_len pb end.
Proof.
  intros Hl Hs Hlen Hoff. apply skip_loop_spec; try done.
  pose proof (chain_fuel h p l Hs Hl). lia.
Qed.

(** ** Copying out *)

(** The bytes of [d] from [offset], at most [len]. *)
Definition slice {A} (offset len : Z) (d : list A) : list A := ztake len (zdrop offset d).

Lemma slice_app_skip {A} offset len (d1 d2 : list A) :
  zlen d1 <= offset -> slice offset len (d1 ++ d2) = slice (offset - zlen d1) len d2.
Proof. intros H. unfold slice. by rewrite zdrop_app_ge. Qed.

Lemma slice_app_split {A} offset len (d1 d2 : list A) :
  0 <= offset <= zlen d1 -> 0 <= len ->
  let n := Z.min len (zlen d1 - offset) in
  slice offset len (d1 ++ d2) = ztake n (zdrop offset d1) ++ slice 0 (len - n) d2.
Proof.
  intros Hoff Hlen n. unfold slice. rewrite zdrop_app_le by lia.
  assert (zlen (zdrop offset d1) = zlen d1 - offset) as Hz by (rewrite zlen_zdrop; lia).
  rewrite ztake_app, (zdrop_nonpos 0) by lia. rewrite Hz. f_equal.
  - destruct (Z.le_gt_cases len (zlen d1 - offset)).
    + by replace n with len by lia.
    + rewrite !ztake_all by lia. done.
  - destruct (Z.le_gt_cases len (zlen d1 - offset)).
    + rewrite !ztake_nonpos by lia. done.
    + f_equal. lia.
Qed.

Lemma copy_partial_loop_spec fuel h p l d pre rest len offset left :
  linked p None l -> stored h l -> lengths_ok l -> contents h l d -> total l < 2 ^ 16 ->
  (length l <= fuel)%nat -> 0 <= offset < 2 ^ 16 -> 0 <= len -> left = zlen pre ->
  zlen pre + len < 2 ^ 16 -> zlen (slice offset len d) <= zlen rest ->
  pbuf_copy_partial_loop fuel h p (map Some pre ++ rest) len offset left left
  = Done (zlen (pre ++ slice offset len d),
          map Some (pre ++ slice offset len d) ++ zdrop (zlen (slice offset len d)) rest).
Proof.
  revert fuel p d pre rest len offset left.
  induction l as [|[q pb] l IH]; intros fuel p d pre rest len offset left Hl Hs Hlen Hc Htot Hf
    Hoff Hn -> Hsum Hroom.
  - simpl in Hl, Hc. subst p d. unfold slice. rewrite zdrop_nil, ztake_nil, app_nil_r.
    rewrite (zdrop_nonpos (zlen [])) by done. by destruct fuel; cbn; destruct (len =? 0).
  - destruct Hl as [-> Hl]. apply stored_cons in Hs as [Hq Hs].
    destruct Hlen as (Hpos & _ & Hlen). destruct Hc as (d1 & d2 & -> & Hd1 & Hread & Hc).
    cbn [total] in Htot. pose proof (lengths_nonneg l Hlen).
    destruct fuel as [|fuel]; [simpl in Hf; lia|]. cbn [pbuf_copy_partial_loop].
    destruct (Z.eqb_spec len 0) as [->|Hnz].
    { unfold slice. rewrite ztake_nonpos, app_nil_r by lia. by rewrite zdrop_nonpos. }
    rewrite (get_stored _ _ _ Hq), outcome_bind_done.
    assert (negb (offset =? 0) && (p_len pb <=? offset) = true ->
      zlen d1 <= offset) as Hskip by (intros [_ H0]%andb_prop; bool_facts; lia).
    destruct (negb (offset =? 0) && (p_len pb <=? offset)) eqn:Hb.
    + specialize (Hskip eq_refl). rewrite slice_app_skip in Hroom |- * by done.
      rewrite (wrap_small 16 (offset - _)), <-Hd1 by (unfold fits; lia).
      apply IH; done || lia || (simpl in Hf; lia).
    + clear Hskip. assert (0 <= offset <= zlen d1) as Ho.
      { apply andb_false_iff in Hb as [Hb|Hb]; bool_facts; [|lia].
        apply negb_false_iff in Hb. bool_facts. lia. }
      pose proof (slice_app_split offset len d1 d2 Ho ltac:(lia)) as Hslice. cbv zeta in Hslice.
      rewrite (wrap_small 16 (p_len pb - offset)) by (unfold fits; lia).
      set (n := if len <? p_len pb - offset then _ else _).
      assert (n = Z.min len (zlen d1 - offset)) as Hn' by (unfold n; zcase). clearbody n.
      rewrite <-Hn' in Hslice.
      rewrite (read_payload_sub h pb (p_len pb) d1) by (done || lia).
      rewrite outcome_bind_done.
      assert (zlen (ztake n (zdrop offset d1)) = n) as Hz
        by (rewrite zlen_ztake; [done|rewrite zlen_zdrop; lia]).
      rewrite Hslice, zlen_app, Hz in Hroom. pose proof (zlen_nonneg (slice 0 (len - n) d2)).
      pose proof (zlen_nonneg pre).
      rewrite (store_bytes_after pre rest) by (done || lia). rewrite outcome_bind_done, Hz.
      rewrite (wrap_small 16 (len - n)), (wrap_small 16 (zlen pre + n)) by (unfold fits; lia).
      rewrite (IH fuel (p_next pb) d2); try done; try (rewrite ?zlen_app; lia); try (simpl in Hf; lia).
      * rewrite Hslice, <-!app_assoc. do 2 f_equal.
        rewrite (zlen_app (ztake n _)), Hz, <-zdrop_zdrop by lia. done.
      * rewrite zlen_zdrop; lia.
Qed.

(** The copy of the bytes [offset, offset + len) that the packet has. *)
Lemma copy_partial_spec h p l d dst len offset :
  packet h (Some p) l d -> 0 <= offset < 2 ^ 16 -> 0 <= len < 2 ^ 16 ->
  zlen (slice offset len d) <= zlen dst ->
  pbuf_copy_partial h (Some p) (Some dst) len offset
  = Done (zlen (slice offset len d),
          Some (map Some (slice offset len d) ++ zdrop (zlen (slice offset len d)) dst)).
Proof.
  intros [Hl Hs Hlen Htot Hc] Hoff Hn Hroom. unfold pbuf_copy_partial.
  pose proof (chain_fuel h (Some p) l Hs Hl).
  pose proof (copy_partial_loop_spec (walk_fuel h) h (Some p) l d [] dst len offset 0) as Hcp.
  cbn [map app] in Hcp. rewrite Hcp; done || lia || (rewrite (@zlen_nil Z); lia) || idtac.
Qed.

Lemma slice_all {A} (d : list A) : slice 0 (zlen d) d = d.
Proof. unfold slice. rewrite zdrop_nonpos by lia. apply ztake_all. lia. Qed.

(** ** Single bytes *)

Lemma slice_one (d : list Z) off :
  0 <= off < zlen d -> slice off 1 d = [nth (Z.to_nat off) d 0].
Proof.
  intros H. unfold slice, ztake, zdrop. change (Z.to_nat 1) with 1%nat.
  destruct (drop (Z.to_nat off) d) as [|x r] eqn:E.
  - apply (f_equal length) in E. rewrite length_drop in E. simpl in E. unfold zlen in H. lia.
  - rewrite <-(Nat.add_0_r (Z.to_nat off)), <-nth_skipn. change skipn with (@drop Z). by rewrite E.
Qed.

Lemma get_at_spec h p l d off :
  packet h p l d -> are_bytes d -> 0 <= off < 2 ^ 16 ->
  pbuf_get_at h p off = Done (nth (Z.to_nat off) d 0).
Proof.
  intros [Hl Hs Hlen Htot Hc] Hb Hoff. unfold pbuf_get_at, pbuf_try_get_at.
  destruct (skip_spec h p l off) as (q & o & l1 & l2 & -> & -> & Hq & -> & Ho0 & Ho); [done..|].
  rewrite outcome_bind_done. apply contents_app in Hc as (d1 & d2 & -> & Hc1 & Hc2).
  pose proof (contents_length _ _ _ Hc1) as Hd1. pose proof (zlen_nonneg d1).
  destruct l2 as [|[q2 pb2] l2].
  - simpl in Hq, Hc2. subst q d2. rewrite outcome_bind_done, app_nil_r.
    rewrite nth_overflow; [done|]. unfold zlen in Hd1. lia.
  - cbn beta iota in Ho. destruct Hq as [-> Hq].
    apply stored_app in Hs as [_ Hs]. apply stored_cons in Hs as [Hst _].
    rewrite (get_stored _ _ _ Hst), outcome_bind_done. zcase.
    destruct Hc2 as (x & y & -> & Hx & Hread & _).
    rewrite (read_payload_sub h pb2 (p_len pb2) x) by (done || lia). rewrite !outcome_bind_done.
    fold (slice o 1 x). rewrite slice_one by lia. cbn [head].
    assert (nth (Z.to_nat (total l1 + o)) (d1 ++ x ++ y) 0 = nth (Z.to_nat o) x 0) as ->.
    { rewrite app_nth2 by (unfold zlen in Hd1; lia). rewrite app_nth1 by (unfold zlen in *; lia).
      f_equal. unfold zlen in Hd1. lia. }
    f_equal. apply wrap_small. apply Forall_app in Hb as [_ Hb]. apply Forall_app in Hb as [Hb _].
    unfold are_bytes in Hb. rewrite Forall_forall in Hb. apply Hb. apply list_elem_of_In, nth_In.
    unfold zlen in *. lia.
Qed.

(** ** Comparing and searching *)

(** [memcmp] on lists: 0, or one more than the first index that differs. *)
Fixpoint first_diff (i : Z) (a b : list Z) : Z :=
  match a, b with
  | x :: a, y :: b => if x =? y then first_diff (i + 1) a b else i + 1
  | _, _ => 0
  end.

Lemma first_diff_zero i a b :
  0 <= i -> zlen b <= zlen a -> first_diff i a b = 0 <-> ztake (zlen b) a = b.
Proof.
  revert i a. induction b as [|y b IH]; intros i a Hi Hl.
  - rewrite ztake_nonpos by done. by destruct a.
  - destruct a as [|x a]; [rewrite zlen_cons, (@zlen_nil Z) in Hl; pose proof (zlen_nonneg b); lia|].
    rewrite !zlen_cons in *. cbn [first_diff]. pose proof (zlen_nonneg b).
    assert (ztake (1 + zlen b) (x :: a) = x :: ztake (zlen b) a) as ->.
    { unfold ztake. replace (Z.to_nat (1 + zlen b)) with (S (Z.to_nat (zlen b))) by lia. done. }
    destruct (Z.eqb_spec x y) as [->|Hne].
    + rewrite IH by lia. split; [by intros ->|by intros [= ->]].
    + split; [lia|]. by intros [= -> _].
Qed.

Lemma packet_suffix h p l1 l2 q d :
  packet h p (l1 ++ l2) d -> linked q None l2 ->
  exists d2, packet h q l2 d2 /\ d2 = zdrop (total l1) d.
Proof.
  intros [_ Hs Hlen Htot Hc] Hq. apply contents_app in Hc as (d1 & d2 & -> & Hc1 & Hc2).
  exists d2. split.
  - split; [done|exact (proj2 (proj1 (stored_app _ _ _) Hs))|by apply lengths_app_r in Hlen| |done].
    rewrite total_app in Htot. pose proof (contents_length _ _ _ Hc1). pose proof (zlen_nonneg d1). lia.
  - rewrite <-(contents_length _ _ _ Hc1). by rewrite zdrop_app_zlen.
Qed.

Lemma packet_length h p l d : packet h p l d -> zlen d = total l.
Proof. intros [_ _ _ _ Hc]. exact (contents_length _ _ _ Hc). Qed.

Lemma memcmp_loop_spec h q l d o i s :
  packet h q l d -> are_bytes d -> 0 <= o -> 0 <= i -> o + i + zlen s <= zlen d ->
  pbuf_memcmp_loop h q o i s = Done (first_diff i (zdrop (o + i) d) s).
Proof.
  intros Hp Hb Ho. pose proof (packet_length _ _ _ _ Hp) as Hd. pose proof (pk_total _ _ _ _ Hp).
  revert i. induction s as [|b s IH]; intros i Hi Hlen.
  - cbn. by destruct (zdrop (o + i) d).
  - rewrite zlen_cons in Hlen. pose proof (zlen_nonneg s). cbn [pbuf_memcmp_loop].
    rewrite (wrap_small 16 (o + i)) by (unfold fits; lia).
    rewrite (get_at_spec h q l d) by (done || lia). rewrite outcome_bind_done.
    assert (zdrop (o + i) d = nth (Z.to_nat (o + i)) d 0 :: zdrop (o + (i + 1)) d) as Hz.
    { rewrite <-(ztake_zdrop 1 (zdrop (o + i) d)). fold (slice (o + i) 1 d).
      rewrite slice_one, zdrop_zdrop by lia. by rewrite Z.add_assoc. }
    rewrite Hz. cbn [first_diff]. destruct (_ =? b).
    + rewrite (wrap_small 16 (i + 1)) by (unfold fits; lia). apply IH; lia.
    + f_equal. destruct (Z.ltb_spec (i + 1) 0xFFFF); rewrite wrap_small; unfold fits; lia.
Qed.

Lemma memcmp_spec h p l d off s :
  packet h (Some p) l d -> are_bytes d -> 0 <= off < 2 ^ 16 ->
  pbuf_memcmp h p off s
  = Done (if zlen d <? off + zlen s then 0xFFFF else first_diff 0 (zdrop off d) s).
Proof.
  intros Hp Hb Hoff. pose proof (packet_length _ _ _ _ Hp) as Hd. pose proof Hp as [Hl Hs Hlen Htot _].
  unfold pbuf_memcmp. destruct l as [|[p' pb] l]; [done|]. pose proof Hl as [[= <-] _].
  pose proof Hs as [Hq _]%stored_cons. rewrite (get_stored _ _ _ Hq), outcome_bind_done.
  assert (p_tot_len pb = zlen d) as -> by (destruct Hlen as (_ & -> & _); simpl in Hd; lia).
  destruct (Z.ltb_spec (zlen d) (off + zlen s)); [done|].
  destruct (skip_spec h (Some p) ((p, pb) :: l) off)
    as (q & o & l1 & l2 & -> & Heq & Hq2 & Hoff' & Ho & _); [done..|].
  rewrite outcome_bind_done. rewrite Heq in Hp, Hd.
  destruct (packet_suffix h (Some p) l1 l2 q d Hp Hq2) as (d2 & Hp2 & ->).
  assert (0 <= total l1 <= zlen d) as Hl1.
  { rewrite Hd, total_app. pose proof (pk_lengths _ _ _ _ Hp) as Hlo.
    pose proof (lengths_nonneg _ (lengths_app_r _ _ Hlo)). split; [|lia].
    clear -Hlo. induction l1 as [|[x xb] l1 IH]; simpl; [lia|]. destruct Hlo as (? & _ & Hlo).
    specialize (IH Hlo). lia. }
  rewrite (memcmp_loop_spec h q l2 (zdrop (total l1) d)); [|done| |lia|lia|].
  - rewrite zdrop_zdrop, Z.add_0_r, <-Hoff' by lia. done.
  - unfold are_bytes, zdrop. by apply Forall_drop.
  - rewrite zlen_zdrop by lia. lia.
Qed.

(** [i] is the first position from [start] at which [s] occurs. *)
Definition occurs (d s : list Z) (i : Z) : Prop :=
  i + zlen s <= zlen d /\ slice i (zlen s) d = s.

Lemma memcmp_occurs d s off :
  0 <= off <= zlen d ->
  (if zlen d <? off + zlen s then 0xFFFF else first_diff 0 (zdrop off d) s) = 0 <-> occurs d s off.
Proof.
  intros Hoff. unfold occurs, slice. destruct (Z.ltb_spec (zlen d) (off + zlen s)).
  - split; [done|]. intros [? _]. lia.
  - rewrite first_diff_zero; [|lia|rewrite zlen_zdrop; lia]. split; [split; [lia|done]|by intros [_ ?]].
Qed.

Lemma memfind_loop_spec fuel h p l d s i :
  packet h (Some p) l d -> are_bytes d -> 0 <= i -> zlen s + i <= zlen d + 1 ->
  (Z.to_nat (zlen d - zlen s - i) < fuel)%nat \/ zlen s + i = zlen d + 1 ->
  (0 < zlen s \/ i + zlen s <= zlen d) ->
  exists r, pbuf_memfind_loop fuel h p s i (zlen d - zlen s) = Done r
    /\ ((r = 0xFFFF /\ forall j, i <= j -> ~ occurs d s j)
        \/ (i <= r /\ occurs d s r /\ forall j, i <= j < r -> ~ occurs d s j)).
Proof.
  intros Hp Hb. pose proof (packet_length _ _ _ _ Hp) as Hd. pose proof (pk_total _ _ _ _ Hp).
  revert i. induction fuel as [|fuel IH]; intros i Hi Hle Hf Hpos; cbn [pbuf_memfind_loop];
    (destruct (Z.leb_spec i (zlen d - zlen s));
     [|exists 0xFFFF; split; [done|]; left; split; [done|]; intros j Hj [? _]; lia]).
  - lia.
  - pose proof (zlen_nonneg s).
    rewrite (memcmp_spec h p l d) by (done || lia). rewrite outcome_bind_done.
    set (plus := if zlen d <? i + zlen s then _ else _).
    pose proof (memcmp_occurs d s i ltac:(lia)) as Hocc. fold plus in Hocc. clearbody plus.
    destruct (Z.eqb_spec plus 0) as [->|Hne].
    + exists i. split; [done|]. right. split; [lia|]. split; [by apply Hocc|]. intros j Hj. lia.
    + assert (0 < zlen s) as Hs.
      { destruct (Z.lt_ge_cases 0 (zlen s)); [done|]. exfalso. apply Hne, Hocc.
        assert (s = []) as -> by (apply zlen_zero; lia). split; [rewrite (@zlen_nil Z); lia|].
        by apply ztake_nonpos. }
      rewrite (wrap_small 16 (i + 1)) by (unfold fits; lia).
      destruct (IH (i + 1)) as (r & -> & Hr); [lia|lia|lia|by left|].
      exists r. split; [done|]. destruct Hr as [[-> Hr]|(Hr & Hocr & Hmin)].
      * left. split; [done|]. intros j Hj. destruct (Z.eq_dec j i) as [->|]; [|apply Hr; lia].
        intros Ho. by apply Hne, Hocc.
      * right. split; [lia|]. split; [done|]. intros j Hj.
        destruct (Z.eq_dec j i) as [->|]; [|apply Hmin; lia]. intros Ho. by apply Hne, Hocc.
Qed.

Lemma memfind_spec h p l d s start :
  packet h (Some p) l d -> are_bytes d -> 0 <= start < 2 ^ 16 -> zlen s < 2 ^ 16 ->
  exists r, pbuf_memfind h p s start = Done r
    /\ ((r = 0xFFFF /\ forall j, start <= j -> ~ occurs d s j)
        \/ (start <= r /\ occurs d s r /\ forall j, start <= j < r -> ~ occurs d s j)).
Proof.
  intros Hp Hb Hstart Hs. pose proof (packet_length _ _ _ _ Hp) as Hd. pose proof Hp as [Hl Hst Hlen Htot _].
  unfold pbuf_memfind. destruct l as [|[p' pb] l]; [done|]. pose proof Hl as [[= <-] _].
  pose proof Hst as [Hq _]%stored_cons. rewrite (get_stored _ _ _ Hq), outcome_bind_done.
  assert (p_tot_len pb = zlen d) as -> by (destruct Hlen as (_ & -> & _); simpl in Hd; lia).
  destruct (Z.leb_spec (zlen s + start) (zlen d)).
  - pose proof (zlen_nonneg s). rewrite wrap_small by (unfold fits; lia).
    apply (memfind_loop_spec _ h p ((p, pb) :: l)); try done; lia.
  - exists 0xFFFF. split; [done|]. left. split; [done|]. intros j Hj [? _]. lia.
Qed.
