(* ===== verification/PbufFree.v ===== *)
(** * Releasing, joining and shrinking chains

    [pbuf_free], [pbuf_cat], [pbuf_chain] and [pbuf_realloc]. *)
From Stdlib Require Import ZArith Lia.
From stdpp Require Import base list option numbers gmap.
From S2P Require Import Prelude Pbuf PbufChain PbufRead.

(** ** [pbuf_free] *)

Definition alloc_src (pb : pbuf) : Z := Z.land (p_type_internal pb) PBUF_TYPE_ALLOC_SRC_MASK.

(** The buffers released: the longest prefix held by one reference each. *)
Fixpoint ones (l : list node) : list node :=
  match l with
  | [] => []
  | (q, pb) :: l => if p_ref pb =? 1 then (q, pb) :: ones l else []
  end.

Fixpoint after_ones (l : list node) : list node :=
  match l with
  | [] => []
  | (q, pb) :: l' => if p_ref pb =? 1 then after_ones l' else l
  end.

Definition of_src (src : Z) (l : list node) : list node := List.filter (fun x => alloc_src x.2 =? src) l.

Definition drop_keys {A} (m : gmap ptr A) (ks : list ptr) : gmap ptr A := foldr delete m ks.

(** The prefix is gone with its memory, its pools have the elements back, and the
    first buffer after it has one reference less. *)
Definition freed (h : heap) (l : list node) : heap :=
  let gone := ones l in
  let pbufs := drop_keys (h_pbufs h) gone.*1 in
  mk_heap
    (match after_ones l with
     | (q, qb) :: _ => <[q := set_ref qb (p_ref qb - 1)]> pbufs
     | [] => pbufs
     end)
    (drop_keys (h_mem h) (List.filter (fun x => negb (alloc_src x.2 =? 1)) gone).*1)
    (h_fresh h)
    (length (of_src 1 gone) + h_memp_pbuf h) (length (of_src 2 gone) + h_memp_pool h).

(** One reference or more, and a known source. *)
Definition refs_ok (l : list node) : Prop :=
  Forall (fun x => 1 <= p_ref x.2 < 256 /\ 0 <= alloc_src x.2 <= 2) l.

Lemma drop_keys_delete {A} (m : gmap ptr A) k ks :
  drop_keys (delete k m) ks = delete k (drop_keys m ks).
Proof. induction ks as [|j ks IH]; simpl; [done|]. by rewrite IH, delete_delete. Qed.

Lemma drop_keys_lookup {A} (m : gmap ptr A) ks k :
  drop_keys m ks !! k = if decide (k ∈ ks) then None else m !! k.
Proof.
  induction ks as [|j ks IH]; simpl; [done|]. destruct (decide (k = j)) as [->|Hne].
  - rewrite lookup_delete_eq. by rewrite decide_True by set_solver.
  - rewrite lookup_delete_ne, IH by done. repeat case_decide; set_solver.
Qed.

Lemma release_one h p pb :
  0 <= alloc_src pb <= 2 ->
  release (put h p (set_ref pb 0)) p pb
  = Done (mk_heap (delete p (h_pbufs h))
            (if alloc_src pb =? 1 then h_mem h else delete p (h_mem h)) (h_fresh h)
            (if alloc_src pb =? 1 then S (h_memp_pbuf h) else h_memp_pbuf h)
            (if alloc_src pb =? 2 then S (h_memp_pool h) else h_memp_pool h)).
Proof.
  intros Hsrc. unfold release, put. cbn [h_pbufs h_mem h_fresh h_memp_pbuf h_memp_pool].
  fold (alloc_src pb). rewrite delete_insert_eq.
  unfold PBUF_TYPE_ALLOC_SRC_MASK_STD_MEMP_PBUF_POOL, PBUF_TYPE_ALLOC_SRC_MASK_STD_MEMP_PBUF,
    PBUF_TYPE_ALLOC_SRC_MASK_STD_HEAP.
  assert (alloc_src pb = 0 \/ alloc_src pb = 1 \/ alloc_src pb = 2) as [->|[->| ->]] by lia; done.
Qed.

Lemma free_loop_spec fuel h p l c :
  linked p None l -> stored h l -> refs_ok l -> (length l <= fuel)%nat -> fits 8 c ->
  pbuf_free_loop fuel h p c = Done (u8 (c + zlen (ones l)), freed h l).
Proof.
  revert fuel h p c. induction l as [|[q pb] l IH]; intros fuel h p c Hl Hs Hr Hf Hc.
  - simpl in Hl. subst p. rewrite Z.add_0_r, wrap_small by done.
    assert (freed h [] = h) as -> by (by destruct h). by destruct fuel.
  - pose proof (linked_nodup _ _ _ Hs Hl) as Hnd. destruct Hl as [-> Hl].
    apply stored_cons in Hs as [Hq Hs]. apply Forall_cons_1 in Hr as [[Href Hsrc] Hr].
    cbn [fst snd] in Href, Hsrc. destruct fuel as [|fuel]; [simpl in Hf; lia|].
    cbn [pbuf_free_loop]. rewrite (get_stored _ _ _ Hq), outcome_bind_done.
    rewrite (proj2 (Z.ltb_lt 0 (p_ref pb))) by lia. cbn [lwip_assert]. rewrite outcome_bind_done.
    rewrite wrap_small by (unfold fits; lia).
    destruct (Z.eqb_spec (p_ref pb - 1) 0) as [H0|H0].
    + assert (p_ref pb = 1) as H1 by lia. rewrite H0, release_one, outcome_bind_done by done.
      set (h1 := mk_heap _ _ _ _ _).
      rewrite (IH fuel h1 (p_next pb) (u8 (c + 1))).
      * do 2 f_equal.
        -- cbn [ones]. rewrite H1. change (1 =? 1) with true. cbv iota.
           rewrite zlen_cons, wrap_add_l. f_equal. lia.
        -- unfold freed, h1. cbn [ones after_ones]. rewrite H1.
           cbn [Z.eqb Pos.eqb fmap list_fmap fst snd List.filter of_src h_pbufs h_mem h_fresh
             h_memp_pbuf h_memp_pool drop_keys foldr].
           fold (drop_keys (h_pbufs h)). rewrite !drop_keys_delete.
           unfold of_src. cbn [List.filter fst snd].
           assert (alloc_src pb = 0 \/ alloc_src pb = 1 \/ alloc_src pb = 2) as [E|[E|E]] by lia;
             rewrite E; cbn [Z.eqb Pos.eqb negb fmap list_fmap foldr length];
             rewrite ?drop_keys_delete, <-?plus_n_Sm; done.
      * done.
      * unfold stored in *. rewrite Forall_forall in *. intros [x xb] Hx. cbn [fst snd h1 h_pbufs].
        rewrite lookup_delete_ne; [exact (Hs _ Hx)|]. intros <-.
        apply NoDup_cons_1_1 in Hnd. apply Hnd, list_elem_of_fmap. by exists (q, xb).
      * done.
      * simpl in Hf. lia.
      * apply wrap_fits. lia.
    + unfold freed, put. cbn [ones after_ones].
      rewrite (proj2 (Z.eqb_neq (p_ref pb) 1)) by lia. by rewrite Z.add_0_r, wrap_small.
Qed.

Lemma free_spec h p l :
  linked (Some p) None l -> stored h l -> refs_ok l ->
  pbuf_free h (Some p) = Done (u8 (zlen (ones l)), freed h l).
Proof.
  intros Hl Hs Hr. unfold pbuf_free. pose proof (chain_fuel _ _ _ Hs Hl).
  by rewrite (free_loop_spec _ _ _ l 0) by (done || lia).
Qed.

(** What the release leaves alone. *)
Lemma freed_elsewhere h l q : q ∉ l.*1 -> h_pbufs (freed h l) !! q = h_pbufs h !! q.
Proof.
  intros Hq. assert (q ∉ (ones l).*1 /\ match after_ones l with [] => True | (x, _) :: _ => x <> q end)
    as [H1 H2].
  { clear h. induction l as [|[x xb] l IH]; simpl in *; [split; [set_solver|done]|].
    destruct (p_ref xb =? 1); simpl; [|split; set_solver]. destruct IH as [IH1 IH2]; [set_solver|].
    split; [set_solver|exact IH2]. }
  unfold freed. cbn [h_pbufs]. destruct (after_ones l) as [|[x xb] r];
    rewrite ?lookup_insert_ne by done; rewrite drop_keys_lookup; by case_decide.
Qed.

Lemma ones_subseteq l : (ones l).*1 ⊆ l.*1.
Proof.
  induction l as [|[x xb] l IH]; simpl; [done|]. destruct (p_ref xb =? 1); simpl; set_solver.
Qed.

Lemma freed_memory h l b : b ∉ l.*1 -> h_mem (freed h l) !! b = h_mem h !! b.
Proof.
  intros Hb. unfold freed. cbn [h_mem]. rewrite drop_keys_lookup. case_decide as H; [|done].
  exfalso. apply Hb, ones_subseteq. apply list_elem_of_fmap in H as ([x xb] & -> & H).
  apply list_elem_of_In, filter_In in H as [H _]. apply list_elem_of_In in H.
  apply list_elem_of_fmap. by exists (x, xb).
Qed.

(** A packet that shares neither buffers nor memory with what is released stays. *)
Definition memory_of (l : list node) : list ptr :=
  omap (fun x : node => a_block <$> p_payload x.2) l.

Lemma contents_mem h h' l d :
  (forall b, b ∈ memory_of l -> h_mem h' !! b = h_mem h !! b) -> contents h l d -> contents h' l d.
Proof.
  revert d. induction l as [|[q pb] l IH]; intros d Hm; simpl; [done|].
  intros (d1 & d2 & -> & Hd1 & Hr & Hc). exists d1, d2. split; [done|]. split; [done|].
  unfold memory_of in Hm. cbn [omap list_omap snd] in Hm. split.
  - unfold read_payload in *. destruct (p_payload pb) as [a|]; [|done]. cbn in Hm.
    rewrite Hm by set_solver. exact Hr.
  - apply IH; [|done]. intros b Hb. apply Hm. destruct (p_payload pb); cbn; set_solver.
Qed.

(** ** [pbuf_cat] and [pbuf_chain] *)

(** The nodes of the head chain after the tail [t] of [k] bytes is appended. *)
Fixpoint cat_nodes (k : Z) (t : ptr) (l : list node) : list node :=
  match l with
  | [] => []
  | (q, pb) :: l =>
      let pb := set_tot_len pb (p_tot_len pb + k) in
      match l with
      | [] => [(q, set_next pb (Some t))]
      | _ => (q, pb) :: cat_nodes k t l
      end
  end.

Lemma cat_nodes_cons k t q pb x l :
  cat_nodes k t ((q, pb) :: x :: l) = (q, set_tot_len pb (p_tot_len pb + k)) :: cat_nodes k t (x :: l).
Proof. done. Qed.

Lemma cat_nodes_keys k t l : (cat_nodes k t l).*1 = l.*1.
Proof.
  induction l as [|[q pb] [|x l] IH]; [done|done|]. rewrite cat_nodes_cons, !fmap_cons, IH. done.
Qed.

Lemma cat_nodes_linked k t p l :
  l <> [] -> linked p None l -> linked p (Some t) (cat_nodes k t l).
Proof.
  revert p. induction l as [|[q pb] [|x l] IH]; intros p Hne Hp; [done|by destruct Hp|].
  destruct Hp as [-> Hl]. rewrite cat_nodes_cons. split; [done|]. cbn [p_next set_tot_len]. by apply IH.
Qed.

Lemma cat_nodes_total k t l : total (cat_nodes k t l) = total l.
Proof.
  induction l as [|[q pb] [|x l] IH]; [done|done|]. rewrite cat_nodes_cons. cbn [total p_len set_tot_len].
  by rewrite IH.
Qed.

Lemma cat_nodes_lengths t l1 l2 :
  lengths_ok l1 -> lengths_ok l2 -> lengths_ok (cat_nodes (total l2) t l1 ++ l2).
Proof.
  intros H1 H2. induction l1 as [|[q pb] [|x l] IH]; [done| |].
  - destruct H1 as (Hp & Ht & _). cbn in Ht. split; [done|]. split; [|done].
    cbn [p_tot_len p_len set_tot_len set_next app]. lia.
  - destruct H1 as (Hp & Ht & Hl). specialize (IH Hl). rewrite cat_nodes_cons.
    split; [done|]. split; [|done]. cbn [p_tot_len p_len set_tot_len].
    change (p_tot_len pb + total l2 = p_len pb + total (cat_nodes (total l2) t (x :: l) ++ l2)).
    rewrite total_app, cat_nodes_total. lia.
Qed.

Lemma cat_nodes_contents h k t l d : contents h l d -> contents h (cat_nodes k t l) d.
Proof.
  revert d. induction l as [|[q pb] [|x l] IH]; intros d; [done|done|].
  rewrite cat_nodes_cons. intros (d1 & d2 & -> & Hd1 & Hr & Hc).
  exists d1, d2. split; [done|]. split; [done|]. split; [exact Hr|]. by apply IH.
Qed.

(** The walk and the link at its end. *)
Definition cat_from (fuel : nat) (h : heap) (p t : ptr) : outcome heap :=
  '(p, h) ← pbuf_cat_walk fuel h p t;
  pb ← get h p;
  _ ← lwip_assert (p_tot_len pb =? p_len pb);
  tb ← get h t;
  Done (put h p (set_next (set_tot_len pb (u16 (p_tot_len pb + p_tot_len tb))) (Some t))).

Lemma cat_from_spec fuel h p t tb l :
  linked (Some p) None l -> stored h l -> lengths_ok l -> NoDup l.*1 ->
  h_pbufs h !! t = Some tb -> t ∉ l.*1 -> 0 <= p_tot_len tb -> total l + p_tot_len tb < 2 ^ 16 ->
  (length l <= fuel)%nat ->
  exists h', cat_from fuel h p t = Done h' /\ stored h' (cat_nodes (p_tot_len tb) t l)
    /\ (forall q, q ∉ l.*1 -> h_pbufs h' !! q = h_pbufs h !! q) /\ h_mem h' = h_mem h.
Proof.
  revert fuel h p. induction l as [|[q pb] [|[x xb] l] IH];
    intros fuel h p Hl Hs Hlen Hnd Ht Htl Hk Htot Hf; [done| |]; destruct Hl as [[= ->] Hl];
    pose proof Hs as [Hq Hs']%stored_cons; destruct fuel as [|fuel]; try (simpl in Hf; lia).
  - simpl in Hl. destruct Hlen as (Hp & Hlen & _). simpl in Hlen, Htl, Htot.
    unfold cat_from. cbn [pbuf_cat_walk]. rewrite (get_stored _ _ _ Hq), outcome_bind_done, Hl.
    rewrite outcome_bind_done. cbv beta iota. rewrite (get_stored _ _ _ Hq), outcome_bind_done.
    rewrite (proj2 (Z.eqb_eq _ _)) by lia. cbn [lwip_assert]. rewrite outcome_bind_done.
    rewrite (get_stored _ _ _ Ht), outcome_bind_done, wrap_small by (unfold fits; lia).
    eexists. split; [done|]. split.
    + constructor; [apply put_lookup|constructor].
    + split; [|done]. intros y Hy. cbn. apply lookup_insert_ne. set_solver.
  - destruct Hlen as (Hp & Hlen & Hlen'). pose proof (lengths_nonneg _ Hlen') as Hnn.
    pose proof Hl as [Hnext _].
    unfold cat_from. cbn [pbuf_cat_walk]. rewrite (get_stored _ _ _ Hq), outcome_bind_done, Hnext.
    rewrite (get_stored _ _ _ Ht), outcome_bind_done.
    cbn [total] in Htot. change (p_len xb + total l) with (total ((x, xb) :: l)) in Htot.
    rewrite wrap_small by (unfold fits; lia).
    set (h1 := put h q _).
    simpl in Hnd. apply NoDup_cons in Hnd as [Hqx Hnd].
    destruct (IH fuel h1 x) as (h' & Hcat & Hst & Hfr & Hmem).
    + by rewrite <-Hnext.
    + apply stored_put; [exact Hqx|done].
    + done.
    + done.
    + unfold h1, put. cbn [h_pbufs]. rewrite lookup_insert_ne; [done|]. set_solver.
    + set_solver.
    + done.
    + lia.
    + simpl in *. lia.
    + exists h'. split; [exact Hcat|]. rewrite cat_nodes_cons. split; [|split; [|done]].
      * constructor; [|done]. cbn [fst snd]. rewrite Hfr by done. apply put_lookup.
      * intros y Hy. rewrite Hfr by set_solver. unfold h1, put. cbn [h_pbufs].
        apply lookup_insert_ne. set_solver.
Qed.

Lemma stored_frame h h' l :
  (forall q, q ∈ l.*1 -> h_pbufs h' !! q = h_pbufs h !! q) -> stored h l -> stored h' l.
Proof.
  unfold stored. rewrite !Forall_forall. intros Hfr Hs [q pb] Hin. cbn [fst snd].
  rewrite Hfr; [exact (Hs _ Hin)|]. apply list_elem_of_fmap. by exists (q, pb).
Qed.

Lemma packet_head h p l d :
  packet h (Some p) l d ->
  exists pb l', l = (p, pb) :: l' /\ h_pbufs h !! p = Some pb /\ p_tot_len pb = zlen d.
Proof.
  intros Hp. pose proof (packet_length _ _ _ _ Hp) as Hd. destruct Hp as [Hl Hs Hlen _ _].
  destruct l as [|[q pb] l]; [done|]. destruct Hl as [[= <-] _].
  apply stored_cons in Hs as [Hq _]. destruct Hlen as (_ & Ht & _).
  exists pb, l. split_and!; [done|done|]. simpl in Hd. lia.
Qed.

(** Two packets in disjoint buffers become one. *)
Lemma cat_spec h p t l1 l2 d1 d2 :
  packet h (Some p) l1 d1 -> packet h (Some t) l2 d2 ->
  l1.*1 ## l2.*1 -> zlen d1 + zlen d2 < 2 ^ 16 ->
  exists h', pbuf_cat h (Some p) (Some t) = Done h'
    /\ packet h' (Some p) (cat_nodes (zlen d2) t l1 ++ l2) (d1 ++ d2)
    /\ (forall q, q ∉ l1.*1 -> h_pbufs h' !! q = h_pbufs h !! q) /\ h_mem h' = h_mem h.
Proof.
  intros Hp1 Hp2 Hdisj Hlen.
  pose proof (packet_length _ _ _ _ Hp1) as Hd1. pose proof (packet_length _ _ _ _ Hp2) as Hd2.
  destruct (packet_head _ _ _ _ Hp2) as (tb & l2' & Hl2 & Ht & Htl).
  destruct Hp1 as [Hk1 Hs1 Ho1 Ht1 Hc1], Hp2 as [Hk2 Hs2 Ho2 Ht2 Hc2].
  assert (l1 <> []) as Hne by (by destruct l1).
  pose proof (zlen_nonneg d2).
  destruct (cat_from_spec (walk_fuel h) h p t tb l1) as (h' & Hcat & Hst & Hfr & Hmem); try done.
  - by apply (linked_nodup h (Some p)).
  - intros Hin. apply (Hdisj t); [done|]. rewrite Hl2. simpl. set_solver.
  - lia.
  - lia.
  - pose proof (chain_fuel _ _ _ Hs1 Hk1). lia.
  - rewrite Htl in Hst. exists h'. split; [exact Hcat|]. split; [|split; [exact Hfr|exact Hmem]].
    split.
    + apply linked_app. exists (Some t). split; [by apply cat_nodes_linked|done].
    + apply stored_app. split; [done|]. apply (stored_frame h); [|done].
      intros q Hq. apply Hfr. intros Hq1. by apply (Hdisj q).
    + rewrite Hd2. by apply cat_nodes_lengths.
    + rewrite total_app, cat_nodes_total. lia.
    + apply contents_app. exists d1, d2. split; [done|].
      split; (apply (contents_mem h); [intros; by rewrite Hmem|]); [by apply cat_nodes_contents|done].
Qed.

(** ** [pbuf_realloc] *)

Definition shrunk (k : Z) (l : list node) : list node :=
  (fun x : node => (x.1, set_tot_len x.2 (p_tot_len x.2 - k))) <$> l.

Lemma shrunk_keys k l : (shrunk k l).*1 = l.*1.
Proof. unfold shrunk. rewrite <-list_fmap_compose. by apply list_fmap_ext. Qed.

Lemma shrunk_linked k p r l : linked p r (shrunk k l) <-> linked p r l.
Proof.
  revert p. induction l as [|[q pb] l IH]; intros p; [done|].
  change (p = Some q /\ linked (p_next pb) r (shrunk k l) <-> p = Some q /\ linked (p_next pb) r l).
  by rewrite IH.
Qed.

Lemma shrunk_contents h k l d : contents h (shrunk k l) d <-> contents h l d.
Proof.
  revert d. induction l as [|[q pb] l IH]; intros d; [done|].
  change (contents h (shrunk k ((q, pb) :: l)) d) with
    (exists d1 d2, d = d1 ++ d2 /\ zlen d1 = p_len pb
      /\ read_payload h pb 0 (p_len pb) = Done d1 /\ contents h (shrunk k l) d2).
  cbn [contents]. by setoid_rewrite IH.
Qed.

Lemma shrunk_total k l : total (shrunk k l) = total l.
Proof.
  induction l as [|[q pb] l IH]; [done|].
  change (total (shrunk k ((q, pb) :: l))) with (p_len pb + total (shrunk k l)).
  by rewrite IH.
Qed.

Lemma shrunk_lengths k r l1 q pb l2 qb :
  lengths_ok (l1 ++ (q, pb) :: l2) -> 0 <= r <= p_len pb -> total l2 + p_len pb - r = k ->
  p_len qb = r -> p_tot_len qb = r -> lengths_ok (shrunk k l1 ++ [(q, qb)]).
Proof.
  intros Hl Hr Hk Hq1 Hq2. induction l1 as [|[x xb] l1 IH].
  - simpl. split_and!; lia.
  - destruct Hl as (Hx & Ht & Hl). specialize (IH Hl).
    change (0 <= p_len xb /\ p_tot_len xb - k = p_len xb + total (shrunk k l1 ++ [(q, qb)])
      /\ lengths_ok (shrunk k l1 ++ [(q, qb)])).
    split; [done|]. split; [|done]. rewrite total_app, shrunk_total. rewrite total_app in Ht.
    simpl in *. lia.
Qed.

(** The walk stops at the buffer of the new end. *)
Lemma realloc_walk_spec fuel h p l rem shrink :
  linked (Some p) None l -> stored h l -> lengths_ok l -> NoDup l.*1 ->
  0 <= rem <= total l -> total l < 2 ^ 16 -> total l - rem = shrink -> (length l <= fuel)%nat ->
  exists q r h' l1 pb l2, pbuf_realloc_walk fuel h p rem shrink = Done (q, r, h')
    /\ l = l1 ++ (q, pb) :: l2 /\ rem = total l1 + r /\ 0 <= r <= p_len pb
    /\ stored h' (shrunk shrink l1 ++ (q, pb) :: l2)
    /\ (forall y, y ∉ l.*1 -> h_pbufs h' !! y = h_pbufs h !! y) /\ h_mem h' = h_mem h.
Proof.
  revert fuel h p rem. induction l as [|[q pb] l IH]; intros fuel h p rem Hl Hs Hlen Hnd Hrem Htot
    Hshr Hf; [done|].
  destruct Hl as [[= ->] Hl]. pose proof Hs as [Hq Hs']%stored_cons.
  destruct Hlen as (Hpos & Ht & Hlen). pose proof (lengths_nonneg l Hlen) as Hnn.
  cbn [total] in Hrem, Htot, Hshr. destruct fuel as [|fuel]; [simpl in Hf; lia|].
  cbn [pbuf_realloc_walk]. rewrite (get_stored _ _ _ Hq), outcome_bind_done.
  destruct (Z.ltb_spec (p_len pb) rem).
  - destruct l as [|[x xb] l]; [simpl in Hrem; lia|]. pose proof Hl as [Hnext _]. rewrite Hnext.
    rewrite (wrap_small 16 (rem - _)), (wrap_small 16 (p_tot_len pb - _)) by (unfold fits; lia).
    simpl in Hnd. apply NoDup_cons in Hnd as [Hqx Hnd]. set (h1 := put h q _).
    destruct (IH fuel h1 x (rem - p_len pb)) as (y & r & h' & l1 & yb & l2 & Hw & Heq & Hr & Hrb & Hst & Hfr & Hmem);
      [by rewrite <-Hnext|by apply stored_put|done|done|lia|lia|lia|simpl in *; lia|].
    exists y, r, h', ((q, pb) :: l1), yb, l2. split; [exact Hw|]. rewrite Heq.
    split; [done|]. split; [simpl; lia|]. split; [done|]. split; [|split; [|done]].
    + constructor; [|done]. cbn [fst snd]. rewrite Hfr by done. apply put_lookup.
    + intros z Hz. rewrite Hfr.
      * unfold h1, put. cbn [h_pbufs]. apply lookup_insert_ne. set_solver.
      * rewrite Heq. set_solver.
  - exists q, rem, h, [], pb, l. split; [done|]. split; [done|]. split; [done|]. split; [lia|]. done.
Qed.

(** No payload is in the memory of another buffer of the chain. *)
Definition own_memory (l : list node) : Prop :=
  forall x y a, x ∈ l -> y ∈ l -> p_payload x.2 = Some a -> a_block a = y.1 -> x.1 = y.1.

Lemma memory_of_elem b l : b ∈ memory_of l -> exists x a, x ∈ l /\ p_payload x.2 = Some a /\ a_block a = b.
Proof.
  unfold memory_of. intros (x & Hx & Hb)%list_elem_of_omap.
  destruct (p_payload x.2) as [a|] eqn:Ha; [|done]. injection Hb as <-. eauto.
Qed.

Lemma memory_of_app l1 l2 : memory_of (l1 ++ l2) = memory_of l1 ++ memory_of l2.
Proof. apply omap_app. Qed.

Lemma memory_of_shrunk k l : memory_of (shrunk k l) = memory_of l.
Proof.
  induction l as [|[q pb] l IH]; [done|]. unfold memory_of in *. cbn. rewrite <-IH.
  by destruct (p_payload pb).
Qed.

(** The memory of one part of a chain is not that of the buffers of another. *)
Lemma memory_apart l1 l2 b :
  own_memory (l1 ++ l2) -> NoDup (l1 ++ l2).*1 -> b ∈ memory_of l1 -> b ∉ l2.*1.
Proof.
  intros Hown Hnd (x & a & Hx & Hxa & Hab)%memory_of_elem Hb.
  apply list_elem_of_fmap in Hb as (y & -> & Hy).
  assert (x.1 = y.1) as Heq by (apply (Hown x y a); [set_solver|set_solver|done|done]).
  rewrite fmap_app in Hnd. apply NoDup_app in Hnd as (_ & Hdisj & _).
  apply (Hdisj x.1); apply list_elem_of_fmap; eauto.
Qed.

(** Releasing what follows a buffer, if anything. *)
Lemma release_tail h p l :
  linked p None l -> stored h l -> refs_ok l ->
  exists h', (match p with
              | Some r => '(_, h) ← pbuf_free h (Some r); Done h
              | None => Done h
              end) = Done h'
    /\ (forall y, y ∉ l.*1 -> h_pbufs h' !! y = h_pbufs h !! y)
    /\ (forall b, b ∉ l.*1 -> h_mem h' !! b = h_mem h !! b).
Proof.
  intros Hl Hs Hr. destruct l as [|[y yb] l].
  - simpl in Hl. subst p. by exists h.
  - pose proof Hl as [-> _]. exists (freed h ((y, yb) :: l)).
    rewrite (free_spec h y ((y, yb) :: l)) by done.
    split; [done|]. split; [apply freed_elsewhere|apply freed_memory].
Qed.

(** The bytes of the kept buffers, the last one cut to [r]. *)
Lemma truncated_contents h k l1 q pb qb l2 d r :
  contents h (l1 ++ (q, pb) :: l2) d -> 0 <= r <= p_len pb ->
  p_payload qb = p_payload pb -> p_len qb = r ->
  contents h (shrunk k l1 ++ [(q, qb)]) (ztake (total l1 + r) d).
Proof.
  intros Hc Hr Hpay Hq.
  apply contents_app in Hc as (d1 & dr & -> & Hc1 & (dq & d2 & -> & Hdq & Hread & Hc2)).
  pose proof (contents_length _ _ _ Hc1) as Hd1.
  assert (ztake (total l1 + r) (d1 ++ dq ++ d2) = d1 ++ ztake r dq) as ->.
  { rewrite ztake_app, ztake_all by lia. f_equal. rewrite Hd1.
    replace (total l1 + r - total l1) with r by lia. apply ztake_app_le. lia. }
  apply contents_app. exists d1, (ztake r dq). split; [done|]. split; [by apply shrunk_contents|].
  exists (ztake r dq), []. rewrite app_nil_r, Hq. split; [done|]. split; [apply zlen_ztake; lia|].
  split; [|done]. unfold read_payload. rewrite Hpay. fold (read_payload h pb 0 r).
  rewrite (read_payload_sub h pb (p_len pb) dq 0 r) by (done || lia). by rewrite zdrop_nonpos.
Qed.

Lemma realloc_spec h p l d new_len :
  packet h (Some p) l d -> refs_ok l -> own_memory l -> 0 <= new_len < zlen d ->
  exists h' l', pbuf_realloc h p new_len = Done h'
    /\ packet h' (Some p) l' (ztake new_len d) /\ l'.*1 `prefix_of` l.*1.
Proof.
  intros Hp Hrefs Hown Hnew. pose proof (packet_length _ _ _ _ Hp) as Hd.
  destruct (packet_head _ _ _ _ Hp) as (pb0 & l0 & _ & Hp0 & Htot0).
  destruct Hp as [Hl Hs Hlen Ht Hc]. unfold pbuf_realloc.
  rewrite (get_stored _ _ _ Hp0), outcome_bind_done, Htot0, (proj2 (Z.leb_gt _ _)) by lia.
  rewrite wrap_small by (unfold fits; lia).
  pose proof (linked_nodup _ _ _ Hs Hl) as Hnd. pose proof (chain_fuel _ _ _ Hs Hl).
  destruct (realloc_walk_spec (walk_fuel h) h p l new_len (zlen d - new_len))
    as (q & r & h1 & l1 & pb & l2 & -> & -> & Hr & Hrb & Hst & Hfr & Hmem); [done..|lia|lia|lia|lia|].
  rewrite outcome_bind_done. cbv beta iota.
  apply stored_app in Hst as [Hst1 Hst2]. apply stored_cons in Hst2 as [Hq Hst2].
  rewrite (get_stored _ _ _ Hq), outcome_bind_done.
  set (qb := set_tot_len (set_len pb r) r). set (h2 := put h1 q qb).
  assert (q ∉ l1.*1 /\ q ∉ l2.*1 /\ l1.*1 ## l2.*1) as (Hq1 & Hq2 & Hdisj).
  { rewrite fmap_app, fmap_cons in Hnd. cbn [fst] in Hnd. apply NoDup_app in Hnd as (_ & Hx & Hnd).
    apply NoDup_cons in Hnd as [Hn _]. split; [intros H'; by apply (Hx q); [|left]|].
    split; [done|]. intros y Hy1 Hy2. by apply (Hx y); [|right]. }
  apply linked_app in Hl as (x & Hl1 & -> & Hl2).
  apply Forall_app in Hrefs as [_ Hrefs]. apply Forall_cons_1 in Hrefs as [_ Hrefs].
  destruct (release_tail h2 (p_next qb) l2) as (h3 & -> & Hfr3 & Hmem3);
    [done|by apply stored_put|done|]. rewrite outcome_bind_done.
  assert (h_pbufs h3 !! q = Some qb) as Hq3 by (rewrite Hfr3 by done; apply put_lookup).
  rewrite (get_stored _ _ _ Hq3), outcome_bind_done.
  set (k := zlen d - new_len) in *.
  eexists _, (shrunk k l1 ++ [(q, set_next qb None)]). split; [reflexivity|]. split.
  2:{ rewrite !fmap_app, shrunk_keys, fmap_cons. exists l2.*1. by rewrite <-app_assoc. }
  rewrite !total_app in *. cbn [total] in *.
  pose proof (lengths_nonneg l2 (proj2 (proj2 (lengths_app_r l1 _ Hlen)))).
  split.
  - apply linked_app. exists (Some q). split; [by apply shrunk_linked|done].
  - apply stored_app. split; [|constructor; [apply put_lookup|constructor]].
    apply stored_put; [by rewrite shrunk_keys|]. apply (stored_frame h1); [|exact Hst1].
    intros y Hy. rewrite shrunk_keys in Hy. rewrite Hfr3 by (intros H'; by apply (Hdisj y)).
    unfold h2, put. cbn [h_pbufs]. apply lookup_insert_ne. by intros ->.
  - apply (shrunk_lengths _ r l1 q pb l2); [done|done|unfold k; lia|done|done].
  - rewrite total_app, shrunk_total. cbn [total p_len set_next qb set_tot_len set_len]. lia.
  - rewrite Hr. apply (contents_mem h); [|by apply (truncated_contents h k l1 q pb _ l2)].
    intros b Hb. cbn [h_mem put]. rewrite Hmem3; [cbn; by rewrite Hmem|].
    rewrite memory_of_app, memory_of_shrunk in Hb.
    apply (memory_apart (l1 ++ [(q, pb)]) l2); [by rewrite <-app_assoc|by rewrite <-app_assoc|].
    rewrite memory_of_app. exact Hb.
Qed.
