(* ===== verification/PbufWrite.v ===== *)
(** * Allocating and filling chains

    [pbuf_alloc], [pbuf_take] and the header functions. The memory of a chain is
    described by its cells, which may not be initialised yet. *)
From Stdlib Require Import ZArith Lia.
From stdpp Require Import base list option numbers gmap.
From S2P Require Import Prelude Pbuf PbufChain PbufRead PbufFree.

(** ** Cells *)

(** The memory behind the first [n] bytes of a payload. *)
Definition payload_at (h : heap) (pb : pbuf) (c : block) : Prop :=
  exists a pre post, p_payload pb = Some a /\ h_mem h !! a_block a = Some (pre ++ c ++ post)
    /\ zlen pre = a_off a.

Fixpoint cells (h : heap) (l : list node) (c : block) : Prop :=
  match l with
  | [] => c = []
  | (_, pb) :: l =>
      exists c1 c2, c = c1 ++ c2 /\ zlen c1 = p_len pb /\ payload_at h pb c1 /\ cells h l c2
  end.

(** Initialised cells are contents. *)
Lemma cells_contents h l d : cells h l (map Some d) -> contents h l d.
Proof.
  revert d. induction l as [|[q pb] l IH]; intros d; simpl; [by destruct d|].
  intros (c1 & c2 & Hd & Hl & (a & pre & post & Ha & Hm & Hpre) & Hc).
  assert (zlen c1 <= zlen d) as Hle.
  { apply (f_equal zlen) in Hd. rewrite zlen_map, zlen_app in Hd. pose proof (zlen_nonneg c2). lia. }
  assert (zlen (ztake (p_len pb) d) = p_len pb) as Ht
    by (apply zlen_ztake; pose proof (zlen_nonneg c1); lia).
  rewrite <-(ztake_zdrop (p_len pb) d), map_app in Hd.
  apply app_inj_1 in Hd as [Hd1 Hd2]; [|rewrite length_map; unfold zlen in *; lia].
  exists (ztake (p_len pb) d), (zdrop (p_len pb) d). split; [by rewrite ztake_zdrop|].
  split; [lia|]. split; [|apply IH; by rewrite Hd2].
  unfold read_payload. rewrite Ha, Hm, <-Hd1. apply load_bytes_middle; lia.
Qed.

Lemma contents_cells h l d : contents h l d -> cells h l (map Some d).
Proof.
  revert d. induction l as [|[q pb] l IH]; intros d; simpl; [by intros ->|].
  intros (d1 & d2 & -> & Hl & Hr & Hc). exists (map Some d1), (map Some d2).
  rewrite map_app, zlen_map. split; [done|]. split; [done|]. split; [|by apply IH].
  unfold read_payload in Hr. destruct (p_payload pb) as [a|] eqn:Ha; [|done].
  destruct (h_mem h !! a_block a) as [m|] eqn:Hm; [|done]. rewrite Z.add_0_r in Hr.
  apply load_bytes_inv in Hr as (_ & _ & pre & post & -> & Hpre). by exists a, pre, post.
Qed.

Lemma cells_length h l c : cells h l c -> zlen c = total l.
Proof.
  revert c. induction l as [|[q pb] l IH]; intros c; simpl; [by intros ->|].
  intros (c1 & c2 & -> & Hl & _ & H2). rewrite zlen_app, (IH _ H2). lia.
Qed.

Lemma cells_mem h h' l c :
  (forall b, b ∈ memory_of l -> h_mem h' !! b = h_mem h !! b) -> cells h l c -> cells h' l c.
Proof.
  revert c. induction l as [|[q pb] l IH]; intros c Hm; simpl; [done|].
  intros (c1 & c2 & -> & Hl & (a & pre & post & Ha & Hma & Hpre) & Hc).
  unfold memory_of in Hm. cbn [omap list_omap snd] in Hm. rewrite Ha in Hm. cbn in Hm.
  exists c1, c2. split; [done|]. split; [done|]. split.
  - exists a, pre, post. rewrite Hm by set_solver. done.
  - apply IH; [|done]. intros b Hb. apply Hm. set_solver.
Qed.

(** Writing at the start of a payload. *)
Lemma write_payload_start h pb c1 bytes :
  payload_at h pb c1 -> zlen bytes <= zlen c1 ->
  exists h' a, write_payload h pb 0 bytes = Done h' /\ p_payload pb = Some a
    /\ payload_at h' pb (map Some bytes ++ zdrop (zlen bytes) c1)
    /\ h_pbufs h' = h_pbufs h /\ (forall b, b <> a_block a -> h_mem h' !! b = h_mem h !! b).
Proof.
  intros (a & pre & post & Ha & Hm & Hpre) Hle. unfold write_payload. rewrite Ha, Hm, Z.add_0_r.
  assert (zlen (ztake (zlen bytes) c1) = zlen bytes) as Hz
    by (apply zlen_ztake; pose proof (zlen_nonneg bytes); lia).
  assert (pre ++ c1 ++ post = pre ++ ztake (zlen bytes) c1 ++ zdrop (zlen bytes) c1 ++ post) as ->
    by (by rewrite (app_assoc (ztake _ _)), ztake_zdrop).
  rewrite store_bytes_middle; [|lia|unfold zlen in *; lia].
  rewrite outcome_bind_done. eexists _, a. split; [done|]. split; [done|]. split; [|split; [done|]].
  - exists a, pre, post. split; [done|]. split; [|done]. cbn. rewrite lookup_insert_eq.
    by rewrite <-app_assoc.
  - intros b Hb. cbn. by apply lookup_insert_ne.
Qed.

(** ** [pbuf_take] *)

Lemma take_loop_spec fuel h p l c data :
  linked p None l -> stored h l -> lengths_ok l -> cells h l c -> NoDup (memory_of l) ->
  zlen data <= total l -> (length l <= fuel)%nat ->
  exists h', pbuf_take_loop fuel h p data = Done h'
    /\ cells h' l (map Some data ++ zdrop (zlen data) c)
    /\ h_pbufs h' = h_pbufs h /\ (forall b, b ∉ memory_of l -> h_mem h' !! b = h_mem h !! b).
Proof.
  revert fuel h p c data. induction l as [|[q pb] l IH]; intros fuel h p c data Hl Hs Hlen Hc Hnd Hd Hf.
  - simpl in Hd. assert (data = []) as -> by (apply zlen_zero; pose proof (zlen_nonneg data); lia).
    exists h. rewrite zdrop_nonpos by done. by destruct fuel.
  - destruct fuel as [|fuel]; [simpl in Hf; lia|]. cbn [pbuf_take_loop].
    destruct (Z.eqb_spec (zlen data) 0) as [Hz|Hnz].
    { rewrite (zlen_zero data Hz). exists h. by rewrite zdrop_nonpos. }
    destruct Hl as [-> Hl]. apply stored_cons in Hs as [Hq Hs].
    destruct Hlen as (Hpos & _ & Hlen). destruct Hc as (c1 & c2 & -> & Hc1 & Hpay & Hc).
    rewrite (get_stored _ _ _ Hq), outcome_bind_done.
    set (n := if p_len pb <? zlen data then _ else _).
    assert (n = Z.min (p_len pb) (zlen data)) as Hn by (unfold n; zcase). clearbody n.
    pose proof (zlen_nonneg data). pose proof (lengths_nonneg l Hlen).
    assert (zlen (ztake n data) = n) as Htn by (apply zlen_ztake; lia).
    assert (zlen (zdrop n data) = zlen data - n) as Hdn by (apply zlen_zdrop; lia).
    destruct (write_payload_start h pb c1 (ztake n data) Hpay) as (h1 & a & -> & Ha & Hpay1 & Hpb1 & Hm1);
      [lia|]. rewrite outcome_bind_done.
    unfold memory_of in Hnd. cbn [omap list_omap snd] in Hnd. rewrite Ha in Hnd. cbn in Hnd.
    apply NoDup_cons in Hnd as [Ha1 Hnd]. fold (memory_of l) in Ha1, Hnd.
    destruct (IH fuel h1 (p_next pb) c2 (zdrop n data)) as (h' & -> & Hc' & Hpb' & Hm');
      [done| |done| |done|cbn [total] in Hd; lia|simpl in Hf; lia|].
    + apply (stored_frame h); [|done]. intros y _. by rewrite Hpb1.
    + apply (cells_mem h); [|done]. intros b Hb. apply Hm1. by intros ->.
    + exists h'. split; [done|]. split; [|split; [congruence|]].
      * exists (map Some (ztake n data) ++ zdrop n c1),
          (map Some (zdrop n data) ++ zdrop (zlen (zdrop n data)) c2).
        rewrite Htn in Hpay1. split; [|split; [|split; [|done]]].
        -- rewrite <-(ztake_zdrop n data) at 1. rewrite map_app, <-!app_assoc. f_equal.
           rewrite Hdn. destruct (Z.le_gt_cases (zlen data) (p_len pb)).
           ++ rewrite (zdrop_all n data), zdrop_app_le, (zdrop_nonpos (zlen data - n)) by lia.
              by replace (zlen data) with n by lia.
           ++ rewrite zdrop_app_ge, (zdrop_all n c1) by lia. rewrite Hc1.
              by replace n with (p_len pb) by lia.
        -- rewrite zlen_app, zlen_map, Htn, zlen_zdrop by lia. lia.
        -- destruct Hpay1 as (a' & pre & post & Ha' & Hma & Hpre).
           exists a', pre, post. assert (a' = a) as -> by congruence. by rewrite Hm'.
      * intros b Hb. unfold memory_of in Hb. cbn [omap list_omap snd] in Hb. rewrite Ha in Hb. cbn in Hb.
        rewrite Hm' by set_solver. apply Hm1. set_solver.
Qed.

(** A chain with room for its lengths. *)
Record room (h : heap) (p : option ptr) (l : list node) (c : block) : Prop := {
  rm_linked : linked p None l;
  rm_stored : stored h l;
  rm_lengths : lengths_ok l;
  rm_total : total l < 2 ^ 16;
  rm_cells : cells h l c;
}.

Lemma packet_room h p l d : packet h p l d -> room h p l (map Some d).
Proof. intros [? ? ? ? Hc]. split; try done. by apply contents_cells. Qed.

Lemma room_packet h p l d : room h p l (map Some d) -> packet h p l d.
Proof. intros [? ? ? ? Hc]. split; try done. by apply cells_contents. Qed.

Lemma take_spec h p l c data :
  room h (Some p) l c -> NoDup (memory_of l) -> zlen data <= zlen c ->
  exists h', pbuf_take h (Some p) (Some data) = Done (ERR_OK, h')
    /\ room h' (Some p) l (map Some data ++ zdrop (zlen data) c)
    /\ h_pbufs h' = h_pbufs h /\ (forall b, b ∉ memory_of l -> h_mem h' !! b = h_mem h !! b).
Proof.
  intros [Hl Hs Hlen Htot Hc] Hnd Hd. pose proof (cells_length _ _ _ Hc) as Hcl.
  unfold pbuf_take. destruct l as [|[q pb] l]; [done|]. pose proof Hl as [[= <-] _].
  pose proof Hs as [Hq _]%stored_cons. rewrite (get_stored _ _ _ Hq), outcome_bind_done.
  assert (p_tot_len pb = zlen c) as -> by (destruct Hlen as (_ & -> & _); simpl in Hcl; lia).
  rewrite (proj2 (Z.ltb_ge _ _)) by lia.
  pose proof (chain_fuel _ _ _ Hs Hl).
  destruct (take_loop_spec (walk_fuel h) h (Some p) ((p, pb) :: l) c data) as (h' & -> & Hc' & Hpb & Hm);
    [done..|lia|lia|]. rewrite outcome_bind_done. exists h'. split; [done|]. split; [|done].
  split; [done| |done|done|done]. apply (stored_frame h); [|done]. intros y _. by rewrite Hpb.
Qed.

(** ** [pbuf_alloc] *)

Lemma mem_align_size n : MEM_ALIGN_SIZE n = 8 * ((n + 7) / 8).
Proof.
  unfold MEM_ALIGN_SIZE. change (-8) with (Z.lnot (Z.ones 3)).
  rewrite <-Z.ldiff_land, Z.ldiff_ones_r by lia.
  rewrite Z.shiftl_mul_pow2, Z.shiftr_div_pow2 by lia. change (2 ^ 3) with 8. lia.
Qed.

Lemma mem_align_bounds n : n <= MEM_ALIGN_SIZE n < n + 8.
Proof. rewrite mem_align_size. div_lia. Qed.

(** New pointers are beyond every pointer in use. *)
Definition heap_ok (h : heap) : Prop :=
  forall k, (h_fresh h <= k)%positive -> h_pbufs h !! k = None /\ h_mem h !! k = None.

Lemma fresh_cells n : 0 <= n -> fresh_block n = replicate (Z.to_nat n) (@None Z).
Proof. done. Qed.

(** Fresh memory with [a] bytes before [n] bytes. *)
Lemma fresh_block_split n a b :
  0 <= a -> 0 <= b -> a + b <= n ->
  fresh_block n = fresh_block a ++ fresh_block b ++ fresh_block (n - a - b).
Proof.
  intros. unfold fresh_block. rewrite <-!replicate_add. f_equal. lia.
Qed.

Section alloc.
Context `{Malloc}.

Lemma alloc_ram_spec h layer n :
  heap_ok h -> 0 <= n < 2 ^ 16 ->
  let size := MEM_ALIGN_SIZE (layer_offset layer) + MEM_ALIGN_SIZE n in
  let p := h_fresh h in
  if malloc_grants p size then
    exists h' pb, pbuf_alloc h layer n PBUF_RAM = Done (Some p, h')
      /\ room h' (Some p) [(p, pb)] (fresh_block n)
      /\ p_ref pb = 1 /\ alloc_src pb = 0
      /\ p_payload pb = Some (mk_addr p (MEM_ALIGN_SIZE (layer_offset layer)))
      /\ heap_ok h'
      /\ (forall k, k <> p -> h_pbufs h' !! k = h_pbufs h !! k /\ h_mem h' !! k = h_mem h !! k)
  else pbuf_alloc h layer n PBUF_RAM = Done (None, h).
Proof.
  intros Hok Hn size p.
  pose proof (mem_align_bounds n). pose proof (mem_align_bounds (layer_offset layer)).
  assert (0 <= layer_offset layer <= 74) as Hoff by (destruct layer; simpl; lia).
  unfold pbuf_alloc. rewrite (wrap_small 64 (_ + _)) by (unfold fits; lia).
  change (MEM_ALIGN_SIZE SIZEOF_STRUCT_PBUF) with 24.
  rewrite (wrap_small 64 (24 + _)) by (unfold fits; lia).
  rewrite (proj2 (Z.ltb_ge _ _)), (proj2 (Z.ltb_ge _ _)) by lia. cbn [orb].
  fold size. unfold mem_malloc. fold p. destruct (malloc_grants p size); [|done].
  eexists _, (pbuf_init_alloced_pbuf (Some (mk_addr p (MEM_ALIGN_SIZE (layer_offset layer))))
    n n PBUF_RAM 0).
  split; [reflexivity|]. split; [|split; [reflexivity|split; [reflexivity|split; [reflexivity|split]]]].
  - split.
    + done.
    + constructor; [apply put_lookup|constructor].
    + simpl. lia.
    + simpl. lia.
    + exists (fresh_block n), []. rewrite app_nil_r. split; [done|].
      split; [by rewrite zlen_fresh_block by lia|]. split; [|done].
      eexists _, _, _. split; [done|]. cbn [a_block a_off h_mem put].
      rewrite lookup_insert_eq, (fresh_block_split size (MEM_ALIGN_SIZE (layer_offset layer)) n) by lia.
      split; [done|]. apply zlen_fresh_block. lia.
  - intros k Hk. cbn [h_fresh put] in Hk. destruct (Hok k) as [Hk1 Hk2]; [subst p; lia|].
    cbn. rewrite !lookup_insert_ne by (subst p; lia). done.
  - intros k Hk. cbn. by rewrite !lookup_insert_ne.
Qed.

Lemma alloc_reference_spec h payload n type :
  heap_ok h -> 0 <= n < 2 ^ 16 -> type = PBUF_REF \/ type = PBUF_ROM ->
  match h_memp_pbuf h with
  | O => pbuf_alloc_reference h payload n type = Done (None, h)
  | S free =>
      let p := h_fresh h in
      let pb := pbuf_init_alloced_pbuf payload n n type 0 in
      let h' := put (mk_heap (h_pbufs h) (h_mem h) (Pos.succ p) free (h_memp_pool h)) p pb in
      pbuf_alloc_reference h payload n type = Done (Some p, h')
      /\ heap_ok h' /\ h_pbufs h !! p = None
  end.
Proof.
  intros Hok Hn Ht. unfold pbuf_alloc_reference. rewrite bool_decide_eq_true_2 by done.
  cbn [lwip_assert]. rewrite outcome_bind_done. unfold memp_malloc_pbuf.
  destruct (h_memp_pbuf h) as [|free]; [done|]. split; [done|]. split.
  - intros k Hk. cbn [h_fresh put] in Hk. destruct (Hok k) as [Hk1 Hk2]; [lia|].
    cbn. rewrite lookup_insert_ne by lia. done.
  - by destruct (Hok (h_fresh h)) as [? _]; [lia|].
Qed.
End alloc.

(** ** Headers *)

Definition contiguous_type (pb : pbuf) : Prop :=
  Z.land (p_type_internal pb) PBUF_TYPE_FLAG_STRUCT_DATA_CONTIGUOUS <> 0.

(** Adding a header to a buffer with space in front moves the payload back by [n]
    and lengthens the buffer; otherwise nothing changes. *)
Lemma add_header_spec h p pb a n :
  h_pbufs h !! p = Some pb -> contiguous_type pb -> p_payload pb = Some a ->
  0 <= p_len pb <= p_tot_len pb -> p_tot_len pb < 2 ^ 16 -> 0 <= n ->
  pbuf_add_header h p n =
  Done (if (n =? 0) then (0, h)
        else if (p_tot_len pb + n <? 2 ^ 16) && (n <=? a_off a)
        then (0, put h p (mk_pbuf (p_next pb) (Some (mk_addr (a_block a) (a_off a - n)))
                   (p_tot_len pb + n) (p_len pb + n) (p_type_internal pb) (p_flags pb)
                   (p_ref pb) (p_if_idx pb)))
        else (1, h)).
Proof.
  intros Hp Hc Ha Hlen Htot Hn. unfold pbuf_add_header, pbuf_add_header_impl.
  destruct (Z.ltb_spec 0xFFFF n) as [Hbig|Hsmall].
  { rewrite (proj2 (Z.eqb_neq n 0)), (proj2 (Z.ltb_ge (p_tot_len pb + n) _)) by lia. done. }
  destruct (Z.eqb_spec n 0); [done|].
  rewrite (get_stored _ _ _ Hp), outcome_bind_done.
  rewrite (wrap_small 16 n) by (unfold fits; lia).
  destruct (Z.ltb_spec (p_tot_len pb + n) (2 ^ 16)) as [Hfit|Hover].
  - rewrite (wrap_small 16 (n + p_tot_len pb)) by (unfold fits; lia).
    rewrite (proj2 (Z.ltb_ge _ n)) by lia. cbn [andb].
    unfold contiguous_type in Hc. rewrite (proj2 (Z.eqb_neq _ _) Hc). cbn [negb].
    rewrite Ha, outcome_bind_done. cbn [a_off a_block].
    destruct (Z.ltb_spec (a_off a - n) 0), (Z.leb_spec n (a_off a)); try lia; [done|].
    rewrite !wrap_small by (unfold fits; lia). done.
  - cbn [andb]. rewrite (proj2 (Z.ltb_lt _ n)); [done|].
    unfold wrap. assert ((n + p_tot_len pb) mod 2 ^ 16 = n + p_tot_len pb - 2 ^ 16) as ->; [|lia].
    symmetry. apply Z.mod_unique with 1; lia.
Qed.

Lemma remove_header_spec h p pb a n :
  h_pbufs h !! p = Some pb -> p_payload pb = Some a ->
  0 <= p_len pb <= p_tot_len pb -> p_tot_len pb < 2 ^ 16 -> 0 < n ->
  pbuf_remove_header h p n =
  Done (if n <=? p_len pb
        then (0, put h p (mk_pbuf (p_next pb) (Some (mk_addr (a_block a) (a_off a + n)))
                   (p_tot_len pb - n) (p_len pb - n) (p_type_internal pb) (p_flags pb)
                   (p_ref pb) (p_if_idx pb)))
        else (1, h)).
Proof.
  intros Hp Ha Hlen Htot Hn. unfold pbuf_remove_header.
  destruct (Z.ltb_spec 0xFFFF n) as [Hbig|Hsmall].
  { rewrite (proj2 (Z.leb_gt n _)) by lia. done. }
  rewrite (proj2 (Z.eqb_neq n 0)) by lia. rewrite (get_stored _ _ _ Hp), outcome_bind_done.
  rewrite (wrap_small 16 n) by (unfold fits; lia).
  destruct (Z.leb_spec n (p_len pb)); cbn [negb]; [|done].
  rewrite Ha, !wrap_small by (unfold fits; lia). done.
Qed.
