(* ===== verification/Chksum.v ===== *)
(** * Internet checksums ([lwip/src/core/inet_chksum.c], byte order of [def.c])

    The third algorithm (32-bit words with the carry added back), over memory and
    over chains of packet buffers. Memory is little-endian; the address of the
    data matters for its alignment only. *)
From Stdlib Require Import ZArith Lia.
From stdpp Require Import base list option numbers gmap.
From S2P Require Import Prelude Pbuf.

(** ** Byte order *)

Definition lwip_htons (n : Z) : Z :=
  u16 (Z.lor (Z.shiftl (Z.land n 0x00ff) 8) (Z.shiftr (Z.land n 0xff00) 8)).

Definition lwip_htonl (n : Z) : Z :=
  Z.lor (Z.lor (Z.lor (u32 (Z.shiftl (Z.land n 0x000000ff) 24)) (u32 (Z.shiftl (Z.land n 0x0000ff00) 8)))
    (Z.shiftr (Z.land n 0x00ff0000) 8)) (Z.shiftr (Z.land n 0xff000000) 24).

Definition SWAP_BYTES_IN_WORD (w : Z) : Z :=
  Z.lor (Z.shiftl (Z.land w 0xff) 8) (Z.shiftr (Z.land w 0xff00) 8).

Definition FOLD_U32T (u : Z) : Z := u32 (Z.shiftr u 16 + Z.land u 0x0000ffff).

(** ** [lwip_standard_chksum] *)

(** One addition with the carry added back. *)
Definition add_carry (sum w : Z) : Z :=
  let tmp := u32 (sum + w) in
  if tmp <? sum then u32 (tmp + 1) else tmp.

(** [while (len > 7)] *)
Fixpoint chksum_words (sum : Z) (pl : list Z) : Z * list Z :=
  match pl with
  | b0 :: b1 :: b2 :: b3 :: b4 :: b5 :: b6 :: b7 :: rest =>
      let tmp := add_carry sum (le_combine [b0; b1; b2; b3]) in
      let sum := add_carry tmp (le_combine [b4; b5; b6; b7]) in
      chksum_words sum rest
  | _ => (sum, pl)
  end.

(** [while (len > 1)] *)
Fixpoint chksum_halves (sum : Z) (ps : list Z) : Z * list Z :=
  match ps with
  | b0 :: b1 :: rest => chksum_halves (u32 (sum + le_combine [b0; b1])) rest
  | _ => (sum, ps)
  end.

(** [dataptr] is the address of the bytes [data]. *)
Definition lwip_standard_chksum (dataptr : Z) (data : list Z) : Z :=
  let odd := dataptr mod 2 =? 1 in
  let '(t1, pb, data) :=
    match data with
    | b :: rest => if odd then (b, dataptr + 1, rest) else (0, dataptr, data)
    | [] => (0, dataptr, data)
    end in
  let '(sum, data) :=
    if negb (Z.land pb 3 =? 0) && (1 <? zlen data)
    then match data with
         | b0 :: b1 :: rest => (u32 (0 + le_combine [b0; b1]), rest)
         | _ => (0, data)
         end
    else (0, data) in
  let '(sum, data) := chksum_words sum data in
  let sum := FOLD_U32T sum in
  let '(sum, data) := chksum_halves sum data in
  let t0 := match data with b :: _ => b | [] => 0 end in
  let sum := u32 (sum + le_combine [t0; t1]) in
  let sum := FOLD_U32T sum in
  let sum := FOLD_U32T sum in
  u16 (if odd then SWAP_BYTES_IN_WORD sum else sum).

Definition inet_chksum (dataptr : Z) (data : list Z) : Z :=
  u16 (Z.lnot (lwip_standard_chksum dataptr data)).

(** The copy and the checksum of what was copied. *)
Definition lwip_chksum_copy (dst : Z) (data : list Z) : list Z * Z :=
  (data, lwip_standard_chksum dst data).

(** ** Chains *)

Record ip_addr_t := mk_ip_addr { u_addr : list Z; ip_type : Z }.

Definition IPADDR_TYPE_V4 : Z := 0.
Definition IPADDR_TYPE_V6 : Z := 6.
Definition IP_IS_V6 (a : ip_addr_t) : bool := ip_type a =? IPADDR_TYPE_V6.

(** The 32-bit words of the address, in network byte order. *)
Definition addr_word (a : list Z) (i : nat) : Z := nth i a 0.

(** The bytes of an address, in the order of the wire. *)
Definition addr_bytes (a : list Z) : list Z := concat (map (le_split 4) a).

Section chains.
(** Where an address of the model lies in the machine's memory. *)
Variable machine : addr -> Z.

Definition payload_chksum (h : heap) (pb : pbuf) (n : Z) : outcome Z :=
  data ← read_payload h pb 0 n;
  match p_payload pb with
  | Some a => Done (lwip_standard_chksum (machine a) data)
  | None => Undef
  end.

(** The loop over the chain: the sum and whether its bytes are swapped. *)
Fixpoint chain_chksum (fuel : nat) (h : heap) (q : option ptr) (acc : Z) (swapped : bool)
    : outcome (Z * bool) :=
  match q with
  | None => Done (acc, swapped)
  | Some q =>
      match fuel with
      | O => Undef
      | S fuel =>
          pb ← get h q;
          c ← payload_chksum h pb (p_len pb);
          let acc := FOLD_U32T (u32 (acc + c)) in
          if negb (p_len pb mod 2 =? 0)
          then chain_chksum fuel h (p_next pb) (SWAP_BYTES_IN_WORD acc) (negb swapped)
          else chain_chksum fuel h (p_next pb) acc swapped
      end
  end.

Definition inet_chksum_pbuf (h : heap) (p : option ptr) : outcome Z :=
  '(acc, swapped) ← chain_chksum (walk_fuel h) h p 0 false;
  let acc := if (swapped : bool) then SWAP_BYTES_IN_WORD acc else acc in
  Done (u16 (Z.lnot (Z.land acc 0xffff))).

(** The end shared by the pseudo-header checksums. *)
Definition finish_pseudo (acc : Z) (swapped : bool) (proto proto_len : Z) : Z :=
  let acc := if swapped then SWAP_BYTES_IN_WORD acc else acc in
  let acc := u32 (acc + lwip_htons (u16 proto)) in
  let acc := u32 (acc + lwip_htons proto_len) in
  let acc := FOLD_U32T acc in
  let acc := FOLD_U32T acc in
  u16 (Z.lnot (Z.land acc 0xffff)).

Definition inet_cksum_pseudo_base (h : heap) (p : option ptr) (proto proto_len acc : Z) : outcome Z :=
  '(acc, swapped) ← chain_chksum (walk_fuel h) h p acc false;
  Done (finish_pseudo acc swapped proto proto_len).

(** Both halves of an address word. *)
Definition add_addr (acc addr : Z) : Z :=
  let acc := u32 (acc + Z.land addr 0xffff) in
  u32 (acc + Z.land (Z.shiftr addr 16) 0xffff).

Definition inet_pseudo_acc (src dest : list Z) : Z :=
  let acc := add_addr (add_addr 0 (addr_word src 0)) (addr_word dest 0) in
  FOLD_U32T (FOLD_U32T acc).

Definition ip6_pseudo_acc (src dest : list Z) : Z :=
  let acc := foldl (fun acc i => add_addr (add_addr acc (addr_word src i)) (addr_word dest i))
               0 (seq 0 4) in
  FOLD_U32T (FOLD_U32T acc).

Definition inet_chksum_pseudo (h : heap) (p : option ptr) (proto proto_len : Z) (src dest : list Z)
    : outcome Z :=
  inet_cksum_pseudo_base h p proto proto_len (inet_pseudo_acc src dest).

Definition ip6_chksum_pseudo (h : heap) (p : option ptr) (proto proto_len : Z) (src dest : list Z)
    : outcome Z :=
  inet_cksum_pseudo_base h p proto proto_len (ip6_pseudo_acc src dest).

Definition ip_chksum_pseudo (h : heap) (p : option ptr) (proto proto_len : Z) (src dest : ip_addr_t)
    : outcome Z :=
  if IP_IS_V6 dest then ip6_chksum_pseudo h p proto proto_len (u_addr src) (u_addr dest)
  else inet_chksum_pseudo h p proto proto_len (u_addr src) (u_addr dest).

(** The loop that stops after [chksum_len] bytes. *)
Fixpoint chain_chksum_partial (fuel : nat) (h : heap) (q : option ptr) (chksum_len acc : Z)
    (swapped : bool) : outcome (Z * bool) :=
  match q with
  | None => Done (acc, swapped)
  | Some q =>
      if chksum_len =? 0 then Done (acc, swapped)
      else
        match fuel with
        | O => Undef
        | S fuel =>
            pb ← get h q;
            let chklen := if chksum_len <? p_len pb then chksum_len else p_len pb in
            c ← payload_chksum h pb chklen;
            let acc := u32 (acc + c) in
            let chksum_len := u16 (chksum_len - chklen) in
            _ ← lwip_assert (chksum_len <? 0x7fff);
            let acc := FOLD_U32T acc in
            if negb (p_len pb mod 2 =? 0)
            then chain_chksum_partial fuel h (p_next pb) chksum_len (SWAP_BYTES_IN_WORD acc) (negb swapped)
            else chain_chksum_partial fuel h (p_next pb) chksum_len acc swapped
        end
  end.

Definition inet_cksum_pseudo_partial_base (h : heap) (p : option ptr)
    (proto proto_len chksum_len acc : Z) : outcome Z :=
  '(acc, swapped) ← chain_chksum_partial (walk_fuel h) h p chksum_len acc false;
  Done (finish_pseudo acc swapped proto proto_len).

Definition inet_chksum_pseudo_partial (h : heap) (p : option ptr) (proto proto_len chksum_len : Z)
    (src dest : list Z) : outcome Z :=
  inet_cksum_pseudo_partial_base h p proto proto_len chksum_len (inet_pseudo_acc src dest).

Definition ip6_chksum_pseudo_partial (h : heap) (p : option ptr) (proto proto_len chksum_len : Z)
    (src dest : list Z) : outcome Z :=
  inet_cksum_pseudo_partial_base h p proto proto_len chksum_len (ip6_pseudo_acc src dest).

Definition ip_chksum_pseudo_partial (h : heap) (p : option ptr) (proto proto_len chksum_len : Z)
    (src dest : ip_addr_t) : outcome Z :=
  if IP_IS_V6 dest
  then ip6_chksum_pseudo_partial h p proto proto_len chksum_len (u_addr src) (u_addr dest)
  else inet_chksum_pseudo_partial h p proto proto_len chksum_len (u_addr src) (u_addr dest).

(** [pbuf_fill_chksum] of pbuf.c: copying into one buffer and updating the sum. *)
Definition pbuf_fill_chksum (h : heap) (p : ptr) (start_offset : Z) (data : list Z) (chksum : Z)
    : outcome (err_t * Z * heap) :=
  _ ← lwip_assert (negb (zlen data =? 0));
  pb ← get h p;
  if (p_len pb <=? start_offset) || (p_len pb <? start_offset + zlen data)
  then Done (ERR_ARG, chksum, h)
  else
    h ← write_payload h pb start_offset data;
    match p_payload pb with
    | None => Undef
    | Some a =>
        let copy_chksum := snd (lwip_chksum_copy (machine (mk_addr (a_block a) (a_off a + start_offset))) data) in
        let copy_chksum :=
          if negb (Z.land start_offset 1 =? 0) then u16 (SWAP_BYTES_IN_WORD copy_chksum) else copy_chksum in
        Done (ERR_OK, u16 (FOLD_U32T (u32 (chksum + copy_chksum))), h)
    end.
End chains.
