(* ===== verification/ChksumProofs.v ===== *)
(** * The checksums compute the one's complement sum

    [words_sum] is the sum of the 16-bit little-endian words of the data, an odd
    last byte padded with zero (RFC 1071). Every loop, fold, carry and byte swap of
    the code keeps the sum modulo 65535 and keeps it apart from zero; so the result
    does not depend on the alignment of the data nor on how it is cut into buffers. *)
From Stdlib Require Import ZArith Lia.
From stdpp Require Import base list option numbers gmap.
From S2P Require Import Prelude Pbuf PbufChain PbufRead Chksum.

Fixpoint words_sum (d : list Z) : Z :=
  match d with
  | [] => 0
  | [b] => b
  | b0 :: b1 :: d => b0 + 256 * b1 + words_sum d
  end.

(** The 16-bit one's complement representative of a sum. *)
Definition oc (s : Z) : Z := if s =? 0 then 0 else 1 + (s - 1) mod 65535.

(** ** Congruence modulo 65535 *)

Definition cong (a b : Z) : Prop := a mod 65535 = b mod 65535.
Infix "≅" := cong (at level 70) : cint_scope.
Local Open Scope cint_scope.

#[export] Instance cong_equiv : Equivalence cong.
Proof. split; unfold cong; congruence. Qed.

#[export] Instance cong_add : Proper (cong ==> cong ==> cong) Z.add.
Proof.
  intros a b H c d H2. unfold cong in *. rewrite (Z.add_mod a c), (Z.add_mod b d) by lia.
  by rewrite H, H2.
Qed.

#[export] Instance cong_mul : Proper (cong ==> cong ==> cong) Z.mul.
Proof.
  intros a b H c d H2. unfold cong in *. rewrite (Z.mul_mod a c), (Z.mul_mod b d) by lia.
  by rewrite H, H2.
Qed.

Lemma cong_by k a b : a = b + 65535 * k -> a ≅ b.
Proof. intros ->. unfold cong. rewrite Z.mul_comm. apply Z.mod_add. lia. Qed.

Lemma cong_65536 a : 65536 * a ≅ a.
Proof. apply (cong_by a). lia. Qed.

(** ** Sums *)

Lemma words_ind (P : list Z -> Prop) :
  P [] -> (forall b, P [b]) -> (forall b0 b1 d, P d -> P (b0 :: b1 :: d)) -> forall d, P d.
Proof.
  intros Hn H1 H2. fix IH 1. intros [|b0 [|b1 d]]; [exact Hn | apply H1 | apply H2, IH].
Qed.

Lemma words_sum_nonneg d : are_bytes d -> 0 <= words_sum d.
Proof.
  induction d as [|b|b0 b1 d IH] using words_ind; intros Hd; simpl; [lia| |];
    apply Forall_cons_1 in Hd as [Hb Hd]; unfold is_byte in *; [lia|].
  apply Forall_cons_1 in Hd as [Hb1 Hd]. specialize (IH Hd). unfold is_byte in *. lia.
Qed.

Lemma words_sum_bound d : are_bytes d -> words_sum d <= 65535 * zlen d.
Proof.
  induction d as [|b|b0 b1 d IH] using words_ind; intros Hd; simpl; [done| |];
    apply Forall_cons_1 in Hd as [Hb Hd]; unfold is_byte in *; [rewrite zlen_cons, (@zlen_nil Z); lia|].
  apply Forall_cons_1 in Hd as [Hb1 Hd]. specialize (IH Hd). unfold is_byte in *.
  rewrite !zlen_cons. lia.
Qed.

Lemma words_sum_cons b d : words_sum (b :: d) ≅ b + 256 * words_sum d.
Proof.
  revert b. induction d as [|c|c0 c1 d IH] using words_ind; intros b.
  - apply (cong_by 0). simpl. lia.
  - apply (cong_by 0). simpl. lia.
  - change (words_sum (b :: c0 :: c1 :: d)) with (b + 256 * c0 + words_sum (c1 :: d)).
    rewrite IH. apply (cong_by (- c1)). simpl. lia.
Qed.

(** A byte later than an odd number of bytes has the other place in its word. *)
Definition place (d : list Z) : Z := if Z.even (zlen d) then 1 else 256.

Lemma place_cons b d : place (b :: d) * 256 ≅ place d.
Proof.
  unfold place. rewrite zlen_cons, Z.add_1_l, Z.even_succ, <-Z.negb_even.
  destruct (Z.even (zlen d)); simpl; [by apply (cong_by 1) | done].
Qed.

Lemma place_cons' b d : place (b :: d) ≅ 256 * place d.
Proof.
  unfold place. rewrite zlen_cons, Z.add_1_l, Z.even_succ, <-Z.negb_even.
  destruct (Z.even (zlen d)); simpl; [done | by apply (cong_by (-1))].
Qed.

Lemma place_square d : place d * place d ≅ 1.
Proof. unfold place. destruct (Z.even (zlen d)); [done | by apply (cong_by 1)]. Qed.

Lemma place_app d1 d2 : place (d1 ++ d2) ≅ place d1 * place d2.
Proof.
  induction d1 as [|b d1 IH].
  - unfold place at 2. simpl (Z.even _). cbn match. by rewrite Z.mul_1_l.
  - change ((b :: d1) ++ d2) with (b :: (d1 ++ d2)). by rewrite !place_cons', IH, Z.mul_assoc.
Qed.

Lemma place_pos d : 0 < place d.
Proof. unfold place. destruct (Z.even _); lia. Qed.

Lemma words_sum_app d1 d2 : words_sum (d1 ++ d2) ≅ words_sum d1 + place d1 * words_sum d2.
Proof.
  induction d1 as [|b d1 IH].
  - simpl. apply (cong_by 0). unfold place. simpl (Z.even _). cbn match. lia.
  - change ((b :: d1) ++ d2) with (b :: (d1 ++ d2)).
    rewrite !words_sum_cons, IH, place_cons'. apply (cong_by 0). lia.
Qed.

Lemma words_sum_zero_app d1 d2 :
  are_bytes d1 -> are_bytes d2 ->
  words_sum (d1 ++ d2) = 0 <-> words_sum d1 = 0 /\ words_sum d2 = 0.
Proof.
  assert (forall d, are_bytes d -> words_sum d = 0 <-> Forall (fun b => b = 0) d) as Hz.
  { induction d as [|b|b0 b1 d IH] using words_ind; intros Hd.
    - split; [constructor | done].
    - simpl. rewrite Forall_singleton. done.
    - apply Forall_cons_1 in Hd as [Hb Hd]. apply Forall_cons_1 in Hd as [Hb1 Hd].
      pose proof (words_sum_nonneg d Hd). unfold is_byte in *. simpl.
      rewrite !Forall_cons, <-(IH Hd). lia. }
  intros H1 H2. rewrite !Hz by (done || by apply Forall_app). apply Forall_app.
Qed.

(** ** Accumulators *)

(** [x] stands for the sum [s]. *)
Record sums (x s : Z) : Prop := {
  su_acc : 0 <= x;
  su_sum : 0 <= s;
  su_cong : x ≅ s;
  su_zero : x = 0 <-> s = 0;
}.

Lemma sums_refl s : 0 <= s -> sums s s.
Proof. by constructor. Qed.

Lemma sums_oc x s : sums x s -> x <= 65535 -> x = oc s.
Proof.
  intros [Hx Hs Hc Hz] Hle. unfold oc, cong in *. destruct (Z.eqb_spec s 0); [by apply Hz|].
  assert (x <> 0) by (intros ?; by apply n, Hz). div_lia.
Qed.

Lemma oc_sums s : 0 <= s -> sums (oc s) s.
Proof.
  intros Hs. unfold oc. destruct (Z.eqb_spec s 0) as [->|Hn]; [by apply sums_refl|].
  pose proof (Z.mod_pos_bound (s - 1) 65535). constructor; [lia|lia| |lia].
  apply (cong_by (- ((s - 1) / 65535))). pose proof (Z.div_mod (s - 1) 65535). lia.
Qed.

Lemma oc_range s : 0 <= s -> 0 <= oc s <= 65535.
Proof.
  intros Hs. unfold oc. destruct (s =? 0); [lia|].
  pose proof (Z.mod_pos_bound (s - 1) 65535). lia.
Qed.

Lemma sums_trans x y s : sums x y -> sums y s -> sums x s.
Proof. intros [] []. constructor; [done|done|by etransitivity|by etransitivity]. Qed.

Lemma sums_eq x s t : sums x s -> 0 <= t -> s ≅ t -> (s = 0 <-> t = 0) -> sums x t.
Proof. intros [] Ht Hc Hz. constructor; [done|done|by etransitivity|by etransitivity]. Qed.

Lemma oc_eq s t : 0 <= s -> 0 <= t -> s ≅ t -> (s = 0 <-> t = 0) -> oc s = oc t.
Proof.
  intros Hs Ht Hc Hz. apply sums_oc; [|by apply oc_range].
  apply (sums_eq _ s); [by apply oc_sums|done..].
Qed.

Lemma sums_add x s y t : sums x s -> sums y t -> sums (x + y) (s + t).
Proof. intros [] []. constructor; [lia|lia|by apply cong_add|lia]. Qed.

Lemma sums_add32 x s y t : sums x s -> sums y t -> x + y < 2 ^ 32 -> sums (u32 (x + y)) (s + t).
Proof.
  intros Hx Hy Hlt. rewrite wrap_small; [by apply sums_add|].
  destruct Hx, Hy. unfold fits. lia.
Qed.

Lemma fold_value x : 0 <= x < 2 ^ 32 -> FOLD_U32T x = x / 65536 + x mod 65536.
Proof.
  intros Hx. unfold FOLD_U32T. rewrite Z.shiftr_div_pow2 by lia.
  change 0xffff with (Z.ones 16). rewrite Z.land_ones by lia. apply wrap_small.
  change (2 ^ 16) with 65536. unfold fits. div_lia.
Qed.

Lemma sums_fold x s : sums x s -> x < 2 ^ 32 -> sums (FOLD_U32T x) s.
Proof.
  intros Hx Hlt. pose proof (su_acc _ _ Hx). apply (sums_trans _ x); [|done].
  rewrite fold_value by lia. constructor; [div_lia|done| |div_lia].
  apply (cong_by (- (x / 65536))). div_lia.
Qed.

Lemma fold_bound x : 0 <= x < 2 ^ 32 -> 0 <= FOLD_U32T x <= 65535 + 65535.
Proof. intros Hx. rewrite fold_value by done. div_lia. Qed.

(** A second fold leaves a half-word, as does one fold of a small sum. *)
Lemma fold_small x n : 0 <= x <= 65535 * n -> n <= 65536 -> 0 <= FOLD_U32T x <= 65535 + n - 1.
Proof. intros Hx Hn. rewrite fold_value by lia. div_lia. Qed.

Lemma fold_two x : 0 <= x <= 131070 -> 0 <= FOLD_U32T x <= 65535.
Proof. intros Hx. rewrite fold_value by lia. div_lia. Qed.

Lemma swap_value x : 0 <= x <= 65535 -> SWAP_BYTES_IN_WORD x = x / 256 + 256 * (x mod 256).
Proof.
  intros Hx. unfold SWAP_BYTES_IN_WORD. change 0xff with (Z.ones 8). rewrite Z.land_ones by lia.
  rewrite Z.shiftl_mul_pow2 by lia. change (2 ^ 8) with 256.
  assert (Z.shiftr (Z.land x 0xff00) 8 = x / 256) as ->.
  { rewrite Z.shiftr_land. change (Z.shiftr 0xff00 8) with (Z.ones 8).
    rewrite Z.land_ones, Z.shiftr_div_pow2 by lia. change (2 ^ 8) with 256.
    apply Z.mod_small. div_lia. }
  rewrite Z.lor_comm, Z.mul_comm. apply (lor_shifted (x / 256) (x mod 256) 8); [done|].
  change (2 ^ 8) with 256. div_lia.
Qed.

Lemma swap_range x : 0 <= x <= 65535 -> 0 <= SWAP_BYTES_IN_WORD x <= 65535.
Proof. intros Hx. rewrite swap_value by done. div_lia. Qed.

Lemma sums_swap x s : sums x s -> x <= 65535 -> sums (SWAP_BYTES_IN_WORD x) (256 * s).
Proof.
  intros Hx Hle. pose proof (su_acc _ _ Hx). apply (sums_trans _ (256 * x)).
  - rewrite swap_value by lia. constructor; [div_lia|lia| |div_lia].
    apply (cong_by (- (x / 256))). div_lia.
  - destruct Hx. constructor; [lia|lia|by apply cong_mul|lia].
Qed.

Lemma swap_htons n : fits 16 n -> lwip_htons n = SWAP_BYTES_IN_WORD n.
Proof.
  intros Hn. unfold lwip_htons. fold (SWAP_BYTES_IN_WORD n). apply wrap_small.
  pose proof (swap_range n). unfold fits in *. lia.
Qed.

(** ** [lwip_standard_chksum] *)

Lemma add_carry_sums x s w : sums x s -> fits 32 x -> fits 32 w ->
  sums (add_carry x w) (s + w) /\ fits 32 (add_carry x w).
Proof.
  intros Hx Hfx Hfw. unfold add_carry, wrap, fits in *.
  assert (sums (x + w) (s + w)) as Hxw by (apply sums_add; [done | apply sums_refl; lia]).
  destruct (Z.lt_ge_cases (x + w) (2 ^ 32)) as [Hlt|Hge].
  - rewrite Z.mod_small by lia. destruct (Z.ltb_spec (x + w) x); [lia|]. split; [done | lia].
  - assert ((x + w) mod 2 ^ 32 = x + w - 2 ^ 32) as -> by div_lia.
    destruct (Z.ltb_spec (x + w - 2 ^ 32) x); [|lia]. rewrite Z.mod_small by lia.
    split; [|lia]. apply (sums_trans _ (x + w)); [|done]. constructor; [lia|lia| |lia].
    apply (cong_by (-65537)). lia.
Qed.

Lemma le_combine_four b0 b1 b2 b3 :
  is_byte b0 -> is_byte b1 -> is_byte b2 -> is_byte b3 ->
  fits 32 (le_combine [b0; b1; b2; b3])
  /\ sums (le_combine [b0; b1; b2; b3]) (b0 + 256 * b1 + (b2 + 256 * b3)).
Proof.
  unfold is_byte, fits. intros. simpl le_combine. split; [lia|].
  constructor; [lia|lia| |lia]. apply (cong_by (b2 + 256 * b3)). lia.
Qed.

Lemma sums_cancel x s w w' : sums x (s + w) -> 0 <= s -> sums w w' -> sums x (s + w').
Proof.
  intros Hx Hs Hw. apply (sums_trans _ (s + w)); [done|].
  apply sums_add; [by apply sums_refl | done].
Qed.

(** A rule for the eight bytes of a round. *)
Lemma octet_ind (P : list Z -> Prop) :
  (forall d, zlen d < 8 -> P d) ->
  (forall b0 b1 b2 b3 b4 b5 b6 b7 d, P d -> P (b0 :: b1 :: b2 :: b3 :: b4 :: b5 :: b6 :: b7 :: d)) ->
  forall d, P d.
Proof.
  intros Hs Hc. fix IH 1.
  intros [|b0 [|b1 [|b2 [|b3 [|b4 [|b5 [|b6 [|b7 d]]]]]]]]; try (apply Hs; reflexivity).
  apply Hc, IH.
Qed.

Lemma chksum_words_sums d : forall x s, are_bytes d -> sums x s -> fits 32 x ->
  sums (chksum_words x d).1 (s + (words_sum d - words_sum (chksum_words x d).2))
  /\ fits 32 (chksum_words x d).1 /\ zlen (chksum_words x d).2 < 8
  /\ are_bytes (chksum_words x d).2.
Proof.
  induction d as [d Hd|b0 b1 b2 b3 b4 b5 b6 b7 d IH] using octet_ind; intros x s Hb Hx Hf.
  - assert (chksum_words x d = (x, d)) as ->.
    { destruct d as [|b0 [|b1 [|b2 [|b3 [|b4 [|b5 [|b6 [|b7 d]]]]]]]]; try reflexivity.
      exfalso. pose proof (zlen_nonneg d). rewrite !zlen_cons in Hd. lia. }
    cbn [fst snd]. by rewrite Z.sub_diag, Z.add_0_r.
  - unfold are_bytes in Hb. rewrite !Forall_cons in Hb.
    destruct Hb as (Hb0 & Hb1 & Hb2 & Hb3 & Hb4 & Hb5 & Hb6 & Hb7 & Hb).
    pose proof (su_sum _ _ Hx) as Hs.
    destruct (le_combine_four b0 b1 b2 b3) as [Hw1 Hc1]; [done..|].
    destruct (le_combine_four b4 b5 b6 b7) as [Hw2 Hc2]; [done..|].
    destruct (add_carry_sums x s _ Hx Hf Hw1) as [Hx1 Hf1].
    apply (sums_cancel _ _ _ _ Hx1 Hs) in Hc1.
    destruct (add_carry_sums _ _ _ Hc1 Hf1 Hw2) as [Hx2 Hf2].
    apply (sums_cancel _ _ _ _ Hx2 (su_sum _ _ Hc1)) in Hc2.
    specialize (IH _ _ Hb Hc2 Hf2).
    cbn [chksum_words words_sum]. destruct (chksum_words _ d) as [x' r]. cbn [fst snd] in *.
    destruct IH as (IH & ? & ?). split; [|done]. eapply eq_ind; [exact IH | lia].
Qed.

Lemma chksum_halves_sums d : forall x s, are_bytes d -> sums x s -> x + 65535 * zlen d < 2 ^ 32 ->
  let '(x', r) := chksum_halves x d in
  exists b, (r = [] /\ b = 0 \/ r = [b]) /\ is_byte b
    /\ sums (x' + b) (s + words_sum d) /\ x' <= x + 65535 * zlen d.
Proof.
  induction d as [|b|b0 b1 d IH] using words_ind; intros x s Hd Hx Hlt.
  - exists 0. cbn [words_sum]. rewrite (@zlen_nil Z), !Z.add_0_r.
    split; [by left|]. split; [done|]. split; [done | lia].
  - apply Forall_cons_1 in Hd as [Hb _]. exists b. rewrite zlen_cons, (@zlen_nil Z) in *.
    split; [by right|]. split; [done|]. split; [|lia].
    apply sums_add; [done|]. simpl. unfold is_byte in Hb. apply sums_refl. lia.
  - apply Forall_cons_1 in Hd as [Hb Hd]. apply Forall_cons_1 in Hd as [Hb1 Hd].
    unfold is_byte in Hb, Hb1. rewrite !zlen_cons in *. pose proof (zlen_nonneg d).
    cbn [chksum_halves].
    assert (le_combine [b0; b1] = b0 + 256 * b1) as -> by (simpl; lia).
    assert (0 <= x) by apply Hx.
    rewrite (wrap_small 32) by (unfold fits; lia).
    specialize (IH (x + (b0 + 256 * b1)) (s + (b0 + 256 * b1)) Hd).
    destruct (chksum_halves _ d) as [x' r]. destruct IH as (b & Hr & Hbb & Hs & Hle).
    + apply sums_add; [done | apply sums_refl; lia].
    + lia.
    + exists b. split; [done|]. split; [done|]. split; [|lia].
      eapply eq_ind; [exact Hs|]. simpl. lia.
Qed.

(** The rounds of [lwip_standard_chksum] after the alignment, up to the last folds. *)
Lemma le_combine_two a b : le_combine [a; b] = a + 256 * b.
Proof. simpl. lia. Qed.

Definition aligned_sum (sum : Z) (data : list Z) : Z * list Z :=
  let '(sum, data) := chksum_words sum data in chksum_halves (FOLD_U32T sum) data.

Lemma aligned_sum_sums d x : are_bytes d -> fits 16 x ->
  let '(x', r) := aligned_sum x d in
  exists b, (r = [] /\ b = 0 \/ r = [b]) /\ is_byte b
    /\ sums (x' + b) (x + words_sum d) /\ x' <= 65535 * 9.
Proof.
  intros Hd Hx. unfold aligned_sum, fits in *.
  pose proof (chksum_words_sums d x x Hd) as H. destruct (chksum_words x d) as [x1 r1].
  cbn [fst snd] in H. destruct H as (Hs & Hf & Hlen & Hb).
  { apply sums_refl; lia. } { unfold fits. lia. }
  pose proof (fold_bound x1 Hf).
  pose proof (chksum_halves_sums r1 (FOLD_U32T x1) _ Hb (sums_fold _ _ Hs (proj2 Hf))) as H2.
  destruct (chksum_halves _ r1) as [x2 r2]. destruct H2 as (b & Hr & Hbb & Hs2 & Hle); [lia|].
  exists b. split; [done|]. split; [done|]. split; [|lia].
  eapply eq_ind; [exact Hs2 | lia].
Qed.

(** The half-word that brings the pointer to a word boundary. *)
Definition align_half (pb : Z) (data : list Z) : Z * list Z :=
  if negb (Z.land pb 3 =? 0) && (1 <? zlen data)
  then match data with
       | b0 :: b1 :: rest => (u32 (0 + le_combine [b0; b1]), rest)
       | _ => (0, data)
       end
  else (0, data).

Lemma align_half_sum pb d : are_bytes d ->
  let '(x, r) := align_half pb d in fits 16 x /\ are_bytes r /\ x + words_sum r = words_sum d.
Proof.
  intros Hd. unfold align_half, fits. destruct (_ && _); [|by repeat split].
  destruct d as [|b0 [|b1 d]]; [by repeat split | by repeat split |].
  apply Forall_cons_1 in Hd as [Hb Hd]. apply Forall_cons_1 in Hd as [Hb1 Hd].
  unfold is_byte in *. rewrite le_combine_two, Z.add_0_l, wrap_small by (unfold fits; lia).
  split; [lia|]. split; [done|]. simpl. lia.
Qed.

(** The part of the function that does not depend on the first odd byte. *)
Lemma body_sums pb d t1 : are_bytes d -> is_byte t1 ->
  let '(sum, data) := align_half pb d in
  let '(sum, data) := aligned_sum sum data in
  let t0 := match data with b :: _ => b | [] => 0 end in
  let r := FOLD_U32T (FOLD_U32T (u32 (sum + le_combine [t0; t1]))) in
  sums r (words_sum d + 256 * t1) /\ r <= 65535.
Proof.
  intros Hd Ht. pose proof (align_half_sum pb d Hd) as H.
  destruct (align_half pb d) as [x r]. destruct H as (Hx & Hr & <-).
  pose proof (aligned_sum_sums r x Hr Hx) as H.
  destruct (aligned_sum x r) as [x' r']. destruct H as (b & Hrb & Hb & Hs & Hle).
  assert (match r' with [] => 0 | b :: _ => b end = b) as -> by (destruct Hrb as [[-> ->]| ->]; done).
  cbv zeta. rewrite le_combine_two. unfold is_byte in *.
  assert (0 <= x' + b) by apply Hs.
  assert (sums (x' + (b + 256 * t1)) (x + words_sum r + 256 * t1)) as Hall.
  { rewrite Z.add_assoc. apply sums_add; [done | apply sums_refl; lia]. }
  rewrite (wrap_small 32) by (unfold fits; lia).
  pose proof (fold_small (x' + (b + 256 * t1)) 11).
  split; [|apply fold_two; lia]. apply sums_fold; [|lia]. apply sums_fold; [done | lia].
Qed.

Lemma standard_unfold ptr data :
  lwip_standard_chksum ptr data =
  let odd := ptr mod 2 =? 1 in
  let '(t1, pb, data) :=
    match data with
    | b :: rest => if odd then (b, ptr + 1, rest) else (0, ptr, data)
    | [] => (0, ptr, data)
    end in
  let '(sum, data) := align_half pb data in
  let '(sum, data) := aligned_sum sum data in
  let t0 := match data with b :: _ => b | [] => 0 end in
  let sum := FOLD_U32T (FOLD_U32T (u32 (sum + le_combine [t0; t1]))) in
  u16 (if odd then SWAP_BYTES_IN_WORD sum else sum).
Proof.
  unfold lwip_standard_chksum, align_half, aligned_sum. cbv zeta.
  destruct (match data with [] => _ | _ => _ end) as [[t1 pb] d].
  destruct (if _ && _ then _ else _) as [s1 d1].
  destruct (chksum_words s1 d1) as [s2 d2]. destruct (chksum_halves _ d2) as [s3 d3]. reflexivity.
Qed.

Lemma standard_chksum_oc ptr data :
  are_bytes data -> lwip_standard_chksum ptr data = oc (words_sum data).
Proof.
  intros Hd. rewrite standard_unfold. pose proof (words_sum_nonneg data Hd).
  assert (forall x s, sums x s -> x <= 65535 -> u16 x = oc s) as Hfin.
  { intros x s Hs Hle. rewrite wrap_small; [by apply sums_oc|]. destruct Hs. unfold fits. lia. }
  destruct data as [|b rest]; [|destruct (Z.eqb_spec (ptr mod 2) 1)]; cbv beta iota zeta.
  - pose proof (body_sums ptr [] 0 ltac:(done) ltac:(done)) as H0.
    destruct (align_half _ _) as [s1 d1]. destruct (aligned_sum s1 d1) as [s2 d2].
    cbv zeta in H0. destruct H0 as [Hs Hle]. rewrite Z.add_0_r in Hs. apply Hfin.
    + destruct (ptr mod 2 =? 1); [apply (sums_swap _ 0)|]; done.
    + destruct (ptr mod 2 =? 1); [apply swap_range; split; [apply Hs|]|]; done.
  - apply Forall_cons_1 in Hd as [Hb Hd].
    pose proof (body_sums (ptr + 1) rest b Hd Hb) as H0.
    destruct (align_half _ _) as [s1 d1]. destruct (aligned_sum s1 d1) as [s2 d2].
    cbv zeta in H0. destruct H0 as [Hs Hle]. pose proof (words_sum_nonneg rest Hd).
    apply Hfin; [|apply swap_range; split; [apply Hs|done]].
    unfold is_byte in Hb. apply (sums_eq _ (256 * (words_sum rest + 256 * b))); [by apply sums_swap|done| |].
    + rewrite words_sum_cons. apply (cong_by b). lia.
    + pose proof (words_sum_zero_app [b] rest). rewrite (words_sum_zero_app [b] rest) by
        (done || by apply Forall_singleton). simpl. lia.
  - pose proof (body_sums ptr (b :: rest) 0 Hd ltac:(done)) as H0.
    destruct (align_half ptr (b :: rest)) as [s1 d1]. destruct (aligned_sum s1 d1) as [s2 d2].
    cbv zeta in H0. destruct H0 as [Hs Hle]. rewrite Z.add_0_r in Hs. by apply Hfin.
Qed.

(** ** Chains *)

Section chains.
Variable machine : addr -> Z.

Lemma payload_chksum_read h pb n d :
  read_payload h pb 0 n = Done d -> are_bytes d ->
  payload_chksum machine h pb n = Done (oc (words_sum d)).
Proof.
  intros Hr Hd. unfold payload_chksum. rewrite Hr. cbn.
  unfold read_payload in Hr. destruct (p_payload pb); [|done]. by rewrite standard_chksum_oc.
Qed.

(** One buffer: the fold, and the swap after an odd number of bytes. *)
Definition buffer_acc (acc c : Z) (odd : bool) : Z :=
  let acc := FOLD_U32T (u32 (acc + c)) in if odd then SWAP_BYTES_IN_WORD acc else acc.

Lemma buffer_acc_sums acc s d :
  sums acc s -> acc <= 65535 -> are_bytes d ->
  let acc' := buffer_acc acc (oc (words_sum d)) (negb (zlen d mod 2 =? 0)) in
  sums acc' (place d * (s + words_sum d)) /\ acc' <= 65535.
Proof.
  intros Hs Hle Hd. pose proof (words_sum_nonneg d Hd) as Hw.
  pose proof (oc_range _ Hw). pose proof (su_acc _ _ Hs).
  assert (sums (FOLD_U32T (u32 (acc + oc (words_sum d)))) (s + words_sum d)) as Hf.
  { apply sums_fold; [|apply wrap_fits; lia]. apply sums_add32; [done|by apply oc_sums|lia]. }
  assert (FOLD_U32T (u32 (acc + oc (words_sum d))) <= 65535) as Hb.
  { rewrite wrap_small by (unfold fits; lia). apply fold_two. lia. }
  unfold buffer_acc, place. cbv zeta.
  rewrite Zmod_odd, <-Z.negb_even. destruct (Z.even (zlen d)); simpl.
  - rewrite Z.mul_1_l. done.
  - split; [by apply sums_swap|]. apply swap_range. split; [apply Hf | done].
Qed.

Lemma chain_sum_step s d1 d2 :
  0 <= s -> are_bytes d1 -> are_bytes d2 ->
  place d2 * (place d1 * (s + words_sum d1) + words_sum d2)
    ≅ place (d1 ++ d2) * (s + words_sum (d1 ++ d2))
  /\ (place d2 * (place d1 * (s + words_sum d1) + words_sum d2) = 0
      <-> place (d1 ++ d2) * (s + words_sum (d1 ++ d2)) = 0)
  /\ 0 <= place (d1 ++ d2) * (s + words_sum (d1 ++ d2)).
Proof.
  intros Hs H1 H2. pose proof (words_sum_nonneg d1 H1). pose proof (words_sum_nonneg d2 H2).
  assert (are_bytes (d1 ++ d2)) as H12 by by apply Forall_app.
  pose proof (words_sum_nonneg _ H12). pose proof (words_sum_zero_app d1 d2 H1 H2) as Hz.
  pose proof (place_pos d1). pose proof (place_pos d2). pose proof (place_pos (d1 ++ d2)).
  split; [|split; nia].
  rewrite words_sum_app, place_app.
  transitivity (place d1 * place d2 * (s + words_sum d1) + 1 * (place d2 * words_sum d2)).
  - apply (cong_by 0). lia.
  - rewrite <-(place_square d1). apply (cong_by 0). lia.
Qed.

Lemma chain_chksum_spec fuel h q l d acc sw s :
  linked q None l -> stored h l -> contents h l d -> are_bytes d -> (length l <= fuel)%nat ->
  sums acc s -> acc <= 65535 ->
  exists acc', chain_chksum machine fuel h q acc sw = Done (acc', xorb sw (Z.odd (zlen d)))
    /\ sums acc' (place d * (s + words_sum d)) /\ acc' <= 65535.
Proof.
  revert fuel q d acc sw s.
  induction l as [|[q' pb] l IH]; intros fuel q d acc sw s Hl Hst Hc Hd Hf Hs Hle.
  - simpl in Hl, Hc. subst q d. exists acc. split; [destruct fuel, sw; done|].
    split; [|done]. unfold place. simpl (Z.even _). cbn match. simpl words_sum.
    by rewrite Z.mul_1_l, Z.add_0_r.
  - destruct Hl as [-> Hl]. apply stored_cons in Hst as [Hq Hst].
    destruct Hc as (d1 & d2 & -> & Hlen & Hread & Hc). apply Forall_app in Hd as [Hd1 Hd2].
    destruct fuel as [|fuel]; [simpl in Hf; lia|]. simpl in Hf.
    cbn [chain_chksum]. rewrite (get_stored _ _ _ Hq). cbn [mbind outcome_bind obind].
    rewrite (payload_chksum_read _ _ _ _ Hread Hd1). cbn [mbind outcome_bind obind].
    destruct (buffer_acc_sums acc s d1 Hs Hle Hd1) as [Hs1 Hle1].
    destruct (IH fuel (p_next pb) d2 _ (xorb sw (Z.odd (zlen d1))) _ Hl Hst Hc Hd2 ltac:(lia) Hs1 Hle1)
      as (acc' & Hrun & Hs' & Hle').
    exists acc'. rewrite <-Hlen. split; [|split; [|done]].
    + rewrite zlen_app, Z.odd_add. revert Hrun. unfold buffer_acc.
      rewrite !Zmod_odd. destruct (Z.odd (zlen d1)); simpl; destruct sw, (Z.odd (zlen d2)); exact id.
    + destruct (chain_sum_step s d1 d2 (su_sum _ _ Hs) Hd1 Hd2) as (Hcong & Hzero & Hpos).
      by apply (sums_eq _ _ _ Hs').
Qed.

Lemma unswap_sums acc d s :
  sums acc (place d * s) -> acc <= 65535 -> 0 <= s ->
  let acc' := if Z.odd (zlen d) then SWAP_BYTES_IN_WORD acc else acc in
  sums acc' s /\ acc' <= 65535.
Proof.
  intros Ha Hle Hs. cbv zeta. unfold place in Ha. rewrite <-Z.negb_even.
  destruct (Z.even (zlen d)); simpl.
  - by rewrite Z.mul_1_l in Ha.
  - split; [|apply swap_range; split; [apply Ha | done]].
    apply (sums_eq _ (256 * (256 * s))); [by apply sums_swap|done| |lia].
    apply (cong_by s). lia.
Qed.

(** The complement of the representative. *)
Lemma lnot_u16 x : 0 <= x <= 65535 -> u16 (Z.lnot (Z.land x 0xffff)) = 65535 - x.
Proof.
  intros Hx. change (Z.land x 0xffff) with (Z.land x (Z.ones 16)). rewrite Z.land_ones by lia.
  rewrite Z.mod_small by lia. unfold wrap.
  replace (Z.lnot x) with (65535 - x + (-1) * 2 ^ 16) by (unfold Z.lnot; lia).
  rewrite Z.mod_add, Z.mod_small; lia.
Qed.

Lemma chksum_pbuf_spec h p l d :
  linked p None l -> stored h l -> contents h l d -> are_bytes d ->
  inet_chksum_pbuf machine h p = Done (65535 - oc (words_sum d)).
Proof.
  intros Hl Hst Hc Hd. unfold inet_chksum_pbuf.
  destruct (chain_chksum_spec (walk_fuel h) h p l d 0 false 0) as (acc & -> & Hs & Hle);
    [done..|pose proof (chain_fuel h p l Hst Hl); lia|by apply sums_refl|done|].
  cbn [mbind outcome_bind obind xorb]. rewrite Z.add_0_l in Hs.
  destruct (unswap_sums acc d _ Hs Hle (words_sum_nonneg d Hd)) as [Hs2 Hle2].
  replace (xorb false (Z.odd (zlen d))) with (Z.odd (zlen d)) by by destruct (Z.odd _).
  f_equal. rewrite lnot_u16 by (split; [apply Hs2 | done]). f_equal. by apply sums_oc.
Qed.

(** ** The pseudo header *)

(** The protocol's word and the length, big-endian. *)
Definition be16 (n : Z) : list Z := [n / 256; n mod 256].

Lemma htons_be16 n : fits 16 n -> lwip_htons n = words_sum (be16 n) /\ 0 <= lwip_htons n <= 65535.
Proof.
  intros Hn. rewrite swap_htons by done. unfold fits in Hn. split; [|apply swap_range; lia].
  rewrite swap_value by lia. unfold be16. cbn [words_sum]. lia.
Qed.

Lemma finish_pseudo_spec acc d s proto len :
  sums acc (place d * s) -> acc <= 65535 -> 0 <= s -> fits 16 proto -> fits 16 len ->
  finish_pseudo acc (Z.odd (zlen d)) proto len
  = 65535 - oc (s + words_sum (be16 proto) + words_sum (be16 len)).
Proof.
  intros Ha Hle Hs Hp Hl. unfold finish_pseudo. cbv zeta.
  destruct (unswap_sums acc d s Ha Hle Hs) as [Hs2 Hle2]. cbv zeta in Hs2, Hle2.
  set (a := if Z.odd (zlen d) then _ else _) in *. clearbody a.
  rewrite (wrap_small 16 proto) by done.
  destruct (htons_be16 proto Hp) as [Hp1 Hp2]. destruct (htons_be16 len Hl) as [Hl1 Hl2].
  rewrite <-Hp1, <-Hl1. pose proof (su_acc _ _ Hs2).
  rewrite (wrap_small 32 (a + _)) by (unfold fits; lia).
  rewrite (wrap_small 32) by (unfold fits; lia).
  assert (sums (a + lwip_htons proto + lwip_htons len) (s + lwip_htons proto + lwip_htons len)) as H2.
  { apply sums_add; [apply sums_add|]; [done|apply sums_refl; lia..]. }
  set (b := a + _ + _) in *. set (t := s + _ + _) in *.
  assert (0 <= b <= 65535 * 3) as Hb by lia. clearbody b t.
  pose proof (sums_fold _ _ H2 ltac:(lia)) as H3.
  pose proof (fold_small b 3 ltac:(lia) ltac:(lia)) as H4.
  pose proof (sums_fold _ _ H3 ltac:(lia)) as H5.
  pose proof (fold_two (FOLD_U32T b) ltac:(lia)) as H6.
  rewrite lnot_u16 by done. f_equal. apply sums_oc; [done | lia].
Qed.

Lemma pseudo_base_spec h p l d acc s proto len :
  linked p None l -> stored h l -> contents h l d -> are_bytes d ->
  sums acc s -> acc <= 65535 -> fits 16 proto -> fits 16 len ->
  inet_cksum_pseudo_base machine h p proto len acc
  = Done (65535 - oc (s + words_sum d + words_sum (be16 proto) + words_sum (be16 len))).
Proof.
  intros Hl Hst Hc Hd Hs Hle Hp Hlen. unfold inet_cksum_pseudo_base.
  destruct (chain_chksum_spec (walk_fuel h) h p l d acc false s) as (acc' & -> & Hs' & Hle');
    [done..|pose proof (chain_fuel h p l Hst Hl); lia|done|done|].
  cbn [mbind outcome_bind obind].
  replace (xorb false (Z.odd (zlen d))) with (Z.odd (zlen d)) by by destruct (Z.odd _).
  f_equal. apply finish_pseudo_spec; try done.
  pose proof (words_sum_nonneg d Hd). pose proof (su_sum _ _ Hs). lia.
Qed.
End chains.

(** *** Addresses *)

Lemma words_sum_app_even d1 d2 :
  Z.even (zlen d1) = true -> words_sum (d1 ++ d2) = words_sum d1 + words_sum d2.
Proof.
  induction d1 as [|b|b0 b1 d1 IH] using words_ind; intros He; [done|done|].
  change ((b0 :: b1 :: d1) ++ d2) with (b0 :: b1 :: (d1 ++ d2)). cbn [words_sum].
  rewrite IH; [lia|]. rewrite !zlen_cons in He. rewrite !Z.even_add in He.
  by destruct (Z.even (zlen d1)).
Qed.

Lemma word_halves w : fits 32 w ->
  Z.land w 0xffff + Z.land (Z.shiftr w 16) 0xffff = words_sum (le_split 4 w)
  /\ 0 <= Z.land w 0xffff <= 65535 /\ 0 <= Z.land (Z.shiftr w 16) 0xffff <= 65535.
Proof.
  unfold fits. intros Hw. change 0xffff with (Z.ones 16).
  rewrite !Z.land_ones, Z.shiftr_div_pow2 by lia. cbn [le_split words_sum].
  change (Z.ones 16) with 65535. change (2 ^ 16) with 65536.
  pose proof (Z.mod_pos_bound w 65536 ltac:(lia)).
  pose proof (Z.mod_pos_bound (w / 65536) 65536 ltac:(lia)).
  split; [|lia]. div_lia.
Qed.

Lemma add_addr_sums acc s w n :
  sums acc s -> fits 32 w -> acc <= 65535 * n -> n <= 1000 ->
  sums (add_addr acc w) (s + words_sum (le_split 4 w)) /\ add_addr acc w <= 65535 * (n + 2).
Proof.
  intros Hs Hw Hle Hn. destruct (word_halves w Hw) as (Heq & H1 & H2).
  pose proof (su_acc _ _ Hs). unfold add_addr. rewrite <-Heq, Z.add_assoc.
  rewrite (wrap_small 32 (acc + _)) by (unfold fits; lia).
  rewrite (wrap_small 32) by (unfold fits; lia). split; [|lia].
  apply sums_add; [apply sums_add|]; [done|apply sums_refl; lia..].
Qed.

(** Two folds end the sum of an address pair. *)
Lemma two_folds acc s : sums acc s -> acc <= 65535 * 20 ->
  sums (FOLD_U32T (FOLD_U32T acc)) s /\ FOLD_U32T (FOLD_U32T acc) <= 65535.
Proof.
  intros Hs Hle. pose proof (su_acc _ _ Hs).
  pose proof (sums_fold _ _ Hs ltac:(lia)) as H3.
  pose proof (fold_small acc 20 ltac:(lia) ltac:(lia)).
  split; [by apply sums_fold; [|lia]|]. apply fold_two. lia.
Qed.

Lemma inet_pseudo_sums s d : fits 32 s -> fits 32 d ->
  sums (inet_pseudo_acc [s] [d]) (words_sum (addr_bytes [s]) + words_sum (addr_bytes [d]))
  /\ inet_pseudo_acc [s] [d] <= 65535.
Proof.
  intros Hs Hd. unfold inet_pseudo_acc. cbn [addr_word nth].
  destruct (add_addr_sums 0 0 s 0 (sums_refl 0 ltac:(lia)) Hs ltac:(lia) ltac:(lia)) as [H1 L1].
  destruct (add_addr_sums _ _ d _ H1 Hd L1 ltac:(lia)) as [H2 L2].
  apply two_folds; [exact H2 | lia].
Qed.

Lemma ip6_pseudo_sums s0 s1 s2 s3 d0 d1 d2 d3 :
  Forall (fits 32) [s0; s1; s2; s3; d0; d1; d2; d3] ->
  let src := [s0; s1; s2; s3] in let dst := [d0; d1; d2; d3] in
  sums (ip6_pseudo_acc src dst) (words_sum (addr_bytes src) + words_sum (addr_bytes dst))
  /\ ip6_pseudo_acc src dst <= 65535.
Proof.
  rewrite !Forall_cons. intros (Hs0 & Hs1 & Hs2 & Hs3 & Hd0 & Hd1 & Hd2 & Hd3 & _) src dst.
  destruct (add_addr_sums 0 0 s0 0 (sums_refl 0 ltac:(lia)) Hs0 ltac:(lia) ltac:(lia)) as [H1 L1].
  destruct (add_addr_sums _ _ d0 _ H1 Hd0 L1 ltac:(lia)) as [H2 L2].
  destruct (add_addr_sums _ _ s1 _ H2 Hs1 L2 ltac:(lia)) as [H3 L3].
  destruct (add_addr_sums _ _ d1 _ H3 Hd1 L3 ltac:(lia)) as [H4 L4].
  destruct (add_addr_sums _ _ s2 _ H4 Hs2 L4 ltac:(lia)) as [H5 L5].
  destruct (add_addr_sums _ _ d2 _ H5 Hd2 L5 ltac:(lia)) as [H6 L6].
  destruct (add_addr_sums _ _ s3 _ H6 Hs3 L6 ltac:(lia)) as [H7 L7].
  destruct (add_addr_sums _ _ d3 _ H7 Hd3 L7 ltac:(lia)) as [H8 L8].
  unfold ip6_pseudo_acc. cbn [seq foldl addr_word nth src dst]. apply two_folds; [|lia].
  eapply eq_ind; [exact H8|]. unfold addr_bytes, src, dst. cbn [map concat].
  rewrite !words_sum_app_even by reflexivity. cbn [words_sum]. lia.
Qed.

(** A well-formed address of either family. *)
Definition ip_addr_ok (v6 : bool) (a : ip_addr_t) : Prop :=
  Forall (fits 32) (u_addr a) /\ length (u_addr a) = 4%nat
  /\ ip_type a = (if v6 then IPADDR_TYPE_V6 else IPADDR_TYPE_V4).

(** The words of the address: all four, or the first. *)
Definition wire_words (a : ip_addr_t) : list Z :=
  if IP_IS_V6 a then u_addr a else take 1 (u_addr a).

(** The pseudo headers of RFC 793 and RFC 8200. *)
Definition pseudo_header (src dst : ip_addr_t) (proto len : Z) : list Z :=
  addr_bytes (wire_words src) ++ addr_bytes (wire_words dst) ++
  (if IP_IS_V6 dst then [0; 0] ++ be16 len ++ [0; 0; 0; proto] else [0; proto] ++ be16 len).

Lemma addr_bytes_even a : Z.even (zlen (addr_bytes a)) = true.
Proof.
  induction a as [|w a IH]; [done|]. change (addr_bytes (w :: a)) with (le_split 4 w ++ addr_bytes a).
  rewrite zlen_app, Z.even_add, IH. unfold zlen. by rewrite le_split_length.
Qed.

Lemma pseudo_header_even src dst proto len : Z.even (zlen (pseudo_header src dst proto len)) = true.
Proof.
  unfold pseudo_header. rewrite !zlen_app, !Z.even_add, !addr_bytes_even. by destruct (IP_IS_V6 dst).
Qed.

Lemma pseudo_header_sum src dst proto len :
  fits 8 proto -> fits 16 len ->
  words_sum (pseudo_header src dst proto len)
  = words_sum (addr_bytes (wire_words src)) + words_sum (addr_bytes (wire_words dst))
    + words_sum (be16 proto) + words_sum (be16 len).
Proof.
  intros Hp Hl. unfold pseudo_header. rewrite !words_sum_app_even by apply addr_bytes_even.
  unfold be16, fits in *. rewrite (Z.div_small proto), (Z.mod_small proto) by lia.
  destruct (IP_IS_V6 dst); cbn [app words_sum]; lia.
Qed.

Lemma chksum_pseudo_spec machine h p l d proto v6 src dst len :
  linked p None l -> stored h l -> contents h l d -> are_bytes d ->
  ip_addr_ok v6 src -> ip_addr_ok v6 dst -> fits 8 proto -> fits 16 len ->
  ip_chksum_pseudo machine h p proto len src dst
  = Done (65535 - oc (words_sum (pseudo_header src dst proto len ++ d))).
Proof.
  intros Hl Hst Hc Hd (Hs1 & Hs2 & Hs3) (Hd1 & Hd2 & Hd3) Hp Hlen.
  assert (fits 16 proto) by (unfold fits in *; lia).
  rewrite words_sum_app_even, pseudo_header_sum by (done || apply pseudo_header_even).
  assert (forall acc s, sums acc s -> acc <= 65535 ->
    inet_cksum_pseudo_base machine h p proto len acc
    = Done (65535 - oc (s + words_sum (be16 proto) + words_sum (be16 len) + words_sum d))) as Hbase.
  { intros acc s Hs Hle. rewrite (pseudo_base_spec machine h p l d acc s) by done. do 3 f_equal. lia. }
  unfold ip_chksum_pseudo, wire_words, IP_IS_V6, inet_chksum_pseudo, ip6_chksum_pseudo.
  rewrite Hd3, Hs3.
  destruct src as [s st], dst as [t tt]. cbn [u_addr ip_type] in *.
  destruct s as [|s0 [|s1 [|s2 [|s3 [|]]]]]; try done.
  destruct t as [|t0 [|t1 [|t2 [|t3 [|]]]]]; try done. destruct v6; simpl (_ =? _).
  - destruct (ip6_pseudo_sums s0 s1 s2 s3 t0 t1 t2 t3) as [H1 H2].
    { change [s0; s1; s2; s3; t0; t1; t2; t3] with ([s0; s1; s2; s3] ++ [t0; t1; t2; t3]).
      by apply Forall_app. }
    by apply Hbase.
  - apply Forall_inv in Hs1, Hd1. destruct (inet_pseudo_sums s0 t0 Hs1 Hd1) as [H1 H2].
    assert (inet_pseudo_acc [s0; s1; s2; s3] [t0; t1; t2; t3] = inet_pseudo_acc [s0] [t0]) as ->
      by (unfold inet_pseudo_acc, addr_word; reflexivity).
    exact (Hbase _ _ H1 H2).
Qed.

(** *** Verification by the receiver *)

(** Storing the complement in a zero half-word makes the whole sum all ones. *)
Lemma complement_verifies pre post :
  Z.even (zlen pre) = true -> are_bytes pre -> are_bytes post ->
  let c := 65535 - oc (words_sum (pre ++ [0; 0] ++ post)) in
  oc (words_sum (pre ++ le_split 2 c ++ post)) = 65535.
Proof.
  intros He Hpre Hpost. cbv zeta. rewrite !words_sum_app_even by done.
  pose proof (words_sum_nonneg pre Hpre). pose proof (words_sum_nonneg post Hpost).
  replace (words_sum pre + (words_sum [0; 0] + words_sum post))
    with (words_sum pre + words_sum post) by (cbn [words_sum]; lia).
  remember (words_sum pre + words_sum post) as s eqn:Hs.
  assert (words_sum (le_split 2 (65535 - oc s)) = 65535 - oc s) as ->.
  { pose proof (oc_range s ltac:(lia)). cbn [le_split words_sum]. div_lia. }
  replace (words_sum pre + (65535 - oc s + words_sum post)) with (s + (65535 - oc s)) by lia.
  symmetry. pose proof (oc_range s ltac:(lia)) as Hr.
  pose proof (oc_sums s ltac:(lia)) as [_ _ Hc Hz].
  apply sums_oc; [|done]. constructor; [lia|lia| |lia].
  transitivity (oc s + (65535 - oc s)); [apply (cong_by 0); lia|]. by apply cong_add.
Qed.
