(* ===== verification/PbufMain.v ===== *)
(** * What packet buffers and checksums promise

    The properties of [pbuf.c] and [inet_chksum.c], with a small heap on which
    each of them applies. *)
From Stdlib Require Import ZArith Lia.
From stdpp Require Import base list option numbers gmap.
From S2P Require Import Prelude Pbuf PbufChain PbufRead PbufFree PbufWrite Chksum ChksumProofs.

(** ** A heap with two packets *)

Definition ex_pb1 : pbuf := mk_pbuf (Some 2%positive) (Some (mk_addr 1%positive 8)) 5 3 0x80 0 1 0.
Definition ex_pb2 : pbuf := mk_pbuf None (Some (mk_addr 2%positive 0)) 2 2 0x82 0 2 0.
Definition ex_pb3 : pbuf := mk_pbuf None (Some (mk_addr 3%positive 4)) 2 2 0x80 0 1 0.
Definition ex_mem : gmap ptr block :=
  <[1%positive := replicate 8 None ++ map Some [104; 101; 108]]>
  (<[2%positive := map Some [108; 111]]>
  (<[3%positive := replicate 4 None ++ map Some [33; 33]]> ∅)).
Definition ex_heap : heap :=
  mk_heap (<[1%positive := ex_pb1]> (<[2%positive := ex_pb2]> (<[3%positive := ex_pb3]> ∅)))
    ex_mem 4%positive 4 4.
Definition ex_nodes : list node := [(1%positive, ex_pb1); (2%positive, ex_pb2)].
Definition ex_data : list Z := [104; 101; 108; 108; 111].
#[local] Instance ex_malloc : Malloc := fun _ _ => true.

Lemma ex_packet : packet ex_heap (Some 1%positive) ex_nodes ex_data.
Proof.
  split; [done|repeat constructor|simpl; lia|simpl; lia|].
  exists [104; 101; 108], [108; 111]. repeat split. exists [108; 111], []. by repeat split.
Qed.

Lemma ex_packet3 : packet ex_heap (Some 3%positive) [(3%positive, ex_pb3)] [33; 33].
Proof.
  split; [done|repeat constructor|simpl; lia|simpl; lia|]. exists [33; 33], []. by repeat split.
Qed.

Lemma ex_refs : refs_ok ex_nodes.
Proof. repeat constructor; simpl; vm_compute; congruence. Qed.

Lemma ex_bytes : are_bytes ex_data.
Proof. repeat constructor; unfold is_byte; lia. Qed.

Lemma ex_own : own_memory ex_nodes.
Proof.
  intros x y a Hx Hy. unfold ex_nodes in *. rewrite !elem_of_cons in Hx, Hy.
  destruct Hx as [-> | [-> | Hx]]; [| |by apply not_elem_of_nil in Hx];
    intros [= <-] Ha; destruct Hy as [-> | [-> | Hy]]; try done; by apply not_elem_of_nil in Hy.
Qed.

Lemma ex_heap_ok : heap_ok ex_heap.
Proof.
  intros k Hk. cbn in Hk. unfold ex_heap, ex_mem. cbn [h_pbufs h_mem].
  split; rewrite !lookup_insert_ne by (intros <-; lia); done.
Qed.

(** ** Reading and writing *)

(** C28: a packet of [d] written into a freshly allocated RAM buffer (allocation,
    then [pbuf_take]) is read back by [pbuf_copy_partial]: any slice of it, cut at the
    end of the packet, lands at the start of the destination, whose other cells stay;
    nothing else in the heap changes, and when the heap is exhausted the allocation
    returns NULL and leaves the heap as it was. *)
Theorem packet_written_and_read `{Malloc} h layer d :
  heap_ok h -> zlen d < 2 ^ 16 ->
  let size := MEM_ALIGN_SIZE (layer_offset layer) + MEM_ALIGN_SIZE (zlen d) in
  if malloc_grants (h_fresh h) size then
    exists p h1 h2, pbuf_alloc h layer (zlen d) PBUF_RAM = Done (Some p, h1)
      /\ pbuf_take h1 (Some p) (Some d) = Done (ERR_OK, h2)
      /\ (forall dst offset len, 0 <= offset < 2 ^ 16 -> 0 <= len < 2 ^ 16 ->
            len <= zlen dst ->
            let got := slice offset len d in
            pbuf_copy_partial h2 (Some p) (Some dst) len offset
            = Done (zlen got, Some (map Some got ++ zdrop (zlen got) dst)))
      /\ (forall k, k <> p -> h_pbufs h2 !! k = h_pbufs h !! k /\ h_mem h2 !! k = h_mem h !! k)
  else pbuf_alloc h layer (zlen d) PBUF_RAM = Done (None, h).
Proof.
  intros Hok Hd size. pose proof (zlen_nonneg d).
  pose proof (alloc_ram_spec h layer (zlen d) Hok ltac:(lia)) as Halloc. cbv zeta in Halloc.
  fold size in Halloc. destruct (malloc_grants (h_fresh h) size); [|done].
  destruct Halloc as (h1 & pb & Hrun & Hroom & _ & _ & Hpay & _ & Hframe).
  assert (memory_of [(h_fresh h, pb)] = [h_fresh h]) as Hmem.
  { unfold memory_of. cbn. by rewrite Hpay. }
  destruct (take_spec h1 (h_fresh h) _ _ d Hroom) as (h2 & Htake & Hroom2 & Hpb & Hother).
  { rewrite Hmem. apply NoDup_singleton. } { by rewrite zlen_fresh_block. }
  rewrite zdrop_all, app_nil_r in Hroom2 by by rewrite zlen_fresh_block.
  exists (h_fresh h), h1, h2. split; [done|]. split; [done|]. split.
  - intros dst offset len Ho Hl Hroom3 got.
    apply (copy_partial_spec _ _ _ _ _ _ _ (room_packet _ _ _ _ Hroom2) Ho Hl).
    transitivity len; [|done]. unfold slice. rewrite zlen_ztake_min by lia. lia.
  - intros k Hk. destruct (Hframe k Hk) as [<- <-]. split; [by rewrite Hpb|].
    apply Hother. rewrite Hmem. apply not_elem_of_cons. split; [done | apply not_elem_of_nil].
Qed.

Lemma packet_written_and_read_witness :
  exists p h1 h2, pbuf_alloc ex_heap PBUF_IP 5 PBUF_RAM = Done (Some p, h1)
    /\ pbuf_take h1 (Some p) (Some ex_data) = Done (ERR_OK, h2).
Proof.
  destruct (packet_written_and_read ex_heap PBUF_IP ex_data ex_heap_ok eq_refl)
    as (p & h1 & h2 & H1 & H2 & _).
  exists p, h1, h2. split; [exact H1 | exact H2].
Defined.

(** [pbuf_memfind] returns the first offset at or after [start] where the bytes
    [s] occur in the packet, however the packet is cut into buffers, and 0xFFFF when
    there is none. *)
Theorem memfind_finds_first h p l d s start :
  packet h (Some p) l d -> are_bytes d -> 0 <= start < 2 ^ 16 -> zlen s < 2 ^ 16 ->
  exists r, pbuf_memfind h p s start = Done r
    /\ ((r = 0xFFFF /\ forall j, start <= j -> ~ occurs d s j)
        \/ (start <= r /\ occurs d s r /\ forall j, start <= j < r -> ~ occurs d s j)).
Proof. intros Hp Hd Hs Hl. by apply (memfind_spec h p l d). Qed.

Lemma memfind_finds_first_witness : exists r, pbuf_memfind ex_heap 1%positive [108; 108] 0 = Done r.
Proof.
  destruct (memfind_finds_first ex_heap 1%positive ex_nodes ex_data [108; 108] 0
    ex_packet ex_bytes (conj (Z.le_refl 0) eq_refl) eq_refl) as (r & Hr & _).
  exists r. exact Hr.
Defined.

(** ** Ownership *)

(** C26: [pbuf_free] takes one reference from the head of a chain; the buffers of the
    longest prefix that nobody else refers to go back to where they came from (their
    pool has the elements again, RAM is gone), the first shared buffer loses the
    reference its predecessor had and keeps its chain, everything else is unchanged,
    and the result is the number of buffers released (modulo 256). *)
Theorem free_releases_unshared h p l :
  linked (Some p) None l -> stored h l -> refs_ok l ->
  exists h', pbuf_free h (Some p) = Done (u8 (zlen (ones l)), h')
    /\ ones l ++ after_ones l = l
    /\ (forall q, q ∈ (ones l).*1 -> h_pbufs h' !! q = None)
    /\ match after_ones l with
       | [] => True
       | (q, qb) :: _ => p_ref qb <> 1 /\ h_pbufs h' !! q = Some (set_ref qb (p_ref qb - 1))
       end
    /\ h_memp_pbuf h' = (length (of_src 1 (ones l)) + h_memp_pbuf h)%nat
    /\ h_memp_pool h' = (length (of_src 2 (ones l)) + h_memp_pool h)%nat
    /\ (forall q, q ∉ l.*1 -> h_pbufs h' !! q = h_pbufs h !! q /\ h_mem h' !! q = h_mem h !! q).
Proof.
  intros Hl Hs Hr. exists (freed h l). split; [by apply free_spec|].
  assert (ones l ++ after_ones l = l) as Hsplit.
  { clear. induction l as [|[q qb] l IH]; [done|]. simpl. destruct (p_ref qb =? 1); [|done].
    simpl. by rewrite IH. }
  pose proof (linked_nodup _ _ _ Hs Hl) as Hnd. rewrite <-Hsplit, fmap_app in Hnd.
  apply NoDup_app in Hnd as (_ & Hdisj & _).
  split; [done|]. split.
  { intros q Hq. unfold freed. cbn [h_pbufs]. specialize (Hdisj q Hq).
    assert (drop_keys (h_pbufs h) (ones l).*1 !! q = None) as Hgone
      by (rewrite drop_keys_lookup; by case_decide).
    destruct (after_ones l) as [|[x xb] r]; [done|]. rewrite lookup_insert_ne; [done|].
    intros ->. apply Hdisj. by left. }
  split.
  { unfold freed. cbn [h_pbufs]. destruct (after_ones l) as [|[q qb] r] eqn:E; [done|].
    split; [|apply lookup_insert_eq]. clear -E. revert E.
    induction l as [|[x xb] l IH]; [done|]. simpl. destruct (Z.eqb_spec (p_ref xb) 1); [exact IH|].
    by intros [= -> -> ->]. }
  split; [done|]. split; [done|].
  intros q Hq. split; [by apply freed_elsewhere | by apply freed_memory].
Qed.

Lemma free_releases_unshared_witness :
  exists h', pbuf_free ex_heap (Some 1%positive) = Done (1, h')
    /\ h_pbufs h' !! 2%positive = Some (set_ref ex_pb2 1).
Proof.
  destruct (free_releases_unshared ex_heap 1%positive ex_nodes (pk_linked _ _ _ _ ex_packet)
    (pk_stored _ _ _ _ ex_packet) ex_refs) as (h' & Hrun & _ & _ & Hshared & _).
  exists h'. split; [exact Hrun | exact (proj2 Hshared)].
Defined.

(** [pbuf_chain] of two packets without a common buffer is the packet of the
    concatenated bytes, with every [tot_len] again the length of the rest of the
    chain; the tail gains the reference that the head now holds. *)
Theorem chain_concatenates h p t l1 l2 d1 d2 tb :
  packet h (Some p) l1 d1 -> packet h (Some t) l2 d2 ->
  l1.*1 ## l2.*1 -> zlen d1 + zlen d2 < 2 ^ 16 ->
  h_pbufs h !! t = Some tb -> 0 <= p_ref tb < 255 ->
  exists h' l', pbuf_chain h (Some p) (Some t) = Done h'
    /\ packet h' (Some p) l' (d1 ++ d2) /\ l'.*1 = l1.*1 ++ l2.*1
    /\ h_pbufs h' !! t = Some (set_ref tb (p_ref tb + 1)).
Proof.
  intros H1 H2 Hdisj Hlen Ht Href.
  destruct (cat_spec h p t l1 l2 d1 d2 H1 H2 Hdisj Hlen) as (h1 & Hrun & Hpk & Hfr & _).
  destruct (packet_head _ _ _ _ H2) as (tb' & l2' & -> & Ht' & _).
  assert (tb' = tb) as -> by congruence.
  assert (t ∉ l1.*1) as Hnt by (intros Hin; apply (Hdisj t Hin); by left).
  set (k := zlen d2) in *. set (l1' := cat_nodes k t l1) in *.
  exists (put h1 t (set_ref tb (p_ref tb + 1))), (l1' ++ (t, set_ref tb (p_ref tb + 1)) :: l2').
  split.
  - unfold pbuf_chain. rewrite Hrun, outcome_bind_done. unfold pbuf_ref.
    rewrite (get_stored h1 t tb), outcome_bind_done by by rewrite Hfr.
    rewrite wrap_small by (unfold fits; lia). cbn [lwip_assert].
    rewrite (proj2 (Z.ltb_lt _ _)) by lia. done.
  - split; [|split; [|apply put_lookup]].
    2:{ rewrite !fmap_app, !fmap_cons. unfold l1'. by rewrite cat_nodes_keys. }
    destruct Hpk as [Hl Hs Hle Htot Hc]. pose proof (linked_nodup _ _ _ Hs Hl) as Hnd.
    apply linked_app in Hl as (x & Hl1 & -> & Hl2). apply stored_app in Hs as [Hs1 Hs2].
    apply stored_cons in Hs2 as [_ Hs2]. rewrite fmap_app, fmap_cons in Hnd.
    apply NoDup_app in Hnd as (_ & Hx & Hnd). apply NoDup_cons in Hnd as [Hnt2 _]. split.
    + apply linked_app. exists (Some t). done.
    + apply stored_app. split; [apply stored_put; [|done]|].
      * unfold l1'. by rewrite cat_nodes_keys.
      * apply stored_cons. split; [apply put_lookup|]. by apply stored_put.
    + clear -Hle. induction l1' as [|[q qb] l IH]; [done|]. destruct Hle as (Hq & Hq2 & Hle).
      split; [done|]. split; [|by apply IH]. rewrite total_app in *. exact Hq2.
    + rewrite total_app in *. exact Htot.
    + apply contents_put. apply contents_app. apply contents_app in Hc. exact Hc.
Qed.

Lemma chain_concatenates_witness :
  exists h' l', pbuf_chain ex_heap (Some 1%positive) (Some 3%positive) = Done h'
    /\ packet h' (Some 1%positive) l' (ex_data ++ [33; 33]).
Proof.
  destruct (chain_concatenates ex_heap 1%positive 3%positive ex_nodes [(3%positive, ex_pb3)] ex_data [33; 33] ex_pb3
    ex_packet ex_packet3) as (h' & l' & Hrun & Hpk & _).
  - intros k. cbn. rewrite !elem_of_cons. intros [-> | [-> | H]] [H2 | H2]; try done;
      first [by apply not_elem_of_nil in H | by apply not_elem_of_nil in H2].
  - reflexivity.
  - reflexivity.
  - cbn. lia.
  - exists h', l'. split; [exact Hrun | exact Hpk].
Defined.

(** [pbuf_realloc] to a shorter length leaves the packet of the first bytes on
    a prefix of the chain, its length fields adjusted; the buffers behind are given
    up. To the same or a greater length it changes nothing. *)
Theorem realloc_truncates h p l d new_len :
  packet h (Some p) l d -> refs_ok l -> own_memory l -> 0 <= new_len ->
  exists h' l', pbuf_realloc h p new_len = Done h'
    /\ packet h' (Some p) l' (ztake new_len d) /\ l'.*1 `prefix_of` l.*1.
Proof.
  intros Hp Hr Ho Hn. destruct (Z.lt_ge_cases new_len (zlen d)) as [Hlt|Hge].
  - by apply realloc_spec.
  - exists h, l. rewrite ztake_all by done. split; [|done].
    destruct (packet_head _ _ _ _ Hp) as (pb & l' & _ & Hq & Ht).
    unfold pbuf_realloc. rewrite (get_stored _ _ _ Hq), outcome_bind_done, Ht.
    by rewrite (proj2 (Z.leb_le _ _)) by lia.
Qed.

Lemma realloc_truncates_witness :
  exists h' l', pbuf_realloc ex_heap 1%positive 2 = Done h'
    /\ packet h' (Some 1%positive) l' [104; 101] /\ l'.*1 `prefix_of` ex_nodes.*1.
Proof.
  destruct (realloc_truncates ex_heap 1%positive ex_nodes ex_data 2 ex_packet ex_refs ex_own)
    as (h' & l' & Hrun & Hpk & Hpre); [lia|].
  exists h', l'. split; [exact Hrun | split; [exact Hpk | exact Hpre]].
Defined.

(** [pbuf_add_header] on a buffer whose memory is its own succeeds exactly when
    the space before the payload is large enough and the total length stays a 16-bit
    number; [pbuf_remove_header] of the same size then restores the heap, and a
    refused header changes nothing. *)
Theorem header_added_and_removed h p pb a n :
  h_pbufs h !! p = Some pb -> contiguous_type pb -> p_payload pb = Some a ->
  0 <= p_len pb <= p_tot_len pb -> p_tot_len pb < 2 ^ 16 -> 0 < n ->
  if (p_tot_len pb + n <? 2 ^ 16) && (n <=? a_off a)
  then exists h', pbuf_add_header h p n = Done (0, h')
         /\ h_pbufs h' !! p = Some (mk_pbuf (p_next pb) (Some (mk_addr (a_block a) (a_off a - n)))
              (p_tot_len pb + n) (p_len pb + n) (p_type_internal pb) (p_flags pb)
              (p_ref pb) (p_if_idx pb))
         /\ pbuf_remove_header h' p n = Done (0, h)
  else pbuf_add_header h p n = Done (1, h).
Proof.
  intros Hp Hc Ha Hlen Htot Hn. rewrite (add_header_spec h p pb a n) by (done || lia).
  rewrite (proj2 (Z.eqb_neq n 0)) by lia.
  destruct ((_ <? _) && _) eqn:E; [|done]. bool_facts.
  eexists. split; [reflexivity|]. split; [apply put_lookup|].
  erewrite remove_header_spec; [|apply put_lookup|reflexivity|cbn; lia|cbn; lia|done].
  cbn [p_len p_tot_len p_next p_type_internal p_flags p_ref p_if_idx a_block a_off].
  rewrite (proj2 (Z.leb_le _ _)) by lia. do 2 f_equal.
  replace (a_off a - n + n) with (a_off a) by lia.
  replace (p_tot_len pb + n - n) with (p_tot_len pb) by lia.
  replace (p_len pb + n - n) with (p_len pb) by lia.
  unfold put. cbn [h_pbufs h_mem h_fresh h_memp_pbuf h_memp_pool]. rewrite insert_insert_eq.
  assert (mk_pbuf (p_next pb) (Some (mk_addr (a_block a) (a_off a))) (p_tot_len pb) (p_len pb)
    (p_type_internal pb) (p_flags pb) (p_ref pb) (p_if_idx pb) = pb) as ->.
  { destruct pb, a. cbn in *. by subst. }
  rewrite insert_id by done. by destruct h.
Qed.

Lemma header_added_and_removed_witness :
  exists h', pbuf_add_header ex_heap 1%positive 8 = Done (0, h') /\ pbuf_remove_header h' 1%positive 8 = Done (0, ex_heap).
Proof.
  destruct (header_added_and_removed ex_heap 1%positive ex_pb1 (mk_addr 1%positive 8) 8) as (h' & Hadd & _ & Hrem).
  - reflexivity.
  - vm_compute. congruence.
  - reflexivity.
  - cbn. lia.
  - reflexivity.
  - lia.
  - exists h'. split; [exact Hadd | exact Hrem].
Defined.

(** ** Checksums *)

(** C27: the transport checksum of a packet is the complement of the one's complement
    sum of the 16-bit words of pseudo header and data (RFC 1071 over RFC 793 and
    RFC 8200), for IPv4 and IPv6, for any alignment of the payloads in memory and any
    division of the data into buffers, odd lengths included. *)
Theorem pseudo_checksum_is_rfc machine h p l d proto v6 src dst len :
  packet h p l d -> are_bytes d -> ip_addr_ok v6 src -> ip_addr_ok v6 dst ->
  fits 8 proto -> fits 16 len ->
  ip_chksum_pseudo machine h p proto len src dst
  = Done (65535 - oc (words_sum (pseudo_header src dst proto len ++ d))).
Proof.
  intros [Hl Hs _ _ Hc] Hd H1 H2 Hp Hlen. by apply (chksum_pseudo_spec machine h p l d proto v6).
Qed.

Definition ex_machine (a : addr) : Z := 4096 * Zpos (a_block a) + a_off a + 1.
Definition ex_src : ip_addr_t := mk_ip_addr [0x0100000A; 0; 0; 0] IPADDR_TYPE_V4.
Definition ex_dst : ip_addr_t := mk_ip_addr [0x08080808; 0; 0; 0] IPADDR_TYPE_V4.

Lemma pseudo_checksum_is_rfc_witness :
  ip_chksum_pseudo ex_machine ex_heap (Some 1%positive) 17 5 ex_src ex_dst
  = Done (65535 - oc (words_sum (pseudo_header ex_src ex_dst 17 5 ++ ex_data))).
Proof.
  apply (pseudo_checksum_is_rfc ex_machine ex_heap (Some 1%positive) ex_nodes ex_data 17 false
    ex_src ex_dst 5 ex_packet ex_bytes).
  - split; [repeat constructor; vm_compute; congruence | split; reflexivity].
  - split; [repeat constructor; vm_compute; congruence | split; reflexivity].
  - unfold fits. lia.
  - unfold fits. lia.
Defined.

(** A segment whose checksum field holds the checksum computed with the field
    zero passes the receiver's test: its checksum is zero. Sender and receiver may
    hold the bytes in different buffers. *)
Theorem checksum_accepted machine h p l h' p' l' pre post proto v6 src dst len c :
  packet h p l (pre ++ [0; 0] ++ post) -> packet h' p' l' (pre ++ le_split 2 c ++ post) ->
  Z.even (zlen pre) = true -> are_bytes pre -> are_bytes post ->
  ip_addr_ok v6 src -> ip_addr_ok v6 dst -> fits 8 proto -> fits 16 len ->
  ip_chksum_pseudo machine h p proto len src dst = Done c ->
  ip_chksum_pseudo machine h' p' proto len src dst = Done 0.
Proof.
  intros [Hl Hs _ _ Hc] [Hl' Hs' _ _ Hc'] He Hpre Hpost Hsrc Hdst Hp Hlen.
  assert (are_bytes (pre ++ [0; 0] ++ post)) as Hd.
  { repeat apply Forall_app_2; try done. repeat constructor; unfold is_byte; lia. }
  assert (are_bytes (pre ++ le_split 2 c ++ post)) as Hd'.
  { repeat apply Forall_app_2; try done. apply le_split_bytes. }
  rewrite (chksum_pseudo_spec machine h p l _ proto v6) by done.
  rewrite (chksum_pseudo_spec machine h' p' l' _ proto v6) by done.
  intros Hsum.
  assert (c = 65535 - oc (words_sum (pseudo_header src dst proto len ++ pre ++ [0; 0] ++ post))) as ->
    by congruence.
  f_equal.
  set (ph := pseudo_header src dst proto len).
  assert (are_bytes ph) as Hph.
  { assert (forall a, are_bytes (addr_bytes a)) as Ha.
    { induction a as [|w a IH]; [constructor|]. change (are_bytes (le_split 4 w ++ addr_bytes a)).
      apply Forall_app_2; [apply le_split_bytes | done]. }
    assert (are_bytes (be16 len)) as Hbe.
    { unfold be16, fits in *. repeat constructor; unfold is_byte; div_lia. }
    unfold ph, pseudo_header. apply Forall_app_2; [apply Ha|]. apply Forall_app_2; [apply Ha|].
    destruct (IP_IS_V6 dst); repeat apply Forall_app_2; try done;
      repeat constructor; unfold is_byte, fits in *; lia. }
  pose proof (complement_verifies (ph ++ pre) post) as Hv. cbv zeta in Hv.
  rewrite <-!app_assoc in Hv. fold ph. rewrite Hv; [done| |by apply Forall_app_2|done].
  rewrite zlen_app, Z.even_add, He. unfold ph. by rewrite pseudo_header_even.
Qed.

(** The bytes of [ex_data] with a checksum field in front. *)
Definition ex_segment (c : list Z) : heap :=
  put (set_mem ex_heap 3%positive (replicate 4 None ++ map Some (c ++ [33; 34; 35]))) 3%positive
    (mk_pbuf None (Some (mk_addr 3%positive 4)) 5 5 0x80 0 1 0).

Lemma ex_segment_packet a b :
  packet (ex_segment [a; b]) (Some 3%positive)
    [(3%positive, mk_pbuf None (Some (mk_addr 3%positive 4)) 5 5 0x80 0 1 0)] ([] ++ [a; b] ++ [33; 34; 35]).
Proof.
  split; [done|repeat constructor|simpl; lia|simpl; lia|].
  exists [a; b; 33; 34; 35], []. by repeat split.
Qed.

Lemma checksum_accepted_witness :
  ip_chksum_pseudo ex_machine (ex_segment [161; 182]) (Some 3%positive) 17 5 ex_src ex_dst = Done 0.
Proof.
  apply (checksum_accepted ex_machine (ex_segment [0; 0]) (Some 3%positive) _
    (ex_segment [161; 182]) (Some 3%positive) _ [] [33; 34; 35] 17 false ex_src ex_dst 5 46753
    (ex_segment_packet 0 0) (ex_segment_packet 161 182)).
  - reflexivity.
  - constructor.
  - repeat constructor; unfold is_byte; lia.
  - split; [repeat constructor; vm_compute; congruence | split; reflexivity].
  - split; [repeat constructor; vm_compute; congruence | split; reflexivity].
  - unfold fits. lia.
  - unfold fits. lia.
  - vm_compute. reflexivity.
Defined.
