(* ===== verification/Lwip.v ===== *)
(** * The state of the IP stack

    What lwIP keeps between calls in this configuration (no operating system, one
    network interface): the buffer heap, the interface [tun_netif], the globals of
    the packet being processed, the UDP control blocks, and the statics of the bridge
    ([lwip_bridge.c]); and the trace of calls to the application. Stateful code is
    written in a state monad over undefined behaviour. A [struct netif *] is NULL or
    the interface, so it is a boolean; a function pointer is one of the functions the
    program ever stores there. *)
From Stdlib Require Import ZArith Lia.
From stdpp Require Import base list option numbers gmap.
From S2P Require Import Prelude Pbuf Chksum.

(** ** Addresses

    The union of an address is its four 32-bit words as stored, in network byte
    order; IPv4 uses the first. *)

Definition IPADDR_ANY : Z := 0.
Definition IPADDR_BROADCAST : Z := 0xffffffff.
Definition IPADDR_TYPE_ANY : Z := 46.

Definition ip4_addr (w : Z) : ip_addr_t := mk_ip_addr [w; 0; 0; 0] IPADDR_TYPE_V4.
Definition ip6_addr (ws : list Z) : ip_addr_t := mk_ip_addr ws IPADDR_TYPE_V6.
Definition IP4_ADDR_ANY : ip_addr_t := ip4_addr IPADDR_ANY.
Definition IP6_ADDR_ANY : ip_addr_t := ip6_addr [0; 0; 0; 0].

Definition ip_2_ip4 (a : ip_addr_t) : Z := addr_word (u_addr a) 0.
Definition ip_2_ip6 (a : ip_addr_t) : list Z := u_addr a.

Definition ip4_addr_isany (w : Z) : bool := w =? IPADDR_ANY.
Definition ip4_addr_ismulticast (w : Z) : bool :=
  Z.land w (lwip_htonl 0xf0000000) =? lwip_htonl 0xe0000000.
Definition ip4_addr_isloopback (w : Z) : bool :=
  Z.land w (lwip_htonl 0xff000000) =? lwip_htonl (Z.shiftl 127 24).
Definition ip4_addr_net_eq (a b mask : Z) : bool := Z.land a mask =? Z.land b mask.

Definition ip6_addr_isany (a : list Z) : bool :=
  (addr_word a 0 =? 0) && (addr_word a 1 =? 0) && (addr_word a 2 =? 0) && (addr_word a 3 =? 0).
Definition ip6_addr_zoneless_eq (a b : list Z) : bool :=
  (addr_word a 0 =? addr_word b 0) && (addr_word a 1 =? addr_word b 1)
  && (addr_word a 2 =? addr_word b 2) && (addr_word a 3 =? addr_word b 3).
(** Without scopes (one interface) zones compare equal. *)
Definition ip6_addr_eq := ip6_addr_zoneless_eq.
Definition ip6_addr_net_zoneless_eq (a b : list Z) : bool :=
  (addr_word a 0 =? addr_word b 0) && (addr_word a 1 =? addr_word b 1).
Definition ip6_addr_nethost_eq (a b : list Z) : bool :=
  (addr_word a 2 =? addr_word b 2) && (addr_word a 3 =? addr_word b 3).

Definition has_prefix (a : list Z) (mask prefix : Z) : bool :=
  Z.land (addr_word a 0) (lwip_htonl mask) =? lwip_htonl prefix.
Definition ip6_addr_isglobal (a : list Z) : bool := has_prefix a 0xe0000000 0x20000000.
Definition ip6_addr_islinklocal (a : list Z) : bool := has_prefix a 0xffc00000 0xfe800000.
Definition ip6_addr_issitelocal (a : list Z) : bool := has_prefix a 0xffc00000 0xfec00000.
Definition ip6_addr_isuniquelocal (a : list Z) : bool := has_prefix a 0xfe000000 0xfc000000.
Definition ip6_addr_ismulticast (a : list Z) : bool := has_prefix a 0xff000000 0xff000000.
Definition ip6_addr_isloopback (a : list Z) : bool :=
  (addr_word a 0 =? 0) && (addr_word a 1 =? 0) && (addr_word a 2 =? 0)
  && (addr_word a 3 =? lwip_htonl 0x00000001).
Definition ip6_addr_isipv4mappedipv6 (a : list Z) : bool :=
  (addr_word a 0 =? 0) && (addr_word a 1 =? 0) && (addr_word a 2 =? lwip_htonl 0x0000ffff).
Definition ip6_addr_multicast_scope (a : list Z) : Z :=
  Z.land (Z.shiftr (lwip_htonl (addr_word a 0)) 16) 0xf.
Definition ip6_addr_isallnodes_iflocal (a : list Z) : bool :=
  (addr_word a 0 =? lwip_htonl 0xff010000) && (addr_word a 1 =? 0) && (addr_word a 2 =? 0)
  && (addr_word a 3 =? lwip_htonl 0x00000001).
Definition ip6_addr_isallnodes_linklocal (a : list Z) : bool :=
  (addr_word a 0 =? lwip_htonl 0xff020000) && (addr_word a 1 =? 0) && (addr_word a 2 =? 0)
  && (addr_word a 3 =? lwip_htonl 0x00000001).
Definition ip6_addr_issolicitednode (a : list Z) : bool :=
  (addr_word a 0 =? lwip_htonl 0xff020000) && (addr_word a 2 =? lwip_htonl 0x00000001)
  && (Z.land (addr_word a 3) (lwip_htonl 0xff000000) =? lwip_htonl 0xff000000).
Definition ip6_addr_solicitednode_eq (a sn : list Z) : bool :=
  (addr_word a 0 =? lwip_htonl 0xff020000) && (addr_word a 1 =? 0)
  && (addr_word a 2 =? lwip_htonl 0x00000001)
  && (addr_word a 3 =? Z.lor (lwip_htonl 0xff000000) (addr_word sn 3)).

Definition ip_addr_isany (a : ip_addr_t) : bool :=
  if IP_IS_V6 a then ip6_addr_isany (ip_2_ip6 a) else ip4_addr_isany (ip_2_ip4 a).
Definition ip_addr_eq (a b : ip_addr_t) : bool :=
  if negb (ip_type a =? ip_type b) then false
  else if IP_IS_V6 a then ip6_addr_eq (ip_2_ip6 a) (ip_2_ip6 b)
  else ip_2_ip4 a =? ip_2_ip4 b.
Definition ip_addr_ismulticast (a : ip_addr_t) : bool :=
  if IP_IS_V6 a then ip6_addr_ismulticast (ip_2_ip6 a) else ip4_addr_ismulticast (ip_2_ip4 a).
Definition IP_IS_ANY_TYPE (a : ip_addr_t) : bool := ip_type a =? IPADDR_TYPE_ANY.
Definition IP_SET_TYPE_VAL (a : ip_addr_t) (type : Z) : ip_addr_t := mk_ip_addr (u_addr a) type.

(** ** The interface *)

Definition NETIF_FLAG_UP : Z := 0x01.
Definition NETIF_FLAG_BROADCAST : Z := 0x02.
Definition NETIF_FLAG_LINK_UP : Z := 0x04.

Inductive netif_input_fn := ip_input_fn.
Inductive netif_output_fn := netif_null_output_ip4_fn | netif_output_ip4_fn.
Inductive netif_output_ip6_fn := netif_null_output_ip6_fn | netif_bridge_output_ip6_fn.

Record netif := mk_netif {
  n_ip_addr : ip_addr_t; n_netmask : ip_addr_t; n_gw : ip_addr_t;
  n_ip6_addr : list ip_addr_t; n_ip6_addr_state : list Z;
  n_input : option netif_input_fn; n_output : netif_output_fn; n_output_ip6 : netif_output_ip6_fn;
  n_mtu : Z; n_mtu6 : Z; n_flags : Z; n_name : list Z; n_num : Z; n_rs_count : Z;
}.

Definition netif_is_up (n : netif) : bool := negb (Z.land (n_flags n) NETIF_FLAG_UP =? 0).
Definition netif_is_link_up (n : netif) : bool := negb (Z.land (n_flags n) NETIF_FLAG_LINK_UP =? 0).
Definition netif_get_index (n : netif) : Z := u8 (n_num n + 1).

(** ** UDP control blocks *)

Inductive udp_recv_fn := udp_recv_cb_fn.

Record udp_pcb := mk_udp_pcb {
  u_local_ip : ip_addr_t; u_remote_ip : ip_addr_t; u_netif_idx : Z;
  u_so_options : Z; u_tos : Z; u_ttl : Z;
  u_flags : Z; u_local_port : Z; u_remote_port : Z;
  u_recv : option udp_recv_fn; u_recv_arg : option Z;
}.

(** The list [udp_pcbs] in its order; a block taken from the pool need not be on it. *)
Record udp_state := mk_udp {
  udp_store : gmap ptr udp_pcb;
  udp_pcbs : list ptr;
  udp_port : Z;
  memp_udp : nat;
}.

(** ** The packet being processed *)

Record ip_globals := mk_ip_globals {
  current_netif : bool; current_input_netif : bool;
  current_ip4_header : option addr; current_ip6_header : option addr;
  current_ip_header_tot_len : Z;
  current_iphdr_src : ip_addr_t; current_iphdr_dest : ip_addr_t;
}.

(** ** The bridge *)

(** Calls of the functions registered with [lwip_bridge_set_*_fn]. *)
Inductive upcall :=
| output_fn (data : list Z) (is_ipv6 : bool)
| tcp_recv_fn (conn : Z) (data : option (list Z))
| tcp_sent_fn (conn len : Z)
| tcp_err_fn (conn err : Z)
| udp_recv_up (src : list Z) (src_port : Z) (dst : list Z) (dst_port : Z) (is_ipv6 : bool)
    (data : list Z).

Record bridge := mk_bridge {
  s_output_fn : bool; s_tcp_accept_fn : bool; s_tcp_recv_fn : bool; s_tcp_sent_fn : bool;
  s_tcp_err_fn : bool; s_udp_recv_fn : bool;
  udp_listen_pcb_v4 : option ptr; udp_listen_pcb_v6 : option ptr;
  s_current_udp_dst_port : Z; s_current_udp_dst_ip : ip_addr_t;
  initialized : bool;
}.

Record stack := mk_stack {
  st_heap : heap;
  st_netif : netif;
  st_netif_default : bool;
  st_ip_id : Z;
  st_ip_data : ip_globals;
  st_udp : udp_state;
  st_bridge : bridge;
  st_trace : list upcall;
}.

Definition set_heap (h : heap) (s : stack) : stack :=
  mk_stack h (st_netif s) (st_netif_default s) (st_ip_id s) (st_ip_data s) (st_udp s)
    (st_bridge s) (st_trace s).
Definition set_netif (n : netif) (s : stack) : stack :=
  mk_stack (st_heap s) n (st_netif_default s) (st_ip_id s) (st_ip_data s) (st_udp s)
    (st_bridge s) (st_trace s).
Definition set_netif_default (b : bool) (s : stack) : stack :=
  mk_stack (st_heap s) (st_netif s) b (st_ip_id s) (st_ip_data s) (st_udp s)
    (st_bridge s) (st_trace s).
Definition set_ip_id (i : Z) (s : stack) : stack :=
  mk_stack (st_heap s) (st_netif s) (st_netif_default s) i (st_ip_data s) (st_udp s)
    (st_bridge s) (st_trace s).
Definition set_ip_data (d : ip_globals) (s : stack) : stack :=
  mk_stack (st_heap s) (st_netif s) (st_netif_default s) (st_ip_id s) d (st_udp s)
    (st_bridge s) (st_trace s).
Definition set_udp (u : udp_state) (s : stack) : stack :=
  mk_stack (st_heap s) (st_netif s) (st_netif_default s) (st_ip_id s) (st_ip_data s) u
    (st_bridge s) (st_trace s).
Definition set_bridge (b : bridge) (s : stack) : stack :=
  mk_stack (st_heap s) (st_netif s) (st_netif_default s) (st_ip_id s) (st_ip_data s) (st_udp s)
    b (st_trace s).
Definition set_trace (t : list upcall) (s : stack) : stack :=
  mk_stack (st_heap s) (st_netif s) (st_netif_default s) (st_ip_id s) (st_ip_data s) (st_udp s)
    (st_bridge s) t.

(** ** The monad *)

Definition M (A : Type) : Type := stack -> outcome (A * stack).

#[export] Instance M_ret : MRet M := fun A a s => Done (a, s).
#[export] Instance M_bind : MBind M := fun A B k m s => '(a, s) ← m s; k a s.

Definition undef {A} : M A := fun _ => Undef.
Definition gets {A} (f : stack -> A) : M A := fun s => Done (f s, s).
Definition modify (f : stack -> stack) : M unit := fun s => Done (tt, f s).
Definition lwip_assert_m (b : bool) : M unit := if b then mret tt else undef.
Definition lift {A} (m : outcome A) : M A := fun s => a ← m; Done (a, s).

(** Operations on the buffer heap. *)
Definition on_heap {A} (f : heap -> outcome (A * heap)) : M A :=
  fun s => '(a, h) ← f (st_heap s); Done (a, set_heap h s).
Definition on_heap_ (f : heap -> outcome heap) : M unit :=
  fun s => h ← f (st_heap s); Done (tt, set_heap h s).
Definition ask_heap {A} (f : heap -> outcome A) : M A :=
  fun s => a ← f (st_heap s); Done (a, s).

Definition upcall_m (e : upcall) : M unit := modify (fun s => set_trace (st_trace s ++ [e]) s).

(** *** Fields of structures in memory *)

Definition get_pbuf (p : ptr) : M pbuf := ask_heap (fun h => get h p).

(** [p->payload] as the address of a header *)
Definition payload (p : ptr) : M addr :=
  pb ← get_pbuf p;
  match p_payload pb with Some a => mret a | None => undef end.

Definition mem_read (h : heap) (a : addr) (off n : Z) : outcome (list Z) :=
  match h_mem h !! a_block a with
  | Some m => load_bytes m (a_off a + off) n
  | None => Undef
  end.

Definition mem_write (h : heap) (a : addr) (off : Z) (bytes : list Z) : outcome heap :=
  match h_mem h !! a_block a with
  | Some m => m ← store_bytes m (a_off a + off) bytes; Done (set_mem h (a_block a) m)
  | None => Undef
  end.

(** The machine is little-endian. *)
Definition rd (a : addr) (off n : Z) : M Z := ask_heap (fun h => bs ← mem_read h a off n; Done (le_combine bs)).
Definition rd8 (a : addr) (off : Z) : M Z := rd a off 1.
Definition rd16 (a : addr) (off : Z) : M Z := rd a off 2.
Definition rd32 (a : addr) (off : Z) : M Z := rd a off 4.
Definition wr8 (a : addr) (off v : Z) : M unit := on_heap_ (fun h => mem_write h a off (le_split 1 v)).
Definition wr16 (a : addr) (off v : Z) : M unit := on_heap_ (fun h => mem_write h a off (le_split 2 v)).
Definition wr32 (a : addr) (off v : Z) : M unit := on_heap_ (fun h => mem_write h a off (le_split 4 v)).

(** The four words of a packed IPv6 address *)
Definition rd_ip6 (a : addr) (off : Z) : M (list Z) :=
  w0 ← rd32 a off; w1 ← rd32 a (off + 4); w2 ← rd32 a (off + 8); w3 ← rd32 a (off + 12);
  mret [w0; w1; w2; w3].
Definition wr_ip6 (a : addr) (off : Z) (ws : list Z) : M unit :=
  _ ← wr32 a off (addr_word ws 0); _ ← wr32 a (off + 4) (addr_word ws 1);
  _ ← wr32 a (off + 8) (addr_word ws 2); wr32 a (off + 12) (addr_word ws 3).

Definition pbuf_free_m (p : ptr) : M unit := _ ← on_heap (fun h => pbuf_free h (Some p)); mret tt.
