(* ===== verification/IpOut.v ===== *)
(** * The callbacks of the bridge ([lwip_bridge.c]) towards the application

    What lwIP calls when it has a packet for the interface or data for a connection:
    the packet's bytes are handed over in one piece, from the payload of a single
    buffer or from a temporary copy of a chain. *)
From Stdlib Require Import ZArith Lia.
From stdpp Require Import base list option numbers gmap.
From S2P Require Import Prelude Pbuf Chksum Lwip.

Section callbacks.
Context `{Malloc}.

Definition mem_malloc_m (n : Z) : M (option ptr) :=
  fun s => match mem_malloc (st_heap s) n with
           | Some (b, h) => Done (Some b, set_heap h s)
           | None => Done (None, s)
           end.

Definition mem_free (b : ptr) : M unit :=
  modify (fun s => let h := st_heap s in
    set_heap (mk_heap (h_pbufs h) (delete b (h_mem h)) (h_fresh h) (h_memp_pbuf h) (h_memp_pool h)) s).

(** The block of the temporary buffer. *)
Definition get_block (b : ptr) : M block :=
  ask_heap (fun h => match h_mem h !! b with Some m => Done m | None => Undef end).
Definition put_block (b : ptr) (m : block) : M unit :=
  on_heap_ (fun h => Done (set_mem h b m)).

(** [use] gets the bytes of the packet in one piece; [false] when there is no memory
    for the copy. *)
Definition with_bytes (p : ptr) (use : list Z -> M unit) : M bool :=
  pb ← get_pbuf p;
  match p_next pb with
  | Some _ =>
      buf ← mem_malloc_m (p_tot_len pb);
      match buf with
      | Some b =>
          dst ← get_block b;
          '(_, dst) ← ask_heap (fun h => pbuf_copy_partial h (Some p) (Some dst) (p_tot_len pb) 0);
          match dst with
          | Some dst =>
              _ ← put_block b dst;
              bytes ← lift (load_bytes dst 0 (p_tot_len pb));
              _ ← use bytes;
              _ ← mem_free b;
              mret true
          | None => undef
          end
      | None => mret false
      end
  | None =>
      bytes ← ask_heap (fun h => read_payload h pb 0 (p_tot_len pb));
      _ ← use bytes;
      mret true
  end.

Definition bridge_output (p : ptr) (is_ipv6 : bool) : M err_t :=
  b ← gets st_bridge;
  if s_output_fn b then
    _ ← with_bytes p (fun bytes => upcall_m (output_fn bytes is_ipv6));
    mret ERR_OK
  else mret ERR_OK.

Definition netif_output_ip4 (p : ptr) : M err_t := bridge_output p false.
Definition netif_output_ip6 (p : ptr) : M err_t := bridge_output p true.

(** [netif->output], [netif->output_ip6] *)
Definition netif_output (p : ptr) : M err_t :=
  n ← gets st_netif;
  match n_output n with
  | netif_null_output_ip4_fn => mret ERR_IF
  | netif_output_ip4_fn => netif_output_ip4 p
  end.

Definition netif_output6 (p : ptr) : M err_t :=
  n ← gets st_netif;
  match n_output_ip6 n with
  | netif_null_output_ip6_fn => mret ERR_IF
  | netif_bridge_output_ip6_fn => netif_output_ip6 p
  end.

(** The 16-byte buffer and the flag. *)
Definition ip_addr_to_bytes (a : ip_addr_t) (out : block) : outcome (block * bool) :=
  if IP_IS_V6 a then out ← store_bytes out 0 (addr_bytes (ip_2_ip6 a)); Done (out, true)
  else out ← store_bytes out 0 (le_split 4 (ip_2_ip4 a)); Done (out, false).

(** What the application reads of an address buffer. *)
Definition addr_of (out : block) (is_ipv6 : bool) : outcome (list Z) :=
  load_bytes out 0 (if is_ipv6 then 16 else 4).

Definition tcp_recv_cb (arg : Z) (p : option ptr) : M err_t :=
  b ← gets st_bridge;
  if arg =? 0 then
    _ ← match p with Some p => pbuf_free_m p | None => mret tt end;
    mret ERR_ABRT
  else
    match p with
    | None =>
        _ ← (if s_tcp_recv_fn b then upcall_m (tcp_recv_fn arg None) else mret tt);
        mret ERR_OK
    | Some p =>
        got ← (if s_tcp_recv_fn b then with_bytes p (fun bytes => upcall_m (tcp_recv_fn arg (Some bytes)))
               else mret true);
        if (got : bool) then _ ← pbuf_free_m p; mret ERR_OK
        else mret ERR_MEM
    end.

Definition tcp_sent_cb (arg len : Z) : M err_t :=
  b ← gets st_bridge;
  _ ← (if negb (arg =? 0) && s_tcp_sent_fn b then upcall_m (tcp_sent_fn arg len) else mret tt);
  mret ERR_OK.

Definition tcp_err_cb (arg : Z) (err : err_t) : M unit :=
  b ← gets st_bridge;
  if negb (arg =? 0) && s_tcp_err_fn b then upcall_m (tcp_err_fn arg (err_code err)) else mret tt.

Definition udp_recv_cb (p : option ptr) (addr : ip_addr_t) (port : Z) : M unit :=
  b ← gets st_bridge;
  match p with
  | None => mret tt
  | Some p =>
      if negb (s_udp_recv_fn b) then pbuf_free_m p
      else
        '(src_bytes, _) ← lift (ip_addr_to_bytes addr (fresh_block 16));
        '(dst_bytes, is_ipv6) ← lift (ip_addr_to_bytes (s_current_udp_dst_ip b) (fresh_block 16));
        _ ← with_bytes p (fun bytes =>
               src ← lift (addr_of src_bytes is_ipv6);
               dst ← lift (addr_of dst_bytes is_ipv6);
               upcall_m (udp_recv_up src port dst (s_current_udp_dst_port b) is_ipv6 bytes));
        pbuf_free_m p
  end.

(** [pcb->recv] *)
Definition call_udp_recv (f : udp_recv_fn) (p : ptr) (addr : ip_addr_t) (port : Z) : M unit :=
  match f with udp_recv_cb_fn => udp_recv_cb (Some p) addr port end.
End callbacks.

(** * Sending IP packets ([ip4.c], [ip6.c]: routes and output)

    A header is put in front of the packet and the packet goes to the interface.
    Addresses are words in network byte order; NULL is [None]. *)
From Stdlib Require Import ZArith Lia.
From stdpp Require Import base list option numbers gmap.
From S2P Require Import Prelude Pbuf Chksum Lwip.

Definition IP_HLEN : Z := 20.
Definition IP6_HLEN : Z := 40.
Definition IP_PROTO_ICMP : Z := 1.
Definition IP_PROTO_TCP : Z := 6.
Definition IP_PROTO_UDP : Z := 17.

Section output.
Context `{Malloc}.

(** ** IPv4 *)

Definition ip4_route (dest : Z) : M bool :=
  d ← gets st_netif_default;
  n ← gets st_netif;
  mret (negb (negb d || negb (netif_is_up n) || negb (netif_is_link_up n) || ip4_addr_isloopback dest)).

(** The end of the header checksum, computed while the header is written. *)
Definition fold_chk_sum (chk_sum : Z) : Z :=
  let chk_sum := u32 (Z.shiftr chk_sum 16 + Z.land chk_sum 0xFFFF) in
  let chk_sum := u32 (Z.shiftr chk_sum 16 + chk_sum) in
  u16 (Z.lnot chk_sum).

Definition add_word (chk_sum w : Z) : Z :=
  u32 (u32 (chk_sum + Z.land w 0xFFFF) + Z.shiftr w 16).

Definition ip4_write_header (p : ptr) (src : option Z) (dest ttl tos proto : Z) : M unit :=
  iphdr ← payload p;
  pb ← get_pbuf p;
  _ ← lwip_assert_m (IP_HLEN <=? p_len pb);
  _ ← wr8 iphdr 8 ttl;
  _ ← wr8 iphdr 9 proto;
  let chk_sum := u32 (0 + lwip_htons (Z.lor proto (Z.shiftl ttl 8))) in
  _ ← wr32 iphdr 16 dest;
  let chk_sum := add_word chk_sum dest in
  let v_hl := Z.lor (Z.shiftl 4 4) (IP_HLEN / 4) in
  _ ← wr8 iphdr 0 v_hl;
  _ ← wr8 iphdr 1 tos;
  let chk_sum := u32 (chk_sum + lwip_htons (Z.lor tos (Z.shiftl v_hl 8))) in
  let len := lwip_htons (p_tot_len pb) in
  _ ← wr16 iphdr 2 len;
  let chk_sum := u32 (chk_sum + len) in
  _ ← wr16 iphdr 6 0;
  ip_id ← gets st_ip_id;
  _ ← wr16 iphdr 4 (lwip_htons ip_id);
  let chk_sum := u32 (chk_sum + lwip_htons ip_id) in
  _ ← modify (set_ip_id (u16 (ip_id + 1)));
  let src := match src with None => IPADDR_ANY | Some src => src end in
  _ ← wr32 iphdr 12 src;
  let chk_sum := add_word chk_sum src in
  wr16 iphdr 10 (fold_chk_sum chk_sum).

Definition ip4_output_if_src (p : ptr) (src dest : option Z) (ttl tos proto : Z) : M err_t :=
  pb ← get_pbuf p;
  _ ← lwip_assert_m (p_ref pb =? 1);
  match dest with
  | Some dest =>
      r ← on_heap (fun h => pbuf_add_header h p IP_HLEN);
      if negb (r =? 0) then mret ERR_BUF
      else _ ← ip4_write_header p src dest ttl tos proto; netif_output p
  | None => if p_len pb <? IP_HLEN then mret ERR_BUF else netif_output p
  end.

Definition ip4_output_if (p : ptr) (src dest : option Z) (ttl tos proto : Z) : M err_t :=
  n ← gets st_netif;
  let any := match src with None => true | Some src => ip4_addr_isany src end in
  let src_used := if bool_decide (dest <> None) && any then Some (ip_2_ip4 (n_ip_addr n)) else src in
  ip4_output_if_src p src_used dest ttl tos proto.

Definition ip4_output (p : ptr) (src : option Z) (dest ttl tos proto : Z) : M err_t :=
  pb ← get_pbuf p;
  _ ← lwip_assert_m (p_ref pb =? 1);
  netif ← ip4_route dest;
  if (netif : bool) then ip4_output_if p src (Some dest) ttl tos proto else mret ERR_RTE.

(** ** IPv6 *)

Definition ip6_route (src dest : list Z) : M bool :=
  d ← gets st_netif_default;
  n ← gets st_netif;
  mret (negb (negb d || negb (netif_is_up n) || negb (netif_is_link_up n))).

Definition IP6_MULTICAST_SCOPE_RESERVED : Z := 0x0.
Definition IP6_MULTICAST_SCOPE_LINK_LOCAL : Z := 0x2.
Definition IP6_MULTICAST_SCOPE_SITE_LOCAL : Z := 0x5.
Definition IP6_MULTICAST_SCOPE_ORGANIZATION_LOCAL : Z := 0x8.
Definition IP6_MULTICAST_SCOPE_GLOBAL : Z := 0xe.
Definition IP6_MULTICAST_SCOPE_RESERVEDF : Z := 0xf.

Definition IP6_ADDR_INVALID : Z := 0x00.
Definition IP6_ADDR_VALID : Z := 0x10.
Definition IP6_ADDR_PREFERRED : Z := 0x30.
Definition ip6_addr_isvalid (state : Z) : bool := negb (Z.land state IP6_ADDR_VALID =? 0).
Definition ip6_addr_isinvalid (state : Z) : bool := state =? IP6_ADDR_INVALID.
Definition ip6_addr_ispreferred (state : Z) : bool := state =? IP6_ADDR_PREFERRED.

(** The addresses of the interface with their states. *)
Definition netif_ip6 (n : netif) : list (ip_addr_t * Z) := zip (n_ip6_addr n) (n_ip6_addr_state n).

Definition dest_scope_of (dest : list Z) : Z :=
  if ip6_addr_isglobal dest then IP6_MULTICAST_SCOPE_GLOBAL
  else if ip6_addr_islinklocal dest || ip6_addr_isloopback dest then IP6_MULTICAST_SCOPE_LINK_LOCAL
  else if ip6_addr_isuniquelocal dest then IP6_MULTICAST_SCOPE_ORGANIZATION_LOCAL
  else if ip6_addr_ismulticast dest then ip6_addr_multicast_scope dest
  else if ip6_addr_issitelocal dest then IP6_MULTICAST_SCOPE_SITE_LOCAL
  else IP6_MULTICAST_SCOPE_GLOBAL.

Definition cand_scope_of (a : list Z) : Z :=
  if ip6_addr_isglobal a then IP6_MULTICAST_SCOPE_GLOBAL
  else if ip6_addr_islinklocal a then IP6_MULTICAST_SCOPE_LINK_LOCAL
  else if ip6_addr_isuniquelocal a then IP6_MULTICAST_SCOPE_ORGANIZATION_LOCAL
  else if ip6_addr_issitelocal a then IP6_MULTICAST_SCOPE_SITE_LOCAL
  else IP6_MULTICAST_SCOPE_RESERVEDF.

(** [best] is the best address so far with its scope, preference and match. *)
Fixpoint select_loop (cands : list (ip_addr_t * Z)) (dest : list Z) (dest_scope : Z)
    (best_addr : option ip_addr_t) (best_scope : Z) (best_pref best_bits : bool) : option ip_addr_t :=
  match cands with
  | [] => best_addr
  | (addr, state) :: cands =>
      if negb (ip6_addr_isvalid state)
      then select_loop cands dest dest_scope best_addr best_scope best_pref best_bits
      else
        let cand_addr := ip_2_ip6 addr in
        let cand_scope := cand_scope_of cand_addr in
        let cand_pref := ip6_addr_ispreferred state in
        let cand_bits := ip6_addr_net_zoneless_eq cand_addr dest in
        if cand_bits && ip6_addr_nethost_eq cand_addr dest then Some addr
        else if bool_decide (best_addr = None)
             || ((cand_scope <? best_scope) && (dest_scope <=? cand_scope))
             || ((best_scope <? cand_scope) && (best_scope <? dest_scope))
             || ((cand_scope =? best_scope)
                 && ((cand_pref && negb best_pref)
                     || (eqb cand_pref best_pref && (cand_bits && negb best_bits))))
        then select_loop cands dest dest_scope (Some addr) cand_scope cand_pref cand_bits
        else select_loop cands dest dest_scope best_addr best_scope best_pref best_bits
  end.

Definition ip6_select_source_address (n : netif) (dest : list Z) : option ip_addr_t :=
  select_loop (netif_ip6 n) dest (dest_scope_of dest) None IP6_MULTICAST_SCOPE_RESERVED false false.

Definition ip6_write_header (p : ptr) (src : option (list Z)) (dest : list Z) (hl tc nexth : Z) : M unit :=
  ip6hdr ← payload p;
  pb ← get_pbuf p;
  _ ← lwip_assert_m (IP6_HLEN <=? p_len pb);
  _ ← wr8 ip6hdr 7 hl;
  _ ← wr8 ip6hdr 6 nexth;
  _ ← wr_ip6 ip6hdr 24 dest;
  _ ← wr32 ip6hdr 0 (lwip_htonl (Z.lor (Z.lor (u32 (Z.shiftl 6 28)) (u32 (Z.shiftl tc 20))) 0));
  _ ← wr16 ip6hdr 4 (lwip_htons (u16 (p_tot_len pb - IP6_HLEN)));
  let src := match src with None => ip_2_ip6 IP6_ADDR_ANY | Some src => src end in
  wr_ip6 ip6hdr 8 src.

Definition ip6_output_if_src (p : ptr) (src dest : option (list Z)) (hl tc nexth : Z) : M err_t :=
  pb ← get_pbuf p;
  _ ← lwip_assert_m (p_ref pb =? 1);
  match dest with
  | Some dest =>
      r ← on_heap (fun h => pbuf_add_header h p IP6_HLEN);
      if negb (r =? 0) then mret ERR_BUF
      else _ ← ip6_write_header p src dest hl tc nexth; netif_output6 p
  | None => netif_output6 p
  end.

Definition ip6_output_if (p : ptr) (src dest : option (list Z)) (hl tc nexth : Z) : M err_t :=
  n ← gets st_netif;
  match src, dest with
  | Some src, Some dest =>
      if ip6_addr_isany src then
        match ip6_select_source_address n dest with
        | Some src_used =>
            if ip6_addr_isany (ip_2_ip6 src_used) then mret ERR_RTE
            else ip6_output_if_src p (Some (ip_2_ip6 src_used)) (Some dest) hl tc nexth
        | None => mret ERR_RTE
        end
      else ip6_output_if_src p (Some src) (Some dest) hl tc nexth
  | _, _ => ip6_output_if_src p src dest hl tc nexth
  end.

Definition ip6_output (p : ptr) (src dest : list Z) (hl tc nexth : Z) : M err_t :=
  pb ← get_pbuf p;
  _ ← lwip_assert_m (p_ref pb =? 1);
  netif ← ip6_route src dest;
  if (netif : bool) then ip6_output_if p (Some src) (Some dest) hl tc nexth else mret ERR_RTE.

(** ** Either family: the macro [ip_output_if_src] *)

Definition ip_output_if_src (p : ptr) (src dest : ip_addr_t) (ttl tos proto : Z) : M err_t :=
  if IP_IS_V6 dest then ip6_output_if_src p (Some (ip_2_ip6 src)) (Some (ip_2_ip6 dest)) ttl tos proto
  else ip4_output_if_src p (Some (ip_2_ip4 src)) (Some (ip_2_ip4 dest)) ttl tos proto.
End output.
