(* ===== verification/Icmp.v ===== *)
(** * ICMP for IPv4 and IPv6 ([icmp.c], [icmp6.c])

    Echo replies and error messages. Neighbour discovery ([nd6.c]) is a parameter:
    its messages are handed to [nd6_input]. *)
From Stdlib Require Import ZArith Lia.
From stdpp Require Import base list option numbers gmap.
From S2P Require Import Prelude Pbuf Chksum Lwip IpOut.

Definition ICMP_ER : Z := 0.
Definition ICMP_DUR : Z := 3.
Definition ICMP_ECHO : Z := 8.
Definition ICMP_DUR_PROTO : Z := 2.
Definition ICMP_DUR_PORT : Z := 3.
Definition ICMP_TTL : Z := 255.
Definition ICMP_DEST_UNREACH_DATASIZE : Z := 8.
Definition SIZEOF_ICMP_HDR : Z := 8.

Definition ICMP6_TYPE_DUR : Z := 1.
Definition ICMP6_TYPE_PTB : Z := 2.
Definition ICMP6_TYPE_TE : Z := 3.
Definition ICMP6_TYPE_PP : Z := 4.
Definition ICMP6_TYPE_EREQ : Z := 128.
Definition ICMP6_TYPE_EREP : Z := 129.
Definition ICMP6_TYPE_RA : Z := 134.
Definition ICMP6_TYPE_NS : Z := 135.
Definition ICMP6_TYPE_NA : Z := 136.
Definition ICMP6_TYPE_RD : Z := 137.
Definition ICMP6_DUR_PORT : Z := 4.
Definition ICMP6_PP_FIELD : Z := 0.
Definition ICMP6_PP_HEADER : Z := 1.
Definition ICMP6_PP_OPTION : Z := 2.
Definition IP6_NEXTH_ICMP6 : Z := 58.
Definition LWIP_ICMP6_HL : Z := 255.
Definition LWIP_ICMP6_DATASIZE : Z := 1280 - 40 - 8.
Definition PBUF_LINK_HLEN : Z := 14.

(** [ip_addr_isbroadcast], [ip4_addr_isbroadcast_u32] *)
Definition ip4_addr_isbroadcast_u32 (addr : Z) (n : netif) : bool :=
  if (u32 (Z.lnot addr) =? IPADDR_ANY) || (addr =? IPADDR_ANY) then true
  else if Z.land (n_flags n) NETIF_FLAG_BROADCAST =? 0 then false
  else if addr =? ip_2_ip4 (n_ip_addr n) then false
  else
    let mask := ip_2_ip4 (n_netmask n) in
    ip4_addr_net_eq addr (ip_2_ip4 (n_ip_addr n)) mask
    && (Z.land addr (u32 (Z.lnot mask)) =? Z.land IPADDR_BROADCAST (u32 (Z.lnot mask))).

Definition ip_addr_isbroadcast (a : ip_addr_t) (n : netif) : bool :=
  if IP_IS_V6 a then false else ip4_addr_isbroadcast_u32 (ip_2_ip4 a) n.

Section icmp.
Context `{Malloc}.
Variable machine : addr -> Z.

Definition alloc_ram (layer : pbuf_layer) (n : Z) : M (option ptr) :=
  on_heap (fun h => pbuf_alloc h layer n PBUF_RAM).

(** [inet_chksum] of memory, and of a packet with its pseudo header *)
Definition inet_chksum_m (a : addr) (n : Z) : M Z :=
  ask_heap (fun h => bs ← mem_read h a 0 n; Done (inet_chksum (machine a) bs)).
Definition ip_chksum_pseudo_m (p : ptr) (proto len : Z) (src dest : ip_addr_t) : M Z :=
  ask_heap (fun h => ip_chksum_pseudo machine h (Some p) proto len src dest).

(** ** IPv4 *)

(** A copy of the packet with room for the link header, when the packet itself has
    none: the received packet is released and the copy used instead. *)
Definition icmp_echo_copy (p : ptr) (iphdr_in : addr) (hlen : Z) : M (option ptr) :=
  pb ← get_pbuf p;
  let alloc_len := u16 (p_tot_len pb + hlen) in
  if alloc_len <? p_tot_len pb then mret None
  else
    r ← alloc_ram PBUF_LINK alloc_len;
    match r with
    | None => mret None
    | Some r =>
        rb ← get_pbuf r;
        if p_len rb <? hlen + SIZEOF_ICMP_HDR then _ ← pbuf_free_m r; mret None
        else
          ra ← payload r;
          _ ← on_heap_ (fun h => bs ← mem_read h iphdr_in 0 hlen; mem_write h ra 0 bs);
          e ← on_heap (fun h => pbuf_remove_header h r hlen);
          if negb (e =? 0) then undef
          else
            e ← on_heap (fun h => pbuf_copy h (Some r) (Some p));
            if negb (bool_decide (e = ERR_OK)) then _ ← pbuf_free_m r; mret None
            else _ ← pbuf_free_m p; mret (Some r)
    end.

(** The reply in place: addresses swapped, type, checksums. *)
Definition icmp_echo_reply (p : ptr) (src hlen : Z) : M unit :=
  iecho ← payload p;
  e ← on_heap (fun h => pbuf_add_header h p hlen);
  if negb (e =? 0) then mret tt
  else
    iphdr ← payload p;
    d ← gets st_ip_data;
    _ ← wr32 iphdr 12 src;
    _ ← wr32 iphdr 16 (ip_2_ip4 (current_iphdr_src d));
    _ ← wr8 iecho 0 ICMP_ER;
    _ ← on_heap_ (fun h => pb ← get h p;
          Done (put h p (mk_pbuf (p_next pb) (p_payload pb) (p_tot_len pb) (p_len pb)
            (p_type_internal pb) (p_flags pb) (p_ref pb) NETIF_NO_INDEX)));
    chksum ← rd16 iecho 2;
    _ ← wr16 iecho 2
          (if lwip_htons (0xffff - Z.shiftl ICMP_ECHO 8) <? chksum
           then u16 (chksum + lwip_htons (u16 (Z.shiftl ICMP_ECHO 8)) + 1)
           else u16 (chksum + lwip_htons (Z.shiftl ICMP_ECHO 8)));
    _ ← wr8 iphdr 8 ICMP_TTL;
    _ ← wr16 iphdr 10 0;
    c ← inet_chksum_m iphdr hlen;
    _ ← wr16 iphdr 10 c;
    _ ← ip4_output_if p (Some src) None ICMP_TTL 0 IP_PROTO_ICMP;
    mret tt.

Definition icmp_input (p : ptr) : M unit :=
  d ← gets st_ip_data;
  n ← gets st_netif;
  match current_ip4_header d with
  | None => undef
  | Some iphdr_in =>
      v_hl ← rd8 iphdr_in 0;
      let hlen := u8 (Z.land v_hl 0x0f * 4) in
      pb ← get_pbuf p;
      if (hlen <? IP_HLEN) || (p_len pb <? 4) then pbuf_free_m p
      else
        hdr ← payload p;
        type ← rd8 hdr 0;
        if type =? ICMP_ECHO then
          let src := ip_2_ip4 (current_iphdr_dest d) in
          if ip4_addr_ismulticast src || ip4_addr_isbroadcast_u32 src n
             || (p_tot_len pb <? SIZEOF_ICMP_HDR)
          then pbuf_free_m p
          else
            e ← on_heap (fun h => pbuf_add_header h p (hlen + PBUF_LINK_HLEN));
            q ← (if negb (e =? 0) then icmp_echo_copy p iphdr_in hlen
                 else
                   e ← on_heap (fun h => pbuf_remove_header h p (hlen + PBUF_LINK_HLEN));
                   if negb (e =? 0) then undef else mret (Some p));
            match q with
            | None => pbuf_free_m p
            | Some q => _ ← icmp_echo_reply q src hlen; pbuf_free_m q
            end
        else pbuf_free_m p
  end.

Definition icmp_send_response (p : ptr) (type code : Z) : M unit :=
  pb ← get_pbuf p;
  let response_pkt_len := IP_HLEN + ICMP_DEST_UNREACH_DATASIZE in
  let response_pkt_len := if p_tot_len pb <? response_pkt_len then p_tot_len pb else response_pkt_len in
  q ← alloc_ram PBUF_IP (SIZEOF_ICMP_HDR + response_pkt_len);
  match q with
  | None => mret tt
  | Some q =>
      qb ← get_pbuf q;
      _ ← lwip_assert_m (SIZEOF_ICMP_HDR + response_pkt_len <=? p_len qb);
      iphdr ← payload p;
      icmphdr ← payload q;
      _ ← wr8 icmphdr 0 type;
      _ ← wr8 icmphdr 1 code;
      _ ← wr32 icmphdr 4 0;
      _ ← on_heap (fun h => pbuf_copy_partial_pbuf h (Some q) (Some p) response_pkt_len SIZEOF_ICMP_HDR);
      iphdr_src ← rd32 iphdr 12;
      netif ← ip4_route iphdr_src;
      _ ← (if (netif : bool) then
             _ ← wr16 icmphdr 2 0;
             c ← inet_chksum_m icmphdr (p_len qb);
             _ ← wr16 icmphdr 2 c;
             _ ← ip4_output_if q None (Some iphdr_src) ICMP_TTL 0 IP_PROTO_ICMP;
             mret tt
           else mret tt);
      pbuf_free_m q
  end.

Definition icmp_dest_unreach (p : ptr) (t : Z) : M unit := icmp_send_response p ICMP_DUR t.

(** ** IPv6 *)

Definition icmp6_send_response_with_addrs_and_netif (p : ptr) (code data type : Z)
    (reply_src reply_dest : list Z) : M unit :=
  pb ← get_pbuf p;
  let datalen := if p_tot_len pb <? LWIP_ICMP6_DATASIZE then p_tot_len pb else LWIP_ICMP6_DATASIZE in
  q ← alloc_ram PBUF_IP (SIZEOF_ICMP_HDR + datalen);
  match q with
  | None => mret tt
  | Some q =>
      qb ← get_pbuf q;
      _ ← lwip_assert_m (SIZEOF_ICMP_HDR <=? p_len qb);
      icmp6hdr ← payload q;
      _ ← wr8 icmp6hdr 0 type;
      _ ← wr8 icmp6hdr 1 code;
      _ ← wr32 icmp6hdr 4 (lwip_htonl data);
      _ ← on_heap (fun h => pbuf_copy_partial_pbuf h (Some q) (Some p) datalen SIZEOF_ICMP_HDR);
      _ ← wr16 icmp6hdr 2 0;
      c ← ip_chksum_pseudo_m q IP6_NEXTH_ICMP6 (p_tot_len qb) (ip6_addr reply_src) (ip6_addr reply_dest);
      _ ← wr16 icmp6hdr 2 c;
      _ ← ip6_output_if q (Some reply_src) (Some reply_dest) LWIP_ICMP6_HL 0 IP6_NEXTH_ICMP6;
      pbuf_free_m q
  end.

Definition icmp6_send_response (p : ptr) (code data type : Z) : M unit :=
  d ← gets st_ip_data;
  n ← gets st_netif;
  _ ← lwip_assert_m (current_netif d);
  let reply_dest := ip_2_ip6 (current_iphdr_src d) in
  match ip6_select_source_address n reply_dest with
  | None => mret tt
  | Some reply_src =>
      icmp6_send_response_with_addrs_and_netif p code data type (ip_2_ip6 reply_src) reply_dest
  end.

Definition icmp6_send_response_with_addrs (p : ptr) (code data type : Z)
    (src_addr dest_addr : list Z) : M unit :=
  let reply_dest := src_addr in
  let reply_src := dest_addr in
  netif ← ip6_route reply_src reply_dest;
  if (netif : bool)
  then icmp6_send_response_with_addrs_and_netif p code data type reply_src reply_dest
  else mret tt.

Definition icmp6_dest_unreach (p : ptr) (c : Z) : M unit := icmp6_send_response p c 0 ICMP6_TYPE_DUR.
Definition icmp6_packet_too_big (p : ptr) (mtu : Z) : M unit := icmp6_send_response p 0 mtu ICMP6_TYPE_PTB.
Definition icmp6_time_exceeded (p : ptr) (c : Z) : M unit := icmp6_send_response p c 0 ICMP6_TYPE_TE.
Definition icmp6_time_exceeded_with_addrs (p : ptr) (c : Z) (src_addr dest_addr : list Z) : M unit :=
  icmp6_send_response_with_addrs p c 0 ICMP6_TYPE_TE src_addr dest_addr.

(** [pointer] is an address in the packet: the message has its distance from the
    IPv6 header. *)
Definition icmp6_param_problem (p : ptr) (c : Z) (pointer : addr) : M unit :=
  d ← gets st_ip_data;
  match current_ip6_header d with
  | Some hdr => icmp6_send_response p c (u32 (a_off pointer - a_off hdr)) ICMP6_TYPE_PP
  | None => undef
  end.

Variable nd6_input : ptr -> M unit.

Definition icmp6_echo (p : ptr) : M unit :=
  d ← gets st_ip_data;
  if ip6_addr_ismulticast (ip_2_ip6 (current_iphdr_dest d)) then pbuf_free_m p
  else
    pb ← get_pbuf p;
    r ← alloc_ram PBUF_IP (p_tot_len pb);
    match r with
    | None => pbuf_free_m p
    | Some r =>
        e ← on_heap (fun h => pbuf_copy h (Some r) (Some p));
        if negb (bool_decide (e = ERR_OK)) then _ ← pbuf_free_m p; pbuf_free_m r
        else
          let reply_src := current_iphdr_dest d in
          hdr ← payload r;
          rb ← get_pbuf r;
          _ ← wr8 hdr 0 ICMP6_TYPE_EREP;
          _ ← wr16 hdr 2 0;
          c ← ip_chksum_pseudo_m r IP6_NEXTH_ICMP6 (p_tot_len rb) reply_src (current_iphdr_src d);
          _ ← wr16 hdr 2 c;
          _ ← ip6_output_if r (Some (ip_2_ip6 reply_src)) (Some (ip_2_ip6 (current_iphdr_src d)))
                LWIP_ICMP6_HL 0 IP6_NEXTH_ICMP6;
          _ ← pbuf_free_m r;
          pbuf_free_m p
    end.

Definition icmp6_input (p : ptr) : M unit :=
  pb ← get_pbuf p;
  if p_len pb <? SIZEOF_ICMP_HDR then pbuf_free_m p
  else
    hdr ← payload p;
    type ← rd8 hdr 0;
    if (type =? ICMP6_TYPE_NA) || (type =? ICMP6_TYPE_NS) || (type =? ICMP6_TYPE_RA)
       || (type =? ICMP6_TYPE_RD) || (type =? ICMP6_TYPE_PTB)
    then nd6_input p
    else if type =? ICMP6_TYPE_EREQ then icmp6_echo p
    else pbuf_free_m p.

(** The macro [icmp_port_unreach] *)
Definition icmp_port_unreach (isipv6 : bool) (p : ptr) : M unit :=
  if isipv6 then icmp6_dest_unreach p ICMP6_DUR_PORT else icmp_dest_unreach p ICMP_DUR_PORT.
End icmp.
