(* ===== verification/Udp.v ===== *)
(** * UDP ([udp.c])

    Control blocks and their list, binding, demultiplexing of received datagrams and
    sending. The fallback to a block of local port 0 makes the bridge's blocks receive
    every datagram. *)
From Stdlib Require Import ZArith Lia.
From stdpp Require Import base list option numbers gmap.
From S2P Require Import Prelude Pbuf Chksum Lwip IpOut Icmp.

Definition UDP_LOCAL_PORT_RANGE_START : Z := 0xc000.
Definition UDP_LOCAL_PORT_RANGE_END : Z := 0xffff.
Definition UDP_HLEN : Z := 8.
Definition UDP_TTL : Z := 255.
Definition UDP_FLAGS_NOCHKSUM : Z := 0x01.
Definition UDP_FLAGS_CONNECTED : Z := 0x04.

Definition IP_ADDR_PCB_VERSION_MATCH_EXACT (pcb : udp_pcb) (a : ip_addr_t) : bool :=
  ip_type (u_local_ip pcb) =? ip_type a.
Definition IP_ADDR_PCB_VERSION_MATCH (pcb : udp_pcb) (a : ip_addr_t) : bool :=
  IP_IS_ANY_TYPE (u_local_ip pcb) || IP_ADDR_PCB_VERSION_MATCH_EXACT pcb a.

(** ** Control blocks *)

Definition set_pcbs (l : list ptr) (u : udp_state) : udp_state :=
  mk_udp (udp_store u) l (udp_port u) (memp_udp u).
Definition set_store (m : gmap ptr udp_pcb) (u : udp_state) : udp_state :=
  mk_udp m (udp_pcbs u) (udp_port u) (memp_udp u).
Definition set_udp_port (n : Z) (u : udp_state) : udp_state :=
  mk_udp (udp_store u) (udp_pcbs u) n (memp_udp u).
Definition modify_udp (f : udp_state -> udp_state) : M unit :=
  modify (fun s => set_udp (f (st_udp s)) s).

Definition get_pcb (p : ptr) : M udp_pcb :=
  fun s => match udp_store (st_udp s) !! p with Some pcb => Done (pcb, s) | None => Undef end.
Definition put_pcb (p : ptr) (pcb : udp_pcb) : M unit :=
  modify_udp (fun u => set_store (<[p := pcb]> (udp_store u)) u).

Definition pcb_set_local (a : ip_addr_t) (port : Z) (pcb : udp_pcb) : udp_pcb :=
  mk_udp_pcb a (u_remote_ip pcb) (u_netif_idx pcb) (u_so_options pcb) (u_tos pcb) (u_ttl pcb)
    (u_flags pcb) port (u_remote_port pcb) (u_recv pcb) (u_recv_arg pcb).
Definition pcb_set_remote (a : ip_addr_t) (port flags idx : Z) (pcb : udp_pcb) : udp_pcb :=
  mk_udp_pcb (u_local_ip pcb) a idx (u_so_options pcb) (u_tos pcb) (u_ttl pcb)
    flags (u_local_port pcb) port (u_recv pcb) (u_recv_arg pcb).
Definition pcb_set_recv (f : option udp_recv_fn) (arg : option Z) (pcb : udp_pcb) : udp_pcb :=
  mk_udp_pcb (u_local_ip pcb) (u_remote_ip pcb) (u_netif_idx pcb) (u_so_options pcb) (u_tos pcb)
    (u_ttl pcb) (u_flags pcb) (u_local_port pcb) (u_remote_port pcb) f arg.

(** The blocks of the list with their pointers. *)
Fixpoint read_pcbs (m : gmap ptr udp_pcb) (l : list ptr) : outcome (list (ptr * udp_pcb)) :=
  match l with
  | [] => Done []
  | p :: l =>
      match m !! p with
      | Some pcb => r ← read_pcbs m l; Done ((p, pcb) :: r)
      | None => Undef
      end
  end.
Definition udp_list : M (list (ptr * udp_pcb)) :=
  fun s => l ← read_pcbs (udp_store (st_udp s)) (udp_pcbs (st_udp s)); Done (l, s).

(** A block of the pool, zeroed: its pointer is new. *)
Definition udp_new : M (option ptr) := fun s =>
  let u := st_udp s in
  let h := st_heap s in
  match memp_udp u with
  | O => Done (None, s)
  | S n =>
      let p := h_fresh h in
      let pcb := mk_udp_pcb (ip4_addr 0) (ip4_addr 0) 0 0 0 UDP_TTL 0 0 0 None None in
      Done (Some p, set_heap (mk_heap (h_pbufs h) (h_mem h) (Pos.succ p) (h_memp_pbuf h) (h_memp_pool h))
        (set_udp (mk_udp (<[p := pcb]> (udp_store u)) (udp_pcbs u) (udp_port u) n) s))
  end.

Definition udp_new_ip_type (type : Z) : M (option ptr) :=
  r ← udp_new;
  match r with
  | None => mret None
  | Some p =>
      pcb ← get_pcb p;
      _ ← put_pcb p (mk_udp_pcb (IP_SET_TYPE_VAL (u_local_ip pcb) type)
            (IP_SET_TYPE_VAL (u_remote_ip pcb) type) (u_netif_idx pcb) (u_so_options pcb)
            (u_tos pcb) (u_ttl pcb) (u_flags pcb) (u_local_port pcb) (u_remote_port pcb)
            (u_recv pcb) (u_recv_arg pcb));
      mret (Some p)
  end.

(** The first occurrence is unlinked and the block goes back to the pool. *)
Fixpoint unlink (p : ptr) (l : list ptr) : list ptr :=
  match l with
  | [] => []
  | q :: l => if bool_decide (q = p) then l else q :: unlink p l
  end.

Definition udp_remove (p : ptr) : M unit :=
  modify_udp (fun u => mk_udp (delete p (udp_store u)) (unlink p (udp_pcbs u)) (udp_port u)
                         (S (memp_udp u))).

Definition udp_recv (p : ptr) (f : option udp_recv_fn) (arg : option Z) : M unit :=
  pcb ← get_pcb p; put_pcb p (pcb_set_recv f arg pcb).

Definition UDP_ENSURE_LOCAL_PORT_RANGE (port : Z) : Z :=
  u16 (Z.land port (u16 (Z.lnot UDP_LOCAL_PORT_RANGE_START)) + UDP_LOCAL_PORT_RANGE_START).

(** [rand] is the number that [LWIP_RAND] draws ([arc4random]). *)
Definition udp_init (rand : Z) : M unit := modify_udp (set_udp_port (UDP_ENSURE_LOCAL_PORT_RANGE rand)).

(** [udp_new_port]: [n] counts the ports found in use; a port is tried at most
    0x4000 times. *)
Fixpoint udp_new_port_loop (fuel : nat) (used : list Z) (udp_port n : Z) : outcome (Z * Z) :=
  match fuel with
  | O => Undef
  | S fuel =>
      let port := if udp_port =? UDP_LOCAL_PORT_RANGE_END then UDP_LOCAL_PORT_RANGE_START
                  else u16 (udp_port + 1) in
      if bool_decide (port ∈ used) then
        if UDP_LOCAL_PORT_RANGE_END - UDP_LOCAL_PORT_RANGE_START <? u16 (n + 1) then Done (0, port)
        else udp_new_port_loop fuel used port (u16 (n + 1))
      else Done (port, port)
  end.

Definition udp_new_port : M Z :=
  l ← udp_list;
  u ← gets st_udp;
  '(r, port) ← lift (udp_new_port_loop (Z.to_nat 0x4001) (map (fun x => u_local_port x.2) l) (udp_port u) 0);
  _ ← modify_udp (set_udp_port port);
  mret r.

(** Another block is bound to the port and one of the addresses covers the other. *)
Definition bound_by (pcb : ptr) (ipaddr : ip_addr_t) (port : Z) (x : ptr * udp_pcb) : bool :=
  let ipcb := x.2 in
  negb (bool_decide (pcb = x.1)) && (u_local_port ipcb =? port)
  && (((ip_type (u_local_ip ipcb) =? ip_type ipaddr)
       && (ip_addr_eq (u_local_ip ipcb) ipaddr || ip_addr_isany ipaddr || ip_addr_isany (u_local_ip ipcb)))
      || IP_IS_ANY_TYPE (u_local_ip ipcb) || IP_IS_ANY_TYPE ipaddr).

Definition udp_bind (p : ptr) (ipaddr : ip_addr_t) (port : Z) : M err_t :=
  l ← udp_list;
  let rebind := bool_decide (p ∈ map fst l) in
  port ← (if port =? 0 then
            port ← udp_new_port;
            mret (if port =? 0 then None else Some port)
          else mret (if existsb (bound_by p ipaddr port) l then None else Some port));
  match port with
  | None => mret ERR_USE
  | Some port =>
      pcb ← get_pcb p;
      _ ← put_pcb p (pcb_set_local ipaddr port pcb);
      _ ← (if rebind then mret tt else modify_udp (fun u => set_pcbs (p :: udp_pcbs u) u));
      mret ERR_OK
  end.

Definition udp_bind_netif (p : ptr) (netif : bool) : M unit :=
  n ← gets st_netif;
  pcb ← get_pcb p;
  put_pcb p (pcb_set_remote (u_remote_ip pcb) (u_remote_port pcb) (u_flags pcb)
    (if netif then netif_get_index n else NETIF_NO_INDEX) pcb).

Definition udp_connect (p : ptr) (ipaddr : ip_addr_t) (port : Z) : M err_t :=
  pcb ← get_pcb p;
  err ← (if u_local_port pcb =? 0 then udp_bind p (u_local_ip pcb) (u_local_port pcb) else mret ERR_OK);
  if negb (bool_decide (err = ERR_OK)) then mret err
  else
    pcb ← get_pcb p;
    _ ← put_pcb p (pcb_set_remote ipaddr port (Z.lor (u_flags pcb) UDP_FLAGS_CONNECTED) (u_netif_idx pcb) pcb);
    u ← gets st_udp;
    _ ← (if bool_decide (p ∈ udp_pcbs u) then mret tt
         else modify_udp (fun u => set_pcbs (p :: udp_pcbs u) u));
    mret ERR_OK.

Definition udp_disconnect (p : ptr) : M unit :=
  pcb ← get_pcb p;
  let any := if IP_IS_ANY_TYPE (u_local_ip pcb) then mk_ip_addr [0; 0; 0; 0] IPADDR_TYPE_ANY
             else if IP_IS_V6 (u_remote_ip pcb) then IP6_ADDR_ANY else IP4_ADDR_ANY in
  put_pcb p (pcb_set_remote any 0 (Z.land (u_flags pcb) (u8 (Z.lnot UDP_FLAGS_CONNECTED)))
    NETIF_NO_INDEX pcb).

Definition udp_netif_ip_addr_changed (old_addr : ip_addr_t) (new_addr : option ip_addr_t) : M unit :=
  match new_addr with
  | None => mret tt
  | Some new_addr =>
      if negb (ip_addr_isany old_addr) && negb (ip_addr_isany new_addr) then
        l ← udp_list;
        foldl (fun m x => _ ← m;
                 if ip_addr_eq (u_local_ip x.2) old_addr
                 then put_pcb x.1 (pcb_set_local new_addr (u_local_port x.2) x.2) else mret tt)
          (mret tt) l
      else mret tt
  end.

(** ** Receiving *)

Definition udp_input_local_match (d : ip_globals) (n : netif) (pcb : udp_pcb) (broadcast : bool) : bool :=
  let dest := current_iphdr_dest d in
  if negb (u_netif_idx pcb =? NETIF_NO_INDEX) && negb (u_netif_idx pcb =? netif_get_index n) then false
  else if IP_IS_ANY_TYPE (u_local_ip pcb) then true
  else if IP_ADDR_PCB_VERSION_MATCH_EXACT pcb dest then
    if broadcast then
      ip4_addr_isany (ip_2_ip4 (u_local_ip pcb)) || (ip_2_ip4 dest =? IPADDR_BROADCAST)
      || ip4_addr_net_eq (ip_2_ip4 (u_local_ip pcb)) (ip_2_ip4 dest) (ip_2_ip4 (n_netmask n))
    else ip_addr_isany (u_local_ip pcb) || ip_addr_eq (u_local_ip pcb) dest
  else false.

(** The walk over the list: the first block that matches both ends, with the list
    before and after it; otherwise the unconnected block that matches best. *)
Fixpoint udp_demux (d : ip_globals) (n : netif) (src dest : Z) (broadcast : bool)
    (before : list ptr) (uncon_pcb : option (ptr * udp_pcb)) (l : list (ptr * udp_pcb))
    : option (list ptr * (ptr * udp_pcb) * list ptr) * option (ptr * udp_pcb) :=
  match l with
  | [] => (None, uncon_pcb)
  | (p, pcb) :: l =>
      if (u_local_port pcb =? dest) && udp_input_local_match d n pcb broadcast then
        let uncon_pcb :=
          if Z.land (u_flags pcb) UDP_FLAGS_CONNECTED =? 0 then
            match uncon_pcb with
            | None => Some (p, pcb)
            | Some (q, qcb) =>
                if broadcast && (ip_2_ip4 (current_iphdr_dest d) =? IPADDR_BROADCAST)
                   && (negb (ip_type (u_local_ip qcb) =? IPADDR_TYPE_V4)
                       || negb (ip_2_ip4 (u_local_ip qcb) =? ip_2_ip4 (n_ip_addr n)))
                   && ((ip_type (u_local_ip pcb) =? IPADDR_TYPE_V4)
                       && (ip_2_ip4 (u_local_ip pcb) =? ip_2_ip4 (n_ip_addr n)))
                then Some (p, pcb) else Some (q, qcb)
            end
          else uncon_pcb in
        if (u_remote_port pcb =? src)
           && (ip_addr_isany (u_remote_ip pcb) || ip_addr_eq (u_remote_ip pcb) (current_iphdr_src d))
        then (Some (before, (p, pcb), map fst l), uncon_pcb)
        else udp_demux d n src dest broadcast (before ++ [p]) uncon_pcb l
      else udp_demux d n src dest broadcast (before ++ [p]) uncon_pcb l
  end.

(** The block of local port 0 of the packet's family. *)
Definition udp_wildcard (d : ip_globals) (l : list (ptr * udp_pcb)) : option (ptr * udp_pcb) :=
  find (fun x => (u_local_port x.2 =? 0) && IP_ADDR_PCB_VERSION_MATCH_EXACT x.2 (current_iphdr_dest d)) l.

(** [netif_get_ip6_addr_match]: the index, or -1 *)
Fixpoint match_loop (addrs : list (ip_addr_t * Z)) (i : Z) (a : list Z) : Z :=
  match addrs with
  | [] => -1
  | (addr, state) :: addrs =>
      if negb (ip6_addr_isinvalid state) && ip6_addr_zoneless_eq (ip_2_ip6 addr) a then i
      else match_loop addrs (i + 1) a
  end.
Definition netif_get_ip6_addr_match (n : netif) (a : list Z) : Z := match_loop (netif_ip6 n) 0 a.

Section udp.
Context `{Malloc}.
Variable machine : addr -> Z.

(** A full match moves to the front of the list. *)
Definition udp_find (src dest : Z) (broadcast : bool) : M (option (ptr * udp_pcb)) :=
  d ← gets st_ip_data;
  n ← gets st_netif;
  l ← udp_list;
  match udp_demux d n src dest broadcast [] None l with
  | (Some (before, x, after), _) =>
      _ ← modify_udp (set_pcbs (x.1 :: before ++ after));
      mret (Some x)
  | (None, Some x) => mret (Some x)
  | (None, None) => mret (udp_wildcard d l)
  end.

Definition udp_input (p : ptr) : M unit :=
  pb ← get_pbuf p;
  if p_len pb <? UDP_HLEN then pbuf_free_m p
  else
    udphdr ← payload p;
    d ← gets st_ip_data;
    n ← gets st_netif;
    let broadcast := ip_addr_isbroadcast (current_iphdr_dest d) n in
    src ← rd16 udphdr 0;
    dest ← rd16 udphdr 2;
    let src := lwip_htons src in
    let dest := lwip_htons dest in
    pcb ← udp_find src dest broadcast;
    let is_v6 := bool_decide (current_ip6_header d <> None) in
    let for_us :=
      match pcb with
      | Some _ => true
      | None => if is_v6 then 0 <=? netif_get_ip6_addr_match n (ip_2_ip6 (current_iphdr_dest d))
                else ip_2_ip4 (n_ip_addr n) =? ip_2_ip4 (current_iphdr_dest d)
      end in
    if for_us then
      e ← on_heap (fun h => pbuf_remove_header h p UDP_HLEN);
      if negb (e =? 0) then undef
      else
        match pcb with
        | Some (_, pcb) =>
            match u_recv pcb with
            | Some f => call_udp_recv f p (current_iphdr_src d) src
            | None => pbuf_free_m p
            end
        | None =>
            _ ← (if negb broadcast && negb (ip_addr_ismulticast (current_iphdr_dest d)) then
                   _ ← on_heap (fun h => pbuf_header_force h p (current_ip_header_tot_len d + UDP_HLEN));
                   icmp_port_unreach machine is_v6 p
                 else mret tt);
            pbuf_free_m p
        end
    else pbuf_free_m p.

(** ** Sending *)

(** The datagram's buffer with the UDP header in front: the packet itself or a new
    buffer chained before it. *)
Definition udp_add_header (p : ptr) : M (option ptr) :=
  pb ← get_pbuf p;
  r ← on_heap (fun h => pbuf_add_header h p UDP_HLEN);
  if negb (r =? 0) then
    q ← alloc_ram PBUF_IP UDP_HLEN;
    match q with
    | None => mret None
    | Some q =>
        pb ← get_pbuf p;
        _ ← (if negb (p_tot_len pb =? 0) then on_heap_ (fun h => pbuf_chain h (Some q) (Some p))
             else mret tt);
        mret (Some q)
    end
  else mret (Some p).

Definition udp_fill_header (pcb : udp_pcb) (q : ptr) (dst_port : Z) (src_ip dst_ip : ip_addr_t) : M unit :=
  qb ← get_pbuf q;
  _ ← lwip_assert_m (UDP_HLEN <=? p_len qb);
  udphdr ← payload q;
  _ ← wr16 udphdr 0 (lwip_htons (u_local_port pcb));
  _ ← wr16 udphdr 2 (lwip_htons dst_port);
  _ ← wr16 udphdr 6 0;
  _ ← wr16 udphdr 4 (lwip_htons (p_tot_len qb));
  if IP_IS_V6 dst_ip || (Z.land (u_flags pcb) UDP_FLAGS_NOCHKSUM =? 0) then
    udpchksum ← ip_chksum_pseudo_m machine q IP_PROTO_UDP (p_tot_len qb) src_ip dst_ip;
    wr16 udphdr 6 (if udpchksum =? 0 then 0xffff else udpchksum)
  else mret tt.

(** [udp_sendto_if_src_chksum] with [have_chksum = 0] *)
Definition udp_sendto_if_src (pcb : ptr) (p : ptr) (dst_ip : ip_addr_t) (dst_port : Z)
    (src_ip : ip_addr_t) : M err_t :=
  c ← get_pcb pcb;
  if negb (IP_ADDR_PCB_VERSION_MATCH c src_ip) || negb (IP_ADDR_PCB_VERSION_MATCH c dst_ip)
  then mret ERR_VAL
  else
    err ← (if u_local_port c =? 0 then udp_bind pcb (u_local_ip c) (u_local_port c) else mret ERR_OK);
    if negb (bool_decide (err = ERR_OK)) then mret err
    else
      pb ← get_pbuf p;
      if u16 (p_tot_len pb + UDP_HLEN) <? p_tot_len pb then mret ERR_MEM
      else
        q ← udp_add_header p;
        match q with
        | None => mret ERR_MEM
        | Some q =>
            c ← get_pcb pcb;
            _ ← udp_fill_header c q dst_port src_ip dst_ip;
            err ← ip_output_if_src q src_ip dst_ip (u_ttl c) (u_tos c) IP_PROTO_UDP;
            _ ← (if bool_decide (q = p) then mret tt else pbuf_free_m q);
            mret err
        end.
End udp.
