(* ===== verification/IpIn.v ===== *)
(** * Receiving IP packets ([ip.c], [ip4.c], [ip6.c]: input)

    Validation of the header, acceptance by the interface, the chain of IPv6 extension
    headers, and dispatch to the protocol. TCP and neighbour discovery are parameters. *)
From Stdlib Require Import ZArith Lia.
From stdpp Require Import base list option numbers gmap.
From S2P Require Import Prelude Pbuf Chksum Lwip IpOut Icmp Udp.

Definition IP_OFFMASK : Z := 0x1fff.
Definition IP_MF : Z := 0x2000.

Definition IP6_NEXTH_HOPBYHOP : Z := 0.
Definition IP6_NEXTH_TCP : Z := 6.
Definition IP6_NEXTH_UDP : Z := 17.
Definition IP6_NEXTH_ROUTING : Z := 43.
Definition IP6_NEXTH_FRAGMENT : Z := 44.
Definition IP6_NEXTH_NONE : Z := 59.
Definition IP6_NEXTH_DESTOPTS : Z := 60.
Definition IP6_PAD1_OPTION : Z := 0.
Definition IP6_PADN_OPTION : Z := 1.
Definition IP6_ROUTER_ALERT_OPTION : Z := 5.
Definition IP6_JUMBO_OPTION : Z := 194.
Definition IP6_HOME_ADDRESS_OPTION : Z := 201.
Definition IP6_OPT_HLEN : Z := 2.
Definition IP6_HBH_HLEN : Z := 2.
Definition IP6_ROUT_TYPE2 : Z := 2.
Definition IP6_ROUT_RPL : Z := 3.
Definition IP6_FRAG_OFFSET_MASK : Z := 0xfff8.
Definition IP6_FRAG_MORE_FLAG : Z := 0x0001.

(** ** Acceptance *)

Definition ip4_input_accept (n : netif) (dest : Z) : bool :=
  if netif_is_up n && ip4_addr_isany (ip_2_ip4 (n_ip_addr n)) then true
  else netif_is_up n && negb (ip4_addr_isany (ip_2_ip4 (n_ip_addr n)))
       && ((dest =? ip_2_ip4 (n_ip_addr n)) || ip4_addr_isbroadcast_u32 dest n).

(** The interface a packet to [dest] is for. *)
Definition ip4_dest_netif (n : netif) (dest : Z) : bool :=
  if ip4_addr_ismulticast dest
  then netif_is_up n && negb (ip4_addr_isany (ip_2_ip4 (n_ip_addr n)))
  else ip4_input_accept n dest.

Definition ip6_input_accept (n : netif) (dest : list Z) : bool :=
  netif_is_up n
  && (match netif_ip6 n with
      | (a, state) :: _ => ip6_addr_isvalid state && ip6_addr_isany (ip_2_ip6 a)
      | [] => false
      end
      || existsb (fun x => ip6_addr_isvalid x.2 && ip6_addr_eq dest (ip_2_ip6 x.1)) (netif_ip6 n)).

Definition ip6_dest_netif (n : netif) (dest : list Z) : bool :=
  if ip6_addr_ismulticast dest then
    if ip6_addr_isallnodes_iflocal dest || ip6_addr_isallnodes_linklocal dest then true
    else if ip6_addr_issolicitednode dest then
      existsb (fun x => ip6_addr_isvalid x.2 && ip6_addr_solicitednode_eq dest (ip_2_ip6 x.1)) (netif_ip6 n)
    else false
  else ip6_input_accept n dest.

Section input.
Context `{Malloc}.
Variable machine : addr -> Z.
Variable tcp_input : ptr -> M unit.
Variable nd6_input : ptr -> M unit.

Definition modify_ip_data (f : ip_globals -> ip_globals) : M unit :=
  modify (fun s => set_ip_data (f (st_ip_data s)) s).

Definition set_ip_addrs (src dest : ip_addr_t) (d : ip_globals) : ip_globals :=
  mk_ip_globals (current_netif d) (current_input_netif d) (current_ip4_header d)
    (current_ip6_header d) (current_ip_header_tot_len d) src dest.

(** ** IPv4 *)

Definition ip4_cleanup : M unit :=
  modify_ip_data (fun d => mk_ip_globals false false None (current_ip6_header d) 0
    (mk_ip_addr (0 :: tail (u_addr (current_iphdr_src d))) (ip_type (current_iphdr_src d)))
    (mk_ip_addr (0 :: tail (u_addr (current_iphdr_dest d))) (ip_type (current_iphdr_dest d)))).

Definition ip4_dispatch (p : ptr) (iphdr : addr) (iphdr_hlen : Z) (n : netif) (dest : Z) : M unit :=
  proto ← rd8 iphdr 9;
  if proto =? IP_PROTO_UDP then udp_input machine p
  else if proto =? IP_PROTO_TCP then tcp_input p
  else if proto =? IP_PROTO_ICMP then icmp_input machine p
  else
    _ ← (if negb (ip4_addr_isbroadcast_u32 dest n) && negb (ip4_addr_ismulticast dest) then
           _ ← on_heap (fun h => pbuf_header_force h p iphdr_hlen);
           icmp_dest_unreach machine p ICMP_DUR_PROTO
         else mret tt);
    pbuf_free_m p.

Definition ip4_input (p : ptr) : M err_t :=
  n ← gets st_netif;
  iphdr ← payload p;
  v_hl ← rd8 iphdr 0;
  if negb (Z.shiftr v_hl 4 =? 4) then _ ← pbuf_free_m p; mret ERR_OK
  else
    let iphdr_hlen := u8 (Z.land v_hl 0x0f * 4) in
    len ← rd16 iphdr 2;
    let iphdr_len := lwip_htons len in
    pb ← get_pbuf p;
    _ ← (if iphdr_len <? p_tot_len pb then on_heap_ (fun h => pbuf_realloc h p iphdr_len) else mret tt);
    pb ← get_pbuf p;
    if (p_len pb <? iphdr_hlen) || (p_tot_len pb <? iphdr_len) || (iphdr_hlen <? IP_HLEN)
    then _ ← pbuf_free_m p; mret ERR_OK
    else
      dest ← rd32 iphdr 16;
      src ← rd32 iphdr 12;
      _ ← modify_ip_data (set_ip_addrs (ip4_addr src) (ip4_addr dest));
      let netif := ip4_dest_netif n dest in
      if ip4_addr_isbroadcast_u32 src n || ip4_addr_ismulticast src
      then _ ← pbuf_free_m p; mret ERR_OK
      else if negb netif then _ ← pbuf_free_m p; mret ERR_OK
      else
        offset ← rd16 iphdr 6;
        if negb (Z.land offset (lwip_htons (Z.lor IP_OFFMASK IP_MF)) =? 0)
        then _ ← pbuf_free_m p; mret ERR_OK
        else if IP_HLEN <? iphdr_hlen then _ ← pbuf_free_m p; mret ERR_OK
        else
          _ ← modify_ip_data (fun d => mk_ip_globals true true (Some iphdr) (current_ip6_header d)
                iphdr_hlen (current_iphdr_src d) (current_iphdr_dest d));
          _ ← on_heap (fun h => pbuf_remove_header h p iphdr_hlen);
          _ ← ip4_dispatch p iphdr iphdr_hlen n dest;
          _ ← ip4_cleanup;
          mret ERR_OK.

(** ** IPv6 *)

Definition ip6_cleanup : M unit :=
  modify_ip_data (fun d => mk_ip_globals false false (current_ip4_header d) None 0
    (mk_ip_addr [0; 0; 0; 0] (ip_type (current_iphdr_src d)))
    (mk_ip_addr [0; 0; 0; 0] (ip_type (current_iphdr_dest d)))).

(** The packet is dropped: [false]. *)
Definition ip6_drop (p : ptr) : M bool := _ ← pbuf_free_m p; mret false.
Definition ip6_problem (p : ptr) (code : Z) (pointer : addr) : M bool :=
  _ ← icmp6_param_problem machine p code pointer; ip6_drop p.

(** The options of a hop-by-hop or destination header. *)
Fixpoint ip6_options (fuel : nat) (p : ptr) (hdr : addr) (hlen : Z) (destopts : bool) (opt_offset : Z) : M bool :=
  if opt_offset <? hlen then
    match fuel with
    | O => undef
    | S fuel =>
        type ← rd8 hdr opt_offset;
        let opt_hdr := mk_addr (a_block hdr) (a_off hdr + opt_offset) in
        let next (opt_dlen : Z) := ip6_options fuel p hdr hlen destopts (opt_offset + IP6_OPT_HLEN + opt_dlen) in
        let skip := dlen ← rd8 hdr (opt_offset + 1); next dlen in
        if type =? IP6_PAD1_OPTION then next (-1)
        else if (type =? IP6_PADN_OPTION) || (type =? IP6_ROUTER_ALERT_OPTION)
                || (type =? IP6_JUMBO_OPTION) || (destopts && (type =? IP6_HOME_ADDRESS_OPTION))
        then skip
        else
          let action := Z.land (Z.shiftr type 6) 0x3 in
          if action =? 1 then ip6_drop p
          else if action =? 2 then ip6_problem p ICMP6_PP_OPTION opt_hdr
          else if action =? 3 then
            d ← gets st_ip_data;
            if negb (ip6_addr_ismulticast (ip_2_ip6 (current_iphdr_dest d)))
            then ip6_problem p ICMP6_PP_OPTION opt_hdr else ip6_drop p
          else skip
    end
  else mret true.

Definition ip6_opt_header (p : ptr) (hdr : addr) (destopts : bool) : M (option Z) :=
  l ← rd8 hdr 1;
  let hlen := u16 (8 * (1 + l)) in
  pb ← get_pbuf p;
  if (p_len pb <? 8) || (p_len pb <? hlen) then _ ← ip6_drop p; mret None
  else
    ok ← ip6_options (Z.to_nat hlen) p hdr hlen destopts IP6_HBH_HLEN;
    if negb ok then mret None
    else _ ← on_heap (fun h => pbuf_remove_header h p hlen); mret (Some hlen).

Definition ip6_rout_header (p : ptr) (hdr : addr) : M (option Z) :=
  l ← rd8 hdr 1;
  let hlen := u16 (8 * (1 + l)) in
  pb ← get_pbuf p;
  if (p_len pb <? 8) || (p_len pb <? hlen) then _ ← ip6_drop p; mret None
  else
    seg_left ← rd8 hdr 3;
    ok ← (if negb (seg_left =? 0) then
            if negb (Z.land l 0x1 =? 0)
            then ip6_problem p ICMP6_PP_FIELD (mk_addr (a_block hdr) (a_off hdr + 1))
            else
              type ← rd8 hdr 2;
              if (type =? IP6_ROUT_TYPE2) || (type =? IP6_ROUT_RPL) then mret true
              else ip6_problem p ICMP6_PP_FIELD (mk_addr (a_block hdr) (a_off hdr + 2))
          else mret true);
    if negb ok then mret None
    else _ ← on_heap (fun h => pbuf_remove_header h p hlen); mret (Some hlen).

Definition ip6_frag_header (p : ptr) (ip6hdr hdr : addr) : M (option Z) :=
  pb ← get_pbuf p;
  let hlen := 8 in
  if p_len pb <? hlen then _ ← ip6_drop p; mret None
  else
    offset ← rd16 hdr 2;
    plen ← rd16 ip6hdr 4;
    if negb (Z.land (lwip_htons offset) 0x1 =? 0) && negb (Z.land (lwip_htons plen) 0x7 =? 0)
    then _ ← ip6_problem p ICMP6_PP_FIELD (mk_addr (a_block ip6hdr) (a_off ip6hdr + 4)); mret None
    else if Z.land offset (lwip_htons (Z.lor IP6_FRAG_OFFSET_MASK IP6_FRAG_MORE_FLAG)) =? 0
    then _ ← on_heap (fun h => pbuf_remove_header h p hlen); mret (Some hlen)
    else _ ← ip6_drop p; mret None.

(** The extension headers: the address of the next-header field of the last one and
    the total header length, unless the packet was dropped. *)
Fixpoint ip6_headers (fuel : nat) (p : ptr) (ip6hdr nexth : addr) (hlen_tot : Z) : M (option (addr * Z)) :=
  v ← rd8 nexth 0;
  if v =? IP6_NEXTH_NONE then mret (Some (nexth, hlen_tot))
  else
    match fuel with
    | O => undef
    | S fuel =>
        hdr ← payload p;
        let continue (r : option Z) : M (option (addr * Z)) :=
          match r with
          | None => mret None
          | Some hlen =>
              v ← rd8 hdr 0;
              if v =? IP6_NEXTH_HOPBYHOP
              then _ ← ip6_problem p ICMP6_PP_HEADER hdr; mret None
              else ip6_headers fuel p ip6hdr hdr (u16 (hlen_tot + hlen))
          end in
        if v =? IP6_NEXTH_HOPBYHOP then r ← ip6_opt_header p hdr false; continue r
        else if v =? IP6_NEXTH_DESTOPTS then r ← ip6_opt_header p hdr true; continue r
        else if v =? IP6_NEXTH_ROUTING then r ← ip6_rout_header p hdr; continue r
        else if v =? IP6_NEXTH_FRAGMENT then r ← ip6_frag_header p ip6hdr hdr; continue r
        else mret (Some (nexth, hlen_tot))
    end.

Definition ip6_dispatch (p : ptr) (ip6hdr nexth : addr) (hlen_tot : Z) : M unit :=
  v ← rd8 nexth 0;
  if v =? IP6_NEXTH_NONE then pbuf_free_m p
  else if v =? IP6_NEXTH_UDP then udp_input machine p
  else if v =? IP6_NEXTH_TCP then tcp_input p
  else if v =? IP6_NEXTH_ICMP6 then icmp6_input machine nd6_input p
  else
    _ ← on_heap (fun h => pbuf_add_header_force h p hlen_tot);
    d ← gets st_ip_data;
    first ← rd8 ip6hdr 6;
    _ ← (if negb (ip6_addr_ismulticast (ip_2_ip6 (current_iphdr_dest d))) && negb (first =? IP6_NEXTH_ICMP6)
         then icmp6_param_problem machine p ICMP6_PP_HEADER nexth else mret tt);
    pbuf_free_m p.

(** The part between the header's addresses and the clean-up. *)
Definition ip6_process (p : ptr) (ip6hdr : addr) : M unit :=
  d ← gets st_ip_data;
  n ← gets st_netif;
  let src := ip_2_ip6 (current_iphdr_src d) in
  let dest := ip_2_ip6 (current_iphdr_dest d) in
  let netif := ip6_dest_netif n dest in
  if ip6_addr_isany src && negb (ip6_addr_issolicitednode dest) then pbuf_free_m p
  else if negb netif then pbuf_free_m p
  else
    _ ← modify_ip_data (fun d => mk_ip_globals true (current_input_netif d) (current_ip4_header d)
          (current_ip6_header d) (current_ip_header_tot_len d) (current_iphdr_src d) (current_iphdr_dest d));
    _ ← on_heap (fun h => pbuf_remove_header h p IP6_HLEN);
    pb ← get_pbuf p;
    r ← ip6_headers (S (Z.to_nat (p_tot_len pb))) p ip6hdr (mk_addr (a_block ip6hdr) (a_off ip6hdr + 6)) IP6_HLEN;
    match r with
    | None => mret tt
    | Some (nexth, hlen_tot) =>
        _ ← modify_ip_data (fun d => mk_ip_globals (current_netif d) (current_input_netif d)
              (current_ip4_header d) (current_ip6_header d) hlen_tot (current_iphdr_src d) (current_iphdr_dest d));
        ip6_dispatch p ip6hdr nexth hlen_tot
    end.

Definition ip6_input (p : ptr) : M err_t :=
  ip6hdr ← payload p;
  v_tc_fl ← rd32 ip6hdr 0;
  if negb (Z.land (Z.shiftr (lwip_htonl v_tc_fl) 28) 0x0f =? 6) then _ ← pbuf_free_m p; mret ERR_OK
  else
    pb ← get_pbuf p;
    if p_len pb <? IP6_HLEN then _ ← pbuf_free_m p; mret ERR_OK
    else
      plen ← rd16 ip6hdr 4;
      if p_tot_len pb - IP6_HLEN <? lwip_htons plen then _ ← pbuf_free_m p; mret ERR_OK
      else
        _ ← on_heap_ (fun h => pbuf_realloc h p (u16 (IP6_HLEN + lwip_htons plen)));
        dest ← rd_ip6 ip6hdr 24;
        src ← rd_ip6 ip6hdr 8;
        _ ← modify_ip_data (set_ip_addrs (ip6_addr src) (ip6_addr dest));
        if ip6_addr_isipv4mappedipv6 dest || ip6_addr_isipv4mappedipv6 src || ip6_addr_ismulticast src
        then _ ← pbuf_free_m p; mret ERR_OK
        else
          _ ← modify_ip_data (fun d => mk_ip_globals true true (current_ip4_header d) (Some ip6hdr)
                (current_ip_header_tot_len d) (current_iphdr_src d) (current_iphdr_dest d));
          _ ← ip6_process p ip6hdr;
          _ ← ip6_cleanup;
          mret ERR_OK.

(** [ip_input]: the version decides. *)
Definition ip_input (p : option ptr) : M err_t :=
  match p with
  | None => mret ERR_VAL
  | Some p =>
      a ← payload p;
      b ← rd8 a 0;
      if Z.shiftr b 4 =? 6 then ip6_input p else ip4_input p
  end.
End input.
