(* ===== verification/Netif.v ===== *)
(** * The interface ([netif.c])

    Adding, configuring and removing the single interface. What TCP and neighbour
    discovery do when an address changes or the interface goes down are parameters. *)
From Stdlib Require Import ZArith Lia.
From stdpp Require Import base list option numbers gmap.
From S2P Require Import Prelude Pbuf Chksum Lwip IpOut Icmp Udp.

Definition LWIP_IPV6_NUM_ADDRESSES : nat := 3.
Definition LWIP_ND6_MAX_MULTICAST_SOLICIT : Z := 3.

(** ** Field updates *)

Definition n_set_ip (a : ip_addr_t) (n : netif) : netif :=
  mk_netif a (n_netmask n) (n_gw n) (n_ip6_addr n) (n_ip6_addr_state n) (n_input n) (n_output n)
    (n_output_ip6 n) (n_mtu n) (n_mtu6 n) (n_flags n) (n_name n) (n_num n) (n_rs_count n).
Definition n_set_netmask (a : ip_addr_t) (n : netif) : netif :=
  mk_netif (n_ip_addr n) a (n_gw n) (n_ip6_addr n) (n_ip6_addr_state n) (n_input n) (n_output n)
    (n_output_ip6 n) (n_mtu n) (n_mtu6 n) (n_flags n) (n_name n) (n_num n) (n_rs_count n).
Definition n_set_gw (a : ip_addr_t) (n : netif) : netif :=
  mk_netif (n_ip_addr n) (n_netmask n) a (n_ip6_addr n) (n_ip6_addr_state n) (n_input n) (n_output n)
    (n_output_ip6 n) (n_mtu n) (n_mtu6 n) (n_flags n) (n_name n) (n_num n) (n_rs_count n).
Definition n_set_ip6 (addrs : list ip_addr_t) (states : list Z) (n : netif) : netif :=
  mk_netif (n_ip_addr n) (n_netmask n) (n_gw n) addrs states (n_input n) (n_output n)
    (n_output_ip6 n) (n_mtu n) (n_mtu6 n) (n_flags n) (n_name n) (n_num n) (n_rs_count n).
Definition n_set_flags (f : Z) (n : netif) : netif :=
  mk_netif (n_ip_addr n) (n_netmask n) (n_gw n) (n_ip6_addr n) (n_ip6_addr_state n) (n_input n)
    (n_output n) (n_output_ip6 n) (n_mtu n) (n_mtu6 n) f (n_name n) (n_num n) (n_rs_count n).
Definition n_set_mtu6 (m : Z) (n : netif) : netif :=
  mk_netif (n_ip_addr n) (n_netmask n) (n_gw n) (n_ip6_addr n) (n_ip6_addr_state n) (n_input n)
    (n_output n) (n_output_ip6 n) (n_mtu n) m (n_flags n) (n_name n) (n_num n) (n_rs_count n).
Definition modify_netif (f : netif -> netif) : M unit := modify (fun s => set_netif (f (st_netif s)) s).

(** [nd6_restart_netif] *)
Definition nd6_restart_netif : M unit :=
  modify_netif (fun n => mk_netif (n_ip_addr n) (n_netmask n) (n_gw n) (n_ip6_addr n) (n_ip6_addr_state n)
    (n_input n) (n_output n) (n_output_ip6 n) (n_mtu n) (n_mtu6 n) (n_flags n) (n_name n) (n_num n)
    LWIP_ND6_MAX_MULTICAST_SOLICIT).

Section netif.
Variable tcp_netif_ip_addr_changed : ip_addr_t -> option ip_addr_t -> M unit.
Variable nd6_cleanup_netif : M unit.

Definition netif_do_ip_addr_changed (old_addr : ip_addr_t) (new_addr : option ip_addr_t) : M unit :=
  _ ← tcp_netif_ip_addr_changed old_addr new_addr;
  udp_netif_ip_addr_changed old_addr new_addr.

(** Whether the address changed. [netif_issue_reports] has nothing to announce: the
    interface has neither ARP nor multicast listening. *)
Definition netif_do_set_ipaddr (ipaddr : Z) : M bool :=
  n ← gets st_netif;
  if negb (ipaddr =? ip_2_ip4 (n_ip_addr n)) then
    _ ← netif_do_ip_addr_changed (n_ip_addr n) (Some (ip4_addr ipaddr));
    _ ← modify_netif (n_set_ip (ip4_addr ipaddr));
    mret true
  else mret false.

Definition netif_do_set_netmask (netmask : Z) : M bool :=
  n ← gets st_netif;
  if negb (netmask =? ip_2_ip4 (n_netmask n))
  then _ ← modify_netif (n_set_netmask (ip4_addr netmask)); mret true
  else mret false.

Definition netif_do_set_gw (gw : Z) : M bool :=
  n ← gets st_netif;
  if negb (gw =? ip_2_ip4 (n_gw n))
  then _ ← modify_netif (n_set_gw (ip4_addr gw)); mret true
  else mret false.

(** The address is set first when it is removed, last when it is new. *)
Definition netif_set_addr (ipaddr netmask gw : Z) : M unit :=
  let remove := ip4_addr_isany ipaddr in
  _ ← (if remove then netif_do_set_ipaddr ipaddr else mret false);
  _ ← netif_do_set_netmask netmask;
  _ ← netif_do_set_gw gw;
  _ ← (if negb remove then netif_do_set_ipaddr ipaddr else mret false);
  mret tt.

(** [init] is [tun_netif_init_fn], [input] [ip_input]; the interface is the only one
    ever added, so [netif_num] is 0. *)
Definition netif_add (ipaddr netmask gw : Z) (init : M err_t) : M bool :=
  d ← gets st_netif_default;
  if (d : bool) then undef
  else
    _ ← modify_netif (fun n => mk_netif IP4_ADDR_ANY IP4_ADDR_ANY IP4_ADDR_ANY
          (replicate LWIP_IPV6_NUM_ADDRESSES IP6_ADDR_ANY)
          (replicate LWIP_IPV6_NUM_ADDRESSES IP6_ADDR_INVALID)
          (n_input n) netif_null_output_ip4_fn netif_null_output_ip6_fn 0 (n_mtu6 n) 0 (n_name n)
          (n_num n) (n_rs_count n));
    _ ← nd6_restart_netif;
    _ ← modify_netif (fun n => mk_netif (n_ip_addr n) (n_netmask n) (n_gw n) (n_ip6_addr n)
          (n_ip6_addr_state n) (Some ip_input_fn) (n_output n) (n_output_ip6 n) (n_mtu n) (n_mtu6 n)
          (n_flags n) (n_name n) 0 (n_rs_count n));
    _ ← netif_set_addr ipaddr netmask gw;
    e ← init;
    if negb (bool_decide (e = ERR_OK)) then mret false
    else _ ← modify_netif (fun n => n_set_mtu6 (n_mtu n) n); mret true.

Definition netif_set_default (b : bool) : M unit := modify (set_netif_default b).

Definition netif_set_up : M unit :=
  n ← gets st_netif;
  if negb (netif_is_up n) then
    _ ← modify_netif (n_set_flags (u8 (Z.lor (n_flags n) NETIF_FLAG_UP)));
    nd6_restart_netif
  else mret tt.

Definition netif_set_down : M unit :=
  n ← gets st_netif;
  if netif_is_up n then
    _ ← modify_netif (n_set_flags (Z.land (n_flags n) (u8 (Z.lnot NETIF_FLAG_UP))));
    nd6_cleanup_netif
  else mret tt.

Definition netif_ip6_addr_set (addr_idx : nat) (a : list Z) : M unit :=
  n ← gets st_netif;
  match n_ip6_addr n !! addr_idx, n_ip6_addr_state n !! addr_idx with
  | Some old_addr, Some state =>
      if negb (ip6_addr_zoneless_eq (ip_2_ip6 old_addr) a) then
        _ ← (if ip6_addr_isvalid state then netif_do_ip_addr_changed old_addr (Some (ip6_addr a)) else mret tt);
        modify_netif (fun n => n_set_ip6 (<[addr_idx := ip6_addr a]> (n_ip6_addr n)) (n_ip6_addr_state n) n)
      else mret tt
  | _, _ => undef
  end.

Definition netif_ip6_addr_set_state (addr_idx : nat) (state : Z) : M unit :=
  n ← gets st_netif;
  match n_ip6_addr n !! addr_idx, n_ip6_addr_state n !! addr_idx with
  | Some a, Some old_state =>
      if negb (old_state =? state) then
        _ ← (if ip6_addr_isvalid old_state && negb (ip6_addr_isvalid state)
             then netif_do_ip_addr_changed a None else mret tt);
        modify_netif (fun n => n_set_ip6 (n_ip6_addr n) (<[addr_idx := state]> (n_ip6_addr_state n)) n)
      else mret tt
  | _, _ => undef
  end.

Definition netif_remove : M unit :=
  n ← gets st_netif;
  _ ← (if negb (ip4_addr_isany (ip_2_ip4 (n_ip_addr n)))
       then netif_do_ip_addr_changed (n_ip_addr n) None else mret tt);
  _ ← foldl (fun m x => _ ← m;
               if ip6_addr_isvalid x.2 then netif_do_ip_addr_changed x.1 None else mret tt)
        (mret tt) (netif_ip6 n);
  n ← gets st_netif;
  _ ← (if netif_is_up n then netif_set_down else mret tt);
  d ← gets st_netif_default;
  if (d : bool) then netif_set_default false else mret tt.
End netif.
