(* ===== verification/Bridge.v ===== *)
(** * The bridge ([lwip_bridge.c])

    Starting and stopping the stack, packets from the interface, UDP datagrams from
    the application. The parts of lwIP that the development does not model (the TCP
    control blocks, neighbour discovery) are parameters. *)
From Stdlib Require Import ZArith Lia.
From stdpp Require Import base list option numbers gmap.
From S2P Require Import Prelude Pbuf Chksum Lwip IpOut Icmp Udp IpIn Netif.

(** [lwip_init]: the modules that have something to set up. The memory pools are as the
    program's start left them, the other modules' functions are empty here. *)
Definition lwip_init (rand : Z) (tcp_init sys_timeouts_init : M unit) : M unit :=
  _ ← udp_init rand;
  _ ← tcp_init;
  sys_timeouts_init.

Section bridge.
Context `{Malloc}.
Variable machine : addr -> Z.
Variable tcp_input : ptr -> M unit.
Variable nd6_input : ptr -> M unit.
Variable nd6_cleanup_netif : M unit.
Variable tcp_netif_ip_addr_changed : ip_addr_t -> option ip_addr_t -> M unit.
(** The call of [lwip_init], the creation of the TCP listeners, [lwip_bridge_abort_all_tcp] and the
    closing of the listeners. *)
Variable call_lwip_init : M unit.
Variable open_tcp_listeners : M unit.
Variable lwip_bridge_abort_all_tcp : M unit.
Variable close_tcp_listeners : M unit.

Definition modify_bridge (f : bridge -> bridge) : M unit := modify (fun s => set_bridge (f (st_bridge s)) s).

Definition set_udp_dst (port : Z) (ip : ip_addr_t) (b : bridge) : bridge :=
  mk_bridge (s_output_fn b) (s_tcp_accept_fn b) (s_tcp_recv_fn b) (s_tcp_sent_fn b) (s_tcp_err_fn b)
    (s_udp_recv_fn b) (udp_listen_pcb_v4 b) (udp_listen_pcb_v6 b) port ip (initialized b).
Definition set_udp_listen (v4 v6 : option ptr) (b : bridge) : bridge :=
  mk_bridge (s_output_fn b) (s_tcp_accept_fn b) (s_tcp_recv_fn b) (s_tcp_sent_fn b) (s_tcp_err_fn b)
    (s_udp_recv_fn b) v4 v6 (s_current_udp_dst_port b) (s_current_udp_dst_ip b) (initialized b).
Definition set_initialized (b : bridge) : bridge :=
  mk_bridge (s_output_fn b) (s_tcp_accept_fn b) (s_tcp_recv_fn b) (s_tcp_sent_fn b) (s_tcp_err_fn b)
    (s_udp_recv_fn b) (udp_listen_pcb_v4 b) (udp_listen_pcb_v6 b) (s_current_udp_dst_port b)
    (s_current_udp_dst_ip b) true.

(** The six setters, all with the functions of [lwip_jni_bridge.c] or all NULL. *)
Definition lwip_bridge_set_fns (on : bool) : M unit :=
  modify_bridge (fun b => mk_bridge on on on on on on (udp_listen_pcb_v4 b) (udp_listen_pcb_v6 b)
    (s_current_udp_dst_port b) (s_current_udp_dst_ip b) (initialized b)).

Definition tun_netif_init_fn : M err_t :=
  _ ← modify_netif (fun n => mk_netif (n_ip_addr n) (n_netmask n) (n_gw n) (n_ip6_addr n)
        (n_ip6_addr_state n) (n_input n) netif_output_ip4_fn netif_bridge_output_ip6_fn 1500 (n_mtu6 n)
        (Z.lor NETIF_FLAG_UP NETIF_FLAG_LINK_UP) [116; 110] (n_num n) (n_rs_count n));
  mret ERR_OK.

(** ** Start and stop *)

Definition open_udp_listener (v6 : bool) : M (option ptr) :=
  r ← (if v6 then udp_new_ip_type IPADDR_TYPE_V6 else udp_new);
  match r with
  | None => mret None
  | Some p =>
      _ ← udp_bind p (if v6 then IP6_ADDR_ANY else IP4_ADDR_ANY) 0;
      pcb ← get_pcb p;
      _ ← put_pcb p (pcb_set_local (u_local_ip pcb) 0 pcb);
      _ ← udp_recv p (Some udp_recv_cb_fn) None;
      mret (Some p)
  end.

Definition lwip_bridge_shutdown : M unit :=
  _ ← lwip_bridge_abort_all_tcp;
  _ ← close_tcp_listeners;
  b ← gets st_bridge;
  _ ← match udp_listen_pcb_v4 b with
      | Some p => _ ← udp_remove p; modify_bridge (fun b => set_udp_listen None (udp_listen_pcb_v6 b) b)
      | None => mret tt
      end;
  _ ← match udp_listen_pcb_v6 b with
      | Some p => _ ← udp_remove p; modify_bridge (fun b => set_udp_listen (udp_listen_pcb_v4 b) None b)
      | None => mret tt
      end;
  _ ← netif_set_down nd6_cleanup_netif;
  netif_remove tcp_netif_ip_addr_changed nd6_cleanup_netif.

Definition lwip_bridge_init : M unit :=
  b ← gets st_bridge;
  _ ← (if initialized b then lwip_bridge_shutdown else _ ← call_lwip_init; modify_bridge set_initialized);
  _ ← netif_add tcp_netif_ip_addr_changed 0 0 0 tun_netif_init_fn;
  _ ← netif_set_default true;
  _ ← netif_set_up;
  _ ← netif_ip6_addr_set tcp_netif_ip_addr_changed 0 [0; 0; 0; 0];
  _ ← netif_ip6_addr_set_state tcp_netif_ip_addr_changed 0 IP6_ADDR_VALID;
  _ ← open_tcp_listeners;
  v4 ← open_udp_listener false;
  _ ← modify_bridge (fun b => set_udp_listen v4 (udp_listen_pcb_v6 b) b);
  v6 ← open_udp_listener true;
  modify_bridge (fun b => set_udp_listen (udp_listen_pcb_v4 b) v6 b).

(** ** Packets from the interface *)

(** The destination of a UDP datagram is remembered for [udp_recv_cb]; [false] when the
    packet is not looked at further. *)
Definition capture_udp_dst (pkt : addr) (len : Z) : M bool :=
  b0 ← rd8 pkt 0;
  let version := Z.land (Z.shiftr b0 4) 0x0F in
  if (version =? 4) && (20 <=? len) then
    proto ← rd8 pkt 9;
    let ihl := u8 (Z.land b0 0x0F * 4) in
    if (proto =? 17) && (ihl + 8 <=? len) then
      hi ← rd8 pkt (ihl + 2);
      lo ← rd8 pkt (ihl + 3);
      dst4 ← rd32 pkt 16;
      _ ← modify_bridge (set_udp_dst (u16 (Z.lor (Z.shiftl hi 8) lo)) (ip4_addr dst4));
      mret true
    else mret true
  else if (version =? 6) && (40 <=? len) then
    proto ← rd8 pkt 6;
    if (proto =? 17) && (48 <=? len) then
      hi ← rd8 pkt 42;
      lo ← rd8 pkt 43;
      dst6 ← rd_ip6 pkt 24;
      _ ← modify_bridge (set_udp_dst (u16 (Z.lor (Z.shiftl hi 8) lo)) (ip6_addr dst6));
      mret true
    else mret true
  else mret false.

(** [tun_netif.input] *)
Definition call_netif_input (p : ptr) : M err_t :=
  n ← gets st_netif;
  match n_input n with
  | Some ip_input_fn => ip_input machine tcp_input nd6_input (Some p)
  | None => undef
  end.

Definition lwip_bridge_input (data : option addr) (len : Z) : M unit :=
  match data with
  | None => mret tt
  | Some data =>
      if len <=? 0 then mret tt
      else
        ok ← capture_udp_dst data len;
        if negb ok then mret tt
        else
          p ← on_heap (fun h => pbuf_alloc_reference h (Some data) (u16 len) PBUF_REF);
          match p with
          | None => mret tt
          | Some p =>
              input_err ← call_netif_input p;
              if negb (bool_decide (input_err = ERR_OK)) then pbuf_free_m p else mret tt
          end
  end.

(** ** Datagrams from the application *)

Definition bytes_to_ip_addr (bytes : addr) (is_ipv6 : bool) : M ip_addr_t :=
  if is_ipv6 then ws ← rd_ip6 bytes 0; mret (ip6_addr ws) else w ← rd32 bytes 0; mret (ip4_addr w).

Definition lwip_bridge_udp_sendto (src_ip_bytes : addr) (src_port : Z) (dst_ip_bytes : addr)
    (dst_port : Z) (is_ipv6 : bool) (data : option addr) (len : Z) : M unit :=
  match data with
  | None => mret tt
  | Some data =>
      if len <=? 0 then mret tt
      else
        src_addr ← bytes_to_ip_addr src_ip_bytes is_ipv6;
        dst_addr ← bytes_to_ip_addr dst_ip_bytes is_ipv6;
        pcb ← udp_new_ip_type (if is_ipv6 then IPADDR_TYPE_V6 else IPADDR_TYPE_V4);
        match pcb with
        | None => mret tt
        | Some pcb =>
            bind_err ← udp_bind pcb src_addr src_port;
            if negb (bool_decide (bind_err = ERR_OK)) then udp_remove pcb
            else
              p ← alloc_ram PBUF_TRANSPORT (u16 len);
              match p with
              | None => udp_remove pcb
              | Some p =>
                  a ← payload p;
                  _ ← on_heap_ (fun h => bs ← mem_read h data 0 len; mem_write h a 0 bs);
                  _ ← udp_sendto_if_src machine pcb p dst_addr dst_port src_addr;
                  _ ← pbuf_free_m p;
                  udp_remove pcb
              end
        end
  end.
End bridge.
