(* ===== verification/LwipRun.v ===== *)
(** * Executing code of the IP stack symbolically

    Equations for the primitives of the monad on states whose relevant parts are known,
    and the tactic [mstep] that takes one statement. *)
From Stdlib Require Import ZArith Lia.
From stdpp Require Import base list option numbers gmap.
From S2P Require Import Prelude Pbuf PbufChain PbufRead PbufFree PbufWrite Chksum ChksumProofs Lwip IpOut Icmp Udp.

Lemma run_bind {A B} (m : M A) (k : A -> M B) s a s' :
  m s = Done (a, s') -> (m ≫= k) s = k a s'.
Proof. intros Hm. unfold mbind, M_bind. by rewrite Hm. Qed.

(** The same for a run that is only claimed to exist. *)
Lemma run_bind_ex {A B} (m : M A) (k : A -> M B) s a s1 (b : B) (Q : stack -> Prop) :
  m s = Done (a, s1) -> (exists s', k a s1 = Done (b, s') /\ Q s') -> exists s', (m ≫= k) s = Done (b, s') /\ Q s'.
Proof. intros Hm. by rewrite (run_bind _ _ _ _ _ Hm). Qed.

Lemma run_get_pbuf p pb s : h_pbufs (st_heap s) !! p = Some pb -> get_pbuf p s = Done (pb, s).
Proof. intros Hp. unfold get_pbuf, ask_heap. by rewrite (get_stored _ _ _ Hp). Qed.

Lemma run_payload p pb a s :
  h_pbufs (st_heap s) !! p = Some pb -> p_payload pb = Some a -> payload p s = Done (a, s).
Proof.
  intros Hp Ha. unfold payload. rewrite (run_bind _ _ _ _ _ (run_get_pbuf _ _ _ Hp)), Ha. done.
Qed.

Lemma run_on_heap {A} (f : heap -> outcome (A * heap)) a h s :
  f (st_heap s) = Done (a, h) -> on_heap f s = Done (a, set_heap h s).
Proof. intros Hf. unfold on_heap. by rewrite Hf. Qed.

Lemma run_on_heap_ (f : heap -> outcome heap) h s :
  f (st_heap s) = Done h -> on_heap_ f s = Done (tt, set_heap h s).
Proof. intros Hf. unfold on_heap_. by rewrite Hf. Qed.

Lemma run_ask_heap {A} (f : heap -> outcome A) a s : f (st_heap s) = Done a -> ask_heap f s = Done (a, s).
Proof. intros Hf. unfold ask_heap. by rewrite Hf. Qed.

Lemma run_lift {A} (m : outcome A) a s : m = Done a -> lift m s = Done (a, s).
Proof. by intros ->. Qed.

Lemma run_assert b s : b = true -> lwip_assert_m b s = Done (tt, s).
Proof. by intros ->. Qed.

Lemma run_if {A} (b : bool) (m1 m2 : M A) s :
  (if b then m1 else m2) s = if b then m1 s else m2 s.
Proof. by destruct b. Qed.

(** ** Headers in memory *)

(** The memory at [a] holds the bytes [d]. *)
Definition bytes_at (h : heap) (a : addr) (d : list Z) : Prop :=
  exists pre post, h_mem h !! a_block a = Some (pre ++ map Some d ++ post) /\ zlen pre = a_off a.

Lemma slice_zlen {A} off n (d : list A) : 0 <= off -> 0 <= n -> off + n <= zlen d -> zlen (slice off n d) = n.
Proof. intros. unfold slice. rewrite zlen_ztake_min, zlen_zdrop by lia. lia. Qed.

Lemma mem_read_at h a d off n :
  bytes_at h a d -> 0 <= off -> 0 <= n -> off + n <= zlen d -> mem_read h a off n = Done (slice off n d).
Proof.
  intros (pre & post & Hm & Hpre) Ho Hn Hlen. unfold mem_read. rewrite Hm.
  apply (load_bytes_sub _ (a_off a) (zlen d) d); [|done..]. by apply load_bytes_middle.
Qed.

Lemma run_rd s a d off n :
  bytes_at (st_heap s) a d -> 0 <= off -> 0 <= n -> off + n <= zlen d ->
  rd a off n s = Done (le_combine (slice off n d), s).
Proof.
  intros Ha Ho Hn Hlen. unfold rd. apply run_ask_heap. by rewrite (mem_read_at _ _ d).
Qed.

Lemma read_payload_at h pb a d n :
  p_payload pb = Some a -> bytes_at h a d -> 0 <= n <= zlen d -> read_payload h pb 0 n = Done (ztake n d).
Proof.
  intros Ha (pre & post & Hm & Hpre) Hn. unfold read_payload. rewrite Ha, Hm.
  rewrite (load_bytes_sub _ (a_off a) (zlen d) d 0 n); [by rewrite zdrop_nonpos| |lia..].
  by apply load_bytes_middle.
Qed.

Lemma bytes_at_sub h a d d1 d2 off :
  bytes_at h a d -> d = d1 ++ d2 -> off = zlen d1 -> bytes_at h (mk_addr (a_block a) (a_off a + off)) d2.
Proof.
  intros (pre & post & Hm & Hpre) -> ->. exists (pre ++ map Some d1), post. cbn [a_block a_off].
  rewrite Hm, map_app, <-!app_assoc, zlen_app, zlen_map. by rewrite Hpre.
Qed.

Lemma bytes_at_prefix h a d1 d2 : bytes_at h a (d1 ++ d2) -> bytes_at h a d1.
Proof.
  intros (pre & post & Hm & Hpre). exists pre, (map Some d2 ++ post).
  by rewrite Hm, map_app, <-!app_assoc.
Qed.

(** Updates of buffers leave the memory alone. *)
Lemma bytes_at_put h p pb a d : bytes_at (put h p pb) a d <-> bytes_at h a d.
Proof. done. Qed.

(** ** One statement *)

Lemma run_rd8 s a d off : bytes_at (st_heap s) a d -> 0 <= off -> off + 1 <= zlen d ->
  rd8 a off s = Done (le_combine (slice off 1 d), s).
Proof. intros. apply run_rd; [done|lia..]. Qed.
Lemma run_rd16 s a d off : bytes_at (st_heap s) a d -> 0 <= off -> off + 2 <= zlen d ->
  rd16 a off s = Done (le_combine (slice off 2 d), s).
Proof. intros. apply run_rd; [done|lia..]. Qed.
Lemma run_rd32 s a d off : bytes_at (st_heap s) a d -> 0 <= off -> off + 4 <= zlen d ->
  rd32 a off s = Done (le_combine (slice off 4 d), s).
Proof. intros. apply run_rd; [done|lia..]. Qed.

Ltac mbind_with lem := eapply eq_trans; [eapply run_bind; lem | cbv beta iota].
Ltac ebind_with lem := eapply run_bind_ex; [lem | cbv beta iota].

(** Statements that compute, reads of known buffers, and heap operations with the
    equation at hand. *)
Ltac mstep :=
  lazymatch goal with
  | |- (gets _ ≫= _) _ = _ => mbind_with ltac:(reflexivity)
  | |- (modify _ ≫= _) _ = _ => mbind_with ltac:(reflexivity)
  | |- (mret _ ≫= _) _ = _ => mbind_with ltac:(reflexivity)
  | |- (get_pbuf _ ≫= _) _ = _ => mbind_with ltac:(eapply run_get_pbuf; eassumption)
  | |- (payload _ ≫= _) _ = _ => mbind_with ltac:(eapply run_payload; [eassumption | reflexivity])
  end.

(** A field of which the bytes are known *)
Lemma slice_bounds {A} off n (d bs : list A) :
  0 <= off -> slice off n d = bs -> zlen bs = n -> 0 < n -> off + n <= zlen d.
Proof.
  intros Ho <- Hl Hn. unfold slice in Hl. destruct (Z.le_gt_cases off (zlen d)) as [H|H].
  - rewrite zlen_ztake_min, zlen_zdrop in Hl by lia. lia.
  - rewrite zdrop_all, ztake_nil in Hl by lia. change (zlen []) with 0 in Hl. lia.
Qed.

Lemma run_rd_slice s a d off n bs :
  bytes_at (st_heap s) a d -> 0 <= off -> slice off n d = bs -> zlen bs = n -> 0 < n ->
  rd a off n s = Done (le_combine bs, s).
Proof.
  intros Ha Ho Hs Hl Hn. pose proof (slice_bounds _ _ _ _ Ho Hs Hl Hn).
  rewrite <-Hs. apply run_rd; [done|lia..].
Qed.

(** A statement that computes. *)
Ltac mdo := mbind_with ltac:(reflexivity).

(** A field of the header of which the memory is known by [Hb]. *)
Ltac mfield off n bs Hb :=
  mbind_with ltac:(eapply (run_rd_slice _ _ _ off n bs);
    [exact Hb | done | first [reflexivity | by (repeat match goal with E : _ = cons _ _ |- _ => rewrite E end)]
    | first [reflexivity | done] | done]).

(** Releasing a single buffer *)
Lemma run_free_single s p pb :
  h_pbufs (st_heap s) !! p = Some pb -> p_next pb = None -> p_ref pb = 1 -> 0 <= alloc_src pb <= 2 ->
  pbuf_free_m p s = Done (tt, set_heap (freed (st_heap s) [(p, pb)]) s).
Proof.
  intros Hp Hn Hr Ha. unfold pbuf_free_m.
  assert (pbuf_free (st_heap s) (Some p) = Done (1, freed (st_heap s) [(p, pb)])) as Hfree.
  { rewrite (free_spec (st_heap s) p [(p, pb)]).
    - unfold ones. by rewrite Hr.
    - done.
    - by constructor.
    - constructor; [|constructor]. cbn. rewrite Hr. lia. }
  by rewrite (run_bind _ _ _ _ _ (run_on_heap _ _ _ _ Hfree)).
Qed.

Lemma freed_single h p pb :
  p_ref pb = 1 ->
  freed h [(p, pb)] =
  mk_heap (delete p (h_pbufs h)) (if alloc_src pb =? 1 then h_mem h else delete p (h_mem h)) (h_fresh h)
    (if alloc_src pb =? 1 then S (h_memp_pbuf h) else h_memp_pbuf h)
    (if alloc_src pb =? 2 then S (h_memp_pool h) else h_memp_pool h).
Proof.
  intros Hr. unfold freed, ones, after_ones, of_src. rewrite Hr. cbn.
  by destruct (alloc_src pb =? 1), (alloc_src pb =? 2).
Qed.

(** Big-endian fields *)
Lemma htons_wire n : fits 16 n -> lwip_htons (le_combine (be16 n)) = n.
Proof.
  unfold fits, be16. intros Hn.
  replace (le_combine [n / 256; n mod 256]) with (n / 256 + 256 * (n mod 256)) by (cbn; lia).
  rewrite swap_htons, swap_value by (unfold fits; div_lia). div_lia.
Qed.

Lemma htons_split n : fits 16 n -> le_split 2 (lwip_htons n) = be16 n.
Proof.
  unfold fits, be16. intros Hn. rewrite swap_htons, swap_value by (unfold fits; lia).
  cbn [le_split]. f_equal; [|f_equal]; div_lia.
Qed.

Lemma mask_byte n k : 0 <= k -> Z.land n (2 ^ k * 255) = 2 ^ k * ((n / 2 ^ k) mod 256).
Proof.
  intros Hk. change 256 with (2 ^ 8). rewrite <-Z.land_ones by lia. change (Z.ones 8) with 255.
  rewrite <-Z.shiftr_div_pow2, !(Z.mul_comm (2 ^ k)), <-!Z.shiftl_mul_pow2 by done.
  apply Z.bits_inj'. intros i Hi. rewrite !Z.land_spec, !Z.shiftl_spec by done.
  destruct (Z.lt_ge_cases i k) as [Hlt|Hge].
  - rewrite !(Z.testbit_neg_r _ (i - k)) by lia. apply andb_false_r.
  - rewrite Z.land_spec, Z.shiftr_spec by lia. by replace (i - k + k) with i by lia.
Qed.

Lemma htonl_bytes a b c d :
  is_byte a -> is_byte b -> is_byte c -> is_byte d ->
  lwip_htonl (le_combine [a; b; c; d]) = le_combine [d; c; b; a].
Proof.
  unfold is_byte. intros Ha Hb Hc Hd. set (n := le_combine [a; b; c; d]). unfold lwip_htonl.
  pose proof (mask_byte n 0) as M0. pose proof (mask_byte n 8) as M1.
  pose proof (mask_byte n 16) as M2. pose proof (mask_byte n 24) as M3.
  change (2 ^ 0 * 255) with 0xff in M0. change (2 ^ 8 * 255) with 0xff00 in M1.
  change (2 ^ 16 * 255) with 0xff0000 in M2. change (2 ^ 24 * 255) with 0xff000000 in M3.
  rewrite M0, M1, M2, M3 by lia.
  assert ((n / 2 ^ 0) mod 256 = a) as -> by (subst n; cbn [le_combine]; div_lia).
  assert ((n / 2 ^ 8) mod 256 = b) as -> by (subst n; cbn [le_combine]; div_lia).
  assert ((n / 2 ^ 16) mod 256 = c) as -> by (subst n; cbn [le_combine]; div_lia).
  assert ((n / 2 ^ 24) mod 256 = d) as -> by (subst n; cbn [le_combine]; div_lia).
  rewrite !Z.shiftl_mul_pow2, !Z.shiftr_div_pow2 by done.
  rewrite !wrap_small by (unfold fits; lia).
  replace (2 ^ 0 * a * 2 ^ 24) with (2 ^ 24 * a) by lia. replace (2 ^ 8 * b * 2 ^ 8) with (2 ^ 16 * b) by lia.
  replace (2 ^ 16 * c / 2 ^ 8) with (2 ^ 8 * c) by div_lia. replace (2 ^ 24 * d / 2 ^ 24) with d by div_lia.
  rewrite (Z.lor_comm (2 ^ 24 * a)), (lor_shifted (2 ^ 16 * b) a 24) by lia.
  replace (2 ^ 16 * b + 2 ^ 24 * a) with (2 ^ 16 * (b + 256 * a)) by lia.
  rewrite (Z.lor_comm _ (2 ^ 8 * c)), lor_shifted by lia.
  replace (2 ^ 8 * c + 2 ^ 16 * (b + 256 * a)) with (2 ^ 8 * (c + 256 * (b + 256 * a))) by lia.
  rewrite (Z.lor_comm _ d), lor_shifted by lia. cbn [le_combine]. lia.
Qed.

(** * Building a packet in a buffer of its own

    A buffer from the heap is one block with room in front of the payload. The headers
    are written field by field into that room, so the block is followed as its cells. *)
From Stdlib Require Import ZArith Lia.
From stdpp Require Import base list option numbers gmap.
From S2P Require Import Prelude Pbuf PbufChain PbufRead PbufFree PbufWrite Chksum ChksumProofs Lwip IpOut Icmp Udp.

(** [h] with the buffer [p] and its block [m]. *)
Definition with_buf (h : heap) (p : ptr) (pb : pbuf) (m : block) : heap :=
  mk_heap (<[p := pb]> (h_pbufs h)) (<[p := m]> (h_mem h)) (h_fresh h) (h_memp_pbuf h) (h_memp_pool h).

Definition bump (h : heap) : heap :=
  mk_heap (h_pbufs h) (h_mem h) (Pos.succ (h_fresh h)) (h_memp_pbuf h) (h_memp_pool h).

(** A buffer of [n] bytes at offset [off] of its block. *)
Definition ram_pbuf (p : ptr) (off n : Z) : pbuf :=
  pbuf_init_alloced_pbuf (Some (mk_addr p off)) n n PBUF_RAM 0.

Lemma with_buf_pbuf h p pb m : h_pbufs (with_buf h p pb m) !! p = Some pb.
Proof. apply lookup_insert_eq. Qed.

Lemma with_buf_mem h p pb m : h_mem (with_buf h p pb m) !! p = Some m.
Proof. apply lookup_insert_eq. Qed.

Lemma put_with_buf h p pb m pb' : put (with_buf h p pb m) p pb' = with_buf h p pb' m.
Proof. unfold put, with_buf. cbn. by rewrite insert_insert_eq. Qed.

Lemma set_mem_with_buf h p pb m m' : set_mem (with_buf h p pb m) p m' = with_buf h p pb m'.
Proof. unfold set_mem, with_buf. cbn. by rewrite insert_insert_eq. Qed.

(** Writing into the cells [c] at the address. *)
Definition splice (c : block) (off : Z) (bs : list Z) : block :=
  ztake off c ++ map Some bs ++ zdrop (off + zlen bs) c.

Lemma mem_write_at h p pb pre c post off bs :
  0 <= off -> off + zlen bs <= zlen c ->
  mem_write (with_buf h p pb (pre ++ c ++ post)) (mk_addr p (zlen pre)) off bs
  = Done (with_buf h p pb (pre ++ splice c off bs ++ post)).
Proof.
  intros Ho Hl. unfold mem_write. cbn [a_block a_off]. rewrite with_buf_mem.
  pose proof (zlen_nonneg bs).
  assert (c = ztake off c ++ ztake (zlen bs) (zdrop off c) ++ zdrop (off + zlen bs) c) as Hc.
  { rewrite <-(zdrop_zdrop (zlen bs) off c) by lia. by rewrite !ztake_zdrop. }
  rewrite Hc at 1. rewrite <-!app_assoc, (app_assoc pre (ztake off c)).
  rewrite store_bytes_middle.
  - rewrite outcome_bind_done, set_mem_with_buf. unfold splice. by rewrite <-!app_assoc.
  - rewrite zlen_app, zlen_ztake by lia. done.
  - pose proof (zlen_ztake (zlen bs) (zdrop off c)) as Hz. rewrite zlen_zdrop in Hz by lia.
    specialize (Hz ltac:(lia)). unfold zlen in *. lia.
Qed.

Lemma splice_length c off bs : 0 <= off -> off + zlen bs <= zlen c -> zlen (splice c off bs) = zlen c.
Proof.
  intros Ho Hl. pose proof (zlen_nonneg bs). unfold splice.
  rewrite !zlen_app, zlen_ztake, zlen_zdrop, zlen_map by lia. lia.
Qed.

Lemma splice_splice c off a b :
  0 <= off -> off + zlen a + zlen b <= zlen c ->
  splice (splice c off a) (off + zlen a) b = splice c off (a ++ b).
Proof.
  intros Ho Hl. pose proof (zlen_nonneg a). pose proof (zlen_nonneg b).
  assert (zlen (ztake off c ++ map Some a) = off + zlen a) as Ht.
  { rewrite zlen_app, zlen_map, zlen_ztake; lia. }
  assert (splice c off a = (ztake off c ++ map Some a) ++ zdrop (off + zlen a) c) as Hs by by rewrite <-app_assoc.
  unfold splice at 1 3. rewrite Hs. set (L := ztake off c ++ map Some a) in *.
  rewrite (zdrop_app_ge _ L), zdrop_zdrop by lia.
  replace (ztake (off + zlen a) (L ++ zdrop (off + zlen a) c)) with L by (by rewrite <-Ht, ztake_app_zlen).
  rewrite Ht, map_app, (zlen_app a b). unfold L. rewrite <-!app_assoc. do 4 f_equal. lia.
Qed.

Lemma run_write h p pb pre c post off n v s bs c' :
  le_split n v = bs -> 0 <= off -> off + zlen bs <= zlen c -> splice c off bs = c' ->
  on_heap_ (fun h => mem_write h (mk_addr p (zlen pre)) off (le_split n v))
    (set_heap (with_buf h p pb (pre ++ c ++ post)) s)
  = Done (tt, set_heap (with_buf h p pb (pre ++ c' ++ post)) s).
Proof.
  intros -> Ho Hl <-. erewrite run_on_heap_; [reflexivity|]. by apply mem_write_at.
Qed.

Section alloc.
Context `{Malloc}.

(** The size of the block and the place of the payload. *)
Definition ram_offset (layer : pbuf_layer) : Z := MEM_ALIGN_SIZE (layer_offset layer).
Definition ram_size (layer : pbuf_layer) (n : Z) : Z := ram_offset layer + MEM_ALIGN_SIZE n.

Lemma alloc_ram_eq h layer n :
  0 <= n < 2 ^ 16 ->
  let p := h_fresh h in
  pbuf_alloc h layer n PBUF_RAM
  = Done (if malloc_grants p (ram_size layer n)
          then (Some p, with_buf (bump h) p (ram_pbuf p (ram_offset layer) n) (fresh_block (ram_size layer n)))
          else (None, h)).
Proof.
  intros Hn p. unfold ram_size, ram_offset.
  pose proof (mem_align_bounds n). pose proof (mem_align_bounds (layer_offset layer)).
  assert (0 <= layer_offset layer <= 74) as Hoff by (destruct layer; simpl; lia).
  unfold pbuf_alloc. rewrite (wrap_small 64 (_ + _)) by (unfold fits; lia).
  change (MEM_ALIGN_SIZE SIZEOF_STRUCT_PBUF) with 24.
  rewrite (wrap_small 64 (24 + _)) by (unfold fits; lia).
  rewrite (proj2 (Z.ltb_ge _ _)), (proj2 (Z.ltb_ge _ _)) by lia. cbn [orb].
  unfold mem_malloc. fold p. by destruct (malloc_grants p _).
Qed.
End alloc.

(** A header in front, as long as the total length fits. *)
Lemma run_add_header h p off n k m s :
  0 <= n -> 0 < k -> 0 <= off - k -> n < 2 ^ 16 -> k < 2 ^ 16 ->
  on_heap (fun h => pbuf_add_header h p k) (set_heap (with_buf h p (ram_pbuf p off n) m) s)
  = if n + k <? 2 ^ 16 then Done (0, set_heap (with_buf h p (ram_pbuf p (off - k) (n + k)) m) s)
    else Done (1, set_heap (with_buf h p (ram_pbuf p off n) m) s).
Proof.
  intros Hn Hk Ho Hlt Hk2.
  pose proof (add_header_spec (with_buf h p (ram_pbuf p off n) m) p (ram_pbuf p off n) (mk_addr p off) k) as Ha.
  rewrite (proj2 (Z.eqb_neq k 0)) in Ha by lia. cbn [a_off p_tot_len p_len ram_pbuf pbuf_init_alloced_pbuf a_block p_next p_type_internal p_flags p_ref p_if_idx] in Ha.
  rewrite (proj2 (Z.leb_le k off)), andb_true_r in Ha by lia.
  specialize (Ha ltac:(apply with_buf_pbuf) ltac:(done) ltac:(done) ltac:(lia) ltac:(lia) ltac:(lia)).
  destruct (n + k <? 2 ^ 16); (erewrite run_on_heap; [|exact Ha]); by rewrite ?put_with_buf.
Qed.

(** One field written with the bytes [bs] ([lem] says why): [c'] are the cells after it. *)
Ltac mwrite pre c post bs c' lem :=
  mbind_with ltac:(eapply (run_write _ _ _ pre c post _ _ _ _ bs c'); [lem | done | done | reflexivity]).

(** The same with the cells left as they are built. *)
Ltac mput pre post bs lem :=
  mbind_with ltac:(eapply (run_write _ _ _ pre _ post _ _ _ _ bs _); [lem | done | done | reflexivity]).
