(* ===== verification/UdpInProofs.v ===== *)
(** * What the UDP path of the bridge is about

    The bytes of UDP datagrams in IPv4 and IPv6 packets, and the state of a running
    stack: the interface with no address of its own, and the two wildcard control
    blocks of the bridge as the only ones. *)
From Stdlib Require Import ZArith Lia.
From stdpp Require Import base list option numbers gmap.
From S2P Require Import Prelude Pbuf PbufChain PbufRead PbufFree PbufWrite Chksum ChksumProofs Lwip IpOut Icmp Udp IpIn Netif Bridge LwipRun.

(** ** Packets *)

(** [len] and [csum] are the fields of the header. *)
Definition udp_datagram (sport dport len : Z) (csum payload : list Z) : list Z :=
  be16 sport ++ be16 dport ++ be16 len ++ csum ++ payload.

(** [frag] is the byte of the flags: 0x40 with "don't fragment", or 0. *)
Definition ip4_header (tos len id frag ttl proto : Z) (csum src dst : list Z) : list Z :=
  [0x45; tos] ++ be16 len ++ be16 id ++ [frag; 0; ttl; proto] ++ csum ++ src ++ dst.

(** [vtcfl] are the four bytes of version, class and flow. *)
Definition ip6_header (vtcfl : list Z) (plen nexth hl : Z) (src dst : list Z) : list Z :=
  vtcfl ++ be16 plen ++ [nexth; hl] ++ src ++ dst.

Definition is_addr4 (a : list Z) : Prop := are_bytes a /\ zlen a = 4.
Definition is_addr6 (a : list Z) : Prop := are_bytes a /\ zlen a = 16.

Lemma udp_datagram_length sport dport ulen csum payload :
  zlen csum = 2 -> zlen (udp_datagram sport dport ulen csum payload) = 8 + zlen payload.
Proof. intros Hc. unfold udp_datagram, be16. rewrite !zlen_app, Hc, !zlen_cons, (@zlen_nil Z). lia. Qed.

Lemma ip4_header_length tos len id frag ttl proto csum src dst :
  zlen csum = 2 -> zlen src = 4 -> zlen dst = 4 ->
  zlen (ip4_header tos len id frag ttl proto csum src dst) = IP_HLEN.
Proof. intros Hc Hs Hd. unfold ip4_header, be16. rewrite !zlen_app, Hc, Hs, Hd. reflexivity. Qed.

Lemma ip6_header_length vtcfl plen nexth hl src dst :
  zlen vtcfl = 4 -> zlen src = 16 -> zlen dst = 16 -> zlen (ip6_header vtcfl plen nexth hl src dst) = IP6_HLEN.
Proof. intros Hv Hs Hd. unfold ip6_header, be16. rewrite !zlen_app, Hv, Hs, Hd. reflexivity. Qed.

Lemma be16_bytes n : fits 16 n -> are_bytes (be16 n).
Proof. unfold fits. intros Hn. repeat constructor; unfold is_byte; div_lia. Qed.

(** The address as lwIP stores it. *)
Definition words_of (a : list Z) : list Z :=
  [le_combine (slice 0 4 a); le_combine (slice 4 4 a); le_combine (slice 8 4 a); le_combine (slice 12 4 a)].
Definition addr4 (a : list Z) : ip_addr_t := ip4_addr (le_combine a).
Definition addr6 (a : list Z) : ip_addr_t := ip6_addr (words_of a).

(** ** A running stack *)

Definition tun_netif (mtu6 rs_count : Z) : netif :=
  mk_netif IP4_ADDR_ANY IP4_ADDR_ANY IP4_ADDR_ANY [IP6_ADDR_ANY; IP6_ADDR_ANY; IP6_ADDR_ANY]
    [IP6_ADDR_VALID; IP6_ADDR_INVALID; IP6_ADDR_INVALID] (Some ip_input_fn) netif_output_ip4_fn
    netif_bridge_output_ip6_fn 1500 mtu6 (Z.lor NETIF_FLAG_UP NETIF_FLAG_LINK_UP) [116; 110] 0 rs_count.

Definition wildcard_pcb (type : Z) : udp_pcb :=
  mk_udp_pcb (mk_ip_addr [0; 0; 0; 0] type) (mk_ip_addr [0; 0; 0; 0] type) 0 0 0 UDP_TTL 0 0 0
    (Some udp_recv_cb_fn) None.

(** The wildcard blocks [v4] and [v6] are the only control blocks, in either order. *)
Record listening (s : stack) (v4 v6 : ptr) : Prop := {
  ls_v4 : udp_listen_pcb_v4 (st_bridge s) = Some v4;
  ls_v6 : udp_listen_pcb_v6 (st_bridge s) = Some v6;
  ls_ne : v4 <> v6;
  ls_store : udp_store (st_udp s) = <[v4 := wildcard_pcb IPADDR_TYPE_V4]> {[v6 := wildcard_pcb IPADDR_TYPE_V6]};
  ls_list : udp_pcbs (st_udp s) = [v6; v4] \/ udp_pcbs (st_udp s) = [v4; v6];
  ls_fresh : (v4 < h_fresh (st_heap s))%positive /\ (v6 < h_fresh (st_heap s))%positive;
}.

Record ready (s : stack) : Prop := {
  re_heap : heap_ok (st_heap s);
  re_netif : exists mtu6 rs_count, st_netif s = tun_netif mtu6 rs_count;
  re_default : st_netif_default s = true;
  re_init : initialized (st_bridge s) = true;
  re_fns : s_output_fn (st_bridge s) = true /\ s_udp_recv_fn (st_bridge s) = true;
  re_listen : exists v4 v6, listening s v4 v6;
  re_port : UDP_LOCAL_PORT_RANGE_START <= udp_port (st_udp s) <= UDP_LOCAL_PORT_RANGE_END;
  re_id : fits 16 (st_ip_id s);
}.

(** No buffer, memory or control block is left behind or taken away. *)
Record same_resources (s s' : stack) : Prop := {
  sr_pbufs : h_pbufs (st_heap s') = h_pbufs (st_heap s);
  sr_mem : h_mem (st_heap s') = h_mem (st_heap s);
  sr_memp_pbuf : h_memp_pbuf (st_heap s') = h_memp_pbuf (st_heap s);
  sr_memp_pool : h_memp_pool (st_heap s') = h_memp_pool (st_heap s);
  sr_store : udp_store (st_udp s') = udp_store (st_udp s);
  sr_memp_udp : memp_udp (st_udp s') = memp_udp (st_udp s);
}.

#[export] Instance same_resources_preorder : PreOrder same_resources.
Proof.
  split; [intros s; by split|]. intros s1 s2 s3 [] []. split; by etransitivity.
Qed.

(** ** Addresses in memory *)

Lemma addr_round (a : list Z) : are_bytes a -> zlen a = 4 -> le_split 4 (le_combine a) = a.
Proof.
  intros Ha Hl. replace 4%nat with (length a) by (unfold zlen in Hl; lia). by apply le_split_combine.
Qed.

Lemma slice_bytes off n a : are_bytes a -> are_bytes (slice off n a).
Proof.
  intros Ha. unfold slice, ztake, zdrop. apply Forall_take, Forall_drop, Ha.
Qed.

Lemma slices4 (a : list Z) : zlen a = 16 -> slice 0 4 a ++ slice 4 4 a ++ slice 8 4 a ++ slice 12 4 a = a.
Proof.
  intros Hl. destruct a as [|a0 [|a1 [|a2 [|a3 [|a4 [|a5 [|a6 [|a7 [|a8 [|a9 [|a10 [|a11 [|a12 [|a13 [|a14 [|a15 [|a16 a]]]]]]]]]]]]]]]]];
    try done. exfalso. rewrite !zlen_cons in Hl. pose proof (zlen_nonneg a). lia.
Qed.

Lemma words_round a : is_addr6 a -> addr_bytes (words_of a) = a.
Proof.
  intros [Ha Hl]. unfold addr_bytes, words_of. cbn [map concat].
  rewrite !addr_round by (apply slice_bytes, Ha) || (apply slice_zlen; lia).
  rewrite app_nil_r. by apply slices4.
Qed.

Lemma le_combine_fits n (a : list Z) : are_bytes a -> zlen a = n -> fits (8 * n) (le_combine a).
Proof.
  intros Ha <-. pose proof (le_combine_bound a Ha). unfold fits.
  rewrite Z.pow_mul_r by (unfold zlen; lia). exact H.
Qed.

Lemma words_fit a : is_addr6 a -> Forall (fits 32) (words_of a).
Proof.
  intros [Ha Hl]. unfold words_of.
  repeat constructor; apply (le_combine_fits 4); try (apply slice_bytes, Ha); apply slice_zlen; lia.
Qed.

(** *** [ip_addr_to_bytes] and back *)

Lemma to_bytes_v4 a :
  is_addr4 a ->
  exists out, ip_addr_to_bytes (addr4 a) (fresh_block 16) = Done (out, false) /\ addr_of out false = Done a.
Proof.
  intros [Ha Hl]. exists (map Some a ++ fresh_block 12). unfold ip_addr_to_bytes.
  change (IP_IS_V6 (addr4 a)) with false. change (ip_2_ip4 (addr4 a)) with (le_combine a). cbv iota.
  rewrite addr_round by done. change (fresh_block 16) with ([] ++ fresh_block 4 ++ fresh_block 12).
  rewrite store_bytes_middle; [|done|unfold zlen in Hl; change (4%nat = length a); lia].
  split; [done|]. unfold addr_of. by apply (load_bytes_middle [] (fresh_block 12) a 0 4).
Qed.

Lemma to_bytes_v6 a :
  is_addr6 a ->
  exists out, ip_addr_to_bytes (addr6 a) (fresh_block 16) = Done (out, true) /\ addr_of out true = Done a.
Proof.
  intros Ha. exists (map Some a ++ []). unfold ip_addr_to_bytes.
  change (IP_IS_V6 (addr6 a)) with true. change (ip_2_ip6 (addr6 a)) with (words_of a). cbv iota.
  rewrite words_round by done.
  destruct Ha as [Ha Hl]. change (fresh_block 16) with ([] ++ fresh_block 16 ++ []).
  rewrite store_bytes_middle; [|done|unfold zlen in Hl; change (16%nat = length a); lia].
  split; [done|]. unfold addr_of. by apply (load_bytes_middle [] [] a 0 16).
Qed.

(** * A UDP datagram from the interface reaches the application

    The steps of [lwip_bridge_input] on a well-formed datagram, from the last one back:
    the callback, the demultiplexing, and the two IP inputs. *)
From Stdlib Require Import ZArith Lia.
From stdpp Require Import base list option numbers gmap.
From S2P Require Import Prelude Pbuf PbufChain PbufRead PbufFree PbufWrite Chksum ChksumProofs Lwip IpOut Icmp Udp IpIn Netif Bridge LwipRun.

Section proofs.
Context `{Malloc}.

(** ** The callback *)

Lemma with_bytes_single p pb a d use s s' :
  h_pbufs (st_heap s) !! p = Some pb -> p_next pb = None -> p_payload pb = Some a ->
  bytes_at (st_heap s) a d -> p_tot_len pb = zlen d -> use d s = Done (tt, s') ->
  with_bytes p use s = Done (true, s').
Proof.
  intros Hp Hn Ha Hat Htot Huse. unfold with_bytes.
  mstep. rewrite Hn.
  mbind_with ltac:(eapply run_ask_heap, (read_payload_at _ _ a d); [done|done|pose proof (zlen_nonneg d); lia]).
  rewrite ztake_all by lia. by mbind_with ltac:(exact Huse).
Qed.

(** What the callback needs: one buffer of the family's addresses. *)
Lemma udp_recv_cb_delivers s p pb a d (v6 : bool) src_ip src dst sport out1 out2 :
  s_udp_recv_fn (st_bridge s) = true ->
  ip_addr_to_bytes src_ip (fresh_block 16) = Done (out1, v6) -> addr_of out1 v6 = Done src ->
  ip_addr_to_bytes (s_current_udp_dst_ip (st_bridge s)) (fresh_block 16) = Done (out2, v6) ->
  addr_of out2 v6 = Done dst ->
  h_pbufs (st_heap s) !! p = Some pb -> p_next pb = None -> p_ref pb = 1 -> 0 <= alloc_src pb <= 2 ->
  p_payload pb = Some a -> bytes_at (st_heap s) a d -> p_tot_len pb = zlen d ->
  udp_recv_cb (Some p) src_ip sport s
  = Done (tt, set_heap (freed (st_heap s) [(p, pb)])
      (set_trace (st_trace s ++ [udp_recv_up src sport dst (s_current_udp_dst_port (st_bridge s)) v6 d]) s)).
Proof.
  intros Hfn H1 Hs H2 Hd Hp Hn Hr Hal Ha Hat Htot. unfold udp_recv_cb.
  mstep. rewrite Hfn. cbn [negb].
  mbind_with ltac:(apply run_lift, H1). mbind_with ltac:(apply run_lift, H2).
  mbind_with ltac:(apply (with_bytes_single p pb a d); [done|done|done|done|done|]).
  { mbind_with ltac:(apply run_lift, Hs). mbind_with ltac:(apply run_lift, Hd). reflexivity. }
  etransitivity; [by apply run_free_single | reflexivity].
Qed.

(** ** The control block *)

Lemma read_pcbs_listening s v4 v6 :
  listening s v4 v6 ->
  exists l, udp_list s = Done (l, s) /\ map fst l = udp_pcbs (st_udp s)
    /\ (l = [(v6, wildcard_pcb IPADDR_TYPE_V6); (v4, wildcard_pcb IPADDR_TYPE_V4)]
        \/ l = [(v4, wildcard_pcb IPADDR_TYPE_V4); (v6, wildcard_pcb IPADDR_TYPE_V6)]).
Proof.
  intros [_ _ Hne Hst Hl _]. unfold udp_list. rewrite Hst.
  assert ((<[v4:=wildcard_pcb IPADDR_TYPE_V4]> {[v6 := wildcard_pcb IPADDR_TYPE_V6]} : gmap ptr udp_pcb) !! v4
    = Some (wildcard_pcb IPADDR_TYPE_V4)) as E4 by apply lookup_insert_eq.
  assert ((<[v4:=wildcard_pcb IPADDR_TYPE_V4]> {[v6 := wildcard_pcb IPADDR_TYPE_V6]} : gmap ptr udp_pcb) !! v6
    = Some (wildcard_pcb IPADDR_TYPE_V6)) as E6.
  { rewrite lookup_insert_ne by done. apply lookup_singleton_eq. }
  destruct Hl as [-> | ->]; cbn [read_pcbs]; rewrite E4, E6; cbn.
  - eexists. split; [reflexivity|]. split; [done|]. by left.
  - eexists. split; [reflexivity|]. split; [done|]. by right.
Qed.

Lemma set_udp_id s : set_udp (set_pcbs (udp_pcbs (st_udp s)) (st_udp s)) s = s.
Proof. destruct s as [? ? ? ? ? [] ? ?]. reflexivity. Qed.

Definition family (v6 : bool) : Z := if v6 then IPADDR_TYPE_V6 else IPADDR_TYPE_V4.

(** Whatever the ports, the datagram goes to the wildcard block of its family; at most
    the order of the list changes. *)
Lemma udp_find_wildcard s v4 v6 (is6 : bool) src dest broadcast :
  listening s v4 v6 -> (exists m rs, st_netif s = tun_netif m rs) ->
  ip_type (current_iphdr_dest (st_ip_data s)) = family is6 ->
  exists l', udp_find src dest broadcast s
      = Done (Some (if is6 then v6 else v4, wildcard_pcb (family is6)), set_udp (set_pcbs l' (st_udp s)) s)
    /\ (l' = [v6; v4] \/ l' = [v4; v6]).
Proof.
  intros Hls (m & rs & Hn) Ht. destruct (read_pcbs_listening _ _ _ Hls) as (l & Hrun & Hmap & Hl).
  unfold udp_find. 
  assert (forall x, (_ ← modify_udp (set_pcbs x); mret (Some (if is6 then v6 else v4, wildcard_pcb (family is6)))) s
    = Done (Some (if is6 then v6 else v4, wildcard_pcb (family is6)), set_udp (set_pcbs x (st_udp s)) s)) as Hmod
    by reflexivity.
  assert (exists l', (match udp_demux (st_ip_data s) (st_netif s) src dest broadcast [] None l with
      | (Some (before, x, after), _) => _ ← modify_udp (set_pcbs (x.1 :: before ++ after)); mret (Some x)
      | (None, Some x) => mret (Some x)
      | (None, None) => mret (udp_wildcard (st_ip_data s) l)
      end : M (option (ptr * udp_pcb))) s
      = Done (Some (if is6 then v6 else v4, wildcard_pcb (family is6)), set_udp (set_pcbs l' (st_udp s)) s)
    /\ (l' = [v6; v4] \/ l' = [v4; v6])) as (l' & Hl' & Hor).
  2:{ exists l'. split; [|done]. mstep. mstep. mbind_with ltac:(exact Hrun). exact Hl'. }
  destruct (ls_list _ _ _ Hls) as [Hu|Hu]; rewrite Hu in Hmap;
    destruct Hl as [-> | ->]; cbn in Hmap; try (by injection Hmap as ? ?; destruct (ls_ne _ _ _ Hls)).
  all: cbn [udp_demux]; unfold udp_input_local_match, udp_wildcard, IP_ADDR_PCB_VERSION_MATCH_EXACT, find.
  all: cbn [u_netif_idx u_local_ip u_local_port u_flags u_remote_port u_remote_ip wildcard_pcb ip_type fst snd].
  all: rewrite Ht, Hn.
  all: destruct is6, (0 =? dest), (0 =? src), broadcast; cbn.
  all: try (eexists; split; [rewrite <-(set_udp_id s) at 1; rewrite Hu; reflexivity | by auto]).
  all: eexists; split; [reflexivity | by auto].
Qed.

(** ** [udp_input] *)

(** The buffer with [n] bytes taken off its front. *)
Definition cut (pb : pbuf) (a : addr) (n : Z) : pbuf :=
  mk_pbuf (p_next pb) (Some (mk_addr (a_block a) (a_off a + n))) (p_tot_len pb - n) (p_len pb - n)
    (p_type_internal pb) (p_flags pb) (p_ref pb) (p_if_idx pb).

Lemma run_remove_header s p pb a n :
  h_pbufs (st_heap s) !! p = Some pb -> p_payload pb = Some a -> p_tot_len pb = p_len pb ->
  0 < n <= p_len pb -> p_len pb < 2 ^ 16 ->
  on_heap (fun h => pbuf_remove_header h p n) s = Done (0, set_heap (put (st_heap s) p (cut pb a n)) s).
Proof.
  intros Hp Ha Ht Hn Hlt. apply run_on_heap.
  rewrite (remove_header_spec _ _ pb a) by (done || lia). by rewrite (proj2 (Z.leb_le _ _)) by lia.
Qed.

(** The only buffer of a packet with the bytes [d], not shared. *)
Record holds (h : heap) (p : ptr) (pb : pbuf) (a : addr) (d : list Z) : Prop := {
  ho_pbuf : h_pbufs h !! p = Some pb;
  ho_next : p_next pb = None;
  ho_ref : p_ref pb = 1;
  ho_src : 0 <= alloc_src pb <= 2;
  ho_payload : p_payload pb = Some a;
  ho_len : p_len pb = zlen d;
  ho_tot : p_tot_len pb = zlen d;
  ho_bytes : bytes_at h a d;
  ho_lt : zlen d < 2 ^ 16;
}.

Lemma holds_cut h p pb a d1 d2 n :
  holds h p pb a (d1 ++ d2) -> n = zlen d1 ->
  holds (put h p (cut pb a n)) p (cut pb a n) (mk_addr (a_block a) (a_off a + n)) d2.
Proof.
  intros [Hp Hn Hr Hs Ha Hl Ht Hb Hlt] ->. rewrite zlen_app in *. pose proof (zlen_nonneg d1).
  split; cbn; try done; [apply put_lookup|lia|lia| |lia].
  apply bytes_at_put. by apply (bytes_at_sub h a (d1 ++ d2) d1).
Qed.

Lemma udp_input_delivers machine s p pb a (v6 : bool) src dst sport dport ulen csum payload v4p v6p out1 out2 :
  listening s v4p v6p -> (exists m rs, st_netif s = tun_netif m rs) ->
  s_udp_recv_fn (st_bridge s) = true ->
  ip_type (current_iphdr_dest (st_ip_data s)) = family v6 ->
  ip_addr_to_bytes (current_iphdr_src (st_ip_data s)) (fresh_block 16) = Done (out1, v6) ->
  addr_of out1 v6 = Done src ->
  ip_addr_to_bytes (s_current_udp_dst_ip (st_bridge s)) (fresh_block 16) = Done (out2, v6) ->
  addr_of out2 v6 = Done dst ->
  fits 16 sport -> zlen csum = 2 ->
  holds (st_heap s) p pb a (udp_datagram sport dport ulen csum payload) ->
  exists l',
    udp_input machine p s
    = Done (tt, set_heap (freed (put (st_heap s) p (cut pb a 8)) [(p, cut pb a 8)])
        (set_trace (st_trace s ++ [udp_recv_up src sport dst (s_current_udp_dst_port (st_bridge s)) v6 payload])
          (set_udp (set_pcbs l' (st_udp s)) s)))
    /\ (l' = [v6p; v4p] \/ l' = [v4p; v6p]).
Proof.
  intros Hls Hn Hfn Ht H1 Hs1 H2 Hs2 Hsp Hcs Hh. pose proof Hh as [Hp _ _ _ Ha Hl Htot Hb Hlt].
  assert (zlen (udp_datagram sport dport ulen csum payload) = 8 + zlen payload) as Hlen.
  { unfold udp_datagram, be16. rewrite !zlen_app, !zlen_cons, !zlen_nil, Hcs. lia. }
  pose proof (zlen_nonneg payload).
  set (bc := ip_addr_isbroadcast (current_iphdr_dest (st_ip_data s)) (st_netif s)).
  destruct (udp_find_wildcard s v4p v6p v6 sport
    (lwip_htons (le_combine (slice 2 2 (udp_datagram sport dport ulen csum payload)))) bc Hls Hn Ht)
    as (l' & Hfind & Hl').
  exists l'. split; [|exact Hl']. unfold udp_input.
  mbind_with ltac:(eapply run_get_pbuf, Hp). rewrite (proj2 (Z.ltb_ge _ _)) by (unfold UDP_HLEN; lia).
  mbind_with ltac:(eapply run_payload; [exact Hp | exact Ha]).
  mstep. mstep. fold bc.
  mbind_with ltac:(apply (run_rd_slice _ _ _ 0 2 (be16 sport) Hb); [done|reflexivity|reflexivity|done]).
  mbind_with ltac:(apply (run_rd16 _ _ _ 2 Hb); [done | lia]).
  rewrite htons_wire by done. mbind_with ltac:(exact Hfind).
  mbind_with ltac:(eapply (run_remove_header _ p pb a 8); [exact Hp|exact Ha|lia|lia|lia]).
  cbn [Z.eqb negb u_recv wildcard_pcb call_udp_recv].
  assert (holds (put (st_heap s) p (cut pb a 8)) p (cut pb a 8) (mk_addr (a_block a) (a_off a + 8)) payload)
    as [Hp' Hn' Hr' Hal' Ha' Hlen' Htot' Hb' _].
  { apply (holds_cut _ _ _ _ (be16 sport ++ be16 dport ++ be16 ulen ++ csum) payload).
    - by rewrite <-!app_assoc.
    - rewrite !zlen_app, Hcs. reflexivity. }
  etransitivity; [eapply (udp_recv_cb_delivers _ p (cut pb a 8) _ payload v6); done | reflexivity].
Qed.
End proofs.

(** * Control blocks of UDP

    A block taken from the pool, bound and put on the list, while the others are the
    bridge's own with local port 0. *)
From Stdlib Require Import ZArith Lia.
From stdpp Require Import base list option numbers gmap.
From S2P Require Import Prelude Pbuf PbufChain PbufRead PbufFree PbufWrite Chksum ChksumProofs Lwip IpOut Icmp Udp IpIn Netif Bridge LwipRun.

Lemma read_pcbs_insert m q x l : q ∉ l -> read_pcbs (<[q := x]> m) l = read_pcbs m l.
Proof.
  intros Hq. induction l as [|p l IH]; [done|]. apply not_elem_of_cons in Hq as [Hne Hq].
  cbn [read_pcbs]. by rewrite lookup_insert_ne, IH by done.
Qed.

Lemma read_pcbs_keys m l r : read_pcbs m l = Done r -> map fst r = l.
Proof.
  revert r. induction l as [|p l IH]; intros r; cbn [read_pcbs]; [by intros [= <-]|].
  destruct (m !! p); [|done]. destruct (read_pcbs m l) as [r'|]; [|done]. intros [= <-]. cbn. by rewrite IH.
Qed.

(** [s] with the control block [q] of the call, and the list [l]. *)
Definition with_pcb (s : stack) (q : ptr) (pcb : udp_pcb) (l : list ptr) (n : nat) : stack :=
  set_heap (bump (st_heap s)) (set_udp (mk_udp (<[q := pcb]> (udp_store (st_udp s))) l (udp_port (st_udp s)) n) s).

Definition sender_pcb (v6 : bool) (a : ip_addr_t) (port : Z) : udp_pcb :=
  mk_udp_pcb a (mk_ip_addr [0; 0; 0; 0] (family v6)) 0 0 0 UDP_TTL 0 port 0 None None.

Lemma run_udp_new s (v6 : bool) n :
  memp_udp (st_udp s) = S n ->
  let q := h_fresh (st_heap s) in
  udp_new_ip_type (family v6) s
  = Done (Some q, with_pcb s q (sender_pcb v6 (mk_ip_addr [0; 0; 0; 0] (family v6)) 0) (udp_pcbs (st_udp s)) n).
Proof.
  intros Hm q. unfold udp_new_ip_type.
  mbind_with ltac:(unfold udp_new; rewrite Hm; reflexivity).
  mbind_with ltac:(unfold get_pcb; cbn [st_udp set_heap set_udp udp_store]; rewrite lookup_insert_eq; reflexivity).
  mdo. unfold with_pcb, set_store. cbn. by rewrite insert_insert_eq.
Qed.

(** ** Binding to a port of the range *)

Lemma new_port_free fuel used port :
  Forall (fun x => x = 0) used -> UDP_LOCAL_PORT_RANGE_START <= port <= UDP_LOCAL_PORT_RANGE_END ->
  exists port', udp_new_port_loop (S fuel) used port 0 = Done (port', port')
    /\ UDP_LOCAL_PORT_RANGE_START <= port' <= UDP_LOCAL_PORT_RANGE_END.
Proof.
  unfold UDP_LOCAL_PORT_RANGE_START, UDP_LOCAL_PORT_RANGE_END. intros Hu Hp. cbn [udp_new_port_loop].
  set (port' := if port =? _ then _ else _).
  assert (0xc000 <= port' <= 0xffff) as Hp'.
  { unfold port', UDP_LOCAL_PORT_RANGE_END, UDP_LOCAL_PORT_RANGE_START. destruct (Z.eqb_spec port 0xffff); [lia|].
    rewrite wrap_small by (unfold fits; lia). lia. }
  exists port'. split; [|done]. rewrite bool_decide_eq_false_2; [done|].
  intros Hin. rewrite Forall_forall in Hu. specialize (Hu _ Hin). lia.
Qed.

Definition with_port (port : Z) (s : stack) : stack := set_udp (set_udp_port port (st_udp s)) s.

(** All other blocks have port 0, so the first port tried is free. *)
Lemma run_udp_bind_any s n a pcb l :
  read_pcbs (udp_store (st_udp s)) (udp_pcbs (st_udp s)) = Done l -> Forall (fun x => u_local_port x.2 = 0) l ->
  let q := h_fresh (st_heap s) in
  q ∉ udp_pcbs (st_udp s) ->
  UDP_LOCAL_PORT_RANGE_START <= udp_port (st_udp s) <= UDP_LOCAL_PORT_RANGE_END ->
  exists port, UDP_LOCAL_PORT_RANGE_START <= port <= UDP_LOCAL_PORT_RANGE_END
    /\ udp_bind q a 0 (with_pcb s q pcb (udp_pcbs (st_udp s)) n)
       = Done (ERR_OK, with_port port (with_pcb s q (pcb_set_local a port pcb) (q :: udp_pcbs (st_udp s)) n)).
Proof.
  intros Hl Hports q Hq Hport.
  destruct (new_port_free (Z.to_nat 0x4000) (map (fun x => u_local_port x.2) l) (udp_port (st_udp s)))
    as (port & Hloop & Hpr); [by apply Forall_map|done|].
  exists port. split; [done|].
  assert (udp_list (with_pcb s q pcb (udp_pcbs (st_udp s)) n) = Done (l, with_pcb s q pcb (udp_pcbs (st_udp s)) n)) as Hlist.
  { unfold udp_list. cbn [st_udp with_pcb set_heap set_udp udp_store udp_pcbs]. by rewrite read_pcbs_insert, Hl. }
  assert (map fst l = udp_pcbs (st_udp s)) as Hmap by by eapply read_pcbs_keys.
  unfold udp_bind. mbind_with ltac:(exact Hlist). cbn [Z.eqb].
  mbind_with ltac:(mbind_with ltac:(unfold udp_new_port; mbind_with ltac:(exact Hlist);
    mbind_with ltac:(reflexivity); mbind_with ltac:(apply run_lift; exact Hloop); mbind_with ltac:(reflexivity); reflexivity);
    reflexivity).
  rewrite (proj2 (Z.eqb_neq port 0)) by (unfold UDP_LOCAL_PORT_RANGE_START in *; lia).
  mbind_with ltac:(unfold get_pcb; cbn [st_udp with_pcb set_heap set_udp udp_store set_udp_port]; rewrite lookup_insert_eq; reflexivity).
  mbind_with ltac:(reflexivity). rewrite Hmap, bool_decide_eq_false_2 by done. mbind_with ltac:(reflexivity).
  unfold with_port, with_pcb, set_store, set_pcbs. cbn. by rewrite insert_insert_eq.
Qed.
