(* ===== verification/IpInProofs.v ===== *)
(** * An IP packet from the interface reaches its protocol

    [ip4_input] and [ip6_input] on a packet with a plain header: validation passes, the
    globals of the packet are set, the header is stripped, and the globals are cleared
    after the protocol's input has run. *)
From Stdlib Require Import ZArith Lia.
From stdpp Require Import base list option numbers gmap.
From S2P Require Import Prelude Pbuf PbufChain PbufRead PbufFree PbufWrite Chksum ChksumProofs Lwip IpOut Icmp Udp IpIn Netif Bridge LwipRun UdpInProofs.

Lemma four_bytes (a : list Z) : zlen a = 4 -> exists a0 a1 a2 a3, a = [a0; a1; a2; a3].
Proof.
  intros Hl. destruct a as [|a0 [|a1 [|a2 [|a3 [|a4 a]]]]]; try done; [by eauto 6|].
  exfalso. rewrite !zlen_cons in Hl. pose proof (zlen_nonneg a). lia.
Qed.

Lemma two_bytes (a : list Z) : zlen a = 2 -> exists a0 a1, a = [a0; a1].
Proof.
  intros Hl. destruct a as [|a0 [|a1 [|a2 a]]]; try done; [by eauto|].
  exfalso. rewrite !zlen_cons in Hl. pose proof (zlen_nonneg a). lia.
Qed.

Lemma sixteen_bytes (a : list Z) :
  zlen a = 16 -> exists b c d e, zlen b = 4 /\ zlen c = 4 /\ zlen d = 4 /\ zlen e = 4 /\ a = b ++ c ++ d ++ e.
Proof.
  intros Hl. exists (slice 0 4 a), (slice 4 4 a), (slice 8 4 a), (slice 12 4 a).
  rewrite !slice_zlen by lia. by rewrite slices4.
Qed.

(** ** Parts of a header *)

Lemma slice_middle {A} (x y z : list A) : slice (zlen x) (zlen y) (x ++ y ++ z) = y.
Proof. unfold slice. by rewrite zdrop_app_zlen, ztake_app_zlen. Qed.

Lemma slice_slice {A} o n i k (d : list A) :
  0 <= o -> 0 <= i -> i + k <= n -> slice i k (slice o n d) = slice (o + i) k d.
Proof.
  intros. unfold slice, ztake, zdrop. rewrite skipn_firstn_comm, take_take, drop_drop.
  f_equal; [lia|]. f_equal. lia.
Qed.

Lemma run_rd_ip6 s a d off bs :
  bytes_at (st_heap s) a d -> 0 <= off -> slice off 16 d = bs -> zlen bs = 16 ->
  rd_ip6 a off s = Done (words_of bs, s).
Proof.
  intros Ha Ho Hs Hl. pose proof (slice_bounds _ _ _ _ Ho Hs Hl ltac:(lia)) as Hb. unfold rd_ip6.
  mbind_with ltac:(apply (run_rd32 _ _ _ _ Ha); lia). mbind_with ltac:(apply (run_rd32 _ _ _ _ Ha); lia).
  mbind_with ltac:(apply (run_rd32 _ _ _ _ Ha); lia). mbind_with ltac:(apply (run_rd32 _ _ _ _ Ha); lia).
  unfold words_of. rewrite <-Hs, !slice_slice by lia. by rewrite Z.add_0_r.
Qed.

(** ** Addresses *)

(** A source that [ip4_input] lets through, a destination that is not a group. *)
Definition ip4_source_ok (a : list Z) : bool :=
  negb (bool_decide (a = [0; 0; 0; 0]) || bool_decide (a = [255; 255; 255; 255])
        || ip4_addr_ismulticast (le_combine a)).

Lemma not_broadcast a m rs :
  is_addr4 a -> ip4_source_ok a = true -> ip4_addr_isbroadcast_u32 (le_combine a) (tun_netif m rs) = false.
Proof.
  intros [Ha Hl] Hok. unfold ip4_source_ok in Hok. apply negb_true_iff in Hok.
  apply orb_false_iff in Hok as [[H1 H2]%orb_false_iff _].
  apply bool_decide_eq_false in H1, H2. unfold ip4_addr_isbroadcast_u32. cbn [n_flags tun_netif].
  assert (forall b, length b = 4%nat -> are_bytes b -> le_combine a = le_combine b -> a = b) as Hinj.
  { intros b Hb Hbb He. rewrite <-(addr_round a Ha Hl), He. by apply (addr_round b); [|unfold zlen; rewrite Hb]. }
  pose proof (le_combine_bound a Ha) as Hb. rewrite Hl in Hb. change (256 ^ 4) with (2 ^ 32) in Hb.
  assert (le_combine a =? IPADDR_ANY = false) as ->.
  { apply Z.eqb_neq. intros He. apply H1, Hinj; [done|repeat constructor; lia|by rewrite He]. }
  assert (u32 (Z.lnot (le_combine a)) =? IPADDR_ANY = false) as ->.
  { apply Z.eqb_neq. intros He. apply H2, Hinj; [done|repeat constructor; lia|].
    unfold wrap, IPADDR_ANY, Z.lnot in He. change (le_combine [255; 255; 255; 255]) with (2 ^ 32 - 1). div_lia. }
  reflexivity.
Qed.

Definition ip6_source_ok (a : list Z) : bool :=
  negb (ip6_addr_isany (words_of a) || ip6_addr_ismulticast (words_of a) || ip6_addr_isipv4mappedipv6 (words_of a)).
Definition ip6_dest_ok (a : list Z) : bool :=
  negb (ip6_addr_ismulticast (words_of a) || ip6_addr_isipv4mappedipv6 (words_of a)).

(** The first four bytes of an IPv6 header. *)
Definition is_vtcfl (v : list Z) : Prop := are_bytes v /\ exists b r, v = b :: r /\ 0x60 <= b < 0x70 /\ zlen r = 3.

Section proofs.
Context `{Malloc}.
Variable machine : addr -> Z.
Variable tcp_input nd6_input : ptr -> M unit.

(** ** IPv4 *)

Definition entered4 (hdr : addr) (src dst : list Z) (d : ip_globals) : ip_globals :=
  mk_ip_globals true true (Some hdr) (current_ip6_header d) IP_HLEN (addr4 src) (addr4 dst).

Definition left4 (d : ip_globals) : ip_globals :=
  mk_ip_globals false false None (current_ip6_header d) 0
    (mk_ip_addr (0 :: tail (u_addr (current_iphdr_src d))) (ip_type (current_iphdr_src d)))
    (mk_ip_addr (0 :: tail (u_addr (current_iphdr_dest d))) (ip_type (current_iphdr_dest d))).

Lemma ip4_input_udp s p pb a tos len id frag ttl csum src dst d s2 :
  (exists m rs, st_netif s = tun_netif m rs) ->
  is_addr4 src -> is_addr4 dst -> ip4_source_ok src = true -> ip4_addr_ismulticast (le_combine dst) = false ->
  zlen csum = 2 -> frag = 0 \/ frag = 0x40 -> len = IP_HLEN + zlen d ->
  holds (st_heap s) p pb a (ip4_header tos len id frag ttl IP_PROTO_UDP csum src dst ++ d) ->
  udp_input machine p (set_heap (put (st_heap s) p (cut pb a IP_HLEN))
    (set_ip_data (entered4 a src dst (st_ip_data s)) s)) = Done (tt, s2) ->
  ip4_input machine tcp_input p s = Done (ERR_OK, set_ip_data (left4 (st_ip_data s2)) s2).
Proof.
  intros (m & rs & Hn) Hsrc Hdst Hok Hmc Hcs Hfrag Hlen Hh Hudp.
  pose proof (not_broadcast src m rs Hsrc Hok) as Hnb. destruct Hsrc as [Hsb Hsl], Hdst as [Hdb Hdl].
  destruct (four_bytes src Hsl) as (x0 & x1 & x2 & x3 & Esrc), (four_bytes dst Hdl) as (y0 & y1 & y2 & y3 & Edst),
    (two_bytes csum Hcs) as (c0 & c1 & Ecs).
  assert (zlen (ip4_header tos len id frag ttl IP_PROTO_UDP csum src dst) = IP_HLEN) as Hhl.
  { unfold ip4_header, be16. rewrite !zlen_app, Hcs, Hsl, Hdl. reflexivity. }
  destruct Hh as [Hp Hpn Hpr Hps Ha Hl Ht Hb Hlt]. rewrite zlen_app, Hhl in Hl, Ht, Hlt.
  pose proof (zlen_nonneg d). change IP_HLEN with 20 in *.
  unfold ip4_input. mstep. rewrite Hn.
  mbind_with ltac:(eapply run_payload; [exact Hp|exact Ha]).
  mfield 0 1 [0x45] Hb.
  cbn [le_combine]. change (negb (Z.shiftr (69 + 256 * 0) 4 =? 4)) with false.
  change (u8 (Z.land (69 + 256 * 0) 0x0f * 4)) with 20. cbv iota zeta.
  mfield 2 2 (be16 len) Hb.
  rewrite htons_wire by (unfold fits; lia).
  mbind_with ltac:(eapply run_get_pbuf, Hp). rewrite Ht, (proj2 (Z.ltb_ge len (20 + zlen d))) by lia. mstep.
  mbind_with ltac:(eapply run_get_pbuf, Hp).
  rewrite Ht, Hl, (proj2 (Z.ltb_ge (20 + zlen d) 20)), (proj2 (Z.ltb_ge (20 + zlen d) len)) by lia.
  change (20 <? 20) with false. cbn [orb].
  mfield 16 4 dst Hb.
  mfield 12 4 src Hb.
  mdo. rewrite Hnb. unfold ip4_source_ok in Hok. apply negb_true_iff, orb_false_iff in Hok as [_ ->].
  cbn [orb]. unfold ip4_dest_netif. rewrite Hmc. change (ip4_input_accept (tun_netif m rs) (le_combine dst)) with true.
  cbn [negb].
  mfield 6 2 [frag; 0] Hb.
  assert (negb (Z.land (le_combine [frag; 0]) (lwip_htons (Z.lor IP_OFFMASK IP_MF)) =? 0) = false) as ->
    by (by destruct Hfrag as [-> | ->]).
  mdo.
  mbind_with ltac:(eapply (run_remove_header _ p pb a 20); [exact Hp|exact Ha|lia|lia|lia]).
  mbind_with ltac:(unfold ip4_dispatch; mfield 9 1 [17] Hb; exact Hudp).
  mdo. reflexivity.
Qed.

(** ** IPv6 *)

Definition entered6 (hdr : addr) (src dst : list Z) (d : ip_globals) : ip_globals :=
  mk_ip_globals true true (current_ip4_header d) (Some hdr) IP6_HLEN (addr6 src) (addr6 dst).

Definition left6 (d : ip_globals) : ip_globals :=
  mk_ip_globals false false (current_ip4_header d) None 0
    (mk_ip_addr [0; 0; 0; 0] (ip_type (current_iphdr_src d)))
    (mk_ip_addr [0; 0; 0; 0] (ip_type (current_iphdr_dest d))).

Lemma ip6_header_src vtcfl plen nexth hl src dst d :
  zlen vtcfl = 4 -> zlen src = 16 -> slice 8 16 (ip6_header vtcfl plen nexth hl src dst ++ d) = src.
Proof.
  intros Hv Hs. unfold ip6_header, be16. rewrite <-!app_assoc.
  rewrite !(app_assoc vtcfl), (app_assoc _ [nexth; hl]). rewrite <-Hs.
  etransitivity; [|apply (slice_middle ((vtcfl ++ [plen / 256; plen mod 256]) ++ [nexth; hl]))].
  rewrite !zlen_app, Hv. reflexivity.
Qed.

Lemma ip6_header_dst vtcfl plen nexth hl src dst d :
  zlen vtcfl = 4 -> zlen src = 16 -> zlen dst = 16 ->
  slice 24 16 (ip6_header vtcfl plen nexth hl src dst ++ d) = dst.
Proof.
  intros Hv Hs Hd. unfold ip6_header, be16. rewrite <-!app_assoc.
  rewrite !(app_assoc vtcfl), (app_assoc _ [nexth; hl]), (app_assoc _ src). rewrite <-Hd.
  etransitivity; [|apply (slice_middle (((vtcfl ++ [plen / 256; plen mod 256]) ++ [nexth; hl]) ++ src))].
  rewrite !zlen_app, Hv, Hs. reflexivity.
Qed.

Lemma vtcfl_version v : is_vtcfl v ->
  zlen v = 4 /\ negb (Z.land (Z.shiftr (lwip_htonl (le_combine v)) 28) 0x0f =? 6) = false.
Proof.
  intros [Hv (b & r & -> & Hb & Hr)]. rewrite zlen_cons. split; [lia|].
  destruct r as [|c [|d [|e [|? r]]]]; try done; [|rewrite !zlen_cons in Hr; pose proof (zlen_nonneg r); lia].
  apply Forall_cons in Hv as [Hb' [Hc [Hd [He _]%Forall_cons]%Forall_cons]%Forall_cons].
  rewrite htonl_bytes by done. unfold is_byte in *. cbn [le_combine].
  rewrite Z.shiftr_div_pow2 by lia.
  replace ((e + 256 * (d + 256 * (c + 256 * (b + 256 * 0)))) / 2 ^ 28) with 6 by div_lia. reflexivity.
Qed.

Lemma ip6_headers_plain fuel s p ip6hdr nexth tot pb a r :
  bytes_at (st_heap s) nexth ([IP_PROTO_UDP] ++ r) -> h_pbufs (st_heap s) !! p = Some pb -> p_payload pb = Some a ->
  ip6_headers machine (S fuel) p ip6hdr nexth tot s = Done (Some (nexth, tot), s).
Proof.
  intros Hb Hp Ha. cbn [ip6_headers]. mfield 0 1 [IP_PROTO_UDP] Hb.
  by mbind_with ltac:(eapply run_payload; [exact Hp|exact Ha]).
Qed.

(** The header of [holds]: no extension follows it. *)
Lemma ip6_process_udp s p pb a vtcfl plen hl src dst d s2 :
  (exists m rs, st_netif s = tun_netif m rs) ->
  current_iphdr_src (st_ip_data s) = addr6 src -> current_iphdr_dest (st_ip_data s) = addr6 dst ->
  ip6_addr_isany (words_of src) = false -> ip6_addr_ismulticast (words_of dst) = false ->
  zlen vtcfl = 4 -> zlen src = 16 -> zlen dst = 16 ->
  holds (st_heap s) p pb a (ip6_header vtcfl plen IP_PROTO_UDP hl src dst ++ d) ->
  udp_input machine p (set_heap (put (st_heap s) p (cut pb a IP6_HLEN))
    (set_ip_data (mk_ip_globals true (current_input_netif (st_ip_data s)) (current_ip4_header (st_ip_data s))
      (current_ip6_header (st_ip_data s)) IP6_HLEN (addr6 src) (addr6 dst)) s)) = Done (tt, s2) ->
  ip6_process machine tcp_input nd6_input p a s = Done (tt, s2).
Proof.
  intros (m & rs & Hn) Hsrc Hdst Hany Hmc Hvl Hsl Hdl Hh Hudp.
  destruct (four_bytes vtcfl Hvl) as (v0 & v1 & v2 & v3 & Ev).
  pose proof (ip6_header_length vtcfl plen IP_PROTO_UDP hl src dst Hvl Hsl Hdl) as Hhl.
  destruct Hh as [Hp Hpn Hpr Hps Ha Hl Ht Hb Hlt]. rewrite zlen_app, Hhl in Hl, Ht, Hlt.
  pose proof (zlen_nonneg d). change IP6_HLEN with 40 in *.
  unfold ip6_process. change IP6_HLEN with 40. mdo. mdo. rewrite Hsrc, Hdst, Hn.
  change (ip_2_ip6 (addr6 ?x)) with (words_of x). rewrite Hany. cbn [andb].
  unfold ip6_dest_netif. rewrite Hmc. change (ip6_input_accept (tun_netif m rs) (words_of dst)) with true.
  cbn [negb]. mdo.
  mbind_with ltac:(eapply (run_remove_header _ p pb a 40); [exact Hp|exact Ha|lia|lia|lia]).
  mbind_with ltac:(eapply run_get_pbuf, put_lookup). 
  assert (bytes_at (st_heap s) (mk_addr (a_block a) (a_off a + 6)) ([IP_PROTO_UDP] ++ [hl] ++ src ++ dst ++ d)) as Hb6.
  { apply (bytes_at_sub _ a _ (vtcfl ++ be16 plen) _ 6 Hb).
    - unfold ip6_header. by rewrite <-!app_assoc.
    - rewrite zlen_app, Hvl. reflexivity. }
  mbind_with ltac:(eapply ip6_headers_plain; [exact Hb6|apply put_lookup|reflexivity]).
  mdo. unfold ip6_dispatch. mfield 0 1 [IP_PROTO_UDP] Hb6. rewrite <-Hsrc, <-Hdst in Hudp. exact Hudp.
Qed.

Lemma ip6_input_udp s p pb a vtcfl plen hl src dst d s2 :
  (exists m rs, st_netif s = tun_netif m rs) ->
  is_vtcfl vtcfl -> is_addr6 src -> is_addr6 dst -> ip6_source_ok src = true -> ip6_dest_ok dst = true ->
  plen = zlen d ->
  holds (st_heap s) p pb a (ip6_header vtcfl plen IP_PROTO_UDP hl src dst ++ d) ->
  udp_input machine p (set_heap (put (st_heap s) p (cut pb a IP6_HLEN))
    (set_ip_data (entered6 a src dst (st_ip_data s)) s)) = Done (tt, s2) ->
  ip6_input machine tcp_input nd6_input p s = Done (ERR_OK, set_ip_data (left6 (st_ip_data s2)) s2).
Proof.
  intros (m & rs & Hn) Hv Hsrc Hdst Hok Hdok Hlen Hh Hudp.
  destruct (vtcfl_version _ Hv) as [Hvl Hversion]. destruct Hsrc as [Hsb Hsl], Hdst as [Hdb Hdl].
  destruct (four_bytes vtcfl Hvl) as (v0 & v1 & v2 & v3 & Ev).
  pose proof (ip6_header_length vtcfl plen IP_PROTO_UDP hl src dst Hvl Hsl Hdl) as Hhl.
  pose proof Hh as [Hp Hpn Hpr Hps Ha Hl Ht Hb Hlt]. rewrite zlen_app, Hhl in Hl, Ht, Hlt.
  pose proof (zlen_nonneg d). change IP6_HLEN with 40 in *.
  unfold ip6_source_ok in Hok. apply negb_true_iff in Hok. apply orb_false_iff in Hok as [[Hs1 Hs2]%orb_false_iff Hs3].
  unfold ip6_dest_ok in Hdok. apply negb_true_iff, orb_false_iff in Hdok as [Hd1 Hd2].
  unfold ip6_input, ip6_process. change IP6_HLEN with 40. mbind_with ltac:(eapply run_payload; [exact Hp|exact Ha]).
  mfield 0 4 vtcfl Hb. rewrite Hversion.
  mbind_with ltac:(eapply run_get_pbuf, Hp). rewrite Hl, (proj2 (Z.ltb_ge (40 + zlen d) 40)) by lia.
  mfield 4 2 (be16 plen) Hb. rewrite htons_wire by (unfold fits; lia).
  rewrite Ht, (proj2 (Z.ltb_ge (40 + zlen d - 40) plen)) by lia. rewrite wrap_small by (unfold fits; lia).
  mbind_with ltac:(apply run_on_heap_; unfold pbuf_realloc; rewrite (get_stored _ _ _ Hp), outcome_bind_done, Ht;
    rewrite (proj2 (Z.leb_le _ _)) by lia; reflexivity).
  replace (set_heap (st_heap s) s) with s by by destruct s.
  mbind_with ltac:(eapply (run_rd_ip6 _ _ _ 24 dst); [exact Hb|done|by apply ip6_header_dst|done]).
  mbind_with ltac:(eapply (run_rd_ip6 _ _ _ 8 src); [exact Hb|done|by apply ip6_header_src|done]).
  mdo. rewrite Hs2, Hs3, Hd2. cbn [orb]. mdo.
  mbind_with ltac:(eapply (ip6_process_udp _ p pb a vtcfl plen hl src dst d);
    [by exists m, rs|reflexivity|reflexivity|exact Hs1|exact Hd1|exact Hvl|exact Hsl|exact Hdl|exact Hh|exact Hudp]).
  mdo. reflexivity.
Qed.
End proofs.
