(* ===== verification/UdpDeliver.v ===== *)
(** * [lwip_bridge_input] on a UDP datagram

    The destination is remembered, a reference to the packet goes through IP and UDP to
    the callback, and everything taken on the way is given back. *)
From Stdlib Require Import ZArith Lia.
From stdpp Require Import base list option numbers gmap.
From S2P Require Import Prelude Pbuf PbufChain PbufRead PbufFree PbufWrite Chksum ChksumProofs Lwip IpOut Icmp Udp IpIn Netif Bridge LwipRun UdpInProofs IpInProofs.

(** The packets that carry [payload] from [src] to [dst]: any identification, type of
    service, hop limit and checksums; no IP options, fragments or extension headers. *)
Inductive udp_packet (src : list Z) (sport : Z) (dst : list Z) (dport : Z) (payload : list Z) :
    bool -> list Z -> Prop :=
| udp_packet4 tos id frag ttl csum ulen ucsum :
    is_addr4 src -> is_addr4 dst -> frag = 0 \/ frag = 0x40 -> zlen csum = 2 -> zlen ucsum = 2 ->
    udp_packet src sport dst dport payload false
      (ip4_header tos (28 + zlen payload) id frag ttl IP_PROTO_UDP csum src dst
       ++ udp_datagram sport dport ulen ucsum payload)
| udp_packet6 vtcfl hl ulen ucsum :
    is_addr6 src -> is_addr6 dst -> is_vtcfl vtcfl -> zlen ucsum = 2 ->
    udp_packet src sport dst dport payload true
      (ip6_header vtcfl (8 + zlen payload) IP_PROTO_UDP hl src dst
       ++ udp_datagram sport dport ulen ucsum payload).

Lemma udp_packet_length src sport dst dport payload v6 pkt :
  udp_packet src sport dst dport payload v6 pkt ->
  zlen pkt = (if v6 then IP6_HLEN else IP_HLEN) + 8 + zlen payload.
Proof.
  intros [tos id frag ttl csum ulen ucsum [_ Hs] [_ Hd] Hf Hc Hu|vtcfl hl ulen ucsum [_ Hs] [_ Hd] Hv Hu].
  - rewrite zlen_app, ip4_header_length, udp_datagram_length by done. lia.
  - rewrite zlen_app, ip6_header_length, udp_datagram_length by (done || by apply vtcfl_version). lia.
Qed.

(** The addresses IP accepts. *)
Definition deliverable (v6 : bool) (src dst : list Z) : bool :=
  if v6 then ip6_source_ok src && ip6_dest_ok dst
  else ip4_source_ok src && negb (ip4_addr_ismulticast (le_combine dst)).

(** ** Invariants of a state that differs in what a datagram leaves behind *)

Lemma listening_after s s' v4 v6 :
  listening s v4 v6 -> (h_fresh (st_heap s) <= h_fresh (st_heap s'))%positive ->
  (exists port ip, st_bridge s' = set_udp_dst port ip (st_bridge s)) ->
  udp_store (st_udp s') = udp_store (st_udp s) ->
  udp_pcbs (st_udp s') = [v6; v4] \/ udp_pcbs (st_udp s') = [v4; v6] -> listening s' v4 v6.
Proof.
  intros [H4 H6 Hne Hs Hl [Hf4 Hf6]] Hk (port & ip & Hb) Hst Hl'.
  split; [by rewrite Hb..|done|by rewrite Hst|done|lia].
Qed.

Lemma ready_after s s' k :
  ready s -> (h_fresh (st_heap s) <= k)%positive ->
  st_heap s' = mk_heap (h_pbufs (st_heap s)) (h_mem (st_heap s)) k (h_memp_pbuf (st_heap s)) (h_memp_pool (st_heap s)) ->
  st_netif s' = st_netif s -> st_netif_default s' = st_netif_default s -> fits 16 (st_ip_id s') ->
  (exists port ip, st_bridge s' = set_udp_dst port ip (st_bridge s)) ->
  udp_store (st_udp s') = udp_store (st_udp s) -> memp_udp (st_udp s') = memp_udp (st_udp s) ->
  udp_port (st_udp s') = udp_port (st_udp s) ->
  (forall v4 v6, listening s v4 v6 -> udp_pcbs (st_udp s') = [v6; v4] \/ udp_pcbs (st_udp s') = [v4; v6]) ->
  ready s' /\ same_resources s s'.
Proof.
  intros [Hh Hn Hd Hi Hf (v4 & v6 & Hls) Hp Hid] Hk Hh' Hn' Hd' Hid' (port & ip & Hb') Hst Hm Hport Hl'.
  split.
  - split.
    + rewrite Hh'. intros j Hj. apply Hh. cbn in Hj. lia.
    + by rewrite Hn'.
    + by rewrite Hd'.
    + by rewrite Hb'.
    + rewrite Hb'. exact Hf.
    + exists v4, v6. apply (listening_after s); eauto. by rewrite Hh'.
    + by rewrite Hport.
    + done.
  - by split; rewrite ?Hh'.
Qed.

Section proofs.
Context `{Malloc}.
Variable machine : addr -> Z.
Variable tcp_input nd6_input : ptr -> M unit.

(** ** The destination *)

Lemma be16_or n : fits 16 n -> u16 (Z.lor (Z.shiftl (le_combine [n / 256]) 8) (le_combine [n mod 256])) = n.
Proof.
  intros Hn. unfold fits in Hn. cbn [le_combine]. rewrite Z.lor_comm, Z.shiftl_mul_pow2 by lia.
  replace ((n / 256 + 256 * 0) * 2 ^ 8) with (2 ^ 8 * (n / 256)) by lia.
  rewrite lor_shifted by div_lia. rewrite wrap_small; unfold fits; div_lia.
Qed.

Lemma vtcfl_nibble b :
  0x60 <= b < 0x70 -> Z.land (Z.shiftr (le_combine [b]) 4) 0x0F = 6 /\ Z.shiftr (le_combine [b]) 4 = 6.
Proof.
  intros Hb. cbn [le_combine]. rewrite Z.shiftr_div_pow2 by lia.
  replace ((b + 256 * 0) / 2 ^ 4) with 6 by div_lia. done.
Qed.

(** A field after a header of known length. *)
Ltac mafter off n bs Hb Hlen :=
  mbind_with ltac:(eapply (run_rd_slice _ _ _ off n bs);
    [exact Hb | done | rewrite slice_app_skip by (rewrite Hlen; done); rewrite Hlen; reflexivity | done | done]).

Lemma capture_udp s data src sport dst dport payload v6 pkt :
  udp_packet src sport dst dport payload v6 pkt -> bytes_at (st_heap s) data pkt -> fits 16 dport ->
  capture_udp_dst data (zlen pkt) s
  = Done (true, set_bridge (set_udp_dst dport (if v6 then addr6 dst else addr4 dst) (st_bridge s)) s).
Proof.
  intros Hpkt Hb Hdp. pose proof (zlen_nonneg payload) as Hpl.
  pose proof (udp_packet_length _ _ _ _ _ _ _ Hpkt) as Hlen. unfold IP_HLEN, IP6_HLEN in Hlen.
  destruct Hpkt as [tos id frag ttl csum ulen ucsum [Hsb Hsl] [Hdb Hdl] Hfrag Hcs Huc
    | vtcfl hl ulen ucsum [Hsb Hsl] [Hdb Hdl] Hv Huc].
  - destruct (four_bytes src Hsl) as (x0 & x1 & x2 & x3 & Esrc), (four_bytes dst Hdl) as (y0 & y1 & y2 & y3 & Edst),
      (two_bytes csum Hcs) as (c0 & c1 & Ecs).
    unfold capture_udp_dst. mfield 0 1 [0x45] Hb.
    rewrite Hlen, (proj2 (Z.leb_le 20 (20 + 8 + zlen payload))) by lia. cbn [le_combine].
    change (Z.land (Z.shiftr (69 + 256 * 0) 4) 15 =? 4) with true. cbn [andb].
    mfield 9 1 [IP_PROTO_UDP] Hb. change (le_combine [IP_PROTO_UDP] =? 17) with true.
    change (u8 (Z.land (69 + 256 * 0) 15 * 4)) with 20. rewrite (proj2 (Z.leb_le (20 + 8) (20 + 8 + zlen payload))) by lia.
    cbn [andb]. mfield 22 1 [dport / 256] Hb. mfield 23 1 [dport mod 256] Hb. mfield 16 4 dst Hb.
    rewrite be16_or by done. by mdo.
  - destruct (vtcfl_version _ Hv) as [Hvl _]. destruct Hv as [Hvb (b & r & -> & Hbr & Hrl)].
    pose proof (ip6_header_length (b :: r) (8 + zlen payload) IP_PROTO_UDP hl src dst Hvl Hsl Hdl) as Hhl.
    destruct (four_bytes (b :: r) Hvl) as (v0 & v1 & v2 & v3 & Ev).
    destruct (vtcfl_nibble b Hbr) as [Hb4 _].
    unfold capture_udp_dst. mfield 0 1 [b] Hb. rewrite Hlen, Hb4. cbn [Z.eqb andb].
    rewrite (proj2 (Z.leb_le 40 (40 + 8 + zlen payload))) by lia. mfield 6 1 [IP_PROTO_UDP] Hb.
    rewrite (proj2 (Z.leb_le 48 (40 + 8 + zlen payload))) by lia.
    change ((le_combine [IP_PROTO_UDP] =? 17) && true) with true. cbv iota.
    mafter 42 1 [dport / 256] Hb Hhl. mafter 43 1 [dport mod 256] Hb Hhl.
    mbind_with ltac:(eapply (run_rd_ip6 _ _ _ 24 dst); [exact Hb|done|by apply ip6_header_dst|done]).
    rewrite be16_or by done. by mdo.
Qed.

(** ** The packet *)

(** The state in which the protocols see the packet. *)
Definition arrived (s : stack) (p : ptr) (pb : pbuf) (free : nat) (port : Z) (ip : ip_addr_t) : stack :=
  set_heap (put (mk_heap (h_pbufs (st_heap s)) (h_mem (st_heap s)) (Pos.succ p) free (h_memp_pool (st_heap s))) p pb)
    (set_bridge (set_udp_dst port ip (st_bridge s)) s).

Definition reference (data : addr) (n : Z) : pbuf := pbuf_init_alloced_pbuf (Some data) n n PBUF_REF 0.

Lemma input_arrives s data src sport dst dport payload v6 pkt free s2 :
  ready s -> udp_packet src sport dst dport payload v6 pkt -> bytes_at (st_heap s) data pkt -> fits 16 dport ->
  0 < zlen pkt < 2 ^ 16 -> h_memp_pbuf (st_heap s) = S free ->
  let p := h_fresh (st_heap s) in
  ip_input machine tcp_input nd6_input (Some p)
    (arrived s p (reference data (zlen pkt)) free dport (if v6 then addr6 dst else addr4 dst)) = Done (ERR_OK, s2) ->
  lwip_bridge_input machine tcp_input nd6_input (Some data) (zlen pkt) s = Done (tt, s2).
Proof.
  intros Hr Hpkt Hb Hdp Hlen Hfree p Hin. unfold lwip_bridge_input.
  rewrite (proj2 (Z.leb_gt _ _)) by lia. mbind_with ltac:(by eapply capture_udp).
  cbn [negb]. rewrite wrap_small by (unfold fits; lia).
  pose proof (alloc_reference_spec (st_heap s) (Some data) (zlen pkt) PBUF_REF (re_heap _ Hr) ltac:(lia) (or_introl eq_refl)) as Ha.
  rewrite Hfree in Ha. destruct Ha as (Ha & _).
  mbind_with ltac:(apply run_on_heap; exact Ha).
  destruct (re_netif _ Hr) as (m & rs & Hn).
  mbind_with ltac:(unfold call_netif_input; mdo; cbn [st_netif set_heap set_bridge]; rewrite Hn; exact Hin). done.
Qed.

(** The buffer taken for the packet is given back. *)
Lemma reference_freed h p data n k1 k2 free :
  h_pbufs h !! p = None -> h_memp_pbuf h = S free ->
  let pb := reference data n in
  let pb2 := cut (cut pb data k1) (mk_addr (a_block data) (a_off data + k1)) k2 in
  freed (put (put (put (mk_heap (h_pbufs h) (h_mem h) (Pos.succ p) free (h_memp_pool h)) p pb) p
    (cut pb data k1)) p pb2) [(p, pb2)]
  = mk_heap (h_pbufs h) (h_mem h) (Pos.succ p) (h_memp_pbuf h) (h_memp_pool h).
Proof.
  intros Hp Hfree pb pb2. rewrite freed_single by done. change (alloc_src pb2) with 1. cbn. f_equal; [|done].
  by rewrite !insert_insert_eq, delete_insert_id.
Qed.

(** Either family: [ip_input] with the header of [n] bytes that sets the globals to [g]. *)
Lemma arrives_and_leaves s data sport dport payload (v6 : bool) src dst ulen ucsum pkt free n g leave :
  ready s -> bytes_at (st_heap s) data pkt -> fits 16 sport -> zlen ucsum = 2 ->
  (if v6 then is_addr6 src /\ is_addr6 dst else is_addr4 src /\ is_addr4 dst) ->
  h_memp_pbuf (st_heap s) = S free ->
  let p := h_fresh (st_heap s) in
  let pb := reference data (zlen pkt) in
  let s1 := arrived s p pb free dport (if v6 then addr6 dst else addr4 dst) in
  let a2 := mk_addr (a_block data) (a_off data + n) in
  current_iphdr_src g = (if v6 then addr6 src else addr4 src) ->
  current_iphdr_dest g = (if v6 then addr6 dst else addr4 dst) ->
  holds (put (st_heap s1) p (cut pb data n)) p (cut pb data n) a2 (udp_datagram sport dport ulen ucsum payload) ->
  exists s2,
    udp_input machine p (set_heap (put (st_heap s1) p (cut pb data n)) (set_ip_data g s1)) = Done (tt, s2)
    /\ let s' := set_ip_data (leave (st_ip_data s2)) s2 in
       st_trace s' = st_trace s ++ [udp_recv_up src sport dst dport v6 payload]
       /\ ready s' /\ same_resources s s'.
Proof.
  intros Hr Hb Hsp Huc Haddr Hfree p pb s1 a2 Hgs Hgd Hh.
  destruct (re_listen _ Hr) as (v4p & v6p & Hls).
  set (S := set_heap (put (st_heap s1) p (cut pb data n)) (set_ip_data g s1)).
  assert (listening S v4p v6p) as HlsS.
  { apply (listening_after s); [done|cbn; lia|by eexists _, _|done|by destruct Hls]. }
  assert (exists out1 out2,
    ip_addr_to_bytes (current_iphdr_src g) (fresh_block 16) = Done (out1, v6) /\ addr_of out1 v6 = Done src
    /\ ip_addr_to_bytes (if v6 then addr6 dst else addr4 dst) (fresh_block 16) = Done (out2, v6)
    /\ addr_of out2 v6 = Done dst) as (out1 & out2 & H1 & H2 & H3 & H4).
  { rewrite Hgs. destruct v6, Haddr as [Hs Hd].
    - destruct (to_bytes_v6 _ Hs) as (o1 & ? & ?), (to_bytes_v6 _ Hd) as (o2 & ? & ?). by exists o1, o2.
    - destruct (to_bytes_v4 _ Hs) as (o1 & ? & ?), (to_bytes_v4 _ Hd) as (o2 & ? & ?). by exists o1, o2. }
  destruct (udp_input_delivers machine S p (cut pb data n) a2 v6 src dst sport dport ulen ucsum payload
    v4p v6p out1 out2) as (l' & Hrun & Hl'); [done|exact (re_netif _ Hr)|apply (re_fns _ Hr)| |done..|].
  { cbn. rewrite Hgd. by destruct v6. }
  eexists. split; [exact Hrun|]. split; [done|].
  apply (ready_after s _ (Pos.succ p)); try done.
  - cbn. lia.
  - cbn [st_heap set_ip_data set_heap S s1 arrived]. apply reference_freed; [|done].
    apply (re_heap _ Hr). subst p. lia.
  - apply (re_id _ Hr).
  - by eexists _, _.
  - intros v4 v6' Hls2. destruct Hls as [? ? _ _ _ _], Hls2 as [? ? _ _ _ _]. cbn. by simplify_eq.
Qed.

Lemma reference_holds s data n free port ip pkt :
  bytes_at (st_heap s) data pkt -> n = zlen pkt -> n < 2 ^ 16 ->
  let p := h_fresh (st_heap s) in
  holds (st_heap (arrived s p (reference data n) free port ip)) p (reference data n) data pkt.
Proof. intros Hb -> Hn p. split; try done. apply put_lookup. Qed.

Lemma input_delivers_lemma s data src sport dst dport payload v6 pkt :
  ready s -> udp_packet src sport dst dport payload v6 pkt -> deliverable v6 src dst = true ->
  bytes_at (st_heap s) data pkt -> zlen pkt < 2 ^ 16 -> fits 16 sport -> fits 16 dport ->
  (0 < h_memp_pbuf (st_heap s))%nat ->
  exists s', lwip_bridge_input machine tcp_input nd6_input (Some data) (zlen pkt) s = Done (tt, s')
    /\ st_trace s' = st_trace s ++ [udp_recv_up src sport dst dport v6 payload]
    /\ ready s' /\ same_resources s s'.
Proof.
  intros Hr Hpkt Hok Hb Hlt Hsp Hdp Hpool. destruct (h_memp_pbuf (st_heap s)) as [|free] eqn:Hfree; [lia|].
  pose proof (zlen_nonneg payload) as Hpl.
  pose proof (udp_packet_length _ _ _ _ _ _ _ Hpkt) as Hlen. unfold IP_HLEN, IP6_HLEN in Hlen.
  set (p := h_fresh (st_heap s)). set (pb := reference data (zlen pkt)).
  set (s1 := arrived s p pb free dport (if v6 then addr6 dst else addr4 dst)).
  assert (holds (st_heap s1) p pb data pkt) as Hh by by apply reference_holds.
  pose proof (re_netif _ Hr) as Hnet.
  assert (0 < zlen pkt) as Hpos by (destruct v6; lia).
  pose proof (input_arrives s data src sport dst dport payload v6 pkt free) as Hin.
  destruct Hpkt as [tos id frag ttl csum ulen ucsum Hsrc Hdst Hfrag Hc Hu|vtcfl hl ulen ucsum Hsrc Hdst Hv Hu].
  - cbn [deliverable] in Hok. apply andb_true_iff in Hok as [Hok1 Hok2%negb_true_iff].
    destruct (arrives_and_leaves s data sport dport payload false src dst ulen ucsum _ free IP_HLEN
      (entered4 data src dst (st_ip_data s1)) left4 Hr Hb) as (s2 & Hudp & Htr & Hr' & Hsr); try done.
    { eapply holds_cut; [exact Hh|]. by rewrite ip4_header_length by apply Hsrc || apply Hdst || done. }
    eexists. split; [|by split; [exact Htr|split; [exact Hr'|exact Hsr]]].
    eapply Hin; [done|by constructor|done..|]. unfold ip_input.
    mbind_with ltac:(eapply run_payload; [apply (ho_pbuf _ _ _ _ _ Hh)|reflexivity]).
    mfield 0 1 [0x45] Hb. change (Z.shiftr (le_combine [69]) 4 =? 6) with false. cbv iota.
    apply (ip4_input_udp machine tcp_input s1 p pb data tos (28 + zlen payload) id frag ttl csum src dst
      (udp_datagram sport dport ulen ucsum payload)); try done.
    rewrite udp_datagram_length by done. unfold IP_HLEN. lia.
  - cbn [deliverable] in Hok. apply andb_true_iff in Hok as [Hok1 Hok2].
    destruct (vtcfl_version _ Hv) as [Hvl _].
    destruct (arrives_and_leaves s data sport dport payload true src dst ulen ucsum _ free IP6_HLEN
      (entered6 data src dst (st_ip_data s1)) left6 Hr Hb) as (s2 & Hudp & Htr & Hr' & Hsr); try done.
    { eapply holds_cut; [exact Hh|]. by rewrite ip6_header_length by apply Hsrc || apply Hdst || done. }
    eexists. split; [|by split; [exact Htr|split; [exact Hr'|exact Hsr]]].
    eapply Hin; [done|by constructor|done..|]. unfold ip_input.
    mbind_with ltac:(eapply run_payload; [apply (ho_pbuf _ _ _ _ _ Hh)|reflexivity]).
    pose proof Hv as [_ (b & r & -> & Hbr & _)].
    mfield 0 1 [b] Hb. destruct (vtcfl_nibble b Hbr) as [_ ->]. cbn [Z.eqb].
    apply (ip6_input_udp machine tcp_input nd6_input s1 p pb data (b :: r) (8 + zlen payload) hl src dst
      (udp_datagram sport dport ulen ucsum payload)); try done.
    by rewrite udp_datagram_length.
Qed.
End proofs.
