(* ===== verification/BridgeInit.v ===== *)
(** * Starting and stopping the stack

    [lwip_bridge_init] from the statics of a fresh process or over a running stack, and
    [lwip_bridge_shutdown], with what the unmodelled parts may do in between. *)
From Stdlib Require Import ZArith Lia.
From stdpp Require Import base list option numbers gmap.
From S2P Require Import Prelude Pbuf PbufChain PbufRead PbufFree PbufWrite Chksum ChksumProofs Lwip IpOut Icmp Udp IpIn Netif Bridge LwipRun UdpInProofs IpInProofs UdpDeliver.

(** The port that [udp_new_port] gave out last. *)
Definition port_in_range (u : udp_state) : Prop :=
  UDP_LOCAL_PORT_RANGE_START <= udp_port u <= UDP_LOCAL_PORT_RANGE_END.

(** Buffers may come and go, packets be sent and calls be made, another UDP port be the
    next; but the interface, the UDP blocks and the bridge stay as they are. *)
Record keeps (s s' : stack) : Prop := {
  k_heap : heap_ok (st_heap s) -> heap_ok (st_heap s');
  k_fresh : (h_fresh (st_heap s) <= h_fresh (st_heap s'))%positive;
  k_netif : st_netif s' = st_netif s;
  k_default : st_netif_default s' = st_netif_default s;
  k_id : fits 16 (st_ip_id s) -> fits 16 (st_ip_id s');
  k_store : udp_store (st_udp s') = udp_store (st_udp s);
  k_pcbs : udp_pcbs (st_udp s') = udp_pcbs (st_udp s);
  k_memp : memp_udp (st_udp s') = memp_udp (st_udp s);
  k_port : port_in_range (st_udp s) -> port_in_range (st_udp s');
  k_bridge : st_bridge s' = st_bridge s;
}.

#[export] Instance keeps_preorder : PreOrder keeps.
Proof.
  split; [by split|]. intros s1 s2 s3 [] []. split; try (by etransitivity; eauto); auto.
Qed.

(** A part that comes back from any state with a sound heap, and keeps to itself. *)
Definition neutral (m : M unit) : Prop :=
  forall s, heap_ok (st_heap s) -> exists s', m s = Done (tt, s') /\ keeps s s'.

(** No interface and no UDP block. *)
Record stopped (s : stack) : Prop := {
  sp_heap : heap_ok (st_heap s);
  sp_netif : ip4_addr_isany (ip_2_ip4 (n_ip_addr (st_netif s))) = true;
  sp_default : st_netif_default s = false;
  sp_fns : s_output_fn (st_bridge s) = true /\ s_udp_recv_fn (st_bridge s) = true;
  sp_store : udp_store (st_udp s) = ∅;
  sp_pcbs : udp_pcbs (st_udp s) = [];
  sp_memp : (2 <= memp_udp (st_udp s))%nat;
  sp_port : UDP_LOCAL_PORT_RANGE_START <= udp_port (st_udp s) <= UDP_LOCAL_PORT_RANGE_END;
  sp_id : fits 16 (st_ip_id s);
}.

Lemma neutral_keeps m s :
  neutral m -> heap_ok (st_heap s) -> exists s', m s = Done (tt, s') /\ keeps s s' /\ heap_ok (st_heap s').
Proof. intros Hm Hok. destruct (Hm s Hok) as (s' & Hrun & Hk). exists s'. split_and!; [done..|by apply Hk]. Qed.

(** [lwip_init] gives UDP another first port. *)
Lemma ensured_port_in_range rand :
  UDP_LOCAL_PORT_RANGE_START <= UDP_ENSURE_LOCAL_PORT_RANGE rand <= UDP_LOCAL_PORT_RANGE_END.
Proof.
  unfold UDP_ENSURE_LOCAL_PORT_RANGE, UDP_LOCAL_PORT_RANGE_START, UDP_LOCAL_PORT_RANGE_END.
  change (u16 (Z.lnot 0xc000)) with (Z.ones 14). rewrite Z.land_ones by lia.
  pose proof (Z.mod_pos_bound rand (2 ^ 14) ltac:(lia)). rewrite wrap_small by (unfold fits; lia). lia.
Qed.

Section proofs.
Context `{Malloc}.
Variables (nd6_cleanup_netif call_lwip_init open_tcp_listeners lwip_bridge_abort_all_tcp close_tcp_listeners : M unit).
Variable tcp_netif_ip_addr_changed : ip_addr_t -> option ip_addr_t -> M unit.
Hypothesis nd6_neutral : neutral nd6_cleanup_netif.
Hypothesis init_neutral : neutral call_lwip_init.
Hypothesis open_neutral : neutral open_tcp_listeners.
Hypothesis abort_neutral : neutral lwip_bridge_abort_all_tcp.
Hypothesis close_neutral : neutral close_tcp_listeners.
Hypothesis changed_neutral : forall a b, neutral (tcp_netif_ip_addr_changed a b).

(** ** A listener *)

(** The state with the listener [q] in front. *)
Definition listener_added (s : stack) (type : Z) (port : Z) (n : nat) : stack :=
  let q := h_fresh (st_heap s) in
  let h := st_heap s in
  set_heap (mk_heap (h_pbufs h) (h_mem h) (Pos.succ q) (h_memp_pbuf h) (h_memp_pool h))
    (set_udp (mk_udp (<[q := wildcard_pcb type]> (udp_store (st_udp s))) (q :: udp_pcbs (st_udp s)) port n) s).

Lemma run_open_listener s (v6 : bool) l n :
  read_pcbs (udp_store (st_udp s)) (udp_pcbs (st_udp s)) = Done l -> Forall (fun x => u_local_port x.2 = 0) l ->
  h_fresh (st_heap s) ∉ udp_pcbs (st_udp s) -> memp_udp (st_udp s) = S n ->
  UDP_LOCAL_PORT_RANGE_START <= udp_port (st_udp s) <= UDP_LOCAL_PORT_RANGE_END ->
  exists port, open_udp_listener v6 s
      = Done (Some (h_fresh (st_heap s)), listener_added s (family v6) port n)
    /\ UDP_LOCAL_PORT_RANGE_START <= port <= UDP_LOCAL_PORT_RANGE_END.
Proof.
  intros Hl Hports Hq Hm Hport. set (q := h_fresh (st_heap s)) in *.
  set (pcb := sender_pcb v6 (mk_ip_addr [0; 0; 0; 0] (family v6)) 0).
  set (any := if v6 then IP6_ADDR_ANY else IP4_ADDR_ANY).
  destruct (run_udp_bind_any s n any pcb l Hl Hports Hq Hport) as (port & Hpr & Hbind). fold q in Hbind.
  exists port. split; [|done]. unfold open_udp_listener.
  mbind_with ltac:(instantiate (2 := Some q); instantiate (1 := with_pcb s q pcb (udp_pcbs (st_udp s)) n);
    destruct v6; [by apply (run_udp_new s true)|by unfold udp_new; rewrite Hm]).
  mbind_with ltac:(exact Hbind).
  mbind_with ltac:(unfold get_pcb; cbn [st_udp with_port with_pcb set_heap set_udp udp_store set_udp_port];
    rewrite lookup_insert_eq; reflexivity).
  mdo. mbind_with ltac:(unfold udp_recv; mbind_with ltac:(unfold get_pcb, set_store;
    cbn [st_udp with_port with_pcb set_heap set_udp udp_store set_udp_port];
    rewrite lookup_insert_eq; reflexivity); reflexivity).
  unfold mret, M_ret. do 2 f_equal. unfold with_port, with_pcb, set_store, listener_added, bump. cbn.
  rewrite !insert_insert_eq. unfold any. by destruct v6.
Qed.

(** ** Stopping *)

Lemma neutral_ret : neutral (mret tt).
Proof. intros s _. by exists s. Qed.

Lemma neutral_bind m1 m2 : neutral m1 -> neutral m2 -> neutral (_ ← m1; m2).
Proof.
  intros H1 H2 s Hok. destruct (neutral_keeps m1 s H1 Hok) as (s1 & Hr1 & Hk1 & Hok1).
  destruct (H2 s1 Hok1) as (s2 & Hr2 & Hk2).
  exists s2. split; [by mbind_with ltac:(exact Hr1)|]. by etransitivity.
Qed.

Lemma neutral_foldl {A} (f : A -> M unit) l m :
  neutral m -> (forall x, neutral (f x)) -> neutral (foldl (fun m x => _ ← m; f x) m l).
Proof. revert m. induction l as [|x l IH]; intros m Hm Hf; cbn; [done|]. apply IH; [|done]. by apply neutral_bind. Qed.

Lemma neutral_addr_removed a : neutral (netif_do_ip_addr_changed tcp_netif_ip_addr_changed a None).
Proof. apply neutral_bind; [apply changed_neutral|apply neutral_ret]. Qed.

Lemma neutral_udp_port port :
  UDP_LOCAL_PORT_RANGE_START <= port <= UDP_LOCAL_PORT_RANGE_END -> neutral (modify_udp (set_udp_port port)).
Proof. intros Hp s _. eexists. split; [reflexivity|]. by split. Qed.

Lemma neutral_lwip_init rand tcp_init sys_timeouts_init :
  neutral tcp_init -> neutral sys_timeouts_init -> neutral (lwip_init rand tcp_init sys_timeouts_init).
Proof.
  intros Ht Hs. apply neutral_bind; [apply neutral_udp_port, ensured_port_in_range|]. by apply neutral_bind.
Qed.

(** The interface goes down: its flags change. *)
Lemma run_set_down s :
  heap_ok (st_heap s) ->
  exists s', netif_set_down nd6_cleanup_netif s = Done (tt, s')
    /\ netif_is_up (st_netif s') = false /\ (exists f, keeps (set_netif (n_set_flags f (st_netif s)) s) s').
Proof.
  intros Hok. unfold netif_set_down. destruct (netif_is_up (st_netif s)) eqn:Hup.
  - set (f := Z.land (n_flags (st_netif s)) (u8 (Z.lnot NETIF_FLAG_UP))).
    destruct (nd6_neutral (set_netif (n_set_flags f (st_netif s)) s) Hok) as (s1 & Hrun & Hk).
    exists s1. split; [by mdo; rewrite Hup; mdo|]. split; [|by exists f].
    rewrite (k_netif _ _ Hk). unfold netif_is_up. cbn [st_netif set_netif n_flags n_set_flags]. unfold f.
    by rewrite <-Z.land_assoc, Z.land_0_r.
  - exists s. split; [by mdo; rewrite Hup|]. split; [done|]. exists (n_flags (st_netif s)). by destruct s as [? [] ? ? ? ? ? ?].
Qed.

(** The interface goes down and is forgotten. *)
Lemma run_netif_remove s :
  ip4_addr_isany (ip_2_ip4 (n_ip_addr (st_netif s))) = true -> heap_ok (st_heap s) ->
  exists s', (_ ← netif_set_down nd6_cleanup_netif; netif_remove tcp_netif_ip_addr_changed nd6_cleanup_netif) s = Done (tt, s')
    /\ n_ip_addr (st_netif s') = n_ip_addr (st_netif s) /\ st_netif_default s' = false
    /\ exists n d, keeps (set_netif_default d (set_netif n s)) s'.
Proof.
  intros Hany Hok. destruct (run_set_down s Hok) as (s1 & Hrun1 & Hdown & f & Hk1).
  pose proof (k_heap _ _ Hk1 Hok) as Hok1. pose proof (k_netif _ _ Hk1) as Hn1. cbn in Hn1.
  ebind_with ltac:(exact Hrun1). cbn in *. unfold netif_remove. ebind_with ltac:(reflexivity).
  replace (n_ip_addr (st_netif s1)) with (n_ip_addr (st_netif s)) by by rewrite Hn1.
  rewrite Hany. cbn [negb]. ebind_with ltac:(reflexivity).
  destruct (neutral_foldl (fun x : ip_addr_t * Z => if ip6_addr_isvalid x.2
      then netif_do_ip_addr_changed tcp_netif_ip_addr_changed x.1 None else mret tt)
    (netif_ip6 (st_netif s1)) (mret tt) neutral_ret) with s1 as (s2 & Hrun2 & Hk2).
  { intros x. destruct (ip6_addr_isvalid x.2); [apply neutral_addr_removed|apply neutral_ret]. }
  { done. }
  ebind_with ltac:(exact Hrun2). ebind_with ltac:(reflexivity).
  pose proof (k_netif _ _ Hk2) as Hn2. rewrite Hn2, Hdown.
  ebind_with ltac:(reflexivity). ebind_with ltac:(reflexivity).
  exists (set_netif_default false s2).
  split; [by destruct s2 as [? ? [] ? ? ? ? ?]|]. split; [cbn; by rewrite Hn2, Hn1|]. split; [done|].
  exists (st_netif s2), false. pose proof (transitivity Hk1 Hk2) as [Ho Hf _ _ Hi H1 H2 H3 H4 H5]. by split.
Qed.

(** Both listeners go back to the pool. *)
Lemma both_removed (v4 v6 : ptr) (x y : udp_pcb) :
  v4 <> v6 -> delete v6 (delete v4 (<[v4 := x]> ({[v6 := y]} : gmap ptr udp_pcb))) = ∅.
Proof.
  intros Hne. rewrite delete_insert_id by by rewrite lookup_singleton_ne. apply map_eq. intros k.
  rewrite lookup_empty. destruct (decide (k = v6)) as [->|Hk]; [by rewrite lookup_delete_eq|].
  by rewrite lookup_delete_ne, lookup_singleton_ne.
Qed.

Lemma both_unlinked (v4 v6 : ptr) l :
  v4 <> v6 -> l = [v6; v4] \/ l = [v4; v6] -> unlink v6 (unlink v4 l) = [].
Proof. intros Hne [-> | ->]; cbn; repeat (case_bool_decide; cbn; simplify_eq); done. Qed.

(** Every listener that there is goes back to the pool: what is left. *)
Record left_over := mk_left { lo_store : gmap ptr udp_pcb; lo_pcbs : list ptr; lo_memp : nat; lo_bridge : bridge }.

Definition left_over_of (s : stack) : left_over :=
  mk_left (udp_store (st_udp s)) (udp_pcbs (st_udp s)) (memp_udp (st_udp s)) (st_bridge s).

Definition listeners_done (s : stack) (r : left_over) : Prop :=
  match udp_listen_pcb_v4 (st_bridge s), udp_listen_pcb_v6 (st_bridge s) with
  | Some v4, Some v6 =>
      r = mk_left (delete v6 (delete v4 (udp_store (st_udp s)))) (unlink v6 (unlink v4 (udp_pcbs (st_udp s))))
            (S (S (memp_udp (st_udp s)))) (set_udp_listen None None (st_bridge s))
  | None, None => r = left_over_of s
  | _, _ => False
  end.

(** The end of [lwip_bridge_shutdown]: the interface is gone. *)
Definition interface_gone (s s' : stack) : Prop :=
  heap_ok (st_heap s') /\ n_ip_addr (st_netif s') = n_ip_addr (st_netif s) /\ st_netif_default s' = false
  /\ (fits 16 (st_ip_id s) -> fits 16 (st_ip_id s')) /\ (port_in_range (st_udp s) -> port_in_range (st_udp s')).

Lemma run_shutdown s r :
  ip4_addr_isany (ip_2_ip4 (n_ip_addr (st_netif s))) = true -> heap_ok (st_heap s) -> listeners_done s r ->
  exists s', lwip_bridge_shutdown nd6_cleanup_netif tcp_netif_ip_addr_changed lwip_bridge_abort_all_tcp close_tcp_listeners s
      = Done (tt, s') /\ interface_gone s s' /\ left_over_of s' = r.
Proof.
  intros Hany Hok Hr. unfold lwip_bridge_shutdown.
  destruct (neutral_keeps _ s abort_neutral Hok) as (s1 & Hrun1 & Hk1 & Hok1). ebind_with ltac:(exact Hrun1).
  destruct (neutral_keeps _ s1 close_neutral Hok1) as (s2 & Hrun2 & Hk2 & Hok2). ebind_with ltac:(exact Hrun2).
  pose proof (transitivity Hk1 Hk2) as [_ _ Hn Hd Hi Hst Hpc Hm Hp Hb].
  ebind_with ltac:(reflexivity). rewrite Hb. unfold listeners_done in Hr.
  assert (forall S, ip4_addr_isany (ip_2_ip4 (n_ip_addr (st_netif S))) = true -> heap_ok (st_heap S) ->
    n_ip_addr (st_netif S) = n_ip_addr (st_netif s) -> (fits 16 (st_ip_id s) -> fits 16 (st_ip_id S)) ->
    (port_in_range (st_udp s) -> port_in_range (st_udp S)) -> left_over_of S = r ->
    exists s', (_ ← netif_set_down nd6_cleanup_netif; netif_remove tcp_netif_ip_addr_changed nd6_cleanup_netif) S = Done (tt, s')
      /\ interface_gone s s' /\ left_over_of s' = r) as Hend.
  { intros S Ha Hh Hna Hid Hpo Hl. destruct (run_netif_remove S Ha Hh) as (s3 & Hrun3 & Hn3 & Hd3 & n & d & Hk3).
    exists s3. split; [exact Hrun3|]. destruct Hk3 as [Ho _ _ _ Hi3 Hst3 Hpc3 Hm3 Hp3 Hb3]. cbn in *.
    split; [split_and!; auto; congruence|]. rewrite <- Hl. unfold left_over_of. by rewrite Hst3, Hpc3, Hm3, Hb3. }
  destruct (udp_listen_pcb_v4 (st_bridge s)) as [v4|] eqn:E4, (udp_listen_pcb_v6 (st_bridge s)) as [v6|] eqn:E6; try done.
  all: ebind_with ltac:(reflexivity); ebind_with ltac:(reflexivity); apply Hend; cbn; try (by rewrite Hn); try done.
  - unfold left_over_of. cbn. by rewrite Hr, Hst, Hpc, Hm, Hb.
  - rewrite Hr. unfold left_over_of. by rewrite Hst, Hpc, Hm, Hb.
Qed.

(** ** Starting *)

(** The interface as [netif_add] leaves it, before its address is valid. *)
Definition added_netif : netif :=
  n_set_ip6 (replicate 3 IP6_ADDR_ANY) (replicate 3 IP6_ADDR_INVALID) (tun_netif 1500 LWIP_ND6_MAX_MULTICAST_SOLICIT).

Lemma run_netif_add s :
  st_netif_default s = false ->
  netif_add tcp_netif_ip_addr_changed 0 0 0 tun_netif_init_fn s = Done (true, set_netif added_netif s).
Proof. intros Hd. unfold netif_add. mdo. by rewrite Hd. Qed.

Lemma run_set_up s : st_netif s = added_netif -> netif_set_up s = Done (tt, s).
Proof. intros Hn. unfold netif_set_up. mdo. by rewrite Hn. Qed.

Lemma run_set_any s : st_netif s = added_netif ->
  netif_ip6_addr_set tcp_netif_ip_addr_changed 0 [0; 0; 0; 0] s = Done (tt, s).
Proof. intros Hn. unfold netif_ip6_addr_set. mdo. by rewrite Hn. Qed.

Lemma run_set_valid s : st_netif s = added_netif ->
  netif_ip6_addr_set_state tcp_netif_ip_addr_changed 0 IP6_ADDR_VALID s
  = Done (tt, set_netif (tun_netif 1500 LWIP_ND6_MAX_MULTICAST_SOLICIT) s).
Proof.
  intros Hn. unfold netif_ip6_addr_set_state. mdo. rewrite Hn. cbn. mdo.
  unfold modify_netif, modify. by rewrite Hn.
Qed.

Definition init_listeners : M unit :=
  v4 ← open_udp_listener false;
  _ ← modify_bridge (fun b => set_udp_listen v4 (udp_listen_pcb_v6 b) b);
  v6 ← open_udp_listener true;
  modify_bridge (fun b => set_udp_listen (udp_listen_pcb_v4 b) v6 b).

Lemma run_init_listeners s n :
  udp_store (st_udp s) = ∅ -> udp_pcbs (st_udp s) = [] -> memp_udp (st_udp s) = S (S n) ->
  UDP_LOCAL_PORT_RANGE_START <= udp_port (st_udp s) <= UDP_LOCAL_PORT_RANGE_END ->
  exists s', init_listeners s = Done (tt, s')
    /\ ((heap_ok (st_heap s) -> heap_ok (st_heap s')) /\ st_netif s' = st_netif s
        /\ st_netif_default s' = st_netif_default s /\ st_ip_id s' = st_ip_id s
        /\ UDP_LOCAL_PORT_RANGE_START <= udp_port (st_udp s') <= UDP_LOCAL_PORT_RANGE_END
        /\ memp_udp (st_udp s') = n
        /\ (exists v4 v6, st_bridge s' = set_udp_listen (Some v4) (Some v6) (st_bridge s) /\ listening s' v4 v6)).
Proof.
  intros Hst Hl Hm Hport. unfold init_listeners.
  destruct (run_open_listener s false [] (S n)) as (port & Hrun & Hpr);
    [by rewrite Hst, Hl|done|rewrite Hl; apply not_elem_of_nil|done|done|].
  ebind_with ltac:(exact Hrun). ebind_with ltac:(reflexivity).
  set (v4 := h_fresh (st_heap s)) in *.
  set (s1 := set_bridge _ _).
  destruct (run_open_listener s1 true [(v4, wildcard_pcb IPADDR_TYPE_V4)] n) as (port6 & Hrun6 & Hpr6); try done.
  { cbn. rewrite Hl. fold v4. cbn [read_pcbs]. by rewrite lookup_insert_eq. }
  { by constructor. }
  { cbn. rewrite Hl. fold v4. intros Hin. apply elem_of_cons in Hin as [Hin|Hin]; [lia|by apply not_elem_of_nil in Hin]. }
  ebind_with ltac:(exact Hrun6). eexists. split; [reflexivity|]. cbn. fold v4. destruct Hpr6. split_and!; try done.
  - intros Hok k Hk. apply Hok. cbn in Hk. lia.
  - exists v4, (Pos.succ v4). split; [done|]. split; cbn; try done; fold v4.
    + lia.
    + rewrite Hst, <-(insert_empty (Pos.succ v4)). by rewrite insert_insert_ne by lia.
    + rewrite Hl. by left.
    + lia.
Qed.

(** ** The whole of [lwip_bridge_init] *)

Definition bridge_init : M unit :=
  lwip_bridge_init nd6_cleanup_netif tcp_netif_ip_addr_changed call_lwip_init open_tcp_listeners
    lwip_bridge_abort_all_tcp close_tcp_listeners.
Definition bridge_shutdown : M unit :=
  lwip_bridge_shutdown nd6_cleanup_netif tcp_netif_ip_addr_changed lwip_bridge_abort_all_tcp close_tcp_listeners.

(** Shut down, and the listeners forgotten. *)
Definition shut (s : stack) : Prop :=
  stopped s /\ initialized (st_bridge s) = true
  /\ udp_listen_pcb_v4 (st_bridge s) = None /\ udp_listen_pcb_v6 (st_bridge s) = None.

Lemma shutdown_ready s :
  ready s -> exists s', bridge_shutdown s = Done (tt, s')
    /\ (shut s' /\ memp_udp (st_udp s') = S (S (memp_udp (st_udp s)))).
Proof.
  intros Hr. destruct (re_listen _ Hr) as (v4 & v6 & Hls). destruct (re_netif _ Hr) as (m & rs & Hn).
  pose proof Hls as [Hb4 Hb6 Hne Hst Hl _].
  destruct (run_shutdown s (mk_left ∅ [] (S (S (memp_udp (st_udp s)))) (set_udp_listen None None (st_bridge s))))
    as (s' & Hrun & (Hok & Hnn & Hd & Hi & Hp) & [= Hst' Hl' Hm' Hb']).
  - by rewrite Hn.
  - apply (re_heap _ Hr).
  - unfold listeners_done. by rewrite Hb4, Hb6, Hst, both_removed, both_unlinked.
  - exists s'. split; [exact Hrun|]. split; [|done]. unfold shut. rewrite Hb'.
    split; [|split; [apply (re_init _ Hr)|done]].
    split; rewrite ?Hst', ?Hl', ?Hm', ?Hb', ?Hd; cbn; try done; [by rewrite Hnn, Hn|apply (re_fns _ Hr)|lia|apply Hp, (re_port _ Hr)|apply Hi, (re_id _ Hr)].
Qed.

Lemma shutdown_shut s :
  shut s -> exists s', bridge_shutdown s = Done (tt, s') /\ (shut s' /\ memp_udp (st_udp s') = memp_udp (st_udp s)).
Proof.
  intros (Hs & Hi & H4 & H6).
  destruct (run_shutdown s (left_over_of s)) as (s' & Hrun & (Hok & Hnn & Hd & Hid & Hp) & [= Hst' Hl' Hm' Hb']).
  - apply (sp_netif _ Hs).
  - apply (sp_heap _ Hs).
  - unfold listeners_done. by rewrite H4, H6.
  - exists s'. split; [exact Hrun|]. split; [|done]. unfold shut. rewrite Hb'. split; [|done].
    destruct Hs as [? ? ? ? ? ? ? ? ?]. split; rewrite ?Hst', ?Hl', ?Hm', ?Hb', ?Hd; try done; [by rewrite Hnn|by apply Hp|by apply Hid].
Qed.

(** From a stopped stack on. *)
Lemma start_stopped s :
  stopped s -> initialized (st_bridge s) = true ->
  exists s', (_ ← netif_add tcp_netif_ip_addr_changed 0 0 0 tun_netif_init_fn;
      _ ← netif_set_default true;
      _ ← netif_set_up;
      _ ← netif_ip6_addr_set tcp_netif_ip_addr_changed 0 [0; 0; 0; 0];
      _ ← netif_ip6_addr_set_state tcp_netif_ip_addr_changed 0 IP6_ADDR_VALID;
      _ ← open_tcp_listeners;
      init_listeners) s = Done (tt, s')
    /\ (ready s' /\ memp_udp (st_udp s') = (memp_udp (st_udp s) - 2)%nat).
Proof.
  intros [Hok Hnn Hd Hf Hst Hl Hm Hp Hi] Hinit.
  set (s0 := set_netif_default true (set_netif added_netif s)).
  ebind_with ltac:(by apply run_netif_add). ebind_with ltac:(instantiate (1 := s0); reflexivity).
  ebind_with ltac:(by apply run_set_up). ebind_with ltac:(by apply run_set_any). ebind_with ltac:(by apply run_set_valid).
  destruct (open_neutral (set_netif (tun_netif 1500 LWIP_ND6_MAX_MULTICAST_SOLICIT) s0) Hok)
    as (s1 & Hrun1 & [Ho1 Hf1 Hn1 Hd1 Hi1 Hst1 Hl1 Hm1 Hp1 Hb1]).
  ebind_with ltac:(exact Hrun1). cbn in *.
  destruct (run_init_listeners s1 (memp_udp (st_udp s) - 2)%nat)
    as (s2 & Hrun2 & Ho2 & Hn2 & Hd2 & Hi2 & Hp2 & Hm2 & v4 & v6 & Hb2 & Hls2);
    [by rewrite Hst1|by rewrite Hl1|rewrite Hm1; lia|by apply Hp1|].
  exists s2. split; [exact Hrun2|]. split; [|done]. split; rewrite ?Hn2, ?Hd2, ?Hi2, ?Hb2, ?Hn1, ?Hb1; cbn; auto.
  - by exists 1500, LWIP_ND6_MAX_MULTICAST_SOLICIT.
  - by exists v4, v6.
Qed.

(** Over a fresh process, a running stack, or one that was shut down. *)
Lemma init_lemma s :
  (stopped s /\ initialized (st_bridge s) = false) \/ ready s \/ shut s ->
  exists s', bridge_init s = Done (tt, s') /\ ready s'
    /\ memp_udp (st_udp s') = (if bool_decide (udp_pcbs (st_udp s) = []) then memp_udp (st_udp s) - 2 else memp_udp (st_udp s))%nat.
Proof.
  intros Hs. unfold bridge_init, lwip_bridge_init.
  assert (exists s1, (b ← gets st_bridge; (if initialized b then bridge_shutdown else _ ← call_lwip_init; modify_bridge set_initialized)) s
      = Done (tt, s1) /\ stopped s1 /\ initialized (st_bridge s1) = true
      /\ memp_udp (st_udp s1) = (if bool_decide (udp_pcbs (st_udp s) = []) then memp_udp (st_udp s) else S (S (memp_udp (st_udp s)))))
    as (s1 & Hrun1 & Hs1 & Hi1 & Hm1).
  { destruct Hs as [[Hst Hi]|[Hr|Hsh]].
    - destruct (init_neutral s (sp_heap _ Hst)) as (s1 & Hrun1 & [Ho1 Hf1 Hn1 Hd1 Hi1 Hst1 Hl1 Hm1 Hp1 Hb1]).
      exists (set_bridge (set_initialized (st_bridge s1)) s1). split.
      { mdo. rewrite Hi. by mbind_with ltac:(exact Hrun1). }
      rewrite (sp_pcbs _ Hst), bool_decide_eq_true_2 by done. split; [|split; [done|by rewrite <- Hm1]].
      destruct Hst. split; cbn; rewrite ?Hb1, ?Hst1, ?Hl1, ?Hm1, ?Hn1, ?Hd1; auto; by apply Hp1.
    - destruct (shutdown_ready s Hr) as (s1 & Hrun1 & (Hst & Hi & _) & Hm). exists s1. split.
      { mdo. by rewrite (re_init _ Hr). }
      rewrite bool_decide_eq_false_2; [done|]. destruct (re_listen _ Hr) as (v4 & v6 & [_ _ _ _ [-> | ->] _]); done.
    - pose proof Hsh as (Hst0 & Hi0 & _). destruct (shutdown_shut s Hsh) as (s1 & Hrun1 & (Hst & Hi & _) & Hm). exists s1. split.
      { mdo. by rewrite Hi0. }
      by rewrite (sp_pcbs _ Hst0), bool_decide_eq_true_2. }
  destruct (start_stopped s1 Hs1 Hi1) as (s2 & Hrun2 & Hr2 & Hm2).
  exists s2. split; [|split; [done|]].
  - mdo. mbind_with ltac:(exact Hrun1). exact Hrun2.
  - rewrite Hm2, Hm1. destruct (bool_decide _); lia.
Qed.
End proofs.
