(* ===== verification/UdpSendProofs.v ===== *)
(** * Sending a datagram

    The UDP header and the IP header with their checksums, as [udp_sendto_if_src] and the
    output functions put them in front of the payload. *)
From Stdlib Require Import ZArith Lia.
From stdpp Require Import base list option numbers gmap.
From S2P Require Import Prelude Pbuf PbufChain PbufRead PbufFree PbufWrite Chksum ChksumProofs Lwip IpOut Icmp Udp IpIn Netif Bridge LwipRun UdpInProofs IpInProofs.

(** ** Reference checksums *)

(** RFC 1071: the complement of the one's-complement sum, in memory order. *)
Definition checksum (d : list Z) : list Z := le_split 2 (65535 - oc (words_sum d)).

(** RFC 768: a zero checksum is sent as all ones. *)
Definition udp_checksum (pseudo d : list Z) : list Z :=
  let c := 65535 - oc (words_sum (pseudo ++ d)) in le_split 2 (if c =? 0 then 0xffff else c).

(** The datagram with its checksum. *)
Definition udp_sent (src dst : ip_addr_t) (sport dport : Z) (payload : list Z) : list Z :=
  let len := 8 + zlen payload in
  udp_datagram sport dport len
    (udp_checksum (pseudo_header src dst IP_PROTO_UDP len) (udp_datagram sport dport len [0; 0] payload)) payload.

Lemma ram_contents h p off n pre d post :
  zlen pre = off -> n = zlen d -> n < 2 ^ 16 ->
  let h' := with_buf h p (ram_pbuf p off n) (pre ++ map Some d ++ post) in
  linked (Some p) None [(p, ram_pbuf p off n)] /\ stored h' [(p, ram_pbuf p off n)]
  /\ contents h' [(p, ram_pbuf p off n)] d.
Proof.
  intros Hpre -> Hn h'. split; [done|]. split; [constructor; [apply with_buf_pbuf|constructor]|].
  exists d, []. rewrite app_nil_r. split; [done|]. split; [done|]. split; [|done].
  unfold read_payload. cbn [p_payload ram_pbuf pbuf_init_alloced_pbuf a_block p_len].
  unfold h'. rewrite with_buf_mem. cbn [a_off]. apply load_bytes_middle; lia.
Qed.

(** *** The header checksum of IPv4 *)

Lemma fold_chk_sum_oc s : fits 32 s -> fold_chk_sum s = 65535 - oc s.
Proof.
  intros Hs. unfold fits in Hs. unfold fold_chk_sum. fold (FOLD_U32T s).
  pose proof (fold_bound s Hs) as Hb. pose proof (sums_fold s s (sums_refl s ltac:(lia)) ltac:(lia)) as Hf.
  set (x := FOLD_U32T s) in *. rewrite Z.shiftr_div_pow2 by lia.
  rewrite (wrap_small 32 (_ + x)) by (unfold fits; div_lia).
  assert (oc s = (x / 65536 + x) mod 65536) as ->; [|unfold wrap, Z.lnot; div_lia].
  symmetry. apply sums_oc; [|div_lia]. apply (sums_trans _ x); [|done].
  constructor; [div_lia|lia| |div_lia]. apply (cong_by (- (x / 65536))). div_lia.
Qed.

Lemma add_word_value c w :
  0 <= c -> fits 32 w -> c + 2 * 65535 < 2 ^ 32 -> add_word c w = c + words_sum (le_split 4 w).
Proof.
  intros Hc Hw Hlt. destruct (word_halves w Hw) as (<- & H1 & H2). unfold add_word.
  assert (Z.shiftr w 16 = Z.land (Z.shiftr w 16) 0xffff) as E.
  { unfold fits in Hw. change 0xffff with (Z.ones 16). rewrite Z.land_ones, Z.shiftr_div_pow2 by lia.
    rewrite Z.mod_small; [done|div_lia]. }
  rewrite <-E in H2 |- *. rewrite (wrap_small 32 (c + _)) by (unfold fits; lia). rewrite wrap_small by (unfold fits; lia). lia.
Qed.

Lemma htons_pair a b : is_byte a -> is_byte b ->
  lwip_htons (Z.lor a (Z.shiftl b 8)) = b + 256 * a.
Proof.
  unfold is_byte. intros Ha Hb. rewrite Z.shiftl_mul_pow2, (Z.mul_comm b), lor_shifted by lia.
  destruct (htons_be16 (a + 2 ^ 8 * b)) as [-> _]; [unfold fits; lia|]. unfold be16. cbn [words_sum]. div_lia.
Qed.

Section proofs.
Context `{Malloc}.
Variable machine : addr -> Z.

Lemma udp_fill_header_spec h p pcb dport v6 src dst pre payload post s :
  let n := 8 + zlen payload in
  zlen pre = 72 -> n < 2 ^ 16 -> are_bytes payload -> fits 16 (u_local_port pcb) -> fits 16 dport ->
  u_flags pcb = 0 -> ip_addr_ok v6 src -> ip_addr_ok v6 dst ->
  udp_fill_header machine pcb p dport src dst
    (set_heap (with_buf h p (ram_pbuf p 72 n) (pre ++ fresh_block 8 ++ map Some payload ++ post)) s)
  = Done (tt, set_heap (with_buf h p (ram_pbuf p 72 n)
      (pre ++ map Some (udp_sent src dst (u_local_port pcb) dport payload) ++ post)) s).
Proof.
  intros n Hpre Hn Hpb Hsp Hdp Hfl Hsrc Hdst. pose proof (zlen_nonneg payload).
  set (pb := ram_pbuf p 72 n). set (sp := u_local_port pcb) in *.
  unfold udp_fill_header. mbind_with ltac:(eapply run_get_pbuf, with_buf_pbuf).
  mbind_with ltac:(apply run_assert; cbn [p_len pb ram_pbuf pbuf_init_alloced_pbuf]; unfold UDP_HLEN; lia).
  mbind_with ltac:(eapply run_payload; [apply with_buf_pbuf|reflexivity]).
  rewrite Hfl. replace (IP_IS_V6 dst || (Z.land 0 UDP_FLAGS_NOCHKSUM =? 0)) with true by by destruct (IP_IS_V6 dst).
  cbn [p_tot_len pb ram_pbuf pbuf_init_alloced_pbuf]. fold sp.
  change (fresh_block 8) with [@None Z; None; None; None; None; None; None; None].
  set (P := map Some payload ++ post). rewrite <-Hpre. unfold wr16.
  mwrite pre [@None Z; None; None; None; None; None; None; None] P (be16 sp)
    (map Some (be16 sp) ++ [None; None; None; None; None; None]) ltac:(by apply htons_split).
  mwrite pre (map Some (be16 sp) ++ [None; None; None; None; None; None]) P (be16 dport)
    (map Some (be16 sp ++ be16 dport) ++ [None; None; None; None]) ltac:(by apply htons_split).
  mwrite pre (map Some (be16 sp ++ be16 dport) ++ [None; None; None; None]) P [0; 0]
    (map Some (be16 sp ++ be16 dport) ++ [None; None; Some 0; Some 0]) ltac:(reflexivity).
  mwrite pre (map Some (be16 sp ++ be16 dport) ++ [None; None; Some 0; Some 0]) P (be16 n)
    (map Some (be16 sp ++ be16 dport ++ be16 n ++ [0; 0])) ltac:(apply htons_split; unfold fits; lia).
  set (d0 := udp_datagram sp dport n [0; 0] payload).
  assert (map Some (be16 sp ++ be16 dport ++ be16 n ++ [0; 0]) ++ P = map Some d0 ++ post) as Hd0.
  { unfold P, d0, udp_datagram. by rewrite app_assoc, <-map_app, <-!app_assoc. }
  rewrite Hd0. assert (are_bytes d0) as Hb0.
  { unfold d0, udp_datagram. rewrite !app_assoc. apply Forall_app. split; [|done].
    repeat (apply Forall_app; split); try (apply be16_bytes; unfold fits; lia); try by apply be16_bytes.
    repeat constructor; lia. }
  destruct (ram_contents h p 72 n pre d0 post) as (Hl & Hst & Hc); [done|unfold d0; by rewrite udp_datagram_length|done|].
  mbind_with ltac:(apply run_ask_heap; eapply (chksum_pseudo_spec machine _ (Some p) _ d0 IP_PROTO_UDP v6);
    [exact Hl|exact Hst|exact Hc|done|done|done|unfold fits, IP_PROTO_UDP; lia|unfold fits; lia]).
  rewrite <-Hd0. set (c := 65535 - oc _).
  set (bs := le_split 2 (if c =? 0 then 0xffff else c)).
  assert (exists b0 b1, bs = [b0; b1]) as (b0 & b1 & Hbs) by by eexists _, _.
  etransitivity; [eapply (run_write _ _ _ pre (map Some (be16 sp ++ be16 dport ++ be16 n ++ [0; 0])) P 6 2 _ _ bs
    (map Some (be16 sp ++ be16 dport ++ be16 n ++ bs))); [done|done|by rewrite Hbs|by rewrite Hbs]|].
  assert (map Some (be16 sp ++ be16 dport ++ be16 n ++ bs) ++ P
    = map Some (udp_sent src dst sp dport payload) ++ post) as Hsent.
  { unfold P. rewrite app_assoc, <-map_app. unfold udp_sent, udp_datagram. fold n. by rewrite <-!app_assoc. }
  by rewrite Hsent.
Qed.

Lemma fold_ip4_sum n id ttl tos proto src dst :
  fits 16 n -> fits 16 id -> is_byte ttl -> is_byte tos -> is_byte proto -> is_addr4 src -> is_addr4 dst ->
  fold_chk_sum (add_word (u32 (u32 (u32 (add_word (u32 (0 + lwip_htons (Z.lor proto (Z.shiftl ttl 8)))) (le_combine dst)
    + lwip_htons (Z.lor tos (Z.shiftl (Z.lor (Z.shiftl 4 4) (IP_HLEN / 4)) 8))) + lwip_htons n) + lwip_htons id))
    (le_combine src))
  = 65535 - oc (words_sum (ip4_header tos n id 0 ttl proto [0; 0] src dst)).
Proof.
  intros Hn Hid Httl Htos Hproto [Hsb Hsl] [Hdb Hdl].
  pose proof (le_combine_fits 4 src Hsb Hsl) as Hsf. pose proof (le_combine_fits 4 dst Hdb Hdl) as Hdf.
  change (8 * 4) with 32 in Hsf, Hdf.
  pose proof (words_sum_bound src Hsb). pose proof (words_sum_nonneg src Hsb).
  pose proof (words_sum_bound dst Hdb). pose proof (words_sum_nonneg dst Hdb).
  destruct (htons_be16 n Hn) as [En Hn'], (htons_be16 id Hid) as [Eid Hid'].
  rewrite htons_pair by done.
  change (Z.lor (Z.shiftl 4 4) (IP_HLEN / 4)) with 0x45. rewrite (htons_pair tos) by done.
  unfold is_byte in *. rewrite Z.add_0_l, (wrap_small 32 (ttl + _)) by (unfold fits; lia).
  rewrite (add_word_value _ (le_combine dst)), addr_round by (done || lia).
  rewrite (wrap_small 32 (_ + (0x45 + _))) by (unfold fits; lia).
  rewrite (wrap_small 32 (_ + lwip_htons n)) by (unfold fits; lia).
  rewrite (wrap_small 32 (_ + lwip_htons id)) by (unfold fits; lia).
  rewrite add_word_value, addr_round by (done || lia).
  rewrite fold_chk_sum_oc by (unfold fits; lia). do 2 f_equal.
  unfold ip4_header. rewrite En, Eid.
  replace ([0x45; tos] ++ be16 n ++ be16 id ++ [0; 0; ttl; proto] ++ [0; 0] ++ src ++ dst)
    with (([0x45; tos] ++ be16 n ++ be16 id ++ [0; 0; ttl; proto] ++ [0; 0]) ++ src ++ dst)
    by by rewrite <-!app_assoc.
  rewrite !(words_sum_app_even) by (done || unfold zlen in *; by rewrite ?Hsl). unfold be16. cbn [app words_sum]. lia.
Qed.

Lemma ip4_write_header_spec h p n ttl tos proto src dst pre post s :
  zlen pre = 52 -> IP_HLEN <= n -> fits 16 n -> fits 16 (st_ip_id s) ->
  is_byte ttl -> is_byte tos -> is_byte proto -> is_addr4 src -> is_addr4 dst ->
  ip4_write_header p (Some (le_combine src)) (le_combine dst) ttl tos proto
    (set_heap (with_buf h p (ram_pbuf p 52 n) (pre ++ fresh_block 20 ++ post)) s)
  = Done (tt, set_heap (with_buf h p (ram_pbuf p 52 n)
      (pre ++ map Some (ip4_header tos n (st_ip_id s) 0 ttl proto
         (checksum (ip4_header tos n (st_ip_id s) 0 ttl proto [0; 0] src dst)) src dst) ++ post))
      (set_ip_id (u16 (st_ip_id s + 1)) s)).
Proof.
  intros Hpre Hle Hn Hid Httl Htos Hproto [Hsb Hsl] [Hdb Hdl].
  destruct (four_bytes src Hsl) as (x0 & x1 & x2 & x3 & Es), (four_bytes dst Hdl) as (y0 & y1 & y2 & y3 & Ed).
  set (id := st_ip_id s) in *. set (pb := ram_pbuf p 52 n).
  unfold ip4_write_header. mbind_with ltac:(eapply run_payload; [apply with_buf_pbuf|reflexivity]).
  mbind_with ltac:(eapply run_get_pbuf, with_buf_pbuf).
  mbind_with ltac:(apply run_assert; cbn [p_len pb ram_pbuf pbuf_init_alloced_pbuf]; lia).
  cbn [p_tot_len pb ram_pbuf pbuf_init_alloced_pbuf]. rewrite <-Hpre. unfold wr8, wr16, wr32.
  assert (forall b, is_byte b -> le_split 1 b = [b]) as H1.
  { intros b Hb. cbn. unfold is_byte in Hb. by rewrite Z.mod_small. }
  mput pre post [ttl] ltac:(by apply H1). mput pre post [proto] ltac:(by apply H1).
  mput pre post [y0; y1; y2; y3] ltac:(rewrite <-Ed; by apply addr_round).
  mput pre post [0x45] ltac:(reflexivity). mput pre post [tos] ltac:(by apply H1).
  mput pre post (be16 n) ltac:(by apply htons_split). mput pre post [0; 0] ltac:(reflexivity).
  mbind_with ltac:(reflexivity). cbn [st_ip_id set_heap]. fold id.
  mput pre post (be16 id) ltac:(by apply htons_split). mbind_with ltac:(reflexivity).
  match goal with |- context [set_ip_id ?k (set_heap ?h ?s)] =>
    change (set_ip_id k (set_heap h s)) with (set_heap h (set_ip_id k s)) end.
  mput pre post [x0; x1; x2; x3] ltac:(rewrite <-Es; by apply addr_round).
  assert (exists c0 c1, checksum (ip4_header tos n id 0 ttl proto [0; 0] src dst) = [c0; c1]) as (c0 & c1 & Hc)
    by by eexists _, _.
  etransitivity; [eapply (run_write _ _ _ pre _ post _ _ _ _ [c0; c1] _); [|done|done|reflexivity]|].
  - rewrite <-Hc. unfold checksum. f_equal. rewrite fold_ip4_sum by done. reflexivity.
  - rewrite Hc, Es, Ed. reflexivity.
Qed.

(** *** IPv6 *)

Lemma words_split a i : is_addr6 a -> (i < 4)%nat ->
  le_split 4 (addr_word (words_of a) i) = slice (4 * Z.of_nat i) 4 a.
Proof.
  intros [Ha Hl] Hi.
  replace (addr_word (words_of a) i) with (le_combine (slice (4 * Z.of_nat i) 4 a)) by by do 4 (destruct i as [|i]; [done|]); lia.
  apply addr_round; [by apply slice_bytes|]. apply slice_zlen; lia.
Qed.

Lemma run_wr_ip6 h p pb pre c post off a s :
  is_addr6 a -> 0 <= off -> off + 16 <= zlen c ->
  wr_ip6 (mk_addr p (zlen pre)) off (words_of a) (set_heap (with_buf h p pb (pre ++ c ++ post)) s)
  = Done (tt, set_heap (with_buf h p pb (pre ++ splice c off a ++ post)) s).
Proof.
  intros Ha Ho Hl. pose proof Ha as [_ Hal]. rewrite <-(slices4 a Hal) at 2.
  pose proof (words_split a 0 Ha ltac:(lia)) as W0. pose proof (words_split a 1 Ha ltac:(lia)) as W1.
  pose proof (words_split a 2 Ha ltac:(lia)) as W2. pose proof (words_split a 3 Ha ltac:(lia)) as W3.
  change (4 * Z.of_nat 0) with 0 in W0. change (4 * Z.of_nat 1) with 4 in W1.
  change (4 * Z.of_nat 2) with 8 in W2. change (4 * Z.of_nat 3) with 12 in W3.
  assert (zlen (slice 0 4 a) = 4) as L0 by (apply slice_zlen; lia).
  assert (zlen (slice 4 4 a) = 4) as L1 by (apply slice_zlen; lia).
  assert (zlen (slice 8 4 a) = 4) as L2 by (apply slice_zlen; lia).
  assert (zlen (slice 12 4 a) = 4) as L3 by (apply slice_zlen; lia).
  set (a0 := slice 0 4 a) in *. set (a1 := slice 4 4 a) in *. set (a2 := slice 8 4 a) in *. set (a3 := slice 12 4 a) in *.
  assert (forall x y, off + zlen x + zlen y <= zlen c -> forall k, k = off + zlen x ->
    splice (splice c off x) k y = splice c off (x ++ y)) as Hsp by (intros x y ? k ->; by apply splice_splice).
  assert (forall x, off + zlen x <= zlen c -> zlen (splice c off x) = zlen c) as Hsl by (intros; by apply splice_length).
  unfold wr_ip6, wr32.
  mbind_with ltac:(eapply (run_write _ _ _ pre c post off); [exact W0|lia|lia|reflexivity]).
  mbind_with ltac:(eapply (run_write _ _ _ pre _ post); [exact W1|lia|rewrite Hsl; lia|apply Hsp; lia]).
  assert (zlen (a0 ++ a1) = 8) as L01 by (rewrite zlen_app; lia).
  mbind_with ltac:(eapply (run_write _ _ _ pre _ post); [exact W2|lia|rewrite Hsl; lia|apply Hsp; lia]).
  assert (zlen ((a0 ++ a1) ++ a2) = 12) as L012 by (rewrite zlen_app; lia).
  etransitivity; [eapply (run_write _ _ _ pre _ post); [exact W3|lia|rewrite Hsl; lia|apply Hsp; lia]|].
  by rewrite <-!app_assoc.
Qed.

Lemma sixteen_cons (a : list Z) : zlen a = 16 ->
  exists a0 a1 a2 a3 a4 a5 a6 a7 a8 a9 a10 a11 a12 a13 a14 a15,
    a = [a0; a1; a2; a3; a4; a5; a6; a7; a8; a9; a10; a11; a12; a13; a14; a15].
Proof.
  intros Hl. destruct (sixteen_bytes a Hl) as (b & c & d & e & Hb & Hc & Hd & He & ->).
  destruct (four_bytes b Hb) as (? & ? & ? & ? & ->), (four_bytes c Hc) as (? & ? & ? & ? & ->),
    (four_bytes d Hd) as (? & ? & ? & ? & ->), (four_bytes e He) as (? & ? & ? & ? & ->).
  by do 16 eexists.
Qed.

Lemma ip6_write_header_spec h p n hl nexth src dst pre post s :
  zlen pre = 32 -> IP6_HLEN <= n -> fits 16 n -> is_byte hl -> is_byte nexth -> is_addr6 src -> is_addr6 dst ->
  ip6_write_header p (Some (words_of src)) (words_of dst) hl 0 nexth
    (set_heap (with_buf h p (ram_pbuf p 32 n) (pre ++ fresh_block 40 ++ post)) s)
  = Done (tt, set_heap (with_buf h p (ram_pbuf p 32 n)
      (pre ++ map Some (ip6_header [0x60; 0; 0; 0] (n - IP6_HLEN) nexth hl src dst) ++ post)) s).
Proof.
  intros Hpre Hle Hn Hhl Hnh Hsrc Hdst.
  destruct (sixteen_cons src (proj2 Hsrc)) as (x0 & x1 & x2 & x3 & x4 & x5 & x6 & x7 & x8 & x9 & x10 & x11 & x12 & x13 & x14 & x15 & Es).
  destruct (sixteen_cons dst (proj2 Hdst)) as (y0 & y1 & y2 & y3 & y4 & y5 & y6 & y7 & y8 & y9 & y10 & y11 & y12 & y13 & y14 & y15 & Ed).
  unfold ip6_write_header. mbind_with ltac:(eapply run_payload; [apply with_buf_pbuf|reflexivity]).
  mbind_with ltac:(eapply run_get_pbuf, with_buf_pbuf).
  mbind_with ltac:(apply run_assert; cbn [p_len ram_pbuf pbuf_init_alloced_pbuf]; lia).
  cbn [p_tot_len ram_pbuf pbuf_init_alloced_pbuf]. set (pb := ram_pbuf p 32 n). assert (mk_addr p 32 = mk_addr p (zlen pre)) as -> by by rewrite Hpre.
  unfold wr8, wr16, wr32.
  assert (forall b, is_byte b -> le_split 1 b = [b]) as H1.
  { intros b Hb. cbn. unfold is_byte in Hb. by rewrite Z.mod_small. }
  mput pre post [hl] ltac:(by apply H1). mput pre post [nexth] ltac:(by apply H1).
  mbind_with ltac:(apply (run_wr_ip6 _ _ _ pre _ post); done).
  rewrite Ed. mput pre post [0x60; 0; 0; 0] ltac:(reflexivity).
  unfold IP6_HLEN, fits in *. rewrite (wrap_small 16 (n - 40)) by (unfold fits; lia).
  mput pre post (be16 (n - 40)) ltac:(apply htons_split; unfold fits; lia).
  etransitivity; [apply (run_wr_ip6 _ _ _ pre _ post); done|]. rewrite Es. reflexivity.
Qed.
End proofs.
