(* ===== verification/UdpOut.v ===== *)
(** * [lwip_bridge_udp_sendto]

    A datagram of the application leaves as one IP packet with the headers and checksums
    of the reference, and everything taken for it is given back. *)
From Stdlib Require Import ZArith Lia.
From stdpp Require Import base list option numbers gmap.
From S2P Require Import Prelude Pbuf PbufChain PbufRead PbufFree PbufWrite Chksum ChksumProofs Lwip IpOut Icmp Udp IpIn Netif Bridge LwipRun UdpInProofs IpInProofs UdpDeliver UdpSendProofs.

(** ** The packet *)

Definition addr_of_bytes (v6 : bool) (a : list Z) : ip_addr_t := if v6 then addr6 a else addr4 a.
Definition header_length (v6 : bool) : Z := if v6 then IP6_HLEN else IP_HLEN.

Ltac hl_lia := unfold header_length, IP6_HLEN, IP_HLEN in *; lia.

(** The IP header in front of [n] bytes; [id] is the IPv4 identification. *)
Definition sent_header (v6 : bool) (id : Z) (src dst : list Z) (n : Z) : list Z :=
  if v6 then ip6_header [0x60; 0; 0; 0] n IP_PROTO_UDP UDP_TTL src dst
  else ip4_header 0 (IP_HLEN + n) id 0 UDP_TTL IP_PROTO_UDP
         (checksum (ip4_header 0 (IP_HLEN + n) id 0 UDP_TTL IP_PROTO_UDP [0; 0] src dst)) src dst.

Definition sent_packet (v6 : bool) (id : Z) (src : list Z) (sport : Z) (dst : list Z) (dport : Z)
    (payload : list Z) : list Z :=
  sent_header v6 id src dst (8 + zlen payload)
  ++ udp_sent (addr_of_bytes v6 src) (addr_of_bytes v6 dst) sport dport payload.

Definition is_addr (v6 : bool) (a : list Z) : Prop := if v6 then is_addr6 a else is_addr4 a.

Lemma sent_header_length v6 id src dst n :
  is_addr v6 src -> is_addr v6 dst -> zlen (sent_header v6 id src dst n) = header_length v6.
Proof.
  destruct v6; intros [_ Hs] [_ Hd]; [by apply ip6_header_length|by apply ip4_header_length].
Qed.

Lemma udp_sent_length src dst sport dport payload : zlen (udp_sent src dst sport dport payload) = 8 + zlen payload.
Proof. by apply udp_datagram_length. Qed.

Lemma addr_ok v6 a : is_addr v6 a -> ip_addr_ok v6 (addr_of_bytes v6 a).
Proof.
  destruct v6; intros Ha; (split; [|done]).
  - by apply words_fit.
  - destruct Ha as [Ha Hl]. pose proof (le_combine_fits 4 a Ha Hl).
    cbn. repeat (apply Forall_cons; split; [unfold fits in *; lia|]). constructor.
Qed.

(** What a sent packet changes beside the buffers. *)
Definition after_send (v6 : bool) (pkt : list Z) (s : stack) : stack :=
  set_trace (st_trace s ++ [output_fn pkt v6]) (if v6 then s else set_ip_id (u16 (st_ip_id s + 1)) s).

Section proofs.
Context `{Malloc}.
Variable machine : addr -> Z.

Lemma ram_bytes_at h p off n pre d post :
  zlen pre = off -> bytes_at (with_buf h p (ram_pbuf p off n) (pre ++ map Some d ++ post)) (mk_addr p off) d.
Proof. intros <-. exists pre, post. split; [apply with_buf_mem|done]. Qed.

Lemma run_output (v6 : bool) h p off n pre d post s :
  (exists m rs, st_netif s = tun_netif m rs) -> s_output_fn (st_bridge s) = true -> zlen pre = off -> n = zlen d ->
  let S := set_heap (with_buf h p (ram_pbuf p off n) (pre ++ map Some d ++ post)) s in
  (if v6 then netif_output6 p else netif_output p) S
  = Done (ERR_OK, set_trace (st_trace s ++ [output_fn d v6]) S).
Proof.
  intros (m & rs & Hn) Hfn Hpre -> S.
  assert (bridge_output p v6 S = Done (ERR_OK, set_trace (st_trace s ++ [output_fn d v6]) S)) as Hout.
  { unfold bridge_output. mdo. cbn [st_bridge set_heap S]. rewrite Hfn.
    mbind_with ltac:(eapply (with_bytes_single p (ram_pbuf p off (zlen d)) (mk_addr p off) d);
      [apply with_buf_pbuf|done|done|by apply ram_bytes_at|done|reflexivity]).
    done. }
  destruct v6.
  - unfold netif_output6. mdo. cbn [st_netif set_heap S]. rewrite Hn. exact Hout.
  - unfold netif_output. mdo. cbn [st_netif set_heap S]. rewrite Hn. exact Hout.
Qed.

Lemma ip_output_spec (v6 : bool) h p src dst dg pre post s :
  (exists m rs, st_netif s = tun_netif m rs) -> s_output_fn (st_bridge s) = true -> fits 16 (st_ip_id s) ->
  is_addr v6 src -> is_addr v6 dst -> zlen pre = 72 - header_length v6 -> zlen dg < 2 ^ 16 ->
  let pkt := sent_header v6 (st_ip_id s) src dst (zlen dg) ++ dg in
  let S off n m s := set_heap (with_buf h p (ram_pbuf p off n) m) s in
  let m := pre ++ fresh_block (header_length v6) ++ map Some dg ++ post in
  ip_output_if_src p (addr_of_bytes v6 src) (addr_of_bytes v6 dst) UDP_TTL 0 IP_PROTO_UDP (S 72 (zlen dg) m s)
  = if zlen dg + header_length v6 <? 2 ^ 16
    then Done (ERR_OK, S (72 - header_length v6) (zlen dg + header_length v6) (pre ++ map Some pkt ++ post)
           (after_send v6 pkt s))
    else Done (ERR_BUF, S 72 (zlen dg) m s).
Proof.
  intros Hn Hfn Hid Hsrc Hdst Hpre Hlt pkt S m. pose proof (zlen_nonneg dg) as Hdg.
  pose proof (sent_header_length v6 (st_ip_id s) src dst (zlen dg) Hsrc Hdst) as Hhl.
  destruct v6.
  - change (ip_output_if_src p ?a ?b) with (ip6_output_if_src p (Some (ip_2_ip6 a)) (Some (ip_2_ip6 b))).
    change (header_length true) with IP6_HLEN in *. unfold ip6_output_if_src. mbind_with ltac:(eapply run_get_pbuf, with_buf_pbuf). mbind_with ltac:(by apply run_assert).
    unfold S. destruct (Z.ltb_spec (zlen dg + IP6_HLEN) (2 ^ 16)) as [Hfit|Hbig].
    + mbind_with ltac:(rewrite run_add_header by hl_lia; rewrite (proj2 (Z.ltb_lt _ _) Hfit); reflexivity).
      mbind_with ltac:(apply (ip6_write_header_spec h p (zlen dg + IP6_HLEN) UDP_TTL IP_PROTO_UDP src dst
        pre (map Some dg ++ post)); [done|hl_lia|unfold fits; hl_lia|done|done|done|done]).
      replace (zlen dg + IP6_HLEN - IP6_HLEN) with (zlen dg) by hl_lia.
      rewrite (app_assoc (map Some _) (map Some dg)), <-map_app.
      etransitivity; [apply (run_output true h p 32 _ pre pkt post s); try done|reflexivity].
      unfold pkt. rewrite zlen_app, Hhl. hl_lia.
    + mbind_with ltac:(rewrite run_add_header by hl_lia; rewrite (proj2 (Z.ltb_ge _ _) Hbig); reflexivity). done.
  - change (ip_output_if_src p ?a ?b) with (ip4_output_if_src p (Some (ip_2_ip4 a)) (Some (ip_2_ip4 b))).
    change (header_length false) with IP_HLEN in *. unfold ip4_output_if_src. mbind_with ltac:(eapply run_get_pbuf, with_buf_pbuf). mbind_with ltac:(by apply run_assert).
    unfold S. destruct (Z.ltb_spec (zlen dg + IP_HLEN) (2 ^ 16)) as [Hfit|Hbig].
    + mbind_with ltac:(rewrite run_add_header by hl_lia; rewrite (proj2 (Z.ltb_lt _ _) Hfit); reflexivity).
      mbind_with ltac:(apply (ip4_write_header_spec h p (zlen dg + IP_HLEN) UDP_TTL 0 IP_PROTO_UDP src dst
        pre (map Some dg ++ post)); [done|hl_lia|unfold fits; hl_lia|done|done|done|done|done|done]).
      replace (zlen dg + IP_HLEN) with (IP_HLEN + zlen dg) by hl_lia.
      rewrite (app_assoc (map Some _) (map Some dg)), <-map_app.
      etransitivity; [apply (run_output false h p 52 _ pre pkt post (set_ip_id (u16 (st_ip_id s + 1)) s)); try done|reflexivity].
      unfold pkt. rewrite zlen_app, Hhl. hl_lia.
    + mbind_with ltac:(rewrite run_add_header by hl_lia; rewrite (proj2 (Z.ltb_ge _ _) Hbig); reflexivity). done.
Qed.

(** The buffer [p] of [n] bytes, with whatever headers it has got. *)
Definition has_buf (h : heap) (p : ptr) (s s' : stack) : Prop :=
  exists off n m, s' = set_heap (with_buf h p (ram_pbuf p off n) m) s.

Section sendto.
Variable v6 : bool.
Variables (h : heap) (p q : ptr) (pcb : udp_pcb) (s : stack).
Variables (src dst payload : list Z) (sport dport : Z) (post : block).
Hypothesis Hn : exists m rs, st_netif s = tun_netif m rs.
Hypothesis Hfn : s_output_fn (st_bridge s) = true.
Hypothesis Hid : fits 16 (st_ip_id s).
Hypothesis Hq : udp_store (st_udp s) !! q = Some pcb.
Hypothesis Hip : u_local_ip pcb = addr_of_bytes v6 src.
Hypothesis Hport : u_local_port pcb = sport.
Hypothesis Hflags : u_flags pcb = 0.
Hypothesis Httl : u_ttl pcb = UDP_TTL.
Hypothesis Htos : u_tos pcb = 0.
Hypothesis Hsrc : is_addr v6 src.
Hypothesis Hdst : is_addr v6 dst.
Hypothesis Hsp : fits 16 sport.
Hypothesis Hsp0 : sport <> 0.
Hypothesis Hdp : fits 16 dport.
Hypothesis Hpb : are_bytes payload.
Hypothesis Hlt : zlen payload < 2 ^ 16.

Let S off n m := set_heap (with_buf h p (ram_pbuf p off n) m) s.
Let sendto := udp_sendto_if_src machine q p (addr_of_bytes v6 dst) dport (addr_of_bytes v6 src).
Let datagram := udp_sent (addr_of_bytes v6 src) (addr_of_bytes v6 dst) sport dport payload.
Let output := ip_output_if_src p (addr_of_bytes v6 src) (addr_of_bytes v6 dst) UDP_TTL 0 IP_PROTO_UDP.

Lemma get_pcb_S off n m : get_pcb q (S off n m) = Done (pcb, S off n m).
Proof. unfold get_pcb. cbn [st_udp S set_heap]. by rewrite Hq. Qed.

Lemma versions_match :
  IP_ADDR_PCB_VERSION_MATCH pcb (addr_of_bytes v6 src) = true
  /\ IP_ADDR_PCB_VERSION_MATCH pcb (addr_of_bytes v6 dst) = true.
Proof.
  unfold IP_ADDR_PCB_VERSION_MATCH, IP_ADDR_PCB_VERSION_MATCH_EXACT. rewrite Hip. by destruct v6.
Qed.

Lemma udp_sendto_output e s' :
  zlen payload + 8 < 2 ^ 16 ->
  output (S 72 (8 + zlen payload) (fresh_block 72 ++ map Some datagram ++ post)) = Done (e, s') ->
  sendto (S 80 (zlen payload) (fresh_block 80 ++ map Some payload ++ post)) = Done (e, s').
Proof.
  intros Hfit Hout. pose proof (zlen_nonneg payload) as Hpl. destruct versions_match as [M1 M2].
  unfold sendto, udp_sendto_if_src. mbind_with ltac:(apply get_pcb_S).
  rewrite M1, M2, Hport, (proj2 (Z.eqb_neq _ _) Hsp0). cbn [negb orb]. mdo.
  mbind_with ltac:(eapply run_get_pbuf, with_buf_pbuf). cbn [p_tot_len ram_pbuf pbuf_init_alloced_pbuf].
  unfold UDP_HLEN. rewrite wrap_small, (proj2 (Z.ltb_ge _ _)) by (unfold fits; lia).
  unfold udp_add_header, UDP_HLEN, S.
  mbind_with ltac:(mbind_with ltac:(eapply run_get_pbuf, with_buf_pbuf);
    mbind_with ltac:(rewrite run_add_header by lia; rewrite (proj2 (Z.ltb_lt _ _) Hfit); reflexivity); reflexivity).
  mbind_with ltac:(apply (get_pcb_S 72)). change (fresh_block 80) with (fresh_block 72 ++ fresh_block 8).
  rewrite <-app_assoc, (Z.add_comm (zlen payload)).
  mbind_with ltac:(apply (udp_fill_header_spec machine h p pcb dport v6);
    [done|lia|done|by rewrite Hport|done|done|by apply addr_ok|by apply addr_ok]).
  rewrite Hport, Httl, Htos. mbind_with ltac:(exact Hout). rewrite bool_decide_eq_true_2 by done. by mdo.
Qed.

Lemma udp_sendto_spec :
  let pkt := sent_packet v6 (st_ip_id s) src sport dst dport payload in
  exists e s',
    sendto (S 80 (zlen payload) (fresh_block 80 ++ map Some payload ++ post)) = Done (e, s')
    /\ has_buf h p (if zlen payload + 8 + header_length v6 <? 2 ^ 16 then after_send v6 pkt s else s) s'.
Proof.
  intros pkt. pose proof (zlen_nonneg payload) as Hpl.
  destruct (Z.lt_ge_cases (zlen payload + 8) (2 ^ 16)) as [Hfit|Hbig].
  - pose proof (ip_output_spec v6 h p src dst datagram (fresh_block (72 - header_length v6)) post s) as Hout.
    unfold datagram in Hout. rewrite udp_sent_length in Hout. fold datagram in Hout.
    specialize (Hout Hn Hfn Hid Hsrc Hdst ltac:(by destruct v6) ltac:(lia)). cbv zeta in Hout.
    replace (8 + zlen payload + header_length v6) with (zlen payload + 8 + header_length v6) in Hout by lia.
    assert (fresh_block (72 - header_length v6) ++ fresh_block (header_length v6) ++ map Some datagram ++ post
      = fresh_block 72 ++ map Some datagram ++ post) as Hroom by by destruct v6.
    rewrite Hroom in Hout.
    destruct (zlen payload + 8 + header_length v6 <? 2 ^ 16).
    + eexists _, _. split; [apply udp_sendto_output; [done|exact Hout]|]. by eexists _, _, _.
    + eexists _, _. split; [apply udp_sendto_output; [done|exact Hout]|]. by eexists _, _, _.
  - rewrite (proj2 (Z.ltb_ge _ _)) by (destruct v6; hl_lia). destruct versions_match as [M1 M2].
    exists ERR_MEM, (S 80 (zlen payload) (fresh_block 80 ++ map Some payload ++ post)). split; [|by eexists _, _, _].
    unfold sendto, udp_sendto_if_src. mbind_with ltac:(apply get_pcb_S).
    rewrite M1, M2, Hport, (proj2 (Z.eqb_neq _ _) Hsp0). cbn [negb orb]. mdo.
    mbind_with ltac:(eapply run_get_pbuf, with_buf_pbuf). cbn [p_tot_len ram_pbuf pbuf_init_alloced_pbuf].
    rewrite (proj2 (Z.ltb_lt _ _)); [done|]. unfold UDP_HLEN, wrap. div_lia.
Qed.
End sendto.

(** ** The control block of the call *)

Lemma run_bytes_to_ip_addr (v6 : bool) a bs s :
  bytes_at (st_heap s) a bs -> is_addr v6 bs -> bytes_to_ip_addr a v6 s = Done (addr_of_bytes v6 bs, s).
Proof.
  intros Hb Ha. unfold bytes_to_ip_addr. destruct v6; destruct Ha as [Ha Hl].
  - by mbind_with ltac:(apply (run_rd_ip6 _ _ _ 0 bs Hb); [done|rewrite <-Hl; apply slice_all|done]).
  - by mbind_with ltac:(apply (run_rd_slice _ _ _ 0 4 bs Hb); [done|rewrite <-Hl; apply slice_all|done|done]).
Qed.

Lemma run_udp_bind s (v6 : bool) n a port pcb :
  ready s -> u_recv pcb = None -> port <> 0 ->
  let q := h_fresh (st_heap s) in
  udp_bind q a port (with_pcb s q pcb (udp_pcbs (st_udp s)) n)
  = Done (ERR_OK, with_pcb s q (pcb_set_local a port pcb) (q :: udp_pcbs (st_udp s)) n).
Proof.
  intros Hr Hrecv Hp q. destruct (re_listen _ Hr) as (v4p & v6p & Hls).
  destruct (read_pcbs_listening _ _ _ Hls) as (l & Hread & Hmap & Hl).
  assert (q ∉ udp_pcbs (st_udp s)) as Hq.
  { pose proof (ls_fresh _ _ _ Hls) as [? ?]. subst q. intros Hin.
    destruct (ls_list _ _ _ Hls) as [E|E]; rewrite E in Hin;
      apply elem_of_cons in Hin as [Hin|Hin]; try lia; apply elem_of_cons in Hin as [Hin|Hin]; try lia; by apply not_elem_of_nil in Hin. }
  assert (read_pcbs (udp_store (st_udp s)) (udp_pcbs (st_udp s)) = Done l) as Hrd.
  { unfold udp_list in Hread. destruct (read_pcbs _ _); [|done]. by injection Hread as ->. }
  unfold udp_bind.
  mbind_with ltac:(unfold udp_list; cbn [st_udp with_pcb set_heap set_udp udp_store udp_pcbs];
    rewrite read_pcbs_insert, Hrd by done; reflexivity).
  rewrite (proj2 (Z.eqb_neq _ _) Hp).
  assert (existsb (bound_by q a port) l = false) as ->.
  { destruct Hl as [-> | ->]; cbn; unfold bound_by; cbn [snd u_local_port wildcard_pcb];
      rewrite (proj2 (Z.eqb_neq 0 port)), !andb_false_r by done; done. }
  mdo. mbind_with ltac:(unfold get_pcb; cbn [st_udp with_pcb set_heap set_udp udp_store]; rewrite lookup_insert_eq; reflexivity).
  mdo. rewrite Hmap, bool_decide_eq_false_2 by done. mdo.
  unfold with_pcb, set_store, set_pcbs. cbn. by rewrite insert_insert_eq.
Qed.

Lemma run_udp_remove s q pcb l n h t id :
  memp_udp (st_udp s) = S n -> udp_store (st_udp s) !! q = None -> l = q :: udp_pcbs (st_udp s) ->
  udp_remove q (set_trace t (set_ip_id id (set_heap h (with_pcb s q pcb l n))))
  = Done (tt, set_trace t (set_ip_id id (set_heap h s))).
Proof.
  intros Hm Hq ->. unfold udp_remove, modify_udp, modify. cbn. rewrite bool_decide_eq_true_2 by done.
  rewrite delete_insert_id by done. destruct s as [? ? ? ? ? [] ? ?]. cbn in *. by rewrite Hm.
Qed.

(** ** The whole call *)

(** The heap grants the buffer, and the packet fits in 16 bits. *)
Definition sends (v6 : bool) (s : stack) (n : Z) : bool :=
  malloc_grants (Pos.succ (h_fresh (st_heap s))) (ram_size PBUF_TRANSPORT n)
  && (n + 8 + header_length v6 <? 2 ^ 16).

Lemma bytes_at_with_buf h p pb m a d :
  h_mem h !! p = None -> bytes_at h a d -> bytes_at (with_buf h p pb m) a d.
Proof.
  intros Hp (pre & post & Hm & Hpre). exists pre, post. split; [|done].
  cbn. rewrite lookup_insert_ne; [done|]. intros ->. by rewrite Hp in Hm.
Qed.

Lemma splice_all c bs : zlen c = zlen bs -> splice c 0 bs = map Some bs.
Proof.
  intros Hl. unfold splice. rewrite ztake_nonpos, zdrop_all by lia. by rewrite app_nil_r.
Qed.

(** The copy of the data into the new buffer. *)
Lemma run_fill h p len data payload s :
  h_mem h !! p = None -> bytes_at h data payload -> len = zlen payload ->
  exists post,
  on_heap_ (fun h => bs ← mem_read h data 0 len; mem_write h (mk_addr p 80) 0 bs)
    (set_heap (with_buf h p (ram_pbuf p (ram_offset PBUF_TRANSPORT) len) (fresh_block (ram_size PBUF_TRANSPORT len))) s)
  = Done (tt, set_heap (with_buf h p (ram_pbuf p 80 len) (fresh_block 80 ++ map Some payload ++ post)) s).
Proof.
  intros Hp Hb ->. pose proof (mem_align_bounds (zlen payload)). pose proof (zlen_nonneg payload).
  unfold ram_size. change (ram_offset PBUF_TRANSPORT) with 80.
  rewrite (fresh_block_split (80 + MEM_ALIGN_SIZE (zlen payload)) 80 (zlen payload)) by lia.
  set (post := fresh_block (80 + _ - 80 - _)). exists post. erewrite run_on_heap_; [reflexivity|].
  cbn [st_heap set_heap]. rewrite (mem_read_at _ data payload); [|by apply bytes_at_with_buf|lia..].
  rewrite slice_all, outcome_bind_done. change (mk_addr p 80) with (mk_addr p (zlen (fresh_block 80))).
  rewrite mem_write_at, splice_all; [done|by rewrite zlen_fresh_block|lia|rewrite zlen_fresh_block; lia].
Qed.

Lemma with_buf_freed h p off n m :
  h_pbufs h !! p = None -> h_mem h !! p = None ->
  freed (with_buf h p (ram_pbuf p off n) m) [(p, ram_pbuf p off n)] = h.
Proof.
  intros H1 H2. rewrite freed_single by done. change (alloc_src (ram_pbuf p off n)) with 0. cbn.
  rewrite !delete_insert_id by done. by destruct h.
Qed.

Lemma q_fresh s : ready s -> udp_store (st_udp s) !! h_fresh (st_heap s) = None.
Proof.
  intros Hr. destruct (re_listen _ Hr) as (v4p & v6p & [_ _ Hne Hst _ [Hf4 Hf6]]). rewrite Hst.
  rewrite lookup_insert_ne, lookup_singleton_ne by lia. done.
Qed.

Lemma p_fresh s : ready s ->
  let p := Pos.succ (h_fresh (st_heap s)) in h_pbufs (st_heap s) !! p = None /\ h_mem (st_heap s) !! p = None.
Proof. intros Hr. apply (re_heap _ Hr). lia. Qed.

Section call.
Variable v6 : bool.
Variables (s : stack) (src dst payload : list Z) (sport dport : Z) (n : nat).
Hypothesis Hr : ready s.
Hypothesis Hm : memp_udp (st_udp s) = S n.
Hypothesis Hsrc : is_addr v6 src.
Hypothesis Hdst : is_addr v6 dst.

Let q := h_fresh (st_heap s).
Let p := Pos.succ q.
Let S0 := with_pcb s q (sender_pcb v6 (addr_of_bytes v6 src) sport) (q :: udp_pcbs (st_udp s)) n.

(** The block goes back to the pool, and the state is as before. *)
Lemma call_ends h t id s1 :
  s1 = set_trace t (set_ip_id id (set_heap h S0)) ->
  h = bump (bump (st_heap s)) \/ h = bump (st_heap s) -> fits 16 id ->
  exists s', udp_remove q s1 = Done (tt, s') /\ st_trace s' = t /\ ready s' /\ same_resources s s'.
Proof.
  intros -> Hh Hid. unfold S0. rewrite (run_udp_remove s q _ _ n) by (done || by apply q_fresh).
  eexists. split; [reflexivity|]. split; [done|].
  apply (ready_after s _ (h_fresh h)); try done.
  - destruct Hh as [-> | ->]; cbn; lia.
  - destruct Hh as [-> | ->]; reflexivity.
  - exists (s_current_udp_dst_port (st_bridge s)), (s_current_udp_dst_ip (st_bridge s)). cbn.
    by destruct (st_bridge s).
  - intros v4p v6p []. cbn. tauto.
Qed.
End call.

Lemma sendto_lemma (v6 : bool) s src_ip src sport dst_ip dst dport data payload :
  ready s -> is_addr v6 src -> is_addr v6 dst ->
  bytes_at (st_heap s) src_ip src -> bytes_at (st_heap s) dst_ip dst -> bytes_at (st_heap s) data payload ->
  are_bytes payload -> 0 < zlen payload < 2 ^ 16 -> fits 16 sport -> sport <> 0 -> fits 16 dport ->
  (0 < memp_udp (st_udp s))%nat ->
  exists s', lwip_bridge_udp_sendto machine src_ip sport dst_ip dport v6 (Some data) (zlen payload) s = Done (tt, s')
    /\ st_trace s' = st_trace s ++
         (if sends v6 s (zlen payload)
          then [output_fn (sent_packet v6 (st_ip_id s) src sport dst dport payload) v6] else [])
    /\ ready s' /\ same_resources s s'.
Proof.
  intros Hr Hsrc Hdst Hbs Hbd Hbp Hpb Hlen Hsp Hsp0 Hdp Hpool.
  destruct (memp_udp (st_udp s)) as [|n] eqn:Hm; [lia|]. set (q := h_fresh (st_heap s)).
  set (p := Pos.succ q). destruct (p_fresh s Hr) as [Hp1 Hp2].
  set (S0 := with_pcb s q (sender_pcb v6 (addr_of_bytes v6 src) sport) (q :: udp_pcbs (st_udp s)) n).
  assert (zlen payload < 2 ^ 16) as Hlt by lia. set (len := zlen payload) in *.
  unfold lwip_bridge_udp_sendto. rewrite (proj2 (Z.leb_gt len 0)) by lia.
  change (if v6 then IPADDR_TYPE_V6 else IPADDR_TYPE_V4) with (family v6).
  ebind_with ltac:(by apply run_bytes_to_ip_addr). ebind_with ltac:(by apply run_bytes_to_ip_addr).
  ebind_with ltac:(by apply run_udp_new). ebind_with ltac:(by apply run_udp_bind).
  change (negb (bool_decide (ERR_OK = ERR_OK))) with false. cbv iota.
  change (with_pcb s (h_fresh (st_heap s)) _ _ n) with S0.
  rewrite wrap_small by (unfold fits; lia). unfold alloc_ram, sends. fold q p len.
  pose proof (alloc_ram_eq (bump (st_heap s)) PBUF_TRANSPORT len ltac:(lia)) as Halloc.
  change (h_fresh (bump (st_heap s))) with p in Halloc. cbv zeta in Halloc.
  destruct (malloc_grants p (ram_size PBUF_TRANSPORT len)); cbn [andb].
  - ebind_with ltac:(apply run_on_heap; exact Halloc).
    ebind_with ltac:(eapply run_payload; [apply with_buf_pbuf|reflexivity]).
    destruct (run_fill (bump (bump (st_heap s))) p len data payload S0) as (post & Hfill); [done|done|done|].
    ebind_with ltac:(exact Hfill).
    destruct (udp_sendto_spec v6 (bump (bump (st_heap s))) p q (sender_pcb v6 (addr_of_bytes v6 src) sport) S0
      src dst payload sport dport post) as (e & s1 & Hsend & (off & k & m & ->)); try done.
    { exact (re_netif _ Hr). } { apply (re_fns _ Hr). } { apply (re_id _ Hr). } { apply lookup_insert_eq. }
    ebind_with ltac:(exact Hsend).
    ebind_with ltac:(eapply run_free_single; [apply with_buf_pbuf|done|done|done]).
    cbn [st_heap set_heap]. rewrite with_buf_freed by done.
    change (zlen payload + 8 + header_length v6) with (len + 8 + header_length v6).
    change (st_ip_id S0) with (st_ip_id s).
    destruct (len + 8 + header_length v6 <? 2 ^ 16).
    + eapply (call_ends v6 s src sport n Hr Hm (bump (bump (st_heap s))) _
        (if v6 then st_ip_id s else u16 (st_ip_id s + 1))); [by destruct v6|by left|].
      destruct v6; [apply (re_id _ Hr)|by apply wrap_fits].
    + rewrite app_nil_r.
      eapply (call_ends v6 s src sport n Hr Hm (bump (bump (st_heap s))) (st_trace s) (st_ip_id s));
        [done|by left|apply (re_id _ Hr)].
  - ebind_with ltac:(apply run_on_heap; exact Halloc). rewrite app_nil_r.
    eapply (call_ends v6 s src sport n Hr Hm (bump (st_heap s)) (st_trace s) (st_ip_id s));
      [done|by right|apply (re_id _ Hr)].
Qed.
End proofs.
