(* ===== verification/BridgeMain.v ===== *)
(** * The bridge's UDP path: properties

    What holds of starting and stopping the stack, of a datagram from the interface and
    of a datagram from the application; and the two together. *)
From Stdlib Require Import ZArith Lia.
From stdpp Require Import base list option numbers gmap.
From S2P Require Import Prelude Pbuf PbufChain PbufRead PbufFree PbufWrite Chksum ChksumProofs Lwip IpOut Icmp Udp IpIn Netif Bridge LwipRun UdpInProofs IpInProofs UdpDeliver BridgeInit UdpSendProofs UdpOut.

(** ** What is sent is a packet that input accepts *)

Lemma is_sent_vtcfl : is_vtcfl [0x60; 0; 0; 0].
Proof.
  split; [repeat constructor; lia|]. exists 0x60, [0; 0; 0]. split; [done|]. split; [lia|done].
Qed.

Lemma udp_checksum_length pseudo d : zlen (udp_checksum pseudo d) = 2.
Proof. reflexivity. Qed.

Lemma sent_is_udp_packet v6 id src sport dst dport payload :
  is_addr v6 src -> is_addr v6 dst ->
  udp_packet src sport dst dport payload v6 (sent_packet v6 id src sport dst dport payload).
Proof.
  intros Hs Hd. unfold sent_packet, udp_sent. destruct v6.
  - apply udp_packet6; [done|done|apply is_sent_vtcfl|apply udp_checksum_length].
  - unfold sent_header. replace (IP_HLEN + (8 + zlen payload)) with (28 + zlen payload) by (unfold IP_HLEN; lia).
    apply udp_packet4; try done. by left.
Qed.

(** ** Checksums *)

Lemma pseudo_header_bytes v6 src dst len :
  ip_addr_ok v6 src -> ip_addr_ok v6 dst -> fits 16 len -> are_bytes (pseudo_header src dst IP_PROTO_UDP len).
Proof.
  intros _ _ Hlen.
  assert (forall ws, are_bytes (addr_bytes ws)) as Ha.
  { induction ws as [|w ws IH]; [constructor|]. apply Forall_app. split; [apply le_split_bytes|exact IH]. }
  pose proof (be16_bytes len Hlen) as Hb.
  assert (is_byte 0 /\ is_byte IP_PROTO_UDP) as [H0 Hp] by (unfold is_byte, IP_PROTO_UDP; lia).
  unfold pseudo_header. repeat (apply Forall_app; split); [apply Ha|apply Ha|].
  destruct (IP_IS_V6 dst); repeat (apply Forall_app; split); repeat (constructor; [done|]); try done; constructor.
Qed.

(** All ones in place of a zero checksum: the sum stays all ones. *)
Lemma all_ones_verifies pre post :
  Z.even (zlen pre) = true -> are_bytes pre -> are_bytes post ->
  oc (words_sum (pre ++ [0; 0] ++ post)) = 65535 -> oc (words_sum (pre ++ le_split 2 0xffff ++ post)) = 65535.
Proof.
  intros He Hpre Hpost. rewrite !words_sum_app_even by done.
  pose proof (words_sum_nonneg pre Hpre). pose proof (words_sum_nonneg post Hpost).
  change (words_sum [0; 0]) with 0. change (words_sum (le_split 2 0xffff)) with 65535.
  unfold oc. destruct (Z.eqb_spec (words_sum pre + (0 + words_sum post)) 0); [done|].
  rewrite (proj2 (Z.eqb_neq _ _)) by lia. intros Hs.
  replace (words_sum pre + (65535 + words_sum post) - 1) with (words_sum pre + (0 + words_sum post) - 1 + 1 * 65535) by lia.
  by rewrite Z.mod_add.
Qed.

Lemma udp_sum_verifies v6 src dst sport dport payload :
  ip_addr_ok v6 src -> ip_addr_ok v6 dst -> fits 16 sport -> fits 16 dport -> are_bytes payload ->
  8 + zlen payload < 2 ^ 16 ->
  oc (words_sum (pseudo_header src dst IP_PROTO_UDP (8 + zlen payload) ++ udp_sent src dst sport dport payload)) = 65535.
Proof.
  intros Hsrc Hdst Hsp Hdp Hb Hlt. set (len := 8 + zlen payload). pose proof (zlen_nonneg payload).
  assert (fits 16 len) as Hlen by (unfold fits; lia).
  set (pseudo := pseudo_header src dst IP_PROTO_UDP len).
  set (pre := pseudo ++ be16 sport ++ be16 dport ++ be16 len).
  assert (forall c, pseudo ++ udp_datagram sport dport len c payload = pre ++ c ++ payload) as Hsplit.
  { intros c. unfold pre, udp_datagram. by rewrite <-!app_assoc. }
  assert (Z.even (zlen pre) = true) as He.
  { unfold pre, pseudo. rewrite zlen_app, Z.even_add, pseudo_header_even. reflexivity. }
  assert (are_bytes pre) as Hpre.
  { unfold pre, pseudo. apply Forall_app. split; [by eapply pseudo_header_bytes|].
    repeat (apply Forall_app; split); by apply be16_bytes. }
  unfold udp_sent, udp_checksum. fold len pseudo. rewrite !Hsplit.
  destruct (Z.eqb_spec (65535 - oc (words_sum (pre ++ [0; 0] ++ payload))) 0) as [Hz|Hz].
  - apply all_ones_verifies; [done..|lia].
  - by apply complement_verifies.
Qed.

Lemma ip4_sum_verifies id src dst n :
  is_addr4 src -> is_addr4 dst -> fits 16 id -> fits 16 (IP_HLEN + n) ->
  oc (words_sum (sent_header false id src dst n)) = 65535.
Proof.
  intros [Hs _] [Hd _] Hid Hn.
  set (pre := [0x45; 0] ++ be16 (IP_HLEN + n) ++ be16 id ++ [0; 0; UDP_TTL; IP_PROTO_UDP]).
  assert (forall c, ip4_header 0 (IP_HLEN + n) id 0 UDP_TTL IP_PROTO_UDP c src dst = pre ++ c ++ (src ++ dst)) as Hsplit.
  { intros c. unfold ip4_header, pre. by rewrite <-!app_assoc. }
  unfold sent_header, checksum. rewrite !Hsplit. apply complement_verifies; [reflexivity| |].
  - unfold pre. repeat (apply Forall_app; split); try by apply be16_bytes.
    all: repeat (constructor; [unfold is_byte, UDP_TTL, IP_PROTO_UDP; lia|]); constructor.
  - by apply Forall_app.
Qed.

(** ** Properties *)

Section properties.
Context `{Malloc}.

(** C16: a UDP packet from the interface, IPv4 or IPv6, with addresses that IP accepts
    and any identification, hop limit and checksums, reaches the application exactly
    once, with its addresses, ports and payload; every buffer and control block taken on
    the way is given back and the stack stays ready. *)
Theorem datagram_delivered machine tcp_input nd6_input s data src sport dst dport payload v6 pkt :
  ready s -> udp_packet src sport dst dport payload v6 pkt -> deliverable v6 src dst = true ->
  bytes_at (st_heap s) data pkt -> zlen pkt < 2 ^ 16 -> fits 16 sport -> fits 16 dport ->
  (0 < h_memp_pbuf (st_heap s))%nat ->
  exists s', lwip_bridge_input machine tcp_input nd6_input (Some data) (zlen pkt) s = Done (tt, s')
    /\ st_trace s' = st_trace s ++ [udp_recv_up src sport dst dport v6 payload]
    /\ ready s' /\ same_resources s s'.
Proof. apply input_delivers_lemma. Qed.

(** C17: [lwip_bridge_udp_sendto] hands the interface exactly one packet, the reference
    packet of its arguments, when the heap grants the buffer and the packet fits in 16
    bits, and none otherwise; in both cases everything taken is given back and the stack
    stays ready. *)
Theorem datagram_sent machine (v6 : bool) s src_ip src sport dst_ip dst dport data payload :
  ready s -> is_addr v6 src -> is_addr v6 dst ->
  bytes_at (st_heap s) src_ip src -> bytes_at (st_heap s) dst_ip dst -> bytes_at (st_heap s) data payload ->
  are_bytes payload -> 0 < zlen payload < 2 ^ 16 -> fits 16 sport -> sport <> 0 -> fits 16 dport ->
  (0 < memp_udp (st_udp s))%nat ->
  exists s', lwip_bridge_udp_sendto machine src_ip sport dst_ip dport v6 (Some data) (zlen payload) s = Done (tt, s')
    /\ st_trace s' = st_trace s ++
         (if sends v6 s (zlen payload)
          then [output_fn (sent_packet v6 (st_ip_id s) src sport dst dport payload) v6] else [])
    /\ ready s' /\ same_resources s s'.
Proof. apply sendto_lemma. Qed.

(** The one's-complement sums over a sent IPv4 header, and over the pseudo header
    and datagram of either family, are all ones, as a receiver requires, also when the
    computed UDP checksum is zero. *)
Theorem sent_checksums_hold v6 id src sport dst dport payload :
  is_addr v6 src -> is_addr v6 dst -> are_bytes payload -> fits 16 id -> fits 16 sport -> fits 16 dport ->
  zlen payload + 8 + header_length v6 < 2 ^ 16 ->
  let len := 8 + zlen payload in
  oc (words_sum (pseudo_header (addr_of_bytes v6 src) (addr_of_bytes v6 dst) IP_PROTO_UDP len
     ++ udp_sent (addr_of_bytes v6 src) (addr_of_bytes v6 dst) sport dport payload)) = 65535
  /\ (v6 = false -> oc (words_sum (sent_header v6 id src dst len)) = 65535).
Proof.
  intros Hs Hd Hb Hid Hsp Hdp Hlt len. pose proof (zlen_nonneg payload). split.
  - eapply udp_sum_verifies; eauto using addr_ok. destruct v6; hl_lia.
  - intros ->. apply ip4_sum_verifies; [done..|]. unfold fits, len. hl_lia.
Qed.

(** What the application sends from [src] to [dst] is, when it comes back on the
    interface of any ready stack, delivered as the datagram from [src] to [dst] with the
    same ports and payload. *)
Theorem sent_is_received machine tcp_input nd6_input (v6 : bool) s src_ip src sport dst_ip dst dport data payload :
  ready s -> is_addr v6 src -> is_addr v6 dst -> deliverable v6 src dst = true ->
  bytes_at (st_heap s) src_ip src -> bytes_at (st_heap s) dst_ip dst -> bytes_at (st_heap s) data payload ->
  are_bytes payload -> 0 < zlen payload < 2 ^ 16 -> fits 16 sport -> sport <> 0 -> fits 16 dport ->
  (0 < memp_udp (st_udp s))%nat -> sends v6 s (zlen payload) = true ->
  exists s' pkt, lwip_bridge_udp_sendto machine src_ip sport dst_ip dport v6 (Some data) (zlen payload) s = Done (tt, s')
    /\ st_trace s' = st_trace s ++ [output_fn pkt v6]
    /\ forall t at_, ready t -> bytes_at (st_heap t) at_ pkt -> (0 < h_memp_pbuf (st_heap t))%nat ->
       exists t', lwip_bridge_input machine tcp_input nd6_input (Some at_) (zlen pkt) t = Done (tt, t')
         /\ st_trace t' = st_trace t ++ [udp_recv_up src sport dst dport v6 payload].
Proof.
  intros Hr Hs Hd Hok Hbs Hbd Hbp Hb Hlen Hsp Hsp0 Hdp Hpool Hsend.
  destruct (sendto_lemma machine v6 s src_ip src sport dst_ip dst dport data payload) as (s' & Hrun & Htr & _); try done.
  rewrite Hsend in Htr. exists s', (sent_packet v6 (st_ip_id s) src sport dst dport payload).
  split; [done|]. split; [done|]. intros t at_ Ht Hat Hm.
  pose proof (sent_is_udp_packet v6 (st_ip_id s) src sport dst dport payload Hs Hd) as Hpkt.
  destruct (input_delivers_lemma machine tcp_input nd6_input t at_ src sport dst dport payload v6 _ Ht Hpkt Hok Hat)
    as (t' & Ht' & Htr' & _); try done; [|by exists t'].
  rewrite (udp_packet_length _ _ _ _ _ _ _ Hpkt). unfold sends in Hsend. apply andb_true_iff in Hsend as [_ Hfit%Z.ltb_lt].
  destruct v6; hl_lia.
Qed.

Section start_stop.
Variable rand : Z.
Variables (nd6_cleanup_netif tcp_init sys_timeouts_init open_tcp_listeners lwip_bridge_abort_all_tcp close_tcp_listeners : M unit).
Variable tcp_netif_ip_addr_changed : ip_addr_t -> option ip_addr_t -> M unit.
Hypothesis nd6_neutral : neutral nd6_cleanup_netif.
Hypothesis tcp_init_neutral : neutral tcp_init.
Hypothesis timeouts_neutral : neutral sys_timeouts_init.
Hypothesis open_neutral : neutral open_tcp_listeners.
Hypothesis abort_neutral : neutral lwip_bridge_abort_all_tcp.
Hypothesis close_neutral : neutral close_tcp_listeners.
Hypothesis changed_neutral : forall a b, neutral (tcp_netif_ip_addr_changed a b).

(** C31: [lwip_bridge_init] completes, and the stack is then ready to receive and to
    send, whether it starts in a fresh process, over a running stack (which it shuts down
    first) or after a shutdown; two control blocks are in use then, never more. What TCP,
    neighbour discovery and the timers do meanwhile may take and free buffers, send
    packets and call the application, as the resets of [tcp_abort] do, but not touch the
    interface, the UDP blocks or the bridge. *)
Theorem init_makes_ready s :
  (stopped s /\ initialized (st_bridge s) = false) \/ ready s \/ shut s ->
  exists s', lwip_bridge_init nd6_cleanup_netif tcp_netif_ip_addr_changed (lwip_init rand tcp_init sys_timeouts_init) open_tcp_listeners
      lwip_bridge_abort_all_tcp close_tcp_listeners s = Done (tt, s')
    /\ ready s'
    /\ memp_udp (st_udp s')
       = (if bool_decide (udp_pcbs (st_udp s) = []) then memp_udp (st_udp s) - 2 else memp_udp (st_udp s))%nat.
Proof. intros Hs. apply init_lemma; try done. by apply neutral_lwip_init. Qed.

(** C35: [lwip_bridge_shutdown] of a ready stack completes, whatever packets the end of
    the TCP connections sends and whatever calls it makes; both wildcard control blocks
    are back in their pool, none is left on the list, and no interface is the default. *)
Theorem shutdown_gives_back s :
  ready s ->
  exists s', lwip_bridge_shutdown nd6_cleanup_netif tcp_netif_ip_addr_changed lwip_bridge_abort_all_tcp close_tcp_listeners s
      = Done (tt, s')
    /\ shut s' /\ memp_udp (st_udp s') = S (S (memp_udp (st_udp s))).
Proof. intros Hs. by apply shutdown_ready. Qed.
End start_stop.
End properties.

(** ** A concrete stack for the witnesses *)

#[local] Instance every_malloc : Malloc := fun _ _ => true.

(** Blocks 1 to 3 hold the bytes given; 4 and 5 are the wildcard blocks. *)
Definition example_stack (b1 b2 b3 : list Z) : stack :=
  mk_stack (mk_heap ∅ (<[1%positive := map Some b1]> (<[2%positive := map Some b2]> {[3%positive := map Some b3]}))
      6%positive 64 2048)
    (tun_netif 1500 3) true 7 (mk_ip_globals false false None None 0 IP4_ADDR_ANY IP4_ADDR_ANY)
    (mk_udp (<[4%positive := wildcard_pcb IPADDR_TYPE_V4]> {[5%positive := wildcard_pcb IPADDR_TYPE_V6]})
      [5%positive; 4%positive] 0xc002 62)
    (mk_bridge true true true true true true (Some 4%positive) (Some 5%positive) 0 IP4_ADDR_ANY true) [].

Lemma example_ready b1 b2 b3 : ready (example_stack b1 b2 b3).
Proof.
  split; try done.
  - intros k Hk. split; [apply lookup_empty|]. cbn in Hk.
    cbn [example_stack st_heap h_mem]. rewrite !lookup_insert_ne, lookup_singleton_ne by lia. done.
  - by exists 1500, 3.
  - exists 4%positive, 5%positive. split; try done. by left.
Qed.

Lemma example_at b1 b2 b3 :
  bytes_at (st_heap (example_stack b1 b2 b3)) (mk_addr 1%positive 0) b1
  /\ bytes_at (st_heap (example_stack b1 b2 b3)) (mk_addr 2%positive 0) b2
  /\ bytes_at (st_heap (example_stack b1 b2 b3)) (mk_addr 3%positive 0) b3.
Proof. repeat split; exists [], []; rewrite app_nil_r; done. Qed.

Definition ex_machine (a : addr) : Z := 4096 * Zpos (a_block a) + a_off a.
Definition ex_src : list Z := [10; 0; 0; 1].
Definition ex_dst : list Z := [8; 8; 8; 8].
Definition ex_data : list Z := [1; 2; 3].
Definition ex_packet : list Z := sent_packet false 7 ex_src 5353 ex_dst 53 ex_data.

Lemma ex_addr4 a b c d : is_byte a -> is_byte b -> is_byte c -> is_byte d -> is_addr false [a; b; c; d].
Proof. intros. split; [by repeat (constructor; [done|]); constructor|done]. Qed.

Lemma ex_addrs : is_addr false ex_src /\ is_addr false ex_dst.
Proof. split; apply ex_addr4; unfold is_byte; lia. Qed.

Definition ex_skip : M unit := mret tt.

Lemma skip_neutral : neutral ex_skip.
Proof. apply neutral_ret. Qed.

(** The end of a TCP connection of the application's connection 1, as this state sees it:
    an IPv4 reset is sent, and the error is reported. *)
Definition ex_abort : M unit := fun s =>
  Done (tt, set_ip_id (u16 (st_ip_id s + 1))
    (set_trace (st_trace s ++ [output_fn (ip4_header 0 40 (st_ip_id s) 0 255 6 [0; 0] ex_src ex_dst) false;
                               tcp_err_fn 1 (err_code ERR_ABRT)]) s)).

Lemma abort_neutral : neutral ex_abort.
Proof. intros s _. eexists. split; [reflexivity|]. split; try done. intros _. by apply wrap_fits. Qed.

(** ** Witnesses *)

Lemma ex_packet_ok : udp_packet ex_src 5353 ex_dst 53 ex_data false ex_packet.
Proof. apply sent_is_udp_packet; apply ex_addrs. Qed.

Lemma datagram_delivered_witness :
  exists s', lwip_bridge_input ex_machine (fun _ => ex_skip) (fun _ => ex_skip) (Some (mk_addr 1%positive 0))
      (zlen ex_packet) (example_stack ex_packet [] []) = Done (tt, s')
    /\ st_trace s' = [udp_recv_up ex_src 5353 ex_dst 53 false ex_data].
Proof.
  destruct (datagram_delivered ex_machine (fun _ => ex_skip) (fun _ => ex_skip) (example_stack ex_packet [] [])
    (mk_addr 1%positive 0) ex_src 5353 ex_dst 53 ex_data false ex_packet) as (s' & Hrun & Htr & _);
    [apply example_ready|apply ex_packet_ok|vm_compute; reflexivity|apply example_at|vm_compute; reflexivity
    |unfold fits; lia|unfold fits; lia|cbn; lia|].
  exists s'. split; [exact Hrun|exact Htr].
Defined.

Lemma ex_data_bytes : are_bytes ex_data.
Proof. repeat constructor; lia. Qed.

Lemma datagram_sent_witness :
  exists s', lwip_bridge_udp_sendto ex_machine (mk_addr 1%positive 0) 5353 (mk_addr 2%positive 0) 53 false
      (Some (mk_addr 3%positive 0)) 3 (example_stack ex_src ex_dst ex_data) = Done (tt, s')
    /\ st_trace s' = [output_fn ex_packet false].
Proof.
  destruct (datagram_sent ex_machine false (example_stack ex_src ex_dst ex_data) (mk_addr 1%positive 0) ex_src 5353
    (mk_addr 2%positive 0) ex_dst 53 (mk_addr 3%positive 0) ex_data) as (s' & Hrun & Htr & _);
    [apply example_ready|apply ex_addrs|apply ex_addrs|apply example_at|apply example_at|apply example_at
    |apply ex_data_bytes|vm_compute; by split|unfold fits; lia|done|unfold fits; lia|cbn; lia|].
  exists s'. split; [exact Hrun|exact Htr].
Defined.

Lemma sent_checksums_hold_witness :
  oc (words_sum (sent_header false 7 ex_src ex_dst 11)) = 65535.
Proof.
  destruct (sent_checksums_hold false 7 ex_src 5353 ex_dst 53 ex_data) as [_ Hw];
    [apply ex_addrs|apply ex_addrs|apply ex_data_bytes|unfold fits; lia|unfold fits; lia|unfold fits; lia|reflexivity|].
  exact (Hw eq_refl).
Defined.

Lemma sent_is_received_witness :
  exists s' pkt, lwip_bridge_udp_sendto ex_machine (mk_addr 1%positive 0) 5353 (mk_addr 2%positive 0) 53 false
      (Some (mk_addr 3%positive 0)) 3 (example_stack ex_src ex_dst ex_data) = Done (tt, s')
    /\ st_trace s' = [output_fn pkt false].
Proof.
  destruct (sent_is_received ex_machine (fun _ => ex_skip) (fun _ => ex_skip) false (example_stack ex_src ex_dst ex_data)
    (mk_addr 1%positive 0) ex_src 5353 (mk_addr 2%positive 0) ex_dst 53 (mk_addr 3%positive 0) ex_data)
    as (s' & pkt & Hrun & Htr & _);
    [apply example_ready|apply ex_addrs|apply ex_addrs|vm_compute; reflexivity|apply example_at|apply example_at|apply example_at
    |apply ex_data_bytes|vm_compute; by split|unfold fits; lia|done|unfold fits; lia|cbn; lia|vm_compute; reflexivity|].
  exists s', pkt. split; [exact Hrun|exact Htr].
Defined.

Lemma init_makes_ready_witness :
  exists s', lwip_bridge_init ex_skip (fun _ _ => ex_skip) (lwip_init 123456 ex_skip ex_skip) ex_skip ex_abort ex_skip
      (example_stack [] [] []) = Done (tt, s') /\ ready s'.
Proof.
  destruct (init_makes_ready 123456 ex_skip ex_skip ex_skip ex_skip ex_abort ex_skip (fun _ _ => ex_skip) skip_neutral
    skip_neutral skip_neutral skip_neutral abort_neutral skip_neutral (fun _ _ => skip_neutral) (example_stack [] [] []))
    as (s' & Hrun & Hr & _); [right; left; apply example_ready|].
  exists s'. split; [exact Hrun|exact Hr].
Defined.

Lemma shutdown_gives_back_witness :
  exists s', lwip_bridge_shutdown ex_skip (fun _ _ => ex_skip) ex_abort ex_skip (example_stack [] [] []) = Done (tt, s')
    /\ memp_udp (st_udp s') = 64%nat.
Proof.
  destruct (shutdown_gives_back ex_skip ex_abort ex_skip (fun _ _ => ex_skip) skip_neutral abort_neutral skip_neutral
    (fun _ _ => skip_neutral) (example_stack [] [] [])) as (s' & Hrun & _ & Hm);
    [apply example_ready|].
  exists s'. split; [exact Hrun|exact Hm].
Defined.
