(* ===== verification/BridgeTrace.v ===== *)
(** * What the stack calls

    Code that only adds calls of a kind to the trace, whatever else it does: the rules
    of the monad and every operation of the stack. *)
From Stdlib Require Import ZArith Lia.
From stdpp Require Import base list option numbers gmap.
From S2P Require Import Prelude Pbuf Chksum Lwip IpOut Icmp Udp IpIn Netif Bridge.

(** A call of the stack is one that Java can take: addresses have the length of their
    family. *)
Definition family_length (v6 : bool) : Z := if v6 then 16 else 4.

Definition upcall_ok (u : upcall) : Prop :=
  match u with
  | udp_recv_up src _ dst _ v6 _ => zlen src = family_length v6 /\ zlen dst = family_length v6
  | _ => True
  end.

(** Every call of [m] is such a call. *)
Definition calls_ok {A} (m : M A) : Prop :=
  forall s a s', m s = Done (a, s') -> exists us, st_trace s' = st_trace s ++ us /\ Forall upcall_ok us.

Lemma calls_quiet {A} (m : M A) :
  (forall s a s', m s = Done (a, s') -> st_trace s' = st_trace s) -> calls_ok m.
Proof. intros Hm s a s' Hrun. exists []. rewrite app_nil_r. split; [by eapply Hm|constructor]. Qed.

Lemma calls_ret {A} (a : A) : calls_ok (mret a).
Proof. apply calls_quiet. intros s b s' [= <- <-]. done. Qed.

Lemma calls_bind {A B} (m : M A) (k : A -> M B) : calls_ok m -> (forall a, calls_ok (k a)) -> calls_ok (m ≫= k).
Proof.
  intros Hm Hk s b s' Hrun. unfold mbind, M_bind in Hrun.
  apply outcome_bind_inv in Hrun as ([a s1] & H1 & H2).
  destruct (Hm _ _ _ H1) as (us1 & Ht1 & Hus1), (Hk _ _ _ _ H2) as (us2 & Ht2 & Hus2).
  exists (us1 ++ us2). rewrite Ht2, Ht1, app_assoc. split; [done|by apply Forall_app].
Qed.

Lemma calls_undef {A} : calls_ok (@undef A).
Proof. by intros s a s'. Qed.

Lemma calls_gets {A} (f : stack -> A) : calls_ok (gets f).
Proof. apply calls_quiet. by intros s a s' [= <- <-]. Qed.

Lemma calls_modify f : (forall s, st_trace (f s) = st_trace s) -> calls_ok (modify f).
Proof. intros Hf. apply calls_quiet. intros s a s' [= <- <-]. apply Hf. Qed.

Lemma calls_assert b : calls_ok (lwip_assert_m b).
Proof. destruct b; [apply calls_ret|apply calls_undef]. Qed.

Lemma calls_lift {A} (m : outcome A) : calls_ok (lift m).
Proof. apply calls_quiet. unfold lift. intros s a s'. destruct m; [|done]. by intros [= <- <-]. Qed.

(** What a lifted computation returned is known afterwards. *)
Lemma calls_bind_lift {A B} (m : outcome A) (k : A -> M B) :
  (forall a, m = Done a -> calls_ok (k a)) -> calls_ok (lift m ≫= k).
Proof.
  intros Hk. destruct m as [a|]; [|intros s b s'; done]. intros s b s' Hrun. exact (Hk a eq_refl s b s' Hrun).
Qed.

Lemma calls_on_heap {A} (f : heap -> outcome (A * heap)) : calls_ok (on_heap f).
Proof. apply calls_quiet. unfold on_heap. intros s a s'. destruct (f (st_heap s)) as [[]|]; [|done]. by intros [= <- <-]. Qed.

Lemma calls_on_heap_ f : calls_ok (on_heap_ f).
Proof. apply calls_quiet. unfold on_heap_. intros s a s'. destruct (f (st_heap s)); [|done]. by intros [= <- <-]. Qed.

Lemma calls_ask_heap {A} (f : heap -> outcome A) : calls_ok (ask_heap f).
Proof. apply calls_quiet. unfold ask_heap. intros s a s'. destruct (f (st_heap s)); [|done]. by intros [= <- <-]. Qed.

Lemma calls_upcall u : upcall_ok u -> calls_ok (upcall_m u).
Proof. intros Hu s a s' [= <- <-]. exists [u]. split; [done|by constructor]. Qed.

Lemma calls_foldl {A} (f : A -> M unit) l m :
  calls_ok m -> (forall x, calls_ok (f x)) -> calls_ok (foldl (fun m x => _ ← m; f x) m l).
Proof. revert m. induction l as [|x l IH]; intros m Hm Hf; cbn; [done|]. apply IH; [|done]. by apply calls_bind. Qed.

Create HintDb calls.
#[export] Hint Resolve calls_ret calls_undef calls_gets calls_assert calls_lift calls_on_heap calls_on_heap_
  calls_ask_heap calls_foldl : calls.
#[export] Hint Extern 1 (calls_ok (modify _)) => apply calls_modify; reflexivity : calls.

(** Follows the code: binds, branches, and what is known of the operations it calls. *)
Ltac calls :=
  repeat first
    [ assumption
    | solve [ auto with calls nocore ]
    | match goal with
      | |- calls_ok (_ ≫= _) => apply calls_bind; [|intros ?]
      | |- calls_ok (match ?x with _ => _ end) => destruct x
      | |- calls_ok (let _ := _ in _) => cbv zeta
      | |- calls_ok ((fun _ => _) _) => cbv beta
      end ].

Lemma calls_rd a off n : calls_ok (rd a off n).
Proof. apply calls_ask_heap. Qed.
Lemma calls_rd8 a off : calls_ok (rd8 a off).
Proof. apply calls_rd. Qed.
Lemma calls_rd16 a off : calls_ok (rd16 a off).
Proof. apply calls_rd. Qed.
Lemma calls_rd32 a off : calls_ok (rd32 a off).
Proof. apply calls_rd. Qed.
Lemma calls_wr8 a off v : calls_ok (wr8 a off v).
Proof. apply calls_on_heap_. Qed.
Lemma calls_wr16 a off v : calls_ok (wr16 a off v).
Proof. apply calls_on_heap_. Qed.
Lemma calls_wr32 a off v : calls_ok (wr32 a off v).
Proof. apply calls_on_heap_. Qed.
#[export] Hint Resolve calls_rd8 calls_rd16 calls_rd32 calls_wr8 calls_wr16 calls_wr32 : calls.
Lemma calls_rd_ip6 a off : calls_ok (rd_ip6 a off).
Proof. unfold rd_ip6. calls. Qed.
Lemma calls_wr_ip6 a off ws : calls_ok (wr_ip6 a off ws).
Proof. unfold wr_ip6. calls. Qed.
Lemma calls_payload p : calls_ok (payload p).
Proof. unfold payload, get_pbuf. calls. Qed.
Lemma calls_get_pbuf p : calls_ok (get_pbuf p).
Proof. apply calls_ask_heap. Qed.
Lemma calls_pbuf_free p : calls_ok (pbuf_free_m p).
Proof. unfold pbuf_free_m. calls. Qed.
#[export] Hint Resolve calls_rd calls_rd_ip6 calls_wr_ip6 calls_payload calls_get_pbuf calls_pbuf_free : calls.

Section stack.
Context `{Malloc}.

Lemma calls_malloc n : calls_ok (mem_malloc_m n).
Proof.
  apply calls_quiet. unfold mem_malloc_m. intros s a s'. destruct (mem_malloc (st_heap s) n) as [[]|]; by intros [= <- <-].
Qed.
#[local] Hint Resolve calls_malloc : calls.

Lemma calls_with_bytes p use : (forall bs, calls_ok (use bs)) -> calls_ok (with_bytes p use).
Proof. intros Hu. unfold with_bytes, get_block, put_block, mem_free. calls. Qed.

Lemma calls_output p v6 : calls_ok (bridge_output p v6).
Proof. unfold bridge_output. calls. apply calls_with_bytes. intros bs. by apply calls_upcall. Qed.

Lemma calls_netif_output p : calls_ok (netif_output p).
Proof. pose proof calls_output. unfold netif_output, netif_output_ip4. calls. Qed.
Lemma calls_netif_output6 p : calls_ok (netif_output6 p).
Proof. pose proof calls_output. unfold netif_output6, netif_output_ip6. calls. Qed.
#[local] Hint Resolve calls_netif_output calls_netif_output6 : calls.

Lemma load_cells_length mem bs : load_cells mem = Done bs -> length bs = length mem.
Proof.
  revert bs. induction mem as [|[b|] mem IH]; intros bs; cbn; [by intros [= <-]| |done].
  destruct (load_cells mem) as [bs'|]; [|done]. intros [= <-]. cbn. by rewrite (IH bs').
Qed.

Lemma load_bytes_length mem off n bs : load_bytes mem off n = Done bs -> zlen bs = n.
Proof.
  unfold load_bytes. case_bool_decide as Hr; [|done]. intros Hl%load_cells_length.
  unfold zlen in *. rewrite Hl, length_take, length_drop. lia.
Qed.

Lemma addr_of_length out v6 bs : addr_of out v6 = Done bs -> zlen bs = family_length v6.
Proof. unfold addr_of. intros Hl. exact (load_bytes_length _ _ _ _ Hl). Qed.

Lemma calls_udp_recv_cb p a port : calls_ok (udp_recv_cb p a port).
Proof.
  unfold udp_recv_cb. calls. apply calls_with_bytes. intros bs.
  apply calls_bind_lift. intros src Hs. apply calls_bind_lift. intros dst Hd.
  apply calls_upcall. split; by eapply addr_of_length.
Qed.
#[local] Hint Resolve calls_udp_recv_cb : calls.

(** *** Output *)

Lemma calls_ip4_write_header p src dest ttl tos proto : calls_ok (ip4_write_header p src dest ttl tos proto).
Proof. unfold ip4_write_header. calls. Qed.
Lemma calls_ip6_write_header p src dest hl tc nexth : calls_ok (ip6_write_header p src dest hl tc nexth).
Proof. unfold ip6_write_header. calls. Qed.
#[local] Hint Resolve calls_ip4_write_header calls_ip6_write_header : calls.
Lemma calls_ip4_output_if_src p src dest ttl tos proto : calls_ok (ip4_output_if_src p src dest ttl tos proto).
Proof. unfold ip4_output_if_src. calls. Qed.
Lemma calls_ip6_output_if_src p src dest hl tc nexth : calls_ok (ip6_output_if_src p src dest hl tc nexth).
Proof. unfold ip6_output_if_src. calls. Qed.
#[local] Hint Resolve calls_ip4_output_if_src calls_ip6_output_if_src : calls.
Lemma calls_ip4_output_if p src dest ttl tos proto : calls_ok (ip4_output_if p src dest ttl tos proto).
Proof. unfold ip4_output_if. calls. Qed.
Lemma calls_ip6_output_if p src dest hl tc nexth : calls_ok (ip6_output_if p src dest hl tc nexth).
Proof. unfold ip6_output_if. calls. Qed.
Lemma calls_ip4_route dest : calls_ok (ip4_route dest).
Proof. unfold ip4_route. calls. Qed.
Lemma calls_ip_output_if_src p src dest ttl tos proto : calls_ok (ip_output_if_src p src dest ttl tos proto).
Proof. unfold ip_output_if_src. calls. Qed.
#[local] Hint Resolve calls_ip4_output_if calls_ip6_output_if calls_ip4_route calls_ip_output_if_src : calls.

(** *** ICMP and UDP *)

Section transport.
Variable machine : addr -> Z.

Lemma calls_alloc_ram layer n : calls_ok (alloc_ram layer n).
Proof. unfold alloc_ram. calls. Qed.
Lemma calls_inet_chksum a n : calls_ok (inet_chksum_m machine a n).
Proof. unfold inet_chksum_m. calls. Qed.
Lemma calls_pseudo p proto len src dest : calls_ok (ip_chksum_pseudo_m machine p proto len src dest).
Proof. unfold ip_chksum_pseudo_m. calls. Qed.
#[local] Hint Resolve calls_alloc_ram calls_inet_chksum calls_pseudo : calls.

Lemma calls_icmp_echo_reply p src hlen : calls_ok (icmp_echo_reply machine p src hlen).
Proof. unfold icmp_echo_reply. calls. Qed.
#[local] Hint Resolve calls_icmp_echo_reply : calls.
Lemma calls_icmp_input p : calls_ok (icmp_input machine p).
Proof. unfold icmp_input, icmp_echo_copy. calls. Qed.
Lemma calls_icmp_dest_unreach p t : calls_ok (icmp_dest_unreach machine p t).
Proof. unfold icmp_dest_unreach, icmp_send_response. calls. Qed.
Lemma calls_icmp6_send p code data type src dest :
  calls_ok (icmp6_send_response_with_addrs_and_netif machine p code data type src dest).
Proof. unfold icmp6_send_response_with_addrs_and_netif. calls. Qed.
#[local] Hint Resolve calls_icmp6_send : calls.
Lemma calls_icmp6_response p code data type : calls_ok (icmp6_send_response machine p code data type).
Proof. unfold icmp6_send_response. calls. Qed.
#[local] Hint Resolve calls_icmp_input calls_icmp_dest_unreach calls_icmp6_response : calls.
Lemma calls_icmp6_param_problem p c pointer : calls_ok (icmp6_param_problem machine p c pointer).
Proof. unfold icmp6_param_problem. calls. Qed.
Lemma calls_icmp6_echo p : calls_ok (icmp6_echo machine p).
Proof. unfold icmp6_echo. calls. Qed.
Lemma calls_port_unreach v6 p : calls_ok (icmp_port_unreach machine v6 p).
Proof. unfold icmp_port_unreach, icmp6_dest_unreach. calls. Qed.

#[local] Hint Resolve calls_icmp6_param_problem calls_icmp6_echo calls_port_unreach : calls.

Lemma calls_udp_list : calls_ok udp_list.
Proof. apply calls_quiet. unfold udp_list. intros s a s'. destruct (read_pcbs _ _); [|done]. by intros [= <- <-]. Qed.
Lemma calls_get_pcb p : calls_ok (get_pcb p).
Proof. apply calls_quiet. unfold get_pcb. intros s a s'. destruct (_ !! p); [|done]. by intros [= <- <-]. Qed.
Lemma calls_modify_udp f : calls_ok (modify_udp f).
Proof. by apply calls_modify. Qed.
Lemma calls_put_pcb p pcb : calls_ok (put_pcb p pcb).
Proof. apply calls_modify_udp. Qed.
Lemma calls_udp_new : calls_ok udp_new.
Proof. apply calls_quiet. unfold udp_new. intros s a s'. destruct (memp_udp _); by intros [= <- <-]. Qed.
#[local] Hint Resolve calls_udp_list calls_get_pcb calls_modify_udp calls_put_pcb calls_udp_new : calls.
Lemma calls_udp_new_ip_type type : calls_ok (udp_new_ip_type type).
Proof. unfold udp_new_ip_type. calls. Qed.
Lemma calls_udp_remove p : calls_ok (udp_remove p).
Proof. unfold udp_remove. calls. Qed.
Lemma calls_udp_recv p f arg : calls_ok (udp_recv p f arg).
Proof. unfold udp_recv. calls. Qed.
Lemma calls_udp_bind p a port : calls_ok (udp_bind p a port).
Proof. unfold udp_bind, udp_new_port. calls. Qed.
Lemma calls_udp_changed a b : calls_ok (udp_netif_ip_addr_changed a b).
Proof. unfold udp_netif_ip_addr_changed. calls. apply calls_foldl; intros; calls. Qed.
#[local] Hint Resolve calls_udp_new_ip_type calls_udp_remove calls_udp_recv calls_udp_bind calls_udp_changed : calls.

Lemma calls_call_udp_recv f p a port : calls_ok (call_udp_recv f p a port).
Proof. unfold call_udp_recv. calls. Qed.
#[local] Hint Resolve calls_call_udp_recv : calls.
Lemma calls_udp_input p : calls_ok (udp_input machine p).
Proof. unfold udp_input, udp_find. calls. Qed.
Lemma calls_udp_sendto pcb p dst port src : calls_ok (udp_sendto_if_src machine pcb p dst port src).
Proof. unfold udp_sendto_if_src, udp_add_header, udp_fill_header. calls. Qed.
#[local] Hint Resolve calls_udp_input calls_udp_sendto : calls.

(** *** IP input *)

Variables tcp_input nd6_input : ptr -> M unit.
Hypothesis tcp_calls : forall p, calls_ok (tcp_input p).
Hypothesis nd6_calls : forall p, calls_ok (nd6_input p).
#[local] Hint Resolve tcp_calls nd6_calls : calls.

Lemma calls_modify_ip_data f : calls_ok (modify_ip_data f).
Proof. by apply calls_modify. Qed.
#[local] Hint Resolve calls_modify_ip_data : calls.
Lemma calls_ip4_input p : calls_ok (ip4_input machine tcp_input p).
Proof. unfold ip4_input, ip4_dispatch, ip4_cleanup. calls. Qed.

Lemma calls_ip6_problem p code pointer : calls_ok (ip6_problem machine p code pointer).
Proof. unfold ip6_problem, ip6_drop. calls. Qed.
Lemma calls_ip6_drop p : calls_ok (ip6_drop p).
Proof. unfold ip6_drop. calls. Qed.
#[local] Hint Resolve calls_ip6_problem calls_ip6_drop : calls.
Lemma calls_ip6_options fuel p hdr hlen b off : calls_ok (ip6_options machine fuel p hdr hlen b off).
Proof. revert off. induction fuel as [|fuel IH]; intros off; cbn [ip6_options]; calls. Qed.
#[local] Hint Resolve calls_ip6_options : calls.
Lemma calls_ip6_opt_header p hdr b : calls_ok (ip6_opt_header machine p hdr b).
Proof. unfold ip6_opt_header. calls. Qed.
Lemma calls_ip6_rout_header p hdr : calls_ok (ip6_rout_header machine p hdr).
Proof. unfold ip6_rout_header. calls. Qed.
Lemma calls_ip6_frag_header p a hdr : calls_ok (ip6_frag_header machine p a hdr).
Proof. unfold ip6_frag_header. calls. Qed.
#[local] Hint Resolve calls_ip6_opt_header calls_ip6_rout_header calls_ip6_frag_header : calls.
Lemma calls_ip6_headers fuel p a nexth tot : calls_ok (ip6_headers machine fuel p a nexth tot).
Proof. revert nexth tot. induction fuel as [|fuel IH]; intros nexth tot; cbn [ip6_headers]; calls. Qed.
#[local] Hint Resolve calls_ip6_headers : calls.
Lemma calls_icmp6_input p : calls_ok (icmp6_input machine nd6_input p).
Proof. unfold icmp6_input. calls. Qed.
#[local] Hint Resolve calls_icmp6_input : calls.
Lemma calls_ip6_process p a : calls_ok (ip6_process machine tcp_input nd6_input p a).
Proof. unfold ip6_process, ip6_dispatch. calls. Qed.
#[local] Hint Resolve calls_ip4_input calls_ip6_process : calls.
Lemma calls_ip_input p : calls_ok (ip_input machine tcp_input nd6_input p).
Proof. unfold ip_input, ip6_input, ip6_cleanup. calls. Qed.
#[local] Hint Resolve calls_ip_input : calls.

(** *** The bridge *)

Lemma calls_modify_bridge f : calls_ok (modify_bridge f).
Proof. by apply calls_modify. Qed.
Lemma calls_modify_netif f : calls_ok (modify_netif f).
Proof. by apply calls_modify. Qed.
#[local] Hint Resolve calls_modify_bridge calls_modify_netif : calls.

Lemma calls_input data len : calls_ok (lwip_bridge_input machine tcp_input nd6_input data len).
Proof. unfold lwip_bridge_input, capture_udp_dst, call_netif_input. calls. Qed.

Lemma calls_sendto src sport dst dport v6 data len :
  calls_ok (lwip_bridge_udp_sendto machine src sport dst dport v6 data len).
Proof. unfold lwip_bridge_udp_sendto, bytes_to_ip_addr. calls. Qed.

Lemma calls_lwip_init rand tcp_init sys_timeouts_init :
  calls_ok tcp_init -> calls_ok sys_timeouts_init -> calls_ok (lwip_init rand tcp_init sys_timeouts_init).
Proof. intros Ht Hs. unfold lwip_init, udp_init. calls. Qed.

Variable nd6_cleanup_netif call_lwip_init open_tcp_listeners lwip_bridge_abort_all_tcp close_tcp_listeners : M unit.
Variable tcp_netif_ip_addr_changed : ip_addr_t -> option ip_addr_t -> M unit.
Hypothesis cleanup_calls : calls_ok nd6_cleanup_netif.
Hypothesis init_calls : calls_ok call_lwip_init.
Hypothesis open_calls : calls_ok open_tcp_listeners.
Hypothesis abort_calls : calls_ok lwip_bridge_abort_all_tcp.
Hypothesis close_calls : calls_ok close_tcp_listeners.
Hypothesis changed_calls : forall a b, calls_ok (tcp_netif_ip_addr_changed a b).
#[local] Hint Resolve cleanup_calls init_calls open_calls abort_calls close_calls changed_calls : calls.

Lemma calls_addr_changed a b : calls_ok (netif_do_ip_addr_changed tcp_netif_ip_addr_changed a b).
Proof. unfold netif_do_ip_addr_changed. calls. Qed.
#[local] Hint Resolve calls_addr_changed : calls.
Lemma calls_shutdown :
  calls_ok (lwip_bridge_shutdown nd6_cleanup_netif tcp_netif_ip_addr_changed lwip_bridge_abort_all_tcp close_tcp_listeners).
Proof.
  unfold lwip_bridge_shutdown, netif_remove, netif_set_down, netif_set_default. calls.
  all: apply calls_foldl; intros; calls.
Qed.
#[local] Hint Resolve calls_shutdown : calls.
Lemma calls_netif_add a b c init : calls_ok init -> calls_ok (netif_add tcp_netif_ip_addr_changed a b c init).
Proof.
  intros Hi. unfold netif_add, nd6_restart_netif, netif_set_addr, netif_do_set_ipaddr, netif_do_set_netmask, netif_do_set_gw.
  calls.
Qed.
Lemma calls_listener v6 : calls_ok (open_udp_listener v6).
Proof. unfold open_udp_listener. calls. Qed.
#[local] Hint Resolve calls_listener : calls.
Lemma calls_init :
  calls_ok (lwip_bridge_init nd6_cleanup_netif tcp_netif_ip_addr_changed call_lwip_init open_tcp_listeners
    lwip_bridge_abort_all_tcp close_tcp_listeners).
Proof.
  unfold lwip_bridge_init, netif_set_up, nd6_restart_netif, netif_set_default, netif_ip6_addr_set, netif_ip6_addr_set_state.
  calls. apply calls_netif_add. unfold tun_netif_init_fn. calls.
Qed.
End transport.
End stack.
