(* ===== verification/Jni.v ===== *)
(** * The Java virtual machine as the lwIP bridge sees it

    The functions of the Java Native Interface that [lwip_jni_bridge.c] calls, as their
    specification documents them: references are handles in the table of the calling
    thread or in the global one, arrays are objects behind them, a failed call may leave
    an exception pending. What the specification leaves to the machine (whether memory is
    granted, what a Java method answers or throws) is the parameter [JavaVM]; what it
    forbids (a dead or null reference, a call of a thread that is not attached, most calls
    with an exception pending) is [Undef]. Java methods are taken to return before they
    call a native method again. *)
From Stdlib Require Import ZArith Lia.
From stdpp Require Import base list option numbers gmap.
From S2P Require Import Prelude.

(** ** Code over a state *)

Definition SM (S A : Type) : Type := S -> outcome (A * S).

#[export] Instance SM_ret {S} : MRet (SM S) := fun A a s => Done (a, s).
#[export] Instance SM_bind {S} : MBind (SM S) := fun A B k m s => '(a, s) ← m s; k a s.

Definition sm_undef {S A} : SM S A := fun _ => Undef.
Definition sm_gets {S A} (f : S -> A) : SM S A := fun s => Done (f s, s).
Definition sm_modify {S} (f : S -> S) : SM S unit := fun s => Done (tt, f s).

(** The code comes back from [s] with a result and a state that satisfy [Q]. *)
Definition runs {S A} (m : SM S A) (s : S) (Q : A -> S -> Prop) : Prop :=
  exists a s', m s = Done (a, s') /\ Q a s'.

Lemma runs_ret {S A} (a : A) (s : S) (Q : A -> S -> Prop) : Q a s -> runs (mret a) s Q.
Proof. intros HQ. by exists a, s. Qed.

Lemma runs_bind {S A B} (m : SM S A) (k : A -> SM S B) s Q :
  runs m s (fun a s' => runs (k a) s' Q) -> runs (m ≫= k) s Q.
Proof.
  intros (a & s' & Hm & b & s'' & Hk & HQ). exists b, s''. split; [|done].
  unfold mbind, SM_bind. by rewrite Hm.
Qed.

Lemma runs_mono {S A} (m : SM S A) s (Q R : A -> S -> Prop) :
  runs m s Q -> (forall a s', Q a s' -> R a s') -> runs m s R.
Proof. intros (a & s' & Hm & HQ) HR. exists a, s'. auto. Qed.

Lemma runs_gets {S A} (f : S -> A) s Q : Q (f s) s -> runs (sm_gets f) s Q.
Proof. intros HQ. by exists (f s), s. Qed.

Lemma runs_modify {S} (f : S -> S) s Q : Q tt (f s) -> runs (sm_modify f) s Q.
Proof. intros HQ. by exists tt, (f s). Qed.

Lemma runs_done {S A} (m : SM S A) s a s' (Q : A -> S -> Prop) : m s = Done (a, s') -> Q a s' -> runs m s Q.
Proof. intros Hm HQ. by exists a, s'. Qed.

Lemma runs_result {S A} (m : SM S A) s (Q : A -> S -> Prop) a s' : m s = Done (a, s') -> runs m s Q -> Q a s'.
Proof. intros Hm (b & t & Hm' & HQ). rewrite Hm in Hm'. by simplify_eq. Qed.

(** ** Objects and references *)

Inductive jobject := class_obj | array_obj (k : positive) | string_obj (bytes : list Z).
Abbreviation jref := positive.

#[export] Instance jobject_eq_dec : EqDecision jobject.
Proof. solve_decision. Defined.

(** The static methods of [NativeBridge] *)
Inductive jmethod :=
  on_output_mid | on_tcp_accept_mid | on_tcp_recv_mid | on_tcp_sent_mid | on_tcp_err_mid | on_udp_recv_mid.

(** A call of one, with the contents of its arrays. *)
Inductive java_call :=
| onOutput (packet : list Z) (length : Z) (isIpv6 : bool)
| onTcpAccept (srcIp : list Z) (srcPort : Z) (dstIp : list Z) (dstPort : Z) (isIpv6 : bool) (pcb : Z)
| onTcpRecv (connId : Z) (data : option (list Z))
| onTcpSent (connId length : Z)
| onTcpErr (connId err : Z)
| onUdpRecv (srcIp : list Z) (srcPort : Z) (dstIp : list Z) (dstPort : Z) (isIpv6 : bool) (data : list Z).

Record jvm := mk_jvm {
  j_attached : bool;
  j_pending : bool;
  j_arrays : gmap positive (list Z);
  j_locals : gmap jref jobject;
  j_globals : gmap jref jobject;
  j_fresh : positive;
  j_calls : list java_call;
}.

(** What the machine decides, given what happened so far. *)
Class JavaVM := {
  supports_version : bool;
  attaches : jvm -> bool;
  allocates : jvm -> Z -> bool;
  makes_global : jvm -> bool;
  makes_string : jvm -> bool;
  grants_elements : jvm -> jref -> bool;
  has_method : jmethod -> bool;
  throws : jvm -> java_call -> bool;
  answers : jvm -> java_call -> Z;
}.

Definition set_attached (b : bool) (j : jvm) : jvm :=
  mk_jvm b (j_pending j) (j_arrays j) (j_locals j) (j_globals j) (j_fresh j) (j_calls j).
Definition set_pending (b : bool) (j : jvm) : jvm :=
  mk_jvm (j_attached j) b (j_arrays j) (j_locals j) (j_globals j) (j_fresh j) (j_calls j).
Definition set_arrays (a : gmap positive (list Z)) (j : jvm) : jvm :=
  mk_jvm (j_attached j) (j_pending j) a (j_locals j) (j_globals j) (j_fresh j) (j_calls j).
Definition set_locals (l : gmap jref jobject) (j : jvm) : jvm :=
  mk_jvm (j_attached j) (j_pending j) (j_arrays j) l (j_globals j) (j_fresh j) (j_calls j).
Definition set_globals (g : gmap jref jobject) (j : jvm) : jvm :=
  mk_jvm (j_attached j) (j_pending j) (j_arrays j) (j_locals j) g (j_fresh j) (j_calls j).
Definition add_call (c : java_call) (j : jvm) : jvm :=
  mk_jvm (j_attached j) (j_pending j) (j_arrays j) (j_locals j) (j_globals j) (j_fresh j) (j_calls j ++ [c]).

(** A new handle in the table of the thread, and a new array behind one. *)
Definition add_local (o : jobject) (j : jvm) : jvm :=
  mk_jvm (j_attached j) (j_pending j) (j_arrays j) (<[j_fresh j := o]> (j_locals j)) (j_globals j)
    (Pos.succ (j_fresh j)) (j_calls j).
Definition add_global (o : jobject) (j : jvm) : jvm :=
  mk_jvm (j_attached j) (j_pending j) (j_arrays j) (j_locals j) (<[j_fresh j := o]> (j_globals j))
    (Pos.succ (j_fresh j)) (j_calls j).
Definition add_array (n : Z) (j : jvm) : jvm :=
  mk_jvm (j_attached j) (j_pending j) (<[j_fresh j := replicate (Z.to_nat n) 0]> (j_arrays j))
    (<[j_fresh j := array_obj (j_fresh j)]> (j_locals j)) (j_globals j) (Pos.succ (j_fresh j)) (j_calls j).

(** ** The functions *)

Section functions.
Context `{JavaVM}.

Abbreviation J := (SM jvm).

Inductive jstatus := JNI_OK | JNI_EDETACHED | JNI_EVERSION | JNI_ERR.

Definition GetEnv : J jstatus :=
  sm_gets (fun j => if negb supports_version then JNI_EVERSION
                    else if j_attached j then JNI_OK else JNI_EDETACHED).

Definition AttachCurrentThread : J jstatus := fun j =>
  if attaches j then Done (JNI_OK, set_attached true j) else Done (JNI_ERR, j).

(** The references and the exception of the thread go with it. *)
Definition DetachCurrentThread : J unit := fun j =>
  if j_attached j then Done (tt, set_locals ∅ (set_pending false (set_attached false j))) else Undef.

(** Functions that may be called with an exception pending, and all others *)
Definition attached {A} (m : J A) : J A := fun j => if j_attached j then m j else Undef.
Definition usable {A} (m : J A) : J A := fun j => if j_attached j && negb (j_pending j) then m j else Undef.

Definition object_of (j : jvm) (r : jref) : option jobject :=
  match j_locals j !! r with Some o => Some o | None => j_globals j !! r end.

Definition array_of (j : jvm) (r : jref) : option (positive * list Z) :=
  match object_of j r with
  | Some (array_obj k) => a ← j_arrays j !! k; Some (k, a)
  | _ => None
  end.

Definition DeleteLocalRef (r : jref) : J unit := attached (fun j =>
  match j_locals j !! r with
  | Some _ => Done (tt, set_locals (delete r (j_locals j)) j)
  | None => Undef
  end).

Definition DeleteGlobalRef (r : jref) : J unit := attached (fun j =>
  match j_globals j !! r with
  | Some _ => Done (tt, set_globals (delete r (j_globals j)) j)
  | None => Undef
  end).

Definition NewGlobalRef (r : jref) : J (option jref) := usable (fun j =>
  match object_of j r with
  | Some o => if makes_global j then Done (Some (j_fresh j), add_global o j) else Done (None, j)
  | None => Undef
  end).

Definition NewByteArray (n : Z) : J (option jref) := usable (fun j =>
  if (0 <=? n) && allocates j n then Done (Some (j_fresh j), add_array n j)
  else Done (None, set_pending true j)).

(** [bytes] is what the native buffer holds from its start. *)
Definition SetByteArrayRegion (r : option jref) (start len : Z) (bytes : list Z) : J unit := usable (fun j =>
  match r with
  | Some r =>
      match array_of j r with
      | Some (k, a) =>
          if (0 <=? start) && (0 <=? len) && (start + len <=? zlen a) then
            if len <=? zlen bytes
            then Done (tt, set_arrays (<[k := ztake start a ++ ztake len bytes ++ zdrop (start + len) a]> (j_arrays j)) j)
            else Undef
          else Done (tt, set_pending true j)
      | None => Undef
      end
  | None => Undef
  end).

Definition GetStaticMethodID (m : jmethod) : J bool := usable (fun j =>
  if has_method m then Done (true, j) else Done (false, set_pending true j)).

(** The contents of an array argument *)
Definition GetArray (r : option jref) : J (list Z) := fun j =>
  match r with
  | Some r => match array_of j r with Some (_, a) => Done (a, j) | None => Undef end
  | None => Undef
  end.

Definition CallStaticMethod (cls : jref) (c : java_call) : J Z := usable (fun j =>
  if bool_decide (object_of j cls = Some class_obj)
  then Done (answers j c, set_pending (throws j c) (add_call c j))
  else Undef).

Definition CallStaticVoidMethod (cls : jref) (c : java_call) : J unit := _ ← CallStaticMethod cls c; mret tt.
Definition CallStaticLongMethod (cls : jref) (c : java_call) : J Z := CallStaticMethod cls c.

Definition NewStringUTF (bytes : list Z) : J (option jref) := usable (fun j =>
  if makes_string j then Done (Some (j_fresh j), add_local (string_obj bytes) j)
  else Done (None, set_pending true j)).
End functions.
