(* ===== verification/JniBridge.v ===== *)
(** * The JNI functions over the lwIP bridge ([lwip_jni_bridge.c])

    The callbacks from the stack into Java, with the statics of the file and the machine
    as their state, and the native methods, which run the functions of [lwip_bridge.h]
    and hand what those call back to the callbacks, in order. *)
From Stdlib Require Import ZArith Lia.
From stdpp Require Import base list option numbers gmap.
From S2P Require Import Prelude Pbuf Lwip Jni.

(** ** Statics *)

(** A method handle is NULL or that of its method; so is the cached [JavaVM]. *)
Record statics := mk_statics {
  g_jvm : bool;
  g_bridge_class : option jref;
  g_output_buf : option jref;
  g_output_buf_cap : Z;
  g_mids : jmethod -> bool;
}.

Record jni := mk_jni { jg : statics; jv : jvm }.

#[export] Instance jmethod_eq_dec : EqDecision jmethod.
Proof. solve_decision. Defined.

Definition set_jvm (g : statics) : statics :=
  mk_statics true (g_bridge_class g) (g_output_buf g) (g_output_buf_cap g) (g_mids g).
Definition set_class (c : option jref) (g : statics) : statics :=
  mk_statics (g_jvm g) c (g_output_buf g) (g_output_buf_cap g) (g_mids g).
Definition set_output_buf (b : option jref) (cap : Z) (g : statics) : statics :=
  mk_statics (g_jvm g) (g_bridge_class g) b cap (g_mids g).
Definition set_mid (m : jmethod) (found : bool) (g : statics) : statics :=
  mk_statics (g_jvm g) (g_bridge_class g) (g_output_buf g) (g_output_buf_cap g)
    (fun m' => if decide (m' = m) then found else g_mids g m').
Definition clear_mids (g : statics) : statics :=
  mk_statics (g_jvm g) (g_bridge_class g) (g_output_buf g) (g_output_buf_cap g) (fun _ => false).

(** What the linker sets up before [JNI_OnLoad] *)
Definition initial_statics : statics := mk_statics false None None 0 (fun _ => false).

Section callbacks.
Context `{JavaVM}.

Abbreviation C := (SM jni).

Definition vm {A} (m : SM jvm A) : C A := fun s => '(a, j) ← m (jv s); Done (a, mk_jni (jg s) j).
Definition modify_statics (f : statics -> statics) : C unit := sm_modify (fun s => mk_jni (f (jg s)) (jv s)).

Definition JNI_OnLoad : C unit := modify_statics set_jvm.

(** *** The environment of the thread *)

(** Whether there is one, and whether the thread was attached for it. *)
Definition get_env : C (bool * bool) :=
  g ← sm_gets jg;
  if negb (g_jvm g) then mret (false, false)
  else
    status ← vm GetEnv;
    match status with
    | JNI_OK => mret (true, false)
    | JNI_EDETACHED =>
        status ← vm AttachCurrentThread;
        match status with
        | JNI_OK => mret (true, true)
        | _ => mret (false, false)
        end
    | _ => mret (false, false)
    end.

Definition release_env (did_attach : bool) : C unit :=
  g ← sm_gets jg;
  if did_attach && g_jvm g then vm DetachCurrentThread else mret tt.

(** The frame of every callback: [None] when the state is not ready. *)
Definition with_env {A} (mid : jmethod) (body : jref -> C A) : C (option A) :=
  '(env, did_attach) ← get_env;
  g ← sm_gets jg;
  match g_bridge_class g with
  | Some cls =>
      if env && g_mids g mid then
        a ← body cls;
        _ ← release_env did_attach;
        mret (Some a)
      else _ ← release_env did_attach; mret None
  | None => _ ← release_env did_attach; mret None
  end.

Definition delete_if (r : option jref) : C unit :=
  match r with Some r => vm (DeleteLocalRef r) | None => mret tt end.

(** *** Packets out *)

(** Makes [g_output_buf] large enough; [false] when that fails. *)
Definition ensure_output_buf (len : Z) : C bool :=
  g ← sm_gets jg;
  if bool_decide (g_output_buf g = None) || (g_output_buf_cap g <? len) then
    _ ← match g_output_buf g with Some r => vm (DeleteGlobalRef r) | None => mret tt end;
    let cap := if 2048 <? len then len else 2048 in
    local ← vm (NewByteArray cap);
    match local with
    | None => _ ← modify_statics (set_output_buf None 0); mret false
    | Some local =>
        buf ← vm (NewGlobalRef local);
        _ ← vm (DeleteLocalRef local);
        _ ← modify_statics (set_output_buf buf cap);
        mret true
    end
  else mret true.

Definition jni_output_cb (data : list Z) (len : Z) (is_ipv6 : bool) : C unit :=
  _ ← with_env on_output_mid (fun cls =>
    ok ← ensure_output_buf len;
    if negb ok then mret tt
    else
      g ← sm_gets jg;
      _ ← vm (SetByteArrayRegion (g_output_buf g) 0 len data);
      packet ← vm (GetArray (g_output_buf g));
      vm (CallStaticVoidMethod cls (onOutput packet len is_ipv6)));
  mret tt.

(** *** TCP *)

Definition addr_len (is_ipv6 : bool) : Z := if is_ipv6 then 16 else 4.

(** The result is the [conn_id]; 0 is NULL. *)
Definition jni_tcp_accept_cb (src_ip : list Z) (src_port : Z) (dst_ip : list Z) (dst_port : Z)
    (is_ipv6 : bool) (pcb : Z) : C Z :=
  r ← with_env on_tcp_accept_mid (fun cls =>
    let n := addr_len is_ipv6 in
    j_src_ip ← vm (NewByteArray n);
    j_dst_ip ← vm (NewByteArray n);
    match j_src_ip, j_dst_ip with
    | Some src, Some dst =>
        _ ← vm (SetByteArrayRegion j_src_ip 0 n src_ip);
        _ ← vm (SetByteArrayRegion j_dst_ip 0 n dst_ip);
        a_src ← vm (GetArray j_src_ip);
        a_dst ← vm (GetArray j_dst_ip);
        conn_id ← vm (CallStaticLongMethod cls (onTcpAccept a_src src_port a_dst dst_port is_ipv6 pcb));
        _ ← vm (DeleteLocalRef src);
        _ ← vm (DeleteLocalRef dst);
        mret conn_id
    | _, _ => _ ← delete_if j_src_ip; _ ← delete_if j_dst_ip; mret 0
    end);
  mret (default 0 r).

(** [None] is the NULL of a closed connection. *)
Definition jni_tcp_recv_cb (conn : Z) (data : option (list Z)) (len : Z) : C unit :=
  _ ← with_env on_tcp_recv_mid (fun cls =>
    match data with
    | Some data =>
        if 0 <? len then
          j_data ← vm (NewByteArray len);
          match j_data with
          | None => mret tt
          | Some r =>
              _ ← vm (SetByteArrayRegion j_data 0 len data);
              a ← vm (GetArray j_data);
              _ ← vm (CallStaticVoidMethod cls (onTcpRecv conn (Some a)));
              vm (DeleteLocalRef r)
          end
        else vm (CallStaticVoidMethod cls (onTcpRecv conn None))
    | None => vm (CallStaticVoidMethod cls (onTcpRecv conn None))
    end);
  mret tt.

Definition jni_tcp_sent_cb (conn len : Z) : C unit :=
  _ ← with_env on_tcp_sent_mid (fun cls => vm (CallStaticVoidMethod cls (onTcpSent conn len)));
  mret tt.

Definition jni_tcp_err_cb (conn err : Z) : C unit :=
  _ ← with_env on_tcp_err_mid (fun cls => vm (CallStaticVoidMethod cls (onTcpErr conn err)));
  mret tt.

(** *** UDP *)

Definition jni_udp_recv_cb (src_ip : list Z) (src_port : Z) (dst_ip : list Z) (dst_port : Z)
    (is_ipv6 : bool) (data : list Z) (len : Z) : C unit :=
  _ ← with_env on_udp_recv_mid (fun cls =>
    let n := addr_len is_ipv6 in
    j_src_ip ← vm (NewByteArray n);
    j_dst_ip ← vm (NewByteArray n);
    j_data ← vm (NewByteArray len);
    match j_src_ip, j_dst_ip, j_data with
    | Some src, Some dst, Some dat =>
        _ ← vm (SetByteArrayRegion j_src_ip 0 n src_ip);
        _ ← vm (SetByteArrayRegion j_dst_ip 0 n dst_ip);
        _ ← vm (SetByteArrayRegion j_data 0 len data);
        a_src ← vm (GetArray j_src_ip);
        a_dst ← vm (GetArray j_dst_ip);
        a_data ← vm (GetArray j_data);
        _ ← vm (CallStaticVoidMethod cls (onUdpRecv a_src src_port a_dst dst_port is_ipv6 a_data));
        _ ← vm (DeleteLocalRef src);
        _ ← vm (DeleteLocalRef dst);
        vm (DeleteLocalRef dat)
    | _, _, _ => _ ← delete_if j_src_ip; _ ← delete_if j_dst_ip; delete_if j_data
    end);
  mret tt.

(** The function registered for a call of the stack *)
Definition callback (u : upcall) : C unit :=
  match u with
  | output_fn data is_ipv6 => jni_output_cb data (zlen data) is_ipv6
  | tcp_recv_fn conn data => jni_tcp_recv_cb conn data (match data with Some d => zlen d | None => 0 end)
  | tcp_sent_fn conn len => jni_tcp_sent_cb conn len
  | tcp_err_fn conn err => jni_tcp_err_cb conn err
  | udp_recv_up src src_port dst dst_port is_ipv6 data =>
      jni_udp_recv_cb src src_port dst dst_port is_ipv6 data (zlen data)
  end.

Fixpoint callbacks (us : list upcall) : C unit :=
  match us with
  | [] => mret tt
  | u :: us => _ ← callback u; callbacks us
  end.
End callbacks.

(** ** [lwip_bridge.h]

    The functions of the bridge; [inet_ntop] writes a string of bytes or fails. *)
Class LwipBridge := {
  bridge_set_fns : bool -> M unit;
  bridge_init : M unit;
  bridge_shutdown : M unit;
  bridge_abort_all_tcp : M unit;
  bridge_input : option addr -> Z -> M unit;
  bridge_tcp_write : Z -> addr -> Z -> M Z;
  bridge_tcp_output : Z -> M unit;
  bridge_tcp_recved : Z -> Z -> M unit;
  bridge_tcp_close : Z -> M unit;
  bridge_tcp_abort : Z -> M unit;
  bridge_tcp_sndbuf : Z -> M Z;
  bridge_tcp_snd_queuelen : Z -> M Z;
  bridge_udp_sendto : addr -> Z -> addr -> Z -> bool -> option addr -> Z -> M unit;
  bridge_check_timeouts : M unit;
  bridge_ip_to_string : addr -> bool -> M (option (list Z));
}.

(** The whole native side *)
Record native := mk_native { nt_jni : jni; nt_stack : stack }.

Section natives.
Context `{JavaVM} `{LwipBridge}.

Abbreviation N := (SM native).

Definition jni_m {A} (m : SM jni A) : N A := fun s =>
  '(a, j) ← m (nt_jni s); Done (a, mk_native j (nt_stack s)).
Definition nvm {A} (m : SM jvm A) : N A := jni_m (vm m).

(** The stack runs, and its calls reach Java. *)
Definition run_lwip {A} (m : M A) : N A := fun s =>
  '(a, st) ← m (nt_stack s);
  '(_, j) ← callbacks (drop (length (st_trace (nt_stack s))) (st_trace st)) (nt_jni s);
  Done (a, mk_native j st).

(** The elements of an array as a block of native memory, a copy. *)
Definition GetByteArrayElements (r : jref) : N (option ptr) := fun s =>
  let j := jv (nt_jni s) in
  if j_attached j && negb (j_pending j) then
    match array_of j r with
    | Some (_, a) =>
        if grants_elements j r then
          let h := st_heap (nt_stack s) in
          let b := h_fresh h in
          Done (Some b, mk_native (nt_jni s) (set_heap (mk_heap (h_pbufs h) (<[b := map Some a]> (h_mem h)) (Pos.succ b)
            (h_memp_pbuf h) (h_memp_pool h)) (nt_stack s)))
        else Done (None, s)
    | None => Undef
    end
  else Undef.

(** [JNI_ABORT]: the block is freed and not copied back. *)
Definition ReleaseByteArrayElements (r : jref) (b : ptr) : N unit := fun s =>
  if j_attached (jv (nt_jni s)) then
    let h := st_heap (nt_stack s) in
    match h_mem h !! b with
    | Some _ =>
        Done (tt, mk_native (nt_jni s) (set_heap (mk_heap (h_pbufs h) (delete b (h_mem h)) (h_fresh h)
          (h_memp_pbuf h) (h_memp_pool h)) (nt_stack s)))
    | None => Undef
    end
  else Undef.

Definition at_start (b : ptr) : addr := mk_addr b 0.

Definition release_if (r : jref) (b : option ptr) : N unit :=
  match b with Some b => ReleaseByteArrayElements r b | None => mret tt end.

(** Looks up the method; [false] when it is not found. *)
Definition find_method (m : jmethod) : N bool :=
  found ← nvm (GetStaticMethodID m);
  _ ← jni_m (modify_statics (set_mid m found));
  mret found.

Fixpoint find_methods (ms : list jmethod) : N bool :=
  match ms with
  | [] => mret true
  | m :: ms => found ← find_method m; if (found : bool) then find_methods ms else mret false
  end.

Definition all_methods : list jmethod :=
  [on_output_mid; on_tcp_accept_mid; on_tcp_recv_mid; on_tcp_sent_mid; on_tcp_err_mid; on_udp_recv_mid].

Definition nativeInit (clazz : jref) : N unit :=
  g ← jni_m (sm_gets jg);
  _ ← match g_bridge_class g with Some c => nvm (DeleteGlobalRef c) | None => mret tt end;
  c ← nvm (NewGlobalRef clazz);
  _ ← jni_m (modify_statics (set_class c));
  match c with
  | None => mret tt
  | Some _ =>
      found ← find_methods all_methods;
      if negb found then mret tt
      else
        _ ← run_lwip (bridge_set_fns true);
        run_lwip bridge_init
  end.

Definition nativeShutdown : N unit :=
  _ ← run_lwip bridge_shutdown;
  _ ← run_lwip (bridge_set_fns false);
  g ← jni_m (sm_gets jg);
  _ ← match g_output_buf g with
      | Some r => _ ← nvm (DeleteGlobalRef r); jni_m (modify_statics (set_output_buf None 0))
      | None => mret tt
      end;
  _ ← match g_bridge_class g with
      | Some c => _ ← nvm (DeleteGlobalRef c); jni_m (modify_statics (set_class None))
      | None => mret tt
      end;
  jni_m (modify_statics clear_mids).

Definition nativeInput (packet : option jref) (length : Z) : N unit :=
  match packet with
  | None => mret tt
  | Some packet =>
      if length <=? 0 then mret tt
      else
        buf ← GetByteArrayElements packet;
        match buf with
        | None => mret tt
        | Some buf =>
            _ ← run_lwip (bridge_input (Some (at_start buf)) length);
            ReleaseByteArrayElements packet buf
        end
  end.

Definition nativeTimerPoll : N unit := run_lwip bridge_check_timeouts.

Definition nativeAbortAllTcp : N unit := run_lwip bridge_abort_all_tcp.

Definition nativeTcpWrite (pcb : Z) (data : option jref) (offset length : Z) : N Z :=
  match data with
  | None => mret (-1)
  | Some data =>
      if length <=? 0 then mret (-1)
      else
        buf ← GetByteArrayElements data;
        match buf with
        | None => mret (-1)
        | Some buf =>
            result ← run_lwip (bridge_tcp_write pcb (mk_addr buf offset) (u16 length));
            _ ← ReleaseByteArrayElements data buf;
            mret result
        end
  end.

Definition nativeTcpOutput (pcb : Z) : N unit := run_lwip (bridge_tcp_output pcb).
Definition nativeTcpRecved (pcb length : Z) : N unit := run_lwip (bridge_tcp_recved pcb (u16 length)).
Definition nativeTcpClose (pcb : Z) : N unit := run_lwip (bridge_tcp_close pcb).
Definition nativeTcpAbort (pcb : Z) : N unit := run_lwip (bridge_tcp_abort pcb).
Definition nativeTcpSndbuf (pcb : Z) : N Z := run_lwip (bridge_tcp_sndbuf pcb).
Definition nativeTcpSndQueuelen (pcb : Z) : N Z := run_lwip (bridge_tcp_snd_queuelen pcb).

Definition nativeUdpSendto (srcIp : option jref) (srcPort : Z) (dstIp : option jref) (dstPort : Z)
    (isIpv6 : bool) (data : option jref) (length : Z) : N unit :=
  match srcIp, dstIp, data with
  | Some srcIp, Some dstIp, Some data =>
      if length <=? 0 then mret tt
      else
        src_ip_buf ← GetByteArrayElements srcIp;
        dst_ip_buf ← GetByteArrayElements dstIp;
        data_buf ← GetByteArrayElements data;
        match src_ip_buf, dst_ip_buf, data_buf with
        | Some src_ip, Some dst_ip, Some buf =>
            _ ← run_lwip (bridge_udp_sendto (at_start src_ip) (u16 srcPort) (at_start dst_ip) (u16 dstPort) isIpv6
                  (Some (at_start buf)) length);
            _ ← ReleaseByteArrayElements srcIp src_ip;
            _ ← ReleaseByteArrayElements dstIp dst_ip;
            ReleaseByteArrayElements data buf
        | _, _, _ =>
            _ ← release_if srcIp src_ip_buf;
            _ ← release_if dstIp dst_ip_buf;
            release_if data data_buf
        end
  | _, _, _ => mret tt
  end.

Definition nativeIpToString (addr : option jref) (isIpv6 : bool) : N (option jref) :=
  match addr with
  | None => mret None
  | Some addr =>
      addr_buf ← GetByteArrayElements addr;
      match addr_buf with
      | None => mret None
      | Some buf =>
          result ← run_lwip (bridge_ip_to_string (at_start buf) isIpv6);
          _ ← ReleaseByteArrayElements addr buf;
          match result with
          | None => mret None
          | Some out => nvm (NewStringUTF out)
          end
      end
  end.
End natives.
