(* ===== verification/JniProofs.v ===== *)
(** * Calls into Java: lemmas

    Rules for the functions of the machine and the relation between the states before and
    after a callback: its call is made, and every reference is as before. *)
From Stdlib Require Import ZArith Lia.
From stdpp Require Import base list option numbers gmap.
From S2P Require Import Prelude Pbuf Lwip BridgeTrace Jni JniBridge.

(** ** The machine *)

(** Handles are new, and a handle is in one table. *)
Record vm_ok (j : jvm) : Prop := {
  vo_fresh : forall k, (j_fresh j <= k)%positive ->
    j_locals j !! k = None /\ j_globals j !! k = None /\ j_arrays j !! k = None;
  vo_tables : forall r, is_Some (j_globals j !! r) -> j_locals j !! r = None;
}.

(** A machine that refuses nothing, running methods that throw nothing. *)
Record cooperative `(JavaVM) : Prop := {
  co_version : supports_version = true;
  co_attaches : forall j, attaches j = true;
  co_allocates : forall j n, allocates j n = true;
  co_global : forall j, makes_global j = true;
  co_string : forall j, makes_string j = true;
  co_elements : forall j r, grants_elements j r = true;
  co_method : forall m, has_method m = true;
  co_throws : forall j c, throws j c = false;
}.

(** The thread may call any function. *)
Definition can_call (j : jvm) : Prop := j_attached j = true /\ j_pending j = false.

Ltac lookups :=
  repeat first
    [ rewrite lookup_insert_eq
    | rewrite lookup_insert_ne by lia
    | rewrite lookup_delete_eq
    | rewrite lookup_delete_ne by lia ].

Section machine.
Context `{JavaVM}.

Lemma runs_usable {A} (m : SM jvm A) j Q : can_call j -> runs m j Q -> runs (usable m) j Q.
Proof. intros [Ha Hp] (a & j' & Hm & HQ). exists a, j'. unfold usable. by rewrite Ha, Hp. Qed.

Lemma runs_attached {A} (m : SM jvm A) j Q : j_attached j = true -> runs m j Q -> runs (attached m) j Q.
Proof. intros Ha (a & j' & Hm & HQ). exists a, j'. unfold attached. by rewrite Ha. Qed.

Lemma array_of_local j r k a :
  j_locals j !! r = Some (array_obj k) -> j_arrays j !! k = Some a -> array_of j r = Some (k, a).
Proof. intros Hr Hk. unfold array_of, object_of. rewrite Hr. cbn. by rewrite Hk. Qed.

Lemma array_of_global j r k a :
  j_locals j !! r = None -> j_globals j !! r = Some (array_obj k) -> j_arrays j !! k = Some a ->
  array_of j r = Some (k, a).
Proof. intros Hl Hr Hk. unfold array_of, object_of. rewrite Hl, Hr. cbn. by rewrite Hk. Qed.

Lemma runs_new_array n j Q :
  can_call j -> 0 <= n -> allocates j n = true -> Q (Some (j_fresh j)) (add_array n j) -> runs (NewByteArray n) j Q.
Proof.
  intros Hc Hn Ha HQ. apply runs_usable; [done|]. eapply runs_done; [|exact HQ].
  rewrite Ha, (proj2 (Z.leb_le 0 n) Hn). done.
Qed.

Lemma runs_new_array_fails n j Q :
  can_call j -> allocates j n = false -> Q None (set_pending true j) -> runs (NewByteArray n) j Q.
Proof.
  intros Hc Ha HQ. apply runs_usable; [done|]. eapply runs_done; [|exact HQ]. by rewrite Ha, andb_false_r.
Qed.

(** Writing a whole array, or its beginning. *)
Lemma runs_set_region r k a bytes j Q :
  can_call j -> array_of j r = Some (k, a) -> zlen bytes <= zlen a ->
  Q tt (set_arrays (<[k := bytes ++ zdrop (zlen bytes) a]> (j_arrays j)) j) ->
  runs (SetByteArrayRegion (Some r) 0 (zlen bytes) bytes) j Q.
Proof.
  intros Hc Hr Hl HQ. apply runs_usable; [done|]. eapply runs_done; [|exact HQ]. rewrite Hr.
  pose proof (zlen_nonneg bytes).
  rewrite (proj2 (Z.leb_le 0 (zlen bytes))), (proj2 (Z.leb_le (0 + zlen bytes) (zlen a))), (Z.leb_refl (zlen bytes)) by lia. cbn.
  rewrite (ztake_nonpos 0 a) by lia. rewrite (ztake_all (zlen bytes) bytes) by lia. done.
Qed.

Lemma runs_get_array r k a j Q : array_of j r = Some (k, a) -> Q a j -> runs (GetArray (Some r)) j Q.
Proof. intros Hr HQ. eapply runs_done; [|exact HQ]. unfold GetArray. by rewrite Hr. Qed.

Lemma runs_call cls c j Q :
  can_call j -> object_of j cls = Some class_obj ->
  Q (answers j c) (set_pending (throws j c) (add_call c j)) -> runs (CallStaticMethod cls c) j Q.
Proof.
  intros Hc Hcls HQ. apply runs_usable; [done|]. eapply runs_done; [|exact HQ]. by rewrite bool_decide_true.
Qed.

Lemma runs_void_call cls c j Q :
  can_call j -> object_of j cls = Some class_obj ->
  Q tt (set_pending (throws j c) (add_call c j)) -> runs (CallStaticVoidMethod cls c) j Q.
Proof. intros. apply runs_bind, runs_call; [done..|]. by apply runs_ret. Qed.

Lemma runs_delete_local r o j Q :
  j_attached j = true -> j_locals j !! r = Some o -> Q tt (set_locals (delete r (j_locals j)) j) ->
  runs (DeleteLocalRef r) j Q.
Proof. intros Ha Hr HQ. apply runs_attached; [done|]. eapply runs_done; [|exact HQ]. by rewrite Hr. Qed.

Lemma runs_delete_global r o j Q :
  j_attached j = true -> j_globals j !! r = Some o -> Q tt (set_globals (delete r (j_globals j)) j) ->
  runs (DeleteGlobalRef r) j Q.
Proof. intros Ha Hr HQ. apply runs_attached; [done|]. eapply runs_done; [|exact HQ]. by rewrite Hr. Qed.

Lemma runs_new_global r o j Q :
  can_call j -> object_of j r = Some o -> makes_global j = true -> Q (Some (j_fresh j)) (add_global o j) ->
  runs (NewGlobalRef r) j Q.
Proof.
  intros Hc Hr Hm HQ. apply runs_usable; [done|]. eapply runs_done; [|exact HQ]. by rewrite Hr, Hm.
Qed.

Lemma runs_vm {A} (m : SM jvm A) s Q : runs m (jv s) (fun a j => Q a (mk_jni (jg s) j)) -> runs (vm m) s Q.
Proof.
  intros (a & j & Hm & HQ). exists a, (mk_jni (jg s) j). split; [|done]. unfold vm. by rewrite Hm.
Qed.

(** ** Invariants of the machine *)

Lemma object_of_global j r o : vm_ok j -> j_globals j !! r = Some o -> object_of j r = Some o.
Proof. intros Hj Hr. unfold object_of. by rewrite (vo_tables j Hj r) by (by rewrite Hr). Qed.

Lemma vm_ok_fresh j k :
  vm_ok j -> (j_fresh j <= k)%positive -> j_locals j !! k = None /\ j_globals j !! k = None /\ j_arrays j !! k = None.
Proof. intros Hj. apply (vo_fresh j Hj). Qed.
End machine.

(** ** The references of the bridge

    [G] are the global references of the rest of the process. *)

Definition buffer_ok (G : gmap jref jobject) (s : jni) (c : jref) : Prop :=
  match g_output_buf (jg s) with
  | None => j_globals (jv s) = <[c := class_obj]> G
  | Some b => exists k a, b <> c /\ G !! b = None
      /\ j_globals (jv s) = <[b := array_obj k]> (<[c := class_obj]> G)
      /\ j_arrays (jv s) !! k = Some a /\ zlen a = g_output_buf_cap (jg s)
  end.

Record linked (G : gmap jref jobject) (s : jni) : Prop := {
  lk_jvm : g_jvm (jg s) = true;
  lk_mids : forall m, g_mids (jg s) m = true;
  lk_vm : vm_ok (jv s);
  lk_refs : exists c, g_bridge_class (jg s) = Some c /\ G !! c = None /\ buffer_ok G s c;
}.

(** A thread that calls: attached, or without references of its own. *)
Definition caller (j : jvm) : Prop :=
  j_pending j = false /\ (j_attached j = true \/ j_locals j = ∅).

(** Code has returned from [s] in [s'], having made the calls [cs]. *)
Record returned (G : gmap jref jobject) (s s' : jni) (cs : list java_call) : Prop := {
  rt_linked : linked G s';
  rt_class : g_bridge_class (jg s') = g_bridge_class (jg s);
  rt_calls : j_calls (jv s') = j_calls (jv s) ++ cs;
  rt_locals : j_locals (jv s') = j_locals (jv s);
  rt_attached : j_attached (jv s') = j_attached (jv s);
  rt_pending : j_pending (jv s') = false;
}.

Lemma returned_refl G s : linked G s -> j_pending (jv s) = false -> returned G s s [].
Proof. intros Hl Hp. split; try done. by rewrite app_nil_r. Qed.

Lemma returned_trans G s1 s2 s3 cs1 cs2 :
  returned G s1 s2 cs1 -> returned G s2 s3 cs2 -> returned G s1 s3 (cs1 ++ cs2).
Proof.
  intros H1 H2. split; try apply H2; try (etransitivity; [apply H2|apply H1]).
  rewrite (rt_calls _ _ _ _ H2), (rt_calls _ _ _ _ H1). by rewrite app_assoc.
Qed.

Lemma returned_caller G s s' cs : returned G s s' cs -> caller (jv s) -> caller (jv s').
Proof.
  intros Hr [_ Hc]. split; [apply Hr|]. by rewrite (rt_attached _ _ _ _ Hr), (rt_locals _ _ _ _ Hr).
Qed.

(** The class reference is live. *)
Lemma linked_class G s c :
  linked G s -> g_bridge_class (jg s) = Some c -> j_globals (jv s) !! c = Some class_obj.
Proof.
  intros Hl Hc. destruct (lk_refs _ _ Hl) as (c' & Hc' & _ & Hb). assert (c' = c) as -> by congruence.
  unfold buffer_ok in Hb. destruct (g_output_buf (jg s)) as [b|].
  - destruct Hb as (k & a & Hne & _ & -> & _). by rewrite lookup_insert_ne, lookup_insert_eq.
  - by rewrite Hb, lookup_insert_eq.
Qed.

(** The bridge's references survive what leaves them and the arrays alone. *)
Lemma linked_frame G s j :
  linked G s -> vm_ok j -> j_globals j = j_globals (jv s) ->
  (forall k a, j_arrays (jv s) !! k = Some a -> j_arrays j !! k = Some a) ->
  linked G (mk_jni (jg s) j).
Proof.
  intros Hl Hj Hg Ha. split; try apply Hl; [done|].
  destruct (lk_refs _ _ Hl) as (c & Hc & HG & Hb). exists c. split_and!; [done..|].
  revert Hb. unfold buffer_ok. cbn [jg jv]. rewrite Hg. destruct (g_output_buf (jg s)) as [b|]; [|done].
  intros (k & a & ? & ? & ? & ? & ?). exists k, a. split_and!; auto.
Qed.

Lemma jvm_eta j : mk_jvm (j_attached j) (j_pending j) (j_arrays j) (j_locals j) (j_globals j) (j_fresh j) (j_calls j) = j.
Proof. by destruct j. Qed.

Lemma set_attached_id j : j_attached j = true -> set_attached true j = j.
Proof. intros Ha. rewrite <-(jvm_eta j) at 2. by rewrite Ha. Qed.

Lemma set_pending_id j : j_pending j = false -> set_pending false j = j.
Proof. intros Hp. rewrite <-(jvm_eta j) at 2. by rewrite Hp. Qed.

Lemma vm_ok_attached b j : vm_ok j -> vm_ok (set_attached b j).
Proof. intros []. by split. Qed.

(** The state in which the body of a callback runs. *)
Definition in_thread (s : jni) : jni := mk_jni (jg s) (set_attached true (jv s)).

Lemma linked_in_thread G s : linked G s -> linked G (in_thread s).
Proof. intros Hl. apply linked_frame; try done. apply vm_ok_attached, Hl. Qed.

Section callbacks.
Context `{JavaVM} (Hcoop : cooperative _).
Variable G : gmap jref jobject.

Lemma runs_get_env s Q :
  linked G s -> caller (jv s) -> Q (true, negb (j_attached (jv s))) (in_thread s) -> runs get_env s Q.
Proof.
  intros Hl _ HQ. unfold get_env. apply runs_bind, runs_gets. rewrite (lk_jvm _ _ Hl). cbn [negb].
  apply runs_bind, runs_vm, runs_gets. rewrite (co_version _ Hcoop). cbn [negb]. revert HQ. unfold in_thread.
  destruct s as [g j]. cbn [jg jv]. destruct (j_attached j) eqn:Ha; intros HQ.
  - apply runs_ret. by rewrite set_attached_id in HQ.
  - apply runs_bind, runs_vm. eapply runs_done; [unfold AttachCurrentThread; by rewrite (co_attaches _ Hcoop)|].
    by apply runs_ret.
Qed.

Lemma runs_release_env b s s' cs Q :
  caller (jv s) -> returned G (in_thread s) s' cs -> b = negb (j_attached (jv s)) ->
  (forall s'', returned G s s'' cs -> Q tt s'') -> runs (release_env b) s' Q.
Proof.
  intros [Hp Hc] Hr -> HQ. unfold release_env. apply runs_bind, runs_gets.
  rewrite (lk_jvm _ _ (rt_linked _ _ _ _ Hr)), andb_true_r.
  pose proof (rt_linked _ _ _ _ Hr) as Hl'. pose proof (rt_attached _ _ _ _ Hr) as Ha'. cbn in Ha'.
  pose proof (rt_locals _ _ _ _ Hr) as Hloc. cbn in Hloc.
  destruct (j_attached (jv s)) eqn:Ha; cbn [negb].
  - apply runs_ret, HQ. destruct Hr. split; try done. by rewrite rt_attached0, Ha.
  - destruct Hc as [|Hempty]; [done|]. rewrite Hempty in Hloc.
    apply runs_vm. eapply runs_done; [unfold DetachCurrentThread; by rewrite Ha'|]. apply HQ.
    split; cbn; try apply Hr; try done.
    apply linked_frame; try done. destruct (lk_vm _ _ Hl') as [Hf Ht].
    split; cbn; [|done]. intros k Hk. rewrite lookup_empty. split; [done|]. apply (Hf k Hk).
Qed.

Lemma runs_with_env {A} mid (body : jref -> SM jni A) s c (R : A -> list java_call -> Prop) Q :
  linked G s -> caller (jv s) -> g_bridge_class (jg s) = Some c ->
  runs (body c) (in_thread s) (fun a s' => exists cs, returned G (in_thread s) s' cs /\ R a cs) ->
  (forall a s' cs, returned G s s' cs -> R a cs -> Q (Some a) s') ->
  runs (with_env mid body) s Q.
Proof.
  intros Hl Hc Hcls Hbody HQ. unfold with_env. apply runs_bind, runs_get_env; [done..|].
  apply runs_bind, runs_gets. cbn [in_thread jg]. rewrite Hcls, (lk_mids _ _ Hl). cbn [andb].
  apply runs_bind. eapply runs_mono; [exact Hbody|]. intros a s' (cs & Hr & HR).
  apply runs_bind. eapply runs_release_env; [done..|]. intros s'' Hr'. apply runs_ret. by eapply HQ.
Qed.

(** What a call of the stack is to Java: the buffer of a packet may be longer. *)
Definition delivers (u : upcall) (c : java_call) : Prop :=
  match u with
  | output_fn data v6 => exists rest, c = onOutput (data ++ rest) (zlen data) v6
  | tcp_recv_fn conn data => c = onTcpRecv conn (match data with Some [] => None | _ => data end)
  | tcp_sent_fn conn len => c = onTcpSent conn len
  | tcp_err_fn conn err => c = onTcpErr conn err
  | udp_recv_up src sport dst dport v6 data => c = onUdpRecv src sport dst dport v6 data
  end.

Lemma caller_in_thread s : caller (jv s) -> can_call (jv (in_thread s)).
Proof. intros [Hp _]. by split. Qed.

Lemma call_returned s cls c :
  linked G s -> can_call (jv s) -> g_bridge_class (jg s) = Some cls ->
  runs (vm (CallStaticVoidMethod cls c)) s (fun _ s' => returned G s s' [c]).
Proof.
  intros Hl Hc Hcls. apply runs_vm. apply runs_void_call; [done| |].
  - apply object_of_global; [apply Hl|]. by eapply linked_class.
  - rewrite (co_throws _ Hcoop). destruct (lk_vm _ _ Hl). split; cbn; try done.
    apply linked_frame; try done; by split.
Qed.

(** Handles made since. *)
Lemma new_handles j :
  vm_ok j -> let p := j_fresh j in
  j_locals j !! p = None /\ j_locals j !! (Pos.succ p) = None /\ j_locals j !! (Pos.succ (Pos.succ p)) = None.
Proof. intros Hj p. split_and!; apply (vo_fresh j Hj); lia. Qed.

Lemma zlen_zeros n : 0 <= n -> zlen (replicate (Z.to_nat n) 0) = n.
Proof. intros Hn. unfold zlen. rewrite length_replicate. lia. Qed.

(** A new local array, filled. *)
Lemma runs_fill r k a n bytes j Q :
  can_call j -> j_locals j !! r = Some (array_obj k) -> j_arrays j !! k = Some a -> zlen a = n -> zlen bytes = n ->
  Q tt (set_arrays (<[k := bytes]> (j_arrays j)) j) ->
  runs (SetByteArrayRegion (Some r) 0 n bytes) j Q.
Proof.
  intros Hc Hr Hk Ha <- HQ. eapply runs_set_region; [done|by eapply array_of_local|lia|].
  rewrite zdrop_all by lia. by rewrite app_nil_r.
Qed.

Lemma runs_read r k a j Q :
  j_locals j !! r = Some (array_obj k) -> j_arrays j !! k = Some a -> Q a j -> runs (GetArray (Some r)) j Q.
Proof. intros Hr Hk. apply runs_get_array with k. by apply array_of_local. Qed.
End callbacks.

Lemma addr_len_nonneg v6 : 0 <= addr_len v6.
Proof. by destruct v6. Qed.

(** Taking the statements of a callback in turn. *)
Ltac jni_side :=
  solve [ done | match goal with Hc : can_call _ |- _ => exact (proj1 Hc) end | cbn; lookups; done | apply addr_len_nonneg | apply zlen_nonneg | lia
        | apply zlen_zeros; first [ lia | apply addr_len_nonneg | apply zlen_nonneg ] ].

Ltac jni_step Hcoop :=
  cbn [negb andb];
  lazymatch goal with
  | |- runs (mret _) _ _ => apply runs_ret
  | |- runs (_ ≫= _) _ _ => apply runs_bind
  | |- runs (vm _) _ _ => apply runs_vm; cbn [jv jg]
  | |- runs (sm_gets _) _ _ => apply runs_gets
  | |- runs (sm_modify _) _ _ => apply runs_modify
  | |- runs (modify_statics _) _ _ => apply runs_modify
  | |- runs (NewByteArray _) _ _ => apply runs_new_array; [jni_side|jni_side|apply (co_allocates _ Hcoop)|]
  | |- runs (SetByteArrayRegion _ _ _ _) _ _ => eapply runs_fill; [jni_side..|]
  | |- runs (GetArray _) _ _ => eapply runs_read; [jni_side..|]
  | |- runs (DeleteLocalRef _) _ _ => eapply runs_delete_local; [jni_side..|cbn [set_locals j_locals set_arrays add_array add_call]]
  end.

Section bodies.
Context `{JavaVM} (Hcoop : cooperative _).
Variable G : gmap jref jobject.

(** The class is still there after arrays were made. *)
Lemma runs_call_class s j cls c Q :
  linked G s -> g_bridge_class (jg s) = Some cls -> can_call j -> j_globals j = j_globals (jv s) ->
  j_locals j !! cls = None ->
  Q (answers j c) (add_call c j) -> runs (CallStaticMethod cls c) j Q.
Proof.
  intros Hl Hcls Hc Hg Hloc HQ. apply runs_call; [done| |].
  - unfold object_of. rewrite Hloc, Hg. by eapply linked_class.
  - rewrite (co_throws _ Hcoop), set_pending_id; [done|apply Hc].
Qed.

(** The class is an old handle, and not a local one. *)
Lemma class_handle s cls :
  linked G s -> g_bridge_class (jg s) = Some cls ->
  (cls < j_fresh (jv s))%positive /\ j_locals (jv s) !! cls = None.
Proof.
  intros Hl Hcls. pose proof (linked_class _ _ _ Hl Hcls) as Hg. pose proof (lk_vm _ _ Hl) as Hj. split.
  - destruct (Pos.lt_total cls (j_fresh (jv s))) as [?|Hge]; [done|].
    destruct (vo_fresh _ Hj cls) as (_ & Hn & _); [lia|]. congruence.
  - apply (vo_tables _ Hj). by rewrite Hg.
Qed.

(** The end of a callback: the calling thread has its references, old arrays are as
    they were. *)
Lemma returned_with s j cs :
  linked G s -> can_call (jv s) -> j_globals j = j_globals (jv s) -> j_locals j = j_locals (jv s) ->
  (j_fresh (jv s) <= j_fresh j)%positive ->
  (forall k, (k < j_fresh (jv s))%positive -> j_arrays j !! k = j_arrays (jv s) !! k) ->
  (forall k, (j_fresh j <= k)%positive -> j_arrays j !! k = j_arrays (jv s) !! k) ->
  can_call j -> j_calls j = j_calls (jv s) ++ cs ->
  returned G s (mk_jni (jg s) j) cs.
Proof.
  intros Hl [Ha Hp] Hg Hloc Hle Hold Hnew [Ha' Hp'] Hcalls. pose proof (lk_vm _ _ Hl) as Hj.
  split; try done; [|by cbn; rewrite Ha, Ha'].
  apply linked_frame; try done.
  - split; [|by rewrite Hg, Hloc; apply Hj]. intros k Hk. rewrite Hg, Hloc, Hnew by done. apply (vo_fresh _ Hj). lia.
  - intros k a Hk. rewrite Hold; [done|].
    destruct (Pos.lt_total k (j_fresh (jv s))) as [?|Hge]; [done|].
    destruct (vo_fresh _ Hj k) as (_ & _ & Hn); [lia|]. congruence.
Qed.

Ltac jni_end :=
  first
    [ done
    | match goal with Hc : can_call _ |- _ => exact Hc end
    | cbn; lia
    | cbn; intros; lookups; done
    | cbn; apply map_eq; intros ?; rewrite ?lookup_delete, ?lookup_insert; repeat case_decide; subst; congruence ].

(** A callback, given what its body does in an attached thread. *)
Lemma callback_frame {A} mid (body : jref -> SM jni A) s (R : A -> list java_call -> Prop) :
  linked G s -> caller (jv s) ->
  (forall g j cls, linked G (mk_jni g j) -> can_call j -> g_bridge_class g = Some cls -> vm_ok j ->
    (cls < j_fresh j)%positive -> j_locals j !! cls = None ->
    runs (body cls) (mk_jni g j) (fun a s' => exists cs, returned G (mk_jni g j) s' cs /\ R a cs)) ->
  runs (with_env mid body) s (fun a s' => exists b cs, returned G s s' cs /\ a = Some b /\ R b cs).
Proof.
  intros Hl Hc Hbody. destruct (lk_refs _ _ Hl) as (cls & Hcls & _).
  eapply runs_with_env; [done..| |]; [|intros a s' cs Hr HR; by exists a, cs].
  pose proof (linked_in_thread _ _ Hl) as Hl'. destruct (class_handle _ _ Hl' Hcls) as [Hlt Hloc].
  apply Hbody; try done; [by apply caller_in_thread|apply Hl'].
Qed.

(** The same for a callback whose result does not matter and whose call is [c]. *)
Ltac callback_body Hl Hc c :=
  apply runs_bind; eapply runs_mono; [apply (callback_frame _ _ _ (fun _ cs => cs = [c]) Hl Hc)|];
    [intros g j cls Hl' Hc' Hcls Hj Hlt Hloc; cbv zeta; repeat jni_step Hcoop
    |intros ? s' (? & ? & Hr & _ & ->); apply runs_ret; exact Hr].

Ltac jni_call Hl Hcls :=
  try (unfold CallStaticVoidMethod; apply runs_bind);
  eapply runs_call_class; [exact Hl|exact Hcls|done|done|cbn; lookups; done|]; repeat jni_step Hcoop.

Ltac jni_return g j :=
  match goal with Hj : vm_ok j |- _ => destruct (new_handles _ Hj) as (? & ? & ?) end;
  eexists; split; [apply (returned_with (mk_jni g j)); jni_end|try done].

Lemma udp_recv_cb_runs s src sport dst dport v6 data :
  linked G s -> caller (jv s) -> zlen src = addr_len v6 -> zlen dst = addr_len v6 ->
  runs (jni_udp_recv_cb src sport dst dport v6 data (zlen data)) s
    (fun _ s' => returned G s s' [onUdpRecv src sport dst dport v6 data]).
Proof.
  intros Hl Hc Hs Hd. unfold jni_udp_recv_cb. callback_body Hl Hc (onUdpRecv src sport dst dport v6 data).
  jni_call Hl' Hcls. jni_return g j.
Qed.

Lemma tcp_accept_cb_runs s src sport dst dport v6 pcb :
  linked G s -> caller (jv s) -> zlen src = addr_len v6 -> zlen dst = addr_len v6 ->
  runs (jni_tcp_accept_cb src sport dst dport v6 pcb) s
    (fun conn s' => returned G s s' [onTcpAccept src sport dst dport v6 pcb]
       /\ exists j, conn = answers j (onTcpAccept src sport dst dport v6 pcb)).
Proof.
  intros Hl Hc Hs Hd. unfold jni_tcp_accept_cb. set (c := onTcpAccept _ _ _ _ _ _). apply runs_bind.
  eapply runs_mono; [apply (callback_frame _ _ _ (fun conn cs => cs = [c] /\ exists j, conn = answers j c) Hl Hc)|].
  - intros g j cls Hl' Hc' Hcls Hj Hlt Hloc. cbv zeta. repeat jni_step Hcoop. jni_call Hl' Hcls.
    jni_return g j. split; [done|]. by eexists.
  - intros ? s' (conn & ? & Hr & -> & -> & HR). by apply runs_ret.
Qed.

Lemma tcp_recv_cb_runs s conn data :
  linked G s -> caller (jv s) ->
  runs (jni_tcp_recv_cb conn data (match data with Some d => zlen d | None => 0 end)) s
    (fun _ s' => returned G s s' [onTcpRecv conn (match data with Some [] => None | _ => data end)]).
Proof.
  intros Hl Hc. unfold jni_tcp_recv_cb. destruct data as [[|b data]|].
  - change ((0 <? zlen (@nil Z))%Z) with false. callback_body Hl Hc (onTcpRecv conn None). jni_call Hl' Hcls. jni_return g j.
  - assert ((0 <? zlen (b :: data)) = true) as -> by (rewrite zlen_cons; pose proof (zlen_nonneg data); by apply Z.ltb_lt; lia).
    callback_body Hl Hc (onTcpRecv conn (Some (b :: data))). jni_call Hl' Hcls. jni_return g j.
  - callback_body Hl Hc (onTcpRecv conn None). jni_call Hl' Hcls. jni_return g j.
Qed.

Lemma tcp_sent_cb_runs s conn len :
  linked G s -> caller (jv s) ->
  runs (jni_tcp_sent_cb conn len) s (fun _ s' => returned G s s' [onTcpSent conn len]).
Proof. intros Hl Hc. unfold jni_tcp_sent_cb. callback_body Hl Hc (onTcpSent conn len). jni_call Hl' Hcls. jni_return g j. Qed.

Lemma tcp_err_cb_runs s conn err :
  linked G s -> caller (jv s) ->
  runs (jni_tcp_err_cb conn err) s (fun _ s' => returned G s s' [onTcpErr conn err]).
Proof. intros Hl Hc. unfold jni_tcp_err_cb. callback_body Hl Hc (onTcpErr conn err). jni_call Hl' Hcls. jni_return g j. Qed.

(** *** The buffer for packets *)

Lemma runs_drop_buffer s c Q :
  j_attached (jv s) = true -> buffer_ok G s c ->
  Q tt (mk_jni (jg s) (set_globals (<[c := class_obj]> G) (jv s))) ->
  runs (match g_output_buf (jg s) with Some r => vm (DeleteGlobalRef r) | None => mret tt end) s Q.
Proof.
  intros Ha Hb HQ. unfold buffer_ok in Hb. destruct (g_output_buf (jg s)) as [b|].
  - destruct Hb as (k & a & Hne & HG & Hg & _). apply runs_vm.
    eapply runs_delete_global; [done|by rewrite Hg, lookup_insert_eq|].
    rewrite Hg, delete_insert_id; [done|]. by rewrite lookup_insert_ne.
  - apply runs_ret. rewrite <-Hb in HQ. destruct s as [g []]. exact HQ.
Qed.

(** The references of the rest of the process are there. *)
Lemma linked_rest s r o : linked G s -> G !! r = Some o -> is_Some (j_globals (jv s) !! r).
Proof.
  intros Hl Hr. destruct (lk_refs _ _ Hl) as (c & _ & HG & Hb). unfold buffer_ok in Hb.
  destruct (g_output_buf (jg s)) as [b|]; [destruct Hb as (k & a & _ & HGb & -> & _)|rewrite Hb];
    rewrite !lookup_insert; repeat case_decide; eauto.
Qed.

Lemma new_buffer_linked g j c cap :
  linked G (mk_jni g j) -> g_bridge_class g = Some c -> G !! c = None ->
  let p := j_fresh j in
  let j' := add_global (array_obj p) (add_array cap (set_globals (<[c := class_obj]> G) j)) in
  0 <= cap ->
  linked G (mk_jni (set_output_buf (Some (Pos.succ p)) cap g) (set_locals (delete p (j_locals j')) j')).
Proof.
  intros Hl Hcls HG p j' Hcap. pose proof (lk_vm _ _ Hl) as Hj. destruct (class_handle _ _ Hl Hcls) as [Hlt Hloc].
  assert (forall k, (p <= k)%positive -> G !! k = None) as HGf.
  { intros k Hk. destruct (vo_fresh _ Hj k Hk) as (_ & Hn & _). destruct (lk_refs _ _ Hl) as (c' & Hc' & _ & Hb).
    assert (c' = c) as -> by (cbn in Hc'; congruence). unfold buffer_ok in Hb. cbn [jg jv] in *.
    assert (k <> c) by (cbn in Hlt; lia).
    destruct (g_output_buf g) as [b|]; [destruct Hb as (k' & a & _ & _ & Hb & _)|]; rewrite Hb in Hn.
    - apply lookup_insert_None in Hn as [Hn _]. by apply lookup_insert_None in Hn as [Hn _].
    - by apply lookup_insert_None in Hn as [Hn _]. }
  cbn in Hlt. split; try apply Hl.
  - unfold j'. split; cbn.
    + intros k Hk. pose proof (vo_fresh _ Hj k) as Hf. cbn in Hf.
      split_and!; lookups; try (apply Hf; lia). apply HGf. unfold p. lia.
    + intros r [o Hr]. rewrite lookup_delete, lookup_insert. case_decide; [done|]. case_decide; [done|].
      rewrite lookup_insert in Hr. case_decide; [subst; apply (vo_fresh _ Hj); cbn; lia|].
      rewrite lookup_insert in Hr. case_decide; [by subst|].
      apply (vo_tables _ Hj). by eapply linked_rest.
  - exists c. split_and!; [done..|]. cbn. exists p, (replicate (Z.to_nat cap) 0).
    split_and!; [lia|apply HGf; unfold p; lia|done|by lookups|by apply zlen_zeros].
Qed.

(** After [ensure_output_buf] there is a buffer of at least the length asked for. *)
Lemma runs_ensure_output_buf s len :
  linked G s -> can_call (jv s) -> 0 <= len ->
  runs (ensure_output_buf len) s (fun ok s' => ok = true /\ returned G s s' []
    /\ is_Some (g_output_buf (jg s')) /\ len <= g_output_buf_cap (jg s')).
Proof.
  intros Hl Hc Hlen. unfold ensure_output_buf. apply runs_bind, runs_gets.
  destruct (bool_decide _ || _) eqn:Hcase.
  - destruct (lk_refs _ _ Hl) as (c & Hcls & HG & Hb). apply runs_bind.
    eapply runs_drop_buffer; [apply Hc|exact Hb|]. set (cap := if 2048 <? len then len else 2048).
    assert (len <= cap /\ 0 <= cap) as [Hle Hcap] by (unfold cap; destruct (Z.ltb_spec 2048 len); lia).
    pose proof (linked_class _ _ _ Hl Hcls) as Hcg.
    destruct s as [g j]. cbn [jg jv] in *.
    pose proof (new_buffer_linked g j c cap Hl Hcls HG Hcap) as Hl'. cbv zeta in Hl' |- *.
    repeat jni_step Hcoop. eapply runs_new_global; [done|unfold object_of; cbn; lookups; done|apply (co_global _ Hcoop)|].
    repeat jni_step Hcoop.
    split_and!; [done| |done|done]. split; try done; cbn.
    + by rewrite app_nil_r.
    + apply delete_insert_id, (vo_fresh _ (lk_vm _ _ Hl)). cbn. lia.
    + apply Hc.
  - apply orb_false_iff in Hcase as [Hsome%bool_decide_eq_false Hcap%Z.ltb_ge]. apply runs_ret.
    split_and!; [done|by apply returned_refl; [|apply Hc]| |done].
    destruct (g_output_buf (jg s)); [done|congruence].
Qed.

(** Writing a packet into the buffer *)
Lemma runs_fill_buffer s b data Q :
  linked G s -> can_call (jv s) -> g_output_buf (jg s) = Some b -> zlen data <= g_output_buf_cap (jg s) ->
  (forall s' k rest, returned G s s' [] -> jg s' = jg s -> array_of (jv s') b = Some (k, data ++ rest) -> Q tt s') ->
  runs (vm (SetByteArrayRegion (Some b) 0 (zlen data) data)) s Q.
Proof.
  intros Hl Hc Hb Hlen HQ. destruct (lk_refs _ _ Hl) as (c & Hcls & HG & Hbuf).
  pose proof Hbuf as Hbuf'. unfold buffer_ok in Hbuf'. rewrite Hb in Hbuf'.
  destruct Hbuf' as (k & a & Hne & HGb & Hg & Hk & Ha). pose proof (lk_vm _ _ Hl) as Hj.
  assert (j_locals (jv s) !! b = None) as Hloc by (apply (vo_tables _ Hj); by rewrite Hg, lookup_insert_eq).
  assert (j_globals (jv s) !! b = Some (array_obj k)) as Hgb by (by rewrite Hg, lookup_insert_eq).
  apply runs_vm. eapply runs_set_region; [done|by eapply array_of_global|lia|].
  set (a' := data ++ zdrop (zlen data) a).
  apply (HQ _ k (zdrop (zlen data) a)); [|done|].
  - destruct Hc as [Hat Hp]. split; try done; [|cbn; by rewrite app_nil_r].
    split; try apply Hl; cbn.
    + split; cbn; [|apply Hj]. intros k' Hk'. rewrite lookup_insert_ne; [by apply (vo_fresh _ Hj)|].
      intros ->. destruct (vo_fresh _ Hj k' Hk') as (_ & _ & Hn). congruence.
    + exists c. split_and!; [done..|]. unfold buffer_ok. cbn. rewrite Hb. exists k, a'.
      split_and!; [done..|by lookups|]. unfold a'. rewrite zlen_app, zlen_zdrop; [lia|].
      pose proof (zlen_nonneg data). lia.
  - eapply array_of_global; [done|done|]. cbn. by lookups.
Qed.

Lemma output_cb_runs s data v6 :
  linked G s -> caller (jv s) ->
  runs (jni_output_cb data (zlen data) v6) s
    (fun _ s' => exists rest, returned G s s' [onOutput (data ++ rest) (zlen data) v6]).
Proof.
  intros Hl Hc. unfold jni_output_cb. apply runs_bind.
  eapply runs_mono; [apply (callback_frame _ _ _
    (fun _ cs => exists rest, cs = [onOutput (data ++ rest) (zlen data) v6]) Hl Hc)|];
    [|intros ? s' (? & cs & Hr & _ & rest & ->); apply runs_ret; by exists rest].
  intros g j cls Hl' Hc' Hcls Hj Hlt Hloc. apply runs_bind.
  eapply runs_mono; [apply runs_ensure_output_buf; [done..|apply zlen_nonneg]|].
  intros ok s1 (-> & Hr1 & [b Hb] & Hcap). cbn [negb]. apply runs_bind, runs_gets. rewrite Hb.
  assert (can_call (jv s1)) as Hc1.
  { split; [|apply Hr1]. rewrite (rt_attached _ _ _ _ Hr1). apply Hc'. }
  apply runs_bind, runs_fill_buffer; [apply Hr1|done..|]. intros s2 k rest Hr2 Hg2 Harr.
  apply runs_bind, runs_vm. eapply runs_get_array; [exact Harr|].
  assert (can_call (jv s2)) as Hc2.
  { split; [|apply Hr2]. rewrite (rt_attached _ _ _ _ Hr2). apply Hc1. }
  replace (mk_jni (jg s2) (jv s2)) with s2 by (by destruct s2).
  eapply runs_mono; [apply (call_returned Hcoop G s2 cls); [apply Hr2|done|]|].
  - rewrite (rt_class _ _ _ _ Hr2), (rt_class _ _ _ _ Hr1). exact Hcls.
  - intros ? s3 Hr3. exists [onOutput (data ++ rest) (zlen data) v6]. split; [|by exists rest].
    change [onOutput (data ++ rest) (zlen data) v6] with ([] ++ [] ++ [onOutput (data ++ rest) (zlen data) v6]).
    eapply returned_trans; [exact Hr1|]. by eapply returned_trans.
Qed.

(** ** Any callback, and any sequence of them *)

Lemma callback_runs s u :
  linked G s -> caller (jv s) -> upcall_ok u ->
  runs (callback u) s (fun _ s' => exists c, returned G s s' [c] /\ delivers u c).
Proof.
  intros Hl Hc Hu. destruct u; cbn [callback upcall_ok delivers] in *; try destruct Hu.
  - eapply runs_mono; [by apply output_cb_runs|]. intros ? s' (rest & Hr). eexists. split; [exact Hr|by exists rest].
  - eapply runs_mono; [by apply tcp_recv_cb_runs|]. intros ? s' Hr. eexists. split; [exact Hr|reflexivity].
  - eapply runs_mono; [by apply tcp_sent_cb_runs|]. intros ? s' Hr. eexists. split; [exact Hr|reflexivity].
  - eapply runs_mono; [by apply tcp_err_cb_runs|]. intros ? s' Hr. eexists. split; [exact Hr|reflexivity].
  - eapply runs_mono; [by apply udp_recv_cb_runs|]. intros ? s' Hr. eexists. split; [exact Hr|reflexivity].
Qed.

Lemma callbacks_run us s :
  linked G s -> caller (jv s) -> Forall upcall_ok us ->
  runs (callbacks us) s (fun _ s' => exists cs, returned G s s' cs /\ Forall2 delivers us cs).
Proof.
  revert s. induction us as [|u us IH]; intros s Hl Hc Hus; cbn [callbacks].
  - apply runs_ret. exists []. split; [|constructor]. apply returned_refl; [done|apply Hc].
  - inversion Hus as [|? ? Hu Hus']; subst. apply runs_bind. eapply runs_mono; [by apply callback_runs|].
    intros ? s1 (c & Hr1 & Hd). eapply runs_mono; [apply IH; [apply Hr1|by eapply returned_caller|done]|].
    intros ? s2 (cs & Hr2 & Hds). exists (c :: cs). split; [|by constructor].
    change (c :: cs) with ([c] ++ cs). by eapply returned_trans.
Qed.
End bodies.
