(* ===== verification/JniMain.v ===== *)
(** * The native methods: properties

    What Java sees of a packet it hands in and of a datagram it sends, through the JNI
    functions and the whole stack; what the callbacks do with any calls of the stack; and
    the references of a start and a stop. *)
From Stdlib Require Import ZArith Lia.
From stdpp Require Import base list option numbers gmap.
From S2P Require Import Prelude Pbuf PbufWrite Chksum Lwip IpOut Netif Udp Bridge LwipRun UdpInProofs UdpDeliver BridgeInit UdpOut BridgeTrace BridgeMain Jni JniBridge JniProofs.

(** ** The bridge behind [lwip_bridge.h]

    The operations on TCP connections and the timers are parameters; [t_init] and
    [t_timers_init] are what [lwip_init] calls of them. *)
Record tcp_api := mk_tcp_api {
  t_input : ptr -> M unit;
  t_init : M unit;
  t_timers_init : M unit;
  t_open : M unit;
  t_close_listeners : M unit;
  t_abort_all : M unit;
  t_addr_changed : ip_addr_t -> option ip_addr_t -> M unit;
  t_write : Z -> addr -> Z -> M Z;
  t_output : Z -> M unit;
  t_recved : Z -> Z -> M unit;
  t_close : Z -> M unit;
  t_abort : Z -> M unit;
  t_sndbuf : Z -> M Z;
  t_queuelen : Z -> M Z;
  t_timeouts : M unit;
}.

Record nd6_api := mk_nd6_api { nd6_in : ptr -> M unit; nd6_cleanup : M unit }.

Section implementation.
Context `{Malloc}.
Variable machine : addr -> Z.
Variable inet_ntop : list Z -> bool -> option (list Z).
Variable rand : Z.
Variable tcp : tcp_api.
Variable nd6 : nd6_api.

(** [lwip_ip_to_string] *)
Definition lwip_ip_to_string (a : addr) (is_ipv6 : bool) : M (option (list Z)) :=
  bs ← ask_heap (fun h => mem_read h a 0 (if is_ipv6 then 16 else 4));
  mret (inet_ntop bs is_ipv6).

#[export] Instance bridge_impl : LwipBridge := {|
  bridge_set_fns := lwip_bridge_set_fns;
  JniBridge.bridge_init := lwip_bridge_init (nd6_cleanup nd6) (t_addr_changed tcp)
    (lwip_init rand (t_init tcp) (t_timers_init tcp)) (t_open tcp) (t_abort_all tcp) (t_close_listeners tcp);
  JniBridge.bridge_shutdown := lwip_bridge_shutdown (nd6_cleanup nd6) (t_addr_changed tcp) (t_abort_all tcp)
    (t_close_listeners tcp);
  bridge_abort_all_tcp := t_abort_all tcp;
  bridge_input := lwip_bridge_input machine (t_input tcp) (nd6_in nd6);
  bridge_tcp_write := t_write tcp;
  bridge_tcp_output := t_output tcp;
  bridge_tcp_recved := t_recved tcp;
  bridge_tcp_close := t_close tcp;
  bridge_tcp_abort := t_abort tcp;
  bridge_tcp_sndbuf := t_sndbuf tcp;
  bridge_tcp_snd_queuelen := t_queuelen tcp;
  bridge_udp_sendto := lwip_bridge_udp_sendto machine;
  bridge_check_timeouts := t_timeouts tcp;
  bridge_ip_to_string := lwip_ip_to_string;
|}.
End implementation.

(** ** Memory of array elements *)

(** The stack with a copy of [a] in a new block. *)
Definition borrow (a : list Z) (s : stack) : stack :=
  let h := st_heap s in
  let b := h_fresh h in
  set_heap (mk_heap (h_pbufs h) (<[b := map Some a]> (h_mem h)) (Pos.succ b) (h_memp_pbuf h) (h_memp_pool h)) s.

Definition give_back (b : ptr) (s : stack) : stack :=
  let h := st_heap s in
  set_heap (mk_heap (h_pbufs h) (delete b (h_mem h)) (h_fresh h) (h_memp_pbuf h) (h_memp_pool h)) s.

Lemma ready_heap s h :
  ready s -> heap_ok h -> (h_fresh (st_heap s) <= h_fresh h)%positive -> ready (set_heap h s).
Proof.
  intros Hr Hok Hle. destruct Hr as [H1 H2 H3 H4 H5 H6 H7 H8]. split; try done.
  destruct H6 as (v4 & v6 & [L1 L2 L3 L4 L5 [L6 L7]]). exists v4, v6. split; try done. cbn. split; lia.
Qed.

Lemma borrow_ready a s : ready s -> ready (borrow a s).
Proof.
  intros Hr. apply ready_heap; [done| |cbn; lia]. intros k Hk. cbn in *.
  destruct (re_heap _ Hr k) as [Hp Hm]; [lia|]. split; [done|]. by rewrite lookup_insert_ne by lia.
Qed.

Lemma give_back_ready b s : ready s -> ready (give_back b s).
Proof.
  intros Hr. apply ready_heap; [done| |cbn; lia]. intros k Hk. cbn in *.
  destruct (re_heap _ Hr k Hk) as [Hp Hm]. split; [done|]. rewrite lookup_delete, Hm. by case_decide.
Qed.

Lemma borrow_at a d rest s : a = d ++ rest -> bytes_at (st_heap (borrow a s)) (at_start (h_fresh (st_heap s))) d.
Proof.
  intros ->. exists [], (map Some rest). cbn. by rewrite lookup_insert_eq, map_app.
Qed.

(** What is in memory stays there. *)
Lemma borrow_keeps a s at_ d : ready s -> bytes_at (st_heap s) at_ d -> bytes_at (st_heap (borrow a s)) at_ d.
Proof.
  intros Hr (pre & post & Hm & Hpre). exists pre, post. split; [|done]. cbn. rewrite lookup_insert_ne; [done|].
  intros Heq. destruct (re_heap _ Hr (a_block at_)) as [_ Hn]; [by rewrite <-Heq|]. discriminate (eq_trans (eq_sym Hn) Hm).
Qed.

(** ** Native methods, one statement at a time *)

Section natives.
Context `{JavaVM} `{LwipBridge} (Hcoop : cooperative _).
Variable G : gmap jref jobject.

Lemma runs_jni_m {A} (m : SM jni A) n (Q : A -> native -> Prop) :
  runs m (nt_jni n) (fun a j => Q a (mk_native j (nt_stack n))) -> runs (jni_m m) n Q.
Proof.
  intros (a & j & Hm & HQ). exists a, (mk_native j (nt_stack n)). split; [|done]. unfold jni_m. by rewrite Hm.
Qed.

Lemma runs_run_lwip {A} (m : M A) n a st us (Q : A -> native -> Prop) :
  m (nt_stack n) = Done (a, st) -> st_trace st = st_trace (nt_stack n) ++ us -> Forall upcall_ok us ->
  linked G (nt_jni n) -> caller (jv (nt_jni n)) ->
  (forall j cs, returned G (nt_jni n) j cs -> Forall2 delivers us cs -> Q a (mk_native j st)) ->
  runs (run_lwip m) n Q.
Proof.
  intros Hm Ht Hus Hl Hc HQ.
  destruct (callbacks_run Hcoop G us (nt_jni n) Hl Hc Hus) as ([] & j & Hrun & cs & Hr & Hd).
  exists a, (mk_native j st). split; [|by eapply HQ]. unfold run_lwip. rewrite Hm. cbn.
  rewrite Ht, drop_app_length. by rewrite Hrun.
Qed.

Lemma runs_elements r k a n (Q : option ptr -> native -> Prop) :
  can_call (jv (nt_jni n)) -> array_of (jv (nt_jni n)) r = Some (k, a) ->
  Q (Some (h_fresh (st_heap (nt_stack n)))) (mk_native (nt_jni n) (borrow a (nt_stack n))) ->
  runs (GetByteArrayElements r) n Q.
Proof.
  intros [Ha Hp] Hr HQ. eexists _, _. split; [|exact HQ]. unfold GetByteArrayElements.
  rewrite Ha, Hp, Hr, (co_elements _ Hcoop). reflexivity.
Qed.

Lemma runs_release r b n (Q : unit -> native -> Prop) :
  j_attached (jv (nt_jni n)) = true -> is_Some (h_mem (st_heap (nt_stack n)) !! b) ->
  Q tt (mk_native (nt_jni n) (give_back b (nt_stack n))) -> runs (ReleaseByteArrayElements r b) n Q.
Proof.
  intros Ha [m Hm] HQ. eexists tt, _. split; [|exact HQ]. unfold ReleaseByteArrayElements.
  rewrite Ha, Hm. reflexivity.
Qed.
End natives.

(** *** The elements of up to three arrays are given back *)

Lemma give_back_one a s s2 :
  ready s -> same_resources (borrow a s) s2 -> same_resources s (give_back (h_fresh (st_heap s)) s2).
Proof.
  intros Hr [H1 H2 H3 H4 H5 H6]. split; try done. cbn. rewrite H2. cbn. apply delete_insert_id.
  apply (re_heap _ Hr). lia.
Qed.

Lemma give_back_three a b c s s2 :
  ready s -> same_resources (borrow c (borrow b (borrow a s))) s2 -> let p := h_fresh (st_heap s) in
  same_resources s (give_back (Pos.succ (Pos.succ p)) (give_back (Pos.succ p) (give_back p s2))).
Proof.
  intros Hr [H1 H2 H3 H4 H5 H6] p. split; try done. cbn. rewrite H2. cbn. fold p.
  assert (forall k, (p <= k)%positive -> h_mem (st_heap s) !! k = None) as Hn.
  { intros k Hk. by apply (re_heap _ Hr). }
  pose proof (Hn p ltac:(lia)). pose proof (Hn (Pos.succ p) ltac:(lia)). pose proof (Hn (Pos.succ (Pos.succ p)) ltac:(lia)).
  apply map_eq. intros i. rewrite !lookup_delete, !lookup_insert. repeat case_decide; subst; try done.
Qed.

(** ** Properties *)

Section properties.
Context (java : JavaVM) (Hcoop : cooperative java).
Context `{Malloc}.
Variable machine : addr -> Z.
Variable inet_ntop : list Z -> bool -> option (list Z).
Variable rand : Z.
Variable tcp : tcp_api.
Variable nd6 : nd6_api.
Variable G : gmap jref jobject.

#[local] Existing Instance bridge_impl.
Abbreviation the_bridge := (bridge_impl machine inet_ntop rand tcp nd6).

(** The native side is at work: called from Java, with its class, methods and stack. *)
Record running (n : native) : Prop := {
  rn_linked : linked G (nt_jni n);
  rn_call : can_call (jv (nt_jni n));
  rn_ready : ready (nt_stack n);
}.

Lemma native_input_lemma n r k pkt rest src sport dst dport payload v6 :
  running n -> array_of (jv (nt_jni n)) r = Some (k, pkt ++ rest) ->
  udp_packet src sport dst dport payload v6 pkt -> deliverable v6 src dst = true ->
  zlen pkt < 2 ^ 16 -> fits 16 sport -> fits 16 dport -> (0 < h_memp_pbuf (st_heap (nt_stack n)))%nat ->
  runs (@nativeInput java the_bridge (Some r) (zlen pkt)) n (fun _ n' =>
    returned G (nt_jni n) (nt_jni n') [onUdpRecv src sport dst dport v6 payload]
    /\ running n' /\ same_resources (nt_stack n) (nt_stack n')).
Proof.
  intros [Hl Hc Hr] Harr Hpkt Hok Hlt Hsp Hdp Hpool.
  assert (0 < zlen pkt) as Hpos.
  { rewrite (udp_packet_length _ _ _ _ _ _ _ Hpkt). pose proof (zlen_nonneg payload). destruct v6; unfold IP_HLEN, IP6_HLEN; lia. }
  unfold nativeInput. rewrite (proj2 (Z.leb_gt (zlen pkt) 0) Hpos).
  apply runs_bind. eapply (runs_elements Hcoop); [done..|].
  destruct (input_delivers_lemma machine (t_input tcp) (nd6_in nd6) (borrow (pkt ++ rest) (nt_stack n))
    (at_start (h_fresh (st_heap (nt_stack n)))) src sport dst dport payload v6 pkt)
    as (s2 & Hrun & Htr & Hr2 & Hres); try done; [by apply borrow_ready|by eapply borrow_at|].
  apply runs_bind. eapply (runs_run_lwip Hcoop G); [exact Hrun|exact Htr| |done|by split; [apply Hc|left; apply Hc]|].
  { constructor; [|done]. destruct Hpkt as [? ? ? ? ? ? ? [_ ?] [_ ?]|? ? ? ? [_ ?] [_ ?]]; by split. }
  intros j cs Hret Hd. apply runs_release.
  - cbn. rewrite (rt_attached _ _ _ _ Hret). apply Hc.
  - cbn. rewrite (sr_mem _ _ Hres). cbn. by rewrite lookup_insert_eq.
  - inversion Hd as [|? c ? cs' Hdc Hnil]; subst. inversion Hnil; subst. cbn in Hdc. subst c.
    split; [exact Hret|]. split; [|by eapply give_back_one].
    split; cbn; [apply Hret| |by apply give_back_ready].
    split; [|apply Hret]. rewrite (rt_attached _ _ _ _ Hret). apply Hc.
Qed.

(** What [nativeUdpSendto] makes the interface get: nothing when memory is refused or the
    packet would not fit; the decision falls after three blocks for the arguments. *)
Definition native_sends (v6 : bool) (n : native) (len : Z) : bool :=
  malloc_grants (Pos.succ (Pos.succ (Pos.succ (Pos.succ (h_fresh (st_heap (nt_stack n)))))))
    (ram_size PBUF_TRANSPORT len)
  && (len + 8 + header_length v6 <? 2 ^ 16).

Lemma native_sendto_lemma n r1 r2 r3 k1 k2 k3 src rest1 dst rest2 payload rest3 srcPort dstPort v6 :
  running n ->
  array_of (jv (nt_jni n)) r1 = Some (k1, src ++ rest1) ->
  array_of (jv (nt_jni n)) r2 = Some (k2, dst ++ rest2) ->
  array_of (jv (nt_jni n)) r3 = Some (k3, payload ++ rest3) ->
  is_addr v6 src -> is_addr v6 dst -> are_bytes payload -> 0 < zlen payload < 2 ^ 16 ->
  u16 srcPort <> 0 -> (0 < memp_udp (st_udp (nt_stack n)))%nat ->
  let pkt := sent_packet v6 (st_ip_id (nt_stack n)) src (u16 srcPort) dst (u16 dstPort) payload in
  runs (@nativeUdpSendto java the_bridge (Some r1) srcPort (Some r2) dstPort v6 (Some r3) (zlen payload)) n (fun _ n' =>
    exists rest, returned G (nt_jni n) (nt_jni n')
        (if native_sends v6 n (zlen payload) then [onOutput (pkt ++ rest) (zlen pkt) v6] else [])
    /\ running n' /\ same_resources (nt_stack n) (nt_stack n')).
Proof.
  intros [Hl Hc Hr] H1 H2 H3 Hs Hd Hb Hlen Hsp Hm pkt. set (p := h_fresh (st_heap (nt_stack n))).
  unfold nativeUdpSendto. rewrite (proj2 (Z.leb_gt (zlen payload) 0) (proj1 Hlen)).
  do 3 (apply runs_bind; eapply (runs_elements Hcoop); [exact Hc|eassumption|cbn [nt_jni nt_stack]]).
  set (s1 := borrow (src ++ rest1) (nt_stack n)). set (s2 := borrow (dst ++ rest2) s1).
  assert (ready s1) as Hr1 by by apply borrow_ready. assert (ready s2) as Hr2 by by apply borrow_ready.
  destruct (sendto_lemma machine v6 (borrow (payload ++ rest3) s2) (at_start p) src (u16 srcPort)
    (at_start (Pos.succ p)) dst (u16 dstPort) (at_start (Pos.succ (Pos.succ p))) payload)
    as (s' & Hrun & Htr & Hr' & Hres); try done; try (by apply wrap_fits); [by apply borrow_ready| | | |].
  { apply borrow_keeps, borrow_keeps; [done..|]. by eapply borrow_at. }
  { apply borrow_keeps; [done|]. by eapply (borrow_at _ dst rest2 s1). }
  { by eapply (borrow_at _ payload rest3 s2). }
  apply runs_bind. eapply (runs_run_lwip Hcoop G); [exact Hrun|exact Htr| |done|by split; [apply Hc|left; apply Hc]|].
  { by destruct (sends _ _ _); repeat constructor. }
  intros j cs Hret Hdel.
  assert (exists rest, cs = if native_sends v6 n (zlen payload) then [onOutput (pkt ++ rest) (zlen pkt) v6] else []) as [rest ->].
  { unfold native_sends. fold p. unfold sends in Hdel. cbn [borrow st_heap set_heap h_fresh s2 s1] in Hdel. fold p in Hdel.
    destruct (_ && _).
    - inversion Hdel as [|? c ? cs' Hdc Hnil]; subst. inversion Hnil; subst. destruct Hdc as [rest ->]. by exists rest.
    - inversion Hdel. by exists []. }
  assert (j_attached (jv j) = true) as Hatt by (rewrite (rt_attached _ _ _ _ Hret); apply Hc).
  pose proof (sr_mem _ _ Hres) as Hmem. cbn in Hmem. fold p in Hmem.
  apply runs_bind, runs_release; [done|cbn; rewrite Hmem; lookups; done|].
  apply runs_bind, runs_release; [done|cbn; rewrite Hmem; lookups; done|].
  apply runs_release; [done|cbn; rewrite Hmem; lookups; done|].
  cbn [nt_jni nt_stack]. exists rest. split; [exact Hret|]. split; [|by apply (give_back_three _ _ _ _ _ Hr Hres)].
  split; cbn; [apply Hret| |by repeat apply give_back_ready]. split; [done|apply Hret].
Qed.

(** *** Start and stop *)

Definition with_fns (on : bool) (s : stack) : stack :=
  set_bridge (mk_bridge on on on on on on (udp_listen_pcb_v4 (st_bridge s)) (udp_listen_pcb_v6 (st_bridge s))
    (s_current_udp_dst_port (st_bridge s)) (s_current_udp_dst_ip (st_bridge s)) (initialized (st_bridge s))) s.

(** A stack that can be started: that of a fresh process, one at work, one that was
    stopped; the callbacks need not be set. *)
Definition startable (s : stack) : Prop :=
  let s := with_fns true s in
  (stopped s /\ initialized (st_bridge s) = false) \/ ready s \/ shut s.

(** No reference of the bridge is left. *)
Record unlinked (j : jni) : Prop := {
  ul_jvm : g_jvm (jg j) = true;
  ul_vm : vm_ok (jv j);
  ul_globals : j_globals (jv j) = G;
  ul_class : g_bridge_class (jg j) = None;
  ul_buf : g_output_buf (jg j) = None;
}.

Lemma runs_find_methods ms n (Q : bool -> native -> Prop) :
  can_call (jv (nt_jni n)) ->
  (forall g, g_jvm g = g_jvm (jg (nt_jni n)) -> g_bridge_class g = g_bridge_class (jg (nt_jni n)) ->
    g_output_buf g = g_output_buf (jg (nt_jni n)) -> g_output_buf_cap g = g_output_buf_cap (jg (nt_jni n)) ->
    (forall m, m ∈ ms \/ g_mids (jg (nt_jni n)) m = true -> g_mids g m = true) ->
    Q true (mk_native (mk_jni g (jv (nt_jni n))) (nt_stack n))) ->
  runs (find_methods ms) n Q.
Proof.
  revert n. induction ms as [|m ms IH]; intros n Hc HQ; cbn [find_methods].
  - apply runs_ret. destruct n as [[g j] s]. apply HQ; try done. intros m [Hm|Hm]; [by apply not_elem_of_nil in Hm|done].
  - apply runs_bind. unfold find_method. apply runs_bind, runs_jni_m, runs_vm.
    apply runs_usable; [done|]. eapply runs_done; [by rewrite (co_method _ Hcoop)|].
    apply runs_bind, runs_jni_m, runs_modify, runs_ret. apply IH; [done|].
    intros g H1 H2 H3 H4 H5. apply HQ; try done. intros m' Hm'. apply H5. cbn. destruct (decide (m' = m)) as [->|Hne]; [by right|].
    destruct Hm' as [Hm'|Hm']; [|by right]. left. apply elem_of_cons in Hm' as [?|?]; [done|done].
Qed.

(** The global references when the class is not among them. *)
Definition classless (j : jni) : Prop :=
  match g_output_buf (jg j) with
  | None => j_globals (jv j) = G
  | Some b => exists k a, G !! b = None /\ j_globals (jv j) = <[b := array_obj k]> G
      /\ j_arrays (jv j) !! k = Some a /\ zlen a = g_output_buf_cap (jg j)
  end.

Lemma vm_ok_fewer j g :
  vm_ok j -> (forall r, is_Some (g !! r) -> is_Some (j_globals j !! r)) -> vm_ok (set_globals g j).
Proof.
  intros Hj Hg. split; cbn.
  - intros k Hk. destruct (vo_fresh _ Hj k Hk) as (H1 & H2 & H3). split_and!; [done| |done].
    destruct (g !! k) eqn:Hgk; [|done]. destruct (Hg k) as [o Ho]; [by rewrite Hgk|]. congruence.
  - intros r Hr. by apply (vo_tables _ Hj), Hg.
Qed.

Lemma runs_drop_class n (Q : unit -> native -> Prop) :
  unlinked (nt_jni n) \/ linked G (nt_jni n) -> can_call (jv (nt_jni n)) ->
  (forall g, let j := mk_jni (jg (nt_jni n)) (set_globals g (jv (nt_jni n))) in
     classless j -> vm_ok (jv j) -> Q tt (mk_native j (nt_stack n))) ->
  runs (match g_bridge_class (jg (nt_jni n)) with Some c => nvm (DeleteGlobalRef c) | None => mret tt end) n Q.
Proof.
  intros [Hu|Hl] Hc HQ.
  - rewrite (ul_class _ Hu). apply runs_ret. destruct n as [[g j] st]. cbn [nt_jni nt_stack jg jv] in *.
    assert (set_globals (j_globals j) j = j) as Hid by (by destruct j).
    specialize (HQ (j_globals j)). cbn in HQ. rewrite Hid in HQ. apply HQ; [|apply Hu].
    pose proof (ul_buf _ Hu) as Hub. cbn in Hub. unfold classless. cbn. rewrite Hub. apply (ul_globals _ Hu).
  - destruct (lk_refs _ _ Hl) as (c & Hcls & HG & Hb). rewrite Hcls. pose proof (linked_class _ _ _ Hl Hcls) as Hcg.
    apply runs_jni_m, runs_vm. eapply runs_delete_global; [apply Hc|exact Hcg|]. apply HQ.
    + unfold classless, buffer_ok in *. cbn. destruct (g_output_buf _) as [b|].
      * destruct Hb as (k & a & Hne & HGb & Hg & Hk & Ha). exists k, a. split_and!; try done.
        rewrite Hg, delete_insert_ne by done. by rewrite delete_insert_id.
      * rewrite Hb. by rewrite delete_insert_id.
    + apply vm_ok_fewer; [apply Hl|]. intros r [o Hr]. exists o. by apply lookup_delete_Some in Hr as [_ Hr].
Qed.

(** With a new reference to the class and the methods found. *)
Lemma class_linked j g :
  classless j -> vm_ok (jv j) -> g_jvm g = true -> g_bridge_class g = Some (j_fresh (jv j)) ->
  g_output_buf g = g_output_buf (jg j) -> g_output_buf_cap g = g_output_buf_cap (jg j) ->
  (forall m, g_mids g m = true) -> linked G (mk_jni g (add_global class_obj (jv j))).
Proof.
  intros Hcl Hj Hg Hc Hb Hcap Hm. set (p := j_fresh (jv j)) in *.
  destruct (vo_fresh _ Hj p) as (Hlp & Hgp & _); [unfold p; lia|].
  assert (G !! p = None /\ forall b, g_output_buf (jg j) = Some b -> b <> p) as [HG Hne].
  { unfold classless in Hcl. destruct (g_output_buf (jg j)) as [b|].
    - destruct Hcl as (k & a & _ & Heq & _). rewrite Heq in Hgp. apply lookup_insert_None in Hgp as [HG Hne].
      split; [done|]. by intros b' [= <-].
    - rewrite Hcl in Hgp. by split. }
  split; try done.
  - split; cbn; fold p.
    + intros k Hk. destruct (vo_fresh _ Hj k) as (H1 & H2 & H3); [fold p; lia|].
      split_and!; [done|rewrite lookup_insert_ne by lia; done|done].
    + intros r. rewrite lookup_insert. case_decide; [by subst|]. apply (vo_tables _ Hj).
  - exists p. split_and!; [done..|]. unfold buffer_ok, classless in *. cbn. fold p. rewrite Hb.
    destruct (g_output_buf (jg j)) as [b|]; [|by rewrite Hcl].
    destruct Hcl as (k & a & HGb & Heq & Hk & Ha). exists k, a. specialize (Hne b eq_refl).
    split_and!; try done; [by rewrite Heq, insert_insert_ne|by rewrite Hcap].
Qed.

Hypothesis nd6_neutral : neutral (nd6_cleanup nd6).
Hypothesis init_neutral : neutral (t_init tcp).
Hypothesis timers_neutral : neutral (t_timers_init tcp).
Hypothesis open_neutral : neutral (t_open tcp).
Hypothesis abort_neutral : neutral (t_abort_all tcp).
Hypothesis close_neutral : neutral (t_close_listeners tcp).
Hypothesis changed_neutral : forall a b, neutral (t_addr_changed tcp a b).
Hypothesis nd6_calls : calls_ok (nd6_cleanup nd6).
Hypothesis init_calls : calls_ok (t_init tcp).
Hypothesis timers_calls : calls_ok (t_timers_init tcp).
Hypothesis open_calls : calls_ok (t_open tcp).
Hypothesis abort_calls : calls_ok (t_abort_all tcp).
Hypothesis close_calls : calls_ok (t_close_listeners tcp).
Hypothesis changed_calls : forall a b, calls_ok (t_addr_changed tcp a b).

Lemma native_init_lemma n clazz :
  unlinked (nt_jni n) \/ linked G (nt_jni n) -> can_call (jv (nt_jni n)) ->
  j_locals (jv (nt_jni n)) !! clazz = Some class_obj -> startable (nt_stack n) ->
  runs (@nativeInit java the_bridge clazz) n (fun _ n' =>
    running n' /\ j_locals (jv (nt_jni n')) = j_locals (jv (nt_jni n))).
Proof.
  intros Hj Hc Hclazz Hst. unfold nativeInit. apply runs_bind, runs_jni_m, runs_gets. cbn [nt_stack].
  destruct n as [j st]. cbn [nt_jni nt_stack] in *.
  apply runs_bind. apply (runs_drop_class (mk_native j st)); [done..|]. cbn [nt_jni nt_stack].
  intros g Hcl Hok. set (j1 := mk_jni (jg j) (set_globals g (jv j))) in *.
  apply runs_bind, runs_jni_m, runs_vm. eapply (runs_new_global _ class_obj); [done| |apply (co_global _ Hcoop)|].
  { unfold object_of. cbn. by rewrite Hclazz. }
  apply runs_bind, runs_jni_m, runs_modify. cbn [nt_jni nt_stack jg jv].
  apply runs_bind, runs_find_methods; [done|]. cbn [nt_jni nt_stack jg jv negb].
  intros g' H1 H2 H3 H4 H5. cbv beta.
  assert (linked G (mk_jni g' (add_global class_obj (jv j1)))) as Hl.
  { apply class_linked; try done.
    - rewrite H1. cbn. by destruct Hj as [[]|[]].
    - intros m. apply H5. left. unfold all_methods. by destruct m; repeat constructor. }
  apply runs_bind. eapply (runs_run_lwip Hcoop G) with (us := []); [reflexivity|by rewrite app_nil_r|done|done|split; [apply Hc|left; apply Hc]|].
  intros j2 cs2 Hret2 _. cbn [nt_jni nt_stack].
  destruct (init_lemma (nd6_cleanup nd6) (lwip_init rand (t_init tcp) (t_timers_init tcp)) (t_open tcp) (t_abort_all tcp)
    (t_close_listeners tcp) (t_addr_changed tcp) nd6_neutral (neutral_lwip_init rand _ _ init_neutral timers_neutral) open_neutral abort_neutral close_neutral changed_neutral
    (with_fns true st) Hst) as (st' & Hrun & Hready & _).
  destruct (calls_init _ _ _ _ _ _ nd6_calls (calls_lwip_init rand _ _ init_calls timers_calls) open_calls abort_calls close_calls changed_calls _ _ _ Hrun)
    as (us & Htr & Hus).
  assert (can_call (jv j2)) as Hc2.
  { split; [|apply Hret2]. rewrite (rt_attached _ _ _ _ Hret2). apply Hc. }
  eapply (runs_run_lwip Hcoop G); [exact Hrun|exact Htr|done|apply Hret2|split; [apply Hc2|left; apply Hc2]|].
  intros j3 cs3 Hret3 _. cbn [nt_jni nt_stack]. split.
  - split; [apply Hret3| |done]. split; [|apply Hret3]. cbn. rewrite (rt_attached _ _ _ _ Hret3). apply Hc2.
  - etransitivity; [apply (rt_locals _ _ _ _ Hret3)|]. exact (rt_locals _ _ _ _ Hret2).
Qed.

Lemma native_shutdown_lemma n :
  running n ->
  runs (@nativeShutdown java the_bridge) n (fun _ n' =>
    unlinked (nt_jni n') /\ can_call (jv (nt_jni n')) /\ j_locals (jv (nt_jni n')) = j_locals (jv (nt_jni n))
    /\ startable (nt_stack n') /\ memp_udp (st_udp (nt_stack n')) = S (S (memp_udp (st_udp (nt_stack n))))).
Proof.
  intros [Hl Hc Hr]. unfold nativeShutdown.
  destruct (shutdown_ready (nd6_cleanup nd6) (t_abort_all tcp) (t_close_listeners tcp) (t_addr_changed tcp)
    nd6_neutral abort_neutral close_neutral changed_neutral (nt_stack n) Hr) as (st' & Hrun & Hsh & Hm).
  destruct (calls_shutdown _ _ _ _ nd6_calls abort_calls close_calls changed_calls _ _ _ Hrun) as (us & Htr & Hus).
  apply runs_bind. eapply (runs_run_lwip Hcoop G); [exact Hrun|exact Htr|done|done|split; [apply Hc|left; apply Hc]|].
  intros j1 cs1 Hret1 _. 
  assert (can_call (jv j1)) as Hc1.
  { split; [|apply Hret1]. rewrite (rt_attached _ _ _ _ Hret1). apply Hc. }
  apply runs_bind. eapply (runs_run_lwip Hcoop G) with (us := []);
    [reflexivity|by rewrite app_nil_r|done|apply Hret1|split; [apply Hc1|left; apply Hc1]|].
  intros j2 cs2 Hret2 _. cbn [nt_jni nt_stack] in *. fold (with_fns false st').
  assert (can_call (jv j2)) as Hc2.
  { split; [|apply Hret2]. rewrite (rt_attached _ _ _ _ Hret2). apply Hc1. }
  assert (j_locals (jv j2) = j_locals (jv (nt_jni n))) as Hloc.
  { etransitivity; [apply (rt_locals _ _ _ _ Hret2)|]. exact (rt_locals _ _ _ _ Hret1). }
  pose proof (rt_linked _ _ _ _ Hret2) as Hl2. destruct (lk_refs _ _ Hl2) as (c & Hcls & HG & Hb).
  assert (startable (with_fns false st')) as Hstart.
  { right. right. destruct Hsh as ([? ? ? ? ? ? ? ? ?] & Hi & H4 & H6). split; [|done]. by split. }
  apply runs_bind, runs_jni_m, runs_gets. cbn [nt_jni nt_stack]. apply runs_bind.
  assert (forall cap, let j := mk_jni (set_output_buf None cap (jg j2)) (set_globals (<[c := class_obj]> G) (jv j2)) in
    runs (
      _ ← (match g_bridge_class (jg j2) with
        | Some c => _ ← nvm (DeleteGlobalRef c); jni_m (modify_statics (set_class None))
        | None => mret tt
        end);
      jni_m (modify_statics clear_mids)) (mk_native j (with_fns false st')) (fun _ n' =>
    unlinked (nt_jni n') /\ can_call (jv (nt_jni n')) /\ j_locals (jv (nt_jni n')) = j_locals (jv (nt_jni n))
    /\ startable (nt_stack n') /\ memp_udp (st_udp (nt_stack n')) = S (S (memp_udp (st_udp (nt_stack n)))))) as Hrest.
  { intros cap j. rewrite Hcls. apply runs_bind, runs_bind, runs_jni_m, runs_vm.
    eapply runs_delete_global; [apply Hc2|cbn; by rewrite lookup_insert_eq|].
    apply runs_jni_m, runs_modify. apply runs_jni_m, runs_modify. cbn [nt_jni nt_stack jg jv].
    split_and!; try done. split; try done; cbn; [apply Hl2| |by rewrite delete_insert_id].
    rewrite delete_insert_id by done. apply (vm_ok_fewer (jv j2)); [apply Hl2|].
    intros r [o Hr']. by eapply linked_rest. }
  unfold buffer_ok in Hb. destruct (g_output_buf (jg j2)) as [b|] eqn:Hbuf.
  - destruct Hb as (k & a & Hne & HGb & Hg & _). apply runs_bind, runs_jni_m, runs_vm.
    eapply runs_delete_global; [apply Hc2|cbn; by rewrite Hg, lookup_insert_eq|].
    apply runs_jni_m, runs_modify. cbn [nt_jni nt_stack jg jv].
    rewrite Hg, delete_insert_id by (by rewrite lookup_insert_ne). apply Hrest.
  - apply runs_ret. specialize (Hrest (g_output_buf_cap (jg j2))). cbv zeta in Hrest.
    rewrite <-Hb in Hrest. 
    assert (mk_jni (set_output_buf None (g_output_buf_cap (jg j2)) (jg j2)) (set_globals (j_globals (jv j2)) (jv j2)) = j2) as Hid.
    { destruct j2 as [[] []]. cbn in *. by subst. }
    rewrite Hid in Hrest. exact Hrest.
Qed.

(** *** Refused memory *)

(** When the machine has no memory for a larger buffer, [jni_output_cb] drops the
    packet and the old buffer and comes back: no call is made, the reference of the class
    is the only one left, the thread has the references it had and the machine's
    exception pending. *)
Theorem output_refused (refusing : JavaVM) s data v6 c :
  @supports_version refusing = true -> (forall j n, @allocates refusing j n = false) ->
  linked G s -> can_call (jv s) -> g_bridge_class (jg s) = Some c ->
  g_output_buf (jg s) = None \/ g_output_buf_cap (jg s) < zlen data ->
  runs (@jni_output_cb refusing data (zlen data) v6) s (fun _ s' =>
    j_calls (jv s') = j_calls (jv s) /\ j_locals (jv s') = j_locals (jv s)
    /\ j_globals (jv s') = <[c := class_obj]> G /\ g_output_buf (jg s') = None
    /\ j_pending (jv s') = true /\ j_attached (jv s') = true).
Proof.
  intros Hver Hno Hl Hc Hcls Hsmall. unfold jni_output_cb. apply runs_bind. unfold with_env.
  apply runs_bind. unfold get_env. apply runs_bind, runs_gets. rewrite (lk_jvm _ _ Hl). cbn [negb].
  apply runs_bind, runs_vm, runs_gets. rewrite Hver, (proj1 Hc). cbn [negb].
  replace (mk_jni (jg s) (jv s)) with s by (by destruct s).
  apply runs_ret. apply runs_bind, runs_gets. rewrite Hcls, (lk_mids _ _ Hl). cbn [andb].
  apply runs_bind. apply runs_bind. unfold ensure_output_buf. apply runs_bind, runs_gets.
  assert (bool_decide (g_output_buf (jg s) = None) || (g_output_buf_cap (jg s) <? zlen data) = true) as ->.
  { destruct Hsmall as [-> | Hlt%Z.ltb_lt]; [done|]. by rewrite Hlt, orb_true_r. }
  destruct (lk_refs _ _ Hl) as (c' & Hcls' & HG & Hb). assert (c' = c) as -> by congruence.
  apply runs_bind. eapply (runs_drop_buffer G); [apply Hc|exact Hb|].
  apply runs_bind, runs_vm, runs_new_array_fails; [done|apply Hno|].
  apply runs_bind, runs_modify, runs_ret. apply runs_ret.
  apply runs_bind. unfold release_env. apply runs_bind, runs_gets, runs_ret, runs_ret, runs_ret. cbn.
  split_and!; try done. apply Hc.
Qed.

(** *** The methods *)

(** C15: a UDP packet that Java hands to [nativeInput], from any byte array that begins
    with it, comes back to Java as one call of [onUdpRecv] with the addresses, ports and
    payload; the elements of the array are released, no reference and no memory is kept,
    and the native side stays at work. *)
Theorem native_input_delivers n r k pkt rest src sport dst dport payload v6 :
  running n -> array_of (jv (nt_jni n)) r = Some (k, pkt ++ rest) ->
  udp_packet src sport dst dport payload v6 pkt -> deliverable v6 src dst = true ->
  zlen pkt < 2 ^ 16 -> fits 16 sport -> fits 16 dport -> (0 < h_memp_pbuf (st_heap (nt_stack n)))%nat ->
  runs (@nativeInput java the_bridge (Some r) (zlen pkt)) n (fun _ n' =>
    returned G (nt_jni n) (nt_jni n') [onUdpRecv src sport dst dport v6 payload]
    /\ running n' /\ same_resources (nt_stack n) (nt_stack n')).
Proof. apply native_input_lemma. Qed.

(** C32: [nativeUdpSendto] makes at most one call of [onOutput]: with the reference packet
    of its arguments at the start of the buffer and that packet's length, exactly when
    memory is granted and the packet fits in 16 bits; ports are taken modulo 2^16, the
    arrays may be longer than what is read of them, and everything taken is given back. *)
Theorem native_sendto_outputs n r1 r2 r3 k1 k2 k3 src rest1 dst rest2 payload rest3 srcPort dstPort v6 :
  running n ->
  array_of (jv (nt_jni n)) r1 = Some (k1, src ++ rest1) ->
  array_of (jv (nt_jni n)) r2 = Some (k2, dst ++ rest2) ->
  array_of (jv (nt_jni n)) r3 = Some (k3, payload ++ rest3) ->
  is_addr v6 src -> is_addr v6 dst -> are_bytes payload -> 0 < zlen payload < 2 ^ 16 ->
  u16 srcPort <> 0 -> (0 < memp_udp (st_udp (nt_stack n)))%nat ->
  let pkt := sent_packet v6 (st_ip_id (nt_stack n)) src (u16 srcPort) dst (u16 dstPort) payload in
  runs (@nativeUdpSendto java the_bridge (Some r1) srcPort (Some r2) dstPort v6 (Some r3) (zlen payload)) n (fun _ n' =>
    exists rest, returned G (nt_jni n) (nt_jni n')
        (if native_sends v6 n (zlen payload) then [onOutput (pkt ++ rest) (zlen pkt) v6] else [])
    /\ running n' /\ same_resources (nt_stack n) (nt_stack n')).
Proof. apply native_sendto_lemma. Qed.

(** C4: from Java to Java: the buffer that [onOutput] gets for a datagram sent with
    [nativeUdpSendto], handed with its length to [nativeInput] of any native side at work,
    makes exactly the call of [onUdpRecv] with the sender's addresses, ports and payload. *)
Theorem native_round_trip n r1 r2 r3 k1 k2 k3 src rest1 dst rest2 payload rest3 srcPort dstPort v6 :
  running n ->
  array_of (jv (nt_jni n)) r1 = Some (k1, src ++ rest1) ->
  array_of (jv (nt_jni n)) r2 = Some (k2, dst ++ rest2) ->
  array_of (jv (nt_jni n)) r3 = Some (k3, payload ++ rest3) ->
  is_addr v6 src -> is_addr v6 dst -> deliverable v6 src dst = true -> are_bytes payload -> 0 < zlen payload < 2 ^ 16 ->
  u16 srcPort <> 0 -> (0 < memp_udp (st_udp (nt_stack n)))%nat -> native_sends v6 n (zlen payload) = true ->
  runs (@nativeUdpSendto java the_bridge (Some r1) srcPort (Some r2) dstPort v6 (Some r3) (zlen payload)) n (fun _ n' =>
    exists buf len, j_calls (jv (nt_jni n')) = j_calls (jv (nt_jni n)) ++ [onOutput buf len v6]
    /\ forall m r k, running m -> array_of (jv (nt_jni m)) r = Some (k, buf) ->
       (0 < h_memp_pbuf (st_heap (nt_stack m)))%nat ->
       runs (@nativeInput java the_bridge (Some r) len) m (fun _ m' =>
         j_calls (jv (nt_jni m'))
         = j_calls (jv (nt_jni m)) ++ [onUdpRecv src (u16 srcPort) dst (u16 dstPort) v6 payload])).
Proof.
  intros Hn H1 H2 H3 Hs Hd Hok Hb Hlen Hsp Hm Hsend.
  eapply runs_mono; [by eapply native_sendto_lemma|]. intros [] n' (rest & Hret & _). rewrite Hsend in Hret.
  eexists _, _. split; [apply (rt_calls _ _ _ _ Hret)|]. intros m r k Hrun Harr Hpool.
  pose proof (sent_is_udp_packet v6 (st_ip_id (nt_stack n)) src (u16 srcPort) dst (u16 dstPort) payload Hs Hd) as Hpkt.
  eapply runs_mono; [eapply native_input_lemma; try done; try by apply wrap_fits|].
  - rewrite (udp_packet_length _ _ _ _ _ _ _ Hpkt). unfold native_sends in Hsend.
    apply andb_true_iff in Hsend as [_ Hfit%Z.ltb_lt]. unfold header_length in Hfit. destruct v6; lia.
  - intros [] m' (Hret' & _). apply (rt_calls _ _ _ _ Hret').
Qed.

(** On such a machine Java gets exactly the calls of the stack, in their order, with the
    bytes of the stack's, and every reference made on the way is deleted. *)
Theorem callbacks_deliver us s :
  linked G s -> caller (jv s) -> Forall upcall_ok us ->
  runs (@callbacks java us) s (fun _ s' => exists cs, returned G s s' cs /\ Forall2 delivers us cs).
Proof. apply (callbacks_run Hcoop). Qed.

(** C30: [nativeInit] over a fresh process, a stopped stack or one at work brings the native
    side to work, with one reference to the class however often it is called, and
    [nativeShutdown] then leaves no reference of the bridge, no thread-local reference, and
    a stack that can be started again, on a machine that grants what it is asked for and
    with Java methods that throw nothing. The resets and error calls of [tcp_abort] are
    among what TCP may do meanwhile. *)
Theorem native_lifecycle n clazz :
  unlinked (nt_jni n) \/ linked G (nt_jni n) -> can_call (jv (nt_jni n)) ->
  j_locals (jv (nt_jni n)) !! clazz = Some class_obj -> startable (nt_stack n) ->
  runs (@nativeInit java the_bridge clazz) n (fun _ n1 => running n1
    /\ runs (@nativeShutdown java the_bridge) n1 (fun _ n2 =>
       unlinked (nt_jni n2) /\ startable (nt_stack n2) /\ can_call (jv (nt_jni n2))
       /\ j_locals (jv (nt_jni n2)) = j_locals (jv (nt_jni n)))).
Proof.
  intros Hj Hc Hcl Hst. eapply runs_mono; [by apply native_init_lemma|]. intros [] n1 [Hrun Hloc]. split; [done|].
  eapply runs_mono; [by apply native_shutdown_lemma|]. intros [] n2 (Hu & Hc2 & Hloc2 & Hst2 & _).
  split_and!; try done. by rewrite Hloc2.
Qed.
End properties.

(** ** Concrete machines and states *)

(** A machine that refuses nothing, up to what the arguments say. *)
Definition machine_with (alloc global : bool) : JavaVM := {|
  supports_version := true;
  attaches := fun _ => true;
  allocates := fun _ _ => alloc;
  makes_global := fun _ => global;
  makes_string := fun _ => true;
  grants_elements := fun _ _ => true;
  has_method := fun _ => true;
  throws := fun _ _ => false;
  answers := fun _ _ => 1;
|}.

Definition obliging : JavaVM := machine_with true true.

Lemma obliging_cooperative : cooperative obliging.
Proof. by split. Qed.

Definition ex_tcp : tcp_api :=
  mk_tcp_api (fun _ => ex_skip) ex_skip ex_skip ex_skip ex_skip ex_abort (fun _ _ => ex_skip) (fun _ _ _ => mret 0)
    (fun _ => ex_skip) (fun _ _ => ex_skip) (fun _ => ex_skip) (fun _ => ex_skip) (fun _ => mret 0) (fun _ => mret 0)
    ex_skip.
Definition ex_nd6 : nd6_api := mk_nd6_api (fun _ => ex_skip) ex_skip.
Abbreviation ex_bridge := (@bridge_impl every_malloc ex_machine (fun _ _ => None) 123456 ex_tcp ex_nd6).

(** Arrays 1 to 3 behind the local references 4 to 6, the class behind the local
    reference 7 and, with the bridge at work, the global reference 8. *)
Definition ex_jvm (a1 a2 a3 : list Z) (g : gmap jref jobject) : jvm :=
  mk_jvm true false (<[1%positive := a1]> (<[2%positive := a2]> {[3%positive := a3]}))
    (<[4%positive := array_obj 1]> (<[5%positive := array_obj 2]> (<[6%positive := array_obj 3]>
      {[7%positive := class_obj]}))) g 9%positive [].

Definition ex_linked (a1 a2 a3 : list Z) : jni :=
  mk_jni (mk_statics true (Some 8%positive) None 0 (fun _ => true)) (ex_jvm a1 a2 a3 {[8%positive := class_obj]}).

Definition ex_native (a1 a2 a3 : list Z) : native := mk_native (ex_linked a1 a2 a3) (example_stack [] [] []).

Lemma ex_vm_ok a1 a2 a3 (g : gmap jref jobject) :
  g = ∅ \/ g = {[8%positive := class_obj]} -> vm_ok (ex_jvm a1 a2 a3 g).
Proof.
  intros Hg. split; cbn.
  - intros k Hk. rewrite !lookup_insert_ne, !lookup_singleton_ne by lia. split_and!; [done| |done].
    destruct Hg as [-> | ->]; [apply lookup_empty|by rewrite lookup_singleton_ne by lia].
  - intros r [o Hr]. destruct Hg as [-> | ->]; [by rewrite lookup_empty in Hr|].
    apply lookup_singleton_Some in Hr as [<- _]. by rewrite !lookup_insert_ne, lookup_singleton_ne by lia.
Qed.

Lemma ex_is_linked a1 a2 a3 : linked ∅ (ex_linked a1 a2 a3).
Proof.
  split; try done; [apply ex_vm_ok; by right|]. exists 8%positive. split_and!; try done.
Qed.

Lemma ex_running a1 a2 a3 : running ∅ (ex_native a1 a2 a3).
Proof. split; [apply ex_is_linked|done|apply example_ready]. Qed.

(** Whenever a callback fails to make the buffer global, it writes through NULL. *)
Example null_buffer_used :
  @jni_output_cb (machine_with true false) [1; 2; 3] 3 false (ex_linked [] [] []) = Undef.
Proof. vm_compute. reflexivity. Qed.

(** After a failed allocation the next one is tried with the exception pending. *)
Example allocation_after_failure :
  @jni_udp_recv_cb (machine_with false true) ex_src 5353 ex_dst 53 false ex_data 3 (ex_linked [] [] []) = Undef.
Proof. vm_compute. reflexivity. Qed.

(** ** Witnesses *)

Lemma native_input_delivers_witness :
  runs (@nativeInput obliging ex_bridge (Some 4%positive) (zlen ex_packet)) (ex_native (ex_packet ++ [0; 0]) [] []) (fun _ n' =>
    returned ∅ (ex_linked (ex_packet ++ [0; 0]) [] []) (nt_jni n') [onUdpRecv ex_src 5353 ex_dst 53 false ex_data]).
Proof.
  pose proof (@native_input_delivers obliging obliging_cooperative every_malloc ex_machine (fun _ _ => None) 123456 ex_tcp ex_nd6 ∅
    (ex_native (ex_packet ++ [0; 0]) [] []) 4%positive 1%positive ex_packet [0; 0] ex_src 5353 ex_dst 53 ex_data false
    (ex_running _ _ _) eq_refl ex_packet_ok) as Hw.
  eapply runs_mono; [apply Hw|].
  - vm_compute; reflexivity.
  - vm_compute; reflexivity.
  - unfold fits; lia.
  - unfold fits; lia.
  - cbn; lia.
  - intros a n' (Hr & _). exact Hr.
Defined.

Lemma native_sendto_outputs_witness :
  runs (@nativeUdpSendto obliging ex_bridge (Some 4%positive) 5353 (Some 5%positive) 53 false (Some 6%positive) 3)
    (ex_native ex_src ex_dst ex_data) (fun _ n' =>
    exists rest, returned ∅ (ex_linked ex_src ex_dst ex_data) (nt_jni n') [onOutput (ex_packet ++ rest) 31 false]).
Proof.
  pose proof (@native_sendto_outputs obliging obliging_cooperative every_malloc ex_machine (fun _ _ => None) 123456 ex_tcp ex_nd6 ∅
    (ex_native ex_src ex_dst ex_data) 4%positive 5%positive 6%positive 1%positive 2%positive 3%positive
    ex_src [] ex_dst [] ex_data [] 5353 53 false (ex_running _ _ _) eq_refl eq_refl eq_refl
    (proj1 ex_addrs) (proj2 ex_addrs) ex_data_bytes) as Hw.
  eapply runs_mono; [apply Hw|].
  - vm_compute. by split.
  - vm_compute. done.
  - cbn. lia.
  - intros a n' (rest & Hr & _). exists rest. exact Hr.
Defined.

Lemma native_round_trip_witness :
  runs (@nativeUdpSendto obliging ex_bridge (Some 4%positive) 5353 (Some 5%positive) 53 false (Some 6%positive) 3)
    (ex_native ex_src ex_dst ex_data) (fun _ n' =>
    exists buf len, j_calls (jv (nt_jni n')) = [onOutput buf len false]
    /\ runs (@nativeInput obliging ex_bridge (Some 4%positive) len) (ex_native buf [] []) (fun _ m' =>
         j_calls (jv (nt_jni m')) = [onUdpRecv ex_src 5353 ex_dst 53 false ex_data])).
Proof.
  pose proof (@native_round_trip obliging obliging_cooperative every_malloc ex_machine (fun _ _ => None) 123456 ex_tcp ex_nd6 ∅
    (ex_native ex_src ex_dst ex_data) 4%positive 5%positive 6%positive 1%positive 2%positive 3%positive
    ex_src [] ex_dst [] ex_data [] 5353 53 false (ex_running _ _ _) eq_refl eq_refl eq_refl
    (proj1 ex_addrs) (proj2 ex_addrs)) as Hw.
  eapply runs_mono; [apply Hw|].
  - vm_compute. reflexivity.
  - apply ex_data_bytes.
  - vm_compute. by split.
  - vm_compute. done.
  - cbn. lia.
  - vm_compute. reflexivity.
  - intros a n' (buf & len & Hcalls & Hback). exists buf, len. split; [exact Hcalls|].
    apply (Hback (ex_native buf [] []) 4%positive 1%positive); [apply ex_running|reflexivity|cbn; lia].
Defined.

Definition ex_upcalls : list upcall :=
  [output_fn ex_packet false; tcp_sent_fn 7 100; tcp_recv_fn 7 (Some []); udp_recv_up ex_src 5353 ex_dst 53 false ex_data].

Lemma callbacks_deliver_witness :
  runs (@callbacks obliging ex_upcalls) (ex_linked [] [] []) (fun _ s' => exists cs,
    returned ∅ (ex_linked [] [] []) s' cs /\ Forall2 delivers ex_upcalls cs).
Proof.
  apply (callbacks_deliver obliging obliging_cooperative ∅ ex_upcalls (ex_linked [] [] [])).
  - apply ex_is_linked.
  - split; [reflexivity|by left].
  - repeat constructor.
Defined.

Lemma output_refused_witness :
  runs (@jni_output_cb (machine_with false true) ex_data (zlen ex_data) false) (ex_linked [] [] []) (fun _ s' =>
    j_calls (jv s') = [] /\ g_output_buf (jg s') = None /\ j_pending (jv s') = true).
Proof.
  pose proof (output_refused ∅ (machine_with false true) (ex_linked [] [] []) ex_data false 8%positive eq_refl
    (fun _ _ => eq_refl) (ex_is_linked _ _ _) (conj eq_refl eq_refl) eq_refl (or_introl eq_refl)) as Hw.
  eapply runs_mono; [exact Hw|]. intros a s' (H1 & _ & _ & H4 & H5 & _). exact (conj H1 (conj H4 H5)).
Defined.

Lemma skip_calls : calls_ok ex_skip.
Proof. apply calls_ret. Qed.

Lemma abort_calls : calls_ok ex_abort.
Proof. intros s a s' [= <- <-]. eexists. split; [reflexivity|]. by repeat constructor. Qed.

(** The library is loaded and the bridge has no references yet; the stack was left at
    work. *)
Definition ex_fresh : native :=
  mk_native (mk_jni (mk_statics true None None 0 (fun _ => false)) (ex_jvm [] [] [] ∅)) (example_stack [] [] []).

Lemma native_lifecycle_witness :
  runs (@nativeInit obliging ex_bridge 7%positive) ex_fresh (fun _ n1 => running ∅ n1
    /\ runs (@nativeShutdown obliging ex_bridge) n1 (fun _ n2 => j_globals (jv (nt_jni n2)) = ∅)).
Proof.
  pose proof (@native_lifecycle obliging obliging_cooperative every_malloc ex_machine (fun _ _ => None) 123456 ex_tcp ex_nd6 ∅
    skip_neutral skip_neutral skip_neutral skip_neutral abort_neutral skip_neutral (fun _ _ => skip_neutral)
    skip_calls skip_calls skip_calls skip_calls abort_calls skip_calls (fun _ _ => skip_calls) ex_fresh 7%positive) as Hw.
  eapply runs_mono; [apply Hw|].
  - left. split; try done. apply ex_vm_ok. by left.
  - done.
  - reflexivity.
  - right. left. apply example_ready.
  - intros a n1 (Hr & Hs). split; [exact Hr|]. eapply runs_mono; [exact Hs|]. intros b n2 (Hu & _). exact (ul_globals _ _ Hu).
Defined.
