(* ===== verification/Tcp.v ===== *)
(** * TCP: the state of a connection ([tcp.h], [tcp_priv.h])

    One connection as lwIP keeps it: its control block, the pcb list it is on, the
    globals of the segment being processed, and the trace of what crosses its
    interfaces. A segment's pbuf is the bytes it holds: in this configuration
    ([LWIP_NETIF_TX_SINGLE_PBUF]) each segment is one pbuf. The memory pools, IP
    output and the application are the environment. *)
From Stdlib Require Import ZArith Lia.
From stdpp Require Import base list option numbers.
From S2P Require Import Prelude Pbuf Chksum.

(** ** Widths *)

Definition s16 (z : Z) : Z := let m := wrap 16 z in if m <? 2 ^ 15 then m else m - 2 ^ 16.

(** ** Configuration ([lwipopts.h]) and constants *)

Definition TCP_HLEN : Z := 20.
Definition TCP_MSS : Z := 1460.
Definition INITIAL_MSS : Z := 536.
Definition TCP_WND : Z := 1024 * TCP_MSS.
Definition TCP_SND_BUF : Z := 1024 * TCP_MSS.
Definition TCP_SND_QUEUELEN : Z := 4 * TCP_SND_BUF / TCP_MSS.
Definition TCP_SNDQUEUELEN_OVERFLOW : Z := 0xffff - 3.
Definition TCP_WND_UPDATE_THRESHOLD : Z := Z.min (TCP_WND / 4) (TCP_MSS * 8).
Definition TCP_MAXRTX : Z := 8.
Definition TCP_SYNMAXRTX : Z := 3.
Definition TCP_RCV_SCALE : Z := 7.
Definition TCP_TTL : Z := 255.
Definition TCP_TMR_INTERVAL : Z := 100.
Definition TCP_SLOW_INTERVAL : Z := 2 * TCP_TMR_INTERVAL.
Definition LWIP_TCP_RTO_TIME : Z := 1000.
Definition TCP_FIN_WAIT_TIMEOUT : Z := 20000.
Definition TCP_SYN_RCVD_TIMEOUT : Z := 20000.
Definition TCP_MSL : Z := 60000.
Definition TCP_KEEPIDLE_DEFAULT : Z := 7200000.
Definition TCP_KEEPINTVL_DEFAULT : Z := 75000.
Definition TCP_KEEPCNT_DEFAULT : Z := 9.
Definition TCP_MAXIDLE : Z := TCP_KEEPCNT_DEFAULT * TCP_KEEPINTVL_DEFAULT.
Definition LWIP_TCP_CALC_INITIAL_CWND (mss : Z) : Z := u32 (32 * mss).

Definition TCP_FIN : Z := 0x01.
Definition TCP_SYN : Z := 0x02.
Definition TCP_RST : Z := 0x04.
Definition TCP_PSH : Z := 0x08.
Definition TCP_ACK : Z := 0x10.

Definition TF_ACK_DELAY : Z := 0x01.
Definition TF_ACK_NOW : Z := 0x02.
Definition TF_INFR : Z := 0x04.
Definition TF_CLOSEPEND : Z := 0x08.
Definition TF_RXCLOSED : Z := 0x10.
Definition TF_FIN : Z := 0x20.
Definition TF_NODELAY : Z := 0x40.
Definition TF_NAGLEMEMERR : Z := 0x80.
Definition TF_WND_SCALE : Z := 0x0100.
Definition TF_RTO : Z := 0x0800.

Definition TF_RESET : Z := 0x08.
Definition TF_CLOSED : Z := 0x10.
Definition TF_GOT_FIN : Z := 0x20.

Definition TF_SEG_OPTS_MSS : Z := 0x01.
Definition TF_SEG_OPTS_TS : Z := 0x02.
Definition TF_SEG_DATA_CHECKSUMMED : Z := 0x04.
Definition TF_SEG_OPTS_WND_SCALE : Z := 0x08.
Definition TF_SEG_OPTS_SACK_PERM : Z := 0x10.

Definition TCP_WRITE_FLAG_COPY : Z := 0x01.
Definition TCP_WRITE_FLAG_MORE : Z := 0x02.

Definition PBUF_FLAG_PUSH : Z := 0x01.
Definition PBUF_FLAG_TCP_FIN : Z := 0x20.
Definition SOF_KEEPALIVE : Z := 0x08.

(** [x & f] as a C condition. *)
Definition has (x f : Z) : bool := negb (Z.land x f =? 0).

(** ** Sequence numbers *)

Definition TCP_SEQ_LT (a b : Z) : bool := has (u32 (a - b)) 0x80000000.
Definition TCP_SEQ_LEQ (a b : Z) : bool := negb (TCP_SEQ_LT b a).
Definition TCP_SEQ_GT (a b : Z) : bool := TCP_SEQ_LT b a.
Definition TCP_SEQ_GEQ (a b : Z) : bool := TCP_SEQ_LEQ b a.
Definition TCP_SEQ_BETWEEN (a b c : Z) : bool := TCP_SEQ_GEQ a b && TCP_SEQ_LEQ a c.

(** ** Data *)

Inductive tcp_state :=
| CLOSED | LISTEN | SYN_SENT | SYN_RCVD | ESTABLISHED | FIN_WAIT_1 | FIN_WAIT_2
| CLOSE_WAIT | CLOSING | LAST_ACK | TIME_WAIT.

#[export] Instance tcp_state_eq_dec : EqDecision tcp_state.
Proof. solve_decision. Defined.

Definition state_code (s : tcp_state) : Z :=
  match s with
  | CLOSED => 0 | LISTEN => 1 | SYN_SENT => 2 | SYN_RCVD => 3 | ESTABLISHED => 4
  | FIN_WAIT_1 => 5 | FIN_WAIT_2 => 6 | CLOSE_WAIT => 7 | CLOSING => 8 | LAST_ACK => 9
  | TIME_WAIT => 10
  end.

Definition state_is (a b : tcp_state) : bool := bool_decide (a = b).

(** A queued segment: the options it asks for, the spare room of its pbuf, the sum
    of its data, of its header the sequence number, length and flags, the machine
    address of its data, the data ([p], of length [len]) and the references to [p]. *)
Record tcp_seg := mk_seg {
  sg_flags : Z; sg_oversize_left : Z; sg_chksum : Z; sg_chksum_swapped : bool;
  sg_seqno : Z; sg_hdrlen : Z; sg_hdrflags : Z; sg_addr : Z; sg_data : list Z; sg_ref : Z;
}.

#[export] Instance tcp_seg_settable : Settable tcp_seg := fun s =>
  mk_seg (sg_flags s) (sg_oversize_left s) (sg_chksum s) (sg_chksum_swapped s)
    (sg_seqno s) (sg_hdrlen s) (sg_hdrflags s) (sg_addr s) (sg_data s) (sg_ref s).
Definition set_sg_flags : Z -> tcp_seg -> tcp_seg := ltac:(setter sg_flags).
Definition set_sg_oversize_left : Z -> tcp_seg -> tcp_seg := ltac:(setter sg_oversize_left).
Definition set_sg_chksum : Z -> tcp_seg -> tcp_seg := ltac:(setter sg_chksum).
Definition set_sg_chksum_swapped : bool -> tcp_seg -> tcp_seg := ltac:(setter sg_chksum_swapped).
Definition set_sg_hdrflags : Z -> tcp_seg -> tcp_seg := ltac:(setter sg_hdrflags).
Definition set_sg_data : list Z -> tcp_seg -> tcp_seg := ltac:(setter sg_data).

Definition sg_len (s : tcp_seg) : Z := zlen (sg_data s).

(** [TCP_TCPLEN] *)
Definition TCP_TCPLEN (s : tcp_seg) : Z :=
  sg_len s + (if has (sg_hdrflags s) (Z.lor TCP_FIN TCP_SYN) then 1 else 0).

Definition LWIP_TCP_OPT_LENGTH (flags : Z) : Z :=
  (if has flags TF_SEG_OPTS_MSS then 4 else 0) + (if has flags TF_SEG_OPTS_TS then 0 else 0) +
  (if has flags TF_SEG_OPTS_WND_SCALE then 4 else 0) +
  (if has flags TF_SEG_OPTS_SACK_PERM then 0 else 0).

(** Received data: the bytes of the pbuf chain and the flags of its first pbuf. *)
Record rx_pbuf := mk_rx_pbuf { rp_data : list Z; rp_flags : Z }.

(** The fields of [struct tcp_pcb], in groups. *)

Record identity := mk_identity {
  id_local_ip : ip_addr_t; id_remote_ip : ip_addr_t; id_local_port : Z; id_remote_port : Z;
  id_so_options : Z; id_tos : Z; id_ttl : Z; id_netif_idx : Z; id_prio : Z;
}.

#[export] Instance identity_settable : Settable identity := fun i =>
  mk_identity (id_local_ip i) (id_remote_ip i) (id_local_port i) (id_remote_port i)
    (id_so_options i) (id_tos i) (id_ttl i) (id_netif_idx i) (id_prio i).
Definition set_local_ip : ip_addr_t -> identity -> identity := ltac:(setter id_local_ip).
Definition set_remote_ip : ip_addr_t -> identity -> identity := ltac:(setter id_remote_ip).
Definition set_local_port : Z -> identity -> identity := ltac:(setter id_local_port).
Definition set_remote_port : Z -> identity -> identity := ltac:(setter id_remote_port).
Definition set_so_options : Z -> identity -> identity := ltac:(setter id_so_options).
Definition set_netif_idx : Z -> identity -> identity := ltac:(setter id_netif_idx).
Definition set_prio : Z -> identity -> identity := ltac:(setter id_prio).

Record receiver := mk_receiver {
  rcv_nxt : Z; rcv_wnd : Z; rcv_ann_wnd : Z; rcv_ann_right_edge : Z; rcv_scale : Z;
  refused_data : option rx_pbuf;
}.

#[export] Instance receiver_settable : Settable receiver := fun r =>
  mk_receiver (rcv_nxt r) (rcv_wnd r) (rcv_ann_wnd r) (rcv_ann_right_edge r) (rcv_scale r)
    (refused_data r).
Definition set_rcv_nxt : Z -> receiver -> receiver := ltac:(setter rcv_nxt).
Definition set_rcv_wnd : Z -> receiver -> receiver := ltac:(setter rcv_wnd).
Definition set_rcv_ann_wnd : Z -> receiver -> receiver := ltac:(setter rcv_ann_wnd).
Definition set_rcv_ann_right_edge : Z -> receiver -> receiver := ltac:(setter rcv_ann_right_edge).
Definition set_rcv_scale : Z -> receiver -> receiver := ltac:(setter rcv_scale).
Definition set_refused_data : option rx_pbuf -> receiver -> receiver := ltac:(setter refused_data).

Record sender := mk_sender {
  snd_nxt : Z; snd_wl1 : Z; snd_wl2 : Z; snd_lbb : Z; snd_wnd : Z; snd_wnd_max : Z;
  snd_buf : Z; snd_queuelen : Z; unsent_oversize : Z; lastack : Z; mss : Z; snd_scale : Z;
  rto_end : Z; unsent : list tcp_seg; unacked : list tcp_seg;
}.

#[export] Instance sender_settable : Settable sender := fun s =>
  mk_sender (snd_nxt s) (snd_wl1 s) (snd_wl2 s) (snd_lbb s) (snd_wnd s) (snd_wnd_max s)
    (snd_buf s) (snd_queuelen s) (unsent_oversize s) (lastack s) (mss s) (snd_scale s)
    (rto_end s) (unsent s) (unacked s).
Definition set_snd_nxt : Z -> sender -> sender := ltac:(setter snd_nxt).
Definition set_snd_wl1 : Z -> sender -> sender := ltac:(setter snd_wl1).
Definition set_snd_wl2 : Z -> sender -> sender := ltac:(setter snd_wl2).
Definition set_snd_lbb : Z -> sender -> sender := ltac:(setter snd_lbb).
Definition set_snd_wnd : Z -> sender -> sender := ltac:(setter snd_wnd).
Definition set_snd_wnd_max : Z -> sender -> sender := ltac:(setter snd_wnd_max).
Definition set_snd_buf : Z -> sender -> sender := ltac:(setter snd_buf).
Definition set_snd_queuelen : Z -> sender -> sender := ltac:(setter snd_queuelen).
Definition set_unsent_oversize : Z -> sender -> sender := ltac:(setter unsent_oversize).
Definition set_lastack : Z -> sender -> sender := ltac:(setter lastack).
Definition set_mss : Z -> sender -> sender := ltac:(setter mss).
Definition set_snd_scale : Z -> sender -> sender := ltac:(setter snd_scale).
Definition set_rto_end : Z -> sender -> sender := ltac:(setter rto_end).
Definition set_unsent : list tcp_seg -> sender -> sender := ltac:(setter unsent).
Definition set_unacked : list tcp_seg -> sender -> sender := ltac:(setter unacked).

Record congestion := mk_congestion {
  cwnd : Z; ssthresh : Z; bytes_acked : Z; dupacks : Z; rttest : Z; rtseq : Z;
  sa : Z; sv : Z; rto : Z; nrtx : Z;
}.

#[export] Instance congestion_settable : Settable congestion := fun g =>
  mk_congestion (cwnd g) (ssthresh g) (bytes_acked g) (dupacks g) (rttest g) (rtseq g)
    (sa g) (sv g) (rto g) (nrtx g).
Definition set_cwnd : Z -> congestion -> congestion := ltac:(setter cwnd).
Definition set_ssthresh : Z -> congestion -> congestion := ltac:(setter ssthresh).
Definition set_bytes_acked : Z -> congestion -> congestion := ltac:(setter bytes_acked).
Definition set_dupacks : Z -> congestion -> congestion := ltac:(setter dupacks).
Definition set_rttest : Z -> congestion -> congestion := ltac:(setter rttest).
Definition set_rtseq : Z -> congestion -> congestion := ltac:(setter rtseq).
Definition set_sa : Z -> congestion -> congestion := ltac:(setter sa).
Definition set_sv : Z -> congestion -> congestion := ltac:(setter sv).
Definition set_rto : Z -> congestion -> congestion := ltac:(setter rto).
Definition set_nrtx : Z -> congestion -> congestion := ltac:(setter nrtx).

Record timers := mk_timers {
  rtime : Z; tmr : Z; polltmr : Z; pollinterval : Z; last_timer : Z; persist_cnt : Z;
  persist_backoff : Z; persist_probe : Z; keep_cnt_sent : Z; keep_idle : Z;
}.

#[export] Instance timers_settable : Settable timers := fun t =>
  mk_timers (rtime t) (tmr t) (polltmr t) (pollinterval t) (last_timer t) (persist_cnt t)
    (persist_backoff t) (persist_probe t) (keep_cnt_sent t) (keep_idle t).
Definition set_rtime : Z -> timers -> timers := ltac:(setter rtime).
Definition set_tmr : Z -> timers -> timers := ltac:(setter tmr).
Definition set_polltmr : Z -> timers -> timers := ltac:(setter polltmr).
Definition set_pollinterval : Z -> timers -> timers := ltac:(setter pollinterval).
Definition set_last_timer : Z -> timers -> timers := ltac:(setter last_timer).
Definition set_persist_cnt : Z -> timers -> timers := ltac:(setter persist_cnt).
Definition set_persist_backoff : Z -> timers -> timers := ltac:(setter persist_backoff).
Definition set_persist_probe : Z -> timers -> timers := ltac:(setter persist_probe).
Definition set_keep_cnt_sent : Z -> timers -> timers := ltac:(setter keep_cnt_sent).
Definition set_keep_idle : Z -> timers -> timers := ltac:(setter keep_idle).

(** The callback pointers. [recv] is NULL, the default function or the
    application's; the others are NULL or the application's. *)
Inductive recv_fn := tcp_recv_null_fn | app_recv_fn.
Inductive accept_fn := tcp_accept_null_fn | app_accept_fn.

Record callbacks := mk_callbacks {
  callback_arg : Z; cb_recv : option recv_fn; cb_sent : bool; cb_connected : bool;
  cb_poll : bool; cb_errf : bool; listener : option (option accept_fn);
}.

#[export] Instance callbacks_settable : Settable callbacks := fun c =>
  mk_callbacks (callback_arg c) (cb_recv c) (cb_sent c) (cb_connected c) (cb_poll c)
    (cb_errf c) (listener c).
Definition set_callback_arg : Z -> callbacks -> callbacks := ltac:(setter callback_arg).
Definition set_cb_recv : option recv_fn -> callbacks -> callbacks := ltac:(setter cb_recv).
Definition set_cb_sent : bool -> callbacks -> callbacks := ltac:(setter cb_sent).
Definition set_cb_connected : bool -> callbacks -> callbacks := ltac:(setter cb_connected).
Definition set_cb_poll : bool -> callbacks -> callbacks := ltac:(setter cb_poll).
Definition set_cb_errf : bool -> callbacks -> callbacks := ltac:(setter cb_errf).
Definition set_listener : option (option accept_fn) -> callbacks -> callbacks := ltac:(setter listener).

Record tcp_pcb := mk_pcb {
  pcb_state : tcp_state; pcb_flags : Z; pcb_id : identity; rx : receiver; tx : sender;
  cc : congestion; tm : timers; cb : callbacks;
}.

#[export] Instance tcp_pcb_settable : Settable tcp_pcb := fun p =>
  mk_pcb (pcb_state p) (pcb_flags p) (pcb_id p) (rx p) (tx p) (cc p) (tm p) (cb p).
Definition set_state : tcp_state -> tcp_pcb -> tcp_pcb := ltac:(setter pcb_state).
Definition set_flags : Z -> tcp_pcb -> tcp_pcb := ltac:(setter pcb_flags).
Definition set_id : identity -> tcp_pcb -> tcp_pcb := ltac:(setter pcb_id).
Definition set_rx : receiver -> tcp_pcb -> tcp_pcb := ltac:(setter rx).
Definition set_tx : sender -> tcp_pcb -> tcp_pcb := ltac:(setter tx).
Definition set_cc : congestion -> tcp_pcb -> tcp_pcb := ltac:(setter cc).
Definition set_tm : timers -> tcp_pcb -> tcp_pcb := ltac:(setter tm).
Definition set_cb : callbacks -> tcp_pcb -> tcp_pcb := ltac:(setter cb).

(** The globals of [tcp_in.c] that describe the segment being processed. *)
Record input := mk_input {
  in_seqno : Z; in_ackno : Z; in_wnd : Z; in_flags : Z; in_opts : list Z; tcplen : Z;
  inseg_len : Z; inseg_hdrflags : Z; inseg_p : option rx_pbuf;
  recv_data : option rx_pbuf; recv_flags : Z; recv_acked : Z;
}.

#[export] Instance input_settable : Settable input := fun i =>
  mk_input (in_seqno i) (in_ackno i) (in_wnd i) (in_flags i) (in_opts i) (tcplen i)
    (inseg_len i) (inseg_hdrflags i) (inseg_p i) (recv_data i) (recv_flags i) (recv_acked i).
Definition set_in_seqno : Z -> input -> input := ltac:(setter in_seqno).
Definition set_tcplen : Z -> input -> input := ltac:(setter tcplen).
Definition set_inseg_len : Z -> input -> input := ltac:(setter inseg_len).
Definition set_inseg_hdrflags : Z -> input -> input := ltac:(setter inseg_hdrflags).
Definition set_inseg_p : option rx_pbuf -> input -> input := ltac:(setter inseg_p).
Definition set_recv_data : option rx_pbuf -> input -> input := ltac:(setter recv_data).
Definition set_recv_flags : Z -> input -> input := ltac:(setter recv_flags).
Definition set_recv_acked : Z -> input -> input := ltac:(setter recv_acked).

(** ** What crosses the interfaces *)

(** A segment given to [ip_output_if]: addresses, header fields in host byte order
    (the window as its two bytes on the wire), options and data. *)
Record out_segment := mk_out {
  o_src_ip : ip_addr_t; o_dest_ip : ip_addr_t; o_src : Z; o_dest : Z; o_seqno : Z; o_ackno : Z;
  o_hdrlen : Z; o_flags : Z; o_wnd : list Z; o_chksum : Z; o_opts : list Z; o_data : list Z;
  o_ttl : Z; o_tos : Z;
}.

Inductive event :=
| Output (s : out_segment) (result : err_t)
| Written (data : list Z)
| RecvCall (arg : Z) (data : list Z) (answer : err_t)
| DefaultRecv (data : list Z)
| ClosedCall (arg : Z) (answer : err_t)
| SentCall (arg : Z) (len : Z) (answer : err_t)
| AcceptCall (arg : Z) (answer : err_t)
| ConnectedCall (arg : Z) (answer : err_t)
| PollCall (arg : Z) (answer : err_t)
| ErrCall (arg : Z) (e : err_t)
| DataFreed (data : list Z).

(** The application answers a callback by a program: calls of the API, then the
    value returned. *)
Inductive setting :=
| Arg (arg : Z) | Recv (f : option recv_fn) | Sent (on : bool) | Err (on : bool)
| Poll (on : bool) (interval : Z) | NagleDisable.

Inductive app_prog :=
| Return (e : err_t)
| Write (data : list Z) (apiflags : Z) (k : err_t -> app_prog)
| OutputNow (k : err_t -> app_prog)
| Recved (len : Z) (k : app_prog)
| Set_ (s : setting) (k : app_prog)
| Shutdown (rx tx : bool) (k : err_t -> app_prog)
| Close (k : err_t -> app_prog)
| Abort (k : app_prog).

Record application := mk_app {
  on_accept : list event -> app_prog;
  on_connected : list event -> app_prog;
  on_recv : Z -> list event -> option (list Z) -> app_prog;
  on_sent : Z -> list event -> Z -> app_prog;
  on_poll : list event -> app_prog;
}.

(** The environment. The [n]-th request made of it is granted or refused; the
    [n]-th packet given to IP is answered by an error code. *)
Class Environment := mk_environment {
  env_grants : Z -> bool;
  env_ip_output : Z -> err_t;
  env_route : Z -> bool;
  env_netif_mtu : Z;
  env_netif_mtu6 : Z;
  env_destination_cache : list (list Z * Z);
  env_local_ip : ip_addr_t -> option ip_addr_t;
  env_memory : Z -> Z;
  env_address : Z -> Z;
  env_app : application;
}.

(** ** The state and the monad *)

Inductive pcb_list := NoList | BoundList | ActiveList | TimeWaitList.

#[export] Instance pcb_list_eq_dec : EqDecision pcb_list.
Proof. solve_decision. Defined.

Record conn := mk_conn {
  c_pcb : tcp_pcb; c_list : pcb_list; c_live : bool; c_input_pcb : bool; c_in : input;
  c_ticks : Z; c_changed : bool; c_calls : Z; c_trace : list event;
}.

#[export] Instance conn_settable : Settable conn := fun c =>
  mk_conn (c_pcb c) (c_list c) (c_live c) (c_input_pcb c) (c_in c) (c_ticks c) (c_changed c)
    (c_calls c) (c_trace c).
Definition set_pcb : tcp_pcb -> conn -> conn := ltac:(setter c_pcb).
Definition set_list : pcb_list -> conn -> conn := ltac:(setter c_list).
Definition set_live : bool -> conn -> conn := ltac:(setter c_live).
Definition set_input_pcb : bool -> conn -> conn := ltac:(setter c_input_pcb).
Definition set_in : input -> conn -> conn := ltac:(setter c_in).
Definition set_ticks : Z -> conn -> conn := ltac:(setter c_ticks).
Definition set_changed : bool -> conn -> conn := ltac:(setter c_changed).
Definition set_calls : Z -> conn -> conn := ltac:(setter c_calls).
Definition set_trace : list event -> conn -> conn := ltac:(setter c_trace).

Definition TM (A : Type) : Type := conn -> outcome (A * conn).

#[export] Instance tm_ret : MRet TM := fun A a c => Done (a, c).
#[export] Instance tm_bind : MBind TM := fun A B k m c =>
  match m c with Done (a, c) => k a c | Undef => Undef end.

Definition abort {A} : TM A := fun _ => Undef.

(** [LWIP_ASSERT] *)
Definition LWIP_ASSERT (b : bool) : TM unit := if b then mret tt else abort.

(** An access through [pcb]: undefined once the block is back in its pool. *)
Definition pcb_ : TM tcp_pcb := fun c => if c_live c then Done (c_pcb c, c) else Undef.
Definition upd_pcb (f : tcp_pcb -> tcp_pcb) : TM unit := fun c =>
  if c_live c then Done (tt, set_pcb (f (c_pcb c)) c) else Undef.
Definition upd_id (f : identity -> identity) : TM unit := upd_pcb (fun p => set_id (f (pcb_id p)) p).
Definition upd_rx (f : receiver -> receiver) : TM unit := upd_pcb (fun p => set_rx (f (rx p)) p).
Definition upd_tx (f : sender -> sender) : TM unit := upd_pcb (fun p => set_tx (f (tx p)) p).
Definition upd_cc (f : congestion -> congestion) : TM unit := upd_pcb (fun p => set_cc (f (cc p)) p).
Definition upd_tm (f : timers -> timers) : TM unit := upd_pcb (fun p => set_tm (f (tm p)) p).
Definition upd_cb (f : callbacks -> callbacks) : TM unit := upd_pcb (fun p => set_cb (f (cb p)) p).

Definition in_ : TM input := fun c => Done (c_in c, c).
Definition upd_in (f : input -> input) : TM unit := fun c => Done (tt, set_in (f (c_in c)) c).
Definition gets {A} (f : conn -> A) : TM A := fun c => Done (f c, c).
Definition modify (f : conn -> conn) : TM unit := fun c => Done (tt, f c).
Definition emit (e : event) : TM unit := modify (fun c => set_trace (c_trace c ++ [e]) c).
Definition lift {A} (m : outcome A) : TM A := fun c => a ← m; Done (a, c).

Definition when (b : bool) (m : TM unit) : TM unit := if b then m else mret tt.

(** One request made of the environment. *)
Definition ask {A} (f : Z -> A) : TM A := fun c => Done (f (c_calls c), set_calls (c_calls c + 1) c).

Definition tcp_set_flags (f : Z) : TM unit :=
  upd_pcb (fun p => set_flags (u16 (Z.lor (pcb_flags p) f)) p).
Definition tcp_clear_flags (f : Z) : TM unit :=
  upd_pcb (fun p => set_flags (u16 (Z.land (pcb_flags p) (Z.land (Z.lnot f) 0xffff))) p).
Definition tcp_ack_now : TM unit := tcp_set_flags TF_ACK_NOW.
Definition tcp_ack : TM unit := tcp_set_flags TF_ACK_NOW.

(** ** Windows *)

Definition TCPWND_MIN16 (x : Z) : Z := u16 (Z.min x 0xffff).
Definition TCPWND16 (x : Z) : Z := u16 (Z.min x 0xffff).
Definition RCV_WND_SCALE (p : tcp_pcb) (w : Z) : Z := Z.shiftr w (rcv_scale (rx p)).
Definition SND_WND_SCALE (p : tcp_pcb) (w : Z) : Z := Z.shiftl w (snd_scale (tx p)).
Definition TCP_WND_MAX (p : tcp_pcb) : Z :=
  if has (pcb_flags p) TF_WND_SCALE then TCP_WND else TCPWND16 TCP_WND.
Definition TCP_WND_INC (w inc : Z) : Z := if w <=? u32 (w + inc) then u32 (w + inc) else 2 ^ 32 - 1.
Definition tcp_sndbuf (p : tcp_pcb) : Z := TCPWND16 (snd_buf (tx p)).
