(* ===== verification/TcpOut.v ===== *)
(** * TCP output ([tcp_out.c])

    Queueing of data and of SYN and FIN segments, the output of the queue within the
    peer's window, retransmission, and the control segments (ACK, RST, keepalive and
    window probes). *)
From Stdlib Require Import ZArith Lia.
From stdpp Require Import base list option numbers gmap.
From S2P Require Import Prelude Pbuf Chksum Lwip Tcp.

Section out.
Context `{Environment}.

(** ** Headers on the wire *)

Definition be16_bytes (n : Z) : list Z := le_split 2 (lwip_htons n).
Definition be32_bytes (n : Z) : list Z := le_split 4 (lwip_htonl n).

Definition header_bytes (o : out_segment) (chksum : Z) : list Z :=
  be16_bytes (o_src o) ++ be16_bytes (o_dest o) ++ be32_bytes (o_seqno o) ++ be32_bytes (o_ackno o) ++
  be16_bytes (u16 (Z.lor (Z.shiftl (o_hdrlen o) 12) (o_flags o))) ++ o_wnd o ++ le_split 2 chksum ++
  [0; 0] ++ o_opts o.

(** A heap that holds one pbuf with the given payload. *)
Definition one_pbuf (bytes : list Z) : heap :=
  mk_heap {[ 1%positive := mk_pbuf None (Some (mk_addr 1%positive 0)) (zlen bytes) (zlen bytes)
               (type_bits PBUF_RAM) 0 1 NETIF_NO_INDEX ]}
    {[ 1%positive := map Some bytes ]} 2%positive 0%nat 0%nat.

Definition IP_PROTO_TCP : Z := 6.

(** The checksum fields: [ip_chksum_pseudo] over the whole segment of a control
    segment, and for a queued segment the sum of the header added to the stored sum
    of the data. *)
Definition control_chksum (addr : Z) (o : out_segment) : outcome Z :=
  let bytes := header_bytes o 0 ++ o_data o in
  ip_chksum_pseudo (fun a => addr + a_off a) (one_pbuf bytes) (Some 1%positive) IP_PROTO_TCP
    (zlen bytes) (o_src_ip o) (o_dest_ip o).

Definition segment_chksum (addr : Z) (seg : tcp_seg) (o : out_segment) : outcome Z :=
  let bytes := header_bytes o 0 ++ o_data o in
  acc ← ip_chksum_pseudo_partial (fun a => addr + a_off a) (one_pbuf bytes) (Some 1%positive)
          IP_PROTO_TCP (zlen bytes) (u8 (o_hdrlen o * 4)) (o_src_ip o) (o_dest_ip o);
  let sum := if sg_chksum_swapped seg then SWAP_BYTES_IN_WORD (sg_chksum seg) else sg_chksum seg in
  let acc := u32 (u16 (Z.lnot acc) + sum) in
  Done (u16 (Z.lnot (FOLD_U32T acc))).

Definition set_chksum (o : out_segment) (c : Z) : out_segment :=
  mk_out (o_src_ip o) (o_dest_ip o) (o_src o) (o_dest o) (o_seqno o) (o_ackno o) (o_hdrlen o)
    (o_flags o) (o_wnd o) c (o_opts o) (o_data o) (o_ttl o) (o_tos o).

(** ** Interface and memory *)

Definition tcp_route : TM bool := ask env_route.
Definition granted : TM bool := ask env_grants.
Definition address : TM Z := ask env_address.

Definition ip_output_if (o : out_segment) : TM err_t :=
  r ← ask env_ip_output;
  _ ← emit (Output o r);
  mret r.

(** [nd6_get_destination_mtu]: the path MTU in the destination cache, or that of the
    interface. *)
Definition IP6_MIN_MTU_LENGTH : Z := 1280.

Fixpoint find_destination (dest : list Z) (cache : list (list Z * Z)) : option Z :=
  match cache with
  | [] => None
  | (a, pmtu) :: cache => if bool_decide (a = dest) then Some pmtu else find_destination dest cache
  end.

Definition nd6_get_destination_mtu (dest : list Z) (netif : bool) : Z :=
  match find_destination dest env_destination_cache with
  | Some pmtu => if 0 <? pmtu then pmtu
                 else if netif then env_netif_mtu6 else IP6_MIN_MTU_LENGTH
  | None => if netif then env_netif_mtu6 else IP6_MIN_MTU_LENGTH
  end.

Definition IP_HLEN : Z := 20.
Definition IP6_HLEN : Z := 40.

Definition tcp_eff_send_mss_netif (sendmss : Z) (outif : bool) (dest : ip_addr_t) : Z :=
  let bounded mtu :=
    if negb (mtu =? 0) then
      let offset := if IP_IS_V6 dest then IP6_HLEN + TCP_HLEN else IP_HLEN + TCP_HLEN in
      let mss_s := if offset <? mtu then u16 (mtu - offset) else 0 in
      Z.min sendmss mss_s
    else sendmss in
  if IP_IS_V6 dest then bounded (nd6_get_destination_mtu (u_addr dest) outif)
  else if outif then bounded env_netif_mtu else sendmss.

Definition tcp_eff_send_mss (sendmss : Z) (dest : ip_addr_t) : TM Z :=
  outif ← ask env_route;
  mret (tcp_eff_send_mss_netif sendmss outif dest).

(** ** Segments *)

(** [p] of the C code is given by its data (after the options) and its address. *)
Definition tcp_create_segment (addr : Z) (data : list Z) (hdrflags seqno optflags : Z)
    : TM (option tcp_seg) :=
  _ ← pcb_;
  let optlen := u8 (LWIP_TCP_OPT_LENGTH optflags) in
  ok ← granted;
  if (ok : bool) then
    _ ← LWIP_ASSERT (negb (has optflags TF_SEG_DATA_CHECKSUMMED));
    mret (Some (mk_seg optflags 0 0 false (u32 seqno) (5 + optlen / 4) hdrflags addr data 1))
  else mret None.

(** The spare room of the new pbuf and the address of its payload, or no memory. *)
Definition tcp_pbuf_prealloc (length max_length : Z) : TM (option (Z * Z)) :=
  let alloc := max_length in
  ok ← granted;
  if (ok : bool) then
    a ← address;
    mret (Some (u16 (alloc - length), a))
  else mret None.

Definition tcp_seg_add_chksum (chksum len seg_chksum : Z) (seg_chksum_swapped : bool) : Z * bool :=
  let helper := u32 (chksum + seg_chksum) in
  let chksum := u16 (FOLD_U32T helper) in
  if negb (Z.land len 1 =? 0) then (SWAP_BYTES_IN_WORD chksum, negb seg_chksum_swapped)
  else (chksum, seg_chksum_swapped).

(** [TCP_DATA_COPY2]: the sum of copied data, added to the sum so far. *)
Definition tcp_data_copy (addr : Z) (data : list Z) (chksum : Z) (swapped : bool) : Z * bool :=
  tcp_seg_add_chksum (lwip_chksum_copy addr data).2 (zlen data) chksum swapped.

Definition not_chksum (addr : Z) (data : list Z) : Z := u16 (Z.lnot (inet_chksum addr data)).

(** ** [tcp_write] *)

Definition queue_nonempty (p : tcp_pcb) : bool :=
  negb (bool_decide (unacked (tx p) = [])) || negb (bool_decide (unsent (tx p) = [])).

Definition tcp_write_checks (len : Z) : TM err_t :=
  p ← pcb_;
  if negb (state_is (pcb_state p) ESTABLISHED) && negb (state_is (pcb_state p) CLOSE_WAIT)
     && negb (state_is (pcb_state p) SYN_SENT) && negb (state_is (pcb_state p) SYN_RCVD)
  then mret ERR_CONN
  else if len =? 0 then mret ERR_OK
  else if snd_buf (tx p) <? len then
    _ ← tcp_set_flags TF_NAGLEMEMERR;
    mret ERR_MEM
  else if Z.min TCP_SND_QUEUELEN (TCP_SNDQUEUELEN_OVERFLOW + 1) <=? snd_queuelen (tx p) then
    _ ← tcp_set_flags TF_NAGLEMEMERR;
    mret ERR_MEM
  else
    _ ← LWIP_ASSERT (if negb (snd_queuelen (tx p) =? 0) then queue_nonempty p
                     else negb (queue_nonempty p));
    mret ERR_OK.

Definition update_last {A} (f : A -> A) (l : list A) : list A :=
  match last l with
  | Some a => take (length l - 1) l ++ [f a]
  | None => l
  end.

(** Phase 1: the room left at the end of the last unsent segment; the result is
    [oversize], what is used of it, and whether [seg] is that segment. *)
Definition tcp_write_oversize (mss_local len : Z) : TM (Z * Z * bool) :=
  p ← pcb_;
  match last (unsent (tx p)) with
  | Some last_unsent =>
      let unsent_optlen := LWIP_TCP_OPT_LENGTH (sg_flags last_unsent) in
      _ ← LWIP_ASSERT (sg_len last_unsent + unsent_optlen <=? mss_local);
      let space := u16 (mss_local - (sg_len last_unsent + unsent_optlen)) in
      _ ← LWIP_ASSERT (unsent_oversize (tx p) =? sg_oversize_left last_unsent);
      let oversize := unsent_oversize (tx p) in
      if 0 <? oversize then
        _ ← LWIP_ASSERT (oversize <=? space);
        let oversize_used := Z.min space (Z.min oversize len) in
        let oversize := u16 (oversize - oversize_used) in
        _ ← LWIP_ASSERT ((oversize =? 0) || (oversize_used =? len));
        mret (oversize, oversize_used, true)
      else
        _ ← LWIP_ASSERT ((oversize =? 0) || (0 =? len));
        mret (oversize, 0, false)
  | None =>
      _ ← LWIP_ASSERT (unsent_oversize (tx p) =? 0);
      mret (0, 0, false)
  end.

(** Phase 3: new segments for [data] from position [pos] on. The result is the queue,
    [oversize] and [queuelen], or no memory. *)
Fixpoint tcp_write_segments (fuel : nat) (mss_local : Z) (data : list Z) (pos : Z)
    (queue : list tcp_seg) (oversize queuelen : Z) : TM (option (list tcp_seg * Z * Z)) :=
  match fuel with
  | O => abort
  | S fuel =>
      let len := zlen data in
      if pos <? len then
        p ← pcb_;
        let optlen := LWIP_TCP_OPT_LENGTH 0 in
        let left := u16 (len - pos) in
        let max_len := u16 (mss_local - optlen) in
        let seglen := Z.min left max_len in
        r ← tcp_pbuf_prealloc (u16 (seglen + optlen)) mss_local;
        match r with
        | None => mret None
        | Some (oversize, addr) =>
            let bytes := ztake seglen (zdrop pos data) in
            let '(chksum, swapped) := tcp_data_copy (addr + optlen) bytes 0 false in
            let queuelen := u16 (queuelen + 1) in
            if Z.min TCP_SND_QUEUELEN TCP_SNDQUEUELEN_OVERFLOW <? queuelen then mret None
            else
              seg ← tcp_create_segment addr bytes 0 (u32 (snd_lbb (tx p) + pos)) 0;
              match seg with
              | None => mret None
              | Some seg =>
                  let seg := set_sg_flags (Z.lor (sg_flags seg) TF_SEG_DATA_CHECKSUMMED)
                               (set_sg_chksum_swapped swapped (set_sg_chksum chksum
                                  (set_sg_oversize_left oversize seg))) in
                  tcp_write_segments fuel mss_local data (u16 (pos + seglen)) (queue ++ [seg])
                    oversize queuelen
              end
        end
      else mret (Some (queue, oversize, queuelen))
  end.

(** Bytes added to the tail of the last unsent segment. *)
Definition extend_seg (bytes : list Z) (s : tcp_seg) : tcp_seg :=
  let '(chksum, swapped) :=
    tcp_data_copy (sg_addr s + sg_len s) bytes (sg_chksum s) (sg_chksum_swapped s) in
  set_sg_flags (Z.lor (sg_flags s) TF_SEG_DATA_CHECKSUMMED)
    (set_sg_oversize_left (u16 (sg_oversize_left s - zlen bytes))
      (set_sg_chksum_swapped swapped (set_sg_chksum chksum
        (set_sg_data (sg_data s ++ bytes) s)))).

(** [TCPH_SET_FLAG]: flags are added, never removed. *)
Definition TCPH_SET_FLAG (f : Z) (s : tcp_seg) : tcp_seg :=
  set_sg_hdrflags (Z.lor (sg_hdrflags s) f) s.

Definition tcp_write_fuel : nat := Z.to_nat (TCP_SND_QUEUELEN + 2).

Definition tcp_write_mss (p : tcp_pcb) : Z :=
  let mss_local := Z.min (mss (tx p)) (TCPWND_MIN16 (snd_wnd_max (tx p) / 2)) in
  if mss_local =? 0 then mss (tx p) else mss_local.

(** The end of [tcp_write]: everything that was prepared is committed. *)
Definition tcp_write_commit (data : list Z) (apiflags oversize oversize_used : Z) (seg_is_last : bool)
    (queue : list tcp_seg) (queuelen : Z) : TM unit :=
  p ← pcb_;
  let len := zlen data in
  _ ← when (0 <? oversize_used)
        (_ ← LWIP_ASSERT (match last (unsent (tx p)) with
                          | Some s => oversize_used <=? sg_oversize_left s
                          | None => false
                          end);
         upd_tx (fun s => set_unsent (update_last (extend_seg (ztake oversize_used data)) (unsent s)) s));
  _ ← upd_tx (set_unsent_oversize oversize);
  _ ← upd_tx (fun s => set_unsent (unsent s ++ queue) s);
  _ ← upd_tx (fun s => set_snd_lbb (u32 (snd_lbb s + len)) s);
  _ ← upd_tx (fun s => set_snd_buf (u32 (snd_buf s - len)) s);
  _ ← upd_tx (set_snd_queuelen queuelen);
  p ← pcb_;
  _ ← LWIP_ASSERT ((snd_queuelen (tx p) =? 0) || queue_nonempty p);
  _ ← when ((seg_is_last || negb (bool_decide (queue = []))) && negb (has apiflags TCP_WRITE_FLAG_MORE))
        (upd_tx (fun s => set_unsent (update_last (TCPH_SET_FLAG TCP_PSH) (unsent s)) s));
  emit (Written data).

Definition tcp_write (arg : option (list Z)) (apiflags : Z) : TM err_t :=
  p ← pcb_;
  let mss_local := tcp_write_mss p in
  let apiflags := u8 (Z.lor apiflags TCP_WRITE_FLAG_COPY) in
  match arg with
  | None => mret ERR_ARG
  | Some data =>
      let len := zlen data in
      err ← tcp_write_checks len;
      if negb (bool_decide (err = ERR_OK)) then mret err
      else
        '(oversize, oversize_used, seg_is_last) ← tcp_write_oversize mss_local len;
        r ← tcp_write_segments tcp_write_fuel mss_local data oversize_used [] oversize
              (snd_queuelen (tx p));
        match r with
        | Some (queue, oversize, queuelen) =>
            _ ← tcp_write_commit data apiflags oversize oversize_used seg_is_last queue queuelen;
            mret ERR_OK
        | None =>
            _ ← tcp_set_flags TF_NAGLEMEMERR;
            p ← pcb_;
            _ ← LWIP_ASSERT ((snd_queuelen (tx p) =? 0) || queue_nonempty p);
            mret ERR_MEM
        end
  end.

(** ** Splitting, FIN and SYN *)

Definition tcp_split_unsent_seg (split : Z) : TM err_t :=
  p ← pcb_;
  match unsent (tx p) with
  | [] => mret ERR_MEM
  | useg :: rest =>
      if split =? 0 then abort
      else if sg_len useg <=? split then mret ERR_OK
      else
        _ ← LWIP_ASSERT (split <=? mss (tx p));
        _ ← LWIP_ASSERT (0 <? sg_len useg);
        let optflags := Z.land (sg_flags useg) (Z.lnot TF_SEG_DATA_CHECKSUMMED) in
        let remainder := u16 (sg_len useg - split) in
        ok ← granted;
        if negb ok then mret ERR_MEM
        else
          addr ← address;
          let bytes := zdrop split (sg_data useg) in
          let '(chksum, swapped) := tcp_seg_add_chksum (not_chksum addr bytes) remainder 0 false in
          let split_flags := sg_hdrflags useg in
          let '(split_flags, remainder_flags) :=
            if has split_flags TCP_PSH
            then (u8 (Z.land split_flags (Z.lnot TCP_PSH)), TCP_PSH) else (split_flags, 0) in
          let '(split_flags, remainder_flags) :=
            if has split_flags TCP_FIN
            then (u8 (Z.land split_flags (Z.lnot TCP_FIN)), Z.lor remainder_flags TCP_FIN)
            else (split_flags, remainder_flags) in
          seg ← tcp_create_segment addr bytes remainder_flags (u32 (sg_seqno useg + split)) optflags;
          match seg with
          | None => mret ERR_MEM
          | Some seg =>
              let seg := set_sg_flags (Z.lor (sg_flags seg) TF_SEG_DATA_CHECKSUMMED)
                           (set_sg_chksum_swapped swapped (set_sg_chksum chksum seg)) in
              _ ← upd_tx (fun s => set_snd_queuelen (u16 (snd_queuelen s - 1)) s);
              let head := ztake split (sg_data useg) in
              let '(chksum, swapped) :=
                tcp_seg_add_chksum (not_chksum (sg_addr useg) head) (zlen head) 0 false in
              let useg := set_sg_chksum_swapped swapped (set_sg_chksum chksum
                            (set_sg_oversize_left 0
                              (TCPH_SET_FLAG split_flags (set_sg_data head useg)))) in
              _ ← upd_tx (fun s => set_snd_queuelen (u16 (snd_queuelen s + 1)) s);
              _ ← upd_tx (fun s => set_snd_queuelen (u16 (snd_queuelen s + 1)) s);
              _ ← upd_tx (set_unsent (useg :: seg :: rest));
              _ ← when (bool_decide (rest = [])) (upd_tx (set_unsent_oversize 0));
              mret ERR_OK
          end
  end.

Definition tcp_enqueue_flags (flags : Z) : TM err_t :=
  _ ← LWIP_ASSERT (has flags (Z.lor TCP_SYN TCP_FIN));
  p ← pcb_;
  let optflags :=
    if has flags TCP_SYN then
      Z.lor TF_SEG_OPTS_MSS
        (if negb (state_is (pcb_state p) SYN_RCVD) || has (pcb_flags p) TF_WND_SCALE
         then TF_SEG_OPTS_WND_SCALE else 0)
    else 0 in
  ok ← granted;
  if negb ok then
    _ ← tcp_set_flags TF_NAGLEMEMERR;
    mret ERR_MEM
  else
    addr ← address;
    seg ← tcp_create_segment addr [] flags (snd_lbb (tx p)) optflags;
    match seg with
    | None =>
        _ ← tcp_set_flags TF_NAGLEMEMERR;
        mret ERR_MEM
    | Some seg =>
        _ ← LWIP_ASSERT (sg_len seg =? 0);
        _ ← upd_tx (fun s => set_unsent (unsent s ++ [seg]) s);
        _ ← upd_tx (set_unsent_oversize 0);
        _ ← when (has flags TCP_SYN || has flags TCP_FIN)
              (upd_tx (fun s => set_snd_lbb (u32 (snd_lbb s + 1)) s));
        _ ← when (has flags TCP_FIN) (tcp_set_flags TF_FIN);
        _ ← upd_tx (fun s => set_snd_queuelen (u16 (snd_queuelen s + 1)) s);
        p ← pcb_;
        _ ← LWIP_ASSERT ((snd_queuelen (tx p) =? 0) || queue_nonempty p);
        mret ERR_OK
    end.

Definition tcp_send_fin : TM err_t :=
  p ← pcb_;
  match last (unsent (tx p)) with
  | Some last_unsent =>
      if negb (has (sg_hdrflags last_unsent) (Z.lor TCP_SYN (Z.lor TCP_FIN TCP_RST))) then
        _ ← upd_tx (fun s => set_unsent (update_last (TCPH_SET_FLAG TCP_FIN) (unsent s)) s);
        _ ← tcp_set_flags TF_FIN;
        mret ERR_OK
      else tcp_enqueue_flags TCP_FIN
  | None => tcp_enqueue_flags TCP_FIN
  end.

(** ** Control segments *)

Definition tcp_output_alloc_header_common (src_ip dest_ip : ip_addr_t) (ackno optlen : Z)
    (data : list Z) (seqno src_port dst_port flags wnd ttl tos : Z) : TM (option out_segment) :=
  ok ← granted;
  if (ok : bool) then
    mret (Some (mk_out src_ip dest_ip src_port dst_port (u32 seqno) (u32 ackno) (5 + optlen / 4)
                  flags (be16_bytes wnd) 0 [] data ttl tos))
  else mret None.

Definition tcp_output_alloc_header (optlen : Z) (data : list Z) (seqno : Z) : TM (option out_segment) :=
  p ← pcb_;
  let i := pcb_id p in
  o ← tcp_output_alloc_header_common (id_local_ip i) (id_remote_ip i) (rcv_nxt (rx p)) optlen data
        seqno (id_local_port i) (id_remote_port i) TCP_ACK
        (TCPWND_MIN16 (RCV_WND_SCALE p (rcv_ann_wnd (rx p)))) (id_ttl i) (id_tos i);
  _ ← when (bool_decide (is_Some o))
        (upd_rx (fun r => set_rcv_ann_right_edge (u32 (rcv_nxt r + rcv_ann_wnd r)) r));
  mret o.

Definition tcp_output_control_segment_netif (o : out_segment) : TM err_t :=
  addr ← address;
  c ← lift (control_chksum addr o);
  ip_output_if (set_chksum o c).

Definition tcp_output_control_segment (o : out_segment) : TM err_t :=
  netif ← tcp_route;
  if negb netif then mret ERR_RTE else tcp_output_control_segment_netif o.

(** [tcp_rst_common]. The window is converted to network byte order here, and again in
    [tcp_output_alloc_header_common]. *)
Definition tcp_rst_common (seqno ackno : Z) (local_ip remote_ip : ip_addr_t)
    (local_port remote_port ttl tos : Z) : TM (option out_segment) :=
  let optlen := LWIP_TCP_OPT_LENGTH 0 in
  let wnd := lwip_htons (Z.land (Z.shiftr TCP_WND TCP_RCV_SCALE) 0xFFFF) in
  tcp_output_alloc_header_common local_ip remote_ip ackno optlen [] seqno local_port remote_port
    (Z.lor TCP_RST TCP_ACK) wnd ttl tos.

Definition tcp_rst (seqno ackno : Z) (local_ip remote_ip : ip_addr_t) (local_port remote_port : Z)
    : TM unit :=
  p ← pcb_;
  o ← tcp_rst_common seqno ackno local_ip remote_ip local_port remote_port
        (id_ttl (pcb_id p)) (id_tos (pcb_id p));
  match o with
  | Some o => _ ← tcp_output_control_segment o; mret tt
  | None => mret tt
  end.

(** Without a pcb; [netif] says whether an interface is given. *)
Definition tcp_rst_netif (netif : bool) (seqno ackno : Z) (local_ip remote_ip : ip_addr_t)
    (local_port remote_port : Z) : TM unit :=
  if netif then
    o ← tcp_rst_common seqno ackno local_ip remote_ip local_port remote_port TCP_TTL 0;
    match o with
    | Some o => _ ← tcp_output_control_segment_netif o; mret tt
    | None => mret tt
    end
  else mret tt.

Definition tcp_send_empty_ack : TM err_t :=
  p ← pcb_;
  let optlen := LWIP_TCP_OPT_LENGTH 0 in
  o ← tcp_output_alloc_header optlen [] (snd_nxt (tx p));
  match o with
  | None =>
      _ ← tcp_set_flags (Z.lor TF_ACK_DELAY TF_ACK_NOW);
      mret ERR_BUF
  | Some o =>
      err ← tcp_output_control_segment o;
      _ ← (if negb (bool_decide (err = ERR_OK)) then tcp_set_flags (Z.lor TF_ACK_DELAY TF_ACK_NOW)
           else tcp_clear_flags (Z.lor TF_ACK_DELAY TF_ACK_NOW));
      mret err
  end.

Definition tcp_keepalive : TM err_t :=
  p ← pcb_;
  o ← tcp_output_alloc_header (LWIP_TCP_OPT_LENGTH 0) [] (u32 (snd_nxt (tx p) - 1));
  match o with
  | None => mret ERR_MEM
  | Some o => tcp_output_control_segment o
  end.

Definition tcp_zero_window_probe : TM err_t :=
  p ← pcb_;
  match unsent (tx p) with
  | [] => mret ERR_OK
  | seg :: _ =>
      _ ← upd_tm (fun t => if persist_probe t <? 0xFF then set_persist_probe (u8 (persist_probe t + 1)) t
                           else t);
      let is_fin := has (sg_hdrflags seg) TCP_FIN && (sg_len seg =? 0) in
      let len := if is_fin then 0 else 1 in
      o ← tcp_output_alloc_header (LWIP_TCP_OPT_LENGTH 0) (replicate (Z.to_nat len) (env_memory 0))
            (sg_seqno seg);
      match o with
      | None => mret ERR_MEM
      | Some o =>
          let o :=
            if is_fin
            then mk_out (o_src_ip o) (o_dest_ip o) (o_src o) (o_dest o) (o_seqno o) (o_ackno o)
                   (o_hdrlen o) (Z.lor TCP_ACK TCP_FIN) (o_wnd o) (o_chksum o) (o_opts o) (o_data o)
                   (o_ttl o) (o_tos o)
            else match ztake 1 (sg_data seg) with
                 | [] => o
                 | d => mk_out (o_src_ip o) (o_dest_ip o) (o_src o) (o_dest o) (o_seqno o) (o_ackno o)
                          (o_hdrlen o) (o_flags o) (o_wnd o) (o_chksum o) (o_opts o) d
                          (o_ttl o) (o_tos o)
                 end in
          let snd_nxt' := u32 (sg_seqno seg + 1) in
          _ ← upd_tx (fun s => if TCP_SEQ_LT (snd_nxt s) snd_nxt' then set_snd_nxt snd_nxt' s else s);
          tcp_output_control_segment o
      end
  end.

(** ** Output of the queue *)

Definition tcp_do_output_nagle (p : tcp_pcb) : bool :=
  bool_decide (unacked (tx p) = []) || has (pcb_flags p) (Z.lor TF_NODELAY TF_INFR) ||
  match unsent (tx p) with
  | [] => false
  | s :: rest => negb (bool_decide (rest = [])) || (mss (tx p) <=? sg_len s)
  end || ((tcp_sndbuf p =? 0) || (TCP_SND_QUEUELEN <=? snd_queuelen (tx p))).

Definition tcp_output_segment_busy (seg : tcp_seg) : bool := negb (sg_ref seg =? 1).

Definition TCP_BUILD_MSS_OPTION (m : Z) : list Z := be32_bytes (Z.lor 0x02040000 (Z.land m 0xFFFF)).
Definition tcp_build_wnd_scale_option : list Z := be32_bytes (Z.lor 0x01030300 TCP_RCV_SCALE).

Definition tcp_output_segment (seg : tcp_seg) : TM err_t :=
  if tcp_output_segment_busy seg then mret ERR_OK
  else
    p ← pcb_;
    let wnd := if has (sg_flags seg) TF_SEG_OPTS_WND_SCALE then TCPWND_MIN16 (rcv_ann_wnd (rx p))
               else TCPWND_MIN16 (RCV_WND_SCALE p (rcv_ann_wnd (rx p))) in
    _ ← upd_rx (fun r => set_rcv_ann_right_edge (u32 (rcv_nxt r + rcv_ann_wnd r)) r);
    let opts :=
      (if has (sg_flags seg) TF_SEG_OPTS_MSS
       then TCP_BUILD_MSS_OPTION (tcp_eff_send_mss_netif TCP_MSS true (id_remote_ip (pcb_id p)))
       else []) ++
      (if has (sg_flags seg) TF_SEG_OPTS_WND_SCALE then tcp_build_wnd_scale_option else []) in
    _ ← upd_tm (fun t => if rtime t <? 0 then set_rtime 0 t else t);
    ticks ← gets c_ticks;
    _ ← upd_cc (fun g => if rttest g =? 0 then set_rtseq (sg_seqno seg) (set_rttest ticks g) else g);
    _ ← LWIP_ASSERT (zlen opts =? LWIP_TCP_OPT_LENGTH (sg_flags seg));
    let i := pcb_id p in
    let o := mk_out (id_local_ip i) (id_remote_ip i) (id_local_port i) (id_remote_port i)
               (sg_seqno seg) (rcv_nxt (rx p)) (sg_hdrlen seg) (sg_hdrflags seg) (be16_bytes wnd) 0
               opts (sg_data seg) (id_ttl i) (id_tos i) in
    _ ← LWIP_ASSERT (has (sg_flags seg) TF_SEG_DATA_CHECKSUMMED
                     || (TCP_HLEN + zlen opts + sg_len seg =? sg_hdrlen seg * 4));
    c ← lift (segment_chksum (sg_addr seg - (TCP_HLEN + zlen opts)) seg o);
    ip_output_if (set_chksum o c).

(** The list stays ordered by sequence number. *)
Fixpoint insert_before (seg : tcp_seg) (l : list tcp_seg) : list tcp_seg :=
  match l with
  | [] => [seg]
  | cur :: l => if TCP_SEQ_LT (sg_seqno cur) (sg_seqno seg) then cur :: insert_before seg l
                else seg :: cur :: l
  end.

Definition queue_unacked (seg : tcp_seg) (l : list tcp_seg) : list tcp_seg :=
  match last l with
  | None => [seg]
  | Some useg => if TCP_SEQ_LT (sg_seqno seg) (sg_seqno useg) then insert_before seg l else l ++ [seg]
  end.

Definition fits_window (p : tcp_pcb) (seg : tcp_seg) (wnd : Z) : bool :=
  u32 (u32 (sg_seqno seg - lastack (tx p)) + sg_len seg) <=? wnd.

(** The loop of [tcp_output]; the result is the error of a segment that could not be
    sent. *)
Fixpoint tcp_output_loop (fuel : nat) (wnd : Z) : TM (option err_t) :=
  match fuel with
  | O => abort
  | S fuel =>
      p ← pcb_;
      match unsent (tx p) with
      | [] => mret None
      | seg :: rest =>
          if negb (fits_window p seg wnd) then mret None
          else
            _ ← LWIP_ASSERT (negb (has (sg_hdrflags seg) TCP_RST));
            if negb (tcp_do_output_nagle p) && negb (has (pcb_flags p) (Z.lor TF_NAGLEMEMERR TF_FIN))
            then mret None
            else
              let seg := if negb (state_is (pcb_state p) SYN_SENT) then TCPH_SET_FLAG TCP_ACK seg
                         else seg in
              _ ← upd_tx (set_unsent (seg :: rest));
              err ← tcp_output_segment seg;
              if negb (bool_decide (err = ERR_OK)) then
                _ ← tcp_set_flags TF_NAGLEMEMERR;
                mret (Some err)
              else
                let seg := set_sg_oversize_left 0 seg in
                _ ← upd_tx (set_unsent rest);
                _ ← when (negb (state_is (pcb_state p) SYN_SENT))
                      (tcp_clear_flags (Z.lor TF_ACK_DELAY TF_ACK_NOW));
                let snd_nxt' := u32 (sg_seqno seg + TCP_TCPLEN seg) in
                _ ← upd_tx (fun s => if TCP_SEQ_LT (snd_nxt s) snd_nxt' then set_snd_nxt snd_nxt' s else s);
                _ ← when (0 <? TCP_TCPLEN seg)
                      (upd_tx (fun s => set_unacked (queue_unacked seg (unacked s)) s));
                tcp_output_loop fuel wnd
      end
  end.

Definition output_done : TM err_t :=
  _ ← tcp_clear_flags TF_NAGLEMEMERR;
  mret ERR_OK.

Definition tcp_output : TM err_t :=
  p ← pcb_;
  _ ← LWIP_ASSERT (negb (state_is (pcb_state p) LISTEN));
  inp ← gets c_input_pcb;
  if (inp : bool) then mret ERR_OK
  else
    let wnd := snd_wnd (tx p) in
    match unsent (tx p) with
    | [] => if has (pcb_flags p) TF_ACK_NOW then tcp_send_empty_ack else output_done
    | seg :: rest =>
        netif ← tcp_route;
        if negb netif then mret ERR_RTE
        else
          ok ← (if ip_addr_isany (id_local_ip (pcb_id p)) then
                  match env_local_ip (id_remote_ip (pcb_id p)) with
                  | None => mret false
                  | Some a => _ ← upd_id (set_local_ip a); mret true
                  end
                else mret true);
          if negb ok then mret ERR_RTE
          else if negb (fits_window p seg wnd) then
            _ ← when (bool_decide (unacked (tx p) = []) && (persist_backoff (tm p) =? 0))
                  (upd_tm (fun t => set_persist_probe 0 (set_persist_backoff 1 (set_persist_cnt 0 t))));
            if has (pcb_flags p) TF_ACK_NOW then tcp_send_empty_ack else output_done
          else
            _ ← upd_tm (set_persist_backoff 0);
            r ← tcp_output_loop (S (length (unsent (tx p)))) wnd;
            match r with
            | Some err => mret err
            | None =>
                _ ← upd_tx (fun s => match unsent s with [] => set_unsent_oversize 0 s | _ => s end);
                output_done
            end
    end.

(** ** Retransmission *)

Definition tcp_rexmit_rto_prepare : TM err_t :=
  p ← pcb_;
  match last (unacked (tx p)) with
  | None => mret ERR_VAL
  | Some seg =>
      if existsb tcp_output_segment_busy (unacked (tx p)) then mret ERR_VAL
      else
        _ ← upd_tx (fun s => match unsent s with
                             | [] => set_unsent_oversize (sg_oversize_left seg) s
                             | _ => s
                             end);
        _ ← upd_tx (fun s => set_unacked [] (set_unsent (unacked s ++ unsent s) s));
        _ ← tcp_set_flags TF_RTO;
        _ ← upd_tx (set_rto_end (u32 (sg_seqno seg + TCP_TCPLEN seg)));
        _ ← upd_cc (set_rttest 0);
        mret ERR_OK
  end.

Definition tcp_rexmit_rto_commit : TM unit :=
  _ ← upd_cc (fun g => if nrtx g <? 0xFF then set_nrtx (u8 (nrtx g + 1)) g else g);
  _ ← tcp_output;
  mret tt.

Definition tcp_rexmit_rto : TM unit :=
  err ← tcp_rexmit_rto_prepare;
  when (bool_decide (err = ERR_OK)) tcp_rexmit_rto_commit.

Definition tcp_rexmit : TM err_t :=
  p ← pcb_;
  match unacked (tx p) with
  | [] => mret ERR_VAL
  | seg :: rest =>
      if tcp_output_segment_busy seg then mret ERR_VAL
      else
        _ ← upd_tx (set_unacked rest);
        let unsent' := insert_before seg (unsent (tx p)) in
        _ ← upd_tx (set_unsent unsent');
        _ ← when (forallb (fun cur => TCP_SEQ_LT (sg_seqno cur) (sg_seqno seg)) (unsent (tx p)))
              (upd_tx (set_unsent_oversize 0));
        _ ← upd_cc (fun g => if nrtx g <? 0xFF then set_nrtx (u8 (nrtx g + 1)) g else g);
        _ ← upd_cc (set_rttest 0);
        mret ERR_OK
  end.

Definition tcp_rexmit_fast : TM unit :=
  p ← pcb_;
  if negb (bool_decide (unacked (tx p) = [])) && negb (has (pcb_flags p) TF_INFR) then
    err ← tcp_rexmit;
    when (bool_decide (err = ERR_OK))
      (_ ← upd_cc (fun g =>
             let ssthresh' := Z.min (cwnd g) (snd_wnd (tx p)) / 2 in
             let ssthresh' := if ssthresh' <? 2 * mss (tx p) then 2 * mss (tx p) else ssthresh' in
             set_cwnd (u32 (ssthresh' + 3 * mss (tx p))) (set_ssthresh ssthresh' g));
       _ ← tcp_set_flags TF_INFR;
       upd_tm (set_rtime 0))
  else mret tt.

End out.
