(* ===== verification/TcpApi.v ===== *)
(** * The TCP interface of the application ([tcp.c])

    Closing, aborting and shutting down a connection, the receive window, the events
    that call the application back, and the data it refused. A callback is a program
    over this interface ([app_prog]), so a callback may write, close or abort the
    connection it is called for. *)
From Stdlib Require Import ZArith Lia.
From stdpp Require Import base list option numbers.
From S2P Require Import Prelude Pbuf Chksum Lwip Tcp TcpOut.

Section api.
Context `{Environment}.

(** ** Lists, purging and freeing *)

Definition TCP_RMV (l : pcb_list) : TM unit :=
  modify (fun c => if bool_decide (c_list c = l) then set_list NoList c else c).
Definition TCP_REG (l : pcb_list) : TM unit := modify (set_list l).
Definition TCP_RMV_ACTIVE : TM unit :=
  _ ← TCP_RMV ActiveList;
  modify (set_changed true).
Definition TCP_REG_ACTIVE : TM unit :=
  _ ← TCP_REG ActiveList;
  modify (set_changed true).

Definition tcp_free : TM unit :=
  p ← pcb_;
  _ ← LWIP_ASSERT (negb (state_is (pcb_state p) LISTEN));
  modify (set_live false).

Definition tcp_pcb_purge : TM unit :=
  p ← pcb_;
  if negb (state_is (pcb_state p) CLOSED) && negb (state_is (pcb_state p) TIME_WAIT)
     && negb (state_is (pcb_state p) LISTEN) then
    _ ← match refused_data (rx p) with
        | Some d => _ ← emit (DataFreed (rp_data d)); upd_rx (set_refused_data None)
        | None => mret tt
        end;
    _ ← upd_tm (set_rtime (-1));
    _ ← upd_tx (fun s => set_unacked [] (set_unsent [] s));
    upd_tx (set_unsent_oversize 0)
  else mret tt.

Definition tcp_pcb_remove (l : pcb_list) : TM unit :=
  _ ← TCP_RMV l;
  _ ← tcp_pcb_purge;
  p ← pcb_;
  _ ← when (negb (state_is (pcb_state p) TIME_WAIT) && negb (state_is (pcb_state p) LISTEN)
            && has (pcb_flags p) TF_ACK_DELAY)
        (_ ← tcp_ack_now; _ ← tcp_output; mret tt);
  p ← pcb_;
  _ ← when (negb (state_is (pcb_state p) LISTEN))
        (LWIP_ASSERT (bool_decide (unsent (tx p) = []) && bool_decide (unacked (tx p) = [])));
  _ ← upd_pcb (set_state CLOSED);
  upd_id (set_local_port 0).

Definition TCP_PCB_REMOVE_ACTIVE : TM unit :=
  _ ← tcp_pcb_remove ActiveList;
  modify (set_changed true).

(** [TCP_EVENT_ERR]: the error callback gets no pcb. *)
Definition TCP_EVENT_ERR (errf : bool) (arg : Z) (e : err_t) : TM unit :=
  when errf (emit (ErrCall arg e)).

Definition tcp_abandon (reset : bool) : TM unit :=
  p ← pcb_;
  _ ← LWIP_ASSERT (negb (state_is (pcb_state p) LISTEN));
  if state_is (pcb_state p) TIME_WAIT then
    _ ← tcp_pcb_remove TimeWaitList;
    tcp_free
  else
    let seqno := snd_nxt (tx p) in
    let ackno := rcv_nxt (rx p) in
    let errf := cb_errf (cb p) in
    let errf_arg := callback_arg (cb p) in
    '(send_rst, local_port) ←
      (if state_is (pcb_state p) CLOSED then
         _ ← when (negb (id_local_port (pcb_id p) =? 0)) (TCP_RMV BoundList);
         mret (false, 0)
       else
         _ ← TCP_PCB_REMOVE_ACTIVE;
         mret (reset, id_local_port (pcb_id p)));
    _ ← when send_rst
          (p ← pcb_;
           tcp_rst seqno ackno (id_local_ip (pcb_id p)) (id_remote_ip (pcb_id p)) local_port
             (id_remote_port (pcb_id p)));
    _ ← tcp_free;
    TCP_EVENT_ERR errf errf_arg ERR_ABRT.

Definition tcp_abort : TM unit := tcp_abandon true.

(** ** Closing *)

Definition tcp_close_shutdown_fin : TM err_t :=
  p ← pcb_;
  let finish err :=
    if bool_decide (err = ERR_OK) then _ ← tcp_output; mret ERR_OK
    else if bool_decide (err = ERR_MEM) then _ ← tcp_set_flags TF_CLOSEPEND; mret ERR_OK
    else mret err in
  match pcb_state p with
  | SYN_RCVD | ESTABLISHED =>
      err ← tcp_send_fin;
      _ ← when (bool_decide (err = ERR_OK)) (upd_pcb (set_state FIN_WAIT_1));
      finish err
  | CLOSE_WAIT =>
      err ← tcp_send_fin;
      _ ← when (bool_decide (err = ERR_OK)) (upd_pcb (set_state LAST_ACK));
      finish err
  | _ => mret ERR_OK
  end.

Definition tcp_trigger_input_pcb_close : TM unit :=
  upd_in (fun i => set_recv_flags (Z.lor (recv_flags i) TF_CLOSED) i).

(** What [tcp_close_shutdown] does by state; a listening pcb is not a connection. *)
Definition tcp_close_by_state : TM err_t :=
  p ← pcb_;
  match pcb_state p with
  | CLOSED =>
      _ ← when (negb (id_local_port (pcb_id p) =? 0)) (TCP_RMV BoundList);
      _ ← tcp_free;
      mret ERR_OK
  | LISTEN => abort
  | SYN_SENT =>
      _ ← TCP_PCB_REMOVE_ACTIVE;
      _ ← tcp_free;
      mret ERR_OK
  | _ => tcp_close_shutdown_fin
  end.

Definition tcp_close_shutdown (rst_on_unacked_data : bool) : TM err_t :=
  p ← pcb_;
  if rst_on_unacked_data && (state_is (pcb_state p) ESTABLISHED || state_is (pcb_state p) CLOSE_WAIT)
     && (bool_decide (is_Some (refused_data (rx p))) || negb (rcv_wnd (rx p) =? TCP_WND_MAX p))
  then
    _ ← LWIP_ASSERT (has (pcb_flags p) TF_RXCLOSED);
    let i := pcb_id p in
    _ ← tcp_rst (snd_nxt (tx p)) (rcv_nxt (rx p)) (id_local_ip i) (id_remote_ip i)
          (id_local_port i) (id_remote_port i);
    _ ← tcp_pcb_purge;
    _ ← TCP_RMV_ACTIVE;
    inp ← gets c_input_pcb;
    _ ← (if (inp : bool) then tcp_trigger_input_pcb_close else tcp_free);
    mret ERR_OK
  else tcp_close_by_state.

Definition tcp_close : TM err_t :=
  p ← pcb_;
  _ ← when (negb (state_is (pcb_state p) LISTEN)) (tcp_set_flags TF_RXCLOSED);
  tcp_close_shutdown true.

Definition tcp_shutdown (shut_rx shut_tx : bool) : TM err_t :=
  p ← pcb_;
  if state_is (pcb_state p) LISTEN then mret ERR_CONN
  else
    let shut_tx_only :=
      if shut_tx then
        p ← pcb_;
        match pcb_state p with
        | SYN_RCVD | ESTABLISHED | CLOSE_WAIT => tcp_close_shutdown shut_rx
        | _ => mret ERR_CONN
        end
      else mret ERR_OK in
    if shut_rx then
      _ ← tcp_set_flags TF_RXCLOSED;
      if shut_tx then tcp_close_shutdown true
      else
        _ ← match refused_data (rx p) with
            | Some d => _ ← emit (DataFreed (rp_data d)); upd_rx (set_refused_data None)
            | None => mret tt
            end;
        shut_tx_only
    else shut_tx_only.

(** ** The receive window *)

(** The new announced window, and how much the right edge would advance. *)
Definition new_rcv_ann_wnd (p : tcp_pcb) : Z * Z :=
  let r := rx p in
  let new_right_edge := u32 (rcv_nxt r + rcv_wnd r) in
  if TCP_SEQ_GEQ new_right_edge (u32 (rcv_ann_right_edge r + Z.min (TCP_WND / 2) (mss (tx p)))) then
    (rcv_wnd r, u32 (new_right_edge - rcv_ann_right_edge r))
  else if TCP_SEQ_GT (rcv_nxt r) (rcv_ann_right_edge r) then (0, 0)
  else (u32 (rcv_ann_right_edge r - rcv_nxt r), 0).

Definition tcp_update_rcv_ann_wnd : TM Z :=
  p ← pcb_;
  let '(w, inflation) := new_rcv_ann_wnd p in
  _ ← upd_rx (set_rcv_ann_wnd w);
  mret inflation.

Definition tcp_recved (len : Z) : TM unit :=
  p ← pcb_;
  _ ← LWIP_ASSERT (negb (state_is (pcb_state p) LISTEN));
  let w := u32 (rcv_wnd (rx p) + len) in
  _ ← (if (TCP_WND_MAX p <? w) || (w <? rcv_wnd (rx p))
       then upd_rx (set_rcv_wnd (TCP_WND_MAX p))
       else upd_rx (set_rcv_wnd w));
  wnd_inflation ← tcp_update_rcv_ann_wnd;
  when (TCP_WND_UPDATE_THRESHOLD <=? wnd_inflation)
    (_ ← tcp_ack_now; _ ← tcp_output; mret tt).

(** ** Callbacks *)

(** [tcp_arg], [tcp_recv], [tcp_sent], [tcp_err], [tcp_poll], [tcp_nagle_disable] *)
Definition apply_setting (s : setting) : TM unit :=
  p ← pcb_;
  let not_listening := LWIP_ASSERT (negb (state_is (pcb_state p) LISTEN)) in
  match s with
  | Arg arg => upd_cb (set_callback_arg arg)
  | Recv f => _ ← not_listening; upd_cb (set_cb_recv f)
  | Sent on => _ ← not_listening; upd_cb (set_cb_sent on)
  | Err on => _ ← not_listening; upd_cb (set_cb_errf on)
  | Poll on interval =>
      _ ← not_listening;
      _ ← upd_cb (set_cb_poll on);
      upd_tm (set_pollinterval interval)
  | NagleDisable => tcp_set_flags TF_NODELAY
  end.

(** The application runs its program. *)
Fixpoint run_app (a : app_prog) : TM err_t :=
  match a with
  | Return e => mret e
  | Write data apiflags k => e ← tcp_write (Some data) apiflags; run_app (k e)
  | OutputNow k => e ← tcp_output; run_app (k e)
  | Recved len k => _ ← tcp_recved (u16 len); run_app k
  | Set_ s k => _ ← apply_setting s; run_app k
  | Shutdown r t k => e ← tcp_shutdown r t; run_app (k e)
  | Close k => e ← tcp_close; run_app (k e)
  | Abort k => _ ← tcp_abort; run_app k
  end.

(** A call of the application, recorded with its answer. *)
Definition call_app (a : list event -> app_prog) (e : err_t -> event) : TM err_t :=
  trace ← gets c_trace;
  r ← run_app (a trace);
  _ ← emit (e r);
  mret r.

(** [tcp_recv_null], with data and without. *)
Definition tcp_recv_null (d : option (list Z)) : TM err_t :=
  match d with
  | Some data =>
      _ ← tcp_recved (zlen data);
      _ ← emit (DefaultRecv data);
      mret ERR_OK
  | None => tcp_close
  end.

Definition TCP_EVENT_RECV (data : list Z) : TM err_t :=
  p ← pcb_;
  match cb_recv (cb p) with
  | Some app_recv_fn =>
      call_app (fun t => on_recv env_app (callback_arg (cb p)) t (Some data)) (RecvCall (callback_arg (cb p)) data)
  | Some tcp_recv_null_fn | None => tcp_recv_null (Some data)
  end.

Definition TCP_EVENT_CLOSED : TM err_t :=
  p ← pcb_;
  match cb_recv (cb p) with
  | Some app_recv_fn => call_app (fun t => on_recv env_app (callback_arg (cb p)) t None) (ClosedCall (callback_arg (cb p)))
  | Some tcp_recv_null_fn => tcp_recv_null None
  | None => mret ERR_OK
  end.

Definition TCP_EVENT_SENT (space : Z) : TM err_t :=
  p ← pcb_;
  if cb_sent (cb p)
  then call_app (fun t => on_sent env_app (callback_arg (cb p)) t space) (SentCall (callback_arg (cb p)) space)
  else mret ERR_OK.

Definition TCP_EVENT_CONNECTED : TM err_t :=
  p ← pcb_;
  if cb_connected (cb p)
  then call_app (on_connected env_app) (ConnectedCall (callback_arg (cb p)))
  else mret ERR_OK.

Definition TCP_EVENT_POLL : TM err_t :=
  p ← pcb_;
  if cb_poll (cb p) then call_app (on_poll env_app) (PollCall (callback_arg (cb p)))
  else mret ERR_OK.

(** [TCP_EVENT_ACCEPT] for the connection's listener. *)
Definition tcp_accept_null : TM err_t :=
  _ ← tcp_abort;
  mret ERR_ABRT.

Definition TCP_EVENT_ACCEPT (accept : option accept_fn) : TM err_t :=
  p ← pcb_;
  match accept with
  | Some app_accept_fn => call_app (on_accept env_app) (AcceptCall (callback_arg (cb p)))
  | Some tcp_accept_null_fn => tcp_accept_null
  | None => mret ERR_ARG
  end.

(** A FIN's sequence number is given back to the window, since the application does
    not call [tcp_recved] for it. *)
Definition reopen_for_fin : TM unit :=
  p ← pcb_;
  when (negb (rcv_wnd (rx p) =? TCP_WND_MAX p)) (upd_rx (fun r => set_rcv_wnd (u32 (rcv_wnd r + 1)) r)).

Definition tcp_process_refused_data : TM err_t :=
  p ← pcb_;
  match refused_data (rx p) with
  | None => abort
  | Some refused =>
      _ ← upd_rx (set_refused_data None);
      err ← TCP_EVENT_RECV (rp_data refused);
      if bool_decide (err = ERR_OK) then
        if has (rp_flags refused) PBUF_FLAG_TCP_FIN then
          _ ← reopen_for_fin;
          err ← TCP_EVENT_CLOSED;
          if bool_decide (err = ERR_ABRT) then mret ERR_ABRT else mret ERR_OK
        else mret ERR_OK
      else if bool_decide (err = ERR_ABRT) then mret ERR_ABRT
      else
        _ ← upd_rx (set_refused_data (Some refused));
        mret ERR_INPROGRESS
  end.

End api.
