(* ===== verification/TcpIn.v ===== *)
(** * TCP input and timers ([tcp_in.c], [tcp.c])

    The options of a segment, the acknowledgement and data processing of
    [tcp_receive], the state machine of [tcp_process], and what [tcp_input] does with
    a segment for a connection, for a connection in TIME-WAIT and for a listener; what
    the slow and the fast timer do with one connection. *)
From Stdlib Require Import ZArith Lia.
From stdpp Require Import base list option numbers.
From S2P Require Import Prelude Pbuf Chksum Lwip Tcp TcpOut TcpApi.

Section input.
Context `{Environment}.

(** ** Options *)

Definition LWIP_TCP_OPT_EOL : Z := 0.
Definition LWIP_TCP_OPT_NOP : Z := 1.
Definition LWIP_TCP_OPT_MSS : Z := 2.
Definition LWIP_TCP_OPT_WS : Z := 3.
Definition LWIP_TCP_OPT_LEN_MSS : Z := 4.
Definition LWIP_TCP_OPT_LEN_WS : Z := 3.

(** [tcp_get_next_optbyte] at [tcp_optidx]; past the options lies other memory. *)
Definition tcp_get_next_optbyte (opts : list Z) (optidx : Z) : Z :=
  match opts !! Z.to_nat optidx with Some b => b | None => u8 (env_memory optidx) end.

Definition opt_mss (high low : Z) : Z :=
  let m := Z.lor (u16 (Z.shiftl high 8)) low in
  if (TCP_MSS <? m) || (m =? 0) then TCP_MSS else m.

Definition use_window_scale (data : Z) : TM unit :=
  i ← in_;
  p ← pcb_;
  when (has (in_flags i) TCP_SYN && negb (has (pcb_flags p) TF_WND_SCALE))
    (_ ← upd_tx (set_snd_scale (if 14 <? data then 14 else data));
     _ ← upd_rx (set_rcv_scale TCP_RCV_SCALE);
     _ ← tcp_set_flags TF_WND_SCALE;
     _ ← LWIP_ASSERT (rcv_wnd (rx p) =? TCPWND_MIN16 TCP_WND);
     _ ← LWIP_ASSERT (rcv_ann_wnd (rx p) =? TCPWND_MIN16 TCP_WND);
     upd_rx (fun r => set_rcv_ann_wnd TCP_WND (set_rcv_wnd TCP_WND r))).

Fixpoint parseopt_loop (fuel : nat) (opts : list Z) (optidx : Z) : TM unit :=
  match fuel with
  | O => abort
  | S fuel =>
      let optlen := zlen opts in
      if optidx <? optlen then
        let opt := tcp_get_next_optbyte opts optidx in
        let optidx := u16 (optidx + 1) in
        if opt =? LWIP_TCP_OPT_EOL then mret tt
        else if opt =? LWIP_TCP_OPT_NOP then parseopt_loop fuel opts optidx
        else if opt =? LWIP_TCP_OPT_MSS then
          let len := tcp_get_next_optbyte opts optidx in
          let optidx := u16 (optidx + 1) in
          if negb (len =? LWIP_TCP_OPT_LEN_MSS) || (optlen <? optidx - 2 + LWIP_TCP_OPT_LEN_MSS)
          then mret tt
          else
            let high := tcp_get_next_optbyte opts optidx in
            let low := tcp_get_next_optbyte opts (u16 (optidx + 1)) in
            _ ← upd_tx (set_mss (opt_mss high low));
            parseopt_loop fuel opts (u16 (optidx + 2))
        else if opt =? LWIP_TCP_OPT_WS then
          let len := tcp_get_next_optbyte opts optidx in
          let optidx := u16 (optidx + 1) in
          if negb (len =? LWIP_TCP_OPT_LEN_WS) || (optlen <? optidx - 2 + LWIP_TCP_OPT_LEN_WS)
          then mret tt
          else
            _ ← use_window_scale (tcp_get_next_optbyte opts optidx);
            parseopt_loop fuel opts (u16 (optidx + 1))
        else
          let data := tcp_get_next_optbyte opts optidx in
          let optidx := u16 (optidx + 1) in
          if data <? 2 then mret tt
          else parseopt_loop fuel opts (u16 (optidx + (data - 2)))
      else mret tt
  end.

Definition tcp_parseopt : TM unit :=
  i ← in_;
  if negb (zlen (in_opts i) =? 0)
  then parseopt_loop (S (length (in_opts i))) (in_opts i) 0
  else mret tt.

(** ** Acknowledgements *)

(** Segments acknowledged by [ackno] leave the front of the list. *)
Fixpoint tcp_free_acked_segments (seg_list other : list tcp_seg) : TM (list tcp_seg) :=
  match seg_list with
  | [] => mret []
  | next :: rest =>
      i ← in_;
      if TCP_SEQ_LEQ (u32 (sg_seqno next + TCP_TCPLEN next)) (in_ackno i) then
        let clen := 1 in
        p ← pcb_;
        _ ← LWIP_ASSERT (clen <=? snd_queuelen (tx p));
        _ ← upd_tx (fun s => set_snd_queuelen (u16 (snd_queuelen s - clen)) s);
        _ ← upd_in (fun i => set_recv_acked (u32 (recv_acked i + sg_len next)) i);
        p ← pcb_;
        _ ← LWIP_ASSERT ((snd_queuelen (tx p) =? 0)
                         || (negb (bool_decide (rest = [])) || negb (bool_decide (other = []))));
        tcp_free_acked_segments rest other
      else mret seg_list
  end.

Definition update_window : TM unit :=
  i ← in_;
  p ← pcb_;
  let t := tx p in
  let wnd := u32 (SND_WND_SCALE p (in_wnd i)) in
  when (TCP_SEQ_LT (snd_wl1 t) (in_seqno i)
        || ((snd_wl1 t =? in_seqno i) && TCP_SEQ_LT (snd_wl2 t) (in_ackno i))
        || ((snd_wl2 t =? in_ackno i) && (snd_wnd t <? wnd)))
    (upd_tx (fun s => set_snd_wl2 (in_ackno i) (set_snd_wl1 (in_seqno i)
               (set_snd_wnd_max (if snd_wnd_max s <? wnd then wnd else snd_wnd_max s)
                 (set_snd_wnd wnd s))))).

(** An acknowledgement of nothing new. *)
Definition duplicate_ack (right_wnd_edge : Z) : TM unit :=
  i ← in_;
  p ← pcb_;
  let t := tx p in
  if (tcplen i =? 0) && (u32 (snd_wl2 t + snd_wnd t) =? right_wnd_edge) && (0 <=? rtime (tm p))
     && (lastack t =? in_ackno i) then
    _ ← upd_cc (fun g => if dupacks g <? u8 (dupacks g + 1) then set_dupacks (u8 (dupacks g + 1)) g else g);
    _ ← upd_cc (fun g => if 3 <? dupacks g then set_cwnd (TCP_WND_INC (cwnd g) (mss t)) g else g);
    p ← pcb_;
    when (3 <=? dupacks (cc p)) tcp_rexmit_fast
  else mret tt.

(** The congestion window after [acked] new bytes. *)
Definition grow_cwnd (p : tcp_pcb) (acked : Z) (g : congestion) : congestion :=
  if cwnd g <? ssthresh g then
    let num_seg := if has (pcb_flags p) TF_RTO then 1 else 2 in
    let increase := Z.min acked (num_seg * mss (tx p)) in
    set_cwnd (TCP_WND_INC (cwnd g) increase) g
  else
    let b := TCP_WND_INC (bytes_acked g) acked in
    if cwnd g <=? b then set_cwnd (TCP_WND_INC (cwnd g) (mss (tx p))) (set_bytes_acked (u32 (b - cwnd g)) g)
    else set_bytes_acked b g.

(** An acknowledgement of new data: the congestion state, *)
Definition ack_congestion (ackno : Z) : TM unit :=
  p ← pcb_;
  _ ← when (has (pcb_flags p) TF_INFR)
        (_ ← tcp_clear_flags TF_INFR;
         upd_cc (fun g => set_bytes_acked 0 (set_cwnd (ssthresh g) g)));
  _ ← upd_cc (set_nrtx 0);
  _ ← upd_cc (fun g => set_rto (s16 (Z.shiftr (sa g) 3 + sv g)) g);
  let acked := u32 (ackno - lastack (tx p)) in
  _ ← upd_cc (set_dupacks 0);
  _ ← upd_tx (set_lastack ackno);
  p ← pcb_;
  when (state_code ESTABLISHED <=? state_code (pcb_state p)) (upd_cc (grow_cwnd p acked)).

(** the queues and the send buffer, *)
Definition ack_queues : TM unit :=
  p ← pcb_;
  unacked' ← tcp_free_acked_segments (unacked (tx p)) (unsent (tx p));
  _ ← upd_tx (set_unacked unacked');
  unsent' ← tcp_free_acked_segments (unsent (tx p)) unacked';
  _ ← upd_tx (set_unsent unsent');
  _ ← upd_tm (set_rtime (match unacked' with [] => -1 | _ => 0 end));
  _ ← upd_tm (set_polltmr 0);
  _ ← upd_tx (fun s => match unsent s with [] => set_unsent_oversize 0 s | _ => s end);
  i ← in_;
  upd_tx (fun s => set_snd_buf (u32 (snd_buf s + recv_acked i)) s).

(** and the end of the recovery from a retransmission timeout. *)
Definition new_ack : TM unit :=
  i ← in_;
  _ ← ack_congestion (in_ackno i);
  _ ← ack_queues;
  p ← pcb_;
  when (has (pcb_flags p) TF_RTO)
    (match unacked (tx p), unsent (tx p) with
     | [], [] => tcp_clear_flags TF_RTO
     | [], s :: _ | s :: _, _ => when (TCP_SEQ_LEQ (rto_end (tx p)) (sg_seqno s)) (tcp_clear_flags TF_RTO)
     end).

(** The round-trip time estimate. *)
Definition update_rtt (ticks ackno : Z) (g : congestion) : congestion :=
  if negb (rttest g =? 0) && TCP_SEQ_LT (rtseq g) ackno then
    let m := s16 (u32 (ticks - rttest g)) in
    let m := s16 (m - Z.shiftr (sa g) 3) in
    let sa' := s16 (sa g + m) in
    let m := if m <? 0 then s16 (- m) else m in
    let m := s16 (m - Z.shiftr (sv g) 2) in
    let sv' := s16 (sv g + m) in
    set_rttest 0 (set_rto (s16 (Z.shiftr sa' 3 + sv')) (set_sv sv' (set_sa sa' g)))
  else g.

Definition receive_ack : TM unit :=
  i ← in_;
  p ← pcb_;
  let right_wnd_edge := u32 (snd_wnd (tx p) + snd_wl2 (tx p)) in
  _ ← update_window;
  p ← pcb_;
  _ ← (if TCP_SEQ_LEQ (in_ackno i) (lastack (tx p)) then duplicate_ack right_wnd_edge
       else if TCP_SEQ_BETWEEN (in_ackno i) (u32 (lastack (tx p) + 1)) (snd_nxt (tx p)) then new_ack
       else _ ← tcp_send_empty_ack; mret tt);
  ticks ← gets c_ticks;
  upd_cc (update_rtt ticks (in_ackno i)).

(** ** Data *)

(** [TCP_TCPLEN(&inseg)] *)
Definition inseg_tcplen (i : input) : Z :=
  inseg_len i + (if has (inseg_hdrflags i) (Z.lor TCP_FIN TCP_SYN) then 1 else 0).

(** The first edge of the segment is trimmed when the segment starts before
    [rcv_nxt] and ends after it. *)
Definition trim_front : TM unit :=
  i ← in_;
  p ← pcb_;
  let nxt := rcv_nxt (rx p) in
  if TCP_SEQ_BETWEEN nxt (u32 (in_seqno i + 1)) (u32 (in_seqno i + tcplen i - 1)) then
    match inseg_p i with
    | None => abort
    | Some b =>
        let off32 := u32 (nxt - in_seqno i) in
        _ ← LWIP_ASSERT (off32 <? 0xffff);
        let off := u16 off32 in
        _ ← LWIP_ASSERT (off <=? zlen (rp_data b));
        _ ← upd_in (fun i => set_inseg_len (u16 (inseg_len i - off)) i);
        _ ← upd_in (set_inseg_p (Some (mk_rx_pbuf (zdrop off (rp_data b)) (rp_flags b))));
        upd_in (set_in_seqno nxt)
    end
  else when (TCP_SEQ_LT (in_seqno i) nxt) tcp_ack_now.

(** The end is trimmed when the segment overruns the receive window. *)
Definition trim_end : TM unit :=
  i ← in_;
  p ← pcb_;
  _ ← upd_in (set_tcplen (inseg_tcplen i));
  when (rcv_wnd (rx p) <? inseg_tcplen i)
    (_ ← upd_in (fun i => set_inseg_hdrflags (if has (inseg_hdrflags i) TCP_FIN
                            then Z.land (inseg_hdrflags i) (Z.land (Z.lnot TCP_FIN) 0x3f)
                            else inseg_hdrflags i) i);
     _ ← LWIP_ASSERT (rcv_wnd (rx p) <=? 0xFFFF);
     _ ← upd_in (fun i =>
           let len := u16 (rcv_wnd (rx p)) in
           set_inseg_len (if has (inseg_hdrflags i) TCP_SYN then u16 (len - 1) else len) i);
     i ← in_;
     match inseg_p i with
     | None => abort
     | Some b =>
         _ ← upd_in (set_inseg_p (Some (mk_rx_pbuf (ztake (inseg_len i) (rp_data b)) (rp_flags b))));
         _ ← upd_in (set_tcplen (inseg_tcplen i));
         LWIP_ASSERT (u32 (in_seqno i + inseg_tcplen i) =? u32 (rcv_nxt (rx p) + rcv_wnd (rx p)))
     end).

(** The segment is the next one: [rcv_nxt] and the window move, and its data is kept
    for the application. *)
Definition accept_segment : TM unit :=
  _ ← trim_end;
  i ← in_;
  p ← pcb_;
  _ ← upd_rx (set_rcv_nxt (u32 (in_seqno i + tcplen i)));
  _ ← LWIP_ASSERT (tcplen i <=? rcv_wnd (rx p));
  _ ← upd_rx (fun r => set_rcv_wnd (u32 (rcv_wnd r - tcplen i)) r);
  _ ← tcp_update_rcv_ann_wnd;
  _ ← match inseg_p i with
      | None => abort
      | Some b => when (0 <? zlen (rp_data b))
                    (upd_in (fun i => set_inseg_p None (set_recv_data (Some b) i)))
      end;
  _ ← when (has (inseg_hdrflags i) TCP_FIN)
        (upd_in (fun i => set_recv_flags (Z.lor (recv_flags i) TF_GOT_FIN) i));
  tcp_ack.

Definition receive_data : TM unit :=
  _ ← trim_front;
  i ← in_;
  p ← pcb_;
  let r := rx p in
  if TCP_SEQ_BETWEEN (in_seqno i) (rcv_nxt r) (u32 (rcv_nxt r + rcv_wnd r - 1)) then
    if rcv_nxt r =? in_seqno i then accept_segment
    else _ ← tcp_send_empty_ack; mret tt
  else _ ← tcp_send_empty_ack; mret tt.

Definition tcp_receive : TM unit :=
  i ← in_;
  p ← pcb_;
  _ ← LWIP_ASSERT (state_code ESTABLISHED <=? state_code (pcb_state p));
  _ ← when (has (in_flags i) TCP_ACK) receive_ack;
  i ← in_;
  p ← pcb_;
  if (0 <? tcplen i) && (state_code (pcb_state p) <? state_code CLOSE_WAIT) then receive_data
  else when (negb (TCP_SEQ_BETWEEN (in_seqno i) (rcv_nxt (rx p))
                     (u32 (rcv_nxt (rx p) + rcv_wnd (rx p) - 1)))) tcp_ack_now.

(** ** The state machine *)

Definition add_recv_flags (f : Z) : TM unit :=
  upd_in (fun i => set_recv_flags (Z.lor (recv_flags i) f) i).

(** A reset for the segment being processed. *)
Definition reset_segment (src_ip dest_ip : ip_addr_t) (src dest : Z) : TM unit :=
  i ← in_;
  tcp_rst (in_ackno i) (u32 (in_seqno i + tcplen i)) dest_ip src_ip dest src.

(** The connection leaves for TIME-WAIT. *)
Definition enter_time_wait : TM unit :=
  _ ← tcp_pcb_purge;
  _ ← TCP_RMV_ACTIVE;
  _ ← upd_pcb (set_state TIME_WAIT);
  TCP_REG TimeWaitList.

Definition process_rst : TM err_t :=
  i ← in_;
  p ← pcb_;
  let r := rx p in
  acceptable ←
    (if state_is (pcb_state p) SYN_SENT then mret (in_ackno i =? snd_nxt (tx p))
     else if in_seqno i =? rcv_nxt r then mret true
     else
       _ ← when (TCP_SEQ_BETWEEN (in_seqno i) (rcv_nxt r) (u32 (rcv_nxt r + rcv_wnd r))) tcp_ack_now;
       mret false);
  if (acceptable : bool) then
    _ ← LWIP_ASSERT (negb (state_is (pcb_state p) CLOSED));
    _ ← add_recv_flags TF_RESET;
    _ ← tcp_clear_flags TF_ACK_DELAY;
    mret ERR_RST
  else mret ERR_OK.

(** Addresses and ports of the segment, as [tcp_rst] is given them. *)
Record addressing := mk_addressing { ad_src_ip : ip_addr_t; ad_dest_ip : ip_addr_t; ad_src : Z; ad_dest : Z }.

Definition process_syn_sent (a : addressing) : TM err_t :=
  i ← in_;
  p ← pcb_;
  if has (in_flags i) TCP_ACK && has (in_flags i) TCP_SYN
     && (in_ackno i =? u32 (lastack (tx p) + 1)) then
    _ ← upd_rx (fun r => set_rcv_ann_right_edge (u32 (in_seqno i + 1))
                           (set_rcv_nxt (u32 (in_seqno i + 1)) r));
    _ ← upd_tx (fun s => set_snd_wl1 (u32 (in_seqno i - 1)) (set_snd_wnd_max (in_wnd i)
               (set_snd_wnd (in_wnd i) (set_lastack (in_ackno i) s))));
    _ ← upd_pcb (set_state ESTABLISHED);
    m ← tcp_eff_send_mss (mss (tx p)) (id_remote_ip (pcb_id p));
    _ ← upd_tx (set_mss m);
    _ ← upd_cc (set_cwnd (LWIP_TCP_CALC_INITIAL_CWND m));
    _ ← LWIP_ASSERT (0 <? snd_queuelen (tx p));
    _ ← upd_tx (fun s => set_snd_queuelen (u16 (snd_queuelen s - 1)) s);
    _ ← match unacked (tx p) with
        | _ :: rest => upd_tx (set_unacked rest)
        | [] => match unsent (tx p) with
                | _ :: rest => upd_tx (set_unsent rest)
                | [] => abort
                end
        end;
    p ← pcb_;
    _ ← (if bool_decide (unacked (tx p) = []) then upd_tm (set_rtime (-1))
         else _ ← upd_tm (set_rtime 0); upd_cc (set_nrtx 0));
    err ← TCP_EVENT_CONNECTED;
    if bool_decide (err = ERR_ABRT) then mret ERR_ABRT
    else
      _ ← tcp_ack_now;
      mret ERR_OK
  else if has (in_flags i) TCP_ACK then
    _ ← reset_segment (ad_src_ip a) (ad_dest_ip a) (ad_src a) (ad_dest a);
    p ← pcb_;
    _ ← when (nrtx (cc p) <? TCP_SYNMAXRTX)
          (_ ← upd_tm (set_rtime 0); tcp_rexmit_rto);
    mret ERR_OK
  else mret ERR_OK.

Definition process_syn_rcvd (a : addressing) : TM err_t :=
  i ← in_;
  p ← pcb_;
  if has (in_flags i) TCP_SYN then
    _ ← when (in_seqno i =? u32 (rcv_nxt (rx p) - 1)) (_ ← tcp_rexmit; mret tt);
    mret ERR_OK
  else if has (in_flags i) TCP_ACK then
    if TCP_SEQ_BETWEEN (in_ackno i) (u32 (lastack (tx p) + 1)) (snd_nxt (tx p)) then
      _ ← upd_pcb (set_state ESTABLISHED);
      err ← match listener (cb p) with
            | None => mret ERR_VAL
            | Some accept =>
                _ ← LWIP_ASSERT (bool_decide (is_Some accept));
                TCP_EVENT_ACCEPT accept
            end;
      if negb (bool_decide (err = ERR_OK)) then
        _ ← when (negb (bool_decide (err = ERR_ABRT))) tcp_abort;
        mret ERR_ABRT
      else
        _ ← tcp_receive;
        _ ← upd_in (fun i => if negb (recv_acked i =? 0) then set_recv_acked (u32 (recv_acked i - 1)) i
                             else i);
        p ← pcb_;
        _ ← upd_cc (set_cwnd (LWIP_TCP_CALC_INITIAL_CWND (mss (tx p))));
        i ← in_;
        _ ← when (has (recv_flags i) TF_GOT_FIN)
              (_ ← tcp_ack_now; upd_pcb (set_state CLOSE_WAIT));
        mret ERR_OK
    else
      _ ← reset_segment (ad_src_ip a) (ad_dest_ip a) (ad_src a) (ad_dest a);
      mret ERR_OK
  else mret ERR_OK.

(** Our FIN is acknowledged. *)
Definition fin_acked (i : input) (p : tcp_pcb) : bool :=
  has (in_flags i) TCP_ACK && (in_ackno i =? snd_nxt (tx p)) && bool_decide (unsent (tx p) = []).

Definition process_synchronized : TM unit :=
  p0 ← pcb_;
  match pcb_state p0 with
  | CLOSE_WAIT | ESTABLISHED =>
      _ ← tcp_receive;
      i ← in_;
      when (has (recv_flags i) TF_GOT_FIN) (_ ← tcp_ack_now; upd_pcb (set_state CLOSE_WAIT))
  | FIN_WAIT_1 =>
      _ ← tcp_receive;
      i ← in_;
      p ← pcb_;
      if has (recv_flags i) TF_GOT_FIN then
        if fin_acked i p then _ ← tcp_ack_now; enter_time_wait
        else _ ← tcp_ack_now; upd_pcb (set_state CLOSING)
      else when (fin_acked i p) (upd_pcb (set_state FIN_WAIT_2))
  | FIN_WAIT_2 =>
      _ ← tcp_receive;
      i ← in_;
      when (has (recv_flags i) TF_GOT_FIN) (_ ← tcp_ack_now; enter_time_wait)
  | CLOSING =>
      _ ← tcp_receive;
      i ← in_;
      p ← pcb_;
      when (fin_acked i p) enter_time_wait
  | LAST_ACK =>
      _ ← tcp_receive;
      i ← in_;
      p ← pcb_;
      when (fin_acked i p) (add_recv_flags TF_CLOSED)
  | _ => mret tt
  end.

Definition tcp_process (a : addressing) : TM err_t :=
  i ← in_;
  p ← pcb_;
  let opening := state_is (pcb_state p) SYN_SENT || state_is (pcb_state p) SYN_RCVD in
  if has (in_flags i) TCP_RST then process_rst
  else if has (in_flags i) TCP_SYN && negb opening then
    _ ← tcp_ack_now;
    mret ERR_OK
  else
    ticks ← gets c_ticks;
    _ ← when (negb (has (pcb_flags p) TF_RXCLOSED)) (upd_tm (set_tmr ticks));
    _ ← upd_tm (fun t => set_persist_probe 0 (set_keep_cnt_sent 0 t));
    _ ← tcp_parseopt;
    match pcb_state p with
    | SYN_SENT => process_syn_sent a
    | SYN_RCVD => process_syn_rcvd a
    | _ => _ ← process_synchronized; mret ERR_OK
    end.

(** ** [tcp_input], for a connection *)

(** A received segment: the header in host byte order, its options and its data. *)
Record in_segment := mk_in_segment {
  i_addr : addressing; i_seqno : Z; i_ackno : Z; i_flags : Z; i_wnd : Z; i_opts : list Z;
  i_data : list Z;
}.

Definition tcp_segment_len (s : in_segment) : Z :=
  zlen (i_data s) + (if has (i_flags s) (Z.lor TCP_FIN TCP_SYN) then 1 else 0).

(** The globals as [tcp_input] sets them for a segment. *)
Definition input_globals (s : in_segment) : input :=
  mk_input (i_seqno s) (i_ackno s) (i_wnd s) (i_flags s) (i_opts s) (tcp_segment_len s)
    (zlen (i_data s)) (i_flags s)
    (Some (mk_rx_pbuf (i_data s) (if has (i_flags s) TCP_PSH then PBUF_FLAG_PUSH else 0)))
    None 0 0.

(** [tcp_input_delayed_close] *)
Definition tcp_input_delayed_close : TM bool :=
  i ← in_;
  if has (recv_flags i) TF_CLOSED then
    p ← pcb_;
    _ ← when (negb (has (pcb_flags p) TF_RXCLOSED))
          (TCP_EVENT_ERR (cb_errf (cb p)) (callback_arg (cb p)) ERR_CLSD);
    _ ← tcp_pcb_remove ActiveList;
    _ ← tcp_free;
    mret true
  else mret false.

(** The sent callback takes a [u16_t], so it is called once per 65535 bytes; [false]
    when the connection was aborted. *)
Fixpoint report_sent (fuel : nat) (acked : Z) : TM bool :=
  match fuel with
  | O => abort
  | S fuel =>
      if 0 <? acked then
        let acked16 := u16 (Z.min acked 0xffff) in
        err ← TCP_EVENT_SENT acked16;
        if bool_decide (err = ERR_ABRT) then mret false
        else report_sent fuel (u32 (acked - acked16))
      else mret true
  end.

Definition report_fuel (acked : Z) : nat := S (S (Z.to_nat (acked / 0xffff))).

(** The received data goes to the application; [false] when the connection is gone. *)
Definition deliver_data : TM bool :=
  i ← in_;
  match recv_data i with
  | None => mret true
  | Some b =>
      p ← pcb_;
      _ ← LWIP_ASSERT (negb (bool_decide (is_Some (refused_data (rx p)))));
      if has (pcb_flags p) TF_RXCLOSED then
        _ ← emit (DataFreed (rp_data b));
        _ ← tcp_abort;
        mret false
      else
        err ← TCP_EVENT_RECV (rp_data b);
        if bool_decide (err = ERR_ABRT) then mret false
        else
          _ ← when (negb (bool_decide (err = ERR_OK))) (upd_rx (set_refused_data (Some b)));
          mret true
  end.

(** A received FIN is reported, or noted on the refused data. *)
Definition deliver_fin : TM bool :=
  i ← in_;
  if has (recv_flags i) TF_GOT_FIN then
    p ← pcb_;
    match refused_data (rx p) with
    | Some b =>
        _ ← upd_rx (set_refused_data (Some (mk_rx_pbuf (rp_data b)
                                              (Z.lor (rp_flags b) PBUF_FLAG_TCP_FIN))));
        mret true
    | None =>
        _ ← reopen_for_fin;
        err ← TCP_EVENT_CLOSED;
        mret (negb (bool_decide (err = ERR_ABRT)))
    end
  else mret true.

(** After [tcp_process]. *)
Definition tcp_input_events : TM unit :=
  i ← in_;
  if has (recv_flags i) TF_RESET then
    p ← pcb_;
    _ ← TCP_EVENT_ERR (cb_errf (cb p)) (callback_arg (cb p)) ERR_RST;
    _ ← tcp_pcb_remove ActiveList;
    tcp_free
  else
    go ← (if 0 <? recv_acked i then
            go ← report_sent (report_fuel (recv_acked i)) (recv_acked i);
            _ ← when go (upd_in (set_recv_acked 0));
            mret go
          else mret true);
    if negb go then mret tt else
    closed ← tcp_input_delayed_close;
    if (closed : bool) then mret tt else
    go ← deliver_data;
    if negb go then mret tt else
    go ← deliver_fin;
    if negb go then mret tt else
    _ ← modify (set_input_pcb false);
    closed ← tcp_input_delayed_close;
    if (closed : bool) then mret tt else
    _ ← tcp_output;
    mret tt.

(** Data refused earlier is offered again; [false] drops the segment. *)
Definition retry_refused : TM bool :=
  p ← pcb_;
  match refused_data (rx p) with
  | None => mret true
  | Some _ =>
      err ← tcp_process_refused_data;
      drop ← (if bool_decide (err = ERR_ABRT) then mret true
              else
                p ← pcb_;
                i ← in_;
                mret (bool_decide (is_Some (refused_data (rx p))) && (0 <? tcplen i)));
      if (drop : bool) then
        p ← pcb_;
        _ ← when (rcv_ann_wnd (rx p) =? 0) (_ ← tcp_send_empty_ack; mret tt);
        mret false
      else mret true
  end.

(** The label [aborted]. *)
Definition tcp_input_done : TM unit :=
  _ ← modify (set_input_pcb false);
  i ← in_;
  _ ← match inseg_p i with Some b => emit (DataFreed (rp_data b)) | None => mret tt end;
  upd_in (fun i => set_inseg_p None (set_recv_data None i)).

Definition tcp_input_pcb (s : in_segment) : TM unit :=
  _ ← modify (set_in (input_globals s));
  go ← retry_refused;
  _ ← (if (go : bool) then
         _ ← modify (set_input_pcb true);
         err ← tcp_process (i_addr s);
         if bool_decide (err = ERR_ABRT) then mret tt else tcp_input_events
       else mret tt);
  tcp_input_done.

(** ** TIME-WAIT and LISTEN *)

Definition tcp_timewait_input (s : in_segment) : TM unit :=
  _ ← modify (set_in (input_globals s));
  i ← in_;
  p ← pcb_;
  let a := i_addr s in
  let acknowledge := when (0 <? tcplen i) (_ ← tcp_ack_now; _ ← tcp_output; mret tt) in
  if has (in_flags i) TCP_RST then mret tt
  else if has (in_flags i) TCP_SYN then
    if TCP_SEQ_BETWEEN (in_seqno i) (rcv_nxt (rx p)) (u32 (rcv_nxt (rx p) + rcv_wnd (rx p)))
    then reset_segment (ad_src_ip a) (ad_dest_ip a) (ad_src a) (ad_dest a)
    else acknowledge
  else
    ticks ← gets c_ticks;
    _ ← when (has (in_flags i) TCP_FIN) (upd_tm (set_tmr ticks));
    acknowledge.

(** A listening pcb. *)
Record tcp_pcb_listen := mk_listen {
  l_local_ip : ip_addr_t; l_local_port : Z; l_prio : Z; l_so_options : Z; l_netif_idx : Z;
  l_callback_arg : Z; l_accept : option accept_fn;
}.

Definition SOF_INHERITED : Z := 0x0c.

(** The pcb that [tcp_alloc] returns. *)
Definition tcp_alloc_pcb (prio ticks timer_ctr : Z) : tcp_pcb :=
  let any := mk_ip_addr [0; 0; 0; 0] IPADDR_TYPE_V4 in
  mk_pcb CLOSED 0
    (mk_identity any any 0 0 0 0 TCP_TTL NETIF_NO_INDEX prio)
    (mk_receiver 0 (TCPWND_MIN16 TCP_WND) (TCPWND_MIN16 TCP_WND) 0 0 None)
    (mk_sender 0 0 0 0 0 0 TCP_SND_BUF 0 0 0 INITIAL_MSS 0 0 [] [])
    (mk_congestion 1 TCP_SND_BUF 0 0 0 0 0 (LWIP_TCP_RTO_TIME / TCP_SLOW_INTERVAL)
       (LWIP_TCP_RTO_TIME / TCP_SLOW_INTERVAL) 0)
    (mk_timers (-1) ticks 0 0 timer_ctr 0 0 0 0 TCP_KEEPIDLE_DEFAULT)
    (mk_callbacks 0 (Some tcp_recv_null_fn) false false false false None).

(** [tcp_listen_input] from the new pcb on: the connection answers a SYN. *)
Definition tcp_listen_input_syn (l : tcp_pcb_listen) (s : in_segment) (iss : Z) : TM unit :=
  _ ← modify (set_in (input_globals s));
  let a := i_addr s in
  _ ← upd_id (fun i =>
        set_netif_idx (l_netif_idx l) (set_so_options (Z.land (l_so_options l) SOF_INHERITED)
          (set_remote_port (ad_src a)
            (set_local_port (if l_local_port l =? 0 then ad_dest a else l_local_port l)
              (set_remote_ip (ad_src_ip a) (set_local_ip (ad_dest_ip a) i))))));
  _ ← upd_pcb (set_state SYN_RCVD);
  _ ← upd_rx (fun r => set_rcv_ann_right_edge (u32 (i_seqno s + 1)) (set_rcv_nxt (u32 (i_seqno s + 1)) r));
  _ ← upd_tx (fun t => set_snd_wl1 (u32 (i_seqno s - 1)) (set_snd_lbb iss (set_lastack iss
             (set_snd_nxt iss (set_snd_wl2 iss t)))));
  _ ← upd_cb (fun c => set_listener (Some (l_accept l)) (set_callback_arg (l_callback_arg l) c));
  _ ← TCP_REG_ACTIVE;
  _ ← tcp_parseopt;
  _ ← upd_tx (fun t => set_snd_wnd_max (i_wnd s) (set_snd_wnd (i_wnd s) t));
  p ← pcb_;
  m ← tcp_eff_send_mss (mss (tx p)) (id_remote_ip (pcb_id p));
  _ ← upd_tx (set_mss m);
  rc ← tcp_enqueue_flags (Z.lor TCP_SYN TCP_ACK);
  if negb (bool_decide (rc = ERR_OK)) then tcp_abandon false
  else _ ← tcp_output; mret tt.

End input.

(** ** Timers

    Retransmission and its backoff, the persist timer, keepalive, the time limits of the
    closing states, and the delayed work of the fast timer. *)

Section timer.
Context `{Environment}.

Definition tcp_backoff : list Z := [1; 2; 3; 4; 5; 6; 7; 7; 7; 7; 7; 7; 7].
Definition tcp_persist_backoff : list Z := [3; 6; 12; 24; 48; 96; 120].

(** *** The persist timer *)

(** What is sent when the persist timer fires; [true] when it moves to its next slot. *)
Definition persist_fire : TM bool :=
  p ← pcb_;
  if snd_wnd (tx p) =? 0 then
    err ← tcp_zero_window_probe;
    mret (bool_decide (err = ERR_OK))
  else
    err ← tcp_split_unsent_seg (u16 (snd_wnd (tx p)));
    if bool_decide (err = ERR_OK) then
      err ← tcp_output;
      mret (negb (bool_decide (err = ERR_OK)))
    else mret true.

(** [true] when the connection is to be removed. *)
Definition persist_tick : TM bool :=
  p ← pcb_;
  _ ← LWIP_ASSERT (bool_decide (unacked (tx p) = []));
  _ ← LWIP_ASSERT (negb (bool_decide (unsent (tx p) = [])));
  if TCP_MAXRTX <=? persist_probe (tm p) then mret true
  else
    match tcp_persist_backoff !! Z.to_nat (persist_backoff (tm p) - 1) with
    | None => abort
    | Some backoff_cnt =>
        _ ← upd_tm (fun t => if persist_cnt t <? backoff_cnt then set_persist_cnt (u8 (persist_cnt t + 1)) t
                             else t);
        p ← pcb_;
        _ ← when (backoff_cnt <=? persist_cnt (tm p))
              (next_slot ← persist_fire;
               when next_slot
                 (upd_tm (fun t =>
                    let t := set_persist_cnt 0 t in
                    if persist_backoff t <? zlen tcp_persist_backoff
                    then set_persist_backoff (u8 (persist_backoff t + 1)) t else t)));
        mret false
    end.

(** *** The retransmission timer *)

(** The timeout after [nrtx] retransmissions. *)
Definition backed_off_rto (g : congestion) : option Z :=
  let idx := Z.min (nrtx g) (zlen tcp_backoff - 1) in
  b ← tcp_backoff !! Z.to_nat idx;
  Some (s16 (Z.min (Z.shiftl (Z.shiftr (sa g) 3 + sv g) b) 0x7FFF)).

Definition rto_tick : TM unit :=
  _ ← upd_tm (fun t => if (0 <=? rtime t) && (rtime t <? 0x7FFF) then set_rtime (s16 (rtime t + 1)) t
                       else t);
  p ← pcb_;
  when (rto (cc p) <=? rtime (tm p))
    (err ← tcp_rexmit_rto_prepare;
     p ← pcb_;
     when (bool_decide (err = ERR_OK)
           || (bool_decide (unacked (tx p) = []) && negb (bool_decide (unsent (tx p) = []))))
       (_ ← when (negb (state_is (pcb_state p) SYN_SENT))
              match backed_off_rto (cc p) with
              | None => abort
              | Some r => upd_cc (set_rto r)
              end;
        _ ← upd_tm (set_rtime 0);
        _ ← upd_cc (fun g =>
              let eff_wnd := Z.min (cwnd g) (snd_wnd (tx p)) in
              let t := Z.shiftr eff_wnd 1 in
              let t := if t <? u32 (Z.shiftl (mss (tx p)) 1) then u32 (Z.shiftl (mss (tx p)) 1) else t in
              set_bytes_acked 0 (set_cwnd (mss (tx p)) (set_ssthresh t g)));
        tcp_rexmit_rto_commit)).

(** The first part of the slow timer; [true] when the connection is to be removed. *)
Definition retransmission_tick : TM bool :=
  p ← pcb_;
  if state_is (pcb_state p) SYN_SENT && (TCP_SYNMAXRTX <=? nrtx (cc p)) then mret true
  else if TCP_MAXRTX <=? nrtx (cc p) then mret true
  else if 0 <? persist_backoff (tm p) then persist_tick
  else _ ← rto_tick; mret false.

(** *** Time limits and keepalive *)

Definition idle_ticks (p : tcp_pcb) (ticks : Z) : Z := u32 (ticks - tmr (tm p)).

(** Stays too long in FIN-WAIT-2, SYN-RCVD or LAST-ACK end the connection. *)
Definition fin_wait_2_expired (p : tcp_pcb) (ticks : Z) : bool :=
  state_is (pcb_state p) FIN_WAIT_2 && has (pcb_flags p) TF_RXCLOSED
  && (TCP_FIN_WAIT_TIMEOUT / TCP_SLOW_INTERVAL <? idle_ticks p ticks).

Definition syn_rcvd_expired (p : tcp_pcb) (ticks : Z) : bool :=
  state_is (pcb_state p) SYN_RCVD && (TCP_SYN_RCVD_TIMEOUT / TCP_SLOW_INTERVAL <? idle_ticks p ticks).

Definition last_ack_expired (p : tcp_pcb) (ticks : Z) : bool :=
  state_is (pcb_state p) LAST_ACK && (2 * TCP_MSL / TCP_SLOW_INTERVAL <? idle_ticks p ticks).

(** [true] when the peer did not answer the probes. *)
Definition keepalive_tick : TM bool :=
  p ← pcb_;
  ticks ← gets c_ticks;
  if has (id_so_options (pcb_id p)) SOF_KEEPALIVE
     && (state_is (pcb_state p) ESTABLISHED || state_is (pcb_state p) CLOSE_WAIT) then
    if (keep_idle (tm p) + TCP_MAXIDLE) / TCP_SLOW_INTERVAL <? idle_ticks p ticks then mret true
    else
      _ ← when ((keep_idle (tm p) + keep_cnt_sent (tm p) * TCP_KEEPINTVL_DEFAULT) / TCP_SLOW_INTERVAL
                <? idle_ticks p ticks)
            (err ← tcp_keepalive;
             when (bool_decide (err = ERR_OK))
               (upd_tm (fun t => set_keep_cnt_sent (u8 (keep_cnt_sent t + 1)) t)));
      mret false
  else mret false.

(** The connection is removed; the application's error callback is called. *)
Definition slow_remove (pcb_reset : bool) : TM unit :=
  p ← pcb_;
  let errf := cb_errf (cb p) in
  let err_arg := callback_arg (cb p) in
  _ ← tcp_pcb_purge;
  _ ← TCP_RMV ActiveList;
  p ← pcb_;
  let i := pcb_id p in
  _ ← when pcb_reset (tcp_rst (snd_nxt (tx p)) (rcv_nxt (rx p)) (id_local_ip i) (id_remote_ip i)
                        (id_local_port i) (id_remote_port i));
  _ ← tcp_free;
  _ ← modify (set_changed false);
  TCP_EVENT_ERR errf err_arg ERR_ABRT.

(** The poll callback, then output. *)
Definition slow_poll : TM unit :=
  _ ← upd_tm (fun t => set_polltmr (u8 (polltmr t + 1)) t);
  p ← pcb_;
  when (pollinterval (tm p) <=? polltmr (tm p))
    (_ ← upd_tm (set_polltmr 0);
     _ ← modify (set_changed false);
     err ← TCP_EVENT_POLL;
     changed ← gets c_changed;
     when (negb changed && bool_decide (err = ERR_OK)) (_ ← tcp_output; mret tt)).

(** [tcp_slowtmr] for one connection of [tcp_active_pcbs]. *)
Definition tcp_slowtmr_active (timer_ctr : Z) : TM unit :=
  p ← pcb_;
  _ ← LWIP_ASSERT (negb (state_is (pcb_state p) CLOSED));
  _ ← LWIP_ASSERT (negb (state_is (pcb_state p) LISTEN));
  _ ← LWIP_ASSERT (negb (state_is (pcb_state p) TIME_WAIT));
  if last_timer (tm p) =? timer_ctr then mret tt
  else
    _ ← upd_tm (set_last_timer timer_ctr);
    gone ← retransmission_tick;
    p ← pcb_;
    ticks ← gets c_ticks;
    let stuck := fin_wait_2_expired p ticks in
    reset ← keepalive_tick;
    p ← pcb_;
    let expired := syn_rcvd_expired p ticks || last_ack_expired p ticks in
    if gone || stuck || reset || expired then slow_remove reset else slow_poll.

(** [tcp_slowtmr] for one connection of [tcp_tw_pcbs]. *)
Definition tcp_slowtmr_tw : TM unit :=
  p ← pcb_;
  _ ← LWIP_ASSERT (state_is (pcb_state p) TIME_WAIT);
  ticks ← gets c_ticks;
  when (2 * TCP_MSL / TCP_SLOW_INTERVAL <? idle_ticks p ticks)
    (_ ← tcp_pcb_purge;
     _ ← TCP_RMV TimeWaitList;
     tcp_free).

(** [tcp_fasttmr] for one connection. *)
Definition tcp_fasttmr_active (timer_ctr : Z) : TM unit :=
  p ← pcb_;
  if last_timer (tm p) =? timer_ctr then mret tt
  else
    _ ← upd_tm (set_last_timer timer_ctr);
    _ ← when (has (pcb_flags p) TF_ACK_DELAY)
          (_ ← tcp_ack_now;
           _ ← tcp_output;
           tcp_clear_flags (Z.lor TF_ACK_DELAY TF_ACK_NOW));
    p ← pcb_;
    _ ← when (has (pcb_flags p) TF_CLOSEPEND)
          (_ ← tcp_clear_flags TF_CLOSEPEND;
           _ ← tcp_close_shutdown_fin;
           mret tt);
    p ← pcb_;
    when (bool_decide (is_Some (refused_data (rx p))))
      (_ ← tcp_process_refused_data; mret tt).

(** [tcp_txnow] for one connection. *)
Definition tcp_txnow_active : TM unit :=
  p ← pcb_;
  when (has (pcb_flags p) TF_NAGLEMEMERR) (_ ← tcp_output; mret tt).

(** The slow timer's clock. *)
Definition tick : TM unit := modify (fun c => set_ticks (u32 (c_ticks c + 1)) c).

End timer.
