(* ===== verification/TcpInv.v ===== *)
(** * Reasoning about TCP code

    [twp m Q c]: from the connection [c], [m] has no undefined behaviour, fails no
    assertion, and ends with a result and a connection that satisfy [Q]; with the
    rules of the monad's operations, the flag words and the sequence numbers. *)
From Stdlib Require Import ZArith Lia.
From stdpp Require Import base list option numbers gmap.
From S2P Require Import Prelude Pbuf Chksum Lwip Tcp.

(** ** Weakest preconditions *)

Definition twp {A} (m : TM A) (Q : A -> conn -> Prop) (c : conn) : Prop :=
  match m c with Done (a, c') => Q a c' | Undef => False end.

Section rules.
Implicit Types c : conn.

Lemma twp_ret {A} (a : A) (Q : A -> conn -> Prop) c : Q a c -> twp (mret a) Q c.
Proof. done. Qed.

Lemma twp_bind {A B} (m : TM A) (k : A -> TM B) (Q : B -> conn -> Prop) c :
  twp m (fun a => twp (k a) Q) c -> twp (m ≫= k) Q c.
Proof. unfold twp, mbind, tm_bind. by destruct (m c) as [[a c']|]. Qed.

Lemma twp_mono {A} (m : TM A) (Q R : A -> conn -> Prop) c :
  twp m Q c -> (forall a c', Q a c' -> R a c') -> twp m R c.
Proof. unfold twp. intros Hm HQ. destruct (m c) as [[a c']|]; auto. Qed.

Lemma twp_done {A} (m : TM A) (Q : A -> conn -> Prop) c :
  twp m Q c -> exists a c', m c = Done (a, c') /\ Q a c'.
Proof. unfold twp. destruct (m c) as [[a c']|]; [eauto | done]. Qed.

Lemma twp_of_done {A} (m : TM A) (Q : A -> conn -> Prop) c a c' :
  m c = Done (a, c') -> Q a c' -> twp m Q c.
Proof. unfold twp. by intros ->. Qed.

Lemma twp_pcb (Q : tcp_pcb -> conn -> Prop) c :
  c_live c = true -> Q (c_pcb c) c -> twp pcb_ Q c.
Proof. unfold twp, pcb_. by intros ->. Qed.

Lemma twp_upd_pcb f (Q : unit -> conn -> Prop) c :
  c_live c = true -> Q tt (set_pcb (f (c_pcb c)) c) -> twp (upd_pcb f) Q c.
Proof. unfold twp, upd_pcb. by intros ->. Qed.

Lemma twp_in (Q : input -> conn -> Prop) c : Q (c_in c) c -> twp in_ Q c.
Proof. done. Qed.

Lemma twp_upd_in f (Q : unit -> conn -> Prop) c :
  Q tt (set_in (f (c_in c)) c) -> twp (upd_in f) Q c.
Proof. done. Qed.

Lemma twp_gets {A} (f : conn -> A) (Q : A -> conn -> Prop) c : Q (f c) c -> twp (gets f) Q c.
Proof. done. Qed.

Lemma twp_modify f (Q : unit -> conn -> Prop) c : Q tt (f c) -> twp (modify f) Q c.
Proof. done. Qed.

Lemma twp_emit e (Q : unit -> conn -> Prop) c :
  Q tt (set_trace (c_trace c ++ [e]) c) -> twp (emit e) Q c.
Proof. done. Qed.

Lemma twp_ask {A} (f : Z -> A) (Q : A -> conn -> Prop) c :
  Q (f (c_calls c)) (set_calls (c_calls c + 1) c) -> twp (ask f) Q c.
Proof. done. Qed.

Lemma twp_assert b (Q : unit -> conn -> Prop) c : b = true -> Q tt c -> twp (LWIP_ASSERT b) Q c.
Proof. by intros ->. Qed.

Lemma twp_lift {A} (m : outcome A) (Q : A -> conn -> Prop) c a :
  m = Done a -> Q a c -> twp (lift m) Q c.
Proof. intros ->. done. Qed.

Lemma twp_when b m (Q : unit -> conn -> Prop) c :
  (b = true -> twp m Q c) -> (b = false -> Q tt c) -> twp (when b m) Q c.
Proof. unfold when. destruct b; [auto | intros _ HQ; by apply HQ]. Qed.

Lemma twp_if {A} (b : bool) (m1 m2 : TM A) (Q : A -> conn -> Prop) c :
  (b = true -> twp m1 Q c) -> (b = false -> twp m2 Q c) -> twp (if b then m1 else m2) Q c.
Proof. destruct b; auto. Qed.

End rules.

(** One step of the code under [twp]. *)
Ltac tstep :=
  lazymatch goal with
  | |- twp (mbind _ _) _ _ => apply twp_bind
  | |- twp (mret _) _ _ => apply twp_ret
  | |- twp pcb_ _ _ => apply twp_pcb; [try done|]
  | |- twp (upd_pcb _) _ _ => apply twp_upd_pcb; [try done|]
  | |- twp (upd_id _) _ _ => apply twp_upd_pcb; [try done|]
  | |- twp (upd_rx _) _ _ => apply twp_upd_pcb; [try done|]
  | |- twp (upd_tx _) _ _ => apply twp_upd_pcb; [try done|]
  | |- twp (upd_cc _) _ _ => apply twp_upd_pcb; [try done|]
  | |- twp (upd_tm _) _ _ => apply twp_upd_pcb; [try done|]
  | |- twp (upd_cb _) _ _ => apply twp_upd_pcb; [try done|]
  | |- twp (tcp_set_flags _) _ _ => apply twp_upd_pcb; [try done|]
  | |- twp (tcp_clear_flags _) _ _ => apply twp_upd_pcb; [try done|]
  | |- twp tcp_ack_now _ _ => apply twp_upd_pcb; [try done|]
  | |- twp tcp_ack _ _ => apply twp_upd_pcb; [try done|]
  | |- twp in_ _ _ => apply twp_in
  | |- twp (upd_in _) _ _ => apply twp_upd_in
  | |- twp (gets _) _ _ => apply twp_gets
  | |- twp (modify _) _ _ => apply twp_modify
  | |- twp (emit _) _ _ => apply twp_emit
  | |- twp (ask _) _ _ => apply twp_ask
  | |- twp (LWIP_ASSERT _) _ _ => apply twp_assert; [try done|]
  | |- twp (when _ _) _ _ => apply twp_when; intros ?
  | |- twp (if _ then _ else _) _ _ => apply twp_if; intros ?
  | |- twp (let '(_, _) := ?x in _) _ _ => destruct x eqn:?
  | |- twp (match ?x with _ => _ end) _ _ => destruct x eqn:?
  | |- twp (let x := _ in _) _ _ => cbv zeta
  end.

Ltac tsteps := repeat (tstep; cbv beta).

(** ** Flag words *)

Lemma has_lor a b f : has (Z.lor a b) f = has a f || has b f.
Proof.
  unfold has. rewrite Z.land_lor_distr_l.
  destruct (Z.eqb_spec (Z.land a f) 0) as [->|Ha].
  - by rewrite Z.lor_0_l.
  - destruct (Z.eqb_spec (Z.lor (Z.land a f) (Z.land b f)) 0) as [H0|]; [|done].
    by apply Z.lor_eq_0_iff in H0 as [? _].
Qed.

Lemma has_comm a f : has a f = has f a.
Proof. unfold has. by rewrite Z.land_comm. Qed.

Lemma has_lor_r x a b : has x (Z.lor a b) = has x a || has x b.
Proof. by rewrite has_comm, has_lor, !(has_comm _ x). Qed.

Lemma has_land a k f : has (Z.land a k) f = has a (Z.land k f).
Proof. unfold has. by rewrite Z.land_assoc. Qed.

Lemma has_u16 a f : has (u16 a) f = has a (Z.land 0xffff f).
Proof.
  unfold wrap. rewrite <- Z.land_ones by done. by rewrite has_land.
Qed.

Lemma has_u8 a f : has (u8 a) f = has a (Z.land 0xff f).
Proof. unfold wrap. rewrite <- Z.land_ones by done. by rewrite has_land. Qed.

Lemma has_none a : has a 0 = false.
Proof. unfold has. by rewrite Z.land_0_r. Qed.

(** Evaluates the flag tests of a goal on words built from known constants. *)
Ltac is_numeral v := lazymatch v with Z0 => idtac | Zpos _ => idtac end.

Ltac flag_step :=
  match goal with
  | |- context [Z.land ?k ?f] =>
      let v := eval vm_compute in (Z.land k f) in
      let w := eval vm_compute in f in
      is_numeral v; is_numeral w;
      first [constr_eq v w; change (Z.land k f) with f | change (Z.land k f) with v]
  | |- context [has ?a ?f] =>
      let v := eval vm_compute in a in
      let w := eval vm_compute in f in
      is_numeral v; is_numeral w;
      let b := eval vm_compute in (has v w) in
      change (has a f) with b
  end.

Ltac flags :=
  repeat first [rewrite has_u16 | rewrite has_u8 | rewrite has_lor | rewrite has_land | rewrite has_none
               | flag_step];
  cbn [orb andb negb].

(** ** Sequence numbers *)

Lemma fits_u32 x : fits 32 (u32 x).
Proof. by apply wrap_fits. Qed.

Lemma has_top x : fits 32 x -> has x 0x80000000 = (2 ^ 31 <=? x).
Proof.
  unfold fits. intros Hx. unfold has.
  replace (Z.land x 0x80000000) with (if 2 ^ 31 <=? x then 2 ^ 31 else 0).
  { by destruct (2 ^ 31 <=? x). }
  apply Z.bits_inj_iff'. intros i Hi. rewrite Z.land_spec.
  change 0x80000000 with (2 ^ 31). rewrite Z.pow2_bits_eqb by lia.
  destruct (Z.eqb_spec 31 i) as [<-|Hne].
  - rewrite andb_true_r. destruct (Z.leb_spec (2 ^ 31) x).
    + rewrite Z.pow2_bits_true by lia. symmetry. apply Z.testbit_true; [lia|].
      assert (x / 2 ^ 31 = 1) as -> by (symmetry; apply Z.div_unique with (x - 2 ^ 31); lia). done.
    + rewrite Z.bits_0. symmetry. apply Z.testbit_false; [lia|].
      by rewrite Z.div_small by lia.
  - rewrite andb_false_r. destruct (2 ^ 31 <=? x); [by apply Z.pow2_bits_false|by rewrite Z.bits_0].
Qed.

(** [a] is before [b] when [b] is less than half the sequence space ahead. *)
Lemma seq_lt_spec a b : TCP_SEQ_LT a b = (2 ^ 31 <=? u32 (a - b)).
Proof. apply has_top, fits_u32. Qed.

Lemma seq_leq_spec a b : TCP_SEQ_LEQ a b = (u32 (b - a) <? 2 ^ 31).
Proof. unfold TCP_SEQ_LEQ. by rewrite seq_lt_spec, Z.leb_antisym, negb_involutive. Qed.

Lemma seq_geq_spec a b : TCP_SEQ_GEQ a b = (u32 (a - b) <? 2 ^ 31).
Proof. apply seq_leq_spec. Qed.

Lemma seq_between_spec a b c :
  TCP_SEQ_BETWEEN a b c = (u32 (a - b) <? 2 ^ 31) && (u32 (c - a) <? 2 ^ 31).
Proof. unfold TCP_SEQ_BETWEEN. by rewrite seq_geq_spec, seq_leq_spec. Qed.

(** * The checksum of outgoing TCP segments

    The sum of a segment's data is kept as the data is written, in pieces of any
    length, and added to the sum of the header when the segment is sent. *)
From Stdlib Require Import ZArith Lia.
From stdpp Require Import base list option numbers gmap.
From S2P Require Import Prelude Pbuf PbufChain Chksum ChksumProofs Lwip Tcp TcpOut.

Section chksum.
Context `{Environment}.

(** ** One pbuf *)

Definition the_pbuf (bytes : list Z) : pbuf :=
  mk_pbuf None (Some (mk_addr 1%positive 0)) (zlen bytes) (zlen bytes) (type_bits PBUF_RAM) 0 1
    NETIF_NO_INDEX.

Lemma one_pbuf_get bytes : get (one_pbuf bytes) 1%positive = Done (the_pbuf bytes).
Proof. unfold get, one_pbuf. simpl. by rewrite lookup_singleton_eq. Qed.

Lemma one_pbuf_read bytes n :
  0 <= n <= zlen bytes -> read_payload (one_pbuf bytes) (the_pbuf bytes) 0 n = Done (ztake n bytes).
Proof.
  intros Hn. unfold read_payload, the_pbuf, one_pbuf. simpl. rewrite lookup_singleton_eq.
  rewrite <- (ztake_zdrop n bytes) at 1. apply load_bytes_starts; [|by rewrite zlen_ztake].
  exists (map Some (zdrop n bytes)). by rewrite map_app.
Qed.

Lemma one_pbuf_walk bytes : walk_fuel (one_pbuf bytes) = 2%nat.
Proof. unfold walk_fuel, one_pbuf. simpl. by rewrite map_size_singleton. Qed.

Lemma one_pbuf_payload_chksum machine bytes n :
  0 <= n <= zlen bytes ->
  payload_chksum machine (one_pbuf bytes) (the_pbuf bytes) n
  = Done (lwip_standard_chksum (machine (mk_addr 1%positive 0)) (ztake n bytes)).
Proof. intros Hn. unfold payload_chksum. by rewrite one_pbuf_read. Qed.

Lemma partial_defined machine bytes clen acc :
  0 < clen <= zlen bytes ->
  chain_chksum_partial machine (walk_fuel (one_pbuf bytes)) (one_pbuf bytes) (Some 1%positive) clen acc false
  = Done (let acc' := FOLD_U32T (u32 (acc + lwip_standard_chksum (machine (mk_addr 1%positive 0))
                                                (ztake clen bytes))) in
          if negb (zlen bytes mod 2 =? 0) then (SWAP_BYTES_IN_WORD acc', true) else (acc', false)).
Proof.
  intros Hc. rewrite one_pbuf_walk. cbn [chain_chksum_partial].
  rewrite (proj2 (Z.eqb_neq clen 0)) by lia. rewrite one_pbuf_get. cbn [obind mbind outcome_bind].
  cbn [p_len p_next the_pbuf].
  assert ((if clen <? zlen bytes then clen else zlen bytes) = clen) as Hm by (zcase; lia).
  rewrite Hm, one_pbuf_payload_chksum by lia. cbn [obind mbind outcome_bind].
  replace (clen - clen) with 0 by lia. cbn [lwip_assert]. cbv zeta.
  by destruct (negb _).
Qed.

Lemma header_length o c :
  zlen (o_wnd o) = 2 -> zlen (header_bytes o c) = TCP_HLEN + zlen (o_opts o).
Proof.
  intros Hw. unfold header_bytes, be16_bytes, be32_bytes.
  rewrite !zlen_app. unfold zlen at 1 2 3 4 5 7 8. rewrite !le_split_length. simpl length.
  rewrite Hw. unfold TCP_HLEN. lia.
Qed.

Lemma segment_chksum_defined addr seg o :
  zlen (o_wnd o) = 2 -> o_hdrlen o * 4 = TCP_HLEN + zlen (o_opts o) -> zlen (o_opts o) <= 40 ->
  exists c, segment_chksum addr seg o = Done c.
Proof.
  intros Hw Hh Ho. pose proof (zlen_nonneg (o_opts o)). pose proof (zlen_nonneg (o_data o)).
  unfold TCP_HLEN in Hh.
  assert (u8 (o_hdrlen o * 4) = 20 + zlen (o_opts o)) as Hu.
  { rewrite Hh. apply wrap_small. unfold fits. lia. }
  assert (zlen (header_bytes o 0 ++ o_data o) = 20 + zlen (o_opts o) + zlen (o_data o)) as Hl
    by (by rewrite zlen_app, header_length).
  unfold segment_chksum. cbv zeta.
  unfold ip_chksum_pseudo_partial, ip6_chksum_pseudo_partial, inet_chksum_pseudo_partial,
    inet_cksum_pseudo_partial_base.
  destruct (IP_IS_V6 _); rewrite Hu, partial_defined by lia; cbn [obind mbind outcome_bind];
    cbv zeta; destruct (negb _); eauto.
Qed.

Lemma control_chksum_defined addr o : exists c, control_chksum addr o = Done c.
Proof.
  unfold control_chksum. cbv zeta. set (bytes := header_bytes o 0 ++ o_data o).
  unfold ip_chksum_pseudo, ip6_chksum_pseudo, inet_chksum_pseudo, inet_cksum_pseudo_base.
  destruct (IP_IS_V6 _); rewrite one_pbuf_walk; cbn [chain_chksum]; rewrite one_pbuf_get;
    cbn [obind mbind outcome_bind]; cbn [p_len the_pbuf];
    rewrite one_pbuf_payload_chksum by (pose proof (zlen_nonneg bytes); lia);
    cbn [obind mbind outcome_bind p_next the_pbuf]; cbv zeta; destruct (negb _); eauto.
Qed.

End chksum.

(** * The invariant of a connection's send side

    What holds of a connection between calls: the queues hold the bytes written at
    their sequence positions, the counters describe the queues, and every segment
    given to IP carried written bytes. [steps] is what the output functions leave
    alone. *)
From Stdlib Require Import ZArith Lia.
From stdpp Require Import base list option numbers gmap.
From S2P Require Import Prelude Pbuf Chksum Lwip Tcp TcpOut.

(** ** The streams of a trace *)

(** The bytes the application wrote. *)
Definition written_by (e : event) : list Z := match e with Written d => d | _ => [] end.
Definition written (t : list event) : list Z := concat (map written_by t).

Lemma written_app t u : written (t ++ u) = written t ++ written u.
Proof. unfold written. by rewrite map_app, concat_app. Qed.

(** [data] at [seqno] is a piece of the stream [W] whose first byte has sequence
    number [iss + 1]. *)
Definition carries (iss : Z) (W : list Z) (seqno : Z) (data : list Z) : Prop :=
  data = [] \/ exists l r, W = l ++ data ++ r /\ seqno = u32 (iss + 1 + zlen l).

Lemma carries_grow iss W W' seqno data :
  carries iss W seqno data -> carries iss (W ++ W') seqno data.
Proof.
  intros [->|(l & r & -> & Hs)]; [by left|right]. exists l, (r ++ W'). by rewrite !app_assoc.
Qed.

Definition event_ok (iss : Z) (W : list Z) (e : event) : Prop :=
  match e with Output o _ => carries iss W (o_seqno o) (o_data o) | _ => True end.

Lemma event_ok_grow iss W W' e : event_ok iss W e -> event_ok iss (W ++ W') e.
Proof. destruct e; try done. apply carries_grow. Qed.

(** ** Queued segments *)

Record seg_ok (iss : Z) (W : list Z) (m : Z) (s : tcp_seg) : Prop := mk_seg_ok {
  so_ref : sg_ref s = 1;
  so_carries : carries iss W (sg_seqno s) (sg_data s);
  so_room : sg_len s + LWIP_TCP_OPT_LENGTH (sg_flags s) <= m;
  so_rst : has (sg_hdrflags s) TCP_RST = false;
  so_hdr : sg_hdrlen s * 4 = TCP_HLEN + LWIP_TCP_OPT_LENGTH (sg_flags s);
  so_sum : sg_data s = [] \/ has (sg_flags s) TF_SEG_DATA_CHECKSUMMED = true;
  so_len : 0 < TCP_TCPLEN s;
}.

Lemma tcplen_ge s : sg_len s <= TCP_TCPLEN s.
Proof. unfold TCP_TCPLEN. destruct (has _ _); lia. Qed.

Lemma seg_ok_grow iss W W' m s : seg_ok iss W m s -> seg_ok iss (W ++ W') m s.
Proof. intros []. split; auto using carries_grow. Qed.

Definition sum_len (l : list tcp_seg) : Z := foldr (fun s n => sg_len s + n) 0 l.
#[global] Arguments sum_len : simpl never.

Lemma sum_len_cons s l : sum_len (s :: l) = sg_len s + sum_len l.
Proof. done. Qed.

Lemma sum_len_app l k : sum_len (l ++ k) = sum_len l + sum_len k.
Proof. induction l as [|s l IH]; [done|]. simpl app. rewrite !sum_len_cons. lia. Qed.

Lemma sum_len_nonneg l : 0 <= sum_len l.
Proof.
  induction l as [|s l IH]; [done|]. rewrite sum_len_cons. unfold sg_len.
  pose proof (zlen_nonneg (sg_data s)). lia.
Qed.

#[export] Instance sum_len_proper : Proper ((≡ₚ) ==> (=)) sum_len.
Proof.
  induction 1 as [|s l k _ IH|s t l|l k m _ IH1 _ IH2]; rewrite ?sum_len_cons; try lia; done.
Qed.

Lemma zlen_perm {A} (l k : list A) : l ≡ₚ k -> zlen l = zlen k.
Proof. intros Hp. unfold zlen. by rewrite (Permutation_length Hp). Qed.

Definition last_oversize (l : list tcp_seg) : Z :=
  match last l with Some s => sg_oversize_left s | None => 0 end.

(** The stream ends with this segment. *)
Definition at_end (iss : Z) (W : list Z) (s : tcp_seg) : Prop :=
  exists l, W = l ++ sg_data s /\ sg_seqno s = u32 (iss + 1 + zlen l).

(** The spare room of the last unsent segment. *)
Definition tail_ok (iss : Z) (W : list Z) (m : Z) (closed : bool) (l : list tcp_seg) : Prop :=
  match last l with
  | Some s =>
      0 <= sg_oversize_left s /\
      (0 < sg_oversize_left s ->
         sg_len s + LWIP_TCP_OPT_LENGTH (sg_flags s) + sg_oversize_left s <= m /\
         (closed = false -> at_end iss W s))
  | None => True
  end.

(** ** The control block *)

Record queues_ok (iss : Z) (W : list Z) (p : tcp_pcb) : Prop := mk_queues_ok {
  qo_unsent : Forall (seg_ok iss W (mss (tx p))) (unsent (tx p));
  qo_unacked : Forall (seg_ok iss W (mss (tx p))) (unacked (tx p));
  qo_sent : Forall (fun s => sg_oversize_left s = 0) (unacked (tx p));
  qo_len : snd_queuelen (tx p) = zlen (unsent (tx p)) + zlen (unacked (tx p));
  qo_len16 : snd_queuelen (tx p) + Z.b2z (negb (has (pcb_flags p) TF_FIN)) < 2 ^ 16;
  qo_buf : snd_buf (tx p) + sum_len (unsent (tx p)) + sum_len (unacked (tx p)) = TCP_SND_BUF;
  qo_room : 0 <= snd_buf (tx p);
  qo_oversize : unsent_oversize (tx p) = last_oversize (unsent (tx p));
  qo_tail : tail_ok iss W (mss (tx p)) (has (pcb_flags p) TF_FIN) (unsent (tx p));
}.

Lemma queuelen_lt iss W p : queues_ok iss W p -> snd_queuelen (tx p) < 2 ^ 16.
Proof. intros [_ _ _ _ Hq _ _ _ _]. destruct (has (pcb_flags p) TF_FIN); cbn in Hq; lia. Qed.

(** [tcp_write] is allowed. *)
Definition writable (s : tcp_state) : bool :=
  state_is s ESTABLISHED || state_is s CLOSE_WAIT || state_is s SYN_SENT || state_is s SYN_RCVD.

Record send_ok (iss : Z) (W : list Z) (p : tcp_pcb) : Prop := mk_send_ok {
  co_mss : 8 <= mss (tx p) <= TCP_MSS;
  co_wnd_max : 2 * mss (tx p) <= snd_wnd_max (tx p);
  co_lbb : has (pcb_flags p) TF_FIN = false -> snd_lbb (tx p) = u32 (iss + 1 + zlen W);
  co_open : writable (pcb_state p) = true -> has (pcb_flags p) TF_FIN = false;
  co_persist : 0 <= persist_backoff (tm p) <= 7;
  co_nrtx : 0 <= nrtx (cc p) < 256;
  co_state : pcb_state p <> LISTEN;
}.

(** Off the list of active connections the queues are empty. *)
Definition idle_queues (p : tcp_pcb) : Prop :=
  unsent (tx p) = [] /\ unacked (tx p) = [] /\ unsent_oversize (tx p) = 0.

Record sending (iss : Z) (c : conn) : Prop := mk_sending {
  se_pcb : send_ok iss (written (c_trace c)) (c_pcb c);
  se_queues : if bool_decide (c_list c = ActiveList)
              then queues_ok iss (written (c_trace c)) (c_pcb c)
              else idle_queues (c_pcb c);
  se_trace : Forall (event_ok iss (written (c_trace c))) (c_trace c);
}.

(** ** What an output function leaves alone *)

Definition send_event (e : event) : Prop :=
  match e with Output _ _ | Written _ | DataFreed _ => True | _ => False end.

Record steps (c c' : conn) : Prop := mk_steps {
  st_live : c_live c' = c_live c;
  st_list : c_list c' = c_list c;
  st_in : c_in c' = c_in c;
  st_input : c_input_pcb c' = c_input_pcb c;
  st_ticks : c_ticks c' = c_ticks c;
  st_changed : c_changed c' = c_changed c;
  st_state : pcb_state (c_pcb c') = pcb_state (c_pcb c);
  st_cb : cb (c_pcb c') = cb (c_pcb c);
  st_nxt : rcv_nxt (rx (c_pcb c')) = rcv_nxt (rx (c_pcb c));
  st_wnd : rcv_wnd (rx (c_pcb c')) = rcv_wnd (rx (c_pcb c));
  st_refused : refused_data (rx (c_pcb c')) = refused_data (rx (c_pcb c));
  st_rxclosed : has (pcb_flags (c_pcb c')) TF_RXCLOSED = has (pcb_flags (c_pcb c)) TF_RXCLOSED;
  st_scale : has (pcb_flags (c_pcb c')) TF_WND_SCALE = has (pcb_flags (c_pcb c)) TF_WND_SCALE;
  st_fin : has (pcb_flags (c_pcb c')) TF_FIN = has (pcb_flags (c_pcb c)) TF_FIN;
  st_trace : exists es, c_trace c' = c_trace c ++ es /\ Forall send_event es;
}.

#[export] Instance steps_refl : Reflexive steps.
Proof. intros c. split; try done. exists []. by rewrite app_nil_r. Qed.

#[export] Instance steps_trans : Transitive steps.
Proof.
  intros a b c [] []. split; try congruence.
  destruct st_trace0 as (es & E1 & F1), st_trace1 as (fs & E2 & F2).
  exists (es ++ fs). rewrite E2, E1, app_assoc. split; [done|]. by apply Forall_app.
Qed.
