(* ===== verification/TcpOutProofs.v ===== *)
(** * TCP output preserves the invariant

    Each output function, from a connection that satisfies [sending], is free of
    undefined behaviour and assertion failures, keeps [sending] and leaves the rest of
    the connection alone ([steps]). *)
From Stdlib Require Import ZArith Lia.
From stdpp Require Import base list option numbers gmap.
From S2P Require Import Prelude Pbuf Chksum Lwip Tcp TcpOut TcpInv.

(** ** Changes that do not matter to the invariant *)

Lemma sending_same iss c c' :
  sending iss c ->
  tx (c_pcb c') = tx (c_pcb c) -> has (pcb_flags (c_pcb c')) TF_FIN = has (pcb_flags (c_pcb c)) TF_FIN ->
  pcb_state (c_pcb c') = pcb_state (c_pcb c) ->
  persist_backoff (tm (c_pcb c')) = persist_backoff (tm (c_pcb c)) ->
  nrtx (cc (c_pcb c')) = nrtx (cc (c_pcb c)) ->
  c_list c' = c_list c -> c_trace c' = c_trace c -> sending iss c'.
Proof.
  intros [[] Hq Ht] Htx Hfin Hst Hpb Hn Hl Htr.
  split; rewrite ?Hl, ?Htr; [split|case_bool_decide|done]; rewrite ?Htx, ?Hfin, ?Hst, ?Hpb, ?Hn; try done.
  - destruct Hq. split; rewrite ?Htx, ?Hfin; done.
  - unfold idle_queues in *. by rewrite Htx.
Qed.

(** A change of the persist timer. *)
Lemma sending_persist iss c t :
  sending iss c -> 0 <= persist_backoff t <= 7 ->
  sending iss (set_pcb (set_tm t (c_pcb c)) c).
Proof.
  intros [[] Hq Ht] Hb.
  split; cbn; [by split|case_bool_decide|done]; [|done].
  destruct Hq. by split.
Qed.

Lemma sending_event iss c e :
  sending iss c -> written_by e = [] -> event_ok iss (written (c_trace c)) e ->
  sending iss (set_trace (c_trace c ++ [e]) c).
Proof.
  intros [Hp Hq Ht] He Hok.
  assert (written (c_trace c ++ [e]) = written (c_trace c)) as Hw.
  { rewrite written_app. unfold written at 2. simpl. by rewrite He, !app_nil_r. }
  split; cbn [c_trace c_pcb c_list set_trace]; rewrite ?Hw; try done.
  apply Forall_app. split; [done|]. by apply Forall_singleton.
Qed.

Lemma steps_event c e : send_event e -> steps c (set_trace (c_trace c ++ [e]) c).
Proof. intros He. split; try done. exists [e]. split; [done|]. by apply Forall_singleton. Qed.

(** [frame] proves [steps] for an explicit change of fields that it does not mention. *)
Ltac frame := split; cbn; try done; try (flags; rewrite ?orb_false_r; done);
  try (by exists []; rewrite app_nil_r).

(** A change of the control block that [sending] and [steps] ignore. *)
Ltac ignored :=
  match goal with
  | H : sending ?iss ?c |- sending ?iss _ =>
      apply (sending_same iss c _ H); cbn; try done; try (flags; rewrite ?orb_false_r; done)
  end.

(** What a function establishes: no undefined behaviour, the frame, the invariant. *)
Definition sends {A} (iss : Z) (m : TM A) (P : A -> conn -> Prop) (c : conn) : Prop :=
  twp m (fun a c' => steps c c' /\ sending iss c' /\ P a c') c.

Lemma sends_bind {A B} iss (m : TM A) (k : A -> TM B) P Q c :
  sends iss m P c ->
  (forall a c', steps c c' -> c_live c' = c_live c -> sending iss c' -> P a c' -> sends iss (k a) Q c') ->
  sends iss (m ≫= k) Q c.
Proof.
  intros Hm Hk. apply twp_bind. eapply twp_mono; [exact Hm|]. intros a c' (Hs & Hc & HP). simpl.
  eapply twp_mono; [apply Hk; auto; apply Hs|]. intros b c2 (Hs2 & Hc2 & HQ).
  split_and!; auto. by transitivity c'.
Qed.

Lemma sends_mono {A} iss (m : TM A) P Q c :
  sends iss m P c -> (forall a c', steps c c' -> P a c' -> Q a c') -> sends iss m Q c.
Proof. intros Hm HQ. eapply twp_mono; [exact Hm|]. intros a c' (? & ? & ?). auto. Qed.

Lemma sends_ret {A} iss (a : A) (P : A -> conn -> Prop) c : sending iss c -> P a c -> sends iss (mret a) P c.
Proof. intros. apply twp_ret. split_and!; auto. reflexivity. Qed.

Lemma sends_pcb {B} iss (k : tcp_pcb -> TM B) Q c :
  c_live c = true -> sends iss (k (c_pcb c)) Q c -> sends iss (pcb_ ≫= k) Q c.
Proof. intros. by apply twp_bind, twp_pcb. Qed.

(** A pure change of fields. *)
Lemma sends_upd iss f (P : unit -> conn -> Prop) c :
  c_live c = true -> let c' := set_pcb (f (c_pcb c)) c in
  steps c c' -> sending iss c' -> P tt c' -> sends iss (upd_pcb f) P c.
Proof. intros. apply twp_upd_pcb; auto. Qed.

Lemma sends_assert iss b (P : unit -> conn -> Prop) c :
  b = true -> sending iss c -> P tt c -> sends iss (LWIP_ASSERT b) P c.
Proof. intros. apply twp_assert; [done|]. split_and!; auto. reflexivity. Qed.

Lemma sends_ask {A} iss (f : Z -> A) (P : A -> conn -> Prop) c :
  sending iss c -> (forall n c', c_pcb c' = c_pcb c -> c_list c' = c_list c -> c_trace c' = c_trace c ->
                                 P (f n) c') -> sends iss (ask f) P c.
Proof.
  intros Hc HP. apply twp_ask. split_and!; [frame | ignored | by apply HP].
Qed.

Lemma sends_flags_set iss f (P : unit -> conn -> Prop) c :
  c_live c = true -> sending iss c -> Z.land f TF_FIN = 0 -> Z.land f TF_RXCLOSED = 0 ->
  Z.land f TF_WND_SCALE = 0 ->
  P tt (set_pcb (set_flags (u16 (Z.lor (pcb_flags (c_pcb c)) f)) (c_pcb c)) c) ->
  sends iss (tcp_set_flags f) P c.
Proof.
  intros Hl Hc H1 H2 H3 HP.
  assert (forall g, Z.land f g = 0 -> has f g = false) as Hz by (intros g Hg; unfold has; by rewrite Hg).
  apply sends_upd; [done| | |done].
  - frame; flags; rewrite Hz by done; by rewrite orb_false_r.
  - apply (sending_same iss c); try done. cbn. flags. rewrite (Hz TF_FIN) by done. by rewrite orb_false_r.
Qed.

Section out.
Context `{Environment}.
Variable iss : Z.
Implicit Types c : conn.

(** ** Control segments *)

Lemma ip_output_ok o c :
  sending iss c -> carries iss (written (c_trace c)) (o_seqno o) (o_data o) ->
  sends iss (ip_output_if o) (fun _ c' => c_pcb c' = c_pcb c) c.
Proof.
  intros Hc Ho. unfold ip_output_if.
  eapply sends_bind; [by apply (sends_ask _ _ (fun _ c' => c_pcb c' = c_pcb c /\ c_trace c' = c_trace c))|].
  intros r c1 Hs _ Hc1 [Hp Ht].
  apply twp_bind, twp_emit, twp_ret. split_and!.
  - by apply steps_event.
  - apply sending_event; [done|done|]. simpl. by rewrite Ht.
  - done.
Qed.

Lemma control_netif_ok o c :
  sending iss c -> carries iss (written (c_trace c)) (o_seqno o) (o_data o) ->
  sends iss (tcp_output_control_segment_netif o) (fun _ c' => c_pcb c' = c_pcb c) c.
Proof.
  intros Hc Ho. unfold tcp_output_control_segment_netif, address.
  eapply sends_bind; [by apply (sends_ask _ _ (fun _ c' => c_pcb c' = c_pcb c /\ c_trace c' = c_trace c))|].
  intros addr c1 Hs _ Hc1 [Hp Ht].
  destruct (control_chksum_defined addr o) as [k Hk].
  apply twp_bind. eapply twp_lift; [done|].
  rewrite <- Hp. apply ip_output_ok; [done|]. simpl. by rewrite Ht.
Qed.

Lemma control_segment_ok o c :
  sending iss c -> carries iss (written (c_trace c)) (o_seqno o) (o_data o) ->
  sends iss (tcp_output_control_segment o) (fun _ c' => c_pcb c' = c_pcb c) c.
Proof.
  intros Hc Ho. unfold tcp_output_control_segment, tcp_route.
  eapply sends_bind; [by apply (sends_ask _ _ (fun _ c' => c_pcb c' = c_pcb c /\ c_trace c' = c_trace c))|].
  intros r c1 Hs _ Hc1 [Hp Ht]. destruct r; simpl.
  - rewrite <- Hp. apply control_netif_ok; [done|]. by rewrite Ht.
  - by apply sends_ret.
Qed.

Lemma alloc_header_ok optlen data seqno c :
  c_live c = true -> sending iss c ->
  sends iss (tcp_output_alloc_header optlen data seqno)
    (fun o c' => c_trace c' = c_trace c /\ tx (c_pcb c') = tx (c_pcb c) /\
       match o with Some o => o_seqno o = u32 seqno /\ o_data o = data | None => True end) c.
Proof.
  intros Hl Hc. unfold tcp_output_alloc_header, tcp_output_alloc_header_common.
  apply sends_pcb; [done|].
  eapply (sends_bind _ _ _ (fun o c' => c_pcb c' = c_pcb c /\ c_trace c' = c_trace c /\
       match o with Some o => o_seqno o = u32 seqno /\ o_data o = data | None => True end)).
  { unfold granted.
    eapply sends_bind; [by apply (sends_ask _ _ (fun _ c' => c_pcb c' = c_pcb c /\ c_trace c' = c_trace c))|].
    intros [|] c1 Hs _ Hc1 [Hp Ht]; by apply sends_ret. }
  intros o c1 Hs Hl1 Hc1 (Hp & Ht & Ho). rewrite Hl in Hl1.
  eapply (sends_bind _ _ _ (fun _ c' => c_trace c' = c_trace c /\ tx (c_pcb c') = tx (c_pcb c))).
  - unfold when. case_bool_decide.
    + apply sends_upd; [done | frame | ignored | cbn; by rewrite Hp].
    + apply sends_ret; [done|]. by rewrite Hp.
  - intros _ c2 _ _ Hc2 [Ht2 Hx2]. by apply sends_ret.
Qed.

Lemma empty_ack_ok c :
  c_live c = true -> sending iss c ->
  sends iss tcp_send_empty_ack (fun _ c' => tx (c_pcb c') = tx (c_pcb c)) c.
Proof.
  intros Hl Hc. unfold tcp_send_empty_ack. apply sends_pcb; [done|].
  eapply sends_bind; [by apply alloc_header_ok|].
  intros o c1 Hs Hl1 Hc1 (Ht & Hx & Ho). rewrite Hl in Hl1. destruct o as [o|].
  - destruct Ho as [Hq Hd].
    eapply sends_bind; [apply control_segment_ok; [done|left; done]|].
    intros err c2 Hs2 Hl2 Hc2 Hp2. rewrite Hl1 in Hl2.
    eapply (sends_bind _ _ _ (fun _ c' => tx (c_pcb c') = tx (c_pcb c))).
    + destruct (negb _).
      * apply sends_flags_set; try done. cbn. by rewrite Hp2.
      * apply sends_upd; [done | frame | ignored | cbn; by rewrite Hp2].
    + intros _ c3 _ _ Hc3 Hx3. by apply sends_ret.
  - eapply (sends_bind _ _ _ (fun _ c' => tx (c_pcb c') = tx (c_pcb c))).
    + by apply sends_flags_set.
    + intros _ c3 _ _ Hc3 Hx3. by apply sends_ret.
Qed.

Lemma keepalive_ok c :
  c_live c = true -> sending iss c -> sends iss tcp_keepalive (fun _ _ => True) c.
Proof.
  intros Hl Hc. unfold tcp_keepalive. apply sends_pcb; [done|].
  eapply sends_bind; [by apply alloc_header_ok|].
  intros o c1 Hs Hl1 Hc1 (Ht & Hx & Ho). destruct o as [o|]; [|by apply sends_ret].
  destruct Ho as [Hq Hd]. eapply sends_mono; [apply control_segment_ok; [done|by left]|done].
Qed.

Lemma rst_common_ok seqno ackno lip rip lp rp ttl tos c :
  sending iss c ->
  sends iss (tcp_rst_common seqno ackno lip rip lp rp ttl tos)
    (fun o c' => c_pcb c' = c_pcb c /\ match o with Some o => o_data o = [] | None => True end) c.
Proof.
  intros Hc. unfold tcp_rst_common, tcp_output_alloc_header_common, granted. cbv zeta.
  eapply sends_bind; [by apply (sends_ask _ _ (fun _ c' => c_pcb c' = c_pcb c /\ c_trace c' = c_trace c))|].
  intros [|] c1 Hs _ Hc1 [Hp Ht]; by apply sends_ret.
Qed.

Lemma rst_ok seqno ackno lip rip lp rp c :
  c_live c = true -> sending iss c ->
  sends iss (tcp_rst seqno ackno lip rip lp rp) (fun _ c' => c_pcb c' = c_pcb c) c.
Proof.
  intros Hl Hc. unfold tcp_rst. apply sends_pcb; [done|].
  eapply sends_bind; [by apply rst_common_ok|].
  intros o c1 Hs Hl1 Hc1 (Hp & Ho). destruct o as [o|]; [|by apply sends_ret].
  eapply sends_bind; [apply control_segment_ok; [done|by left]|].
  intros r c2 _ _ Hc2 Hp2. apply sends_ret; [done|]. congruence.
Qed.

(** ** Sending a segment of the queue *)

Lemma opts_length seg m :
  let opts :=
    (if has (sg_flags seg) TF_SEG_OPTS_MSS then TCP_BUILD_MSS_OPTION m else []) ++
    (if has (sg_flags seg) TF_SEG_OPTS_WND_SCALE then tcp_build_wnd_scale_option else []) in
  zlen opts = LWIP_TCP_OPT_LENGTH (sg_flags seg) /\ zlen opts <= 40.
Proof.
  cbv zeta. unfold LWIP_TCP_OPT_LENGTH, TCP_BUILD_MSS_OPTION, tcp_build_wnd_scale_option, be32_bytes.
  repeat match goal with |- context [if has ?a ?b then _ else _] => destruct (has a b) end;
    rewrite ?zlen_app; unfold zlen; rewrite ?le_split_length; simpl length; lia.
Qed.

Lemma output_segment_ok seg m c :
  c_live c = true -> sending iss c -> seg_ok iss (written (c_trace c)) m seg ->
  sends iss (tcp_output_segment seg) (fun _ c' => tx (c_pcb c') = tx (c_pcb c) /\
    persist_backoff (tm (c_pcb c')) = persist_backoff (tm (c_pcb c))) c.
Proof.
  intros Hl Hc [Hr Hca _ _ Hh Hsum _]. unfold tcp_output_segment, tcp_output_segment_busy.
  rewrite Hr. simpl (negb _). cbv iota. apply sends_pcb; [done|]. cbv zeta.
  eapply (sends_bind _ _ _ (fun _ c' => tx (c_pcb c') = tx (c_pcb c) /\ c_trace c' = c_trace c /\
            persist_backoff (tm (c_pcb c')) = persist_backoff (tm (c_pcb c)))).
  { apply sends_upd; [done | frame | ignored | done]. }
  intros _ c1 _ Hl1 Hc1 (Hx1 & Ht1 & Hb1). rewrite Hl in Hl1.
  eapply (sends_bind _ _ _ (fun _ c' => tx (c_pcb c') = tx (c_pcb c1) /\ c_trace c' = c_trace c1 /\
            persist_backoff (tm (c_pcb c')) = persist_backoff (tm (c_pcb c1)))).
  { apply sends_upd; [done | frame | ignored | ]; cbn; by destruct (_ <? 0). }
  intros _ c2 _ Hl2 Hc2 (Hx2 & Ht2 & Hb2). rewrite Hl1 in Hl2.
  apply twp_bind, twp_gets.
  eapply (sends_bind _ _ _ (fun _ c' => tx (c_pcb c') = tx (c_pcb c2) /\ c_trace c' = c_trace c2 /\
            persist_backoff (tm (c_pcb c')) = persist_backoff (tm (c_pcb c2)))).
  { apply sends_upd; [done | frame | ignored | done]; cbn; by destruct (_ =? 0). }
  intros _ c3 _ Hl3 Hc3 (Hx3 & Ht3 & Hb3).
  match goal with |- context [LWIP_ASSERT (zlen ?o =? _)] => set (opts := o) end.
  destruct (opts_length seg (tcp_eff_send_mss_netif TCP_MSS true (id_remote_ip (pcb_id (c_pcb c))))) as [Ho Ho40].
  fold opts in Ho, Ho40.
  apply twp_bind, twp_assert; [by apply Z.eqb_eq|].
  apply twp_bind, twp_assert.
  { apply orb_true_iff. destruct Hsum as [Hd|Hd]; [right|by left].
    apply Z.eqb_eq. unfold sg_len. rewrite Hd, zlen_nil. lia. }
  match goal with |- context [segment_chksum ?a ?s ?o] => destruct (segment_chksum_defined a s o) as [k Hk] end;
    [unfold be16_bytes; cbn; by rewrite ?le_split_length|cbn; lia|done|].
  apply twp_bind. eapply twp_lift; [exact Hk|].
  eapply sends_mono; [apply ip_output_ok; [done|]|].
  - cbn. by rewrite Ht3, Ht2, Ht1.
  - intros r c' _ Hp. simpl in Hp. rewrite Hp. split; congruence.
Qed.

(** ** The output loop *)

Lemma seg_ok_flag W m f s :
  has f TCP_RST = false -> seg_ok iss W m s -> seg_ok iss W m (TCPH_SET_FLAG f s).
Proof.
  intros Hf []. split; try done; cbn.
  - by rewrite has_lor, so_rst, Hf.
  - revert so_len. unfold TCP_TCPLEN, sg_len. cbn. rewrite has_lor.
    destruct (has (sg_hdrflags s) (Z.lor TCP_FIN TCP_SYN)); [done|]. cbn [orb].
    destruct (has f (Z.lor TCP_FIN TCP_SYN)); lia.
Qed.

Lemma insert_before_perm seg l : insert_before seg l ≡ₚ seg :: l.
Proof.
  induction l as [|cur l IH]; simpl; [done|]. destruct (TCP_SEQ_LT _ _); [|done].
  rewrite IH. apply Permutation_swap.
Qed.

Lemma queue_unacked_perm seg l : queue_unacked seg l ≡ₚ seg :: l.
Proof.
  unfold queue_unacked. destruct (last l) as [u|] eqn:Hl.
  - destruct (TCP_SEQ_LT _ _); [apply insert_before_perm|]. by rewrite Permutation_app_comm.
  - by apply last_None in Hl as ->.
Qed.

(** The state with [unsent_oversize] reset when nothing is unsent, as [tcp_output]
    leaves it at its end. *)
Definition clear_oversize (s : sender) : sender :=
  match unsent s with [] => set_unsent_oversize 0 s | _ => s end.
Definition norm (c : conn) : conn := set_pcb (set_tx (clear_oversize (tx (c_pcb c))) (c_pcb c)) c.

Lemma norm_cons c : unsent (tx (c_pcb c)) <> [] -> norm c = c.
Proof.
  intros Hu. unfold norm, clear_oversize. destruct (unsent (tx (c_pcb c))); [done|].
  by destruct c as [[] ? ? ? ? ? ? ? ?].
Qed.

Lemma sending_active c : sending iss c -> unsent (tx (c_pcb c)) <> [] -> c_list c = ActiveList.
Proof. intros [_ Hq _] Hu. case_bool_decide; [done|]. by destruct Hq. Qed.

Lemma sending_queues c : sending iss c -> c_list c = ActiveList ->
  queues_ok iss (written (c_trace c)) (c_pcb c).
Proof. intros [_ Hq _] Hl. by rewrite bool_decide_true in Hq. Qed.

(** The first unsent segment gets a flag. *)
Lemma sending_head c seg rest f :
  sending iss c -> unsent (tx (c_pcb c)) = seg :: rest -> has f TCP_RST = false ->
  sending iss (set_pcb (set_tx (set_unsent (TCPH_SET_FLAG f seg :: rest) (tx (c_pcb c))) (c_pcb c)) c).
Proof.
  intros Hc Hu Hf. pose proof (sending_active c Hc ltac:(by rewrite Hu)) as Hl.
  pose proof (sending_queues c Hc Hl) as Hq. destruct Hc as [[] _ Ht].
  destruct Hq as [Qu Qa Qs Ql Ql16 Qb Qr Qo Qt]. rewrite Hu in Qu, Ql, Qb, Qo, Qt.
  split; cbn; [by split | | done]. rewrite bool_decide_true by done.
  apply Forall_cons in Qu as [Qu1 Qu2].
  split; cbn; try done.
  - apply Forall_cons. split; [by apply seg_ok_flag|done].
  - rewrite Qo. unfold last_oversize. by destruct rest as [|s2 r2].
  - unfold tail_ok in *. destruct rest as [|s2 r2]; [|done]. simpl in *. done.
Qed.

(** The first unsent segment was sent. *)
Lemma sending_sent c seg rest snd_nxt' flags' :
  sending iss c -> unsent (tx (c_pcb c)) = seg :: rest -> has flags' TF_FIN = has (pcb_flags (c_pcb c)) TF_FIN ->
  persist_backoff (tm (c_pcb c)) = 0 ->
  let t := tx (c_pcb c) in
  sending iss (norm (set_pcb (set_flags flags' (set_tx
    (set_unacked (queue_unacked (set_sg_oversize_left 0 seg) (unacked t))
      (set_snd_nxt snd_nxt' (set_unsent rest t))) (c_pcb c))) c)).
Proof.
  intros Hc Hu Hf Hb t. pose proof (sending_active c Hc ltac:(by rewrite Hu)) as Hl.
  pose proof (sending_queues c Hc Hl) as Hq. destruct Hc as [[] _ Ht].
  destruct Hq as [Qu Qa Qs Ql Ql16 Qb Qr Qo Qt]. rewrite Hu in Qu, Ql, Qb, Qo, Qt.
  apply Forall_cons in Qu as [Qu1 Qu2].
  pose proof (queue_unacked_perm (set_sg_oversize_left 0 seg) (unacked t)) as Hp.
  assert (tx (c_pcb (norm (set_pcb (set_flags flags' (set_tx
    (set_unacked (queue_unacked (set_sg_oversize_left 0 seg) (unacked t))
      (set_snd_nxt snd_nxt' (set_unsent rest t))) (c_pcb c))) c))) =
    set_unsent_oversize (match rest with [] => 0 | _ => unsent_oversize t end)
      (set_unacked (queue_unacked (set_sg_oversize_left 0 seg) (unacked t))
        (set_snd_nxt snd_nxt' (set_unsent rest t)))) as Hx.
  { unfold norm, clear_oversize. cbn. destruct rest; by destruct t. }
  split.
  - split; rewrite ?Hx; cbn; rewrite ?Hf; try done.
  - cbn [c_list norm set_pcb]. rewrite bool_decide_true by done.
    split; rewrite ?Hx; cbn; rewrite ?Hf; try done.
    + rewrite Hp. apply Forall_cons. split; [|done]. by destruct Qu1.
    + rewrite Hp. apply Forall_cons. done.
    + rewrite (zlen_perm _ _ Hp), zlen_cons. rewrite zlen_cons in Ql. subst t. lia.
    + rewrite Hp, sum_len_cons. rewrite sum_len_cons in Qb. unfold sg_len in *. cbn. subst t. lia.
    + destruct rest as [|s2 r2]; [done|]. exact Qo.
    + unfold tail_ok in *. destruct rest as [|s2 r2]; [done|]. done.
  - done.
Qed.

Definition loop_post (c : conn) (r : option err_t) (c' : conn) : Prop :=
  steps c c' /\ sending iss (norm c') /\ persist_backoff (tm (c_pcb c')) = 0 /\
  (r <> None -> unsent (tx (c_pcb c')) <> []).

Lemma loop_stop c : sending iss (norm c) -> persist_backoff (tm (c_pcb c)) = 0 -> loop_post c None c.
Proof. intros. split_and!; [reflexivity|done|done|congruence]. Qed.

Lemma output_loop_ok fuel wnd c :
  (length (unsent (tx (c_pcb c))) < fuel)%nat -> c_live c = true -> sending iss (norm c) ->
  persist_backoff (tm (c_pcb c)) = 0 ->
  twp (tcp_output_loop fuel wnd) (loop_post c) c.
Proof.
  revert c. induction fuel as [|fuel IH]; intros c Hfuel Hl Hc Hb; [lia|].
  simpl. apply twp_bind, twp_pcb; [done|].
  destruct (unsent (tx (c_pcb c))) as [|seg rest] eqn:Hu; [apply twp_ret; by apply loop_stop|].
  rewrite norm_cons in Hc by (by rewrite Hu).
  assert (loop_post c None c) as Hstop by (apply loop_stop; [rewrite norm_cons; [done|by rewrite Hu]|done]).
  destruct (negb (fits_window _ _ _)); [by apply twp_ret|].
  pose proof (sending_active c Hc ltac:(by rewrite Hu)) as Hact.
  pose proof (sending_queues c Hc Hact) as Hq. pose proof (qo_unsent _ _ _ Hq) as Hsegs.
  rewrite Hu in Hsegs. apply Forall_cons in Hsegs as [Hseg _].
  apply twp_bind, twp_assert; [by rewrite (so_rst _ _ _ _ Hseg)|].
  destruct (_ && _); [by apply twp_ret|].
  set (seg' := if negb (state_is (pcb_state (c_pcb c)) SYN_SENT) then TCPH_SET_FLAG TCP_ACK seg else seg).
  apply twp_bind, twp_upd_pcb; [done|].
  match goal with |- twp _ _ ?d => set (c1 := d) end.
  assert (sending iss c1) as Hc1.
  { unfold c1, seg'. destruct (negb _); [by apply sending_head|].
    apply (sending_same iss c); try done. cbn. rewrite <- Hu. by destruct (tx (c_pcb c)). }
  assert (steps c c1) as Hs1 by frame.
  assert (seg_ok iss (written (c_trace c1)) (mss (tx (c_pcb c1))) seg') as Hseg'.
  { unfold c1, seg'. destruct (negb _); [by apply seg_ok_flag|done]. }
  apply twp_bind. eapply twp_mono; [apply (output_segment_ok seg' _ c1 Hl Hc1 Hseg')|].
  intros err c2 (Hs2 & Hc2 & Hx2 & Hb2). simpl.
  assert (c_live c2 = true) as Hl2 by (by rewrite (st_live _ _ Hs2)).
  assert (unsent (tx (c_pcb c2)) = seg' :: rest) as Hu2 by (by rewrite Hx2).
  destruct (negb (bool_decide (err = ERR_OK))).
  - apply twp_bind. eapply twp_mono;
      [by apply (sends_flags_set iss TF_NAGLEMEMERR (fun _ c' => tx (c_pcb c') = tx (c_pcb c2) /\
         persist_backoff (tm (c_pcb c')) = persist_backoff (tm (c_pcb c2))))|].
    intros _ c3 (Hs3 & Hc3 & Hx3 & Hb3). apply twp_ret. simpl. split_and!.
    + transitivity c1; [done|]. by transitivity c2.
    + by rewrite norm_cons by (by rewrite Hx3, Hu2).
    + by rewrite Hb3, Hb2.
    + by rewrite Hx3, Hu2.
  - pose proof (so_len _ _ _ _ Hseg') as Hlen.
    assert (TCP_TCPLEN (set_sg_oversize_left 0 seg') = TCP_TCPLEN seg') as -> by done.
    rewrite (proj2 (Z.ltb_lt _ _) Hlen).
    apply twp_bind, twp_upd_pcb; [done|]. apply twp_bind.
    eapply (twp_mono _ (fun _ c' => exists fl, c' = set_pcb (set_flags fl
               (set_tx (set_unsent rest (tx (c_pcb c2))) (c_pcb c2))) c2 /\
               has fl TF_FIN = has (pcb_flags (c_pcb c2)) TF_FIN /\
               has fl TF_RXCLOSED = has (pcb_flags (c_pcb c2)) TF_RXCLOSED /\
               has fl TF_WND_SCALE = has (pcb_flags (c_pcb c2)) TF_WND_SCALE)).
    { unfold when. destruct (negb _).
      - apply twp_upd_pcb; [done|]. eexists. split_and!; [done|cbn; flags; done..].
      - apply twp_ret. exists (pcb_flags (c_pcb c2)). by destruct c2 as [[] ? ? ? ? ? ? ? ?]. }
    intros _ c3 (fl & -> & Hf1 & Hf2 & Hf3). simpl.
    apply twp_bind, twp_upd_pcb; [done|]. apply twp_bind, twp_upd_pcb; [done|].
    set (nxt := if TCP_SEQ_LT (snd_nxt (tx (c_pcb c2))) (u32 (sg_seqno seg' + TCP_TCPLEN seg'))
                then u32 (sg_seqno seg' + TCP_TCPLEN seg') else snd_nxt (tx (c_pcb c2))).
    match goal with |- twp _ _ ?d => assert (d = set_pcb (set_flags fl (set_tx
      (set_unacked (queue_unacked (set_sg_oversize_left 0 seg') (unacked (tx (c_pcb c2))))
      (set_snd_nxt nxt (set_unsent rest (tx (c_pcb c2))))) (c_pcb c2))) c2) as -> end.
    { unfold nxt. cbn. by destruct (TCP_SEQ_LT _ _). }
    eapply twp_mono; [apply IH; cbn; try done|].
    + simpl in Hfuel. lia.
    + by apply sending_sent; [| | |rewrite Hb2].
    + by rewrite Hb2.
    + intros r c3 (Hs3 & Hc3 & Hb3 & Hn). split_and!; try done.
      transitivity c1; [done|]. transitivity c2; [done|]. etransitivity; [|exact Hs3].
      frame.
Qed.

(** ** [tcp_output] *)

Lemma output_done_ok c :
  c_live c = true -> sending iss c -> sends iss output_done (fun _ _ => True) c.
Proof.
  intros Hl Hc. unfold output_done. eapply (sends_bind _ _ _ (fun _ _ => True)).
  - apply sends_upd; [done|frame|ignored|done].
  - intros. by apply sends_ret.
Qed.

(** Nothing that needs the window is sent: the pending acknowledgement, if any. *)
Lemma output_idle_ok p c :
  c_live c = true -> sending iss c ->
  sends iss (if has (pcb_flags p) TF_ACK_NOW then tcp_send_empty_ack else output_done) (fun _ _ => True) c.
Proof.
  intros Hl Hc. destruct (has _ _); [|by apply output_done_ok].
  eapply sends_mono; [by apply empty_ack_ok|done].
Qed.

Lemma output_ok c : c_live c = true -> sending iss c -> sends iss tcp_output (fun _ _ => True) c.
Proof.
  intros Hl Hc. unfold tcp_output. apply sends_pcb; [done|].
  apply twp_bind, twp_assert.
  { unfold state_is. rewrite bool_decide_false; [done|]. apply Hc. }
  apply twp_bind, twp_gets. destruct (c_input_pcb c); [by apply sends_ret|].
  destruct (unsent (tx (c_pcb c))) as [|seg rest] eqn:Hu; [by apply output_idle_ok|].
  eapply sends_bind; [by apply (sends_ask _ _ (fun _ c' => c_pcb c' = c_pcb c))|].
  intros r c1 Hs1 Hl1 Hc1 Hp1. rewrite Hl in Hl1. destruct r; [|by apply sends_ret].
  cbv beta zeta. simpl (negb true). cbv iota.
  eapply (sends_bind _ _ _ (fun _ c' => tx (c_pcb c') = tx (c_pcb c) /\ tm (c_pcb c') = tm (c_pcb c))).
  { destruct (ip_addr_isany _); [|apply sends_ret; [done|by rewrite Hp1]].
    destruct (env_local_ip _); [|apply sends_ret; [done|by rewrite Hp1]].
    eapply (sends_bind _ _ _ (fun _ c' => tx (c_pcb c') = tx (c_pcb c) /\ tm (c_pcb c') = tm (c_pcb c))).
    - apply sends_upd; [done|frame|ignored|cbn; by rewrite Hp1].
    - intros _ c2 _ _ Hc2 Hx2. by apply sends_ret. }
  intros ok c2 Hs2 Hl2 Hc2 [Hx2 Ht2]. rewrite Hl1 in Hl2.
  destruct ok; [|by apply sends_ret]. simpl (negb true). cbv iota.
  assert (unsent (tx (c_pcb c2)) <> []) as Hne by (by rewrite Hx2, Hu).
  destruct (negb (fits_window _ _ _)).
  - eapply (sends_bind _ _ _ (fun _ _ => True)).
    + unfold when. destruct (_ && _) eqn:Hw; [|by apply sends_ret].
      apply andb_true_iff in Hw as [Hw _]. apply bool_decide_eq_true in Hw.
      apply sends_upd; [done|frame| |done].
      apply sending_persist; [done|cbn; lia].
    + intros _ c3 _ Hl3 Hc3 _. rewrite Hl2 in Hl3. by apply output_idle_ok.
  - eapply (sends_bind _ _ _ (fun _ c' => tx (c_pcb c') = tx (c_pcb c) /\ persist_backoff (tm (c_pcb c')) = 0)).
    { apply sends_upd; [done|frame| |done]. apply sending_persist; [done|cbn; lia]. }
    intros _ c3 _ Hl3 Hc3 [Hx3 Hb3]. rewrite Hl2 in Hl3.
    apply twp_bind. eapply twp_mono; [apply output_loop_ok|]; try done.
    + rewrite Hx3, Hu. lia.
    + by rewrite norm_cons by (by rewrite Hx3, Hu).
    + intros r c4 (Hs4 & Hc4 & Hb4 & Hn). simpl. destruct r as [e|].
      * apply twp_ret. rewrite norm_cons in Hc4 by auto. done.
      * apply twp_bind, twp_upd_pcb; [by rewrite (st_live _ _ Hs4)|].
        change (set_pcb _ c4) with (norm c4).
        eapply twp_mono; [apply output_done_ok; [|done]; cbn; by rewrite (st_live _ _ Hs4)|].
        intros a c5 (Hs5 & Hc5 & _). split_and!; try done.
        transitivity c4; [done|]. etransitivity; [|exact Hs5]. frame.
Qed.

End out.
