(* ===== verification/TcpWriteProofs.v ===== *)
(** * [tcp_write] appends to the stream

    [tcp_write] either queues all the data it is given behind what was written before,
    or leaves the connection as it was but for the flag [TF_NAGLEMEMERR]. *)
From Stdlib Require Import ZArith Lia.
From stdpp Require Import base list option numbers gmap.
From S2P Require Import Prelude Pbuf Chksum Lwip Tcp TcpOut TcpInv TcpOutProofs.

(** ** Segment options *)

Lemma opt_length_range f : 0 <= LWIP_TCP_OPT_LENGTH f <= 8.
Proof. unfold LWIP_TCP_OPT_LENGTH. repeat case_match; lia. Qed.

Lemma opt_length_checksummed f :
  LWIP_TCP_OPT_LENGTH (Z.lor f TF_SEG_DATA_CHECKSUMMED) = LWIP_TCP_OPT_LENGTH f.
Proof. unfold LWIP_TCP_OPT_LENGTH. flags. by rewrite !orb_false_r. Qed.

(** ** The last unsent segment *)

Lemma update_last_snoc {A} (f : A -> A) l a : update_last f (l ++ [a]) = l ++ [f a].
Proof. unfold update_last. rewrite last_snoc, length_app. simpl. by rewrite take_app_length' by lia. Qed.

Lemma last_inv {A} (l : list A) a : last l = Some a -> exists k, l = k ++ [a].
Proof. apply last_Some. Qed.

Lemma zlen_update_last {A} (f : A -> A) l : zlen (update_last f l) = zlen l.
Proof.
  destruct (last l) as [a|] eqn:Hl.
  - apply last_inv in Hl as [k ->]. by rewrite update_last_snoc, !zlen_app.
  - unfold update_last. by rewrite Hl.
Qed.

Lemma Forall_update_last {A} (P : A -> Prop) (f : A -> A) l :
  Forall P l -> (forall a, last l = Some a -> P a -> P (f a)) -> Forall P (update_last f l).
Proof.
  intros Hl Hf. destruct (last l) as [a|] eqn:Ha.
  - apply last_inv in Ha as [k ->]. rewrite update_last_snoc.
    apply Forall_app in Hl as [Hk Hx]. apply Forall_cons in Hx as [Hx _].
    apply Forall_app. split; [done|]. apply Forall_singleton. by apply Hf.
  - unfold update_last. by rewrite Ha.
Qed.

Lemma last_update_last {A} (f : A -> A) l : last (update_last f l) = f <$> last l.
Proof.
  destruct (last l) as [a|] eqn:Ha.
  - apply last_inv in Ha as [k ->]. by rewrite update_last_snoc, last_snoc.
  - unfold update_last. by rewrite Ha.
Qed.

(** ** Preparing the segments *)

(** Only the count of requests made of the environment changes. *)
Definition calls (c c' : conn) : Prop := exists n, c' = set_calls n c.

Lemma calls_refl c : calls c c.
Proof. exists (c_calls c). by destruct c. Qed.

Lemma calls_trans a b c : calls a b -> calls b c -> calls a c.
Proof. intros [n ->] [m ->]. by exists m. Qed.

Lemma calls_steps c c' : calls c c' -> steps c c'.
Proof. intros [n ->]. frame. Qed.

Lemma calls_sending iss c c' : calls c c' -> sending iss c -> sending iss c'.
Proof. intros [n ->] Hc. ignored. Qed.

Section write.
Context `{Environment}.
Variable iss : Z.
Implicit Types c : conn.

Lemma prealloc_ok len max c :
  twp (tcp_pbuf_prealloc len max) (fun r c' => calls c c' /\
    match r with Some (o, _) => o = u16 (max - len) | None => True end) c.
Proof.
  unfold tcp_pbuf_prealloc, granted, address. apply twp_bind, twp_ask.
  destruct (env_grants _).
  - apply twp_bind, twp_ask, twp_ret. split; [by eexists|done].
  - apply twp_ret. split; [by eexists|done].
Qed.

Lemma create_segment_ok addr data hf seqno opts c :
  c_live c = true -> has opts TF_SEG_DATA_CHECKSUMMED = false ->
  twp (tcp_create_segment addr data hf seqno opts) (fun r c' => calls c c' /\
    match r with
    | Some s => s = mk_seg opts 0 0 false (u32 seqno) (5 + u8 (LWIP_TCP_OPT_LENGTH opts) / 4) hf addr data 1
    | None => True
    end) c.
Proof.
  intros Hl Hf. unfold tcp_create_segment, granted. apply twp_bind, twp_pcb; [done|].
  apply twp_bind, twp_ask. destruct (env_grants _).
  - apply twp_bind, twp_assert; [by rewrite Hf|]. apply twp_ret. split; [by eexists|done].
  - apply twp_ret. split; [by eexists|done].
Qed.

(** The segments made of [data] from position [used] up to [pos], after the stream [W]. *)
Record prepared (W data : list Z) (m used pos oversize : Z) (queue : list tcp_seg) : Prop := mk_prepared {
  pr_segs : Forall (seg_ok iss (W ++ data) m) queue;
  pr_sum : sum_len queue = pos - used;
  pr_tail : match last queue with
            | Some s => sg_oversize_left s = oversize /\ 0 <= oversize /\
                        sg_len s + LWIP_TCP_OPT_LENGTH (sg_flags s) + oversize <= m /\
                        exists l, W ++ ztake pos data = l ++ sg_data s /\
                                  sg_seqno s = u32 (iss + 1 + zlen l)
            | None => pos = used
            end;
}.

Lemma new_segment W data m used pos oversize oversize' addr queue chksum swapped :
  8 <= m <= TCP_MSS -> 0 <= used -> used <= pos -> pos < zlen data -> zlen data < 2 ^ 16 ->
  let seglen := Z.min (zlen data - pos) m in
  let s := set_sg_flags TF_SEG_DATA_CHECKSUMMED (set_sg_chksum_swapped swapped
             (set_sg_chksum chksum (set_sg_oversize_left oversize'
               (mk_seg 0 0 0 false (u32 (u32 (u32 (iss + 1 + zlen W) + pos))) 5 0 addr
                  (ztake seglen (zdrop pos data)) 1)))) in
  oversize' = m - seglen ->
  prepared W data m used pos oversize queue ->
  prepared W data m used (pos + seglen) oversize' (queue ++ [s]).
Proof.
  intros Hm Hu Hp Hlt H16 seglen s -> [Hq Hsum _].
  assert (0 < seglen <= m /\ pos + seglen <= zlen data) as [Hs1 Hs2] by (unfold seglen; lia).
  assert (zlen (zdrop pos data) = zlen data - pos) as Hd by (rewrite zlen_zdrop; lia).
  assert (sg_len s = seglen) as Hlen by (unfold s, sg_len; cbn; rewrite zlen_ztake; lia).
  assert (data = (ztake pos data) ++ sg_data s ++ zdrop seglen (zdrop pos data)) as Hsplit.
  { unfold s. cbn. by rewrite !ztake_zdrop. }
  assert (sg_seqno s = u32 (iss + 1 + zlen (W ++ ztake pos data))) as Hseq.
  { unfold s. cbn. rewrite zlen_app, zlen_ztake by lia.
    rewrite (wrap_wrap 32 (_ + pos)), wrap_add_l by lia. f_equal. lia. }
  assert (seg_ok iss (W ++ data) m s) as Hok.
  { split; cbn; try done.
    - right. exists (W ++ ztake pos data), (zdrop seglen (zdrop pos data)). split; [|done].
      rewrite Hsplit at 1. by rewrite !app_assoc.
    - unfold sg_len in Hlen. unfold sg_len. cbn. change (LWIP_TCP_OPT_LENGTH _) with 0. cbn in Hlen. lia.
    - by right.
    - unfold TCP_TCPLEN. rewrite Hlen. destruct (has _ _); lia. }
  split.
  - apply Forall_app. split; [done|]. by apply Forall_singleton.
  - rewrite sum_len_app, sum_len_cons, Hlen, Hsum. change (sum_len []) with 0. lia.
  - rewrite last_snoc. split_and!; [done|lia| |].
    + change (LWIP_TCP_OPT_LENGTH _) with 0. rewrite Hlen. lia.
    + exists (W ++ ztake pos data). split; [|done]. unfold s. cbn. rewrite <- app_assoc. f_equal.
      rewrite <- (ztake_zdrop pos data) at 1. rewrite ztake_app, zlen_ztake by lia.
      rewrite (ztake_all (pos + seglen)) by (rewrite zlen_ztake; lia). f_equal. f_equal. lia.
Qed.

Lemma write_segments_ok fuel data used W queue : forall pos oversize queuelen c,
  c_live c = true -> snd_lbb (tx (c_pcb c)) = u32 (iss + 1 + zlen W) ->
  8 <= mss (tx (c_pcb c)) <= TCP_MSS ->
  0 <= used <= pos -> pos <= zlen data -> zlen data < 2 ^ 16 -> 0 <= queuelen ->
  (pos < zlen data -> queuelen <= TCP_SND_QUEUELEN) ->
  (0 < fuel)%nat -> TCP_SND_QUEUELEN < Z.of_nat fuel + queuelen ->
  prepared W data (mss (tx (c_pcb c))) used pos oversize queue ->
  twp (tcp_write_segments fuel (mss (tx (c_pcb c))) data pos queue oversize queuelen)
    (fun r c' => calls c c' /\
       match r with
       | Some (queue', oversize', queuelen') =>
           prepared W data (mss (tx (c_pcb c))) used (zlen data) oversize' queue' /\
           (pos = zlen data -> queue' = queue /\ oversize' = oversize) /\
           queuelen' = queuelen + zlen queue' - zlen queue /\
           (pos < zlen data -> queuelen' <= TCP_SND_QUEUELEN)
       | None => True
       end) c.
Proof.
  revert queue. induction fuel as [|fuel IH]; intros queue pos oversize queuelen c Hl Hlbb Hm Hp1 Hp2 H16 Hq0 Hq
    Hf0 Hfuel Hpr; [lia|].
  simpl. destruct (Z.ltb_spec pos (zlen data)) as [Hlt|Hge].
  2:{ apply twp_ret. split; [apply calls_refl|]. replace (zlen data) with pos by lia.
      split_and!; try done; lia. }
  specialize (Hq Hlt).
  apply twp_bind, twp_pcb; [done|]. cbv zeta.
  change (LWIP_TCP_OPT_LENGTH 0) with 0. rewrite !Z.sub_0_r, !Z.add_0_r.
  change TCP_MSS with 1460 in *. change TCP_SND_QUEUELEN with 4096 in *.
  set (m := mss (tx (c_pcb c))) in *.
  rewrite (wrap_small 16 m), (wrap_small 16 (zlen data - pos)) by (unfold fits; lia).
  set (seglen := Z.min (zlen data - pos) m).
  assert (0 < seglen <= m /\ pos + seglen <= zlen data) as [Hs1 Hs2] by (unfold seglen; lia).
  rewrite (wrap_small 16 seglen) by (unfold fits; lia).
  apply twp_bind. eapply twp_mono; [apply prealloc_ok|]. intros r c1 [[n1 ->] Hr].
  destruct r as [[over addr]|]; [|apply twp_ret; split; [by eexists|done]].
  rewrite (wrap_small 16 (m - seglen)) in Hr by (unfold fits; lia). subst over.
  destruct (tcp_data_copy _ _ _ _) as [chksum swapped].
  rewrite (wrap_small 16 (queuelen + 1)) by (unfold fits; lia).
  change (Z.min 4096 TCP_SNDQUEUELEN_OVERFLOW) with 4096.
  destruct (Z.ltb_spec 4096 (queuelen + 1)); [apply twp_ret; split; [by eexists|done]|].
  apply twp_bind. eapply twp_mono; [by apply create_segment_ok|]. intros r c2 [[n2 ->] Hr].
  destruct r as [seg|]; [|apply twp_ret; split; [by eexists|done]]. subst seg.
  change (c_pcb c) with (c_pcb (set_calls n2 (set_calls n1 c))) in m.
  rewrite (wrap_small 16 (pos + seglen)) by (unfold fits; lia).
  eapply twp_mono.
  - apply (IH _ (pos + seglen) (m - seglen) (queuelen + 1)); try done; try lia.
    rewrite Hlbb. by eapply (new_segment W data m used pos oversize (m - seglen) addr queue chksum swapped);
      try done; try lia.
  - intros r c3 [[n3 ->] Hr]. split; [by eexists|]. destruct r as [[[q o] ql]|]; [|done].
    destruct Hr as (Ha & Hb & -> & Hd). rewrite zlen_app, zlen_cons, zlen_nil in *.
    split_and!; [done|lia|lia|]. intros _.
    destruct (Z.eq_dec (pos + seglen) (zlen data)) as [He|]; [|apply Hd; lia].
    destruct (Hb He) as [-> _]. rewrite zlen_app, zlen_cons, zlen_nil. lia.
Qed.

(** ** The spare room of the last segment *)

Lemma unsent_oversize_nonneg W p : queues_ok iss W p -> 0 <= unsent_oversize (tx p).
Proof.
  intros []. rewrite qo_oversize. unfold last_oversize, tail_ok in *.
  destruct (last _); [by destruct qo_tail|done].
Qed.

Lemma write_oversize_ok W len c :
  c_live c = true -> queues_ok iss W (c_pcb c) -> mss (tx (c_pcb c)) <= TCP_MSS -> 0 <= len ->
  twp (tcp_write_oversize (mss (tx (c_pcb c))) len) (fun r c' =>
    let '(oversize, used, _) := r in
    c' = c /\ used = Z.min (unsent_oversize (tx (c_pcb c))) len /\
    oversize = unsent_oversize (tx (c_pcb c)) - used) c.
Proof.
  intros Hl Hq Hm Hlen. pose proof (unsent_oversize_nonneg _ _ Hq) as Hn.
  destruct Hq as [Qu _ _ _ _ _ _ Qo Qt]. change TCP_MSS with 1460 in Hm.
  unfold tcp_write_oversize, last_oversize, tail_ok in *.
  apply twp_bind, twp_pcb; [done|]. destruct (last _) as [s|] eqn:Hs.
  - apply last_inv in Hs as [k Hk]. rewrite Hk in Qu. apply Forall_app in Qu as [_ Qs].
    apply Forall_cons in Qs as [Qs _]. destruct Qs as [_ _ Hroom _ _ _ _]. destruct Qt as [_ Ht].
    pose proof (opt_length_range (sg_flags s)). pose proof (zlen_nonneg (sg_data s)). unfold sg_len in *.
    apply twp_bind, twp_assert; [by apply Z.leb_le|]. cbv zeta.
    rewrite (wrap_small 16 (_ - (_ + _))) by (unfold fits; lia).
    apply twp_bind, twp_assert; [by apply Z.eqb_eq|].
    destruct (Z.ltb_spec 0 (unsent_oversize (tx (c_pcb c)))) as [Hpos|Hz].
    + destruct Ht as [Ht _]; [lia|].
      apply twp_bind, twp_assert; [apply Z.leb_le; lia|]. rewrite Z.min_r by lia.
      rewrite wrap_small by (unfold fits; lia).
      apply twp_bind, twp_assert.
      { apply orb_true_iff. rewrite !Z.eqb_eq. lia. }
      apply twp_ret. split_and!; lia || done.
    + apply twp_bind, twp_assert.
      { apply orb_true_iff. rewrite !Z.eqb_eq. lia. }
      apply twp_ret. split_and!; lia || done.
  - apply twp_bind, twp_assert; [by apply Z.eqb_eq|]. apply twp_ret. split_and!; lia || done.
Qed.

(** ** The new queue *)

(** [u2] is [u] with [data] appended; [o] is the spare room of its last segment. *)
Record appended (W data : list Z) (m : Z) (u u2 : list tcp_seg) (n o : Z) : Prop := mk_appended {
  ap_segs : Forall (seg_ok iss (W ++ data) m) u2;
  ap_len : zlen u2 = zlen u + n;
  ap_sum : sum_len u2 = sum_len u + zlen data;
  ap_oversize : last_oversize u2 = o;
  ap_tail : tail_ok iss (W ++ data) m false u2;
}.

Lemma sum_len_update_last f l d :
  (forall s, last l = Some s -> sg_len (f s) = sg_len s + d) -> l <> [] ->
  sum_len (update_last f l) = sum_len l + d.
Proof.
  intros Hf Hne. destruct (last l) as [s|] eqn:Hs; [|by apply last_None in Hs].
  apply last_inv in Hs as [k ->]. rewrite update_last_snoc, !sum_len_app, !sum_len_cons, (Hf s) by done. lia.
Qed.

Lemma appended_push W data m u u2 n o :
  appended W data m u u2 n o -> appended W data m u (update_last (TCPH_SET_FLAG TCP_PSH) u2) n o.
Proof.
  intros []. split.
  - apply Forall_update_last; [done|]. intros s _. by apply seg_ok_flag.
  - by rewrite zlen_update_last.
  - destruct u2 as [|s u2]; [done|]. rewrite (sum_len_update_last _ _ 0); [lia| |done]. intros. by rewrite Z.add_0_r.
  - rewrite <- ap_oversize0. unfold last_oversize. rewrite last_update_last. by destruct (last u2).
  - unfold tail_ok in *. rewrite last_update_last. by destruct (last u2).
Qed.

(** The queue of new segments goes behind the old ones. *)
Lemma appended_queue W data m u1 used oversize queue :
  Forall (seg_ok iss (W ++ data) m) u1 -> 0 <= used ->
  (queue = [] -> last_oversize u1 = oversize /\ tail_ok iss (W ++ data) m false u1) ->
  prepared W data m used (zlen data) oversize queue ->
  forall u, zlen u1 = zlen u -> sum_len u1 = sum_len u + used ->
  appended W data m u (u1 ++ queue) (zlen queue) oversize.
Proof.
  intros Hu1 Hused Hq [Hsegs Hsum Htail] u Hlen Hs. split.
  - by apply Forall_app.
  - rewrite zlen_app. lia.
  - rewrite sum_len_app. lia.
  - unfold last_oversize. rewrite last_app. destruct (last queue) as [s|] eqn:Hl; [by destruct Htail|].
    apply last_None in Hl as ->. by destruct Hq.
  - unfold tail_ok. rewrite last_app. destruct (last queue) as [s|] eqn:Hl.
    + destruct Htail as (-> & H0 & Hr & l & He & Hseq). split; [done|]. intros _. split; [done|]. intros _.
      exists l. rewrite ztake_all in He by lia. done.
    + apply last_None in Hl as ->. by destruct Hq.
Qed.

Lemma extend_seg_ok W data m k s used :
  Forall (seg_ok iss W m) (k ++ [s]) -> tail_ok iss W m false (k ++ [s]) ->
  0 < used -> used = Z.min (sg_oversize_left s) (zlen data) -> m <= TCP_MSS ->
  let s' := extend_seg (ztake used data) s in
  seg_ok iss (W ++ data) m s' /\ sg_len s' = sg_len s + used /\
  sg_oversize_left s' = sg_oversize_left s - used /\
  (used = zlen data -> tail_ok iss (W ++ data) m false (k ++ [s'])).
Proof.
  intros Hall Ht Hpos Hused Hm. change TCP_MSS with 1460 in Hm.
  apply Forall_app in Hall as [_ Hs]. apply Forall_cons in Hs as [[] _].
  unfold tail_ok in *. rewrite last_snoc in Ht. destruct Ht as [_ Ht].
  destruct Ht as [Hroom Hend]; [lia|]. destruct (Hend eq_refl) as (l & Hl & Hseq).
  pose proof (opt_length_range (sg_flags s)). pose proof (zlen_nonneg (sg_data s)).
  assert (zlen (ztake used data) = used) as Hzt by (rewrite zlen_ztake; lia).
  unfold extend_seg. destruct (tcp_data_copy _ _ _ _) as [chksum swapped]. cbv zeta.
  match goal with |- seg_ok _ _ _ ?x /\ _ => set (s' := x) end.
  assert (sg_len s' = sg_len s + used) as Hlen.
  { unfold s', sg_len. cbn. by rewrite zlen_app, Hzt. }
  assert (sg_oversize_left s' = sg_oversize_left s - used) as Hover.
  { unfold s'. cbn. rewrite Hzt. unfold sg_len in *. apply wrap_small. unfold fits. lia. }
  assert (LWIP_TCP_OPT_LENGTH (sg_flags s') = LWIP_TCP_OPT_LENGTH (sg_flags s)) as Hopt
    by apply opt_length_checksummed.
  split_and!; try done.
  - split; try done.
    + right. exists l, (zdrop used data). split; [|done]. unfold s'. cbn.
      by rewrite Hl, <- !app_assoc, ztake_zdrop.
    + rewrite Hopt, Hlen. unfold sg_len in *. lia.
    + by rewrite Hopt.
    + right. unfold s'. cbn. flags. apply orb_true_r.
    + revert so_len. unfold TCP_TCPLEN. rewrite Hlen. change (sg_hdrflags s') with (sg_hdrflags s).
      destruct (has _ _); lia.
  - intros He. rewrite last_snoc. split; [unfold sg_len in *; lia|]. intros _.
    split; [rewrite Hopt; unfold sg_len in *; lia|]. intros _. exists l. split; [|done].
    unfold s'. cbn. rewrite ztake_all by lia. by rewrite Hl, <- app_assoc.
Qed.

(** The queue after [tcp_write]. *)
Lemma appended_ok W data p used oversize queue :
  queues_ok iss W p -> has (pcb_flags p) TF_FIN = false -> mss (tx p) <= TCP_MSS ->
  used = Z.min (unsent_oversize (tx p)) (zlen data) ->
  (queue = [] -> oversize = unsent_oversize (tx p) - used) ->
  prepared W data (mss (tx p)) used (zlen data) oversize queue ->
  let u := unsent (tx p) in
  appended W data (mss (tx p)) u
    ((if 0 <? used then update_last (extend_seg (ztake used data)) u else u) ++ queue)
    (zlen queue) oversize.
Proof.
  intros Hq Hfin Hm Hused Hov Hpr. cbv zeta.
  pose proof (unsent_oversize_nonneg _ _ Hq) as Hn. pose proof (zlen_nonneg data).
  destruct Hq as [Qu _ _ _ _ _ _ Qo Qt]. rewrite Hfin in Qt.
  assert (Forall (seg_ok iss (W ++ data) (mss (tx p))) (unsent (tx p))) as Hgrow
    by (eapply Forall_impl; [exact Qu|]; intros; by apply seg_ok_grow).
  destruct (Z.ltb_spec 0 used) as [Hpos|Hz].
  - destruct (last (unsent (tx p))) as [s|] eqn:Hs; unfold last_oversize in Qo; rewrite Hs in Qo; [|lia].
    apply last_inv in Hs as [k Hk]. rewrite Hk in Qu, Qt, Hgrow |- *. rewrite update_last_snoc.
    destruct (extend_seg_ok W data (mss (tx p)) k s used) as (Hok & Hlen & Hover & Htail);
      [done|done|lia|lia|done|].
    apply Forall_app in Hgrow as [Hgk _].
    eapply (appended_queue W data _ _ used); [|lia| |exact Hpr| |].
    + apply Forall_app. split; [done|]. apply Forall_cons. split; [done|constructor].
    + intros Hempty. split.
      * unfold last_oversize. rewrite last_snoc, Hover, <- Qo. symmetry. by apply Hov.
      * apply Htail. destruct Hpr as [_ _ Hp]. subst queue. simpl in Hp. lia.
    + by rewrite !zlen_app.
    + rewrite !sum_len_app, !sum_len_cons. change (sum_len []) with 0. lia.
  - assert (used = 0) as Hu0 by lia. eapply (appended_queue W data _ _ used); [done|lia| |exact Hpr|done|lia].
    intros Hempty. destruct Hpr as [_ _ Hp]. subst queue. simpl in Hp.
    assert (data = []) as -> by (apply zlen_zero; lia). rewrite app_nil_r.
    split; [|done]. rewrite <- Qo, (Hov eq_refl). lia.
Qed.

(** ** Committing *)

Lemma queue_count W p :
  queues_ok iss W p -> (snd_queuelen (tx p) =? 0) || queue_nonempty p = true.
Proof.
  intros []. unfold queue_nonempty. destruct (unsent (tx p)); [|by rewrite !orb_true_r].
  destruct (unacked (tx p)); [|by rewrite orb_true_r]. by rewrite qo_len.
Qed.

Definition committed (data : list Z) (u2 : list tcp_seg) (oversize queuelen : Z) (t : sender) : sender :=
  set_snd_queuelen queuelen (set_snd_buf (u32 (snd_buf t - zlen data))
    (set_snd_lbb (u32 (snd_lbb t + zlen data)) (set_unsent u2 (set_unsent_oversize oversize t)))).

Lemma committed_sending data u2 oversize n c :
  sending iss c -> c_list c = ActiveList -> has (pcb_flags (c_pcb c)) TF_FIN = false ->
  let t := tx (c_pcb c) in
  appended (written (c_trace c)) data (mss t) (unsent t) u2 n oversize ->
  snd_queuelen t + n + 1 < 2 ^ 16 -> zlen data <= snd_buf t ->
  sending iss (set_trace (c_trace c ++ [Written data])
    (set_pcb (set_tx (committed data u2 oversize (snd_queuelen t + n) t) (c_pcb c)) c)).
Proof.
  intros Hc Hact Hfin. cbv zeta. intros Ha Hn Hb. pose proof (sending_queues _ c Hc Hact) as Hq.
  destruct Hc as [[] _ Ht], Ha, Hq. pose proof (zlen_nonneg data).
  assert (written (c_trace c ++ [Written data]) = written (c_trace c) ++ data) as Hw.
  { rewrite written_app. unfold written at 2. simpl. by rewrite app_nil_r. }
  assert (snd_buf (tx (c_pcb c)) - zlen data = u32 (snd_buf (tx (c_pcb c)) - zlen data)) as Hbuf.
  { symmetry. apply wrap_small. unfold fits. pose proof (sum_len_nonneg (unsent (tx (c_pcb c)))).
    pose proof (sum_len_nonneg (unacked (tx (c_pcb c)))). change TCP_SND_BUF with 1495040 in *. lia. }
  split; cbn [c_trace c_pcb c_list set_trace set_pcb]; rewrite ?Hw.
  - split; cbn; try done. intros Hf. rewrite (co_lbb Hf), wrap_add_l, zlen_app. f_equal. lia.
  - rewrite bool_decide_true by done. split; cbn; rewrite ?Hfin; try done; rewrite <- ?Hbuf; cbn; try lia.
    + eapply Forall_impl; [exact qo_unacked|]. intros. by apply seg_ok_grow.
  - apply Forall_app. split; [|by apply Forall_singleton].
    eapply Forall_impl; [exact Ht|]. intros. by apply event_ok_grow.
Qed.

Lemma write_commit_ok data apiflags oversize used is_last queue c :
  c_live c = true -> sending iss c -> c_list c = ActiveList ->
  has (pcb_flags (c_pcb c)) TF_FIN = false ->
  let t := tx (c_pcb c) in
  used = Z.min (unsent_oversize t) (zlen data) ->
  (queue = [] -> oversize = unsent_oversize t - used) ->
  prepared (written (c_trace c)) data (mss t) used (zlen data) oversize queue ->
  snd_queuelen t + zlen queue + 1 < 2 ^ 16 -> zlen data <= snd_buf t ->
  twp (tcp_write_commit data apiflags oversize used is_last queue (snd_queuelen t + zlen queue))
    (fun _ c' => steps c c' /\ sending iss c' /\ c_trace c' = c_trace c ++ [Written data] /\
       unacked (tx (c_pcb c')) = unacked t /\ pcb_flags (c_pcb c') = pcb_flags (c_pcb c)) c.
Proof.
  intros Hl Hc Hact Hfin t Hused Hov Hpr Hn Hb.
  pose proof (sending_queues _ c Hc Hact) as Hq.
  pose proof (co_mss _ _ _ (se_pcb _ _ Hc)) as [_ Hm].
  pose proof (appended_ok _ _ _ _ _ _ Hq Hfin Hm Hused Hov Hpr) as Ha. fold t in Ha. cbv zeta in Ha.
  set (u1 := if 0 <? used then update_last (extend_seg (ztake used data)) (unsent t) else unsent t) in *.
  set (n := snd_queuelen t + zlen queue) in *.
  unfold tcp_write_commit. apply twp_bind, twp_pcb; [done|]. cbv zeta. apply twp_bind.
  eapply (twp_mono _ (fun _ c' => c' = set_pcb (set_tx (set_unsent u1 t) (c_pcb c)) c)).
  { unfold u1, t. apply twp_when.
    - intros Hu. rewrite Hu. apply Z.ltb_lt in Hu. apply twp_bind, twp_assert; [|by apply twp_upd_pcb].
      destruct Hq. unfold last_oversize in *. fold t in qo_oversize |- *. destruct (last _); [apply Z.leb_le|]; lia.
    - intros ->. by destruct c as [[? ? ? ? [] ? ? ?] ? ? ? ? ? ? ? ?]. }
  intros _ c1 ->. do 5 (apply twp_bind, twp_upd_pcb; [done|]). apply twp_bind, twp_pcb; [done|].
  apply twp_bind, twp_assert.
  { pose proof (ap_len _ _ _ _ _ _ _ Ha) as Hlen. apply orb_true_iff. unfold queue_nonempty. cbn.
    fold u1 t. destruct (u1 ++ queue); [|right; by rewrite orb_true_r].
    destruct (unacked t) eqn:Hk; [|by right]. left. apply Z.eqb_eq. destruct Hq. fold t in qo_len.
    rewrite Hk in qo_len. rewrite !zlen_nil in *. unfold n. lia. }
  apply twp_bind.
  eapply (twp_mono _ (fun _ c' => exists u2, c' = set_pcb (set_tx (committed data u2 oversize n t) (c_pcb c)) c /\
            appended (written (c_trace c)) data (mss t) (unsent t) u2 (zlen queue) oversize)).
  { apply twp_when; intros _.
    - apply twp_upd_pcb; [done|]. eexists. split; [|by apply appended_push]. done.
    - eexists. split; [|done]. done. }
  intros _ c2 (u2 & -> & Ha2). apply twp_emit. split_and!; try done.
  - split; try done. exists [Written data]. split; [done|]. by apply Forall_singleton.
  - by apply (committed_sending data u2 oversize (zlen queue) c).
Qed.

(** ** [tcp_write] *)

Definition write_post (data : list Z) (c : conn) (err : err_t) (c' : conn) : Prop :=
  steps c c' /\ sending iss c' /\
  if bool_decide (err = ERR_OK) then
    c_trace c' = c_trace c ++ [Written data] /\ unacked (tx (c_pcb c')) = unacked (tx (c_pcb c)) /\
    pcb_flags (c_pcb c') = pcb_flags (c_pcb c)
  else
    err = ERR_MEM /\ c_trace c' = c_trace c /\
    c_pcb c' = set_flags (u16 (Z.lor (pcb_flags (c_pcb c)) TF_NAGLEMEMERR)) (c_pcb c).

Lemma no_memory_ok data c c' :
  c_live c = true -> sending iss c -> calls c c' ->
  twp (tcp_set_flags TF_NAGLEMEMERR) (fun _ c2 => write_post data c ERR_MEM c2) c'.
Proof.
  intros Hl Hc [n ->]. apply twp_upd_pcb; [done|]. split_and!; [frame|ignored|done].
Qed.

Lemma write_checks_ok len data c :
  c_live c = true -> sending iss c -> c_list c = ActiveList -> writable (pcb_state (c_pcb c)) = true ->
  len = zlen data ->
  twp (tcp_write_checks len) (fun err c' =>
    if bool_decide (err = ERR_OK) then
      c' = c /\ (0 < len -> len <= snd_buf (tx (c_pcb c)) /\ snd_queuelen (tx (c_pcb c)) < TCP_SND_QUEUELEN)
    else err = ERR_MEM /\ write_post data c ERR_MEM c') c.
Proof.
  intros Hl Hc Hact Hw ->. pose proof (sending_queues _ c Hc Hact) as Hq. unfold tcp_write_checks.
  apply twp_bind, twp_pcb; [done|].
  destruct (_ && _ && _ && _) eqn:Hst.
  { exfalso. unfold writable in Hw. rewrite !andb_true_iff, !negb_true_iff in Hst.
    destruct Hst as [[[H1 H2] H3] H4]. by rewrite H1, H2, H3, H4 in Hw. }
  destruct (Z.eqb_spec (zlen data) 0); [apply twp_ret; split; [done|lia]|].
  destruct (Z.ltb_spec (snd_buf (tx (c_pcb c))) (zlen data)).
  { apply twp_bind. eapply twp_mono; [apply (no_memory_ok data c c); try done; apply calls_refl|].
    intros ? c' Hp. by apply twp_ret. }
  change (Z.min TCP_SND_QUEUELEN (TCP_SNDQUEUELEN_OVERFLOW + 1)) with TCP_SND_QUEUELEN.
  destruct (Z.leb_spec TCP_SND_QUEUELEN (snd_queuelen (tx (c_pcb c)))).
  { apply twp_bind. eapply twp_mono; [apply (no_memory_ok data c c); try done; apply calls_refl|].
    intros ? c' Hp. by apply twp_ret. }
  apply twp_bind, twp_assert.
  { pose proof (queue_count _ _ Hq) as Hcount. destruct (Z.eqb_spec (snd_queuelen (tx (c_pcb c))) 0) as [Hz|]; [|done].
    destruct Hq. unfold queue_nonempty. destruct (unsent _); [|rewrite zlen_cons in *; pose proof (zlen_nonneg l);
      pose proof (zlen_nonneg (unacked (tx (c_pcb c)))); lia].
    destruct (unacked _); [done|rewrite zlen_cons in *; pose proof (zlen_nonneg l)]. rewrite zlen_nil in *. lia. }
  apply twp_ret. split; [done|]. by intros _.
Qed.

Lemma write_mss_ok c : sending iss c -> tcp_write_mss (c_pcb c) = mss (tx (c_pcb c)).
Proof.
  intros [[[Hm1 Hm2] Hw _ _ _ _ _] _ _]. change TCP_MSS with 1460 in *. unfold tcp_write_mss, TCPWND_MIN16.
  assert (mss (tx (c_pcb c)) <= snd_wnd_max (tx (c_pcb c)) / 2) by (apply Z.div_le_lower_bound; lia).
  rewrite wrap_small by (unfold fits; lia). rewrite Z.min_l by lia.
  destruct (Z.eqb_spec (mss (tx (c_pcb c))) 0); [lia|done].
Qed.

Lemma write_ok data apiflags c :
  c_live c = true -> sending iss c -> c_list c = ActiveList -> writable (pcb_state (c_pcb c)) = true ->
  zlen data < 2 ^ 16 ->
  twp (tcp_write (Some data) apiflags) (write_post data c) c.
Proof.
  intros Hl Hc Hact Hw H16. pose proof (sending_queues _ c Hc Hact) as Hq.
  pose proof (se_pcb _ _ Hc) as Hpcb.
  pose proof (co_open _ _ _ Hpcb Hw) as Hfin. pose proof (co_mss _ _ _ Hpcb) as Hm.
  pose proof (zlen_nonneg data). pose proof (unsent_oversize_nonneg _ _ Hq).
  unfold tcp_write. apply twp_bind, twp_pcb; [done|]. cbv zeta. rewrite write_mss_ok by done.
  apply twp_bind. eapply twp_mono; [by apply (write_checks_ok _ data)|].
  intros err c1 Herr. cbv beta in Herr |- *. destruct (bool_decide (err = ERR_OK)); cbn [negb]; cbv iota.
  2:{ destruct Herr as [-> Hp]. by apply twp_ret. }
  destruct Herr as [-> Hroom].
  apply twp_bind. eapply twp_mono; [by apply (write_oversize_ok (written (c_trace c))); [..|apply Hm|]|].
  intros [[oversize used] is_last] c1 (-> & Hused & Hov). cbv beta iota.
  change TCP_SND_QUEUELEN with 4096 in *.
  apply twp_bind. eapply twp_mono.
  - apply (write_segments_ok _ data used (written (c_trace c))); try done; try lia.
    + by apply (co_lbb _ _ _ Hpcb).
    + destruct Hq. rewrite qo_len. pose proof (zlen_nonneg (unsent (tx (c_pcb c)))).
      pose proof (zlen_nonneg (unacked (tx (c_pcb c)))). lia.
    + intros. change TCP_SND_QUEUELEN with 4096. lia.
    + unfold tcp_write_fuel. change TCP_SND_QUEUELEN with 4096. lia.
    + destruct Hq. change TCP_SND_QUEUELEN with 4096. unfold tcp_write_fuel.
      change TCP_SND_QUEUELEN with 4096. pose proof (zlen_nonneg (unsent (tx (c_pcb c)))).
      pose proof (zlen_nonneg (unacked (tx (c_pcb c)))). lia.
    + split; [by apply Forall_nil|change (sum_len []) with 0; lia|done].
  - intros r c1 [Hcalls Hr]. cbv beta. destruct r as [[[queue o2] ql]|].
    + destruct Hr as (Hpr & Heq & -> & Hlim). destruct Hcalls as [n ->]. rewrite zlen_nil, Z.sub_0_r.
      change TCP_SND_QUEUELEN with 4096 in *.
      apply twp_bind. eapply twp_mono.
      * apply (write_commit_ok data _ o2 used is_last queue (set_calls n c)); try done; cbn.
        -- by apply (calls_sending _ c); [eexists|].
        -- intros ->. destruct Hpr as [_ _ Htail]. simpl in Htail. by destruct (Heq (symmetry Htail)) as [_ ->].
        -- destruct (Z.eq_dec used (zlen data)) as [Heu|]; swap 1 2.
           { specialize (Hlim ltac:(lia)). rewrite zlen_nil in Hlim. lia. }
           destruct (Heq Heu) as [-> _]. rewrite zlen_nil. destruct Hq. rewrite Hfin in qo_len16. cbn in qo_len16. lia.
        -- destruct Hq. lia.
      * intros _ c2 (Hs & Hc2 & Ht & Hu & Hf). apply twp_ret. split_and!; [|done|].
        -- etransitivity; [|exact Hs]. frame.
        -- by rewrite bool_decide_true.
    + apply twp_bind. eapply twp_mono; [by apply (no_memory_ok data c)|].
      intros ? c2 Hp. cbv beta in Hp |- *. destruct Hp as (Hs2 & Hc2 & Hp).
      apply twp_bind, twp_pcb; [by rewrite (st_live _ _ Hs2)|].
      apply twp_bind, twp_assert; [|by apply twp_ret].
      apply queue_count with (written (c_trace c2)). apply sending_queues; [done|]. by rewrite (st_list _ _ Hs2).
Qed.

End write.
