(* ===== verification/TcpQueueProofs.v ===== *)
(** * Queue operations keep the invariant

    SYN and FIN segments, the splitting of a segment for a small window, window
    probes and retransmission. *)
From Stdlib Require Import ZArith Lia.
From stdpp Require Import base list option numbers gmap.
From S2P Require Import Prelude Pbuf Chksum Lwip Tcp TcpOut TcpInv TcpOutProofs TcpWriteProofs.

Lemma opt_length_words f : u8 (LWIP_TCP_OPT_LENGTH f) / 4 * 4 = LWIP_TCP_OPT_LENGTH f.
Proof. unfold LWIP_TCP_OPT_LENGTH. by repeat case_match. Qed.

Section queue.
Context `{Environment}.
Variable iss : Z.
Implicit Types c : conn.

(** ** Replacing the queues *)

(** A change of the sender's fields that keeps the stream's position. *)
Lemma sending_tx c t' :
  sending iss c -> c_list c = ActiveList ->
  mss t' = mss (tx (c_pcb c)) -> snd_wnd_max t' = snd_wnd_max (tx (c_pcb c)) ->
  snd_lbb t' = snd_lbb (tx (c_pcb c)) ->
  queues_ok iss (written (c_trace c)) (set_tx t' (c_pcb c)) ->
  sending iss (set_pcb (set_tx t' (c_pcb c)) c).
Proof.
  intros [[] _ Ht] Hl Hm Hw Hb Hq.
  split; cbn; [split; cbn; rewrite ?Hm, ?Hw, ?Hb; done|by rewrite bool_decide_true|done].
Qed.

(** The fields of the sender that the invariant does not mention. *)
Lemma sending_fields c t' :
  sending iss c ->
  let t := tx (c_pcb c) in
  mss t' = mss t -> snd_wnd_max t' = snd_wnd_max t -> snd_lbb t' = snd_lbb t ->
  unsent t' = unsent t -> unacked t' = unacked t -> snd_queuelen t' = snd_queuelen t ->
  snd_buf t' = snd_buf t -> unsent_oversize t' = unsent_oversize t ->
  sending iss (set_pcb (set_tx t' (c_pcb c)) c).
Proof.
  intros [[] Hq Ht] t Hm Hw Hb Hu Ha Hn Hs Ho. unfold t in *. clear t.
  split; cbn; [split; cbn; rewrite ?Hm, ?Hw, ?Hb, ?Ha; done|case_bool_decide|done].
  - destruct Hq. split; cbn; rewrite ?Hm, ?Hu, ?Ha, ?Hn, ?Hs, ?Ho; done.
  - unfold idle_queues in *. cbn. by rewrite Hu, Ha, Ho.
Qed.

(** A retransmission is counted. *)
Lemma sending_nrtx c :
  sending iss c ->
  sending iss (set_pcb (set_cc (if nrtx (cc (c_pcb c)) <? 0xFF then set_nrtx (u8 (nrtx (cc (c_pcb c)) + 1)) (cc (c_pcb c))
                                else cc (c_pcb c)) (c_pcb c)) c).
Proof.
  intros [[] Hq Ht]. split; cbn; [split; cbn; try done|case_bool_decide; [|done]|done].
  - destruct (_ <? _); cbn; [|done]. by apply (wrap_fits 8).
  - by destruct Hq.
Qed.

(** ** SYN and FIN segments *)

Definition flag_segment (optflags flags addr seqno : Z) : tcp_seg :=
  mk_seg optflags 0 0 false (u32 seqno) (5 + u8 (LWIP_TCP_OPT_LENGTH optflags) / 4) flags addr [] 1.

Definition syn_options (p : tcp_pcb) : Z :=
  Z.lor TF_SEG_OPTS_MSS
    (if negb (state_is (pcb_state p) SYN_RCVD) || has (pcb_flags p) TF_WND_SCALE
     then TF_SEG_OPTS_WND_SCALE else 0).

(** The control block with a segment of [flags] queued. *)
Definition enqueued (flags : Z) (seg : tcp_seg) (p : tcp_pcb) : tcp_pcb :=
  let t := tx p in
  set_flags (if has flags TCP_FIN then u16 (Z.lor (pcb_flags p) TF_FIN) else pcb_flags p)
    (set_tx (set_snd_queuelen (u16 (snd_queuelen t + 1)) (set_snd_lbb (u32 (snd_lbb t + 1))
      (set_unsent_oversize 0 (set_unsent (unsent t ++ [seg]) t)))) p).

Lemma enqueue_flags_ok flags c :
  c_live c = true -> has flags TCP_SYN || has flags TCP_FIN = true ->
  has flags (Z.lor TCP_SYN TCP_FIN) = true ->
  twp (tcp_enqueue_flags flags) (fun err c' => exists n,
    if bool_decide (err = ERR_OK) then
      exists addr, c' = set_pcb (enqueued flags (flag_segment
          (if has flags TCP_SYN then syn_options (c_pcb c) else 0) flags addr (snd_lbb (tx (c_pcb c))))
          (c_pcb c)) (set_calls n c)
    else err = ERR_MEM /\
      c' = set_pcb (set_flags (u16 (Z.lor (pcb_flags (c_pcb c)) TF_NAGLEMEMERR)) (c_pcb c)) (set_calls n c)) c.
Proof.
  intros Hl Hsf Hor. unfold tcp_enqueue_flags. rewrite Hor, Hsf.
  apply twp_bind, twp_assert; [done|]. apply twp_bind, twp_pcb; [done|]. cbv zeta.
  fold (syn_options (c_pcb c)).
  set (opts := if has flags TCP_SYN then syn_options (c_pcb c) else 0).
  apply twp_bind, twp_ask. destruct (env_grants _); cbn [negb]; cbv iota.
  2:{ apply twp_bind, twp_upd_pcb; [done|]. apply twp_ret. by eexists. }
  apply twp_bind, twp_ask, twp_bind.
  eapply twp_mono; [apply create_segment_ok; [done|]|].
  { unfold opts, syn_options. destruct (has flags TCP_SYN); [|done]. by destruct (negb _ || has _ TF_WND_SCALE). }
  intros r c1 [[n ->] Hr]. cbv beta. destruct r as [seg|].
  2:{ apply twp_bind, twp_upd_pcb; [done|]. apply twp_ret. by eexists. }
  subst seg. apply twp_bind, twp_assert; [done|].
  do 2 (apply twp_bind, twp_upd_pcb; [done|]). apply twp_bind, twp_when; [intros _|done].
  apply twp_upd_pcb; [done|]. apply twp_bind.
  match goal with |- twp _ _ ?d =>
    eapply (twp_mono _ (fun _ c' => c' = set_pcb (set_flags
      (if has flags TCP_FIN then u16 (Z.lor (pcb_flags (c_pcb c)) TF_FIN) else pcb_flags (c_pcb c)) (c_pcb d)) d))
  end.
  { apply twp_when; intros ->; [by apply twp_upd_pcb|]. done. }
  intros _ c2 ->. apply twp_bind, twp_upd_pcb; [done|]. apply twp_bind, twp_pcb; [done|].
  apply twp_bind, twp_assert.
  { unfold queue_nonempty. cbn. apply orb_true_iff. right. apply orb_true_iff. right.
    rewrite bool_decide_false; [done|]. by destruct (unsent _). }
  apply twp_ret. exists n. by eexists.
Qed.

Lemma flag_segment_ok W m optflags flags addr seqno :
  0 < TCP_TCPLEN (flag_segment optflags flags addr seqno) -> has flags TCP_RST = false ->
  LWIP_TCP_OPT_LENGTH optflags <= m -> seg_ok iss W m (flag_segment optflags flags addr seqno).
Proof.
  intros Hlen Hr Hm. split; try done.
  - by left.
  - cbn. rewrite Z.mul_add_distr_r, opt_length_words. done.
  - by left.
Qed.

(** [tcp_send_fin]: after a success the connection must leave the states that may
    write. *)
Definition fin_sent (c c' : conn) : Prop :=
  c_live c' = c_live c /\ c_list c' = c_list c /\ c_in c' = c_in c /\ c_input_pcb c' = c_input_pcb c /\
  c_ticks c' = c_ticks c /\ c_changed c' = c_changed c /\ c_trace c' = c_trace c /\
  pcb_state (c_pcb c') = pcb_state (c_pcb c) /\ cb (c_pcb c') = cb (c_pcb c) /\ rx (c_pcb c') = rx (c_pcb c) /\
  has (pcb_flags (c_pcb c')) TF_RXCLOSED = has (pcb_flags (c_pcb c)) TF_RXCLOSED /\
  has (pcb_flags (c_pcb c')) TF_WND_SCALE = has (pcb_flags (c_pcb c)) TF_WND_SCALE /\
  forall st, writable st = false -> st <> LISTEN ->
    sending iss (set_pcb (set_state st (c_pcb c')) c').

Lemma send_fin_ok c :
  c_live c = true -> sending iss c -> c_list c = ActiveList -> has (pcb_flags (c_pcb c)) TF_FIN = false ->
  twp tcp_send_fin (fun err c' =>
    if bool_decide (err = ERR_OK) then fin_sent c c'
    else err = ERR_MEM /\ steps c c' /\ sending iss c') c.
Proof.
  intros Hl Hc Hact Hlen. pose proof (sending_queues _ c Hc Hact) as Hq.
  assert (twp (tcp_enqueue_flags TCP_FIN) (fun err c' =>
    if bool_decide (err = ERR_OK) then fin_sent c c'
    else err = ERR_MEM /\ steps c c' /\ sending iss c') c) as Henq.
  { eapply twp_mono; [by apply enqueue_flags_ok|]. intros err c' [n Hr]. cbv beta.
    destruct (bool_decide _).
    2:{ destruct Hr as [-> ->]. split_and!; [done|frame|ignored]. }
    destruct Hr as [addr ->]. unfold fin_sent, enqueued. change (has TCP_FIN TCP_FIN) with true.
    change (has TCP_FIN TCP_SYN) with false. cbv iota.
    split_and!; try done; [cbn; flags; by rewrite ?orb_false_r..|].
    intros st Hw Hst. destruct Hc as [[] _ Ht], Hq.
    assert (0 <= snd_queuelen (tx (c_pcb c)) < 2 ^ 16 - 1) as Hrange.
    { rewrite Hlen in qo_len16. cbn in qo_len16. pose proof (zlen_nonneg (unsent (tx (c_pcb c)))).
      pose proof (zlen_nonneg (unacked (tx (c_pcb c)))). lia. }
    assert (u16 (snd_queuelen (tx (c_pcb c)) + 1) = snd_queuelen (tx (c_pcb c)) + 1) as Hu
      by (apply wrap_small; unfold fits; lia).
    split; cbn; [split; cbn; try done|rewrite bool_decide_true by done|done].
    - flags. by rewrite orb_true_r.
    - congruence.
    - split; cbn; rewrite ?Hu; try done; try lia.
      + apply Forall_app. split; [done|]. apply Forall_cons. split; [|by apply Forall_nil].
        apply flag_segment_ok; [done|done|]. change (LWIP_TCP_OPT_LENGTH 0) with 0. lia.
      + rewrite zlen_app, zlen_cons, zlen_nil. lia.
      + flags. rewrite orb_true_r. cbn. lia.
      + rewrite sum_len_app, sum_len_cons. change (sum_len []) with 0. change (sg_len _) with 0. lia.
      + unfold last_oversize. by rewrite last_snoc.
      + unfold tail_ok. by rewrite last_snoc. }
  unfold tcp_send_fin. apply twp_bind, twp_pcb; [done|].
  destruct (last _) as [s|] eqn:Hs; [|done]. destruct (negb _); [|done]. clear Henq.
  apply twp_bind, twp_upd_pcb; [done|]. apply twp_bind, twp_upd_pcb; [done|]. apply twp_ret.
  rewrite bool_decide_true by done. unfold fin_sent.
  split_and!; try done; [cbn; flags; by rewrite ?orb_false_r..|].
  intros st Hw Hst. destruct Hc as [[] _ Ht], Hq.
  split; cbn; [split; cbn; try done|rewrite bool_decide_true by done|done].
  - flags. by rewrite orb_true_r.
  - congruence.
  - split; cbn; try done.
    + apply Forall_update_last; [done|]. intros s' _. by apply seg_ok_flag.
    + by rewrite zlen_update_last.
    + rewrite Hlen in qo_len16. cbn in qo_len16. flags. rewrite orb_true_r. cbn. lia.
    + destruct (unsent (tx (c_pcb c))) as [|s0 l0] eqn:Hu; [done|].
      rewrite (sum_len_update_last _ _ 0); [lia| |done]. intros. by rewrite Z.add_0_r.
    + unfold last_oversize in *. rewrite last_update_last, qo_oversize. by destruct (last _).
    + unfold tail_ok in *. rewrite last_update_last. rewrite Hs in qo_tail |- *. simpl.
      destruct qo_tail as [Ht1 Ht2]. split; [done|]. intros Hpos. split; [by apply Ht2|].
      flags. by rewrite orb_true_r.
Qed.

(** ** Splitting *)

Lemma carries_piece W seqno a b k :
  carries iss W seqno (a ++ b ++ k) -> carries iss W (u32 (seqno + zlen a)) b.
Proof.
  intros [He|(l & r & -> & ->)].
  - left. apply app_eq_nil in He as [_ He]. by apply app_eq_nil in He as [-> _].
  - right. exists (l ++ a), (k ++ r). split; [by rewrite <- !app_assoc|].
    rewrite wrap_add_l, zlen_app. f_equal. lia.
Qed.

Lemma carries_prefix W seqno a b : fits 32 seqno -> carries iss W seqno (a ++ b) -> carries iss W seqno a.
Proof.
  intros Hf Hc. rewrite <- (wrap_small 32 seqno Hf), <- (Z.add_0_r seqno).
  by apply (carries_piece W seqno [] a b).
Qed.

Lemma carries_seqno W seqno data : carries iss W seqno data -> data <> [] -> fits 32 seqno.
Proof. intros [?|(l & r & _ & ->)] Hd; [done|]. apply fits_u32. Qed.

Lemma split_pieces W m seg split split_flags rest_flags k1 w1 k2 w2 addr :
  seg_ok iss W m seg -> 0 < split < sg_len seg -> m <= TCP_MSS ->
  has split_flags TCP_RST = false -> has rest_flags TCP_RST = false ->
  let opts := Z.land (sg_flags seg) (Z.lnot TF_SEG_DATA_CHECKSUMMED) in
  seg_ok iss W m (set_sg_chksum_swapped w1 (set_sg_chksum k1 (set_sg_oversize_left 0
    (TCPH_SET_FLAG split_flags (set_sg_data (ztake split (sg_data seg)) seg))))) /\
  seg_ok iss W m (set_sg_flags (Z.lor opts TF_SEG_DATA_CHECKSUMMED)
    (set_sg_chksum_swapped w2 (set_sg_chksum k2
      (mk_seg opts 0 0 false (u32 (u32 (sg_seqno seg + split))) (5 + u8 (LWIP_TCP_OPT_LENGTH opts) / 4)
        rest_flags addr (zdrop split (sg_data seg)) 1)))).
Proof.
  intros [] Hs Hm Hf1 Hf2 opts. unfold sg_len in *.
  assert (LWIP_TCP_OPT_LENGTH (Z.lor opts TF_SEG_DATA_CHECKSUMMED) = LWIP_TCP_OPT_LENGTH (sg_flags seg)) as Ho.
  { rewrite opt_length_checksummed. unfold opts, LWIP_TCP_OPT_LENGTH. by flags. }
  pose proof (ztake_zdrop split (sg_data seg)) as Hsplit.
  assert (zlen (ztake split (sg_data seg)) = split) as Ht by (rewrite zlen_ztake; lia).
  assert (zlen (zdrop split (sg_data seg)) = zlen (sg_data seg) - split) as Hd by (rewrite zlen_zdrop; lia).
  assert (sg_data seg <> []) as Hne. { intros He. rewrite He in Hs. destruct Hs as [H1 H2]. exact (Z.lt_asymm _ _ H1 H2). }
  split; split; cbn; try done; unfold sg_len; cbn.
  - eapply carries_prefix; [by apply (carries_seqno W _ (sg_data seg))|]. by rewrite Hsplit.
  - rewrite Ht. unfold sg_len in so_room. lia.
  - by rewrite has_lor, so_rst, Hf1.
  - destruct so_sum; [done|by right].
  - eapply Z.lt_le_trans; [|apply tcplen_ge]. unfold sg_len. cbn. lia.
  - rewrite (wrap_wrap 32) by lia. rewrite <- Ht at 1.
    apply (carries_piece W _ (ztake split (sg_data seg)) _ []). by rewrite app_nil_r, Hsplit.
  - rewrite Hd, Ho. unfold sg_len in so_room. lia.
  - rewrite Z.mul_add_distr_r, opt_length_words, Ho. unfold opts.
    rewrite opt_length_checksummed in Ho. unfold opts in Ho. by rewrite Ho.
  - right. flags. apply orb_true_r.
  - eapply Z.lt_le_trans; [|apply tcplen_ge]. unfold sg_len. cbn. lia.
Qed.

Lemma split_ok split c :
  c_live c = true -> sending iss c -> 0 < split < 2 ^ 16 -> snd_queuelen (tx (c_pcb c)) + 2 < 2 ^ 16 ->
  sends iss (tcp_split_unsent_seg split) (fun _ _ => True) c.
Proof.
  intros Hl Hc Hs Hlen. unfold tcp_split_unsent_seg. apply sends_pcb; [done|].
  destruct (unsent (tx (c_pcb c))) as [|seg rest] eqn:Hu; [by apply sends_ret|].
  pose proof (sending_active iss c Hc ltac:(by rewrite Hu)) as Hact.
  pose proof (sending_queues _ c Hc Hact) as Hq.
  destruct (Z.eqb_spec split 0) as [|_]; [lia|]. destruct (Z.leb_spec (sg_len seg) split); [by apply sends_ret|].
  pose proof (co_mss _ _ _ (se_pcb _ _ Hc)) as [_ Hm].
  assert (seg_ok iss (written (c_trace c)) (mss (tx (c_pcb c))) seg) as Hseg.
  { destruct Hq as [Qu]. rewrite Hu in Qu. by apply Forall_cons in Qu as [? _]. }
  pose proof (so_room _ _ _ _ Hseg). pose proof (opt_length_range (sg_flags seg)).
  apply twp_bind, twp_assert; [apply Z.leb_le; lia|]. apply twp_bind, twp_assert; [apply Z.ltb_lt; lia|].
  cbv zeta. apply twp_bind, twp_ask. destruct (env_grants _); cbn [negb]; cbv iota;
    [|apply twp_ret; split_and!; [frame|ignored|done]].
  apply twp_bind, twp_ask. destruct (tcp_seg_add_chksum (not_chksum (env_address _) _) _ _ _) as [chk2 sw2].
  set (opts := Z.land (sg_flags seg) (Z.lnot TF_SEG_DATA_CHECKSUMMED)).
  match goal with |- context [let '(_, _) := ?x in _] => destruct x as [sf1 rf1] eqn:E1 end.
  match goal with |- context [let '(_, _) := ?x in _] => destruct x as [sf rf] eqn:E2 end.
  assert (has sf TCP_RST = false /\ has rf TCP_RST = false) as [Hsf Hrf].
  { pose proof (so_rst _ _ _ _ Hseg). repeat case_match; simplify_eq; flags; by rewrite ?orb_false_r. }
  clear E1 E2. apply twp_bind. eapply twp_mono; [apply create_segment_ok; [done|]|].
  { unfold opts. by flags. }
  intros r c1 [[n ->] Hr]. cbv beta. destruct r as [seg2|];
    [|apply twp_ret; split_and!; [frame|ignored|done]].
  subst seg2. apply twp_bind, twp_upd_pcb; [done|].
  destruct (tcp_seg_add_chksum (not_chksum (sg_addr seg) _) _ _ _) as [chk1 sw1].
  do 3 (apply twp_bind, twp_upd_pcb; [done|]).
  destruct (split_pieces (written (c_trace c)) (mss (tx (c_pcb c))) seg split sf rf chk1 sw1 chk2 sw2
    (env_address (c_calls c + 1))) as [Hp1 Hp2]; [done|lia|done..|]. cbn [sg_flags] in Hp1, Hp2 |- *.
  fold opts in Hp2. revert Hp1 Hp2.
  match goal with |- seg_ok _ _ _ ?a -> seg_ok _ _ _ ?b -> _ => set (useg := a); set (seg2 := b) end.
  intros Hp1 Hp2.
  apply twp_bind.
  assert (sg_len useg + sg_len seg2 = sg_len seg) as Hsum.
  { unfold useg, seg2, sg_len. cbn. rewrite <- zlen_app. by rewrite ztake_zdrop. }
  assert (u16 (u16 (u16 (snd_queuelen (tx (c_pcb c)) - 1) + 1) + 1) = snd_queuelen (tx (c_pcb c)) + 1) as Hcount.
  { rewrite (wrap_add_l 16 (_ - 1)), wrap_add_l, wrap_small; [lia|]. unfold fits. destruct Hq.
    pose proof (zlen_nonneg (unsent (tx (c_pcb c)))). pose proof (zlen_nonneg (unacked (tx (c_pcb c)))). lia. }
  set (over := match rest with [] => 0 | _ => unsent_oversize (tx (c_pcb c)) end).
  eapply (twp_mono _ (fun _ c' => c' = set_pcb (set_tx (set_unsent_oversize over (set_unsent (useg :: seg2 :: rest)
     (set_snd_queuelen (snd_queuelen (tx (c_pcb c)) + 1) (tx (c_pcb c))))) (c_pcb c))
     (set_calls n (set_calls (c_calls c + 1 + 1) (set_calls (c_calls c + 1) c))))).
  { apply twp_when; intros Hre; [apply twp_upd_pcb; [done|]|].
    - apply bool_decide_eq_true in Hre as ->. cbn. by rewrite Hcount.
    - apply bool_decide_eq_false in Hre. unfold over. destruct rest; [done|]. cbn. by rewrite Hcount. }
  intros _ c2 ->. apply twp_ret. split_and!; [frame| |done].
  apply (sending_tx (set_calls n (set_calls (c_calls c + 1 + 1) (set_calls (c_calls c + 1) c)))); try done.
  - ignored.
  - destruct Hq. rewrite Hu in *. apply Forall_cons in qo_unsent as [_ Hrest].
    rewrite zlen_cons, sum_len_cons in *.
    split; cbn; try done.
    + by repeat (apply Forall_cons; split).
    + rewrite !zlen_cons. lia.
    + destruct (has (pcb_flags (c_pcb c)) TF_FIN); cbn; lia.
    + rewrite !sum_len_cons. lia.
    + unfold over, last_oversize in *. by destruct rest.
    + unfold tail_ok in *. by destruct rest.
Qed.

(** ** Window probes *)

Lemma probe_ok c :
  c_live c = true -> sending iss c ->
  (forall seg rest, unsent (tx (c_pcb c)) = seg :: rest ->
     sg_data seg <> [] \/ has (sg_hdrflags seg) TCP_FIN = true) ->
  sends iss tcp_zero_window_probe (fun _ c' => unacked (tx (c_pcb c')) = unacked (tx (c_pcb c))) c.
Proof.
  intros Hl Hc Hhead. unfold tcp_zero_window_probe. apply sends_pcb; [done|].
  destruct (unsent (tx (c_pcb c))) as [|seg rest] eqn:Hu; [by apply sends_ret|].
  specialize (Hhead _ _ eq_refl).
  pose proof (sending_active iss c Hc ltac:(by rewrite Hu)) as Hact.
  assert (carries iss (written (c_trace c)) (sg_seqno seg) (sg_data seg)) as Hca.
  { destruct (sending_queues _ c Hc Hact) as [Qu]. rewrite Hu in Qu. apply Forall_cons in Qu as [Qu _]. apply Qu. }
  eapply (sends_bind _ _ _ (fun _ c' => c_trace c' = c_trace c /\ tx (c_pcb c') = tx (c_pcb c))).
  { apply sends_upd; [done| | |done].
    - frame.
    - apply sending_persist; [done|]; destruct (_ <? _); cbn; apply Hc. }
  intros _ c1 _ Hl1 Hc1 [Ht1 Hx1]. rewrite Hl in Hl1. cbv zeta.
  eapply sends_bind; [by apply alloc_header_ok|].
  intros o c2 _ Hl2 Hc2 (Ht2 & Hx2 & Ho). rewrite Hl1 in Hl2. cbv beta.
  destruct o as [o|]; [|apply sends_ret; [done|by rewrite Hx2, Hx1]]. destruct Ho as [Hseq Hdata].
  eapply (sends_bind _ _ _ (fun _ c' => c_trace c' = c_trace c /\
    unacked (tx (c_pcb c')) = unacked (tx (c_pcb c)))).
  { apply sends_upd; [done|frame| |cbn; rewrite Ht2, Ht1, Hx2, Hx1; by destruct (TCP_SEQ_LT _ _)].
    apply sending_fields; try done; by destruct (TCP_SEQ_LT _ _). }
  intros _ c3 _ Hl3 Hc3 [Ht3 Hx3]. eapply sends_mono; [apply control_segment_ok; [done|]|].
  2:{ intros e c4 _ ->. done. }
  rewrite Ht3. destruct (has (sg_hdrflags seg) TCP_FIN && (sg_len seg =? 0)) eqn:Hfin.
  - left. cbn. rewrite Hdata. done.
  - destruct (ztake 1 (sg_data seg)) as [|b d] eqn:Hd.
    + exfalso. assert (sg_data seg = []) as He.
      { destruct (sg_data seg); [done|]. by compute in Hd. }
      unfold sg_len in Hfin. rewrite He in Hfin, Hhead. destruct Hhead as [?|Hh]; [done|].
      by rewrite Hh in Hfin.
    + cbn. rewrite Hseq.
      assert (fits 32 (sg_seqno seg)) as Hf.
      { eapply carries_seqno; [exact Hca|]. intros He. by rewrite He, ztake_nil in Hd. }
      rewrite (wrap_small 32 _ Hf). rewrite <- Hd. eapply (carries_prefix _ _ _ (zdrop 1 (sg_data seg))); [done|].
      by rewrite ztake_zdrop.
Qed.

(** ** Retransmission *)

Lemma not_busy W m l :
  Forall (seg_ok iss W m) l -> existsb tcp_output_segment_busy l = false.
Proof.
  induction 1 as [|s l Hs _ IH]; [done|]. simpl. rewrite IH. unfold tcp_output_segment_busy.
  by rewrite (so_ref _ _ _ _ Hs).
Qed.

Lemma rexmit_rto_prepare_ok c :
  c_live c = true -> sending iss c ->
  sends iss tcp_rexmit_rto_prepare (fun _ _ => True) c.
Proof.
  intros Hl Hc. unfold tcp_rexmit_rto_prepare. apply sends_pcb; [done|].
  destruct (last (unacked (tx (c_pcb c)))) as [seg|] eqn:Hlast; [|by apply sends_ret].
  assert (c_list c = ActiveList) as Hact.
  { destruct Hc as [_ Hq _]. case_bool_decide; [done|]. destruct Hq as (_ & Hq & _). by rewrite Hq in Hlast. }
  pose proof (sending_queues _ c Hc Hact) as Hq.
  rewrite (not_busy _ _ _ (qo_unacked _ _ _ Hq)).
  do 2 (apply twp_bind, twp_upd_pcb; [done|]).
  match goal with |- twp _ _ ?d => set (c2 := d) end.
  assert (steps c c2) as Hs2 by (unfold c2; frame).
  assert (sending iss c2) as Hc2.
  { unfold c2. set (t := tx (c_pcb c)).
    match goal with |- sending _ ?d => assert (d = set_pcb (set_tx (set_unacked [] (set_unsent (unacked t ++ unsent t)
       (set_unsent_oversize (match unsent t with [] => sg_oversize_left seg | _ => unsent_oversize t end) t)))
       (c_pcb c)) c) as -> end.
    { cbn. fold t. by destruct (unsent t) eqn:Hu; cbn; rewrite Hu. }
    apply sending_tx; try done. unfold t. clear t. destruct Hq. split; cbn; try done.
    - by apply Forall_app.
    - rewrite zlen_app, zlen_nil. lia.
    - rewrite sum_len_app. change (sum_len []) with 0. lia.
    - unfold last_oversize in *. rewrite last_app. destruct (unsent (tx (c_pcb c))) as [|s l]; [by rewrite Hlast|].
      destruct (last (s :: l)) eqn:Hl2; [done|by apply last_None in Hl2].
    - unfold tail_ok in *. rewrite last_app. destruct (unsent (tx (c_pcb c))) as [|s l].
      + simpl. rewrite Hlast. apply last_inv in Hlast as [k Hk]. rewrite Hk in qo_sent.
        apply Forall_app in qo_sent as [_ Hz]. apply Forall_cons in Hz as [-> _]. split; [done|lia].
      + destruct (last (s :: l)) eqn:Hl2; [done|by apply last_None in Hl2]. }
  eapply twp_mono.
  - eapply (sends_bind _ _ _ (fun _ _ => True)); [by apply sends_flags_set|].
    intros _ c3 _ Hl3 Hc3 _. eapply (sends_bind _ _ _ (fun _ _ => True)).
    { apply sends_upd; [by rewrite Hl3|frame|by apply sending_fields|done]. }
    intros _ c4 _ Hl4 Hc4 _. eapply (sends_bind _ _ _ (fun _ _ => True)).
    { apply sends_upd; [by rewrite Hl4, Hl3|frame|ignored|done]. }
    intros _ c5 _ _ Hc5 _. by apply (sends_ret iss ERR_OK (fun _ _ => True)).
  - intros a c3 (Hs3 & Hc3 & _). split_and!; [by transitivity c2|done|done].
Qed.

Lemma rexmit_rto_commit_ok c :
  c_live c = true -> sending iss c -> sends iss tcp_rexmit_rto_commit (fun _ _ => True) c.
Proof.
  intros Hl Hc. unfold tcp_rexmit_rto_commit. eapply (sends_bind _ _ _ (fun _ _ => True)).
  { apply sends_upd; [done|frame|by apply sending_nrtx|done]. }
  intros _ c1 _ Hl1 Hc1 _. eapply sends_bind; [by apply output_ok; [rewrite Hl1|]|].
  intros. by apply sends_ret.
Qed.

Lemma rexmit_rto_ok c :
  c_live c = true -> sending iss c -> sends iss tcp_rexmit_rto (fun _ _ => True) c.
Proof.
  intros Hl Hc. unfold tcp_rexmit_rto. eapply sends_bind; [by apply rexmit_rto_prepare_ok|].
  intros err c1 _ Hl1 Hc1 _. unfold when. case_bool_decide; [|by apply sends_ret].
  apply rexmit_rto_commit_ok; [by rewrite Hl1|done].
Qed.

Lemma insert_before_end seg l :
  forallb (fun cur => TCP_SEQ_LT (sg_seqno cur) (sg_seqno seg)) l = true -> insert_before seg l = l ++ [seg].
Proof.
  induction l as [|cur l IH]; simpl; [done|]. intros [-> Hl]%andb_true_iff. by rewrite IH.
Qed.

Lemma insert_before_last seg l :
  forallb (fun cur => TCP_SEQ_LT (sg_seqno cur) (sg_seqno seg)) l = false ->
  last (insert_before seg l) = last l.
Proof.
  induction l as [|cur l IH]; simpl; [done|]. destruct (TCP_SEQ_LT _ _); simpl; [|done].
  intros Hl. rewrite last_cons, IH by done. destruct l as [|x l]; [done|]. by rewrite (last_cons cur).
Qed.

Lemma rexmit_ok c :
  c_live c = true -> sending iss c -> sends iss tcp_rexmit (fun _ _ => True) c.
Proof.
  intros Hl Hc. unfold tcp_rexmit. apply sends_pcb; [done|].
  destruct (unacked (tx (c_pcb c))) as [|seg rest] eqn:Hu; [by apply sends_ret|].
  assert (c_list c = ActiveList) as Hact.
  { destruct Hc as [_ Hq _]. case_bool_decide; [done|]. destruct Hq as (_ & Hq & _). by rewrite Hu in Hq. }
  pose proof (sending_queues _ c Hc Hact) as Hq.
  assert (seg_ok iss (written (c_trace c)) (mss (tx (c_pcb c))) seg) as Hseg.
  { destruct Hq as [_ Qa]. rewrite Hu in Qa. by apply Forall_cons in Qa as [? _]. }
  unfold tcp_output_segment_busy. rewrite (so_ref _ _ _ _ Hseg). cbn [negb Z.eqb Pos.eqb]. cbv iota.
  do 2 (apply twp_bind, twp_upd_pcb; [done|]). apply twp_bind.
  set (u2 := insert_before seg (unsent (tx (c_pcb c)))).
  set (early := forallb (fun cur => TCP_SEQ_LT (sg_seqno cur) (sg_seqno seg)) (unsent (tx (c_pcb c)))).
  set (t' := set_unsent_oversize (if early then 0 else unsent_oversize (tx (c_pcb c)))
               (set_unsent u2 (set_unacked rest (tx (c_pcb c))))).
  eapply (twp_mono _ (fun _ c' => c' = set_pcb (set_tx t' (c_pcb c)) c)).
  { unfold t'. by apply twp_when; intros ->; [apply twp_upd_pcb|]. }
  intros _ c1 ->. set (c1 := set_pcb (set_tx t' (c_pcb c)) c).
  assert (sending iss c1) as Hc1.
  { apply sending_tx; try done.
    - pose proof (insert_before_perm seg (unsent (tx (c_pcb c)))) as Hp. fold u2 in Hp.
      destruct Hq. rewrite Hu in *. apply Forall_cons in qo_unacked as [_ Hrest].
      apply Forall_cons in qo_sent as [Hover Hrest0]. rewrite zlen_cons, sum_len_cons in *.
      split; cbn; try done.
      + rewrite Hp. by apply Forall_cons.
      + rewrite (zlen_perm _ _ Hp), zlen_cons. lia.
      + rewrite Hp, sum_len_cons. lia.
      + unfold last_oversize in *. destruct early eqn:He; unfold u2.
        * rewrite insert_before_end by done. by rewrite last_snoc.
        * by rewrite insert_before_last.
      + unfold tail_ok in *. destruct early eqn:He; unfold u2.
        * rewrite insert_before_end, last_snoc, Hover by done. split; [done|lia].
        * by rewrite insert_before_last. }
  eapply twp_mono.
  - eapply (sends_bind _ _ _ (fun _ _ => True)); [by apply sends_upd; [|frame|apply sending_nrtx|]|].
    intros _ c2 _ Hl2 Hc2 _. eapply (sends_bind _ _ _ (fun _ _ => True)).
    { by apply sends_upd; [rewrite Hl2|frame|ignored|]. }
    intros _ c3 _ Hl3 Hc3 _. by apply (sends_ret iss ERR_OK (fun _ _ => True)).
  - intros a c2 (Hs2 & Hc2 & _). split_and!; [|done|done]. etransitivity; [|exact Hs2]. frame.
Qed.

Lemma rexmit_fast_ok c :
  c_live c = true -> sending iss c -> sends iss tcp_rexmit_fast (fun _ _ => True) c.
Proof.
  intros Hl Hc. unfold tcp_rexmit_fast. apply sends_pcb; [done|].
  destruct (_ && _); [|by apply sends_ret].
  eapply sends_bind; [by apply rexmit_ok|]. intros err c1 _ Hl1 Hc1 _. rewrite Hl in Hl1.
  unfold when. case_bool_decide; [|by apply sends_ret].
  eapply (sends_bind _ _ _ (fun _ _ => True)).
  { by apply sends_upd; [|frame|ignored|]. }
  intros _ c2 _ Hl2 Hc2 _. rewrite Hl1 in Hl2.
  eapply (sends_bind _ _ _ (fun _ _ => True)); [by apply sends_flags_set|].
  intros _ c3 _ Hl3 Hc3 _. by apply sends_upd; [by rewrite Hl3, Hl2|frame|ignored|].
Qed.

End queue.
