(* ===== verification/TcpApiProofs.v ===== *)
(** * Closing, aborting and calling back

    A purged connection has empty queues; an aborted one is back in its pool, and what
    it sent was right; a closed one goes on, or waits for the end of the input, or is
    back in its pool. A callback that stays within the rules of the API keeps the
    invariant. *)
From Stdlib Require Import ZArith Lia.
From stdpp Require Import base list option numbers gmap.
From S2P Require Import Prelude Pbuf Chksum Lwip Tcp TcpOut TcpApi TcpInv TcpOutProofs TcpWriteProofs TcpQueueProofs.

(** Events that neither hand received data over nor report the end of the stream. *)
Definition quiet_event (e : event) : Prop :=
  match e with RecvCall _ _ _ | DefaultRecv _ | ClosedCall _ _ => False | _ => True end.

Definition quiet (t t' : list event) : Prop := exists es, t' = t ++ es /\ Forall quiet_event es.

#[export] Instance quiet_refl : Reflexive quiet.
Proof. intros t. exists []. by rewrite app_nil_r. Qed.

#[export] Instance quiet_trans : Transitive quiet.
Proof.
  intros a b c (es & -> & F1) (fs & -> & F2). exists (es ++ fs). rewrite app_assoc.
  split; [done|]. by apply Forall_app.
Qed.

Lemma quiet_one t e : quiet_event e -> quiet t (t ++ [e]).
Proof. intros He. exists [e]. split; [done|]. by apply Forall_singleton. Qed.

Lemma steps_quiet c c' : steps c c' -> quiet (c_trace c) (c_trace c').
Proof.
  intros []. destruct st_trace as (es & -> & F). exists es. split; [done|].
  eapply Forall_impl; [exact F|]. by intros [].
Qed.

(** ** What the interface leaves alone *)

Definition wnd_ok (p : tcp_pcb) : Prop := 0 <= rcv_wnd (rx p) <= TCP_WND_MAX p.

(** A connection with the application's receive callback has an argument for it. *)
Notation armed c := (cb_recv (cb (c_pcb c)) = Some app_recv_fn -> callback_arg (cb (c_pcb c)) <> 0).

Record kept (c c' : conn) : Prop := mk_kept {
  kp_live : c_live c' = c_live c;
  kp_list : c_list c' = c_list c;
  kp_in : c_in c' = c_in c;
  kp_input : c_input_pcb c' = c_input_pcb c;
  kp_ticks : c_ticks c' = c_ticks c;
  kp_nxt : rcv_nxt (rx (c_pcb c')) = rcv_nxt (rx (c_pcb c));
  kp_refused : refused_data (rx (c_pcb c')) = refused_data (rx (c_pcb c));
  kp_rxclosed : has (pcb_flags (c_pcb c)) TF_RXCLOSED = true -> has (pcb_flags (c_pcb c')) TF_RXCLOSED = true;
  kp_scale : has (pcb_flags (c_pcb c')) TF_WND_SCALE = has (pcb_flags (c_pcb c)) TF_WND_SCALE;
  kp_wnd : wnd_ok (c_pcb c) -> wnd_ok (c_pcb c');
  kp_listener : listener (cb (c_pcb c')) = listener (cb (c_pcb c));
  kp_recv : cb_recv (cb (c_pcb c')) = Some tcp_recv_null_fn -> cb_recv (cb (c_pcb c)) = Some tcp_recv_null_fn;
  kp_armed : armed c -> armed c';
  kp_quiet : quiet (c_trace c) (c_trace c');
}.

#[export] Instance kept_refl : Reflexive kept.
Proof. intros c. by split. Qed.

#[export] Instance kept_trans : Transitive kept.
Proof. intros a b c [] []. split; try congruence; eauto. by transitivity (c_trace b). Qed.

Lemma wnd_max_scale p q :
  has (pcb_flags p) TF_WND_SCALE = has (pcb_flags q) TF_WND_SCALE -> TCP_WND_MAX p = TCP_WND_MAX q.
Proof. unfold TCP_WND_MAX. by intros ->. Qed.

Lemma steps_kept c c' : steps c c' -> kept c c'.
Proof.
  intros Hs. pose proof (steps_quiet _ _ Hs). destruct Hs. split; try done; rewrite ?st_cb; try done; [congruence|].
  unfold wnd_ok. rewrite st_wnd. by rewrite (wnd_max_scale _ _ st_scale).
Qed.

Lemma wnd_max_pos p : 0 < TCP_WND_MAX p < 2 ^ 31.
Proof. unfold TCP_WND_MAX. by destruct (has _ _). Qed.

Section api.
Context `{Environment}.
Variable iss : Z.
Implicit Types c : conn.

(** ** Purging *)

Definition purged_pcb (p : tcp_pcb) : tcp_pcb :=
  if negb (state_is (pcb_state p) CLOSED) && negb (state_is (pcb_state p) TIME_WAIT)
     && negb (state_is (pcb_state p) LISTEN)
  then set_tx (set_unsent_oversize 0 (set_unacked [] (set_unsent [] (tx p))))
         (set_tm (set_rtime (-1) (tm p)) (set_rx (set_refused_data None (rx p)) p))
  else p.

Definition purged_events (p : tcp_pcb) : list event :=
  if negb (state_is (pcb_state p) CLOSED) && negb (state_is (pcb_state p) TIME_WAIT)
     && negb (state_is (pcb_state p) LISTEN)
  then match refused_data (rx p) with Some d => [DataFreed (rp_data d)] | None => [] end
  else [].

Definition purged c : conn :=
  set_trace (c_trace c ++ purged_events (c_pcb c)) (set_pcb (purged_pcb (c_pcb c)) c).

Lemma purge_ok c : c_live c = true -> twp tcp_pcb_purge (fun _ c' => c' = purged c) c.
Proof.
  intros Hl. unfold tcp_pcb_purge, purged, purged_pcb, purged_events.
  apply twp_bind, twp_pcb; [done|]. destruct (_ && _ && _).
  2:{ apply twp_ret. rewrite app_nil_r. by destruct c. }
  apply twp_bind. destruct (refused_data (rx (c_pcb c))) as [d|] eqn:Hr.
  - apply twp_bind, twp_emit, twp_upd_pcb; [done|]. do 3 (try apply twp_bind; apply twp_upd_pcb; [done|]). done.
  - apply twp_ret. do 3 (try apply twp_bind; apply twp_upd_pcb; [done|]).
    rewrite app_nil_r. destruct c as [[? ? ? [] ? ? ? ?] ? ? ? ? ? ? ? ?]. simpl in Hr. by subst.
Qed.

Lemma purged_quiet c : quiet (c_trace c) (c_trace (purged c)).
Proof.
  unfold purged, purged_events. exists (purged_events (c_pcb c)). split; [done|].
  unfold purged_events. destruct (_ && _ && _); [|done].
  destruct (refused_data _); [by apply Forall_singleton|done].
Qed.

Lemma purged_written c : written (c_trace (purged c)) = written (c_trace c).
Proof.
  unfold purged, purged_events. cbn [c_trace set_trace]. rewrite written_app.
  destruct (_ && _ && _); [|by rewrite app_nil_r].
  destruct (refused_data _); by rewrite app_nil_r.
Qed.

Lemma purged_same c :
  c_live (purged c) = c_live c /\ c_list (purged c) = c_list c /\ c_in (purged c) = c_in c /\
  c_input_pcb (purged c) = c_input_pcb c /\ c_ticks (purged c) = c_ticks c /\
  pcb_state (c_pcb (purged c)) = pcb_state (c_pcb c) /\ pcb_flags (c_pcb (purged c)) = pcb_flags (c_pcb c) /\
  cb (c_pcb (purged c)) = cb (c_pcb c) /\ pcb_id (c_pcb (purged c)) = pcb_id (c_pcb c) /\
  rcv_nxt (rx (c_pcb (purged c))) = rcv_nxt (rx (c_pcb c)) /\
  rcv_wnd (rx (c_pcb (purged c))) = rcv_wnd (rx (c_pcb c)).
Proof.
  unfold purged, purged_pcb. cbn. destruct (_ && _ && _); by split_and!.
Qed.

Lemma purged_refused c :
  pcb_state (c_pcb c) <> CLOSED -> pcb_state (c_pcb c) <> TIME_WAIT -> pcb_state (c_pcb c) <> LISTEN ->
  refused_data (rx (c_pcb (purged c))) = None.
Proof. intros. unfold purged, purged_pcb, state_is. cbn. by rewrite !bool_decide_false. Qed.

(** Off the list of active connections, a purged connection satisfies the invariant. *)
Lemma purged_sending l c :
  sending iss c -> l <> ActiveList ->
  (c_list c = ActiveList -> pcb_state (c_pcb c) <> CLOSED /\ pcb_state (c_pcb c) <> TIME_WAIT) ->
  sending iss (set_list l (purged c)).
Proof.
  intros [Hp Hq Ht] Hl Hst. pose proof (purged_written c) as Hw.
  assert (idle_queues (purged_pcb (c_pcb c))) as Hidle.
  { unfold purged_pcb. destruct (_ && _ && _) eqn:Hs; [done|]. case_bool_decide as Ha; [|done].
    destruct (Hst Ha) as [H1 H2]. destruct Hp. unfold state_is in Hs.
    by rewrite !bool_decide_false in Hs. }
  split; cbn [set_list c_trace c_pcb c_list]; rewrite ?Hw.
  - destruct Hp. unfold purged, purged_pcb. cbn. by destruct (_ && _ && _).
  - by rewrite bool_decide_false.
  - unfold purged. cbn. apply Forall_app. split; [done|]. unfold purged_events.
    destruct (_ && _ && _); [|done]. destruct (refused_data _); [by apply Forall_singleton|done].
Qed.

Lemma sending_list l c :
  sending iss c -> c_list c <> ActiveList -> l <> ActiveList -> sending iss (set_list l c).
Proof.
  intros [Hp Hq Ht] Hc Hl. split; cbn [set_list c_trace c_pcb c_list]; [done| |done].
  rewrite bool_decide_false in Hq by done. by rewrite bool_decide_false.
Qed.

Lemma sending_state st c :
  sending iss c -> writable st = false -> st <> LISTEN -> sending iss (set_pcb (set_state st (c_pcb c)) c).
Proof.
  intros [[] Hq Ht] Hw Hst. split; cbn; [split; cbn; try done; congruence|case_bool_decide; [|done]|done].
  by destruct Hq.
Qed.

Lemma sending_event_quiet c e :
  sending iss c -> send_event e -> written_by e = [] -> match e with Output _ _ => False | _ => True end ->
  sending iss (set_trace (c_trace c ++ [e]) c).
Proof. intros Hc Hs Hw Ho. apply sending_event; [done|done|]. by destruct e. Qed.

(** ** The end of a connection *)

(** The block is back in its pool; what was sent is right. *)
Record ended c c' : Prop := mk_ended {
  en_live : c_live c' = false;
  en_sent : Forall (event_ok iss (written (c_trace c'))) (c_trace c');
  en_quiet : quiet (c_trace c) (c_trace c');
  en_in : c_in c' = c_in c;
  en_input : c_input_pcb c' = c_input_pcb c;
}.

Lemma free_ok c : c_live c = true -> sending iss c -> twp tcp_free (fun _ c' => c' = set_live false c) c.
Proof.
  intros Hl Hc. unfold tcp_free. apply twp_bind, twp_pcb; [done|]. apply twp_bind, twp_assert.
  { unfold state_is. rewrite bool_decide_false; [done|]. apply Hc. }
  by apply twp_modify.
Qed.

Definition on_list (l : pcb_list) c : Prop :=
  (c_list c = l \/ c_list c = NoList) /\
  (c_list c = ActiveList -> pcb_state (c_pcb c) <> CLOSED /\ pcb_state (c_pcb c) <> TIME_WAIT).

Lemma remove_ok l c :
  c_live c = true -> sending iss c -> on_list l c ->
  twp (tcp_pcb_remove l) (fun _ c' => c_live c' = true /\ c_list c' = NoList /\ sending iss c' /\
    quiet (c_trace c) (c_trace c') /\ c_in c' = c_in c /\ c_input_pcb c' = c_input_pcb c) c.
Proof.
  intros Hl Hc [Hlist Hst]. unfold tcp_pcb_remove. apply twp_bind, twp_modify.
  replace (if bool_decide (c_list c = l) then set_list NoList c else c) with (set_list NoList c)
    by (case_bool_decide; [done|]; destruct Hlist as [Hlist|Hlist]; [done|]; rewrite <- Hlist; by destruct c).
  apply twp_bind. eapply twp_mono; [by apply purge_ok|].
  intros _ c1 ->. cbv beta. change (purged (set_list NoList c)) with (set_list NoList (purged c)).
  destruct (purged_same c) as (Pl & _ & Pi & Pp & _).
  assert (sending iss (set_list NoList (purged c))) as Hc1.
  { by apply purged_sending. }
  pose proof (purged_quiet c) as Hquiet.
  revert Hc1 Hquiet Pl Pi Pp. generalize (purged c). intros c1 Hc1 Hquiet Pl Pi Pp.
  apply twp_bind, twp_pcb; [by rewrite <- Hl, <- Pl|]. apply twp_bind.
  eapply (twp_mono _ (fun _ c' => c_live c' = true /\ c_list c' = NoList /\ sending iss c' /\
    quiet (c_trace c) (c_trace c') /\ c_in c' = c_in c /\ c_input_pcb c' = c_input_pcb c)).
  { rewrite Hl in Pl. apply twp_when; intros _; [|by split_and!].
    eapply twp_mono.
    - eapply (sends_bind _ _ _ (fun _ _ => True)); [by apply sends_flags_set|].
      intros _ c2 _ Hl2 Hc2 _. eapply sends_bind; [apply output_ok; [by rewrite Hl2|done]|].
      intros r c3 _ _ Hc3 _. by apply (sends_ret iss tt (fun _ _ => True)).
    - intros _ c2 (Hs & Hc2 & _). split_and!; try done.
      + by rewrite (st_live _ _ Hs).
      + by rewrite (st_list _ _ Hs).
      + etransitivity; [exact Hquiet|]. by apply (steps_quiet _ _ Hs).
      + by rewrite (st_in _ _ Hs).
      + by rewrite (st_input _ _ Hs). }
  intros _ c2 (Hl2 & Hlist2 & Hc2 & Hq2 & Hi2 & Hp2). apply twp_bind, twp_pcb; [done|].
  apply twp_bind. eapply (twp_mono _ (fun _ c' => c' = c2)).
  { apply twp_when; intros _; [|done]. apply twp_assert; [|done].
    destruct Hc2 as [_ Hidle _]. rewrite bool_decide_false in Hidle by (by rewrite Hlist2).
    destruct Hidle as (-> & -> & _). done. }
  intros _ c3 ->. apply twp_bind, twp_upd_pcb; [done|]. apply twp_upd_pcb; [done|]. split_and!; try done.
  apply (sending_same iss (set_pcb (set_state CLOSED (c_pcb c2)) c2)); try done. by apply sending_state.
Qed.

Lemma err_event_ok errf arg e c :
  Forall (event_ok iss (written (c_trace c))) (c_trace c) ->
  twp (TCP_EVENT_ERR errf arg e) (fun _ c' =>
    (exists es, c' = set_trace (c_trace c ++ es) c /\ Forall quiet_event es /\ written es = []) /\
    Forall (event_ok iss (written (c_trace c'))) (c_trace c')) c.
Proof.
  intros Ht. unfold TCP_EVENT_ERR. apply twp_when; intros _.
  - apply twp_emit. split; [exists [ErrCall arg e]; by split_and!; [|apply Forall_singleton|]|].
    cbn [c_trace set_trace]. rewrite written_app, app_nil_r. apply Forall_app. split; [done|by apply Forall_singleton].
  - split; [|done]. exists []. rewrite app_nil_r. split_and!; [by destruct c|done|done].
Qed.

(** [tcp_free] and the error callback. *)
Lemma free_err_ok errf arg e c c0 :
  c_live c = true -> sending iss c -> quiet (c_trace c0) (c_trace c) -> c_in c = c_in c0 ->
  c_input_pcb c = c_input_pcb c0 ->
  twp (tcp_free ≫= fun _ => TCP_EVENT_ERR errf arg e) (fun _ c' => ended c0 c') c.
Proof.
  intros Hl Hc Hq Hi Hp. apply twp_bind. eapply twp_mono; [by apply free_ok|]. intros _ c1 ->. cbv beta.
  eapply twp_mono; [apply err_event_ok; apply Hc|]. intros _ c2 [(es & -> & Hes & _) Ht].
  split; try done. etransitivity; [exact Hq|]. by exists es.
Qed.

(** A connection in its pool's list: where [tcp_abandon] and [tcp_close] find it. *)
Definition listed c : Prop :=
  match pcb_state (c_pcb c) with
  | CLOSED => c_list c = NoList \/ c_list c = BoundList
  | LISTEN => False
  | TIME_WAIT => c_list c = TimeWaitList
  | _ => c_list c = ActiveList
  end.

Lemma listed_active c :
  listed c -> pcb_state (c_pcb c) <> CLOSED -> pcb_state (c_pcb c) <> TIME_WAIT -> on_list ActiveList c.
Proof. unfold listed, on_list. intros Hl H1 H2. split; [|done]. left. by destruct (pcb_state _). Qed.

Lemma remove_active_ok c :
  c_live c = true -> sending iss c -> on_list ActiveList c ->
  twp TCP_PCB_REMOVE_ACTIVE (fun _ c' => c_live c' = true /\ sending iss c' /\
    quiet (c_trace c) (c_trace c') /\ c_in c' = c_in c /\ c_input_pcb c' = c_input_pcb c) c.
Proof.
  intros Hl Hc Hon. unfold TCP_PCB_REMOVE_ACTIVE. apply twp_bind.
  eapply twp_mono; [by apply remove_ok|]. intros _ c1 (Hl1 & _ & Hc1 & Hq & Hi & Hp).
  apply twp_modify. split_and!; try done. ignored.
Qed.

Lemma abandon_ok reset c :
  c_live c = true -> sending iss c -> listed c -> twp (tcp_abandon reset) (fun _ c' => ended c c') c.
Proof.
  intros Hl Hc Hlist. unfold tcp_abandon. apply twp_bind, twp_pcb; [done|]. apply twp_bind, twp_assert.
  { unfold state_is. rewrite bool_decide_false; [done|]. apply Hc. }
  destruct (state_is _ TIME_WAIT) eqn:Htw.
  - apply bool_decide_eq_true in Htw. unfold listed in Hlist. rewrite Htw in Hlist.
    apply twp_bind. eapply twp_mono; [apply (remove_ok TimeWaitList); try done; split; [by left|congruence]|].
    intros _ c1 (Hl1 & _ & Hc1 & Hq & Hi & Hp). eapply twp_mono; [by apply free_ok|].
    intros _ c2 ->. split; try done. apply Hc1.
  - cbv zeta. apply twp_bind.
    eapply (twp_mono _ (fun _ c' => c_live c' = true /\ sending iss c' /\
      quiet (c_trace c) (c_trace c') /\ c_in c' = c_in c /\ c_input_pcb c' = c_input_pcb c)).
    + destruct (state_is _ CLOSED) eqn:Hcl.
      * apply bool_decide_eq_true in Hcl. unfold listed in Hlist. rewrite Hcl in Hlist.
        apply twp_bind. eapply (twp_mono _ (fun _ c' => c_live c' = true /\ sending iss c' /\
          quiet (c_trace c) (c_trace c') /\ c_in c' = c_in c /\ c_input_pcb c' = c_input_pcb c));
          [|by intros; apply twp_ret].
        apply twp_when; intros _; [|by split_and!]. apply twp_modify. case_bool_decide; [|by split_and!].
        split_and!; try done. apply sending_list; [done| |done]. destruct Hlist; congruence.
      * apply bool_decide_eq_false in Htw, Hcl. apply twp_bind.
        eapply twp_mono; [apply remove_active_ok; try done; by apply listed_active|].
        intros u c1 Hr. by apply twp_ret.
    + intros [send_rst port] c1 (Hl1 & Hc1 & Hq1 & Hi1 & Hp1). apply twp_bind.
      eapply (twp_mono _ (fun _ c' => c_live c' = true /\ sending iss c' /\
        quiet (c_trace c) (c_trace c') /\ c_in c' = c_in c /\ c_input_pcb c' = c_input_pcb c)).
      * apply twp_when; intros _; [|by split_and!]. apply twp_bind, twp_pcb; [done|].
        eapply twp_mono; [by apply rst_ok|]. intros _ c2 (Hs & Hc2 & _). split_and!; try done.
        -- by rewrite (st_live _ _ Hs).
        -- etransitivity; [exact Hq1|]. by apply steps_quiet.
        -- by rewrite (st_in _ _ Hs).
        -- by rewrite (st_input _ _ Hs).
      * intros _ c2 (Hl2 & Hc2 & Hq2 & Hi2 & Hp2). by apply free_err_ok.
Qed.

(** ** What a call establishes *)

Definition keeps {A} (m : TM A) (P : A -> conn -> Prop) c : Prop :=
  twp m (fun a c' => kept c c' /\ sending iss c' /\ P a c') c.

Lemma keeps_bind {A B} (m : TM A) (k : A -> TM B) P Q c :
  keeps m P c ->
  (forall a c', kept c c' -> c_live c' = c_live c -> sending iss c' -> P a c' -> keeps (k a) Q c') ->
  keeps (m ≫= k) Q c.
Proof.
  intros Hm Hk. apply twp_bind. eapply twp_mono; [exact Hm|]. intros a c' (Hs & Hc & HP). simpl.
  eapply twp_mono; [apply Hk; auto; apply Hs|]. intros b c2 (Hs2 & Hc2 & HQ).
  split_and!; auto. by transitivity c'.
Qed.

Lemma keeps_mono {A} (m : TM A) (P Q : A -> conn -> Prop) c :
  keeps m P c -> (forall a c', kept c c' -> P a c' -> Q a c') -> keeps m Q c.
Proof. intros Hm HQ. eapply twp_mono; [exact Hm|]. intros a c' (? & ? & ?). auto. Qed.

Lemma keeps_ret {A} (a : A) (P : A -> conn -> Prop) c : sending iss c -> P a c -> keeps (mret a) P c.
Proof. intros. apply twp_ret. split_and!; auto. reflexivity. Qed.

Lemma keeps_upd f (P : unit -> conn -> Prop) c :
  c_live c = true -> let c' := set_pcb (f (c_pcb c)) c in
  kept c c' -> sending iss c' -> P tt c' -> keeps (upd_pcb f) P c.
Proof. intros. apply twp_upd_pcb; auto. Qed.

Lemma sends_keeps {A} (m : TM A) P c : sends iss m P c -> keeps m P c.
Proof. intros Hm. eapply twp_mono; [exact Hm|]. intros a c' (? & ? & ?). auto using steps_kept. Qed.

Lemma not_listening c : sending iss c -> negb (state_is (pcb_state (c_pcb c)) LISTEN) = true.
Proof. intros Hc. unfold state_is. rewrite bool_decide_false; [done|]. apply Hc. Qed.

(** ** The receive window *)

Lemma update_ann_wnd_ok c :
  c_live c = true -> sending iss c ->
  keeps tcp_update_rcv_ann_wnd (fun _ c' => rcv_wnd (rx (c_pcb c')) = rcv_wnd (rx (c_pcb c)) /\
    c_trace c' = c_trace c /\ pcb_flags (c_pcb c') = pcb_flags (c_pcb c) /\
    pcb_state (c_pcb c') = pcb_state (c_pcb c) /\ cb (c_pcb c') = cb (c_pcb c)) c.
Proof.
  intros Hl Hc. unfold tcp_update_rcv_ann_wnd. apply twp_bind, twp_pcb; [done|].
  destruct (new_rcv_ann_wnd _) as [w inflation].
  eapply (keeps_bind _ _ (fun _ c' => rcv_wnd (rx (c_pcb c')) = rcv_wnd (rx (c_pcb c)) /\
    c_trace c' = c_trace c /\ pcb_flags (c_pcb c') = pcb_flags (c_pcb c) /\
    pcb_state (c_pcb c') = pcb_state (c_pcb c) /\ cb (c_pcb c') = cb (c_pcb c))).
  - by apply keeps_upd; [|split|ignored|].
  - intros _ c1 _ _ Hc1 ?. by apply keeps_ret.
Qed.

Lemma recved_ok len c :
  c_live c = true -> sending iss c -> 0 <= len ->
  keeps (tcp_recved len) (fun _ c' => pcb_state (c_pcb c') = pcb_state (c_pcb c) /\
    cb (c_pcb c') = cb (c_pcb c)) c.
Proof.
  intros Hl Hc Hlen. unfold tcp_recved. apply twp_bind, twp_pcb; [done|].
  apply twp_bind, twp_assert; [by apply not_listening|].
  set (w := if (TCP_WND_MAX (c_pcb c) <? u32 (rcv_wnd (rx (c_pcb c)) + len)) ||
                (u32 (rcv_wnd (rx (c_pcb c)) + len) <? rcv_wnd (rx (c_pcb c)))
            then TCP_WND_MAX (c_pcb c) else u32 (rcv_wnd (rx (c_pcb c)) + len)).
  eapply (keeps_bind _ _ (fun _ c' => pcb_state (c_pcb c') = pcb_state (c_pcb c) /\ cb (c_pcb c') = cb (c_pcb c))).
  { assert (wnd_ok (c_pcb c) -> 0 <= w <= TCP_WND_MAX (c_pcb c)) as Hw.
    { unfold w. intros _. pose proof (wnd_max_pos (c_pcb c)).
      pose proof (fits_u32 (rcv_wnd (rx (c_pcb c)) + len)) as Hf. unfold fits in Hf.
      destruct (Z.ltb_spec (TCP_WND_MAX (c_pcb c)) (u32 (rcv_wnd (rx (c_pcb c)) + len))); simpl; [lia|].
      destruct (_ <? _); lia. }
    cbv zeta. unfold w in Hw. destruct (_ || _);
      (apply keeps_upd; [done|split; try done; by exists [] || idtac|ignored|done]). }
  intros _ c1 _ Hl1 Hc1 [Hst1 Hcb1]. rewrite Hl in Hl1.
  eapply keeps_bind; [by apply update_ann_wnd_ok|].
  intros infl c2 _ Hl2 Hc2 (_ & _ & _ & Hst2 & Hcb2). rewrite Hl1 in Hl2.
  unfold when. destruct (_ <=? _); [|apply keeps_ret; [done|]; split; congruence].
  apply sends_keeps. eapply (sends_bind _ _ _ (fun _ c' => pcb_state (c_pcb c') = pcb_state (c_pcb c) /\
    cb (c_pcb c') = cb (c_pcb c))); [apply sends_flags_set; try done; cbn; split; congruence|].
  intros _ c3 _ Hl3 Hc3 [Hst3 Hcb3]. rewrite Hl2 in Hl3.
  eapply sends_bind; [by apply output_ok|]. intros r c4 Hs4 _ Hc4 _. apply sends_ret; [done|].
  rewrite (st_state _ _ Hs4), (st_cb _ _ Hs4). split; congruence.
Qed.

(** ** Programs of the application *)

(** The application stays within the rules for a callback that keeps the connection:
    it does not close, shut down or abort it, and does not say that it did. It gives the
    connection an argument before it asks for the receive callback; [bound] says that it
    did so. *)
Fixpoint calm_from (bound : bool) (a : app_prog) : Prop :=
  match a with
  | Return e => e <> ERR_ABRT
  | Write data _ k => zlen data < 2 ^ 16 /\ forall e, calm_from bound (k e)
  | OutputNow k => forall e, calm_from bound (k e)
  | Recved _ k => calm_from bound k
  | Set_ (Arg arg) k => arg <> 0 /\ calm_from true k
  | Set_ (Recv (Some tcp_recv_null_fn)) _ => False
  | Set_ (Recv (Some app_recv_fn)) k => bound = true /\ calm_from bound k
  | Set_ _ k => calm_from bound k
  | Shutdown _ _ _ | Close _ | Abort _ => False
  end.
Definition calm : app_prog -> Prop := calm_from false.

Lemma write_closed_ok data apiflags c :
  c_live c = true -> sending iss c -> writable (pcb_state (c_pcb c)) = false ->
  keeps (tcp_write (Some data) apiflags) (fun _ c' => c' = c) c.
Proof.
  intros Hl Hc Hw. unfold tcp_write. apply twp_bind, twp_pcb; [done|]. cbv zeta. apply twp_bind.
  unfold tcp_write_checks. apply twp_bind, twp_pcb; [done|].
  unfold writable in Hw. rewrite !orb_false_iff in Hw. destruct Hw as [[[-> ->] ->] ->].
  apply twp_ret. cbv beta. cbn [negb]. cbv iota. apply twp_ret. split_and!; [reflexivity|done..].
Qed.

Lemma setting_ok s c :
  c_live c = true -> sending iss c -> s <> Recv (Some tcp_recv_null_fn) -> s <> Arg 0 ->
  (s = Recv (Some app_recv_fn) -> callback_arg (cb (c_pcb c)) <> 0) ->
  keeps (apply_setting s) (fun _ c' => pcb_state (c_pcb c') = pcb_state (c_pcb c) /\
    listener (cb (c_pcb c')) = listener (cb (c_pcb c)) /\
    (cb_recv (cb (c_pcb c')) = Some tcp_recv_null_fn -> cb_recv (cb (c_pcb c)) = Some tcp_recv_null_fn) /\
    (callback_arg (cb (c_pcb c)) <> 0 -> callback_arg (cb (c_pcb c')) <> 0) /\
    (forall x, s = Arg x -> callback_arg (cb (c_pcb c')) = x)) c.
Proof.
  intros Hl Hc Hs Harg Hbound. unfold apply_setting. apply twp_bind, twp_pcb; [done|]. cbv zeta.
  rewrite (not_listening c Hc). cbn [LWIP_ASSERT].
  destruct s as [arg|f|on|on|on interval| ].
  - assert (arg <> 0) by (intros ->; done). apply keeps_upd; [done|by split; try done; intros _ _|ignored|].
    split_and!; try done. by intros x [= ->].
  - apply twp_bind, twp_ret. apply keeps_upd; [done|split; try done; cbn; try congruence|ignored|].
    { intros _ Hf. cbn in Hf |- *. apply Hbound. by rewrite Hf. }
    split_and!; try done. cbn. congruence.
  - apply twp_bind, twp_ret. by apply keeps_upd; [|split|ignored|].
  - apply twp_bind, twp_ret. by apply keeps_upd; [|split|ignored|].
  - apply twp_bind, twp_ret. eapply (keeps_bind _ _ (fun _ c' => c' = set_pcb
      (set_cb (set_cb_poll on (cb (c_pcb c))) (c_pcb c)) c)).
    { by apply keeps_upd; [|split|ignored|]. }
    intros _ c1 _ Hl1 Hc1 ->. by apply keeps_upd; [|split|ignored|].
  - apply sends_keeps. by apply sends_flags_set.
Qed.

(** Where a callback may run: the queues are there, or the connection no longer takes
    data. *)
Definition callable c : Prop := c_list c = ActiveList \/ writable (pcb_state (c_pcb c)) = false.

Definition same_state c c' : Prop :=
  pcb_state (c_pcb c') = pcb_state (c_pcb c) /\ listener (cb (c_pcb c')) = listener (cb (c_pcb c)) /\
  (cb_recv (cb (c_pcb c')) = Some tcp_recv_null_fn -> cb_recv (cb (c_pcb c)) = Some tcp_recv_null_fn) /\
  (armed c -> armed c') /\
  (callback_arg (cb (c_pcb c)) <> 0 -> callback_arg (cb (c_pcb c')) <> 0).

Lemma callable_kept c c' : callable c -> kept c c' -> same_state c c' -> callable c'.
Proof. unfold callable. intros [Hl|Hw] [] [Hs _]; [left; congruence|right; by rewrite Hs]. Qed.

Lemma same_state_trans a b c : same_state a b -> same_state b c -> same_state a c.
Proof. intros (? & ? & ? & ? & ?) (? & ? & ? & ? & ?). split_and!; [congruence|congruence|auto..]. Qed.

Lemma steps_same c c' : steps c c' -> same_state c c'.
Proof. intros []. split; [done|]. by rewrite st_cb. Qed.

#[export] Instance same_state_refl : Reflexive same_state.
Proof. intros c. by split. Qed.

(** The calls of the interface, one by one. *)
Lemma write_keeps data fl c :
  c_live c = true -> sending iss c -> callable c -> zlen data < 2 ^ 16 ->
  keeps (tcp_write (Some data) fl) (fun _ c' => same_state c c') c.
Proof.
  intros Hl Hc Hcall H16. destruct (writable (pcb_state (c_pcb c))) eqn:Hwr.
  - destruct Hcall as [Hact|]; [|congruence]. eapply twp_mono; [by apply write_ok|].
    intros e c' (Hs & Hc' & _). split_and!; [by apply steps_kept|done|by apply steps_same].
  - eapply keeps_mono; [by apply write_closed_ok|]. intros ? c' _ ->. done.
Qed.

Lemma output_keeps c : c_live c = true -> sending iss c -> keeps tcp_output (fun _ c' => same_state c c') c.
Proof.
  intros Hl Hc. apply sends_keeps. eapply sends_mono; [by apply output_ok|]. intros ? c' Hs _. by apply steps_same.
Qed.

Lemma recved_keeps len c :
  c_live c = true -> sending iss c -> keeps (tcp_recved (u16 len)) (fun _ c' => same_state c c') c.
Proof.
  intros Hl Hc. eapply keeps_mono; [apply recved_ok; [done|done|apply (wrap_fits 16); lia]|].
  intros ? c' _ [Hst Hcb]. split; [done|by rewrite Hcb].
Qed.

Lemma run_app_from a : forall bound c,
  c_live c = true -> sending iss c -> callable c -> calm_from bound a ->
  (bound = true -> callback_arg (cb (c_pcb c)) <> 0) ->
  keeps (run_app a) (fun e c' => e <> ERR_ABRT /\ same_state c c') c.
Proof.
  induction a as [e|data fl k IH|k IH|len k IH|s k IH|r t k IH|k IH|k IH]; intros bound c Hl Hc Hcall Hcalm Hb;
    simpl in Hcalm |- *; try done.
  - destruct Hcalm as [H16 Hk]. eapply keeps_bind; [by apply write_keeps|]. intros e c1 Hk1 Hl1 Hc1 Hs1.
    eapply keeps_mono; [eapply IH; try done; [by rewrite Hl1|by eapply callable_kept|by intros ?; apply Hs1, Hb]|].
    intros e2 c2 _ [He Hs2]. split; [done|exact (same_state_trans _ _ _ Hs1 Hs2)].
  - eapply keeps_bind; [by apply output_keeps|]. intros e c1 Hk1 Hl1 Hc1 Hs1.
    eapply keeps_mono; [eapply IH; try done; [by rewrite Hl1|by eapply callable_kept|by intros ?; apply Hs1, Hb]|].
    intros e2 c2 _ [He Hs2]. split; [done|exact (same_state_trans _ _ _ Hs1 Hs2)].
  - eapply keeps_bind; [by apply recved_keeps|]. intros u c1 Hk1 Hl1 Hc1 Hs1.
    eapply keeps_mono; [eapply IH; try done; [by rewrite Hl1|by eapply callable_kept|by intros ?; apply Hs1, Hb]|].
    intros e2 c2 _ [He Hs2]. split; [done|exact (same_state_trans _ _ _ Hs1 Hs2)].
  - assert (exists b, calm_from b k /\ s <> Recv (Some tcp_recv_null_fn) /\ s <> Arg 0 /\
      (s = Recv (Some app_recv_fn) -> callback_arg (cb (c_pcb c)) <> 0) /\
      (b = true -> bound = true \/ exists x, s = Arg x /\ x <> 0)) as (b & Hk & Hn & Ha & Hr & Hbb).
    { destruct s as [arg|[[ | ]| ]| | | | ]; try done.
      - exists true. destruct Hcalm. split_and!; try done; [congruence|]. right. by eexists.
      - exists bound. destruct Hcalm as [-> ?]. split_and!; auto.
      - exists bound. split_and!; auto.
      - exists bound. split_and!; auto.
      - exists bound. split_and!; auto.
      - exists bound. split_and!; auto.
      - exists bound. split_and!; auto. }
    eapply keeps_bind; [by apply setting_ok|]. intros u c1 Hk1 Hl1 Hc1 (Hs1 & Hs2 & Hs3 & Hs5 & Hx).
    assert (same_state c c1) as Hss by (split_and!; [done..|apply Hk1|done]).
    eapply keeps_mono; [eapply (IH b); try done; [by rewrite Hl1|by eapply callable_kept|]|].
    { intros Hbt. destruct (Hbb Hbt) as [Hbd|(x & -> & Hx0)]; [by apply Hs5, Hb|]. by rewrite (Hx x). }
    intros e2 c2 _ [He Hs4]. split; [done|exact (same_state_trans _ _ _ Hss Hs4)].
Qed.

Lemma run_app_ok a c :
  c_live c = true -> sending iss c -> callable c -> calm a ->
  keeps (run_app a) (fun e c' => e <> ERR_ABRT /\ same_state c c') c.
Proof. intros. by apply (run_app_from a false). Qed.

(** ** Closing *)

(** Closing moves an open connection on. *)
Definition moved (a b : tcp_state) : Prop :=
  b = a \/ (a = SYN_RCVD \/ a = ESTABLISHED) /\ b = FIN_WAIT_1 \/ a = CLOSE_WAIT /\ b = LAST_ACK.

Lemma fin_sent_kept c c' st :
  fin_sent iss c c' -> kept c (set_pcb (set_state st (c_pcb c')) c').
Proof.
  intros (Hl & Hlist & Hin & Hinp & Htk & _ & Htr & _ & Hcb & Hrx & Hrc & Hsc & _).
  split; cbn; try done; rewrite ?Hrx, ?Hcb; try done; [congruence| |by rewrite Htr].
  unfold wnd_ok. cbn. rewrite Hrx. by rewrite (wnd_max_scale (set_state st (c_pcb c')) (c_pcb c)).
Qed.

Lemma close_step_ok st c :
  c_live c = true -> sending iss c -> c_list c = ActiveList -> writable st = false -> st <> LISTEN ->
  writable (pcb_state (c_pcb c)) = true ->
  keeps (err ← tcp_send_fin; _ ← when (bool_decide (err = ERR_OK)) (upd_pcb (set_state st));
         if bool_decide (err = ERR_OK) then _ ← tcp_output; mret ERR_OK
         else if bool_decide (err = ERR_MEM) then _ ← tcp_set_flags TF_CLOSEPEND; mret ERR_OK
         else mret err)
    (fun err c' => err = ERR_OK /\ (pcb_state (c_pcb c') = pcb_state (c_pcb c) \/ pcb_state (c_pcb c') = st)) c.
Proof.
  intros Hl Hc Hact Hw Hst Hopen. apply twp_bind.
  eapply twp_mono; [apply send_fin_ok; try done; by apply (co_open _ _ _ (se_pcb _ _ Hc))|].
  intros err c1 Hr. cbv beta in Hr |- *. destruct (bool_decide (err = ERR_OK)).
  - pose proof (fin_sent_kept _ _ st Hr) as Hk. destruct Hr as (Hl1 & _ & _ & _ & _ & _ & _ & _ & _ & _ & _ & _ & Hs).
    specialize (Hs st Hw Hst). apply twp_bind, twp_upd_pcb; [by rewrite Hl1|].
    eapply twp_mono.
    + eapply (sends_bind _ _ _ (fun _ _ => True)); [apply output_ok; [by cbn; rewrite Hl1|done]|].
      intros r c2 Hs2 _ Hc2 _. apply (sends_ret iss ERR_OK (fun e _ => e = ERR_OK)); done.
    + intros r c2 (Hs2 & Hc2 & ->). cbv beta. split_and!; [|done| |].
      * etransitivity; [exact Hk|]. by apply steps_kept.
      * done.
      * right. by rewrite (st_state _ _ Hs2).
  - destruct Hr as (-> & Hs & Hc1). apply twp_bind, twp_ret. rewrite bool_decide_true by done.
    eapply twp_mono.
    + eapply (sends_bind _ _ _ (fun _ _ => True)); [apply sends_flags_set; try done; by rewrite (st_live _ _ Hs)|].
      intros r c2 Hs2 _ Hc2 _. apply (sends_ret iss ERR_OK (fun e _ => e = ERR_OK)); done.
    + intros r c2 (Hs2 & Hc2 & ->). assert (steps c c2) as Hs3 by (by transitivity c1). split_and!; [|done| |].
      * by apply steps_kept.
      * done.
      * left. apply (st_state _ _ Hs3).
Qed.

Lemma close_shutdown_fin_ok c :
  c_live c = true -> sending iss c -> listed c ->
  keeps tcp_close_shutdown_fin (fun err c' => err = ERR_OK /\
    moved (pcb_state (c_pcb c)) (pcb_state (c_pcb c'))) c.
Proof.
  intros Hl Hc Hlist. unfold tcp_close_shutdown_fin, moved. apply twp_bind, twp_pcb; [done|]. cbv zeta.
  destruct (pcb_state (c_pcb c)) eqn:Hst; unfold listed in Hlist; rewrite Hst in Hlist;
    try (apply keeps_ret; [done|]; rewrite Hst; by auto).
  - eapply keeps_mono; [apply close_step_ok; try done; by rewrite Hst|]. rewrite Hst. intros e c' _ [-> Hs]. split; [done|].
    destruct Hs as [->| ->]; auto.
  - eapply keeps_mono; [apply close_step_ok; try done; by rewrite Hst|]. rewrite Hst. intros e c' _ [-> Hs]. split; [done|].
    destruct Hs as [->| ->]; auto.
  - eapply keeps_mono; [apply close_step_ok; try done; by rewrite Hst|]. rewrite Hst. intros e c' _ [-> Hs]. split; [done|].
    destruct Hs as [->| ->]; auto.
Qed.

(** Closed with unread data while a segment is being processed: the connection is
    reset, and is removed at the end of the input. *)
Record triggered c c' : Prop := mk_triggered {
  tg_live : c_live c' = true;
  tg_list : c_list c' = NoList;
  tg_sending : sending iss c';
  tg_in : c_in c' = set_recv_flags (Z.lor (recv_flags (c_in c)) TF_CLOSED) (c_in c);
  tg_input : c_input_pcb c' = true;
  tg_cb : cb (c_pcb c') = cb (c_pcb c);
  tg_refused : refused_data (rx (c_pcb c')) = None;
  tg_quiet : quiet (c_trace c) (c_trace c');
}.

Definition close_post c c' : Prop :=
  (c_live c' = true /\ sending iss c' /\ kept c c' /\
     moved (pcb_state (c_pcb c)) (pcb_state (c_pcb c'))) \/
  (c_input_pcb c = true /\ triggered c c') \/
  ((c_input_pcb c = false \/ pcb_state (c_pcb c) = CLOSED \/ pcb_state (c_pcb c) = SYN_SENT) /\ ended c c').

Lemma close_by_state_ok c :
  c_live c = true -> sending iss c -> listed c ->
  twp tcp_close_by_state (fun err c' => err = ERR_OK /\ close_post c c') c.
Proof.
  intros Hl Hc Hlist. unfold tcp_close_by_state. apply twp_bind, twp_pcb; [done|].
  assert (twp tcp_close_shutdown_fin (fun err c' => err = ERR_OK /\ close_post c c') c) as Hfin.
  { eapply twp_mono; [by apply close_shutdown_fin_ok|]. intros err c' (Hk & Hc' & -> & Hm).
    split; [done|]. left. split_and!; try done. by rewrite (kp_live _ _ Hk). }
  destruct (pcb_state (c_pcb c)) eqn:Hst; try done; clear Hfin; unfold listed in Hlist; rewrite Hst in Hlist; try done.
  - apply twp_bind. eapply (twp_mono _ (fun _ c' => c_live c' = true /\ sending iss c' /\
      c_trace c' = c_trace c /\ c_in c' = c_in c /\ c_input_pcb c' = c_input_pcb c)).
    { apply twp_when; intros _; [|by split_and!]. apply twp_modify. case_bool_decide; [|by split_and!].
      split_and!; try done. apply sending_list; [done| |done]. destruct Hlist; congruence. }
    intros _ c1 (Hl1 & Hc1 & Ht & Hi & Hp). apply twp_bind. eapply twp_mono; [by apply free_ok|].
    intros _ c2 ->. apply twp_ret. split; [done|]. right; right. split; [by auto|].
    split; try done; [apply Hc1|]. cbn. by rewrite Ht.
  - apply twp_bind. eapply twp_mono; [apply remove_active_ok; try done|].
    { split; [by left|]. rewrite Hst. done. }
    intros _ c1 (Hl1 & Hc1 & Hq & Hi & Hp). apply twp_bind. eapply twp_mono; [by apply free_ok|].
    intros _ c2 ->. apply twp_ret. split; [done|]. right; right. split; [by auto|].
    split; try done. apply Hc1.
Qed.

Lemma close_shutdown_ok rst c :
  c_live c = true -> sending iss c -> listed c ->
  (rst = true -> has (pcb_flags (c_pcb c)) TF_RXCLOSED = true) ->
  twp (tcp_close_shutdown rst) (fun err c' => err = ERR_OK /\ close_post c c') c.
Proof.
  intros Hl Hc Hlist Hrx. unfold tcp_close_shutdown. apply twp_bind, twp_pcb; [done|].
  destruct (rst && _ && _) eqn:Hcond; [|by apply close_by_state_ok].
  apply andb_true_iff in Hcond as [[-> Hst]%andb_true_iff _].
  apply twp_bind, twp_assert; [by apply Hrx|].
  apply twp_bind. eapply twp_mono; [by apply rst_ok|]. intros _ c1 (Hs1 & Hc1 & Hp1).
  assert (c_live c1 = true) as Hl1 by (by rewrite (st_live _ _ Hs1)).
  apply twp_bind. eapply twp_mono; [by apply purge_ok|]. intros _ c2 ->.
  destruct (purged_same c1) as (Pl & Plist & Pi & Pp & _ & _ & _ & Pcb & _).
  assert (c_list c1 = ActiveList /\ pcb_state (c_pcb c1) <> CLOSED /\ pcb_state (c_pcb c1) <> TIME_WAIT)
    as (Hact & Hn1 & Hn2).
  { rewrite (st_list _ _ Hs1), Hp1. unfold listed in Hlist.
    apply orb_true_iff in Hst as [Hst|Hst]; apply bool_decide_eq_true in Hst; by rewrite Hst in Hlist |- *. }
  assert (sending iss (set_list NoList (purged c1))) as Hc2 by (by apply purged_sending).
  pose proof (purged_quiet c1) as Hq.
  apply twp_bind. unfold TCP_RMV_ACTIVE. apply twp_bind, twp_modify. rewrite bool_decide_true by congruence.
  apply twp_modify. apply twp_bind, twp_gets. apply twp_bind.
  set (c3 := set_changed true (set_list NoList (purged c1))).
  assert (sending iss c3) as Hc3 by (by apply (sending_same iss (set_list NoList (purged c1)))).
  assert (c_live c3 = true) as Hl3 by (change (c_live (purged c1) = true); by rewrite Pl).
  assert (quiet (c_trace c) (c_trace c3)) as Hq3.
  { etransitivity; [by apply (steps_quiet _ _ Hs1)|exact Hq]. }
  assert (c_in c3 = c_in c) as Hi3 by (change (c_in (purged c1) = c_in c); rewrite Pi; apply (st_in _ _ Hs1)).
  assert (c_input_pcb c3 = c_input_pcb c) as Hp3
    by (change (c_input_pcb (purged c1) = c_input_pcb c); rewrite Pp; apply (st_input _ _ Hs1)).
  destruct (c_input_pcb c3) eqn:Hinp.
  - apply twp_upd_in, twp_ret. split; [done|]. right; left. split; [done|]. split; try done.
    + by apply (sending_same iss c3).
    + cbn. cbn in Hi3. by rewrite Hi3.
    + change (cb (c_pcb (purged c1)) = cb (c_pcb c)). by rewrite Pcb, Hp1.
    + apply purged_refused; [done|done|apply Hc1].
  - eapply twp_mono; [by apply free_ok|]. intros _ c4 ->. apply twp_ret. split; [done|]. right; right.
    split; [left; congruence|]. split; try done; [apply Hc3|]. cbn in Hinp |- *. congruence.
Qed.

Lemma close_ok c :
  c_live c = true -> sending iss c -> listed c ->
  twp tcp_close (fun err c' => err = ERR_OK /\ close_post c c') c.
Proof.
  intros Hl Hc Hlist. unfold tcp_close. apply twp_bind, twp_pcb; [done|].
  rewrite (not_listening c Hc). apply twp_bind, twp_upd_pcb; [done|].
  match goal with |- twp _ _ ?d => set (c1 := d) end.
  assert (sending iss c1) as Hc1 by (unfold c1; ignored).
  assert (kept c c1) as Hk1.
  { unfold c1. split; cbn; try done; [flags; intros _; by rewrite ?orb_true_r|flags; by rewrite orb_false_r|].
    unfold wnd_ok. cbn. rewrite (wnd_max_scale (c_pcb c) (set_flags (u16 (Z.lor (pcb_flags (c_pcb c)) TF_RXCLOSED)) (c_pcb c)));
      [done|]. cbn. flags. by rewrite orb_false_r. }
  eapply twp_mono; [apply close_shutdown_ok; try done|].
  { intros _. unfold c1. cbn. flags. by rewrite orb_true_r. }
  intros err c2 [-> Hp]. split; [done|]. destruct Hp as [(Hl2 & Hc2 & Hk2 & Hm)|[[Hi Ht]|[Hi He]]].
  - left. split_and!; try done. by transitivity c1.
  - right; left. split; [done|]. by destruct Ht; split.
  - right; right. split; [done|]. by destruct He; split.
Qed.

(** ** Closing in a callback *)

(** The application takes its callbacks back. *)
Definition unbind (a : app_prog) : app_prog :=
  Set_ (Arg 0) (Set_ (Recv None) (Set_ (Sent false) (Set_ (Err false) a))).

(** It does, and closes the connection. *)
Definition goodbye (a : app_prog) : Prop := exists k, a = unbind (Close k) /\ k ERR_OK = Return ERR_OK.

(** A callback that may end in this way; what it answers when it closed is [ERR_OK]. *)
Fixpoint closing (a : app_prog) : Prop :=
  match a with
  | Return e => e <> ERR_ABRT
  | Write data _ k => zlen data < 2 ^ 16 /\ forall e, closing (k e)
  | OutputNow k => forall e, closing (k e)
  | Recved _ k => closing k
  | Set_ _ _ => goodbye a
  | Shutdown _ _ _ | Close _ | Abort _ => False
  end.

(** Calls between two callbacks: these may also end in an abort. *)
Fixpoint courteous (a : app_prog) : Prop :=
  match a with
  | Return _ => True
  | Write data _ k => zlen data < 2 ^ 16 /\ forall e, courteous (k e)
  | OutputNow k => forall e, courteous (k e)
  | Recved _ k => courteous k
  | Set_ _ _ => goodbye a \/ exists e, a = unbind (Abort (Return e))
  | Shutdown _ _ _ | Close _ | Abort _ => False
  end.

(** The states of a connection that a listener opened. *)
Definition open_state (st : tcp_state) : Prop :=
  st <> CLOSED /\ st <> LISTEN /\ st <> SYN_SENT.

(** The connection was reset; the end of the input frees it, without a word. *)
Record leaves c c' : Prop := mk_leaves {
  lv_live : c_live c' = true;
  lv_list : c_list c' = NoList;
  lv_sending : sending iss c';
  lv_closed : has (recv_flags (c_in c')) TF_CLOSED = true;
  lv_input : c_input_pcb c' = true;
  lv_refused : refused_data (rx (c_pcb c')) = None;
  lv_deaf : cb_recv (cb (c_pcb c')) = None;
  lv_silent : cb_sent (cb (c_pcb c')) = false;
  lv_quiet : quiet (c_trace c) (c_trace c');
}.

Lemma leaves_kept c c1 c2 : kept c c1 -> leaves c1 c2 -> leaves c c2.
Proof. intros Hk []. split; try done. by transitivity (c_trace c1); [apply Hk|]. Qed.

(** What a callback that may close leaves behind. *)
Definition callback_post (e : err_t) c c' : Prop :=
  (c_live c' = true /\ sending iss c' /\ kept c c' /\ moved (pcb_state (c_pcb c)) (pcb_state (c_pcb c'))) \/
  (e = ERR_OK /\ leaves c c').

(** The settings of a goodbye. *)
Definition unbound (k : callbacks) : callbacks :=
  set_cb_errf false (set_cb_sent false (set_cb_recv None (set_callback_arg 0 k))).

Definition without_callbacks c : conn := set_pcb (set_cb (unbound (cb (c_pcb c))) (c_pcb c)) c.

Lemma unbind_ok a Q c :
  c_live c = true -> sending iss c -> twp (run_app a) Q (without_callbacks c) -> twp (run_app (unbind a)) Q c.
Proof.
  intros Hl Hc Ha. unfold unbind. cbn [run_app]. unfold apply_setting.
  apply twp_bind, twp_bind, twp_pcb; [done|]. apply twp_upd_pcb; [done|].
  do 3 (apply twp_bind, twp_bind, twp_pcb; [done|]; cbv zeta; cbn [c_pcb set_pcb pcb_state set_cb];
    rewrite (not_listening c Hc); apply twp_bind, twp_ret; apply twp_upd_pcb; [done|]).
  exact Ha.
Qed.

Lemma unbound_kept c : sending iss c -> kept c (without_callbacks c) /\ sending iss (without_callbacks c).
Proof. intros Hc. split; [by split|]. unfold without_callbacks. ignored. Qed.

Lemma goodbye_ok a c :
  c_live c = true -> sending iss c -> listed c -> c_input_pcb c = true -> open_state (pcb_state (c_pcb c)) ->
  goodbye a -> twp (run_app a) (fun e c' => e = ERR_OK /\ callback_post e c c') c.
Proof.
  intros Hl Hc Hlist Hi (Ho1 & _ & Ho3) (k & -> & Hk). apply unbind_ok; [done..|].
  destruct (unbound_kept c Hc) as [Hk1 Hs1]. cbn [run_app].
  apply twp_bind. eapply twp_mono; [by apply close_ok|].
  intros e c2 [-> Hp]. rewrite Hk. apply twp_ret. split; [done|].
  destruct Hp as [(Hl2 & Hc2 & Hk2 & Hm)|[[_ []]|[[Hx|[Hx|Hx]] _]]]; [left|right|cbn in Hx; congruence..].
  - split_and!; [done|done|by etransitivity|done].
  - split; [done|]. apply (leaves_kept c (without_callbacks c)); [done|]. split; try done; [|by rewrite tg_cb0..].
    rewrite tg_in0. cbn. rewrite has_lor. by rewrite orb_comm.
Qed.

Lemma callback_kept e c c1 c2 :
  kept c c1 -> pcb_state (c_pcb c1) = pcb_state (c_pcb c) -> callback_post e c1 c2 -> callback_post e c c2.
Proof.
  intros Hk Hs [(Hl & Hc & Hk2 & Hm)|[He Hl]]; [left|right].
  - split_and!; [done|done|by transitivity c1|by rewrite <- Hs].
  - split; [done|]. by eapply leaves_kept.
Qed.

(** Where a callback of the input runs. *)
Record attentive c : Prop := mk_attentive {
  at_live : c_live c = true;
  at_sending : sending iss c;
  at_listed : listed c;
  at_callable : callable c;
  at_input : c_input_pcb c = true;
  at_open : open_state (pcb_state (c_pcb c));
}.

Lemma attentive_kept c c' : attentive c -> kept c c' -> same_state c c' -> sending iss c' -> attentive c'.
Proof.
  intros [] Hk Hs Hc. pose proof (callable_kept _ _ at_callable0 Hk Hs). destruct Hs as [Hs _].
  split; rewrite ?Hs; try done.
  - by rewrite (kp_live _ _ Hk).
  - unfold listed in *. by rewrite Hs, (kp_list _ _ Hk).
  - by rewrite (kp_input _ _ Hk).
Qed.

Lemma closing_bind {A} (m : TM A) (k : A -> TM err_t) c :
  attentive c -> keeps m (fun _ c' => same_state c c') c ->
  (forall a c1, attentive c1 -> twp (k a) (fun e c' => e <> ERR_ABRT /\ callback_post e c1 c') c1) ->
  twp (m ≫= k) (fun e c' => e <> ERR_ABRT /\ callback_post e c c') c.
Proof.
  intros Hr Hm Hk. apply twp_bind. eapply twp_mono; [exact Hm|]. intros a c1 (Hk1 & Hc1 & Hs1).
  eapply twp_mono; [apply Hk; by eapply attentive_kept|]. intros e c2 [He Hp]. split; [done|].
  eapply callback_kept; [done|apply Hs1|done].
Qed.

Lemma run_closing_ok a : forall c, attentive c -> closing a ->
  twp (run_app a) (fun e c' => e <> ERR_ABRT /\ callback_post e c c') c.
Proof.
  induction a as [e|data fl k IH|k IH|len k IH|s k IH|r t k IH|k IH|k IH]; intros c Hr Ha;
    cbn [closing] in Ha; try done; pose proof Hr as [Hl Hc Hlist Hcall Hi Ho].
  - apply twp_ret. split; [done|]. left. by split_and!; [..|left].
  - destruct Ha as [H16 Hk]. apply closing_bind; [done|by apply write_keeps|]. intros e c1 Hr1. by apply IH.
  - apply closing_bind; [done|by apply output_keeps|]. intros e c1 Hr1. by apply IH.
  - apply closing_bind; [done|by apply recved_keeps|]. intros e c1 Hr1. by apply IH.
  - eapply twp_mono; [by apply goodbye_ok|]. by intros e c1 [-> ?].
Qed.

(** ** Callbacks *)

(** Events of the application: they carry no output. *)
Definition app_event (e : event) : Prop :=
  match e with Output _ _ | Written _ => False | _ => True end.

Lemma sending_app_event c e : sending iss c -> app_event e -> sending iss (set_trace (c_trace c ++ [e]) c).
Proof. intros Hc He. apply sending_event; [done|by destruct e|by destruct e]. Qed.

(** A quiet event after a callback. *)
Lemma callback_event e mk c c' :
  callback_post e c c' -> app_event mk -> quiet_event mk ->
  callback_post e c (set_trace (c_trace c' ++ [mk]) c').
Proof.
  intros Hp Ha Hq. pose proof (quiet_one (c_trace c') mk Hq) as Hone.
  destruct Hp as [(Hl & Hc & Hk & Hm)|[He []]]; [left|right].
  - split_and!; [done|by apply sending_app_event| |done]. etransitivity; [exact Hk|]. by split.
  - split; [done|]. split; try done; [by apply sending_app_event|]. by transitivity (c_trace c').
Qed.

Lemma call_app_ok a mk c :
  c_live c = true -> sending iss c -> callable c -> calm (a (c_trace c)) -> (forall e, app_event (mk e)) ->
  twp (call_app a mk) (fun e c' => exists c1, kept c c1 /\ same_state c c1 /\ e <> ERR_ABRT /\
    sending iss c1 /\ sending iss c' /\ c' = set_trace (c_trace c1 ++ [mk e]) c1) c.
Proof.
  intros Hl Hc Hcall Hcalm Hmk. unfold call_app. apply twp_bind, twp_gets, twp_bind.
  eapply twp_mono; [by apply run_app_ok|]. intros e c1 (Hk & Hc1 & He & Hs).
  apply twp_bind, twp_emit, twp_ret. exists c1. split_and!; try done. by apply sending_app_event.
Qed.

(** A callback whose event is quiet. *)
Lemma call_quiet_ok a mk c :
  c_live c = true -> sending iss c -> callable c -> calm (a (c_trace c)) ->
  (forall e, app_event (mk e) /\ quiet_event (mk e)) ->
  keeps (call_app a mk) (fun e c' => e <> ERR_ABRT /\ same_state c c') c.
Proof.
  intros Hl Hc Hcall Hcalm Hmk. eapply twp_mono; [apply call_app_ok; try done; apply Hmk|].
  intros e c' (c1 & Hk & Hs & He & _ & Hc' & ->). split_and!; try done.
  etransitivity; [exact Hk|]. split; try done. apply quiet_one, Hmk.
Qed.

End api.
