(* ===== verification/TcpOptions.v ===== *)
(** * The options of a segment

    [parse_options] is what a sequence of TCP options says; [tcp_parseopt] applies
    exactly that, whatever the bytes are and whatever lies behind them in memory. *)
From Stdlib Require Import ZArith Lia.
From stdpp Require Import base list option numbers gmap.
From S2P Require Import Prelude Pbuf Chksum Lwip Tcp TcpOut TcpApi TcpIn TcpInv.

(** ** What the options say *)

Inductive tcp_option := MaxSegmentSize (m : Z) | WindowScale (shift : Z).

(** The options up to the first malformed one; unknown options are skipped. *)
Fixpoint parse_options (fuel : nat) (l : list Z) : list tcp_option :=
  match fuel with
  | O => []
  | S fuel =>
      match l with
      | [] => []
      | kind :: l =>
          if kind =? LWIP_TCP_OPT_EOL then []
          else if kind =? LWIP_TCP_OPT_NOP then parse_options fuel l
          else if kind =? LWIP_TCP_OPT_MSS then
            match l with
            | len :: high :: low :: l =>
                if len =? LWIP_TCP_OPT_LEN_MSS then MaxSegmentSize (opt_mss high low) :: parse_options fuel l
                else []
            | _ => []
            end
          else if kind =? LWIP_TCP_OPT_WS then
            match l with
            | len :: shift :: l =>
                if len =? LWIP_TCP_OPT_LEN_WS then WindowScale shift :: parse_options fuel l else []
            | _ => []
            end
          else
            match l with
            | len :: l => if len <? 2 then [] else parse_options fuel (zdrop (len - 2) l)
            | [] => []
            end
      end
  end.

Definition options (l : list Z) : list tcp_option := parse_options (S (length l)) l.

Definition apply_option (o : tcp_option) : TM unit :=
  match o with
  | MaxSegmentSize m => upd_tx (set_mss m)
  | WindowScale shift => use_window_scale shift
  end.

Fixpoint apply_options (l : list tcp_option) : TM unit :=
  match l with
  | [] => mret tt
  | o :: l => _ ← apply_option o; apply_options l
  end.

(** ** [tcp_parseopt] applies them *)

Section options.
Context `{Environment}.

Lemma get_optbyte_at pre x l n :
  n = zlen pre + zlen x ->
  tcp_get_next_optbyte (pre ++ x ++ l) n = match l with b :: _ => b | [] => u8 (env_memory n) end.
Proof.
  intros ->. rewrite app_assoc, <- zlen_app. unfold tcp_get_next_optbyte, zlen.
  rewrite Nat2Z.id, lookup_app_r, Nat.sub_diag by lia. by destruct l.
Qed.

Lemma parseopt_end opts idx fuel :
  zlen opts <= idx -> (0 < fuel)%nat -> parseopt_loop fuel opts idx = mret tt.
Proof.
  intros Hi Hf. destruct fuel as [|fuel]; [lia|]. simpl. by rewrite (proj2 (Z.ltb_ge _ _)).
Qed.

Lemma tm_bind_assoc {A B C} (m : TM A) (k : A -> TM B) (j : B -> TM C) c :
  ((m ≫= k) ≫= j) c = (m ≫= fun a => k a ≫= j) c.
Proof. unfold mbind, tm_bind. by destruct (m c) as [[a c']|]. Qed.

Lemma bind_eq {A B} (m : TM A) (k j : A -> TM B) c :
  (forall a c', k a c' = j a c') -> (m ≫= k) c = (m ≫= j) c.
Proof. intros Hk. unfold mbind, tm_bind. destruct (m c) as [[a c']|]; auto. Qed.

Lemma parseopt_loop_spec fuel : forall pre l c,
  (length l < fuel)%nat -> Forall (fits 8) l -> zlen (pre ++ l) < 2 ^ 8 ->
  parseopt_loop fuel (pre ++ l) (zlen pre) c = apply_options (parse_options fuel l) c.
Proof.
  induction fuel as [|fuel IH]; intros pre l c Hfuel Hl H8; [lia|].
  destruct l as [|kind l].
  { rewrite app_nil_r, parseopt_end by lia. done. }
  assert (zlen pre + 1 + zlen l < 2 ^ 8) as Hlen by (rewrite zlen_app, zlen_cons in H8; lia).
  pose proof (zlen_nonneg pre) as Hp. pose proof (zlen_nonneg l) as Hln.
  apply Forall_cons in Hl as [Hkind Hl]. simpl in Hfuel.
  assert (forall n x (k : list Z), n = zlen pre + zlen x ->
    parseopt_loop fuel (pre ++ x ++ k) n = parseopt_loop fuel ((pre ++ x) ++ k) (zlen (pre ++ x))) as Hshift
    by (intros n x k ->; by rewrite <- app_assoc, zlen_app).
  simpl. rewrite (proj2 (Z.ltb_lt _ _)) by (rewrite zlen_app, zlen_cons; lia).
  pose proof (get_optbyte_at pre [] (kind :: l) (zlen pre)) as Hg0. simpl app in Hg0.
  rewrite Hg0 by (rewrite zlen_nil; lia).
  rewrite (wrap_small 16 (zlen pre + 1)) by (unfold fits; lia).
  destruct (kind =? LWIP_TCP_OPT_EOL); [done|].
  destruct (kind =? LWIP_TCP_OPT_NOP).
  { rewrite (Hshift _ [kind] l) by (by rewrite zlen_cons, zlen_nil). apply IH; [lia|done|].
    rewrite <- app_assoc. exact H8. }
  assert (forall x k y n, x ++ k = y -> n = zlen pre + zlen x ->
    tcp_get_next_optbyte (pre ++ y) n = match k with b :: _ => b | [] => u8 (env_memory n) end) as Hget
    by (intros x k y n <-; apply get_optbyte_at).
  rewrite (wrap_small 16 (zlen pre + 1 + 1)) by (unfold fits; lia).
  rewrite (Hget [kind] l (kind :: l) (zlen pre + 1) eq_refl) by done. rewrite zlen_app, zlen_cons.
  change LWIP_TCP_OPT_LEN_MSS with 4. change LWIP_TCP_OPT_LEN_WS with 3.
  destruct (kind =? LWIP_TCP_OPT_MSS).
  { destruct l as [|len [|high [|low l]]]; rewrite ?zlen_cons, ?zlen_nil in *.
    1-3: (destruct (_ || _) eqn:Ho; [done|]; exfalso; apply orb_false_iff in Ho as [_ Ho];
      apply Z.ltb_ge in Ho; lia).
    pose proof (zlen_nonneg l). rewrite (proj2 (Z.ltb_ge _ _)), orb_false_r by lia.
    destruct (Z.eqb_spec len 4) as [->|]; [|done]. cbn [negb apply_options apply_option]. cbv iota.
    rewrite (wrap_small 16 (zlen pre + 1 + 1 + 1)), (wrap_small 16 (zlen pre + 1 + 1 + 2)) by (unfold fits; lia).
    rewrite (Hget [kind; 4] (high :: low :: l) (kind :: 4 :: high :: low :: l) (zlen pre + 1 + 1) eq_refl) by (rewrite !zlen_cons, zlen_nil; lia).
    rewrite (Hget [kind; 4; high] (low :: l) (kind :: 4 :: high :: low :: l) (zlen pre + 1 + 1 + 1) eq_refl) by (rewrite !zlen_cons, zlen_nil; lia).
    apply bind_eq. intros _ c1.
    rewrite (Hshift _ [kind; 4; high; low] l) by (rewrite !zlen_cons, zlen_nil; lia).
    apply IH; [simpl in Hfuel; lia|by do 3 apply Forall_cons in Hl as [_ Hl]|].
    rewrite <- app_assoc. exact H8. }
  destruct (kind =? LWIP_TCP_OPT_WS).
  { destruct l as [|len [|shift l]]; rewrite ?zlen_cons, ?zlen_nil in *.
    1-2: (destruct (_ || _) eqn:Ho; [done|]; exfalso; apply orb_false_iff in Ho as [_ Ho];
      apply Z.ltb_ge in Ho; lia).
    pose proof (zlen_nonneg l). rewrite (proj2 (Z.ltb_ge _ _)), orb_false_r by lia.
    destruct (Z.eqb_spec len 3) as [->|]; [|done]. cbn [negb apply_options apply_option]. cbv iota.
    rewrite (wrap_small 16 (zlen pre + 1 + 1 + 1)) by (unfold fits; lia).
    rewrite (Hget [kind; 3] (shift :: l) (kind :: 3 :: shift :: l) (zlen pre + 1 + 1) eq_refl) by (rewrite !zlen_cons, zlen_nil; lia).
    apply bind_eq. intros _ c1.
    rewrite (Hshift _ [kind; 3; shift] l) by (rewrite !zlen_cons, zlen_nil; lia).
    apply IH; [simpl in Hfuel; lia|by do 2 apply Forall_cons in Hl as [_ Hl]|].
    rewrite <- app_assoc. exact H8. }
  destruct l as [|len l].
  { pose proof (wrap_fits 8 (env_memory (zlen pre + 1)) ltac:(lia)) as Hb. unfold fits in Hb.
    destruct (Z.ltb_spec (u8 (env_memory (zlen pre + 1))) 2); [done|].
    rewrite wrap_small by (unfold fits; lia). rewrite parseopt_end; [done| |].
    - rewrite zlen_app, zlen_cons, zlen_nil. lia.
    - simpl in Hfuel. lia. }
  apply Forall_cons in Hl as [Hlb Hl]. unfold fits in Hlb. rewrite zlen_cons in *.
  destruct (Z.ltb_spec len 2) as [|Hge]; [done|]. pose proof (zlen_nonneg l).
  rewrite (wrap_small 16 (zlen pre + 1 + 1 + (len - 2))) by (unfold fits; lia).
  destruct (Z.le_gt_cases (len - 2) (zlen l)) as [Hle|Hgt].
  - rewrite <- (ztake_zdrop (len - 2) l) at 1.
    rewrite (Hshift _ ([kind; len] ++ ztake (len - 2) l) (zdrop (len - 2) l))
      by (rewrite zlen_app, zlen_ztake by lia; rewrite !zlen_cons, zlen_nil; lia).
    apply IH.
    + simpl in Hfuel. unfold zdrop. rewrite length_drop. lia.
    + by apply Forall_drop.
    + rewrite <- !app_assoc, ztake_zdrop. exact H8.
  - rewrite zdrop_all by lia. rewrite parseopt_end.
    + destruct fuel; [simpl in Hfuel; lia|done].
    + rewrite zlen_app, !zlen_cons. lia.
    + simpl in Hfuel. lia.
Qed.


(** Options of a segment with a header: bytes, at most 40. *)
Definition options_ok (l : list Z) : Prop := Forall (fits 8) l /\ zlen l <= 40.

Lemma parseopt_options c :
  options_ok (in_opts (c_in c)) -> tcp_parseopt c = apply_options (options (in_opts (c_in c))) c.
Proof.
  intros [Hb Hlen]. unfold tcp_parseopt, options.
  match goal with |- (in_ ≫= ?k) c = _ => change ((in_ ≫= k) c) with (k (c_in c) c) end. cbv beta.
  destruct (Z.eqb_spec (zlen (in_opts (c_in c))) 0) as [Hz|Hz]; cbn [negb].
  - by rewrite (zlen_zero _ Hz).
  - apply (parseopt_loop_spec _ [] (in_opts (c_in c)) c); [simpl; lia|done|simpl; lia].
Qed.

(** An option that changes nothing: the maximum segment size in force, or a window
    scale that does not count. *)
Definition neutral (flags : Z) (p : tcp_pcb) (o : tcp_option) : Prop :=
  match o with
  | MaxSegmentSize m => m = mss (tx p)
  | WindowScale _ => has flags TCP_SYN = false \/ has (pcb_flags p) TF_WND_SCALE = true
  end.

Lemma apply_neutral l c :
  c_live c = true -> Forall (neutral (in_flags (c_in c)) (c_pcb c)) l ->
  twp (apply_options l) (fun _ c' => c' = c) c.
Proof.
  intros Hl. induction l as [|o l IH]; intros Hn; [done|]. apply Forall_cons in Hn as [Ho Hn].
  simpl. apply twp_bind. eapply (twp_mono _ (fun _ c' => c' = c)); [|intros _ c' ->; by apply IH].
  destruct o as [m|shift]; simpl in Ho |- *.
  - subst m. apply twp_upd_pcb; [done|]. by destruct c as [[? ? ? ? [] ? ? ?] ? ? ? ? ? ? ? ?].
  - unfold use_window_scale. apply twp_bind, twp_in, twp_bind, twp_pcb; [done|].
    destruct Ho as [->| ->]; [done|]. by rewrite andb_false_r.
Qed.

Lemma parseopt_neutral c :
  c_live c = true -> options_ok (in_opts (c_in c)) ->
  Forall (neutral (in_flags (c_in c)) (c_pcb c)) (options (in_opts (c_in c))) ->
  twp tcp_parseopt (fun _ c' => c' = c) c.
Proof. intros Hl Hok Hn. unfold twp. rewrite parseopt_options by done. by apply apply_neutral. Qed.

End options.
