(* ===== verification/TcpAckProofs.v ===== *)
(** * Acknowledgements

    An acknowledgement of new data removes acknowledged segments from the front of
    the queues and gives their bytes back to the send buffer; a duplicate one may
    retransmit. *)
From Stdlib Require Import ZArith Lia.
From stdpp Require Import base list option numbers gmap.
From S2P Require Import Prelude Pbuf Chksum Lwip Tcp TcpOut TcpApi TcpIn TcpInv TcpOutProofs TcpWriteProofs TcpQueueProofs TcpApiProofs.

Section ack.
Context `{Environment}.
Variable iss : Z.
Implicit Types c : conn.

(** ** Removing acknowledged segments *)

Definition freed (k : list tcp_seg) (queuelen : Z) c : conn :=
  set_in (set_recv_acked (recv_acked (c_in c) + sum_len k) (c_in c))
    (set_pcb (set_tx (set_snd_queuelen queuelen (tx (c_pcb c))) (c_pcb c)) c).

Lemma freed_nil c : freed [] (snd_queuelen (tx (c_pcb c))) c = c.
Proof.
  unfold freed. change (sum_len []) with 0. rewrite Z.add_0_r.
  by destruct c as [[? ? ? ? [] ? ? ?] ? ? ? [] ? ? ? ?].
Qed.

Lemma free_acked_ok l : forall other c,
  c_live c = true -> snd_queuelen (tx (c_pcb c)) = zlen l + zlen other ->
  snd_queuelen (tx (c_pcb c)) < 2 ^ 16 ->
  0 <= recv_acked (c_in c) -> recv_acked (c_in c) + sum_len l < 2 ^ 32 ->
  twp (tcp_free_acked_segments l other) (fun l' c' => exists k, l = k ++ l' /\
    c' = freed k (zlen l' + zlen other) c) c.
Proof.
  induction l as [|s l IH]; intros other c Hl Hlen H16 H0 H32.
  { apply twp_ret. exists []. split; [done|]. rewrite zlen_nil in Hlen |- *. by rewrite <- Hlen, freed_nil. }
  rewrite zlen_cons in Hlen. rewrite sum_len_cons in H32. simpl.
  pose proof (zlen_nonneg l). pose proof (zlen_nonneg other). pose proof (sum_len_nonneg l).
  pose proof (zlen_nonneg (sg_data s)) as Hs. change (0 <= sg_len s) in Hs.
  apply twp_bind, twp_in. destruct (TCP_SEQ_LEQ _ _).
  2:{ apply twp_ret. exists []. split; [done|]. rewrite zlen_cons, <- Hlen. by rewrite freed_nil. }
  apply twp_bind, twp_pcb; [done|]. apply twp_bind, twp_assert; [apply Z.leb_le; lia|].
  apply twp_bind, twp_upd_pcb; [done|]. apply twp_bind, twp_upd_in. apply twp_bind, twp_pcb; [done|].
  cbn [c_in set_pcb set_in c_pcb set_tx tx].
  assert (u16 (snd_queuelen (tx (c_pcb c)) - 1) = zlen l + zlen other) as Hq
    by (rewrite wrap_small; [|unfold fits]; lia).
  assert (u32 (recv_acked (c_in c) + sg_len s) = recv_acked (c_in c) + sg_len s) as Hr
    by (apply wrap_small; unfold fits; lia).
  apply twp_bind, twp_assert.
  { cbn. rewrite Hq. apply orb_true_iff. rewrite orb_true_iff, Z.eqb_eq.
    destruct l as [|s2 l2]; [|by right; left]. destruct other; [by left|by right; right]. }
  match goal with |- twp _ _ ?d => set (c1 := d) end.
  assert (c1 = freed [s] (zlen l + zlen other) c) as Hc1.
  { unfold c1, freed. rewrite sum_len_cons. change (sum_len []) with 0. rewrite Z.add_0_r. cbn. by rewrite Hq, Hr. }
  rewrite Hc1. eapply twp_mono; [apply IH|]; try done.
  - cbn. lia.
  - cbn. rewrite sum_len_cons. change (sum_len []) with 0. lia.
  - cbn. rewrite sum_len_cons. change (sum_len []) with 0. lia.
  - intros l' c' (k & -> & ->). exists (s :: k). split; [done|]. unfold freed. cbn.
    rewrite !sum_len_cons. change (sum_len []) with 0. rewrite Z.add_0_r, Z.add_assoc. done.
Qed.

(** ** Small changes *)

Lemma sending_cc c g :
  sending iss c -> 0 <= nrtx g < 256 -> sending iss (set_pcb (set_cc g (c_pcb c)) c).
Proof.
  intros [[] Hq Ht] Hn. split; cbn; [by split; cbn|case_bool_decide; [|done]|done]. by destruct Hq.
Qed.

Lemma grow_cwnd_nrtx p acked g : nrtx (grow_cwnd p acked g) = nrtx g.
Proof. unfold grow_cwnd. repeat case_match; done. Qed.

(** What an acknowledgement leaves alone: it only counts the acknowledged bytes. *)
Definition ack_frame c c' : Prop :=
  exists n, 0 <= n < 2 ^ 32 /\ kept (set_in (set_recv_acked n (c_in c)) c) c' /\ same_state c c'.

Lemma set_recv_acked_same i : set_recv_acked (recv_acked i) i = i.
Proof. by destruct i. Qed.

Lemma kept_ack_frame c c' :
  0 <= recv_acked (c_in c) < 2 ^ 32 -> kept c c' -> same_state c c' -> ack_frame c c'.
Proof.
  intros Hn Hk Hs. exists (recv_acked (c_in c)). rewrite set_recv_acked_same. split_and!; [lia|lia| |done].
  by destruct Hk; split.
Qed.

Lemma ack_frame_kept a b c : ack_frame a b -> kept b c -> same_state b c -> ack_frame a c.
Proof.
  intros (n & Hn & Hk & Hs) Hk2 Hs2. exists n. split_and!; [lia|lia| |by eapply same_state_trans].
  by transitivity b.
Qed.

Lemma kept_ack a b c : kept a b -> same_state a b -> ack_frame b c -> ack_frame a c.
Proof.
  intros Hk Hs (n & Hn & Hk2 & Hs2). exists n. split_and!; [lia|lia| |by eapply same_state_trans].
  etransitivity; [|exact Hk2]. destruct Hk. by split; cbn; rewrite ?kp_in.
Qed.

(** ** An acknowledgement of new data *)

(** The control block once the front of the queues is acknowledged. *)
Definition acked_tx (u a : list tcp_seg) (n : Z) (t : sender) : sender :=
  set_snd_buf (u32 (snd_buf t + n)) (set_unsent_oversize (match u with [] => 0 | _ => unsent_oversize t end)
    (set_unsent u (set_unacked a (set_snd_queuelen (zlen u + zlen a) t)))).

Lemma acked_sending c t k1 a k2 u :
  sending iss c -> c_list c = ActiveList -> unacked (tx (c_pcb c)) = k1 ++ a -> unsent (tx (c_pcb c)) = k2 ++ u ->
  persist_backoff t = persist_backoff (tm (c_pcb c)) ->
  sending iss (set_pcb (set_tm t (set_tx (acked_tx u a (sum_len k1 + sum_len k2) (tx (c_pcb c))) (c_pcb c))) c).
Proof.
  intros Hc Hact Ha Hu Hb. pose proof (sending_queues _ c Hc Hact) as Hq. destruct Hc as [[] _ Ht], Hq.
  rewrite Ha, Hu in *. rewrite !zlen_app, !sum_len_app in *.
  apply Forall_app in qo_unsent as [_ Hu'], qo_unacked as [_ Ha'], qo_sent as [_ Hs'].
  pose proof (zlen_nonneg k1). pose proof (zlen_nonneg k2).
  pose proof (sum_len_nonneg k1). pose proof (sum_len_nonneg k2).
  pose proof (sum_len_nonneg a). pose proof (sum_len_nonneg u).
  assert (u32 (snd_buf (tx (c_pcb c)) + (sum_len k1 + sum_len k2)) =
    snd_buf (tx (c_pcb c)) + (sum_len k1 + sum_len k2)) as Hbuf.
  { apply wrap_small. unfold fits. change TCP_SND_BUF with 1495040 in *. lia. }
  split; cbn; [split; cbn; try done; rewrite ?Hb; try done|rewrite bool_decide_true by done|done].
  - split; cbn; rewrite ?Hbuf; try done; try lia.
    + unfold last_oversize in *. destruct u as [|s u]; [done|]. rewrite qo_oversize, last_app.
      by destruct (last (s :: u)) eqn:Hl; [|apply last_None in Hl].
    + unfold tail_ok in *. destruct u as [|s u]; [done|]. rewrite last_app in qo_tail.
      by destruct (last (s :: u)) eqn:Hl; [|apply last_None in Hl].
Qed.

Lemma ack_congestion_ok ackno c :
  c_live c = true -> sending iss c -> sends iss (ack_congestion ackno) (fun _ _ => True) c.
Proof.
  intros Hl Hc. unfold ack_congestion. apply sends_pcb; [done|].
  eapply (sends_bind _ _ _ (fun _ _ => True)).
  { unfold when. destruct (has _ _); [|by apply sends_ret].
    eapply (sends_bind _ _ _ (fun _ _ => True)); [by apply sends_upd; [|frame|ignored|]|].
    intros _ c1 _ Hl1 Hc1 _. apply sends_upd; [by rewrite Hl1|frame| |done].
    apply (sending_cc c1 _ Hc1). apply (co_nrtx _ _ _ (se_pcb _ _ Hc1)). }
  intros _ c1 _ Hl1 Hc1 _. rewrite Hl in Hl1.
  eapply (sends_bind _ _ _ (fun _ _ => True)).
  { apply sends_upd; [done|frame|by apply (sending_cc c1 _ Hc1)|done]. }
  intros _ c2 _ Hl2 Hc2 _. rewrite Hl1 in Hl2.
  eapply (sends_bind _ _ _ (fun _ _ => True)).
  { apply sends_upd; [done|frame| |done]. apply (sending_cc c2 _ Hc2), (co_nrtx _ _ _ (se_pcb _ _ Hc2)). }
  intros _ c3 _ Hl3 Hc3 _. rewrite Hl2 in Hl3. cbv zeta.
  eapply (sends_bind _ _ _ (fun _ _ => True)).
  { apply sends_upd; [done|frame| |done]. apply (sending_cc c3 _ Hc3), (co_nrtx _ _ _ (se_pcb _ _ Hc3)). }
  intros _ c4 _ Hl4 Hc4 _. rewrite Hl3 in Hl4.
  eapply (sends_bind _ _ _ (fun _ _ => True)).
  { apply sends_upd; [done|frame|by apply (sending_fields iss c4)|done]. }
  intros _ c5 _ Hl5 Hc5 _. rewrite Hl4 in Hl5. apply sends_pcb; [done|]. unfold when.
  destruct (_ <=? _); [|by apply sends_ret].
  apply sends_upd; [done|frame| |done]. apply (sending_cc c5 _ Hc5). rewrite grow_cwnd_nrtx.
  apply (co_nrtx _ _ _ (se_pcb _ _ Hc5)).
Qed.

Lemma ack_queues_ok c :
  c_live c = true -> sending iss c -> c_list c = ActiveList -> recv_acked (c_in c) = 0 ->
  twp ack_queues (fun _ c' => sending iss c' /\ ack_frame c c') c.
Proof.
  intros Hl Hc Hact H0. pose proof (sending_queues _ c Hc Hact) as Hq. unfold ack_queues.
  apply twp_bind, twp_pcb; [done|].
  assert (sum_len (unacked (tx (c_pcb c))) + sum_len (unsent (tx (c_pcb c))) <= TCP_SND_BUF) as Hsum
    by (destruct Hq; lia). change TCP_SND_BUF with 1495040 in Hsum.
  pose proof (sum_len_nonneg (unacked (tx (c_pcb c)))). pose proof (sum_len_nonneg (unsent (tx (c_pcb c)))).
  apply twp_bind. eapply twp_mono.
  { apply free_acked_ok; try done; rewrite ?H0; try lia; [destruct Hq; lia|by eapply queuelen_lt]. }
  intros a c1 (k1 & Ha & ->). apply twp_bind, twp_upd_pcb; [done|].
  apply twp_bind. eapply twp_mono.
  { apply free_acked_ok; try done; cbn; rewrite ?H0.
    - lia.
    - pose proof (queuelen_lt _ _ _ Hq). destruct Hq. rewrite Ha, zlen_app in qo_len. pose proof (zlen_nonneg k1). lia.
    - rewrite Ha, sum_len_app in Hsum. pose proof (sum_len_nonneg k1). lia.
    - rewrite Ha, sum_len_app in Hsum. pose proof (sum_len_nonneg a). lia. }
  intros u c2 (k2 & Hu & ->). do 4 (apply twp_bind, twp_upd_pcb; [done|]). apply twp_bind, twp_in.
  apply twp_upd_pcb; [done|].
  set (tm' := set_polltmr 0 (set_rtime (match a with [] => -1 | _ => 0 end) (tm (c_pcb c)))).
  set (n := sum_len k1 + sum_len k2).
  match goal with |- sending _ ?d /\ _ => assert (d = set_in (set_recv_acked n (c_in c))
    (set_pcb (set_tm tm' (set_tx (acked_tx u a n (tx (c_pcb c))) (c_pcb c))) c)) as -> end.
  { unfold freed, acked_tx, tm', n. cbn. rewrite H0, !Z.add_0_l. by destruct u. }
  assert (sending iss (set_pcb (set_tm tm' (set_tx (acked_tx u a n (tx (c_pcb c))) (c_pcb c))) c)) as Hc2
    by (by apply (acked_sending c tm' k1 a k2 u)).
  split; [by apply (sending_same iss _ _ Hc2)|]. exists n. split_and!.
  - unfold n. pose proof (sum_len_nonneg k1). pose proof (sum_len_nonneg k2). lia.
  - unfold n. rewrite Ha, Hu, !sum_len_app in Hsum. pose proof (sum_len_nonneg a). pose proof (sum_len_nonneg u). lia.
  - by split.
  - by split.
Qed.

Lemma new_ack_ok c :
  c_live c = true -> sending iss c -> c_list c = ActiveList -> recv_acked (c_in c) = 0 ->
  twp new_ack (fun _ c' => sending iss c' /\ ack_frame c c') c.
Proof.
  intros Hl Hc Hact H0. unfold new_ack. apply twp_bind, twp_in, twp_bind.
  eapply twp_mono; [by apply ack_congestion_ok|]. intros _ c1 (Hs1 & Hc1 & _).
  apply twp_bind. eapply twp_mono; [apply ack_queues_ok|].
  { by rewrite (st_live _ _ Hs1). }
  { done. }
  { by rewrite (st_list _ _ Hs1). }
  { by rewrite (st_in _ _ Hs1). }
  intros _ c2 (Hc2 & Hf2).
  assert (ack_frame c c2) as Hf by (by apply (kept_ack c c1); [apply steps_kept|apply steps_same|]).
  assert (c_live c2 = true) as Hl2.
  { destruct Hf as (n & _ & Hk & _). by rewrite (kp_live _ _ Hk). }
  apply twp_bind, twp_pcb; [done|].
  assert (sends iss (tcp_clear_flags TF_RTO) (fun _ _ => True) c2) as Hclear.
  { by apply sends_upd; [|frame|ignored|]. }
  assert (sends iss (when (has (pcb_flags (c_pcb c2)) TF_RTO)
    (match unacked (tx (c_pcb c2)), unsent (tx (c_pcb c2)) with
     | [], [] => tcp_clear_flags TF_RTO
     | [], s :: _ | s :: _, _ => when (TCP_SEQ_LEQ (rto_end (tx (c_pcb c2))) (sg_seqno s)) (tcp_clear_flags TF_RTO)
     end)) (fun _ _ => True) c2) as Hlast.
  { unfold when. destruct (has _ _); [|by apply sends_ret].
    repeat case_match; try done; by apply sends_ret. }
  eapply twp_mono; [exact Hlast|]. intros _ c3 (Hs3 & Hc3 & _). split; [done|].
  eapply ack_frame_kept; [exact Hf|by apply steps_kept|by apply steps_same].
Qed.

(** ** Windows and duplicates *)

Lemma update_window_ok c :
  c_live c = true -> sending iss c -> sends iss update_window (fun _ _ => True) c.
Proof.
  intros Hl Hc. unfold update_window. apply twp_bind, twp_in, twp_bind, twp_pcb; [done|]. cbv zeta.
  unfold when. destruct (_ || _ || _); [|by apply sends_ret].
  apply sends_upd; [done|frame| |done].
  destruct Hc as [[] Hq Ht]. split; cbn; [split; cbn; try done|case_bool_decide; [|done]|done].
  - destruct (Z.ltb_spec (snd_wnd_max (tx (c_pcb c))) (u32 (SND_WND_SCALE (c_pcb c) (in_wnd (c_in c))))); lia.
  - by destruct Hq.
Qed.

Lemma duplicate_ack_ok edge c :
  c_live c = true -> sending iss c -> sends iss (duplicate_ack edge) (fun _ _ => True) c.
Proof.
  intros Hl Hc. unfold duplicate_ack. apply twp_bind, twp_in, twp_bind, twp_pcb; [done|]. cbv zeta.
  destruct (_ && _ && _ && _); [|by apply sends_ret].
  eapply (sends_bind _ _ _ (fun _ _ => True)).
  { apply sends_upd; [done|frame| |done]. apply (sending_cc c _ Hc).
    destruct (_ <? _); apply (co_nrtx _ _ _ (se_pcb _ _ Hc)). }
  intros _ c1 _ Hl1 Hc1 _. rewrite Hl in Hl1. eapply (sends_bind _ _ _ (fun _ _ => True)).
  { apply sends_upd; [done|frame| |done]. apply (sending_cc c1 _ Hc1).
    destruct (_ <? _); apply (co_nrtx _ _ _ (se_pcb _ _ Hc1)). }
  intros _ c2 _ Hl2 Hc2 _. rewrite Hl1 in Hl2. apply sends_pcb; [done|].
  unfold when. destruct (_ <=? _); [|by apply sends_ret]. by apply rexmit_fast_ok.
Qed.

Lemma update_rtt_nrtx ticks ackno g : nrtx (update_rtt ticks ackno g) = nrtx g.
Proof. unfold update_rtt. by destruct (_ && _). Qed.

(** An acknowledgement keeps the invariant, whatever it acknowledges. *)
Lemma receive_ack_ok c :
  c_live c = true -> sending iss c -> c_list c = ActiveList -> recv_acked (c_in c) = 0 ->
  twp receive_ack (fun _ c' => sending iss c' /\ ack_frame c c') c.
Proof.
  intros Hl Hc Hact H0. unfold receive_ack. apply twp_bind, twp_in, twp_bind, twp_pcb; [done|]. cbv zeta.
  apply twp_bind. eapply twp_mono; [by apply update_window_ok|]. intros _ c1 (Hs1 & Hc1 & _).
  assert (c_live c1 = true) as Hl1 by (by rewrite (st_live _ _ Hs1)).
  assert (ack_frame c c1) as Hf1
    by (apply kept_ack_frame; [rewrite H0; lia|by apply steps_kept|by apply steps_same]).
  apply twp_bind, twp_pcb; [done|]. apply twp_bind.
  eapply (twp_mono _ (fun _ c' => sending iss c' /\ ack_frame c c')).
  { destruct (TCP_SEQ_LEQ _ _); [|destruct (TCP_SEQ_BETWEEN _ _ _)].
    - eapply twp_mono; [by apply duplicate_ack_ok|]. intros _ c2 (Hs2 & Hc2 & _). split; [done|].
      eapply ack_frame_kept; [exact Hf1|by apply steps_kept|by apply steps_same].
    - eapply twp_mono; [apply new_ack_ok; try done|].
      + by rewrite (st_list _ _ Hs1).
      + by rewrite (st_in _ _ Hs1).
      + intros _ c2 (Hc2 & Hf2). split; [done|]. by apply (kept_ack c c1); [apply steps_kept|apply steps_same|].
    - apply twp_bind. eapply twp_mono; [by apply empty_ack_ok|]. intros _ c2 (Hs2 & Hc2 & _). apply twp_ret.
      split; [done|]. eapply ack_frame_kept; [exact Hf1|by apply steps_kept|by apply steps_same]. }
  intros _ c2 (Hc2 & Hf2). apply twp_bind, twp_gets.
  assert (c_live c2 = true) as Hl2.
  { destruct Hf2 as (n & _ & Hk & _). by rewrite (kp_live _ _ Hk). }
  apply twp_upd_pcb; [done|]. split.
  - apply (sending_cc c2 _ Hc2). rewrite update_rtt_nrtx. apply (co_nrtx _ _ _ (se_pcb _ _ Hc2)).
  - eapply ack_frame_kept; [exact Hf2|by split|by split].
Qed.

End ack.
