(* ===== verification/TcpDataProofs.v ===== *)
(** * Received data

    Of the segments that arrive, in any order and however they overlap, the
    connection keeps the bytes that continue the peer's stream and fit its window:
    [rcv_nxt] is always the position of the next byte of that stream. *)
From Stdlib Require Import ZArith Lia.
From stdpp Require Import base list option numbers gmap.
From S2P Require Import Prelude Pbuf Chksum Lwip Tcp TcpOut TcpApi TcpIn TcpInv TcpOutProofs TcpWriteProofs TcpQueueProofs TcpApiProofs TcpAckProofs.

(** ** Positions in a stream as sequence numbers *)

Section positions.
Variable N : Z.

Definition seq_at (a : Z) : Z := u32 (N + a).

Lemma seq_at_add a k : u32 (seq_at a + k) = seq_at (a + k).
Proof. unfold seq_at. rewrite wrap_add_l. f_equal. lia. Qed.

Lemma seq_at_sub a b : u32 (seq_at a - seq_at b) = u32 (a - b).
Proof.
  unfold seq_at, wrap. rewrite Zminus_mod_idemp_l, Zminus_mod_idemp_r. f_equal. lia.
Qed.

Lemma u32_diff a b : - 2 ^ 31 < a - b < 2 ^ 31 -> (u32 (a - b) <? 2 ^ 31) = (b <=? a).
Proof.
  intros Hd. destruct (Z.leb_spec b a).
  - rewrite wrap_small by (unfold fits; lia). apply Z.ltb_lt. lia.
  - replace (u32 (a - b)) with (a - b + 2 ^ 32); [apply Z.ltb_ge; lia|].
    unfold wrap. rewrite <- (Z.mod_small (a - b + 2 ^ 32) (2 ^ 32)) by lia.
    by rewrite <- (Z_mod_plus_full (a - b) 1 (2 ^ 32)).
Qed.

Lemma seq_geq_at a b : - 2 ^ 31 < a - b < 2 ^ 31 -> TCP_SEQ_GEQ (seq_at a) (seq_at b) = (b <=? a).
Proof. intros Hd. rewrite seq_geq_spec, seq_at_sub. by apply u32_diff. Qed.

Lemma seq_leq_at a b : - 2 ^ 31 < a - b < 2 ^ 31 -> TCP_SEQ_LEQ (seq_at a) (seq_at b) = (a <=? b).
Proof. intros Hd. rewrite seq_leq_spec, seq_at_sub. apply u32_diff. lia. Qed.

Lemma seq_lt_at a b : - 2 ^ 31 < a - b < 2 ^ 31 -> TCP_SEQ_LT (seq_at a) (seq_at b) = (a <? b).
Proof. intros Hd. rewrite seq_lt_spec, Z.leb_antisym, seq_at_sub, u32_diff by done. by rewrite Z.ltb_antisym. Qed.

Lemma seq_between_at a b c :
  - 2 ^ 31 < a - b < 2 ^ 31 -> - 2 ^ 31 < c - a < 2 ^ 31 ->
  TCP_SEQ_BETWEEN (seq_at a) (seq_at b) (seq_at c) = (b <=? a) && (a <=? c).
Proof. intros H1 H2. unfold TCP_SEQ_BETWEEN. rewrite seq_geq_at, seq_leq_at by lia. done. Qed.

Lemma seq_at_eqb a b : - 2 ^ 31 < a - b < 2 ^ 31 -> (seq_at a =? seq_at b) = (a =? b).
Proof.
  intros Hd. destruct (Z.eqb_spec a b) as [->|Hne]; [apply Z.eqb_refl|]. apply Z.eqb_neq. intros He.
  pose proof (seq_at_sub a b) as Hs. rewrite He, Z.sub_diag in Hs. change (u32 0) with 0 in Hs.
  unfold wrap in Hs. symmetry in Hs. apply Z.mod_divide in Hs as [k Hk]; [|lia]. lia.
Qed.

End positions.

(** ** What was received *)

Definition taken_by (e : event) : list Z :=
  match e with
  | RecvCall _ d answer => if bool_decide (answer = ERR_OK) then d else []
  | DefaultRecv d => d
  | _ => []
  end.
Definition taken (t : list event) : list Z := concat (map taken_by t).

Lemma taken_app t u : taken (t ++ u) = taken t ++ taken u.
Proof. unfold taken. by rewrite map_app, concat_app. Qed.

Lemma taken_quiet t t' : quiet t t' -> taken t' = taken t.
Proof.
  intros (es & -> & F). rewrite taken_app. assert (taken es = []) as ->; [|apply app_nil_r].
  induction F as [|e es He F IH]; [done|]. unfold taken in *. simpl. rewrite IH, app_nil_r. by destruct e.
Qed.

Definition refused_bytes (p : tcp_pcb) : list Z :=
  match refused_data (rx p) with Some d => rp_data d | None => [] end.

(** ** A segment of the peer's stream *)

Section data.
Context `{Environment}.
Variables (iss irs : Z) (stream : list Z).
Hypothesis short_stream : zlen stream < 2 ^ 30.
Implicit Types c : conn.

Notation pos := (seq_at (irs + 1)).

(** [data] is the stream's from position [q] on; a FIN is at the end of the stream. *)
Definition piece (q : Z) (data : list Z) (flags : Z) : Prop :=
  exists pre post, stream = pre ++ data ++ post /\ zlen pre = q /\ (has flags TCP_FIN = true -> post = []).

Lemma piece_range q data flags : piece q data flags -> 0 <= q /\ q + zlen data <= zlen stream.
Proof.
  intros (pre & post & -> & <- & _). rewrite !zlen_app. pose proof (zlen_nonneg pre).
  pose proof (zlen_nonneg post). lia.
Qed.

Lemma piece_fin q data flags : piece q data flags -> has flags TCP_FIN = true -> q + zlen data = zlen stream.
Proof. intros (pre & post & -> & <- & Hf) Hh. rewrite (Hf Hh), !zlen_app, zlen_nil. lia. Qed.

Lemma piece_drop q data flags k :
  piece q data flags -> 0 <= k <= zlen data -> piece (q + k) (zdrop k data) flags.
Proof.
  intros (pre & post & He & <- & Hf) Hk. exists (pre ++ ztake k data), post. split_and!; [|rewrite zlen_app, zlen_ztake; lia|done].
  rewrite He, <- app_assoc. f_equal. by rewrite app_assoc, ztake_zdrop.
Qed.

Lemma piece_take q data flags flags' k :
  piece q data flags -> has flags' TCP_FIN = false -> piece q (ztake k data) flags'.
Proof.
  intros (pre & post & He & <- & _) Hf. exists pre, (zdrop k data ++ post). split_and!; [|done|congruence].
  rewrite He, (app_assoc (ztake k data)). by rewrite ztake_zdrop.
Qed.

Lemma piece_next q data flags :
  piece q data flags -> ztake q stream ++ data = ztake (q + zlen data) stream.
Proof.
  intros (pre & post & -> & <- & _). rewrite ztake_app_zlen, app_assoc, <- zlen_app. by rewrite ztake_app_zlen.
Qed.

(** The globals hold a piece of the stream. *)
Inductive holds (q : Z) (i : input) : Prop :=
| mk_holds (data : list Z) (fl : Z) :
    inseg_p i = Some (mk_rx_pbuf data fl) ->
    in_seqno i = pos q ->
    inseg_len i = zlen data ->
    piece q data (inseg_hdrflags i) ->
    has (inseg_hdrflags i) TCP_SYN = false ->
    inseg_tcplen i <= 65535 ->
    has fl PBUF_FLAG_TCP_FIN = false ->
    holds q i.

(** What the processing of data leaves alone. *)
Record data_frame c c' : Prop := mk_data_frame {
  df_live : c_live c' = c_live c;
  df_list : c_list c' = c_list c;
  df_input : c_input_pcb c' = c_input_pcb c;
  df_ticks : c_ticks c' = c_ticks c;
  df_refused : refused_data (rx (c_pcb c')) = refused_data (rx (c_pcb c));
  df_rxclosed : has (pcb_flags (c_pcb c')) TF_RXCLOSED = has (pcb_flags (c_pcb c)) TF_RXCLOSED;
  df_scale : has (pcb_flags (c_pcb c')) TF_WND_SCALE = has (pcb_flags (c_pcb c)) TF_WND_SCALE;
  df_state : pcb_state (c_pcb c') = pcb_state (c_pcb c);
  df_cb : cb (c_pcb c') = cb (c_pcb c);
  df_acked : recv_acked (c_in c') = recv_acked (c_in c);
  df_flags : in_flags (c_in c') = in_flags (c_in c);
  df_ackno : in_ackno (c_in c') = in_ackno (c_in c);
  df_quiet : quiet (c_trace c) (c_trace c');
}.

#[export] Instance data_frame_refl : Reflexive data_frame.
Proof. intros c. by split. Qed.

#[export] Instance data_frame_trans : Transitive data_frame.
Proof. intros a b c [] []. split; try congruence. by transitivity (c_trace b). Qed.

Lemma steps_data_frame c c' : steps c c' -> data_frame c c'.
Proof. intros Hs. pose proof (steps_quiet _ _ Hs). destruct Hs. split; congruence || done. Qed.

(** The receiver's position. *)
Definition at_pos (n : Z) c : Prop :=
  rcv_nxt (rx (c_pcb c)) = pos n /\ 0 <= n <= zlen stream /\ wnd_ok (c_pcb c).

Lemma at_pos_steps n c c' : steps c c' -> at_pos n c -> at_pos n c'.
Proof.
  intros Hs (Hn & Hr & Hw). split_and!; [by rewrite (st_nxt _ _ Hs)|lia|lia|].
  by apply (kp_wnd _ _ (steps_kept _ _ Hs)).
Qed.

(** ** The front of the segment *)

Lemma trim_front_ok q n c :
  c_live c = true -> sending iss c -> at_pos n c -> holds q (c_in c) -> tcplen (c_in c) = inseg_tcplen (c_in c) ->
  0 < tcplen (c_in c) ->
  twp trim_front (fun _ c' => sending iss c' /\ data_frame c c' /\ at_pos n c' /\
    (exists q', holds q' (c_in c')) /\ 0 < inseg_tcplen (c_in c') /\ recv_data (c_in c') = recv_data (c_in c) /\
    recv_flags (c_in c') = recv_flags (c_in c)) c.
Proof.
  intros Hl Hc (Hn & Hn1 & Hw) Hholds Htl Hpos. pose proof Hholds as [data fl Hp Hseq Hlen Hpi Hsyn Hb Hnf].
  unfold trim_front.
  pose proof (piece_range _ _ _ Hpi) as [Hq0 Hq1].
  apply twp_bind, twp_in, twp_bind, twp_pcb; [done|]. cbv zeta.
  rewrite Hn, Hseq, Htl in *. unfold inseg_tcplen in *. rewrite Hlen in *.
  set (f := if has (inseg_hdrflags (c_in c)) (Z.lor TCP_FIN TCP_SYN) then 1 else 0) in *.
  assert (0 <= f <= 1) as Hf by (unfold f; by case_match).
  pose proof (zlen_nonneg data).
  replace (pos q + (zlen data + f) - 1) with (pos q + (zlen data + f - 1)) by lia.
  rewrite !seq_at_add, seq_between_at by lia.
  destruct (_ && _) eqn:Hcond.
  - apply andb_true_iff in Hcond as [Hc1%Z.leb_le Hc2%Z.leb_le]. rewrite Hp. rewrite seq_at_sub. rewrite (wrap_small 32 (n - q)) by (unfold fits; lia).
    apply twp_bind, twp_assert; [apply Z.ltb_lt; lia|]. rewrite (wrap_small 16 (n - q)) by (unfold fits; lia).
    apply twp_bind, twp_assert; [apply Z.leb_le; simpl; lia|].
    do 2 apply twp_bind, twp_upd_in. apply twp_upd_in.
    assert (zlen (zdrop (n - q) data) = zlen data - (n - q)) as Hz by (rewrite zlen_zdrop; lia).
    assert (zlen data - (n - q) = u16 (zlen data - (n - q))) as Hcut
      by (symmetry; apply wrap_small; unfold fits; lia).
    split_and!; try done; [by apply (sending_same iss c)| |].
    2:{ unfold inseg_tcplen. cbn. fold f. rewrite Hlen, <- Hcut. lia. }
    exists n. apply (mk_holds _ _ (zdrop (n - q) data) fl); try done; cbn.
    + rewrite Hlen, wrap_small by (unfold fits; lia). lia.
    + replace n with (q + (n - q)) at 1 by lia. apply piece_drop; [done|lia].
    + unfold inseg_tcplen. cbn. fold f. rewrite Hlen, wrap_small by (unfold fits; lia). lia.
  - rewrite seq_lt_at by lia. eapply twp_mono.
    + assert (sends iss (when (q <? n) tcp_ack_now) (fun _ c' => c_in c' = c_in c) c) as Ha.
      { unfold when. destruct (_ <? _); [by apply sends_flags_set|by apply sends_ret]. }
      exact Ha.
    + intros _ c' (Hs & Hc' & Hi). rewrite Hi. split_and!; try done.
      { by apply steps_data_frame. }
      { by eapply at_pos_steps. }
      { by exists q. }
      { unfold inseg_tcplen. fold f. rewrite Hlen. lia. }
Qed.

(** ** The end of the segment *)

Lemma trim_end_ok n c :
  c_live c = true -> at_pos n c -> holds n (c_in c) -> 0 < rcv_wnd (rx (c_pcb c)) -> 0 < inseg_tcplen (c_in c) ->
  twp trim_end (fun _ c' => exists i, c' = set_in i c /\ holds n i /\ tcplen i = inseg_tcplen i /\
    0 < tcplen i <= rcv_wnd (rx (c_pcb c)) /\
    recv_data i = recv_data (c_in c) /\ recv_flags i = recv_flags (c_in c) /\
    recv_acked i = recv_acked (c_in c) /\ in_flags i = in_flags (c_in c) /\ in_ackno i = in_ackno (c_in c)) c.
Proof.
  intros Hl (Hn & Hn1 & Hw) Hholds Hw0 Hpos. pose proof Hholds as [data fl Hp Hseq Hlen Hpi Hsyn Hb Hnf].
  unfold trim_end. apply twp_bind, twp_in, twp_bind, twp_pcb; [done|]. apply twp_bind, twp_upd_in.
  apply twp_when; intros Hcut.
  2:{ apply Z.ltb_ge in Hcut. eexists. split; [reflexivity|]. split_and!; try done.
      by apply (mk_holds _ _ data fl). all: cbn; lia. }
  apply Z.ltb_lt in Hcut. set (wnd := rcv_wnd (rx (c_pcb c))) in *.
  set (h' := if has (inseg_hdrflags (c_in c)) TCP_FIN
             then Z.land (inseg_hdrflags (c_in c)) (Z.land (Z.lnot TCP_FIN) 0x3f)
             else inseg_hdrflags (c_in c)).
  assert (has h' TCP_FIN = false /\ has h' TCP_SYN = false) as [Hf' Hs'].
  { unfold h'. destruct (has _ TCP_FIN) eqn:Hf; [|done]. by flags. }
  apply twp_bind, twp_upd_in. apply twp_bind, twp_assert; [apply Z.leb_le; lia|].
  apply twp_bind, twp_upd_in, twp_bind, twp_in.
  cbn [c_in set_in set_tcplen set_inseg_hdrflags set_inseg_len inseg_p inseg_len inseg_hdrflags].
  fold h'. rewrite Hs', Hp. rewrite (wrap_small 16 wnd) by (unfold fits; lia).
  assert (wnd <= zlen data) as Hwd.
  { unfold inseg_tcplen in Hcut. rewrite Hlen in Hcut. revert Hcut. case_match; lia. }
  do 2 apply twp_bind, twp_upd_in.
  assert (forall i, inseg_hdrflags i = h' -> inseg_len i = wnd -> inseg_tcplen i = wnd) as Htl.
  { intros i Hi Hi2. unfold inseg_tcplen. rewrite Hi, Hi2, has_lor_r, Hf', Hs'. simpl. lia. }
  apply twp_assert.
  { rewrite (Htl (set_inseg_len _ _)) by done. cbn. rewrite Hseq, Hn. apply Z.eqb_refl. }
  assert (inseg_tcplen (set_inseg_p (Some (mk_rx_pbuf (ztake wnd data) fl)) (set_inseg_len wnd
    (set_inseg_hdrflags h' (set_tcplen (inseg_tcplen (c_in c)) (c_in c))))) = wnd) as Hlast by (by apply Htl).
  eexists. split; [reflexivity|]. split_and!; try done;
    [|apply (Z.lt_le_trans _ wnd); [done|]; apply Z.eq_le_incl; symmetry; exact Hlast
     |apply Z.eq_le_incl; exact Hlast].
  apply (mk_holds _ _ (ztake wnd data) fl); try done; cbn.
  - by rewrite zlen_ztake by lia.
  - eapply piece_take; [exact Hpi|]. done.
  - apply (Z.le_trans _ wnd); [apply Z.eq_le_incl; exact Hlast|lia].
Qed.

(** ** The next segment of the stream *)

(** What the processing of a segment's data does: the receiver's position moves over
    the bytes that are kept, and a FIN is noted at the end of the stream. *)
Inductive took (n : Z) c c' : Prop :=
| mk_took (next : Z) (fin : bool) :
    n <= next <= zlen stream ->
    rcv_nxt (rx (c_pcb c')) = pos (next + Z.b2z fin) ->
    (fin = true -> next = zlen stream) ->
    match recv_data (c_in c') with
    | Some b => ztake n stream ++ rp_data b = ztake next stream /\ has (rp_flags b) PBUF_FLAG_TCP_FIN = false
    | None => next = n
    end ->
    recv_flags (c_in c') = Z.lor (recv_flags (c_in c)) (if fin then TF_GOT_FIN else 0) ->
    wnd_ok (c_pcb c') ->
    data_frame c c' ->
    took n c c'.

Lemma took_none n c c' :
  at_pos n c' -> data_frame c c' -> recv_data (c_in c') = None -> recv_flags (c_in c') = recv_flags (c_in c) ->
  took n c c'.
Proof.
  intros (Hn & Hr & Hw) Hf Hd Hfl. apply (mk_took _ _ _ n false); try done; [lia|by rewrite Z.add_0_r|by rewrite Hd|].
  by rewrite Z.lor_0_r.
Qed.

Lemma accept_segment_ok n c :
  c_live c = true -> sending iss c -> at_pos n c -> holds n (c_in c) -> 0 < rcv_wnd (rx (c_pcb c)) ->
  0 < inseg_tcplen (c_in c) -> recv_data (c_in c) = None ->
  twp accept_segment (fun _ c' => sending iss c' /\ took n c c') c.
Proof.
  intros Hl Hc Hat Hholds Hw0 Hpos Hrd. unfold accept_segment. apply twp_bind.
  eapply twp_mono; [by apply (trim_end_ok n)|].
  intros _ c1 (i & -> & Hi & Htl & Htl2 & Hrd1 & Hrf1 & Hra1 & Hif1 & Hia1). clear Hholds.
  destruct Hat as (Hn & Hn1 & Hw). destruct Hi as [data fl Hp Hseq Hlen Hpi Hsyn Hb Hnf].
  pose proof (piece_range _ _ _ Hpi) as [_ Hend]. pose proof (zlen_nonneg data).
  apply twp_bind, twp_in, twp_bind, twp_pcb; [done|]. cbn [c_in set_in c_pcb].
  set (fin := has (inseg_hdrflags i) TCP_FIN).
  assert (tcplen i = zlen data + Z.b2z fin) as Hlen2.
  { rewrite Htl. unfold inseg_tcplen. rewrite Hlen, has_lor_r, Hsyn, orb_false_r. fold fin. by destruct fin. }
  apply twp_bind, twp_upd_pcb; [done|]. apply twp_bind, twp_assert; [apply Z.leb_le; lia|].
  apply twp_bind, twp_upd_pcb; [done|].
  match goal with |- twp _ _ ?d => set (c2 := d) end.
  assert (rcv_nxt (rx (c_pcb c2)) = pos (n + zlen data + Z.b2z fin)) as Hn2.
  { cbn. rewrite Hseq, Hlen2, seq_at_add. f_equal. lia. }
  pose proof (wnd_max_pos (c_pcb c)) as Hmax.
  assert (wnd_ok (c_pcb c2)) as Hw2.
  { unfold wnd_ok in *. cbn. rewrite wrap_small by (unfold fits; lia).
    change (TCP_WND_MAX _) with (TCP_WND_MAX (c_pcb c)). lia. }
  assert (sending iss c2) as Hc2 by (by apply (sending_same iss c)).
  apply twp_bind. eapply twp_mono; [by apply update_ann_wnd_ok|].
  intros infl c3 (Hk3 & Hc3 & Hw3 & Ht3 & Hfl3 & Hst3 & Hcb3).
  pose proof (kp_in _ _ Hk3) as Hi3. cbn in Hi3.
  assert (c_live c3 = true) as Hl3 by (by rewrite (kp_live _ _ Hk3)).
  rewrite Hp. apply twp_bind.
  set (i2 := if 0 <? zlen data then set_inseg_p None (set_recv_data (Some (mk_rx_pbuf data fl)) i) else i).
  eapply (twp_mono _ (fun _ c' => c' = set_in i2 c3)).
  { unfold i2. apply twp_when; cbn [rp_data]; intros ->; [apply twp_upd_in; by rewrite Hi3|].
    rewrite <- Hi3. by destruct c3. }
  intros _ c4 ->. apply twp_bind.
  set (i3 := if fin then set_recv_flags (Z.lor (recv_flags i2) TF_GOT_FIN) i2 else i2).
  eapply (twp_mono _ (fun _ c' => c' = set_in i3 c3)).
  { unfold i3, fin. by apply twp_when; intros ->. }
  intros _ c5 ->.
  eapply twp_mono; [apply (sends_flags_set iss TF_ACK_NOW (fun _ _ => True)); try done|].
  { by apply (sending_same iss c3). }
  intros _ c6 (Hs6 & Hc6 & _). split; [done|].
  pose proof (st_in _ _ Hs6) as Hi6. cbn in Hi6.
  apply (mk_took _ _ _ (n + zlen data) fin).
  - lia.
  - by rewrite (st_nxt _ _ Hs6), <- Hn2, <- (kp_nxt _ _ Hk3).
  - apply (piece_fin _ _ _ Hpi).
  - rewrite Hi6. assert (recv_data i3 = recv_data i2) as -> by (unfold i3; by destruct fin). unfold i2.
    destruct (Z.ltb_spec 0 (zlen data)) as [Hd|Hd]; cbn.
    + split; [by eapply piece_next|done].
    + rewrite Hrd1, Hrd. lia.
  - rewrite Hi6, <- Hrf1. unfold i3, i2. destruct fin, (0 <? zlen data); cbn; by rewrite ?Z.lor_0_r.
  - apply (kp_wnd _ _ (steps_kept _ _ Hs6)). by apply (kp_wnd _ _ Hk3).
  - assert (data_frame (set_in i3 c3) c6) as H6 by (by apply steps_data_frame).
    assert (data_frame c (set_in i3 c3)) as H3; [|by transitivity (set_in i3 c3)].
    destruct Hk3. split; try assumption; try exact kp_refused.
    + change (has (pcb_flags (c_pcb c3)) TF_RXCLOSED = has (pcb_flags (c_pcb c)) TF_RXCLOSED). by rewrite Hfl3.
    + rewrite <- Hra1. cbn. unfold i3, i2. destruct fin, (0 <? zlen data); done.
    + rewrite <- Hif1. cbn. unfold i3, i2. destruct fin, (0 <? zlen data); done.
    + rewrite <- Hia1. cbn. unfold i3, i2. destruct fin, (0 <? zlen data); done.
Qed.

(** ** Segments in order and out of order *)

Lemma receive_data_ok q n c :
  c_live c = true -> sending iss c -> at_pos n c -> holds q (c_in c) -> tcplen (c_in c) = inseg_tcplen (c_in c) ->
  0 < tcplen (c_in c) -> recv_data (c_in c) = None ->
  twp receive_data (fun _ c' => sending iss c' /\ took n c c') c.
Proof.
  intros Hl Hc Hat Hholds Htl Hpos Hrd. unfold receive_data. apply twp_bind.
  eapply twp_mono; [by apply (trim_front_ok q n)|].
  intros _ c1 (Hc1 & Hf1 & Hat1 & [q1 Hq1] & Hpos1 & Hrd1 & Hrf1). rewrite Hrd in Hrd1.
  assert (c_live c1 = true) as Hl1 by (by rewrite (df_live _ _ Hf1)).
  apply twp_bind, twp_in, twp_bind, twp_pcb; [done|]. cbv zeta.
  assert (twp (_ ← tcp_send_empty_ack; mret tt) (fun _ c' => sending iss c' /\ took n c c') c1) as Hack.
  { apply twp_bind. eapply twp_mono; [by apply empty_ack_ok|]. intros e c2 (Hs2 & Hc2 & _). apply twp_ret.
    split; [done|]. apply took_none; [by eapply at_pos_steps| | |].
    - transitivity c1; [done|]. by apply steps_data_frame.
    - by rewrite (st_in _ _ Hs2).
    - by rewrite (st_in _ _ Hs2). }
  destruct (TCP_SEQ_BETWEEN _ _ _) eqn:Hin; [|done].
  destruct Hat1 as (Hn1 & Hr1 & Hw1). pose proof Hq1 as [data fl Hp Hseq Hlen Hpi Hsyn Hb Hnf].
  pose proof (piece_range _ _ _ Hpi). pose proof (zlen_nonneg data). pose proof (wnd_max_pos (c_pcb c1)).
  unfold wnd_ok in Hw1. rewrite Hn1, Hseq in Hin |- *. rewrite seq_at_eqb by lia.
  destruct (Z.eqb_spec n q1) as [<-|]; [|done].
  assert (TCP_WND_MAX (c_pcb c1) < 2 ^ 30) as Hmax by (unfold TCP_WND_MAX; by case_match).
  replace (pos n + rcv_wnd (rx (c_pcb c1)) - 1) with (pos n + (rcv_wnd (rx (c_pcb c1)) - 1)) in Hin by lia.
  rewrite seq_at_add, seq_between_at in Hin by lia. apply andb_true_iff in Hin as [_ Hin%Z.leb_le].
  eapply twp_mono; [apply (accept_segment_ok n); try done; lia|].
  intros _ c2 [Hc2 Ht]. split; [done|]. destruct Ht as [next fin ? ? ? ? ? ? ?].
  apply (mk_took _ _ _ next fin); try done.
  - by rewrite <- Hrf1.
  - by transitivity c1.
Qed.

End data.
