(* ===== verification/TcpInProofs.v ===== *)
(** * A segment for a connection

    [tcp_receive] and the state machine of [tcp_process]: what they do to the
    receiver's position, to the state of the connection and to the globals. *)
From Stdlib Require Import ZArith Lia.
From stdpp Require Import base list option numbers gmap.
From S2P Require Import Prelude Pbuf Chksum Lwip Tcp TcpOut TcpApi TcpIn TcpOptions TcpInv TcpOutProofs TcpWriteProofs TcpQueueProofs TcpApiProofs TcpAckProofs TcpDataProofs.

(** Data was refused on the connection. *)
Definition refusal (e : event) : bool :=
  match e with RecvCall _ _ r => negb (bool_decide (r = ERR_OK)) | _ => false end.
Notation refused_in t := (existsb refusal t).

(** The application keeps to the rules of the API: its callbacks may write, acknowledge
    and set options; the receive and sent callbacks may close the connection, as the last
    thing they do, the receive callback only on a connection whose data it never refused;
    none aborts it, except that the accept callback may abort what it rejects. *)
Record orderly (a : application) : Prop := mk_orderly {
  or_accept : forall t, calm (on_accept a t) \/ on_accept a t = Abort (Return ERR_ABRT);
  or_recv : forall arg t d, arg <> 0 ->
            calm (on_recv a arg t d) \/ (closing (on_recv a arg t d) /\ refused_in t = false);
  or_sent : forall arg t len, calm (on_sent a arg t len) \/ closing (on_sent a arg t len);
  or_poll : forall t, calm (on_poll a t);
}.

Section input.
Context `{Environment}.
Hypothesis app_orderly : orderly env_app.
Variables (iss irs : Z) (stream : list Z).
Hypothesis short_stream : zlen stream < 2 ^ 30.
Implicit Types c : conn.

(** ** What processing leaves alone *)

Record in_frame c c' : Prop := mk_in_frame {
  if_live : c_live c' = c_live c;
  if_list : c_list c' = c_list c;
  if_input : c_input_pcb c' = c_input_pcb c;
  if_refused : refused_data (rx (c_pcb c')) = refused_data (rx (c_pcb c));
  if_scale : has (pcb_flags (c_pcb c')) TF_WND_SCALE = has (pcb_flags (c_pcb c)) TF_WND_SCALE;
  if_same : same_state c c';
  if_flags : in_flags (c_in c') = in_flags (c_in c);
  if_ackno : in_ackno (c_in c') = in_ackno (c_in c);
  if_quiet : quiet (c_trace c) (c_trace c');
}.

#[export] Instance in_frame_refl : Reflexive in_frame.
Proof. intros c. by split. Qed.

#[export] Instance in_frame_trans : Transitive in_frame.
Proof.
  intros a b c [] []. split; try congruence; [by eapply same_state_trans|by transitivity (c_trace b)].
Qed.

Lemma steps_in_frame c c' : steps c c' -> in_frame c c'.
Proof.
  intros Hs. pose proof (steps_quiet _ _ Hs). pose proof (steps_same _ _ Hs).
  destruct Hs. split; congruence || done.
Qed.

Lemma data_in_frame c c' : data_frame c c' -> in_frame c c'.
Proof.
  intros []. split; try done. split; [done|]. by rewrite df_cb.
Qed.

Lemma ack_in_frame c c' :
  ack_frame c c' -> in_frame c c' /\ 0 <= recv_acked (c_in c') < 2 ^ 32 /\
  (wnd_ok (c_pcb c) -> wnd_ok (c_pcb c')) /\ rcv_nxt (rx (c_pcb c')) = rcv_nxt (rx (c_pcb c)) /\
  c_in c' = set_recv_acked (recv_acked (c_in c')) (c_in c).
Proof.
  intros (n & Hn & [] & Hs). cbn in *. split_and!; rewrite ?kp_in; try done; [|cbn; lia|cbn; lia].
  split; rewrite ?kp_in; done.
Qed.

(** ** [tcp_receive] *)

Notation pos := (seq_at (irs + 1)).

(** The receiver stands at [n] bytes of the stream, behind its end if [fin]. *)
Record stands (n : Z) (fin : bool) c : Prop := mk_stands {
  sn_nxt : rcv_nxt (rx (c_pcb c)) = pos (n + Z.b2z fin);
  sn_range : 0 <= n <= zlen stream;
  sn_end : fin = true -> n = zlen stream;
  sn_state : fin = true -> state_code CLOSE_WAIT <= state_code (pcb_state (c_pcb c));
  sn_wnd : wnd_ok (c_pcb c);
}.

(** The globals of a segment whose data, if any, is the stream's. *)
Record fresh (i : input) : Prop := mk_fresh {
  fr_data : recv_data i = None;
  fr_flags : recv_flags i = 0;
  fr_acked : recv_acked i = 0;
  fr_opts : options_ok (in_opts i);
  fr_len : tcplen i = inseg_tcplen i;
  fr_piece : 0 < tcplen i -> has (in_flags i) TCP_SYN = false -> exists q, holds irs stream q i;
}.

(** The processing moved the receiver from [n] to [next], over a FIN if [got]. *)
Inductive progress (n : Z) (fin : bool) c c' : Prop :=
| mk_progress (next : Z) (got : bool) :
    n <= next <= zlen stream ->
    rcv_nxt (rx (c_pcb c')) = pos (next + Z.b2z (fin || got)) ->
    (fin || got = true -> next = zlen stream) ->
    (got = true -> fin = false) ->
    match recv_data (c_in c') with
    | Some b => ztake n stream ++ rp_data b = ztake next stream /\ has (rp_flags b) PBUF_FLAG_TCP_FIN = false
    | None => next = n
    end ->
    (is_Some (recv_data (c_in c')) \/ got = true -> refused_data (rx (c_pcb c)) = None) ->
    recv_flags (c_in c') = Z.lor (recv_flags (c_in c)) (if got then TF_GOT_FIN else 0) ->
    0 <= recv_acked (c_in c') < 2 ^ 32 ->
    wnd_ok (c_pcb c') ->
    progress n fin c c'.

Lemma progress_none n fin c c' :
  stands n fin c -> rcv_nxt (rx (c_pcb c')) = rcv_nxt (rx (c_pcb c)) -> recv_data (c_in c') = None ->
  recv_flags (c_in c') = recv_flags (c_in c) -> 0 <= recv_acked (c_in c') < 2 ^ 32 -> wnd_ok (c_pcb c') ->
  progress n fin c c'.
Proof.
  intros [] Hn Hd Hf Ha Hw. apply (mk_progress _ _ _ _ n false); rewrite ?Hd, ?orb_false_r; try done.
  - lia.
  - congruence.
  - by intros [[? ?]|?].
  - by rewrite Z.lor_0_r.
Qed.

Lemma receive_ok n fin c :
  c_live c = true -> sending iss c -> c_list c = ActiveList ->
  state_code ESTABLISHED <= state_code (pcb_state (c_pcb c)) ->
  stands n fin c -> fresh (c_in c) -> has (in_flags (c_in c)) TCP_SYN = false ->
  (0 < tcplen (c_in c) -> refused_data (rx (c_pcb c)) = None) ->
  twp tcp_receive (fun _ c' => sending iss c' /\ in_frame c c' /\ progress n fin c c') c.
Proof.
  intros Hl Hc Hact Hst Hn [Hrd Hrf Hra Hopt Hlen Hpiece] Hsyn Href. unfold tcp_receive.
  apply twp_bind, twp_in, twp_bind, twp_pcb; [done|]. apply twp_bind, twp_assert; [by apply Z.leb_le|].
  apply twp_bind.
  eapply (twp_mono _ (fun _ c' => sending iss c' /\ in_frame c c' /\ 0 <= recv_acked (c_in c') < 2 ^ 32 /\
    wnd_ok (c_pcb c') /\ rcv_nxt (rx (c_pcb c')) = rcv_nxt (rx (c_pcb c)) /\
    c_in c' = set_recv_acked (recv_acked (c_in c')) (c_in c))).
  { apply twp_when; intros _.
    - eapply twp_mono; [by apply receive_ack_ok|]. intros _ c' [Hc' Hf].
      apply ack_in_frame in Hf as (Hf & Ha & Hw & Hr & Hi). split_and!; try done; try lia. apply Hw, Hn.
    - split_and!; try done; rewrite ?Hra; try lia; [apply Hn|]. rewrite <- Hra. by rewrite set_recv_acked_same. }
  intros _ c1 (Hc1 & Hf1 & Ha1 & Hw1 & Hr1 & Hi1).
  assert (c_live c1 = true) as Hl1 by (by rewrite (if_live _ _ Hf1)).
  apply twp_bind, twp_in, twp_bind, twp_pcb; [done|].
  assert (tcplen (c_in c1) = tcplen (c_in c)) as Htl by (by rewrite Hi1).
  assert (recv_data (c_in c1) = None) as Hrd1 by (by rewrite Hi1).
  assert (recv_flags (c_in c1) = recv_flags (c_in c)) as Hrf1 by (by rewrite Hi1).
  destruct ((0 <? tcplen (c_in c1)) && (state_code (pcb_state (c_pcb c1)) <? state_code CLOSE_WAIT)) eqn:Hdata.
  - apply andb_true_iff in Hdata as [Hpos%Z.ltb_lt Hcw%Z.ltb_lt].
    rewrite (proj1 (if_same _ _ Hf1)) in Hcw. rewrite Htl in Hpos.
    assert (fin = false) as ->.
    { destruct fin; [|done]. pose proof (sn_state _ _ _ Hn eq_refl). lia. }
    destruct (Hpiece Hpos Hsyn) as [q Hq].
    assert (holds irs stream q (c_in c1)) as Hq1.
    { rewrite Hi1. destruct Hq as [data fl ? ? ? ? ? ? ?]. by apply (mk_holds _ _ _ _ data fl). }
    eapply twp_mono; [apply (receive_data_ok iss irs stream short_stream q n)|]; try done.
    + destruct Hn as [Hn1 Hn2]. rewrite Z.add_0_r in Hn1. split_and!; [congruence|lia|lia|done].
    + rewrite Htl, Hlen, Hi1. done.
    + by rewrite Htl.
    + intros _ c2 [Hc2 [next got Hr Hnx He Hd Hfl Hw Hf2]].
      split_and!; [done|by transitivity c1; [|apply data_in_frame]|].
      apply (mk_progress _ _ _ _ next got); rewrite ?orb_false_l; try done.
      * intros _. by apply Href.
      * by rewrite Hfl, Hrf1.
      * by rewrite (df_acked _ _ Hf2).
  - eapply (twp_mono _ (fun _ c' => steps c1 c' /\ sending iss c' /\ c_in c' = c_in c1)).
    { apply twp_when; intros _; [|by split_and!].
      eapply twp_mono; [by apply (sends_flags_set iss TF_ACK_NOW (fun _ c' => c_in c' = c_in c1))|]. done. }
    intros _ c2 (Hs2 & Hc2 & Hi2). split_and!; [done|by transitivity c1; [|apply steps_in_frame]|].
    apply progress_none; rewrite ?Hi2; try done.
    + by rewrite (st_nxt _ _ Hs2).
    + by apply (kp_wnd _ _ (steps_kept _ _ Hs2)).
Qed.

(** ** Changes of state *)

Lemma sending_state_any st c :
  sending iss c -> (writable st = true -> writable (pcb_state (c_pcb c)) = true) -> st <> LISTEN ->
  sending iss (set_pcb (set_state st (c_pcb c)) c).
Proof.
  intros [[] Hq Ht] Hw Hst. split; cbn; [split; cbn; try done; auto|case_bool_decide; [|done]|done].
  by destruct Hq.
Qed.

(** From the end of [tcp_receive] to the end of [tcp_process]; [x] is added to
    [recv_flags]. *)
Record moves (x : Z) c c' : Prop := mk_moves {
  mv_live : c_live c' = c_live c;
  mv_input : c_input_pcb c' = c_input_pcb c;
  mv_sending : sending iss c';
  mv_listed : listed c';
  mv_open : open_state (pcb_state (c_pcb c'));
  mv_nxt : rcv_nxt (rx (c_pcb c')) = rcv_nxt (rx (c_pcb c));
  mv_wnd : wnd_ok (c_pcb c) -> wnd_ok (c_pcb c');
  mv_data : recv_data (c_in c') = recv_data (c_in c);
  mv_acked : 0 <= recv_acked (c_in c) < 2 ^ 32 -> 0 <= recv_acked (c_in c') < 2 ^ 32;
  mv_flags : recv_flags (c_in c') = Z.lor (recv_flags (c_in c)) x;
  mv_refused : refused_data (rx (c_pcb c')) = refused_data (rx (c_pcb c)) \/
               (refused_data (rx (c_pcb c')) = None /\ c_list c' = TimeWaitList);
  mv_recv : cb_recv (cb (c_pcb c')) = Some tcp_recv_null_fn -> cb_recv (cb (c_pcb c)) = Some tcp_recv_null_fn;
  mv_armed : armed c -> armed c';
  mv_listener : listener (cb (c_pcb c')) = listener (cb (c_pcb c));
  mv_quiet : quiet (c_trace c) (c_trace c');
}.

Lemma moves_kept x a b c : kept a b -> same_state a b -> moves x b c -> moves x a c.
Proof.
  intros [] (_ & Hli & Hcb & _) []. rewrite kp_in in *. split; try congruence; try tauto. by transitivity (c_trace b).
Qed.

Lemma moves_trans x a b c : moves 0 a b -> c_list b = ActiveList -> moves x b c -> moves x a c.
Proof.
  intros [] Hact []. rewrite Z.lor_0_r in mv_flags0. split; try congruence; try tauto.
  - destruct mv_refused0 as [<-|[_ Hl]]; [done|congruence].
  - by transitivity (c_trace b).
Qed.

(** A new state, on the same list. *)
Lemma moves_state st c :
  c_live c = true -> sending iss c -> listed c -> c_list c = ActiveList ->
  (writable st = true -> writable (pcb_state (c_pcb c)) = true) -> open_state st -> st <> TIME_WAIT ->
  moves 0 c (set_pcb (set_state st (c_pcb c)) c).
Proof.
  intros Hl Hc Hlist Hact Hw (H1 & H2 & H3) H4. split; try done; try by left.
  - by apply sending_state_any.
  - unfold listed. cbn. by destruct st.
  - by rewrite Z.lor_0_r.
Qed.

Lemma moves_same c :
  c_live c = true -> sending iss c -> listed c -> open_state (pcb_state (c_pcb c)) -> moves 0 c c.
Proof. intros. split; try done; [by rewrite Z.lor_0_r|by left]. Qed.

Lemma ack_now_then {A} (m : TM A) (Q : A -> conn -> Prop) c :
  c_live c = true -> sending iss c ->
  (forall c1, steps c c1 -> sending iss c1 -> c_in c1 = c_in c -> twp m Q c1) ->
  twp (_ ← tcp_ack_now; m) Q c.
Proof.
  intros Hl Hc Hm. apply twp_bind.
  eapply twp_mono; [by apply (sends_flags_set iss TF_ACK_NOW (fun _ c' => c_in c' = c_in c))|].
  intros _ c1 (Hs & Hc1 & Hi). by apply Hm.
Qed.

Lemma time_wait_ok c :
  c_live c = true -> sending iss c -> c_list c = ActiveList ->
  pcb_state (c_pcb c) <> CLOSED /\ pcb_state (c_pcb c) <> TIME_WAIT ->
  twp enter_time_wait (fun _ c' => moves 0 c c' /\ pcb_state (c_pcb c') = TIME_WAIT) c.
Proof.
  intros Hl Hc Hact Hst. unfold enter_time_wait, TCP_RMV_ACTIVE, TCP_RMV, TCP_REG.
  apply twp_bind. eapply twp_mono; [by apply purge_ok|]. intros _ c1 ->.
  destruct (purged_same c) as (Pl & Plist & Pi & Pp & _ & _ & Pfl & Pcb & _ & Pn & Pw).
  pose proof (purged_quiet c) as Hq.
  assert (sending iss (set_list NoList (purged c))) as Hc1 by (by apply purged_sending).
  assert (refused_data (rx (c_pcb (purged c))) = refused_data (rx (c_pcb c)) \/
          refused_data (rx (c_pcb (purged c))) = None) as Href.
  { unfold purged, purged_pcb. cbn. destruct (_ && _ && _); by auto. }
  revert Pl Plist Pi Pp Pfl Pcb Pn Pw Hq Hc1 Href. generalize (purged c).
  intros c1 Pl Plist Pi Pp Pfl Pcb Pn Pw Hq Hc1 Href.
  do 2 apply twp_bind. apply twp_modify. rewrite bool_decide_true by congruence. apply twp_modify.
  apply twp_bind, twp_upd_pcb; [by cbn; rewrite Pl|]. apply twp_modify.
  split; [|done]. split; cbn; rewrite ?Pi; try done.
  - match goal with |- sending _ ?d => apply (sending_same iss (set_list TimeWaitList (set_list NoList (set_pcb
      (set_state TIME_WAIT (c_pcb c1)) c1)))); try done end.
    apply sending_list; [|done|done]. by apply (sending_state iss TIME_WAIT _ Hc1).
  - unfold wnd_ok. cbn. rewrite Pw. by rewrite (wnd_max_scale (set_state TIME_WAIT (c_pcb c1)) (c_pcb c)) by (cbn; by rewrite Pfl).
  - by rewrite Z.lor_0_r.
  - destruct Href as [->| ->]; auto.
  - by rewrite Pcb.
  - by rewrite Pcb.
  - by rewrite Pcb.
Qed.

(** ** [tcp_process] *)

(** The connection after a segment was processed. *)
Record settled c c' : Prop := mk_settled {
  sd_live : c_live c' = c_live c;
  sd_input : c_input_pcb c' = c_input_pcb c;
  sd_sending : sending iss c';
  sd_listed : listed c';
  sd_open : open_state (pcb_state (c_pcb c'));
  sd_wnd : wnd_ok (c_pcb c');
  sd_acked : 0 <= recv_acked (c_in c') < 2 ^ 32;
  sd_refused : refused_data (rx (c_pcb c')) = refused_data (rx (c_pcb c)) \/
               (refused_data (rx (c_pcb c')) = None /\ c_list c' = TimeWaitList);
  sd_recv : cb_recv (cb (c_pcb c')) = Some tcp_recv_null_fn -> cb_recv (cb (c_pcb c)) = Some tcp_recv_null_fn;
  sd_armed : armed c -> armed c';
  sd_listener : listener (cb (c_pcb c')) = listener (cb (c_pcb c));
  sd_quiet : quiet (c_trace c) (c_trace c');
}.

(** How far it brought the receiver, and what is to be done about it. *)
Inductive processed (n : Z) (fin : bool) c c' : Prop :=
| mk_processed (next : Z) (got : bool) (x : Z) :
    n <= next <= zlen stream ->
    rcv_nxt (rx (c_pcb c')) = pos (next + Z.b2z (fin || got)) ->
    (fin || got = true -> next = zlen stream) ->
    (fin || got = true -> state_code CLOSE_WAIT <= state_code (pcb_state (c_pcb c'))) ->
    match recv_data (c_in c') with
    | Some b => ztake n stream ++ rp_data b = ztake next stream /\ has (rp_flags b) PBUF_FLAG_TCP_FIN = false
    | None => next = n
    end ->
    (is_Some (recv_data (c_in c')) \/ got = true -> refused_data (rx (c_pcb c)) = None) ->
    recv_flags (c_in c') = Z.lor (if got then TF_GOT_FIN else 0) x ->
    x = 0 \/ x = TF_RESET \/ x = TF_CLOSED ->
    (x <> 0 -> c_list c' = ActiveList) ->
    settled c c' ->
    processed n fin c c'.

Lemma processed_moves n fin c c1 c2 x :
  recv_flags (c_in c) = 0 -> in_frame c c1 -> progress n fin c c1 -> moves x c1 c2 ->
  x = 0 \/ x = TF_RESET \/ x = TF_CLOSED -> (x <> 0 -> c_list c2 = ActiveList) ->
  (fin || has (recv_flags (c_in c1)) TF_GOT_FIN = true ->
     state_code CLOSE_WAIT <= state_code (pcb_state (c_pcb c2))) ->
  processed n fin c c2.
Proof.
  intros H0 Hf [next got Hr Hn He Hg Hd Href Hfl Ha Hw] Hm Hx Hxl Hst. rewrite H0, Z.lor_0_l in Hfl.
  apply (mk_processed _ _ _ _ next got x); rewrite ?(mv_data _ _ _ Hm), ?(mv_nxt _ _ _ Hm); try done.
  - intros Hfg. apply Hst. rewrite Hfl. by destruct got.
  - by rewrite (mv_flags _ _ _ Hm), Hfl.
  - destruct Hf, Hm. split; try congruence; try tauto.
    + destruct if_same0 as (_ & _ & Hcb & _). auto.
    + destruct if_same0 as (_ & _ & _ & Harm & _). auto.
    + destruct if_same0 as (_ & Hli & _). congruence.
    + by transitivity (c_trace c1).
Qed.

Lemma moves_steps x a b c : steps a b -> moves x b c -> moves x a c.
Proof. intros Hs. apply moves_kept; [by apply steps_kept|by apply steps_same]. Qed.

(** What holds of the connection when a state's own part of [tcp_process] begins. *)
Record ready (n : Z) (fin : bool) c : Prop := mk_ready {
  rd_live : c_live c = true;
  rd_sending : sending iss c;
  rd_list : c_list c = ActiveList;
  rd_listed : listed c;
  rd_open : open_state (pcb_state (c_pcb c));
  rd_stands : stands n fin c;
  rd_fresh : fresh (c_in c);
  rd_refused : 0 < tcplen (c_in c) -> refused_data (rx (c_pcb c)) = None;
}.

Lemma listed_state c c' :
  listed c -> c_list c' = c_list c -> pcb_state (c_pcb c') = pcb_state (c_pcb c) -> listed c'.
Proof. unfold listed. by intros H1 -> ->. Qed.

Lemma synchronized_ok n fin c :
  ready n fin c -> state_code ESTABLISHED <= state_code (pcb_state (c_pcb c)) ->
  has (in_flags (c_in c)) TCP_SYN = false ->
  twp process_synchronized (fun _ c' => processed n fin c c') c.
Proof.
  intros [Hl Hc Hact Hlist Hopen Hn Hfr Href] Hest Hsyn. unfold process_synchronized.
  apply twp_bind, twp_pcb; [done|].
  assert (forall k : unit -> TM unit,
    (forall c1, c_live c1 = true -> sending iss c1 -> c_list c1 = ActiveList ->
       pcb_state (c_pcb c1) = pcb_state (c_pcb c) -> in_frame c c1 -> progress n fin c c1 ->
       (has (recv_flags (c_in c1)) TF_GOT_FIN = false -> moves 0 c1 c1 -> processed n fin c c1) ->
       twp (k tt) (fun _ c' => processed n fin c c') c1) ->
    twp (tcp_receive ≫= k) (fun _ c' => processed n fin c c') c) as Hrecv.
  { intros k Hk. apply twp_bind. eapply twp_mono; [by apply (receive_ok n fin)|].
    intros [] c1 (Hc1 & Hf1 & Hp1). pose proof (if_same _ _ Hf1) as (Hst1 & _).
    apply Hk; try done; [by rewrite (if_live _ _ Hf1)|by rewrite (if_list _ _ Hf1)|].
    intros Hg Hm. eapply (processed_moves n fin c c1 _ 0); try done; [apply Hfr|by left|].
    rewrite Hg, orb_false_r, Hst1. intros ->. by apply (sn_state _ _ _ Hn). }
  assert (forall c1, c_live c1 = true -> sending iss c1 -> c_list c1 = ActiveList ->
       pcb_state (c_pcb c1) = pcb_state (c_pcb c) -> moves 0 c1 c1) as Hsame.
  { intros c1 ? ? Ha Hs. apply moves_same; try done; [|by rewrite Hs]. by apply (listed_state c); [|rewrite Ha|]. }
  assert (forall st c1, c_live c1 = true -> sending iss c1 -> c_list c1 = ActiveList ->
       pcb_state (c_pcb c1) = pcb_state (c_pcb c) -> in_frame c c1 -> progress n fin c c1 ->
       (writable st = true -> writable (pcb_state (c_pcb c)) = true) -> open_state st -> st <> TIME_WAIT ->
       state_code CLOSE_WAIT <= state_code st ->
       twp (_ ← tcp_ack_now; upd_pcb (set_state st)) (fun _ c' => processed n fin c c') c1) as Hclose.
  { intros st c1 Hl1 Hc1 Ha1 Hs1 Hf1 Hp1 Hw Ho Htw Hcode. apply ack_now_then; [done|done|].
    intros c2 Hs2 Hc2 Hi2. apply twp_upd_pcb; [by rewrite (st_live _ _ Hs2)|].
    eapply (processed_moves n fin c c1 _ 0); try done; [apply Hfr| |by left].
    eapply moves_steps; [exact Hs2|]. apply moves_state; try done; [by rewrite (st_live _ _ Hs2)| | |].
    - apply (listed_state c); [done|by rewrite (st_list _ _ Hs2), Ha1|]. by rewrite (st_state _ _ Hs2).
    - by rewrite (st_list _ _ Hs2).
    - by rewrite (st_state _ _ Hs2), Hs1. }
  assert (forall c1, c_live c1 = true -> sending iss c1 -> c_list c1 = ActiveList ->
       pcb_state (c_pcb c1) = pcb_state (c_pcb c) -> in_frame c c1 -> progress n fin c c1 ->
       pcb_state (c_pcb c) <> TIME_WAIT ->
       twp (_ ← tcp_ack_now; enter_time_wait) (fun _ c' => processed n fin c c') c1 /\
       twp enter_time_wait (fun _ c' => processed n fin c c') c1) as Htw.
  { intros c1 Hl1 Hc1 Ha1 Hs1 Hf1 Hp1 Hne.
    assert (forall c2, steps c1 c2 -> sending iss c2 ->
      twp enter_time_wait (fun _ c' => processed n fin c c') c2) as Henter.
    { intros c2 Hs2 Hc2. eapply twp_mono; [apply time_wait_ok; try done|].
      - by rewrite (st_live _ _ Hs2).
      - by rewrite (st_list _ _ Hs2).
      - rewrite (st_state _ _ Hs2), Hs1. split; [apply Hopen|done].
      - intros _ c3 [Hm Hs3]. eapply (processed_moves n fin c c1 _ 0); try done; [apply Hfr| |by left|].
        + by eapply moves_steps.
        + intros _. by rewrite Hs3. }
    split; [apply ack_now_then; [done|done|]; intros c2 ? ? _; by apply Henter|by apply Henter]. }
  destruct (pcb_state (c_pcb c)) eqn:Hst; try done.
  - (* ESTABLISHED *) apply Hrecv. intros c1 Hl1 Hc1 Ha1 Hs1 Hf1 Hp1 Hnone. apply twp_bind, twp_in.
    apply twp_when; intros Hgot; [by apply Hclose|]. apply Hnone; [done|by apply Hsame].
  - (* FIN_WAIT_1 *) apply Hrecv. intros c1 Hl1 Hc1 Ha1 Hs1 Hf1 Hp1 Hnone. apply twp_bind, twp_in, twp_bind, twp_pcb; [done|].
    destruct (has (recv_flags (c_in c1)) TF_GOT_FIN) eqn:Hgot.
    + destruct (fin_acked _ _); [by apply Htw|by apply Hclose].
    + apply twp_when; intros _; [|by apply Hnone; [|apply Hsame]].
      apply twp_upd_pcb; [done|]. eapply (processed_moves n fin c c1 _ 0); try done; [apply Hfr| |by left|].
      * apply moves_state; try done. by apply (listed_state c); [|rewrite Ha1|rewrite Hst].
      * rewrite Hgot, orb_false_r. intros ->. pose proof (sn_state _ _ _ Hn eq_refl) as Hx. by rewrite Hst in Hx.
  - (* FIN_WAIT_2 *) apply Hrecv. intros c1 Hl1 Hc1 Ha1 Hs1 Hf1 Hp1 Hnone. apply twp_bind, twp_in.
    apply twp_when; intros Hgot; [by apply Htw|]. apply Hnone; [done|by apply Hsame].
  - (* CLOSE_WAIT *) apply Hrecv. intros c1 Hl1 Hc1 Ha1 Hs1 Hf1 Hp1 Hnone. apply twp_bind, twp_in.
    apply twp_when; intros Hgot; [by apply Hclose|]. apply Hnone; [done|by apply Hsame].
  - (* CLOSING *) apply Hrecv. intros c1 Hl1 Hc1 Ha1 Hs1 Hf1 Hp1 Hnone. apply twp_bind, twp_in, twp_bind, twp_pcb; [done|].
    apply twp_when; intros _; [by apply Htw|].
    eapply (processed_moves n fin c c1 _ 0); try done; [apply Hfr|by apply Hsame|by left|]. by rewrite Hs1.
  - (* LAST_ACK *) apply Hrecv. intros c1 Hl1 Hc1 Ha1 Hs1 Hf1 Hp1 Hnone. apply twp_bind, twp_in, twp_bind, twp_pcb; [done|].
    apply twp_when; intros _.
    + apply twp_upd_in. eapply (processed_moves n fin c c1 _ TF_CLOSED); try done; [apply Hfr| |by right; right|by cbn; rewrite Hs1].
      destruct (Hsame c1 Hl1 Hc1 Ha1 Hs1). split; try done; cbn; by apply (sending_same iss c1).
    + eapply (processed_moves n fin c c1 _ 0); try done; [apply Hfr|by apply Hsame|by left|]. by rewrite Hs1.
  - (* TIME_WAIT *) exfalso. unfold listed in Hlist. by rewrite Hst, Hact in Hlist.
Qed.

Lemma ready_progress n fin c : ready n fin c -> progress n fin c c.
Proof.
  intros []. destruct rd_fresh0. apply progress_none; try done; [by rewrite fr_acked0|apply rd_stands0].
Qed.

(** Nothing was received: [moves] is all that happened. *)
Lemma processed_ready n fin c c' x :
  ready n fin c -> moves x c c' -> x = 0 \/ x = TF_RESET \/ x = TF_CLOSED -> (x <> 0 -> c_list c' = ActiveList) ->
  (fin = true -> state_code CLOSE_WAIT <= state_code (pcb_state (c_pcb c'))) -> processed n fin c c'.
Proof.
  intros Hr Hm Hx Hxl Hst. pose proof (rd_fresh _ _ _ Hr) as Hfr.
  eapply processed_moves; try done; [apply Hfr|by apply ready_progress|].
  rewrite (fr_flags _ Hfr), orb_false_r. done.
Qed.

Lemma moves_after_steps n fin c c' : ready n fin c -> steps c c' -> sending iss c' -> moves 0 c c'.
Proof.
  intros [] Hs Hc'. eapply moves_steps; [exact Hs|]. apply moves_same; [by rewrite (st_live _ _ Hs)|done| |].
  - eapply listed_state; [exact rd_listed0|apply (st_list _ _ Hs)|apply (st_state _ _ Hs)].
  - by rewrite (st_state _ _ Hs).
Qed.

Lemma processed_steps n fin c c' : ready n fin c -> steps c c' -> sending iss c' -> processed n fin c c'.
Proof.
  intros Hr Hs Hc'. eapply processed_ready; [done|by eapply moves_after_steps|by left|done|].
  intros ->. rewrite (st_state _ _ Hs). apply (sn_state _ _ _ (rd_stands _ _ _ Hr) eq_refl).
Qed.

Lemma processed_base n fin c c2 c' :
  c_live c2 = c_live c -> c_input_pcb c2 = c_input_pcb c ->
  refused_data (rx (c_pcb c2)) = refused_data (rx (c_pcb c)) ->
  (cb_recv (cb (c_pcb c2)) = Some tcp_recv_null_fn -> cb_recv (cb (c_pcb c)) = Some tcp_recv_null_fn) ->
  (armed c -> armed c2) -> listener (cb (c_pcb c2)) = listener (cb (c_pcb c)) ->
  quiet (c_trace c) (c_trace c2) -> processed n fin c2 c' -> processed n fin c c'.
Proof.
  intros H1 H2 H3 H4 Harm H4' H5 [next got x]. rewrite H3 in *. apply (mk_processed _ _ _ _ next got x); try done.
  match goal with Hs : settled _ _ |- _ => destruct Hs end. rewrite H3 in *.
  split; try congruence; try tauto. by transitivity (c_trace c2).
Qed.

(** ** Resets *)

Lemma process_rst_ok n fin c :
  ready n fin c -> twp process_rst (fun err c' => err <> ERR_ABRT /\ processed n fin c c') c.
Proof.
  intros Hr. pose proof Hr as [Hl Hc Hact Hlist Hopen Hn Hfr Href]. unfold process_rst.
  apply twp_bind, twp_in, twp_bind, twp_pcb; [done|]. cbv zeta. apply twp_bind.
  eapply (twp_mono _ (fun _ c' => steps c c' /\ sending iss c' /\ c_in c' = c_in c)).
  { destruct (state_is _ _); [by apply twp_ret|]. destruct (_ =? _); [by apply twp_ret|].
    apply twp_bind. eapply (twp_mono _ (fun _ c' => steps c c' /\ sending iss c' /\ c_in c' = c_in c)); [|by intros; apply twp_ret].
    apply twp_when; intros _; [|done].
    eapply twp_mono; [by apply (sends_flags_set iss TF_ACK_NOW (fun _ c' => c_in c' = c_in c))|]. done. }
  intros acc c1 (Hs1 & Hc1 & Hi1). destruct acc.
  2:{ apply twp_ret. split; [done|]. by apply processed_steps. }
  apply twp_bind, twp_assert.
  { unfold state_is. rewrite bool_decide_false; [done|]. apply Hopen. }
  apply twp_bind, twp_upd_in, twp_bind.
  eapply twp_mono; [apply (sends_upd iss _ (fun _ _ => True)); try done|].
  { by cbn; rewrite (st_live _ _ Hs1). }
  { frame. }
  { apply (sending_same iss c1); try done. cbn. flags. done. }
  intros _ c2 (Hs2 & Hc2 & _). apply twp_ret. split; [done|].
  eapply (processed_ready n fin c c2 TF_RESET); [done| |by right; left| |].
  - pose proof (moves_after_steps n fin c c1 Hr Hs1 Hc1) as [].
    pose proof (steps_quiet _ _ Hs2) as Hq2. destruct Hs2. cbn in *. rewrite Z.lor_0_r in mv_flags0.
    split; rewrite ?st_in, ?st_nxt, ?st_refused, ?st_cb, ?st_state; cbn; try congruence; try tauto.
    + eapply listed_state; [exact mv_listed0| |]; done.
    + intros Hw. unfold wnd_ok in *. rewrite st_wnd. rewrite (wnd_max_scale _ (c_pcb c1)); [auto|done].
    + by transitivity (c_trace c1).
  - intros _. rewrite (st_list _ _ Hs2). by rewrite <- Hact, <- (st_list _ _ Hs1).
  - intros ->. rewrite (st_state _ _ Hs2). cbn. rewrite (st_state _ _ Hs1). apply (sn_state _ _ _ Hn eq_refl).
Qed.

(** ** The third segment of the handshake *)

Lemma accept_ok accept c :
  c_live c = true -> sending iss c -> listed c -> c_list c = ActiveList -> accept <> None ->
  twp (TCP_EVENT_ACCEPT accept) (fun err c' =>
    (err = ERR_ABRT /\ ended iss c c') \/
    (err <> ERR_ABRT /\ kept c c' /\ same_state c c' /\ sending iss c')) c.
Proof.
  intros Hl Hc Hlist Hact Hacc. unfold TCP_EVENT_ACCEPT. apply twp_bind, twp_pcb; [done|].
  destruct accept as [[ | ]|]; [| |done].
  - unfold tcp_accept_null. apply twp_bind. eapply twp_mono; [by apply (abandon_ok iss)|].
    intros u c1 He. apply twp_ret. by left.
  - destruct (or_accept _ app_orderly (c_trace c)) as [Hcalm|Habort].
    + eapply twp_mono; [apply (call_quiet_ok iss); try done; by left|].
      intros e c1 (Hk & Hc1 & He & Hs). right. by split_and!.
    + unfold call_app. apply twp_bind, twp_gets, twp_bind. rewrite Habort. simpl. apply twp_bind.
      eapply twp_mono; [by apply (abandon_ok iss)|]. intros _ c1 [He1 He2 He3 He4 He5].
      apply twp_ret, twp_bind, twp_emit, twp_ret. left. split; [done|].
      split; cbn [c_live c_trace set_trace c_in c_input_pcb]; try done.
      * rewrite written_app. change (written [_]) with (@nil Z). rewrite app_nil_r.
        apply Forall_app. split; [done|by apply Forall_singleton].
      * etransitivity; [exact He3|]. by apply quiet_one.
Qed.

Lemma stands_kept n fin c c' :
  stands n fin c -> kept c c' -> pcb_state (c_pcb c') = pcb_state (c_pcb c) -> stands n fin c'.
Proof. intros [] [] Hs. split; try done; [congruence|by rewrite Hs|auto]. Qed.

Lemma syn_rcvd_ok a n fin c :
  ready n fin c -> pcb_state (c_pcb c) = SYN_RCVD -> listener (cb (c_pcb c)) <> Some None ->
  twp (process_syn_rcvd a) (fun err c' =>
    (err = ERR_ABRT /\ ended iss c c') \/ (err <> ERR_ABRT /\ processed n fin c c')) c.
Proof.
  intros Hr Hst Hlis. pose proof Hr as [Hl Hc Hact Hlist Hopen Hn Hfr Href]. unfold process_syn_rcvd.
  apply twp_bind, twp_in, twp_bind, twp_pcb; [done|].
  destruct (has _ TCP_SYN) eqn:Hsyn.
  { apply twp_bind. eapply (twp_mono _ (fun _ c' => processed n fin c c')); [|intros; apply twp_ret; by right].
    apply twp_when; intros _; [|by apply processed_steps].
    apply twp_bind. eapply twp_mono; [by apply rexmit_ok|]. intros e c1 (Hs1 & Hc1 & _). apply twp_ret.
    by apply processed_steps. }
  destruct (has _ TCP_ACK); [|apply twp_ret; right; split; [done|by apply processed_steps]].
  destruct (TCP_SEQ_BETWEEN _ _ _).
  2:{ unfold reset_segment. apply twp_bind, twp_bind, twp_in.
      eapply twp_mono; [by apply (rst_ok iss)|]. intros _ c1 (Hs1 & Hc1 & _). apply twp_ret.
      right. split; [done|by apply processed_steps]. }
  apply twp_bind, twp_upd_pcb; [done|].
  set (c1 := set_pcb (set_state ESTABLISHED (c_pcb c)) c).
  assert (sending iss c1) as Hc1 by (apply sending_state_any; [done|by rewrite Hst|done]).
  assert (c_live c1 = true) as Hl1 by done. assert (c_list c1 = ActiveList) as Hact1 by done.
  assert (listed c1) as Hlist1 by done.
  apply twp_bind.
  eapply (twp_mono _ (fun err c' => (err = ERR_ABRT /\ ended iss c1 c') \/
    (err <> ERR_ABRT /\ kept c1 c' /\ same_state c1 c' /\ sending iss c'))).
  { change (listener (cb (c_pcb c))) with (listener (cb (c_pcb c1))) in Hlis.
    destruct (listener (cb (c_pcb c))) as [accept|] eqn:Hli; cbn in Hlis; rewrite Hli in Hlis.
    - apply twp_bind, twp_assert; [by destruct accept|]. apply accept_ok; try done. congruence.
    - apply twp_ret. right. split_and!; done || reflexivity. }
  intros err c2 Hr2.
  assert (ended iss c1 c2 -> ended iss c c2) as Hend by (by intros []).
  destruct (negb (bool_decide (err = ERR_OK))) eqn:Herr.
  { destruct Hr2 as [[-> He]|(Hne & Hk2 & Hs2 & Hc2)].
    - apply twp_bind, twp_ret, twp_ret. left. auto.
    - apply twp_bind. rewrite bool_decide_false by done. cbn [negb when].
      eapply twp_mono; [apply (abandon_ok iss); try done|].
      + by rewrite (kp_live _ _ Hk2).
      + eapply listed_state; [exact Hlist1|apply Hk2|apply Hs2].
      + intros _ c3 [E1 E2 E3 E4 E5]. apply twp_ret. left. split; [done|].
        split; [done|done| | |].
        * etransitivity; [apply (kp_quiet _ _ Hk2)|done].
        * rewrite E4. apply (kp_in _ _ Hk2).
        * rewrite E5. apply (kp_input _ _ Hk2). }
  destruct Hr2 as [[-> _]|(Hne & Hk2 & Hs2 & Hc2)]; [done|]. clear Hend.
  assert (fin = false) as ->.
  { destruct fin; [|done]. pose proof (sn_state _ _ _ Hn eq_refl) as Hx. by rewrite Hst in Hx. }
  assert (c_live c2 = true) as Hl2 by (by rewrite (kp_live _ _ Hk2)).
  assert (c_list c2 = ActiveList) as Hact2 by (by rewrite (kp_list _ _ Hk2)).
  assert (c_in c2 = c_in c) as Hi2 by (by rewrite (kp_in _ _ Hk2)).
  assert (pcb_state (c_pcb c2) = ESTABLISHED) as Hst2 by (by rewrite (proj1 Hs2)).
  assert (refused_data (rx (c_pcb c2)) = refused_data (rx (c_pcb c))) as Href2 by (by rewrite (kp_refused _ _ Hk2)).
  assert (stands n false c2) as Hn2.
  { eapply (stands_kept _ _ c1); [|done|by rewrite Hst2]. by destruct Hn. }
  apply twp_bind. eapply twp_mono; [apply (receive_ok n false); try done|].
  { by rewrite Hst2. }
  { by rewrite Hi2. }
  { by rewrite Hi2. }
  { by rewrite Hi2, Href2. }
  intros _ c3 (Hc3 & Hf3 & Hp3).
  assert (c_live c3 = true) as Hl3 by (by rewrite (if_live _ _ Hf3)).
  assert (pcb_state (c_pcb c3) = ESTABLISHED) as Hst3 by (by rewrite (proj1 (if_same _ _ Hf3))).
  assert (c_list c3 = ActiveList) as Hact3 by (by rewrite (if_list _ _ Hf3)).
  apply twp_bind, twp_upd_in. apply twp_bind, twp_pcb; [done|]. apply twp_bind, twp_upd_pcb; [done|].
  set (i4 := if negb (recv_acked (c_in c3) =? 0) then set_recv_acked (u32 (recv_acked (c_in c3) - 1)) (c_in c3) else c_in c3).
  match goal with |- twp _ _ ?d => set (c4 := d) end.
  assert (sending iss c4) as Hc4.
  { apply (sending_same iss (set_pcb (set_cc (cc (c_pcb c4)) (c_pcb c3)) c3)); try done.
    apply sending_cc; [done|]. apply (co_nrtx _ _ _ (se_pcb _ _ Hc3)). }
  assert (moves 0 c3 c4) as Hm4.
  { split; try done; try (by left); unfold c4; cbn; fold i4.
    - unfold listed. cbn. by rewrite Hst3.
    - by rewrite Hst3.
    - unfold i4. by case_match.
    - intros Ha. unfold i4. case_match; [|done]. apply (wrap_fits 32). lia.
    - rewrite Z.lor_0_r. unfold i4. by case_match. }
  apply twp_bind, twp_in, twp_bind.
  eapply (twp_mono _ (fun _ c' => processed n false c2 c')).
  { assert (recv_flags (c_in c4) = recv_flags (c_in c3)) as Hfl4 by (rewrite (mv_flags _ _ _ Hm4); apply Z.lor_0_r).
    rewrite Hfl4. apply twp_when; intros Hgot.
    - apply ack_now_then; [done|done|]. intros c5 Hs5 Hc5 Hi5. apply twp_upd_pcb; [by rewrite (st_live _ _ Hs5)|].
      eapply (processed_moves n false c2 c3 _ 0); try done; [by rewrite Hi2; apply Hfr| |by left].
      apply (moves_trans 0 _ c4); [done|done|]. apply (moves_steps _ _ c5); [done|].
      apply moves_state; try done; [by rewrite (st_live _ _ Hs5)| |by rewrite (st_list _ _ Hs5)|].
      + eapply listed_state; [exact (mv_listed _ _ _ Hm4)|apply (st_list _ _ Hs5)|apply (st_state _ _ Hs5)].
      + intros _. rewrite (st_state _ _ Hs5). cbn. by rewrite Hst3.
    - eapply (processed_moves n false c2 c3 _ 0); try done; [by rewrite Hi2; apply Hfr|by left|].
      by rewrite Hgot. }
  intros _ c5 Hp5. apply twp_ret. right. split; [done|].
  eapply processed_base; [..|exact Hp5]; try done.
  - by rewrite Hl2.
  - by rewrite (kp_input _ _ Hk2).
  - apply Hs2.
  - apply Hs2.
  - by destruct Hs2 as (_ & -> & _).
  - apply (kp_quiet _ _ Hk2).
Qed.

(** ** [tcp_process] *)

Lemma ready_steps n fin c c' : ready n fin c -> steps c c' -> sending iss c' -> ready n fin c'.
Proof.
  intros [] Hs Hc'. pose proof (steps_kept _ _ Hs) as Hk. destruct Hs. split; rewrite ?st_in, ?st_refused, ?st_state; try done; try congruence.
  - by eapply listed_state.
  - eapply stands_kept; eauto.
Qed.

(** The options of a segment change nothing, where they are looked at. *)
Definition neutral_options c : Prop :=
  has (in_flags (c_in c)) TCP_SYN = false \/ pcb_state (c_pcb c) = SYN_RCVD ->
  Forall (neutral (in_flags (c_in c)) (c_pcb c)) (options (in_opts (c_in c))).

Lemma process_ok a n fin c :
  ready n fin c -> (pcb_state (c_pcb c) = SYN_RCVD -> listener (cb (c_pcb c)) <> Some None) ->
  neutral_options c ->
  twp (tcp_process a) (fun err c' =>
    (err = ERR_ABRT /\ ended iss c c') \/ (err <> ERR_ABRT /\ processed n fin c c')) c.
Proof.
  intros Hr Hlis Hopts. pose proof Hr as [Hl Hc Hact Hlist Hopen Hn Hfr Href]. unfold tcp_process.
  apply twp_bind, twp_in, twp_bind, twp_pcb; [done|]. cbv zeta.
  destruct (has _ TCP_RST).
  { eapply twp_mono; [by apply (process_rst_ok n fin)|]. auto. }
  destruct (has _ TCP_SYN && _) eqn:Hsyn.
  { apply ack_now_then; [done|done|]. intros c1 Hs1 Hc1 _. apply twp_ret. right. split; [done|].
    by apply processed_steps. }
  apply twp_bind, twp_gets, twp_bind.
  eapply (twp_mono _ (fun _ c' => exists t, c' = set_pcb (set_tm t (c_pcb c)) c /\
    persist_backoff t = persist_backoff (tm (c_pcb c)))).
  { apply twp_when; intros _.
    - apply twp_upd_pcb; [done|]. by eexists.
    - exists (tm (c_pcb c)). split; [by destruct c as [[] ? ? ? ? ? ? ? ?]|done]. }
  intros _ c1 (t & -> & Ht). apply twp_bind, twp_upd_pcb; [done|].
  match goal with |- twp _ _ ?d => set (c2 := d) end.
  assert (steps c c2) as Hs2 by (unfold c2; frame).
  assert (sending iss c2) as Hc2 by (apply (sending_same iss c); try done; unfold c2; cbn; done).
  pose proof (ready_steps _ _ _ _ Hr Hs2 Hc2) as Hr2.
  apply twp_bind. eapply twp_mono; [apply (parseopt_neutral c2); [done|apply Hfr|]|].
  { apply Hopts. apply andb_false_iff in Hsyn as [Hsyn|Hsyn]; [by left|right].
    unfold state_is in Hsyn. destruct Hopen as (? & ? & ?). revert Hsyn. do 2 case_bool_decide; naive_solver. }
  intros _ c3 ->.
  assert (forall c', processed n fin c2 c' -> processed n fin c c') as Hbase.
  { intros c'. apply processed_base; try done. }
  destruct (pcb_state (c_pcb c)) eqn:Hst; try (by destruct Hopen as (? & ? & ?)).
  2-8: (apply twp_bind; eapply twp_mono; [apply (synchronized_ok n fin); try done; change (pcb_state (c_pcb c2)) with (pcb_state (c_pcb c));
      [by rewrite Hst|by apply andb_false_iff in Hsyn as [?|?]]|]; intros u c4 Hp; cbv beta in Hp; apply twp_ret; right; split; [done|by apply Hbase]).
  eapply twp_mono; [apply (syn_rcvd_ok a n fin); [done|done|by apply Hlis]|]. intros err c4 [[-> He]|[Hne Hp]].
  - left. split; [done|]. by destruct He; split.
  - right. split; [done|by apply Hbase].
Qed.

End input.
