(* ===== verification/TcpInputProofs.v ===== *)
(** * What the application is handed

    [tcp_input] after [tcp_process]: the sent, receive and close callbacks, the data
    that was refused earlier, and the end of the connection. The application is
    handed the bytes of the peer's stream in order and without gaps, and is told the
    end of the stream when it has all of them. *)
From Stdlib Require Import ZArith Lia.
From stdpp Require Import base list option numbers gmap.
From S2P Require Import Prelude Pbuf Chksum Lwip Tcp TcpOut TcpApi TcpIn TcpOptions TcpInv TcpOutProofs TcpWriteProofs TcpQueueProofs TcpApiProofs TcpAckProofs TcpDataProofs TcpInProofs.

Section deliver.
Context `{Environment}.
Hypothesis app_orderly : orderly env_app.
Variables (iss irs : Z) (stream : list Z).
Hypothesis short_stream : zlen stream < 2 ^ 30.
Implicit Types c : conn.

(** ** What was handed over *)

Record received (t : list event) : Prop := mk_received {
  rc_prefix : exists rest, taken t ++ rest = stream;
  rc_closed : forall i a e, t !! i = Some (ClosedCall a e) -> taken (take i t) = stream;
}.

Lemma received_snoc t e :
  received t -> (exists rest, taken t ++ taken_by e ++ rest = stream) ->
  (forall a r, e = ClosedCall a r -> taken t = stream) -> received (t ++ [e]).
Proof.
  intros [Hp Hc] [rest Hr] He. split.
  - exists rest. rewrite taken_app. unfold taken at 2. simpl. by rewrite app_nil_r, <- app_assoc.
  - intros i a r Hi. apply lookup_app_Some in Hi as [Hi|[Hlen Hi]].
    + rewrite take_app_le by (apply lookup_lt_Some in Hi; lia). by eapply Hc.
    + apply list_lookup_singleton_Some in Hi as [Hlen' ->].
      replace i with (length t) by lia. rewrite take_app_length. by eapply He.
Qed.

Lemma received_quiet t t' : quiet t t' -> received t -> received t'.
Proof.
  intros (es & -> & F). revert t. induction F as [|e es He F IH]; intros t Ht; [by rewrite app_nil_r|].
  replace (t ++ e :: es) with ((t ++ [e]) ++ es) by (by rewrite <- app_assoc). apply IH.
  apply received_snoc; [done| |by intros a r ->].
  destruct (rc_prefix _ Ht) as [rest Hr]. exists rest. by destruct e.
Qed.

(** The connection is back in its pool. *)
Record gone c : Prop := mk_gone {
  go_live : c_live c = false;
  go_sent : Forall (event_ok iss (written (c_trace c))) (c_trace c);
  go_received : received (c_trace c);
}.

Lemma ended_gone c c' : received (c_trace c) -> ended iss c c' -> gone c'.
Proof. intros Hr []. split; [done|done|]. by eapply received_quiet. Qed.

(** ** A connection and what it still has to hand over *)

(** The receiver stands at [n] of the stream; of these bytes [left] remain to be
    handed over, after the data that was refused. *)
Record hands (n : Z) (fin : bool) (left : list Z) c : Prop := mk_hands {
  hd_live : c_live c = true;
  hd_sending : sending iss c;
  hd_listed : listed c;
  hd_open : open_state (pcb_state (c_pcb c));
  hd_listener : fin = false -> listener (cb (c_pcb c)) <> Some None;
  hd_stands : stands irs stream n fin c;
  hd_received : received (c_trace c);
  hd_left : taken (c_trace c) ++ refused_bytes (c_pcb c) ++ left = ztake n stream;
  hd_refused : is_Some (refused_data (rx (c_pcb c))) -> cb_recv (cb (c_pcb c)) <> Some tcp_recv_null_fn;
  hd_marked : forall b, refused_data (rx (c_pcb c)) = Some b -> has (rp_flags b) PBUF_FLAG_TCP_FIN = true ->
              fin = true;
  hd_armed : armed c;
  hd_refusal : is_Some (refused_data (rx (c_pcb c))) -> refused_in (c_trace c) = true;
}.

Lemma refused_quiet t t' : quiet t t' -> refused_in t = true -> refused_in t' = true.
Proof. intros (es & -> & _) Ht. by rewrite existsb_app, Ht. Qed.

Lemma hands_callable n fin left c : hands n fin left c -> callable c.
Proof.
  intros []. unfold callable, listed in *. destruct hd_open0 as (? & ? & ?).
  destruct (pcb_state (c_pcb c)); auto.
Qed.

(** The calls of the interface, a close included, keep it. *)
Lemma hands_moved n fin left c c' :
  hands n fin left c -> kept c c' -> moved (pcb_state (c_pcb c)) (pcb_state (c_pcb c')) ->
  sending iss c' -> hands n fin left c'.
Proof.
  intros [] Hk Hm Hc'. pose proof (kp_refused _ _ Hk) as Hr.
  split; rewrite ?Hr; try done.
  - by rewrite (kp_live _ _ Hk).
  - unfold listed in *. rewrite (kp_list _ _ Hk).
    by destruct Hm as [->|[[[Ha|Ha] ->]|[Ha ->]]]; rewrite ?Ha in hd_listed0.
  - by destruct Hm as [->|[[_ ->]|[_ ->]]].
  - intros Hf. rewrite (kp_listener _ _ Hk). auto.
  - destruct hd_stands0. split; try done; [by rewrite (kp_nxt _ _ Hk)| |by apply Hk].
    intros Hf. specialize (sn_state Hf). by destruct Hm as [->|[[[Ha|Ha] ->]|[_ ->]]]; rewrite ?Ha in sn_state.
  - by eapply received_quiet; [apply Hk|].
  - rewrite (taken_quiet _ _ (kp_quiet _ _ Hk)). unfold refused_bytes in *. by rewrite Hr.
  - intros Hs Hn. by apply (hd_refused0 Hs), Hk.
  - by apply Hk.
  - intros Hs. eapply refused_quiet; [apply Hk|auto].
Qed.

Lemma hands_kept n fin left c c' :
  hands n fin left c -> kept c c' -> same_state c c' -> sending iss c' -> hands n fin left c'.
Proof. intros Hh Hk Hs. eapply hands_moved; [done..|]. left. apply Hs. Qed.

Lemma hands_steps n fin left c c' :
  hands n fin left c -> steps c c' -> sending iss c' -> hands n fin left c'.
Proof. intros Hh Hs. eapply hands_kept; [exact Hh|by apply steps_kept|by apply steps_same]. Qed.

(** Data that was refused, or is no longer, leaves everything else alone. *)
Lemma hands_refused n fin left left' r c :
  hands n fin left c ->
  let c' := set_pcb (set_rx (set_refused_data r (rx (c_pcb c))) (c_pcb c)) c in
  refused_bytes (c_pcb c') ++ left' = refused_bytes (c_pcb c) ++ left ->
  (is_Some r -> cb_recv (cb (c_pcb c)) <> Some tcp_recv_null_fn) ->
  (forall b, r = Some b -> has (rp_flags b) PBUF_FLAG_TCP_FIN = true -> fin = true) ->
  (is_Some r -> refused_in (c_trace c) = true) ->
  hands n fin left' c'.
Proof.
  intros [] c' Hleft Hr Hm Hx. split; try done; [by apply (sending_same iss c)|by destruct hd_stands0|].
  by rewrite Hleft.
Qed.

(** ** The sent callback *)

Lemma hands_attentive n fin left c : hands n fin left c -> c_input_pcb c = true -> attentive iss c.
Proof. intros Hh Hi. pose proof (hands_callable _ _ _ _ Hh). by destruct Hh. Qed.

Lemma moved_trans x y z : moved x y -> moved y z -> moved x z.
Proof. intros [->|[[[->| ->] ->]|[-> ->]]] [->|[[[?|?] ->]|[? ->]]]; unfold moved; simplify_eq; auto 6. Qed.

(** A callback of the input that may close the connection. *)
Lemma call_closing_ok a mk n fin left c :
  hands n fin left c -> c_input_pcb c = true -> calm (a (c_trace c)) \/ closing (a (c_trace c)) ->
  twp (call_app a mk) (fun e c' => exists c1, e <> ERR_ABRT /\ callback_post iss e c c1 /\
    c' = set_trace (c_trace c1 ++ [mk e]) c1) c.
Proof.
  intros Hh Hi Ha. unfold call_app. apply twp_bind, twp_gets, twp_bind.
  eapply (twp_mono _ (fun e c' => e <> ERR_ABRT /\ callback_post iss e c c')).
  - destruct Ha as [Hc|Hc]; [|by eapply run_closing_ok, Hc; eapply hands_attentive].
    eapply twp_mono; [by apply (run_app_ok iss); [apply Hh|apply Hh|by eapply hands_callable|]|].
    intros e c1 (Hk & Hc1 & He & Hs). split; [done|]. left. split_and!; [|done|done|by left; apply Hs].
    rewrite (kp_live _ _ Hk). apply Hh.
  - intros e c1 [He Hp]. apply twp_bind, twp_emit, twp_ret. by exists c1.
Qed.

Lemma report_sent_silent fuel : forall acked c,
  c_live c = true -> cb_sent (cb (c_pcb c)) = false -> 0 <= acked < 2 ^ 32 -> acked <= 65535 * (Z.of_nat fuel - 1) ->
  twp (report_sent fuel acked) (fun go c' => go = true /\ c' = c) c.
Proof.
  induction fuel as [|fuel IH]; intros acked c Hl Hs Ha Hf; [lia|]. cbn [report_sent].
  destruct (Z.ltb_spec 0 acked) as [Hpos|]; [|by apply twp_ret].
  rewrite (wrap_small 16) by (unfold fits; lia). apply twp_bind. unfold TCP_EVENT_SENT.
  apply twp_bind, twp_pcb; [done|]. rewrite Hs. apply twp_ret. rewrite bool_decide_false by done.
  rewrite wrap_small by (unfold fits; lia). apply IH; [done|done|lia|lia].
Qed.

Lemma report_sent_ok n fin left fuel : forall acked c,
  hands n fin left c -> c_input_pcb c = true -> 0 <= acked < 2 ^ 32 -> acked <= 65535 * (Z.of_nat fuel - 1) ->
  twp (report_sent fuel acked) (fun go c' => go = true /\ callback_post iss ERR_OK c c') c.
Proof.
  induction fuel as [|fuel IH]; intros acked c Hh Hi Ha Hf; [lia|]. cbn [report_sent].
  pose proof (hd_sending _ _ _ _ Hh) as Hc. destruct (Z.ltb_spec 0 acked) as [Hpos|].
  2:{ apply twp_ret. split; [done|]. left. split_and!; [apply Hh|done|done|by left]. }
  rewrite (wrap_small 16) by (unfold fits; lia). apply twp_bind.
  eapply (twp_mono _ (fun e c' => e <> ERR_ABRT /\ callback_post iss ERR_OK c c')).
  - unfold TCP_EVENT_SENT. apply twp_bind, twp_pcb; [apply Hh|]. destruct (cb_sent _).
    + eapply twp_mono; [by apply (call_closing_ok _ _ n fin left); [| |apply app_orderly]|].
      intros e c' (c1 & He & Hp & ->). split; [done|].
      apply callback_event; [|done|done]. destruct Hp as [?|[_ ?]]; [by left|by right].
    + apply twp_ret. split; [done|]. left. split_and!; [apply Hh|done|done|by left].
  - intros e c1 [He Hp]. rewrite bool_decide_false by done. rewrite wrap_small by (unfold fits; lia).
    destruct Hp as [(Hl1 & Hc1 & Hk & Hm)|[_ Hlv]].
    + eapply twp_mono; [apply IH; [by eapply hands_moved|by rewrite (kp_input _ _ Hk)|lia|lia]|].
      intros go c2 [-> Hp]. split; [done|]. destruct Hp as [(Hl2 & Hc2 & Hk2 & Hm2)|[_ Hlv]].
      * left. split_and!; [done|done|by transitivity c1|by eapply moved_trans].
      * right. split; [done|]. by eapply leaves_kept.
    + eapply twp_mono; [apply report_sent_silent; [apply Hlv|apply Hlv|lia|lia]|].
      intros go c2 [-> ->]. split; [done|]. by right.
Qed.

Lemma report_fuel_enough acked : 0 <= acked -> acked <= 65535 * (Z.of_nat (report_fuel acked) - 1).
Proof.
  intros Ha. unfold report_fuel. pose proof (Z.mod_pos_bound acked 0xffff). pose proof (Z.div_mod acked 0xffff).
  assert (0 <= acked / 0xffff) by (by apply Z.div_pos). lia.
Qed.

(** ** The end of the connection *)

Lemma err_call_ok errf arg e c :
  sending iss c ->
  twp (TCP_EVENT_ERR errf arg e) (fun _ c' => exists es, c' = set_trace (c_trace c ++ es) c /\
    Forall quiet_event es /\ sending iss c') c.
Proof.
  intros Hc. unfold TCP_EVENT_ERR. apply twp_when; intros _.
  - apply twp_emit. eexists. split_and!; [done|by apply Forall_singleton|]. by apply sending_app_event.
  - exists []. rewrite app_nil_r. split_and!; [by destruct c|done|done].
Qed.

(** The connection leaves its list and goes back to its pool. *)
Lemma remove_free_ok {A} (a : A) c c0 :
  c_live c = true -> sending iss c -> on_list ActiveList c -> quiet (c_trace c0) (c_trace c) ->
  c_in c = c_in c0 -> c_input_pcb c = c_input_pcb c0 ->
  twp (_ ← tcp_pcb_remove ActiveList; _ ← tcp_free; mret a) (fun b c' => b = a /\ ended iss c0 c') c.
Proof.
  intros Hl Hc Hon Hq Hi Hp. apply twp_bind. eapply twp_mono; [by apply (remove_ok iss ActiveList)|].
  intros _ c2 (Hl2 & _ & Hc2 & Hq2 & Hi2 & Hp2). apply twp_bind.
  eapply twp_mono; [by apply (free_ok iss)|]. intros _ c3 ->. apply twp_ret. split; [done|].
  split; [done|apply Hc2| |cbn; congruence|cbn; congruence]. by transitivity (c_trace c).
Qed.

Lemma delayed_close_ok c :
  c_live c = true -> sending iss c -> (has (recv_flags (c_in c)) TF_CLOSED = true -> on_list ActiveList c) ->
  twp tcp_input_delayed_close (fun b c' =>
    if b then has (recv_flags (c_in c)) TF_CLOSED = true /\ ended iss c c'
    else has (recv_flags (c_in c)) TF_CLOSED = false /\ c' = c) c.
Proof.
  intros Hl Hc Hon. unfold tcp_input_delayed_close. apply twp_bind, twp_in.
  destruct (has _ _); [|by apply twp_ret]. specialize (Hon eq_refl).
  apply twp_bind, twp_pcb; [done|]. apply twp_bind.
  eapply (twp_mono _ (fun _ c' => exists es, c' = set_trace (c_trace c ++ es) c /\ Forall quiet_event es /\
    sending iss c')).
  { apply twp_when; intros _; [by apply err_call_ok|].
    exists []. rewrite app_nil_r. split_and!; [by destruct c|done|done]. }
  intros _ c1 (es & -> & Hes & Hc1).
  eapply twp_mono; [by apply (remove_free_ok true _ c); [done|done|done|exists es| |]|].
  intros b c2 [-> He]. done.
Qed.

(** ** Data and the end of the stream, handed over *)

(** What a call of the application leaves alone. *)
Record stays c c' : Prop := mk_stays {
  sy_list : c_list c' = c_list c;
  sy_in : c_in c' = c_in c;
  sy_input : c_input_pcb c' = c_input_pcb c;
  sy_refused : refused_data (rx (c_pcb c')) = refused_data (rx (c_pcb c));
  sy_same : same_state c c';
  sy_refusal : refused_in (c_trace c) = true -> refused_in (c_trace c') = true;
}.

Lemma stays_compose a b c : stays a b -> stays b c -> stays a c.
Proof. intros [] []. split; try congruence; [by eapply same_state_trans|auto]. Qed.

Lemma kept_stays c c' : kept c c' -> same_state c c' -> stays c c'.
Proof. intros [] ?. split; try done. by apply refused_quiet. Qed.

Lemma event_stays e c : stays c (set_trace (c_trace c ++ [e]) c).
Proof. split; try done. cbn. intros Ht. by rewrite existsb_app, Ht. Qed.

Lemma hands_event n fin left e c :
  hands n fin (taken_by e ++ left) c -> refused_data (rx (c_pcb c)) = None -> app_event e ->
  (forall a r, e = ClosedCall a r -> taken (c_trace c) = stream) ->
  hands n fin left (set_trace (c_trace c ++ [e]) c).
Proof.
  intros [] Hr He Hcl. unfold refused_bytes in *. rewrite Hr in hd_left0. simpl in hd_left0.
  split; try done; cbn [c_trace set_trace c_pcb].
  - by apply sending_app_event.
  - by destruct hd_stands0.
  - apply received_snoc; [done| |done]. exists (left ++ zdrop n stream).
    replace (taken (c_trace c) ++ taken_by e ++ left ++ zdrop n stream)
      with ((taken (c_trace c) ++ taken_by e ++ left) ++ zdrop n stream) by (by rewrite <- !app_assoc).
    rewrite hd_left0. by rewrite ztake_zdrop.
  - unfold refused_bytes. rewrite Hr. simpl. rewrite <- hd_left0, taken_app. unfold taken at 2. simpl.
    by rewrite app_nil_r, <- app_assoc.
  - rewrite Hr. by intros [? ?].
Qed.

(** The receive callback does not close now. *)
Definition keeps_open (d : option (list Z)) c : Prop :=
  cb_recv (cb (c_pcb c)) = Some app_recv_fn -> calm (on_recv env_app (callback_arg (cb (c_pcb c))) (c_trace c) d).

Lemma refused_keeps_open n fin left d c :
  hands n fin left c -> refused_in (c_trace c) = true -> keeps_open d c.
Proof.
  intros Hh Hr Hcb. destruct (or_recv _ app_orderly _ (c_trace c) d (hd_armed _ _ _ _ Hh Hcb)) as [?|[_ ?]]; [done|congruence].
Qed.

Lemma open_or_closing n fin left d c :
  hands n fin left c -> keeps_open d c \/
  (cb_recv (cb (c_pcb c)) = Some app_recv_fn /\ closing (on_recv env_app (callback_arg (cb (c_pcb c))) (c_trace c) d)).
Proof.
  intros Hh. unfold keeps_open. destruct (cb_recv (cb (c_pcb c))) as [[|]|] eqn:Hcb; [by left| |by left].
  destruct (or_recv _ app_orderly _ (c_trace c) d (hd_armed _ _ _ _ Hh Hcb)) as [?|[? _]]; auto.
Qed.

Lemma recv_event_ok n fin left data c :
  hands n fin (data ++ left) c -> refused_data (rx (c_pcb c)) = None -> keeps_open (Some data) c ->
  twp (TCP_EVENT_RECV data) (fun err c' => err <> ERR_ABRT /\ stays c c' /\
    hands n fin (if bool_decide (err = ERR_OK) then left else data ++ left) c' /\
    (err <> ERR_OK -> cb_recv (cb (c_pcb c')) <> Some tcp_recv_null_fn /\ refused_in (c_trace c') = true)) c.
Proof.
  intros Hh Hr Hopen. unfold TCP_EVENT_RECV. pose proof (hd_sending _ _ _ _ Hh) as Hc.
  apply twp_bind, twp_pcb; [apply Hh|].
  assert (twp (tcp_recv_null (Some data)) (fun err c' => err <> ERR_ABRT /\ stays c c' /\
    hands n fin (if bool_decide (err = ERR_OK) then left else data ++ left) c' /\
    (err <> ERR_OK -> cb_recv (cb (c_pcb c')) <> Some tcp_recv_null_fn /\ refused_in (c_trace c') = true)) c) as Hnull.
  { simpl. apply twp_bind. eapply twp_mono; [apply recved_ok; [apply Hh|done|apply zlen_nonneg]|].
    intros _ c1 (Hk & Hc1 & Hst & Hcb). apply twp_bind, twp_emit, twp_ret.
    assert (same_state c c1) as Hs by (split; [done|by rewrite Hcb]).
    split_and!; [done| |simpl|done].
    - eapply stays_compose; [by eapply kept_stays|apply event_stays].
    - apply hands_event; [by eapply hands_kept|by rewrite (kp_refused _ _ Hk)|done|done]. }
  destruct (cb_recv (cb (c_pcb c))) as [[|]|] eqn:Hcb; [done| |done].
  eapply twp_mono; [apply call_app_ok; try done; [apply Hh|by eapply hands_callable|by apply Hopen]|].
  intros err c' (c1 & Hk & Hs & He & Hc1 & Hc' & ->). split_and!; [done| | |].
  - eapply stays_compose; [by eapply kept_stays|apply event_stays].
  - assert (hands n fin (data ++ left) c1) as Hh1.
    { by eapply hands_kept. }
    apply hands_event; [|by rewrite (kp_refused _ _ Hk)|done|done]. simpl. by case_bool_decide.
  - intros Hne. split.
    + intros Hn. cbn [c_pcb set_trace] in Hn. apply Hs in Hn. congruence.
    + cbn. rewrite existsb_app. cbn. rewrite bool_decide_false by done. by rewrite orb_true_r.
Qed.

Lemma all_taken n c :
  hands n true [] c -> refused_data (rx (c_pcb c)) = None -> taken (c_trace c) = stream.
Proof.
  intros Hh Hr. pose proof (hd_left _ _ _ _ Hh) as He. unfold refused_bytes in He. rewrite Hr, app_nil_r in He. simpl in He.
  rewrite He, (sn_end _ _ _ _ _ (hd_stands _ _ _ _ Hh) eq_refl). apply ztake_all. lia.
Qed.

(** Everything was handed over; the application is told. *)
Lemma closed_event_ok n c :
  hands n true [] c -> refused_data (rx (c_pcb c)) = None ->
  cb_recv (cb (c_pcb c)) <> Some tcp_recv_null_fn -> keeps_open None c ->
  twp TCP_EVENT_CLOSED (fun err c' => err <> ERR_ABRT /\ stays c c' /\ hands n true [] c') c.
Proof.
  intros Hh Hr Hcb Hopen. unfold TCP_EVENT_CLOSED. pose proof (hd_sending _ _ _ _ Hh) as Hc.
  pose proof (all_taken n c Hh Hr) as Hall.
  apply twp_bind, twp_pcb; [apply Hh|].
  destruct (cb_recv (cb (c_pcb c))) as [[|]|] eqn:Hcb'; [done| |by apply twp_ret].
  eapply twp_mono; [apply call_app_ok; try done; [apply Hh|by eapply hands_callable|by apply Hopen]|].
  intros err c' (c1 & Hk & Hs & He & Hc1 & Hc' & ->). split_and!; [done| |].
  - eapply stays_compose; [by eapply kept_stays|apply event_stays].
  - apply hands_event; [by eapply hands_kept|by rewrite (kp_refused _ _ Hk)|done|].
    intros a r _. by rewrite (taken_quiet _ _ (kp_quiet _ _ Hk)).
Qed.

(** Closed by the application while a segment is processed, with the connection reset:
    the end of the input frees it. *)
Record parting c : Prop := mk_parting {
  pt_live : c_live c = true;
  pt_list : c_list c = NoList;
  pt_sending : sending iss c;
  pt_closed : has (recv_flags (c_in c)) TF_CLOSED = true;
  pt_received : received (c_trace c);
}.

(** Nobody listens to it any more, nothing is left to hand over. *)
Definition deaf c : Prop := refused_data (rx (c_pcb c)) = None /\ cb_recv (cb (c_pcb c)) = None.

Lemma leaves_parting c c' : received (c_trace c) -> leaves iss c c' -> parting c' /\ deaf c'.
Proof. intros Hr []. split; [|done]. split; try done. by eapply received_quiet. Qed.

(** The event of a callback that closed or did not. *)
Lemma callback_hands e ev n fin left c c' :
  hands n fin (taken_by ev ++ left) c -> refused_data (rx (c_pcb c)) = None -> callback_post iss e c c' ->
  app_event ev -> (forall a r, ev = ClosedCall a r -> taken (c_trace c) = stream) ->
  let c2 := set_trace (c_trace c' ++ [ev]) c' in
  (c_list c2 = c_list c /\ c_in c2 = c_in c /\ c_input_pcb c2 = c_input_pcb c /\
   refused_data (rx (c_pcb c2)) = None /\ hands n fin left c2) \/
  (e = ERR_OK /\ parting c2 /\ deaf c2).
Proof.
  intros Hh Hr [(Hl & Hc & Hk & Hm)|[He Hlv]] Ha Hcl c2; [left|right].
  - split_and!; [apply Hk|apply Hk|apply Hk|by rewrite <- (kp_refused _ _ Hk) in Hr|].
    apply hands_event; [by eapply hands_moved|by rewrite (kp_refused _ _ Hk)|done|].
    intros a r Hev. rewrite (taken_quiet _ _ (kp_quiet _ _ Hk)). by eapply Hcl.
  - split; [done|]. pose proof (taken_quiet _ _ (lv_quiet _ _ _ Hlv)) as Ht.
    destruct (leaves_parting c c' (hd_received _ _ _ _ Hh) Hlv) as [[] Hdeaf]. split; [|done].
    split; try done; [by apply sending_app_event|]. apply received_snoc; [done| |].
    + rewrite Ht. pose proof (hd_left _ _ _ _ Hh) as He2. unfold refused_bytes in He2. rewrite Hr in He2. simpl in He2.
      exists (left ++ zdrop n stream). rewrite <- (ztake_zdrop n stream) at 2. rewrite <- He2. by rewrite <- !app_assoc.
    + intros a r Hev. rewrite Ht. by eapply Hcl.
Qed.

(** Data, while a segment is processed. *)
Lemma recv_input_ok n fin left data c :
  hands n fin (data ++ left) c -> refused_data (rx (c_pcb c)) = None -> c_input_pcb c = true ->
  twp (TCP_EVENT_RECV data) (fun err c' => err <> ERR_ABRT /\
    ((c_list c' = c_list c /\ c_in c' = c_in c /\ c_input_pcb c' = c_input_pcb c /\ refused_data (rx (c_pcb c')) = None /\
      hands n fin (if bool_decide (err = ERR_OK) then left else data ++ left) c' /\
      (err <> ERR_OK -> cb_recv (cb (c_pcb c')) <> Some tcp_recv_null_fn /\ refused_in (c_trace c') = true)) \/
     (err = ERR_OK /\ parting c' /\ deaf c'))) c.
Proof.
  intros Hh Hr Hi. destruct (open_or_closing n fin (data ++ left) (Some data) c Hh) as [Hopen|[Hcb Hcl]].
  - eapply twp_mono; [by apply (recv_event_ok n fin left)|]. intros err c' (He & [] & Hh' & Hx). split; [done|]. left.
    by split_and!; [..|congruence| |].
  - unfold TCP_EVENT_RECV. apply twp_bind, twp_pcb; [apply Hh|]. rewrite Hcb.
    eapply twp_mono; [apply (call_closing_ok _ _ n fin (data ++ left)); [done|done|by right]|].
    intros err c' (c1 & He & Hp & ->). split; [done|].
    assert (cb_recv (cb (c_pcb c1)) <> Some tcp_recv_null_fn) as Hnull.
    { destruct Hp as [(_ & _ & Hk & _)|[_ Hlv]]; [|by rewrite (lv_deaf _ _ _ Hlv)]. intros Hn. apply (kp_recv _ _ Hk) in Hn. congruence. }
    destruct (callback_hands err (RecvCall (callback_arg (cb (c_pcb c))) data err) n fin
      (if bool_decide (err = ERR_OK) then left else data ++ left) c c1) as [(H1 & H2 & H3 & H4 & H5)|?];
      [simpl; by case_bool_decide|done..| |by right].
    left. split_and!; try done. intros Hne. split; [done|].
    cbn. rewrite existsb_app. cbn. rewrite bool_decide_false by done. by rewrite orb_true_r.
Qed.

(** The end of the stream, while a segment is processed. *)
Lemma closed_input_ok n c :
  hands n true [] c -> refused_data (rx (c_pcb c)) = None -> c_input_pcb c = true ->
  twp TCP_EVENT_CLOSED (fun err c' => err <> ERR_ABRT /\
    ((c_list c' = c_list c /\ c_in c' = c_in c /\ hands n true [] c') \/ parting c')) c.
Proof.
  intros Hh Hr Hi. unfold TCP_EVENT_CLOSED.
  destruct (open_or_closing n true [] None c Hh) as [Hopen|[Hcb Hcl]].
  - assert (cb_recv (cb (c_pcb c)) = Some tcp_recv_null_fn \/ cb_recv (cb (c_pcb c)) <> Some tcp_recv_null_fn) as [Hn|Hn]
      by (destruct (cb_recv _) as [[]|]; auto).
    2:{ eapply twp_mono; [by apply (closed_event_ok n)|]. intros err c' (He & [] & Hh'). auto. }
    apply twp_bind, twp_pcb; [apply Hh|]. rewrite Hn. simpl.
    pose proof (hd_open _ _ _ _ Hh) as (Ho1 & _ & Ho3).
    eapply twp_mono; [apply close_ok; apply Hh|]. intros err c' (-> & Hp). split; [done|].
    destruct Hp as [(Hl & Hc' & Hk & Hm)|[[_ []]|[[?|[?|?]] _]]]; try congruence; [|right].
    + left. split_and!; [apply Hk|apply Hk|by eapply hands_moved].
    + split; try done; [rewrite tg_in; cbn; rewrite has_lor; by rewrite orb_comm|].
      eapply received_quiet; [done|apply Hh].
  - apply twp_bind, twp_pcb; [apply Hh|]. rewrite Hcb.
    eapply twp_mono; [apply (call_closing_ok _ _ n true []); [done|done|by right]|].
    intros err c' (c1 & He & Hp & ->). split; [done|].
    destruct (callback_hands err (ClosedCall (callback_arg (cb (c_pcb c))) err) n true [] c c1) as [(H1 & H2 & _ & _ & H5)|(_ & ? & _)];
      [done..| |by left|by right]. intros a r _. by apply (all_taken n).
Qed.

Lemma reopen_ok n fin left c :
  hands n fin left c ->
  twp reopen_for_fin (fun _ c' => stays c c' /\ hands n fin left c') c.
Proof.
  intros Hh. unfold reopen_for_fin. apply twp_bind, twp_pcb; [apply Hh|]. apply twp_when; intros Hw; [|done].
  apply twp_upd_pcb; [apply Hh|]. split; [done|]. pose proof (wnd_max_pos (c_pcb c)).
  destruct Hh, hd_stands0. split; try done; [by apply (sending_same iss c)|]. split; try done.
  unfold wnd_ok in *. cbn. change (TCP_WND_MAX (set_rx _ _)) with (TCP_WND_MAX (c_pcb c)).
  apply negb_true_iff, Z.eqb_neq in Hw. rewrite wrap_small by (unfold fits; lia). lia.
Qed.

Definition pending (i : input) : list Z :=
  match recv_data i with Some b => rp_data b | None => [] end.

Lemma deliver_data_ok n fin left c :
  hands n fin (pending (c_in c) ++ left) c -> c_input_pcb c = true ->
  (forall b, recv_data (c_in c) = Some b ->
     refused_data (rx (c_pcb c)) = None /\ has (rp_flags b) PBUF_FLAG_TCP_FIN = false) ->
  twp deliver_data (fun go c' => (go = false /\ gone c') \/
    (go = true /\ ((c_list c' = c_list c /\ c_in c' = c_in c /\ c_input_pcb c' = c_input_pcb c /\ hands n fin left c') \/
     (parting c' /\ deaf c')))) c.
Proof.
  intros Hh Hi Hd. unfold deliver_data, pending in *. apply twp_bind, twp_in.
  destruct (recv_data (c_in c)) as [b|] eqn:Hb.
  2:{ apply twp_ret. right. split; [done|]. by left. }
  destruct (Hd b eq_refl) as [Hr Hfl]. apply twp_bind, twp_pcb; [apply Hh|].
  apply twp_bind, twp_assert; [by rewrite Hr|]. destruct (has _ TF_RXCLOSED).
  - apply twp_bind, twp_emit, twp_bind.
    eapply twp_mono; [apply (abandon_ok iss); [apply Hh|by apply sending_app_event; [apply Hh|]|apply Hh]|].
    intros u c1 He. apply twp_ret. left. split; [done|]. eapply ended_gone; [|exact He].
    eapply received_quiet; [by apply quiet_one|apply Hh].
  - apply twp_bind. eapply twp_mono; [by apply (recv_input_ok n fin left)|].
    intros err c1 (He & Hp). rewrite bool_decide_false by done. apply twp_bind.
    destruct Hp as [(Hlist & Hin & Hip & Hr1 & Hh1 & Hcb)|(-> & Hpart & Hdeaf)].
    2:{ rewrite bool_decide_true by done. cbn [negb when]. apply twp_ret, twp_ret. right. split; [done|]. by right. }
    eapply (twp_mono _ (fun _ c' => c_list c' = c_list c /\ c_in c' = c_in c /\
      c_input_pcb c' = c_input_pcb c /\ hands n fin left c')).
    + apply twp_when; intros Hne; case_bool_decide as Hok; try done.
      apply twp_upd_pcb; [apply Hh1|]. split_and!; try done.
      eapply hands_refused; [exact Hh1| |by intros _; apply Hcb|intros b' [= <-]; by rewrite Hfl|by intros _; apply Hcb].
      unfold refused_bytes. cbn. by rewrite Hr1.
    + intros _ c2 Hc2. apply twp_ret. right. split; [done|]. by left.
Qed.

(** The end of the stream is reported, or noted on the data that was refused. *)
Lemma deliver_fin_ok n fin left c :
  hands n fin left c -> c_input_pcb c = true ->
  (has (recv_flags (c_in c)) TF_GOT_FIN = true -> fin = true /\ left = []) ->
  twp deliver_fin (fun go c' => go = true /\
    ((c_list c' = c_list c /\ c_in c' = c_in c /\ hands n fin left c') \/ parting c')) c.
Proof.
  intros Hh Hi Hg. unfold deliver_fin. apply twp_bind, twp_in. destruct (has _ TF_GOT_FIN).
  2:{ apply twp_ret. auto. }
  destruct (Hg eq_refl) as [-> ->]. apply twp_bind, twp_pcb; [apply Hh|].
  destruct (refused_data (rx (c_pcb c))) as [b|] eqn:Hr.
  - apply twp_bind, twp_upd_pcb; [apply Hh|]. apply twp_ret. split; [done|]. left. split_and!; [done|done|].
    eapply hands_refused; [exact Hh| | |done|].
    + unfold refused_bytes. cbn. by rewrite Hr.
    + intros _. apply (hd_refused _ _ _ _ Hh). by rewrite Hr.
    + intros _. apply (hd_refusal _ _ _ _ Hh). by rewrite Hr.
  - apply twp_bind. eapply twp_mono; [by apply (reopen_ok n true [])|]. intros _ c1 [Hst Hh1]. destruct Hst.
    apply twp_bind. eapply twp_mono; [apply (closed_input_ok n); [done|congruence|congruence]|].
    intros err c2 (He & Hp). apply twp_ret. rewrite bool_decide_false by done. split; [done|].
    destruct Hp as [(Hl & Hi2 & Hh2)|?]; [left|by right]. split_and!; [congruence|congruence|done].
Qed.

(** Nobody is told. *)
Lemma deliver_fin_deaf c :
  parting c -> deaf c -> twp deliver_fin (fun go c' => go = true /\ parting c') c.
Proof.
  intros Hp [Hr Hd]. pose proof Hp as []. unfold deliver_fin. apply twp_bind, twp_in.
  destruct (has _ TF_GOT_FIN); [|by apply twp_ret]. apply twp_bind, twp_pcb; [done|]. rewrite Hr. apply twp_bind.
  eapply (twp_mono _ (fun _ c' => parting c' /\ deaf c')).
  - unfold reopen_for_fin. apply twp_bind, twp_pcb; [done|]. apply twp_when; intros _; [|done].
    apply twp_upd_pcb; [done|]. split; [|done]. split; try done. by apply (sending_same iss c).
  - intros _ c1 [Hp1 [_ Hd1]]. apply twp_bind. unfold TCP_EVENT_CLOSED. apply twp_bind, twp_pcb; [apply Hp1|].
    rewrite Hd1. apply twp_ret, twp_ret. done.
Qed.

(** ** After [tcp_process] *)

Record after (n : Z) (fin : bool) (left : list Z) c : Prop := mk_after {
  af_hands : hands n fin (pending (c_in c) ++ left) c;
  af_input : c_input_pcb c = true;
  af_data : forall b, recv_data (c_in c) = Some b ->
            refused_data (rx (c_pcb c)) = None /\ has (rp_flags b) PBUF_FLAG_TCP_FIN = false;
  af_got : has (recv_flags (c_in c)) TF_GOT_FIN = true -> fin = true /\ left = [];
  af_acked : 0 <= recv_acked (c_in c) < 2 ^ 32;
  af_list : has (recv_flags (c_in c)) TF_RESET = true \/ has (recv_flags (c_in c)) TF_CLOSED = true ->
            c_list c = ActiveList;
}.

Lemma hands_in n fin left i c : hands n fin left c -> hands n fin left (set_in i c).
Proof. intros []. split; try done; [by apply (sending_same iss c)|by destruct hd_stands0]. Qed.

Lemma hands_input n fin left b c : hands n fin left c -> hands n fin left (set_input_pcb b c).
Proof. intros []. split; try done; [by apply (sending_same iss c)|by destruct hd_stands0]. Qed.

Lemma hands_active n fin left c : hands n fin left c -> c_list c = ActiveList -> on_list ActiveList c.
Proof.
  intros [] Ha. apply listed_active; [done|apply hd_open0|]. intros Hs. unfold listed in *.
  by rewrite Hs, Ha in hd_listed0.
Qed.

Lemma acked_ok n fin left c :
  after n fin left c ->
  twp (if 0 <? recv_acked (c_in c) then
         go ← report_sent (report_fuel (recv_acked (c_in c))) (recv_acked (c_in c));
         _ ← when go (upd_in (set_recv_acked 0));
         mret go
       else mret true)
    (fun go c' => go = true /\ ((after n fin left c' /\ c_list c' = c_list c) \/ parting c')) c.
Proof.
  intros Ha. pose proof Ha as []. destruct (_ <? _); [|apply twp_ret; by auto].
  apply twp_bind. eapply twp_mono; [by eapply report_sent_ok; [| |lia|apply report_fuel_enough; lia]|].
  intros go c1 (-> & Hp). apply twp_bind, twp_upd_in, twp_ret. split; [done|].
  destruct Hp as [(Hl1 & Hc1 & Hk & Hm)|[_ Hlv]]; [left|right].
  - split; [|apply Hk]. pose proof (hands_moved _ _ _ _ _ af_hands0 Hk Hm Hc1) as Hh1.
    pose proof (hands_in _ _ _ (set_recv_acked 0 (c_in c1)) _ Hh1) as Hh2.
    destruct Hk. split; cbn [c_in set_in c_input_pcb c_pcb c_list]; rewrite ?kp_in in *; cbn; try congruence; try done.
    + intros b Hb. rewrite kp_refused. by apply af_data0.
    + intros Hx. rewrite kp_list. auto.
  - destruct (leaves_parting _ _ (hd_received _ _ _ _ af_hands0) Hlv) as [[] _]. split; try done.
    by apply (sending_same iss c1).
Qed.

(** At the end the connection is gone, or has handed over what it could. *)
Definition settles (n : Z) (fin : bool) (left : list Z) c c' : Prop :=
  gone c' \/ (hands n fin left c' /\ c_list c' = c_list c).

Lemma finish_ok n fin left c :
  hands n fin left c -> (has (recv_flags (c_in c)) TF_CLOSED = true -> c_list c = ActiveList) ->
  twp (_ ← modify (set_input_pcb false);
       closed ← tcp_input_delayed_close;
       if (closed : bool) then mret tt else
       _ ← tcp_output;
       mret tt) (fun _ c' => settles n fin left c c') c.
Proof.
  intros Hh Hcl. apply twp_bind, twp_modify.
  pose proof (hands_input _ _ _ false _ Hh) as Hh1.
  apply twp_bind. eapply twp_mono; [apply delayed_close_ok; [apply Hh1|apply Hh1|]|].
  { intros Hx. by eapply hands_active, Hcl. }
  intros [|] c1 Hc1; apply proj2 in Hc1.
  - apply twp_ret. left. eapply ended_gone; [|exact Hc1]. apply Hh1.
  - subst c1. apply twp_bind. eapply twp_mono; [apply output_ok; [apply Hh1|apply Hh1]|].
    intros e c2 (Hs2 & Hc2 & _). apply twp_ret. right. split; [by eapply hands_steps|apply Hs2].
Qed.

(** The end of the input frees a connection that was closed. *)
Lemma parting_ends (Q : unit -> conn -> Prop) k c :
  parting c -> (forall c', gone c' -> Q tt c') ->
  twp (closed ← tcp_input_delayed_close; if (closed : bool) then mret tt else k) Q c.
Proof.
  intros [] HQ. apply twp_bind. eapply twp_mono; [apply delayed_close_ok; [done|done|]|].
  { intros _. split; [by right|]. by rewrite pt_list0. }
  intros b c1 Hc1. rewrite pt_closed0 in Hc1. destruct b; [|by destruct Hc1].
  apply twp_ret, HQ. eapply ended_gone; [|apply Hc1]. done.
Qed.

Lemma parting_input b c : parting c -> parting (set_input_pcb b c).
Proof. intros []. split; try done. by apply (sending_same iss c). Qed.

Lemma input_events_ok n fin left c :
  after n fin left c -> (left <> [] -> recv_data (c_in c) = None) ->
  twp tcp_input_events (fun _ c' => settles n fin left c c') c.
Proof.
  intros Ha Hleft. pose proof Ha as [Hh _ _ _ _ Hact]. unfold tcp_input_events. apply twp_bind, twp_in.
  destruct (has _ TF_RESET) eqn:Hrst.
  { apply twp_bind, twp_pcb; [apply Hh|]. apply twp_bind.
    eapply twp_mono; [by apply err_call_ok, Hh|]. intros _ c1 (es & -> & Hes & Hc1).
    assert (on_list ActiveList c) as Hon by (by eapply hands_active, Hact; auto).
    apply (twp_bind _ _). eapply twp_mono; [apply (remove_ok iss ActiveList); [apply Hh|done|exact Hon]|].
    intros _ c2 (Hl2 & _ & Hc2 & Hq2 & Hi2 & Hp2). eapply twp_mono; [by apply (free_ok iss)|].
    intros _ c3 ->. left. eapply ended_gone; [apply Hh|]. split; [done|apply Hc2| |done|done].
    transitivity (c_trace c ++ es); [by exists es|done]. }
  clear Hrst. apply twp_bind. eapply twp_mono; [by apply acked_ok|]. intros go c1 (-> & [[Ha1 Hlist1]|Hpart]).
  2:{ cbn [negb]. apply parting_ends; [done|]. intros c' Hg. by left. }
  clear Ha Hh Hact. pose proof Ha1 as [Hh1 Hi1 Hd1 Hg1 _ Hact1]. cbn [negb]. apply twp_bind.
  eapply twp_mono; [apply delayed_close_ok; [apply Hh1|apply Hh1|]|].
  { intros Hx. eapply hands_active; [done|]. auto. }
  intros [|] c2 Hc2; apply proj2 in Hc2 as Hc2'.
  { apply twp_ret. left. eapply ended_gone; [|exact Hc2']. apply Hh1. }
  destruct Hc2 as [Hncl ->]. clear Hc2'. apply twp_bind.
  eapply twp_mono; [by apply (deliver_data_ok n fin left)|].
  intros go c2 [[-> Hgone]|(-> & [(Hl2 & Hi2 & Hp2 & Hh2)|[Hpart Hdeaf]])].
  { apply twp_ret. by left. }
  all: cbn [negb]; apply twp_bind.
  2:{ eapply twp_mono; [by apply deliver_fin_deaf|]. intros go c3 [-> Hp3]. cbn [negb]. apply twp_bind, twp_modify.
      apply parting_ends; [by apply parting_input|]. intros c' Hg. by left. }
  eapply twp_mono; [apply (deliver_fin_ok n fin left); [done|congruence|by rewrite Hi2]|].
  intros go c3 (-> & Hc3). cbn [negb].
  destruct Hc3 as [(Hl3 & Hi3 & Hh3)|Hpart].
  - eapply twp_mono; [apply (finish_ok n fin left); [done|]|].
    { rewrite Hi3, Hi2, Hncl. done. }
    intros _ c4 [Hg|[Hh4 Hl4]]; [by left|right]. split; [done|congruence].
  - apply twp_bind, twp_modify. apply parting_ends; [by apply parting_input|]. intros c' Hg. by left.
Qed.

(** ** Data that was refused *)

(** What handing over refused data leaves alone. *)
Record remains c c' : Prop := mk_remains {
  rm_list : c_list c' = c_list c;
  rm_in : c_in c' = c_in c;
  rm_input : c_input_pcb c' = c_input_pcb c;
  rm_same : same_state c c';
}.

Lemma stays_remains a b c : stays a b -> remains b c -> remains a c.
Proof. intros [] []. split; try congruence. by eapply same_state_trans. Qed.

Lemma refused_data_ok n fin b c :
  hands n fin [] c -> refused_data (rx (c_pcb c)) = Some b ->
  twp tcp_process_refused_data (fun err c' => err <> ERR_ABRT /\ remains c c' /\ hands n fin [] c') c.
Proof.
  intros Hh Hb. unfold tcp_process_refused_data. apply twp_bind, twp_pcb; [apply Hh|]. rewrite Hb.
  apply twp_bind, twp_upd_pcb; [apply Hh|].
  match goal with |- twp _ _ ?d => set (c1 := d) end.
  assert (hands n fin (rp_data b) c1) as Hh1.
  { eapply hands_refused; [exact Hh| |by intros [? ?]|done|by intros [? ?]].
    unfold refused_bytes. cbn. rewrite Hb. by rewrite app_nil_r. }
  assert (refused_in (c_trace c1) = true) as Hrf1 by (apply (hd_refusal _ _ _ _ Hh); by rewrite Hb).
  assert (cb_recv (cb (c_pcb c)) <> Some tcp_recv_null_fn) as Hcb by (apply (hd_refused _ _ _ _ Hh); by rewrite Hb).
  assert (forall c', stays c1 c' -> remains c c') as Hrem by (by intros c' []).
  apply twp_bind. eapply twp_mono; [apply (recv_event_ok n fin []); [by rewrite app_nil_r|done|by eapply refused_keeps_open]|].
  intros err c2 (He & Hs2 & Hh2 & Hcb2). case_bool_decide as Hok.
  - destruct (has _ PBUF_FLAG_TCP_FIN) eqn:Hm; [|apply twp_ret; by auto].
    assert (fin = true) as -> by (by eapply (hd_marked _ _ _ _ Hh)).
    apply twp_bind. eapply twp_mono; [by apply reopen_ok|]. intros _ c3 [Hs3 Hh3].
    pose proof (stays_compose _ _ _ Hs2 Hs3) as Hs13. apply twp_bind.
    eapply twp_mono; [apply (closed_event_ok n); [done|by rewrite (sy_refused _ _ Hs13)| |]|].
    { intros Hnull. by apply (sy_same _ _ Hs13) in Hnull. }
    { by eapply refused_keeps_open, (sy_refusal _ _ Hs13). }
    intros err2 c4 (He2 & Hs4 & Hh4). rewrite bool_decide_false by done. apply twp_ret.
    split_and!; [done|apply Hrem; by eapply stays_compose|done].
  - rewrite bool_decide_false by done. apply twp_bind, twp_upd_pcb; [apply Hh2|]. apply twp_ret.
    split_and!; [done|by apply Hrem in Hs2 as []|]. rewrite app_nil_r in Hh2.
    eapply hands_refused; [exact Hh2| |by intros _; apply Hcb2| |by intros _; apply Hcb2].
    + unfold refused_bytes. cbn. rewrite (sy_refused _ _ Hs2). cbn. by rewrite app_nil_r.
    + intros b' [= <-]. by apply (hd_marked _ _ _ _ Hh).
Qed.

Lemma retry_refused_ok n fin c :
  hands n fin [] c ->
  twp retry_refused (fun go c' => remains c c' /\ hands n fin [] c' /\
    (go = true -> 0 < tcplen (c_in c) -> refused_data (rx (c_pcb c')) = None)) c.
Proof.
  intros Hh. unfold retry_refused. apply twp_bind, twp_pcb; [apply Hh|].
  destruct (refused_data (rx (c_pcb c))) as [b|] eqn:Hb; [|by apply twp_ret].
  apply twp_bind. eapply twp_mono; [by apply (refused_data_ok n fin b)|]. intros err c1 (He & Hr & Hh1).
  rewrite bool_decide_false by done. apply twp_bind, twp_bind, twp_pcb; [apply Hh1|]. apply twp_bind, twp_in, twp_ret.
  rewrite (rm_in _ _ Hr). destruct (_ && _) eqn:Hd.
  - apply twp_bind, twp_pcb; [apply Hh1|]. apply twp_bind.
    eapply (twp_mono _ (fun _ c' => remains c c' /\ hands n fin [] c')); [|intros u c2 []; by apply twp_ret].
    apply twp_when; intros _; [|done]. apply twp_bind.
    eapply twp_mono; [by apply empty_ack_ok; [apply Hh1|apply Hh1]|]. intros e c2 (Hs2 & Hc2 & _). apply twp_ret.
    split; [|by eapply hands_steps]. pose proof (steps_same _ _ Hs2). destruct Hr, Hs2.
    split; try congruence. by eapply same_state_trans.
  - apply twp_ret. split_and!; [done|done|]. intros _ Hpos.
    apply andb_false_iff in Hd as [Hd|Hd%Z.ltb_ge]; [|lia]. apply bool_decide_eq_false in Hd.
    destruct (refused_data (rx (c_pcb c1))); [|done]. by destruct Hd.
Qed.

(** ** A segment for the connection *)

Lemma processed_after n fin c c' :
  hands n fin [] c -> c_input_pcb c = true -> processed iss irs stream n fin c c' ->
  exists next got left, after next (fin || got) left c' /\ (left <> [] -> recv_data (c_in c') = None) /\
    (left <> [] -> c_list c' = TimeWaitList).
Proof.
  intros Hh Hi [next got x Hr Hn He Hcw Hd Href Hfl Hx Hxl []]. pose proof Hh as [].
  rewrite app_nil_r in hd_left0.
  assert (has (recv_flags (c_in c')) TF_GOT_FIN = got) as Hgot.
  { rewrite Hfl, has_lor. destruct Hx as [->|[->| ->]], got; done. }
  assert (forall left,
    taken (c_trace c') ++ refused_bytes (c_pcb c') ++ pending (c_in c') ++ left = ztake next stream ->
    (got = true -> left = []) -> after next (fin || got) left c') as Hafter.
  { intros left Hleft Hgl. split; try done; try congruence.
    - split; try done; try congruence.
      + intros [Hf _]%orb_false_iff. rewrite sd_listener. auto.
      + split; try done. pose proof (sn_range _ _ _ _ _ hd_stands0). lia.
      + by eapply received_quiet.
      + intros Hs Hnull. destruct sd_refused as [Hs'|[Hs' _]]; rewrite Hs' in Hs; [|by destruct Hs].
        by apply (hd_refused0 Hs), sd_recv.
      + intros b Hb Hm. destruct sd_refused as [Hs'|[Hs' _]]; rewrite Hs' in Hb; [|done].
        by rewrite (hd_marked0 b Hb Hm).
      + by apply sd_armed.
      + intros Hs. eapply refused_quiet; [exact sd_quiet|]. apply hd_refusal0.
        destruct sd_refused as [<-|[Hs' _]]; [done|]. rewrite Hs' in Hs. by destruct Hs.
    - intros b Hb. rewrite Hb in Hd, Href. split; [|apply Hd]. rewrite Href in sd_refused by (left; done).
      by destruct sd_refused as [?|[? _]].
    - rewrite Hgot. intros ->. rewrite orb_true_r. auto.
    - intros Hz. apply Hxl. intros ->. rewrite Hfl, Z.lor_0_r in Hz. by destruct got, Hz. }
  pose proof (taken_quiet _ _ sd_quiet) as Ht. rewrite <- Ht in hd_left0.
  assert (refused_data (rx (c_pcb c)) = None \/ refused_data (rx (c_pcb c')) = refused_data (rx (c_pcb c)) \/
    (recv_data (c_in c') = None /\ got = false /\ refused_data (rx (c_pcb c')) = None /\ c_list c' = TimeWaitList))
    as Hcases.
  { destruct sd_refused as [?|[? ?]]; [auto|]. destruct (recv_data (c_in c')); [left; apply Href; by left|].
    destruct got; [left; apply Href; by right|]. auto 6. }
  assert (refused_data (rx (c_pcb c)) = None -> refused_data (rx (c_pcb c')) = None) as Hnone.
  { intros Hz. by destruct sd_refused as [->|[-> _]]. }
  destruct Hcases as [Hno|[Hs|(Hnd & -> & Hrn & Htw)]].
  - exists next, got, []. split_and!; [|done..]. apply Hafter; [|done]. rewrite app_nil_r.
    unfold refused_bytes, pending in *. rewrite (Hnone Hno). rewrite Hno in hd_left0. simpl in *.
    rewrite app_nil_r in hd_left0. rewrite hd_left0. destruct (recv_data (c_in c')); [apply Hd|].
    by rewrite app_nil_r, Hd.
  - exists next, got, []. split_and!; [|done..]. apply Hafter; [|done]. rewrite app_nil_r.
    unfold pending. destruct (recv_data (c_in c')) as [b|] eqn:Hb.
    + rewrite <- (proj1 Hd), <- hd_left0. unfold refused_bytes. rewrite Hs, Href by (left; done). simpl.
      by rewrite app_nil_r.
    + rewrite app_nil_r, Hd, <- hd_left0. unfold refused_bytes. by rewrite Hs.
  - exists next, false, (refused_bytes (c_pcb c)). split_and!; [|done..]. apply Hafter; [|done].
    unfold refused_bytes at 1, pending. rewrite Hrn, Hnd in *. simpl. by rewrite Hd.
Qed.

(** A segment that the peer may have sent: its data and its FIN are the stream's, its
    options change nothing. *)
Record of_peer c (s : in_segment) : Prop := mk_of_peer {
  op_options : options_ok (i_opts s);
  op_neutral : has (i_flags s) TCP_SYN = false \/ pcb_state (c_pcb c) = SYN_RCVD ->
               Forall (fun o => match o with
                                | MaxSegmentSize _ => False
                                | WindowScale _ => has (i_flags s) TCP_SYN = false
                                end) (options (i_opts s));
  op_len : tcp_segment_len s <= 65535;
  op_data : 0 < tcp_segment_len s -> has (i_flags s) TCP_SYN = false ->
            exists q, i_seqno s = u32 (irs + 1 + q) /\ piece stream q (i_data s) (i_flags s);
}.

(** Between two segments. *)
Inductive at_rest c : Prop :=
| rest_gone : gone c -> at_rest c
| rest_open (n : Z) (fin : bool) (left : list Z) :
    hands n fin left c -> (left <> [] -> c_list c = TimeWaitList) -> c_input_pcb c = false -> at_rest c.

Lemma input_fresh c s : of_peer c s -> fresh irs stream (input_globals s).
Proof.
  intros []. split; try done. intros Hpos Hsyn. cbn in Hpos, Hsyn. destruct (op_data0 Hpos Hsyn) as (q & Hq & Hp).
  exists q. apply (mk_holds _ _ _ _ (i_data s) (if has (i_flags s) TCP_PSH then PBUF_FLAG_PUSH else 0)); try done.
  by case_match.
Qed.

Lemma input_done_ok c :
  (gone c \/ exists n fin left, hands n fin left c /\ (left <> [] -> c_list c = TimeWaitList)) ->
  twp tcp_input_done (fun _ c' => at_rest c') c.
Proof.
  intros Hr. unfold tcp_input_done. apply twp_bind, twp_modify, twp_bind, twp_in, twp_bind.
  eapply (twp_mono _ (fun _ c' => exists es, c' = set_trace (c_trace c ++ es) (set_input_pcb false c) /\
    (es = [] \/ exists d, es = [DataFreed d]))).
  { destruct (inseg_p _) as [b|]; [apply twp_emit|apply twp_ret]; eexists.
    - split; [done|]. right. by eexists.
    - rewrite app_nil_r. split; [by destruct c|by left]. }
  intros _ c1 (es & -> & Hes). apply twp_upd_in. destruct Hr as [[]|(n & fin & left & Hh & Hl)].
  - left. split; cbn [c_live c_trace set_in set_trace set_input_pcb]; [done| |].
    + destruct Hes as [->|[d ->]]; [by rewrite app_nil_r|]. rewrite written_app. change (written [_]) with (@nil Z).
      rewrite app_nil_r. apply Forall_app. split; [done|]. by apply Forall_singleton.
    + eapply received_quiet; [|exact go_received0]. exists es. split; [done|].
      destruct Hes as [->|[d ->]]; [done|by apply Forall_singleton].
  - right with n fin left; [|done|done]. apply hands_in. apply (hands_input _ _ _ false) in Hh.
    destruct Hes as [->|[d ->]]; [by rewrite app_nil_r|].
    apply (hands_kept _ _ _ _ _ Hh); [|done|by apply (sending_app_event iss (set_input_pcb false c)); [apply Hh|]].
    split; try done. by apply quiet_one.
Qed.

Lemma input_pcb_ok c s :
  at_rest c -> c_live c = true -> c_list c = ActiveList -> of_peer c s ->
  twp (tcp_input_pcb s) (fun _ c' => at_rest c') c.
Proof.
  intros Hr Hl Hact Hs. destruct Hr as [[]|n fin left Hh Hleft Hin]; [congruence|].
  assert (left = []) as ->. { destruct left; [done|]. rewrite Hleft in Hact; done. }
  unfold tcp_input_pcb. apply twp_bind, twp_modify.
  pose proof (hands_in _ _ _ (input_globals s) _ Hh) as Hh1.
  apply twp_bind. eapply twp_mono; [by apply retry_refused_ok|]. intros go c2 (Hrm & Hh2 & Href). apply twp_bind.
  eapply (twp_mono _ (fun _ c' => gone c' \/
    exists n fin left, hands n fin left c' /\ (left <> [] -> c_list c' = TimeWaitList))).
  2:{ intros _ c3 Hc3. by apply input_done_ok. }
  destruct go.
  2:{ apply twp_ret. right. exists n, fin, []. by split. }
  apply twp_bind, twp_modify. destruct Hrm as [Rl Ri _ Rs]. cbn in Rl, Ri.
  match goal with |- twp _ _ ?d => set (c3 := d) end.
  assert (hands n fin [] c3) as Hh3 by (by apply hands_input).
  apply twp_bind. eapply twp_mono; [apply (process_ok app_orderly iss irs stream short_stream (i_addr s) n fin c3)|].
  - destruct Hh3. split; try done.
    + cbn. by rewrite Rl.
    + change (c_in c3) with (c_in c2). rewrite Ri. by eapply input_fresh.
    + intros Hpos. change (c_in c3) with (c_in c2) in Hpos. rewrite Ri in Hpos. by apply Href.
  - intros Hst. apply (hd_listener _ _ _ _ Hh3). destruct fin; [|done].
    pose proof (sn_state _ _ _ _ _ (hd_stands _ _ _ _ Hh3) eq_refl) as Hx. by rewrite Hst in Hx.
  - unfold neutral_options. change (c_in c3) with (c_in c2). rewrite Ri. cbn [in_flags in_opts input_globals].
    intros Hpre. assert (pcb_state (c_pcb c3) = pcb_state (c_pcb c)) as Hst by apply Rs. rewrite Hst in Hpre.
    eapply Forall_impl; [by apply Hs|]. intros [m|w] Ho; [done|by left].
  - intros err c4 [[-> He]|[Hne Hp]].
    + rewrite bool_decide_true by done. apply twp_ret. left. eapply ended_gone; [|exact He]. apply Hh3.
    + rewrite bool_decide_false by done.
      destruct (processed_after n fin c3 c4 Hh3 eq_refl Hp) as (next & got & left & Ha & Hl1 & Hl2).
      eapply twp_mono; [by apply (input_events_ok next (fin || got) left)|].
      intros _ c5 [Hg|[Hh5 Hl5]]; [by left|]. right. exists next, (fin || got), left. split; [done|].
      rewrite Hl5. done.
Qed.

End deliver.

(** ** A new connection *)

Section listen.
Context `{Environment}.
Variables (iss irs : Z) (stream : list Z).
Implicit Types c : conn.

Lemma opt_mss_max high low : opt_mss high low <= TCP_MSS.
Proof.
  unfold opt_mss. destruct (_ || _) eqn:Hb; [done|]. apply orb_false_iff in Hb as [Hb%Z.ltb_ge _]. done.
Qed.

Lemma parse_mss_max fuel l m : MaxSegmentSize m ∈ parse_options fuel l -> m <= TCP_MSS.
Proof.
  revert l. induction fuel as [|fuel IH]; intros l; simpl; [by intros ?%elem_of_nil|].
  repeat case_match; subst; rewrite ?elem_of_cons; try (by intros ?%elem_of_nil); eauto.
  - intros [[= ->]|?]; [apply opt_mss_max|eauto].
  - intros [?|?]; [done|eauto].
Qed.

(** The options of a SYN, applied to a new control block. *)
Record opening c0 c : Prop := mk_opening {
  og_live : c_live c = c_live c0;
  og_list : c_list c = c_list c0;
  og_input : c_input_pcb c = c_input_pcb c0;
  og_trace : c_trace c = c_trace c0;
  og_state : pcb_state (c_pcb c) = pcb_state (c_pcb c0);
  og_cb : cb (c_pcb c) = cb (c_pcb c0);
  og_cc : cc (c_pcb c) = cc (c_pcb c0);
  og_tm : tm (c_pcb c) = tm (c_pcb c0);
  og_id : pcb_id (c_pcb c) = pcb_id (c_pcb c0);
  og_nxt : rcv_nxt (rx (c_pcb c)) = rcv_nxt (rx (c_pcb c0));
  og_refused : refused_data (rx (c_pcb c)) = refused_data (rx (c_pcb c0));
  og_fin : has (pcb_flags (c_pcb c)) TF_FIN = has (pcb_flags (c_pcb c0)) TF_FIN;
  og_delay : has (pcb_flags (c_pcb c)) TF_ACK_DELAY = has (pcb_flags (c_pcb c0)) TF_ACK_DELAY;
  og_tx : exists m k, tx (c_pcb c) = set_snd_scale k (set_mss m (tx (c_pcb c0))) /\ 8 <= m <= TCP_MSS;
  og_wnd : wnd_ok (c_pcb c);
  og_initial : has (pcb_flags (c_pcb c)) TF_WND_SCALE = false ->
               rcv_wnd (rx (c_pcb c)) = TCPWND_MIN16 TCP_WND /\ rcv_ann_wnd (rx (c_pcb c)) = TCPWND_MIN16 TCP_WND;
}.

Lemma opening_options os : forall c0 c,
  c_live c0 = true -> opening c0 c ->
  Forall (fun o => match o with MaxSegmentSize m => 8 <= m <= TCP_MSS | _ => True end) os ->
  twp (apply_options os) (fun _ c' => opening c0 c') c.
Proof.
  induction os as [|o os IH]; intros c0 c Hl Ho Hm; [done|]. apply Forall_cons in Hm as [Hm Hos].
  pose proof Ho as []. assert (c_live c = true) as Hlc by congruence.
  simpl. apply twp_bind. eapply (twp_mono _ (fun _ c' => opening c0 c')); [|intros u c' Hc'; by apply IH].
  destruct og_tx0 as (m0 & k0 & Htx & Hm0). destruct o as [m|shift]; simpl.
  - apply twp_upd_pcb; [done|]. split; try done. exists m, k0. cbn. rewrite Htx. done.
  - unfold use_window_scale. apply twp_bind, twp_in, twp_bind, twp_pcb; [done|].
    apply twp_when; intros Hs; [|done]. apply andb_true_iff in Hs as [_ Hs%negb_true_iff].
    destruct (og_initial0 Hs) as [Hw1 Hw2]. apply twp_bind, twp_upd_pcb; [done|]. apply twp_bind, twp_upd_pcb; [done|].
    apply twp_bind, twp_upd_pcb; [done|]. apply twp_bind, twp_assert; [by rewrite Hw1|].
    apply twp_bind, twp_assert; [by rewrite Hw2|]. apply twp_upd_pcb; [done|]. split; try done.
    + cbn. flags. by rewrite orb_false_r.
    + cbn. flags. by rewrite orb_false_r.
    + cbn. rewrite Htx. by eexists m0, _.
    + unfold wnd_ok, TCP_WND_MAX. cbn. flags. by rewrite orb_true_r.
    + cbn. flags. by rewrite orb_true_r.
Qed.

Lemma eff_mss_le m outif dest : tcp_eff_send_mss_netif m outif dest <= m.
Proof. unfold tcp_eff_send_mss_netif. repeat case_match; lia. Qed.

(** No memory for the answer: the connection goes back without a word. *)
Lemma abandon_new_ok c :
  c_live c = true -> pcb_state (c_pcb c) = SYN_RCVD -> cb_errf (cb (c_pcb c)) = false ->
  refused_data (rx (c_pcb c)) = None -> has (pcb_flags (c_pcb c)) TF_ACK_DELAY = false -> c_trace c = [] ->
  received stream [] ->
  twp (tcp_abandon false) (fun _ c' => gone iss stream c') c.
Proof.
  intros Hl Hst Herr Href Hd Ht Hr. unfold tcp_abandon. apply twp_bind, twp_pcb; [done|].
  rewrite Hst. apply twp_bind, twp_assert; [done|]. cbn [state_is]. cbv zeta. apply twp_bind.
  unfold TCP_PCB_REMOVE_ACTIVE, tcp_pcb_remove. apply twp_bind, twp_bind, twp_bind, twp_modify.
  set (c1 := if bool_decide _ then _ else _).
  assert (c_live c1 = true /\ c_pcb c1 = c_pcb c /\ c_trace c1 = []) as (Hl1 & Hp1 & Ht1)
    by (unfold c1; by case_bool_decide).
  clearbody c1. apply twp_bind. eapply twp_mono; [by apply purge_ok|]. intros _ c2 ->.
  assert (c_pcb (purged c1) = set_tx (set_unsent_oversize 0 (set_unacked [] (set_unsent [] (tx (c_pcb c)))))
    (set_tm (set_rtime (-1) (tm (c_pcb c))) (set_rx (set_refused_data None (rx (c_pcb c))) (c_pcb c))) /\
    c_live (purged c1) = true /\ c_trace (purged c1) = []) as (Hp2 & Hl2 & Ht2).
  { unfold purged, purged_pcb, purged_events. cbn. by rewrite Hp1, Hst, Ht1, Href. }
  revert Hp2 Hl2 Ht2. generalize (purged c1). intros c2 Hp2 Hl2 Ht2.
  apply twp_bind, twp_pcb; [done|]. rewrite Hp2. cbn [pcb_state pcb_flags set_tx set_tm set_rx]. rewrite Hst, Hd.
  apply twp_bind, twp_ret. apply twp_bind, twp_pcb; [done|]. rewrite Hp2.
  cbn [pcb_state set_tx set_tm set_rx]. rewrite Hst. apply twp_bind, twp_assert; [done|].
  apply twp_bind, twp_upd_pcb; [done|]. apply twp_upd_pcb; [done|]. apply twp_modify.
  apply twp_ret. apply twp_bind, twp_ret. unfold tcp_free. apply twp_bind, twp_bind, twp_pcb; [done|].
  apply twp_bind, twp_assert; [done|]. apply twp_modify. rewrite Herr. apply twp_ret. split; cbn; rewrite ?Ht2; [done|by apply Forall_nil|done].
Qed.

(** The answer to a SYN. *)
Lemma listen_ok l s prio ticks ctr c :
  c_pcb c = tcp_alloc_pcb prio ticks ctr -> c_live c = true -> c_list c = NoList -> c_input_pcb c = false ->
  c_trace c = [] -> l_accept l <> None -> irs = i_seqno s -> options_ok (i_opts s) ->
  2 * TCP_MSS <= i_wnd s ->
  (forall m, MaxSegmentSize m ∈ options (i_opts s) -> 8 <= m) ->
  (forall m outif, 8 <= m -> 8 <= tcp_eff_send_mss_netif m outif (ad_src_ip (i_addr s))) ->
  twp (tcp_listen_input_syn l s iss) (fun _ c' => at_rest iss irs stream c') c.
Proof.
  intros Hp Hl Hlist Hinp Htr Hacc Hirs Hopt Hwnd Hmss Hmtu.
  assert (received stream []) as Hrec by (split; [by exists stream|by intros [|i] a e]).
  unfold tcp_listen_input_syn. apply twp_bind, twp_modify. cbv zeta.
  do 5 (apply twp_bind, twp_upd_pcb; [done|]). unfold TCP_REG_ACTIVE, TCP_REG.
  apply twp_bind, twp_bind, twp_modify, twp_modify.
  match goal with |- twp _ _ ?d => set (c1 := d) end.
  assert (c_live c1 = true) as Hl1 by done.
  assert (opening c1 c1) as Hop.
  { split; try done.
    - cbn. rewrite Hp. by exists INITIAL_MSS, 0.
    - unfold wnd_ok. cbn. by rewrite Hp.
    - intros _. cbn. by rewrite Hp. }
  apply twp_bind. eapply (twp_mono _ (fun _ c' => opening c1 c')).
  { unfold twp. rewrite parseopt_options by done. apply opening_options; [done|done|].
    apply Forall_forall. intros [m|w] Hin; [|done]. split; [by apply Hmss|by eapply parse_mss_max]. }
  intros _ c2 [Ol Olist Oinp Ot Ost Ocb Occ Otm Oid Onxt Oref Ofin Odel (m & k & Otx & Om) Ownd _].
  assert (c_live c2 = true) as Hl2 by congruence.
  apply twp_bind, twp_upd_pcb; [done|]. apply twp_bind, twp_pcb; [done|]. apply twp_bind.
  unfold tcp_eff_send_mss. apply twp_bind, twp_ask, twp_ret. apply twp_bind, twp_upd_pcb; [done|].
  match goal with |- twp _ _ ?d => set (c3 := d) end.
  assert (exists m', 8 <= m' <= TCP_MSS /\ tx (c_pcb c3) = set_mss m' (set_snd_wnd_max (i_wnd s) (set_snd_wnd (i_wnd s)
    (set_snd_scale k (set_mss m (tx (c_pcb c1))))))) as (m' & Hm' & Htx3).
  { eexists. split; [|cbn; rewrite Otx; reflexivity]. rewrite Oid.
    split; [apply Hmtu; apply Om|]. etransitivity; [apply eff_mss_le|apply Om]. }
  assert (pcb_state (c_pcb c3) = SYN_RCVD) as Hst3 by (cbn; by rewrite Ost).
  apply twp_bind. eapply twp_mono; [apply enqueue_flags_ok; done|].
  intros err c4 [n Hr]. cbv beta. destruct (bool_decide (err = ERR_OK)) eqn:Herr; cbn [negb].
  2:{ destruct Hr as [_ ->]. eapply (twp_mono _ (fun _ c' => gone iss stream c')); [|intros u c' Hg; by left].
      apply abandon_new_ok; try done; cbn.
      - rewrite Ocb. cbn. by rewrite Hp.
      - rewrite Oref. cbn. by rewrite Hp.
      - flags. rewrite orb_false_r, Odel. cbn. by rewrite Hp.
      - by rewrite Ot. }
  destruct Hr as [addr ->]. apply twp_bind.
  change (has (Z.lor TCP_SYN TCP_ACK) TCP_SYN) with true. cbv iota.
  match goal with |- twp _ _ ?d => set (c4 := d) end.
  assert (c_trace c4 = [] /\ c_list c4 = ActiveList /\ c_live c4 = true /\ c_input_pcb c4 = false) as (Ht4 & Hlist4 & Hl4 & Hi4).
  { cbn. rewrite Ot, Olist, Oinp. done. }
  assert (has (pcb_flags (c_pcb c4)) TF_FIN = false) as Hfin4.
  { change (has (pcb_flags (c_pcb c2)) TF_FIN = false). rewrite Ofin.
    change (has (pcb_flags (c_pcb c)) TF_FIN = false). by rewrite Hp. }
  assert (tm (c_pcb c4) = tm (tcp_alloc_pcb prio ticks ctr) /\ cc (c_pcb c4) = cc (tcp_alloc_pcb prio ticks ctr)) as [Htm4 Hcc4].
  { cbn. rewrite Otm, Occ. cbn. by rewrite Hp. }
  set (seg := flag_segment (syn_options (c_pcb c3)) (Z.lor TCP_SYN TCP_ACK) addr (snd_lbb (tx (c_pcb c3)))).
  assert (tx (c_pcb c4) = set_snd_queuelen 1 (set_snd_lbb (u32 (iss + 1)) (set_unsent_oversize 0
    (set_unsent [seg] (tx (c_pcb c3)))))) as Htx4.
  { unfold c4, enqueued. fold seg. cbn [c_pcb set_pcb tx set_flags set_tx]. rewrite Htx3. cbn. by rewrite Hp. }
  assert (0 <= LWIP_TCP_OPT_LENGTH (syn_options (c_pcb c3)) <= 8) as Hol.
  { unfold syn_options. by destruct (_ || _). }
  assert (sending iss c4) as Hc4.
  { split; rewrite ?Ht4, ?Hlist4.
    - split; rewrite ?Htx4, ?Htx3, ?Htm4, ?Hcc4; cbn; try done; try lia.
      + intros _. by rewrite Z.add_0_r.
      + by rewrite Ost.
    - cbn [bool_decide]. rewrite bool_decide_true by done. split; rewrite ?Hfin4, ?Htx4, ?Htx3; cbn; rewrite ?Hp; try done.
      apply Forall_singleton. apply flag_segment_ok; [|done|lia]. done.
    - by apply Forall_nil. }
  eapply twp_mono; [by apply (output_ok iss)|]. intros e c5 (Hs5 & Hc5 & _). apply twp_ret.
  right with 0 false []; [|done|by rewrite (st_input _ _ Hs5)].
  eapply hands_steps; [|exact Hs5|done]. split; try done.
  - unfold listed. cbn. by rewrite Ost, Olist.
  - unfold open_state. cbn. by rewrite Ost.
  - intros _. cbn. rewrite Ocb. cbn. congruence.
  - split; try done.
    + cbn. rewrite Onxt. cbn. rewrite Hirs. unfold seq_at. f_equal. lia.
    + pose proof (zlen_nonneg stream). lia.
  - by rewrite Ht4.
  - rewrite Ht4. unfold refused_bytes. cbn. rewrite Oref. cbn. by rewrite Hp, ztake_nonpos.
  - cbn. rewrite Oref. cbn. rewrite Hp. by intros [? ?].
  - intros b. cbn. rewrite Oref. cbn. by rewrite Hp.
  - cbn. rewrite Ocb. cbn. by rewrite Hp.
  - cbn. rewrite Oref. cbn. rewrite Hp. by intros [? ?].
Qed.

End listen.
