(* ===== verification/TcpTimerProofs.v ===== *)
(** * The timers and TIME-WAIT

    The slow timer retransmits, probes a closed window, keeps alive, polls, and
    removes what waited too long; the fast timer acknowledges, retries a close and
    hands refused data over. A connection in TIME-WAIT answers what it still gets.
    All of it keeps the invariant. *)
From Stdlib Require Import ZArith Lia.
From stdpp Require Import base list option numbers gmap.
From S2P Require Import Prelude Pbuf Chksum Lwip Tcp TcpOut TcpApi TcpIn TcpOptions TcpInv TcpOutProofs TcpWriteProofs TcpQueueProofs TcpApiProofs TcpAckProofs TcpDataProofs TcpInProofs TcpInputProofs.

Section sending.
Context `{Environment}.
Variable iss : Z.
Implicit Types c : conn.

(** ** The persist timer *)

(** Where the slow timer may fail an assertion, with the persist timer running:
    segments are in flight; nothing is queued; the window is closed and the first queued segment has neither data nor a
    FIN; the window is open, but its low 16 bits, the length to split at, are zero, or
    the queue is too long for one more segment. *)
Definition persist_fault c : bool :=
  let t := tx (c_pcb c) in
  (0 <? persist_backoff (tm (c_pcb c))) &&
  (negb (bool_decide (unacked t = [])) ||
  match unsent t with
  | [] => true
  | seg :: _ =>
      if snd_wnd t =? 0 then bool_decide (sg_data seg = []) && negb (has (sg_hdrflags seg) TCP_FIN)
      else (u16 (snd_wnd t) =? 0) || (2 ^ 16 <=? snd_queuelen t + 2)
  end).

Lemma backoff_slot k : 0 < k <= 7 -> exists n, tcp_persist_backoff !! Z.to_nat (k - 1) = Some n.
Proof.
  intros Hk. assert (k = 1 \/ k = 2 \/ k = 3 \/ k = 4 \/ k = 5 \/ k = 6 \/ k = 7) as Hc by lia.
  destruct Hc as [->|[->|[->|[->|[->|[->| ->]]]]]]; by eexists.
Qed.

(** A probe, or a piece of the first segment. *)
Lemma persist_fire_ok seg rest c :
  c_live c = true -> sending iss c -> unsent (tx (c_pcb c)) = seg :: rest ->
  (snd_wnd (tx (c_pcb c)) = 0 -> sg_data seg <> [] \/ has (sg_hdrflags seg) TCP_FIN = true) ->
  (snd_wnd (tx (c_pcb c)) <> 0 -> u16 (snd_wnd (tx (c_pcb c))) <> 0 /\ snd_queuelen (tx (c_pcb c)) + 2 < 2 ^ 16) ->
  sends iss persist_fire (fun _ _ => True) c.
Proof.
  intros Hl Hc Hu Hclosed Hopen. unfold persist_fire. apply sends_pcb; [done|].
  destruct (Z.eqb_spec (snd_wnd (tx (c_pcb c))) 0) as [Hw|Hw].
  - eapply sends_bind; [apply probe_ok; [done|done|]|].
    + intros s r. rewrite Hu. intros [= <- <-]. by apply Hclosed.
    + intros e c1 _ _ Hc1 _. by apply sends_ret.
  - destruct (Hopen Hw) as [Hsplit Hroom]. pose proof (wrap_fits 16 (snd_wnd (tx (c_pcb c))) ltac:(lia)) as Hr.
    unfold fits in Hr. eapply sends_bind; [apply split_ok; [done|done|lia|done]|].
    intros e c1 _ Hl1 Hc1 _. rewrite Hl in Hl1. case_bool_decide; [|by apply sends_ret].
    eapply sends_bind; [by apply output_ok|]. intros e' c2 _ _ Hc2 _. by apply sends_ret.
Qed.

Lemma persist_tick_ok c :
  c_live c = true -> sending iss c -> 0 < persist_backoff (tm (c_pcb c)) -> persist_fault c = false ->
  sends iss persist_tick (fun _ _ => True) c.
Proof.
  intros Hl Hc Hb Hp. unfold persist_fault in Hp. rewrite (proj2 (Z.ltb_lt _ _) Hb) in Hp. cbn [andb] in Hp.
  apply orb_false_iff in Hp as [Hun%negb_false_iff%bool_decide_eq_true Hp].
  destruct (unsent (tx (c_pcb c))) as [|seg rest] eqn:Hu; [done|].
  pose proof (co_persist _ _ _ (se_pcb _ _ Hc)) as Hrange.
  unfold persist_tick. apply sends_pcb; [done|].
  apply twp_bind, twp_assert; [by rewrite Hun|]. apply twp_bind, twp_assert; [by rewrite Hu|].
  destruct (TCP_MAXRTX <=? _); [by apply sends_ret|].
  destruct (backoff_slot (persist_backoff (tm (c_pcb c)))) as [n Hn]; [lia|]. rewrite Hn.
  eapply (sends_bind _ _ _ (fun _ c' => tx (c_pcb c') = tx (c_pcb c))).
  { apply sends_upd; [done|frame| |done]. apply sending_persist; [done|]; destruct (_ <? _); done. }
  intros _ c1 Hs1 Hl1 Hc1 Hx1. rewrite Hl in Hl1. apply sends_pcb; [done|].
  eapply (sends_bind _ _ _ (fun _ _ => True)); [|intros; by apply sends_ret].
  unfold when at 1. destruct (n <=? _); [|by apply sends_ret].
  eapply sends_bind; [apply (persist_fire_ok seg rest); rewrite ?Hx1; try done|].
  - intros Hw. rewrite Hw in Hp. cbn [Z.eqb] in Hp. destruct (has _ _); [by right|left].
    by destruct (sg_data seg).
  - intros Hw. rewrite (proj2 (Z.eqb_neq _ _) Hw) in Hp. apply orb_false_iff in Hp as [?%Z.eqb_neq ?%Z.leb_gt]. done.
  - intros slot c2 _ Hl2 Hc2 Hx2. rewrite Hl1 in Hl2. unfold when. destruct slot; [|by apply sends_ret].
    apply sends_upd; [done|frame| |done]. pose proof (co_persist _ _ _ (se_pcb _ _ Hc2)).
    apply sending_persist; [done|].
    cbn. destruct (Z.ltb_spec (persist_backoff (tm (c_pcb c2))) (zlen tcp_persist_backoff)) as [Hlt|]; [|done].
    change (zlen tcp_persist_backoff) with 7 in Hlt. cbn. rewrite wrap_small by (unfold fits; lia). lia.
Qed.

(** ** Retransmission *)

Lemma backed_off_some g : 0 <= nrtx g < 256 -> exists r, backed_off_rto g = Some r.
Proof.
  intros Hn. unfold backed_off_rto. change (zlen tcp_backoff - 1) with 12.
  assert (is_Some (tcp_backoff !! Z.to_nat (Z.min (nrtx g) 12))) as [b ->]; [|by eexists].
  apply lookup_lt_is_Some. change (length tcp_backoff) with 13%nat. lia.
Qed.

Lemma sends_cc f c :
  c_live c = true -> sending iss c -> 0 <= nrtx (f (cc (c_pcb c))) < 256 ->
  sends iss (upd_cc f) (fun _ _ => True) c.
Proof. intros Hl Hc Hn. apply sends_upd; [done|frame|by apply sending_cc|done]. Qed.

Lemma sends_tm f c :
  c_live c = true -> sending iss c ->
  persist_backoff (f (tm (c_pcb c))) = persist_backoff (tm (c_pcb c)) ->
  sends iss (upd_tm f) (fun _ c' => tx (c_pcb c') = tx (c_pcb c)) c.
Proof. intros Hl Hc Hb. apply sends_upd; [done|frame|ignored|done]. Qed.

Lemma rto_tick_ok c :
  c_live c = true -> sending iss c -> sends iss rto_tick (fun _ _ => True) c.
Proof.
  intros Hl Hc. unfold rto_tick.
  eapply sends_bind; [apply sends_tm; [done|done|by case_match]|]. intros _ c1 _ Hl1 Hc1 _. rewrite Hl in Hl1.
  apply sends_pcb; [done|]. unfold when at 1. destruct (_ <=? _); [|by apply sends_ret].
  eapply sends_bind; [by apply rexmit_rto_prepare_ok|]. intros err c2 _ Hl2 Hc2 _. rewrite Hl1 in Hl2.
  apply sends_pcb; [done|]. unfold when at 1. destruct (_ || _); [|by apply sends_ret].
  pose proof (co_nrtx _ _ _ (se_pcb _ _ Hc2)) as Hn.
  eapply (sends_bind _ _ _ (fun _ _ => True)).
  { unfold when. destruct (negb _); [|by apply sends_ret].
    destruct (backed_off_some _ Hn) as [r ->]. by apply sends_cc. }
  intros _ c3 _ Hl3 Hc3 _. rewrite Hl2 in Hl3.
  eapply sends_bind; [by apply sends_tm|]. intros _ c4 _ Hl4 Hc4 _. rewrite Hl3 in Hl4.
  eapply sends_bind; [apply sends_cc; [done|done|apply (co_nrtx _ _ _ (se_pcb _ _ Hc4))]|].
  intros _ c5 _ Hl5 Hc5 _. rewrite Hl4 in Hl5. by apply rexmit_rto_commit_ok.
Qed.

Lemma retransmission_tick_ok c :
  c_live c = true -> sending iss c -> persist_fault c = false ->
  sends iss retransmission_tick (fun _ _ => True) c.
Proof.
  intros Hl Hc Hp. unfold retransmission_tick. apply sends_pcb; [done|].
  destruct (_ && _); [by apply sends_ret|]. destruct (_ <=? _); [by apply sends_ret|].
  destruct (Z.ltb_spec 0 (persist_backoff (tm (c_pcb c)))); [by apply persist_tick_ok|].
  eapply sends_bind; [by apply rto_tick_ok|]. intros; by apply sends_ret.
Qed.

Lemma keepalive_tick_ok c :
  c_live c = true -> sending iss c -> sends iss keepalive_tick (fun _ _ => True) c.
Proof.
  intros Hl Hc. unfold keepalive_tick. apply sends_pcb; [done|]. apply twp_bind, twp_gets.
  destruct (_ && _); [|by apply sends_ret]. destruct (_ <? _); [by apply sends_ret|].
  eapply (sends_bind _ _ _ (fun _ _ => True)); [|intros; by apply sends_ret].
  unfold when at 1. destruct (_ <? _); [|by apply sends_ret].
  eapply sends_bind; [by apply keepalive_ok|]. intros err c1 _ Hl1 Hc1 _. rewrite Hl in Hl1.
  unfold when. case_bool_decide; [|by apply sends_ret].
  eapply sends_mono; [by apply sends_tm|done].
Qed.

End sending.

Section rest.
Context `{Environment}.
Hypothesis app_orderly : orderly env_app.
Variables (iss irs : Z) (stream : list Z).
Hypothesis short_stream : zlen stream < 2 ^ 30.
Implicit Types c : conn.

Notation hands := (hands iss irs stream).
Notation gone := (gone iss stream).
Notation at_rest := (at_rest iss irs stream).

(** ** Fields that do not count *)

Lemma hands_clock n fin left t b c :
  hands n fin left c -> hands n fin left (set_ticks t c) /\ hands n fin left (set_changed b c).
Proof.
  intros []. split; (split; try done; [by apply (sending_same iss c)|by destruct hd_stands]).
Qed.

Lemma hands_sends {A} (m : TM A) P n fin left c :
  hands n fin left c -> (c_live c = true -> sending iss c -> sends iss m P c) ->
  twp m (fun a c' => hands n fin left c' /\ steps c c' /\ P a c') c.
Proof.
  intros Hh Hm. eapply twp_mono; [apply Hm; apply Hh|]. intros a c' (Hs & Hc' & HP).
  split_and!; [by eapply hands_steps|done|done].
Qed.

(** ** The end of a connection *)

(** Purged, off its list, perhaps reset, and back in its pool. *)
Lemma slow_remove_ok reset n fin left c :
  hands n fin left c -> c_list c = ActiveList -> twp (slow_remove reset) (fun _ c' => gone c') c.
Proof.
  intros Hh Hact. pose proof Hh as [Hl Hc Hlist Ho _ _ Hr _ _ _].
  destruct (hands_active _ _ _ _ _ _ _ Hh Hact) as [_ Hst]. unfold slow_remove.
  apply twp_bind, twp_pcb; [done|]. apply twp_bind. eapply twp_mono; [by apply purge_ok|]. intros _ c1 ->.
  destruct (purged_same c) as (Pl & Plist & _). pose proof (purged_quiet c) as Hq.
  pose proof (purged_sending iss NoList c Hc ltac:(done) (fun _ => Hst Hact)) as Hc1.
  revert Pl Plist Hq Hc1. generalize (purged c). intros c1 Pl Plist Hq Hc1.
  apply twp_bind, twp_modify. rewrite bool_decide_true by congruence.
  apply twp_bind, twp_pcb; [cbn; congruence|]. apply twp_bind.
  eapply (twp_mono _ (fun _ c' => c_live c' = true /\ sending iss c' /\ quiet (c_trace c) (c_trace c'))).
  { apply twp_when; intros _; [|by split_and!; [cbn; congruence| |]].
    eapply twp_mono; [apply (rst_ok iss); [cbn; congruence|done]|]. intros _ c2 (Hs & Hc2 & _). split_and!; [|done|].
    - rewrite (st_live _ _ Hs). cbn. congruence.
    - etransitivity; [exact Hq|]. by apply (steps_quiet _ _ Hs). }
  intros _ c2 (Hl2 & Hc2 & Hq2). apply twp_bind. eapply twp_mono; [by apply (free_ok iss)|]. intros _ c3 ->.
  apply twp_bind, twp_modify. eapply twp_mono; [apply err_event_ok; apply Hc2|].
  intros _ c4 [(es & -> & Hes & _) Hev]. split; [done|done|].
  eapply received_quiet; [|exact Hr]. etransitivity; [exact Hq2|]. by exists es.
Qed.

Lemma slow_poll_ok n fin left c :
  hands n fin left c ->
  twp slow_poll (fun _ c' => hands n fin left c' /\ c_list c' = c_list c /\ c_input_pcb c' = c_input_pcb c) c.
Proof.
  intros Hh. unfold slow_poll. apply twp_bind.
  eapply twp_mono; [eapply (hands_sends _ _ _ _ _ _ Hh); intros; by apply sends_tm|].
  intros _ c1 (Hh1 & Hs1 & _). assert (c_list c1 = c_list c) as Hl1 by apply Hs1.
  assert (c_input_pcb c1 = c_input_pcb c) as Hi1 by apply Hs1.
  apply twp_bind, twp_pcb; [apply Hh1|]. apply twp_when; intros _; [|done].
  apply twp_bind. eapply twp_mono; [eapply (hands_sends _ _ _ _ _ _ Hh1); intros; by apply sends_tm|].
  intros _ c2 (Hh2 & Hs2 & _). apply twp_bind, twp_modify. apply (hands_clock _ _ _ 0 false) in Hh2 as [_ Hh2].
  match type of Hh2 with TcpInputProofs.hands _ _ _ _ _ _ ?d => set (c3 := d) in * end.
  assert (c_list c3 = c_list c1) as Hl3 by apply Hs2. assert (c_input_pcb c3 = c_input_pcb c1) as Hi3 by apply Hs2.
  apply twp_bind. eapply (twp_mono _ (fun _ c' => hands n fin left c' /\ c_list c' = c_list c3 /\
    c_input_pcb c' = c_input_pcb c3)).
  { unfold TCP_EVENT_POLL. apply twp_bind, twp_pcb; [apply Hh2|]. destruct (cb_poll _); [|by apply twp_ret].
    eapply twp_mono; [apply (call_quiet_ok iss); try done; [apply Hh2|apply Hh2|by eapply hands_callable|apply app_orderly]|].
    intros e c4 (Hk & Hc4 & _ & Hs). split_and!; [by eapply hands_kept|apply Hk|apply Hk]. }
  intros e c4 (Hh4 & Hl4 & Hi4). apply twp_bind, twp_gets. apply twp_when; intros _; [|split_and!; [done|congruence..]].
  apply twp_bind. eapply twp_mono; [eapply (hands_sends _ _ _ _ _ _ Hh4); intros; by apply output_ok|].
  intros r c5 (Hh5 & Hs5 & _). apply twp_ret. split_and!; [done|rewrite (st_list _ _ Hs5); congruence|].
  rewrite (st_input _ _ Hs5). congruence.
Qed.

(** ** The slow timer *)

(** A connection in use. *)
Record active n fin c : Prop := mk_active {
  ac_hands : hands n fin [] c;
  ac_list : c_list c = ActiveList;
  ac_input : c_input_pcb c = false;
}.

Lemma active_rest n fin c : active n fin c -> at_rest c.
Proof. intros []. by right with n fin []. Qed.

Lemma rest_active c : at_rest c -> c_live c = true -> c_list c = ActiveList -> exists n fin, active n fin c.
Proof.
  intros [[]|n fin left Hh Hleft Hi] Hl Ha; [congruence|]. exists n, fin. split; try done.
  destruct left; [done|]. rewrite Hleft in Ha; done.
Qed.

Lemma active_sends {A} (m : TM A) P n fin c :
  active n fin c -> (c_live c = true -> sending iss c -> sends iss m P c) ->
  twp m (fun a c' => active n fin c' /\ steps c c' /\ P a c') c.
Proof.
  intros [Hh Ha Hi] Hm. eapply twp_mono; [by apply (hands_sends _ P _ _ _ _ Hh)|].
  intros a c' (Hh' & Hs & HP). split_and!; [|done|done]. split; [done|by rewrite (st_list _ _ Hs)|by rewrite (st_input _ _ Hs)].
Qed.

Lemma slowtmr_ok ctr n fin c :
  active n fin c -> persist_fault c = false -> twp (tcp_slowtmr_active ctr) (fun _ c' => at_rest c') c.
Proof.
  intros Ha Hp. pose proof Ha as [Hh Hact Hi]. unfold tcp_slowtmr_active. apply twp_bind, twp_pcb; [apply Hh|].
  destruct (hands_active _ _ _ _ _ _ _ Hh Hact) as [_ Hst]. destruct (Hst Hact) as [Hst1 Hst2].
  do 3 (apply twp_bind, twp_assert;
    [unfold state_is; rewrite bool_decide_false; [done|]; try done; apply (hd_open _ _ _ _ _ _ _ Hh)|]).
  destruct (_ =? ctr); [by apply twp_ret; eapply active_rest|].
  apply twp_bind. eapply twp_mono; [apply (active_sends _ (fun _ c' => persist_fault c' = false) _ _ _ Ha)|].
  { intros. apply sends_upd; [done|frame|ignored|exact Hp]. }
  intros _ c1 (Ha1 & _ & Hp1). apply twp_bind.
  eapply twp_mono; [eapply (active_sends _ _ _ _ _ Ha1); intros; by apply retransmission_tick_ok|].
  intros dead c2 (Ha2 & _ & _). apply twp_bind, twp_pcb; [apply Ha2|]. apply twp_bind, twp_gets, twp_bind.
  eapply twp_mono; [eapply (active_sends _ _ _ _ _ Ha2); intros; by apply keepalive_tick_ok|].
  intros reset c3 (Ha3 & _ & _). apply twp_bind, twp_pcb; [apply Ha3|]. cbv zeta. pose proof Ha3 as [Hh3 Hl3 Hi3].
  destruct (_ || _ || _ || _).
  - eapply twp_mono; [by eapply slow_remove_ok|]. intros u c4 Hg. by left.
  - eapply twp_mono; [by apply (slow_poll_ok n fin [])|]. intros _ c4 (Hh4 & Hl4 & Hi4).
    right with n fin []; [done|done|congruence].
Qed.

Lemma slowtmr_tw_ok c :
  at_rest c -> c_live c = true -> c_list c = TimeWaitList -> twp tcp_slowtmr_tw (fun _ c' => at_rest c') c.
Proof.
  intros Hr Hl Htw. pose proof Hr as [[]|n fin left Hh Hleft Hi]; [congruence|].
  pose proof Hh as [_ Hc Hlist Ho _ _ Hrec _ _ _]. unfold tcp_slowtmr_tw. apply twp_bind, twp_pcb; [done|].
  apply twp_bind, twp_assert.
  { apply bool_decide_eq_true. unfold listed in Hlist. rewrite Htw in Hlist.
    destruct (pcb_state (c_pcb c)); try done; by destruct Hlist. }
  apply twp_bind, twp_gets. apply twp_when; intros _; [|done].
  apply twp_bind. eapply twp_mono; [by apply purge_ok|]. intros _ c1 ->.
  destruct (purged_same c) as (Pl & Plist & _). pose proof (purged_quiet c) as Hq.
  pose proof (purged_sending iss NoList c Hc ltac:(done) ltac:(congruence)) as Hc1.
  revert Pl Plist Hq Hc1. generalize (purged c). intros c1 Pl Plist Hq Hc1.
  apply twp_bind, twp_modify. rewrite bool_decide_true by congruence.
  eapply twp_mono; [apply (free_ok iss); [cbn; congruence|done]|]. intros _ c2 ->. left.
  split; [done|apply Hc1|by eapply received_quiet].
Qed.

(** ** The fast timer *)

Lemma active_clock n fin t b c :
  active n fin c -> active n fin (set_ticks t c) /\ active n fin (set_changed b c).
Proof. intros [Hh ? ?]. apply (hands_clock _ _ _ t b) in Hh as [? ?]. by split. Qed.

Lemma active_moved n fin c c' :
  active n fin c -> kept c c' -> moved (pcb_state (c_pcb c)) (pcb_state (c_pcb c')) -> sending iss c' ->
  active n fin c'.
Proof.
  intros [] Hk Hm Hc'. split; [by eapply hands_moved|by rewrite (kp_list _ _ Hk)|by rewrite (kp_input _ _ Hk)].
Qed.

Lemma fasttmr_ok ctr n fin c :
  active n fin c -> twp (tcp_fasttmr_active ctr) (fun _ c' => active n fin c') c.
Proof.
  intros Ha. unfold tcp_fasttmr_active. apply twp_bind, twp_pcb; [apply Ha|].
  destruct (_ =? ctr); [by apply twp_ret|].
  apply twp_bind. eapply twp_mono; [eapply (active_sends _ _ _ _ _ Ha); intros; by apply sends_tm|].
  intros _ c1 (Ha1 & _ & _). clear Ha.
  apply twp_bind. eapply (twp_mono _ (fun _ c' => active n fin c')).
  { apply twp_when; intros _; [|done]. apply twp_bind.
    eapply twp_mono; [apply (active_sends _ (fun _ _ => True) _ _ _ Ha1); intros; by apply sends_flags_set|].
    intros _ c2 (Ha2 & _ & _). apply twp_bind.
    eapply twp_mono; [eapply (active_sends _ _ _ _ _ Ha2); intros; by apply output_ok|].
    intros e c3 (Ha3 & _ & _).
    eapply twp_mono; [apply (active_sends _ (fun _ _ => True) _ _ _ Ha3)|by intros _ c4 (? & _ & _)].
    intros. apply sends_upd; [done|frame|ignored|done]. }
  clear Ha1. intros u c2 Ha2. apply twp_bind, twp_pcb; [apply Ha2|].
  apply twp_bind. eapply (twp_mono _ (fun _ c' => active n fin c')).
  { apply twp_when; intros _; [|done]. apply twp_bind.
    eapply twp_mono; [apply (active_sends _ (fun _ _ => True) _ _ _ Ha2)|].
    { intros. apply sends_upd; [done|frame|ignored|done]. }
    intros _ c3 (Ha3 & _ & _). pose proof Ha3 as [Hh3 _ _]. apply twp_bind.
    eapply twp_mono; [apply (close_shutdown_fin_ok iss); apply Hh3|]. intros e c4 (Hk & Hc4 & _ & Hm).
    apply twp_ret. by eapply active_moved. }
  clear u Ha2. intros u c3 Ha3. apply twp_bind, twp_pcb; [apply Ha3|]. apply twp_when; intros Hr; [|done].
  apply bool_decide_eq_true in Hr as [b Hb]. apply twp_bind.
  eapply twp_mono; [by eapply refused_data_ok, Hb; [|apply Ha3]|]. intros e c4 (_ & [] & Hh4). apply twp_ret.
  destruct Ha3. split; [done|congruence..].
Qed.

(** ** TIME-WAIT *)

Lemma timewait_input_ok s c :
  at_rest c -> c_live c = true ->
  twp (tcp_timewait_input s) (fun _ c' => at_rest c' /\ c_live c' = true /\ c_list c' = c_list c) c.
Proof.
  intros Hr Hl. destruct Hr as [[]|n fin left Hh Hleft Hi]; [congruence|].
  unfold tcp_timewait_input. apply twp_bind, twp_modify.
  apply (hands_in _ _ _ _ _ _ (input_globals s)) in Hh.
  match type of Hh with TcpInputProofs.hands _ _ _ _ _ _ ?d => set (c1 := d) in * end.
  assert (forall c', hands n fin left c' -> steps c1 c' ->
    at_rest c' /\ c_live c' = true /\ c_list c' = c_list c) as Hrest.
  { intros c' Hh' Hs. pose proof (st_list _ _ Hs) as Hl'. split_and!; [|apply Hh'|done].
    right with n fin left; [done|by rewrite Hl'|by rewrite (st_input _ _ Hs)]. }
  apply twp_bind, twp_in, twp_bind, twp_pcb; [apply Hh|]. cbv zeta.
  assert (forall c2, hands n fin left c2 -> steps c1 c2 ->
    twp (when (0 <? tcplen (c_in c1)) (_ ← tcp_ack_now; _ ← tcp_output; mret tt))
      (fun _ c' => at_rest c' /\ c_live c' = true /\ c_list c' = c_list c) c2) as Hack.
  { intros c2 Hh2 Hs2. apply twp_when; intros _; [|by apply Hrest]. apply twp_bind.
    eapply twp_mono; [apply (hands_sends _ (fun _ _ => True) _ _ _ _ Hh2); intros; by apply sends_flags_set|].
    intros _ c3 (Hh3 & Hs3 & _). apply twp_bind.
    eapply twp_mono; [eapply (hands_sends _ _ _ _ _ _ Hh3); intros; by apply output_ok|].
    intros e c4 (Hh4 & Hs4 & _). apply twp_ret. apply Hrest; [done|]. transitivity c2; [done|]. by transitivity c3. }
  destruct (has _ TCP_RST); [by apply twp_ret, Hrest|]. destruct (has _ TCP_SYN).
  - destruct (TCP_SEQ_BETWEEN _ _ _); [|by apply Hack].
    unfold reset_segment. apply twp_bind, twp_in.
    eapply twp_mono; [eapply (hands_sends _ _ _ _ _ _ Hh); intros; by apply rst_ok|].
    intros _ c2 (Hh2 & Hs2 & _). by apply Hrest.
  - apply twp_bind, twp_gets, twp_bind.
    eapply (twp_mono _ (fun _ c' => hands n fin left c' /\ steps c1 c')).
    + apply twp_when; intros _; [|done].
      eapply twp_mono; [eapply (hands_sends _ _ _ _ _ _ Hh); intros; by apply sends_tm|].
      by intros _ c2 (? & ? & _).
    + intros _ c2 [Hh2 Hs2]. by apply Hack.
Qed.

(** ** Calls of the application between segments *)

Lemma rest_moved c c' :
  at_rest c -> c_live c = true -> kept c c' -> moved (pcb_state (c_pcb c)) (pcb_state (c_pcb c')) ->
  sending iss c' -> at_rest c'.
Proof.
  intros [[]|n fin left Hh Hleft Hi] Hl Hk Hm Hc'; [congruence|].
  right with n fin left; [by eapply hands_moved|by rewrite (kp_list _ _ Hk)|by rewrite (kp_input _ _ Hk)].
Qed.

Lemma rest_hands c :
  at_rest c -> c_live c = true -> exists n fin left, hands n fin left c /\ c_input_pcb c = false.
Proof. intros [[]|n fin left Hh _ Hi] Hl; [congruence|]. eauto. Qed.

Lemma app_rest a c :
  at_rest c -> c_live c = true -> calm a -> twp (run_app a) (fun _ c' => at_rest c') c.
Proof.
  intros Hr Hl Hcalm. destruct (rest_hands c Hr Hl) as (n & fin & left & Hh & _).
  eapply twp_mono; [apply (run_app_ok iss); [done|apply Hh|by eapply hands_callable|done]|].
  intros e c' (Hk & Hc' & _ & Hs). eapply rest_moved; try done. left. apply Hs.
Qed.

Lemma close_rest c : at_rest c -> c_live c = true -> twp tcp_close (fun e c' => e = ERR_OK /\ at_rest c') c.
Proof.
  intros Hr Hl. destruct (rest_hands c Hr Hl) as (n & fin & left & Hh & Hi).
  eapply twp_mono; [apply (close_ok iss); apply Hh|].
  intros e c' (-> & Hp). split; [done|].
  destruct Hp as [(_ & Hc' & Hk & Hm)|[[? _]|[_ He]]]; [by eapply rest_moved|congruence|].
  left. eapply ended_gone; [|exact He]. apply Hh.
Qed.

Lemma abandon_rest reset c : at_rest c -> c_live c = true -> twp (tcp_abandon reset) (fun _ c' => at_rest c' /\ c_live c' = false) c.
Proof.
  intros Hr Hl. destruct (rest_hands c Hr Hl) as (n & fin & left & Hh & Hi).
  eapply twp_mono; [apply (abandon_ok iss reset); apply Hh|]. intros u c' He. split; [left|apply He].
  eapply ended_gone; [|exact He]. apply Hh.
Qed.

(** One call, and the rest of the program after it. *)
Lemma courteous_bind {A} (m : TM A) (k : A -> TM err_t) c :
  at_rest c -> c_live c = true -> keeps iss m (fun _ c' => same_state c c') c ->
  (forall a c1, at_rest c1 -> c_live c1 = true -> twp (k a) (fun _ c' => at_rest c') c1) ->
  twp (m ≫= k) (fun _ c' => at_rest c') c.
Proof.
  intros Hr Hl Hm Hk. apply twp_bind. eapply twp_mono; [exact Hm|]. intros a c1 (Hk1 & Hc1 & Hs1).
  apply Hk; [|by rewrite (kp_live _ _ Hk1)]. eapply rest_moved; try done. left. apply Hs1.
Qed.

Lemma courteous_rest a : forall c,
  at_rest c -> c_live c = true -> courteous a -> twp (run_app a) (fun _ c' => at_rest c') c.
Proof.
  induction a as [e|data fl k IH|k IH|len k IH|s k IH|r t k IH|k IH|k IH]; intros c Hr Hl Ha;
    cbn [courteous] in Ha; try done; destruct (rest_hands c Hr Hl) as (n & fin & left & Hh & Hi);
    pose proof (hd_sending _ _ _ _ _ _ _ Hh) as Hc.
  - destruct Ha as [H16 Hk]. apply courteous_bind; [done|done| |].
    + apply write_keeps; [done|done|by eapply hands_callable|done].
    + intros e c1 Hr1 Hl1. by apply IH.
  - apply courteous_bind; [done|done|by apply output_keeps|]. intros e c1 Hr1 Hl1. by apply IH.
  - apply courteous_bind; [done|done|by apply recved_keeps|]. intros e c1 Hr1 Hl1. by apply IH.
  - destruct (unbound_kept iss c Hc) as [Hk1 Hs1].
    assert (at_rest (without_callbacks c)) as Hr1 by (eapply rest_moved; try done; by left).
    destruct Ha as [(k' & Hcl & Hk')|[e He]].
    + rewrite Hcl. eapply unbind_ok; [done..|]. cbn [run_app]. apply twp_bind.
      eapply twp_mono; [by apply close_rest|]. intros e c2 [-> Hr2]. rewrite Hk'. by apply twp_ret.
    + rewrite He. eapply unbind_ok; [done..|]. cbn [run_app]. apply twp_bind.
      eapply twp_mono; [by apply (abandon_rest true)|]. intros _ c2 [Hr2 _]. by apply twp_ret.
Qed.

Lemma txnow_ok n fin c : active n fin c -> twp tcp_txnow_active (fun _ c' => active n fin c') c.
Proof.
  intros Ha. unfold tcp_txnow_active. apply twp_bind, twp_pcb; [apply Ha|]. apply twp_when; intros _; [|done].
  apply twp_bind. eapply twp_mono; [eapply (active_sends _ _ _ _ _ Ha); intros; by apply output_ok|].
  intros e c1 (Ha1 & _ & _). by apply twp_ret.
Qed.

End rest.
