(* ===== verification/TcpTraffic.v ===== *)
(** * What is queued and what is sent

    Rules for what holds whenever a call returns, and two facts proved with them:
    [tcp_write] appends exactly its data to the queue, and [tcp_output] sends only
    what the peer's window covers and leaves only what it does not. *)
From Stdlib Require Import ZArith Lia.
From stdpp Require Import base list option numbers gmap.
From S2P Require Import Prelude Pbuf Chksum Lwip Tcp TcpOut TcpApi TcpInv TcpWriteProofs.

(** ** Whenever a call returns *)

Definition wlp {A} (m : TM A) (Q : A -> conn -> Prop) (c : conn) : Prop :=
  forall a c', m c = Done (a, c') -> Q a c'.

Section rules.
Implicit Types c : conn.

Lemma wlp_mono {A} (m : TM A) (Q R : A -> conn -> Prop) c :
  wlp m Q c -> (forall a c', Q a c' -> R a c') -> wlp m R c.
Proof. intros Hm HQ a c' He. by apply HQ, Hm. Qed.

Lemma wlp_ret {A} (a : A) (Q : A -> conn -> Prop) c : Q a c -> wlp (mret a) Q c.
Proof. by intros HQ b c' [= <- <-]. Qed.

Lemma wlp_bind {A B} (m : TM A) (k : A -> TM B) (Q : B -> conn -> Prop) c :
  wlp m (fun a => wlp (k a) Q) c -> wlp (m ≫= k) Q c.
Proof.
  unfold wlp, mbind, tm_bind. intros Hm b c2. destruct (m c) as [[a c1]|]; [|done]. by apply Hm.
Qed.

Lemma wlp_abort {A} (Q : A -> conn -> Prop) c : wlp abort Q c.
Proof. by intros a c'. Qed.

Lemma wlp_pcb (Q : tcp_pcb -> conn -> Prop) c : Q (c_pcb c) c -> wlp pcb_ Q c.
Proof. unfold pcb_. intros HQ a c'. by destruct (c_live c); [intros [= <- <-]|]. Qed.

Lemma wlp_upd_pcb f (Q : unit -> conn -> Prop) c : Q tt (set_pcb (f (c_pcb c)) c) -> wlp (upd_pcb f) Q c.
Proof. unfold upd_pcb. intros HQ [] c'. by destruct (c_live c); [intros [= <-]|]. Qed.

Lemma wlp_assert b (Q : unit -> conn -> Prop) c : (b = true -> Q tt c) -> wlp (LWIP_ASSERT b) Q c.
Proof. destruct b; intros HQ [] c'; [intros [= <-]; auto|done]. Qed.

Lemma wlp_gets {A} (f : conn -> A) (Q : A -> conn -> Prop) c : Q (f c) c -> wlp (gets f) Q c.
Proof. by intros HQ a c' [= <- <-]. Qed.

Lemma wlp_modify f (Q : unit -> conn -> Prop) c : Q tt (f c) -> wlp (modify f) Q c.
Proof. by intros HQ [] c' [= <-]. Qed.

Lemma wlp_in (Q : input -> conn -> Prop) c : Q (c_in c) c -> wlp in_ Q c.
Proof. by intros HQ a c' [= <- <-]. Qed.

Lemma wlp_upd_in f (Q : unit -> conn -> Prop) c : Q tt (set_in (f (c_in c)) c) -> wlp (upd_in f) Q c.
Proof. by intros HQ [] c' [= <-]. Qed.

Lemma wlp_ask {A} (f : Z -> A) (Q : A -> conn -> Prop) c :
  Q (f (c_calls c)) (set_calls (c_calls c + 1) c) -> wlp (ask f) Q c.
Proof. by intros HQ a c' [= <- <-]. Qed.

Lemma wlp_emit e (Q : unit -> conn -> Prop) c : Q tt (set_trace (c_trace c ++ [e]) c) -> wlp (emit e) Q c.
Proof. by intros HQ [] c' [= <-]. Qed.

Lemma wlp_lift {A} (m : outcome A) (Q : A -> conn -> Prop) c : (forall a, m = Done a -> Q a c) -> wlp (lift m) Q c.
Proof. unfold lift. intros HQ a c'. destruct m; [intros [= <- <-]; auto|done]. Qed.

Lemma wlp_when b m (Q : unit -> conn -> Prop) c :
  (b = true -> wlp m Q c) -> (b = false -> Q tt c) -> wlp (when b m) Q c.
Proof. unfold when. destruct b; [auto|]. intros _ HQ. by apply wlp_ret, HQ. Qed.

Lemma wlp_true {A} (m : TM A) c : wlp m (fun _ _ => True) c.
Proof. done. Qed.

Lemma wlp_skip {A B} (m : TM A) (k : A -> TM B) (Q : B -> conn -> Prop) c :
  (forall a c', wlp (k a) Q c') -> wlp (m ≫= k) Q c.
Proof. intros Hk. apply wlp_bind. eapply wlp_mono; [apply wlp_true|]. intros a c' _. apply Hk. Qed.

Lemma twp_is_wlp {A} (m : TM A) (Q : A -> conn -> Prop) c : twp m Q c -> wlp m Q c.
Proof. unfold twp, wlp. intros Hm a c' He. by rewrite He in Hm. Qed.

Lemma twp_wlp {A} (m : TM A) (Q R : A -> conn -> Prop) c :
  twp m Q c -> wlp m R c -> twp m (fun a c' => Q a c' /\ R a c') c.
Proof. unfold twp, wlp. destruct (m c) as [[a c']|]; [auto|done]. Qed.

End rules.

(** ** The bytes of a queue *)

Definition queued (l : list tcp_seg) : list Z := concat (map sg_data l).

Lemma queued_app l k : queued (l ++ k) = queued l ++ queued k.
Proof. unfold queued. by rewrite map_app, concat_app. Qed.

Lemma queued_update_last f l d :
  (forall s, sg_data (f s) = sg_data s ++ d) -> (l = [] -> d = []) -> queued (update_last f l) = queued l ++ d.
Proof.
  intros Hf Hd. destruct (last l) as [s|] eqn:Hl.
  - apply last_inv in Hl as [k ->]. rewrite update_last_snoc, !queued_app. unfold queued at 2 4. simpl.
    by rewrite Hf, !app_nil_r, app_assoc.
  - unfold update_last. rewrite Hl. apply last_None in Hl as ->. by rewrite Hd.
Qed.

Section write.
Context `{Environment}.
Implicit Types c : conn.

Lemma write_segments_bytes fuel m data : forall pos queue oversize n c,
  0 <= pos <= zlen data -> zlen data < 2 ^ 16 ->
  wlp (tcp_write_segments fuel m data pos queue oversize n) (fun r c' =>
    c_pcb c' = c_pcb c /\
    match r with Some (queue', _, _) => queued queue' = queued queue ++ zdrop pos data | None => True end) c.
Proof.
  induction fuel as [|fuel IH]; intros pos queue oversize n c Hpos H16; [by apply wlp_abort|]. simpl.
  destruct (Z.ltb_spec pos (zlen data)) as [Hlt|Hge].
  2:{ apply wlp_ret. split; [done|]. by rewrite zdrop_all, app_nil_r by lia. }
  apply wlp_bind, wlp_pcb. set (seglen := Z.min _ _). apply wlp_bind.
  assert (0 <= seglen <= zlen data - pos) as Hseg.
  { unfold seglen. rewrite (wrap_small 16 (zlen data - pos)) by (unfold fits; lia).
    pose proof (wrap_fits 16 (m - LWIP_TCP_OPT_LENGTH 0) ltac:(lia)) as [Hf _]. lia. }
  unfold tcp_pbuf_prealloc, granted, address. apply wlp_bind, wlp_ask.
  destruct (env_grants _); [|by apply wlp_ret, wlp_ret].
  apply wlp_bind, wlp_ask, wlp_ret. destruct (tcp_data_copy _ _ _ _) as [chksum swapped].
  destruct (_ <? _); [by apply wlp_ret|]. apply wlp_bind.
  unfold tcp_create_segment, granted. apply wlp_bind, wlp_pcb, wlp_bind, wlp_ask.
  destruct (env_grants _); [|by apply wlp_ret, wlp_ret].
  apply wlp_bind, wlp_assert; intros _. apply wlp_ret. rewrite (wrap_small 16 (pos + seglen)) by (unfold fits; lia).
  eapply wlp_mono; [apply IH; lia|]. intros r c' [Hp Hr]. split; [done|]. destruct r as [[[queue' o] k]|]; [|done].
  rewrite Hr, queued_app, <- app_assoc. unfold queued at 2. simpl. rewrite app_nil_r. f_equal.
  rewrite <- (ztake_zdrop seglen (zdrop pos data)) at 2. by rewrite zdrop_zdrop by lia.
Qed.

Lemma write_oversize_used m len c :
  0 <= len -> wlp (tcp_write_oversize m len) (fun r c' => c' = c /\ 0 <= r.1.2 <= len) c.
Proof.
  intros Hlen. unfold tcp_write_oversize. apply wlp_bind, wlp_pcb. destruct (last _) as [s|].
  - do 2 (apply wlp_bind, wlp_assert; intros _). destruct (Z.ltb_spec 0 (unsent_oversize (tx (c_pcb c)))).
    + apply wlp_bind, wlp_assert; intros Hs%Z.leb_le. apply wlp_bind, wlp_assert; intros _. apply wlp_ret. split; [done|]. cbn [fst snd]. lia.
    + apply wlp_bind, wlp_assert; intros _. by apply wlp_ret.
  - apply wlp_bind, wlp_assert; intros _. by apply wlp_ret.
Qed.

Lemma extend_seg_data d s : sg_data (extend_seg d s) = sg_data s ++ d.
Proof. unfold extend_seg. by destruct (tcp_data_copy _ _ _ _). Qed.

(** What was written is at the end of the queue. *)
Lemma write_bytes data apiflags c :
  zlen data < 2 ^ 16 ->
  wlp (tcp_write (Some data) apiflags) (fun err c' => err = ERR_OK ->
    queued (unsent (tx (c_pcb c'))) = queued (unsent (tx (c_pcb c))) ++ data) c.
Proof.
  intros H16. pose proof (zlen_nonneg data) as Hn. unfold tcp_write. apply wlp_bind, wlp_pcb. cbv zeta. apply wlp_bind.
  apply (wlp_mono _ (fun err c' => err = ERR_OK -> c' = c)).
  { unfold tcp_write_checks. apply wlp_bind, wlp_pcb. destruct (_ && _); [by apply wlp_ret|].
    destruct (_ =? 0); [by apply wlp_ret|].
    destruct (_ <? _); [by apply wlp_bind, wlp_upd_pcb, wlp_ret|].
    destruct (_ <=? _); [by apply wlp_bind, wlp_upd_pcb, wlp_ret|]. apply wlp_bind, wlp_assert; intros _. by apply wlp_ret. }
  intros err c1 Herr. case_bool_decide as He; cbn [negb]; [|by apply wlp_ret]. rewrite (Herr He). clear c1 err Herr He.
  apply wlp_bind. eapply wlp_mono; [by apply write_oversize_used|].
  intros [[oversize used] is_last] c1 [-> Hused]. simpl in Hused. cbv beta iota. apply wlp_bind.
  eapply wlp_mono; [by apply write_segments_bytes|]. intros r c1 [Hp Hr]. destruct r as [[[queue o] n]|].
  2:{ apply wlp_bind, wlp_upd_pcb, wlp_bind, wlp_pcb, wlp_bind, wlp_assert; intros _. by apply wlp_ret. }
  change (queued []) with (@nil Z) in Hr. simpl in Hr. rewrite <- Hp. clear Hp c. rename c1 into c.
  apply wlp_bind. unfold tcp_write_commit. apply wlp_bind, wlp_pcb. cbv zeta. apply wlp_bind.
  eapply (wlp_mono _ (fun _ c' => queued (unsent (tx (c_pcb c'))) = queued (unsent (tx (c_pcb c))) ++ ztake used data)).
  { apply wlp_when; intros Hu.
    - apply wlp_bind, wlp_assert; intros Hlast. apply wlp_upd_pcb. cbn.
      apply queued_update_last; [apply extend_seg_data|]. intros Hnil. by rewrite Hnil in Hlast.
    - apply Z.ltb_ge in Hu. assert (used = 0) as -> by lia. unfold ztake; simpl; by rewrite app_nil_r. }
  intros _ c1 H1. do 5 apply wlp_bind, wlp_upd_pcb. apply wlp_bind, wlp_pcb, wlp_bind, wlp_assert; intros _.
  assert (queued (unsent (tx (c_pcb c1)) ++ queue) = queued (unsent (tx (c_pcb c))) ++ data) as H2
    by (by rewrite queued_app, H1, Hr, <- app_assoc, ztake_zdrop).
  apply wlp_bind, wlp_when; intros _; [apply wlp_upd_pcb|]; apply wlp_emit, wlp_ret; intros _; [|exact H2].
  rewrite <- H2. etransitivity; [|apply app_nil_r]. apply queued_update_last; [by intros; rewrite app_nil_r|done].
Qed.

End write.

(** ** Output within the window *)

Section window.
Context `{Environment}.
Implicit Types c : conn.

(** An event carries no data, or data that ends within [wnd] of [la]. *)
Definition within (la wnd : Z) (e : event) : Prop :=
  match e with
  | Output o _ => o_data o = [] \/ u32 (u32 (o_seqno o - la) + zlen (o_data o)) <= wnd
  | _ => True
  end.

Definition nodelay c : bool := has (pcb_flags (c_pcb c)) TF_NODELAY.

(** The connection stays what it is; so do its addresses and ports once the local
    address is chosen. *)
Record same_place c c' : Prop := mk_same_place {
  sp_live : c_live c' = c_live c;
  sp_list : c_list c' = c_list c;
  sp_input : c_input_pcb c' = c_input_pcb c;
  sp_state : pcb_state (c_pcb c') = pcb_state (c_pcb c);
  sp_id : ip_addr_isany (id_local_ip (pcb_id (c_pcb c))) = false -> pcb_id (c_pcb c') = pcb_id (c_pcb c);
}.
#[local] Hint Extern 0 (same_place _ _) => split; done : core.

(** What output leaves alone, and what it sends. *)
Record paced wnd c c' : Prop := mk_paced {
  pd_lastack : lastack (tx (c_pcb c')) = lastack (tx (c_pcb c));
  pd_nodelay : nodelay c' = nodelay c;
  pd_place : same_place c c';
  pd_trace : exists es, c_trace c' = c_trace c ++ es /\ Forall (within (lastack (tx (c_pcb c))) wnd) es;
}.

#[export] Instance paced_refl wnd : Reflexive (paced wnd).
Proof. intros c. split; try done. exists []. by rewrite app_nil_r. Qed.

#[export] Instance paced_trans wnd : Transitive (paced wnd).
Proof.
  intros a b c [L1 N1 I1 (es & E1 & F1)] [L2 N2 I2 (fs & E2 & F2)]. rewrite L1 in F2. split; [congruence..| |].
  { destruct I1 as [V1 T1 P1 S1 I1], I2 as [V2 T2 P2 S2 I2]. split; [congruence..|]. intros Hi.
    pose proof (I1 Hi) as E. rewrite <- E. apply I2. by rewrite E. }
  exists (es ++ fs). rewrite E2, E1, app_assoc. split; [done|]. by apply Forall_app.
Qed.

(** Nothing is sent. *)
Lemma paced_same wnd c c' :
  lastack (tx (c_pcb c')) = lastack (tx (c_pcb c)) -> nodelay c' = nodelay c -> c_trace c' = c_trace c ->
  same_place c c' -> paced wnd c c'.
Proof. intros Hl Hn Ht Hi. split; [done..|]. exists []. by rewrite Ht, app_nil_r. Qed.

Lemma paced_event wnd c c' e :
  lastack (tx (c_pcb c')) = lastack (tx (c_pcb c)) -> nodelay c' = nodelay c -> c_trace c' = c_trace c ++ [e] ->
  within (lastack (tx (c_pcb c))) wnd e -> same_place c c' -> paced wnd c c'.
Proof. intros Hl Hn Ht He Hi. split; [done..|]. exists [e]. split; [done|]. by apply Forall_singleton. Qed.

Lemma nodelay_set f c : has f TF_NODELAY = false -> nodelay (set_pcb (set_flags (u16 (Z.lor (pcb_flags (c_pcb c)) f)) (c_pcb c)) c) = nodelay c.
Proof. intros Hf. unfold nodelay. cbn. rewrite has_u16. change (Z.land 0xffff TF_NODELAY) with TF_NODELAY. by rewrite has_lor, Hf, orb_false_r. Qed.

(** *** One segment *)

Lemma ip_output_wlp o wnd c :
  (o_data o = [] \/ u32 (u32 (o_seqno o - lastack (tx (c_pcb c))) + zlen (o_data o)) <= wnd) ->
  wlp (ip_output_if o) (fun _ c' => c_pcb c' = c_pcb c /\ paced wnd c c') c.
Proof.
  intros Ho. unfold ip_output_if. apply wlp_bind, wlp_ask, wlp_bind, wlp_emit, wlp_ret.
  split; [done|]. by eapply paced_event.
Qed.

Lemma output_segment_wlp seg wnd c :
  fits_window (c_pcb c) seg wnd = true ->
  wlp (tcp_output_segment seg) (fun _ c' => unsent (tx (c_pcb c')) = unsent (tx (c_pcb c)) /\ paced wnd c c') c.
Proof.
  intros Hfit%Z.leb_le. unfold tcp_output_segment. destruct (tcp_output_segment_busy seg); [by apply wlp_ret|].
  apply wlp_bind, wlp_pcb. cbv zeta. apply wlp_bind, wlp_upd_pcb. apply wlp_bind, wlp_upd_pcb.
  apply wlp_bind, wlp_gets, wlp_bind, wlp_upd_pcb. do 2 (apply wlp_bind, wlp_assert; intros _).
  apply wlp_bind, wlp_lift. intros chk _.
  eapply wlp_mono; [apply (ip_output_wlp _ wnd); right; exact Hfit|].
  intros e c' [Hp Hs]. rewrite Hp. split; [done|]. etransitivity; [|exact Hs]. by apply paced_same.
Qed.

Lemma empty_ack_wlp wnd c :
  wlp tcp_send_empty_ack (fun _ c' => unsent (tx (c_pcb c')) = unsent (tx (c_pcb c)) /\ paced wnd c c') c.
Proof.
  unfold tcp_send_empty_ack, tcp_output_alloc_header, tcp_output_alloc_header_common, granted.
  apply wlp_bind, wlp_pcb, wlp_bind, wlp_bind, wlp_pcb, wlp_bind, wlp_bind, wlp_ask.
  destruct (env_grants _); apply wlp_ret, wlp_bind.
  2:{ apply wlp_when; [done|intros _]. apply wlp_ret, wlp_bind, wlp_upd_pcb, wlp_ret. split; [done|].
      apply paced_same; try done. by apply (nodelay_set _ (set_calls (c_calls c + 1) c)). }
  apply wlp_when; [intros _|done]. apply wlp_upd_pcb, wlp_ret, wlp_bind.
  unfold tcp_output_control_segment, tcp_route. apply wlp_bind, wlp_ask.
  eapply (wlp_mono _ (fun _ c' => unsent (tx (c_pcb c')) = unsent (tx (c_pcb c)) /\ paced wnd c c')).
  { destruct (env_route _); cbn [negb]; [|apply wlp_ret; split; [done|by apply paced_same]].
    unfold tcp_output_control_segment_netif, address. apply wlp_bind, wlp_ask, wlp_bind, wlp_lift. intros chk _.
    eapply wlp_mono; [apply (ip_output_wlp _ wnd); by left|]. intros e c' [Hp Hs]. rewrite Hp. split; [done|].
    etransitivity; [|exact Hs]. by apply paced_same. }
  intros err c1 [Hu Hs]. apply wlp_bind. destruct (negb _); apply wlp_upd_pcb, wlp_ret; (split; [done|]);
    (etransitivity; [exact Hs|]); apply paced_same; try done; unfold nodelay; cbn; flags; by rewrite ?orb_false_r.
Qed.

(** *** The queue *)

(** What output leaves is not for it to send: there is nothing left, or the next
    segment does not fit the window. *)
Definition drained wnd c : Prop :=
  match unsent (tx (c_pcb c)) with
  | [] => True
  | seg :: _ => fits_window (c_pcb c) seg wnd = false
  end.

Lemma output_loop_wlp fuel wnd : forall c,
  wlp (tcp_output_loop fuel wnd) (fun r c' =>
    paced wnd c c' /\ match r with Some err => err <> ERR_OK | None => nodelay c = true -> drained wnd c' end) c.
Proof.
  induction fuel as [|fuel IH]; intros c; [by apply wlp_abort|]. simpl. apply wlp_bind, wlp_pcb.
  destruct (unsent (tx (c_pcb c))) as [|seg rest] eqn:Hu.
  { apply wlp_ret. split; [done|]. intros _. unfold drained. by rewrite Hu. }
  destruct (fits_window (c_pcb c) seg wnd) eqn:Hfit; cbn [negb].
  2:{ apply wlp_ret. split; [done|]. intros _. unfold drained. by rewrite Hu. }
  apply wlp_bind, wlp_assert; intros _.
  destruct (negb (tcp_do_output_nagle _) && _) eqn:Hnagle.
  { apply wlp_ret. split; [done|]. intros Hn. exfalso. apply andb_true_iff in Hnagle as [Hnagle%negb_true_iff _].
    unfold tcp_do_output_nagle in Hnagle. rewrite has_lor_r in Hnagle. unfold nodelay in Hn. rewrite Hn in Hnagle.
    by rewrite orb_true_r in Hnagle. }
  set (seg' := if negb _ then _ else seg). apply wlp_bind, wlp_upd_pcb.
  match goal with |- wlp _ _ ?d => set (c1 := d) end.
  assert (paced wnd c c1) as H1 by (by apply paced_same).
  apply wlp_bind. eapply wlp_mono; [apply (output_segment_wlp _ wnd)|].
  { rewrite <- Hfit. unfold seg'. by destruct (negb (state_is _ _)). }
  intros err c2 [_ H2]. assert (paced wnd c c2) as H02 by (by transitivity c1). clear H1 H2.
  case_bool_decide as Herr; cbn [negb].
  2:{ apply wlp_bind, wlp_upd_pcb, wlp_ret. split; [|done]. etransitivity; [exact H02|].
    apply paced_same; try done. by apply nodelay_set. }
  apply wlp_bind, wlp_upd_pcb, wlp_bind.
  eapply (wlp_mono _ (fun _ c' => paced wnd c c')).
  { assert (forall d, paced wnd c2 d -> paced wnd c d) as Hd by (intros; by transitivity c2).
    apply wlp_when; intros _; [apply wlp_upd_pcb|]; apply Hd, paced_same; try done.
    unfold nodelay. cbn. flags. done. }
  intros _ c3 H3. cbv zeta. apply wlp_bind, wlp_upd_pcb, wlp_bind.
  eapply (wlp_mono _ (fun _ c' => paced wnd c c')).
  { assert (forall d, paced wnd c3 d -> paced wnd c d) as Hd by (intros; by transitivity c3).
    apply wlp_when; intros _; [apply wlp_upd_pcb|]; apply Hd, paced_same; try done; cbn; by case_match. }
  intros _ c4 H4. eapply wlp_mono; [apply IH|]. intros r c5 [H5 Hr]. split; [by transitivity c4|].
  destruct r; [done|]. intros Hn. apply Hr. by rewrite (pd_nodelay _ _ _ H4).
Qed.

Lemma output_done_wlp (Q : err_t -> conn -> Prop) c :
  Q ERR_OK (set_pcb (set_flags (u16 (Z.land (pcb_flags (c_pcb c)) (Z.land (Z.lnot TF_NAGLEMEMERR) 0xffff))) (c_pcb c)) c) ->
  wlp output_done Q c.
Proof. intros HQ. unfold output_done. by apply wlp_bind, wlp_upd_pcb, wlp_ret. Qed.

Lemma output_wlp c :
  c_input_pcb c = false ->
  wlp tcp_output (fun err c' =>
    paced (snd_wnd (tx (c_pcb c))) c c' /\
    (err = ERR_OK -> nodelay c = true -> drained (snd_wnd (tx (c_pcb c))) c')) c.
Proof.
  intros Hi. unfold tcp_output. apply wlp_bind, wlp_pcb, wlp_bind, wlp_assert; intros _.
  apply wlp_bind, wlp_gets. rewrite Hi. cbv zeta. set (wnd := snd_wnd (tx (c_pcb c))).
  assert (forall d, lastack (tx (c_pcb d)) = lastack (tx (c_pcb c)) -> drained wnd d -> paced wnd c d ->
    wlp (if has (pcb_flags (c_pcb c)) TF_ACK_NOW then tcp_send_empty_ack else output_done)
      (fun err c' => paced wnd c c' /\ (err = ERR_OK -> nodelay c = true -> drained wnd c')) d) as Hlast.
  { intros d Hla Hd Hp.
    assert (forall d', unsent (tx (c_pcb d')) = unsent (tx (c_pcb d)) -> paced wnd d d' -> drained wnd d') as Hdr.
    { intros d' Hu [Hl _ _]. unfold drained, fits_window in *. by rewrite Hu, Hl. }
    destruct (has _ _).
    - eapply wlp_mono; [apply (empty_ack_wlp wnd)|]. intros e c' [Hu Hp']. split; [by transitivity d|]. eauto.
    - apply output_done_wlp. match goal with |- paced _ _ ?d' /\ _ => assert (paced wnd d d') as Hp' end.
      { apply paced_same; try done. unfold nodelay. cbn. by flags. }
      split; [by transitivity d|]. intros _ _. by apply Hdr. }
  destruct (unsent (tx (c_pcb c))) as [|seg rest] eqn:Hu.
  { apply Hlast; [done| |done]. unfold drained. by rewrite Hu. }
  unfold tcp_route. apply wlp_bind, wlp_ask.
  match goal with |- wlp _ _ ?d => assert (paced wnd c d) as H0 by (by apply paced_same); clearbody wnd end.
  destruct (env_route _); cbn [negb]; [|by apply wlp_ret].
  apply wlp_bind. eapply (wlp_mono _ (fun _ c' => unsent (tx (c_pcb c')) = seg :: rest /\ paced wnd c c')).
  { destruct (ip_addr_isany _) eqn:Hany; [|by apply wlp_ret].
    destruct (env_local_ip _); [|by apply wlp_ret]. apply wlp_bind, wlp_upd_pcb, wlp_ret. split; [done|].
    apply paced_same; try done. split; [done..|]. cbn. congruence. }
  intros ok c1 [Hu1 H1]. destruct (negb ok); [by apply wlp_ret|].
  destruct (fits_window (c_pcb c) seg wnd) eqn:Hfit; cbn [negb].
  2:{ apply wlp_bind. eapply (wlp_mono _ (fun _ c' => unsent (tx (c_pcb c')) = seg :: rest /\ paced wnd c c')).
      - assert (forall d, paced wnd c1 d -> paced wnd c d) as Hd by (intros; by transitivity c1).
        apply wlp_when; intros _; [|done]. apply wlp_upd_pcb. split; [done|]. by apply Hd, paced_same.
      - intros _ c2 [Hu2 H2]. pose proof (pd_lastack _ _ _ H2) as Hla. apply Hlast; [done| |done].
        unfold drained, fits_window in *. by rewrite Hu2, Hla. }
  apply wlp_bind, wlp_upd_pcb, wlp_bind. eapply wlp_mono; [apply (output_loop_wlp _ wnd)|].
  intros r c2 [H2 Hr]. assert (paced wnd c c2) as H02.
  { transitivity c1; [done|]. etransitivity; [|exact H2]. by apply paced_same. }
  destruct r as [err|]; [by apply wlp_ret|].
  apply wlp_bind, wlp_upd_pcb. apply output_done_wlp. split.
  - transitivity c2; [done|]. apply paced_same; [by destruct (unsent (tx (c_pcb c2)))| |done|done].
    unfold nodelay. cbn. by flags.
  - intros _ Hn.
    assert (nodelay (set_pcb (set_tm (set_persist_backoff 0 (tm (c_pcb c1))) (c_pcb c1)) c1) = true) as Hn1
      by (rewrite <- Hn; apply (pd_nodelay _ _ _ H1)).
    specialize (Hr Hn1). unfold drained, fits_window in *. cbn.
    destruct (unsent (tx (c_pcb c2))) as [|s l] eqn:Hu2; cbn; by rewrite Hu2.
Qed.

End window.
