(* ===== verification/TcpMain.v ===== *)
(** * A connection from its first segment to its end

    The theorems about TCP: the two byte streams of a connection under any sequence
    of segments, timers and calls; writing; options; resets; segments in order; the
    peer's window; giving up. *)
From Stdlib Require Import ZArith Lia.
From stdpp Require Import base list option numbers gmap.
From S2P Require Import Prelude Pbuf Chksum Lwip Tcp TcpOut TcpApi TcpIn TcpOptions TcpInv TcpOutProofs TcpWriteProofs TcpQueueProofs TcpApiProofs TcpAckProofs TcpDataProofs TcpInProofs TcpInputProofs TcpTimerProofs TcpTraffic.

(** ** What happens to a connection *)

(** A segment arrives, the application calls between two segments, a timer runs. *)
Inductive operation :=
| Segment (s : in_segment)
| Call (a : app_prog)
| CloseCall
| AbortCall
| SlowTimer (timer_ctr : Z)
| FastTimer (timer_ctr : Z)
| TxNow.

Section operations.
Context `{Environment}.

(** The list the connection is on decides who handles it; nobody does once it is back
    in its pool. *)
Definition perform (o : operation) : TM unit :=
  live ← gets c_live;
  l ← gets c_list;
  if negb live then mret tt else
  match o, l with
  | Segment s, ActiveList => tcp_input_pcb s
  | Segment s, TimeWaitList => tcp_timewait_input s
  | Call a, _ => _ ← run_app a; mret tt
  | CloseCall, _ => _ ← tcp_close; mret tt
  | AbortCall, _ => tcp_abort
  | SlowTimer ctr, ActiveList => _ ← tick; tcp_slowtmr_active ctr
  | SlowTimer ctr, TimeWaitList => _ ← tick; tcp_slowtmr_tw
  | FastTimer ctr, ActiveList => tcp_fasttmr_active ctr
  | TxNow, ActiveList => tcp_txnow_active
  | _, _ => mret tt
  end.

Fixpoint perform_all (os : list operation) : TM unit :=
  match os with
  | [] => mret tt
  | o :: os => _ ← perform o; perform_all os
  end.

Variables (irs : Z) (stream : list Z).

(** The peer sends its stream and no new maximum segment size; the application keeps
    to the API between segments. *)
Definition allowed (o : operation) (c : conn) : Prop :=
  match o with
  | Segment s => of_peer irs stream c s
  | Call a => calm a \/ courteous a
  | _ => True
  end.

Fixpoint legal (os : list operation) (c : conn) : Prop :=
  match os with
  | [] => True
  | o :: os => allowed o c /\ forall c', perform o c = Done (tt, c') -> legal os c'
  end.

(** The slow timer may fail an assertion now. *)
Definition stops (o : operation) (c : conn) : bool :=
  match o with
  | SlowTimer _ => c_live c && bool_decide (c_list c = ActiveList) && persist_fault c
  | _ => false
  end.

Variable iss : Z.
Hypothesis app_orderly : orderly env_app.
Hypothesis short_stream : zlen stream < 2 ^ 30.

Lemma perform_ok o c : 
  at_rest iss irs stream c -> allowed o c -> stops o c = false ->
  twp (perform o) (fun _ c' => at_rest iss irs stream c') c.
Proof.
  intros Hr Ho Hstop. unfold perform. apply twp_bind, twp_gets, twp_bind, twp_gets.
  destruct (c_live c) eqn:Hl; cbn [negb]; [|by apply twp_ret].
  assert (forall n fin t, active iss irs stream n fin c -> active iss irs stream n fin (set_ticks t c)) as Hclock.
  { intros n fin t Ha. by apply (active_clock iss irs stream n fin t false). }
  destruct o as [s|a| | |ctr|ctr| ]; destruct (c_list c) eqn:Hlist; simpl in Ho; try by apply twp_ret.
  all: try (destruct (rest_active iss irs stream c Hr Hl Hlist) as (n & fin & Ha)).
  all: try (apply twp_bind; eapply twp_mono; [by (destruct Ho; [apply app_rest|apply courteous_rest])|by intros; apply twp_ret]).
  all: try (apply twp_bind; eapply twp_mono; [by apply close_rest|by intros e c' [_ ?]; apply twp_ret]).
  all: try (eapply twp_mono; [by apply abandon_rest|by intros u c' []]).
  - by apply input_pcb_ok.
  - eapply twp_mono; [by apply timewait_input_ok|]. by intros u c' [].
  - apply twp_bind, twp_modify. eapply slowtmr_ok; [done|by apply Hclock|].
    cbn [stops] in Hstop. by rewrite Hl, Hlist in Hstop.
  - apply twp_bind, twp_modify. apply slowtmr_tw_ok; [|done|done]. destruct Hr as [[]|n fin left Hh ? ?]; [congruence|].
    right with n fin left; [|done|done]. by destruct (hands_clock iss irs stream n fin left (u32 (c_ticks c + 1)) false c Hh).
  - eapply twp_mono; [apply (fasttmr_ok app_orderly iss irs stream ctr n fin c Ha)|]. intros u c' Ha'. apply (active_rest _ _ _ n fin), Ha'.
  - eapply twp_mono; [apply (txnow_ok iss irs stream n fin c Ha)|]. intros u c' Ha'. apply (active_rest _ _ _ n fin), Ha'.
Qed.

(** Everything is performed, up to a slow timer that may fail. *)
Lemma perform_all_ok os : forall c,
  at_rest iss irs stream c -> legal os c -> exists os1 os2 c',
    os = os1 ++ os2 /\ perform_all os1 c = Done (tt, c') /\ at_rest iss irs stream c' /\
    match os2 with [] => True | o :: _ => stops o c' = true end.
Proof.
  induction os as [|o os IH]; intros c Hr; [intros _; by exists [], [], c|]. intros [Ho Hos].
  destruct (stops o c) eqn:Hstop; [by exists [], (o :: os), c|].
  destruct (twp_done _ _ _ (perform_ok o c Hr Ho Hstop)) as ([] & c1 & He & Hr1).
  destruct (IH c1 Hr1 (Hos c1 He)) as (os1 & os2 & c' & -> & Hrun & Hr' & Hend).
  exists (o :: os1), os2, c'. split_and!; try done. simpl. unfold mbind, tm_bind. by rewrite He.
Qed.

End operations.

(** ** A new connection *)

(** A control block from the pool, a SYN for it and the listener that takes it: the
    listener has an accept callback, the peer offers at least two full segments of
    window and its maximum segment size is usable, also after the limits of the path. *)
Record new_connection `{Environment} (l : tcp_pcb_listen) (s : in_segment) (c : conn) : Prop := mk_new_connection {
  nc_pcb : exists prio ticks ctr, c_pcb c = tcp_alloc_pcb prio ticks ctr;
  nc_live : c_live c = true;
  nc_list : c_list c = NoList;
  nc_input : c_input_pcb c = false;
  nc_trace : c_trace c = [];
  nc_accept : l_accept l <> None;
  nc_options : options_ok (i_opts s);
  nc_window : 2 * TCP_MSS <= i_wnd s;
  nc_mss : forall m, MaxSegmentSize m ∈ options (i_opts s) -> 8 <= m;
  nc_path : forall m outif, 8 <= m -> 8 <= tcp_eff_send_mss_netif m outif (ad_src_ip (i_addr s));
}.

Lemma new_connection_rests `{Environment} iss stream l s c :
  new_connection l s c -> twp (tcp_listen_input_syn l s iss) (fun _ c' => at_rest iss (i_seqno s) stream c') c.
Proof. intros [(prio & ticks & ctr & Hp)]. by apply (listen_ok _ _ _ l s prio ticks ctr). Qed.

Lemma rest_trace `{Environment} iss irs stream c :
  at_rest iss irs stream c ->
  Forall (event_ok iss (written (c_trace c))) (c_trace c) /\ received stream (c_trace c).
Proof. intros [[]|n fin left [] _ _]; split; try done. by destruct hd_sending. Qed.

(** ** Ends of a connection *)

Section ends.
Context `{Environment}.
Variables (iss irs : Z) (stream : list Z).
Implicit Types c : conn.

(** The application is told, as the last thing. *)
Definition told (c0 : conn) (e : err_t) (c : conn) : Prop :=
  c_live c = false /\
  (cb_errf (cb (c_pcb c0)) = true -> ErrCall (callback_arg (cb (c_pcb c0))) e ∈ c_trace c).

Lemma slow_remove_told reset c : wlp (slow_remove reset) (fun _ c' => told c ERR_ABRT c') c.
Proof.
  unfold slow_remove. apply wlp_bind, wlp_pcb. do 2 (apply wlp_skip; intros ? ?).
  apply wlp_bind, wlp_pcb, wlp_skip. intros _ c1. apply wlp_bind. unfold tcp_free.
  apply wlp_bind, wlp_pcb, wlp_bind, wlp_assert. intros _. apply wlp_modify, wlp_bind, wlp_modify.
  apply wlp_when; intros Herr; [apply wlp_emit|]; (split; [done|]); [|congruence].
  intros _. cbn. rewrite elem_of_app. right. by left.
Qed.

Lemma given_up_ok ctr n fin c :
  active iss irs stream n fin c -> TCP_MAXRTX <= nrtx (cc (c_pcb c)) -> last_timer (tm (c_pcb c)) <> ctr ->
  twp (tcp_slowtmr_active ctr) (fun _ c' => told c ERR_ABRT c') c.
Proof.
  intros Ha Hn Hctr. pose proof Ha as [Hh Hact Hi]. unfold tcp_slowtmr_active. apply twp_bind, twp_pcb; [apply Hh|].
  destruct (hands_active _ _ _ _ _ _ _ Hh Hact) as [_ Hst]. destruct (Hst Hact) as [Hst1 Hst2].
  do 3 (apply twp_bind, twp_assert;
    [unfold state_is; rewrite bool_decide_false; [done|]; try done; apply (hd_open _ _ _ _ _ _ _ Hh)|]).
  rewrite (proj2 (Z.eqb_neq _ _) Hctr). apply twp_bind.
  eapply twp_mono; [apply (active_sends iss irs stream _ (fun _ c' => nrtx (cc (c_pcb c')) = nrtx (cc (c_pcb c))) _ _ _ Ha)|].
  { intros. apply sends_upd; [done|frame|ignored|done]. }
  intros _ c1 (Ha1 & Hs1 & Hn1). apply twp_bind.
  eapply (twp_mono _ (fun gone c' => gone = true /\ c' = c1)).
  { unfold retransmission_tick. apply twp_bind, twp_pcb; [apply Ha1|]. destruct (_ && _); [by apply twp_ret|].
    rewrite (proj2 (Z.leb_le _ _)) by lia. by apply twp_ret. }
  intros gone c2 [-> ->]. apply twp_bind, twp_pcb; [apply Ha1|]. apply twp_bind, twp_gets, twp_bind.
  eapply twp_mono; [eapply (active_sends iss irs stream _ _ _ _ _ Ha1); intros; by apply keepalive_tick_ok|].
  intros reset c3 (Ha3 & Hs3 & _). apply twp_bind, twp_pcb; [apply Ha3|]. cbn [orb].
  eapply twp_mono; [apply twp_wlp; [by eapply slow_remove_ok; apply Ha3|apply slow_remove_told]|].
  intros _ c4 [_ Ht]. unfold told in *. by rewrite (st_cb _ _ Hs3), (st_cb _ _ Hs1) in Ht.
Qed.

Lemma input_done_told c0 e c : told c0 e c -> wlp tcp_input_done (fun _ c' => told c0 e c') c.
Proof.
  intros [Hl Ht]. unfold tcp_input_done. apply wlp_bind, wlp_modify, wlp_bind, wlp_in, wlp_bind.
  apply (wlp_mono _ (fun _ c' => told c0 e c')); [|by intros _ c1 Hc1; apply wlp_upd_in].
  destruct (inseg_p _); [apply wlp_emit|apply wlp_ret]; (split; [done|]); intros Herr; cbn;
    rewrite ?elem_of_app; auto.
Qed.

(** A reset in sequence. *)
Lemma reset_told c :
  c_live c = true -> sending iss c -> on_list ActiveList c -> has (recv_flags (c_in c)) TF_RESET = true ->
  twp tcp_input_events (fun _ c' => told c ERR_RST c') c.
Proof.
  intros Hl Hc Hon Hr. unfold tcp_input_events. apply twp_bind, twp_in. rewrite Hr.
  apply twp_bind, twp_pcb; [done|]. apply twp_bind.
  eapply (twp_mono _ (fun _ c' => exists es, c' = set_trace (c_trace c ++ es) c /\ sending iss c' /\
    (cb_errf (cb (c_pcb c)) = true -> ErrCall (callback_arg (cb (c_pcb c))) ERR_RST ∈ es))).
  { unfold TCP_EVENT_ERR. apply twp_when; intros He.
    - apply twp_emit. eexists. split_and!; [done|by apply sending_app_event|].
      intros _. by left.
    - exists []. rewrite app_nil_r. split_and!; [by destruct c|done|congruence]. }
  intros _ c1 (es & -> & Hc1 & Hes). apply twp_bind. eapply twp_mono; [by apply (remove_ok iss ActiveList)|].
  intros _ c2 (Hl2 & _ & Hc2 & (fs & Hfs & _) & _ & _). eapply twp_mono; [by apply (free_ok iss)|].
  intros _ c3 ->. split; [done|]. intros He. cbn in *. rewrite Hfs, !elem_of_app. auto.
Qed.

(** A segment that left nothing to report only lets output run. *)
Lemma nothing_to_report s n fin c :
  hands iss irs stream n fin [] c -> c_list c = ActiveList -> c_in c = input_globals s ->
  twp tcp_input_events (fun _ c' => active iss irs stream n fin c' /\ pcb_state (c_pcb c') = pcb_state (c_pcb c)) c.
Proof.
  intros Hh Hact Hi. unfold tcp_input_events, tcp_input_delayed_close, deliver_data, deliver_fin.
  apply twp_bind, twp_in. rewrite Hi. apply twp_bind, twp_ret, twp_bind, twp_bind, twp_in. rewrite Hi.
  apply twp_ret, twp_bind, twp_bind, twp_in. rewrite Hi. apply twp_ret, twp_bind, twp_bind, twp_in. rewrite Hi.
  apply twp_ret, twp_bind, twp_modify, twp_bind, twp_bind, twp_in. change (c_in (set_input_pcb false c)) with (c_in c).
  rewrite Hi. apply twp_ret, twp_bind.
  assert (active iss irs stream n fin (set_input_pcb false c)) as Ha by (split; [by apply hands_input|done|done]).
  eapply twp_mono; [eapply (active_sends iss irs stream _ _ _ _ _ Ha); intros; by apply output_ok|].
  intros e c1 (Ha1 & Hs1 & _). apply twp_ret. split; [done|apply Hs1].
Qed.

Lemma input_done_active n fin c :
  active iss irs stream n fin c ->
  twp tcp_input_done (fun _ c' => active iss irs stream n fin c' /\ pcb_state (c_pcb c') = pcb_state (c_pcb c)) c.
Proof.
  intros [Hh Hact _]. unfold tcp_input_done. apply twp_bind, twp_modify, twp_bind, twp_in, twp_bind.
  assert (forall d, c_list d = ActiveList -> pcb_state (c_pcb d) = pcb_state (c_pcb c) -> hands iss irs stream n fin [] d -> c_input_pcb d = false ->
    twp (upd_in (fun i => set_inseg_p None (set_recv_data None i)))
      (fun _ c' => active iss irs stream n fin c' /\ pcb_state (c_pcb c') = pcb_state (c_pcb c)) d) as Hlast.
  { intros d Hd1 Hst Hd2 Hd3. apply twp_upd_in. split; [|done]. split; [by apply hands_in|done|done]. }
  apply (hands_input _ _ _ _ _ _ false) in Hh.
  destruct (inseg_p _) as [b|]; [apply twp_emit|apply twp_ret]; apply Hlast; try done.
  apply (hands_kept _ _ _ _ _ _ _ _ Hh); [|done|by apply (sending_app_event iss (set_input_pcb false c)); [apply Hh|]].
  split; try done. by apply quiet_one.
Qed.

Lemma reset_ok s n fin c :
  active iss irs stream n fin c -> refused_data (rx (c_pcb c)) = None -> has (i_flags s) TCP_RST = true ->
  twp (tcp_input_pcb s) (fun _ c' =>
    if i_seqno s =? rcv_nxt (rx (c_pcb c)) then told c ERR_RST c'
    else active iss irs stream n fin c' /\ pcb_state (c_pcb c') = pcb_state (c_pcb c)) c.
Proof.
  intros Ha Href Hrst. pose proof Ha as [Hh Hact Hi]. pose proof Hh as [Hl Hc _ (Ho1 & _ & Ho3) _ _ _ _ _ _].
  destruct (hands_active _ _ _ _ _ _ _ Hh Hact) as [Hon Hst].
  unfold tcp_input_pcb. apply twp_bind, twp_modify, twp_bind. unfold retry_refused. apply twp_bind, twp_pcb; [done|].
  cbn [c_pcb set_in]. rewrite Href. apply twp_ret, twp_bind, twp_bind, twp_modify, twp_bind.
  match goal with |- twp _ _ ?d => set (c1 := d) end.
  assert (hands iss irs stream n fin [] c1) as Hh1 by (by apply hands_input, hands_in).
  unfold tcp_process. apply twp_bind, twp_in, twp_bind, twp_pcb; [done|]. cbv zeta.
  change (in_flags (c_in c1)) with (i_flags s). rewrite Hrst. unfold process_rst.
  apply twp_bind, twp_in, twp_bind, twp_pcb; [done|]. cbv zeta. apply twp_bind.
  unfold state_is at 1. rewrite bool_decide_false by done.
  change (in_seqno (c_in c1)) with (i_seqno s). change (rcv_nxt (rx (c_pcb c1))) with (rcv_nxt (rx (c_pcb c))).
  destruct (_ =? _).
  - apply twp_ret, twp_bind, twp_assert.
    { unfold state_is. by rewrite bool_decide_false. }
    apply twp_bind, twp_upd_in, twp_bind, twp_upd_pcb; [done|]. apply twp_ret.
    rewrite bool_decide_false by done. eapply twp_mono; [apply reset_told; [done| |by split|cbn; by flags]|].
    + apply (sending_same iss c); try done. cbn. by flags.
    + intros u c2 Ht. cbv beta in Ht. apply (twp_mono _ (fun _ c' => True /\ told c ERR_RST c')); [|by intros _ ? [_ ?]].
      apply twp_wlp; [|by apply input_done_told].
      unfold tcp_input_done. apply twp_bind, twp_modify, twp_bind, twp_in, twp_bind. by destruct (inseg_p _).
  - apply twp_bind. eapply (twp_mono _ (fun _ c' => hands iss irs stream n fin [] c' /\ steps c1 c')).
    { eapply twp_mono; [apply (hands_sends iss irs stream _ (fun _ _ => True) _ _ _ _ Hh1)|by intros ? ? (? & ? & _)].
      intros. unfold when. destruct (TCP_SEQ_BETWEEN _ _ _); [by apply sends_flags_set|by apply sends_ret]. }
    intros _ c2 [Hh2 Hs2]. apply twp_ret, twp_ret. rewrite bool_decide_false by done.
    assert (c_in c2 = input_globals s) as Hi2 by apply Hs2.
    eapply twp_mono; [apply (nothing_to_report s n fin c2); [exact Hh2|by rewrite (st_list _ _ Hs2)|exact Hi2]|]. intros _ c3 [Ha3 Hst3].
    eapply twp_mono; [by apply (input_done_active n fin)|]. intros _ c4 [Ha4 Hst4]. split; [done|].
    by rewrite Hst4, Hst3, (st_state _ _ Hs2).
Qed.

End ends.

(** ** A small world for the examples *)

Module Demo.

(** Every request is granted, every packet is sent. *)
Definition application_echo : application := mk_app
  (fun _ => Set_ (Arg 1) (Set_ (Recv (Some app_recv_fn)) (Set_ (Sent true) (Set_ (Err true)
              (Set_ NagleDisable (Return ERR_OK))))))
  (fun _ => Return ERR_OK)
  (fun _ _ d => match d with
              | Some d => if zlen d <? 2 ^ 16
                          then Write d 1 (fun _ => OutputNow (fun _ => Recved (zlen d) (Return ERR_OK)))
                          else Return ERR_OK
              | None => Return ERR_OK
              end)
  (fun _ _ _ => Return ERR_OK)
  (fun _ => Return ERR_OK).

#[export] Instance world : Environment :=
  mk_environment (fun _ => true) (fun _ => ERR_OK) (fun _ => true) 1500 1500 [] (fun _ => None)
    (fun _ => 0) (fun _ => 0) application_echo.

Definition peer : addressing :=
  mk_addressing (mk_ip_addr [10; 0; 0; 2] IPADDR_TYPE_V4) (mk_ip_addr [10; 0; 0; 1] IPADDR_TYPE_V4) 40000 443.

Definition segment (seqno ackno flags : Z) (opts data : list Z) : in_segment :=
  mk_in_segment peer seqno ackno flags 65535 opts data.

Definition syn : in_segment := segment 100 0 TCP_SYN [2; 4; 5; 180; 1; 3; 3; 7] [].

Definition listening : tcp_pcb_listen :=
  mk_listen (mk_ip_addr [0; 0; 0; 0] IPADDR_TYPE_ANY) 0 64 0 0 7 (Some app_accept_fn).

Definition new : conn :=
  mk_conn (tcp_alloc_pcb 64 5 0) NoList true false (input_globals syn) 5 false 0 [].

(** The peer opens, sends "hi" twice over, and closes. *)
Definition hi : list Z := [104; 105].
Definition life : list operation :=
  [Segment (segment 101 6516 TCP_ACK [] []);
   Segment (segment 101 6516 (Z.lor TCP_PSH TCP_ACK) [] hi);
   FastTimer 1; SlowTimer 6;
   Segment (segment 101 6516 (Z.lor TCP_PSH TCP_ACK) [] hi);
   Call (Write [33] 1 (fun _ => OutputNow (fun e => Return ERR_OK)));
   Segment (segment 103 6519 (Z.lor TCP_FIN TCP_ACK) [] []);
   CloseCall;
   Segment (segment 104 6520 TCP_ACK [] [])].

(** Established, with [l] waiting to be sent and [k] retransmissions behind it. *)
Definition established (l : list tcp_seg) (written : list Z) (k : Z) : conn :=
  let lbb := 6516 + zlen written in
  mk_conn
    (mk_pcb ESTABLISHED (Z.lor TF_WND_SCALE TF_NODELAY)
       (mk_identity (ad_dest_ip peer) (ad_src_ip peer) 443 40000 0 0 TCP_TTL 1 64)
       (mk_receiver 101 TCP_WND TCP_WND (101 + TCP_WND) TCP_RCV_SCALE None)
       (mk_sender 6516 101 6516 lbb 65535 65535 (TCP_SND_BUF - zlen written) (zlen l) 0 6516 1460 7 0 l [])
       (mk_congestion 46720 TCP_SND_BUF 0 0 0 0 0 5 5 k)
       (mk_timers (-1) 5 0 0 0 0 0 0 0 TCP_KEEPIDLE_DEFAULT)
       (mk_callbacks 1 (Some app_recv_fn) true false false true (Some (Some app_accept_fn))))
    ActiveList true false (input_globals syn) 5 false 0
    (match written with [] => [] | _ => [Written written] end).

Definition hi_segment : tcp_seg := mk_seg TF_SEG_DATA_CHECKSUMMED 0 0x6968 false 6516 5 TCP_PSH 0 hi 1.

Lemma orderly_echo : orderly env_app.
Proof.
  split; try (intros; by auto); try (intros; by left).
  - intros arg t [d|] _; left; [|done]. simpl. destruct (Z.ltb_spec (zlen d) (2 ^ 16)); [|done]. by split.
Qed.

Lemma new_syn : new_connection listening syn new.
Proof.
  split; try done.
  - by exists 64, 5, 0.
  - split; [|by vm_compute]. repeat constructor; by vm_compute.
  - intros m. change (options _) with [MaxSegmentSize 1460; WindowScale 7].
    intros [[= ->]|[?|?%elem_of_nil]%elem_of_cons]%elem_of_cons; done.
  - intros m [] Hm; unfold tcp_eff_send_mss_netif; simpl; [|done].
    change (u16 _) with 1460. lia.
Qed.

Lemma segment_of_peer c s :
  i_opts s = [] -> tcp_segment_len s <= 3 ->
  (0 < tcp_segment_len s -> exists q pre post, i_seqno s = u32 (101 + q) /\ hi = pre ++ i_data s ++ post /\
     zlen pre = q /\ (has (i_flags s) TCP_FIN = true -> post = [])) ->
  of_peer 100 hi c s.
Proof.
  intros Ho Hl Hs. split; [rewrite Ho; by split|rewrite Ho; constructor|lia|].
  intros Hpos _. destruct (Hs Hpos) as (q & pre & post & ? & ? & ? & ?). exists q. split; [done|]. by exists pre, post.
Qed.

Lemma hi_segment_ok : seg_ok 6515 hi 1460 hi_segment.
Proof. split; try done; [|by right]. right. by exists [], []. Qed.

Lemma demo_active k : 0 <= k < 256 -> active 6515 100 hi 0 false (established [hi_segment] hi k).
Proof.
  intros Hk. split; [|done|done]. split; try done.
  - split; [by split| |repeat constructor]. split; try done.
    by apply Forall_singleton, hi_segment_ok.
  - split; [by exists hi|]. intros [|i] a e; done.
  - by intros [? ?].
Qed.

Lemma life_legal c : legal 100 hi life c.
Proof.
  simpl. split; [by apply segment_of_peer|intros ? _].
  split; [apply segment_of_peer; [done..|by exists 0, [], []]|intros ? _]. do 2 (split; [first [done|by left]|intros ? _]).
  split; [apply segment_of_peer; [done..|by exists 0, [], []]|intros ? _]. split; [first [done|by left]|intros ? _].
  split; [apply segment_of_peer; [done..|by exists 2, hi, []]|intros ? _]. split; [first [done|by left]|intros ? _].
  split; [by apply segment_of_peer|done].
Qed.

End Demo.
Import Demo.

(** C5: a connection is opened by a usable SYN: the peer offers at least two segments
    of window and a maximum segment size of at least 8. Then whatever its peer sends of
    one stream of less than 2^30 bytes, in whatever order and pieces, with no maximum
    segment size option after the SYN, whatever an orderly application does, closing in a
    callback included, and whenever the timers run, whichever allocations and
    transmissions fail: everything is carried out without a failed assertion and without
    use of a freed control block, up to the end or up to a slow timer that finds the
    persist timer running with segments in flight, with nothing to send, with a head that
    can be neither probed nor split, or with a full queue. What was carried out sent only
    bytes the application wrote, at their place of the stream; what the application
    accepted is a prefix of the peer's stream, and the end of the stream was reported only
    after all of it. *)
Theorem connection_streams `{Environment} iss stream l s c :
  orderly env_app -> zlen stream < 2 ^ 30 -> new_connection l s c ->
  exists c1, tcp_listen_input_syn l s iss c = Done (tt, c1) /\
  forall os, legal (i_seqno s) stream os c1 ->
  exists os1 os2 c2, os = os1 ++ os2 /\ perform_all os1 c1 = Done (tt, c2) /\
    match os2 with [] => True | o :: _ => stops o c2 = true end /\
    (forall o r, Output o r ∈ c_trace c2 -> carries iss (written (c_trace c2)) (o_seqno o) (o_data o)) /\
    (exists rest, taken (c_trace c2) ++ rest = stream) /\
    (forall i arg e, c_trace c2 !! i = Some (ClosedCall arg e) -> taken (take i (c_trace c2)) = stream).
Proof.
  intros Happ Hshort Hnew. destruct (twp_done _ _ _ (new_connection_rests iss stream l s c Hnew)) as ([] & c1 & -> & Hr).
  exists c1. split; [done|]. intros os Hos.
  destruct (perform_all_ok _ _ _ Happ Hshort os c1 Hr Hos) as (os1 & os2 & c2 & Hsplit & Hrun & Hr2 & Hend).
  apply rest_trace in Hr2 as [Hsent [Hp Hc]]. exists os1, os2, c2. split_and!; try done.
  intros o r Hin. rewrite Forall_forall in Hsent. by apply (Hsent (Output o r)).
Qed.

Lemma connection_streams_witness :
  exists c1, tcp_listen_input_syn Demo.listening Demo.syn 6515 Demo.new = Done (tt, c1) /\
  exists os1 os2 c2, Demo.life = os1 ++ os2 /\ perform_all os1 c1 = Done (tt, c2) /\
    match os2 with [] => True | o :: _ => stops o c2 = true end /\
    (forall o r, Output o r ∈ c_trace c2 -> carries 6515 (written (c_trace c2)) (o_seqno o) (o_data o)) /\
    (exists rest, taken (c_trace c2) ++ rest = Demo.hi) /\
    (forall i arg e, c_trace c2 !! i = Some (ClosedCall arg e) -> taken (take i (c_trace c2)) = Demo.hi).
Proof.
  destruct (connection_streams 6515 Demo.hi Demo.listening Demo.syn Demo.new) as (c1 & H1 & H2);
    [apply Demo.orderly_echo|done|apply Demo.new_syn|].
  exists c1. split; [exact H1|]. apply H2, Demo.life_legal.
Defined.

(** ** Writing and sending *)

(** C22: [tcp_write] on a connection in use is all or nothing: with [ERR_OK] the data is
    at the end of the queue, byte for byte, and nothing in flight moved; otherwise the
    answer is [ERR_MEM] and nothing changed but a flag, whichever allocation failed and
    however many segments were already prepared. *)
Theorem write_all_or_nothing `{Environment} iss irs stream data apiflags n fin c :
  active iss irs stream n fin c -> writable (pcb_state (c_pcb c)) = true -> zlen data < 2 ^ 16 ->
  exists err c', tcp_write (Some data) apiflags c = Done (err, c') /\ active iss irs stream n fin c' /\
    (err = ERR_OK /\
     queued (unsent (tx (c_pcb c'))) = queued (unsent (tx (c_pcb c))) ++ data /\
     unacked (tx (c_pcb c')) = unacked (tx (c_pcb c)) /\
     c_trace c' = c_trace c ++ [Written data]
     \/
     err = ERR_MEM /\ c_trace c' = c_trace c /\
     c_pcb c' = set_flags (u16 (Z.lor (pcb_flags (c_pcb c)) TF_NAGLEMEMERR)) (c_pcb c)).
Proof.
  intros Ha Hw H16. pose proof Ha as [Hh Hact _]. destruct Hh as [Hl Hc _ _ _ _ _ _ _ _].
  destruct (twp_done _ _ _ (twp_wlp _ _ _ _ (write_ok iss data apiflags c Hl Hc Hact Hw H16)
    (write_bytes data apiflags c H16))) as (err & c' & -> & (Hs & Hc' & Hp) & Hq).
  exists err, c'. split; [done|]. split.
  - destruct Ha as [Hh Ha1 Ha2]. split; [by eapply hands_steps|by rewrite (st_list _ _ Hs)|by rewrite (st_input _ _ Hs)].
  - case_bool_decide as He; [left; subst err|by right]. destruct Hp as (Ht & Hu & _). auto.
Qed.

Lemma write_all_or_nothing_witness :
  exists err c', tcp_write (Some hi) 1 (established [hi_segment] hi 0) = Done (err, c') /\
    active 6515 100 hi 0 false c' /\
    (err = ERR_OK /\
     queued (unsent (tx (c_pcb c'))) = [104; 105] ++ hi /\
     unacked (tx (c_pcb c')) = [] /\
     c_trace c' = [Written hi] ++ [Written hi]
     \/
     err = ERR_MEM /\ c_trace c' = [Written hi] /\
     c_pcb c' = set_flags (u16 (Z.lor (Z.lor TF_WND_SCALE TF_NODELAY) TF_NAGLEMEMERR))
       (c_pcb (established [hi_segment] hi 0))).
Proof.
  apply (write_all_or_nothing 6515 100 hi hi 1 0 false (established [hi_segment] hi 0));
    [by apply demo_active|done|done].
Defined.

(** ** Receiving *)

Lemma trim_front_next `{Environment} c :
  c_live c = true -> fits 32 (in_seqno (c_in c)) -> rcv_nxt (rx (c_pcb c)) = in_seqno (c_in c) ->
  twp trim_front (fun _ c' => c' = c) c.
Proof.
  intros Hl Hf Hn. unfold trim_front. apply twp_bind, twp_in, twp_bind, twp_pcb; [done|]. cbv zeta. rewrite Hn.
  assert (forall m, TCP_SEQ_BETWEEN (in_seqno (c_in c)) (u32 (in_seqno (c_in c) + 1)) m = false) as ->.
  { intros m. rewrite seq_between_spec. apply andb_false_iff. left. apply Z.ltb_ge.
    unfold wrap. rewrite Zminus_mod_idemp_r. by replace (in_seqno (c_in c) - (in_seqno (c_in c) + 1)) with (-1) by lia. }
  rewrite seq_lt_spec, Z.sub_diag. by apply twp_ret.
Qed.

(** What is left of a segment that is taken whole. *)
Definition taken_whole (data : list Z) (fl : Z) (c c' : conn) : Prop :=
  rcv_nxt (rx (c_pcb c')) = u32 (in_seqno (c_in c) + inseg_tcplen (c_in c)) /\
  rcv_wnd (rx (c_pcb c')) = rcv_wnd (rx (c_pcb c)) - inseg_tcplen (c_in c) /\
  recv_data (c_in c') = (if 0 <? zlen data then Some (mk_rx_pbuf data fl) else recv_data (c_in c)) /\
  recv_flags (c_in c') = Z.lor (recv_flags (c_in c)) (if has (inseg_hdrflags (c_in c)) TCP_FIN then TF_GOT_FIN else 0) /\
  has (pcb_flags (c_pcb c')) TF_ACK_NOW = true.

Lemma accept_segment_whole `{Environment} data fl c :
  c_live c = true -> inseg_p (c_in c) = Some (mk_rx_pbuf data fl) ->
  0 < inseg_tcplen (c_in c) <= rcv_wnd (rx (c_pcb c)) -> rcv_wnd (rx (c_pcb c)) <= TCP_WND ->
  twp accept_segment (fun _ c' => taken_whole data fl c c') c.
Proof.
  intros Hl Hp Htl Hw. unfold taken_whole. change TCP_WND with 1495040 in Hw.
  set (len := inseg_tcplen (c_in c)) in *. set (wnd := rcv_wnd (rx (c_pcb c))) in *.
  unfold accept_segment. apply twp_bind.
  eapply (twp_mono _ (fun _ c' => c' = set_in (set_tcplen len (c_in c)) c)).
  { unfold trim_end. apply twp_bind, twp_in, twp_bind, twp_pcb; [done|]. apply twp_bind, twp_upd_in.
    fold len wnd. rewrite (proj2 (Z.ltb_ge wnd len)) by lia. by apply twp_ret. }
  intros _ c1 ->. apply twp_bind, twp_in, twp_bind, twp_pcb; [done|]. apply twp_bind, twp_upd_pcb; [done|].
  apply twp_bind, twp_assert; [apply Z.leb_le; cbn; fold wnd; lia|]. apply twp_bind, twp_upd_pcb; [done|].
  apply twp_bind. unfold tcp_update_rcv_ann_wnd. apply twp_bind, twp_pcb; [done|].
  destruct (new_rcv_ann_wnd _) as [w infl]. apply twp_bind, twp_upd_pcb; [done|]. apply twp_ret.
  cbn [inseg_p c_in set_in set_tcplen]. rewrite Hp. apply twp_bind. cbn [rp_data].
  set (i2 := if 0 <? zlen data then set_inseg_p None (set_recv_data (Some (mk_rx_pbuf data fl)) (set_tcplen len (c_in c)))
             else set_tcplen len (c_in c)).
  match goal with |- twp _ _ ?d => set (c2 := d) end.
  apply (twp_mono _ (fun _ c' => c' = set_in i2 c2)).
  { unfold i2. apply twp_when; intros ->; [by apply twp_upd_in|]. by destruct c. }
  intros _ c3 ->. apply twp_bind. set (fin := has (inseg_hdrflags (c_in c)) TCP_FIN).
  set (i3 := if fin then set_recv_flags (Z.lor (recv_flags i2) TF_GOT_FIN) i2 else i2).
  apply (twp_mono _ (fun _ c' => c' = set_in i3 c2)).
  { unfold i3. change (inseg_hdrflags (set_tcplen len (c_in c))) with (inseg_hdrflags (c_in c)). fold fin. by destruct fin. }
  intros _ c4 ->. apply twp_upd_pcb; [done|]. split_and!; [done| | | |].
  - change (u32 (wnd - len) = wnd - len). apply wrap_small. unfold fits. lia.
  - change (recv_data i3 = if 0 <? zlen data then Some (mk_rx_pbuf data fl) else recv_data (c_in c)).
    unfold i3, i2. by destruct fin, (0 <? zlen data).
  - change (recv_flags i3 = Z.lor (recv_flags (c_in c)) (if fin then TF_GOT_FIN else 0)).
    unfold i3, i2. destruct fin, (0 <? zlen data); cbn; by rewrite ?Z.lor_0_r.
  - cbn. flags. by rewrite orb_true_r.
Qed.

(** C23: a segment that starts at the next sequence number expected and fits the receive
    window is taken whole: [rcv_nxt] moves over its data and its FIN, the window
    shrinks by as much, the data is kept for the application, a FIN is noted, and an
    acknowledgement is due. *)
Theorem in_order_segment_taken `{Environment} data fl c :
  c_live c = true -> fits 32 (in_seqno (c_in c)) -> rcv_nxt (rx (c_pcb c)) = in_seqno (c_in c) ->
  inseg_p (c_in c) = Some (mk_rx_pbuf data fl) -> 0 < inseg_tcplen (c_in c) <= rcv_wnd (rx (c_pcb c)) ->
  rcv_wnd (rx (c_pcb c)) <= TCP_WND ->
  exists c', receive_data c = Done (tt, c') /\
    rcv_nxt (rx (c_pcb c')) = u32 (in_seqno (c_in c) + inseg_tcplen (c_in c)) /\
    rcv_wnd (rx (c_pcb c')) = rcv_wnd (rx (c_pcb c)) - inseg_tcplen (c_in c) /\
    recv_data (c_in c') = (if 0 <? zlen data then Some (mk_rx_pbuf data fl) else recv_data (c_in c)) /\
    recv_flags (c_in c') = Z.lor (recv_flags (c_in c)) (if has (inseg_hdrflags (c_in c)) TCP_FIN then TF_GOT_FIN else 0) /\
    has (pcb_flags (c_pcb c')) TF_ACK_NOW = true.
Proof.
  intros Hl Hf Hn Hp Htl Hw. assert (twp receive_data (fun _ c' => taken_whole data fl c c') c) as Ht;
    [|by destruct (twp_done _ _ _ Ht) as ([] & c' & ? & ?); exists c'].
  unfold receive_data. apply twp_bind.
  eapply twp_mono; [by apply trim_front_next|]. intros _ c1 ->. apply twp_bind, twp_in, twp_bind, twp_pcb; [done|]. cbv zeta.
  pose proof (accept_segment_whole data fl c Hl Hp Htl Hw) as Ha. change TCP_WND with 1495040 in Hw.
  set (wnd := rcv_wnd (rx (c_pcb c))) in *. rewrite Hn, seq_between_spec, Z.sub_diag, Z.eqb_refl.
  replace (u32 (u32 (in_seqno (c_in c) + wnd - 1) - in_seqno (c_in c))) with (u32 (wnd - 1))
    by (unfold wrap; rewrite Zminus_mod_idemp_l; f_equal; lia).
  rewrite (wrap_small 32 (wnd - 1)) by (unfold fits; lia). by rewrite (proj2 (Z.ltb_lt (wnd - 1) (2 ^ 31))) by lia.
Qed.

(** The peer's "hi" with its FIN, as [tcp_input] presents it. *)
Lemma in_order_segment_taken_witness :
  let c := set_in (input_globals (segment 101 6516 (Z.lor TCP_FIN TCP_ACK) [] hi)) (established [hi_segment] hi 0) in
  exists c', receive_data c = Done (tt, c') /\
    rcv_nxt (rx (c_pcb c')) = u32 (101 + 3) /\ rcv_wnd (rx (c_pcb c')) = TCP_WND - 3 /\
    recv_data (c_in c') = Some (mk_rx_pbuf hi 0) /\ recv_flags (c_in c') = Z.lor 0 TF_GOT_FIN /\
    has (pcb_flags (c_pcb c')) TF_ACK_NOW = true.
Proof. intros c. by apply (in_order_segment_taken hi 0 c). Defined.

(** C24: [tcp_output] on a connection in use sends only segments that end within the
    peer's window, counted from the oldest byte the peer did not acknowledge; and when
    it succeeds with Nagle's algorithm off, whatever stays queued starts with a segment
    that the window does not cover. *)
Theorem output_fills_window `{Environment} iss irs stream n fin c :
  active iss irs stream n fin c ->
  exists err c' es, tcp_output c = Done (err, c') /\ active iss irs stream n fin c' /\
    c_trace c' = c_trace c ++ es /\
    (forall o r, Output o r ∈ es -> o_data o = [] \/
       u32 (u32 (o_seqno o - lastack (tx (c_pcb c))) + zlen (o_data o)) <= snd_wnd (tx (c_pcb c))) /\
    (err = ERR_OK -> has (pcb_flags (c_pcb c)) TF_NODELAY = true ->
       match unsent (tx (c_pcb c')) with
       | [] => True
       | seg :: _ => snd_wnd (tx (c_pcb c)) < u32 (u32 (sg_seqno seg - lastack (tx (c_pcb c))) + sg_len seg)
       end).
Proof.
  intros Ha.
  destruct (twp_done _ _ _ (twp_wlp _ _ _ _ (active_sends iss irs stream tcp_output _ n fin c Ha
    (output_ok iss c)) (output_wlp c (ac_input _ _ _ _ _ _ Ha)))) as (err & c' & -> & (Ha' & _ & _) & [Hla _ _ (es & Hes & Hin)] & Hd).
  exists err, c', es. split_and!; [done..| |].
  - intros o r Ho. rewrite Forall_forall in Hin. by apply (Hin (Output o r)).
  - intros He Hn. specialize (Hd He Hn). unfold drained, fits_window in Hd. rewrite Hla in Hd.
    destruct (unsent _); [done|]. by apply Z.leb_gt in Hd.
Qed.

Lemma output_fills_window_witness :
  exists err c' es, tcp_output (established [hi_segment] hi 0) = Done (err, c') /\
    active 6515 100 hi 0 false c' /\ c_trace c' = [Written hi] ++ es /\
    (forall o r, Output o r ∈ es -> o_data o = [] \/
       u32 (u32 (o_seqno o - 6516) + zlen (o_data o)) <= 65535) /\
    (err = ERR_OK -> has (Z.lor TF_WND_SCALE TF_NODELAY) TF_NODELAY = true ->
       match unsent (tx (c_pcb c')) with
       | [] => True
       | seg :: _ => 65535 < u32 (u32 (sg_seqno seg - 6516) + sg_len seg)
       end).
Proof.
  apply (output_fills_window 6515 100 hi 0 false (established [hi_segment] hi 0)). by apply demo_active.
Defined.

(** ** Ending *)

(** C25: an RST ends a connection in use only when its sequence number is exactly the
    next one expected: then the control block is freed and the application's error
    callback, if any, is called with [ERR_RST]. With any other sequence number the
    connection stays as it is, in the same state. *)
Theorem reset_only_in_sequence `{Environment} iss irs stream n fin s c :
  active iss irs stream n fin c -> refused_data (rx (c_pcb c)) = None -> has (i_flags s) TCP_RST = true ->
  exists c', tcp_input_pcb s c = Done (tt, c') /\
    if i_seqno s =? rcv_nxt (rx (c_pcb c)) then
      c_live c' = false /\
      (cb_errf (cb (c_pcb c)) = true -> ErrCall (callback_arg (cb (c_pcb c))) ERR_RST ∈ c_trace c')
    else active iss irs stream n fin c' /\ pcb_state (c_pcb c') = pcb_state (c_pcb c).
Proof.
  intros Ha Href Hrst. destruct (twp_done _ _ _ (reset_ok iss irs stream s n fin c Ha Href Hrst)) as ([] & c' & -> & Hc').
  by exists c'.
Qed.

Lemma reset_only_in_sequence_witness :
  (exists c', tcp_input_pcb (segment 101 0 TCP_RST [] []) (established [hi_segment] hi 0) = Done (tt, c') /\
     c_live c' = false /\ (true = true -> ErrCall 1 ERR_RST ∈ c_trace c')) /\
  (exists c', tcp_input_pcb (segment 102 0 TCP_RST [] []) (established [hi_segment] hi 0) = Done (tt, c') /\
     active 6515 100 hi 0 false c' /\ pcb_state (c_pcb c') = ESTABLISHED).
Proof.
  split.
  - apply (reset_only_in_sequence 6515 100 hi 0 false (segment 101 0 TCP_RST [] []) (established [hi_segment] hi 0));
      [by apply demo_active|done|done].
  - apply (reset_only_in_sequence 6515 100 hi 0 false (segment 102 0 TCP_RST [] []) (established [hi_segment] hi 0));
      [by apply demo_active|done|done].
Defined.

(** C39: once a connection's data was retransmitted [TCP_MAXRTX] times without an answer
    the slow timer gives it up: the control block is freed and the application's error
    callback, if any, is called with [ERR_ABRT]. *)
Theorem retransmission_gives_up `{Environment} iss irs stream ctr n fin c :
  active iss irs stream n fin c -> TCP_MAXRTX <= nrtx (cc (c_pcb c)) -> last_timer (tm (c_pcb c)) <> ctr ->
  exists c', tcp_slowtmr_active ctr c = Done (tt, c') /\ c_live c' = false /\
    (cb_errf (cb (c_pcb c)) = true -> ErrCall (callback_arg (cb (c_pcb c))) ERR_ABRT ∈ c_trace c').
Proof.
  intros Ha Hn Hctr. destruct (twp_done _ _ _ (given_up_ok iss irs stream ctr n fin c Ha Hn Hctr)) as ([] & c' & -> & Hc').
  by exists c'.
Qed.

Lemma retransmission_gives_up_witness :
  exists c', tcp_slowtmr_active 1 (established [hi_segment] hi 8) = Done (tt, c') /\ c_live c' = false /\
    (true = true -> ErrCall 1 ERR_ABRT ∈ c_trace c').
Proof.
  apply (retransmission_gives_up 6515 100 hi 1 0 false (established [hi_segment] hi 8)); [by apply demo_active|done|done].
Defined.

(** ** Options *)

(** C40: whatever bytes a header holds as options and whatever lies behind them in
    memory, [tcp_parseopt] terminates and applies exactly the options the bytes say, in
    order, up to the first malformed one. *)
Theorem options_read `{Environment} c :
  Forall (fits 8) (in_opts (c_in c)) -> zlen (in_opts (c_in c)) <= 40 ->
  tcp_parseopt c = apply_options (options (in_opts (c_in c))) c.
Proof. intros Hb Hl. by apply parseopt_options. Qed.

Lemma options_read_witness :
  tcp_parseopt new = apply_options [MaxSegmentSize 1460; WindowScale 7] new.
Proof. apply (options_read new); [repeat constructor; done|done]. Defined.
