(* ===== verification/TcpStack.v ===== *)
(** * All connections ([tcp.c], [tcp_in.c])

    The lists of control blocks, and what chooses among them: [tcp_input] with its
    header decoding and its search for a connection or a listener, the answer to a SYN,
    allocation with its reclaiming of old connections, and the timers. A connection is
    run as in [TcpIn], with the globals of the stack; what is sent
    without a control block is in the trace of [k_none]. *)
From Stdlib Require Import ZArith Lia.
From stdpp Require Import base list option numbers gmap.
From S2P Require Import Prelude Pbuf Chksum ChksumProofs Lwip Icmp IpIn Tcp TcpOut TcpApi TcpIn TcpOptions TcpInv TcpOutProofs TcpDataProofs TcpInProofs TcpInputProofs TcpApiProofs TcpTimerProofs TcpTraffic TcpMain.
Import TcpMain.Demo.

(** ** The state *)

Record stack := mk_stack {
  k_active : list conn; k_tw : list conn; k_listen : list tcp_pcb_listen; k_gone : list conn;
  k_none : conn; k_in : input; k_ticks : Z; k_timer_ctr : Z; k_timer : Z; k_iss : Z; k_calls : Z;
}.

#[export] Instance stack_settable : Settable stack := fun k =>
  mk_stack (k_active k) (k_tw k) (k_listen k) (k_gone k) (k_none k) (k_in k) (k_ticks k)
    (k_timer_ctr k) (k_timer k) (k_iss k) (k_calls k).
Definition set_active : list conn -> stack -> stack := ltac:(setter k_active).
Definition set_tw : list conn -> stack -> stack := ltac:(setter k_tw).
Definition set_listen : list tcp_pcb_listen -> stack -> stack := ltac:(setter k_listen).
Definition set_gone : list conn -> stack -> stack := ltac:(setter k_gone).
Definition set_none : conn -> stack -> stack := ltac:(setter k_none).
Definition set_k_in : input -> stack -> stack := ltac:(setter k_in).
Definition set_k_ticks : Z -> stack -> stack := ltac:(setter k_ticks).
Definition set_timer_ctr : Z -> stack -> stack := ltac:(setter k_timer_ctr).
Definition set_timer : Z -> stack -> stack := ltac:(setter k_timer).
Definition set_iss : Z -> stack -> stack := ltac:(setter k_iss).
Definition set_k_calls : Z -> stack -> stack := ltac:(setter k_calls).

(** A connection with the globals of the stack, and the globals it leaves. *)
Definition enter (k : stack) (c : conn) : conn :=
  set_calls (k_calls k) (set_ticks (k_ticks k) (set_in (k_in k) c)).
Definition leave (c : conn) (k : stack) : stack := set_k_calls (c_calls c) (set_k_in (c_in c) k).

(** A connection that was taken off its list goes where it belongs: [TCP_REG] puts it
    at the front. *)
Definition place (c : conn) (k : stack) : stack :=
  if negb (c_live c) then set_gone (c :: k_gone k) k
  else match c_list c with
       | ActiveList => set_active (c :: k_active k) k
       | TimeWaitList => set_tw (c :: k_tw k) k
       | NoList | BoundList => set_gone (c :: k_gone k) k
       end.

Section stack.
Context `{Environment}.

(** [m] for a connection that was taken off its list. *)
Definition run_on (m : TM unit) (c : conn) (k : stack) : outcome stack :=
  '(_, c') ← m (enter k c);
  Done (place c' (leave c' k)).

(** Something done without a control block. *)
Definition run_none (m : TM unit) (k : stack) : outcome stack :=
  '(_, c') ← m (enter k (k_none k));
  Done (set_none c' (leave c' k)).

(** ** Headers *)

Definition be16_at (l : list Z) (i : Z) : Z := lwip_htons (le_combine (ztake 2 (zdrop i l))).
Definition be32_at (l : list Z) (i : Z) : Z := lwip_htonl (le_combine (ztake 4 (zdrop i l))).

Definition TCP_FLAGS : Z := 0x3f.
Definition TCPH_HDRLEN_BYTES (hdr : list Z) : Z := u8 (Z.shiftl (Z.shiftr (be16_at hdr 12) 12) 2).
Definition TCPH_FLAGS (hdr : list Z) : Z := Z.land (be16_at hdr 12) TCP_FLAGS.

(** The options and the data, from the pbufs of the packet (as their bytes); options
    may lie in the first pbuf and the second, [None] drops the packet. *)
Definition tcp_options (first : list Z) (rest : list (list Z)) (hdrlen_bytes : Z)
    : outcome (option (list Z * list Z)) :=
  let optlen := hdrlen_bytes - TCP_HLEN in
  if hdrlen_bytes <=? zlen first then
    Done (Some (ztake optlen (zdrop TCP_HLEN first), concat (zdrop hdrlen_bytes first :: rest)))
  else
    match rest with
    | [] => Undef
    | next :: rest =>
        let opt1 := zdrop TCP_HLEN first in
        let opt2len := u16 (optlen - zlen opt1) in
        if zlen next <? opt2len then Done None
        else Done (Some (opt1 ++ ztake opt2len next, concat (zdrop opt2len next :: rest)))
    end.

(** The header of a packet in host byte order, with its options and data. *)
Definition tcp_header (src dest : ip_addr_t) (chain : list (list Z)) : outcome (option in_segment) :=
  match chain with
  | [] => Undef
  | first :: rest =>
      let tot_len := zlen (concat chain) in
      if zlen first <? TCP_HLEN then Done None
      else
        let hdrlen_bytes := TCPH_HDRLEN_BYTES first in
        if (hdrlen_bytes <? TCP_HLEN) || (tot_len <? hdrlen_bytes) then Done None
        else
          r ← tcp_options first rest hdrlen_bytes;
          match r with
          | None => Done None
          | Some (opts, data) =>
              let flags := TCPH_FLAGS first in
              if has flags (Z.lor TCP_FIN TCP_SYN) && (u16 (zlen data + 1) <? zlen data) then Done None
              else Done (Some (mk_in_segment
                     (mk_addressing src dest (be16_at first 0) (be16_at first 2))
                     (be32_at first 4) (be32_at first 8) flags (be16_at first 14) opts data))
          end
  end.

(** ** The search *)

(** The connection is bound to another interface, or is this one. *)
Definition netif_matches (netif_idx idx : Z) : bool :=
  (netif_idx =? NETIF_NO_INDEX) || (netif_idx =? idx).

Definition conn_matches (idx : Z) (a : addressing) (c : conn) : bool :=
  let i := pcb_id (c_pcb c) in
  netif_matches (id_netif_idx i) idx
  && ((id_remote_port i =? ad_src a) && (id_local_port i =? ad_dest a)
      && ip_addr_eq (id_remote_ip i) (ad_src_ip a) && ip_addr_eq (id_local_ip i) (ad_dest_ip a)).

(** The first match, with what is before and after it. Every control block on the way
    must be in a state of its list. *)
Fixpoint search (ok : tcp_state -> bool) (f : conn -> bool) (l : list conn)
    : outcome (option (list conn * conn * list conn)) :=
  match l with
  | [] => Done None
  | c :: l =>
      if negb (ok (pcb_state (c_pcb c))) then Undef
      else if f c then Done (Some ([], c, l))
      else r ← search ok f l;
           Done (match r with Some (before, d, after) => Some (c :: before, d, after) | None => None end)
  end.

Definition active_state (s : tcp_state) : bool :=
  negb (state_is s CLOSED) && negb (state_is s TIME_WAIT) && negb (state_is s LISTEN).

Definition listen_version_match (l : tcp_pcb_listen) (a : ip_addr_t) : bool :=
  ip_type (l_local_ip l) =? ip_type a.

(** A listener for the port, of the address or of any address. *)
Definition listen_matches (idx : Z) (a : addressing) (l : tcp_pcb_listen) : bool :=
  netif_matches (l_netif_idx l) idx && (l_local_port l =? ad_dest a)
  && (IP_IS_ANY_TYPE (l_local_ip l)
      || (listen_version_match l (ad_dest_ip a)
          && (ip_addr_eq (l_local_ip l) (ad_dest_ip a) || ip_addr_isany (l_local_ip l)))).

(** A listener for all ports. *)
Definition listen_wildcard (a : addressing) (l : tcp_pcb_listen) : bool :=
  (l_local_port l =? 0) && listen_version_match l (ad_dest_ip a).

(** The listener, and the list with it at the front when it was found by its port. *)
Fixpoint to_front (f : tcp_pcb_listen -> bool) (before l : list tcp_pcb_listen)
    : option (tcp_pcb_listen * list tcp_pcb_listen) :=
  match l with
  | [] => None
  | p :: l => if f p then Some (p, p :: before ++ l) else to_front f (before ++ [p]) l
  end.

Definition find_listener (idx : Z) (a : addressing) (l : list tcp_pcb_listen)
    : option (tcp_pcb_listen * list tcp_pcb_listen) :=
  match to_front (listen_matches idx a) [] l with
  | Some r => Some r
  | None => p ← find (listen_wildcard a) l; Some (p, l)
  end.

(** ** Allocation *)

Definition inactivity (k : stack) (c : conn) : Z := u32 (k_ticks k - tmr (tm (c_pcb c))).

(** The index of the last of the longest inactive connections chosen by [f]. *)
Fixpoint oldest (k : stack) (f : conn -> bool) (i : nat) (l : list conn) (most : Z) (found : option nat)
    : option nat :=
  match l with
  | [] => found
  | c :: l =>
      if f c && (most <=? inactivity k c) then oldest k f (S i) l (inactivity k c) (Some i)
      else oldest k f (S i) l most found
  end.

(** The same among those of the lowest priority, up to [mprio]. *)
Fixpoint lowest_prio (k : stack) (i : nat) (l : list conn) (mprio most : Z) (found : option nat) : option nat :=
  match l with
  | [] => found
  | c :: l =>
      let prio := id_prio (pcb_id (c_pcb c)) in
      if (prio <? mprio) || ((prio =? mprio) && (most <=? inactivity k c))
      then lowest_prio k (S i) l prio (inactivity k c) (Some i)
      else lowest_prio k (S i) l mprio most found
  end.

(** Runs [m] for the [i]-th connection in use. *)
Definition run_active (m : TM unit) (i : option nat) (k : stack) : outcome stack :=
  match i with
  | None => Done k
  | Some i =>
      match k_active k !! i with
      | None => Done k
      | Some c => run_on m c (set_active (delete i (k_active k)) k)
      end
  end.

Definition TCP_PRIO_MAX : Z := 127.

Definition tcp_kill_prio (prio : Z) (k : stack) : outcome stack :=
  let mprio := Z.min TCP_PRIO_MAX prio in
  if mprio =? 0 then Done k
  else run_active tcp_abort (lowest_prio k 0 (k_active k) (mprio - 1) 0 None) k.

Definition tcp_kill_state (s : tcp_state) (k : stack) : outcome stack :=
  run_active (tcp_abandon false)
    (oldest k (fun c => state_is (pcb_state (c_pcb c)) s) 0 (k_active k) 0 None) k.

Definition tcp_kill_timewait (k : stack) : outcome stack :=
  match oldest k (fun _ => true) 0 (k_tw k) 0 None with
  | None => Done k
  | Some i =>
      match k_tw k !! i with
      | None => Done k
      | Some c => run_on tcp_abort c (set_tw (delete i (k_tw k)) k)
      end
  end.

(** [m] for the connections of [l] that are on the list, in order; those that stay
    on it keep their places. *)
Fixpoint run_all (m : conn -> TM unit) (kept l : list conn) (k : stack) : outcome stack :=
  match l with
  | [] => Done (set_active (kept ++ k_active k) k)
  | c :: l =>
      '(_, c') ← m c (enter k c);
      let k := leave c' k in
      if c_live c' && bool_decide (c_list c' = ActiveList) then run_all m (kept ++ [c']) l k
      else run_all m kept l (place c' k)
  end.

Definition all_active (m : conn -> TM unit) (k : stack) : outcome stack :=
  run_all m [] (k_active k) (set_active [] k).

(** [m] for a connection that keeps its place, as a call of the application does. *)
Definition on_active (m : TM unit) (i : nat) (k : stack) : outcome stack :=
  match k_active k !! i with
  | None => Done k
  | Some c =>
      '(_, c') ← m (enter k c);
      let k := leave c' k in
      if c_live c' && bool_decide (c_list c' = ActiveList) then Done (set_active (<[i:=c']> (k_active k)) k)
      else Done (place c' (set_active (delete i (k_active k)) k))
  end.

Definition tcp_handle_closepend : stack -> outcome stack :=
  all_active (fun c => when (has (pcb_flags (c_pcb c)) TF_CLOSEPEND)
                         (_ ← tcp_clear_flags TF_CLOSEPEND; _ ← tcp_close_shutdown_fin; mret tt)).

(** [memp_malloc(MEMP_TCP_PCB)] *)
Definition memp_malloc_tcp (k : stack) : bool * stack :=
  (env_grants (k_calls k), set_k_calls (k_calls k + 1) k).

(** Reclaims, one kind of connection after the other, until there is memory. *)
Fixpoint reclaim (kinds : list (stack -> outcome stack)) (k : stack) : outcome (bool * stack) :=
  match kinds with
  | [] => Done (false, k)
  | kind :: kinds =>
      k ← kind k;
      match memp_malloc_tcp k with
      | (true, k) => Done (true, k)
      | (false, k) => reclaim kinds k
      end
  end.

Definition tcp_alloc (prio : Z) (k : stack) : outcome (option tcp_pcb * stack) :=
  '(ok, k) ← match memp_malloc_tcp k with
             | (true, k) => Done (true, k)
             | (false, k) =>
                 k ← tcp_handle_closepend k;
                 reclaim [tcp_kill_timewait; tcp_kill_state LAST_ACK; tcp_kill_state CLOSING;
                          tcp_kill_prio prio] k
             end;
  Done (if (ok : bool) then Some (tcp_alloc_pcb prio (k_ticks k) (k_timer_ctr k)) else None, k).

(** ** A segment for a listener *)

Definition tcp_next_iss (k : stack) : Z * stack :=
  let iss := u32 (k_iss k + k_ticks k) in
  (iss, set_iss iss k).

(** Without memory the listener's callback is called with [ERR_MEM]. *)
Definition accept_failed (l : tcp_pcb_listen) (k : stack) : outcome stack :=
  match l_accept l with
  | Some app_accept_fn => run_none (emit (AcceptCall (l_callback_arg l) ERR_MEM)) k
  | Some tcp_accept_null_fn => Undef
  | None => Done k
  end.

Definition new_conn (p : tcp_pcb) (k : stack) : conn :=
  mk_conn p NoList true false (k_in k) (k_ticks k) false (k_calls k) [].

(** A reset for a segment that nobody wants. *)
Definition reset_stray (s : in_segment) (k : stack) : outcome stack :=
  let a := i_addr s in
  run_none (tcp_rst_netif true (i_ackno s) (u32 (i_seqno s + u16 (tcp_segment_len s)))
              (ad_dest_ip a) (ad_src_ip a) (ad_dest a) (ad_src a)) k.

Definition tcp_listen_input (l : tcp_pcb_listen) (s : in_segment) (k : stack) : outcome stack :=
  if has (i_flags s) TCP_RST then Done k
  else if has (i_flags s) TCP_ACK then reset_stray s k
  else if has (i_flags s) TCP_SYN then
    '(p, k) ← tcp_alloc (l_prio l) k;
    match p with
    | None => accept_failed l k
    | Some p => let '(iss, k) := tcp_next_iss k in run_on (tcp_listen_input_syn l s iss) (new_conn p k) k
    end
  else Done k.

(** ** [tcp_input] *)

Definition tcp_demultiplex (idx : Z) (s : in_segment) (k : stack) : outcome stack :=
  let a := i_addr s in
  r ← search active_state (conn_matches idx a) (k_active k);
  match r with
  | Some (before, c, after) => run_on (tcp_input_pcb s) c (set_active (before ++ after) k)
  | None =>
      r ← search (fun st => state_is st TIME_WAIT) (conn_matches idx a) (k_tw k);
      match r with
      | Some (before, c, after) =>
          '(_, c') ← tcp_timewait_input s (enter k c);
          Done (set_tw (before ++ c' :: after) (leave c' k))
      | None =>
          match find_listener idx a (k_listen k) with
          | Some (l, ls) => tcp_listen_input l s (set_listen ls k)
          | None => if negb (has (i_flags s) TCP_RST) then reset_stray s k else Done k
          end
      end
  end.

Definition tcp_input (inp : netif) (src dest : ip_addr_t) (chain : list (list Z)) (k : stack) : outcome stack :=
  if ip_addr_isbroadcast dest inp || ip_addr_ismulticast dest then Done k
  else
    s ← tcp_header src dest chain;
    match s with
    | None => Done k
    | Some s => tcp_demultiplex (netif_get_index inp) s k
    end.

(** ** Timers *)

Fixpoint slowtmr_tw (kept l : list conn) (k : stack) : outcome stack :=
  match l with
  | [] => Done (set_tw kept k)
  | c :: l =>
      '(_, c') ← tcp_slowtmr_tw (enter k c);
      let k := leave c' k in
      if c_live c' && bool_decide (c_list c' = TimeWaitList) then slowtmr_tw (kept ++ [c']) l k
      else slowtmr_tw kept l (place c' k)
  end.

(** A pass that is started again after a callback changed the list skips what it
    already handled, by [last_timer]; so one pass handles each connection once. *)
Definition tcp_slowtmr (k : stack) : outcome stack :=
  let k := set_timer_ctr (u8 (k_timer_ctr k + 1)) (set_k_ticks (u32 (k_ticks k + 1)) k) in
  k ← all_active (fun _ => tcp_slowtmr_active (k_timer_ctr k)) k;
  slowtmr_tw [] (k_tw k) (set_tw [] k).

Definition tcp_fasttmr (k : stack) : outcome stack :=
  let k := set_timer_ctr (u8 (k_timer_ctr k + 1)) k in
  all_active (fun _ => tcp_fasttmr_active (k_timer_ctr k)) k.

Definition tcp_tmr (k : stack) : outcome stack :=
  k ← tcp_fasttmr k;
  let k := set_timer (u8 (k_timer k + 1)) k in
  if negb (Z.land (k_timer k) 1 =? 0) then tcp_slowtmr k else Done k.

Definition tcp_txnow : stack -> outcome stack := all_active (fun _ => tcp_txnow_active).

End stack.

(** ** Byte order *)

Lemma htons_htons n : fits 16 n -> lwip_htons (lwip_htons n) = n.
Proof.
  intros Hn. pose proof (swap_range n) as Hr. unfold fits in *.
  rewrite (swap_htons n), swap_htons, !swap_value by (unfold fits; lia). div_lia.
Qed.

Lemma land_byte n k : 0 <= k -> Z.land n (Z.shiftl 255 k) = 2 ^ k * ((n / 2 ^ k) mod 256).
Proof.
  intros Hk. change 256 with (2 ^ 8). rewrite <- Z.land_ones, <- Z.shiftr_div_pow2, Z.mul_comm, <- Z.shiftl_mul_pow2 by lia.
  change (Z.ones 8) with 255. rewrite Z.shiftl_land. apply Z.bits_inj'. intros i Hi.
  rewrite !Z.land_spec. destruct (Z.lt_ge_cases i k).
  - rewrite (Z.shiftl_spec_low 255) by lia. by rewrite !andb_false_r.
  - rewrite (Z.shiftl_spec (Z.shiftr n k)), Z.shiftr_spec by lia. f_equal. f_equal. lia.
Qed.

Lemma lor_rev a b c d : Z.lor (Z.lor (Z.lor a b) c) d = Z.lor (Z.lor (Z.lor d c) b) a.
Proof.
  apply Z.bits_inj'. intros i _. rewrite !Z.lor_spec.
  by destruct (Z.testbit a i), (Z.testbit b i), (Z.testbit c i), (Z.testbit d i).
Qed.

Lemma htonl_value n :
  fits 32 n ->
  lwip_htonl n = n / 2 ^ 24 + 2 ^ 8 * (n / 2 ^ 16 mod 256) + 2 ^ 16 * (n / 2 ^ 8 mod 256) + 2 ^ 24 * (n mod 256).
Proof.
  unfold fits. intros Hn. unfold lwip_htonl.
  change 0x000000ff with (Z.shiftl 255 0). change 0x0000ff00 with (Z.shiftl 255 8).
  change 0x00ff0000 with (Z.shiftl 255 16). change 0xff000000 with (Z.shiftl 255 24).
  rewrite !land_byte by lia. rewrite !Z.shiftl_mul_pow2, !Z.shiftr_div_pow2 by lia.
  change (2 ^ 0) with 1. rewrite Z.div_1_r, Z.mul_1_l.
  assert (n / 2 ^ 24 mod 256 = n / 2 ^ 24) as -> by (apply Z.mod_small; div_lia).
  replace (2 ^ 24 * (n / 2 ^ 24) / 2 ^ 24) with (n / 2 ^ 24) by (rewrite Z.mul_comm, Z.div_mul; lia).
  replace (2 ^ 16 * (n / 2 ^ 16 mod 256) / 2 ^ 8) with (2 ^ 8 * (n / 2 ^ 16 mod 256)).
  2:{ change (2 ^ 16) with (2 ^ 8 * 2 ^ 8). rewrite <- Z.mul_assoc, (Z.mul_comm (2 ^ 8) (2 ^ 8 * _)), Z.div_mul by lia. done. }
  pose proof (Z.mod_pos_bound n 256 ltac:(lia)). pose proof (Z.mod_pos_bound (n / 2 ^ 8) 256 ltac:(lia)).
  pose proof (Z.mod_pos_bound (n / 2 ^ 16) 256 ltac:(lia)).
  assert (0 <= n / 2 ^ 24 < 256) by div_lia.
  rewrite !wrap_small by (unfold fits; lia).
  replace (n mod 256 * 2 ^ 24) with (2 ^ 24 * (n mod 256)) by lia.
  replace (2 ^ 8 * (n / 2 ^ 8 mod 256) * 2 ^ 8) with (2 ^ 16 * (n / 2 ^ 8 mod 256)) by lia.
  rewrite lor_rev. set (b0 := n mod 256) in *. set (b1 := n / 2 ^ 8 mod 256) in *. set (b2 := n / 2 ^ 16 mod 256) in *.
  set (b3 := n / 2 ^ 24) in *. clearbody b0 b1 b2 b3.
  rewrite (lor_shifted b3 b2 8), (lor_shifted _ b1 16), (lor_shifted _ b0 24) by lia. lia.
Qed.

Lemma four_digits b0 b1 b2 b3 :
  0 <= b0 < 256 -> 0 <= b1 < 256 -> 0 <= b2 < 256 -> 0 <= b3 < 256 ->
  let m := b0 + 2 ^ 8 * b1 + 2 ^ 16 * b2 + 2 ^ 24 * b3 in
  m mod 256 = b0 /\ m / 2 ^ 8 mod 256 = b1 /\ m / 2 ^ 16 mod 256 = b2 /\ m / 2 ^ 24 = b3.
Proof.
  intros H0 H1 H2 H3 m.
  assert (m / 2 ^ 8 = b1 + 2 ^ 8 * b2 + 2 ^ 16 * b3) as E1 by (symmetry; apply (Z.div_unique _ _ _ b0); lia).
  assert (m / 2 ^ 16 = b2 + 2 ^ 8 * b3) as E2 by (symmetry; apply (Z.div_unique _ _ _ (b0 + 2 ^ 8 * b1)); lia).
  rewrite E1, E2. split_and!.
  - symmetry. apply (Z.mod_unique _ _ (b1 + 2 ^ 8 * b2 + 2 ^ 16 * b3)); lia.
  - symmetry. apply (Z.mod_unique _ _ (b2 + 2 ^ 8 * b3)); lia.
  - symmetry. apply (Z.mod_unique _ _ b3); lia.
  - symmetry. apply (Z.div_unique _ _ _ (b0 + 2 ^ 8 * b1 + 2 ^ 16 * b2)); lia.
Qed.

Lemma digits_four n :
  fits 32 n -> n = n mod 256 + 2 ^ 8 * (n / 2 ^ 8 mod 256) + 2 ^ 16 * (n / 2 ^ 16 mod 256) + 2 ^ 24 * (n / 2 ^ 24) /\
  0 <= n / 2 ^ 24 < 256.
Proof.
  unfold fits. intros Hn. change (2 ^ 16) with (2 ^ 8 * 2 ^ 8). change (2 ^ 24) with (2 ^ 8 * 2 ^ 8 * 2 ^ 8).
  rewrite <- !Z.div_div by lia. change 256 with (2 ^ 8).
  pose proof (Z.div_mod n (2 ^ 8) ltac:(lia)). pose proof (Z.div_mod (n / 2 ^ 8) (2 ^ 8) ltac:(lia)).
  pose proof (Z.div_mod (n / 2 ^ 8 / 2 ^ 8) (2 ^ 8) ltac:(lia)).
  pose proof (Z.mod_pos_bound n (2 ^ 8) ltac:(lia)). pose proof (Z.mod_pos_bound (n / 2 ^ 8) (2 ^ 8) ltac:(lia)).
  pose proof (Z.mod_pos_bound (n / 2 ^ 8 / 2 ^ 8) (2 ^ 8) ltac:(lia)).
  set (q1 := n / 2 ^ 8) in *. set (q2 := q1 / 2 ^ 8) in *. set (q3 := q2 / 2 ^ 8) in *.
  clearbody q1 q2 q3. lia.
Qed.

Lemma htonl_htonl n : fits 32 n -> lwip_htonl (lwip_htonl n) = n.
Proof.
  intros Hn. destruct (digits_four n Hn) as [Hd H3].
  pose proof (Z.mod_pos_bound n 256 ltac:(lia)) as H0. pose proof (Z.mod_pos_bound (n / 2 ^ 8) 256 ltac:(lia)) as H1.
  pose proof (Z.mod_pos_bound (n / 2 ^ 16) 256 ltac:(lia)) as H2.
  pose proof (htonl_value n Hn) as Hv.
  destruct (four_digits _ _ _ _ H3 H2 H1 H0) as (E0 & E1 & E2 & E3). cbv zeta in *. rewrite <- Hv in *.
  assert (fits 32 (lwip_htonl n)) as Hf by (unfold fits; lia).
  rewrite (htonl_value _ Hf), E0, E1, E2, E3. lia.
Qed.

Lemma be16_at_mid pre n post : fits 16 n -> be16_at (pre ++ be16_bytes n ++ post) (zlen pre) = n.
Proof.
  intros Hn. unfold be16_at, be16_bytes. rewrite zdrop_app_zlen.
  assert (fits 16 (lwip_htons n)) as Hf by (unfold lwip_htons; by apply wrap_fits).
  change 2 with (Z.of_nat 2) at 1. replace (Z.of_nat 2) with (zlen (le_split 2 (lwip_htons n))) by (unfold zlen; by rewrite le_split_length).
  rewrite ztake_app_zlen, le_combine_split, htons_htons; done.
Qed.

Lemma be32_at_mid pre n post : fits 32 n -> be32_at (pre ++ be32_bytes n ++ post) (zlen pre) = n.
Proof.
  intros Hn. unfold be32_at, be32_bytes. rewrite zdrop_app_zlen.
  assert (fits 32 (lwip_htonl n)) as Hf.
  { rewrite htonl_value by done. destruct (digits_four n Hn) as [_ H3]. unfold fits.
    pose proof (Z.mod_pos_bound n 256 ltac:(lia)). pose proof (Z.mod_pos_bound (n / 2 ^ 8) 256 ltac:(lia)).
    pose proof (Z.mod_pos_bound (n / 2 ^ 16) 256 ltac:(lia)). lia. }
  replace 4 with (zlen (le_split 4 (lwip_htonl n))) by (unfold zlen; by rewrite le_split_length).
  rewrite ztake_app_zlen, le_combine_split, htonl_htonl; done.
Qed.

Lemma be16_at_prefix l k i : 0 <= i -> i + 2 <= zlen l -> be16_at (l ++ k) i = be16_at l i.
Proof.
  intros Hi Hl. unfold be16_at. do 2 f_equal. rewrite zdrop_app_le by lia. apply ztake_app_le.
  rewrite zlen_zdrop; lia.
Qed.

Lemma be32_at_prefix l k i : 0 <= i -> i + 4 <= zlen l -> be32_at (l ++ k) i = be32_at l i.
Proof.
  intros Hi Hl. unfold be32_at. do 2 f_equal. rewrite zdrop_app_le by lia. apply ztake_app_le.
  rewrite zlen_zdrop; lia.
Qed.

(** ** What is sent is what is read *)

(** The fields of a segment as they fit its header. *)
Record sendable (o : out_segment) (w : Z) : Prop := mk_sendable {
  sb_src : fits 16 (o_src o);
  sb_dest : fits 16 (o_dest o);
  sb_seqno : fits 32 (o_seqno o);
  sb_ackno : fits 32 (o_ackno o);
  sb_wnd : fits 16 w /\ o_wnd o = be16_bytes w;
  sb_flags : fits 6 (o_flags o);
  sb_hdrlen : o_hdrlen o * 4 = TCP_HLEN + zlen (o_opts o);
  sb_opts : zlen (o_opts o) <= 40;
  sb_len : zlen (o_data o) < 65535;
}.

Definition flags_word (o : out_segment) : Z := u16 (Z.lor (Z.shiftl (o_hdrlen o) 12) (o_flags o)).

(** The first twenty bytes. *)
Definition fixed_header (o : out_segment) (c w : Z) : list Z :=
  be16_bytes (o_src o) ++ be16_bytes (o_dest o) ++ be32_bytes (o_seqno o) ++ be32_bytes (o_ackno o) ++
  be16_bytes (flags_word o) ++ be16_bytes w ++ le_split 2 c ++ [0; 0].

Lemma zlen_be16 n : zlen (be16_bytes n) = 2.
Proof. unfold zlen, be16_bytes. by rewrite le_split_length. Qed.

Lemma zlen_be32 n : zlen (be32_bytes n) = 4.
Proof. unfold zlen, be32_bytes. by rewrite le_split_length. Qed.

Lemma zlen_le_split n z : zlen (le_split n z) = Z.of_nat n.
Proof. unfold zlen. by rewrite le_split_length. Qed.

Lemma zlen_fixed o c w : zlen (fixed_header o c w) = TCP_HLEN.
Proof. unfold fixed_header. rewrite !zlen_app, !zlen_be16, !zlen_be32, zlen_le_split. done. Qed.

Lemma header_fixed o c w : o_wnd o = be16_bytes w -> header_bytes o c = fixed_header o c w ++ o_opts o.
Proof. unfold header_bytes, fixed_header, flags_word. intros ->. by rewrite <- !app_assoc. Qed.

Lemma flags_word_value o w :
  sendable o w -> flags_word o = o_flags o + 2 ^ 12 * o_hdrlen o /\ fits 16 (flags_word o) /\ 5 <= o_hdrlen o <= 15.
Proof.
  intros []. unfold flags_word, fits in *. unfold TCP_HLEN in *. pose proof (zlen_nonneg (o_opts o)).
  assert (Z.lor (Z.shiftl (o_hdrlen o) 12) (o_flags o) = o_flags o + 2 ^ 12 * o_hdrlen o) as ->.
  { rewrite Z.lor_comm, Z.shiftl_mul_pow2, Z.mul_comm by lia. apply lor_shifted; lia. }
  rewrite wrap_small by (unfold fits; lia). lia.
Qed.

Lemma fixed_fields o c w l :
  sendable o w ->
  let h := fixed_header o c w ++ l in
  be16_at h 0 = o_src o /\ be16_at h 2 = o_dest o /\ be32_at h 4 = o_seqno o /\ be32_at h 8 = o_ackno o /\
  be16_at h 12 = flags_word o /\ be16_at h 14 = w.
Proof.
  intros Hs h. destruct (flags_word_value o w Hs) as (_ & Hf & _). destruct Hs as [H1 H2 H3 H4 [H5 _] _ _ _ _].
  unfold h, fixed_header. rewrite <- !app_assoc. split_and!.
  - by apply (be16_at_mid [] (o_src o)).
  - pose proof (be16_at_mid (be16_bytes (o_src o)) (o_dest o) (be32_bytes (o_seqno o) ++ be32_bytes (o_ackno o) ++
      be16_bytes (flags_word o) ++ be16_bytes w ++ le_split 2 c ++ [0; 0] ++ l) H2) as E.
    by rewrite zlen_be16 in E.
  - pose proof (be32_at_mid (be16_bytes (o_src o) ++ be16_bytes (o_dest o)) (o_seqno o) (be32_bytes (o_ackno o) ++
      be16_bytes (flags_word o) ++ be16_bytes w ++ le_split 2 c ++ [0; 0] ++ l) H3) as E.
    by rewrite <- app_assoc, zlen_app, !zlen_be16 in E.
  - pose proof (be32_at_mid (be16_bytes (o_src o) ++ be16_bytes (o_dest o) ++ be32_bytes (o_seqno o)) (o_ackno o) (
      be16_bytes (flags_word o) ++ be16_bytes w ++ le_split 2 c ++ [0; 0] ++ l) H4) as E.
    by rewrite <- !app_assoc, !zlen_app, !zlen_be16, zlen_be32 in E.
  - pose proof (be16_at_mid (be16_bytes (o_src o) ++ be16_bytes (o_dest o) ++ be32_bytes (o_seqno o) ++ be32_bytes (o_ackno o))
      (flags_word o) (be16_bytes w ++ le_split 2 c ++ [0; 0] ++ l) Hf) as E.
    by rewrite <- !app_assoc, !zlen_app, !zlen_be16, !zlen_be32 in E.
  - pose proof (be16_at_mid (be16_bytes (o_src o) ++ be16_bytes (o_dest o) ++ be32_bytes (o_seqno o) ++ be32_bytes (o_ackno o) ++
      be16_bytes (flags_word o)) w (le_split 2 c ++ [0; 0] ++ l) H5) as E.
    by rewrite <- !app_assoc, !zlen_app, !zlen_be16, !zlen_be32 in E.
Qed.

Lemma header_words o c w first l :
  sendable o w -> fixed_header o c w ++ l = first ->
  be16_at first 0 = o_src o /\ be16_at first 2 = o_dest o /\ be32_at first 4 = o_seqno o /\
  be32_at first 8 = o_ackno o /\ TCPH_FLAGS first = o_flags o /\ be16_at first 14 = w /\
  TCPH_HDRLEN_BYTES first = TCP_HLEN + zlen (o_opts o).
Proof.
  intros Hs <-. destruct (fixed_fields o c w l Hs) as (-> & -> & -> & -> & Hw & ->).
  unfold TCPH_FLAGS, TCPH_HDRLEN_BYTES. rewrite Hw. destruct (flags_word_value o w Hs) as (-> & _ & Hh).
  destruct Hs as [_ _ _ _ _ Hf Hlen Ho _]. unfold fits in Hf. split_and!; try done.
  - change TCP_FLAGS with (Z.ones 6). rewrite Z.land_ones by lia.
    symmetry. apply (Z.mod_unique _ _ (2 ^ 6 * o_hdrlen o)); lia.
  - rewrite Z.shiftr_div_pow2, Z.shiftl_mul_pow2 by lia.
    replace ((o_flags o + 2 ^ 12 * o_hdrlen o) / 2 ^ 12) with (o_hdrlen o)
      by (apply (Z.div_unique _ _ _ (o_flags o)); lia).
    rewrite wrap_small by (unfold fits; lia). lia.
Qed.

Lemma options_split opts data f rest :
  f ++ concat rest = opts ++ data -> zlen opts <= 40 ->
  (zlen f < zlen opts -> match rest with [] => False | next :: _ => zlen opts <= zlen f + zlen next end) ->
  forall h, zlen h = TCP_HLEN -> tcp_options (h ++ f) rest (TCP_HLEN + zlen opts) = Done (Some (opts, data)).
Proof.
  intros He Ho Htwo h Hh. unfold tcp_options. pose proof (zlen_nonneg f). pose proof (zlen_nonneg opts).
  rewrite zlen_app, Hh. replace (TCP_HLEN + zlen opts - TCP_HLEN) with (zlen opts) by lia.
  assert (zdrop TCP_HLEN (h ++ f) = f) as -> by (rewrite <- Hh; apply zdrop_app_zlen).
  destruct (Z.leb_spec (TCP_HLEN + zlen opts) (TCP_HLEN + zlen f)) as [Hle|Hgt].
  - apply app_eq_inv in He as [(k & -> & ->)|(k & -> & Hk)].
    + rewrite ztake_app_zlen, zdrop_app_ge by lia. rewrite Hh.
      replace (TCP_HLEN + zlen opts - TCP_HLEN) with (zlen opts) by lia. by rewrite zdrop_app_zlen.
    + rewrite zlen_app in Hle. pose proof (zlen_nonneg k). assert (k = []) as -> by (apply zlen_zero; lia).
      rewrite app_nil_r in *. simpl in Hk. rewrite ztake_all, zdrop_all by (rewrite ?zlen_app; lia). by rewrite <- Hk.
  - specialize (Htwo ltac:(lia)). destruct rest as [|next rest]; [done|].
    rewrite wrap_small by (unfold fits; lia). rewrite (proj2 (Z.ltb_ge _ _)) by lia.
    apply app_eq_inv in He as [(k & -> & _)|(k & -> & Hk)].
    + rewrite zlen_app in Hgt. pose proof (zlen_nonneg k). lia.
    + rewrite zlen_app in *. replace (zlen f + zlen k - zlen f) with (zlen k) by lia. simpl in Hk.
      apply app_eq_inv in Hk as [(m & -> & Hm)|(m & -> & Hm)].
      * rewrite ztake_app_zlen, zdrop_app_zlen. by rewrite Hm.
      * rewrite zlen_app in Htwo. pose proof (zlen_nonneg m). assert (m = []) as -> by (apply zlen_zero; lia).
        rewrite app_nil_r, ztake_all, zdrop_all by lia. simpl in *. by rewrite Hm.
Qed.

(** C10: what [tcp_out.c] puts on the wire, [tcp_input] reads: however the bytes of a
    segment are spread over pbufs, as long as the first holds the fixed header and the
    first two the options, the same ports, numbers, flags, window, options and data come
    out. *)
Theorem sent_segment_is_read o c w src dst chain :
  sendable o w -> concat chain = header_bytes o c ++ o_data o ->
  match chain with
  | [] => False
  | first :: rest =>
      TCP_HLEN <= zlen first /\
      (zlen first < TCP_HLEN + zlen (o_opts o) ->
       match rest with [] => False | next :: _ => TCP_HLEN + zlen (o_opts o) <= zlen first + zlen next end)
  end ->
  tcp_header src dst chain = Done (Some (mk_in_segment (mk_addressing src dst (o_src o) (o_dest o))
    (o_seqno o) (o_ackno o) (o_flags o) w (o_opts o) (o_data o))).
Proof.
  intros Hs He Hc. destruct chain as [|first rest]; [done|]. destruct Hc as [Hfirst Htwo].
  rewrite (header_fixed o c w) in He by apply Hs.
  change (concat (first :: rest)) with (first ++ concat rest) in He. rewrite <- app_assoc in He.
  pose proof (zlen_fixed o c w) as Hfix. pose proof (zlen_nonneg (o_opts o)). pose proof (zlen_nonneg (o_data o)).
  assert (exists f, first = fixed_header o c w ++ f /\ f ++ concat rest = o_opts o ++ o_data o) as (f & -> & Hf).
  { apply app_eq_inv in He as [(k & -> & Hk)|(k & Hk & Hk2)]; [by exists k|].
    assert (k = []) as ->.
    { apply zlen_zero. apply (f_equal zlen) in Hk. rewrite zlen_app in Hk. pose proof (zlen_nonneg k). lia. }
    exists []. rewrite app_nil_r in *. by split. }
  unfold tcp_header. rewrite zlen_app, Hfix in Hfirst, Htwo. change (concat ((fixed_header o c w ++ f) :: rest)) with ((fixed_header o c w ++ f) ++ concat rest).
  rewrite !zlen_app, Hfix.
  rewrite (proj2 (Z.ltb_ge (TCP_HLEN + zlen f) TCP_HLEN)) by lia.
  destruct (header_words o c w _ f Hs eq_refl) as (-> & -> & -> & -> & -> & -> & ->).
  rewrite (proj2 (Z.ltb_ge (TCP_HLEN + _) TCP_HLEN)) by lia.
  rewrite (proj2 (Z.ltb_ge _ (TCP_HLEN + zlen (o_opts o)))).
  2:{ apply (f_equal zlen) in Hf. rewrite !zlen_app in Hf.
    lia. }
  cbn [orb]. rewrite (options_split (o_opts o) (o_data o)); [|done|apply Hs| |done].
  2:{ intros Hlt. specialize (Htwo ltac:(lia)). destruct rest; [done|lia]. }
  cbn. pose proof (sb_len _ _ Hs). rewrite (wrap_small 16) by (unfold fits; lia).
  rewrite (proj2 (Z.ltb_ge (zlen (o_data o) + 1) _)) by lia. by rewrite andb_false_r.
Qed.

(** The SYN of the demonstration in two pbufs, its options in both. *)
Lemma sent_segment_is_read_witness :
  let o := mk_out (ad_src_ip peer) (ad_dest_ip peer) 40000 443 100 0 7 TCP_SYN (be16_bytes 65535) 0
             [2; 4; 5; 180; 1; 3; 3; 7] hi TCP_TTL 0 in
  tcp_header (ad_src_ip peer) (ad_dest_ip peer)
    [ztake 25 (header_bytes o 0xabcd); zdrop 25 (header_bytes o 0xabcd) ++ hi]
  = Done (Some (mk_in_segment peer 100 0 TCP_SYN 65535 [2; 4; 5; 180; 1; 3; 3; 7] hi)).
Proof.
  intros o. apply (sent_segment_is_read o 0xabcd 65535).
  - split; done.
  - by vm_compute.
  - split; [done|]. by intros _.
Defined.

(** ** The connection of a segment *)

Section delivery.
Context `{Environment}.

Lemma search_found (ok : tcp_state -> bool) f before c after :
  Forall (fun d => ok (pcb_state (c_pcb d)) = true /\ f d = false) before ->
  ok (pcb_state (c_pcb c)) = true -> f c = true ->
  search ok f (before ++ c :: after) = Done (Some (before, c, after)).
Proof.
  intros Hb Hok Hf. induction Hb as [|d before [Hd1 Hd2] _ IH]; simpl; [by rewrite Hok, Hf|].
  by rewrite Hd1, Hd2, IH.
Qed.

Lemma search_none (ok : tcp_state -> bool) f l :
  Forall (fun d => ok (pcb_state (c_pcb d)) = true /\ f d = false) l -> search ok f l = Done None.
Proof. induction 1 as [|d l [Hd1 Hd2] _ IH]; simpl; [done|]. by rewrite Hd1, Hd2, IH. Qed.

(** A connection that is not the segment's. *)
Definition other_than (idx : Z) (s : in_segment) (ok : tcp_state -> bool) (d : conn) : Prop :=
  ok (pcb_state (c_pcb d)) = true /\ conn_matches idx (i_addr s) d = false.

(** The globals of the stack do not matter to what holds of a connection. *)
Lemma sending_enter iss k c : sending iss c -> sending iss (enter k c).
Proof. intros Hc. by apply (sending_same iss c). Qed.

Lemma rest_enter iss irs stream k c : at_rest iss irs stream c -> at_rest iss irs stream (enter k c).
Proof.
  intros [[]|n fin left [] Hleft Hi]; [by apply rest_gone|]. apply (rest_open _ _ _ _ n fin left); [|done|done].
  split; try done; [by apply sending_enter|by destruct hd_stands].
Qed.

Lemma rest_active_state iss irs stream c :
  at_rest iss irs stream c -> c_live c = true -> c_list c = ActiveList -> active_state (pcb_state (c_pcb c)) = true.
Proof.
  intros Hr Hl Hact. destruct (rest_active iss irs stream c Hr Hl Hact) as (n & fin & [Hh _ _]).
  destruct (hands_active _ _ _ _ _ _ _ Hh Hact) as [_ Hst]. destruct (Hst Hact) as [H1 H2].
  pose proof (hd_open _ _ _ _ _ _ _ Hh) as (_ & H3 & _).
  unfold active_state, state_is. by rewrite !bool_decide_false.
Qed.

Lemma peer_enter irs stream k c s : of_peer irs stream c s -> of_peer irs stream (enter k c) s.
Proof. by intros []. Qed.

(** A connection is on one list, or back in the pool. *)
Definition now_active (c : conn) : list conn := if c_live c && bool_decide (c_list c = ActiveList) then [c] else [].

Lemma place_active c k : k_active (place c k) = now_active c ++ k_active k.
Proof. unfold place, now_active. destruct (c_live c), (c_list c); done. Qed.

Lemma place_listen c k : k_listen (place c k) = k_listen k.
Proof. unfold place. by destruct (c_live c), (c_list c). Qed.

End delivery.

(** ** A SYN *)

Section syn.
Context `{Environment}.
Implicit Types c : conn.

Instance same_place_refl : Reflexive same_place.
Proof. intros c. by split. Qed.

Lemma same_place_trans a b c : same_place a b -> same_place b c -> same_place a c.
Proof.
  intros [V1 T1 P1 S1 I1] [V2 T2 P2 S2 I2]. split; [congruence..|]. intros Hi.
  pose proof (I1 Hi) as E. rewrite <- E. apply I2. by rewrite E.
Qed.

Lemma same_place_pcb c f :
  pcb_state (f (c_pcb c)) = pcb_state (c_pcb c) -> pcb_id (f (c_pcb c)) = pcb_id (c_pcb c) ->
  same_place c (set_pcb (f (c_pcb c)) c).
Proof. by split. Qed.

Lemma option_place o c : wlp (apply_option o) (fun _ c' => same_place c c') c.
Proof.
  destruct o as [m|shift]; simpl; [by apply wlp_upd_pcb|]. unfold use_window_scale.
  apply wlp_bind, wlp_in, wlp_bind, wlp_pcb, wlp_when; intros _; [|done].
  do 3 apply wlp_bind, wlp_upd_pcb. do 2 (apply wlp_bind, wlp_assert; intros _). by apply wlp_upd_pcb.
Qed.

Lemma options_place l : forall c, wlp (apply_options l) (fun _ c' => same_place c c') c.
Proof.
  induction l as [|o l IH]; intros c; simpl; [by apply wlp_ret|]. apply wlp_bind.
  eapply wlp_mono; [apply option_place|]. intros u c1 H1. cbv beta in H1.
  eapply wlp_mono; [apply IH|]. intros u' c2 H2. by eapply same_place_trans.
Qed.

Lemma parseopt_place c :
  options_ok (in_opts (c_in c)) -> wlp tcp_parseopt (fun _ c' => same_place c c') c.
Proof. intros Ho a c' He. rewrite parseopt_options in He by done. by eapply options_place. Qed.

Lemma enqueue_place flags c :
  (forall n, env_grants n = true) -> has flags (Z.lor TCP_SYN TCP_FIN) = true ->
  wlp (tcp_enqueue_flags flags) (fun err c' => err = ERR_OK /\ same_place c c') c.
Proof.
  intros Hg Hf. unfold tcp_enqueue_flags, tcp_create_segment, granted, address.
  apply wlp_bind, wlp_assert; intros _. apply wlp_bind, wlp_pcb. cbv zeta. apply wlp_bind, wlp_ask.
  rewrite Hg. cbn [negb]. apply wlp_bind, wlp_ask, wlp_bind, wlp_bind, wlp_pcb, wlp_bind, wlp_ask. rewrite Hg.
  apply wlp_bind, wlp_assert; intros _. apply wlp_ret, wlp_bind, wlp_assert; intros _.
  do 2 apply wlp_bind, wlp_upd_pcb. apply wlp_bind.
  eapply (wlp_mono _ (fun _ c' => same_place c c')).
  { apply wlp_when; intros _; [by apply wlp_upd_pcb|done]. }
  intros u c1 H1. cbv beta in H1. apply wlp_bind. eapply (wlp_mono _ (fun _ c' => same_place c c')).
  { apply wlp_when; intros _; [|done]. apply wlp_upd_pcb. eapply same_place_trans; [exact H1|]. by split. }
  intros u' c2 H2. cbv beta in H2. apply wlp_bind, wlp_upd_pcb, wlp_bind, wlp_pcb, wlp_bind, wlp_assert; intros _.
  apply wlp_ret. split; [done|]. eapply same_place_trans; [exact H2|]. by split.
Qed.

(** The addresses and ports of a connection that a listener opens. *)
Definition opened_id (l : tcp_pcb_listen) (a : addressing) (i : identity) : identity :=
  set_netif_idx (l_netif_idx l) (set_so_options (Z.land (l_so_options l) SOF_INHERITED)
    (set_remote_port (ad_src a)
      (set_local_port (if l_local_port l =? 0 then ad_dest a else l_local_port l)
        (set_remote_ip (ad_src_ip a) (set_local_ip (ad_dest_ip a) i))))).

Lemma listen_syn_place l s iss c :
  (forall n, env_grants n = true) -> options_ok (i_opts s) -> ip_addr_isany (ad_dest_ip (i_addr s)) = false ->
  c_live c = true -> c_input_pcb c = false ->
  wlp (tcp_listen_input_syn l s iss) (fun _ c' => c_live c' = true /\ c_list c' = ActiveList /\
    pcb_state (c_pcb c') = SYN_RCVD /\ pcb_id (c_pcb c') = opened_id l (i_addr s) (pcb_id (c_pcb c))) c.
Proof.
  intros Hg Ho Hany Hl Hi. unfold tcp_listen_input_syn. apply wlp_bind, wlp_modify. cbv zeta.
  do 5 apply wlp_bind, wlp_upd_pcb. unfold TCP_REG_ACTIVE, TCP_REG.
  apply wlp_bind, wlp_bind, wlp_modify, wlp_modify.
  match goal with |- wlp _ _ ?d => set (c1 := d) end.
  apply wlp_bind. eapply wlp_mono; [by apply parseopt_place|]. intros u c2 H2. cbv beta in H2.
  apply wlp_bind, wlp_upd_pcb, wlp_bind, wlp_pcb, wlp_bind. unfold tcp_eff_send_mss.
  apply wlp_bind, wlp_ask, wlp_ret, wlp_bind, wlp_upd_pcb.
  match goal with |- wlp _ _ ?d => assert (same_place c1 d) as H3 by
    (eapply same_place_trans; [exact H2|by split]); generalize dependent d end.
  intros c3 H3. apply wlp_bind. eapply wlp_mono; [by apply enqueue_place|].
  intros rc c4 [-> H4]. rewrite bool_decide_true by done. cbn [negb].
  pose proof (same_place_trans _ _ _ H3 H4) as H14. apply wlp_bind.
  eapply wlp_mono; [apply output_wlp; by rewrite (sp_input _ _ H14)|].
  intros e c5 [Hp _]. apply wlp_ret. destruct (same_place_trans _ _ _ H14 (pd_place _ _ _ Hp)) as [V T P S I].
  split_and!; [by rewrite V|by rewrite T|by rewrite S|]. by rewrite I.
Qed.

(** A SYN that opens a connection: the peer offers at least two full segments of
    window and a usable maximum segment size, also after the limits of the path. *)
Record usable_syn (s : in_segment) : Prop := mk_usable_syn {
  us_options : options_ok (i_opts s);
  us_window : 2 * TCP_MSS <= i_wnd s;
  us_mss : forall m, MaxSegmentSize m ∈ options (i_opts s) -> 8 <= m;
  us_path : forall m outif, 8 <= m -> 8 <= tcp_eff_send_mss_netif m outif (ad_src_ip (i_addr s));
}.

Lemma usable_new l s k prio :
  l_accept l <> None -> usable_syn s ->
  new_connection l s (new_conn (tcp_alloc_pcb prio (k_ticks k) (k_timer_ctr k)) k).
Proof. intros Ha []. split; try done. by eexists _, _, _. Qed.

Lemma ip_addr_eq_refl a : ip_addr_eq a a = true.
Proof.
  unfold ip_addr_eq, ip6_addr_eq, ip6_addr_zoneless_eq. rewrite !Z.eqb_refl. by destruct (IP_IS_V6 a).
Qed.

Lemma to_front_some f l : forall before p ls, to_front f before l = Some (p, ls) -> f p = true.
Proof. induction l as [|q l IH]; simpl; intros before p ls He; [done|]. destruct (f q) eqn:Hq; [congruence|eauto]. Qed.

(** A listener that is found is for the port, or for all of them. *)
Lemma found_listener_port idx a ls l ls' :
  find_listener idx a ls = Some (l, ls') -> (if l_local_port l =? 0 then ad_dest a else l_local_port l) = ad_dest a.
Proof.
  unfold find_listener. destruct (to_front _ _ _) as [[p qs]|] eqn:Hf.
  - intros [= <- <-]. apply to_front_some in Hf. unfold listen_matches in Hf.
    apply andb_true_iff in Hf as [[_ Hp]%andb_true_iff _]. apply Z.eqb_eq in Hp. rewrite Hp. by case_match.
  - destruct (find _ ls) as [p|] eqn:Hp; [|done]. intros [= <- <-]. apply find_some in Hp as [_ Hp].
    apply andb_true_iff in Hp as [-> _]. done.
Qed.

Lemma opened_matches idx l a p c :
  netif_matches (l_netif_idx l) idx = true ->
  (if l_local_port l =? 0 then ad_dest a else l_local_port l) = ad_dest a ->
  pcb_id (c_pcb c) = opened_id l a p -> conn_matches idx a c = true.
Proof.
  intros Hn Hp Hid. unfold conn_matches. rewrite Hid. unfold opened_id. cbn.
  by rewrite Hn, Hp, !Z.eqb_refl, !ip_addr_eq_refl.
Qed.

End syn.

(** ** The invariant of the stack *)

Section settled.
Context `{Environment}.
Hypothesis app_orderly : orderly env_app.
Implicit Types (c : conn) (k : stack).

(** Every connection is at rest, whatever its peer and its streams are. *)
Definition rest c : Prop := exists iss irs stream, zlen stream < 2 ^ 30 /\ at_rest iss irs stream c.

Record in_use (l : pcb_list) c : Prop := mk_in_use {
  iu_rest : rest c; iu_live : c_live c = true; iu_list : c_list c = l;
}.

(** Every connection is on the list it belongs to; every listener has a callback. *)
Record settled k : Prop := mk_settled {
  se_active : Forall (in_use ActiveList) (k_active k);
  se_tw : Forall (in_use TimeWaitList) (k_tw k);
  se_gone : Forall rest (k_gone k);
  se_none : exists iss, sending iss (k_none k);
  se_listen : Forall (fun l => l_accept l = Some app_accept_fn) (k_listen k);
}.

(** A step that ends, and ends well. *)
Definition settles (o : outcome stack) : Prop := exists k', o = Done k' /\ settled k'.

Lemma settles_done k : settled k -> settles (Done k).
Proof. by exists k. Qed.

Lemma settles_bind o (f : stack -> outcome stack) :
  settles o -> (forall k, settled k -> settles (f k)) -> settles (o ≫= f).
Proof. intros (k & -> & Hk) Hf. by apply Hf. Qed.

(** Only the lists count. *)
Lemma settled_same k k' :
  settled k -> k_active k' = k_active k -> k_tw k' = k_tw k -> k_gone k' = k_gone k -> k_none k' = k_none k ->
  k_listen k' = k_listen k -> settled k'.
Proof. intros [] Ha Ht Hg Hn Hl. split; by rewrite ?Ha, ?Ht, ?Hg, ?Hn, ?Hl. Qed.

Lemma settled_leave c k : settled k -> settled (leave c k).
Proof. intros Hk. by apply (settled_same k). Qed.

Lemma settled_active l k : settled k -> Forall (in_use ActiveList) l -> settled (set_active l k).
Proof. by intros []. Qed.

Lemma settled_tw l k : settled k -> Forall (in_use TimeWaitList) l -> settled (set_tw l k).
Proof. by intros []. Qed.

Lemma rest_entered k c : rest c -> rest (enter k c).
Proof. intros (iss & irs & stream & Hs & Hr). exists iss, irs, stream. split; [done|]. by apply rest_enter. Qed.

Lemma settled_place c k : settled k -> rest c -> settled (place c k).
Proof.
  intros Hk Hr. unfold place. destruct (c_live c) eqn:Hl; cbn [negb].
  2:{ destruct Hk. split; try done. by constructor. }
  destruct (c_list c) eqn:Hc; destruct Hk; (split; try done); by constructor.
Qed.

Definition rests {A} (m : TM A) c : Prop := twp m (fun _ c' => rest c') c.

Lemma run_on_settles m c k : settled k -> rests m (enter k c) -> settles (run_on m c k).
Proof.
  intros Hk Hm. apply twp_done in Hm as ([] & c' & He & Hr). unfold run_on. rewrite He. eexists. split; [done|].
  apply settled_place; [by apply settled_leave|done].
Qed.

(** What holds of every connection at rest in its list holds of these. *)
Lemma rests_all {A} (m : TM A) L c k :
  (forall iss irs stream d, zlen stream < 2 ^ 30 -> at_rest iss irs stream d -> c_live d = true -> c_list d = L ->
     twp m (fun _ c' => at_rest iss irs stream c') d) ->
  in_use L c -> rests m (enter k c).
Proof.
  intros Hm [(iss & irs & stream & Hs & Hr) Hl Hc]. eapply twp_mono; [apply (Hm iss irs stream); try done; by apply rest_enter|].
  intros a c' Hc'. by exists iss, irs, stream.
Qed.

(** *** Reclaiming *)

Lemma delete_lookup_Forall {A} (P : A -> Prop) l i x : Forall P l -> l !! i = Some x -> P x /\ Forall P (delete i l).
Proof.
  intros Hl Hx. split; [by eapply Forall_lookup_1|]. by apply Forall_delete.
Qed.

Lemma abandon_rests reset L c k : in_use L c -> rests (tcp_abandon reset) (enter k c).
Proof.
  apply rests_all. intros iss irs stream d Hs Hr Hl _. eapply twp_mono; [by apply abandon_rest|by intros u c' []].
Qed.

Lemma run_active_settles reset i k : settled k -> settles (run_active (tcp_abandon reset) i k).
Proof.
  intros Hk. unfold run_active. destruct i as [i|]; [|by apply settles_done].
  destruct (k_active k !! i) as [c|] eqn:Hc; [|by apply settles_done].
  destruct (delete_lookup_Forall _ _ _ _ (se_active _ Hk) Hc) as [Hu Hd].
  apply run_on_settles; [by apply settled_active|by eapply abandon_rests].
Qed.

Lemma kill_prio_settles prio k : settled k -> settles (tcp_kill_prio prio k).
Proof. intros Hk. unfold tcp_kill_prio. cbv zeta. destruct (_ =? 0); [by apply settles_done|]. by apply run_active_settles. Qed.

Lemma kill_state_settles s k : settled k -> settles (tcp_kill_state s k).
Proof. intros Hk. by apply run_active_settles. Qed.

Lemma kill_timewait_settles k : settled k -> settles (tcp_kill_timewait k).
Proof.
  intros Hk. unfold tcp_kill_timewait. destruct (oldest _ _ _ _ _ _) as [i|]; [|by apply settles_done].
  destruct (k_tw k !! i) as [c|] eqn:Hc; [|by apply settles_done].
  destruct (delete_lookup_Forall _ _ _ _ (se_tw _ Hk) Hc) as [Hu Hd].
  apply run_on_settles; [by apply settled_tw|by eapply (abandon_rests true)].
Qed.

(** *** Every connection in turn *)

Lemma run_all_settles (m : conn -> TM unit) l : forall kept k,
  settled k -> Forall (in_use ActiveList) kept ->
  Forall (fun c => forall k, rests (m c) (enter k c)) l -> settles (run_all m kept l k).
Proof.
  induction l as [|c l IH]; intros kept k Hk Hkept Hl; simpl.
  - apply settles_done, settled_active; [done|]. apply Forall_app. split; [done|apply Hk].
  - apply Forall_cons in Hl as [Hc Hl]. destruct (twp_done _ _ _ (Hc k)) as ([] & c' & -> & Hr).
    cbn [obind mbind outcome_bind]. match goal with |- settles (if ?b then _ else _) => destruct b eqn:Hin end.
    + apply andb_true_iff in Hin as [Hlive Hlist%bool_decide_eq_true].
      apply IH; [by apply settled_leave| |done]. apply Forall_app. split; [done|]. by apply Forall_singleton.
    + apply IH; [|done..]. apply settled_place; [by apply settled_leave|done].
Qed.

Lemma all_active_settles m k :
  settled k -> Forall (fun c => forall k, rests (m c) (enter k c)) (k_active k) -> settles (all_active m k).
Proof. intros Hk Hm. apply run_all_settles; [by apply settled_active|done|done]. Qed.

Lemma closepend_settles k : settled k -> settles (tcp_handle_closepend k).
Proof.
  intros Hk. apply all_active_settles; [done|]. eapply Forall_impl; [apply Hk|]. intros c Hu k1.
  revert Hu. apply rests_all. intros iss irs stream d Hs Hr Hl Hc. apply twp_when; intros _; [|done].
  destruct (rest_active iss irs stream d Hr Hl Hc) as (n & fin & Ha). apply twp_bind.
  eapply twp_mono; [apply (active_sends iss irs stream _ (fun _ _ => True) _ _ _ Ha)|].
  { intros. apply sends_upd; [done|frame|ignored|done]. }
  intros _ c3 (Ha3 & _ & _). pose proof Ha3 as [Hh3 _ _]. apply twp_bind.
  eapply twp_mono; [apply (close_shutdown_fin_ok iss); apply Hh3|]. intros e c4 (Hk4 & Hc4 & _ & Hm).
  apply twp_ret. eapply active_rest. by eapply active_moved.
Qed.

(** *** Allocation and listeners *)

(** A stack and something with it. *)
Definition settles_with {A} (o : outcome (A * stack)) : Prop := exists a k', o = Done (a, k') /\ settled k'.

Lemma settles_bind_with {A} (o : outcome (A * stack)) (f : A * stack -> outcome stack) :
  settles_with o -> (forall a k, settled k -> settles (f (a, k))) -> settles (o ≫= f).
Proof. intros (a & k & -> & Hk) Hf. by apply Hf. Qed.

Lemma settles_then {A} (o : outcome stack) (f : stack -> outcome (A * stack)) :
  settles o -> (forall k, settled k -> settles_with (f k)) -> settles_with (o ≫= f).
Proof. intros (k & -> & Hk) Hf. by apply Hf. Qed.

Lemma reclaim_settles kinds : forall k,
  settled k -> Forall (fun kind => forall k, settled k -> settles (kind k)) kinds -> settles_with (reclaim kinds k).
Proof.
  induction kinds as [|kind kinds IH]; intros k Hk Hkinds; simpl; [by exists false, k|].
  apply Forall_cons in Hkinds as [Hkind Hkinds]. apply settles_then; [by apply Hkind|]. intros k1 Hk1.
  unfold memp_malloc_tcp. assert (settled (set_k_calls (k_calls k1 + 1) k1)) by (by apply (settled_same k1)).
  destruct (env_grants _); [by eexists _, _|by apply IH].
Qed.

Lemma alloc_settles prio k :
  settled k -> exists p k', tcp_alloc prio k = Done (p, k') /\ settled k' /\
    forall q, p = Some q -> q = tcp_alloc_pcb prio (k_ticks k') (k_timer_ctr k').
Proof.
  intros Hk. assert (settles_with (match memp_malloc_tcp k with
             | (true, k) => Done (true, k)
             | (false, k) =>
                 k ← tcp_handle_closepend k;
                 reclaim [tcp_kill_timewait; tcp_kill_state LAST_ACK; tcp_kill_state CLOSING;
                          tcp_kill_prio prio] k
             end)) as (ok & k' & He & Hk').
  { unfold memp_malloc_tcp. assert (settled (set_k_calls (k_calls k + 1) k)) by (by apply (settled_same k)).
    destruct (env_grants _); [by eexists _, _|]. apply settles_then; [by apply closepend_settles|].
    intros k1 Hk1. apply reclaim_settles; [done|]. repeat constructor; intros.
    - by apply kill_timewait_settles.
    - by apply kill_state_settles.
    - by apply kill_state_settles.
    - by apply kill_prio_settles. }
  unfold tcp_alloc. rewrite He. cbn [obind mbind outcome_bind]. eexists _, k'. split; [done|]. split; [done|].
  intros q. destruct ok; [by intros [= <-]|done].
Qed.

Lemma run_none_settles (m : TM unit) k :
  settled k -> (forall iss c, sending iss c -> twp m (fun _ c' => sending iss c') c) -> settles (run_none m k).
Proof.
  intros Hk Hm. destruct (se_none _ Hk) as [iss Hn].
  destruct (twp_done _ _ _ (Hm iss (enter k (k_none k)) (sending_enter _ _ _ Hn))) as ([] & c' & He & Hc').
  unfold run_none. rewrite He. eexists. split; [done|]. destruct Hk. split; try done. by exists iss.
Qed.

Lemma reset_stray_settles s k : settled k -> settles (reset_stray s k).
Proof.
  intros Hk. apply run_none_settles; [done|]. intros iss c Hc. unfold tcp_rst_netif. apply twp_bind.
  eapply twp_mono; [by apply (rst_common_ok _ _ _ _ _ _ _ _ _ _ Hc)|]. intros [o|] c1 (_ & Hc1 & _ & Ho); [|by apply twp_ret].
  apply twp_bind. eapply twp_mono; [apply (control_netif_ok iss o); [done|by left]|].
  intros e c2 (_ & Hc2 & _). by apply twp_ret.
Qed.

Lemma accept_failed_settles l k : settled k -> l_accept l = Some app_accept_fn -> settles (accept_failed l k).
Proof.
  intros Hk Hl. unfold accept_failed. rewrite Hl. apply run_none_settles; [done|]. intros iss c Hc.
  apply twp_emit. by apply sending_app_event.
Qed.

(** A SYN for a listener is one that can open a connection. *)
Definition opens (s : in_segment) : Prop :=
  has (i_flags s) TCP_SYN = true -> has (i_flags s) TCP_ACK = false -> usable_syn s.

Lemma listen_settles l s k :
  settled k -> l_accept l = Some app_accept_fn -> opens s -> settles (tcp_listen_input l s k).
Proof.
  intros Hk Hl Hs. unfold tcp_listen_input. destruct (has _ TCP_RST); [by apply settles_done|].
  destruct (has _ TCP_ACK) eqn:Hack; [by apply reset_stray_settles|].
  destruct (has _ TCP_SYN) eqn:Hsyn; [|by apply settles_done].
  destruct (alloc_settles (l_prio l) k Hk) as (p & k1 & -> & Hk1 & Hp). cbn [obind mbind outcome_bind].
  destruct p as [p|]; [|by apply accept_failed_settles]. specialize (Hp p eq_refl) as ->.
  unfold tcp_next_iss. set (k2 := set_iss _ k1). apply run_on_settles; [by apply (settled_same k1)|].
  eapply twp_mono; [apply (new_connection_rests _ [] l s (enter k2 _))|].
  - apply (usable_new l s k2); [by rewrite Hl|by apply Hs].
  - intros u c' Hr. eexists _, _, []. split; [rewrite zlen_nil; lia|exact Hr].
Qed.

(** *** A packet *)

(** The peer of each connection that a segment matches may have sent it. *)
Definition in_step (idx : Z) (s : in_segment) k : Prop :=
  forall c, c ∈ k_active k -> conn_matches idx (i_addr s) c = true ->
    exists iss irs stream, zlen stream < 2 ^ 30 /\ at_rest iss irs stream c /\ of_peer irs stream c s.

Lemma search_splits (ok : tcp_state -> bool) f l :
  Forall (fun c => ok (pcb_state (c_pcb c)) = true) l ->
  exists r, search ok f l = Done r /\
    match r with
    | None => True
    | Some (before, c, after) => l = before ++ c :: after /\ f c = true
    end.
Proof.
  induction 1 as [|c l Hc _ IH]; simpl; [by exists None|]. rewrite Hc. cbn [negb].
  destruct (f c) eqn:Hf; [by eexists (Some ([], c, l))|].
  destruct IH as ([[[before d] after]|] & -> & Hr); cbn [obind mbind outcome_bind]; [|by exists None].
  destruct Hr as [-> Hd]. by eexists (Some (c :: before, d, after)).
Qed.

Lemma in_use_active_state c : in_use ActiveList c -> active_state (pcb_state (c_pcb c)) = true.
Proof. intros [(iss & irs & stream & _ & Hr) Hl Hc]. by eapply rest_active_state. Qed.

Lemma in_use_tw_state c : in_use TimeWaitList c -> state_is (pcb_state (c_pcb c)) TIME_WAIT = true.
Proof.
  intros [(iss & irs & stream & _ & Hr) Hl Hc]. apply bool_decide_eq_true.
  destruct Hr as [[]|n fin left [_ _ Hlist Ho _ _ _ _ _ _] _ _]; [congruence|].
  unfold listed in Hlist. rewrite Hc in Hlist. destruct (pcb_state (c_pcb c)); try done; by destruct Hlist.
Qed.

Lemma to_front_In f l : forall before p ls x, to_front f before l = Some (p, ls) -> x ∈ p :: ls -> x ∈ before ++ l.
Proof.
  induction l as [|q l IH]; simpl; intros before p ls x He Hx; [done|]. destruct (f q).
  - injection He as <- <-. set_solver.
  - specialize (IH _ _ _ _ He Hx). set_solver.
Qed.

Lemma find_listener_In idx a l p ls x : find_listener idx a l = Some (p, ls) -> x ∈ p :: ls -> x ∈ l.
Proof.
  unfold find_listener. destruct (to_front _ _ _) as [[q qs]|] eqn:Hf.
  - intros [= <- <-] Hx. by eapply (to_front_In _ _ []).
  - destruct (find _ l) as [q|] eqn:Hq; [|done]. intros [= <- <-] Hx. apply find_some in Hq as [Hq _].
    apply list_elem_of_In in Hq. set_solver.
Qed.

Lemma demultiplex_settles idx s k :
  settled k -> in_step idx s k -> opens s -> settles (tcp_demultiplex idx s k).
Proof.
  intros Hk Hs Ho. unfold tcp_demultiplex. pose proof Hk as [Ha Ht Hg Hn Hl].
  destruct (search_splits active_state (conn_matches idx (i_addr s)) (k_active k)) as (r & -> & Hr).
  { eapply Forall_impl; [exact Ha|]. apply in_use_active_state. }
  cbn [obind mbind outcome_bind]. destruct r as [[[before c] after]|].
  { destruct Hr as [Heq Hm]. destruct (Hs c ltac:(rewrite Heq; set_solver) Hm) as (iss & irs & stream & Hshort & Hr & Hp).
    rewrite Heq in Ha. apply Forall_app in Ha as [Hb [[_ Hlive Hlist] Haft]%Forall_cons].
    apply run_on_settles; [apply settled_active; [done|by apply Forall_app]|].
    eapply twp_mono; [apply (input_pcb_ok app_orderly iss irs stream); try done; [by apply rest_enter|by apply peer_enter]|].
    intros u c' Hc'. by exists iss, irs, stream. }
  destruct (search_splits (fun st => state_is st TIME_WAIT) (conn_matches idx (i_addr s)) (k_tw k)) as (r & -> & Htw).
  { eapply Forall_impl; [exact Ht|]. apply in_use_tw_state. }
  cbn [obind mbind outcome_bind]. destruct r as [[[before c] after]|].
  { destruct Htw as [Heq _]. rewrite Heq in Ht. apply Forall_app in Ht as [Hb [Hu Haft]%Forall_cons].
    destruct Hu as [(iss & irs & stream & Hshort & Hrc) Hlive Hlist].
    destruct (twp_done _ _ _ (timewait_input_ok iss irs stream s (enter k c) (rest_enter _ _ _ k c Hrc) Hlive))
      as ([] & c' & -> & Hc' & Hl' & Hlist'). cbn [obind mbind outcome_bind]. apply settles_done.
    apply settled_tw; [by apply settled_leave|]. apply Forall_app. split; [done|]. constructor; [|done].
    split; [by exists iss, irs, stream|done|by rewrite Hlist']. }
  destruct (find_listener idx (i_addr s) (k_listen k)) as [[l ls]|] eqn:Hf.
  - rewrite Forall_forall in Hl. apply listen_settles; [|by apply Hl; eapply find_listener_In; [|left]|done].
    split; try done. apply Forall_forall. intros x Hx. apply Hl. eapply find_listener_In; [done|by right].
  - destruct (has _ TCP_RST); [by apply settles_done|by apply reset_stray_settles].
Qed.

(** A packet that is not empty reads as a segment, or is dropped. *)
Lemma header_reads src dest chain : chain <> [] -> exists r, tcp_header src dest chain = Done r.
Proof.
  intros Hc. destruct chain as [|first rest]; [done|]. unfold tcp_header. cbv zeta.
  destruct (_ <? TCP_HLEN); [by eexists|].
  destruct ((_ <? TCP_HLEN) || (_ <? _)) eqn:Hlen; [by eexists|]. apply orb_false_iff in Hlen as [_ Hlen%Z.ltb_ge].
  assert (exists r, tcp_options first rest (TCPH_HDRLEN_BYTES first) = Done r) as [r ->].
  { unfold tcp_options. destruct (Z.leb_spec (TCPH_HDRLEN_BYTES first) (zlen first)) as [|Hgt]; [by eexists|].
    destruct rest; [|case_match; by eexists]. simpl in Hlen. rewrite app_nil_r in Hlen. lia. }
  cbn [obind mbind outcome_bind]. destruct r as [[opts data]|]; [|by eexists]. case_match; by eexists.
Qed.

Lemma input_settles inp src dest chain k :
  settled k -> chain <> [] ->
  (forall s, tcp_header src dest chain = Done (Some s) -> in_step (netif_get_index inp) s k /\ opens s) ->
  settles (tcp_input inp src dest chain k).
Proof.
  intros Hk Hc Hs. unfold tcp_input. destruct (_ || _); [by apply settles_done|].
  destruct (header_reads src dest chain Hc) as [[s|] Hr]; rewrite Hr; cbn [obind mbind outcome_bind]; [|by apply settles_done].
  destruct (Hs s Hr). by apply demultiplex_settles.
Qed.

(** *** Timers *)

Lemma slowtmr_tw_settles l : forall kept k,
  settled k -> Forall (in_use TimeWaitList) l -> Forall (in_use TimeWaitList) kept -> settles (slowtmr_tw kept l k).
Proof.
  induction l as [|c l IH]; intros kept k Hk Hl Hkept; simpl; [by apply settles_done, settled_tw|].
  apply Forall_cons in Hl as [Hc Hl].
  assert (rests tcp_slowtmr_tw (enter k c)) as Hm.
  { revert Hc. apply rests_all. intros iss irs stream d _ Hr Hlive Hlist. by apply slowtmr_tw_ok. }
  destruct (twp_done _ _ _ Hm) as ([] & c' & -> & Hr). cbn [obind mbind outcome_bind].
  match goal with |- settles (if ?b then _ else _) => destruct b eqn:Hin end.
  - apply andb_true_iff in Hin as [Hlive Hlist%bool_decide_eq_true].
    apply IH; [by apply settled_leave|done|]. apply Forall_app. split; [done|]. by apply Forall_singleton.
  - apply IH; [|done..]. apply settled_place; [by apply settled_leave|done].
Qed.

Lemma slowtmr_settles k :
  settled k -> existsb persist_fault (k_active k) = false -> settles (tcp_slowtmr k).
Proof.
  intros Hk Hfault. assert (Forall (fun c => persist_fault c = false) (k_active k)) as Hp.
  { apply Forall_forall. intros c Hc. destruct (persist_fault c) eqn:Hf; [|done].
    assert (existsb persist_fault (k_active k) = true) as Ht by (apply existsb_exists; exists c; by rewrite <- list_elem_of_In). congruence. }
  unfold tcp_slowtmr. cbv zeta. apply settles_bind.
  - apply all_active_settles; [by apply (settled_same k)|].
    pose proof (conj (se_active _ Hk) Hp) as Hboth. rewrite <- Forall_and in Hboth.
    eapply Forall_impl; [exact Hboth|]. intros c [[(iss & irs & stream & Hs & Hr) Hl Hc] Hprobe] k1.
    destruct (rest_active iss irs stream (enter k1 c) (rest_enter _ _ _ k1 c Hr) Hl Hc) as (n & fin & Ha).
    eapply twp_mono; [by eapply (slowtmr_ok app_orderly iss irs stream)|].
    intros u c' Hc'. by exists iss, irs, stream.
  - intros k1 Hk1. apply slowtmr_tw_settles; [by apply settled_tw|apply Hk1|done].
Qed.

Lemma fasttmr_settles k : settled k -> settles (tcp_fasttmr k).
Proof.
  intros Hk. unfold tcp_fasttmr. cbv zeta. apply all_active_settles; [by apply (settled_same k)|].
  eapply Forall_impl; [apply Hk|]. intros c Hu k1. revert Hu. apply rests_all. intros iss irs stream d Hs Hr Hl Hc.
  destruct (rest_active iss irs stream d Hr Hl Hc) as (n & fin & Ha).
  eapply twp_mono; [by apply (fasttmr_ok app_orderly iss irs stream)|]. intros u c'. apply active_rest.
Qed.

Lemma txnow_settles k : settled k -> settles (tcp_txnow k).
Proof.
  intros Hk. apply all_active_settles; [done|]. eapply Forall_impl; [apply Hk|]. intros c Hu k1. revert Hu.
  apply rests_all. intros iss irs stream d Hs Hr Hl Hc.
  destruct (rest_active iss irs stream d Hr Hl Hc) as (n & fin & Ha).
  eapply twp_mono; [by apply (txnow_ok iss irs stream)|]. intros u c'. apply active_rest.
Qed.

(** *** Calls between two callbacks *)

Lemma on_active_settles m i k :
  settled k -> (forall c, in_use ActiveList c -> rests m (enter k c)) -> settles (on_active m i k).
Proof.
  intros Hk Hm. unfold on_active. destruct (k_active k !! i) as [c|] eqn:Hi; [|by apply settles_done].
  destruct (delete_lookup_Forall _ _ _ _ (se_active _ Hk) Hi) as [Hc Hrest].
  destruct (twp_done _ _ _ (Hm c Hc)) as ([] & c' & -> & Hr). cbn [obind mbind outcome_bind].
  match goal with |- settles (if ?b then _ else _) => destruct b eqn:Hin end; apply settles_done.
  - apply andb_true_iff in Hin as [Hlive Hlist%bool_decide_eq_true].
    apply settled_active; [by apply settled_leave|]. apply Forall_insert; [apply Hk|done].
  - apply settled_place; [|done]. apply settled_active; [by apply settled_leave|done].
Qed.

Lemma calls_settle a i k : settled k -> courteous a -> settles (on_active (_ ← run_app a; mret tt) i k).
Proof.
  intros Hk Ha. apply on_active_settles; [done|]. intros c. apply rests_all. intros iss irs stream d Hs Hr Hl Hc.
  apply twp_bind. eapply twp_mono; [by apply (courteous_rest iss irs stream)|]. intros e c' Hc'. by apply twp_ret.
Qed.

End settled.

(** ** What happens to the stack *)

(** [Calls i a]: between two callbacks the application runs [a] on connection [i]. *)
Inductive happening :=
| Calls (i : nat) (a : app_prog)
| Packet (inp : netif) (src dest : ip_addr_t) (chain : list (list Z))
| SlowTimers
| FastTimers
| TxNows.

Section happenings.
Context `{Environment}.

Definition happen (h : happening) : stack -> outcome stack :=
  match h with
  | Calls i a => on_active (_ ← run_app a; mret tt) i
  | Packet inp src dest chain => tcp_input inp src dest chain
  | SlowTimers => tcp_slowtmr
  | FastTimers => tcp_fasttmr
  | TxNows => tcp_txnow
  end.

Fixpoint happen_all (hs : list happening) (k : stack) : outcome stack :=
  match hs with
  | [] => Done k
  | h :: hs => k ← happen h k; happen_all hs k
  end.

(** A packet that reads as a segment comes from the peer of the connection it matches,
    if there is one; the application writes, outputs, acknowledges, and closes or aborts
    last. *)
Definition expected (h : happening) (k : stack) : Prop :=
  match h with
  | Calls _ a => courteous a
  | Packet inp src dest chain =>
      chain <> [] /\
      forall s, tcp_header src dest chain = Done (Some s) -> in_step (netif_get_index inp) s k /\ opens s
  | _ => True
  end.

Fixpoint all_expected (hs : list happening) (k : stack) : Prop :=
  match hs with
  | [] => True
  | h :: hs => expected h k /\ forall k', happen h k = Done k' -> all_expected hs k'
  end.

(** A slow timer may fail an assertion now. *)
Definition halts (h : happening) (k : stack) : bool :=
  match h with SlowTimers => existsb persist_fault (k_active k) | _ => false end.

End happenings.

(** ** A demonstration *)

Module DemoStack.

(** The established connection of [TcpMain.Demo], a listener for all ports, and packets
    for them. *)
Definition tun : netif :=
  mk_netif (ad_dest_ip peer) (mk_ip_addr [255; 255; 255; 0] IPADDR_TYPE_V4) (mk_ip_addr [10; 0; 0; 2] IPADDR_TYPE_V4)
    [] [] None netif_output_ip4_fn netif_bridge_output_ip6_fn 1500 1500 NETIF_FLAG_UP [] 0 0.

Definition for_all_ports : tcp_pcb_listen :=
  mk_listen (mk_ip_addr [0; 0; 0; 0] IPADDR_TYPE_V4) 0 64 0 0 7 (Some app_accept_fn).

Definition running : stack :=
  mk_stack [established [hi_segment] hi 0] [] [for_all_ports] [] (established [hi_segment] hi 0)
    (input_globals syn) 5 0 0 6510 0.

Definition packet (src dest seqno ackno flags : Z) (opts data : list Z) : list Z :=
  header_bytes (mk_out (ad_src_ip peer) (ad_dest_ip peer) src dest seqno ackno (5 + zlen opts / 4) flags
    (be16_bytes 65535) 0 opts data TCP_TTL 0) 0xabcd ++ data.

Definition hi_packet : list (list Z) := [packet 40000 443 101 6516 (Z.lor TCP_PSH TCP_ACK) [] hi].
Definition syn_packet : list (list Z) := [packet 40001 80 100 0 TCP_SYN [2; 4; 5; 180; 1; 3; 3; 7] []].
Definition new_syn_segment : in_segment :=
  mk_in_segment (mk_addressing (ad_src_ip peer) (ad_dest_ip peer) 40001 80) 100 0 TCP_SYN 65535
    [2; 4; 5; 180; 1; 3; 3; 7] [].

Lemma hi_read :
  tcp_header (ad_src_ip peer) (ad_dest_ip peer) hi_packet
  = Done (Some (segment 101 6516 (Z.lor TCP_PSH TCP_ACK) [] hi)).
Proof. by vm_compute. Qed.

Lemma syn_read : tcp_header (ad_src_ip peer) (ad_dest_ip peer) syn_packet = Done (Some new_syn_segment).
Proof. by vm_compute. Qed.

Lemma demo_rest : at_rest 6515 100 hi (established [hi_segment] hi 0).
Proof. eapply active_rest. by apply (demo_active 0). Qed.

Lemma hi_of_peer c : of_peer 100 hi c (segment 101 6516 (Z.lor TCP_PSH TCP_ACK) [] hi).
Proof. apply segment_of_peer; [done..|by exists 0, [], []]. Qed.

Lemma usable_new_syn : usable_syn new_syn_segment.
Proof. destruct new_syn as [_ _ _ _ _ _ Ho Hw Hm Hp]. by split. Qed.

Lemma running_settled : settled running.
Proof.
  assert (rest (established [hi_segment] hi 0)) as Hr by (exists 6515, 100, hi; split; [done|apply demo_rest]).
  split; simpl; try by repeat constructor.
  exists 6515. destruct (demo_active 0 ltac:(lia)) as [Hh _ _]. apply Hh.
Qed.

End DemoStack.
Import DemoStack.

(** C9: a packet that reads as a segment of a connection's peer, and of no connection
    before it in the list, is processed by that connection alone: [tcp_input] returns,
    the connection is left with its streams intact, at the front of the list if it is
    still in use, and every other connection and every listener is as before. *)
Theorem segment_reaches_its_connection `{Environment} iss irs stream inp src dest chain s k before c after :
  orderly env_app -> zlen stream < 2 ^ 30 ->
  ip_addr_isbroadcast dest inp || ip_addr_ismulticast dest = false ->
  tcp_header src dest chain = Done (Some s) ->
  k_active k = before ++ c :: after ->
  Forall (other_than (netif_get_index inp) s active_state) before ->
  conn_matches (netif_get_index inp) (i_addr s) c = true ->
  at_rest iss irs stream c -> c_live c = true -> c_list c = ActiveList -> of_peer irs stream c s ->
  exists c' k', tcp_input_pcb s (enter k c) = Done (tt, c') /\ at_rest iss irs stream c' /\
    tcp_input inp src dest chain k = Done k' /\
    k_active k' = now_active c' ++ before ++ after /\ k_listen k' = k_listen k /\
    (c_live c' = true -> k_tw k' = (if bool_decide (c_list c' = TimeWaitList) then [c'] else []) ++ k_tw k).
Proof.
  intros Happ Hshort Hdest Hhdr Hk Hb Hm Hr Hl Hact Hs.
  destruct (twp_done _ _ _ (input_pcb_ok Happ iss irs stream Hshort (enter k c) s
    (rest_enter iss irs stream k c Hr) Hl Hact (peer_enter _ _ k c s Hs))) as ([] & c' & Hrun & Hr').
  exists c', (place c' (leave c' (set_active (before ++ after) k))). split_and!; try done.
  - unfold tcp_input. rewrite Hdest, Hhdr. cbn [obind mbind outcome_bind]. unfold tcp_demultiplex. rewrite Hk.
    rewrite (search_found _ _ before c after); [|done|by eapply rest_active_state|done].
    cbn [obind mbind outcome_bind]. unfold run_on.
    change (enter (set_active (before ++ after) k) c) with (enter k c). by rewrite Hrun.
  - by rewrite place_active.
  - by rewrite place_listen.
  - intros Hl'. unfold place. rewrite Hl'. by destruct (c_list c').
Qed.

Lemma segment_reaches_its_connection_witness :
  exists c' k', tcp_input tun (ad_src_ip peer) (ad_dest_ip peer) hi_packet running = Done k' /\
    at_rest 6515 100 hi c' /\ k_active k' = now_active c' ++ [] ++ [] /\ k_listen k' = [for_all_ports].
Proof.
  destruct (segment_reaches_its_connection 6515 100 hi tun (ad_src_ip peer) (ad_dest_ip peer) hi_packet
    (segment 101 6516 (Z.lor TCP_PSH TCP_ACK) [] hi) running []
    (established [hi_segment] hi 0) [] orderly_echo ltac:(done) eq_refl hi_read eq_refl (Forall_nil_2 _) eq_refl
    demo_rest eq_refl eq_refl (hi_of_peer _)) as (c' & k' & _ & Hr & Hrun & Ha & Hl & _).
  exists c', k'. exact (conj Hrun (conj Hr (conj Ha Hl))).
Defined.

(** C8: a SYN that no connection matches and a listener takes opens a connection, as
    long as memory is granted: it stands at the front of the list with the addresses
    and ports of the SYN, also when the listener is for all ports, so that the peer's
    next segment finds it; its streams start at the two initial sequence numbers, and
    nothing else changes. *)
Theorem syn_opens_connection `{Environment} inp src dest chain s l ls k stream :
  (forall n, env_grants n = true) ->
  ip_addr_isbroadcast dest inp || ip_addr_ismulticast dest = false ->
  ip_addr_isany (ad_dest_ip (i_addr s)) = false ->
  tcp_header src dest chain = Done (Some s) ->
  has (i_flags s) TCP_SYN = true -> has (i_flags s) TCP_ACK = false -> has (i_flags s) TCP_RST = false ->
  Forall (other_than (netif_get_index inp) s active_state) (k_active k) ->
  Forall (other_than (netif_get_index inp) s (fun st => state_is st TIME_WAIT)) (k_tw k) ->
  find_listener (netif_get_index inp) (i_addr s) (k_listen k) = Some (l, ls) ->
  netif_matches (l_netif_idx l) (netif_get_index inp) = true -> l_accept l <> None -> usable_syn s ->
  let iss := u32 (k_iss k + k_ticks k) in
  exists c k', tcp_input inp src dest chain k = Done k' /\
    k_active k' = c :: k_active k /\ k_tw k' = k_tw k /\ k_listen k' = ls /\ k_iss k' = iss /\
    conn_matches (netif_get_index inp) (i_addr s) c = true /\ pcb_state (c_pcb c) = SYN_RCVD /\
    c_live c = true /\ at_rest iss (i_seqno s) stream c.
Proof.
  intros Hg Hdest Hany Hhdr Hsyn Hack Hrst Hact Htw Hfind Hn Ha Hu iss.
  set (k1 := set_iss iss (set_k_calls (k_calls k + 1) (set_listen ls k))).
  set (c0 := new_conn (tcp_alloc_pcb (l_prio l) (k_ticks k1) (k_timer_ctr k1)) k1).
  assert (new_connection l s (enter k1 c0)) as Hnew by (by apply usable_new).
  destruct (twp_done _ _ _ (twp_wlp _ _ _ _ (new_connection_rests iss stream l s _ Hnew)
    (listen_syn_place l s iss (enter k1 c0) Hg (us_options _ Hu) Hany eq_refl eq_refl)))
    as ([] & c & Hrun & Hr & Hl & Hlist & Hst & Hid).
  exists c, (place c (leave c k1)). split_and!; try done.
  - unfold tcp_input. rewrite Hdest, Hhdr. cbn [obind mbind outcome_bind]. unfold tcp_demultiplex.
    rewrite (search_none _ _ _ Hact). cbn [obind mbind outcome_bind].
    rewrite (search_none _ _ _ Htw). cbn [obind mbind outcome_bind]. rewrite Hfind.
    unfold tcp_listen_input. rewrite Hrst, Hack, Hsyn. unfold tcp_alloc, memp_malloc_tcp. rewrite Hg.
    cbn [obind mbind outcome_bind]. unfold run_on, tcp_next_iss.
    match goal with |- context [tcp_listen_input_syn l s ?i ?d] =>
      change (tcp_listen_input_syn l s i d) with (tcp_listen_input_syn l s iss (enter k1 c0)) end. by rewrite Hrun.
  - rewrite place_active. unfold now_active. by rewrite Hl, bool_decide_true.
  - unfold place. by rewrite Hl, Hlist.
  - by rewrite place_listen.
  - unfold place. by rewrite Hl, Hlist.
  - eapply opened_matches; [done|by eapply found_listener_port|done].
Qed.

Lemma syn_opens_connection_witness :
  exists c k', tcp_input tun (ad_src_ip peer) (ad_dest_ip peer) syn_packet running = Done k' /\
    k_active k' = [c; established [hi_segment] hi 0] /\ pcb_state (c_pcb c) = SYN_RCVD /\ at_rest 6515 100 hi c.
Proof.
  destruct (syn_opens_connection tun (ad_src_ip peer) (ad_dest_ip peer) syn_packet new_syn_segment for_all_ports [for_all_ports] running hi
    (fun _ => eq_refl : @env_grants world _ = true) eq_refl eq_refl syn_read eq_refl eq_refl eq_refl
    (Forall_cons_2 _ (established [hi_segment] hi 0) _ (conj eq_refl eq_refl) (Forall_nil_2 _)) (Forall_nil_2 _) eq_refl eq_refl
    ltac:(done) usable_new_syn) as (c & k' & Hrun & Ha & _ & _ & _ & _ & Hst & _ & Hr).
  exists c, k'. exact (conj Hrun (conj Ha (conj Hst Hr))).
Defined.

Lemma happenings_settle `{Environment} hs k :
  orderly env_app -> settled k -> all_expected hs k -> exists hs1 hs2 k',
    hs = hs1 ++ hs2 /\ happen_all hs1 k = Done k' /\ settled k' /\
    match hs2 with [] => True | h :: _ => halts h k' = true end.
Proof.
  intros Happ. revert k. induction hs as [|h hs IH]; intros k Hk; [by exists [], [], k|]. intros [He Hhs].
  destruct (halts h k) eqn:Hhalt; [by exists [], (h :: hs), k|].
  assert (settles (happen h k)) as (k1 & Hrun & Hk1).
  { destruct h; simpl in *; [by apply calls_settle|apply input_settles; try done; apply He|by apply slowtmr_settles|by apply fasttmr_settles|by apply txnow_settles]. }
  destruct (IH k1 Hk1 (Hhs k1 Hrun)) as (hs1 & hs2 & k' & -> & Hrun' & Hk' & Hend).
  exists (h :: hs1), hs2, k'. split_and!; try done. simpl. by rewrite Hrun.
Qed.

(** C7: packets and timers in any order, malformed packets and packets for no connection
    among them, and calls of the application that may close or abort a connection last;
    whichever allocations and transmissions fail, so that connections are reclaimed to
    make room, with an orderly application that may close in its callbacks.
    A packet that reads as a segment of an active connection's peer is a piece of that
    peer's stream, of less than 2^30 bytes, with no maximum segment size option after the
    SYN; a SYN offers at least two segments of window and a maximum segment size of at
    least 8. Then everything happens without a failed assertion and without use of a freed
    control block, and leaves every connection whole, on the list its state calls for, up
    to the end or up to a slow timer that finds a connection at fault: its persist timer
    runs with segments in flight, with nothing to send, with a head that can be neither
    probed nor split, or with a full queue. *)
Theorem stack_stays_settled `{Environment} hs k :
  orderly env_app -> settled k -> all_expected hs k -> exists hs1 hs2 k',
    hs = hs1 ++ hs2 /\ happen_all hs1 k = Done k' /\ settled k' /\
    match hs2 with [] => True | h :: _ => halts h k' = true end.
Proof. apply happenings_settle. Qed.

Lemma stack_stays_settled_witness :
  exists hs1 hs2 k', [Packet tun (ad_src_ip peer) (ad_dest_ip peer) hi_packet; FastTimers; SlowTimers; TxNows; Calls 0 (unbind (Abort (Return ERR_OK)))] = hs1 ++ hs2 /\
    happen_all hs1 running = Done k' /\ settled k' /\ match hs2 with [] => True | h :: _ => halts h k' = true end.
Proof.
  apply stack_stays_settled; [exact orderly_echo|exact running_settled|].
  split; [|by repeat split; right; exists ERR_OK]. split; [done|]. rewrite hi_read. intros s [= <-]. split; [|done].
  intros c Hc _. apply list_elem_of_singleton in Hc as ->. exists 6515, 100, hi.
  split; [done|]. split; [apply demo_rest|apply hi_of_peer].
Defined.
