(* ===== verification/BridgeTcp.v ===== *)
(** * The bridge's TCP side ([lwip_bridge.c], [tcp.c])

    The callbacks that make the bridge the application of lwIP, what it does for the
    native methods on a connection, the two listeners for all ports with [tcp_bind] and
    [tcp_listen], and the end of all connections. *)
From Stdlib Require Import ZArith Lia.
From stdpp Require Import base list option numbers gmap.
From S2P Require Import Prelude Pbuf Chksum Lwip Tcp TcpOut TcpApi TcpIn TcpInv TcpOutProofs TcpApiProofs TcpInProofs TcpInputProofs TcpTimerProofs TcpTraffic TcpMain TcpStack.
Import TcpMain.Demo TcpStack.DemoStack.

(** ** Java *)

(** What a Java method does before it returns: it calls native methods on the
    connection. *)
Inductive java_prog :=
| JavaReturn
| JavaWrite (data : list Z) (k : err_t -> java_prog)
| JavaOutput (k : java_prog)
| JavaRecved (len : Z) (k : java_prog)
| JavaClose (k : java_prog)
| JavaAbort (k : java_prog).

(** The Java methods behind the callbacks of [lwip_jni_bridge.c]; [java_accept] answers a
    connection, 0 for none. The data of a packet may lie in a chain of pbufs, which needs
    memory. *)
Record java := mk_java {
  java_accept : list event -> Z;
  java_recv : Z -> list event -> option (list Z) -> java_prog;
  java_sent : Z -> list event -> Z -> java_prog;
  java_chained : list event -> bool;
  java_memory : list event -> bool;
}.

(** ** Callbacks *)

Section callbacks.
Variable fns : bool. (** the functions of [lwip_bridge_set_fns] are set *)
Variable j : java.

(** [lwip_bridge_tcp_close] in a callback, with the fallback to [tcp_abort]. *)
Definition close_call (k : app_prog) : app_prog :=
  Set_ (Arg 0) (Set_ (Recv None) (Set_ (Sent false) (Set_ (Err false)
    (Close (fun err => if negb (bool_decide (err = ERR_OK)) then Abort k else k))))).

Definition abort_call (k : app_prog) : app_prog :=
  Set_ (Arg 0) (Set_ (Recv None) (Set_ (Sent false) (Set_ (Err false) (Abort k)))).

Fixpoint run_java (p : java_prog) (k : app_prog) : app_prog :=
  match p with
  | JavaReturn => k
  | JavaWrite data p => Write data TCP_WRITE_FLAG_COPY (fun err => run_java (p err) k)
  | JavaOutput p => OutputNow (fun _ => run_java p k)
  | JavaRecved len p => Recved len (run_java p k)
  | JavaClose p => close_call (run_java p k)
  | JavaAbort p => abort_call (run_java p k)
  end.

Definition bind_pcb_to_conn (conn : Z) (k : app_prog) : app_prog :=
  Set_ (Arg conn) (Set_ (Recv (Some app_recv_fn)) (Set_ (Sent true) (Set_ (Err true) (Set_ NagleDisable k)))).

Definition tcp_accept_cb (t : list event) : app_prog :=
  if negb fns then Return ERR_ABRT
  else
    let conn := java_accept j t in
    if conn =? 0 then Abort (Return ERR_ABRT)
    else bind_pcb_to_conn conn (Return ERR_OK).

Definition tcp_recv_cb (arg : Z) (t : list event) (p : option (list Z)) : app_prog :=
  if arg =? 0 then Return ERR_ABRT
  else
    match p with
    | None => if fns then run_java (java_recv j arg t None) (Return ERR_OK) else Return ERR_OK
    | Some data =>
        if fns then
          if java_chained j t && negb (java_memory j t) then Return ERR_MEM
          else run_java (java_recv j arg t (Some data)) (Return ERR_OK)
        else Return ERR_OK
    end.

Definition tcp_sent_cb (arg : Z) (t : list event) (len : Z) : app_prog :=
  if negb (arg =? 0) && fns then run_java (java_sent j arg t len) (Return ERR_OK) else Return ERR_OK.

(** What Java is told of an error, of which lwIP reports the connection's argument. *)
Definition tcp_err_cb (arg : Z) (err : err_t) : option (Z * err_t) :=
  if negb (arg =? 0) && fns then Some (arg, err) else None.

(** The bridge as lwIP's application; it asks for no other callbacks. *)
Definition bridge_application : application :=
  mk_app tcp_accept_cb (fun _ => Return ERR_OK) tcp_recv_cb tcp_sent_cb (fun _ => Return ERR_OK).

End callbacks.

(** ** A connection, between two callbacks *)

Section connection.
Context `{Environment}.

Definition lwip_bridge_tcp_write (data : list Z) : TM err_t := tcp_write (Some data) TCP_WRITE_FLAG_COPY.
Definition lwip_bridge_tcp_output : TM unit := _ ← tcp_output; mret tt.
Definition lwip_bridge_tcp_recved (len : Z) : TM unit := tcp_recved len.
Definition lwip_bridge_tcp_sndbuf : TM Z := p ← pcb_; mret (tcp_sndbuf p).
Definition lwip_bridge_tcp_snd_queuelen : TM Z := p ← pcb_; mret (snd_queuelen (tx p)).

Definition clear_callbacks : TM unit :=
  _ ← apply_setting (Arg 0);
  _ ← apply_setting (Recv None);
  _ ← apply_setting (Sent false);
  apply_setting (Err false).

Definition lwip_bridge_tcp_close : TM unit :=
  _ ← clear_callbacks;
  err ← tcp_close;
  when (negb (bool_decide (err = ERR_OK))) tcp_abort.

Definition lwip_bridge_tcp_abort : TM unit := _ ← clear_callbacks; tcp_abort.

End connection.

(** ** Binding and listening *)

#[export] Instance accept_fn_eq_dec : EqDecision accept_fn.
Proof. solve_decision. Defined.
#[export] Instance ip_addr_eq_dec : EqDecision ip_addr_t.
Proof. solve_decision. Defined.
#[export] Instance listen_eq_dec : EqDecision tcp_pcb_listen.
Proof. solve_decision. Defined.

(** The stack with the control blocks that are bound and not yet used, the last port
    given out, and the bridge's pointers to its listeners; a listener is known by its
    fields, which change only where they are written here. *)
Record bridge_stack := mk_bridge_stack {
  b_stack : stack; b_bound : list tcp_pcb; b_port : Z;
  b_listen_v4 : option tcp_pcb_listen; b_listen_v6 : option tcp_pcb_listen;
}.

#[export] Instance bridge_stack_settable : Settable bridge_stack := fun b =>
  mk_bridge_stack (b_stack b) (b_bound b) (b_port b) (b_listen_v4 b) (b_listen_v6 b).
Definition set_b_stack : stack -> bridge_stack -> bridge_stack := ltac:(setter b_stack).
Definition set_b_bound : list tcp_pcb -> bridge_stack -> bridge_stack := ltac:(setter b_bound).
Definition set_b_port : Z -> bridge_stack -> bridge_stack := ltac:(setter b_port).
Definition set_b_listen_v4 : option tcp_pcb_listen -> bridge_stack -> bridge_stack := ltac:(setter b_listen_v4).
Definition set_b_listen_v6 : option tcp_pcb_listen -> bridge_stack -> bridge_stack := ltac:(setter b_listen_v6).

Definition TCP_LOCAL_PORT_RANGE_START : Z := 0xc000.
Definition TCP_LOCAL_PORT_RANGE_END : Z := 0xffff.
Definition TCP_PRIO_NORMAL : Z := 64.

(** The local addresses and ports of every list, in the order of [tcp_pcb_lists]. *)
Definition pcb_locals (b : bridge_stack) : list (ip_addr_t * Z) :=
  let of_pcb p := (id_local_ip (pcb_id p), id_local_port (pcb_id p)) in
  let k := b_stack b in
  map (fun l => (l_local_ip l, l_local_port l)) (k_listen k) ++ map of_pcb (b_bound b)
  ++ map (fun c => of_pcb (c_pcb c)) (k_active k) ++ map (fun c => of_pcb (c_pcb c)) (k_tw k).

(** The next port that no list uses, or 0; [n] counts the ports tried in vain. *)
Fixpoint new_port (fuel : nat) (used : list Z) (port n : Z) : outcome (Z * Z) :=
  match fuel with
  | O => Undef
  | S fuel =>
      let port := u16 (port + 1) in
      let port := if port =? TCP_LOCAL_PORT_RANGE_END then TCP_LOCAL_PORT_RANGE_START else port in
      if existsb (Z.eqb port) used then
        let n := u16 (n + 1) in
        if TCP_LOCAL_PORT_RANGE_END - TCP_LOCAL_PORT_RANGE_START <? n then Done (0, port)
        else new_port fuel used port n
      else Done (port, port)
  end.

Definition new_port_fuel : nat := Z.to_nat 16385.

Definition tcp_new_port (b : bridge_stack) : outcome (Z * bridge_stack) :=
  '(port, last) ← new_port new_port_fuel (map snd (pcb_locals b)) (b_port b) 0;
  Done (port, set_b_port last b).

(** Another control block has the port, with an address that overlaps. *)
Definition address_in_use (ipaddr : ip_addr_t) (port : Z) (local : ip_addr_t * Z) : bool :=
  (local.2 =? port) && (Bool.eqb (IP_IS_V6 ipaddr) (IP_IS_V6 local.1)
    && (ip_addr_isany local.1 || ip_addr_isany ipaddr || ip_addr_eq local.1 ipaddr)).

Definition tcp_bind (p : tcp_pcb) (ipaddr : ip_addr_t) (port : Z) (b : bridge_stack)
    : outcome (err_t * tcp_pcb * bridge_stack) :=
  if negb (state_is (pcb_state p) CLOSED) then Done (ERR_VAL, p, b)
  else
    '(r, b) ← (if port =? 0 then
                 '(port, b) ← tcp_new_port b;
                 Done (if port =? 0 then inl ERR_BUF else inr port, b)
               else
                 Done (if existsb (address_in_use ipaddr port) (pcb_locals b) then inl ERR_USE else inr port, b));
    match (r : err_t + Z) with
    | inl err => Done (err, p, b)
    | inr port =>
        let p := if negb (ip_addr_isany ipaddr) || negb (ip_type ipaddr =? ip_type (id_local_ip (pcb_id p)))
                 then set_id (set_local_ip ipaddr (pcb_id p)) p else p in
        let p := set_id (set_local_port port (pcb_id p)) p in
        Done (ERR_OK, p, set_b_bound (p :: b_bound b) b)
    end.

(** The control block that has an address and port leaves the list. *)
Fixpoint remove_bound (i : identity) (l : list tcp_pcb) : list tcp_pcb :=
  match l with
  | [] => []
  | p :: l =>
      if (id_local_port (pcb_id p) =? id_local_port i) && bool_decide (id_local_ip (pcb_id p) = id_local_ip i)
      then l else p :: remove_bound i l
  end.

Section listeners.
Context `{Environment}.

(** [tcp_listen]: the control block becomes a smaller one on the list of listeners. *)
Definition tcp_listen (p : tcp_pcb) (b : bridge_stack) : option tcp_pcb_listen * err_t * bridge_stack :=
  let k := b_stack b in
  if negb (state_is (pcb_state p) CLOSED) then (None, ERR_CLSD, b)
  else if negb (env_grants (k_calls k)) then (None, ERR_MEM, set_b_stack (set_k_calls (k_calls k + 1) k) b)
  else
    let i := pcb_id p in
    let l := mk_listen (id_local_ip i) (id_local_port i) (id_prio i) (id_so_options i) (id_netif_idx i)
               (callback_arg (cb p)) (Some tcp_accept_null_fn) in
    let b := if negb (id_local_port i =? 0) then set_b_bound (remove_bound i (b_bound b)) b else b in
    (Some l, ERR_OK, set_b_stack (set_listen (l :: k_listen k) (set_k_calls (k_calls k + 1) k)) b).

(** A listener is written to. *)
Definition update_listener (l l' : tcp_pcb_listen) (b : bridge_stack) : bridge_stack :=
  let k := b_stack b in
  set_b_stack (set_listen (map (fun x => if decide (x = l) then l' else x) (k_listen k)) k) b.

Definition tcp_accept (accept : accept_fn) (l : tcp_pcb_listen) : tcp_pcb_listen :=
  mk_listen (l_local_ip l) (l_local_port l) (l_prio l) (l_so_options l) (l_netif_idx l) (l_callback_arg l) (Some accept).
Definition force_port_0 (l : tcp_pcb_listen) : tcp_pcb_listen :=
  mk_listen (l_local_ip l) 0 (l_prio l) (l_so_options l) (l_netif_idx l) (l_callback_arg l) (l_accept l).

Definition tcp_new (b : bridge_stack) : outcome (option tcp_pcb * bridge_stack) :=
  '(p, k) ← tcp_alloc TCP_PRIO_NORMAL (b_stack b);
  Done (p, set_b_stack k b).

Definition tcp_new_ip_type (type : Z) (b : bridge_stack) : outcome (option tcp_pcb * bridge_stack) :=
  '(p, k) ← tcp_alloc TCP_PRIO_NORMAL (b_stack b);
  let typed p := set_id (set_local_ip (IP_SET_TYPE_VAL (id_local_ip (pcb_id p)) type)
                   (set_remote_ip (IP_SET_TYPE_VAL (id_remote_ip (pcb_id p)) type) (pcb_id p))) p in
  Done (match p with Some p => Some (typed p) | None => None end, set_b_stack k b).

(** One listener of [lwip_bridge_init], for all ports. The answer of [tcp_bind] is not
    looked at; when [tcp_listen] has no memory, its control block stays bound. *)
Definition open_tcp_listener (v6 : bool) (b : bridge_stack) : outcome bridge_stack :=
  let keep l b := if v6 then set_b_listen_v6 l b else set_b_listen_v4 l b in
  '(p, b) ← (if v6 then tcp_new_ip_type IPADDR_TYPE_V6 b else tcp_new b);
  match p with
  | None => Done (keep None b)
  | Some p =>
      '(_, p, b) ← tcp_bind p (if v6 then IP6_ADDR_ANY else IP4_ADDR_ANY) 0 b;
      let '(l, _, b) := tcp_listen p b in
      match l with
      | None => Done (keep None b)
      | Some l =>
          let l' := tcp_accept app_accept_fn (force_port_0 l) in
          Done (keep (Some l') (update_listener l l' b))
      end
  end.

Definition open_tcp_listeners (b : bridge_stack) : outcome bridge_stack :=
  b ← open_tcp_listener false b;
  open_tcp_listener true b.

(** ** The end of all connections *)

Fixpoint abort_active (fuel : nat) (k : stack) : outcome stack :=
  match k_active k with
  | [] => Done k
  | c :: l =>
      match fuel with
      | O => Undef
      | S fuel => k ← run_on tcp_abort c (set_active l k); abort_active fuel k
      end
  end.

Fixpoint free_timewait (fuel : nat) (k : stack) : outcome stack :=
  match k_tw k with
  | [] => Done k
  | c :: l =>
      match fuel with
      | O => Undef
      | S fuel => k ← run_on (_ ← tcp_pcb_remove TimeWaitList; tcp_free) c (set_tw l k); free_timewait fuel k
      end
  end.

Definition lwip_bridge_abort_all_tcp (k : stack) : outcome stack :=
  k ← abort_active (length (k_active k)) k;
  free_timewait (length (k_tw k)) k.

(** [tcp_close] of a listener. [tcp_listen_closed] takes it from the connections it
    opened; after [lwip_bridge_abort_all_tcp] there are none. *)
Definition close_listener (l : option tcp_pcb_listen) (k : stack) : stack :=
  match l with
  | None => k
  | Some l => set_listen (filter (fun x => x <> l) (k_listen k)) k
  end.

(** What [lwip_bridge_shutdown] does to TCP. *)
Definition shutdown_tcp (b : bridge_stack) : outcome bridge_stack :=
  k ← lwip_bridge_abort_all_tcp (b_stack b);
  let k := close_listener (b_listen_v6 b) (close_listener (b_listen_v4 b) k) in
  Done (set_b_listen_v4 None (set_b_listen_v6 None (set_b_stack k b))).

End listeners.

(** ** The bridge keeps to the rules *)

(** A method that does not abort the connection, and closes it, if at all, as the last
    thing it does; lengths are [uint16_t]. *)
Fixpoint careful (may_close : bool) (p : java_prog) : Prop :=
  match p with
  | JavaReturn => True
  | JavaWrite data k => zlen data < 2 ^ 16 /\ forall e, careful may_close (k e)
  | JavaOutput k | JavaRecved _ k => careful may_close k
  | JavaClose k => may_close = true /\ k = JavaReturn
  | JavaAbort _ => False
  end.

(** What Java calls on a connection between two callbacks: as [careful], but it may also
    end with an abort. *)
Fixpoint polite (p : java_prog) : Prop :=
  match p with
  | JavaReturn => True
  | JavaWrite data k => zlen data < 2 ^ 16 /\ forall e, polite (k e)
  | JavaOutput k | JavaRecved _ k => polite k
  | JavaClose k | JavaAbort k => k = JavaReturn
  end.

(** The receive method closes only a connection whose data was never refused for want of
    memory. *)
Record careful_java (j : java) : Prop := mk_careful_java {
  cj_recv : forall arg t d, careful (negb (refused_in t)) (java_recv j arg t d);
  cj_sent : forall arg t len, careful true (java_sent j arg t len);
}.

Lemma run_java_calm p : careful false p -> calm (run_java p (Return ERR_OK)).
Proof.
  intros Hp. induction p as [|data p IH|p IH|len p IH|p IH|p IH]; simpl in *; try done.
  - destruct Hp as [H16 Hk]. split; [done|]. intros e. by apply IH.
  - intros _. by apply IH.
  - by apply IH.
  - by destruct Hp.
Qed.

Lemma run_java_closing p : careful true p -> closing (run_java p (Return ERR_OK)).
Proof.
  intros Hp. induction p as [|data p IH|p IH|len p IH|p IH|p IH]; simpl in *; try done.
  - destruct Hp as [H16 Hk]. split; [done|]. intros e. by apply IH.
  - intros _. by apply IH.
  - by apply IH.
  - destruct Hp as [_ ->]. eexists. by split.
Qed.

Lemma run_java_courteous p : polite p -> courteous (run_java p (Return ERR_OK)).
Proof.
  intros Hp. induction p as [|data p IH|p IH|len p IH|p IH|p IH]; simpl in *; try done.
  - destruct Hp as [H16 Hk]. split; [done|]. intros e. by apply IH.
  - intros _. by apply IH.
  - by apply IH.
  - subst p. left. eexists. by split.
  - subst p. right. by exists ERR_OK.
Qed.

Lemma bridge_orderly j : careful_java j -> orderly (bridge_application true j).
Proof.
  intros [Hr Hs]. split; simpl.
  - intros t. unfold tcp_accept_cb. cbn [negb]. cbv zeta. destruct (Z.eqb_spec (java_accept j t) 0); [by right|by left].
  - intros arg t d Harg. unfold tcp_recv_cb. rewrite (proj2 (Z.eqb_neq _ _) Harg).
    assert (forall d, calm (run_java (java_recv j arg t d) (Return ERR_OK)) \/
      closing (run_java (java_recv j arg t d) (Return ERR_OK)) /\ refused_in t = false) as Hj.
    { intros d'. specialize (Hr arg t d'). destruct (refused_in t); [left; by apply run_java_calm|right].
      split; [by apply run_java_closing|done]. }
    destruct d as [data|]; [destruct (_ && _); [by left|]|]; apply Hj.
  - intros arg t len. unfold tcp_sent_cb. destruct (_ && _); [right; by apply run_java_closing|by left].
  - done.
Qed.

(** ** Ports *)

Definition in_range (port : Z) : Prop := TCP_LOCAL_PORT_RANGE_START <= port < TCP_LOCAL_PORT_RANGE_END.

(** The search ends, and with a port of the range that nobody uses, or with 0. *)
Lemma new_port_found used fuel : forall port n,
  in_range port -> 0 <= n <= 16383 -> 16384 - n <= Z.of_nat fuel ->
  exists r last, new_port fuel used port n = Done (r, last) /\ in_range last /\
    (r = 0 \/ in_range r /\ r ∉ used).
Proof.
  unfold in_range, TCP_LOCAL_PORT_RANGE_START, TCP_LOCAL_PORT_RANGE_END.
  induction fuel as [|fuel IH]; intros port n Hp Hn Hf; [lia|]. cbn [new_port]. cbv zeta.
  unfold TCP_LOCAL_PORT_RANGE_START, TCP_LOCAL_PORT_RANGE_END.
  rewrite (wrap_small 16 (port + 1)), (wrap_small 16 (n + 1)) by (unfold fits; lia).
  set (q := if port + 1 =? 0xffff then 0xc000 else port + 1).
  assert (0xc000 <= q < 0xffff) as Hq by (unfold q; destruct (Z.eqb_spec (port + 1) 0xffff); lia).
  destruct (existsb (Z.eqb q) used) eqn:Hu.
  - destruct (Z.ltb_spec (0xffff - 0xc000) (n + 1)); [exists 0, q; auto|]. apply IH; lia.
  - exists q, q. split_and!; [done|lia|lia|]. right. split; [lia|]. intros Hin.
    apply not_true_iff_false in Hu. apply Hu, existsb_exists. exists q. split; [by apply list_elem_of_In|by apply Z.eqb_refl].
Qed.

Lemma new_port_ends b :
  in_range (b_port b) -> exists r last, tcp_new_port b = Done (r, set_b_port last b) /\ in_range last.
Proof.
  intros Hp. unfold tcp_new_port.
  destruct (new_port_found (map snd (pcb_locals b)) new_port_fuel (b_port b) 0) as (r & last & -> & Hl & _);
    [done|lia|unfold new_port_fuel; rewrite Z2Nat.id; lia|].
  by exists r, last.
Qed.

(** ** The listeners *)

Section opening.
Context `{Environment}.
Hypothesis granted_all : forall n, env_grants n = true.
Implicit Types b : bridge_stack.

(** A listener for all ports of an address family. *)
Definition wildcard (type : Z) : tcp_pcb_listen :=
  mk_listen (mk_ip_addr [0; 0; 0; 0] type) 0 TCP_PRIO_NORMAL 0 NETIF_NO_INDEX 0 (Some app_accept_fn).

(** What opening and closing listeners leaves alone. *)
Record same_connections b b' : Prop := mk_same_connections {
  sc_active : k_active (b_stack b') = k_active (b_stack b);
  sc_tw : k_tw (b_stack b') = k_tw (b_stack b);
  sc_gone : k_gone (b_stack b') = k_gone (b_stack b);
  sc_none : k_none (b_stack b') = k_none (b_stack b);
  sc_bound : b_bound b' = b_bound b;
}.

Lemma remove_bound_head p l : remove_bound (pcb_id p) (p :: l) = l.
Proof. simpl. by rewrite Z.eqb_refl, bool_decide_true. Qed.

Lemma update_head l l' k b :
  b_stack b = k -> (forall x, x ∈ tail (k_listen k) -> x <> l) -> head (k_listen k) = Some l ->
  b_stack (update_listener l l' b) = set_listen (l' :: tail (k_listen k)) k.
Proof.
  intros <- Ht Hh. unfold update_listener. cbn [b_stack set_b_stack]. f_equal.
  destruct (k_listen (b_stack b)) as [|x ls]; [done|]. injection Hh as ->. simpl in *. rewrite decide_True by done. f_equal.
  induction ls as [|x ls IH]; simpl; [done|]. rewrite decide_False by (apply Ht; by left). f_equal. apply IH.
  intros y Hy. apply Ht. by right.
Qed.

Definition family (v6 : bool) : Z := if v6 then IPADDR_TYPE_V6 else IPADDR_TYPE_V4.

(** A control block that is new, but perhaps for its port. *)
Record unused (v6 : bool) (port : Z) (p : tcp_pcb) : Prop := mk_unused {
  un_state : pcb_state p = CLOSED;
  un_ip : id_local_ip (pcb_id p) = mk_ip_addr [0; 0; 0; 0] (family v6);
  un_port : id_local_port (pcb_id p) = port;
  un_prio : id_prio (pcb_id p) = TCP_PRIO_NORMAL;
  un_options : id_so_options (pcb_id p) = 0;
  un_netif : id_netif_idx (pcb_id p) = NETIF_NO_INDEX;
  un_arg : callback_arg (cb p) = 0;
}.

Lemma new_pcb_ok (v6 : bool) b :
  let k := b_stack b in
  exists p, (if v6 then tcp_new_ip_type IPADDR_TYPE_V6 b else tcp_new b)
    = Done (Some p, set_b_stack (set_k_calls (k_calls k + 1) k) b) /\ unused v6 0 p.
Proof.
  intros k. unfold tcp_new_ip_type, tcp_new, tcp_alloc, memp_malloc_tcp. rewrite granted_all.
  destruct v6; eexists; (split; [done|by split]).
Qed.

Lemma bind_any_ok (v6 : bool) p b :
  in_range (b_port b) -> unused v6 0 p ->
  exists r last q, tcp_bind p (if v6 then IP6_ADDR_ANY else IP4_ADDR_ANY) 0 b =
    Done (if r =? 0 then ERR_BUF else ERR_OK, q,
          let b' := set_b_port last b in if r =? 0 then b' else set_b_bound (q :: b_bound b') b') /\
    in_range last /\ unused v6 r q.
Proof.
  intros Hp [Hst Hip Hport Hprio Hso Hni Harg]. destruct (new_port_ends b Hp) as (r & last & Hr & Hlast).
  exists r, last. unfold tcp_bind, state_is. rewrite Hst, bool_decide_true by done. cbn [negb]. change (0 =? 0) with true.
  cbv iota. rewrite Hr. cbn [obind mbind outcome_bind]. destruct (Z.eqb_spec r 0) as [->|].
  - exists p. by split_and!.
  - eexists. split_and!; [done|done|]. rewrite Hip. by destruct v6.
Qed.

Lemma listen_succeeds v6 r q b :
  unused v6 r q ->
  let k := b_stack b in
  let l := mk_listen (mk_ip_addr [0; 0; 0; 0] (family v6)) r TCP_PRIO_NORMAL 0 NETIF_NO_INDEX 0 (Some tcp_accept_null_fn) in
  tcp_listen q b = (Some l, ERR_OK,
    set_b_stack (set_listen (l :: k_listen k) (set_k_calls (k_calls k + 1) k))
      (if negb (r =? 0) then set_b_bound (remove_bound (pcb_id q) (b_bound b)) b else b)).
Proof.
  intros [Hst Hip Hport Hprio Hso Hni Harg] k l. unfold tcp_listen, state_is.
  rewrite Hst, bool_decide_true, granted_all by done. cbn [negb]. rewrite Hip, Hport, Hprio, Hso, Hni, Harg. done.
Qed.

(** One listener: the port that [tcp_bind] found, if any, does not matter. *)
Lemma open_listener_ok (v6 : bool) b :
  in_range (b_port b) -> Forall (fun l => l_accept l = Some app_accept_fn) (k_listen (b_stack b)) ->
  let l := wildcard (family v6) in
  exists b', open_tcp_listener v6 b = Done b' /\ k_listen (b_stack b') = l :: k_listen (b_stack b) /\
    (if v6 then b_listen_v6 b' else b_listen_v4 b') = Some l /\
    (if v6 then b_listen_v4 b' = b_listen_v4 b else b_listen_v6 b' = b_listen_v6 b) /\
    same_connections b b' /\ in_range (b_port b').
Proof.
  intros Hp Hl l. unfold open_tcp_listener. destruct (new_pcb_ok v6 b) as (p & -> & Hu).
  cbn [obind mbind outcome_bind].
  match goal with |- context [tcp_bind p _ 0 ?d] => destruct (bind_any_ok v6 p d Hp Hu) as (r & last & q & -> & Hlast & Hq) end.
  cbn [obind mbind outcome_bind]. rewrite (listen_succeeds v6 r q _ Hq). cbv beta iota zeta.
  match goal with |- context [update_listener ?l0 (tcp_accept _ _) ?d] =>
    set (b3 := d); set (raw := l0); change (tcp_accept app_accept_fn (force_port_0 raw)) with l;
    assert (k_listen (b_stack b3) = raw :: k_listen (b_stack b)) as Hk by (unfold b3; by destruct (r =? 0));
    assert (same_connections b b3) as [] by (unfold b3; destruct (r =? 0); split; try done; apply (remove_bound_head q));
    assert (b_port b3 = last /\ b_listen_v4 b3 = b_listen_v4 b /\ b_listen_v6 b3 = b_listen_v6 b) as (E1 & E2 & E3)
      by (unfold b3; by destruct (r =? 0)); clearbody b3
  end.
  assert (b_stack (update_listener raw l b3) = set_listen (l :: k_listen (b_stack b)) (b_stack b3)) as Hup.
  { rewrite (update_head raw l _ b3 eq_refl); rewrite Hk; [done| |done].
    intros x Hx ->. rewrite Forall_forall in Hl. by apply Hl in Hx. }
  destruct v6; (eexists; split; [done|]); cbn [b_stack set_b_listen_v4 set_b_listen_v6]; rewrite Hup;
    (do 3 (split; [done|])); (split; [|by change (in_range (b_port b3)); rewrite E1]);
    split; cbn [b_stack set_b_listen_v4 set_b_listen_v6]; by rewrite ?Hup.
Qed.

End opening.

(** ** Opening, whatever is granted *)

Section lifecycle.
Context `{Environment}.
Implicit Types (b : bridge_stack) (k : stack).

Definition ready b : Prop := settled (b_stack b) /\ in_range (b_port b).

Lemma bind_any_ends p addr b :
  in_range (b_port b) -> pcb_state p = CLOSED ->
  exists err q b', tcp_bind p addr 0 b = Done (err, q, b') /\ b_stack b' = b_stack b /\ in_range (b_port b') /\
    pcb_state q = CLOSED.
Proof.
  intros Hp Hst. destruct (new_port_ends b Hp) as (r & last & Hr & Hlast). unfold tcp_bind, state_is.
  rewrite Hst, bool_decide_true by done. cbn [negb]. change (0 =? 0) with true. cbv iota. rewrite Hr.
  cbn [obind mbind outcome_bind]. destruct (r =? 0); eexists _, _, _; (split; [done|]); (split; [done|]); (split; [done|]);
    [done|by case_match].
Qed.

Lemma update_settled l l' b :
  (forall x, x ∈ k_listen (b_stack b) -> x = l \/ l_accept x = Some app_accept_fn) -> l_accept l' = Some app_accept_fn ->
  forall k, settled k -> k_active (b_stack b) = k_active k -> k_tw (b_stack b) = k_tw k ->
  k_gone (b_stack b) = k_gone k -> k_none (b_stack b) = k_none k -> settled (b_stack (update_listener l l' b)).
Proof.
  intros Hl Hl' k [] Ha Ht Hg Hn. split; cbn; rewrite ?Ha, ?Ht, ?Hg, ?Hn; try done.
  apply Forall_forall. intros y Hy. apply list_elem_of_fmap in Hy as (x & -> & Hx).
  destruct (decide (x = l)); [done|]. by destruct (Hl x Hx).
Qed.

Lemma new_ends (v6 : bool) b :
  ready b -> exists p b', (if v6 then tcp_new_ip_type IPADDR_TYPE_V6 b else tcp_new b) = Done (p, b') /\ ready b' /\
    forall q, p = Some q -> pcb_state q = CLOSED.
Proof.
  intros [Hs Hp]. destruct (alloc_settles TCP_PRIO_NORMAL (b_stack b) Hs) as (p & k & He & Hk & Hq).
  unfold tcp_new_ip_type, tcp_new. rewrite He. destruct v6; eexists _, _; (split; [done|]); (split; [done|]).
  - destruct p as [p|]; [|done]. by intros q [= <-]; rewrite (Hq p).
  - by intros q ->; rewrite (Hq q).
Qed.

Lemma open_ends (v6 : bool) b : ready b -> exists b', open_tcp_listener v6 b = Done b' /\ ready b'.
Proof.
  intros Hb. unfold open_tcp_listener. destruct (new_ends v6 b Hb) as ([p|] & b1 & -> & Hb1 & Hst); cbn [obind mbind outcome_bind].
  2:{ eexists. split; [done|]. by destruct v6. }
  destruct Hb1 as [Hs1 Hp1].
  destruct (bind_any_ends p (if v6 then IP6_ADDR_ANY else IP4_ADDR_ANY) b1 Hp1 (Hst p eq_refl)) as (err & q & b2 & -> & E2 & Hp2 & Hq).
  cbn [obind mbind outcome_bind]. unfold tcp_listen, state_is. rewrite Hq, bool_decide_true by done. cbn [negb]. rewrite E2.
  destruct (env_grants _); cbn [negb].
  2:{ eexists. split; [done|]. split; [|by destruct v6]. destruct v6; by apply (settled_same (b_stack b1)). }
  eexists. split; [done|]. split; [|by destruct v6, (negb (_ =? 0))].
  cbv beta iota zeta. match goal with |- context [update_listener ?l ?l' ?d] =>
    assert (settled (b_stack (update_listener l l' d))) as Hd end; [|by destruct v6].
  apply (update_settled _ _ _) with (b_stack b1); try done. cbn.
  intros x [->|Hx]%elem_of_cons; [by left|right]. destruct Hs1 as [_ _ _ _ Hl]. rewrite Forall_forall in Hl. by apply Hl.
Qed.

(** *** The end *)

Lemma abandon_told reset c :
  pcb_state (c_pcb c) <> TIME_WAIT -> wlp (tcp_abandon reset) (fun _ c' => told c ERR_ABRT c') c.
Proof.
  intros Hst. unfold tcp_abandon. apply wlp_bind, wlp_pcb, wlp_bind, wlp_assert; intros _.
  unfold state_is at 1. rewrite bool_decide_false by done. cbv zeta. apply wlp_skip. intros [send port] c1.
  apply wlp_skip. intros _ c2. apply wlp_bind. unfold tcp_free. apply wlp_bind, wlp_pcb, wlp_bind, wlp_assert; intros _.
  apply wlp_modify, wlp_when; intros Herr; [apply wlp_emit|]; (split; [done|]); [|congruence].
  intros _. cbn. rewrite elem_of_app. right. by left.
Qed.

(** A connection of [l] is in the pool, and was told so. *)
Definition all_told (l gone : list conn) : Prop :=
  Forall (fun c => exists c', c' ∈ gone /\ told c ERR_ABRT c') l.

Lemma all_told_more l gone gone' : all_told l gone -> (forall c, c ∈ gone -> c ∈ gone') -> all_told l gone'.
Proof. intros Hl Hg. eapply Forall_impl; [exact Hl|]. intros c (c' & Hc' & Ht). exists c'. auto. Qed.

Lemma abort_one c l k :
  settled k -> k_active k = c :: l ->
  exists k', run_on tcp_abort c (set_active l k) = Done k' /\ settled k' /\ k_active k' = l /\ k_tw k' = k_tw k /\
    k_listen k' = k_listen k /\ exists c', k_gone k' = c' :: k_gone k /\ told c ERR_ABRT c'.
Proof.
  intros Hk Ha. pose proof (se_active _ Hk) as Hact. rewrite Ha in Hact. apply Forall_cons in Hact as [Hu Hl].
  pose proof (in_use_active_state _ Hu) as Hst. destruct Hu as [(iss & irs & stream & Hs & Hr) Hlive Hlist].
  assert (pcb_state (c_pcb c) <> TIME_WAIT) as Hne.
  { intros He. rewrite He in Hst. by vm_compute in Hst. }
  destruct (twp_done _ _ _ (twp_wlp _ _ _ _
    (abandon_rest iss irs stream true (enter (set_active l k) c) (rest_enter _ _ _ _ c Hr) Hlive)
    (abandon_told true (enter (set_active l k) c) Hne))) as ([] & c' & He & [Hr' Hdead] & Ht).
  eexists. split; [unfold run_on, tcp_abort; by rewrite He|].
  assert (rest c') as Hrest by (by exists iss, irs, stream).
  split; [apply settled_place; [by apply settled_leave, settled_active|done]|].
  unfold place. rewrite Hdead. cbn. split_and!; try done. by exists c'.
Qed.

Lemma abort_active_ends l : forall k,
  settled k -> k_active k = l ->
  exists k', abort_active (length l) k = Done k' /\ settled k' /\ k_active k' = [] /\ k_tw k' = k_tw k /\
    k_listen k' = k_listen k /\ all_told l (k_gone k') /\ (forall c, c ∈ k_gone k -> c ∈ k_gone k').
Proof.
  induction l as [|c l IH]; intros k Hk Ha; simpl; rewrite Ha.
  - exists k. split_and!; try done. constructor.
  - destruct (abort_one c l k Hk Ha) as (k1 & -> & Hk1 & Ha1 & Ht1 & Hl1 & c' & Hg & Htold).
    cbn [obind mbind outcome_bind]. destruct (IH k1 Hk1 Ha1) as (k' & -> & Hk' & Ha' & Ht' & Hl' & Hall & Hmore).
    exists k'. split_and!; try done; try congruence.
    + constructor; [|done]. exists c'. split; [apply Hmore; rewrite Hg; by left|done].
    + intros d Hd. apply Hmore. rewrite Hg. by right.
Qed.

Lemma timewait_gone c k :
  in_use TimeWaitList c ->
  twp (_ ← tcp_pcb_remove TimeWaitList; tcp_free) (fun _ c' => rest c' /\ c_live c' = false) (enter k c).
Proof.
  intros Hu. pose proof (in_use_tw_state _ Hu) as Hst. destruct Hu as [(iss & irs & stream & Hs & Hr) Hlive Hlist].
  pose proof (abandon_rest iss irs stream true (enter k c) (rest_enter _ _ _ k c Hr) Hlive) as Ha.
  unfold tcp_abandon in Ha. unfold twp in *.
  assert (pcb_ (enter k c) = Done (c_pcb c, enter k c)) as Hp by (unfold pcb_; cbn; by rewrite Hlive).
  unfold mbind at 1, tm_bind at 1 in Ha. rewrite Hp in Ha. rewrite Hst in Ha.
  replace (state_is (pcb_state (c_pcb c)) LISTEN) with false in Ha.
  2:{ apply bool_decide_eq_true in Hst. by rewrite Hst. }
  cbn [negb LWIP_ASSERT] in Ha. destruct ((_ ← tcp_pcb_remove TimeWaitList; tcp_free) (enter k c)) as [[u c']|] eqn:He.
  - change (match (_ ← tcp_pcb_remove TimeWaitList; tcp_free) (enter k c) with Done (a, c') => at_rest iss irs stream c' /\ c_live c' = false | Undef => False end) in Ha.
    rewrite He in Ha. destruct Ha. split; [by exists iss, irs, stream|done].
  - change (match (_ ← tcp_pcb_remove TimeWaitList; tcp_free) (enter k c) with Done (a, c') => at_rest iss irs stream c' /\ c_live c' = false | Undef => False end) in Ha.
    by rewrite He in Ha.
Qed.

Lemma free_timewait_ends l : forall k,
  settled k -> k_tw k = l ->
  exists k', free_timewait (length l) k = Done k' /\ settled k' /\ k_tw k' = [] /\ k_active k' = k_active k /\
    k_listen k' = k_listen k /\ (forall c, c ∈ k_gone k -> c ∈ k_gone k').
Proof.
  induction l as [|c l IH]; intros k Hk Ht; simpl; rewrite Ht; [by exists k|].
  pose proof (se_tw _ Hk) as Htw. rewrite Ht in Htw. apply Forall_cons in Htw as [Hu Hl].
  destruct (twp_done _ _ _ (timewait_gone c (set_tw l k) Hu)) as ([] & c' & He & Hr & Hdead).
  unfold run_on. rewrite He. cbn [obind mbind outcome_bind].
  match goal with |- context [free_timewait _ ?d] => set (k1 := d) end.
  assert (settled k1) as Hk1 by (apply settled_place; [by apply settled_leave, settled_tw|done]).
  assert (k_tw k1 = l /\ k_active k1 = k_active k /\ k_listen k1 = k_listen k /\ k_gone k1 = c' :: k_gone k) as (E1 & E2 & E3 & E4)
    by (unfold k1, place; by rewrite Hdead).
  destruct (IH k1 Hk1 E1) as (k' & -> & Hk' & Ht' & Ha' & Hl' & Hg'). exists k'. split_and!; try done; try congruence.
  intros d Hd. apply Hg'. rewrite E4. by right.
Qed.

End lifecycle.

(** *** Closing and aborting between callbacks *)

Section closing.
Context `{Environment}.
Variables (iss irs : Z) (stream : list Z).
Implicit Types c : conn.
Notation at_rest := (at_rest iss irs stream).

(** Java is not called again for the connection. *)
Definition unhooked c : Prop :=
  cb_recv (cb (c_pcb c)) = None /\ cb_sent (cb (c_pcb c)) = false /\ cb_errf (cb (c_pcb c)) = false /\
  callback_arg (cb (c_pcb c)) = 0.

Lemma clear_callbacks_ok c :
  at_rest c -> c_live c = true ->
  twp clear_callbacks (fun _ c' => at_rest c' /\ c_live c' = true /\ unhooked c') c.
Proof.
  intros Hr Hl. destruct Hr as [[]|n fin left [] Hleft Hi]; [congruence|].
  pose proof (not_listening iss c hd_sending) as Hn. unfold clear_callbacks, apply_setting.
  apply twp_bind, twp_bind, twp_pcb; [done|]. cbv zeta. apply twp_upd_pcb; [done|].
  do 2 (apply twp_bind, twp_bind, twp_pcb; [done|]; cbv zeta; apply twp_bind, twp_assert; [done|]; apply twp_upd_pcb; [done|]).
  apply twp_bind, twp_pcb; [done|]. cbv zeta. apply twp_bind, twp_assert; [done|]. apply twp_upd_pcb; [done|].
  match goal with |- TcpInputProofs.at_rest _ _ _ ?d /\ _ => assert (TcpInputProofs.hands iss irs stream n fin left d) as Hh end.
  { split; try done; [by apply (sending_same iss c)|by destruct hd_stands]. }
  split; [by apply (rest_open _ _ _ _ n fin left)|done].
Qed.

Lemma bridge_close_rests c :
  at_rest c -> c_live c = true -> twp lwip_bridge_tcp_close (fun _ c' => at_rest c') c.
Proof.
  intros Hr Hl. unfold lwip_bridge_tcp_close. apply twp_bind. eapply twp_mono; [by apply clear_callbacks_ok|].
  intros _ c1 (Hr1 & Hl1 & _). apply twp_bind. eapply twp_mono; [by apply (close_rest iss irs stream)|].
  intros err c2 [-> Hr2]. rewrite bool_decide_true by done. by apply twp_ret.
Qed.

Lemma bridge_abort_rests c :
  at_rest c -> c_live c = true -> twp lwip_bridge_tcp_abort (fun _ c' => at_rest c' /\ c_live c' = false) c.
Proof.
  intros Hr Hl. unfold lwip_bridge_tcp_abort. apply twp_bind. eapply twp_mono; [by apply clear_callbacks_ok|].
  intros _ c1 (Hr1 & Hl1 & _). by apply abandon_rest.
Qed.

End closing.

(** *** Listeners *)

Section found.
Context `{Environment}.

Lemma close_settled l k : settled k -> settled (close_listener l k).
Proof.
  intros Hk. destruct l as [l|]; [|done]. pose proof (se_listen _ Hk) as Hl. destruct Hk. split; try done. cbn.
  apply Forall_forall. intros x [_ Hx]%list_elem_of_filter. 
  rewrite Forall_forall in Hl. by apply Hl.
Qed.

Lemma same_connections_trans b b1 b2 : same_connections b b1 -> same_connections b1 b2 -> same_connections b b2.
Proof. intros [] []. split; congruence. Qed.

(** The listener of a segment's family is found, for its port when that is 0 and
    otherwise by the fallback. *)
Lemma two_listeners idx a type :
  ip_type (ad_dest_ip a) = type /\ (type = IPADDR_TYPE_V4 \/ type = IPADDR_TYPE_V6) ->
  let l := [wildcard IPADDR_TYPE_V6; wildcard IPADDR_TYPE_V4] in
  exists ls, find_listener idx a l = Some (wildcard type, ls) /\ ls ≡ₚ l /\
    find_listener idx a ls = Some (wildcard type, ls).
Proof.
  intros [Ht Hor] l.
  assert (forall t, t = IPADDR_TYPE_V4 \/ t = IPADDR_TYPE_V6 ->
    listen_matches idx a (wildcard t) = (0 =? ad_dest a) && (t =? type)) as Hm.
  { intros t Hor'. unfold listen_matches, listen_version_match, wildcard. cbn [l_netif_idx l_local_port l_local_ip ip_type].
    rewrite Ht. change (netif_matches NETIF_NO_INDEX idx) with true. destruct Hor' as [-> | ->].
    all: change (ip_addr_isany _) with true; rewrite orb_true_r, andb_true_r; by destruct (0 =? ad_dest a). }
  assert (forall t, listen_wildcard a (wildcard t) = (t =? type)) as Hw.
  { intros t. unfold listen_wildcard, listen_version_match. cbn. by rewrite Ht. }
  assert (forall x y, (x = IPADDR_TYPE_V4 /\ y = IPADDR_TYPE_V6) \/ (x = IPADDR_TYPE_V6 /\ y = IPADDR_TYPE_V4) ->
    find_listener idx a [wildcard x; wildcard y] = Some (wildcard type,
      if 0 =? ad_dest a then if x =? type then [wildcard x; wildcard y] else [wildcard y; wildcard x]
      else [wildcard x; wildcard y])) as Hfind.
  { intros x y Hxy. unfold find_listener. cbn [to_front find]. rewrite !Hm, !Hw by (destruct Hxy as [[-> ->]|[-> ->]]; auto).
    destruct Hxy as [[-> ->]|[-> ->]], Hor as [-> | ->]; by destruct (0 =? ad_dest a). }
  eexists. split; [by apply Hfind; right|].
  destruct Hor as [-> | ->], (0 =? ad_dest a); cbn -[find_listener]; (split; [done || apply Permutation_swap|]);
    rewrite Hfind by auto; done.
Qed.

End found.

(** ** A demonstration *)

Module DemoBridge.

(** Java takes every connection, writes back what it reads, and closes when the peer
    does, as [LwipTcpConnection.handleRemoteClose]. *)
Definition echo : java :=
  mk_java (fun _ => 1)
    (fun _ t d => match d with
                  | Some d => if zlen d <? 2 ^ 16
                              then JavaWrite d (fun _ => JavaOutput (JavaRecved (zlen d) JavaReturn)) else JavaReturn
                  | None => if refused_in t then JavaReturn else JavaClose JavaReturn
                  end)
    (fun _ _ _ => JavaReturn) (fun _ => false) (fun _ => true).

Definition tun_world : Environment :=
  mk_environment (fun _ => true) (fun _ => ERR_OK) (fun _ => true) 1500 1500 [] (fun _ => None)
    (fun _ => 0) (fun _ => 0) (bridge_application true echo).

(** A last word. *)
Definition say_bye : java_prog := JavaWrite [98; 121; 101] (fun _ => JavaOutput (JavaClose JavaReturn)).

Lemma say_bye_polite : polite say_bye.
Proof. by split. Qed.

Lemma careful_echo : careful_java echo.
Proof.
  split; [|done]. intros arg t [d|]; simpl.
  - destruct (Z.ltb_spec (zlen d) (2 ^ 16)); [|done]. by split.
  - by destruct (refused_in t).
Qed.

Definition started : bridge_stack :=
  mk_bridge_stack (mk_stack [] [] [] [] (established [hi_segment] hi 0) (input_globals syn) 0 0 0 6510 0) []
    TCP_LOCAL_PORT_RANGE_START None None.

Lemma started_ready : ready started.
Proof. destruct running_settled. split; [|by split]. split; try done; by constructor. Qed.

Lemma usable_in_tun_world : @usable_syn tun_world new_syn_segment.
Proof. destruct usable_new_syn as [? ? ? Hp]. split; [done..|exact Hp]. Qed.

(** Java aborts the connection when it gets data; no memory is granted. *)
Definition impatient : java :=
  mk_java (fun _ => 1) (fun _ _ _ => JavaAbort JavaReturn) (fun _ _ _ => JavaReturn) (fun _ => false) (fun _ => true).

Definition short_world : Environment :=
  mk_environment (fun _ => false) (fun _ => ERR_OK) (fun _ => true) 1500 1500 [] (fun _ => None)
    (fun _ => 0) (fun _ => 0) (bridge_application true impatient).

End DemoBridge.
Import DemoBridge.

(** *** An abort in a callback *)

Section abort.
Context `{Environment}.
Variables (j : java) (iss : Z).
Hypothesis app_bridge : env_app = bridge_application true j.
Implicit Types c : conn.

(** Java does nothing when it is told of sent data. *)
Lemma report_sent_idle fuel : forall acked c,
  (forall arg t len, java_sent j arg t len = JavaReturn) ->
  c_live c = true -> sending iss c -> 0 <= acked < 2 ^ 32 -> acked <= 65535 * (Z.of_nat fuel - 1) ->
  twp (report_sent fuel acked) (fun go c' => go = true /\ exists es, c' = set_trace (c_trace c ++ es) c /\ sending iss c') c.
Proof.
  induction fuel as [|fuel IH]; intros acked c Hj Hl Hc Ha Hf; [lia|]. cbn [report_sent].
  destruct (Z.ltb_spec 0 acked) as [Hpos|].
  2:{ apply twp_ret. split; [done|]. exists []. rewrite app_nil_r. by destruct c. }
  rewrite (wrap_small 16) by (unfold fits; lia). apply twp_bind.
  eapply (twp_mono _ (fun e c' => e = ERR_OK /\ exists es, c' = set_trace (c_trace c ++ es) c /\ sending iss c')).
  - unfold TCP_EVENT_SENT. apply twp_bind, twp_pcb; [done|]. destruct (cb_sent _).
    + unfold call_app. apply twp_bind, twp_gets, twp_bind. rewrite app_bridge. cbn [on_sent bridge_application].
      assert (forall arg t len, tcp_sent_cb true j arg t len = Return ERR_OK) as ->.
      { intros arg t len. unfold tcp_sent_cb. rewrite Hj. by destruct (_ && _). }
      apply twp_ret, twp_bind, twp_emit, twp_ret. split; [done|]. eexists. split; [done|]. by apply sending_app_event.
    + apply twp_ret. split; [done|]. exists []. rewrite app_nil_r. by destruct c.
  - intros e c1 (-> & es & -> & Hc1). rewrite bool_decide_false by done. rewrite wrap_small by (unfold fits; lia).
    eapply twp_mono; [apply IH; [done|done|done|lia|lia]|]. intros go c2 (-> & fs & -> & Hc2). split; [done|].
    exists (es ++ fs). cbn in *. by rewrite app_assoc in *.
Qed.

(** The connection is freed, and the answer does not say so. *)
Lemma aborting_delivery b c :
  c_live c = true -> sending iss c -> listed c -> refused_data (rx (c_pcb c)) = None ->
  has (pcb_flags (c_pcb c)) TF_RXCLOSED = false -> cb_recv (cb (c_pcb c)) = Some app_recv_fn ->
  callback_arg (cb (c_pcb c)) <> 0 -> recv_data (c_in c) = Some b ->
  java_recv j (callback_arg (cb (c_pcb c))) (c_trace c) (Some (rp_data b)) = JavaAbort JavaReturn ->
  java_chained j (c_trace c) && negb (java_memory j (c_trace c)) = false ->
  twp deliver_data (fun go c' => go = true /\ c_live c' = false /\ c_in c' = c_in c /\
    RecvCall (callback_arg (cb (c_pcb c))) (rp_data b) ERR_OK ∈ c_trace c') c.
Proof.
  intros Hl Hc Hlist Hr Hrx Hcb Harg Hb Hj Hm. pose proof (not_listening iss c Hc) as Hn.
  unfold deliver_data. apply twp_bind, twp_in. rewrite Hb.
  apply twp_bind, twp_pcb; [done|]. rewrite Hr, Hrx. apply twp_bind, twp_ret, twp_bind.
  unfold TCP_EVENT_RECV. apply twp_bind, twp_pcb; [done|]. rewrite Hcb. unfold call_app. apply twp_bind, twp_gets, twp_bind.
  rewrite app_bridge. cbn [on_recv bridge_application]. unfold tcp_recv_cb.
  rewrite (proj2 (Z.eqb_neq _ _) Harg), Hm, Hj. cbn [run_java abort_call run_app]. unfold apply_setting.
  apply twp_bind, twp_bind, twp_pcb; [done|]. cbv zeta. apply twp_upd_pcb; [done|].
  do 3 (apply twp_bind, twp_bind, twp_pcb; [done|]; cbv zeta; apply twp_bind, twp_assert; [done|]; apply twp_upd_pcb; [done|]).
  apply twp_bind. eapply twp_mono; [apply (abandon_ok iss); [done| |done]|].
  { by apply (sending_same iss c). }
  intros u c1 [E1 E2 E3 E4 E5]. apply twp_ret, twp_bind, twp_emit, twp_ret.
  rewrite bool_decide_false by done. rewrite bool_decide_true by done. cbn [negb when]. apply twp_bind, twp_ret, twp_ret.
  split_and!; [done|done|exact E4|]. cbn. apply elem_of_app. right. by left.
Qed.

Lemma bind_done {A B} (m : TM A) (k : A -> TM B) c a c' : m c = Done (a, c') -> (m ≫= k) c = k a c'.
Proof. unfold mbind, tm_bind. by intros ->. Qed.

(** A freed control block is used, whatever the end of the stream. *)
Lemma dead_input_undefined c :
  c_live c = false -> has (recv_flags (c_in c)) TF_CLOSED = false ->
  (go ← deliver_fin;
   if negb go then mret tt else
   _ ← modify (set_input_pcb false);
   closed ← tcp_input_delayed_close;
   if (closed : bool) then mret tt else
   _ ← tcp_output;
   mret tt) c = Undef.
Proof.
  intros Hl Hcl.
  assert (forall d, c_live d = false -> pcb_ d = Undef) as Hpcb by (intros d Hd; unfold pcb_; by rewrite Hd).
  unfold deliver_fin, tcp_input_delayed_close, tcp_output, mbind, tm_bind. cbn [in_ gets].
  destruct (has (recv_flags (c_in c)) TF_GOT_FIN) eqn:Hfin; rewrite ?Hpcb by done; [done|].
  cbn [mret tm_ret negb modify c_in set_input_pcb]. rewrite Hcl. cbn. by rewrite Hpcb.
Qed.

Lemma idle_report c :
  (forall arg t len, java_sent j arg t len = JavaReturn) ->
  c_live c = true -> sending iss c -> 0 <= recv_acked (c_in c) < 2 ^ 32 ->
  twp (if 0 <? recv_acked (c_in c) then
         go ← report_sent (report_fuel (recv_acked (c_in c))) (recv_acked (c_in c));
         _ ← when go (upd_in (set_recv_acked 0));
         mret go
       else mret true)
    (fun go c' => go = true /\ c_live c' = true /\ c_pcb c' = c_pcb c /\ c_list c' = c_list c /\ sending iss c' /\
      recv_data (c_in c') = recv_data (c_in c) /\ recv_flags (c_in c') = recv_flags (c_in c)) c.
Proof.
  intros Hj Hl Hc Ha. destruct (_ <? _); [|by apply twp_ret]. apply twp_bind.
  eapply twp_mono; [apply report_sent_idle; [done|done|done|lia|apply report_fuel_enough; lia]|].
  intros go c1 (-> & es & -> & Hc1). apply twp_bind, twp_upd_in, twp_ret. split_and!; try done.
  by apply (sending_same iss (set_trace (c_trace c ++ es) c)).
Qed.

End abort.

(** C14: when Java aborts a connection in its receive callback, as
    [LwipTcpConnection.appendPendingData] does, the control block is freed, yet
    [tcp_recv_cb] answers [ERR_OK] instead of [ERR_ABRT] (to a packet in one pbuf, or
    with memory for the copy of a chained one); [tcp_input] goes on and uses the freed
    block. This holds of every connection for which [tcp_process] left data to deliver,
    with the bridge's callbacks in place and nothing else to report but acknowledged
    data, to which Java does nothing; and so of every segment that leads there. *)
Theorem abort_in_callback_uses_freed_block `{Environment} j iss b c :
  env_app = bridge_application true j ->
  (forall arg t, java_recv j arg t (Some (rp_data b)) = JavaAbort JavaReturn) ->
  (forall arg t len, java_sent j arg t len = JavaReturn) ->
  (forall t, java_chained j t && negb (java_memory j t) = false) ->
  c_live c = true -> sending iss c -> listed c -> refused_data (rx (c_pcb c)) = None ->
  has (pcb_flags (c_pcb c)) TF_RXCLOSED = false -> cb_recv (cb (c_pcb c)) = Some app_recv_fn ->
  callback_arg (cb (c_pcb c)) <> 0 ->
  recv_data (c_in c) = Some b -> 0 <= recv_acked (c_in c) < 2 ^ 32 ->
  has (recv_flags (c_in c)) TF_RESET = false -> has (recv_flags (c_in c)) TF_CLOSED = false ->
  (exists c1 c2, c_live c1 = true /\ cb (c_pcb c1) = cb (c_pcb c) /\ deliver_data c1 = Done (true, c2) /\
     c_live c2 = false /\ RecvCall (callback_arg (cb (c_pcb c))) (rp_data b) ERR_OK ∈ c_trace c2) /\
  tcp_input_events c = Undef /\
  (forall s c0, c_live c0 = true -> refused_data (rx (c_pcb c0)) = None ->
     tcp_process (i_addr s) (set_input_pcb true (set_in (input_globals s) c0)) = Done (ERR_OK, c) ->
     tcp_input_pcb s c0 = Undef).
Proof.
  intros Happ Hrecv Hsent Hmem Hl Hc Hlist Hr Hrx Hcb Harg Hb Hack Hreset Hclosed.
  destruct (twp_done _ _ _ (idle_report j iss Happ c Hsent Hl Hc Hack))
    as (go & c1 & Hrun1 & -> & Hl1 & Hp1 & Hlist1 & Hc1 & Hb1 & Hf1).
  rewrite <- Hp1 in Hr, Hrx, Hcb, Harg. rewrite Hb in Hb1.
  assert (listed c1) as Hlist2 by (unfold listed in *; by rewrite Hp1, Hlist1).
  destruct (twp_done _ _ _ (aborting_delivery j iss Happ b c1 Hl1 Hc1 Hlist2 Hr Hrx Hcb Harg Hb1 (Hrecv _ _) (Hmem _)))
    as (go & c2 & Hd & -> & Hl2 & Hi2 & Hin2).
  assert (has (recv_flags (c_in c1)) TF_CLOSED = false) as Hcl1 by (by rewrite Hf1).
  assert (tcp_input_events c = Undef) as Hev.
  { unfold tcp_input_events. rewrite (bind_done in_ _ c (c_in c) c eq_refl), Hreset.
    rewrite (bind_done _ _ c true c1 Hrun1). cbn [negb].
    assert (tcp_input_delayed_close c1 = Done (false, c1)) as Hdc.
    { unfold tcp_input_delayed_close. rewrite (bind_done in_ _ c1 (c_in c1) c1 eq_refl). by rewrite Hcl1. }
    rewrite (bind_done _ _ c1 false c1 Hdc), (bind_done _ _ c1 true c2 Hd). cbn [negb].
    apply dead_input_undefined; [done|by rewrite Hi2]. }
  split_and!; [|done|].
  - exists c1, c2. by rewrite <- Hp1.
  - intros s c0 Hl0 Hr0 Hproc. unfold tcp_input_pcb. set (d := set_in (input_globals s) c0) in *.
    rewrite (bind_done (modify (set_in (input_globals s))) _ c0 tt d eq_refl).
    assert (retry_refused d = Done (true, d)) as Hretry.
    { unfold retry_refused. unfold pcb_, mbind, tm_bind. cbn. by rewrite Hl0, Hr0. }
    rewrite (bind_done _ _ d true d Hretry). cbn [negb]. unfold mbind at 1, tm_bind at 1.
    rewrite (bind_done (modify (set_input_pcb true)) _ d tt (set_input_pcb true d) eq_refl), (bind_done _ _ _ _ _ Hproc).
    rewrite bool_decide_false by done. by rewrite Hev.
Qed.

(** The established connection of [TcpMain.Demo] gets "hi"; no memory is granted. *)
Lemma abort_in_callback_uses_freed_block_witness :
  exists c, @tcp_process short_world peer (set_input_pcb true (set_in (input_globals
      (segment 101 6516 (Z.lor TCP_PSH TCP_ACK) [] hi)) (established [hi_segment] hi 0))) = Done (ERR_OK, c) /\
    @tcp_input_events short_world c = Undef /\
    @tcp_input_pcb short_world (segment 101 6516 (Z.lor TCP_PSH TCP_ACK) [] hi) (established [hi_segment] hi 0) = Undef.
Proof.
  eexists. split; [by vm_compute|].
  match goal with |- @tcp_input_events _ ?d = _ /\ _ =>
    assert (sending 6515 d) as Hd; [|destruct (@abort_in_callback_uses_freed_block short_world impatient 6515
      (mk_rx_pbuf hi PBUF_FLAG_PUSH) d) as (_ & Hev & Hin); [done..|]] end.
  - split; [by split| |repeat constructor]. split; try done. by apply Forall_singleton, hi_segment_ok.
  - exact (conj Hev (Hin (segment 101 6516 (Z.lor TCP_PSH TCP_ACK) [] hi) (established [hi_segment] hi 0) eq_refl eq_refl eq_refl)).
Defined.

(** C6: from its start on, with the bridge as the application of lwIP and its functions
    set: the listeners are opened as far as there is memory; then come packets, timers and
    Java's calls on connections between two callbacks, a close or abort last, under the
    conditions of [all_expected]; in their callbacks the methods of Java write, output,
    acknowledge and close, but do not abort a connection, nor close one whose data was
    refused for want of memory. Everything happens without a failed assertion and
    without use of a freed control block, up to the end or up to a slow timer that finds a
    connection whose persist timer may fail an assertion; what is reached is whole, and the
    shutdown from there ends, leaves no connection, and tells the owner of every
    connection in use. *)
Theorem bridge_tcp_lifecycle `{Environment} j hs b :
  env_app = bridge_application true j -> careful_java j -> settled (b_stack b) -> in_range (b_port b) ->
  exists b1, open_tcp_listeners b = Done b1 /\ settled (b_stack b1) /\
    (all_expected hs (b_stack b1) ->
     exists hs1 hs2 k2 b3, hs = hs1 ++ hs2 /\ happen_all hs1 (b_stack b1) = Done k2 /\ settled k2 /\
       match hs2 with [] => True | h :: _ => halts h k2 = true end /\
       shutdown_tcp (set_b_stack k2 b1) = Done b3 /\ settled (b_stack b3) /\
       k_active (b_stack b3) = [] /\ k_tw (b_stack b3) = [] /\ b_listen_v4 b3 = None /\ b_listen_v6 b3 = None /\
       Forall (fun c => exists c', c' ∈ k_gone (b_stack b3) /\ told c ERR_ABRT c') (k_active k2)).
Proof.
  intros Happ Hj Hs Hp.
  destruct (open_ends false b (conj Hs Hp)) as (b0 & Hopen0 & Hb0).
  destruct (open_ends true b0 Hb0) as (b1 & Hopen1 & [Hs1 Hp1]).
  exists b1. split; [unfold open_tcp_listeners; by rewrite Hopen0|]. split; [done|]. intros Hhs.
  assert (orderly env_app) as Horder by (rewrite Happ; by apply bridge_orderly).
  destruct (happenings_settle hs (b_stack b1) Horder Hs1 Hhs) as (hs1 & hs2 & k2 & Hsplit & Hrun & Hk2 & Hend).
  destruct (abort_active_ends (k_active k2) k2 Hk2 eq_refl) as (k3 & He3 & Hk3 & Ha3 & _ & Hl3 & Htold & _).
  destruct (free_timewait_ends (k_tw k3) k3 Hk3 eq_refl) as (k4 & He4 & Hk4 & Ht4 & Ha4 & Hl4 & Hg4).
  set (k5 := close_listener (b_listen_v6 b1) (close_listener (b_listen_v4 b1) k4)).
  exists hs1, hs2, k2, (set_b_listen_v4 None (set_b_listen_v6 None (set_b_stack k5 (set_b_stack k2 b1)))).
  assert (k_active k5 = [] /\ k_tw k5 = [] /\ k_gone k5 = k_gone k4) as (E1 & E2 & E3).
  { unfold k5, close_listener. rewrite <- Ha4 in Ha3. destruct (b_listen_v4 b1), (b_listen_v6 b1); split_and!; done || congruence. }
  split_and!; try done.
  - unfold shutdown_tcp, lwip_bridge_abort_all_tcp. cbn [b_stack set_b_stack]. rewrite He3. cbn [obind mbind outcome_bind]. by rewrite He4.
  - cbn [b_stack set_b_listen_v4 set_b_listen_v6 set_b_stack]. by apply close_settled, close_settled.
  - cbn [b_stack set_b_listen_v4 set_b_listen_v6 set_b_stack]. rewrite E3. by eapply all_told_more.
Qed.

Lemma bridge_tcp_lifecycle_witness :
  exists b1, @open_tcp_listeners tun_world started = Done b1 /\
    exists hs1 hs2 k2, [Packet tun (ad_src_ip peer) (ad_dest_ip peer) syn_packet; FastTimers; SlowTimers;
        Calls 0 (run_java say_bye (Return ERR_OK))] = hs1 ++ hs2 /\
      @happen_all tun_world hs1 (b_stack b1) = Done k2 /\ settled k2 /\
      match hs2 with [] => True | h :: _ => halts h k2 = true end.
Proof.
  destruct (@bridge_tcp_lifecycle tun_world echo
    [Packet tun (ad_src_ip peer) (ad_dest_ip peer) syn_packet; FastTimers; SlowTimers;
     Calls 0 (run_java say_bye (Return ERR_OK))] started eq_refl careful_echo
    (proj1 started_ready) (proj2 started_ready)) as (b1 & Hb1 & _ & Hrun).
  exists b1. split; [exact Hb1|].
  assert (k_active (b_stack b1) = []) as Ha by (apply (f_equal (fun o => match o with Done b => k_active (b_stack b) | Undef => [] end)) in Hb1; symmetry; exact Hb1).
  destruct Hrun as (hs1 & hs2 & k2 & _ & Hsplit & Hk2 & Hs2 & Hend & _); [|exists hs1, hs2, k2; exact (conj Hsplit (conj Hk2 (conj Hs2 Hend)))].
  split; [|do 2 (intros ? _; split; [done|]); intros ? _; split; [apply run_java_courteous, say_bye_polite|done]]. split; [done|]. rewrite syn_read. intros s [= <-].
  split; [intros c Hc; rewrite Ha in Hc; by apply elem_of_nil in Hc|]. intros _ _. exact usable_in_tun_world.
Defined.

(** C13: after the start every address of either family and every port have a listener:
    a segment for either finds the one of its family, with the bridge's accept callback,
    and once it is found for its port it is found first. *)
Theorem bridge_listens_on_every_port `{Environment} b idx a :
  (forall n, env_grants n = true) -> in_range (b_port b) -> k_listen (b_stack b) = [] ->
  exists b', open_tcp_listeners b = Done b' /\ same_connections b b' /\
    b_listen_v4 b' = Some (wildcard IPADDR_TYPE_V4) /\ b_listen_v6 b' = Some (wildcard IPADDR_TYPE_V6) /\
    k_listen (b_stack b') = [wildcard IPADDR_TYPE_V6; wildcard IPADDR_TYPE_V4] /\
    forall type, ip_type (ad_dest_ip a) = type -> type = IPADDR_TYPE_V4 \/ type = IPADDR_TYPE_V6 ->
      exists ls, find_listener idx a (k_listen (b_stack b')) = Some (wildcard type, ls) /\
        ls ≡ₚ k_listen (b_stack b') /\ find_listener idx a ls = Some (wildcard type, ls).
Proof.
  intros Hg Hp Hl. destruct (open_listener_ok Hg false b Hp) as (b0 & He0 & Hk0 & Hv0 & Hw0 & Hs0 & Hp0); [by rewrite Hl|].
  destruct (open_listener_ok Hg true b0 Hp0) as (b1 & He1 & Hk1 & Hv1 & Hw1 & Hs1 & _).
  { rewrite Hk0, Hl. by repeat constructor. }
  rewrite Hl in Hk0. rewrite Hk0 in Hk1. exists b1. unfold open_tcp_listeners. rewrite He0. cbn [obind mbind outcome_bind].
  split_and!; try done; [by eapply same_connections_trans|by rewrite Hw1|]. rewrite Hk1. intros type Ht Hor.
  by apply two_listeners.
Qed.

Lemma bridge_listens_on_every_port_witness :
  exists b', @open_tcp_listeners tun_world started = Done b' /\
    exists ls, find_listener 1 peer (k_listen (b_stack b')) = Some (wildcard IPADDR_TYPE_V4, ls).
Proof.
  destruct (@bridge_listens_on_every_port tun_world started 1 peer (fun _ => eq_refl) ltac:(done) eq_refl)
    as (b' & Hb' & _ & _ & _ & _ & Hf).
  exists b'. split; [exact Hb'|]. destruct (Hf IPADDR_TYPE_V4 eq_refl (or_introl eq_refl)) as (ls & Hls & _).
  exists ls. exact Hls.
Defined.
